(* ===== verification/_CoqProject ===== *)
-Q . S2P
Prelude.v
JsNumber.v
SafeInteger.v
JsString.v
JsDate.v
DateNumber.v
Metrics.v
Matching.v
Decision.v
ProductMatchers.v
Coupon.v
CoupangProfit.v
CoupangPipeline.v
StorageKey.v
SecurityAudit.v
FileStorage.v
Effects.v
Tombstone.v
TombstoneObjects.v
TombstoneRows.v
TombstoneSafety.v
TombstoneGuarantees.v
Concurrency.v
Transactions.v
Access.v
Limits.v
Users.v
UploadStorage.v
UsersSafety.v
Auth.v
AuthSafety.v
UsersGuarantees.v
UsersRaces.v
LocalCredentials.v
LocalAccounts.v
LocalSafety.v
LocalGuarantees.v
RequestBody.v
Pattern.v
FixedDecimals.v
Timeline.v
RuledTable.v
RuledErasure.v
CoupangPriceText.v
CoupangMargin.v
CoupangSheets.v
CoupangDb.v
CoupangVersions.v
CoupangVersionsSafety.v
CoupangRules.v
CoupangUploads.v
CoupangCostUploads.v
CoupangSheetUploads.v
CoupangRulesSafety.v
CoupangRollback.v
CoupangImports.v
CoupangFeesSafety.v
CoupangRulesGuarantees.v
CoupangUploadsGuarantees.v
CoupangSheetGuarantees.v
CoupangSheetRemoval.v
ZipArchive.v
UploadProfiles.v
UploadText.v
UploadXlsx.v
UploadPreflight.v
JsonSafety.v
ExchangeRates.v
ExchangeRatesGuarantees.v
RequestSecurity.v
RequestGuards.v
MetaRows.v
MetaVersions.v
MetaTables.v
MetaGuarantees.v
