(* ===== verification/Prelude.v ===== *)
(** * Verification of the Ads-Management core

    The repository is a performance hub for advertising: a NestJS API
    (apps/api), a web client (apps/web) and operator programs
    (apps/api/maintenance).  This library models the API's core logic and its
    stateful storage service, and proves what makes them correct.  All paths
    below are under src/; [domain/] and [storage/] stand for
    apps/api/src/domain/ and apps/api/src/storage/.

    ** How the code is modelled

    A JavaScript number is an IEEE binary64 value ([JsNumber.num], computed by
    the rounding of the standard library's SpecFloat); theorems about money and
    counts are stated for whole amounts within the safe-integer range, where
    [SafeInteger] proves that the arithmetic is exact.  A string is a list of
    UTF-16 code units ([JsString]); what depends on Unicode tables or on the
    host's locale (case, NFKC, localeCompare) is a class with documented laws.
    A date is its time value ([JsDate]).  Code that throws returns [result];
    the storage service is a computation of the monad of [Effects], in which
    every call may fail before or after its effect and a transaction may be
    rolled back or committed without an answer; the account services are
    requests of [Concurrency], which also interleave.
    Prisma queries are modelled by what they ask of a table; SHA-256, random
    identifiers and the chunks of a stream are parameters.

    ** Files

    - Prelude: arrays, [sort], [Set], [Map], grouping, tactics and hints.
    - JsNumber, SafeInteger: numbers, and their exactness on safe integers.
    - JsString, JsDate: strings, exceptions and JSON values; the calendar.
    - DateNumber: domain/date-number.ts, domain/effective-rule.ts,
      common/date-range.ts.  Accepted dates are canonical and read back, a
      range counts its days, the effective rule is the best one covering a day.
    - Metrics: domain/margin-calculator.ts, period-metric-calculator.ts,
      meta-video-metrics.ts, comparison-calculator.ts and
      cafe24-sales-calculator.ts, one Module each.  Totals are sums whatever
      the order of the rows; the Cafe24 margin is the shared margin.
    - Matching: domain/matching.ts, adset-name-normalizer.ts and
      creative-name-parser.ts.  Comparing date texts is comparing days; a
      product is found by manual history, then by the best rule.
    - Decision: domain/decision-classifier.ts and duplicate-policy.ts, and in
      Module Service the run of decisions/decisions.service.ts.  Decisions
      exclude each other as they should and a stage gets one verdict.
    - ProductMatchers: domain/cafe24-matcher.ts, coupang-product-matcher.ts,
      coupang-price-resolver.ts, one Module each.  The outcome is characterised
      on every branch, ambiguous matches included.
    - Coupon: domain/cafe24-coupon-matcher.ts.  The selected rule is optimal
      and the discount is spread over the products without loss.
    - CoupangProfit, CoupangPipeline: domain/coupang-profit-calculator.ts and
      coupang-profit-pipeline.ts, from reported sales and manual purchases to
      the combined profit of a product and day.
    - StorageKey, FileStorage: storage/storage-reference.ts, file-storage.ts
      (the class [FileStorage] and the laws [FileStorageLaws] its clients use),
      local-file-storage.ts (an instance that satisfies the laws) and
      configured-file-storage.ts.  An accepted key stays below the root.
    - SecurityAudit: security-audit/security-audit.types.ts.
    - Effects: the monad and its rules ([wp]).
    - Tombstone: storage/storage-tombstone.service.ts, every method.
      TombstoneObjects, TombstoneRows and TombstoneSafety prove what each step
      does; TombstoneGuarantees states the theorems on whole runs: no object is
      lost, answers are true, only an authorised purge destroys, and retaining
      then restoring is the identity.  The first two ask that a [retain] names a
      key of the record it is about, which the service does not check; without
      it an object can be lost (an example shows how).
    - UploadStorage: uploads/upload-storage.service.ts, the references and files
      of Meta uploads, whose keys are those of one upload each: with them that
      condition holds.
    - Limits: common/heavy-operation.ts, storage/temporary-storage-budget.ts
      and auth/postgres-security-rate-limiter.ts, one Module each: what they
      admit, after any sequence of requests.
    - Access: the policies that only compute: auth/role-permissions.ts,
      users/invite-state-machine.ts, auth/session-idle.ts,
      auth/email-normalizer.ts, common/safe-export-cell.ts.
    - Concurrency: requests as trees of transactions and calls, the system
      that interleaves them, and rely-guarantee specifications ([safe]).
    - Users: users/users.service.ts and user-lifecycle.errors.ts on that, with
      the interface of auth/identity-provider.ts as a class with laws.  Auth:
      auth/auth.service.ts without refresh, auth.errors.ts,
      invitation.errors.ts, supabase-jwt.verifier.ts.  UsersSafety and
      AuthSafety show that every transaction and call keeps the invariant and
      the guarantee; UsersGuarantees concludes for every interleaving: a super
      administrator remains, invitations follow their state machine, changes
      are audited, and no identity of an account in use is deleted.  UsersRaces
      runs the read and the write of an update as two actions among all other
      requests: authorization versions tell changes apart, but for an update that
      overtook another transaction, which an example shows.
    - LocalCredentials: auth/local-credentials.ts, user names, passwords and
      the limiter of key derivations.  LocalAccounts:
      auth/local-auth.service.ts and users/local-users.service.ts, every
      method, as requests that interleave.  LocalSafety shows what each
      transaction keeps, LocalGuarantees concludes: a super administrator
      remains, an authenticated caller is an active account with a live
      session, a setup token opens once, what is revoked stays revoked, and a
      password reset ends every old way in.
    - Transactions: how a transaction that succeeded is taken apart, and the
      relations that transactions keep ([respects]).
    - RequestBody: the values of a request body, and the interface of the
      decimal library as a class with laws; FixedDecimals is an instance.
    - Timeline: settings as rows with first and last days, the pass that stores
      the last days and the choice of the row for a day, with the history from
      first days to settings that they stand for.  RuledTable: a table of such
      histories, one per owner, and what statements do to it.
      RuledErasure: tables that agree but for the last days of some owners.
    - Pattern: regular expressions as JavaScript runs them, with the texts they
      match.  CoupangPriceText, CoupangMargin: domain/coupang-price-text.ts and
      coupang-margin-csv.ts, one Module each: which lines and rows are accepted.
    - CoupangDb, CoupangRules: coupang/coupang.service.ts, the tables, and the
      requests on cost rules, product settings and sales fees.
      CoupangRulesSafety and CoupangFeesSafety show what each of them does to
      the histories; CoupangRulesGuarantees concludes: the selected rule is the
      setting in force, a saved or corrected cost changes the history on its
      day only, and every table stays a table of timelines.
    - CoupangVersions, CoupangUploads, CoupangCostUploads: of the same service
      the versions of imported rows, the reservation of uploads and their
      retries, the imports of price lists and margin sheets, and deleteUpload.
      CoupangRollback and CoupangImports show what taking back the rows of an
      upload undoes and what its rows did; CoupangUploadsGuarantees concludes:
      an import that succeeded can be removed at once, which restores every
      cost rule and upload, and a removal out of order is refused.
    - CoupangSheets, CoupangSheetUploads: the imports of sales and advertising
      sheets, from the cells of a sheet to versioned rows.  CoupangVersionsSafety
      shows what a row does to the versions of its key; CoupangSheetGuarantees
      and CoupangSheetRemoval conclude: a key has at most one current row through
      any sequence of imports and removals, and a sales import can be removed.
    - MetaRows: uploads/meta-metric-write-data.ts, upload-contracts.ts and
      meta-adset-aggregates.ts, the rows of Meta metrics and the day of an ad
      set computed from its ads.  MetaVersions: uploads/upload-keys.ts,
      meta-metric-version.service.ts, meta-adset-aggregate.service.ts, the loop
      of meta-ad-daily-import.service.ts over its metrics and what
      upload-lifecycle.service.ts deletes and restores.  MetaTables shows what
      each statement does to a table of versions, over the class [MetricTable]
      of which both tables are instances; MetaGuarantees concludes: a current
      row is the newest of its key, an import serves exactly the rows of its
      file and ad sets computed from them, and deleting an upload just imported
      restores all but what its snapshot hid.
    - ZipArchive, UploadProfiles, UploadText, UploadXlsx, UploadPreflight:
      file-security/, the checks of an uploaded file and its name before
      anything reads it: the bytes of a ZIP directory, profiles and the streams
      that are cut off at a limit, text files, spreadsheets, and the whole
      check of a file or a bundle.  What is accepted is within every limit.
      JsonSafety: validation/dangerous-json-keys.pipe.ts; a body is accepted
      exactly if no object in it has a dangerous key, within depth and size.
    - ExchangeRates: exchange-rates/ and uploads/upload-exchange-rate.service.ts
      as requests that interleave; ExchangeRatesGuarantees: every stored rate
      was published by the bank for the day it names, and the rates of an
      upload, once ensured, stand.
    - RequestSecurity: auth/request-security.service.ts, cookie.service.ts and
      the five guards of a request; RequestGuards: what they admit, that a
      message of the edge is used once, and that issued tokens are accepted.

    ** Recursion and bounds

    Recursion is structural, on lists, texts or a number of digits, days or
    lines, but for two loops with fuel, each with a theorem that the fuel is
    enough: the reading of a ZIP directory
    ([ZipArchive.inspectRawCentralDirectory_ends]) and the walk through a JSON
    body, bounded by its number of nodes ([JsonSafety.assertSafeJsonKeys_spec]).
    The digit functions take a fuel of 20, more than the digits of any safe
    integer, and the shortest text of a number tries up to 17 digits, which
    denote any binary64 number, at a magnitude below 700.  No theorem is about
    a run that could run out of fuel.

    ** Not modelled

    In the storage service concurrent requests are modelled only for the
    insertion of a tombstone ([Effects.Raced]), the advisory lock taken by each
    transaction being the reason why its transactions are not interleaved.  In
    the account services requests interleave between transactions, and each
    transaction is one action, which is stronger than READ COMMITTED where two
    transactions take different locks (see Users); the update
    of an account, which decides by the row it has read whether the version
    rises, is split into its read and its write in UsersRaces.  The transactions of the
    Coupang histories are one action each because of their advisory locks; those
    of Meta imports too, where the unique constraint on versions refuses one of
    two that write the same key at once.  Versions and counters of rows are
    unbounded integers, except the rate limiter's counter.  Foreign keys are
    modelled where deleting depends on them.

    Left out of modelled components: AuthService.refresh, whose transaction
    holds a lock during provider calls; the deletion of expired sessions; the
    checks of the local directory for links and special files and the
    durability protocol of its pending files; the replay of a message of the
    edge between the check of its nonce and its statement; in a Meta import the
    reservation of the upload with its file and fence, the writing of campaigns,
    ads and creatives, and the rows kept of an upload.

    Not modelled, with no logic of their own beyond queries and calls of the
    modelled parts: the services of Cafe24 sales, products, mappings, settings,
    metrics, reports and change logs, the manual purchases, groups, promotion
    imports and reports of apps/api/src/coupang, and the authentication
    controller.  Not modelled because they are mostly input and output of other
    systems: the Supabase and Windows adapters, the spreadsheet and CSV readers
    (the imports start from the text or cells of a file), server set-up, the operator
    programs of apps/api/maintenance, the web client, and the tests. *)

From Stdlib Require Export ZArith Lia Bool.
From Stdlib Require Import Sorting.Sorted.
From stdpp Require Export base decidable option list gmap.

(** ** Tactics and hints of the development *)

Create HintDb js.
Create Rewrite HintDb js.

(** Split boolean connectives into propositions. *)
Ltac bool_simpl :=
  repeat match goal with
  | H : context [_ && _ = true] |- _ => rewrite andb_true_iff in H
  | H : context [_ || _ = true] |- _ => rewrite orb_true_iff in H
  | H : context [_ && _ = false] |- _ => rewrite andb_false_iff in H
  | H : context [_ || _ = false] |- _ => rewrite orb_false_iff in H
  | H : context [negb _ = true] |- _ => rewrite negb_true_iff in H
  | H : context [negb _ = false] |- _ => rewrite negb_false_iff in H
  | |- context [_ && _ = true] => rewrite andb_true_iff
  | |- context [_ || _ = true] => rewrite orb_true_iff
  | |- context [negb _ = true] => rewrite negb_true_iff
  | |- context [_ && _ = false] => rewrite andb_false_iff
  | |- context [_ || _ = false] => rewrite orb_false_iff
  | |- context [negb _ = false] => rewrite negb_false_iff
  end.

(** Case analysis on the innermost [if] or [match] of the goal. *)
Ltac split_match :=
  match goal with
  | |- context [match ?e with _ => _ end] =>
      lazymatch e with context [match _ with _ => _ end] => fail | _ => destruct e eqn:? end
  end.

Ltac split_matches := repeat (split_match; simplify_eq/=; try done).

(** ** Arrays *)

(** [xs.find(p)], [xs.some(p)], [xs.every(p)] and [xs.filter(p)] are
    [List.find], [existsb], [forallb] and [List.filter] of the standard
    library. *)

Section arrays.
Context {A : Type}.

Lemma existsb_exists_iff (p : A -> bool) l : existsb p l = true <-> exists x, x ∈ l /\ p x = true.
Proof.
  rewrite existsb_exists. setoid_rewrite list_elem_of_In. done.
Qed.

Lemma existsb_false_iff (p : A -> bool) l :
  existsb p l = false <-> forall x, x ∈ l -> p x = false.
Proof.
  rewrite <- not_true_iff_false, existsb_exists_iff. split.
  - intros H x Hx. apply not_true_iff_false. intros E. apply H. eauto.
  - intros H (x & Hx & E). rewrite H in E; done.
Qed.

Lemma forallb_forall_iff (p : A -> bool) l : forallb p l = true <-> forall x, x ∈ l -> p x = true.
Proof. rewrite forallb_forall. setoid_rewrite list_elem_of_In. done. Qed.

Lemma elem_of_filterb (p : A -> bool) l x : x ∈ List.filter p l <-> x ∈ l /\ p x = true.
Proof. rewrite !list_elem_of_In. apply filter_In. Qed.

Lemma find_some_iff (p : A -> bool) l x :
  List.find p l = Some x ->
  exists l1 l2, l = l1 ++ x :: l2 /\ p x = true /\ forall y, y ∈ l1 -> p y = false.
Proof.
  induction l as [|y l IH]; simpl; [done|]. destruct (p y) eqn:E; intros H.
  - simplify_eq. exists [], l. split; [done|]. split; [done|]. intros ? []%not_elem_of_nil.
  - destruct (IH H) as (l1 & l2 & -> & Px & N). exists (y :: l1), l2.
    split; [done|]. split; [done|]. intros z [->|Hz]%elem_of_cons; auto.
Qed.

Lemma find_none_iff (p : A -> bool) l :
  List.find p l = None <-> forall y, y ∈ l -> p y = false.
Proof.
  split.
  - intros H y Hy. apply list_elem_of_In in Hy. eapply find_none; eauto.
  - induction l as [|y l IH]; simpl; [done|]. intros H. rewrite (H y) by apply list_elem_of_here.
    apply IH. intros z Hz. apply H. by apply list_elem_of_further.
Qed.
End arrays.

(** ** [Array.prototype.sort]

    A comparator returns an integer whose sign orders its arguments.  The
    language requires the sort to be stable, so for a consistent comparator
    the result is determined; insertion from the right computes it. *)

Section sort.
Context {A : Type} (cmp : A -> A -> Z).

Fixpoint insert_sorted (x : A) (l : list A) : list A :=
  match l with
  | [] => [x]
  | y :: l' => if (cmp x y <=? 0)%Z then x :: l else y :: insert_sorted x l'
  end.

Fixpoint js_sort (l : list A) : list A :=
  match l with
  | [] => []
  | x :: l' => insert_sorted x (js_sort l')
  end.

Lemma insert_sorted_perm x l : insert_sorted x l ≡ₚ x :: l.
Proof.
  induction l as [|y l IH]; simpl; [done|]. destruct (_ <=? _)%Z; [done|].
  rewrite IH. apply perm_swap.
Qed.

Lemma js_sort_perm l : js_sort l ≡ₚ l.
Proof. induction l as [|x l IH]; simpl; [done|]. by rewrite insert_sorted_perm, IH. Qed.

Lemma elem_of_js_sort x l : x ∈ js_sort l <-> x ∈ l.
Proof. by rewrite js_sort_perm. Qed.

Lemma length_js_sort l : length (js_sort l) = length l.
Proof. by rewrite js_sort_perm. Qed.
End sort.

(** A consistent comparator: its sign is antisymmetric and transitive. *)
Class Comparator {A} (cmp : A -> A -> Z) : Prop := {
  cmp_anti x y : (cmp x y <= 0 <-> 0 <= cmp y x)%Z;
  cmp_trans x y z : (cmp x y <= 0 -> cmp y z <= 0 -> cmp x z <= 0)%Z
}.

(** [a || b] on comparator results: the first that is not zero. *)
Definition cmp_or (a b : Z) : Z := if (a =? 0)%Z then b else a.
Infix "|||" := cmp_or (at level 50, left associativity).

Section comparators.
Context {A : Type}.

Lemma cmp_refl (cmp : A -> A -> Z) `{!Comparator cmp} x : cmp x x = 0%Z.
Proof. pose proof (cmp_anti x x). lia. Qed.

#[export] Instance comparator_key (f : A -> Z) : Comparator (fun x y => f x - f y)%Z.
Proof. split; intros; lia. Qed.

#[export] Instance comparator_key_desc (f : A -> Z) : Comparator (fun x y => f y - f x)%Z.
Proof. split; intros; lia. Qed.

#[export] Instance comparator_or (c1 c2 : A -> A -> Z) :
  Comparator c1 -> Comparator c2 -> Comparator (fun x y => c1 x y ||| c2 x y).
Proof.
  intros [A1 T1] [A2 T2]. split; unfold cmp_or.
  - intros x y. pose proof (A1 x y). pose proof (A1 y x). pose proof (A2 x y). pose proof (A2 y x).
    destruct (Z.eqb_spec (c1 x y) 0), (Z.eqb_spec (c1 y x) 0); lia.
  - intros x y z. pose proof (T1 x y z). pose proof (T2 x y z).
    pose proof (T1 z x y). pose proof (T1 y z x).
    pose proof (A1 x y). pose proof (A1 y x). pose proof (A1 y z). pose proof (A1 z y).
    pose proof (A1 x z). pose proof (A1 z x).
    destruct (Z.eqb_spec (c1 x y) 0), (Z.eqb_spec (c1 y z) 0), (Z.eqb_spec (c1 x z) 0); lia.
Qed.

Lemma comparator_on {B} (f : A -> B) (c : B -> B -> Z) :
  Comparator c -> Comparator (fun x y => c (f x) (f y)).
Proof. intros [An Tr]. split; intros; eauto. Qed.
End comparators.

Section sorted.
Context {A : Type} (cmp : A -> A -> Z) `{!Comparator cmp}.

Lemma insert_sorted_Sorted x l :
  StronglySorted (fun a b => cmp a b <= 0)%Z l ->
  StronglySorted (fun a b => cmp a b <= 0)%Z (insert_sorted cmp x l).
Proof.
  induction 1 as [|y l Hl IH Hy]; simpl; [repeat constructor|].
  destruct (Z.leb_spec (cmp x y) 0) as [L|L].
  - constructor; [by constructor|]. constructor; [done|].
    eapply Forall_impl; [exact Hy|]. intros z Hz. eapply cmp_trans; eauto.
  - constructor; [done|]. rewrite insert_sorted_perm. constructor; [|done].
    apply cmp_anti. lia.
Qed.

(** The result is sorted, *)
Lemma js_sort_Sorted l : StronglySorted (fun a b => cmp a b <= 0)%Z (js_sort cmp l).
Proof. induction l; simpl; [constructor|by apply insert_sorted_Sorted]. Qed.

(** its first element is a minimum of the input, *)
Lemma js_sort_head l x l' :
  js_sort cmp l = x :: l' -> x ∈ l /\ forall y, y ∈ l -> (cmp x y <= 0)%Z.
Proof.
  intros E. pose proof (js_sort_Sorted l) as S. rewrite E in S. inversion_clear S as [|? ? _ F].
  split.
  - apply (elem_of_js_sort cmp). rewrite E. apply list_elem_of_here.
  - intros y Hy. apply (elem_of_js_sort cmp) in Hy. rewrite E in Hy.
    apply elem_of_cons in Hy as [->|Hy]; [by rewrite cmp_refl|].
    rewrite Forall_forall in F. by apply F.
Qed.

(** and elements that compare equal keep their order: the sort is stable. *)
Lemma insert_sorted_filter (p : A -> bool) x l :
  (forall y, y ∈ l -> p y = true -> p x = true -> (cmp x y <= 0)%Z) ->
  StronglySorted (fun a b => cmp a b <= 0)%Z l ->
  List.filter p (insert_sorted cmp x l) = List.filter p (x :: l).
Proof.
  intros Hp S. induction S as [|y l Hl IH Hy]; [done|]. simpl insert_sorted.
  destruct (Z.leb_spec (cmp x y) 0) as [L|L]; [done|].
  simpl. rewrite IH by (intros z Hz; apply Hp; by apply list_elem_of_further). simpl.
  destruct (p y) eqn:Py, (p x) eqn:Px; try done.
  exfalso. specialize (Hp y ltac:(apply list_elem_of_here) Py eq_refl). lia.
Qed.

Lemma js_sort_stable (p : A -> bool) l :
  (forall x y, x ∈ l -> y ∈ l -> p x = true -> p y = true -> cmp x y = 0%Z) ->
  List.filter p (js_sort cmp l) = List.filter p l.
Proof.
  induction l as [|x l IH]; intros H; [done|]. simpl js_sort.
  rewrite insert_sorted_filter.
  - simpl. rewrite IH; [done|]. intros; apply H; auto using list_elem_of_further.
  - intros y Hy Py Px. rewrite elem_of_js_sort in Hy.
    rewrite H; auto using list_elem_of_here, list_elem_of_further. lia.
  - apply js_sort_Sorted.
Qed.
End sorted.

(** ** [Set] and [Map]

    Both iterate in insertion order, so a [Map] is an association list whose
    [set] overwrites in place or appends, and [Array.from(new Set(xs))] keeps
    the first occurrence of each value. *)

Section unique.
Context {A : Type} (eqb : A -> A -> bool).

Fixpoint js_unique_by (l : list A) : list A :=
  match l with
  | [] => []
  | x :: l' => x :: List.filter (fun y => negb (eqb x y)) (js_unique_by l')
  end.

Lemma elem_of_js_unique_by_1 x l : x ∈ js_unique_by l -> x ∈ l.
Proof.
  induction l as [|y l IH]; simpl; [done|]. rewrite !elem_of_cons, elem_of_filterb. naive_solver.
Qed.

Lemma js_unique_by_length l : (length (js_unique_by l) <= length l)%nat.
Proof.
  induction l as [|x l IH]; simpl; [lia|].
  pose proof (List.filter_length_le (fun y => negb (eqb x y)) (js_unique_by l)). lia.
Qed.
End unique.

Definition js_unique {A} `{EqDecision A} : list A -> list A :=
  js_unique_by (fun x y => bool_decide (x = y)).

Section unique_facts.
Context {A : Type} `{EqDecision A}.

Lemma elem_of_js_unique (x : A) l : x ∈ js_unique l <-> x ∈ l.
Proof.
  split; [apply elem_of_js_unique_by_1|]. unfold js_unique.
  induction l as [|y l IH]; simpl; [done|]. rewrite !elem_of_cons, elem_of_filterb.
  intros [->|Hx]; [by left|]. destruct (decide (x = y)) as [->|N]; [by left|right].
  split; [by apply IH|]. rewrite bool_decide_eq_false_2; done.
Qed.

Lemma NoDup_filterb (p : A -> bool) l : NoDup l -> NoDup (List.filter p l).
Proof.
  induction 1 as [|x l Hx Hl IH]; simpl; [constructor|]. destruct (p x); [|done].
  constructor; [|done]. rewrite elem_of_filterb. naive_solver.
Qed.

Lemma NoDup_js_unique (l : list A) : NoDup (js_unique l).
Proof.
  unfold js_unique. induction l as [|x l IH]; simpl; [constructor|].
  constructor; [|by apply NoDup_filterb].
  rewrite elem_of_filterb, bool_decide_eq_true_2 by done. naive_solver.
Qed.
End unique_facts.

Section jsmap.
Context {K V : Type} `{EqDecision K}.
Implicit Types m : list (K * V).

Fixpoint map_get m (k : K) : option V :=
  match m with
  | [] => None
  | (k', v) :: m' => if decide (k' = k) then Some v else map_get m' k
  end.

Fixpoint map_set m (k : K) (v : V) : list (K * V) :=
  match m with
  | [] => [(k, v)]
  | (k', v') :: m' => if decide (k' = k) then (k', v) :: m' else (k', v') :: map_set m' k v
  end.

Definition map_keys m : list K := map fst m.
Definition map_values m : list V := map snd m.

Lemma map_get_set_eq m k v : map_get (map_set m k v) k = Some v.
Proof.
  induction m as [|[k' v'] m IH]; simpl; [by rewrite decide_True|].
  destruct (decide (k' = k)) eqn:E; simpl; rewrite E; done.
Qed.

Lemma map_get_set_ne m k k' v : k <> k' -> map_get (map_set m k v) k' = map_get m k'.
Proof.
  intros N. induction m as [|[k2 v2] m IH]; simpl; [by rewrite decide_False|].
  destruct (decide (k2 = k)) as [->|]; simpl; [by rewrite !decide_False by done|].
  destruct (decide (k2 = k')); done.
Qed.

Lemma map_get_set m k k' v :
  map_get (map_set m k v) k' = if decide (k = k') then Some v else map_get m k'.
Proof. case_decide; subst; [apply map_get_set_eq|by apply map_get_set_ne]. Qed.

Lemma elem_of_keys_set m k v k' : k' ∈ map_keys (map_set m k v) <-> k' = k \/ k' ∈ map_keys m.
Proof.
  induction m as [|[k2 v2] m IH]; simpl; [set_solver|].
  destruct (decide (k2 = k)) as [->|]; simpl; rewrite !elem_of_cons; [naive_solver|].
  rewrite IH. naive_solver.
Qed.

Lemma NoDup_keys_set m k v : NoDup (map_keys m) -> NoDup (map_keys (map_set m k v)).
Proof.
  induction m as [|[k2 v2] m IH]; simpl; [intros; apply NoDup_singleton|].
  intros [N D]%NoDup_cons. destruct (decide (k2 = k)) as [->|]; simpl; constructor; auto.
  change (k2 ∉ map_keys (map_set m k v)). rewrite elem_of_keys_set. naive_solver.
Qed.

Lemma map_get_elem m k v : map_get m k = Some v -> (k, v) ∈ m.
Proof.
  induction m as [|[k' v'] m IH]; simpl; [done|]. case_decide; intros; simplify_eq.
  - apply list_elem_of_here.
  - apply list_elem_of_further. auto.
Qed.

Lemma map_get_None m k : map_get m k = None <-> k ∉ map_keys m.
Proof.
  induction m as [|[k' v'] m IH]; simpl; [split; [intros _ ?%elem_of_nil|]; done|].
  rewrite not_elem_of_cons. case_decide; naive_solver.
Qed.

Lemma elem_map_get m k v : NoDup (map_keys m) -> (k, v) ∈ m -> map_get m k = Some v.
Proof.
  induction m as [|[k' v'] m IH]; simpl; [intros _ []%elem_of_nil|].
  intros [N D]%NoDup_cons [E|Hm]%elem_of_cons; [simplify_eq; by rewrite decide_True|].
  rewrite decide_False; [auto|]. intros ->. apply N. apply (list_elem_of_fmap_2 fst _ _ Hm).
Qed.
End jsmap.

#[export] Hint Rewrite @map_get_set_eq @map_get_set @elem_of_js_unique @elem_of_filterb
  @length_js_sort : js.
#[export] Hint Resolve NoDup_keys_set NoDup_js_unique : js.

Lemma find_head_filter {A} (p : A -> bool) l : List.find p l = head (List.filter p l).
Proof. induction l as [|x l IH]; simpl; [done|]. by destruct (p x). Qed.

Lemma filterb_and {A} (p q : A -> bool) l :
  List.filter p (List.filter q l) = List.filter (fun x => q x && p x) l.
Proof.
  induction l as [|x l IH]; simpl; [done|]. destruct (q x); simpl; [|done].
  destruct (p x); by rewrite IH.
Qed.

Lemma filterb_ext {A} (p q : A -> bool) l :
  (forall x, x ∈ l -> p x = q x) -> List.filter p l = List.filter q l.
Proof.
  intros H. apply filter_ext_in. intros x Hx. apply H. by apply list_elem_of_In.
Qed.

(** ** [undefined] and [null]

    A value typed [A | null | undefined] whose two absences the code tells
    apart; everywhere else an absence is [None]. *)
Inductive nullish (A : Type) := Undefined | Null | Val (a : A).
Arguments Undefined {A}.
Arguments Null {A}.
Arguments Val {A} a.

Definition is_undefined {A} (x : nullish A) : bool :=
  match x with Undefined => true | _ => false end.

Definition nullish_option {A} (x : nullish A) : option A :=
  match x with Val a => Some a | _ => None end.

(** Membership in an explicit list, by cases. *)
Ltac list_cases := rewrite ?list_elem_of_In in *; simpl in *; intuition (try congruence).

(** ** Grouping

    [for (const x of xs) m.set(key(x), [...(m.get(key(x)) ?? []), x])]. *)
Section group.
Context {K A : Type} `{EqDecision K} (key : A -> K).

Definition group_add (m : list (K * list A)) (x : A) : list (K * list A) :=
  map_set m (key x) (from_option id [] (map_get m (key x)) ++ [x]).

Definition group_by (l : list A) : list (K * list A) := fold_left group_add l [].

Definition of_key (k : K) (l : list A) : list A := List.filter (fun x => bool_decide (key x = k)) l.

Definition non_empty {B} (l : list B) : option (list B) := match l with [] => None | _ => Some l end.

Lemma group_by_snoc l x : group_by (l ++ [x]) = group_add (group_by l) x.
Proof. apply fold_left_app. Qed.

Lemma of_key_app k l1 l2 : of_key k (l1 ++ l2) = of_key k l1 ++ of_key k l2.
Proof. apply List.filter_app. Qed.

(** A group is the sublist of the elements of its key; there is no empty group. *)
Lemma map_get_group_by l k : map_get (group_by l) k = non_empty (of_key k l).
Proof.
  induction l as [|x l IH] using rev_ind; [done|].
  rewrite group_by_snoc, of_key_app. unfold group_add. rewrite map_get_set.
  unfold of_key at 2. simpl. destruct (decide (key x = k)) as [<-|N].
  - rewrite bool_decide_eq_true_2, IH by done. by destruct (of_key (key x) l).
  - by rewrite bool_decide_eq_false_2, app_nil_r by done.
Qed.

Lemma NoDup_group_by l : NoDup (map_keys (group_by l)).
Proof.
  induction l as [|x l IH] using rev_ind; [constructor|]. rewrite group_by_snoc. by apply NoDup_keys_set.
Qed.

Lemma elem_of_group_keys l k : k ∈ map_keys (group_by l) <-> k ∈ map key l.
Proof.
  induction l as [|x l IH] using rev_ind; [done|].
  rewrite group_by_snoc, map_app, elem_of_app. unfold group_add. rewrite elem_of_keys_set, IH. simpl.
  rewrite list_elem_of_singleton. naive_solver.
Qed.

Lemma elem_of_group_by l k rows :
  (k, rows) ∈ group_by l <-> rows = of_key k l /\ rows <> [].
Proof.
  split.
  - intros H. apply elem_map_get in H; [|apply NoDup_group_by]. rewrite map_get_group_by in H.
    destruct (of_key k l); simpl in H; naive_solver.
  - intros [-> N]. apply map_get_elem. rewrite map_get_group_by. by destruct (of_key k l).
Qed.

(** The groups partition the list. *)
Lemma group_by_partition l : concat (map_values (group_by l)) ≡ₚ l.
Proof.
  induction l as [|x l IH] using rev_ind; [done|]. rewrite group_by_snoc.
  rewrite <- IH at 2. generalize (group_by l). intros m. unfold group_add.
  induction m as [|[k v] m IHm]; simpl; [done|]. destruct (decide (k = key x)); simpl.
  - rewrite <- !app_assoc. f_equiv. apply Permutation_app_comm.
  - rewrite <- app_assoc. f_equiv. exact IHm.
Qed.
End group.

(** A filter that keeps one key of a map with distinct keys. *)
Lemma filter_key {K V} `{EqDecision K} (m : list (K * V)) k :
  NoDup (map_keys m) ->
  List.filter (fun e => bool_decide (fst e = k)) m
  = match map_get m k with Some v => [(k, v)] | None => [] end.
Proof.
  induction m as [|[k' v'] m IH]; simpl; [done|]. intros [N D]%NoDup_cons. rewrite IH by done.
  destruct (decide (k' = k)) as [->|Ne].
  - rewrite bool_decide_eq_true_2 by done.
    by rewrite (proj2 (map_get_None m k) N).
  - by rewrite bool_decide_eq_false_2 by done.
Qed.

(** ** More on filters and nested arrays *)

Lemma filter_all {A} (p : A -> bool) l : (forall x, x ∈ l -> p x = true) -> List.filter p l = l.
Proof.
  intros H. rewrite <- (filterb_ext (fun _ => true) p); [|by intros; rewrite H].
  induction l as [|x l IH]; simpl; [done|]. rewrite IH; [done|]. intros; apply H.
  by apply list_elem_of_further.
Qed.

Lemma filter_nothing {A} (p : A -> bool) l : (forall x, x ∈ l -> p x = false) -> List.filter p l = [].
Proof.
  induction l as [|x l IH]; simpl; [done|]. intros H. rewrite H by apply list_elem_of_here.
  apply IH. intros. apply H. by apply list_elem_of_further.
Qed.

Lemma elem_of_concat_map {A B} (f : A -> list B) l y :
  y ∈ concat (map f l) <-> exists x, x ∈ l /\ y ∈ f x.
Proof. rewrite !list_elem_of_In, in_concat. setoid_rewrite in_map_iff.
  setoid_rewrite list_elem_of_In. naive_solver. Qed.

(** [xs.length > 0]. *)
Definition truthy_list {A} (l : list A) : bool := match l with [] => false | _ => true end.

(** Every element is represented among the unique ones. *)
Lemma js_unique_by_represents {A} (eqb : A -> A -> bool) l z :
  (forall x y w, eqb x y = true -> eqb y w = true -> eqb x w = true) ->
  z ∈ l -> exists y, y ∈ js_unique_by eqb l /\ (y = z \/ eqb y z = true).
Proof.
  intros T. induction l as [|x l IH]; [intros []%elem_of_nil|].
  intros [->|Hz]%elem_of_cons; simpl; [exists x; split; [apply list_elem_of_here|by left]|].
  destruct (IH Hz) as (y & Hy & E). destruct (eqb x y) eqn:Exy.
  - exists x. split; [apply list_elem_of_here|]. right. destruct E as [<-|E]; [done|by eapply T].
  - exists y. split; [|done]. apply list_elem_of_further, elem_of_filterb. by rewrite Exy.
Qed.

(** The first two unique elements differ. *)
Lemma js_unique_by_two {A} (eqb : A -> A -> bool) l x y r :
  js_unique_by eqb l = x :: y :: r -> x ∈ l /\ y ∈ l /\ eqb x y = false.
Proof.
  intros E. assert (I : forall z, z ∈ x :: y :: r -> z ∈ l)
    by (intros z; rewrite <- E; apply elem_of_js_unique_by_1).
  split; [apply I, list_elem_of_here|]. split; [apply I, list_elem_of_further, list_elem_of_here|].
  destruct l as [|a l]; simpl in E; [done|]. injection E as -> E.
  assert (H : y ∈ List.filter (fun z => negb (eqb x z)) (js_unique_by eqb l))
    by (rewrite E; apply list_elem_of_here).
  apply elem_of_filterb in H as [_ H]. by apply negb_true_iff in H.
Qed.

Lemma filterb_perm {A} (p : A -> bool) l l' : l ≡ₚ l' -> List.filter p l ≡ₚ List.filter p l'.
Proof.
  induction 1 as [|x l l' P IH|x y l|l1 l2 l3 P1 IH1 P2 IH2]; simpl; [done| | |by etrans].
  - destruct (p x); by rewrite IH.
  - destruct (p x), (p y); try done. apply perm_swap.
Qed.

(** Sorting commutes with a map the comparator does not see through. *)
Lemma js_sort_map {A B} (f : A -> B) (c : B -> B -> Z) (c' : A -> A -> Z) l :
  (forall x y, c (f x) (f y) = c' x y) -> js_sort c (map f l) = map f (js_sort c' l).
Proof.
  intros E. induction l as [|x l IH]; simpl; [done|]. rewrite IH. clear IH.
  induction (js_sort c' l) as [|y r IH]; simpl; [done|]. rewrite E. destruct (_ <=? _)%Z; [done|].
  simpl. by rewrite IH.
Qed.

(** Counting the elements of a list without repetition among others. *)
Lemma length_filter_elem {A} `{EqDecision A} (ks l : list A) :
  NoDup ks -> NoDup l -> (forall k, k ∈ ks -> k ∈ l) ->
  length (List.filter (fun x => bool_decide (x ∈ ks)) l) = length ks.
Proof.
  intros Nk Nl S. apply Permutation_length, NoDup_Permutation; [by apply NoDup_filterb|done|].
  intros x. rewrite elem_of_filterb, bool_decide_eq_true. naive_solver.
Qed.

(** [x !== null]. *)
Definition is_Some_b {A} (x : option A) : bool := match x with Some _ => true | None => false end.

(** ** Aggregation in a map

    [const current = m.get(key) ?? init(row); ...; m.set(key, step(current, row))]:
    the entry of a key is the fold of its rows. *)
Section aggregate.
Context {K R V : Type} `{EqDecision K} (key : R -> K) (init : R -> V) (step : V -> R -> V).

Definition aggregate (rows : list R) : list (K * V) :=
  fold_left (fun m row => map_set m (key row)
    (step (match map_get m (key row) with Some v => v | None => init row end) row)) rows [].

Lemma map_get_aggregate rows k :
  map_get (aggregate rows) k
  = match of_key key k rows with
    | [] => None
    | r :: rs => Some (fold_left step (r :: rs) (init r))
    end.
Proof.
  induction rows as [|row rows IH] using rev_ind; [done|].
  unfold aggregate. rewrite fold_left_app. fold (aggregate rows). cbn [fold_left].
  rewrite map_get_set, of_key_app. unfold of_key at 2. cbn [List.filter].
  destruct (decide (key row = k)) as [<-|N].
  - rewrite bool_decide_eq_true_2, IH by done.
    destruct (of_key key (key row) rows) as [|r rs]; [done|].
    change ((r :: rs) ++ [row]) with (r :: (rs ++ [row])). cbn iota beta.
    change (r :: rs ++ [row]) with ((r :: rs) ++ [row]). by rewrite fold_left_app.
  - rewrite bool_decide_eq_false_2, app_nil_r by done. exact IH.
Qed.
End aggregate.

Lemma fold_left_map_l {A B C} (f : A -> B) (g : C -> B -> C) l c :
  fold_left g (map f l) c = fold_left (fun c x => g c (f x)) l c.
Proof. revert c. induction l as [|x l IH]; intros c; simpl; [done|]. apply IH. Qed.

(** When two values of a map satisfy a predicate, one is not that of a given key. *)
Lemma two_values `{Countable K} {A} (p : A -> bool) (m : gmap K A) i :
  (1 < length (List.filter p (map snd (map_to_list m))))%nat ->
  exists j v, j <> i /\ m !! j = Some v /\ p v = true.
Proof.
  intros C. set (l := map_to_list m) in *. assert (Nl : NoDup (map fst l)) by apply NoDup_fst_map_to_list.
  assert (L : List.filter p (map snd l) = map snd (List.filter (fun e => p e.2) l)).
  { clear. induction l as [|[k v] l IH]; simpl; [done|]. destruct (p v); simpl; by rewrite IH. }
  rewrite L, length_map in C. set (f := List.filter _ l) in *.
  assert (M : forall e, e ∈ f -> m !! e.1 = Some e.2 /\ p e.2 = true).
  { intros [k v] [E P]%elem_of_filterb. split; [by apply elem_of_map_to_list|done]. }
  assert (D : forall e e', e ∈ f -> e' ∈ f -> e.1 = e'.1 -> e = e').
  { intros [k v] [k' v'] [E _]%M [E' _]%M K'. simpl in *. congruence. }
  assert (Nf : NoDup f) by (apply NoDup_filterb, (NoDup_fmap_1 fst); exact Nl).
  destruct f as [|a [|b f']]; simpl in C; [lia..|].
  destruct (decide (a.1 = i)) as [Ea|Na].
  - destruct (M b) as [Eb Pb]; [set_solver|]. exists b.1, b.2. split; [|done]. intros Eb'.
    apply NoDup_cons in Nf as [Nf _]. apply Nf. rewrite (D a b); [set_solver..|congruence].
  - destruct (M a) as [Ea Pa]; [set_solver|]. by exists a.1, a.2.
Qed.
