(* ===== verification/JsNumber.v ===== *)
(** * The numbers of the program: IEEE 754 binary64

    Every [number] of the TypeScript sources is a binary64 value.  This file
    gives that type and the operations the sources use on it, as the pure
    specification floats of the standard library at precision 53 and exponent
    bound 1024: NaN, the infinities, the two zeros and rounding to nearest
    even are all present.  The laws on safe integers are in [SafeInteger]. *)

From Stdlib Require Import List.
From Stdlib Require Import ZArith Lia Bool Floats.SpecFloat.

Local Open Scope Z_scope.

Definition prec : Z := 53.
Definition emax : Z := 1024.

(** ** The type and its operations *)

(** A JavaScript number. *)
Definition num : Set := spec_float.

Definition NaN : num := S754_nan.
Definition Infinity : num := S754_infinity false.

Definition nadd : num -> num -> num := SFadd prec emax.
Definition nsub : num -> num -> num := SFsub prec emax.
Definition nmul : num -> num -> num := SFmul prec emax.
Definition ndiv : num -> num -> num := SFdiv prec emax.
Definition nopp : num -> num := SFopp.
Definition nabs : num -> num := SFabs.

(** The relational operators; each is [false] when an operand is NaN, and the
    two zeros are equal.  [neqb] is [===] on numbers. *)
Definition nltb : num -> num -> bool := SFltb.
Definition nleb : num -> num -> bool := SFleb.
Definition neqb : num -> num -> bool := SFeqb.

Declare Scope num_scope.
Delimit Scope num_scope with num.
Infix "+" := nadd : num_scope.
Infix "-" := nsub : num_scope.
Infix "*" := nmul : num_scope.
Infix "/" := ndiv : num_scope.
Notation "- x" := (nopp x) : num_scope.
Infix "<?" := nltb : num_scope.
Infix "<=?" := nleb : num_scope.
Infix "=?" := neqb : num_scope.

(** The number of an integer literal: the integer correctly rounded. *)
Definition ofZ (z : Z) : num := binary_normalize prec emax z 0 false.

(** The number of [n / d], correctly rounded; a decimal literal with [k]
    fraction digits is [decimal n k]. *)
Definition of_ratio (n : Z) (d : positive) : num :=
  match n with
  | Z0 => S754_zero false
  | Zpos p =>
      let '(q, e, l) := SFdiv_core_binary prec emax (Zpos p) 0 (Zpos d) 0 in
      binary_round_aux prec emax false q e l
  | Zneg p =>
      let '(q, e, l) := SFdiv_core_binary prec emax (Zpos p) 0 (Zpos d) 0 in
      binary_round_aux prec emax true q e l
  end.

Definition decimal (n : Z) (k : nat) : num :=
  of_ratio n (Pos.of_nat (Nat.pow 10 k)).

(** [Number.EPSILON] is [2^-52]. *)
Definition EPSILON : num := of_ratio 1 (2 ^ 52).

(** [Number.isFinite] and [Number.isNaN]. *)
Definition isFinite (x : num) : bool :=
  match x with S754_nan | S754_infinity _ => false | _ => true end.

Definition isNaN (x : num) : bool :=
  match x with S754_nan => true | _ => false end.

(** The largest integer not above the magnitude [m * 2^e]. *)
Definition mag_floor (m : positive) (e : Z) : Z :=
  if 0 <=? e then Zpos m * 2 ^ e else Zpos m / 2 ^ (- e).

(** [Math.floor], [Math.trunc] and [Math.round] (ties towards +infinity). *)
Definition floor (x : num) : num :=
  match x with
  | S754_finite s m e =>
      if 0 <=? e then x
      else ofZ ((if s then - Zpos m else Zpos m) / 2 ^ (- e))
  | _ => x
  end.

Definition trunc (x : num) : num :=
  match x with
  | S754_finite s m e =>
      if 0 <=? e then x
      else match Zpos m / 2 ^ (- e) with
           | Z0 => S754_zero s
           | q => ofZ (if s then - q else q)
           end
  | _ => x
  end.

Definition round (x : num) : num :=
  match x with
  | S754_finite s m e =>
      if 0 <=? e then x
      else
        let sm := if s then - Zpos m else Zpos m in
        match (2 * sm + 2 ^ (- e)) / 2 ^ (- e + 1) with
        | Z0 => S754_zero s
        | q => ofZ q
        end
  | _ => x
  end.

(** [Number.isInteger] and [Number.isSafeInteger]. *)
Definition isInteger (x : num) : bool :=
  match x with
  | S754_zero _ => true
  | S754_finite _ m e =>
      (0 <=? e) || (Zpos m mod 2 ^ (- e) =? 0)
  | _ => false
  end.

Definition MAX_SAFE_INTEGER : Z := 2 ^ 53 - 1.

Definition isSafeInteger (x : num) : bool :=
  isInteger x && nleb (nabs x) (ofZ MAX_SAFE_INTEGER).

(** The integer part of a number as an integer (0 when it has none). *)
Definition toZ (x : num) : Z :=
  match x with
  | S754_finite s m e => if s then - mag_floor m e else mag_floor m e
  | _ => 0
  end.

(** [Math.max] and [Math.min] of two numbers; the n-ary forms fold them from
    -Infinity and +Infinity. *)
Definition nmax (x y : num) : num :=
  if isNaN x || isNaN y then NaN
  else if nltb y x then x
  else if nltb x y then y
  else match x with S754_zero true => y | _ => x end.

Definition nmin (x y : num) : num :=
  if isNaN x || isNaN y then NaN
  else if nltb x y then x
  else if nltb y x then y
  else match x with S754_zero false => y | _ => x end.

(** [Math.max(...xs)] and [Math.min(...xs)]. *)
Definition nmax_list (xs : list num) : num := fold_left nmax xs (nopp Infinity).
Definition nmin_list (xs : list num) : num := fold_left nmin xs Infinity.

(** The sign a comparator's result is read by; NaN counts as 0. *)
Definition nsign (x : num) : Z :=
  match x with
  | S754_infinity s | S754_finite s _ _ => if s then -1 else 1
  | _ => 0
  end.

(** SameValueZero, the equality of [Set], [Map] and [includes]. *)
Definition same_value_zero (x y : num) : bool :=
  neqb x y || (isNaN x && isNaN y).

(** A number is truthy unless it is NaN or a zero. *)
Definition num_truthy (x : num) : bool :=
  match x with S754_nan | S754_zero _ => false | _ => true end.

(** ** Comparison is a total preorder away from NaN

    Each non-NaN number gets a key, a triple of integers; the specification
    comparison is the lexicographic order of the keys, so every order fact
    about numbers is decided by [lia] once the keys are exposed. *)

Definition key (x : num) : option (Z * Z * Z) :=
  match x with
  | S754_nan => None
  | S754_infinity true => Some (-2, 0, 0)
  | S754_finite true m e => Some (-1, - e, - Zpos m)
  | S754_zero _ => Some (0, 0, 0)
  | S754_finite false m e => Some (1, e, Zpos m)
  | S754_infinity false => Some (2, 0, 0)
  end.

Definition lex_lt (a b : Z * Z * Z) : Prop :=
  let '(a1, a2, a3) := a in
  let '(b1, b2, b3) := b in
  a1 < b1 \/ (a1 = b1 /\ (a2 < b2 \/ (a2 = b2 /\ a3 < b3))).

Definition key_lt (x y : num) : Prop :=
  match key x, key y with Some a, Some b => lex_lt a b | _, _ => False end.

Definition key_eq (x y : num) : Prop :=
  match key x, key y with Some a, Some b => a = b | _, _ => False end.

Lemma SFcompare_key x y :
  match SFcompare x y with
  | Some Lt => key_lt x y
  | Some Eq => key_eq x y
  | Some Gt => key_lt y x
  | None => key x = None \/ key y = None
  end.
Proof.
  destruct x as [sx|sx| |sx mx ex], y as [sy|sy| |sy my ey];
    unfold key_lt, key_eq, lex_lt; simpl; auto;
    try destruct sx; try destruct sy; simpl; try lia; auto.
  - destruct (Z.compare_spec ex ey); subst; simpl; try lia.
    change (Pos.compare_cont Eq mx my) with (mx ?= my)%positive.
    destruct (Pos.compare_spec mx my); subst; simpl; try lia; reflexivity.
  - destruct (Z.compare_spec ex ey); subst; simpl; try lia.
    change (Pos.compare_cont Eq mx my) with (mx ?= my)%positive.
    destruct (Pos.compare_spec mx my); subst; simpl; try lia; reflexivity.
Qed.

Lemma nltb_key x y : nltb x y = true <-> key_lt x y.
Proof.
  unfold nltb, SFltb. pose proof (SFcompare_key x y) as H.
  unfold key_lt, key_eq, lex_lt in *.
  destruct (SFcompare x y) as [[]|], (key x) as [[[]]|], (key y) as [[[]]|];
    split; intros; try injection H; intros; try discriminate; try tauto; try lia;
    destruct H; discriminate.
Qed.

Lemma nleb_key x y : nleb x y = true <-> (key_lt x y \/ key_eq x y).
Proof.
  unfold nleb, SFleb. pose proof (SFcompare_key x y) as H.
  unfold key_lt, key_eq, lex_lt in *.
  destruct (SFcompare x y) as [[]|], (key x) as [[[]]|], (key y) as [[[]]|];
    split; intros K; try discriminate; try tauto; try (destruct H; discriminate);
    destruct K as [K|K]; try injection K; intros; try injection H; intros; try tauto; lia.
Qed.

Lemma neqb_key x y : neqb x y = true <-> key_eq x y.
Proof.
  unfold neqb, SFeqb. pose proof (SFcompare_key x y) as H.
  unfold key_lt, key_eq, lex_lt in *.
  destruct (SFcompare x y) as [[]|], (key x) as [[[]]|], (key y) as [[[]]|];
    split; intros K; try discriminate; try tauto; try (destruct H; discriminate);
    injection K; intros; lia.
Qed.

Lemma isNaN_key x : isNaN x = false <-> key x <> None.
Proof. destruct x as [[]|[]| |[] m e]; simpl; split; congruence. Qed.

Lemma key_eq_inj (a b : Z * Z * Z) :
  a = b <-> fst (fst a) = fst (fst b) /\ snd (fst a) = snd (fst b) /\ snd a = snd b.
Proof. destruct a as [[]], b as [[]]; simpl; split; [intros [=]|intros (?&?&?)]; subst; auto. Qed.

Lemma isFinite_isNaN x : isFinite x = true -> isNaN x = false.
Proof. now destruct x. Qed.

(** Decide a goal of the order of numbers, by keys. *)
Ltac num_order_prepare :=
  repeat match goal with
  | H : isFinite _ = true |- _ => apply isFinite_isNaN in H
  | H : isNaN _ = false |- _ => apply isNaN_key in H
  | H : _ = false |- _ => apply not_true_iff_false in H
  | |- isNaN _ = false => apply isNaN_key
  | |- _ = false => apply not_true_iff_false
  end;
  rewrite ?nltb_key, ?nleb_key, ?neqb_key in *;
  unfold key_lt, key_eq, lex_lt in *.

Ltac num_order :=
  intros; num_order_prepare;
  repeat match goal with
  | |- context [key ?x] => destruct (key x) as [[[? ?] ?]|]
  | H : context [key ?x] |- _ => destruct (key x) as [[[? ?] ?]|]
  end;
  rewrite ?key_eq_inj in *; simpl in *; try congruence; try tauto; try lia.

Lemma nltb_irrefl x : nltb x x = false.
Proof. num_order. Qed.

Lemma nltb_trans x y z : nltb x y = true -> nltb y z = true -> nltb x z = true.
Proof. num_order. Qed.

Lemma nleb_trans x y z : nleb x y = true -> nleb y z = true -> nleb x z = true.
Proof. num_order. Qed.

Lemma nleb_nltb_trans x y z : nleb x y = true -> nltb y z = true -> nltb x z = true.
Proof. num_order. Qed.

Lemma nltb_nleb_trans x y z : nltb x y = true -> nleb y z = true -> nltb x z = true.
Proof. num_order. Qed.

Lemma nltb_nleb x y : nltb x y = true -> nleb x y = true.
Proof. num_order. Qed.

Lemma nltb_not_nleb x y : nltb x y = true -> nleb y x = false.
Proof. num_order. Qed.

Lemma nleb_not_nltb x y : nleb x y = true -> nltb y x = false.
Proof. num_order. Qed.

(** Only away from NaN: without [isNaN] both comparisons are false. *)
Lemma nltb_total x y :
  isNaN x = false -> isNaN y = false -> nltb x y = negb (nleb y x).
Proof.
  intros. destruct (nleb y x) eqn:E, (nltb x y) eqn:F; simpl; try reflexivity; exfalso;
    revert E F; num_order.
Qed.

Lemma nleb_refl x : isNaN x = false -> nleb x x = true.
Proof. num_order. Qed.

Lemma neqb_sym x y : neqb x y = neqb y x.
Proof.
  destruct (neqb x y) eqn:E, (neqb y x) eqn:F; try reflexivity; exfalso;
    revert E F; num_order.
Qed.

Lemma neqb_trans x y z : neqb x y = true -> neqb y z = true -> neqb x z = true.
Proof. num_order. Qed.
