(* ===== verification/SafeInteger.v ===== *)
(** * Arithmetic on safe integers is exact

    The amounts, quantities and counts of the program are mostly whole
    numbers.  This file proves that binary64 arithmetic on integers of
    magnitude below [2^53] is integer arithmetic: [ofZ] is a homomorphism for
    addition, subtraction and multiplication while the result stays in range,
    it preserves comparison, and [Math.floor (a / b)] is the integer quotient
    although the division rounds. *)

From Stdlib Require Import ZArith Lia Bool List Floats.SpecFloat Sorting.Permutation.
From S2P Require Import JsNumber.

Local Open Scope Z_scope.

(** A safe integer, as [Number.isSafeInteger] accepts it. *)
Definition safe (z : Z) : Prop := - 2 ^ 53 < z < 2 ^ 53.

(** ** Digits and shifts *)

Lemma digits2_pos_log2 p : Zpos (digits2_pos p) = Z.log2 (Zpos p) + 1.
Proof.
  induction p as [p IH|p IH|]; simpl digits2_pos; rewrite ?Pos2Z.inj_succ, ?IH; [| |reflexivity].
  - change (Zpos p~1) with (2 * Zpos p + 1). rewrite Z.log2_succ_double by lia. lia.
  - change (Zpos p~0) with (2 * Zpos p). rewrite Z.log2_double by lia. lia.
Qed.

Lemma Zdigits2_log2 m : 0 < m -> Zdigits2 m = Z.log2 m + 1.
Proof. destruct m; try lia. intros _. apply digits2_pos_log2. Qed.

Lemma iter_pos_nat {A} (f : A -> A) n x : iter_pos f n x = Nat.iter (Pos.to_nat n) f x.
Proof.
  assert (D : forall p y, Nat.iter (Pos.to_nat (p~0)) f y
                          = Nat.iter (Pos.to_nat p) f (Nat.iter (Pos.to_nat p) f y)).
  { intros p y. rewrite Pos2Nat.inj_xO. replace (2 * Pos.to_nat p)%nat
      with (Pos.to_nat p + Pos.to_nat p)%nat by lia. apply Nat.iter_add. }
  revert x. induction n as [n IH|n IH|]; intros x; simpl iter_pos.
  - rewrite !IH, <- D, <- Nat.iter_succ_r, Pos2Nat.inj_xI, Pos2Nat.inj_xO. reflexivity.
  - now rewrite !IH, D.
  - reflexivity.
Qed.

Lemma iter_xO n p : Zpos (Pos.iter xO p n) = Zpos p * 2 ^ Zpos n.
Proof.
  revert p. induction n as [|n IH] using Pos.peano_ind; intros p.
  - simpl. lia.
  - rewrite Pos.iter_succ. change (Zpos (Pos.iter xO p n)~0) with (2 * Zpos (Pos.iter xO p n)).
    rewrite IH, Pos2Z.inj_succ, Z.pow_succ_r by lia. lia.
Qed.

(** Shifting an exact record right over its trailing zeros loses nothing. *)
Lemma shr_1_exact m :
  0 < m -> shr_1 (Build_shr_record (2 * m) false false) = Build_shr_record m false false.
Proof. destruct m; try lia. reflexivity. Qed.

Lemma shr_iter_exact n m :
  0 < m ->
  Nat.iter n shr_1 (Build_shr_record (m * 2 ^ Z.of_nat n) false false)
  = Build_shr_record m false false.
Proof.
  intros Hm. induction n as [|n IH]; [simpl; f_equal; lia|].
  rewrite Nat.iter_succ_r, Nat2Z.inj_succ, Z.pow_succ_r by lia.
  replace (m * (2 * 2 ^ Z.of_nat n)) with (2 * (m * 2 ^ Z.of_nat n)) by lia.
  rewrite shr_1_exact by (apply Z.mul_pos_pos; lia). exact IH.
Qed.

Lemma shr_exact m e n :
  0 < m -> 0 <= n ->
  shr (Build_shr_record (m * 2 ^ n) false false) e n = (Build_shr_record m false false, e + n).
Proof.
  intros Hm Hn. destruct n as [|p|p]; try lia; cbv beta iota delta [shr].
  - rewrite Z.pow_0_r, Z.mul_1_r, Z.add_0_r. reflexivity.
  - rewrite iter_pos_nat, <- (positive_nat_Z p), shr_iter_exact by assumption. reflexivity.
Qed.

(** ** Canonical mantissas

    [canon c e] is a normal mantissa in range: 53 bits, so [fexp] keeps [e]. *)
Definition canon (c e : Z) : Prop := 2 ^ 52 <= c < 2 ^ 53 /\ -1074 <= e <= 971.

Lemma log2_canon c : 2 ^ 52 <= c < 2 ^ 53 -> Z.log2 c = 52.
Proof. intros. apply Z.log2_unique; lia. Qed.

Lemma fexp_53 e : -1074 <= e -> fexp prec emax (53 + e) = e.
Proof. unfold fexp, emin, prec, emax. lia. Qed.

Lemma fexp_canon c e k :
  canon c (e + k) -> 0 <= k -> fexp prec emax (Zdigits2 (c * 2 ^ k) + e) = e + k.
Proof.
  intros [Hc He] Hk. assert (0 < 2 ^ k) by (apply Z.pow_pos_nonneg; lia).
  rewrite Zdigits2_log2 by (apply Z.mul_pos_pos; lia).
  rewrite Z.log2_mul_pow2, log2_canon by lia.
  replace (k + 52 + 1 + e) with (53 + (e + k)) by lia. apply fexp_53; lia.
Qed.

Lemma shr_fexp_canon c e k :
  canon c (e + k) -> 0 <= k ->
  shr_fexp prec emax (c * 2 ^ k) e loc_Exact = (Build_shr_record c false false, e + k).
Proof.
  intros H Hk. unfold shr_fexp. rewrite fexp_canon by assumption.
  replace (e + k - e) with k by lia. simpl. apply shr_exact; [unfold canon in H|]; lia.
Qed.

Lemma binary_round_aux_canon s c e k :
  canon c (e + k) -> 0 <= k ->
  binary_round_aux prec emax s (c * 2 ^ k) e loc_Exact = S754_finite s (Z.to_pos c) (e + k).
Proof.
  intros H Hk. unfold binary_round_aux. rewrite shr_fexp_canon by assumption.
  simpl loc_of_shr_record. simpl round_nearest_even.
  assert (H' : canon c (e + k + 0)) by (rewrite Z.add_0_r; exact H).
  pose proof (shr_fexp_canon c (e + k) 0 H' ltac:(lia)) as E.
  rewrite Z.pow_0_r, Z.mul_1_r, Z.add_0_r in E. rewrite E. simpl shr_m.
  destruct H as [Hc He]. destruct c as [|p|p]; try lia.
  replace (e + k <=? emax - prec) with true
    by (symmetry; apply Z.leb_le; unfold prec, emax; lia).
  reflexivity.
Qed.

(** Rounding a magnitude [m * 2^e] that equals a canonical [c * 2^f]. *)
Lemma binary_round_canon s m e c f :
  canon c f ->
  (e <= f /\ Zpos m = c * 2 ^ (f - e)) \/ (f <= e /\ c = Zpos m * 2 ^ (e - f)) ->
  binary_round prec emax s m e = S754_finite s (Z.to_pos c) f.
Proof.
  intros Hc [[He Hm]|[He Hm]]; unfold binary_round.
  - pose proof (fexp_canon c e (f - e)) as F.
    replace (e + (f - e)) with f in F by lia. specialize (F Hc ltac:(lia)).
    rewrite <- Hm in F. change (Zdigits2 (Zpos m)) with (Zpos (digits2_pos m)) in F. rewrite F.
    unfold shl_align. destruct (f - e) eqn:K; try lia; rewrite <- K in *;
      rewrite Hm, binary_round_aux_canon; try (f_equal; lia); try lia;
      replace (e + (f - e)) with f by lia; assumption.
  - assert (F : fexp prec emax (Zpos (digits2_pos m) + e) = f).
    { rewrite digits2_pos_log2.
      assert (L : Z.log2 c = 52) by (apply log2_canon; apply Hc).
      rewrite Hm, Z.log2_mul_pow2 in L by lia.
      replace (Z.log2 (Zpos m) + 1 + e) with (53 + f) by lia. apply fexp_53; unfold canon in Hc; lia. }
    rewrite F. unfold shl_align. destruct (f - e) eqn:K; try lia.
    + assert (e = f) as -> by lia. replace (f - f) with 0 in Hm by lia.
      rewrite Z.pow_0_r, Z.mul_1_r in Hm. subst c.
      pose proof (binary_round_aux_canon s (Zpos m) f 0) as B.
      rewrite Z.pow_0_r, Z.mul_1_r, Z.add_0_r in B. apply B; [exact Hc|lia].
    + rewrite iter_xO. replace (Zpos p) with (e - f) by lia. rewrite <- Hm.
      pose proof (binary_round_aux_canon s c f 0) as B.
      rewrite Z.pow_0_r, Z.mul_1_r, Z.add_0_r in B. apply B; [exact Hc|lia].
Qed.

(** ** The canonical form of a safe integer *)

Definition mant (z : Z) : Z := Z.abs z * 2 ^ (52 - Z.log2 (Z.abs z)).
Definition expo (z : Z) : Z := Z.log2 (Z.abs z) - 52.

Lemma log2_safe z : safe z -> z <> 0 -> 0 <= Z.log2 (Z.abs z) <= 52.
Proof.
  intros Hz Hn. split; [apply Z.log2_nonneg|].
  unfold safe in Hz. enough (Z.log2 (Z.abs z) < 53) by lia. apply Z.log2_lt_pow2; lia.
Qed.

Lemma mant_canon z : safe z -> z <> 0 -> canon (mant z) (expo z).
Proof.
  intros Hz Hn. pose proof (log2_safe z Hz Hn) as L. unfold canon, mant, expo.
  split; [|lia]. pose proof (Z.log2_spec (Z.abs z) ltac:(lia)) as [S1 S2].
  set (l := Z.log2 (Z.abs z)) in *.
  assert (E1 : 2 ^ l * 2 ^ (52 - l) = 2 ^ 52) by (rewrite <- Z.pow_add_r by lia; f_equal; lia).
  assert (E2 : 2 ^ Z.succ l * 2 ^ (52 - l) = 2 ^ 53)
    by (rewrite <- Z.pow_add_r by lia; f_equal; lia).
  assert (0 < 2 ^ (52 - l)) by (apply Z.pow_pos_nonneg; lia).
  rewrite <- E1, <- E2. split; [apply Z.mul_le_mono_nonneg_r|apply Z.mul_lt_mono_pos_r]; lia.
Qed.

Lemma mant_pos z : safe z -> z <> 0 -> 0 < mant z.
Proof. intros Hz Hn. destruct (mant_canon z Hz Hn). lia. Qed.

(** Any representation [m * 2^e] of a safe integer rounds to its canonical form. *)
Lemma binary_round_int s m e z :
  safe z -> z <> 0 -> e <= 0 -> Zpos m = Z.abs z * 2 ^ (- e) ->
  binary_round prec emax s m e = S754_finite s (Z.to_pos (mant z)) (expo z).
Proof.
  intros Hz Hn He Hm. pose proof (log2_safe z Hz Hn) as L.
  apply binary_round_canon; [now apply mant_canon|].
  destruct (Z.le_ge_cases e (expo z)) as [C|C]; [left|right]; (split; [exact C|]);
    unfold mant, expo in *; rewrite Hm, <- Z.mul_assoc, <- Z.pow_add_r by lia;
    do 2 f_equal; lia.
Qed.

Lemma normalize_int m e z :
  safe z -> e <= 0 -> m = z * 2 ^ (- e) ->
  binary_normalize prec emax m e false
  = match z with
    | Z0 => S754_zero false
    | Zpos _ => S754_finite false (Z.to_pos (mant z)) (expo z)
    | Zneg _ => S754_finite true (Z.to_pos (mant z)) (expo z)
    end.
Proof.
  intros Hz He Hm. assert (0 < 2 ^ (- e)) by (apply Z.pow_pos_nonneg; lia).
  destruct z as [|p|p]; destruct m as [|q|q]; try (exfalso; nia); try reflexivity;
    simpl binary_normalize; apply binary_round_int; (assumption || lia).
Qed.

Lemma ofZ_canon z :
  safe z ->
  ofZ z = match z with
          | Z0 => S754_zero false
          | Zpos _ => S754_finite false (Z.to_pos (mant z)) (expo z)
          | Zneg _ => S754_finite true (Z.to_pos (mant z)) (expo z)
          end.
Proof. intros Hz. apply normalize_int; [assumption|lia|]. simpl. lia. Qed.

Lemma ofZ_normalize m e z :
  safe z -> e <= 0 -> m = z * 2 ^ (- e) -> binary_normalize prec emax m e false = ofZ z.
Proof. intros. rewrite ofZ_canon by assumption. now apply normalize_int. Qed.

(** ** Addition, subtraction and multiplication *)

Lemma expo_le0 z : safe z -> z <> 0 -> expo z <= 0.
Proof. intros Hz Hn. pose proof (log2_safe z Hz Hn). unfold expo. lia. Qed.

Lemma aligned z ez :
  safe z -> z <> 0 -> ez <= expo z ->
  Zpos (fst (shl_align (Z.to_pos (mant z)) (expo z) ez)) = Z.abs z * 2 ^ (- ez).
Proof.
  intros Hz Hn He. pose proof (log2_safe z Hz Hn) as L. pose proof (mant_pos z Hz Hn) as M.
  unfold shl_align. destruct (ez - expo z) eqn:K; try lia; simpl fst.
  - rewrite Z2Pos.id by assumption. unfold mant, expo in *. do 2 f_equal. lia.
  - rewrite iter_xO, Z2Pos.id by assumption. unfold mant, expo in *.
    rewrite <- Z.mul_assoc, <- Z.pow_add_r by lia. do 2 f_equal. lia.
Qed.

Lemma cond_Zopp_aligned z ez :
  safe z -> z <> 0 -> ez <= expo z ->
  cond_Zopp (z <? 0) (Zpos (fst (shl_align (Z.to_pos (mant z)) (expo z) ez))) = z * 2 ^ (- ez).
Proof.
  intros Hz Hn He. rewrite aligned by assumption.
  destruct (Z.ltb_spec z 0); simpl; [replace (Z.abs z) with (- z) by lia|replace (Z.abs z) with z by lia]; lia.
Qed.

Lemma ofZ_finite z :
  safe z -> z <> 0 -> ofZ z = S754_finite (z <? 0) (Z.to_pos (mant z)) (expo z).
Proof. intros Hz Hn. rewrite ofZ_canon by assumption. destruct z; [lia|reflexivity..]. Qed.

Theorem nadd_ofZ a b : safe a -> safe b -> safe (a + b) -> nadd (ofZ a) (ofZ b) = ofZ (a + b).
Proof.
  intros Ha Hb Hab.
  destruct (Z.eq_dec a 0) as [->|Na]; [destruct (Z.eq_dec b 0) as [->|Nb]|].
  - reflexivity.
  - rewrite (ofZ_finite b) by assumption. simpl (0 + b). now rewrite (ofZ_finite b).
  - destruct (Z.eq_dec b 0) as [->|Nb].
    + rewrite Z.add_0_r, (ofZ_finite a) by assumption. reflexivity.
    + rewrite (ofZ_finite a), (ofZ_finite b) by assumption. unfold nadd, SFadd.
      pose proof (expo_le0 a Ha Na). pose proof (expo_le0 b Hb Nb).
      rewrite !cond_Zopp_aligned by (assumption || lia).
      apply ofZ_normalize; [assumption|lia|lia].
Qed.

Theorem nsub_ofZ a b : safe a -> safe b -> safe (a - b) -> nsub (ofZ a) (ofZ b) = ofZ (a - b).
Proof.
  intros Ha Hb Hab.
  destruct (Z.eq_dec a 0) as [->|Na]; [destruct (Z.eq_dec b 0) as [->|Nb]|].
  - reflexivity.
  - rewrite (ofZ_finite b) by assumption. unfold safe in *.
    rewrite (ofZ_finite (0 - b)) by (unfold safe; lia). simpl nsub. unfold mant, expo.
    replace (Z.abs (0 - b)) with (Z.abs b) by lia. f_equal.
    destruct (Z.ltb_spec b 0), (Z.ltb_spec (0 - b) 0); simpl; lia || reflexivity.
  - destruct (Z.eq_dec b 0) as [->|Nb].
    + rewrite Z.sub_0_r, (ofZ_finite a) by assumption. reflexivity.
    + rewrite (ofZ_finite a), (ofZ_finite b) by assumption. unfold nsub, SFsub.
      pose proof (expo_le0 a Ha Na). pose proof (expo_le0 b Hb Nb).
      rewrite !cond_Zopp_aligned by (assumption || lia).
      apply ofZ_normalize; [assumption|lia|lia].
Qed.

(** The magnitude behind the canonical form. *)
Lemma mant_expo z : safe z -> z <> 0 -> mant z = Z.abs z * 2 ^ (- expo z).
Proof. intros Hz Hn. unfold mant, expo. do 2 f_equal. lia. Qed.

Lemma nmul_ofZ_nonzero a b :
  safe a -> safe b -> safe (a * b) -> a <> 0 -> b <> 0 -> nmul (ofZ a) (ofZ b) = ofZ (a * b).
Proof.
  intros Ha Hb Hab Na Nb. assert (Nab : a * b <> 0) by nia.
  rewrite (ofZ_finite a), (ofZ_finite b), (ofZ_finite (a * b)) by assumption.
  unfold nmul, SFmul.
  pose proof (mant_pos a Ha Na). pose proof (mant_pos b Hb Nb).
  rewrite Pos2Z.inj_mul, !Z2Pos.id, (mant_expo a), (mant_expo b) by assumption.
  pose proof (log2_safe a Ha Na). pose proof (log2_safe b Hb Nb).
  pose proof (log2_safe _ Hab Nab) as L.
  assert (LL : Z.log2 (Z.abs a) + Z.log2 (Z.abs b) <= Z.log2 (Z.abs (a * b))).
  { rewrite Z.abs_mul. apply Z.log2_mul_below; lia. }
  set (k := expo (a * b) - (expo a + expo b)).
  assert (Hk : 0 <= k) by (unfold k, expo; lia).
  replace (Z.abs a * 2 ^ (- expo a) * (Z.abs b * 2 ^ (- expo b))) with (mant (a * b) * 2 ^ k).
  - pose proof (mant_canon _ Hab Nab) as C.
    rewrite binary_round_aux_canon; [|unfold k..].
    + replace (expo a + expo b + k) with (expo (a * b)) by (unfold k; lia). f_equal.
      destruct (Z.ltb_spec a 0), (Z.ltb_spec b 0), (Z.ltb_spec (a * b) 0); simpl; nia || reflexivity.
    + replace (expo a + expo b + (expo (a * b) - (expo a + expo b))) with (expo (a * b)) by lia.
      exact C.
    + exact Hk.
  - rewrite mant_expo by assumption. rewrite Z.abs_mul.
    replace (Z.abs a * Z.abs b * 2 ^ (- expo (a * b)) * 2 ^ k)
      with (Z.abs a * Z.abs b * (2 ^ (- expo (a * b)) * 2 ^ k)) by lia.
    replace (Z.abs a * 2 ^ (- expo a) * (Z.abs b * 2 ^ (- expo b)))
      with (Z.abs a * Z.abs b * (2 ^ (- expo a) * 2 ^ (- expo b))) by lia.
    f_equal. rewrite <- !Z.pow_add_r by (unfold expo in *; lia). f_equal. unfold k. lia.
Qed.

(** A product with a zero factor is a positive zero unless the other factor is negative. *)
Theorem nmul_ofZ a b :
  safe a -> safe b -> safe (a * b) -> 0 <= a -> 0 <= b -> nmul (ofZ a) (ofZ b) = ofZ (a * b).
Proof.
  intros Ha Hb Hab Pa Pb.
  destruct (Z.eq_dec a 0) as [->|Na]; [|destruct (Z.eq_dec b 0) as [->|Nb]].
  - destruct (Z.eq_dec b 0) as [->|Nb]; [reflexivity|].
    rewrite (ofZ_finite b) by assumption. replace (b <? 0) with false by lia. reflexivity.
  - rewrite (ofZ_finite a), Z.mul_0_r by assumption.
    replace (a <? 0) with false by lia. reflexivity.
  - now apply nmul_ofZ_nonzero.
Qed.

(** ** Comparison *)

Lemma mant_lex_lt a b :
  safe a -> safe b -> 0 < a -> 0 < b ->
  (expo a < expo b \/ (expo a = expo b /\ mant a < mant b)) <-> a < b.
Proof.
  intros Ha Hb Pa Pb. unfold expo, mant. rewrite !Z.abs_eq by lia.
  pose proof (log2_safe a Ha ltac:(lia)) as La. rewrite Z.abs_eq in La by lia.
  assert (0 < 2 ^ (52 - Z.log2 a)) by (apply Z.pow_pos_nonneg; lia).
  split; [intros [H0|[H0 H1]]|intros H0].
  - destruct (Z.lt_ge_cases a b) as [C|C]; [exact C|].
    pose proof (Z.log2_le_mono b a C). lia.
  - replace (Z.log2 b) with (Z.log2 a) in H1 by lia. nia.
  - pose proof (Z.log2_le_mono a b ltac:(lia)) as M.
    destruct (Z.eq_dec (Z.log2 a) (Z.log2 b)) as [E|]; [right|left; lia].
    rewrite <- E. split; [lia|nia].
Qed.

Lemma key_ofZ z :
  safe z ->
  key (ofZ z) = Some (if z =? 0 then (0, 0, 0)
                      else if z <? 0 then (-1, - expo z, - mant z) else (1, expo z, mant z)).
Proof.
  intros Hz. destruct (Z.eqb_spec z 0) as [->|Nz]; [reflexivity|].
  rewrite ofZ_finite by assumption. pose proof (mant_pos z Hz Nz).
  destruct (z <? 0); unfold key; rewrite ?Z2Pos.id by assumption; reflexivity.
Qed.

Lemma mant_opp z : mant (- z) = mant z.
Proof. unfold mant. now rewrite Z.abs_opp. Qed.

Lemma expo_opp z : expo (- z) = expo z.
Proof. unfold expo. now rewrite Z.abs_opp. Qed.

Lemma key_lt_ofZ a b : safe a -> safe b -> key_lt (ofZ a) (ofZ b) <-> a < b.
Proof.
  intros Ha Hb. unfold key_lt. rewrite !key_ofZ by assumption.
  destruct (Z.eqb_spec a 0), (Z.eqb_spec b 0), (Z.ltb_spec a 0), (Z.ltb_spec b 0);
    unfold lex_lt; try lia.
  - assert (S : forall z, safe z -> safe (- z)) by (unfold safe; lia).
    pose proof (mant_lex_lt (- b) (- a) (S b Hb) (S a Ha) ltac:(lia) ltac:(lia)) as M.
    rewrite !mant_opp, !expo_opp in M. lia.
  - pose proof (mant_lex_lt a b Ha Hb ltac:(lia) ltac:(lia)). lia.
Qed.

Lemma isNaN_ofZ z : safe z -> isNaN (ofZ z) = false.
Proof. intros Hz. rewrite ofZ_canon by assumption. now destruct z. Qed.

Lemma isFinite_ofZ z : safe z -> isFinite (ofZ z) = true.
Proof. intros Hz. rewrite ofZ_canon by assumption. now destruct z. Qed.

Theorem nltb_ofZ a b : safe a -> safe b -> nltb (ofZ a) (ofZ b) = (a <? b).
Proof.
  intros Ha Hb. apply eq_true_iff_eq. rewrite nltb_key, key_lt_ofZ by assumption. lia.
Qed.

Theorem nleb_ofZ a b : safe a -> safe b -> nleb (ofZ a) (ofZ b) = (a <=? b).
Proof.
  intros Ha Hb. pose proof (isNaN_ofZ a Ha). pose proof (isNaN_ofZ b Hb).
  pose proof (nltb_total (ofZ b) (ofZ a) ltac:(assumption) ltac:(assumption)) as T.
  rewrite nltb_ofZ in T by assumption. destruct (nleb (ofZ a) (ofZ b)); simpl in T; lia.
Qed.

Theorem neqb_ofZ a b : safe a -> safe b -> neqb (ofZ a) (ofZ b) = (a =? b).
Proof.
  intros Ha Hb. apply eq_true_iff_eq. rewrite neqb_key.
  assert (K : key_eq (ofZ a) (ofZ b) <-> ~ key_lt (ofZ a) (ofZ b) /\ ~ key_lt (ofZ b) (ofZ a)).
  { unfold key_eq, key_lt, lex_lt. rewrite !key_ofZ by assumption.
    destruct (if a =? 0 then _ else _) as [[]], (if b =? 0 then _ else _) as [[]].
    rewrite key_eq_inj. simpl. lia. }
  rewrite K, !key_lt_ofZ by assumption. lia.
Qed.

Theorem toZ_ofZ z : safe z -> toZ (ofZ z) = z.
Proof.
  intros Hz. destruct (Z.eq_dec z 0) as [->|Nz]; [reflexivity|].
  rewrite ofZ_finite by assumption. simpl. unfold mag_floor.
  rewrite Z2Pos.id, mant_expo by (now try apply mant_pos).
  pose proof (expo_le0 z Hz Nz).
  destruct (Z.leb_spec 0 (expo z)).
  - replace (expo z) with 0 by lia. destruct (Z.ltb_spec z 0); simpl Z.opp; lia.
  - rewrite Z.div_mul by (apply Z.pow_nonzero; lia). destruct (Z.ltb_spec z 0); lia.
Qed.

(** ** Division

    The quotient of two positive safe integers is rounded, but the rounding
    error is at most half a unit in the last place, too small to reach the
    next integer: flooring recovers the integer quotient exactly. *)

Lemma new_location_spec d r :
  0 <= r < d ->
  new_location d r = if r =? 0 then loc_Exact else loc_Inexact (2 * r ?= d).
Proof.
  intros H. unfold new_location, new_location_even, new_location_odd.
  destruct (Z.even d) eqn:E; destruct (Z.eqb_spec r 0); try reflexivity. f_equal.
  assert (O : Z.odd d = true) by (rewrite <- Z.negb_even, E; reflexivity).
  apply Z.odd_spec in O as [h Hh].
  destruct (Z.compare_spec (2 * r + 1) d), (Z.compare_spec (2 * r) d); try reflexivity; lia.
Qed.

(** One rounding of a quotient [q + r / d] whose mantissa is shifted by [j] bits. *)
Lemma round_step q r d :
  0 < q -> 0 <= r < d ->
  let rec0 := shr_record_of_loc q (new_location d r) in
  forall j rec, (j = 0 /\ rec = rec0) \/ (j = 1 /\ rec = shr_1 rec0) ->
  let M := round_nearest_even (shr_m rec) (loc_of_shr_record rec) in
  2 * Z.abs (M * 2 ^ j * d - (q * d + r)) <= 2 ^ j * d
  /\ q / 2 ^ j <= M <= q / 2 ^ j + 1.
Proof.
  intros Hq Hr rec0 j rec [[-> ->]|[-> ->]]; unfold rec0; rewrite new_location_spec by assumption.
  - rewrite Z.pow_0_r, Z.div_1_r.
    destruct (Z.eqb_spec r 0); [|destruct (Z.compare_spec (2 * r) d)];
      cbn [shr_m loc_of_shr_record shr_record_of_loc round_nearest_even];
      try (destruct (Z.even q)); nia.
  - change (2 ^ 1) with 2.
    assert (S : forall b1 b2, let rc := shr_1 (Build_shr_record q b1 b2) in
               rc = Build_shr_record (q / 2) (Z.odd q) (b1 || b2)).
    { intros b1 b2. destruct q as [|[p|p|]|p]; try lia; simpl; try reflexivity.
      - change (Zpos p~1) with (2 * Zpos p + 1). f_equal.
        rewrite Z.add_comm, Z.mul_comm, Z.div_add by lia. reflexivity.
      - change (Zpos p~0) with (2 * Zpos p). f_equal.
        rewrite Z.mul_comm, Z.div_mul by lia. reflexivity. }
    pose proof (Z.div_mod q 2 ltac:(lia)) as DM. rewrite <- Z.bit0_mod, Z.bit0_odd in DM.
    destruct (Z.eqb_spec r 0) as [->|Nr]; [|destruct (2 * r ?= d)]; unfold shr_record_of_loc;
      rewrite S; destruct (Z.odd q); unfold Z.b2z in DM;
      cbn [orb shr_m loc_of_shr_record round_nearest_even];
      try (destruct (Z.even _)); nia.
Qed.

Lemma log2_53_54 q : 2 ^ 52 <= q < 2 ^ 54 -> Z.log2 q = 52 \/ (Z.log2 q = 53 /\ 2 ^ 53 <= q).
Proof.
  intros H. destruct (Z.lt_ge_cases q (2 ^ 53)); [left|right; split; [|lia]];
    apply Z.log2_unique; lia.
Qed.

Lemma binary_round_aux_quotient d n e :
  0 < d -> -1074 <= e <= 969 -> 2 ^ 52 * d <= n < 2 ^ 54 * d ->
  exists c f j,
    binary_round_aux prec emax false (n / d) e (new_location d (n mod d))
    = S754_finite false (Z.to_pos c) f
    /\ canon c f /\ e <= f <= e + 2 /\ e <= j <= f /\ f <= j + 1 /\ j <= e + 1
    /\ 2 ^ 52 * 2 ^ (j - e) * d <= n
    /\ 2 * Z.abs (c * 2 ^ (f - j) * 2 ^ (j - e) * d - n) <= 2 ^ (j - e) * d.
Proof.
  intros Hd He Hn. set (q := n / d). set (r := n mod d).
  assert (Hr : 0 <= r < d) by (apply Z.mod_pos_bound; lia).
  assert (Hqr : n = q * d + r) by (unfold q, r; rewrite Z.mul_comm; apply Z.div_mod; lia).
  assert (Hq : 2 ^ 52 <= q < 2 ^ 54).
  { split; [apply Z.div_le_lower_bound; lia|apply Z.div_lt_upper_bound; lia]. }
  assert (F : exists k, (k = 0 \/ k = 1) /\ fexp prec emax (Zdigits2 q + e) = e + k
                        /\ 2 ^ 52 <= q / 2 ^ k < 2 ^ 53).
  { rewrite Zdigits2_log2 by lia. destruct (log2_53_54 q Hq) as [L|[L G]]; rewrite L;
      [exists 0|exists 1]; repeat split; auto;
      try (unfold fexp, emin, prec, emax; lia); rewrite ?Z.pow_0_r, ?Z.div_1_r.
    - lia.
    - apply Z.log2_lt_pow2; lia.
    - apply Z.div_le_lower_bound; lia.
    - apply Z.div_lt_upper_bound; lia. }
  destruct F as (k & Hk & F & B).
  assert (NB : 2 ^ 52 * 2 ^ k * d <= n).
  { assert (2 ^ 52 * 2 ^ k <= q) by (destruct Hk as [-> | ->]; [lia|];
      change (2 ^ 1) with 2 in *; pose proof (Z.mul_div_le q 2); lia).
    assert (2 ^ 52 * 2 ^ k * d <= q * d) by (apply Z.mul_le_mono_nonneg_r; lia). lia. }
  unfold binary_round_aux, shr_fexp at 1. rewrite F. replace (e + k - e) with k by lia.
  set (rec0 := shr_record_of_loc q (new_location d r)).
  assert (K : exists rec, shr rec0 e k = (rec, e + k)
                          /\ ((k = 0 /\ rec = rec0) \/ (k = 1 /\ rec = shr_1 rec0))).
  { destruct Hk as [-> | ->]; eexists; (split; [|auto]); simpl; rewrite ?Z.add_0_r; reflexivity. }
  destruct K as (rec & -> & K).
  pose proof (round_step q r d ltac:(lia) Hr k rec K) as [R1 R2].
  set (M := round_nearest_even (shr_m rec) (loc_of_shr_record rec)) in *. rewrite <- Hqr in R1.
  destruct (Z.eq_dec M (2 ^ 53)) as [EM|NM].
  - pose proof (shr_fexp_canon (2 ^ 52) (e + k) 1) as S.
    replace (2 ^ 52 * 2 ^ 1) with M in S by (rewrite EM; reflexivity).
    rewrite S by (unfold canon; lia). exists (2 ^ 52), (e + k + 1), (e + k).
    replace (e + k + 1 - (e + k)) with 1 by lia. replace (e + k - e) with k by lia.
    replace (2 ^ 52 * 2 ^ 1) with M by (rewrite EM; reflexivity).
    repeat split; try lia.
    simpl shr_m. replace (e + k + 1 <=? emax - prec) with true; [reflexivity|].
    symmetry; apply Z.leb_le; unfold emax, prec; lia.
  - pose proof (shr_fexp_canon M (e + k) 0) as S.
    rewrite Z.pow_0_r, Z.mul_1_r, Z.add_0_r in S. rewrite S by (unfold canon; lia).
    exists M, (e + k), (e + k).
    replace (e + k - (e + k)) with 0 by lia. replace (e + k - e) with k by lia.
    rewrite Z.pow_0_r, Z.mul_1_r. repeat split; try lia.
    simpl shr_m. replace (e + k <=? emax - prec) with true
      by (symmetry; apply Z.leb_le; unfold emax, prec; lia).
    destruct M as [|p|p]; try lia. reflexivity.
Qed.

(** The rounded quotient is a canonical number within half a unit of the quotient. *)
Lemma ndiv_spec a b :
  safe a -> safe b -> 0 < a -> 0 < b ->
  exists c f, ndiv (ofZ a) (ofZ b) = S754_finite false (Z.to_pos c) f
              /\ canon c f /\ f <= 0 /\ 2 * Z.abs (c * b - a * 2 ^ (- f)) <= b
              /\ b < 2 * 2 ^ (- f).
Proof.
  intros Ha Hb Pa Pb.
  rewrite (ofZ_finite a), (ofZ_finite b) by (assumption || lia).
  replace (a <? 0) with false by lia. replace (b <? 0) with false by lia.
  pose proof (mant_canon a Ha ltac:(lia)) as [Ca _].
  pose proof (mant_canon b Hb ltac:(lia)) as [Cb _].
  pose proof (expo_le0 a Ha ltac:(lia)). pose proof (expo_le0 b Hb ltac:(lia)).
  pose proof (log2_safe a Ha ltac:(lia)). pose proof (log2_safe b Hb ltac:(lia)).
  assert (Ea : -52 <= expo a) by (unfold expo; lia).
  assert (Eb : -52 <= expo b) by (unfold expo; lia).
  unfold ndiv, SFdiv, SFdiv_core_binary. rewrite !Z2Pos.id by lia.
  rewrite !Zdigits2_log2, !log2_canon by lia.
  replace (Z.min _ _) with (expo a - expo b - 53) by (unfold fexp, emin, prec, emax; lia).
  replace (expo a - expo b - (expo a - expo b - 53)) with 53 by lia.
  rewrite Z.shiftl_mul_pow2 by lia.
  pose proof (binary_round_aux_quotient (mant b) (mant a * 2 ^ 53) (expo a - expo b - 53)
                ltac:(lia) ltac:(lia) ltac:(lia))
    as (c & f & j & R & C & F1 & F2 & F3 & F4 & F5 & F6).
  pose proof (Z_div_mod (mant a * 2 ^ 53) (mant b) ltac:(lia)) as DM.
  destruct (Z.div_eucl (mant a * 2 ^ 53) (mant b)) as [q r] eqn:DE.
  replace q with (mant a * 2 ^ 53 / mant b) by (unfold Z.div; now rewrite DE).
  replace r with ((mant a * 2 ^ 53) mod mant b) by (unfold Z.modulo; now rewrite DE).
  cbn [xorb]. rewrite R. clear R DM DE q r.
  set (e := expo a - expo b - 53) in *.
  (* the bounds, scaled down to the units of [a] and [b] *)
  assert (B : 2 * Z.abs (c * 2 ^ (f - j) * b - a * 2 ^ (- j)) <= b /\ 2 ^ 52 * b <= a * 2 ^ (- j)).
  { rewrite (mant_expo a), (mant_expo b), (Z.abs_eq a), (Z.abs_eq b) in F5, F6
      by (assumption || lia).
    set (P := 2 ^ (j - e) * 2 ^ (- expo b)).
    assert (0 < P) by (unfold P; apply Z.mul_pos_pos; apply Z.pow_pos_nonneg; lia).
    replace (a * 2 ^ (- expo a) * 2 ^ 53) with (a * 2 ^ (- j) * P) in F5, F6.
    2:{ unfold P. rewrite <- !Z.mul_assoc, <- !Z.pow_add_r by lia. do 2 f_equal. lia. }
    replace (c * 2 ^ (f - j) * 2 ^ (j - e) * (b * 2 ^ (- expo b)))
      with (c * 2 ^ (f - j) * b * P) in F6 by (unfold P; ring).
    replace (2 ^ (j - e) * (b * 2 ^ (- expo b))) with (b * P) in F6 by (unfold P; ring).
    replace (2 ^ 52 * 2 ^ (j - e) * (b * 2 ^ (- expo b))) with (2 ^ 52 * b * P) in F5
      by (unfold P; ring).
    rewrite <- Z.mul_sub_distr_r, Z.abs_mul, (Z.abs_eq P), Z.mul_assoc in F6 by lia.
    apply Z.mul_le_mono_pos_r in F5, F6; [split|..]; assumption. }
  destruct B as [B NB].
  assert (Hf : f <= 0).
  { unfold safe in *. destruct (Z.le_gt_cases f 0) as [?|G]; [assumption|exfalso].
    assert (j = 0) as -> by lia. assert (f = 1) as -> by lia.
    change (2 ^ (1 - 0)) with 2 in B. change (2 ^ (- 0)) with 1 in B.
    unfold canon in C. nia. }
  exists c, f. split; [reflexivity|]. split; [exact C|]. split; [exact Hf|].
  unfold canon, safe in *.
  assert (a * 2 ^ (- f) <= (2 ^ 53 - 1) * 2 ^ (- f))
    by (apply Z.mul_le_mono_nonneg_r; [apply Z.pow_nonneg|]; lia).
  destruct (Z.eq_dec f j) as [->|N].
  - replace (j - j) with 0 in B by lia. rewrite Z.pow_0_r, Z.mul_1_r in B. split; [exact B|].
    lia.
  - assert (f = j + 1) as -> by lia. replace (j + 1 - j) with 1 in B by lia.
    change (2 ^ 1) with 2 in B.
    replace (- j) with (Z.succ (- (j + 1))) in B by lia. rewrite Z.pow_succ_r in B by lia.
    split; [lia|].
    assert (2 ^ 52 * b <= c * b) by (apply Z.mul_le_mono_nonneg_r; lia). lia.
Qed.

Lemma ndiv_0_l b : safe b -> 0 < b -> ndiv (ofZ 0) (ofZ b) = ofZ 0.
Proof.
  intros Hb Pb. rewrite (ofZ_finite b) by (assumption || lia).
  replace (b <? 0) with false by lia. reflexivity.
Qed.

(** A mantissa that close to the quotient has the quotient's integer part. *)
Lemma quotient_floor a b c P :
  0 <= a -> 0 < b -> 0 <= c -> b < 2 * P -> 2 * Z.abs (c * b - a * P) <= b -> c / P = a / b.
Proof.
  intros Ha Hb Hc U B.
  pose proof (Z.div_mod a b ltac:(lia)) as DM. pose proof (Z.mod_pos_bound a b Hb) as MB.
  set (k := a / b) in *. set (r := a mod b) in *.
  assert (E : a * P = k * P * b + r * P) by (rewrite DM; ring).
  assert (r * P <= (b - 1) * P) by (apply Z.mul_le_mono_nonneg_r; lia).
  assert (0 <= r * P) by (apply Z.mul_nonneg_nonneg; lia).
  symmetry. apply Z.div_unique with (c - P * k); [left|lia].
  destruct (Z.lt_ge_cases c (k * P)) as [L|L].
  { assert (c * b <= (k * P - 1) * b) by (apply Z.mul_le_mono_nonneg_r; lia). lia. }
  destruct (Z.lt_ge_cases c ((k + 1) * P)) as [G|G]; [lia|].
  assert ((k + 1) * P * b <= c * b) by (apply Z.mul_le_mono_nonneg_r; lia). lia.
Qed.

(** [Math.floor (a / b)] is the integer quotient. *)
Theorem floor_ndiv_ofZ a b :
  safe a -> safe b -> 0 <= a -> 0 < b -> floor (ndiv (ofZ a) (ofZ b)) = ofZ (a / b).
Proof.
  intros Ha Hb Pa Pb. destruct (Z.eq_dec a 0) as [->|Na].
  { now rewrite ndiv_0_l. }
  destruct (ndiv_spec a b Ha Hb ltac:(lia) Pb) as (c & f & -> & C & Hf & B & U).
  unfold canon, safe in *. unfold floor. rewrite Z2Pos.id by lia.
  set (P := 2 ^ (- f)) in *.
  assert (HP : 1 <= P) by (unfold P; pose proof (Z.pow_pos_nonneg 2 (- f)); lia).
  pose proof (quotient_floor a b c P ltac:(lia) Pb ltac:(lia) U B) as Q.
  destruct (Z.leb_spec 0 f).
  - assert (f = 0) as -> by lia. change P with 1 in *. rewrite Z.div_1_r in Q.
    assert (b = 1) by nia. subst b. rewrite Z.div_1_r in *. subst c.
    rewrite ofZ_finite by (unfold safe; lia). replace (a <? 0) with false by lia.
    unfold mant, expo. rewrite Z.abs_eq, log2_canon by lia.
    change (2 ^ (52 - 52)) with 1. rewrite Z.mul_1_r. reflexivity.
  - now rewrite Q.
Qed.

Lemma canon_unique c f z :
  canon c f -> 0 < z -> safe z -> f <= 0 -> c = z * 2 ^ (- f) ->
  S754_finite false (Z.to_pos c) f = ofZ z.
Proof.
  intros [C1 C2] Pz Hz Hf E. rewrite ofZ_finite by (assumption || lia).
  replace (z <? 0) with false by lia.
  assert (L : Z.log2 c = 52) by (apply log2_canon; lia).
  rewrite E, Z.log2_mul_pow2 in L by lia.
  assert (f = expo z) as -> by (unfold expo; rewrite Z.abs_eq by lia; lia).
  rewrite E, mant_expo, Z.abs_eq by (assumption || lia). reflexivity.
Qed.

(** A division without remainder is exact. *)
Theorem ndiv_ofZ_exact a b :
  safe a -> safe b -> 0 <= a -> 0 < b -> (b | a) -> ndiv (ofZ a) (ofZ b) = ofZ (a / b).
Proof.
  intros Ha Hb Pa Pb [k ->]. rewrite Z.div_mul by lia.
  destruct (Z.eq_dec k 0) as [->|Nk]; [now apply ndiv_0_l|].
  destruct (ndiv_spec (k * b) b Ha Hb ltac:(nia) Pb) as (c & f & -> & C & Hf & B & U).
  unfold safe in *.
  apply canon_unique; [assumption|nia|unfold safe; nia|assumption|].
  set (P := 2 ^ (- f)) in *. nia.
Qed.

Corollary ndiv_ofZ_1 a : safe a -> 0 <= a -> ndiv (ofZ a) (ofZ 1) = ofZ a.
Proof.
  intros Ha Pa. rewrite ndiv_ofZ_exact by (try assumption; try (unfold safe; lia); apply Z.divide_1_l).
  now rewrite Z.div_1_r.
Qed.

(** ** Rounding, signs and extrema of safe integers *)

Lemma signed_mant z :
  safe z -> z <> 0 ->
  (if z <? 0 then - Zpos (Z.to_pos (mant z)) else Zpos (Z.to_pos (mant z))) = z * 2 ^ (- expo z).
Proof.
  intros Hz Nz. rewrite Z2Pos.id by (now apply mant_pos). rewrite mant_expo by assumption.
  destruct (Z.ltb_spec z 0); nia.
Qed.

Lemma round_ofZ z : safe z -> round (ofZ z) = ofZ z.
Proof.
  intros Hz. destruct (Z.eq_dec z 0) as [->|Nz]; [reflexivity|].
  rewrite (ofZ_finite z) at 1 by assumption. unfold round. rewrite signed_mant by assumption.
  destruct (Z.leb_spec 0 (expo z)); [symmetry; now apply ofZ_finite|].
  set (P := 2 ^ (- expo z)). assert (0 < P) by (apply Z.pow_pos_nonneg; lia).
  rewrite Z.pow_add_r by lia. fold P. change (2 ^ 1) with 2.
  replace (2 * (z * P) + P) with (P + z * (P * 2)) by ring.
  rewrite Z.div_add by lia. rewrite (Z.div_small P) by lia. simpl. destruct z; [lia|reflexivity..].
Qed.

Lemma floor_ofZ z : safe z -> floor (ofZ z) = ofZ z.
Proof.
  intros Hz. destruct (Z.eq_dec z 0) as [->|Nz]; [reflexivity|].
  rewrite (ofZ_finite z) at 1 by assumption. unfold floor. rewrite signed_mant by assumption.
  destruct (Z.leb_spec 0 (expo z)); [symmetry; now apply ofZ_finite|].
  rewrite Z.div_mul by (apply Z.pow_nonzero; lia). reflexivity.
Qed.

Lemma isInteger_ofZ z : safe z -> isInteger (ofZ z) = true.
Proof.
  intros Hz. destruct (Z.eq_dec z 0) as [->|Nz]; [reflexivity|].
  rewrite (ofZ_finite z) by assumption. unfold isInteger.
  rewrite Z2Pos.id, mant_expo by (now try apply mant_pos).
  destruct (Z.leb_spec 0 (expo z)); [reflexivity|].
  rewrite Z.mod_mul by (apply Z.pow_nonzero; lia). reflexivity.
Qed.

Lemma nabs_ofZ z : safe z -> nabs (ofZ z) = ofZ (Z.abs z).
Proof.
  intros Hz. destruct (Z.eq_dec z 0) as [->|Nz]; [reflexivity|].
  rewrite (ofZ_finite z), (ofZ_finite (Z.abs z)) by (unfold safe in *; lia).
  replace (Z.abs z <? 0) with false by lia. simpl.
  unfold mant, expo. rewrite Z.abs_involutive. reflexivity.
Qed.

Lemma isSafeInteger_ofZ z : safe z -> isSafeInteger (ofZ z) = true.
Proof.
  intros Hz. unfold isSafeInteger. rewrite isInteger_ofZ, nabs_ofZ, nleb_ofZ by
    (unfold safe, MAX_SAFE_INTEGER in *; lia). unfold safe, MAX_SAFE_INTEGER in *. lia.
Qed.

Lemma num_truthy_ofZ z : safe z -> num_truthy (ofZ z) = negb (z =? 0).
Proof. intros Hz. rewrite ofZ_canon by assumption. now destruct z. Qed.

Lemma nmax_ofZ a b : safe a -> safe b -> nmax (ofZ a) (ofZ b) = ofZ (Z.max a b).
Proof.
  intros Ha Hb. unfold nmax. rewrite !isNaN_ofZ, !nltb_ofZ by assumption. simpl.
  destruct (Z.ltb_spec b a); [f_equal; lia|]. destruct (Z.ltb_spec a b); [f_equal; lia|].
  assert (a = b) as -> by lia. rewrite Z.max_id.
  destruct (ofZ b) as [[]| | |]; reflexivity.
Qed.

Lemma nmin_ofZ a b : safe a -> safe b -> nmin (ofZ a) (ofZ b) = ofZ (Z.min a b).
Proof.
  intros Ha Hb. unfold nmin. rewrite !isNaN_ofZ, !nltb_ofZ by assumption. simpl.
  destruct (Z.ltb_spec a b); [f_equal; lia|]. destruct (Z.ltb_spec b a); [f_equal; lia|].
  assert (a = b) as -> by lia. rewrite Z.min_id.
  destruct (ofZ b) as [[]| | |]; reflexivity.
Qed.

(** ** Sums

    [xs.reduce((sum, x) => sum + x, 0)]. *)

Definition nsum (xs : list num) : num := fold_left nadd xs (ofZ 0).
Definition zsum (zs : list Z) : Z := fold_right Z.add 0 zs.

Lemma zsum_perm xs ys : Permutation xs ys -> zsum xs = zsum ys.
Proof. induction 1; simpl; lia. Qed.

Lemma zsum_app xs ys : zsum (xs ++ ys) = zsum xs + zsum ys.
Proof. induction xs; simpl; lia. Qed.

(** No partial sum of amounts whose magnitudes sum to a safe integer rounds. *)
Definition abs_sum (zs : list Z) : Z := zsum (map Z.abs zs).

Lemma abs_sum_nonneg zs : 0 <= abs_sum zs.
Proof. induction zs; unfold abs_sum in *; simpl in *; lia. Qed.

Lemma abs_sum_bound zs : Z.abs (zsum zs) <= abs_sum zs.
Proof. induction zs; unfold abs_sum in *; simpl in *; lia. Qed.

Lemma fold_nadd_ofZ zs a :
  Z.abs a + abs_sum zs < 2 ^ 53 -> fold_left nadd (map ofZ zs) (ofZ a) = ofZ (a + zsum zs).
Proof.
  revert a. induction zs as [|z zs IH]; intros a H; simpl; [f_equal; lia|].
  unfold abs_sum in *. simpl in H. pose proof (abs_sum_nonneg zs) as N. unfold abs_sum in N.
  rewrite nadd_ofZ by (unfold safe; lia). rewrite IH by lia. f_equal. lia.
Qed.

Lemma nsum_ofZ zs : abs_sum zs < 2 ^ 53 -> nsum (map ofZ zs) = ofZ (zsum zs).
Proof. intros H. unfold nsum. rewrite fold_nadd_ofZ by (simpl; lia). reflexivity. Qed.

Lemma ofZ_inj a b : safe a -> safe b -> ofZ a = ofZ b -> a = b.
Proof. intros Ha Hb E. rewrite <- (toZ_ofZ a), <- (toZ_ofZ b), E by assumption. reflexivity. Qed.

(** ** Comparing a rounded quotient with an integer

    Rounding is too fine to carry a quotient across an integer, so comparing
    [a / b] with an integer decides the comparison of the exact quotient. *)

Lemma canon_lex_lt c1 e1 c2 e2 :
  canon c1 e1 -> canon c2 e2 -> e1 <= 0 -> e2 <= 0 ->
  (e1 < e2 \/ (e1 = e2 /\ c1 < c2)) <-> c1 * 2 ^ (- e2) < c2 * 2 ^ (- e1).
Proof.
  intros [C1 _] [C2 _] N1 N2.
  assert (Step : forall c d e e', 2 ^ 52 <= c < 2 ^ 53 -> 2 ^ 52 <= d < 2 ^ 53 -> e < e' -> e' <= 0 ->
            c * 2 ^ (- e') < d * 2 ^ (- e)).
  { intros c d e e' Hc Hd L N. replace (- e) with (- e' + Z.succ (e' - e - 1)) by lia.
    rewrite Z.pow_add_r, Z.pow_succ_r by lia.
    assert (0 < 2 ^ (- e')) by (apply Z.pow_pos_nonneg; lia).
    assert (0 < 2 ^ (e' - e - 1)) by (apply Z.pow_pos_nonneg; lia).
    assert (c < d * (2 * 2 ^ (e' - e - 1))) by nia. nia. }
  destruct (Z.lt_trichotomy e1 e2) as [L|[->|L]].
  - pose proof (Step c1 c2 e1 e2 C1 C2 L N2). lia.
  - assert (0 < 2 ^ (- e2)) by (apply Z.pow_pos_nonneg; lia). split; intros; nia.
  - pose proof (Step c2 c1 e2 e1 C2 C1 L N1). lia.
Qed.

Lemma nltb_ndiv_ofZ_pos a b c :
  safe a -> safe b -> safe c -> 0 < a -> 0 < b -> 0 < c ->
  nltb (ndiv (ofZ a) (ofZ b)) (ofZ c) = (a <? c * b)
  /\ nltb (ofZ c) (ndiv (ofZ a) (ofZ b)) = (c * b <? a).
Proof.
  intros Ha Hb Hc Pa Pb Pc.
  destruct (ndiv_spec a b Ha Hb Pa Pb) as (q & f & -> & C & Hf & B & U).
  pose proof (mant_canon c Hc ltac:(lia)) as Cc. pose proof (expo_le0 c Hc ltac:(lia)) as Ec.
  pose proof (canon_lex_lt _ _ _ _ C Cc Hf Ec) as L1.
  pose proof (canon_lex_lt _ _ _ _ Cc C Ec Hf) as L2.
  rewrite (mant_expo c Hc) in L1, L2 by lia. rewrite (Z.abs_eq c) in L1, L2 by lia.
  set (P := 2 ^ (- f)) in *. set (Q := 2 ^ (- expo c)) in *.
  assert (0 < Q) by (apply Z.pow_pos_nonneg; lia).
  assert (0 < P) by (apply Z.pow_pos_nonneg; lia).
  assert (Hq : 0 < q) by (unfold canon in C; lia).
  split; apply eq_true_iff_eq; rewrite nltb_key; unfold key_lt; rewrite key_ofZ by assumption;
    replace (c =? 0) with false by lia; replace (c <? 0) with false by lia;
    unfold key; rewrite Z2Pos.id by lia; unfold lex_lt; rewrite Z.ltb_lt;
    rewrite (mant_expo c Hc) by lia; rewrite (Z.abs_eq c) by lia; fold Q.
  - transitivity (q < c * P); [|split; intros; nia].
    transitivity (q * Q < c * Q * P); [|split; intros; nia]. lia.
  - transitivity (c * P < q); [|split; intros; nia].
    transitivity (c * Q * P < q * Q); [|split; intros; nia]. lia.
Qed.

Lemma nltb_ndiv_ofZ_nonpos a b c :
  safe a -> safe b -> safe c -> 0 < a -> 0 < b -> c <= 0 ->
  nltb (ndiv (ofZ a) (ofZ b)) (ofZ c) = false /\ nltb (ofZ c) (ndiv (ofZ a) (ofZ b)) = true.
Proof.
  intros Ha Hb Hc Pa Pb Nc.
  destruct (ndiv_spec a b Ha Hb Pa Pb) as (q & f & -> & C & _).
  assert (N : nltb (ofZ c) (S754_finite false (Z.to_pos q) f) = true).
  { rewrite nltb_key. unfold key_lt. rewrite key_ofZ by assumption.
    destruct (Z.eqb_spec c 0), (Z.ltb_spec c 0); unfold key, lex_lt; lia. }
  split; [|exact N]. apply nleb_not_nltb, nltb_nleb, N.
Qed.

Theorem nltb_ndiv_ofZ a b c :
  safe a -> safe b -> safe c -> 0 <= a -> 0 < b ->
  nltb (ndiv (ofZ a) (ofZ b)) (ofZ c) = (a <? c * b)
  /\ nltb (ofZ c) (ndiv (ofZ a) (ofZ b)) = (c * b <? a).
Proof.
  intros Ha Hb Hc Pa Pb. destruct (Z.eq_dec a 0) as [->|Na].
  - rewrite ndiv_0_l, !nltb_ofZ by (assumption || (unfold safe; lia)).
    split; apply eq_true_iff_eq; rewrite !Z.ltb_lt; nia.
  - destruct (Z.lt_ge_cases 0 c).
    + apply nltb_ndiv_ofZ_pos; lia || assumption.
    + destruct (nltb_ndiv_ofZ_nonpos a b c) as [-> ->]; try assumption; lia.
Qed.

Lemma isFinite_ndiv_ofZ a b :
  safe a -> safe b -> 0 <= a -> 0 < b -> isFinite (ndiv (ofZ a) (ofZ b)) = true.
Proof.
  intros Ha Hb Pa Pb. destruct (Z.eq_dec a 0) as [->|Na].
  - rewrite ndiv_0_l by assumption. reflexivity.
  - destruct (ndiv_spec a b Ha Hb ltac:(lia) Pb) as (q & f & -> & _). reflexivity.
Qed.

Lemma nleb_nltb x y : isNaN x = false -> isNaN y = false -> nleb x y = negb (nltb y x).
Proof.
  intros Hx Hy. destruct (nltb y x) eqn:L; simpl.
  - apply nltb_not_nleb, L.
  - revert L. num_order.
Qed.

Theorem nleb_ndiv_ofZ a b c :
  safe a -> safe b -> safe c -> 0 <= a -> 0 < b ->
  nleb (ndiv (ofZ a) (ofZ b)) (ofZ c) = (a <=? c * b).
Proof.
  intros Ha Hb Hc Pa Pb. rewrite nleb_nltb.
  - destruct (nltb_ndiv_ofZ a b c) as [_ ->]; try assumption. lia.
  - apply isFinite_isNaN, isFinite_ndiv_ofZ; assumption.
  - apply isNaN_ofZ; assumption.
Qed.

(** Reduce arithmetic on whole numbers to [Z]; the side conditions are bounds. *)
Ltac whole :=
  repeat first
    [ rewrite nadd_ofZ by (unfold safe in *; nia)
    | rewrite nsub_ofZ by (unfold safe in *; nia)
    | rewrite nmul_ofZ by (unfold safe in *; nia) ].

#[global] Arguments ofZ : simpl never.
#[global] Arguments decimal : simpl never.

(** ** Extrema of lists and the machine epsilon *)

Lemma nmax_start z : safe z -> nmax (nopp Infinity) (ofZ z) = ofZ z.
Proof.
  intros Hz. unfold nmax. rewrite isNaN_ofZ by assumption. rewrite ofZ_canon by assumption.
  now destruct z.
Qed.

Lemma nmin_start z : safe z -> nmin Infinity (ofZ z) = ofZ z.
Proof.
  intros Hz. unfold nmin. rewrite isNaN_ofZ by assumption. rewrite ofZ_canon by assumption.
  now destruct z.
Qed.

Lemma fold_nmax_ofZ zs a :
  safe a -> Forall safe zs ->
  exists m, In m (a :: zs) /\ fold_left nmax (map ofZ zs) (ofZ a) = ofZ m
            /\ forall z, In z (a :: zs) -> z <= m.
Proof.
  intros Ha F. revert a Ha. induction F as [|z zs Hz F IH]; intros a Ha; simpl.
  - exists a. repeat split; auto. intros z [->|[]]. lia.
  - rewrite nmax_ofZ by assumption. destruct (IH (Z.max a z)) as (m & I & E & M).
    { unfold safe in *. lia. }
    exists m. split; [|split; [exact E|]].
    + destruct I as [<-|I]; [|auto]. destruct (Z.max_spec a z) as [[_ ->]|[_ ->]]; auto.
    + intros x [<-|[<-|Hx]]; [| |apply M; now right];
        specialize (M (Z.max a z) (or_introl eq_refl)); lia.
Qed.

Lemma nmax_list_ofZ zs :
  zs <> nil -> Forall safe zs ->
  exists m, In m zs /\ nmax_list (map ofZ zs) = ofZ m /\ forall z, In z zs -> z <= m.
Proof.
  destruct zs as [|z zs]; [congruence|]. intros _ F. inversion F; subst.
  unfold nmax_list. simpl. rewrite nmax_start by assumption. now apply fold_nmax_ofZ.
Qed.

Lemma fold_nmin_ofZ zs a :
  safe a -> Forall safe zs ->
  exists m, In m (a :: zs) /\ fold_left nmin (map ofZ zs) (ofZ a) = ofZ m
            /\ forall z, In z (a :: zs) -> m <= z.
Proof.
  intros Ha F. revert a Ha. induction F as [|z zs Hz F IH]; intros a Ha; simpl.
  - exists a. repeat split; auto. intros z [->|[]]. lia.
  - rewrite nmin_ofZ by assumption. destruct (IH (Z.min a z)) as (m & I & E & M).
    { unfold safe in *. lia. }
    exists m. split; [|split; [exact E|]].
    + destruct I as [<-|I]; [|auto]. destruct (Z.min_spec a z) as [[_ ->]|[_ ->]]; auto.
    + intros x [<-|[<-|Hx]]; [| |apply M; now right];
        specialize (M (Z.min a z) (or_introl eq_refl)); lia.
Qed.

Lemma nmin_list_ofZ zs :
  zs <> nil -> Forall safe zs ->
  exists m, In m zs /\ nmin_list (map ofZ zs) = ofZ m /\ forall z, In z zs -> m <= z.
Proof.
  destruct zs as [|z zs]; [congruence|]. intros _ F. inversion F; subst.
  unfold nmin_list. simpl. rewrite nmin_start by assumption. now apply fold_nmin_ofZ.
Qed.

(** [x < Number.EPSILON] holds of no positive integer. *)
Lemma nltb_EPSILON z : safe z -> 0 <= z -> nltb (ofZ z) EPSILON = (z =? 0).
Proof.
  intros Hz Pz. apply eq_true_iff_eq. rewrite nltb_key. unfold key_lt. rewrite key_ofZ by assumption.
  change (key EPSILON) with (Some (1, -104, 4503599627370496)). unfold lex_lt.
  destruct (Z.eqb_spec z 0); [split; intros; [reflexivity|lia]|].
  replace (z <? 0) with false by lia. pose proof (log2_safe z Hz ltac:(lia)). unfold expo.
  split; [lia|discriminate].
Qed.

(** ** Integers that are not safe *)

Lemma shr_m_shr_1 r : 0 <= shr_m r -> shr_m (shr_1 r) = shr_m r / 2.
Proof.
  destruct r as [m b1 b2]. simpl. intros H. destruct m as [|[p|p|]|p]; try lia; simpl; try reflexivity.
  - change (Zpos p~1) with (2 * Zpos p + 1). rewrite Z.add_comm, Z.mul_comm, Z.div_add by lia. reflexivity.
  - change (Zpos p~0) with (2 * Zpos p). rewrite Z.mul_comm, Z.div_mul by lia. reflexivity.
Qed.

Lemma shr_m_iter n r : 0 <= shr_m r -> shr_m (Nat.iter n shr_1 r) = shr_m r / 2 ^ Z.of_nat n.
Proof.
  intros H. induction n as [|n IH]; [now rewrite Z.div_1_r|].
  change (Nat.iter (S n) shr_1 r) with (shr_1 (Nat.iter n shr_1 r)). assert (0 < 2 ^ Z.of_nat n) by (apply Z.pow_pos_nonneg; lia).
  rewrite shr_m_shr_1, IH, Z.div_div by (rewrite ?IH; try apply Z.div_pos; lia).
  f_equal. rewrite Nat2Z.inj_succ, Z.pow_succ_r by lia. lia.
Qed.

Lemma shr_m_shr r e n : 0 <= shr_m r -> 0 <= n -> shr_m (fst (shr r e n)) = shr_m r / 2 ^ n /\ snd (shr r e n) = e + n.
Proof.
  intros H N. unfold shr. destruct n as [|p|p]; [| |lia]; simpl fst; simpl snd.
  - rewrite Z.div_1_r. lia.
  - rewrite iter_pos_nat, shr_m_iter, positive_nat_Z by assumption. lia.
Qed.

Lemma round_nearest_even_ge m l : m <= round_nearest_even m l.
Proof. destruct l as [|[]]; simpl; try destruct (Z.even m); lia. Qed.

Lemma log2_shift m n : 2 ^ 52 <= m -> n = Z.log2 m - 52 -> 2 ^ 52 <= m / 2 ^ n.
Proof.
  intros M ->. assert (52 <= Z.log2 m) by (apply Z.log2_le_pow2; lia).
  apply Z.div_le_lower_bound; [apply Z.pow_pos_nonneg; lia|]. rewrite <- Z.pow_add_r by lia.
  replace (Z.log2 m - 52 + 52) with (Z.log2 m) by lia. apply Z.log2_spec. lia.
Qed.

(** Shifting a mantissa that is too long keeps it long, and the exponent positive. *)
Lemma shr_fexp_large m e l : 2 ^ 52 <= m -> 0 <= e -> exists r e',
  shr_fexp prec emax m e l = (r, e') /\ 2 ^ 52 <= shr_m r /\ e <= e' /\ (2 ^ 53 <= m -> e < e').
Proof.
  intros M E. assert (52 <= Z.log2 m) by (apply Z.log2_le_pow2; lia).
  unfold shr_fexp. rewrite Zdigits2_log2 by lia.
  replace (fexp prec emax (Z.log2 m + 1 + e) - e) with (Z.log2 m - 52) by (unfold fexp, emin, prec, emax; lia).
  assert (Sm : shr_m (shr_record_of_loc m l) = m) by (destruct l as [|[]]; reflexivity).
  destruct (shr_m_shr (shr_record_of_loc m l) e (Z.log2 m - 52) ltac:(lia) ltac:(lia)) as [S1 S2].
  exists (fst (shr (shr_record_of_loc m l) e (Z.log2 m - 52))), (e + (Z.log2 m - 52)).
  split; [now rewrite <- S2, <- surjective_pairing|]. rewrite S1, Sm. split; [now apply log2_shift|]. split; [lia|].
  intros G. assert (53 <= Z.log2 m) by (apply Z.log2_le_pow2; lia). lia.
Qed.

Lemma ofZ_large z : 2 ^ 53 <= z -> ofZ z = Infinity \/ exists m e, ofZ z = S754_finite false m e /\ 0 < e.
Proof.
  intros G. unfold ofZ, binary_normalize. destruct z as [|p|p]; try lia. unfold binary_round.
  assert (53 <= Z.log2 (Zpos p)) by (apply Z.log2_le_pow2; lia).
  assert (F : fexp prec emax (Zpos (digits2_pos p) + 0) = Z.log2 (Zpos p) - 52).
  { rewrite digits2_pos_log2. unfold fexp, emin, prec, emax. lia. }
  rewrite F. unfold shl_align. replace (Z.log2 (Zpos p) - 52 - 0) with (Z.log2 (Zpos p) - 52) by lia.
  destruct (Z.log2 (Zpos p) - 52) as [|q|q] eqn:L; try lia. unfold binary_round_aux.
  destruct (shr_fexp_large (Zpos p) 0 loc_Exact ltac:(lia) ltac:(lia)) as (r & e & -> & M & _ & E). specialize (E G).
  pose proof (round_nearest_even_ge (shr_m r) (loc_of_shr_record r)) as R.
  destruct (shr_fexp_large (round_nearest_even (shr_m r) (loc_of_shr_record r)) e loc_Exact ltac:(lia) ltac:(lia))
    as (r' & e' & -> & M' & E' & _).
  destruct (shr_m r') as [|m|m]; try lia. destruct (e' <=? emax - prec); [right|now left]. exists m, e'. split; [reflexivity|lia].
Qed.

(** A number made of an integer that is too large is above every safe one. *)
Lemma nltb_ofZ_large a z : safe a -> 2 ^ 53 <= z -> nltb (ofZ a) (ofZ z) = true.
Proof.
  intros A G. apply nltb_key. unfold key_lt. rewrite (key_ofZ a) by assumption.
  destruct (ofZ_large z G) as [->|(m & e & -> & E)].
  - simpl. destruct (a =? 0), (a <? 0); simpl; lia.
  - simpl. destruct (Z.eqb_spec a 0); [simpl; lia|]. pose proof (expo_le0 a A ltac:(lia)). destruct (a <? 0); simpl; lia.
Qed.

Lemma isSafeInteger_of_ofZ z : 0 <= z -> isSafeInteger (ofZ z) = true -> safe z.
Proof.
  intros P S. destruct (Z.lt_ge_cases z (2 ^ 53)) as [L|G]; [unfold safe; lia|]. exfalso.
  unfold isSafeInteger in S. apply andb_true_iff in S as [_ S].
  assert (N : nabs (ofZ z) = ofZ z) by (destruct (ofZ_large z G) as [->|(m & e & -> & _)]; reflexivity).
  rewrite N in S. apply nleb_not_nltb in S. rewrite nltb_ofZ_large in S; [discriminate| |assumption].
  unfold safe, MAX_SAFE_INTEGER. lia.
Qed.
