(* ===== verification/JsString.v ===== *)
(** * The strings of the program: sequences of UTF-16 code units

    A JavaScript string is a list of code units.  [js] decodes a literal of
    this file (UTF-8) into that form.  The operations are those the sources
    call: [trim], [split], [join], [includes], [replace] of whitespace, slices,
    comparison, [Number(text)] and the digits of an integer.  Operations whose
    result depends on Unicode tables or on the host's locale are fields of the
    class [Icu]. *)

From Stdlib Require Strings.Ascii.
From stdpp Require Export strings.
From S2P Require Import Prelude JsNumber.

Local Open Scope N_scope.

Abbreviation str := (list N).

(** ** Literals *)

Section utf8.
Definition cont (b : N) : N := b mod 64.

(** The code units of a code point. *)
Definition code_units (c : N) : str :=
  if c <? 65536 then [c]
  else [55296 + (c - 65536) / 1024; 56320 + (c - 65536) mod 1024].

Fixpoint utf8 (bs : list N) : str :=
  match bs with
  | [] => []
  | b :: r =>
      if b <? 128 then b :: utf8 r
      else match r with
           | [] => []
           | b1 :: r1 =>
               if b <? 224 then code_units ((b mod 32) * 64 + cont b1) ++ utf8 r1
               else match r1 with
                    | [] => []
                    | b2 :: r2 =>
                        if b <? 240
                        then code_units ((b mod 16) * 4096 + cont b1 * 64 + cont b2) ++ utf8 r2
                        else match r2 with
                             | [] => []
                             | b3 :: r3 =>
                                 code_units ((b mod 8) * 262144 + cont b1 * 4096 + cont b2 * 64
                                             + cont b3) ++ utf8 r3
                             end
                    end
           end
  end.
End utf8.

Definition js (s : string) : str := utf8 (map Ascii.N_of_ascii (String.list_ascii_of_string s)).
Arguments js s%_string.
#[global] Arguments js : simpl never.

(** A string is truthy when it is not empty. *)
Definition truthy (s : str) : bool := match s with [] => false | _ => true end.

(** [x || y] on strings and [x ?? y]. *)
Definition str_or (x y : str) : str := if truthy x then x else y.
Definition coalesce {A} (x : option A) (y : A) : A := from_option id y x.
Infix "??" := coalesce (at level 50, left associativity).

Definition str_eqb (x y : str) : bool := bool_decide (x = y).

Lemma str_eqb_neq x y : str_eqb x y = false <-> x <> y.
Proof. apply bool_decide_eq_false. Qed.

(** ** Whitespace *)

(** The white space and line terminators of ECMAScript: what [trim] removes
    and what [\s] matches. *)
Definition is_ws (c : N) : bool :=
  (9 <=? c) && (c <=? 13) || (c =? 32) || (c =? 160) || (c =? 5760)
  || ((8192 <=? c) && (c <=? 8202)) || (c =? 8232) || (c =? 8233) || (c =? 8239)
  || (c =? 8287) || (c =? 12288) || (c =? 65279).

Fixpoint drop_ws (s : str) : str :=
  match s with
  | c :: s' => if is_ws c then drop_ws s' else s
  | [] => []
  end.

Definition trim (s : str) : str := rev (drop_ws (rev (drop_ws s))).

(** [s.split(/\s+/)]: the pieces between maximal runs of whitespace. *)
Fixpoint split_ws_go (in_ws : bool) (acc s : str) : list str :=
  match s with
  | [] => [rev acc]
  | c :: s' =>
      if is_ws c
      then if in_ws then split_ws_go true acc s' else rev acc :: split_ws_go true [] s'
      else split_ws_go false (c :: acc) s'
  end.

Definition split_ws (s : str) : list str := split_ws_go false [] s.

(** [s.replace(/\s+/g, " ")] and [s.replace(/\s+/g, "")]. *)
Fixpoint collapse_ws_go (prev : bool) (s : str) : str :=
  match s with
  | [] => []
  | c :: s' =>
      if is_ws c then (if prev then collapse_ws_go true s' else 32 :: collapse_ws_go true s')
      else c :: collapse_ws_go false s'
  end.

Definition collapse_ws (s : str) : str := collapse_ws_go false s.
Definition remove_ws (s : str) : str := List.filter (fun c => negb (is_ws c)) s.

(** ** Splitting, joining, searching *)

(** [parts.join(sep)]. *)
Fixpoint join (sep : str) (parts : list str) : str :=
  match parts with
  | [] => []
  | [p] => p
  | p :: ps => p ++ sep ++ join sep ps
  end.

(** [s.split(c)] for a single code unit [c]. *)
Fixpoint split_on_go (c : N) (acc s : str) : list str :=
  match s with
  | [] => [rev acc]
  | d :: s' => if d =? c then rev acc :: split_on_go c [] s' else split_on_go c (d :: acc) s'
  end.

Definition split_on (c : N) (s : str) : list str := split_on_go c [] s.

Fixpoint starts_with (p s : str) : bool :=
  match p, s with
  | [], _ => true
  | a :: p', b :: s' => (a =? b) && starts_with p' s'
  | _ :: _, [] => false
  end.

Definition ends_with (p s : str) : bool := starts_with (rev p) (rev s).

(** [s.includes(p)]. *)
Fixpoint includes (p s : str) : bool :=
  starts_with p s || match s with [] => false | _ :: s' => includes p s' end.

(** [s.slice(0, n)] and [s.slice(0, -n)]. *)
Definition slice_to (n : nat) (s : str) : str := firstn n s.
Definition slice_drop_last (n : nat) (s : str) : str := firstn (List.length s - n) s.

(** [x < y] on strings: lexicographic by code unit. *)
Fixpoint str_ltb (x y : str) : bool :=
  match x, y with
  | _, [] => false
  | [], _ :: _ => true
  | a :: x', b :: y' => (a <? b) || ((a =? b) && str_ltb x' y')
  end.

Definition str_leb (x y : str) : bool := negb (str_ltb y x).

(** ** Digits *)

Definition is_digit (c : N) : bool := (48 <=? c) && (c <=? 57).
Definition digit_val (c : N) : Z := Z.of_N c - 48.

(** The value of a digit sequence. *)
Definition digits_val (s : str) : Z := fold_left (fun v c => 10 * v + digit_val c)%Z s 0%Z.

Definition all_digits (s : str) : bool := forallb is_digit s.

(** [n.toString()] of a non-negative integer below [10^fuel], and
    [padStart(k, "0")]. *)
Fixpoint digits_of (fuel : nat) (n : Z) : str :=
  match fuel with
  | O => []
  | S fuel' =>
      if (n <? 10)%Z then [Z.to_N (n + 48)]
      else digits_of fuel' (n / 10) ++ [Z.to_N (n mod 10 + 48)]
  end.

Definition pad_start (k : nat) (s : str) : str := replicate (k - List.length s) 48 ++ s.

(** ** [Number(text)] *)

Fixpoint span_digits (s : str) : str * str :=
  match s with
  | c :: s' => if is_digit c then let '(d, r) := span_digits s' in (c :: d, r) else ([], s)
  | [] => ([], [])
  end.

(** The value [n * 10^e] correctly rounded. *)
Definition scaled (n e : Z) : num :=
  if (0 <=? e)%Z then ofZ (n * 10 ^ e) else of_ratio n (Z.to_pos (10 ^ (- e))).

(** An exponent part, or the end of the text. *)
Definition parse_exponent (s : str) : option Z :=
  match s with
  | [] => Some 0%Z
  | c :: s' =>
      if (c =? 101) || (c =? 69) then
        let '(neg, r) := match s' with
                         | 43 :: r => (false, r)
                         | 45 :: r => (true, r)
                         | r => (false, r)
                         end in
        if truthy r && all_digits r
        then Some (if neg then - digits_val r else digits_val r)%Z else None
      else None
  end.

Definition hex_val (c : N) : option Z :=
  if is_digit c then Some (digit_val c)
  else if (97 <=? c) && (c <=? 102) then Some (Z.of_N c - 87)%Z
  else if (65 <=? c) && (c <=? 70) then Some (Z.of_N c - 55)%Z
  else None.

(** An unsigned literal of the given radix. *)
Definition parse_radix (radix : Z) (s : str) : num :=
  if truthy s then
    match fold_left (fun acc c => v ← acc; d ← hex_val c;
                       if (d <? radix)%Z then Some (radix * v + d)%Z else None) s (Some 0%Z) with
    | Some v => ofZ v
    | None => NaN
    end
  else NaN.

(** A decimal literal without its sign: digits, fraction, exponent. *)
Definition parse_unsigned_decimal (s : str) : num :=
  if str_eqb s (js "Infinity") then Infinity
  else
    let '(ip, r) := span_digits s in
    let '(fp, r') := match r with
                     | 46 :: r1 => span_digits r1
                     | _ => ([], r)
                     end in
    if truthy ip || truthy fp then
      match parse_exponent r' with
      | Some e => scaled (digits_val (ip ++ fp)) (e - Z.of_nat (List.length fp))
      | None => NaN
      end
    else NaN.

(** StringToNumber, the conversion [Number(text)] performs. *)
Definition to_number (text : str) : num :=
  match trim text with
  | [] => ofZ 0
  | 48 :: 120 :: r | 48 :: 88 :: r => parse_radix 16 r
  | 48 :: 111 :: r | 48 :: 79 :: r => parse_radix 8 r
  | 48 :: 98 :: r | 48 :: 66 :: r => parse_radix 2 r
  | 43 :: r => parse_unsigned_decimal r
  | 45 :: r => nopp (parse_unsigned_decimal r)
  | r => parse_unsigned_decimal r
  end.

(** ** What depends on Unicode tables and on the host

    [String.prototype.toLowerCase] follows the Unicode case tables,
    [localeCompare] the host's collation and [normalize("NFKC")] the
    decomposition tables.  None of these tables is part of the program. *)
Class Icu := {
  to_lower : str -> str;
  to_upper : str -> str;
  nfkc : str -> str;
  locale_compare : str -> str -> Z
}.

(** What the language documents of them: [localeCompare] is a consistent
    comparator, and ASCII letters are mapped as in the C locale. *)
Definition ascii_lower (c : N) : N := if (65 <=? c) && (c <=? 90) then c + 32 else c.
Definition ascii_upper (c : N) : N := if (97 <=? c) && (c <=? 122) then c - 32 else c.
Definition is_ascii (s : str) : bool := forallb (fun c => c <? 128) s.

Class IcuLaws `{Icu} : Prop := {
  locale_compare_comparator :: Comparator locale_compare;
  to_lower_ascii s : is_ascii s = true -> to_lower s = map ascii_lower s;
  to_upper_ascii s : is_ascii s = true -> to_upper s = map ascii_upper s;
  nfkc_ascii s : is_ascii s = true -> nfkc s = s
}.

(** The C locale is one such host. *)
Fixpoint str_cmp (x y : str) : Z :=
  match x, y with
  | [], [] => 0
  | [], _ :: _ => -1
  | _ :: _, [] => 1
  | a :: x', b :: y' => if (a =? b)%N then str_cmp x' y' else Z.of_N a - Z.of_N b
  end%Z.

Definition c_locale : Icu := {|
  to_lower := map ascii_lower;
  to_upper := map ascii_upper;
  nfkc s := s;
  locale_compare := str_cmp
|}.

#[export] Instance str_cmp_comparator : Comparator str_cmp.
Proof.
  assert (Sym : forall x y, str_cmp y x = (- str_cmp x y)%Z).
  { induction x as [|a x IH]; intros [|b y]; simpl; try done.
    rewrite (N.eqb_sym b a). destruct (N.eqb_spec a b); [apply IH|lia]. }
  split.
  - intros x y. rewrite (Sym x y). lia.
  - induction x as [|a x IH]; intros [|b y] [|c z]; simpl; try lia.
    specialize (IH y z).
    destruct (N.eqb_spec a b), (N.eqb_spec b c), (N.eqb_spec a c); subst; lia.
Qed.

#[export] Instance c_locale_laws : @IcuLaws c_locale.
Proof. split; simpl; try done. apply _. Qed.

(** ** Facts about whitespace *)

Lemma drop_ws_suffix s : exists p, s = p ++ drop_ws s /\ forallb is_ws p = true.
Proof.
  induction s as [|c s [p [E W]]]; simpl; [by exists []|].
  destruct (is_ws c) eqn:C; [|by exists []].
  exists (c :: p). split; [simpl; by f_equal|]. simpl. by rewrite C.
Qed.

Lemma drop_ws_head s c s' : drop_ws s = c :: s' -> is_ws c = false.
Proof. induction s as [|d s IH]; simpl; [done|]. destruct (is_ws d) eqn:E; naive_solver. Qed.

Lemma drop_ws_no_ws c s : is_ws c = false -> drop_ws (c :: s) = c :: s.
Proof. simpl. by intros ->. Qed.

Lemma drop_ws_idem s : drop_ws (drop_ws s) = drop_ws s.
Proof.
  destruct (drop_ws s) as [|c s'] eqn:E; [done|]. apply drop_ws_no_ws. by eapply drop_ws_head.
Qed.

(** What is left after dropping at the front keeps its last unit. *)
Lemma drop_ws_last s c : is_ws c = false -> drop_ws (s ++ [c]) = drop_ws s ++ [c].
Proof. intros H. induction s as [|d s IH]; simpl; [by rewrite H|]. by destruct (is_ws d). Qed.

Lemma trim_idem s : trim (trim s) = trim s.
Proof.
  unfold trim. set (t := drop_ws s).
  assert (T : drop_ws (rev (drop_ws (rev t))) = rev (drop_ws (rev t))).
  { destruct (drop_ws_suffix (rev t)) as [p [E W]].
    destruct (rev (drop_ws (rev t))) as [|c r] eqn:R; [done|].
    apply drop_ws_no_ws.
    assert (H : t = c :: r ++ rev p).
    { apply (f_equal (@rev N)) in E. rewrite rev_involutive, rev_app_distr, R in E. done. }
    apply (drop_ws_head s c (r ++ rev p)). done. }
  rewrite T, rev_involutive, drop_ws_idem. done.
Qed.

(** Splitting on whitespace and gluing the pieces removes the whitespace. *)
Lemma concat_split_ws_go w acc s :
  concat (split_ws_go w acc s) = rev acc ++ remove_ws s.
Proof.
  revert w acc. induction s as [|c s IH]; intros w acc; simpl; [by rewrite !app_nil_r|].
  destruct (is_ws c) eqn:C; simpl; [destruct w; simpl; by rewrite IH|].
  rewrite IH. simpl. by rewrite <- app_assoc.
Qed.

Lemma concat_split_ws s : concat (split_ws s) = remove_ws s.
Proof. apply concat_split_ws_go. Qed.

Lemma join_nil parts : join [] parts = concat parts.
Proof.
  induction parts as [|p ps IH]; [done|]. simpl. destruct ps as [|q ps]; [by rewrite app_nil_r|].
  by rewrite IH.
Qed.

Lemma remove_ws_idem s : remove_ws (remove_ws s) = remove_ws s.
Proof.
  unfold remove_ws. induction s as [|c s IH]; simpl; [done|].
  destruct (is_ws c) eqn:E; simpl; [done|]. by rewrite E, IH.
Qed.

Lemma forallb_ws_remove p : forallb is_ws p = true -> remove_ws p = [].
Proof.
  unfold remove_ws. induction p as [|c p IH]; simpl; [done|].
  intros [C H]%andb_true_iff. rewrite C. simpl. auto.
Qed.

Lemma remove_ws_app s t : remove_ws (s ++ t) = remove_ws s ++ remove_ws t.
Proof. apply List.filter_app. Qed.

Lemma remove_ws_drop s : remove_ws (drop_ws s) = remove_ws s.
Proof.
  destruct (drop_ws_suffix s) as [p [E W]]. rewrite E at 2.
  by rewrite remove_ws_app, (forallb_ws_remove p).
Qed.

Lemma remove_ws_rev s : remove_ws (rev s) = rev (remove_ws s).
Proof. apply List.filter_rev. Qed.

(** Trimming first makes no difference when all whitespace is removed. *)
Lemma remove_ws_trim s : remove_ws (trim s) = remove_ws s.
Proof.
  unfold trim.
  by rewrite remove_ws_rev, remove_ws_drop, remove_ws_rev, rev_involutive, remove_ws_drop.
Qed.

(** ** Facts about prefixes *)

Lemma starts_with_iff p s : starts_with p s = true <-> exists b, s = p ++ b.
Proof.
  revert s. induction p as [|c p IH]; intros s; simpl; [split; [by exists s|done]|].
  destruct s as [|d s]; [split; [done|by intros [? ?]]|].
  rewrite andb_true_iff, N.eqb_eq, IH. naive_solver.
Qed.


Lemma starts_with_app p s : starts_with p (p ++ s) = true.
Proof. apply starts_with_iff. by exists s. Qed.

(** ** Facts about the order of strings *)

Lemma str_ltb_irrefl x : str_ltb x x = false.
Proof. induction x as [|a x IH]; simpl; [done|]. rewrite N.ltb_irrefl, N.eqb_refl. exact IH. Qed.

Lemma str_ltb_cmp x y : str_ltb x y = (str_cmp x y <? 0)%Z.
Proof.
  revert y. induction x as [|a x IH]; intros [|b y]; simpl; try done.
  rewrite IH. destruct (N.eqb_spec a b) as [->|].
  - by rewrite N.ltb_irrefl.
  - destruct (N.ltb_spec a b); simpl; lia.
Qed.

Lemma str_cmp_eq x y : str_cmp x y = 0%Z <-> x = y.
Proof.
  revert y. induction x as [|a x IH]; intros [|b y]; simpl; try (split; [lia|done]); [done|].
  destruct (N.eqb_spec a b) as [->|]; [rewrite IH; naive_solver|].
  split; [lia|naive_solver].
Qed.

Lemma str_leb_cmp x y : str_leb x y = (str_cmp x y <=? 0)%Z.
Proof.
  unfold str_leb. rewrite str_ltb_cmp. pose proof (cmp_anti (cmp := str_cmp) x y).
  destruct (Z.ltb_spec (str_cmp y x) 0), (Z.leb_spec (str_cmp x y) 0); simpl; lia.
Qed.

Lemma str_leb_trans x y z : str_leb x y = true -> str_leb y z = true -> str_leb x z = true.
Proof. rewrite !str_leb_cmp, !Z.leb_le. apply (cmp_trans (cmp := str_cmp)). Qed.

Lemma str_leb_antisym x y : str_leb x y = true -> str_leb y x = true -> x = y.
Proof.
  rewrite !str_leb_cmp, !Z.leb_le. intros. apply str_cmp_eq.
  pose proof (cmp_anti (cmp := str_cmp) x y). pose proof (cmp_anti (cmp := str_cmp) y x). lia.
Qed.

Lemma str_leb_total x y : str_leb x y = true \/ str_leb y x = true.
Proof.
  rewrite !str_leb_cmp, !Z.leb_le. pose proof (cmp_anti (cmp := str_cmp) x y). lia.
Qed.

#[export] Hint Resolve trim_idem concat_split_ws remove_ws_idem remove_ws_trim str_ltb_irrefl : js.

(** ** Exceptions

    The result of code that may throw: the HTTP status of a Nest exception (0
    for a plain [Error]) and its code. *)
Record js_error := { err_status : Z; err_code : str }.

#[export] Instance js_error_eq_dec : EqDecision js_error.
Proof. solve_decision. Defined.

Inductive result (A : Type) := Ok (a : A) | Throws (e : js_error).
Arguments Ok {A} a.
Arguments Throws {A} e.

Definition result_bind {A B} (x : result A) (f : A -> result B) : result B :=
  match x with Ok a => f a | Throws e => Throws e end.

Notation "'let!' x ':=' e 'in' k" := (result_bind e (fun x => k))
  (at level 200, x pattern, e at level 100, k at level 200, right associativity).

Definition bad_request {A} (code : string) : result A :=
  Throws {| err_status := 400; err_code := js code |}.

Fixpoint result_map {A B} (f : A -> result B) (l : list A) : result (list B) :=
  match l with
  | [] => Ok []
  | x :: l' => let! y := f x in let! ys := result_map f l' in Ok (y :: ys)
  end.

(** ** JSON values

    What a column of type [Json] or a value typed [unknown] may hold. *)
Inductive json :=
  | JNull
  | JBool (b : bool)
  | JNum (x : num)
  | JStr (s : str)
  | JArr (l : list json)
  | JObj (fields : list (str * json)).

Fixpoint json_field (fields : list (str * json)) (k : str) : option json :=
  match fields with
  | [] => None
  | (k', v) :: r => if str_eqb k' k then Some v else json_field r k
  end.

#[export] Instance num_eq_dec : EqDecision num.
Proof. solve_decision. Defined.

(** Equality of values, as PostgreSQL compares columns of type JSONB. *)
Fixpoint json_eqb (a b : json) : bool :=
  match a, b with
  | JNull, JNull => true
  | JBool x, JBool y => Bool.eqb x y
  | JNum x, JNum y => bool_decide (x = y)
  | JStr x, JStr y => bool_decide (x = y)
  | JArr l, JArr m =>
      (fix go l m := match l, m with
                     | [], [] => true
                     | x :: l, y :: m => json_eqb x y && go l m
                     | _, _ => false
                     end) l m
  | JObj l, JObj m =>
      (fix go l m := match l, m with
                     | [], [] => true
                     | (k, x) :: l, (k', y) :: m => bool_decide (k = k') && json_eqb x y && go l m
                     | _, _ => false
                     end) l m
  | _, _ => false
  end.

Fixpoint json_eqb_refl (a : json) : json_eqb a a = true.
Proof.
  destruct a as [|b|x|s|l|l]; simpl.
  - done.
  - apply Bool.eqb_reflx.
  - by apply bool_decide_eq_true.
  - by apply bool_decide_eq_true.
  - induction l as [|x l IH]; [done|]. by rewrite json_eqb_refl, IH.
  - induction l as [|[k x] l IH]; [done|]. by rewrite bool_decide_eq_true_2, json_eqb_refl, IH.
Qed.

Fixpoint json_eqb_eq (a b : json) : json_eqb a b = true -> a = b.
Proof.
  destruct a as [|x|x|s|l|l], b as [|y|y|t|m|m]; simpl; try done.
  - by intros ->%Bool.eqb_prop.
  - by intros ->%bool_decide_eq_true.
  - by intros ->%bool_decide_eq_true.
  - intros E. f_equal. revert m E. induction l as [|x l IH]; intros [|y m]; try done.
    intros [->%json_eqb_eq ->%IH]%andb_true_iff. done.
  - intros E. f_equal. revert m E. induction l as [|[k x] l IH]; intros [|[k' y] m]; try done.
    intros [[->%bool_decide_eq_true ->%json_eqb_eq]%andb_true_iff ->%IH]%andb_true_iff. done.
Qed.
