(* ===== verification/JsDate.v ===== *)
(** * The dates of the program

    A valid [Date] is its time value: milliseconds since the epoch, an
    integer.  The calendar functions are those of ECMAScript: the year of a
    day number is found by an estimate and one correction, and the file proves
    that it is the year containing the day, that [Date.UTC] inverts the
    calendar getters, and that dates written as [YYYY-MM-DD] compare as strings
    in the order of their days, which is what the rule matchers rely on. *)

From S2P Require Import Prelude JsNumber JsString.

Local Open Scope Z_scope.

Definition msPerDay : Z := 86400000.

(** The day number of a time value. *)
Definition day (t : Z) : Z := t / msPerDay.

Definition leap (y : Z) : bool :=
  (y mod 4 =? 0) && (negb (y mod 100 =? 0) || (y mod 400 =? 0)).

Definition day_from_year (y : Z) : Z :=
  365 * (y - 1970) + (y - 1969) / 4 - (y - 1901) / 100 + (y - 1601) / 400.

Definition year_from_day (d : Z) : Z :=
  let y := 1970 + (400 * d) / 146097 in
  if d <? day_from_year y then y - 1
  else if day_from_year (y + 1) <=? d then y + 1 else y.

(** The first day of month [m] (0 to 12) within a year. *)
Definition month_start (lp : bool) (m : Z) : Z :=
  let l := if lp then 1 else 0 in
  if m <=? 0 then 0 else if m =? 1 then 31 else
  l + (if m =? 2 then 59 else if m =? 3 then 90 else if m =? 4 then 120
       else if m =? 5 then 151 else if m =? 6 then 181 else if m =? 7 then 212
       else if m =? 8 then 243 else if m =? 9 then 273 else if m =? 10 then 304
       else if m =? 11 then 334 else 365).

Definition month_from (lp : bool) (d : Z) : Z :=
  if d <? month_start lp 1 then 0 else if d <? month_start lp 2 then 1
  else if d <? month_start lp 3 then 2 else if d <? month_start lp 4 then 3
  else if d <? month_start lp 5 then 4 else if d <? month_start lp 6 then 5
  else if d <? month_start lp 7 then 6 else if d <? month_start lp 8 then 7
  else if d <? month_start lp 9 then 8 else if d <? month_start lp 10 then 9
  else if d <? month_start lp 11 then 10 else 11.

Definition getUTCFullYear (t : Z) : Z := year_from_day (day t).
Definition day_in_year (t : Z) : Z := day t - day_from_year (getUTCFullYear t).
Definition getUTCMonth (t : Z) : Z := month_from (leap (getUTCFullYear t)) (day_in_year t).
Definition getUTCDate (t : Z) : Z :=
  day_in_year t - month_start (leap (getUTCFullYear t)) (getUTCMonth t) + 1.
Definition time_within_day (t : Z) : Z := t mod msPerDay.
Definition getUTCHours (t : Z) : Z := time_within_day t / 3600000.
Definition getUTCMinutes (t : Z) : Z := time_within_day t / 60000 mod 60.
Definition getUTCSeconds (t : Z) : Z := time_within_day t / 1000 mod 60.

(** MakeDay: months outside 0 to 11 carry into the year. *)
Definition make_day (y m d : Z) : Z :=
  let ym := y + m / 12 in
  day_from_year ym + month_start (leap ym) (m mod 12) + d - 1.

(** [Date.UTC(y, m, d, h, mi, s)]; years 0 to 99 mean 1900 to 1999. *)
Definition date_utc (y m d h mi s : Z) : Z :=
  let yr := if (0 <=? y) && (y <=? 99) then 1900 + y else y in
  make_day yr m d * msPerDay + h * 3600000 + mi * 60000 + s * 1000.

(** [date.toISOString().slice(0, 10)]. *)
Definition pad (k : nat) (n : Z) : str := pad_start k (digits_of 20 n).

Definition iso_year (y : Z) : str :=
  if (0 <=? y) && (y <=? 9999) then pad 4 y
  else if y <? 0 then js "-" ++ pad 6 (- y) else js "+" ++ pad 6 y.

Definition iso_date (t : Z) : str :=
  slice_to 10 (iso_year (getUTCFullYear t) ++ js "-" ++ pad 2 (getUTCMonth t + 1)
               ++ js "-" ++ pad 2 (getUTCDate t)).

(** ** The calendar is correct *)

(** [date.toISOString()]. *)
Definition getUTCMilliseconds (t : Z) : Z := time_within_day t mod 1000.
Definition toISOString (t : Z) : str :=
  iso_year (getUTCFullYear t) ++ js "-" ++ pad 2 (getUTCMonth t + 1) ++ js "-" ++ pad 2 (getUTCDate t)
  ++ js "T" ++ pad 2 (getUTCHours t) ++ js ":" ++ pad 2 (getUTCMinutes t) ++ js ":"
  ++ pad 2 (getUTCSeconds t) ++ js "." ++ pad 3 (getUTCMilliseconds t) ++ js "Z".

(** [Date.parse] on the texts that [toISOString] writes for years of four
    digits; other formats count as no date. *)
Definition date_parse (s : str) : option Z :=
  let at_ i c := bool_decide (s !! i = Some c) in
  let num i n := digits_val (firstn n (skipn i s)) in
  let digits i n := all_digits (firstn n (skipn i s)) in
  if (List.length s =? 24)%nat && at_ 4%nat 45%N && at_ 7%nat 45%N && at_ 10%nat 84%N && at_ 13%nat 58%N
     && at_ 16%nat 58%N && at_ 19%nat 46%N && at_ 23%nat 90%N
     && digits 0%nat 4%nat && digits 5%nat 2%nat && digits 8%nat 2%nat && digits 11%nat 2%nat
     && digits 14%nat 2%nat && digits 17%nat 2%nat && digits 20%nat 3%nat
     && (1 <=? num 5%nat 2%nat) && (num 5%nat 2%nat <=? 12) && (1 <=? num 8%nat 2%nat)
     && (num 8%nat 2%nat <=? 31) && (num 11%nat 2%nat <=? 23) && (num 14%nat 2%nat <=? 59)
     && (num 17%nat 2%nat <=? 59)
  then Some (make_day (num 0%nat 4%nat) (num 5%nat 2%nat - 1) (num 8%nat 2%nat) * msPerDay
             + num 11%nat 2%nat * 3600000 + num 14%nat 2%nat * 60000 + num 17%nat 2%nat * 1000
             + num 20%nat 3%nat)
  else None.

Example date_parse_iso : date_parse (toISOString 1784700000123) = Some 1784700000123.
Proof. reflexivity. Qed.

Lemma day_from_year_succ y :
  day_from_year (y + 1) = day_from_year y + (if leap y then 366 else 365).
Proof.
  unfold day_from_year, leap.
  destruct (Z.eqb_spec (y mod 4) 0), (Z.eqb_spec (y mod 100) 0), (Z.eqb_spec (y mod 400) 0);
    cbn [andb orb negb]; Z.to_euclidean_division_equations; lia.
Qed.

Lemma day_from_year_mono y y' : y <= y' -> day_from_year y <= day_from_year y'.
Proof. unfold day_from_year. intros. Z.to_euclidean_division_equations; lia. Qed.

Lemma day_from_year_lt y y' : y < y' -> day_from_year y + 365 <= day_from_year y'.
Proof.
  intros. pose proof (day_from_year_mono (y + 1) y' ltac:(lia)).
  rewrite day_from_year_succ in H0. destruct (leap y); lia.
Qed.

Lemma year_from_day_spec d :
  day_from_year (year_from_day d) <= d < day_from_year (year_from_day d + 1).
Proof.
  unfold year_from_day. set (y := 1970 + 400 * d / 146097).
  assert (day_from_year (y - 1) <= d < day_from_year (y + 2)).
  { unfold day_from_year, y. clear y. Z.to_euclidean_division_equations; lia. }
  replace (y + 2) with (y + 1 + 1) in H by lia.
  destruct (Z.ltb_spec d (day_from_year y)); [replace (y - 1 + 1) with y by lia; lia|].
  destruct (Z.leb_spec (day_from_year (y + 1)) d); lia.
Qed.

Lemma year_from_day_unique y d :
  day_from_year y <= d < day_from_year (y + 1) -> year_from_day d = y.
Proof.
  intros H. pose proof (year_from_day_spec d) as S.
  destruct (Z.lt_trichotomy (year_from_day d) y) as [L|[E|G]]; [|exact E|].
  - pose proof (day_from_year_mono (year_from_day d + 1) y ltac:(lia)). lia.
  - pose proof (day_from_year_mono (y + 1) (year_from_day d) ltac:(lia)). lia.
Qed.

Definition year_length (lp : bool) : Z := if lp then 366 else 365.

Lemma day_in_year_range t :
  0 <= day_in_year t < year_length (leap (getUTCFullYear t)).
Proof.
  unfold day_in_year, getUTCFullYear. pose proof (year_from_day_spec (day t)) as S.
  rewrite day_from_year_succ in S. unfold year_length. destruct (leap _); lia.
Qed.

(** Evaluate the entries of the month table at constants. *)
Ltac month_eval :=
  repeat match goal with
  | |- context [month_start ?l ?k] =>
      let v := eval vm_compute in (month_start l k) in
      lazymatch v with context [month_start] => fail | _ => change (month_start l k) with v end
  | H : context [month_start ?l ?k] |- _ =>
      let v := eval vm_compute in (month_start l k) in
      lazymatch v with context [month_start] => fail | _ => change (month_start l k) with v in H end
  end.

(** A goal about one month of the table. *)
Ltac month_cases lp m :=
  destruct lp;
  (assert (m = 0 \/ m = 1 \/ m = 2 \/ m = 3 \/ m = 4 \/ m = 5 \/ m = 6 \/ m = 7 \/ m = 8
           \/ m = 9 \/ m = 10 \/ m = 11) as MC by lia);
  repeat (destruct MC as [-> | MC]); try (subst m).

Lemma month_from_spec lp d :
  0 <= d < year_length lp ->
  0 <= month_from lp d <= 11
  /\ month_start lp (month_from lp d) <= d < month_start lp (month_from lp d + 1).
Proof.
  intros H. unfold year_length, month_from in *.
  destruct lp;
    repeat match goal with |- context [d <? ?k] => destruct (Z.ltb_spec d k) end;
    month_eval; lia.
Qed.

Lemma month_from_unique lp m d :
  0 <= m <= 11 -> month_start lp m <= d < month_start lp (m + 1) -> month_from lp d = m.
Proof.
  intros Hm Hd. unfold month_from.
  month_cases lp m; month_eval;
    repeat match goal with |- context [d <? ?k] => destruct (Z.ltb_spec d k) end; lia.
Qed.

Lemma month_start_range lp m : 0 <= m <= 11 ->
  0 <= month_start lp m /\ month_start lp (m + 1) <= year_length lp.
Proof. intros Hm. month_cases lp m; unfold year_length; month_eval; lia. Qed.

(** [y]-[m]-[d] (month from 0) is a day of the calendar. *)
Definition civil (y m d : Z) : Prop :=
  0 <= m <= 11 /\ 1 <= d <= month_start (leap y) (m + 1) - month_start (leap y) m.

Lemma civil_of_time t : civil (getUTCFullYear t) (getUTCMonth t) (getUTCDate t).
Proof.
  unfold civil, getUTCDate, getUTCMonth.
  pose proof (month_from_spec _ _ (day_in_year_range t)) as [M D]. lia.
Qed.

(** The getters read back the day that [make_day] built. *)
Lemma getters_make_day y m d r :
  civil y m d -> 0 <= r < msPerDay ->
  let t := make_day y m d * msPerDay + r in
  getUTCFullYear t = y /\ getUTCMonth t = m /\ getUTCDate t = d /\ time_within_day t = r
  /\ day t = make_day y m d.
Proof.
  intros [Hm Hd] Hr t.
  assert (D : day t = day_from_year y + month_start (leap y) m + d - 1).
  { unfold t, day, make_day. rewrite (Z.div_small m 12), (Z.mod_small m 12), Z.add_0_r by lia.
    unfold msPerDay in *. Z.to_euclidean_division_equations; lia. }
  pose proof (month_start_range (leap y) m Hm) as R.
  assert (Y : getUTCFullYear t = y).
  { apply year_from_day_unique. rewrite day_from_year_succ, D. unfold year_length in R.
    destruct (leap y); lia. }
  assert (DY : day_in_year t = month_start (leap y) m + d - 1).
  { unfold day_in_year. rewrite Y, D. lia. }
  assert (M : getUTCMonth t = m).
  { unfold getUTCMonth. rewrite Y, DY. apply month_from_unique; lia. }
  repeat split; [exact Y|exact M|..].
  - unfold getUTCDate. rewrite Y, M, DY. lia.
  - unfold time_within_day, t. rewrite Z.add_comm, Z.mod_add by (unfold msPerDay; lia).
    apply Z.mod_small. lia.
  - rewrite D. unfold make_day. rewrite (Z.div_small m 12), (Z.mod_small m 12), Z.add_0_r by lia. lia.
Qed.

Lemma make_day_getters t :
  make_day (getUTCFullYear t) (getUTCMonth t) (getUTCDate t) = day t.
Proof.
  unfold make_day. destruct (civil_of_time t) as [M _].
  rewrite (Z.div_small _ 12), (Z.mod_small _ 12), Z.add_0_r by lia.
  unfold getUTCDate, day_in_year. lia.
Qed.

Lemma day_time t : t = day t * msPerDay + time_within_day t.
Proof. unfold day, time_within_day, msPerDay. Z.to_euclidean_division_equations; lia. Qed.

Lemma time_within_day_range t : 0 <= time_within_day t < msPerDay.
Proof. apply Z.mod_pos_bound. reflexivity. Qed.

(** Days are ordered as their year, month and date are. *)
Definition civil_lt (a b : Z * Z * Z) : Prop :=
  let '(y, m, d) := a in let '(y', m', d') := b in
  y < y' \/ (y = y' /\ (m < m' \/ (m = m' /\ d < d'))).

Lemma month_start_mono lp m m' : 0 <= m -> m' <= 11 -> m < m' ->
  month_start lp (m + 1) <= month_start lp m'.
Proof.
  intros H0 H1 H2. assert (Hm : 0 <= m <= 11) by lia. assert (Hm' : 0 <= m' <= 11) by lia.
  month_cases lp m; month_cases true m'; month_eval; lia.
Qed.

Lemma make_day_lt y m d y' m' d' :
  civil y m d -> civil y' m' d' -> civil_lt (y, m, d) (y', m', d') ->
  make_day y m d < make_day y' m' d'.
Proof.
  intros [Hm Hd] [Hm' Hd'] L. unfold make_day.
  rewrite !(Z.div_small _ 12), !(Z.mod_small _ 12), !Z.add_0_r by lia.
  destruct L as [L|[-> [L|[-> L]]]].
  - pose proof (month_start_range (leap y) m Hm). pose proof (month_start_range (leap y') m' Hm').
    pose proof (day_from_year_succ y) as S. pose proof (day_from_year_mono (y + 1) y' ltac:(lia)).
    unfold year_length in *. destruct (leap y); lia.
  - pose proof (month_start_mono (leap y') m m'). lia.
  - lia.
Qed.

Definition ymd (t : Z) : Z * Z * Z := (getUTCFullYear t, getUTCMonth t, getUTCDate t).

Lemma day_lt_ymd t t' : day t < day t' <-> civil_lt (ymd t) (ymd t').
Proof.
  assert (F : forall a b, civil_lt (ymd a) (ymd b) -> day a < day b).
  { intros a b L. rewrite <- (make_day_getters a), <- (make_day_getters b).
    apply make_day_lt; auto using civil_of_time. }
  split; [|apply F]. intros H.
  pose proof (F t' t) as G. pose proof (make_day_getters t). pose proof (make_day_getters t').
  unfold civil_lt, ymd in *.
  destruct (Z.lt_trichotomy (getUTCFullYear t) (getUTCFullYear t')) as [|[E|]]; [lia| |lia].
  destruct (Z.lt_trichotomy (getUTCMonth t) (getUTCMonth t')) as [|[E'|]]; [lia| |lia].
  destruct (Z.lt_trichotomy (getUTCDate t) (getUTCDate t')) as [|[E''|]]; [lia| |lia].
  rewrite E, E', E'' in *. lia.
Qed.

(** ** Dates as text *)

Definition digit (n : Z) : N := Z.to_N (n mod 10 + 48).

Lemma digits_of_small f n : 0 <= n < 10 -> digits_of (S f) n = [digit n].
Proof.
  intros H. cbn [digits_of]. replace (n <? 10) with true by lia. unfold digit.
  rewrite Z.mod_small by lia. done.
Qed.

Lemma digits_of_large f n : 10 <= n -> digits_of (S f) n = digits_of f (n / 10) ++ [digit n].
Proof. intros H. cbn [digits_of]. by replace (n <? 10) with false by lia. Qed.

(** The quotients of [n] by 10, 100 and 1000 are below the next power of ten. *)
Ltac pad_digits :=
  repeat first
    [ rewrite digits_of_small by (Z.to_euclidean_division_equations; lia)
    | rewrite digits_of_large by (Z.to_euclidean_division_equations; lia) ];
  rewrite ?Z.div_div by lia;
  repeat match goal with
  | |- context [?n / ?k] => rewrite (Z.div_small n k) by lia
  end; reflexivity.

Lemma pad_2 n : 0 <= n < 100 -> pad 2 n = [digit (n / 10); digit n].
Proof.
  intros H. unfold pad. change 20%nat with (S (S 18)).
  destruct (Z.lt_ge_cases n 10); pad_digits.
Qed.

Lemma pad_4 n :
  0 <= n < 10000 ->
  pad 4 n = [digit (n / 1000); digit (n / 100); digit (n / 10); digit n].
Proof.
  intros H. unfold pad. change 20%nat with (S (S (S (S 16)))).
  destruct (Z.lt_ge_cases n 10); [pad_digits|].
  destruct (Z.lt_ge_cases n 100); [pad_digits|].
  destruct (Z.lt_ge_cases n 1000); pad_digits.
Qed.

Lemma civil_date_range y m d : civil y m d -> 1 <= d <= 31.
Proof.
  intros [M D]. split; [lia|]. revert D. generalize (leap y). intros lp D.
  month_cases lp m; month_eval; lia.
Qed.

Lemma getUTCDate_range t : 1 <= getUTCDate t <= 31.
Proof. eapply civil_date_range, civil_of_time. Qed.

Lemma iso_date_eq t :
  0 <= getUTCFullYear t <= 9999 ->
  iso_date t = pad 4 (getUTCFullYear t) ++ js "-" ++ pad 2 (getUTCMonth t + 1)
               ++ js "-" ++ pad 2 (getUTCDate t).
Proof.
  intros H. unfold iso_date, iso_year, slice_to.
  replace ((0 <=? getUTCFullYear t) && (getUTCFullYear t <=? 9999)) with true by lia.
  destruct (civil_of_time t) as [M _]. pose proof (getUTCDate_range t).
  rewrite pad_4, !pad_2 by lia. reflexivity.
Qed.

(** Comparing concatenations whose first parts have one length. *)
Lemma str_cmp_app x x' y y' :
  List.length x = List.length x' ->
  str_cmp (x ++ y) (x' ++ y') = if str_cmp x x' =? 0 then str_cmp y y' else str_cmp x x'.
Proof.
  revert x'. induction x as [|a x IH]; intros [|b x']; simpl; try done.
  intros [= L]. destruct (N.eqb_spec a b) as [->|]; [by apply IH|].
  destruct (Z.eqb_spec (Z.of_N a - Z.of_N b) 0); [lia|done].
Qed.

Lemma digit_cmp a b : Z.of_N (digit a) - Z.of_N (digit b) = a mod 10 - b mod 10.
Proof.
  unfold digit. pose proof (Z.mod_pos_bound a 10 eq_refl). pose proof (Z.mod_pos_bound b 10 eq_refl).
  rewrite !Z2N.id by lia. lia.
Qed.

Lemma digit_eqb a b : N.eqb (digit a) (digit b) = (a mod 10 =? b mod 10).
Proof.
  pose proof (digit_cmp a b). destruct (N.eqb_spec (digit a) (digit b)) as [E|E].
  - rewrite E in H. lia.
  - destruct (Z.eqb_spec (a mod 10) (b mod 10)); [lia|done].
Qed.

Lemma pad_2_cmp a b : 0 <= a < 100 -> 0 <= b < 100 ->
  Z.sgn (str_cmp (pad 2 a) (pad 2 b)) = Z.sgn (a - b).
Proof.
  intros Ha Hb. rewrite !pad_2 by lia. simpl. rewrite !digit_eqb, !digit_cmp.
  destruct (Z.eqb_spec ((a / 10) mod 10) ((b / 10) mod 10)), (Z.eqb_spec (a mod 10) (b mod 10));
    Z.to_euclidean_division_equations; lia.
Qed.

Lemma pad_4_split n : 0 <= n < 10000 -> pad 4 n = pad 2 (n / 100) ++ pad 2 (n mod 100).
Proof.
  intros H. rewrite pad_4, !pad_2 by (Z.to_euclidean_division_equations; lia).
  assert (E1 : n / 100 / 10 = n / 1000) by (by rewrite Z.div_div).
  assert (E2 : (n mod 100 / 10) mod 10 = (n / 10) mod 10)
    by (Z.to_euclidean_division_equations; lia).
  assert (E3 : (n mod 100) mod 10 = n mod 10) by (Z.to_euclidean_division_equations; lia).
  unfold digit. rewrite E1, E2, E3. done.
Qed.

Lemma length_pad_2 n : 0 <= n < 100 -> List.length (pad 2 n) = 2%nat.
Proof. intros. by rewrite pad_2. Qed.

Lemma pad_4_cmp a b : 0 <= a < 10000 -> 0 <= b < 10000 ->
  Z.sgn (str_cmp (pad 4 a) (pad 4 b)) = Z.sgn (a - b).
Proof.
  intros Ha Hb. rewrite !pad_4_split by lia.
  assert (0 <= a / 100 < 100 /\ 0 <= b / 100 < 100 /\ 0 <= a mod 100 < 100 /\ 0 <= b mod 100 < 100)
    as (? & ? & ? & ?) by (Z.to_euclidean_division_equations; lia).
  rewrite str_cmp_app by (rewrite !length_pad_2; lia).
  pose proof (pad_2_cmp (a / 100) (b / 100) ltac:(lia) ltac:(lia)) as C1.
  pose proof (pad_2_cmp (a mod 100) (b mod 100) ltac:(lia) ltac:(lia)) as C2.
  pose proof (Z.div_mod a 100 ltac:(lia)). pose proof (Z.div_mod b 100 ltac:(lia)).
  destruct (Z.eqb_spec (str_cmp (pad 2 (a / 100)) (pad 2 (b / 100))) 0) as [E|E].
  - rewrite E in C1. lia.
  - lia.
Qed.

(** Dates of the years 0 to 9999 compare as their texts do. *)
Theorem iso_date_cmp t t' :
  0 <= getUTCFullYear t <= 9999 -> 0 <= getUTCFullYear t' <= 9999 ->
  str_ltb (iso_date t) (iso_date t') = (day t <? day t').
Proof.
  intros Y Y'. rewrite str_ltb_cmp, !iso_date_eq by assumption.
  pose proof (day_lt_ymd t t') as L. unfold civil_lt, ymd in L.
  destruct (civil_of_time t) as [M _], (civil_of_time t') as [M' _].
  pose proof (getUTCDate_range t). pose proof (getUTCDate_range t').
  rewrite str_cmp_app by (rewrite !pad_4 by lia; done).
  rewrite (str_cmp_app (js "-")), (str_cmp_app (pad 2 _)) by (rewrite ?pad_2 by lia; done).
  rewrite (str_cmp_app (js "-")) by done.
  replace (str_cmp (js "-") (js "-")) with 0 by reflexivity. simpl.
  pose proof (pad_4_cmp (getUTCFullYear t) (getUTCFullYear t') ltac:(lia) ltac:(lia)) as C1.
  pose proof (pad_2_cmp (getUTCMonth t + 1) (getUTCMonth t' + 1) ltac:(lia) ltac:(lia)) as C2.
  pose proof (pad_2_cmp (getUTCDate t) (getUTCDate t') ltac:(lia) ltac:(lia)) as C3.
  apply eq_true_iff_eq. rewrite !Z.ltb_lt, L.
  destruct (Z.eqb_spec (str_cmp (pad 4 (getUTCFullYear t)) (pad 4 (getUTCFullYear t'))) 0) as [E1|E1],
    (Z.eqb_spec (str_cmp (pad 2 (getUTCMonth t + 1)) (pad 2 (getUTCMonth t' + 1))) 0) as [E2|E2];
    rewrite ?E1, ?E2 in *; lia.
Qed.

(** [new Date(text)] for a text in the ISO form [YYYY-MM-DD]. *)
Definition date_of_iso (s : str) : Z :=
  make_day (digits_val (firstn 4 s)) (digits_val (firstn 2 (skipn 5 s)) - 1)
    (digits_val (firstn 2 (skipn 8 s))) * msPerDay.

Lemma digit_val_digit n : digit_val (digit n) = n mod 10.
Proof.
  unfold digit_val, digit. pose proof (Z.mod_pos_bound n 10 eq_refl). rewrite Z2N.id by lia. lia.
Qed.

Lemma is_digit_digit n : is_digit (digit n) = true.
Proof.
  unfold is_digit, digit. pose proof (Z.mod_pos_bound n 10 eq_refl).
  generalize dependent (n mod 10). intros z Hz.
  apply andb_true_iff. split; apply N.leb_le, N2Z.inj_le; rewrite Z2N.id by lia; lia.
Qed.

Lemma is_digit_not_ws c : is_digit c = true -> is_ws c = false.
Proof.
  unfold is_digit, is_ws. intros H. bool_simpl. destruct H as [L U].
  rewrite N.leb_le in L, U. repeat split; try (apply N.eqb_neq; lia);
    [right|left]; apply N.leb_gt; lia.
Qed.

Lemma digits_val_pad_2 n : 0 <= n < 100 -> digits_val (pad 2 n) = n.
Proof.
  intros H. rewrite pad_2 by done. unfold digits_val. simpl. rewrite !digit_val_digit.
  Z.to_euclidean_division_equations; lia.
Qed.

Lemma digits_val_pad_4 n : 0 <= n < 10000 -> digits_val (pad 4 n) = n.
Proof.
  intros H. rewrite pad_4 by done. unfold digits_val. simpl. rewrite !digit_val_digit.
  Z.to_euclidean_division_equations; lia.
Qed.

(** The text of year [y], month [m] (from 1) and date [d]. *)
Definition ymd_text (y m d : Z) : str := pad 4 y ++ js "-" ++ pad 2 m ++ js "-" ++ pad 2 d.

Lemma date_of_iso_text y m d :
  0 <= y < 10000 -> 0 <= m < 100 -> 0 <= d < 100 ->
  date_of_iso (ymd_text y m d) = make_day y (m - 1) d * msPerDay.
Proof.
  intros Hy Hm Hd. unfold date_of_iso, ymd_text.
  assert (E : pad 4 y ++ js "-" ++ pad 2 m ++ js "-" ++ pad 2 d
              = [digit (y / 1000); digit (y / 100); digit (y / 10); digit y; 45%N;
                 digit (m / 10); digit m; 45%N; digit (d / 10); digit d])
    by (rewrite pad_4, !pad_2 by lia; reflexivity).
  rewrite E. cbn [firstn skipn].
  rewrite <- pad_4, <- !pad_2, digits_val_pad_4, !digits_val_pad_2 by lia. done.
Qed.

Lemma iso_date_make_day y m d r :
  0 <= y <= 9999 -> civil y m d -> 0 <= r < msPerDay ->
  iso_date (make_day y m d * msPerDay + r) = ymd_text y (m + 1) d.
Proof.
  intros Hy C Hr. pose proof (getters_make_day y m d r C Hr) as (Y & M & D & _ & _).
  rewrite iso_date_eq by lia. by rewrite Y, M, D.
Qed.
