(* ===== verification/DateNumber.v ===== *)
(** * Dates and numbers read from text, and rule periods

    Models [apps/api/src/domain/date-number.ts] and
    [apps/api/src/domain/effective-rule.ts].  Dates are time values ([JsDate]),
    numbers binary64 ([JsNumber]); a value the code types
    [string | null | undefined] is an [option str]. *)

From S2P Require Import Prelude JsNumber SafeInteger JsString JsDate.

Local Open Scope Z_scope.

(** A problem found while reading a cell. *)
Record ParseIssue := {
  columnName : str;
  errorCode : str;
  message : str;
  rawValue : option str
}.

(** ** The formats a date is accepted in *)

Definition between (lo hi : nat) (s : str) : bool :=
  (lo <=? List.length s)%nat && (List.length s <=? hi)%nat && all_digits s.

(** [/^(\d{4})(\d{2})(\d{2})$/] *)
Definition match_compact (s : str) : option (str * str * str) :=
  if between 8 8 s then Some (firstn 4 s, firstn 2 (skipn 4 s), skipn 6 s) else None.

(** [/^(\d{4})<sep>(\d{1,2})<sep>(\d{1,2})$/] *)
Definition match_separated (sep : N) (s : str) : option (str * str * str) :=
  match split_on sep s with
  | [y; m; d] => if between 4 4 y && between 1 2 m && between 1 2 d then Some (y, m, d) else None
  | _ => None
  end.

(** [/^(\d{4})\.\s*(\d{1,2})\.\s*(\d{1,2})\.?$/] *)
Definition match_dotted (s : str) : option (str * str * str) :=
  let check y m d :=
    if between 4 4 y && between 1 2 (drop_ws m) && between 1 2 (drop_ws d)
    then Some (y, drop_ws m, drop_ws d) else None in
  match split_on 46 s with
  | [y; m; d] => check y m d
  | [y; m; d; []] => check y m d
  | _ => None
  end.

Definition option_or {A} (x y : option A) : option A := match x with Some _ => x | None => y end.

Definition parseDateString (value : option str) : option str :=
  match value with
  | None | Some [] => None
  | Some v =>
      let input := trim v in
      match option_or (match_compact input)
              (option_or (match_separated 45 input)
                 (option_or (match_separated 47 input) (match_dotted input))) with
      | None => None
      | Some (my, mm, md) =>
          let year := digits_val my in
          let month := digits_val mm in
          let dy := digits_val md in
          let date := date_utc year (month - 1) dy 0 0 0 in
          if negb (getUTCFullYear date =? year) || negb (getUTCMonth date =? month - 1)
             || negb (getUTCDate date =? dy)
          then None
          else Some (pad 4 year ++ js "-" ++ pad 2 month ++ js "-" ++ pad 2 dy)
      end
  end.

Definition toDateOnly (value : option str) : option Z :=
  match parseDateString value with
  | None => None
  | Some normalized => Some (date_of_iso normalized)
  end.

Definition formatDateOnly (date : Z) : str := iso_date date.

(** What a column of type DATE keeps of an instant. *)
Definition date_column (t : Z) : Z := day t * msPerDay.

(** ** Numbers *)

(** What a cell may hold: [string | number | null | undefined]. *)
Inductive cell :=
  | CellNull
  | CellUndefined
  | CellNumber (x : num)
  | CellText (s : str).

(** The characters [replace(/[,%\s$₩￦원]/g, "")] deletes. *)
Definition is_number_noise (c : N) : bool :=
  is_ws c || existsb (N.eqb c) (js ",%$₩￦원").

(** [emptyAs] is [0] or [null]. *)
Definition parseNumberValue (value : cell) (emptyAs : option num) : option num :=
  match value with
  | CellNull | CellUndefined => emptyAs
  | CellNumber x => if isFinite x then Some x else emptyAs
  | CellText v =>
      let input := trim v in
      if negb (truthy input) || str_eqb input (js "-") then emptyAs
      else
        let cleaned := List.filter (fun c => negb (is_number_noise c)) input in
        if negb (truthy cleaned) then emptyAs
        else
          let parsed := to_number cleaned in
          if isFinite parsed then Some parsed else None
  end.

Definition safeDivide (numerator denominator : num) : option num :=
  if negb (isFinite numerator) || negb (isFinite denominator) || neqb denominator (ofZ 0)
  then None
  else Some (ndiv numerator denominator).

Definition dateRangeDays (from to : str) : num :=
  match toDateOnly (Some from), toDateOnly (Some to) with
  | Some s, Some e =>
      if e <? s then ofZ 0
      else nadd (round (ndiv (ofZ (e - s)) (ofZ msPerDay))) (ofZ 1)
  | _, _ => ofZ 0
  end.

(** ** Ranges of a request (common/date-range.ts) *)

Record DateRange := { from : str; to : str; fromDate : Z; toDate : Z }.

Definition parseDateRange (f t : option str) : result DateRange :=
  match f, t with
  | Some (_ :: _), Some (_ :: _) =>
      match toDateOnly f, toDateOnly t with
      | Some fd, Some td =>
          if td <? fd then bad_request "INVALID_DATE_RANGE"
          else Ok {| from := formatDateOnly fd; to := formatDateOnly td; fromDate := fd; toDate := td |}
      | _, _ => bad_request "INVALID_DATE_RANGE"
      end
  | _, _ => bad_request "DATE_RANGE_REQUIRED"
  end.

Definition asDateOnly (value : str) : result Z :=
  match toDateOnly (Some value) with
  | Some d => Ok d
  | None => bad_request "INVALID_DATE"
  end.

(** ** Rule periods (effective-rule.ts) *)

Section effective_rule.
Context `{Icu}.

Record EffectiveRulePeriod := {
  id : str;
  effectiveFrom : Z;
  effectiveTo : option Z;
  createdAt : Z
}.

Definition compareEffectiveRulePriority (left right : EffectiveRulePeriod) : Z :=
  (effectiveFrom right - effectiveFrom left)
  ||| (createdAt right - createdAt left)
  ||| locale_compare (id right) (id left).

Definition effective_on (date : Z) (rule : EffectiveRulePeriod) : bool :=
  (effectiveFrom rule <=? date)
  && match effectiveTo rule with None => true | Some to => date <=? to end.

Definition findEffectiveRuleForDate (rules : list EffectiveRulePeriod) (date : Z)
    : option EffectiveRulePeriod :=
  head (js_sort compareEffectiveRulePriority (List.filter (effective_on date) rules)).

(** [previous.setUTCDate(previous.getUTCDate() - 1)] *)
Definition previousUtcDate (date : Z) : Z :=
  make_day (getUTCFullYear date) (getUTCMonth date) (getUTCDate date - 1) * msPerDay
  + time_within_day date.

Definition dateValuesDiffer (left right : option Z) : bool := negb (bool_decide (left = right)).
End effective_rule.

(** ** Facts about the accepted formats *)

Lemma digits_val_app s c : digits_val (s ++ [c]) = 10 * digits_val s + digit_val c.
Proof. unfold digits_val. by rewrite fold_left_app. Qed.

Lemma digits_val_bound s : all_digits s = true -> 0 <= digits_val s < 10 ^ Z.of_nat (List.length s).
Proof.
  induction s as [|c s IH] using rev_ind; [done|]. unfold all_digits in *.
  rewrite forallb_app. simpl. intros H. bool_simpl. destruct H as (Hs & Hc & _).
  specialize (IH Hs). rewrite digits_val_app, length_app. simpl List.length.
  rewrite Nat2Z.inj_add, Z.pow_add_r by lia. unfold is_digit in Hc. bool_simpl.
  rewrite !N.leb_le in Hc. unfold digit_val. change (10 ^ Z.of_nat 1) with 10. lia.
Qed.

Lemma between_bound lo hi s :
  between lo hi s = true -> 0 <= digits_val s < 10 ^ Z.of_nat hi.
Proof.
  unfold between. intros H. bool_simpl. destruct H as ((L & U) & D).
  rewrite Nat.leb_le in L, U. pose proof (digits_val_bound s D).
  pose proof (Z.pow_le_mono_r 10 (Z.of_nat (List.length s)) (Z.of_nat hi)). lia.
Qed.

Lemma all_digits_app s t : all_digits (s ++ t) = all_digits s && all_digits t.
Proof. apply forallb_app. Qed.

Lemma all_digits_firstn n s : all_digits s = true -> all_digits (firstn n s) = true.
Proof. rewrite <- (firstn_skipn n s) at 1. rewrite all_digits_app. by intros [? ?]%andb_true_iff. Qed.

Lemma all_digits_skipn n s : all_digits s = true -> all_digits (skipn n s) = true.
Proof. rewrite <- (firstn_skipn n s) at 1. rewrite all_digits_app. by intros [? ?]%andb_true_iff. Qed.

(** Each format yields numbers of the right width. *)
Definition date_fields (f : str * str * str) : Prop :=
  let '(y, m, d) := f in
  0 <= digits_val y < 10000 /\ 0 <= digits_val m < 100 /\ 0 <= digits_val d < 100.

Lemma match_compact_fields s f : match_compact s = Some f -> date_fields f.
Proof.
  unfold match_compact. destruct (between 8 8 s) eqn:B; [|done]. intros [= <-].
  unfold between in B. bool_simpl. destruct B as ((L & U) & D). rewrite Nat.leb_le in L, U.
  unfold date_fields. split; [|split].
  - pose proof (digits_val_bound (firstn 4 s) (all_digits_firstn _ _ D)) as H.
    rewrite length_firstn in H. by replace (4 `min` List.length s)%nat with 4%nat in H by lia.
  - pose proof (digits_val_bound (firstn 2 (skipn 4 s))
                  (all_digits_firstn _ _ (all_digits_skipn _ _ D))) as H.
    rewrite length_firstn, length_skipn in H.
    by replace (2 `min` (List.length s - 4))%nat with 2%nat in H by lia.
  - pose proof (digits_val_bound (skipn 6 s) (all_digits_skipn _ _ D)) as H.
    rewrite length_skipn in H. by replace (List.length s - 6)%nat with 2%nat in H by lia.
Qed.

Lemma separated_fields y m d :
  between 4 4 y && between 1 2 m && between 1 2 d = true -> date_fields (y, m, d).
Proof.
  intros H. bool_simpl. destruct H as ((Hy & Hm) & Hd).
  apply between_bound in Hy, Hm, Hd. exact (conj Hy (conj Hm Hd)).
Qed.

Lemma match_separated_fields sep s f : match_separated sep s = Some f -> date_fields f.
Proof.
  unfold match_separated. destruct (split_on sep s) as [|y [|m [|d [|]]]]; try done.
  destruct (_ && _ && _) eqn:B; [|done]. intros [= <-]. by apply separated_fields.
Qed.

Lemma match_dotted_fields s f : match_dotted s = Some f -> date_fields f.
Proof.
  unfold match_dotted.
  assert (E : forall y m d : str,
    (if between 4 4 y && between 1 2 (drop_ws m) && between 1 2 (drop_ws d)
     then Some (y, drop_ws m, drop_ws d) else None) = Some f -> date_fields f).
  { intros y m d. destruct (_ && _ && _) eqn:B; [|done]. intros [= <-]. by apply separated_fields. }
  destruct (split_on 46 s) as [|y [|m [|d [|[|] [|]]]]]; try done; apply E.
Qed.

Definition date_match (input : str) : option (str * str * str) :=
  option_or (match_compact input)
    (option_or (match_separated 45 input)
       (option_or (match_separated 47 input) (match_dotted input))).

Lemma date_match_fields s f : date_match s = Some f -> date_fields f.
Proof.
  unfold date_match, option_or. intros H.
  destruct (match_compact s) eqn:E1; [simplify_eq; eauto using match_compact_fields|].
  destruct (match_separated 45 s) eqn:E2; [simplify_eq; eauto using match_separated_fields|].
  destruct (match_separated 47 s) eqn:E3; [simplify_eq; eauto using match_separated_fields|].
  by apply match_dotted_fields in H.
Qed.

(** [Date.UTC] maps the years 0 to 99 to 1900 to 1999, so no such date comes back. *)
Lemma date_utc_early y m d :
  0 <= y < 100 -> -1 <= m -> 0 <= d -> 1800 <= getUTCFullYear (date_utc y m d 0 0 0).
Proof.
  intros Hy Hm Hd. unfold date_utc, getUTCFullYear, day.
  replace ((0 <=? y) && (y <=? 99)) with true by lia.
  rewrite !Z.mul_0_l, !Z.add_0_r, Z.div_mul by done.
  pose proof (year_from_day_spec (make_day (1900 + y) m d)) as S.
  set (x := year_from_day _) in *. destruct (Z.lt_ge_cases x 1800) as [L|]; [|lia]. exfalso.
  pose proof (day_from_year_mono (x + 1) 1800 ltac:(lia)) as U.
  unfold make_day in S.
  assert (1899 <= 1900 + y + m / 12) as Y by (Z.to_euclidean_division_equations; lia).
  apply day_from_year_mono in Y.
  pose proof (month_start_range (leap (1900 + y + m / 12)) (m mod 12)
                ltac:(Z.to_euclidean_division_equations; lia)) as [N _].
  change (day_from_year 1800) with (-62091) in U. change (day_from_year 1899) with (-25932) in Y.
  lia.
Qed.

(** The check after the conversion accepts exactly the dates of the calendar
    from the year 100 on. *)
Lemma date_check y m d :
  0 <= y < 10000 -> 0 <= m < 100 -> 0 <= d < 100 ->
  (let date := date_utc y (m - 1) d 0 0 0 in
   negb (getUTCFullYear date =? y) || negb (getUTCMonth date =? m - 1)
   || negb (getUTCDate date =? d) = false)
  <-> 100 <= y /\ civil y (m - 1) d.
Proof.
  intros Hy Hm Hd. cbv zeta. rewrite !orb_false_iff, !negb_false_iff, !Z.eqb_eq. split.
  - intros ((Y & M) & D). pose proof (civil_of_time (date_utc y (m - 1) d 0 0 0)) as C.
    rewrite Y, M, D in C. split; [|done].
    destruct (Z.lt_ge_cases y 100); [|lia].
    pose proof (date_utc_early y (m - 1) d). lia.
  - intros [Y C]. unfold date_utc. replace ((0 <=? y) && (y <=? 99)) with false by lia.
    rewrite !Z.mul_0_l, !Z.add_0_r.
    pose proof (getters_make_day y (m - 1) d 0 C ltac:(done)) as (G1 & G2 & G3 & _).
    rewrite Z.add_0_r in *. done.
Qed.

Lemma parseDateString_match v y m d :
  v <> [] -> date_match (trim v) = Some (y, m, d) ->
  100 <= digits_val y -> civil (digits_val y) (digits_val m - 1) (digits_val d) ->
  parseDateString (Some v) = Some (ymd_text (digits_val y) (digits_val m) (digits_val d)).
Proof.
  intros Nv E Y C. destruct v as [|c v]; [done|]. unfold parseDateString.
  fold (date_match (trim (c :: v))). rewrite E. cbv zeta.
  apply date_match_fields in E as (Hy & Hm & Hd).
  pose proof (proj2 (date_check _ _ _ Hy Hm Hd) (conj Y C)) as K. cbv zeta in K. by rewrite K.
Qed.

Lemma parseDateString_inv v s :
  parseDateString v = Some s ->
  exists y m d, 100 <= y < 10000 /\ 1 <= m <= 12 /\ 1 <= d <= 31 /\ civil y (m - 1) d
                /\ s = ymd_text y m d.
Proof.
  destruct v as [[|c v]|]; try done. unfold parseDateString. fold (date_match (trim (c :: v))).
  destruct (date_match _) as [[[y m] d]|] eqn:E; [|done]. cbv zeta.
  apply date_match_fields in E as (Hy & Hm & Hd).
  destruct (negb _ || _ || _) eqn:K; [done|]. intros [= <-].
  apply (date_check _ _ _ Hy Hm Hd) in K as [Y C].
  pose proof (civil_date_range _ _ _ C). destruct C as [M D].
  exists (digits_val y), (digits_val m), (digits_val d).
  split; [lia|]. split; [lia|]. split; [lia|]. done.
Qed.

(** ** The canonical text is accepted as it is *)

Lemma digit_eqb_other n c : (c < 48 \/ 57 < c)%N -> N.eqb (digit n) c = false.
Proof.
  intros H. pose proof (is_digit_digit n) as D. unfold is_digit in D. bool_simpl.
  rewrite !N.leb_le in D. apply N.eqb_neq. lia.
Qed.

Lemma date_match_ymd_text y m d :
  0 <= y < 10000 -> 0 <= m < 100 -> 0 <= d < 100 ->
  date_match (trim (ymd_text y m d)) = Some (pad 4 y, pad 2 m, pad 2 d).
Proof.
  intros Hy Hm Hd. unfold ymd_text. rewrite pad_4, !pad_2 by lia.
  assert (W : forall n, is_ws (digit n) = false)
    by (intros; apply is_digit_not_ws, is_digit_digit).
  change (js "-") with [45%N]. cbn [app].
  unfold trim. cbn [drop_ws]. rewrite W. cbn [rev app drop_ws]. rewrite W. cbn [rev app].
  unfold date_match, match_compact, between. cbn [List.length Nat.leb andb option_or].
  unfold match_separated, split_on. cbn [split_on_go].
  rewrite !digit_eqb_other by (left; done). rewrite !N.eqb_refl. cbn [rev app].
  unfold between, all_digits. cbn [List.length Nat.leb forallb]. rewrite !is_digit_digit. done.
Qed.

Lemma parseDateString_ymd_text y m d :
  100 <= y < 10000 -> civil y (m - 1) d ->
  parseDateString (Some (ymd_text y m d)) = Some (ymd_text y m d).
Proof.
  intros Hy C. pose proof (civil_date_range _ _ _ C). assert (1 <= m <= 12) by (destruct C; lia).
  pose proof (parseDateString_match (ymd_text y m d) (pad 4 y) (pad 2 m) (pad 2 d)) as P.
  rewrite digits_val_pad_4, !digits_val_pad_2 in P by lia. apply P; [|apply date_match_ymd_text; lia|lia|done].
  unfold ymd_text. by rewrite pad_4 by lia.
Qed.

(** ** Properties *)

(** Whatever spelling of a date is accepted, the result is the text
    [YYYY-MM-DD] of a day of the calendar, it is read back unchanged, and the
    day it denotes is formatted to it. *)
Theorem parseDateString_canonical v s :
  parseDateString v = Some s ->
  parseDateString (Some s) = Some s
  /\ exists t, toDateOnly v = Some t /\ time_within_day t = 0 /\ formatDateOnly t = s.
Proof.
  intros E. pose proof E as (y & m & d & Hy & Hm & Hd & C & ->)%parseDateString_inv.
  split; [by apply parseDateString_ymd_text|].
  exists (make_day y (m - 1) d * msPerDay). unfold toDateOnly. rewrite E.
  rewrite date_of_iso_text by lia. split; [done|]. split; [by apply Z_mod_mult|].
  unfold formatDateOnly. rewrite <- (Z.add_0_r (_ * msPerDay)).
  rewrite iso_date_make_day by (done || lia). by replace (m - 1 + 1) with m by lia.
Qed.

Lemma parseDateString_canonical_witness :
  parseDateString (Some (js "2024. 2. 29.")) = Some (js "2024-02-29")
  /\ parseDateString (Some (js "2024-02-29")) = Some (js "2024-02-29").
Proof.
  split; [by vm_compute|].
  exact (proj1 (parseDateString_canonical (Some (js "2024. 2. 29.")) (js "2024-02-29") eq_refl)).
Defined.

(** Formatting a day and reading it back gives its midnight, for the years
    a four-digit year denotes (100 to 9999). *)
Theorem toDateOnly_formatDateOnly t :
  100 <= getUTCFullYear t <= 9999 ->
  toDateOnly (Some (formatDateOnly t)) = Some (day t * msPerDay).
Proof.
  intros Hy. pose proof (civil_of_time t) as C.
  pose proof (civil_date_range _ _ _ C) as Hd. assert (Hm : 0 <= getUTCMonth t <= 11) by (destruct C; lia).
  unfold formatDateOnly. rewrite iso_date_eq by lia.
  fold (ymd_text (getUTCFullYear t) (getUTCMonth t + 1) (getUTCDate t)).
  unfold toDateOnly. rewrite parseDateString_ymd_text; [|lia|by rewrite Z.add_simpl_r].
  rewrite date_of_iso_text, Z.add_simpl_r, make_day_getters by lia. done.
Qed.

Lemma toDateOnly_formatDateOnly_witness :
  toDateOnly (Some (formatDateOnly 1709251199999)) = Some 1709164800000.
Proof. refine (toDateOnly_formatDateOnly 1709251199999 _). split; by vm_compute. Defined.

(** The text of a day, and what a DATE column keeps of one. *)
Lemma formatDateOnly_day t u : day t = day u -> formatDateOnly t = formatDateOnly u.
Proof.
  unfold formatDateOnly, iso_date, getUTCDate, getUTCMonth, day_in_year, getUTCFullYear. by intros ->.
Qed.

Lemma date_column_day t : day (date_column t) = day t.
Proof. unfold day, date_column, day. by rewrite Z.div_mul. Qed.

Lemma date_column_idem t : date_column (date_column t) = date_column t.
Proof. unfold date_column at 1. by rewrite date_column_day. Qed.

(** A range of two readable dates counts its days inclusively; it is 0 when
    it is reversed or when one end is not a date. *)
Theorem dateRangeDays_spec from to :
  dateRangeDays from to
  = match toDateOnly (Some from), toDateOnly (Some to) with
    | Some s, Some e => if e <? s then ofZ 0 else ofZ (day e - day s + 1)
    | _, _ => ofZ 0
    end.
Proof.
  unfold dateRangeDays.
  assert (R : forall v t, toDateOnly v = Some t -> t = day t * msPerDay /\ 0 <= day t + 1000000 <= 4000000).
  { intros v t. unfold toDateOnly. destruct (parseDateString v) as [s|] eqn:E; [|done].
    intros [= <-]. apply parseDateString_inv in E as (y & m & d & Hy & Hm & Hd & C & ->).
    rewrite date_of_iso_text by lia. unfold day. rewrite Z.div_mul by done. split; [done|].
    unfold make_day. replace ((m - 1) / 12) with 0 by (Z.to_euclidean_division_equations; lia).
    replace ((m - 1) mod 12) with (m - 1) by (Z.to_euclidean_division_equations; lia).
    pose proof (month_start_range (leap (y + 0)) (m - 1) ltac:(lia)) as [M1 M2].
    pose proof (month_start_mono (leap (y + 0)) (m - 1) 11) as M3.
    destruct C as [_ [_ C]]. rewrite Z.add_0_r in *.
    pose proof (day_from_year_mono 100 y ltac:(lia)). pose proof (day_from_year_mono y 9999 ltac:(lia)).
    change (day_from_year 100) with (-683003) in *. change (day_from_year 9999) with 2932532 in *.
    unfold year_length in M2. destruct (leap y); lia. }
  destruct (toDateOnly (Some from)) as [s|] eqn:Es; [|done].
  destruct (toDateOnly (Some to)) as [e|] eqn:Ee; [|done].
  apply R in Es as [Es Bs], Ee as [Ee Be]. destruct (Z.ltb_spec e s); [done|].
  replace (e - s) with ((day e - day s) * msPerDay) by lia.
  assert (0 <= day e - day s) by (unfold msPerDay in *; lia).
  rewrite ndiv_ofZ_exact by (unfold safe, msPerDay; try apply Z.divide_factor_r; lia).
  rewrite Z.div_mul by done.
  by rewrite round_ofZ, (nadd_ofZ _ 1) by (unfold safe; lia).
Qed.

Section effective_rule_facts.
Context `{IcuLaws}.

#[export] Instance compareEffectiveRulePriority_comparator :
  Comparator compareEffectiveRulePriority.
Proof.
  unfold compareEffectiveRulePriority. apply comparator_or; [apply _|].
  split; [intros x y|intros x y z]; pose proof (cmp_anti (cmp := locale_compare)) as A.
  - pose proof (A (id y) (id x)). pose proof (A (id x) (id y)). lia.
  - intros L1 L2. apply (cmp_trans (id z) (id y) (id x)); done.
Qed.

(** The rule in force on a date covers the date and no rule covering it
    starts later, nor starts the same day and was created later; there is one
    exactly when some rule covers the date. *)
Theorem findEffectiveRuleForDate_spec rules date :
  match findEffectiveRuleForDate rules date with
  | Some r =>
      r ∈ rules /\ effective_on date r = true
      /\ forall r', r' ∈ rules -> effective_on date r' = true ->
           effectiveFrom r' < effectiveFrom r
           \/ (effectiveFrom r' = effectiveFrom r
               /\ (createdAt r' < createdAt r
                   \/ (createdAt r' = createdAt r /\ locale_compare (id r') (id r) <= 0)))
  | None => forall r, r ∈ rules -> effective_on date r = false
  end.
Proof.
  unfold findEffectiveRuleForDate.
  destruct (js_sort _ _) as [|r l] eqn:E; simpl.
  - intros r Hr. destruct (effective_on date r) eqn:D; [|done].
    assert (I : r ∈ js_sort compareEffectiveRulePriority (List.filter (effective_on date) rules))
      by (rewrite elem_of_js_sort, elem_of_filterb; done).
    rewrite E in I. by apply elem_of_nil in I.
  - apply js_sort_head in E as [I M]; [|apply _]. rewrite elem_of_filterb in I.
    destruct I as [I D]. split; [done|]. split; [done|]. intros r' I' D'.
    specialize (M r'). rewrite elem_of_filterb in M. specialize (M (conj I' D')).
    unfold compareEffectiveRulePriority, cmp_or in M.
    repeat case_match; lia.
Qed.
End effective_rule_facts.

Lemma findEffectiveRuleForDate_spec_witness :
  let rule i f t := {| id := js i; effectiveFrom := f; effectiveTo := t; createdAt := 0 |} in
  let rules := [rule "a" 10 None; rule "b" 20 (Some 40); rule "c" 50 None]%string in
  let result := @findEffectiveRuleForDate c_locale rules 30 in
  option_map id result = Some (js "b")
  /\ match result with Some r => effective_on 30 r = true | None => False end.
Proof.
  intros rule rules result. split; [by vm_compute|].
  pose proof (@findEffectiveRuleForDate_spec c_locale c_locale_laws rules 30) as S.
  fold result in S. unfold result in S |- *.
  destruct (findEffectiveRuleForDate rules 30) eqn:E; [exact (proj1 (proj2 S))|].
  exfalso. vm_compute in E. discriminate E.
Defined.

(** The previous day at the same time of day. *)
Lemma previousUtcDate_spec date : previousUtcDate date = date - msPerDay.
Proof.
  unfold previousUtcDate. pose proof (make_day_getters date) as M. pose proof (day_time date) as T.
  unfold make_day in *. lia.
Qed.
