(* ===== verification/Metrics.v ===== *)
(** * The calculators of advertising metrics

    Models [apps/api/src/domain/margin-calculator.ts] (Module [Margin]),
    [period-metric-calculator.ts] (Module [Period]), [meta-video-metrics.ts]
    (Module [Video]), [comparison-calculator.ts] (Module [Comparison]) and
    [cafe24-sales-calculator.ts] (Module [Cafe24Sales]).  The definitions compute on
    binary64 numbers; the theorems about amounts are for safe integers, on which
    the arithmetic is exact. *)

From S2P Require Import Prelude JsNumber SafeInteger JsString DateNumber.

Local Open Scope Z_scope.

(** ** margin-calculator.ts *)

Module Margin.

Record CostRuleInput := {
  salePriceKrw : num;
  vatKrw : num;
  productCostKrw : num;
  shippingKrw : num;
  extraCostKrw : num
}.

Record CpaRuleInput := { targetRatio : num; watchRatio : num; stopRatio : num }.

Record ProductCpaThresholds := {
  contributionBeforeAdsKrw : num;
  breakEvenCpaKrw : option num;
  targetCpaKrw : option num;
  watchCpaKrw : option num;
  stopCpaKrw : option num
}.

Record MarginMetricInput := {
  spendUsd : num;
  purchaseCount : num;
  exchangeRateKrwPerUsd : num
}.

Record MarginMetricResult := {
  spendKrw : num;
  revenueKrw : num;
  grossCostKrw : num;
  marginKrw : num;
  cpaKrw : option num;
  cpaUsd : option num;
  roas : option num
}.

Definition thresholds (costRule : CostRuleInput) (cpaRule : CpaRuleInput) : ProductCpaThresholds :=
  let contributionBeforeAdsKrw :=
    nsub (nsub (nsub (nsub (salePriceKrw costRule) (vatKrw costRule)) (productCostKrw costRule))
            (shippingKrw costRule)) (extraCostKrw costRule) in
  let breakEvenCpaKrw := contributionBeforeAdsKrw in
  {| contributionBeforeAdsKrw := contributionBeforeAdsKrw;
     breakEvenCpaKrw := Some breakEvenCpaKrw;
     targetCpaKrw := Some (nmul breakEvenCpaKrw (targetRatio cpaRule));
     watchCpaKrw := Some (nmul breakEvenCpaKrw (watchRatio cpaRule));
     stopCpaKrw := Some (nmul breakEvenCpaKrw (stopRatio cpaRule)) |}.

Definition unit_cost (costRule : CostRuleInput) : num :=
  nadd (nadd (nadd (vatKrw costRule) (productCostKrw costRule)) (shippingKrw costRule))
    (extraCostKrw costRule).

Definition margin (input : MarginMetricInput) (costRule : CostRuleInput) : MarginMetricResult :=
  let spendKrw := nmul (spendUsd input) (exchangeRateKrwPerUsd input) in
  let revenueKrw := nmul (purchaseCount input) (salePriceKrw costRule) in
  let grossCostKrw := nmul (purchaseCount input) (unit_cost costRule) in
  {| spendKrw := spendKrw; revenueKrw := revenueKrw; grossCostKrw := grossCostKrw;
     marginKrw := nsub (nsub revenueKrw grossCostKrw) spendKrw;
     cpaKrw := safeDivide spendKrw (purchaseCount input);
     cpaUsd := safeDivide (spendUsd input) (purchaseCount input);
     roas := safeDivide revenueKrw spendKrw |}.

(** A cost rule of whole amounts and the contribution it leaves per purchase. *)
Definition whole_cost (price vat product shipping extra : Z) : CostRuleInput :=
  {| salePriceKrw := ofZ price; vatKrw := ofZ vat; productCostKrw := ofZ product;
     shippingKrw := ofZ shipping; extraCostKrw := ofZ extra |}.

(** For whole non-negative amounts, the margin of [n] purchases is [n] times
    the contribution before ads less the spend, there is a CPA exactly when
    there is a purchase, and the CPA is within the break-even CPA exactly when
    the margin is not negative. *)
Theorem margin_break_even price vat product shipping extra n spend input cpaRule :
  0 <= price -> 0 <= vat -> 0 <= product -> 0 <= shipping -> 0 <= extra -> 0 <= n -> 0 <= spend ->
  (n + 1) * (price + vat + product + shipping + extra) + n + spend < 2 ^ 53 ->
  purchaseCount input = ofZ n ->
  nmul (spendUsd input) (exchangeRateKrwPerUsd input) = ofZ spend ->
  let cost := whole_cost price vat product shipping extra in
  let contribution := price - vat - product - shipping - extra in
  let m := margin input cost in
  let t := thresholds cost cpaRule in
  contributionBeforeAdsKrw t = ofZ contribution
  /\ breakEvenCpaKrw t = Some (ofZ contribution)
  /\ marginKrw m = ofZ (n * contribution - spend)
  /\ match cpaKrw m with
     | None => n = 0
     | Some cpa => 0 < n /\ isFinite cpa = true /\ nleb cpa (ofZ contribution) = (0 <=? n * contribution - spend)
     end.
Proof.
  intros H1 H2 H3 H4 H5 Hn Hs Hb En Es cost contribution m t.
  unfold m, t, margin, thresholds, unit_cost, cost, whole_cost. simpl. rewrite En, Es.
  assert (B : n * (price + vat + product + shipping + extra) + (price + vat + product + shipping + extra)
              + n + spend < 2 ^ 53) by lia.
  assert (0 <= n * price) by nia. assert (0 <= n * (vat + product + shipping + extra)) by nia.
  assert (n * price + n * (vat + product + shipping + extra)
          = n * (price + vat + product + shipping + extra)) by ring.
  repeat first [rewrite nadd_ofZ by (unfold safe; lia) | rewrite nsub_ofZ by (unfold safe; lia)
               | rewrite nmul_ofZ by (unfold safe; lia)].
  fold contribution. split; [done|]. split; [done|].
  replace (n * price - n * (vat + product + shipping + extra)) with (n * contribution)
    by (unfold contribution; ring).
  split; [done|].
  unfold safeDivide. rewrite !isFinite_ofZ, (neqb_ofZ n 0) by (unfold safe; lia). simpl.
  destruct (Z.eqb_spec n 0); [done|]. split; [lia|].
  split; [apply isFinite_ndiv_ofZ; unfold safe; lia|].
  rewrite nleb_ndiv_ofZ by (unfold safe, contribution; lia). apply eq_true_iff_eq. lia.
Qed.

End Margin.

(** ** period-metric-calculator.ts *)

Module Period.

Record PeriodMetricRow := {
  metricDate : str;
  row_spendUsd : num;
  row_resultCount : num;
  row_impressions : num;
  row_linkClicks : num;
  row_clicksAll : num;
  row_landingPageViews : num;
  row_revenueKrw : option num;
  row_marginKrw : option num;
  row_spendKrw : option num
}.

Record PeriodMetricResult := {
  spendUsd : num;
  spendKrw : num;
  purchaseCount : num;
  impressions : num;
  linkClicks : num;
  clicksAll : num;
  landingPageViews : num;
  revenueKrw : num;
  marginKrw : num;
  cpaUsd : option num;
  cpaKrw : option num;
  ctrLinkPct : option num;
  ctrAllPct : option num;
  cpcLinkUsd : option num;
  cpcAllUsd : option num;
  roas : option num;
  dataDays : num
}.

(** The accumulator of the reduction; [days] is a [Set]. *)
Record totals := {
  t_spendUsd : num;
  t_spendKrw : num;
  t_purchaseCount : num;
  t_impressions : num;
  t_linkClicks : num;
  t_clicksAll : num;
  t_landingPageViews : num;
  t_revenueKrw : num;
  t_marginKrw : num;
  days : list str
}.

Definition set_add (x : str) (s : list str) : list str :=
  if bool_decide (x ∈ s) then s else s ++ [x].

Definition add_row (acc : totals) (row : PeriodMetricRow) : totals := {|
  t_spendUsd := nadd (t_spendUsd acc) (row_spendUsd row);
  t_spendKrw := nadd (t_spendKrw acc) (row_spendKrw row ?? ofZ 0);
  t_purchaseCount := nadd (t_purchaseCount acc) (row_resultCount row);
  t_impressions := nadd (t_impressions acc) (row_impressions row);
  t_linkClicks := nadd (t_linkClicks acc) (row_linkClicks row);
  t_clicksAll := nadd (t_clicksAll acc) (row_clicksAll row);
  t_landingPageViews := nadd (t_landingPageViews acc) (row_landingPageViews row);
  t_revenueKrw := nadd (t_revenueKrw acc) (row_revenueKrw row ?? ofZ 0);
  t_marginKrw := nadd (t_marginKrw acc) (row_marginKrw row ?? ofZ 0);
  days := set_add (metricDate row) (days acc)
|}.

Definition zero_totals : totals := {|
  t_spendUsd := ofZ 0; t_spendKrw := ofZ 0; t_purchaseCount := ofZ 0; t_impressions := ofZ 0;
  t_linkClicks := ofZ 0; t_clicksAll := ofZ 0; t_landingPageViews := ofZ 0;
  t_revenueKrw := ofZ 0; t_marginKrw := ofZ 0; days := []
|}.

Definition of_totals (t : totals) : PeriodMetricResult := {|
  spendUsd := t_spendUsd t;
  spendKrw := t_spendKrw t;
  purchaseCount := t_purchaseCount t;
  impressions := t_impressions t;
  linkClicks := t_linkClicks t;
  clicksAll := t_clicksAll t;
  landingPageViews := t_landingPageViews t;
  revenueKrw := t_revenueKrw t;
  marginKrw := t_marginKrw t;
  cpaUsd := safeDivide (t_spendUsd t) (t_purchaseCount t);
  cpaKrw := safeDivide (t_spendKrw t) (t_purchaseCount t);
  ctrLinkPct := safeDivide (nmul (t_linkClicks t) (ofZ 100)) (t_impressions t);
  ctrAllPct := safeDivide (nmul (t_clicksAll t) (ofZ 100)) (t_impressions t);
  cpcLinkUsd := safeDivide (t_spendUsd t) (t_linkClicks t);
  cpcAllUsd := safeDivide (t_spendUsd t) (t_clicksAll t);
  roas := safeDivide (t_revenueKrw t) (t_spendKrw t);
  dataDays := ofZ (Z.of_nat (List.length (days t)))
|}.

Definition calculate (rows : list PeriodMetricRow) : PeriodMetricResult :=
  of_totals (fold_left add_row rows zero_totals).

(** The columns that are summed, an absent amount counting as 0. *)
Definition columns : list (PeriodMetricRow -> num) :=
  [row_spendUsd; (fun r => row_spendKrw r ?? ofZ 0); row_resultCount; row_impressions;
   row_linkClicks; row_clicksAll; row_landingPageViews; (fun r => row_revenueKrw r ?? ofZ 0);
   (fun r => row_marginKrw r ?? ofZ 0)].

Definition sums (t : totals) : list num :=
  [t_spendUsd t; t_spendKrw t; t_purchaseCount t; t_impressions t; t_linkClicks t; t_clicksAll t;
   t_landingPageViews t; t_revenueKrw t; t_marginKrw t].

Lemma elem_of_set_add x y s : y ∈ set_add x s <-> y = x \/ y ∈ s.
Proof.
  unfold set_add. case_bool_decide; [naive_solver|].
  rewrite elem_of_app, list_elem_of_singleton. naive_solver.
Qed.

Lemma NoDup_set_add x s : NoDup s -> NoDup (set_add x s).
Proof.
  unfold set_add. case_bool_decide; [done|]. intros. apply NoDup_app.
  split; [done|]. split; [|apply NoDup_singleton]. intros y Hy ->%list_elem_of_singleton. done.
Qed.

Lemma days_fold rows t :
  NoDup (days t) ->
  NoDup (days (fold_left add_row rows t))
  /\ forall d, d ∈ days (fold_left add_row rows t) <-> d ∈ days t \/ d ∈ map metricDate rows.
Proof.
  revert t. induction rows as [|row rows IH]; intros t N; simpl.
  - split; [done|]. intros d. rewrite elem_of_nil. naive_solver.
  - destruct (IH (add_row t row)) as [N' E]; [by apply NoDup_set_add|]. split; [done|].
    intros d. rewrite E. simpl. rewrite elem_of_set_add, elem_of_cons. naive_solver.
Qed.

Lemma sums_fold rows t :
  sums (fold_left add_row rows t)
  = zip_with (fun s col => fold_left nadd (map col rows) s) (sums t) columns.
Proof.
  revert t. induction rows as [|row rows IH]; intros t; simpl; [by destruct t|].
  rewrite IH. done.
Qed.

(** A column of whole amounts whose magnitudes sum to a safe integer. *)
Definition whole_column (rows : list PeriodMetricRow) (col : PeriodMetricRow -> num) : Prop :=
  exists zs, map col rows = map ofZ zs /\ abs_sum zs < 2 ^ 53.

Lemma whole_column_sum rows rows' col :
  rows ≡ₚ rows' -> whole_column rows col ->
  fold_left nadd (map col rows) (ofZ 0) = fold_left nadd (map col rows') (ofZ 0).
Proof.
  intros P (zs & E & B). assert (Q : map col rows ≡ₚ map col rows') by (by rewrite P).
  rewrite E in Q. symmetry in Q. apply Permutation_map_inv in Q as (zs' & E' & P').
  assert (S : forall xs ys, xs ≡ₚ ys -> zsum xs = zsum ys) by (induction 1; simpl; lia).
  assert (abs_sum zs' = abs_sum zs) by (apply S; by rewrite P').
  fold (nsum (map col rows)). fold (nsum (map col rows')).
  rewrite E, E', !nsum_ofZ by lia. by rewrite (S zs zs').
Qed.

Lemma zip_with_replicate_ext {A B C} (f g : A -> B -> C) (x : A) (l : list B) n :
  Forall (fun y => f x y = g x y) l ->
  zip_with f (replicate n x) l = zip_with g (replicate n x) l.
Proof. intros F. revert n. induction F as [|y l E F IH]; intros [|n]; simpl; [done..|]. by rewrite E, IH. Qed.

Lemma sums_permutation rows rows' :
  rows ≡ₚ rows' -> Forall (whole_column rows) columns ->
  sums (fold_left add_row rows zero_totals) = sums (fold_left add_row rows' zero_totals).
Proof.
  intros P W. rewrite !sums_fold. change (sums zero_totals) with (replicate 9 (ofZ 0)).
  apply zip_with_replicate_ext. eapply Forall_impl; [exact W|]. intros col. by apply whole_column_sum.
Qed.

(** The number of distinct days. *)
Lemma days_permutation rows rows' :
  rows ≡ₚ rows' ->
  days (fold_left add_row rows zero_totals) ≡ₚ days (fold_left add_row rows' zero_totals).
Proof.
  intros P. destruct (days_fold rows zero_totals (NoDup_nil_2)) as [N E].
  destruct (days_fold rows' zero_totals (NoDup_nil_2)) as [N' E'].
  apply NoDup_Permutation; [done..|]. intros d. rewrite E, E', P. done.
Qed.

(** On whole amounts the order of the rows does not matter: the totals, the
    ratios and the number of days are those of any permutation of the rows. *)
Theorem calculate_permutation rows rows' :
  rows ≡ₚ rows' -> Forall (whole_column rows) columns -> calculate rows = calculate rows'.
Proof.
  intros P W. unfold calculate, of_totals.
  rewrite (Permutation_length (days_permutation _ _ P)).
  pose proof (sums_permutation _ _ P W) as S. unfold sums in S.
  injection S as -> -> -> -> -> -> -> -> ->. done.
Qed.

Lemma calculate_permutation_witness :
  let row d s p := {| metricDate := js d; row_spendUsd := ofZ s; row_resultCount := ofZ p;
                      row_impressions := ofZ 10; row_linkClicks := ofZ 4; row_clicksAll := ofZ 5;
                      row_landingPageViews := ofZ 3; row_revenueKrw := None;
                      row_marginKrw := Some (ofZ (-7)); row_spendKrw := None |} in
  let a := row "2026-01-01"%string 5 1 in
  let b := row "2026-01-02"%string 7 2 in
  calculate [a; b; a] = calculate [b; a; a] /\ dataDays (calculate [a; b; a]) = ofZ 2.
Proof.
  intros row a b. split; [|reflexivity]. apply calculate_permutation; [apply perm_swap|].
  repeat constructor; unfold whole_column; simpl.
  - by exists [5; 7; 5]. - by exists [0; 0; 0]. - by exists [1; 2; 1]. - by exists [10; 10; 10].
  - by exists [4; 4; 4]. - by exists [5; 5; 5]. - by exists [3; 3; 3]. - by exists [0; 0; 0].
  - by exists [-7; -7; -7].
Defined.

(** The totals are the sums of the columns, an absent amount counting as 0;
    the days are counted without repetition; a ratio is absent exactly when its
    divisor is zero or a term is not finite. *)
Theorem calculate_totals rows :
  let r := calculate rows in
  [spendUsd r; spendKrw r; purchaseCount r; impressions r; linkClicks r; clicksAll r;
   landingPageViews r; revenueKrw r; marginKrw r]
  = map (fun col => nsum (map col rows)) columns
  /\ dataDays r = ofZ (Z.of_nat (List.length (js_unique (map metricDate rows))))
  /\ (cpaKrw r = None <->
        isFinite (spendKrw r) = false \/ isFinite (purchaseCount r) = false
        \/ neqb (purchaseCount r) (ofZ 0) = true).
Proof.
  intros r. unfold r, calculate, of_totals. simpl.
  pose proof (sums_fold rows zero_totals) as S. unfold sums in S. simpl in S.
  injection S as -> -> -> -> -> -> -> -> ->. split; [done|]. split.
  - do 2 f_equal. apply Permutation_length, NoDup_Permutation.
    + by apply (days_fold rows zero_totals (NoDup_nil_2)).
    + apply NoDup_js_unique.
    + intros d. destruct (days_fold rows zero_totals (NoDup_nil_2)) as [_ E].
      rewrite E, elem_of_js_unique. simpl. rewrite elem_of_nil. naive_solver.
  - unfold safeDivide. case_match; bool_simpl; intuition congruence.
Qed.
End Period.

(** ** meta-video-metrics.ts *)

Module Video.

(** The count (and rate) fields, one per column of the export. *)
Inductive field := videoPlay3s | videoPlay25 | videoPlay50 | videoPlay75 | videoPlay100.

#[export] Instance field_eq : EqDecision field.
Proof. solve_decision. Defined.

Record column := { csvColumn : str; countField : field }.

Definition META_VIDEO_PLAY_COLUMNS : list column := [
  {| csvColumn := js "동영상 3초 이상 재생"; countField := videoPlay3s |};
  {| csvColumn := js "동영상 25% 재생"; countField := videoPlay25 |};
  {| csvColumn := js "동영상 50% 재생"; countField := videoPlay50 |};
  {| csvColumn := js "동영상 75% 재생"; countField := videoPlay75 |};
  {| csvColumn := js "동영상 100% 재생"; countField := videoPlay100 |}
].

Record MetaVideoMetricRow := { reach : num; count : field -> option num }.

Record MetaVideoMetricTotals := {
  total_reach : num;
  total_count : field -> option num;
  total_rate : field -> option num
}.

Definition set_field (f : field) (v : option num) (g : field -> option num) : field -> option num :=
  fun f' => if decide (f' = f) then v else g f'.

Definition complete (rows : list MetaVideoMetricRow) (f : field) : bool :=
  (0 <? List.length rows)%nat
  && forallb (fun row => negb (bool_decide (count row f = None)) || neqb (reach row) (ofZ 0)) rows.

(** One round of the loop over the columns. *)
Definition add_column (rows : list MetaVideoMetricRow) (totals : MetaVideoMetricTotals)
    (col : column) : MetaVideoMetricTotals :=
  let f := countField col in
  let cnt := if complete rows f
             then Some (nsum (map (fun row => count row f ?? ofZ 0) rows)) else None in
  {| total_reach := total_reach totals;
     total_count := set_field f cnt (total_count totals);
     total_rate := set_field f
       (match cnt with
        | None => None
        | Some c => if neqb (total_reach totals) (ofZ 0) then None
                    else Some (nmul (ndiv c (total_reach totals)) (ofZ 100))
        end) (total_rate totals) |}.

Definition aggregateMetaVideoMetrics (rows : list MetaVideoMetricRow) : MetaVideoMetricTotals :=
  fold_left (add_column rows) META_VIDEO_PLAY_COLUMNS
    {| total_reach := nsum (map reach rows); total_count := fun _ => None;
       total_rate := fun _ => None |}.

(** A play count is known for the period exactly when there are rows and
    every row that reached someone has it; it is then the sum over the rows and,
    unless the period reached nobody, the rate is that sum over the reach in
    percent.  No column is left out and none reads another's counts. *)
Theorem aggregateMetaVideoMetrics_spec rows f :
  let t := aggregateMetaVideoMetrics rows in
  (total_count t f <> None
     <-> rows <> [] /\ forall row, row ∈ rows -> neqb (reach row) (ofZ 0) = false -> count row f <> None)
  /\ (forall c, total_count t f = Some c ->
        c = nsum (map (fun row => count row f ?? ofZ 0) rows)
        /\ total_rate t f = if neqb (nsum (map reach rows)) (ofZ 0) then None
                            else Some (nmul (ndiv c (nsum (map reach rows))) (ofZ 100)))
  /\ (total_count t f = None -> total_rate t f = None).
Proof.
  intros t.
  assert (C : complete rows f = true
              <-> rows <> [] /\ forall row, row ∈ rows -> neqb (reach row) (ofZ 0) = false ->
                                            count row f <> None).
  { unfold complete. rewrite andb_true_iff, forallb_forall_iff, Nat.ltb_lt. split.
    - intros [L A]. split; [intros ->; simpl in L; lia|]. intros row Hr N. specialize (A row Hr).
      rewrite N, orb_false_r, negb_true_iff, bool_decide_eq_false in A. done.
    - intros [N A]. split; [destruct rows; [done|simpl; lia]|]. intros row Hr.
      specialize (A row Hr). destruct (neqb _ _); [apply orb_true_r|].
      rewrite orb_false_r, negb_true_iff. apply bool_decide_eq_false. by apply A. }
  assert (E : total_count t f
              = (if complete rows f then Some (nsum (map (fun row => count row f ?? ofZ 0) rows)) else None)
              /\ total_rate t f
                 = (if complete rows f then
                      if neqb (nsum (map reach rows)) (ofZ 0) then None
                      else Some (nmul (ndiv (nsum (map (fun row => count row f ?? ofZ 0) rows))
                                            (nsum (map reach rows))) (ofZ 100))
                    else None)).
  { unfold t, aggregateMetaVideoMetrics. destruct f; simpl; unfold set_field; simpl;
      repeat (rewrite decide_True by done); repeat (rewrite decide_False by done);
      by destruct (complete rows _). }
  destruct E as [-> ->]. rewrite <- C. destruct (complete rows f); naive_solver.
Qed.

(** A rate within the reach: when no count exceeds the reach of its row, the
    quotient behind the rate is at most 1. *)
Lemma rate_le_1 cs rs :
  Forall2 (fun c r => 0 <= c <= r) cs rs -> 0 < zsum rs -> abs_sum rs < 2 ^ 53 ->
  nleb (ndiv (nsum (map ofZ cs)) (nsum (map ofZ rs))) (ofZ 1) = true.
Proof.
  intros F P B.
  assert (L : 0 <= zsum cs <= zsum rs /\ abs_sum cs = zsum cs /\ abs_sum rs = zsum rs).
  { clear P B. unfold abs_sum. induction F as [|c r cs rs H F IH]; simpl; lia. }
  rewrite !nsum_ofZ by lia. rewrite nleb_ndiv_ofZ by (unfold safe; lia). lia.
Qed.
End Video.

(** ** comparison-calculator.ts *)

Module Comparison.

Record ComparisonValue := {
  current : option num;
  previous : option num;
  delta : option num;
  deltaPct : option num
}.

Definition compare (current previous : option num) : ComparisonValue :=
  match current, previous with
  | Some c, Some p =>
      let d := nsub c p in
      {| current := current; previous := previous; delta := Some d;
         deltaPct := if neqb p (ofZ 0) then None else Some (nmul (ndiv d p) (ofZ 100)) |}
  | _, _ => {| current := current; previous := previous; delta := None; deltaPct := None |}
  end.
End Comparison.

(** ** cafe24-sales-calculator.ts *)

Module Cafe24Sales.
Import Margin.

Record Cafe24CostOverrideInput := {
  salePriceKrwOverride : nullish num;
  productCostKrwOverride : nullish num;
  shippingKrwOverride : nullish num;
  extraCostKrwOverride : nullish num
}.

Inductive cost_source := PRODUCT_COST_RULE | CAFE24_RULE_OVERRIDE.

Record Cafe24ResolvedCostInput := { cost_of : CostRuleInput; source : cost_source }.

Record Cafe24SalesCalculationInput := {
  in_quantity : num;
  in_adSpendUsd : num;
  in_exchangeRateKrwPerUsd : num;
  cost : CostRuleInput
}.

Record Cafe24SalesCalculationResult := {
  quantity : num;
  revenueKrw : num;
  grossCostKrw : num;
  adSpendUsd : num;
  adSpendKrw : num;
  totalCostKrw : num;
  marginKrw : num;
  roas : option num;
  cpaKrw : option num;
  marginRate : option num
}.

Definition numberOrFallback (value : nullish num) (fallback : num) : num :=
  match value with
  | Val v => if isFinite v then v else fallback
  | _ => fallback
  end.

(** [override?.field]. *)
Definition get (override : option Cafe24CostOverrideInput) (f : Cafe24CostOverrideInput -> nullish num)
    : nullish num :=
  match override with Some o => f o | None => Undefined end.

Definition resolveCost (costRule : CostRuleInput) (override : option Cafe24CostOverrideInput)
    : Cafe24ResolvedCostInput :=
  let salePriceKrw := numberOrFallback (get override salePriceKrwOverride) (Margin.salePriceKrw costRule) in
  let productCostKrw :=
    numberOrFallback (get override productCostKrwOverride) (Margin.productCostKrw costRule) in
  let shippingKrw := numberOrFallback (get override shippingKrwOverride) (Margin.shippingKrw costRule) in
  let extraCostKrw := numberOrFallback (get override extraCostKrwOverride) (Margin.extraCostKrw costRule) in
  let hasOverride :=
    negb (is_undefined (get override salePriceKrwOverride))
    || negb (is_undefined (get override productCostKrwOverride))
    || negb (is_undefined (get override shippingKrwOverride))
    || negb (is_undefined (get override extraCostKrwOverride)) in
  {| cost_of :=
       {| salePriceKrw := salePriceKrw; vatKrw := nmul salePriceKrw (decimal 1 1);
          productCostKrw := productCostKrw; shippingKrw := shippingKrw;
          extraCostKrw := extraCostKrw |};
     source := if hasOverride then CAFE24_RULE_OVERRIDE else PRODUCT_COST_RULE |}.

Definition calculate (input : Cafe24SalesCalculationInput) : Cafe24SalesCalculationResult :=
  let revenueKrw := nmul (salePriceKrw (cost input)) (in_quantity input) in
  let grossCostKrw := nmul (unit_cost (cost input)) (in_quantity input) in
  let adSpendKrw := nmul (in_adSpendUsd input) (in_exchangeRateKrwPerUsd input) in
  let totalCostKrw := nadd grossCostKrw adSpendKrw in
  let marginKrw := nsub revenueKrw totalCostKrw in
  {| quantity := in_quantity input; revenueKrw := revenueKrw; grossCostKrw := grossCostKrw;
     adSpendUsd := in_adSpendUsd input; adSpendKrw := adSpendKrw; totalCostKrw := totalCostKrw;
     marginKrw := marginKrw; roas := safeDivide revenueKrw adSpendKrw;
     cpaKrw := safeDivide adSpendKrw (in_quantity input);
     marginRate := safeDivide marginKrw revenueKrw |}.

(** For whole non-negative amounts the margin of a Cafe24 sale is its
    quantity times the contribution per unit less the advertising spend, the
    very margin [MarginCalculator] reports for the same cost and spend. *)
Theorem calculate_margin price vat product shipping extra n spend usd rate :
  0 <= price -> 0 <= vat -> 0 <= product -> 0 <= shipping -> 0 <= extra -> 0 <= n -> 0 <= spend ->
  (n + 1) * (price + vat + product + shipping + extra) + n + spend < 2 ^ 53 ->
  nmul usd rate = ofZ spend ->
  let c := whole_cost price vat product shipping extra in
  let r := calculate {| in_quantity := ofZ n; in_adSpendUsd := usd;
                        in_exchangeRateKrwPerUsd := rate; cost := c |} in
  let m := Margin.margin {| Margin.spendUsd := usd; Margin.purchaseCount := ofZ n;
                            Margin.exchangeRateKrwPerUsd := rate |} c in
  marginKrw r = ofZ (n * (price - vat - product - shipping - extra) - spend)
  /\ marginKrw r = Margin.marginKrw m
  /\ cpaKrw r = Margin.cpaKrw m /\ roas r = Margin.roas m.
Proof.
  intros H1 H2 H3 H4 H5 Hn Hs Hb Es c r m.
  unfold r, m, calculate, Margin.margin, unit_cost, c, whole_cost. simpl. rewrite Es.
  assert (0 <= n * price) by nia. assert (0 <= n * (vat + product + shipping + extra)) by nia.
  assert (n * price + n * (vat + product + shipping + extra)
          = n * (price + vat + product + shipping + extra)) by ring.
  repeat first [rewrite nadd_ofZ by (unfold safe; lia) | rewrite nsub_ofZ by (unfold safe; lia)
               | rewrite nmul_ofZ by (unfold safe; lia)].
  split; [f_equal; ring|]. split; [f_equal; ring|]. split; [done|]. by rewrite (Z.mul_comm n price).
Qed.

Lemma calculate_margin_witness :
  marginKrw (calculate {| in_quantity := ofZ 3; in_adSpendUsd := decimal 125 1;
                          in_exchangeRateKrwPerUsd := ofZ 1400;
                          cost := whole_cost 30000 3000 9000 2500 500 |}) = ofZ 27500.
Proof.
  refine (proj1 (calculate_margin 30000 3000 9000 2500 500 3 17500 (decimal 125 1) (ofZ 1400)
    _ _ _ _ _ _ _ _ _)); try (vm_compute; discriminate); vm_compute; reflexivity.
Defined.
End Cafe24Sales.
