(* ===== verification/Matching.v ===== *)
(** * Names of ad sets and creatives

    Models [apps/api/src/domain/adset-name-normalizer.ts],
    [apps/api/src/domain/matching.ts] (product and stage of an ad set) and
    [apps/api/src/domain/creative-name-parser.ts].  Regular expressions written
    in the sources are modelled by the functions below; a pattern a user stores
    in a rule is run by the host's engine, the class [RegExpEngine]. *)

From S2P Require Import Prelude JsNumber JsString JsDate DateNumber.

Local Open Scope Z_scope.

(** ** adset-name-normalizer.ts *)

Section names.
Context `{Icu}.

Definition normalizeName (value : str) : str := collapse_ws (trim value).

Definition toKey (value : str) : str := to_lower (normalizeName value).
End names.

(** [new RegExp(pattern, "i").test(text)]; [None] when the constructor throws. *)
Class RegExpEngine := regexp_test : str -> str -> option bool.

(** ** matching.ts *)

Inductive MatchTypeValue := CONTAINS | EXACT | REGEX | MANUAL_TYPE.
Inductive MatchSourceValue := RULE | MANUAL | INFERRED | UNMATCHED.
Inductive AdStageValue := SC | CBO | ASC | UNKNOWN.

#[export] Instance MatchTypeValue_eq : EqDecision MatchTypeValue.
Proof. solve_decision. Defined.
#[export] Instance AdStageValue_eq : EqDecision AdStageValue.
Proof. solve_decision. Defined.

(** A manual assignment of [A] (a product id or a stage) for a range of days. *)
Record ManualHistory (A : Type) := {
  assigned : A;
  history_from : str;
  history_to : option str
}.
Arguments assigned {A} _.
Arguments history_from {A} _.
Arguments history_to {A} _.

Definition ManualProductHistory := ManualHistory str.
Definition ManualStageHistory := ManualHistory AdStageValue.

Record ProductRule := {
  rule_id : str;
  rule_productId : str;
  matchType : MatchTypeValue;
  pattern : str;
  patternKey : option str;
  priority : Z;
  validFrom : option str;
  validTo : option str;
  isActive : option bool
}.

Record ProductMatchResult := {
  match_productId : option str;
  match_source : MatchSourceValue;
  matchRuleId : option str
}.

Record StageMatchResult := {
  match_stage : AdStageValue;
  stage_source : MatchSourceValue
}.

(** [from && date < from] and [to && date > to]; an absent bound is [None] or
    the empty string. *)
Definition bound_truthy (b : option str) : bool := from_option truthy false b.

Definition isDateInRange (date : str) (from to : option str) : bool :=
  if bound_truthy from && str_ltb date (from ?? []) then false
  else if bound_truthy to && str_ltb (to ?? []) date then false
  else true.

(** The token between separators [(^|[\s_-])token($|[\s_-])], in either case. *)
Definition is_separator (c : N) : bool := is_ws c || N.eqb c 95 || N.eqb c 45.

Definition at_boundary (s : str) : bool :=
  match s with [] => true | c :: _ => is_separator c end.

Fixpoint token_from (prev : bool) (token s : str) : bool :=
  (prev && starts_with token s && at_boundary (skipn (List.length token) s))
  || match s with
     | [] => false
     | c :: s' => token_from (is_separator c) token s'
     end.

Definition hasStageToken (nameKey token : str) : bool :=
  token_from true token (map ascii_lower nameKey).

Section matching.
Context `{Icu} `{RegExpEngine}.

Definition history_covers {A} (metricDate : str) (h : ManualHistory A) : bool :=
  isDateInRange metricDate (Some (history_from h)) (history_to h).

Definition matchesRule (nameKey : str) (matchType : MatchTypeValue) (pattern : str)
    : option bool :=
  match matchType with
  | EXACT => Some (str_eqb nameKey pattern)
  | REGEX => regexp_test pattern nameKey
  | _ => Some (includes pattern nameKey)
  end.

Definition rule_pattern (rule : ProductRule) : str := patternKey rule ?? toKey (pattern rule).

Definition rule_matches (nameKey : str) (rule : ProductRule) : option bool :=
  matchesRule nameKey (matchType rule) (rule_pattern rule).

Definition rule_active (metricDate : str) (rule : ProductRule) : bool :=
  negb (bool_decide (isActive rule = Some false))
  && isDateInRange metricDate (validFrom rule) (validTo rule).

Definition activeRules (metricDate : str) (rules : list ProductRule) : list ProductRule :=
  js_sort (fun a b => priority a - priority b) (List.filter (rule_active metricDate) rules).

(** The loop over the rules; [None] when a pattern throws. *)
Fixpoint first_match (nameKey : str) (rules : list ProductRule) : option (option ProductRule) :=
  match rules with
  | [] => Some None
  | rule :: rest =>
      b ← rule_matches nameKey rule;
      if (b : bool) then Some (Some rule) else first_match nameKey rest
  end.

Definition matchProduct (adsetName metricDate : str) (histories : list ManualProductHistory)
    (rules : list ProductRule) : option ProductMatchResult :=
  match List.find (history_covers metricDate) histories with
  | Some manual =>
      Some {| match_productId := Some (assigned manual); match_source := MANUAL;
              matchRuleId := None |}
  | None =>
      let nameKey := toKey adsetName in
      found ← first_match nameKey (activeRules metricDate rules);
      Some match found with
           | Some rule =>
               {| match_productId := Some (rule_productId rule); match_source := RULE;
                  matchRuleId := Some (rule_id rule) |}
           | None =>
               {| match_productId := None; match_source := UNMATCHED; matchRuleId := None |}
           end
  end.

Definition matchStage (adsetName metricDate : str) (histories : list ManualStageHistory)
    : StageMatchResult :=
  match List.find (history_covers metricDate) histories with
  | Some manual => {| match_stage := assigned manual; stage_source := MANUAL |}
  | None =>
      let key := toKey adsetName in
      if hasStageToken key (js "asc") then {| match_stage := ASC; stage_source := INFERRED |}
      else if hasStageToken key (js "cbo") then {| match_stage := CBO; stage_source := INFERRED |}
      else if hasStageToken key (js "sc") then {| match_stage := SC; stage_source := INFERRED |}
      else {| match_stage := UNKNOWN; stage_source := UNMATCHED |}
  end.
End matching.

(** ** creative-name-parser.ts *)

Inductive parse_status := PARSED | FALLBACK.

Record CreativeNameParts := {
  originalName : str;
  dateCode : option str;
  productName : option str;
  materialNo : option str;
  setting : option str;
  creativeKey : str;
  displayName : str;
  parseStatus : parse_status
}.

Section creative.
Context `{Icu}.

Definition SETTING_SUFFIXES : list str := [js "IG"; js "FB"; js "IG+FB"; js "FB+IG"].
Definition METHOD_TOKENS : list str := [js "인플연동"].

Definition isDatePrefix (value : option str) : bool :=
  match value with
  | Some v => between 4 4 v || between 6 6 v || between 8 8 v
  | None => false
  end.

Definition isSettingSuffix (value : option str) : bool :=
  match value with
  | Some v => truthy v && existsb (str_eqb (to_upper v)) SETTING_SUFFIXES
  | None => false
  end.

Definition isMethodToken (value : str) : bool :=
  truthy value && existsb (str_eqb value) METHOD_TOKENS.

Definition is_letter (c : N) : bool :=
  ((65 <=? c) && (c <=? 90) || (97 <=? c) && (c <=? 122))%N.

(** [/^[A-Z]?\d+$/i] or [/^\d+번소재$/i] *)
Definition isMaterialNo (value : option str) : bool :=
  match value with
  | None | Some [] => false
  | Some ((c :: r) as v) =>
      all_digits v || (is_letter c && truthy r && all_digits r)
      || (let '(d, rest) := span_digits v in truthy d && str_eqb rest (js "번소재"))
  end.

(** The non-empty parts of a name between underscores. *)
Definition name_parts (originalName : str) : list str :=
  List.filter truthy (map trim (split_on 95 originalName)).

Definition parse (adName : str) : CreativeNameParts :=
  let originalName := trim adName in
  let parts := name_parts originalName in
  let dated := isDatePrefix (head parts) in
  let dateCode := if dated then head parts else None in
  let parts := if dated then tail parts else parts in
  let suffixed := isSettingSuffix (last parts) in
  let setting := if suffixed then option_map to_upper (last parts) else None in
  let parts := if suffixed then removelast parts else parts in
  let method := List.find isMethodToken parts in
  let parts := List.filter (fun p => negb (isMethodToken p)) parts in
  let free_setting :=
    negb (bound_truthy setting) && bound_truthy dateCode && (3 <=? List.length parts)%nat
    && isMaterialNo (parts !! (List.length parts - 2)%nat)
    && negb (isMaterialNo (parts !! (List.length parts - 1)%nat)) in
  let setting := if free_setting then last parts else setting in
  let parts := if free_setting then removelast parts else parts in
  if (List.length parts <? 2)%nat then
    {| originalName := originalName; dateCode := dateCode;
       productName := Some (head parts ?? originalName); materialNo := None;
       setting := option_or setting method; creativeKey := originalName;
       displayName := originalName; parseStatus := FALLBACK |}
  else
    let materialNo := last parts in
    let productName := join (js "_") (removelast parts) in
    let creativeKey := productName ++ js "_" ++ (materialNo ?? []) in
    {| originalName := originalName; dateCode := dateCode; productName := Some productName;
       materialNo := materialNo; setting := option_or setting method;
       creativeKey := creativeKey; displayName := creativeKey; parseStatus := PARSED |}.
End creative.

(** ** Facts *)

Lemma iso_date_truthy t : 0 <= getUTCFullYear t <= 9999 -> truthy (iso_date t) = true.
Proof. intros H. by rewrite iso_date_eq, pad_4 by lia. Qed.

(** Comparing [YYYY-MM-DD] texts is comparing days: a day is in the range of
    two formatted days exactly when it lies between them. *)
Theorem isDateInRange_days t f u :
  let year t := 0 <= getUTCFullYear t <= 9999 in
  year t -> year f -> from_option year True u ->
  isDateInRange (iso_date t) (Some (iso_date f)) (iso_date <$> u)
  = (day f <=? day t) && from_option (fun u => day t <=? day u) true u.
Proof.
  intros year Ht Hf Hu. unfold isDateInRange. simpl.
  rewrite iso_date_truthy, iso_date_cmp by done. simpl. rewrite Z.leb_antisym.
  destruct (day t <? day f); simpl; [done|].
  destruct u as [u|]; simpl in *; [|done].
  rewrite iso_date_truthy, iso_date_cmp by done. simpl. rewrite Z.leb_antisym.
  by destruct (day u <? day t).
Qed.

Lemma isDateInRange_days_witness :
  isDateInRange (iso_date 86400000) (Some (iso_date 0)) (iso_date <$> Some 3456000000)
  = (day 0 <=? day 86400000) && (day 86400000 <=? day 3456000000).
Proof.
  apply (isDateInRange_days 86400000 0 (Some 3456000000)); simpl; split; by vm_compute.
Defined.

Section matching_facts.
Context `{Icu} `{RegExpEngine}.

Definition does_match (nameKey : str) (rule : ProductRule) : bool :=
  bool_decide (rule_matches nameKey rule = Some true).

Lemma first_match_find nameKey rules found :
  first_match nameKey rules = Some found -> found = List.find (does_match nameKey) rules.
Proof.
  unfold does_match. induction rules as [|rule rules IH]; simpl; [by intros [= <-]|].
  destruct (rule_matches nameKey rule) as [[]|]; simpl; [by intros [= <-]|exact IH|done].
Qed.

Lemma first_match_none nameKey rules :
  first_match nameKey rules = Some None ->
  forall rule, rule ∈ rules -> rule_matches nameKey rule = Some false.
Proof.
  induction rules as [|rule rules IH]; simpl; [intros _ ? []%elem_of_nil|].
  destruct (rule_matches nameKey rule) as [[]|] eqn:E; simpl; try done.
  intros Hn r [->|Hr]%elem_of_cons; [done|]. by apply IH.
Qed.

Lemma elem_of_activeRules metricDate rules rule :
  rule ∈ activeRules metricDate rules <-> rule ∈ rules /\ rule_active metricDate rule = true.
Proof. unfold activeRules. by rewrite elem_of_js_sort, elem_of_filterb. Qed.

(** The first matching rule of the sorted list has the smallest priority, and
    comes first in the given list among the matching rules of that priority. *)
Lemma find_activeRules p metricDate rules rule :
  List.find p (activeRules metricDate rules) = Some rule ->
  p rule = true
  /\ (forall r, r ∈ rules -> rule_active metricDate r = true -> p r = true ->
        priority rule <= priority r)
  /\ List.find (fun r => rule_active metricDate r && (p r && (priority r =? priority rule))) rules
     = Some rule.
Proof.
  intros F. pose proof F as (l1 & l2 & E & P & N)%find_some_iff. split; [done|]. split.
  - intros r Hr Ha Hp.
    assert (I : r ∈ activeRules metricDate rules) by by apply elem_of_activeRules.
    pose proof (js_sort_Sorted (fun a b => priority a - priority b)
                  (List.filter (rule_active metricDate) rules)) as S.
    fold (activeRules metricDate rules) in S. rewrite E in S, I.
    apply elem_of_app in I as [I|I]; [by rewrite N in Hp|].
    apply elem_of_cons in I as [->|I]; [lia|].
    clear E. induction l1 as [|x l1 IH]; simpl in S; inversion_clear S as [|? ? S1 S2].
    + rewrite Forall_forall in S2. specialize (S2 r I). simpl in S2. lia.
    + apply IH; [|done]. intros y Hy. apply N. by apply list_elem_of_further.
  - rewrite find_head_filter, <- filterb_and.
    rewrite <- (js_sort_stable (fun a b => priority a - priority b)).
    + rewrite <- find_head_filter. fold (activeRules metricDate rules). rewrite E.
      clear E F. induction l1 as [|x l1 IH]; simpl; [by rewrite P, Z.eqb_refl|].
      rewrite N by apply list_elem_of_here. simpl. apply IH.
      intros y Hy. apply N. by apply list_elem_of_further.
    + intros x y _ _ Hx Hy. bool_simpl. lia.
Qed.

(** An ad set is assigned by the first manual assignment that covers the
    day; without one, by the active rule that matches its name with the smallest
    priority (the first given among equals); and it is unmatched exactly when
    no active rule matches. *)
Theorem matchProduct_spec adsetName metricDate histories rules r :
  matchProduct adsetName metricDate histories rules = Some r ->
  let matches := does_match (toKey adsetName) in
  let active := rule_active metricDate in
  let uncovered := forall h, h ∈ histories -> history_covers metricDate h = false in
  match match_source r with
  | MANUAL =>
      exists h, List.find (history_covers metricDate) histories = Some h
                /\ match_productId r = Some (assigned h) /\ matchRuleId r = None
  | RULE =>
      uncovered /\ exists rule,
        match_productId r = Some (rule_productId rule) /\ matchRuleId r = Some (rule_id rule)
        /\ matches rule = true
        /\ (forall r', r' ∈ rules -> active r' = true -> matches r' = true ->
              priority rule <= priority r')
        /\ List.find (fun r' => active r' && (matches r' && (priority r' =? priority rule))) rules
           = Some rule
  | UNMATCHED =>
      uncovered /\ match_productId r = None /\ matchRuleId r = None
      /\ forall rule, rule ∈ rules -> active rule = true ->
           rule_matches (toKey adsetName) rule = Some false
  | INFERRED => False
  end.
Proof.
  unfold matchProduct. destruct (List.find (history_covers metricDate) histories) as [h|] eqn:Eh.
  { intros [= <-]. simpl. by exists h. }
  rewrite find_none_iff in Eh.
  destruct (first_match _ _) as [[rule|]|] eqn:F; simpl; [| |done]; intros [= <-]; simpl.
  - split; [done|]. exists rule. split; [done|]. split; [done|].
    apply first_match_find in F. by apply find_activeRules.
  - split; [done|]. split; [done|]. split; [done|]. intros rule Hr Ha.
    apply (first_match_none _ _ F). by apply elem_of_activeRules.
Qed.
End matching_facts.

Lemma matchProduct_spec_witness :
  let rule i p q := {| rule_id := js i; rule_productId := js i; matchType := CONTAINS;
                       pattern := js p; patternKey := None; priority := q; validFrom := None;
                       validTo := None; isActive := None |} in
  let rules := [rule "a" "sho" 2; rule "b" "shoe" 1; rule "c" "hat" 0]%string in
  let run := @matchProduct c_locale (fun _ _ => None) (js "Red  SHOE cbo") (js "2026-01-01") [] rules in
  match run with
  | Some r => match_productId r = Some (js "b") /\ exists rule, matchRuleId r = Some (rule_id rule)
  | None => False
  end.
Proof.
  intros rule rules run.
  pose proof (@matchProduct_spec c_locale (fun _ _ => None) (js "Red  SHOE cbo") (js "2026-01-01")
                [] rules) as S.
  fold run in S. destruct run as [r|] eqn:E; [|vm_compute in E; discriminate E].
  specialize (S r eq_refl). vm_compute in E. injection E as <-.
  destruct S as (_ & rl & _ & R & _). split; [reflexivity|]. by exists rl.
Defined.

(** ** Stages *)

(** [token] occurs in [s] between separators or ends; [prev] tells whether the
    text before [s] ends at a boundary. *)
Definition occurs (prev : bool) (token s : str) : Prop :=
  exists a b, s = a ++ token ++ b /\ from_option is_separator prev (last a) = true
              /\ at_boundary b = true.

Lemma token_from_occurs prev token s : token_from prev token s = true <-> occurs prev token s.
Proof.
  revert prev. induction s as [|c s IH]; intros prev; unfold occurs in *; simpl token_from.
  - rewrite orb_false_r, !andb_true_iff, starts_with_iff. split.
    + intros [[P [b E]] B]. exists [], b. symmetry in E. apply app_nil in E as [-> ->]. done.
    + intros (a & b & E & P & B). symmetry in E. apply app_nil in E as [-> E].
      apply app_nil in E as [-> ->]. simpl in *. split; [|done]. split; [done|by exists []].
  - rewrite orb_true_iff, !andb_true_iff, starts_with_iff, IH. split.
    + intros [[[P [b E]] B]|(a & b & E & P & B)].
      * exists [], b. rewrite E, skipn_app, skipn_all, Nat.sub_diag in B. simpl in B. done.
      * exists (c :: a), b. rewrite E. split; [done|]. split; [|done].
        rewrite last_cons. by destruct (last a).
    + intros (a & b & E & P & B). destruct a as [|d a]; simpl in E.
      * left. split; [split; [done|by exists b]|]. rewrite E, skipn_app, skipn_all, Nat.sub_diag. done.
      * right. injection E as -> ->. exists a, b. split; [done|]. split; [|done].
        rewrite last_cons in P. by destruct (last a).
Qed.

(** Without a manual stage the name decides: ASC when it holds the token
    [asc] between separators, else CBO for [cbo], else SC for [sc], else
    unknown; a manual stage that covers the day wins. *)
Theorem matchStage_spec `{Icu} adsetName metricDate histories :
  let key := map ascii_lower (toKey adsetName) in
  let has token := occurs true (js token) key in
  let r := matchStage adsetName metricDate histories in
  match List.find (history_covers metricDate) histories with
  | Some h => match_stage r = assigned h /\ stage_source r = MANUAL
  | None =>
      (match_stage r = ASC <-> has "asc"%string)
      /\ (match_stage r = CBO <-> ~ has "asc"%string /\ has "cbo"%string)
      /\ (match_stage r = SC <-> ~ has "asc"%string /\ ~ has "cbo"%string /\ has "sc"%string)
      /\ (stage_source r = INFERRED <-> match_stage r <> UNKNOWN)
  end.
Proof.
  intros key has r. unfold r, matchStage, has, hasStageToken.
  destruct (List.find (history_covers metricDate) histories); [done|]. fold key.
  rewrite <- !token_from_occurs.
  destruct (token_from true (js "asc") key), (token_from true (js "cbo") key),
    (token_from true (js "sc") key); simpl; naive_solver.
Qed.

(** ** Creative names *)

Lemma removelast_last {A} (l : list A) x : last l = Some x -> l = removelast l ++ [x].
Proof.
  intros E. apply last_Some in E as [l' ->]. by rewrite List.removelast_last.
Qed.

Lemma join_snoc sep l x : l <> [] -> join sep (l ++ [x]) = join sep l ++ sep ++ x.
Proof.
  intros Hl. induction l as [|y l IH]; [done|]. destruct l as [|z l]; [done|].
  cbn [app join] in *. rewrite <- !app_assoc. do 2 f_equal. apply IH. done.
Qed.

Definition option_list {A} (x : option A) : list A := match x with Some a => [a] | None => [] end.

(** Splitting off the last part, when [b] says so. *)
Lemma split_last {A} (b : bool) (l : list A) :
  (b = true -> l <> []) ->
  exists suffix, l = (if b then removelast l else l) ++ suffix
                 /\ suffix = (if b then option_list (last l) else [])
                 /\ (List.length suffix <= 1)%nat.
Proof.
  destruct b; intros Hl; [|exists []; rewrite app_nil_r; simpl; auto with lia].
  destruct (last l) as [x|] eqn:E; [|apply last_None in E; by specialize (Hl eq_refl)].
  exists [x]. split; [by apply removelast_last|]. simpl. auto with lia.
Qed.

Lemma split_first {A} (b : bool) (l : list A) :
  (b = true -> l <> []) ->
  l = option_list (if b then head l else None) ++ (if b then tail l else l).
Proof. destruct b; [|done]. destruct l; intros Hl; [destruct (Hl eq_refl eq_refl)|done]. Qed.

(** A parsed name loses no part: in order, its parts are the date, if it
    has one, then the parts of the key with the method tokens among them, then
    the setting; the key is the product and the material joined by an
    underscore. *)
Theorem parse_parts `{Icu} adName :
  let p := parse adName in
  parseStatus p = PARSED ->
  exists core product material free suffix,
    name_parts (trim adName) = option_list (dateCode p) ++ core ++ suffix
    /\ List.filter (fun x => negb (isMethodToken x)) core = product ++ [material] ++ free
    /\ product <> [] /\ productName p = Some (join (js "_") product)
    /\ materialNo p = Some material
    /\ creativeKey p = join (js "_") (product ++ [material])
    /\ (List.length suffix <= 1)%nat /\ (List.length free <= 1)%nat
    /\ (free = [] -> setting p = option_or (to_upper <$> head suffix) (List.find isMethodToken core))
    /\ (forall s, free = [s] -> setting p = Some s).
Proof.
  unfold parse. set (all := name_parts (trim adName)).
  set (dated := isDatePrefix (head all)). cbv zeta.
  pose proof (split_first dated all) as Hall.
  set (rest := if dated then tail all else all) in *.
  set (suffixed := isSettingSuffix (last rest)).
  destruct (split_last suffixed rest) as (suffix & Hrest & Hs & Ls).
  { unfold suffixed. intros S ->. done. }
  set (core := if suffixed then removelast rest else rest) in *.
  set (named := List.filter (fun p => negb (isMethodToken p)) core).
  set (fs := _ && negb (isMaterialNo _)).
  destruct (split_last fs named) as (free & Hn & Hf & Lf).
  { unfold fs. intros F E. rewrite E in F. simpl in F. by rewrite andb_false_r in F. }
  set (kept := if fs then removelast named else named) in *.
  destruct (List.length kept <? 2)%nat eqn:K; simpl; [done|]. intros _.
  apply Nat.ltb_ge in K.
  destruct (last kept) as [material|] eqn:Em; [|apply last_None in Em; rewrite Em in K; simpl in K; lia].
  pose proof (removelast_last _ _ Em) as Ek.
  assert (Hp : removelast kept <> []) by (intros E; rewrite Ek, E in K; simpl in K; lia).
  exists core, (removelast kept), material, free, suffix.
  split.
  { rewrite <- Hrest. apply Hall. unfold dated. intros D E. by rewrite E in D. }
  split. { change (named = removelast kept ++ [material] ++ free). by rewrite app_assoc, <- Ek. }
  split; [done|]. split; [done|]. split; [done|].
  split. { simpl. by rewrite join_snoc. }
  split; [done|]. split; [done|]. destruct fs eqn:Efs; rewrite Hf.
  - destruct (last named) as [s|] eqn:El; simpl; [naive_solver|].
    apply last_None in El. unfold fs in Efs. rewrite El in Efs.
    simpl in Efs. by rewrite andb_false_r in Efs.
  - split; [|done]. intros _. rewrite Hs. by destruct suffixed, (last rest).
Qed.

Lemma parse_parts_witness :
  let p := @parse c_locale (js "260101_인플연동_Shoe_A1_ig") in
  creativeKey p = js "Shoe_A1" /\ setting p = Some (js "IG")
  /\ exists material, materialNo p = Some material.
Proof.
  intros p. pose proof (@parse_parts c_locale (js "260101_인플연동_Shoe_A1_ig")) as S.
  cbv zeta in S. fold p in S.
  destruct (S ltac:(vm_compute; reflexivity)) as (core & product & material & free & suffix & R).
  split; [vm_compute; reflexivity|]. split; [vm_compute; reflexivity|].
  exists material. apply R.
Defined.
