(* ===== verification/Decision.v ===== *)
(** * Decisions on products, ad sets and stages

    Models [apps/api/src/domain/decision-classifier.ts],
    [apps/api/src/domain/duplicate-policy.ts] and the composition of the logs in
    [apps/api/src/decisions/decisions.service.ts] ([run], [toLogs]). *)

From S2P Require Import Prelude JsNumber SafeInteger JsString DateNumber Metrics Matching.

Local Open Scope Z_scope.

(** ** decision-classifier.ts *)

Inductive DecisionTypeValue :=
  | SCALE | KEEP | WATCH | STOP_CANDIDATE | SC_TO_CBO | CBO_TO_ASC | SC_TO_ASC | ASC_TO_SC
  | PROFIT | LOSS.

Inductive scope_type := OVERALL | PRODUCT | ADSET | STAGE.

#[export] Instance DecisionTypeValue_eq : EqDecision DecisionTypeValue.
Proof. solve_decision. Defined.
#[export] Instance scope_type_eq : EqDecision scope_type.
Proof. solve_decision. Defined.

Record DecisionInput := {
  scopeType : option scope_type;
  stage : AdStageValue;
  purchaseCount : num;
  spendKrw : num;
  cpaKrw : option num;
  marginKrw : option num;
  dataDays : num;
  ctrLinkPct : option num;
  landingPageViews : num;
  breakEvenCpaKrw : option num;
  targetCpaKrw : option num;
  watchCpaKrw : option num;
  stopCpaKrw : option num;
  goodCtrLinkPct : num;
  goodLandingPageViewCount : num
}.

Record ClassifiedDecision := {
  decision : DecisionTypeValue;
  severity : Z;
  reason : str;
  recommendedAction : str
}.

(** [x !== null && y !== null && p(x, y)] and the like. *)
Definition with_1 (x : option num) (p : num -> bool) : bool :=
  match x with Some a => p a | None => false end.
Definition with_2 (x y : option num) (p : num -> num -> bool) : bool :=
  with_1 x (fun a => with_1 y (p a)).

Definition is_stage (s : AdStageValue) (input : DecisionInput) : bool :=
  bool_decide (stage input = s).

Definition profit_or_loss (input : DecisionInput) : list ClassifiedDecision :=
  if bool_decide (scopeType input = Some OVERALL) || bool_decide (scopeType input = Some PRODUCT) then
    match marginKrw input with
    | None => []
    | Some m =>
        [if nltb (ofZ 0) m then
           {| decision := PROFIT; severity := 1;
              reason := js "선택 기간 마진이 0보다 큽니다.";
              recommendedAction := js "현재 수익 구조를 유지하며 확장 후보를 검토하세요." |}
         else
           {| decision := LOSS; severity := 3;
              reason := js "선택 기간 마진이 0보다 작습니다.";
              recommendedAction := js "원가 기준과 광고 지출을 함께 점검하세요." |}]
    end
  else [].

Definition cpa_band (input : DecisionInput) : list ClassifiedDecision :=
  match targetCpaKrw input, cpaKrw input, marginKrw input with
  | Some target, Some cpa, Some m =>
      if negb (nltb (ofZ 0) (purchaseCount input)) then []
      else if nleb cpa target && nltb (ofZ 0) m then
        [{| decision := SCALE; severity := 1;
            reason := js "구매가 있고 CPA가 목표 CPA 이내이며 마진이 양수입니다.";
            recommendedAction := js "예산 증액 후보로 검토하세요." |}]
      else if with_1 (breakEvenCpaKrw input) (fun be => nltb target cpa && nleb cpa be)
              && nleb (ofZ 0) m then
        [{| decision := KEEP; severity := 1;
            reason := js "구매가 있고 CPA가 손익분기 CPA 이내이며 마진이 음수가 아닙니다.";
            recommendedAction := js "현재 운영을 유지하며 추이를 관찰하세요." |}]
      else if with_2 (breakEvenCpaKrw input) (watchCpaKrw input)
                (fun be w => nltb be cpa && nleb cpa w) && nleb (ofZ 0) m then
        [{| decision := WATCH; severity := 2;
            reason := js "구매가 있지만 CPA가 손익분기 CPA를 넘어 관찰 CPA 범위에 있습니다.";
            recommendedAction := js "소재와 타겟을 점검하고 다음 데이터 일자에서 재평가하세요." |}]
      else []
  | _, _, _ => []
  end.

Definition no_purchase_signal (input : DecisionInput) : list ClassifiedDecision :=
  if is_stage SC input && neqb (purchaseCount input) (ofZ 0)
     && with_1 (stopCpaKrw input) (fun stop => nltb (spendKrw input) stop)
     && (nleb (goodCtrLinkPct input) (ctrLinkPct input ?? ofZ 0)
         || nleb (goodLandingPageViewCount input) (landingPageViews input))
  then [{| decision := WATCH; severity := 2;
           reason := js "SC 단계에서 구매는 없지만 지출이 중단 후보 CPA 미만이고 클릭/랜딩 신호가 있습니다.";
           recommendedAction := js "테스트를 유지하고 다음 데이터 일자에서 재평가하세요." |}]
  else [].

Definition stopByNoPurchase (input : DecisionInput) : bool :=
  neqb (purchaseCount input) (ofZ 0)
  && with_1 (stopCpaKrw input) (fun stop => nleb stop (spendKrw input)).
Definition stopByCpa (input : DecisionInput) : bool :=
  nltb (ofZ 0) (purchaseCount input)
  && with_2 (cpaKrw input) (stopCpaKrw input) (fun cpa stop => nltb stop cpa).
Definition stopByMargin (input : DecisionInput) : bool :=
  with_1 (marginKrw input) (fun m => nltb m (ofZ 0)) && nleb (ofZ 2) (dataDays input).

Definition stop_candidate (input : DecisionInput) : list ClassifiedDecision :=
  if stopByNoPurchase input || stopByCpa input || stopByMargin input
  then [{| decision := STOP_CANDIDATE; severity := 3;
           reason := js "중단 후보 조건에 도달했습니다.";
           recommendedAction := js "중단 또는 예산 축소 후보로 변경 로그에 기록하세요." |}]
  else [].

Definition sc_to_cbo (input : DecisionInput) : list ClassifiedDecision :=
  if is_stage SC input && nleb (ofZ 1) (purchaseCount input)
     && with_2 (cpaKrw input) (breakEvenCpaKrw input) nleb
  then [{| decision := SC_TO_CBO; severity := 1;
           reason := js "SC 단계에서 구매가 있고 CPA가 손익분기 CPA 이내입니다.";
           recommendedAction := js "CBO 전환 후보로 검토하세요." |}]
  else [].

Definition sc_to_asc (input : DecisionInput) : list ClassifiedDecision :=
  if is_stage SC input && nleb (ofZ 2) (purchaseCount input)
     && with_2 (cpaKrw input) (targetCpaKrw input) nleb
     && nltb (ofZ 0) (marginKrw input ?? ofZ 0)
  then [{| decision := SC_TO_ASC; severity := 1;
           reason := js "SC 단계에서 구매 2건 이상, 목표 CPA 이내, 양수 마진입니다.";
           recommendedAction := js "ASC 전환 후보로 검토하세요." |}]
  else [].

Definition cbo_to_asc (input : DecisionInput) : list ClassifiedDecision :=
  if is_stage CBO input && nleb (ofZ 2) (dataDays input) && nleb (ofZ 2) (purchaseCount input)
     && with_2 (cpaKrw input) (breakEvenCpaKrw input) nleb
     && nltb (ofZ 0) (marginKrw input ?? ofZ 0)
  then [{| decision := CBO_TO_ASC; severity := 1;
           reason := js "CBO 단계에서 2일 이상 데이터, 구매 2건 이상, 손익분기 CPA 이내, 양수 마진입니다.";
           recommendedAction := js "ASC 전환 후보로 검토하세요." |}]
  else [].

Definition asc_to_sc (input : DecisionInput) : list ClassifiedDecision :=
  if is_stage ASC input && nleb (ofZ 2) (dataDays input)
     && (with_2 (cpaKrw input) (stopCpaKrw input) (fun cpa stop => nltb stop cpa)
         || nltb (marginKrw input ?? ofZ 0) (ofZ 0))
  then [{| decision := ASC_TO_SC; severity := 3;
           reason := js "ASC 단계에서 CPA 급등 또는 마진 악화가 확인되었습니다.";
           recommendedAction := js "SC 재테스트 또는 구조 변경 후보로 검토하세요." |}]
  else [].

Definition classify (input : DecisionInput) : list ClassifiedDecision :=
  profit_or_loss input ++ cpa_band input ++ no_purchase_signal input ++ stop_candidate input
  ++ sc_to_cbo input ++ sc_to_asc input ++ cbo_to_asc input ++ asc_to_sc input.

Definition decided (input : DecisionInput) : list DecisionTypeValue := map decision (classify input).

(** ** duplicate-policy.ts *)

Inductive ConflictPolicyValue := SKIP | OVERWRITE | NEW_VERSION.

Record DuplicateDecision := { importMetric : bool; supersedeExisting : bool; note : str }.

Definition resolve_duplicate (policy : ConflictPolicyValue) (hasCurrentMetric : bool)
    : DuplicateDecision :=
  if negb hasCurrentMetric then
    {| importMetric := true; supersedeExisting := false;
       note := js "No duplicate current metric found." |}
  else match policy with
  | SKIP => {| importMetric := false; supersedeExisting := false;
               note := js "Existing current metric kept by SKIP policy." |}
  | _ =>
      {| importMetric := true; supersedeExisting := true;
         note := match policy with
                 | NEW_VERSION =>
                     js "NEW_VERSION stores the new row as current and preserves the previous current row."
                 | _ => js "OVERWRITE stores the new row as current and supersedes the previous current row."
                 end |}
  end.

(** ** Facts about the classifier *)

Definition opt (b : bool) (d : DecisionTypeValue) : list DecisionTypeValue := if b then [d] else [].

(** What each block may decide. *)
Lemma profit_or_loss_cases input :
  map decision (profit_or_loss input) ∈ [[]; [PROFIT]; [LOSS]].
Proof. unfold profit_or_loss. repeat case_match; simpl; set_solver. Qed.

Lemma cpa_band_cases input :
  map decision (cpa_band input) = []
  \/ (nltb (ofZ 0) (purchaseCount input) = true
      /\ map decision (cpa_band input) ∈ [[SCALE]; [KEEP]; [WATCH]]).
Proof.
  unfold cpa_band. repeat case_match; simpl; auto; right; bool_simpl; (split; [done|set_solver]).
Qed.

Ltac block_case :=
  match goal with
  | |- exists b, map decision (if ?c then _ else _) = _ => exists c; by destruct c
  end.

Lemma no_purchase_signal_cases input :
  exists b, map decision (no_purchase_signal input) = opt (b && neqb (purchaseCount input) (ofZ 0)) WATCH.
Proof.
  unfold no_purchase_signal.
  match goal with
  | |- exists b, map decision (if ?c then _ else _) = _ => exists c; destruct c eqn:E; [|done]
  end.
  bool_simpl. destruct E as (((_ & ->) & _) & _). done.
Qed.

Lemma stop_candidate_case input :
  map decision (stop_candidate input)
  = opt (stopByNoPurchase input || stopByCpa input || stopByMargin input) STOP_CANDIDATE.
Proof. unfold stop_candidate. by case_match. Qed.

Lemma sc_to_cbo_case input : exists b, map decision (sc_to_cbo input) = opt b SC_TO_CBO.
Proof. unfold sc_to_cbo. block_case. Qed.
Lemma sc_to_asc_case input : exists b, map decision (sc_to_asc input) = opt b SC_TO_ASC.
Proof. unfold sc_to_asc. block_case. Qed.
Lemma cbo_to_asc_case input : exists b, map decision (cbo_to_asc input) = opt b CBO_TO_ASC.
Proof. unfold cbo_to_asc. block_case. Qed.
Lemma asc_to_sc_case input : exists b, map decision (asc_to_sc input) = opt b ASC_TO_SC.
Proof. unfold asc_to_sc. block_case. Qed.

(** The decisions of an input, block by block. *)
Lemma decided_blocks input :
  exists p c w b1 b2 b3 b4 b5,
    decided input = p ++ c ++ opt w WATCH ++ opt b1 STOP_CANDIDATE ++ opt b2 SC_TO_CBO
                    ++ opt b3 SC_TO_ASC ++ opt b4 CBO_TO_ASC ++ opt b5 ASC_TO_SC
    /\ p ∈ [[]; [PROFIT]; [LOSS]]
    /\ c = map decision (cpa_band input)
    /\ (c = [] \/ (c ∈ [[SCALE]; [KEEP]; [WATCH]] /\ w = false))
    /\ (w = true -> neqb (purchaseCount input) (ofZ 0) = true)
    /\ b1 = (stopByNoPurchase input || stopByCpa input || stopByMargin input).
Proof.
  destruct (no_purchase_signal_cases input) as [w Ew].
  destruct (sc_to_cbo_case input) as [b2 E2], (sc_to_asc_case input) as [b3 E3],
    (cbo_to_asc_case input) as [b4 E4], (asc_to_sc_case input) as [b5 E5].
  exists (map decision (profit_or_loss input)), (map decision (cpa_band input)),
    (w && neqb (purchaseCount input) (ofZ 0)),
    (stopByNoPurchase input || stopByCpa input || stopByMargin input), b2, b3, b4, b5.
  split; [unfold decided, classify; by rewrite !map_app, Ew, stop_candidate_case, E2, E3, E4, E5|].
  split; [apply profit_or_loss_cases|]. split; [done|]. split.
  - destruct (cpa_band_cases input) as [E|[P C]]; [by left|right]. split; [done|].
    replace (neqb (purchaseCount input) (ofZ 0)) with false; [apply andb_false_r|].
    symmetry. revert P. num_order.
  - split; [|done]. by intros [_ ?]%andb_true_iff.
Qed.

Definition severity_of (d : DecisionTypeValue) : Z :=
  match d with
  | LOSS | STOP_CANDIDATE | ASC_TO_SC => 3
  | WATCH => 2
  | _ => 1
  end.

Lemma classify_severity input :
  Forall (fun d => severity d = severity_of (decision d)) (classify input).
Proof.
  unfold classify, profit_or_loss, cpa_band, no_purchase_signal, stop_candidate, sc_to_cbo,
    sc_to_asc, cbo_to_asc, asc_to_sc.
  repeat (apply Forall_app; split); repeat case_match; repeat constructor.
Qed.

(** No decision is taken twice for one input, at most one of SCALE, KEEP and
    WATCH is taken, at most one of PROFIT and LOSS, and the severity of a decision
    is determined by its type. *)
Theorem classify_exclusive input :
  NoDup (decided input)
  /\ (List.length (List.filter (fun d => bool_decide (d ∈ [SCALE; KEEP; WATCH])) (decided input)) <= 1)%nat
  /\ (List.length (List.filter (fun d => bool_decide (d ∈ [PROFIT; LOSS])) (decided input)) <= 1)%nat
  /\ Forall (fun d => severity d = severity_of (decision d)) (classify input).
Proof.
  cut (NoDup (decided input)
    /\ (List.length (List.filter (fun d => bool_decide (d ∈ [SCALE; KEEP; WATCH])) (decided input)) <= 1)%nat
    /\ (List.length (List.filter (fun d => bool_decide (d ∈ [PROFIT; LOSS])) (decided input)) <= 1)%nat).
  { intros (N & A & B). pose proof (classify_severity input). done. }
  destruct (decided_blocks input) as (p & c & w & b1 & b2 & b3 & b4 & b5 & -> & Hp & _ & Hc & _).
  rewrite !list_elem_of_In in Hp. simpl in Hp.
  assert (Hc' : c = [] \/ (w = false /\ (c = [SCALE] \/ c = [KEEP] \/ c = [WATCH]))).
  { destruct Hc as [|[Hc ->]]; [by left|right]. rewrite list_elem_of_In in Hc. simpl in Hc.
    split; [done|]. naive_solver. }
  clear Hc.
  assert (D : forall l, bool_decide (NoDup l
      /\ (List.length (List.filter (fun d => bool_decide (d ∈ [SCALE; KEEP; WATCH])) l) <= 1)%nat
      /\ (List.length (List.filter (fun d => bool_decide (d ∈ [PROFIT; LOSS])) l) <= 1)%nat) = true ->
    NoDup l
      /\ (List.length (List.filter (fun d => bool_decide (d ∈ [SCALE; KEEP; WATCH])) l) <= 1)%nat
      /\ (List.length (List.filter (fun d => bool_decide (d ∈ [PROFIT; LOSS])) l) <= 1)%nat)
    by (intros l; apply bool_decide_eq_true_1).
  apply D. destruct Hc' as [->|[-> [->|[->| ->]]]]; destruct Hp as [<-|[<-|[<-|[]]]];
    destruct b1, b2, b3, b4, b5; try destruct w; vm_compute; reflexivity.
Qed.

Lemma elem_of_opt d b d' : d ∈ opt b d' <-> d = d' /\ b = true.
Proof. destruct b; simpl; rewrite ?list_elem_of_singleton, ?elem_of_nil; naive_solver. Qed.

(** SCALE and KEEP come from the CPA band only, STOP_CANDIDATE from its own rule. *)
Lemma elem_of_decided input d :
  d ∈ decided input ->
  d ∈ map decision (profit_or_loss input)
  \/ d ∈ map decision (cpa_band input)
  \/ (d = WATCH /\ neqb (purchaseCount input) (ofZ 0) = true)
  \/ (d = STOP_CANDIDATE
      /\ stopByNoPurchase input || stopByCpa input || stopByMargin input = true)
  \/ d ∈ [SC_TO_CBO; SC_TO_ASC; CBO_TO_ASC; ASC_TO_SC].
Proof.
  destruct (no_purchase_signal_cases input) as [w Ew].
  destruct (sc_to_cbo_case input) as [b2 E2], (sc_to_asc_case input) as [b3 E3],
    (cbo_to_asc_case input) as [b4 E4], (asc_to_sc_case input) as [b5 E5].
  unfold decided, classify. rewrite !map_app, Ew, stop_candidate_case, E2, E3, E4, E5.
  rewrite !elem_of_app, !elem_of_opt, andb_true_iff. set_solver.
Qed.

Lemma cpa_band_decided input d : d ∈ map decision (cpa_band input) -> d ∈ decided input.
Proof. unfold decided, classify. rewrite !map_app, !elem_of_app. auto. Qed.

Lemma profit_or_loss_type input d :
  d ∈ map decision (profit_or_loss input) -> d = PROFIT \/ d = LOSS.
Proof.
  pose proof (profit_or_loss_cases input) as C. rewrite list_elem_of_In in C. simpl in C.
  destruct C as [<-|[<-|[<-|[]]]]; list_cases.
Qed.

Lemma scale_in_band input :
  SCALE ∈ decided input ->
  exists target cpa m, targetCpaKrw input = Some target /\ cpaKrw input = Some cpa
    /\ marginKrw input = Some m /\ nltb (ofZ 0) (purchaseCount input) = true
    /\ nleb cpa target = true /\ nltb (ofZ 0) m = true.
Proof.
  intros [[H|H]%profit_or_loss_type|[H|[[H _]|[[H _]|H]]]]%elem_of_decided; try done; [|list_cases].
  unfold cpa_band in H.
  destruct (targetCpaKrw input) as [target|] eqn:Et, (cpaKrw input) as [cpa|] eqn:Ec,
    (marginKrw input) as [m|] eqn:Em; try (by apply elem_of_nil in H).
  destruct (nltb (ofZ 0) (purchaseCount input)) eqn:P; simpl in H; [|by apply elem_of_nil in H].
  destruct (nleb cpa target && nltb (ofZ 0) m) eqn:C.
  - apply andb_true_iff in C as [C M]. exists target, cpa, m. done.
  - repeat case_match; list_cases.
Qed.

(** Scaling up and stopping are never advised together, as long as the stop
    CPA is not below the target CPA. *)
Theorem scale_excludes_stop input target stop :
  targetCpaKrw input = Some target -> stopCpaKrw input = Some stop -> nleb target stop = true ->
  SCALE ∈ decided input -> STOP_CANDIDATE ∉ decided input.
Proof.
  intros Et Es L (target' & cpa & m & Et' & Ec & Em & P & C & M)%scale_in_band D.
  apply elem_of_decided in D as [[H|H]%profit_or_loss_type|[H|[[H _]|[[_ H]|H]]]];
    try done; [| |list_cases].
  - unfold cpa_band in H. repeat case_match; simpl in H; list_cases.
  - simplify_eq. unfold stopByNoPurchase, stopByCpa, stopByMargin, with_2, with_1 in H.
    rewrite Es, Ec, Em, P in H.
    replace (neqb (purchaseCount input) (ofZ 0)) with false in H by (symmetry; revert P; num_order).
    replace (nltb stop cpa) with false in H by (symmetry; revert L C; num_order).
    replace (nltb m (ofZ 0)) with false in H by (symmetry; revert M; num_order). done.
Qed.

Lemma scale_excludes_stop_witness :
  let input := {| scopeType := Some ADSET; stage := SC; purchaseCount := ofZ 3; spendKrw := ofZ 3000;
                  cpaKrw := Some (ofZ 1000); marginKrw := Some (ofZ 500); dataDays := ofZ 3;
                  ctrLinkPct := None; landingPageViews := ofZ 0; breakEvenCpaKrw := Some (ofZ 2000);
                  targetCpaKrw := Some (ofZ 1500); watchCpaKrw := None;
                  stopCpaKrw := Some (ofZ 2500); goodCtrLinkPct := ofZ 1;
                  goodLandingPageViewCount := ofZ 3 |} in
  decided input = [SCALE; SC_TO_CBO; SC_TO_ASC] /\ STOP_CANDIDATE ∉ decided input.
Proof.
  intros input. split; [reflexivity|].
  apply (scale_excludes_stop input (ofZ 1500) (ofZ 2500)); [reflexivity..|].
  vm_compute. apply list_elem_of_here.
Defined.

(** The CPA band when there are purchases and every amount is known. *)
Lemma cpa_band_known input target cpa m be :
  targetCpaKrw input = Some target -> cpaKrw input = Some cpa -> marginKrw input = Some m ->
  breakEvenCpaKrw input = Some be -> nltb (ofZ 0) (purchaseCount input) = true ->
  isNaN target = false -> isNaN cpa = false ->
  (nleb cpa be = nleb (ofZ 0) m -> WATCH ∉ map decision (cpa_band input))
  /\ (nltb (ofZ 0) m = true -> nleb cpa be = true ->
        map decision (cpa_band input) = [if nleb cpa target then SCALE else KEEP])
  /\ (nleb (ofZ 0) m = false -> map decision (cpa_band input) = []).
Proof.
  intros Et Ec Em Eb P Nt Nc. unfold cpa_band, with_2, with_1. rewrite Et, Ec, Em, Eb, P. simpl.
  split; [|split].
  - intros E. destruct (nleb cpa target && nltb (ofZ 0) m); [list_cases|].
    destruct (nltb target cpa && nleb cpa be && nleb (ofZ 0) m); [list_cases|].
    destruct (watchCpaKrw input) as [wc|]; [|list_cases].
    destruct (nltb be cpa && nleb cpa wc && nleb (ofZ 0) m) eqn:W; [|list_cases].
    exfalso. bool_simpl. destruct W as [[W _] M]. rewrite <- E in M.
    revert W M. num_order.
  - intros M B. rewrite M, B, (nltb_nleb _ _ M). simpl. destruct (nleb cpa target) eqn:T; simpl; [done|].
    replace (nltb target cpa) with true; [done|].
    symmetry. revert T. rewrite nleb_nltb by done. by intros ->%negb_false_iff.
  - intros M.
    replace (nltb (ofZ 0) m) with false by (symmetry; revert M; num_order).
    rewrite M, !andb_false_r. by destruct (watchCpaKrw input).
Qed.

(** SCALE and KEEP come from the CPA band alone. *)
Lemma decided_in_band input d : d = SCALE \/ d = KEEP ->
  d ∈ decided input <-> d ∈ map decision (cpa_band input).
Proof.
  intros D. split; [|apply cpa_band_decided].
  intros [[H|H]%profit_or_loss_type|[H|[[H _]|[[H _]|H]]]]%elem_of_decided; try done;
    destruct D; subst; try done; list_cases.
Qed.

(** C38: for a product whose period is costed by one rule of whole amounts, a
    purchase decides as the margin does: with a positive margin the decision is
    SCALE exactly when the CPA is within the target and KEEP exactly when it is
    above it, with a negative one neither is taken, and WATCH is never taken,
    since a CPA above break-even means a negative margin. *)
Theorem purchase_decision price vat product shipping extra n spend metrics cpaRule input target :
  0 <= price -> 0 <= vat -> 0 <= product -> 0 <= shipping -> 0 <= extra -> 0 < n -> 0 <= spend ->
  (n + 1) * (price + vat + product + shipping + extra) + n + spend < 2 ^ 53 ->
  Margin.purchaseCount metrics = ofZ n ->
  nmul (Margin.spendUsd metrics) (Margin.exchangeRateKrwPerUsd metrics) = ofZ spend ->
  let cost := Margin.whole_cost price vat product shipping extra in
  let m := Margin.margin metrics cost in
  let t := Margin.thresholds cost cpaRule in
  let profit := n * (price - vat - product - shipping - extra) - spend in
  purchaseCount input = ofZ n -> cpaKrw input = Margin.cpaKrw m ->
  marginKrw input = Some (Margin.marginKrw m) ->
  breakEvenCpaKrw input = Margin.breakEvenCpaKrw t ->
  targetCpaKrw input = Some target -> isNaN target = false ->
  WATCH ∉ decided input
  /\ (0 < profit -> exists cpa, Margin.cpaKrw m = Some cpa
        /\ (SCALE ∈ decided input <-> nleb cpa target = true)
        /\ (KEEP ∈ decided input <-> nltb target cpa = true))
  /\ (profit < 0 -> SCALE ∉ decided input /\ KEEP ∉ decided input).
Proof.
  intros H1 H2 H3 H4 H5 Hn Hs Hb En Es cost m t profit Ip Ic Im Ib It Nt.
  destruct (Margin.margin_break_even price vat product shipping extra n spend metrics cpaRule)
    as (_ & Eb & Em & Ecpa); try assumption; try lia. fold cost m t in Eb, Em, Ecpa.
  rewrite Eb in Ib. rewrite Em in Im. fold profit in Im, Ecpa.
  destruct (Margin.cpaKrw m) as [cpa|]; [|lia]. destruct Ecpa as [_ Ecpa].
  assert (Sp : safe profit) by (unfold safe, profit; nia).
  assert (Sn : safe n) by (unfold safe; nia).
  assert (S0 : safe 0) by (unfold safe; lia).
  assert (P : nltb (ofZ 0) (purchaseCount input) = true) by (rewrite Ip, nltb_ofZ by done; lia).
  destruct Ecpa as [Fc Ecpa]. apply isFinite_isNaN in Fc.
  destruct (cpa_band_known input target cpa (ofZ profit) _ It Ic Im Ib P Nt Fc) as (B1 & B2 & B3).
  rewrite !nleb_ofZ, !nltb_ofZ in * by done.
  split; [|split].
  - intros [[H|H]%profit_or_loss_type|[H|[[_ H]|[[H _]|H]]]]%elem_of_decided; try done; [| |list_cases].
    + by apply B1.
    + rewrite Ip, neqb_ofZ in H by done. lia.
  - intros Hp. assert (E : map decision (cpa_band input) = [if nleb cpa target then SCALE else KEEP])
      by (apply B2; [|rewrite Ecpa]; lia).
    exists cpa. split; [done|]. rewrite !decided_in_band, E, !list_elem_of_singleton by auto.
    rewrite (nleb_nltb cpa target), negb_true_iff by done. by destruct (nltb target cpa).
  - intros Hp. assert (E : map decision (cpa_band input) = []) by (apply B3; lia).
    rewrite !decided_in_band, E by auto. split; apply not_elem_of_nil.
Qed.

Lemma purchase_decision_witness :
  let metrics := {| Margin.spendUsd := decimal 125 1; Margin.purchaseCount := ofZ 3;
                    Margin.exchangeRateKrwPerUsd := ofZ 1400 |} in
  let rule := {| Margin.targetRatio := decimal 5 1; Margin.watchRatio := ofZ 1; Margin.stopRatio := ofZ 2 |} in
  let cost := Margin.whole_cost 30000 3000 9000 2500 500 in
  let m := Margin.margin metrics cost in
  let t := Margin.thresholds cost rule in
  let input := {| scopeType := Some PRODUCT; stage := UNKNOWN; purchaseCount := ofZ 3;
                  spendKrw := Margin.spendKrw m; cpaKrw := Margin.cpaKrw m;
                  marginKrw := Some (Margin.marginKrw m); dataDays := ofZ 3;
                  ctrLinkPct := None; landingPageViews := ofZ 0;
                  breakEvenCpaKrw := Margin.breakEvenCpaKrw t;
                  targetCpaKrw := Margin.targetCpaKrw t; watchCpaKrw := Margin.watchCpaKrw t;
                  stopCpaKrw := Margin.stopCpaKrw t; goodCtrLinkPct := ofZ 1;
                  goodLandingPageViewCount := ofZ 3 |} in
  decided input = [PROFIT; SCALE]
  /\ exists cpa, Margin.cpaKrw m = Some cpa /\ (SCALE ∈ decided input <-> nleb cpa (ofZ 7500) = true)
      /\ (KEEP ∈ decided input <-> nltb (ofZ 7500) cpa = true).
Proof.
  intros metrics rule cost m t input. split; [vm_compute; reflexivity|].
  refine (proj1 (proj2 (purchase_decision 30000 3000 9000 2500 500 3 17500 metrics rule input (ofZ 7500)
    _ _ _ _ _ _ _ _ _ _ _ _ _ _ _ _)) _);
    try (vm_compute; discriminate); vm_compute; reflexivity.
Defined.

(** ** decisions.service.ts

    [run] reads the metrics of the period, classifies the whole, every product
    and every ad set, adds a verdict per stage and stores the logs.  The metrics
    come from the database; the model takes them as arguments and returns the
    list handed to [decisionLog.createMany]. *)
Module Service.

Record metric_totals := {
  tot_purchaseCount : num;
  tot_spendKrw : num;
  tot_cpaKrw : option num;
  tot_marginKrw : option num;
  tot_ctrLinkPct : option num;
  tot_landingPageViews : num
}.

Record thresholds := {
  thr_breakEven : option num;
  thr_target : option num;
  thr_watch : option num;
  thr_stop : option num
}.

Record product_metric := {
  p_productId : str;
  p_totals : metric_totals;
  p_dataDays : num;
  p_thresholds : option thresholds;
  p_ruleStatus : str
}.

Record adset_metric := {
  a_metaAdsetId : str;
  a_product : option str;
  a_stage : AdStageValue;
  a_totals : metric_totals;
  a_dataDays : num;
  a_thresholds : option thresholds;
  a_ruleStatus : str
}.

Record settings := { set_goodCtrLinkPct : num; set_goodLandingPageViewCount : num }.

Inductive snapshot :=
  | SnapTotals (t : metric_totals)
  | SnapProduct (p : product_metric)
  | SnapAdset (a : adset_metric)
  | SnapStage (stage : AdStageValue) (marginKrw : num) (adsetCount : nat).

Inductive rule_snapshot :=
  | RuleEmpty
  | RuleStatus (s : str)
  | RuleThresholds (t : thresholds).

Record log := {
  decisionRunId : str;
  periodStart : Z;
  periodEnd : Z;
  log_scope : scope_type;
  log_productId : option str;
  log_metaAdsetId : option str;
  log_stage : option AdStageValue;
  log_decision : DecisionTypeValue;
  log_severity : Z;
  log_reason : str;
  log_recommendedAction : str;
  metricsSnapshot : snapshot;
  ruleSnapshot : rule_snapshot;
  createdBy : str
}.

Section run.
Context (runId : str) (range : DateRange) (actorId : str) (s : settings).

Definition make_log (scope : scope_type) (productId metaAdsetId : option str)
    (st : option AdStageValue) (d : ClassifiedDecision) (ms : snapshot) (rs : rule_snapshot) : log :=
  {| decisionRunId := runId; periodStart := fromDate range; periodEnd := toDate range;
     log_scope := scope; log_productId := productId; log_metaAdsetId := metaAdsetId;
     log_stage := st; log_decision := decision d; log_severity := severity d;
     log_reason := reason d; log_recommendedAction := recommendedAction d;
     metricsSnapshot := ms; ruleSnapshot := rs; createdBy := actorId |}.

Definition toLogs (scope : scope_type) (decisions : list ClassifiedDecision) (ms : snapshot)
    (rs : rule_snapshot) (productId metaAdsetId : option str) (st : option AdStageValue) : list log :=
  map (fun d => make_log scope productId metaAdsetId st d ms rs) decisions.

Definition no_thresholds : thresholds :=
  {| thr_breakEven := None; thr_target := None; thr_watch := None; thr_stop := None |}.

Definition decision_input (scope : scope_type) (st : AdStageValue) (t : metric_totals) (days : num)
    (thr : thresholds) : DecisionInput :=
  {| scopeType := Some scope; stage := st; purchaseCount := tot_purchaseCount t;
     spendKrw := tot_spendKrw t; cpaKrw := tot_cpaKrw t; marginKrw := tot_marginKrw t;
     dataDays := days; ctrLinkPct := tot_ctrLinkPct t;
     landingPageViews := tot_landingPageViews t; breakEvenCpaKrw := thr_breakEven thr;
     targetCpaKrw := thr_target thr; watchCpaKrw := thr_watch thr; stopCpaKrw := thr_stop thr;
     goodCtrLinkPct := set_goodCtrLinkPct s;
     goodLandingPageViewCount := set_goodLandingPageViewCount s |}.

Definition overall_logs (totals : metric_totals) (days : num) : list log :=
  toLogs OVERALL (classify (decision_input OVERALL UNKNOWN totals days no_thresholds))
    (SnapTotals totals) RuleEmpty None None None.

Definition product_logs (p : product_metric) : list log :=
  match p_thresholds p with
  | None =>
      [make_log PRODUCT (Some (p_productId p)) None None
         {| decision := WATCH; severity := 2;
            reason := js "제품 원가/CPA 기준이 설정되지 않아 판정을 보류합니다.";
            recommendedAction := js "Product Settings에서 원가 rule과 CPA rule을 입력하세요." |}
         (SnapProduct p) (RuleStatus (p_ruleStatus p))]
  | Some thr =>
      toLogs PRODUCT (classify (decision_input PRODUCT UNKNOWN (p_totals p) (p_dataDays p) thr))
        (SnapTotals (p_totals p)) (RuleThresholds thr) (Some (p_productId p)) None None
  end.

Definition adset_logs (a : adset_metric) : list log :=
  match a_thresholds a with
  | None =>
      [make_log ADSET None (Some (a_metaAdsetId a)) (Some (a_stage a))
         {| decision := WATCH; severity := 2;
            reason := js "광고세트의 제품 매칭 또는 기준 설정이 없어 판정을 보류합니다.";
            recommendedAction := js "Mappings 또는 Product Settings에서 기준을 보완하세요." |}
         (SnapAdset a) (RuleStatus (a_ruleStatus a))]
  | Some thr =>
      toLogs ADSET (classify (decision_input ADSET (a_stage a) (a_totals a) (a_dataDays a) thr))
        (SnapTotals (a_totals a)) (RuleThresholds thr) (a_product a) (Some (a_metaAdsetId a))
        (Some (a_stage a))
  end.

Definition stage_name (st : AdStageValue) : str :=
  match st with SC => js "SC" | CBO => js "CBO" | ASC => js "ASC" | UNKNOWN => js "UNKNOWN" end.

Definition stage_margin (rows : list adset_metric) : num :=
  nsum (map (fun a => tot_marginKrw (a_totals a) ?? ofZ 0) rows).

Definition stage_log (st : AdStageValue) (rows : list adset_metric) : list log :=
  let m := stage_margin rows in
  if negb (neqb m (ofZ 0)) then
    let gain := nltb (ofZ 0) m in
    [make_log STAGE None None (Some st)
       {| decision := if gain then PROFIT else LOSS; severity := if gain then 1 else 3;
          reason := stage_name st ++ js " 단계 기준 " ++ (if gain then js "흑자" else js "손실")
                    ++ js "입니다.";
          recommendedAction := js "단계별 예산 배분 후보를 검토하고 변경 시 로그로 기록하세요." |}
       (SnapStage st m (List.length rows)) RuleEmpty]
  else [].

Definition run (totals : metric_totals) (days : num) (products : list product_metric)
    (adsets : list adset_metric) : list log :=
  overall_logs totals days ++ concat (map product_logs products) ++ concat (map adset_logs adsets)
  ++ concat (map (fun '(st, rows) => stage_log st rows) (group_by a_stage adsets)).

Definition of_scope (sc : scope_type) (l : log) : bool := bool_decide (log_scope l = sc).

(** Every block of logs has one scope. *)
Lemma scope_toLogs sc ds ms rs pid aid st l :
  l ∈ toLogs sc ds ms rs pid aid st -> log_scope l = sc.
Proof. unfold toLogs. intros (d & -> & _)%list_elem_of_fmap. done. Qed.

Lemma scope_product p l : l ∈ product_logs p -> log_scope l = PRODUCT.
Proof.
  unfold product_logs. destruct (p_thresholds p); [apply scope_toLogs|].
  intros ->%list_elem_of_singleton. done.
Qed.

Lemma scope_adset a l : l ∈ adset_logs a -> log_scope l = ADSET.
Proof.
  unfold adset_logs. destruct (a_thresholds a); [apply scope_toLogs|].
  intros ->%list_elem_of_singleton. done.
Qed.

Lemma scope_stage st rows l : l ∈ stage_log st rows -> log_scope l = STAGE /\ log_stage l = Some st.
Proof.
  unfold stage_log. case_match; [|intros []%elem_of_nil].
  intros ->%list_elem_of_singleton. done.
Qed.

(** The log of a stage whose margins sum to [total], with a given verdict. *)
Definition stage_verdict_log (st : AdStageValue) (rows : list adset_metric) (total : num)
    (verdict : DecisionTypeValue) (sev : Z) (word : str) : log :=
  make_log STAGE None None (Some st)
    {| decision := verdict; severity := sev;
       reason := stage_name st ++ js " 단계 기준 " ++ word ++ js "입니다.";
       recommendedAction := js "단계별 예산 배분 후보를 검토하고 변경 시 로그로 기록하세요." |}
    (SnapStage st total (List.length rows)) RuleEmpty.

Lemma stage_log_cases st rows :
  stage_log st rows
  = let total := nsum (map (fun a => tot_marginKrw (a_totals a) ?? ofZ 0) rows) in
    if neqb total (ofZ 0) then []
    else if nltb (ofZ 0) total then [stage_verdict_log st rows total PROFIT 1 (js "흑자")]
    else [stage_verdict_log st rows total LOSS 3 (js "손실")].
Proof.
  unfold stage_log, stage_margin, stage_verdict_log. cbv zeta.
  destruct (neqb _ _); [done|]. by destruct (nltb _ _).
Qed.

(** C37: a run gives each stage at most one verdict: none when no ad set is in
    the stage or their margins sum to zero, otherwise PROFIT or LOSS by the sign
    of that sum over all ad sets of the stage, each counted once. *)
Theorem run_stage_verdict totals days products adsets st :
  List.filter (fun l => of_scope STAGE l && bool_decide (log_stage l = Some st))
    (run totals days products adsets)
  = match of_key a_stage st adsets with
    | [] => []
    | rows =>
        let total := nsum (map (fun a => tot_marginKrw (a_totals a) ?? ofZ 0) rows) in
        if neqb total (ofZ 0) then []
        else if nltb (ofZ 0) total then [stage_verdict_log st rows total PROFIT 1 (js "흑자")]
        else [stage_verdict_log st rows total LOSS 3 (js "손실")]
    end.
Proof.
  transitivity (match of_key a_stage st adsets with [] => [] | rows => stage_log st rows end);
    [|destruct (of_key a_stage st adsets); [done | apply stage_log_cases]].
  unfold run. rewrite !List.filter_app, app_assoc, app_assoc.
  rewrite (filter_nothing _ (overall_logs totals days)), (filter_nothing _ (concat (map product_logs products))),
    (filter_nothing _ (concat (map adset_logs adsets))).
  - simpl. assert (N := NoDup_group_by a_stage adsets).
    pose proof (filter_key (group_by a_stage adsets) st N) as F. rewrite map_get_group_by in F.
    transitivity (concat (map (fun '(st, rows) => stage_log st rows)
                    (List.filter (fun e => bool_decide (fst e = st)) (group_by a_stage adsets)))).
    + generalize (group_by a_stage adsets). intros g.
      induction g as [|[st' rows] g IH]; simpl; [done|]. rewrite List.filter_app, IH.
      destruct (decide (st' = st)) as [->|Ne].
      * rewrite (bool_decide_eq_true_2 (st = st)) by done. simpl. f_equal. apply filter_all.
        intros l [Hs Ht]%scope_stage. unfold of_scope. by rewrite Hs, Ht, !bool_decide_eq_true_2.
      * rewrite (bool_decide_eq_false_2 (st' = st)) by done. rewrite filter_nothing; [done|].
        intros l [Hs Ht]%scope_stage. unfold of_scope. rewrite Ht.
        rewrite (bool_decide_eq_false_2 (Some st' = Some st)) by congruence. apply andb_false_r.
    + rewrite F. destruct (of_key a_stage st adsets); simpl; [done|]. by rewrite app_nil_r.
  - intros l (a & _ & Ha)%elem_of_concat_map. unfold of_scope. by rewrite (scope_adset _ _ Ha).
  - intros l (a & _ & Ha)%elem_of_concat_map. unfold of_scope. by rewrite (scope_product _ _ Ha).
  - intros l Hl. unfold of_scope. by rewrite (scope_toLogs _ _ _ _ _ _ _ _ Hl).
Qed.
End run.
End Service.
