(* ===== verification/ProductMatchers.v ===== *)
(** * Matching sales rows to products, and the price of a day

    Models [apps/api/src/domain/cafe24-matcher.ts] (Module [Cafe24Matcher]),
    [coupang-product-matcher.ts] (Module [CoupangMatcher]) and
    [coupang-price-resolver.ts] (Module [PriceResolver]). *)

From Stdlib Require Import Sorting.Sorted.
From S2P Require Import Prelude JsNumber SafeInteger JsString JsDate DateNumber.

Local Open Scope Z_scope.

(** A validity bound: [string | Date]. *)
Inductive date_value := DateText (s : str) | DateTime (t : Z).

(** [keywords.every(k => text.includes(k))] and the like. *)
Definition contains_all (text : str) (ks : list str) : bool := forallb (fun k => includes k text) ks.
Definition contains_any (text : str) (ks : list str) : bool := existsb (fun k => includes k text) ks.

(** ** cafe24-matcher.ts *)

Module Cafe24Matcher.
Section Cafe24Matcher.
Context `{Icu}.

Record Cafe24RuleInput := {
  id : str;
  productId : str;
  displayName : option str;
  productNumbers : list str;
  productNameAliases : list str;
  optionIncludeKeywords : list str;
  optionExcludeKeywords : list str;
  priority : Z;
  validFrom : option date_value;
  validTo : option date_value;
  isActive : option bool
}.

Inductive match_reason := MATCHED | NO_MATCH | AMBIGUOUS_MATCH.

Record Cafe24MatchResult := {
  match_productId : option str;
  by_rule : bool;
  matchRuleId : option str;
  reason : match_reason;
  candidates : list str
}.

(** The fields of an order row the matcher reads. *)
Record order_row := {
  productNo : str;
  productName : str;
  optionName : str;
  orderDate : option Z
}.

Definition normalizeCafe24Text (value : option str) : str :=
  to_lower (join [] (split_ws (value ?? []))).

Definition normalizeProductNo (value : option str) : str :=
  let text := trim (value ?? []) in
  if ends_with (js ".0") text then slice_drop_last 2 text else text.

Definition uniqueNormalized (values : list str) (normalize : option str -> str) : list str :=
  js_unique (List.filter truthy (map (fun v => normalize (Some v)) values)).

Definition dateKeyOrNull (value : option date_value) : option str :=
  match value with
  | None | Some (DateText []) => None
  | Some (DateText s) => Some (slice_to 10 s)
  | Some (DateTime t) => Some (formatDateOnly t)
  end.

Definition isRuleEffective (rule : Cafe24RuleInput) (orderDate : option Z) : bool :=
  match orderDate with
  | None => true
  | Some d =>
      let dateKey := formatDateOnly d in
      match dateKeyOrNull (validFrom rule) with None => true | Some f => negb (truthy f) || str_leb f dateKey end
      && match dateKeyOrNull (validTo rule) with None => true | Some t => negb (truthy t) || str_leb dateKey t end
  end.

Definition ruleLabel (rule : Cafe24RuleInput) : str :=
  str_or (from_option trim [] (displayName rule)) (id rule).

Definition matchesRule (row : order_row) (rule : Cafe24RuleInput) : bool :=
  let productNo := normalizeProductNo (Some (productNo row)) in
  let productName := normalizeCafe24Text (Some (productName row)) in
  let optionName := normalizeCafe24Text (Some (optionName row)) in
  let productNumbers := uniqueNormalized (productNumbers rule) normalizeProductNo in
  if truthy_list productNumbers && negb (bool_decide (productNo ∈ productNumbers)) then false
  else
    let aliases := uniqueNormalized (productNameAliases rule) normalizeCafe24Text in
    if truthy_list aliases
       && forallb (fun alias => negb (includes alias productName) && negb (includes alias optionName)) aliases
    then false
    else
      let includeKeywords := uniqueNormalized (optionIncludeKeywords rule) normalizeCafe24Text in
      if truthy_list includeKeywords
         && existsb (fun keyword => negb (includes keyword optionName)) includeKeywords
      then false
      else
        let excludeKeywords := uniqueNormalized (optionExcludeKeywords rule) normalizeCafe24Text in
        if contains_any optionName excludeKeywords then false else true.

Definition unmatched (r : match_reason) (cs : list str) : Cafe24MatchResult :=
  {| match_productId := None; by_rule := false; matchRuleId := None; reason := r; candidates := cs |}.

Definition rule_active (rule : Cafe24RuleInput) : bool := negb (bool_decide (isActive rule = Some false)).

Definition compare_rules (a b : Cafe24RuleInput) : Z :=
  (priority a - priority b) ||| locale_compare (ruleLabel a) (ruleLabel b).

Definition match_row (row : order_row) (rules : list Cafe24RuleInput) : Cafe24MatchResult :=
  let orderedRules :=
    js_sort compare_rules
      (List.filter (fun rule => isRuleEffective rule (orderDate row)) (List.filter rule_active rules)) in
  match List.filter (matchesRule row) orderedRules with
  | [] => unmatched NO_MATCH []
  | [m] =>
      {| match_productId := Some (productId m); by_rule := true; matchRuleId := Some (id m);
         reason := MATCHED; candidates := [ruleLabel m] |}
  | matches => unmatched AMBIGUOUS_MATCH (map ruleLabel matches)
  end.

(** The outcome depends only on the set of active rules in force that match
    the row, not on their order: one gives its product, none is no match, and
    several are reported as candidates and never resolved by priority. *)
Theorem match_row_spec row rules :
  let matching := List.filter (fun r => rule_active r && isRuleEffective r (orderDate row)
                                        && matchesRule row r) rules in
  let r := match_row row rules in
  match matching with
  | [] => r = unmatched NO_MATCH []
  | [m] =>
      match_productId r = Some (productId m) /\ by_rule r = true /\ matchRuleId r = Some (id m)
      /\ reason r = MATCHED /\ candidates r = [ruleLabel m]
  | _ =>
      match_productId r = None /\ by_rule r = false /\ matchRuleId r = None
      /\ reason r = AMBIGUOUS_MATCH /\ candidates r ≡ₚ map ruleLabel matching
  end.
Proof.
  intros matching r. unfold r, match_row.
  set (found := List.filter (matchesRule row) _).
  assert (P : found ≡ₚ matching).
  { unfold found, matching. rewrite (filterb_perm _ _ _ (js_sort_perm _ _)), filterb_and, filterb_and.
    erewrite filterb_ext; [done|]. intros x _. simpl. by rewrite andb_assoc. }
  clearbody found matching. destruct matching as [|m [|m' rest]].
  - apply Permutation_nil_r in P as ->. done.
  - apply Permutation_singleton_r in P as ->. done.
  - pose proof (Permutation_length P) as L.
    destruct found as [|x [|y found]]; simpl in L; [lia..|]. simpl.
    do 4 (split; [done|]). change (ruleLabel x :: ruleLabel y :: map ruleLabel found)
      with (map ruleLabel (x :: y :: found)).
    by rewrite P.
Qed.

(** Both sides of a text comparison lose their white space. *)
Lemma normalizeCafe24Text_eq v : normalizeCafe24Text v = to_lower (remove_ws (v ?? [])).
Proof. unfold normalizeCafe24Text. by rewrite join_nil, concat_split_ws. Qed.
End Cafe24Matcher.
End Cafe24Matcher.

(** ** coupang-product-matcher.ts *)

Module CoupangMatcher.
Section CoupangMatcher.
Context `{Icu}.

Record CoupangRuleInput := {
  id : str;
  productId : str;
  displayName : option str;
  includeKeywords : list str;
  excludeKeywords : list str;
  priority : Z;
  validFrom : option date_value;
  validTo : option date_value;
  isActive : option bool
}.

Inductive CoupangMatchReason := MATCHED | NO_MATCH | AMBIGUOUS_MATCH | EXCLUDED_BY_KEYWORD.

Record CoupangMatchResult := {
  match_productId : option str;
  by_rule : bool;
  matchRuleId : option str;
  reason : CoupangMatchReason;
  candidates : list str
}.

Record MatchCandidate := { rule : CoupangRuleInput; includeCount : Z; includeLength : Z }.

Definition normalizeCoupangText (value : option str) : str :=
  to_lower (join [] (split_ws (trim (value ?? [])))).

Definition uniqueNormalized (values : list str) : list str :=
  js_unique (List.filter truthy (map (fun v => normalizeCoupangText (Some v)) values)).

Definition dateKeyOrNull (value : option date_value) : option str :=
  match value with
  | None | Some (DateText []) => None
  | Some (DateText s) => Some (slice_to 10 s)
  | Some (DateTime t) => Some (formatDateOnly t)
  end.

Definition isRuleEffective (rule : CoupangRuleInput) (date : option date_value) : bool :=
  match dateKeyOrNull date with
  | None => true
  | Some dateKey =>
      match dateKeyOrNull (validFrom rule) with None => true | Some f => negb (truthy f) || str_leb f dateKey end
      && match dateKeyOrNull (validTo rule) with None => true | Some t => negb (truthy t) || str_leb dateKey t end
  end.

Definition ruleLabel (rule : CoupangRuleInput) : str :=
  str_or (from_option trim [] (displayName rule)) (id rule).

Record rule_match := { excluded : bool; matched : bool; includes_of : list str }.

Definition matchRule (normalizedTarget : str) (rule : CoupangRuleInput) : rule_match :=
  let includeKeywords := uniqueNormalized (includeKeywords rule) in
  let excludeKeywords := uniqueNormalized (excludeKeywords rule) in
  let excluded := contains_any normalizedTarget excludeKeywords in
  {| excluded := excluded;
     matched := negb excluded && truthy_list includeKeywords
                && contains_all normalizedTarget includeKeywords;
     includes_of := includeKeywords |}.

Definition total_length (ks : list str) : Z :=
  fold_left (fun total k => total + Z.of_nat (List.length k)) ks 0.

Definition candidate_of (target : str) (r : CoupangRuleInput) : MatchCandidate :=
  let ks := includes_of (matchRule target r) in
  {| rule := r; includeCount := Z.of_nat (List.length ks); includeLength := total_length ks |}.

(** The loop over the active rules: the candidates and how many were excluded. *)
Definition scan_rule (target : str) (acc : list MatchCandidate * Z) (r : CoupangRuleInput)
    : list MatchCandidate * Z :=
  let m := matchRule target r in
  (if matched m then fst acc ++ [candidate_of target r] else fst acc,
   if excluded m then snd acc + 1 else snd acc).

Definition compare_candidates (a b : MatchCandidate) : Z :=
  (priority (rule a) - priority (rule b)) ||| (includeCount b - includeCount a)
  ||| (includeLength b - includeLength a) ||| locale_compare (ruleLabel (rule a)) (ruleLabel (rule b)).

Definition ties (best c : MatchCandidate) : bool :=
  (priority (rule c) =? priority (rule best)) && (includeCount c =? includeCount best)
  && (includeLength c =? includeLength best).

Definition unmatched (r : CoupangMatchReason) (cs : list str) : CoupangMatchResult :=
  {| match_productId := None; by_rule := false; matchRuleId := None; reason := r; candidates := cs |}.

Definition rule_active (rule : CoupangRuleInput) : bool := negb (bool_decide (isActive rule = Some false)).

Definition active_rules (rules : list CoupangRuleInput) (date : option date_value)
    : list CoupangRuleInput :=
  List.filter (fun r => isRuleEffective r date) (List.filter rule_active rules).

Definition matchText (text : str) (rules : list CoupangRuleInput) (date : option date_value)
    : CoupangMatchResult :=
  let target := normalizeCoupangText (Some text) in
  let '(cands, excludedCount) := fold_left (scan_rule target) (active_rules rules date) ([], 0) in
  match js_sort compare_candidates cands with
  | [] => unmatched (if 0 <? excludedCount then EXCLUDED_BY_KEYWORD else NO_MATCH) []
  | (best :: _) as ordered =>
      let tied := List.filter (ties best) ordered in
      if (1 <? List.length tied)%nat
      then unmatched AMBIGUOUS_MATCH (map (fun c => ruleLabel (rule c)) tied)
      else {| match_productId := Some (productId (rule best)); by_rule := true;
              matchRuleId := Some (id (rule best)); reason := MATCHED;
              candidates := [ruleLabel (rule best)] |}
  end.

(** The candidates in the order of the rules. *)
Definition candidates_of (target : str) (rules : list CoupangRuleInput) : list MatchCandidate :=
  map (candidate_of target) (List.filter (fun r => matched (matchRule target r)) rules).

Lemma scan_rules target rules acc n :
  fold_left (scan_rule target) rules (acc, n)
  = (acc ++ candidates_of target rules,
     n + Z.of_nat (List.length (List.filter (fun r => excluded (matchRule target r)) rules))).
Proof.
  unfold candidates_of. revert acc n. induction rules as [|r rules IH]; intros acc n.
  - simpl. by rewrite app_nil_r, Z.add_0_r.
  - cbn [fold_left List.filter]. unfold scan_rule at 2. simpl fst. simpl snd. rewrite IH. f_equal.
    + destruct (matched _); [|done]. by rewrite <- app_assoc.
    + destruct (excluded _); cbn [List.length]; lia.
Qed.

(** [a] beats [b]: smaller priority, then more keywords, then longer ones. *)
Definition beats (a b : MatchCandidate) : Prop :=
  priority (rule a) < priority (rule b)
  \/ (priority (rule a) = priority (rule b)
      /\ (includeCount b < includeCount a
          \/ (includeCount a = includeCount b /\ includeLength b < includeLength a))).

Section facts.
Context `{!IcuLaws}.

#[export] Instance compare_candidates_comparator : Comparator compare_candidates.
Proof.
  unfold compare_candidates.
  apply (comparator_or (fun a b => _ ||| _)); [apply (comparator_or (fun a b => _ ||| _))|].
  - apply comparator_or; apply _.
  - apply (comparator_key_desc includeLength).
  - apply (comparator_on (fun c => ruleLabel (rule c))), locale_compare_comparator.
Qed.

Lemma compare_beats best c :
  compare_candidates best c <= 0 -> beats best c \/ ties best c = true.
Proof.
  unfold compare_candidates, cmp_or, beats, ties. rewrite !andb_true_iff, !Z.eqb_eq.
  destruct (Z.eqb_spec (priority (rule best) - priority (rule c)) 0),
    (Z.eqb_spec (includeCount c - includeCount best) 0),
    (Z.eqb_spec (includeLength c - includeLength best) 0); simpl; repeat case_match; lia.
Qed.

Lemma ties_refl c : ties c c = true.
Proof. unfold ties. by rewrite !Z.eqb_refl. Qed.

(** The head of the sorted candidates: alone in its tie it beats all others. *)
Lemma sorted_head_alone cands best rest :
  js_sort compare_candidates cands = best :: rest ->
  List.length (List.filter (ties best) (best :: rest)) = 1%nat ->
  exists l1 l2, cands = l1 ++ best :: l2 /\ forall c, c ∈ l1 ++ l2 -> beats best c.
Proof.
  intros E L. destruct (js_sort_head _ _ _ _ E) as [I M].
  apply list_elem_of_split in I as (l1 & l2 & ->). exists l1, l2. split; [done|]. intros c Hc.
  assert (P : best :: rest ≡ₚ best :: (l1 ++ l2))
    by (rewrite <- E, js_sort_perm; symmetry; apply Permutation_middle).
  rewrite (filterb_perm _ _ _ P) in L. simpl in L. rewrite ties_refl in L. simpl in L.
  injection L as L. destruct (compare_beats best c) as [|T]; [|done|].
  - apply M. rewrite elem_of_app, elem_of_cons. rewrite elem_of_app in Hc. tauto.
  - exfalso. assert (H1 : c ∈ List.filter (ties best) (l1 ++ l2)) by by apply elem_of_filterb.
    apply nil_length_inv in L. rewrite L in H1. by apply elem_of_nil in H1.
Qed.

Lemma sorted_head_tied cands best rest :
  js_sort compare_candidates cands = best :: rest ->
  (1 < List.length (List.filter (ties best) (best :: rest)))%nat ->
  exists l1 l2 c, cands = l1 ++ best :: l2 /\ c ∈ l1 ++ l2 /\ ties best c = true
                  /\ forall d, d ∈ cands -> ~ beats d best.
Proof.
  intros E L. destruct (js_sort_head _ _ _ _ E) as [I M].
  apply list_elem_of_split in I as (l1 & l2 & ->).
  assert (P : best :: rest ≡ₚ best :: (l1 ++ l2))
    by (rewrite <- E, js_sort_perm; symmetry; apply Permutation_middle).
  rewrite (filterb_perm _ _ _ P) in L. simpl in L. rewrite ties_refl in L. simpl in L.
  destruct (List.filter (ties best) (l1 ++ l2)) as [|c cs] eqn:F; [simpl in L; lia|].
  assert (H1 : c ∈ List.filter (ties best) (l1 ++ l2)) by (rewrite F; apply list_elem_of_here).
  apply elem_of_filterb in H1 as [H1 T]. exists l1, l2, c. do 3 (split; [done|]).
  intros d Hd B. specialize (M d Hd). apply compare_beats in M.
  unfold beats, ties in *. bool_simpl. lia.
Qed.

(** A row is assigned to a rule exactly when, of the rules in force whose
    keywords match, one beats every other by priority, then by the number and
    the total length of its keywords; candidates that no other beats but that
    are equal leave it ambiguous; without a candidate the reason tells whether a
    rule excluded it. *)
Theorem matchText_spec text rules date :
  let target := normalizeCoupangText (Some text) in
  let active := active_rules rules date in
  let cands := candidates_of target active in
  let r := matchText text rules date in
  (by_rule r = true <-> reason r = MATCHED)
  /\ match reason r with
     | MATCHED =>
         exists l1 best l2, cands = l1 ++ best :: l2 /\ (forall c, c ∈ l1 ++ l2 -> beats best c)
           /\ match_productId r = Some (productId (rule best))
           /\ matchRuleId r = Some (id (rule best))
     | AMBIGUOUS_MATCH =>
         match_productId r = None /\ matchRuleId r = None
         /\ exists l1 best l2 c, cands = l1 ++ best :: l2 /\ c ∈ l1 ++ l2 /\ ties best c = true
              /\ forall d, d ∈ cands -> ~ beats d best
     | EXCLUDED_BY_KEYWORD =>
         match_productId r = None /\ matchRuleId r = None /\ cands = []
         /\ exists rl, rl ∈ active /\ excluded (matchRule target rl) = true
     | NO_MATCH =>
         match_productId r = None /\ matchRuleId r = None /\ cands = []
         /\ forall rl, rl ∈ active -> excluded (matchRule target rl) = false
     end.
Proof.
  intros target active cands r. unfold r, matchText. fold target active.
  rewrite scan_rules. simpl. fold cands.
  destruct (js_sort compare_candidates cands) as [|best rest] eqn:E.
  - assert (N : cands = []) by (apply length_zero_iff_nil; rewrite <- (length_js_sort compare_candidates), E; done).
    set (exs := List.filter _ active). destruct exs as [|x exs0] eqn:X; simpl.
    + split; [done|]. do 3 (split; [done|]). intros rl Hr.
      destruct (excluded (matchRule target rl)) eqn:D; [|done].
      assert (I : rl ∈ exs) by (apply elem_of_filterb; done). rewrite X in I. by apply elem_of_nil in I.
    + split; [done|]. do 3 (split; [done|]). exists x.
      assert (I : x ∈ exs) by (rewrite X; apply list_elem_of_here).
      by apply elem_of_filterb in I.
  - cbn [List.filter]. rewrite ties_refl.
    destruct (1 <? _)%nat eqn:L.
    + apply Nat.ltb_lt in L. split; [done|]. do 2 (split; [done|]).
      destruct (sorted_head_tied cands best rest E) as (l1 & l2 & c & R).
      { simpl. by rewrite ties_refl. }
      by exists l1, best, l2, c.
    + apply Nat.ltb_ge in L. split; [done|]. cbn [reason].
      destruct (sorted_head_alone cands best rest E) as (l1 & l2 & R & B).
      { simpl. rewrite ties_refl. simpl in *. lia. }
      by exists l1, best, l2.
Qed.

Lemma normalizeCoupangText_eq v : normalizeCoupangText v = to_lower (remove_ws (v ?? [])).
Proof. unfold normalizeCoupangText. by rewrite join_nil, concat_split_ws, remove_ws_trim. Qed.
End facts.
End CoupangMatcher.

Lemma matchText_spec_witness :
  let rule i ks p := {| id := js i; productId := js i; displayName := None; includeKeywords := ks;
                        excludeKeywords := [js "refill"]; priority := p; validFrom := None;
                        validTo := None; isActive := None |} in
  let rules := [rule "a" [js "Green Tea"] 1; rule "b" [js "green"; js "tea 20"] 1]%string in
  let r := @matchText c_locale (js "GREEN tea 20 bags") rules None in
  match_productId r = Some (js "b") /\ (by_rule r = true <-> reason r = MATCHED).
Proof.
  intros rule rules r. split; [vm_compute; reflexivity|].
  exact (proj1 (@matchText_spec c_locale c_locale_laws (js "GREEN tea 20 bags") rules None)).
Defined.
End CoupangMatcher.

(** ** coupang-price-resolver.ts *)

Module PriceResolver.
Section PriceResolver.
Context `{Icu}.

Inductive CoupangPriceSource := PROMOTION | BASE | MISSING | CONFLICT.

Record CoupangPromotionPriceCandidate := {
  promotionPrice : option num;
  promotionStartDate : Z;
  promotionEndDate : Z;
  promotionStatus : option str;
  validationErrors : json
}.

Record CoupangResolvedPrice := {
  salePriceKrw : option num;
  baseSalePriceKrw : option num;
  promotionPriceKrw : option num;
  priceSource : CoupangPriceSource;
  priceWarnings : list str
}.

Definition positiveNumberOrNull (value : option num) : option num :=
  match value with
  | Some x => if isFinite x && nltb (ofZ 0) x then Some x else None
  | None => None
  end.

Definition isPromotionActiveOn (p : CoupangPromotionPriceCandidate) (date : Z) : bool :=
  let target := formatDateOnly date in
  str_leb (formatDateOnly (promotionStartDate p)) target
  && str_leb target (formatDateOnly (promotionEndDate p)).

Definition inactive_words : list str :=
  [js "취소"; js "반려"; js "거절"; js "중지"; js "cancel"; js "canceled"; js "cancelled";
   js "reject"; js "rejected"; js "stop"; js "stopped"].

Definition isInactivePromotionStatus (status : option str) : bool :=
  let normalized := remove_ws (to_lower (trim (status ?? []))) in
  contains_any normalized inactive_words.

Definition hasValidationErrorCode (value : json) (errorCode : str) : bool :=
  match value with
  | JArr items =>
      existsb (fun item => match item with
                           | JObj fields =>
                               match json_field fields (js "errorCode") with
                               | Some (JStr s) => str_eqb s errorCode
                               | _ => false
                               end
                           | _ => false
                           end) items
  | _ => false
  end.

Definition isPromotionPriceCandidateEligible (p : CoupangPromotionPriceCandidate) : bool :=
  negb (isInactivePromotionStatus (promotionStatus p))
  && negb (hasValidationErrorCode (validationErrors p) (js "INVALID_PROMOTION_STATUS")).

(** The prices of the promotions in force, before repetitions are removed. *)
Definition promotion_prices (promotions : list CoupangPromotionPriceCandidate) (date : Z) : list num :=
  omap (fun p => positiveNumberOrNull (promotionPrice p))
    (List.filter isPromotionPriceCandidateEligible
       (List.filter (fun p => isPromotionActiveOn p date) promotions)).

Definition resolveCoupangSalePrice (base : option num)
    (promotions : list CoupangPromotionPriceCandidate) (date : Z) : CoupangResolvedPrice :=
  let baseSalePriceKrw := positiveNumberOrNull base in
  match js_unique_by same_value_zero (promotion_prices promotions date) with
  | [p] =>
      {| salePriceKrw := Some p; baseSalePriceKrw := baseSalePriceKrw; promotionPriceKrw := Some p;
         priceSource := PROMOTION; priceWarnings := [] |}
  | _ :: _ :: _ =>
      {| salePriceKrw := baseSalePriceKrw; baseSalePriceKrw := baseSalePriceKrw;
         promotionPriceKrw := None; priceSource := CONFLICT;
         priceWarnings := [js "PROMOTION_PRICE_CONFLICT"] |}
  | [] =>
      match baseSalePriceKrw with
      | Some b =>
          {| salePriceKrw := Some b; baseSalePriceKrw := Some b; promotionPriceKrw := None;
             priceSource := BASE; priceWarnings := [] |}
      | None =>
          {| salePriceKrw := None; baseSalePriceKrw := None; promotionPriceKrw := None;
             priceSource := MISSING; priceWarnings := [js "BASE_SALE_PRICE_MISSING"] |}
      end
  end.

Lemma same_value_zero_trans x y z :
  same_value_zero x y = true -> same_value_zero y z = true -> same_value_zero x z = true.
Proof.
  unfold same_value_zero. intros Hxy Hyz. bool_simpl.
  destruct Hxy as [E1|[N1 N1']], Hyz as [E2|[N2 N2']].
  - left. by eapply neqb_trans.
  - exfalso. revert E1 N2. by destruct x as [[]|[]| |[]], y.
  - exfalso. revert E2 N1'. by destruct y, z as [[]|[]| |[]].
  - by right.
Qed.

(** A promotion is in force on the days from its start to its end. *)
Lemma isPromotionActiveOn_days p date :
  let year t := 0 <= getUTCFullYear t <= 9999 in
  year date -> year (promotionStartDate p) -> year (promotionEndDate p) ->
  isPromotionActiveOn p date
  = (day (promotionStartDate p) <=? day date) && (day date <=? day (promotionEndDate p)).
Proof.
  intros year H1 H2 H3. unfold isPromotionActiveOn, formatDateOnly, str_leb.
  rewrite !iso_date_cmp by done. by rewrite <- !Z.leb_antisym.
Qed.

Lemma positive_prices promotions date x :
  x ∈ promotion_prices promotions date -> isFinite x = true /\ nltb (ofZ 0) x = true.
Proof.
  unfold promotion_prices. intros (p & _ & E)%list_elem_of_omap. unfold positiveNumberOrNull in E.
  destruct (promotionPrice p) as [y|]; [|done]. destruct (_ && _) eqn:C; [|done].
  injection E as ->. by apply andb_true_iff in C.
Qed.

Lemma positive_base base b :
  positiveNumberOrNull base = Some b -> isFinite b = true /\ nltb (ofZ 0) b = true.
Proof.
  unfold positiveNumberOrNull. destruct base as [y|]; [|done]. destruct (_ && _) eqn:C; [|done].
  intros [= ->]. by apply andb_true_iff in C.
Qed.

(** The price of a day is the promotion price when the eligible promotions
    in force agree on one, the base price when there is none or when they
    disagree (flagged as a conflict), and missing otherwise; a resolved price is
    always finite and positive. *)
Theorem resolveCoupangSalePrice_spec base promotions date :
  let prices := promotion_prices promotions date in
  let r := resolveCoupangSalePrice base promotions date in
  baseSalePriceKrw r = positiveNumberOrNull base
  /\ (forall x, salePriceKrw r = Some x -> isFinite x = true /\ nltb (ofZ 0) x = true)
  /\ match priceSource r with
     | PROMOTION =>
         exists p, p ∈ prices /\ salePriceKrw r = Some p /\ promotionPriceKrw r = Some p
                   /\ forall q, q ∈ prices -> q = p \/ same_value_zero p q = true
     | CONFLICT =>
         salePriceKrw r = baseSalePriceKrw r /\ promotionPriceKrw r = None
         /\ exists p q, p ∈ prices /\ q ∈ prices /\ same_value_zero p q = false
     | BASE => prices = [] /\ salePriceKrw r <> None /\ salePriceKrw r = baseSalePriceKrw r
     | MISSING => prices = [] /\ salePriceKrw r = None /\ baseSalePriceKrw r = None
     end.
Proof.
  intros prices r. unfold r, resolveCoupangSalePrice. fold prices.
  assert (Pos : forall x, x ∈ prices -> isFinite x = true /\ nltb (ofZ 0) x = true)
    by apply positive_prices.
  destruct (js_unique_by same_value_zero prices) as [|p [|q rest]] eqn:E.
  - assert (N : prices = []) by (destruct prices; [done|simpl in E; done]).
    destruct (positiveNumberOrNull base) as [b|] eqn:B; simpl; [|done].
    split; [done|]. split; [|done]. intros x [= <-]. by apply positive_base in B.
  - assert (I : p ∈ prices) by (apply (elem_of_js_unique_by_1 same_value_zero); rewrite E; apply list_elem_of_here).
    simpl. split; [done|]. split; [intros x [= <-]; auto|].
    exists p. do 3 (split; [done|]). intros q Hq.
    destruct (js_unique_by_represents same_value_zero prices q same_value_zero_trans Hq)
      as (y & Hy & D).
    rewrite E in Hy. apply list_elem_of_singleton in Hy as ->. destruct D; auto.
  - apply js_unique_by_two in E as (Ip & Iq & D). simpl.
    split; [done|]. split; [intros x Hx; by apply positive_base in Hx|].
    do 2 (split; [done|]). by exists p, q.
Qed.
End PriceResolver.
End PriceResolver.
