(* ===== verification/Coupon.v ===== *)
(** * Coupons of Cafe24 orders

    Models [apps/api/src/domain/cafe24-coupon-matcher.ts]: which coupon rule
    explains the gap between what an order cost and what was paid, and how its
    amount is spread over the products of the order.  A date that may be an
    [Invalid Date] is [option Z]. *)

From S2P Require Import Prelude JsNumber SafeInteger JsString JsDate.

Local Open Scope Z_scope.

Section coupon.
Context `{Icu}.

Definition AMOUNT_TOLERANCE_KRW : num := ofZ 1.

Inductive Cafe24CouponScopeValue := GLOBAL | PRODUCT.

#[export] Instance Cafe24CouponScopeValue_eq : EqDecision Cafe24CouponScopeValue.
Proof. solve_decision. Defined.

Record Cafe24CouponOrderLineInput := {
  line_orderDate : option (option Z);
  paymentMethod : option str;
  line_totalOrderKrw : option num;
  line_totalPaidKrw : option num;
  line_productId : option str;
  salePriceKrw : num;
  quantity : num;
  isValid : option bool
}.

Record Cafe24CouponRuleInput := {
  id : str;
  name : str;
  scope : Cafe24CouponScopeValue;
  productId : option str;
  discountKrw : num;
  priority : Z;
  validFrom : Z;
  validTo : option Z;
  isActive : bool;
  createdAt : Z
}.

Inductive CouponMatchStatus := NO_COUPON | APPLIED | UNMATCHED.
Inductive CouponMatchConfidence := NONE | EXACT | ESTIMATED.

Inductive CouponWarningCode :=
  | MISSING_TOTAL_ORDER | INCOMPLETE_ORDER_DATA | INCONSISTENT_ORDER_DATE | INCONSISTENT_TOTAL_ORDER
  | INCONSISTENT_TOTAL_PAID | NON_POSITIVE_GAP | NO_ACTIVE_COUPON_RULE | NO_PLAUSIBLE_COUPON_AMOUNT
  | UNMATCHED_PRODUCT | PARTIAL_PRODUCT_MAPPING | NON_POSITIVE_ALLOCATION_BASE
  | RULE_TIE_RESOLVED_BY_PRIORITY | IGNORED_RESIDUAL_EXISTS.

Record Cafe24CouponResolution := {
  orderNo : str;
  orderDate : option (option Z);
  couponDetected : bool;
  status : CouponMatchStatus;
  confidence : CouponMatchConfidence;
  totalOrderKrw : option num;
  totalPaidKrw : option num;
  observedGapKrw : option num;
  selectedRuleId : option str;
  selectedRuleName : option str;
  selectedScope : option Cafe24CouponScopeValue;
  couponDeductionKrw : num;
  ignoredResidualKrw : num;
  allocationsByProductId : list (str * num);
  warningCodes : list CouponWarningCode;
  candidateRuleIds : list str
}.

Definition baseResolution (orderNo : str) (orderDate : option (option Z)) (couponDetected : bool)
    (totalOrderKrw totalPaidKrw : option num) : Cafe24CouponResolution :=
  {| orderNo := orderNo; orderDate := orderDate; couponDetected := couponDetected;
     status := if couponDetected then UNMATCHED else NO_COUPON; confidence := NONE;
     totalOrderKrw := totalOrderKrw; totalPaidKrw := totalPaidKrw; observedGapKrw := None;
     selectedRuleId := None; selectedRuleName := None; selectedScope := None;
     couponDeductionKrw := ofZ 0; ignoredResidualKrw := ofZ 0; allocationsByProductId := [];
     warningCodes := []; candidateRuleIds := [] |}.

Definition set_gap (r : Cafe24CouponResolution) (gap : option num) : Cafe24CouponResolution :=
  {| orderNo := orderNo r; orderDate := orderDate r; couponDetected := couponDetected r;
     status := status r; confidence := confidence r; totalOrderKrw := totalOrderKrw r;
     totalPaidKrw := totalPaidKrw r; observedGapKrw := gap; selectedRuleId := selectedRuleId r;
     selectedRuleName := selectedRuleName r; selectedScope := selectedScope r;
     couponDeductionKrw := couponDeductionKrw r; ignoredResidualKrw := ignoredResidualKrw r;
     allocationsByProductId := allocationsByProductId r; warningCodes := warningCodes r;
     candidateRuleIds := candidateRuleIds r |}.

(** [unmatched], then [{ ...result, warningCodes }] where a caller adds codes. *)
Definition unmatched_with (base : Cafe24CouponResolution) (codes : list CouponWarningCode)
    (candidateRuleIds : list str) : Cafe24CouponResolution :=
  {| orderNo := orderNo base; orderDate := orderDate base; couponDetected := couponDetected base;
     status := UNMATCHED; confidence := NONE; totalOrderKrw := totalOrderKrw base;
     totalPaidKrw := totalPaidKrw base; observedGapKrw := observedGapKrw base;
     selectedRuleId := None; selectedRuleName := None; selectedScope := None;
     couponDeductionKrw := ofZ 0; ignoredResidualKrw := ofZ 0; allocationsByProductId := [];
     warningCodes := codes; candidateRuleIds := candidateRuleIds |}.

Definition unmatched (base : Cafe24CouponResolution) (code : CouponWarningCode)
    (candidateRuleIds : list str) : Cafe24CouponResolution :=
  unmatched_with base [code] candidateRuleIds.

Definition paymentTokens (paymentMethod : option str) : list str :=
  List.filter truthy (map trim (split_on 44 (nfkc (paymentMethod ?? [])))).

(** [Date.UTC] of the year, month and date of a date. *)
Definition dateValue (value : Z) : Z :=
  date_utc (getUTCFullYear value) (getUTCMonth value) (getUTCDate value) 0 0 0.

Definition isFiniteAmount (value : option num) : bool :=
  match value with Some x => isFinite x | None => false end.

Definition firstFiniteAmount (values : list (option num)) : option num :=
  match List.find isFiniteAmount values with Some v => v | None => None end.

Definition firstDate (lines : list Cafe24CouponOrderLineInput) : option (option Z) :=
  match List.find (fun line => negb (bool_decide (line_orderDate line = None))) lines with
  | Some line => line_orderDate line
  | None => None
  end.

Definition amountsAreConsistent (values : list (option num)) : bool :=
  if negb (truthy_list values) || existsb (fun v => negb (isFiniteAmount v)) values then false
  else
    let numericValues := omap (fun v => v) values in
    nleb (nsub (nmax_list numericValues) (nmin_list numericValues)) AMOUNT_TOLERANCE_KRW.

Definition datesAreConsistent (values : list (option (option Z))) : bool :=
  match values with
  | [] => false
  | first :: _ =>
      forallb (fun v => match v, first with
                        | Some (Some t), Some (Some t0) => dateValue t =? dateValue t0
                        | _, _ => false
                        end) values
  end.

Definition isRuleEligible (rule : Cafe24CouponRuleInput) (orderDate : Z) (productIds : list str)
    : bool :=
  if negb (isActive rule) || negb (isFinite (discountKrw rule)) || nleb (discountKrw rule) (ofZ 0)
     || (dateValue orderDate <? dateValue (validFrom rule))
     || match validTo rule with Some to => dateValue to <? dateValue orderDate | None => false end
  then false
  else match scope rule with
       | GLOBAL => bool_decide (productId rule = None)
       | PRODUCT => match productId rule with Some p => bool_decide (p ∈ productIds) | None => false end
       end.

Definition compareRulesAtSameAmount (left right : Cafe24CouponRuleInput) : Z :=
  if negb (bool_decide (scope left = scope right)) then
    if bool_decide (scope left = PRODUCT) then -1 else 1
  else
    (priority left - priority right) ||| (dateValue (validFrom right) - dateValue (validFrom left))
    ||| (createdAt right - createdAt left) ||| locale_compare (id left) (id right).

(** [Math.abs(observedGapKrw - rule.discountKrw)]. *)
Definition difference (gap : num) (rule : Cafe24CouponRuleInput) : num :=
  nabs (nsub gap (discountKrw rule)).

Definition selected_amount (candidates : list Cafe24CouponRuleInput) (gap : num) : option num :=
  let exact := List.filter (fun rule => nleb (difference gap rule) AMOUNT_TOLERANCE_KRW) candidates in
  if truthy_list exact then
    let closestDifference := nmin_list (map (difference gap) exact) in
    Some (nmax_list (map discountKrw
      (List.filter (fun rule => nltb (nabs (nsub (difference gap rule) closestDifference)) EPSILON)
         exact)))
  else
    let plausible := List.filter (fun rule => nleb (discountKrw rule) (nadd gap AMOUNT_TOLERANCE_KRW))
                       candidates in
    if truthy_list plausible then Some (nmax_list (map discountKrw plausible)) else None.

(** The rule and the rules of the same amount it was chosen among. *)
Definition selectCouponRule (candidates : list Cafe24CouponRuleInput) (gap : num)
    : option (option Cafe24CouponRuleInput * list Cafe24CouponRuleInput) :=
  match selected_amount candidates gap with
  | None => None
  | Some amount =>
      let same := js_sort compareRulesAtSameAmount
                    (List.filter (fun rule => neqb (discountKrw rule) amount) candidates) in
      Some (head same, same)
  end.

(** ** Allocation by weight *)

Record share := { key : str; floorUnits : num; remainder : num }.

(** [new Map(entries)]. *)
Definition js_map {V} (entries : list (str * V)) : list (str * V) :=
  fold_left (fun m e => map_set m (fst e) (snd e)) entries [].

(** [largestRemainders[i].floorUnits += 1] changes the object that [shares]
    holds as well; the object is identified by its key, unique in the map. *)
Definition bump (k : str) (shares : list share) : list share :=
  map (fun s => if decide (key s = k)
                then {| key := key s; floorUnits := nadd (floorUnits s) (ofZ 1); remainder := remainder s |}
                else s) shares.

Fixpoint distribute (fuel : nat) (index : Z) (remainingUnits : num) (order : list str)
    (shares : list share) : list share :=
  match fuel with
  | O => shares
  | S fuel' =>
      if nltb (ofZ index) remainingUnits then
        match order !! (Z.to_nat index mod List.length order)%nat with
        | Some k => distribute fuel' (index + 1) remainingUnits order (bump k shares)
        | None => shares
        end
      else shares
  end.

Definition share_of (totalUnits totalWeight : num) (entry : str * num) : share :=
  let exactUnits := ndiv (nmul totalUnits (snd entry)) totalWeight in
  let floorUnits := JsNumber.floor exactUnits in
  {| key := fst entry; floorUnits := floorUnits; remainder := nsub exactUnits floorUnits |}.

Definition weight_entries (weights : list (str * num)) : list (str * num) :=
  js_sort (fun l r => locale_compare (fst l) (fst r))
    (map (fun e => (fst e, if isFinite (snd e) then nmax (ofZ 0) (snd e) else ofZ 0)) weights).

Definition compare_remainders (left right : share) : Z :=
  nsign (nsub (remainder right) (remainder left)) ||| locale_compare (key left) (key right).

Definition allocateNonNegativeByWeight (totalAmount : num) (weights : list (str * num))
    : option (list (str * num)) :=
  if negb (isFinite totalAmount) || nltb totalAmount (ofZ 0) || negb (truthy_list weights) then None
  else
    let entries := weight_entries weights in
    let totalWeight := nsum (map snd entries) in
    if negb (isFinite totalWeight) || nleb totalWeight (ofZ 0) then None
    else
      let moneyScale := if isInteger totalAmount then ofZ 1 else ofZ 100 in
      let totalUnits := round (nmul totalAmount moneyScale) in
      if negb (isSafeInteger totalUnits) || nltb totalUnits (ofZ 0) then None
      else
        let shares := map (share_of totalUnits totalWeight) entries in
        let remainingUnits := nsub totalUnits (nsum (map floorUnits shares)) in
        let largestRemainders := js_sort compare_remainders shares in
        let shares' := distribute (Z.to_nat (toZ remainingUnits) + 1) 0 remainingUnits
                         (map key largestRemainders) shares in
        Some (js_map (map (fun s => (key s, ndiv (floorUnits s) moneyScale))
                        (js_sort (fun l r => locale_compare (key l) (key r)) shares'))).

Definition line_base (line : Cafe24CouponOrderLineInput) : num :=
  nmax (ofZ 0)
    (if isFinite (salePriceKrw line) && isFinite (quantity line)
     then nmul (salePriceKrw line) (quantity line) else ofZ 0).

Fixpoint bases_by_product (lines : list Cafe24CouponOrderLineInput) (m : list (str * num))
    : option (list (str * num)) :=
  match lines with
  | [] => Some m
  | line :: rest =>
      match line_productId line with
      | None | Some [] => None
      | Some p => bases_by_product rest (map_set m p (nadd (map_get m p ?? ofZ 0) (line_base line)))
      end
  end.

Definition allocateCoupon (lines : list Cafe24CouponOrderLineInput) (rule : Cafe24CouponRuleInput)
    : option (list (str * num)) :=
  match scope rule with
  | PRODUCT => match productId rule with
               | None | Some [] => None
               | Some p => Some [(p, discountKrw rule)]
               end
  | GLOBAL =>
      bases ← bases_by_product lines [];
      allocateNonNegativeByWeight (discountKrw rule) bases
  end.

(** ** Resolution of an order *)

Definition has_product (line : Cafe24CouponOrderLineInput) : bool :=
  match line_productId line with None | Some [] => false | Some _ => true end.

Definition candidate_rules (rules : list Cafe24CouponRuleInput) (orderDate : Z) (productIds : list str)
    : list Cafe24CouponRuleInput :=
  js_sort (fun l r => locale_compare (id l) (id r))
    (List.filter (fun rule => isRuleEligible rule orderDate productIds) rules).

(** The part after a rule was selected. *)
Definition apply_selection (withGap : Cafe24CouponResolution) (gap : num)
    (lines : list Cafe24CouponOrderLineInput) (candidateIds : list str)
    (rule : Cafe24CouponRuleInput) (sameAmountRules : list Cafe24CouponRuleInput)
    : Cafe24CouponResolution :=
  let tie := if (1 <? List.length sameAmountRules)%nat then [RULE_TIE_RESOLVED_BY_PRIORITY] else [] in
  match allocateCoupon lines rule with
  | None => unmatched_with withGap (tie ++ [NON_POSITIVE_ALLOCATION_BASE]) candidateIds
  | Some allocations =>
      let deduction := discountKrw rule in
      let residual := nmax (ofZ 0) (nsub gap deduction) in
      {| orderNo := orderNo withGap; orderDate := orderDate withGap;
         couponDetected := couponDetected withGap; status := APPLIED;
         confidence := if nleb (nabs (nsub gap deduction)) AMOUNT_TOLERANCE_KRW
                       then EXACT else ESTIMATED;
         totalOrderKrw := totalOrderKrw withGap; totalPaidKrw := totalPaidKrw withGap;
         observedGapKrw := observedGapKrw withGap; selectedRuleId := Some (id rule);
         selectedRuleName := Some (name rule); selectedScope := Some (scope rule);
         couponDeductionKrw := deduction; ignoredResidualKrw := residual;
         allocationsByProductId := allocations;
         warningCodes := tie ++ (if nltb AMOUNT_TOLERANCE_KRW residual
                                 then [IGNORED_RESIDUAL_EXISTS] else []);
         candidateRuleIds := candidateIds |}
  end.

Definition resolveCafe24CouponOrder (no : str) (lines : list Cafe24CouponOrderLineInput)
    (rules : list Cafe24CouponRuleInput) : Cafe24CouponResolution :=
  let orderDate := firstDate lines in
  let totalOrderKrw := firstFiniteAmount (map line_totalOrderKrw lines) in
  let totalPaidKrw := firstFiniteAmount (map line_totalPaidKrw lines) in
  let couponDetected :=
    existsb (fun line => existsb (str_eqb (js "쿠폰")) (paymentTokens (paymentMethod line))) lines in
  let base := baseResolution no orderDate couponDetected totalOrderKrw totalPaidKrw in
  if negb couponDetected then
    set_gap base (match totalOrderKrw, totalPaidKrw with
                  | Some o, Some p => Some (nsub o p)
                  | _, _ => None
                  end)
  else if existsb (fun line => bool_decide (isValid line = Some false)) lines then
    unmatched base INCOMPLETE_ORDER_DATA []
  else if negb (truthy_list lines)
          || existsb (fun line => negb (isFiniteAmount (line_totalOrderKrw line))) lines then
    unmatched base MISSING_TOTAL_ORDER []
  else if negb (datesAreConsistent (map line_orderDate lines)) then
    unmatched base INCONSISTENT_ORDER_DATE []
  else if negb (amountsAreConsistent (map line_totalOrderKrw lines)) then
    unmatched base INCONSISTENT_TOTAL_ORDER []
  else if negb (amountsAreConsistent (map line_totalPaidKrw lines)) then
    unmatched base INCONSISTENT_TOTAL_PAID []
  else
    match totalOrderKrw, totalPaidKrw with
    | Some total, Some paid =>
        let gap := nsub total paid in
        let withGap := set_gap base (Some gap) in
        if nleb gap (ofZ 0) then unmatched withGap NON_POSITIVE_GAP []
        else
          let matchedLineCount := List.length (List.filter has_product lines) in
          if (matchedLineCount =? 0)%nat then unmatched withGap UNMATCHED_PRODUCT []
          else if negb (matchedLineCount =? List.length lines)%nat then
            unmatched withGap PARTIAL_PRODUCT_MAPPING []
          else
            match orderDate with
            | Some (Some date) =>
                let productIds := js_unique (List.filter truthy (omap line_productId lines)) in
                let candidates := candidate_rules rules date productIds in
                let candidateIds := map id candidates in
                if negb (truthy_list candidates) then
                  unmatched withGap NO_ACTIVE_COUPON_RULE candidateIds
                else
                  match selectCouponRule candidates gap with
                  | Some (Some rule, same) =>
                      apply_selection withGap gap lines candidateIds rule same
                  | _ => unmatched withGap NO_PLAUSIBLE_COUPON_AMOUNT candidateIds
                  end
            | _ => unmatched withGap NO_ACTIVE_COUPON_RULE []
            end
    | _, _ => unmatched base INCONSISTENT_TOTAL_PAID []
    end.
End coupon.

(** ** Which rule is selected *)

Section selection.
Context `{IcuLaws}.

Definition disc (rule : Cafe24CouponRuleInput) : Z := toZ (discountKrw rule).

(** A rule whose discount is a whole positive amount. *)
Definition whole_rule (rule : Cafe24CouponRuleInput) : Prop :=
  discountKrw rule = ofZ (disc rule) /\ 0 < disc rule < 2 ^ 52.

(** [a] explains the gap at least as well as [b]: it is closer to the gap, or as
    close and not smaller. *)
Definition explains_better (gap : Z) (a b : Cafe24CouponRuleInput) : Prop :=
  Z.abs (gap - disc a) < Z.abs (gap - disc b)
  \/ (Z.abs (gap - disc a) = Z.abs (gap - disc b) /\ disc b <= disc a).

Lemma map_whole (f : Cafe24CouponRuleInput -> num) (g : Cafe24CouponRuleInput -> Z) l :
  (forall c, c ∈ l -> f c = ofZ (g c)) -> map f l = map ofZ (map g l).
Proof.
  intros F. rewrite map_map. apply map_ext_in. intros c Hc. apply F. by apply list_elem_of_In.
Qed.

Lemma safe_map (g : Cafe24CouponRuleInput -> Z) l :
  (forall c, c ∈ l -> safe (g c)) -> Forall safe (map g l).
Proof. intros F. apply Forall_map, Forall_forall. exact F. Qed.

Lemma map_non_nil {A B} (f : A -> B) l : truthy_list l = true -> map f l <> [].
Proof. by destruct l. Qed.

Lemma difference_whole gap c :
  0 < gap < 2 ^ 52 -> whole_rule c -> difference (ofZ gap) c = ofZ (Z.abs (gap - disc c)).
Proof.
  intros Hg [E D]. unfold difference. rewrite E, nsub_ofZ, nabs_ofZ by (unfold safe; lia). done.
Qed.

Lemma selected_amount_spec cands gap :
  0 < gap < 2 ^ 52 -> (forall c, c ∈ cands -> whole_rule c) ->
  match selected_amount cands (ofZ gap) with
  | None => forall c, c ∈ cands -> gap + 1 < disc c
  | Some amount =>
      exists c0, c0 ∈ cands /\ amount = ofZ (disc c0) /\ disc c0 <= gap + 1
        /\ forall c, c ∈ cands -> disc c <= gap + 1 -> explains_better gap c0 c
  end.
Proof.
  intros Hg W. unfold selected_amount, AMOUNT_TOLERANCE_KRW, explains_better.
  rewrite (filterb_ext _ (fun c => Z.abs (gap - disc c) <=? 1)).
  2:{ intros c Hc. destruct (W c Hc). rewrite difference_whole by auto.
      rewrite nleb_ofZ by (unfold safe; lia). done. }
  rewrite (filterb_ext (fun rule => nleb (discountKrw rule) _) (fun c => disc c <=? gap + 1)).
  2:{ intros c Hc. destruct (W c Hc) as [E ?].
      rewrite E, nadd_ofZ, nleb_ofZ by (unfold safe; lia). done. }
  set (exact := List.filter (fun c => Z.abs (gap - disc c) <=? 1) cands).
  set (plausible := List.filter (fun c => disc c <=? gap + 1) cands).
  assert (Ex : forall c, c ∈ exact <-> c ∈ cands /\ Z.abs (gap - disc c) <= 1)
    by (intros c; unfold exact; rewrite elem_of_filterb, Z.leb_le; done).
  assert (Pl : forall c, c ∈ plausible <-> c ∈ cands /\ disc c <= gap + 1)
    by (intros c; unfold plausible; rewrite elem_of_filterb, Z.leb_le; done).
  destruct (truthy_list exact) eqn:Te.
  - (* some rule is within the tolerance *)
    rewrite (map_whole (difference (ofZ gap)) (fun c => Z.abs (gap - disc c))).
    2:{ intros c [Hc _]%Ex. apply difference_whole; auto. }
    destruct (nmin_list_ofZ (map (fun c => Z.abs (gap - disc c)) exact)) as (m & Im & -> & Lm);
      [by apply map_non_nil|apply safe_map; intros c [_ ?]%Ex; unfold safe; lia|].
    apply in_map_iff in Im as (cm & Em & Im). apply list_elem_of_In in Im.
    rewrite (filterb_ext _ (fun c => Z.abs (gap - disc c) =? m)).
    2:{ intros c [Hc Hd]%Ex. rewrite difference_whole by auto.
        apply Ex in Im as [? ?]. rewrite nsub_ofZ, nabs_ofZ, nltb_EPSILON by (unfold safe; lia). lia. }
    set (closest := List.filter _ exact).
    assert (Cl : forall c, c ∈ closest <-> c ∈ exact /\ Z.abs (gap - disc c) = m)
      by (intros c; unfold closest; rewrite elem_of_filterb, Z.eqb_eq; done).
    rewrite (map_whole discountKrw disc) by (intros c [[Hc _]%Ex _]%Cl; apply (W c Hc)).
    destruct (nmax_list_ofZ (map disc closest)) as (a & Ia & -> & La).
    { apply map_non_nil. assert (I : cm ∈ closest) by (by apply Cl).
      destruct closest; [by apply elem_of_nil in I|done]. }
    { apply safe_map. intros c [[Hc _]%Ex _]%Cl. destruct (W c Hc). unfold safe. lia. }
    apply in_map_iff in Ia as (c0 & <- & I0). apply list_elem_of_In, Cl in I0 as [I0 E0].
    pose proof I0 as [I0' D0]%Ex. exists c0. split; [done|]. split; [done|]. split; [lia|].
    intros c Hc Hd. destruct (Z.le_gt_cases (Z.abs (gap - disc c)) 1) as [L|G]; [|lia].
    assert (Ic : c ∈ exact) by by apply Ex.
    assert (M : m <= Z.abs (gap - disc c))
      by (apply Lm; apply (in_map (fun c => Z.abs (gap - disc c))); by apply list_elem_of_In).
    destruct (Z.eq_dec (Z.abs (gap - disc c)) m) as [E|N]; [|lia]. right. split; [lia|].
    apply La, in_map, list_elem_of_In, Cl. done.
  - assert (Ne : forall c, c ∈ cands -> 1 < Z.abs (gap - disc c)).
    { intros c Hc. destruct (Z.le_gt_cases (Z.abs (gap - disc c)) 1) as [L|G]; [|lia].
      assert (I : c ∈ exact) by by apply Ex. destruct exact; [by apply elem_of_nil in I|done]. }
    destruct (truthy_list plausible) eqn:Tp.
    + rewrite (map_whole discountKrw disc) by (intros c [Hc _]%Pl; apply (W c Hc)).
      destruct (nmax_list_ofZ (map disc plausible)) as (a & Ia & -> & La).
      { by apply map_non_nil. }
      { apply safe_map. intros c [Hc _]%Pl. destruct (W c Hc). unfold safe. lia. }
      apply in_map_iff in Ia as (c0 & <- & I0). apply list_elem_of_In, Pl in I0 as [I0 D0].
      exists c0. do 2 (split; [done|]). split; [lia|]. intros c Hc Hd.
      assert (disc c <= disc c0) by (apply La, in_map, list_elem_of_In, Pl; done).
      pose proof (Ne c Hc). pose proof (Ne c0 I0). lia.
    + intros c Hc. destruct (Z.lt_ge_cases (gap + 1) (disc c)) as [?|G]; [done|].
      assert (I : c ∈ plausible) by by apply Pl. destruct plausible; [by apply elem_of_nil in I|done].
Qed.

Definition scope_rank (rule : Cafe24CouponRuleInput) : Z :=
  match scope rule with PRODUCT => 0 | GLOBAL => 1 end.

#[export] Instance compareRulesAtSameAmount_comparator : Comparator compareRulesAtSameAmount.
Proof.
  assert (C : Comparator (fun l r : Cafe24CouponRuleInput =>
    (scope_rank l - scope_rank r)
    ||| ((priority l - priority r) ||| (dateValue (validFrom r) - dateValue (validFrom l))
         ||| (createdAt r - createdAt l) ||| locale_compare (id l) (id r)))).
  { apply comparator_or; [apply (comparator_key scope_rank)|].
    apply (comparator_or (fun a b => _ ||| _)); [apply (comparator_or (fun a b => _ ||| _))|].
    - apply comparator_or; [apply (comparator_key priority)|
        apply (comparator_key_desc (fun r => dateValue (validFrom r)))].
    - apply (comparator_key_desc createdAt).
    - apply (comparator_on id), locale_compare_comparator. }
  assert (E : forall l r, compareRulesAtSameAmount l r
    = (scope_rank l - scope_rank r)
      ||| ((priority l - priority r) ||| (dateValue (validFrom r) - dateValue (validFrom l))
           ||| (createdAt r - createdAt l) ||| locale_compare (id l) (id r))).
  { intros l r. unfold compareRulesAtSameAmount, scope_rank.
    destruct (scope l), (scope r); reflexivity. }
  destruct C as [An Tr]. split; intros; rewrite !E in *; eauto.
Qed.

(** C39: for whole amounts the selected coupon is one that does not exceed the
    gap by more than the tolerance and explains it best among those: it is the
    closest to the gap and, among equally close ones, the larger amount; rules of
    the same amount are decided by scope, priority, start, creation and id.  None
    is selected only when every coupon exceeds the gap beyond the tolerance. *)
Theorem selectCouponRule_spec cands gap :
  0 < gap < 2 ^ 52 -> (forall c, c ∈ cands -> whole_rule c) ->
  match selectCouponRule cands (ofZ gap) with
  | None => forall c, c ∈ cands -> gap + 1 < disc c
  | Some (selected, same) =>
      exists rule, selected = Some rule /\ rule ∈ cands /\ disc rule <= gap + 1
        /\ (forall c, c ∈ cands -> disc c <= gap + 1 -> explains_better gap rule c)
        /\ same ≡ₚ List.filter (fun c => disc c =? disc rule) cands
        /\ (forall c, c ∈ cands -> disc c = disc rule -> compareRulesAtSameAmount rule c <= 0)
  end.
Proof.
  intros Hg W. unfold selectCouponRule. pose proof (selected_amount_spec cands gap Hg W) as S.
  destruct (selected_amount cands (ofZ gap)) as [amount|]; [|done].
  destruct S as (c0 & I0 & -> & D0 & B0).
  assert (F : List.filter (fun rule => neqb (discountKrw rule) (ofZ (disc c0))) cands
              = List.filter (fun c => disc c =? disc c0) cands).
  { apply filterb_ext. intros c Hc. destruct (W c Hc) as [E ?], (W c0 I0).
    rewrite E. apply neqb_ofZ; unfold safe; lia. }
  rewrite F. clear F. set (same := List.filter _ cands).
  destruct (js_sort compareRulesAtSameAmount same) as [|rule rest] eqn:E.
  - exfalso. assert (I : c0 ∈ js_sort compareRulesAtSameAmount same)
      by (apply elem_of_js_sort, elem_of_filterb; split; [done|apply Z.eqb_refl]).
    rewrite E in I. by apply elem_of_nil in I.
  - pose proof E as [I M]%js_sort_head; [|apply _]. apply elem_of_filterb in I as [I Er].
    apply Z.eqb_eq in Er. exists rule. split; [done|]. split; [done|]. split; [lia|]. split.
    { intros c Hc Hd. specialize (B0 c Hc Hd). unfold explains_better in *. by rewrite Er. }
    split; [rewrite <- E, js_sort_perm, Er; done|].
    intros c Hc Hd. apply M, elem_of_filterb. split; [done|]. apply Z.eqb_eq. lia.
Qed.
End selection.

Lemma selectCouponRule_spec_witness :
  let rule i d := {| id := js i; name := js i; scope := GLOBAL; productId := None;
                     discountKrw := ofZ d; priority := 0; validFrom := 0; validTo := None;
                     isActive := true; createdAt := 0 |} in
  let cands := [rule "a" 3000; rule "b" 4999; rule "c" 5001; rule "d" 9000]%string in
  match @selectCouponRule c_locale cands (ofZ 5000) with
  | Some (Some r, _) => id r = js "c" /\ disc r <= 5001
  | _ => False
  end.
Proof.
  intros rule cands.
  assert (W : forall c, c ∈ cands -> whole_rule c).
  { intros c Hc. apply list_elem_of_In in Hc. destruct Hc as [<-|[<-|[<-|[<-|[]]]]]; by vm_compute. }
  pose proof (@selectCouponRule_spec c_locale c_locale_laws cands 5000 ltac:(lia) W) as S.
  destruct (selectCouponRule cands (ofZ 5000)) as [[sel same]|] eqn:E; [|vm_compute in E; discriminate E].
  destruct S as (r & -> & _ & D & _). vm_compute in E. injection E as E _. subst r.
  split; [reflexivity|exact D].
Defined.

(** ** Allocation on whole amounts *)

Section allocation.
Context `{Icu}.

Definition whole_entry (e : str * Z) : str * num := (fst e, ofZ (snd e)).
Definition weight_sum (es : list (str * Z)) : Z := zsum (map snd es).

(** The share of an entry and what it is rounded down to. *)
Definition quota (total : Z) (es : list (str * Z)) (e : str * Z) : Z := total * snd e / weight_sum es.

(** Bumping the keys of a list without repetition adds one unit to each. *)
Definition bumped (ks : list str) (s : share) : share :=
  if bool_decide (key s ∈ ks)
  then {| key := key s; floorUnits := nadd (floorUnits s) (ofZ 1); remainder := remainder s |} else s.

Lemma key_bumped ks s : key (bumped ks s) = key s.
Proof. unfold bumped. by case_bool_decide. Qed.

Lemma fold_bump ks shares :
  NoDup ks -> fold_left (fun sh k => bump k sh) ks shares = map (bumped ks) shares.
Proof.
  revert shares. induction ks as [|k ks IH]; intros shares N; simpl.
  - rewrite <- (map_id shares) at 1. apply map_ext. intros s. unfold bumped.
    by rewrite bool_decide_eq_false_2 by apply not_elem_of_nil.
  - apply NoDup_cons in N as [Nk N]. rewrite IH by done. unfold bump. rewrite map_map.
    apply map_ext. intros s. unfold bumped. destruct (decide (key s = k)) as [->|Ne]; simpl.
    + rewrite bool_decide_eq_false_2 by done.
      by rewrite bool_decide_eq_true_2 by apply list_elem_of_here.
    + destruct (decide (key s ∈ ks)) as [I|I].
      * rewrite !bool_decide_eq_true_2 by (try done; by apply list_elem_of_further). done.
      * rewrite !bool_decide_eq_false_2; [done| |done]. rewrite elem_of_cons. tauto.
Qed.

(** The loop stops after [remaining] steps, one key each. *)
Lemma distribute_steps fuel i remaining order shares :
  0 <= i <= remaining -> remaining <= Z.of_nat (List.length order) -> safe remaining ->
  remaining - i < Z.of_nat fuel ->
  distribute fuel i (ofZ remaining) order shares
  = fold_left (fun sh k => bump k sh) (firstn (Z.to_nat (remaining - i)) (skipn (Z.to_nat i) order)) shares.
Proof.
  revert i shares. induction fuel as [|fuel IH]; intros i shares Hi Hn Hs Hf; [lia|].
  cbn [distribute]. rewrite nltb_ofZ by (unfold safe in *; lia).
  destruct (Z.ltb_spec i remaining) as [L|G].
  - rewrite Nat.mod_small by lia.
    destruct (order !! Z.to_nat i) as [k|] eqn:E.
    + rewrite IH by (lia || done). rewrite (drop_S _ _ _ E).
      replace (Z.to_nat (remaining - i)) with (S (Z.to_nat (remaining - (i + 1)))) by lia.
      replace (Z.to_nat (i + 1)) with (S (Z.to_nat i)) by lia. done.
    + apply lookup_ge_None_1 in E. lia.
  - by replace (Z.to_nat (remaining - i)) with 0%nat by lia.
Qed.

Lemma weight_entries_whole es :
  Forall (fun e => 0 <= snd e < 2 ^ 53) es ->
  weight_entries (map whole_entry es)
  = map whole_entry (js_sort (fun l r => locale_compare (fst l) (fst r)) es).
Proof.
  intros F. unfold weight_entries. rewrite map_map.
  rewrite <- (js_sort_map whole_entry (fun l r => locale_compare (fst l) (fst r))) by done.
  f_equal. apply map_ext_in. intros [k w] I. rewrite Forall_forall in F.
  apply list_elem_of_In, F in I. simpl in *. unfold whole_entry. simpl.
  rewrite isFinite_ofZ, (nmax_ofZ 0) by (unfold safe; lia). by rewrite Z.max_r by lia.
Qed.

(** The quotas fall short of the total by less than the number of entries. *)
Lemma quotas_short total es0 es :
  0 < weight_sum es0 ->
  exists r, total * weight_sum es = zsum (map (quota total es0) es) * weight_sum es0 + r
            /\ 0 <= r /\ (r < weight_sum es0 * Z.of_nat (List.length es) \/ (es = [] /\ r = 0)).
Proof.
  intros P. induction es as [|e es (r & E & R)].
  - exists 0. unfold weight_sum. simpl. split; [lia|]. split; [lia|right; done].
  - exists (r + (total * snd e) mod weight_sum es0).
    pose proof (Z.mod_pos_bound (total * snd e) _ P) as M.
    pose proof (Z.div_mod (total * snd e) (weight_sum es0) ltac:(lia)) as D.
    change (weight_sum (e :: es)) with (snd e + weight_sum es).
    change (zsum (map (quota total es0) (e :: es)))
      with (quota total es0 e + zsum (map (quota total es0) es)).
    unfold quota at 1. cbn [List.length]. destruct R as [R0 R].
    split; [nia|]. split; [lia|]. left.
    destruct R as [?|[-> ->]]; simpl List.length; nia.
Qed.

Lemma zsum_nonneg zs : Forall (fun z => 0 <= z) zs -> 0 <= zsum zs /\ abs_sum zs = zsum zs.
Proof. unfold abs_sum. induction 1; simpl in *; lia. Qed.

(** Adding one to the elements of a subset adds its size to the sum. *)
Lemma zsum_indicator {A} (f : A -> Z) (p : A -> bool) l :
  zsum (map (fun x => f x + if p x then 1 else 0) l)
  = zsum (map f l) + Z.of_nat (List.length (List.filter p l)).
Proof. induction l as [|x l IH]; simpl; [lia|]. destruct (p x); simpl List.length; lia. Qed.

Lemma js_map_fresh {V} (l acc : list (str * V)) :
  NoDup (map fst (acc ++ l)) ->
  fold_left (fun m e => map_set m (fst e) (snd e)) l acc = acc ++ l.
Proof.
  revert acc. induction l as [|[k v] l IH]; intros acc N; simpl; [by rewrite app_nil_r|].
  assert (S : map_set acc k v = acc ++ [(k, v)]).
  { rewrite map_app in N. apply NoDup_app in N as (_ & N & _). simpl in N.
    assert (Nk : k ∉ map fst acc) by (intros I; apply (N k I), list_elem_of_here).
    clear N. induction acc as [|[k' v'] acc IHa]; simpl in *; [done|].
    rewrite elem_of_cons in Nk. rewrite decide_False by naive_solver. rewrite IHa; naive_solver. }
  rewrite S, IH by (by rewrite <- app_assoc). by rewrite <- app_assoc.
Qed.

(** The units of an entry once the first [ks] were bumped. *)
Definition units (total : Z) (es : list (str * Z)) (ks : list str) (e : str * Z) : Z :=
  quota total es e + if bool_decide (fst e ∈ ks) then 1 else 0.

Lemma quota_bounds total es e :
  0 <= total -> 0 < weight_sum es -> Forall (fun e => 0 <= snd e) es -> e ∈ es ->
  0 <= total * snd e <= total * weight_sum es /\ 0 <= quota total es e <= total
  /\ 0 <= snd e <= weight_sum es.
Proof.
  intros Ht Hw F I. assert (B : 0 <= snd e <= weight_sum es).
  { clear Hw. unfold weight_sum. induction F as [|x l Hx F IH]; [by apply elem_of_nil in I|].
    assert (0 <= zsum (map snd l)) by (clear -F; induction F; simpl; lia).
    simpl. apply elem_of_cons in I as [->|I]; [lia|]. specialize (IH I). lia. }
  assert (M : 0 <= total * snd e <= total * weight_sum es) by nia.
  split; [done|]. split; [|done]. unfold quota. split; [apply Z.div_pos; lia|].
  apply Z.div_le_upper_bound; lia.
Qed.

(** A share before and after the distribution, on whole amounts. *)
Lemma bumped_share total es ks e :
  0 <= total -> 0 < weight_sum es -> (total + 1) * weight_sum es < 2 ^ 53 ->
  Forall (fun e => 0 <= snd e) es -> e ∈ es ->
  let s := share_of (ofZ total) (ofZ (weight_sum es)) (whole_entry e) in
  floorUnits s = ofZ (quota total es e)
  /\ ndiv (floorUnits (bumped ks s)) (ofZ 1) = ofZ (units total es ks e).
Proof.
  intros Ht Hw Hb F I s. destruct (quota_bounds total es e Ht Hw F I) as (M & Q & B).
  assert (E : floorUnits s = ofZ (quota total es e)).
  { unfold s, share_of, whole_entry. simpl.
    rewrite nmul_ofZ by (unfold safe; lia). by rewrite floor_ndiv_ofZ by (unfold safe; lia). }
  split; [done|]. assert (K : key s = fst e) by done. clearbody s.
  unfold bumped, units. rewrite K. case_bool_decide; simpl; rewrite E.
  - rewrite nadd_ofZ, ndiv_ofZ_1 by (unfold safe; nia). done.
  - rewrite ndiv_ofZ_1 by (unfold safe; nia). by rewrite Z.add_0_r.
Qed.

Definition sorted_entries (es : list (str * Z)) : list (str * Z) :=
  js_sort (fun l r => locale_compare (fst l) (fst r)) es.

(** What the function computes on whole amounts: every entry its quota, and one
    unit more to as many keys, without repetition, as the quotas fall short. *)
Lemma allocate_whole total es :
  0 <= total -> 0 < weight_sum es -> (total + 1) * weight_sum es < 2 ^ 53 ->
  Forall (fun e => 0 <= snd e) es -> NoDup (map fst es) ->
  exists ks, NoDup ks /\ (forall k, k ∈ ks -> k ∈ map fst es)
    /\ zsum (map (quota total es) es) + Z.of_nat (List.length ks) = total
    /\ allocateNonNegativeByWeight (ofZ total) (map whole_entry es)
       = Some (map (fun e => whole_entry (fst e, units total es ks e))
                 (sorted_entries (sorted_entries es))).
Proof.
  intros Ht Hw Hb F N. set (ss := sorted_entries es).
  assert (P : ss ≡ₚ es) by apply js_sort_perm.
  assert (Hsw : weight_sum ss = weight_sum es) by (apply zsum_perm; by rewrite P).
  assert (Fs : Forall (fun e => 0 <= snd e) ss) by (by rewrite P).
  assert (Is : forall e, e ∈ ss -> e ∈ es) by (intros e; by rewrite P).
  assert (Hlt : Forall (fun e : str * Z => 0 <= snd e < 2 ^ 53) es).
  { apply Forall_forall. intros e I. pose proof (quota_bounds total es e Ht Hw F I). nia. }
  assert (Hq : zsum (map (quota total es) ss) = zsum (map (quota total es) es))
    by (apply zsum_perm; by rewrite P).
  destruct (quotas_short total es ss Hw) as (r & Er & Rr & Rn). rewrite Hsw in Er.
  set (Q := zsum (map (quota total es) ss)) in *.
  assert (R : 0 <= total - Q < Z.of_nat (List.length ss)).
  { destruct Rn as [Rn|[E _]]; [nia|]. exfalso. rewrite E in Hsw. change (weight_sum []) with 0 in Hsw. lia. }
  set (sh := share_of (ofZ total) (ofZ (weight_sum es))).
  set (order := map key (js_sort compare_remainders (map sh (map whole_entry ss)))).
  assert (Po : order ≡ₚ map fst es).
  { unfold order. rewrite js_sort_perm, !map_map. rewrite <- P. by rewrite (map_ext _ fst). }
  set (ks := firstn (Z.to_nat (total - Q)) order).
  assert (Lo : List.length order = List.length ss) by (rewrite Po, length_map; by rewrite P).
  assert (Lk : List.length ks = Z.to_nat (total - Q)) by (unfold ks; rewrite length_firstn; lia).
  assert (Nk : NoDup ks).
  { assert (No : NoDup order) by (by rewrite Po). rewrite <- (firstn_skipn (Z.to_nat (total - Q)) order) in No.
    by apply NoDup_app in No as (? & _). }
  exists ks. split; [done|]. split.
  { intros k I. rewrite <- Po. rewrite <- (firstn_skipn (Z.to_nat (total - Q)) order).
    apply elem_of_app. by left. }
  split; [rewrite Lk, <- Hq; unfold Q in *; lia|].
  unfold allocateNonNegativeByWeight. rewrite weight_entries_whole by done. fold (sorted_entries es) ss.
  assert (Ht' : total < 2 ^ 53) by nia.
  rewrite isFinite_ofZ, nltb_ofZ by (unfold safe; lia).
  replace (total <? 0) with false by lia.
  replace (truthy_list (map whole_entry es)) with true by (destruct es; [change (weight_sum []) with 0 in Hw; lia|done]).
  cbn [negb orb].
  assert (Fz : Forall (fun z => 0 <= z) (map snd ss)) by (by apply Forall_map).
  assert (Ew : nsum (map snd (map whole_entry ss)) = ofZ (weight_sum es)).
  { rewrite map_map. change (fun x : str * Z => snd (whole_entry x)) with (fun x : str * Z => ofZ (snd x)).
    rewrite <- (map_map snd ofZ). rewrite nsum_ofZ; [by rewrite <- Hsw|].
    destruct (zsum_nonneg _ Fz) as [_ ->]. fold (weight_sum ss). rewrite Hsw. nia. }
  rewrite Ew. rewrite isFinite_ofZ, nleb_ofZ by (unfold safe; nia).
  replace (weight_sum es <=? 0) with false by lia. rewrite isInteger_ofZ by (unfold safe; lia). cbn [negb orb].
  rewrite nmul_ofZ by (unfold safe; lia). rewrite Z.mul_1_r, round_ofZ by (unfold safe; lia).
  rewrite isSafeInteger_ofZ, nltb_ofZ by (unfold safe; lia). replace (total <? 0) with false by lia.
  cbn [negb orb]. fold sh order.
  assert (HQ : 0 <= Q /\ abs_sum (map (quota total es) ss) = Q).
  { apply zsum_nonneg, Forall_map, Forall_forall. intros e I%Is. by apply quota_bounds. }
  assert (Ef : nsum (map floorUnits (map sh (map whole_entry ss))) = ofZ Q).
  { rewrite !map_map. rewrite (map_ext_in _ (fun e => ofZ (quota total es e))).
    2:{ intros e I. apply list_elem_of_In, Is in I. by apply (bumped_share total es []). }
    rewrite <- (map_map (quota total es) ofZ). rewrite nsum_ofZ; [done|]. destruct HQ as [_ ->]. lia. }
  rewrite Ef, nsub_ofZ, toZ_ofZ by (unfold safe; lia).
  rewrite distribute_steps by (unfold safe; lia). rewrite Z.sub_0_r, skipn_0. fold ks.
  rewrite fold_bump by done.
  set (g := fun e => bumped ks (sh (whole_entry e))).
  rewrite !map_map. change (fun x => bumped ks (sh (whole_entry x))) with g.
  rewrite (js_sort_map g _ (fun l r => locale_compare (fst l) (fst r)))
    by (intros [] []; unfold g; by rewrite !key_bumped).
  fold (sorted_entries ss). rewrite map_map. f_equal.
  assert (Em : map (fun x => (key (g x), ndiv (floorUnits (g x)) (ofZ 1))) (sorted_entries ss)
               = map (fun e => whole_entry (fst e, units total es ks e)) (sorted_entries ss)).
  { apply map_ext_in. intros e I. apply list_elem_of_In in I. unfold sorted_entries in I.
    rewrite elem_of_js_sort in I. apply Is in I. unfold g. rewrite key_bumped.
    destruct (bumped_share total es ks e Ht Hw Hb F I) as [_ B]. fold sh in B. by rewrite B. }
  unfold js_map. rewrite js_map_fresh; [done|]. simpl. rewrite Em, map_map. simpl.
  unfold sorted_entries. rewrite js_sort_perm, P. done.
Qed.

(** C36: spreading a whole amount by whole weights loses and creates nothing:
    every product of the weights gets exactly one amount, the amounts sum to the
    total, and each is the product's quota rounded down or one more. *)
Theorem allocateNonNegativeByWeight_conserves total es :
  0 <= total -> 0 < weight_sum es -> (total + 1) * weight_sum es < 2 ^ 53 ->
  Forall (fun e => 0 <= snd e) es -> NoDup (map fst es) ->
  exists vs, allocateNonNegativeByWeight (ofZ total) (map whole_entry es) = Some (map whole_entry vs)
    /\ map fst vs ≡ₚ map fst es
    /\ weight_sum vs = total
    /\ forall k w, (k, w) ∈ es -> exists v, (k, v) ∈ vs
         /\ total * w / weight_sum es <= v <= total * w / weight_sum es + 1.
Proof.
  intros Ht Hw Hb F N. destruct (allocate_whole total es Ht Hw Hb F N) as (ks & Nk & Sk & Sum & E).
  set (vs := map (fun e => (fst e, units total es ks e)) (sorted_entries (sorted_entries es))).
  assert (P : sorted_entries (sorted_entries es) ≡ₚ es)
    by (unfold sorted_entries; by rewrite !js_sort_perm).
  exists vs. split; [rewrite E; unfold vs; by rewrite map_map|]. split.
  { unfold vs. rewrite map_map. simpl. by rewrite P. }
  split.
  - unfold vs, weight_sum. rewrite map_map. simpl.
    transitivity (zsum (map (units total es ks) es)); [apply zsum_perm; by rewrite P|].
    unfold units. rewrite (zsum_indicator (quota total es) (fun e => bool_decide (fst e ∈ ks))).
    etransitivity; [|exact Sum]. do 2 f_equal.
    rewrite <- (length_filter_elem ks (map fst es)) by done.
    rewrite <- (length_map fst (List.filter _ es)). f_equal.
    clear. induction es as [|e es IH]; simpl; [done|]. case_bool_decide; simpl; by rewrite IH.
  - intros k w I. exists (units total es ks (k, w)). split.
    + unfold vs. rewrite list_elem_of_In, in_map_iff. exists (k, w). split; [done|].
      rewrite <- list_elem_of_In, P. done.
    + unfold units, quota. simpl. case_bool_decide; lia.
Qed.
End allocation.

Lemma allocateNonNegativeByWeight_conserves_witness :
  let es := [(js "b", 1); (js "a", 1); (js "c", 1)]%string in
  exists vs, @allocateNonNegativeByWeight c_locale (ofZ 1000) (map whole_entry es)
             = Some (map whole_entry vs) /\ weight_sum vs = 1000.
Proof.
  intros es.
  destruct (@allocateNonNegativeByWeight_conserves c_locale 1000 es) as (vs & E & _ & S & _);
    [vm_compute; discriminate|vm_compute; reflexivity..| | |exists vs; exact (conj E S)].
  - repeat constructor; simpl; lia.
  - repeat constructor; rewrite ?elem_of_cons, ?elem_of_nil; vm_compute; intuition congruence.
Defined.

(** ** The outcomes of an order *)

Section resolution.
Context `{Icu}.

Lemma selectCouponRule_elem candidates gap rule same :
  selectCouponRule candidates gap = Some (Some rule, same) -> rule ∈ candidates.
Proof.
  unfold selectCouponRule. destruct (selected_amount _ _); [|done]. intros [= E _].
  destruct (js_sort _ _) as [|r l] eqn:S; [done|]. injection E as ->.
  assert (I : rule ∈ js_sort compareRulesAtSameAmount
                (List.filter (fun r => neqb (discountKrw r) n) candidates))
    by (rewrite S; apply list_elem_of_here).
  rewrite elem_of_js_sort, elem_of_filterb in I. by destruct I.
Qed.

Lemma filter_length_all {A} (p : A -> bool) l :
  List.length (List.filter p l) = List.length l -> forall x, x ∈ l -> p x = true.
Proof.
  induction l as [|y l IH]; simpl; [intros _ ? []%elem_of_nil|].
  destruct (p y) eqn:E; simpl; intros L x.
  - intros [->|Hx]%elem_of_cons; [done|]. apply IH; [lia|done].
  - pose proof (List.filter_length_le p l). lia.
Qed.

(** What an applied coupon satisfies. *)
Definition applied_soundly (lines : list Cafe24CouponOrderLineInput)
    (rules : list Cafe24CouponRuleInput) (r : Cafe24CouponResolution) : Prop :=
  exists rule date gap allocations,
    rule ∈ rules
    /\ orderDate r = Some (Some date)
    /\ isRuleEligible rule date (js_unique (List.filter truthy (omap line_productId lines))) = true
    /\ selectedRuleId r = Some (id rule) /\ selectedScope r = Some (scope rule)
    /\ couponDeductionKrw r = discountKrw rule
    /\ observedGapKrw r = Some gap /\ nleb gap (ofZ 0) = false
    /\ ignoredResidualKrw r = nmax (ofZ 0) (nsub gap (discountKrw rule))
    /\ allocateCoupon lines rule = Some allocations /\ allocationsByProductId r = allocations
    /\ (forall line, line ∈ lines -> has_product line = true).

Lemma apply_selection_outcome withGap gap lines rules ids rule same date :
  couponDetected withGap = true -> observedGapKrw withGap = Some gap ->
  orderDate withGap = Some (Some date) -> nleb gap (ofZ 0) = false -> rule ∈ rules ->
  isRuleEligible rule date (js_unique (List.filter truthy (omap line_productId lines))) = true ->
  (forall line, line ∈ lines -> has_product line = true) ->
  let r := apply_selection withGap gap lines ids rule same in
  couponDetected r = true
  /\ ((status r = APPLIED /\ applied_soundly lines rules r)
      \/ (status r = UNMATCHED /\ warningCodes r <> [] /\ couponDeductionKrw r = ofZ 0
          /\ allocationsByProductId r = [] /\ selectedRuleId r = None)).
Proof.
  intros D G O P I El Hl r. unfold r, apply_selection.
  destruct (allocateCoupon lines rule) as [al|] eqn:A; simpl; (split; [done|]).
  - left. split; [done|]. by exists rule, date, gap, al.
  - right. split; [done|]. split; [|done]. by destruct (if (1 <? _)%nat then _ else _).
Qed.

Ltac unmatched_outcome := right; repeat split; done.

(** An order resolves in one of three ways.  Without a coupon payment it is
    NO_COUPON.  With one, either a rule is APPLIED, in which case the rule was
    given, is eligible on the order's date for its products, the gap is positive,
    every line is mapped to a product and the whole discount is allocated; or
    it is UNMATCHED with a warning, and then nothing is deducted or allocated. *)
Theorem resolveCafe24CouponOrder_outcome no lines rules :
  let r := resolveCafe24CouponOrder no lines rules in
  (status r = NO_COUPON /\ couponDetected r = false /\ couponDeductionKrw r = ofZ 0
   /\ allocationsByProductId r = [])
  \/ (couponDetected r = true
      /\ ((status r = APPLIED /\ applied_soundly lines rules r)
          \/ (status r = UNMATCHED /\ warningCodes r <> [] /\ couponDeductionKrw r = ofZ 0
              /\ allocationsByProductId r = [] /\ selectedRuleId r = None))).
Proof.
  intros r. unfold r, resolveCafe24CouponOrder.
  destruct (existsb _ lines) eqn:Det; [right|by left]. cbn [negb].
  destruct (existsb (fun line => bool_decide _) lines); [split; [done|unmatched_outcome]|].
  destruct (negb (truthy_list lines) || _); [split; [done|unmatched_outcome]|].
  destruct (datesAreConsistent _); [|split; [done|unmatched_outcome]]. cbn [negb].
  destruct (amountsAreConsistent (map line_totalOrderKrw lines)); [|split; [done|unmatched_outcome]].
  destruct (amountsAreConsistent (map line_totalPaidKrw lines)); [|split; [done|unmatched_outcome]].
  cbn [negb].
  destruct (firstFiniteAmount (map line_totalOrderKrw lines)) as [total|]; [|split; [done|unmatched_outcome]].
  destruct (firstFiniteAmount (map line_totalPaidKrw lines)) as [paid|]; [|split; [done|unmatched_outcome]].
  destruct (nleb (nsub total paid) (ofZ 0)) eqn:Gap; [split; [done|unmatched_outcome]|].
  destruct (_ =? 0)%nat; [split; [done|unmatched_outcome]|].
  destruct (_ =? List.length lines)%nat eqn:All; cbn [negb]; [|split; [done|unmatched_outcome]].
  destruct (firstDate lines) as [[date|]|] eqn:Dt; [|split; [done|unmatched_outcome]..].
  set (products := js_unique _). set (cands := candidate_rules rules date products).
  destruct (negb (truthy_list cands)); [split; [done|unmatched_outcome]|].
  destruct (selectCouponRule cands _) as [[[rule|] same]|] eqn:Sel; [|split; [done|unmatched_outcome]..].
  apply selectCouponRule_elem in Sel. unfold cands, candidate_rules in Sel.
  rewrite elem_of_js_sort, elem_of_filterb in Sel. destruct Sel as [I El].
  apply (apply_selection_outcome _ _ _ rules _ _ _ date); try done.
  apply filter_length_all. by apply Nat.eqb_eq.
Qed.
End resolution.
