(* ===== verification/CoupangProfit.v ===== *)
(** * Profit of Coupang sales

    Models [apps/api/src/domain/coupang-profit-calculator.ts]: the profit of
    sales by their fulfilment method, from cost and fee rates, and the cost of
    manual purchases. *)

From S2P Require Import Prelude JsNumber SafeInteger JsString DateNumber.

Local Open Scope Z_scope.

Inductive CoupangFulfillmentMethod := SELLER | GROWTH.

#[export] Instance CoupangFulfillmentMethod_eq : EqDecision CoupangFulfillmentMethod.
Proof. solve_decision. Defined.

Record CoupangProfitOptions := {
  salesFeeRate : num;
  includeReturnCost : option bool;
  useGrowthCost : option bool
}.

Definition VAT_INCLUDED_DIVISOR : num := ofZ 11.

(** An optional fee is [undefined]; the two shipping fees may also be [null],
    which the checks for missing fees tell apart. *)
Record CoupangCostInput := {
  productCostKrw : num;
  sellerShippingFeeKrw : nullish num;
  hanaroShippingFeeKrw : nullish num;
  growthInboundFeeKrw : option num;
  growthShippingFeeKrw : option num;
  returnRate : option num;
  returnCostPerUnitKrw : option num;
  extraCostKrw : option num
}.

Record CoupangSalesInput := {
  saleMethod : option str;
  in_netSalesKrw : num;
  in_salesQuantity : num
}.

Record CoupangProfitSegmentInput := {
  fulfillmentMethod : CoupangFulfillmentMethod;
  seg_netSalesKrw : num;
  seg_salesQuantity : num
}.

Record CoupangAdInput := {
  ad_adSpendKrw : num;
  adGeneratedSalesKrw : num;
  attributedConversionSalesKrw : num
}.

Record CoupangProfitByAccountingBasesInput := {
  recognizedSegments : list CoupangProfitSegmentInput;
  incurredSegments : list CoupangProfitSegmentInput;
  cost : CoupangCostInput;
  ads : CoupangAdInput;
  in_salesFeeRate : num;
  in_includeReturnCost : option bool
}.

Record CoupangProfitResult := {
  netSalesKrw : num;
  res_productCostKrw : num;
  salesFeeKrw : num;
  shippingCostKrw : num;
  returnCostKrw : num;
  res_extraCostKrw : num;
  vatKrw : num;
  adSpendKrw : num;
  totalCostKrw : num;
  marginKrw : num;
  marginRate : option num;
  roas : option num;
  organicSalesKrw : num;
  warnings : list str
}.

Record CoupangSegmentProfitResult := {
  profit : CoupangProfitResult;
  sellerSalesQuantity : num;
  growthSalesQuantity : num;
  sellerShippingCostKrw : num;
  hanaroShippingCostKrw : num;
  growthInboundCostKrw : num;
  growthShippingCostKrw : num;
  totalLogisticsCostKrw : num
}.

Record CoupangManualPurchaseCostResult := {
  vendorFeeTotalKrw : num;
  manual_totalCostKrw : num
}.

Definition finiteNumber (value : option num) : num :=
  match value with Some x => if isFinite x then x else ofZ 0 | None => ofZ 0 end.

Definition vatFromVatIncludedAmount (amountKrw : num) : num :=
  ndiv (finiteNumber (Some amountKrw)) VAT_INCLUDED_DIVISOR.

Definition roundMoney (value : num) : num :=
  ndiv (JsNumber.round (nmul (nadd value EPSILON) (ofZ 100))) (ofZ 100).

(** [sum(values)]. *)
Definition sum (values : list num) : num :=
  fold_left (fun total value => nadd total (finiteNumber (Some value))) values (ofZ 0).

Section profit.
Context `{Icu}.

Definition parseExplicitCoupangFulfillmentMethod (value : option str)
    : option CoupangFulfillmentMethod :=
  let normalized := remove_ws (to_lower (value ?? [])) in
  if includes (js "growth") normalized || includes (js "rocket") normalized
     || includes (js "로켓") normalized || includes (js "그로스") normalized
  then Some GROWTH
  else if includes (js "seller") normalized || includes (js "판매자") normalized
  then Some SELLER
  else None.

Definition normalizeCoupangFulfillmentMethod (value : option str) : CoupangFulfillmentMethod :=
  parseExplicitCoupangFulfillmentMethod value ?? SELLER.

Definition isGrowthSaleMethod (value : option str) : bool :=
  bool_decide (normalizeCoupangFulfillmentMethod value = GROWTH).

Definition shippingCost (saleMethod : option str) (cost : CoupangCostInput) (quantity : num)
    (useGrowthCost : option bool) : num :=
  let seller := nmul (finiteNumber (nullish_option (sellerShippingFeeKrw cost))) quantity in
  if bool_decide (useGrowthCost = Some false) then seller
  else if isGrowthSaleMethod saleMethod then
    nmul (nadd (nadd (finiteNumber (nullish_option (hanaroShippingFeeKrw cost)))
                  (finiteNumber (growthInboundFeeKrw cost)))
            (finiteNumber (growthShippingFeeKrw cost))) quantity
  else seller.

Definition exceeds_warning (organicSalesKrw : num) : list str :=
  if nltb organicSalesKrw (ofZ 0) then [js "AD_CONVERSION_EXCEEDS_NET_SALES"] else [].

Definition calculateCoupangProfit (sales : CoupangSalesInput) (cost : CoupangCostInput)
    (ads : CoupangAdInput) (options : CoupangProfitOptions) : CoupangProfitResult :=
  let quantity := finiteNumber (Some (in_salesQuantity sales)) in
  let netSalesKrw := finiteNumber (Some (in_netSalesKrw sales)) in
  let productCostKrw := nmul (finiteNumber (Some (productCostKrw cost))) quantity in
  let salesFeeKrw := nmul netSalesKrw (finiteNumber (Some (salesFeeRate options))) in
  let shippingCostKrw := shippingCost (saleMethod sales) cost quantity (useGrowthCost options) in
  let returnCostKrw :=
    if bool_decide (includeReturnCost options = Some false) then ofZ 0
    else nmul (nmul quantity (finiteNumber (returnRate cost)))
           (finiteNumber (returnCostPerUnitKrw cost)) in
  let extraCostKrw := nmul (finiteNumber (extraCostKrw cost)) quantity in
  let vatKrw := vatFromVatIncludedAmount netSalesKrw in
  let adSpendKrw := finiteNumber (Some (ad_adSpendKrw ads)) in
  let totalCostKrw :=
    nadd (nadd (nadd (nadd (nadd (nadd productCostKrw salesFeeKrw) shippingCostKrw) returnCostKrw)
            extraCostKrw) vatKrw) adSpendKrw in
  let marginKrw := nsub netSalesKrw totalCostKrw in
  let organicSalesKrw := nsub netSalesKrw (finiteNumber (Some (attributedConversionSalesKrw ads))) in
  {| netSalesKrw := netSalesKrw; res_productCostKrw := productCostKrw; salesFeeKrw := salesFeeKrw;
     shippingCostKrw := shippingCostKrw; returnCostKrw := returnCostKrw;
     res_extraCostKrw := extraCostKrw; vatKrw := vatKrw; adSpendKrw := adSpendKrw;
     totalCostKrw := totalCostKrw; marginKrw := marginKrw;
     marginRate := safeDivide marginKrw netSalesKrw;
     roas := safeDivide (finiteNumber (Some (adGeneratedSalesKrw ads))) adSpendKrw;
     organicSalesKrw := organicSalesKrw; warnings := exceeds_warning organicSalesKrw |}.

Definition no_ads : CoupangAdInput :=
  {| ad_adSpendKrw := ofZ 0; adGeneratedSalesKrw := ofZ 0; attributedConversionSalesKrw := ofZ 0 |}.

Definition method_text (m : CoupangFulfillmentMethod) : str :=
  match m with SELLER => js "SELLER" | GROWTH => js "GROWTH" end.

(** The profit of one incurred segment, before advertising. *)
Definition segment_result (input : CoupangProfitByAccountingBasesInput)
    (segment : CoupangProfitSegmentInput) : CoupangProfitResult :=
  calculateCoupangProfit
    {| saleMethod := Some (method_text (fulfillmentMethod segment));
       in_netSalesKrw := seg_netSalesKrw segment;
       in_salesQuantity := seg_salesQuantity segment |}
    (cost input) no_ads
    {| salesFeeRate := in_salesFeeRate input; includeReturnCost := in_includeReturnCost input;
       useGrowthCost := Some true |}.

Definition method_quantity (m : CoupangFulfillmentMethod) (segments : list CoupangProfitSegmentInput)
    : num :=
  sum (map (fun s => finiteNumber (Some (seg_salesQuantity s)))
         (List.filter (fun s => bool_decide (fulfillmentMethod s = m)) segments)).

Definition calculateCoupangProfitByAccountingBases (input : CoupangProfitByAccountingBasesInput)
    : CoupangSegmentProfitResult :=
  let results := map (segment_result input) (incurredSegments input) in
  let netSalesKrw :=
    sum (map (fun s => finiteNumber (Some (seg_netSalesKrw s))) (recognizedSegments input)) in
  let productCostKrw := sum (map res_productCostKrw results) in
  let salesFeeKrw := sum (map salesFeeKrw results) in
  let sellerSalesQuantity := method_quantity SELLER (incurredSegments input) in
  let growthSalesQuantity := method_quantity GROWTH (incurredSegments input) in
  let sellerShippingCostKrw :=
    nmul (finiteNumber (nullish_option (sellerShippingFeeKrw (cost input)))) sellerSalesQuantity in
  let hanaroShippingCostKrw :=
    nmul (finiteNumber (nullish_option (hanaroShippingFeeKrw (cost input)))) growthSalesQuantity in
  let growthInboundCostKrw :=
    nmul (finiteNumber (growthInboundFeeKrw (cost input))) growthSalesQuantity in
  let growthShippingCostKrw :=
    nmul (finiteNumber (growthShippingFeeKrw (cost input))) growthSalesQuantity in
  let totalLogisticsCostKrw :=
    nadd (nadd (nadd sellerShippingCostKrw hanaroShippingCostKrw) growthInboundCostKrw)
      growthShippingCostKrw in
  let returnCostKrw := sum (map returnCostKrw results) in
  let extraCostKrw := sum (map res_extraCostKrw results) in
  let vatKrw := sum (map vatKrw results) in
  let adSpendKrw := finiteNumber (Some (ad_adSpendKrw (ads input))) in
  let totalCostKrw :=
    nadd (nadd (nadd (nadd (nadd (nadd productCostKrw salesFeeKrw) totalLogisticsCostKrw)
            returnCostKrw) extraCostKrw) vatKrw) adSpendKrw in
  let marginKrw := nsub netSalesKrw totalCostKrw in
  let organicSalesKrw :=
    nsub netSalesKrw (finiteNumber (Some (attributedConversionSalesKrw (ads input)))) in
  {| profit :=
       {| netSalesKrw := netSalesKrw; res_productCostKrw := productCostKrw;
          salesFeeKrw := salesFeeKrw; shippingCostKrw := totalLogisticsCostKrw;
          returnCostKrw := returnCostKrw; res_extraCostKrw := extraCostKrw; vatKrw := vatKrw;
          adSpendKrw := adSpendKrw; totalCostKrw := totalCostKrw; marginKrw := marginKrw;
          marginRate := safeDivide marginKrw netSalesKrw;
          roas := safeDivide (finiteNumber (Some (adGeneratedSalesKrw (ads input)))) adSpendKrw;
          organicSalesKrw := organicSalesKrw; warnings := exceeds_warning organicSalesKrw |};
     sellerSalesQuantity := sellerSalesQuantity; growthSalesQuantity := growthSalesQuantity;
     sellerShippingCostKrw := sellerShippingCostKrw; hanaroShippingCostKrw := hanaroShippingCostKrw;
     growthInboundCostKrw := growthInboundCostKrw; growthShippingCostKrw := growthShippingCostKrw;
     totalLogisticsCostKrw := totalLogisticsCostKrw |}.

Definition calculateCoupangProfitBySegments (segments : list CoupangProfitSegmentInput)
    (cost : CoupangCostInput) (ads : CoupangAdInput) (salesFeeRate : num)
    (includeReturnCost : option bool) : CoupangSegmentProfitResult :=
  calculateCoupangProfitByAccountingBases
    {| recognizedSegments := segments; incurredSegments := segments; cost := cost; ads := ads;
       in_salesFeeRate := salesFeeRate; in_includeReturnCost := includeReturnCost |}.

(** A [RangeError] when the quantity is not a non-negative integer. *)
Definition calculateCoupangManualPurchaseCost (quantity vendorFeePerUnitKrw : num)
    : result CoupangManualPurchaseCostResult :=
  if negb (isInteger quantity) || nltb quantity (ofZ 0) then
    Throws {| err_status := 0;
              err_code := js "Manual-purchase quantity must be a non-negative integer." |}
  else
    let vendorFeeTotalKrw := roundMoney (nmul (finiteNumber (Some vendorFeePerUnitKrw)) quantity) in
    Ok {| vendorFeeTotalKrw := vendorFeeTotalKrw; manual_totalCostKrw := vendorFeeTotalKrw |}.
End profit.

(** ** Facts *)

Lemma finiteNumber_ofZ z : safe z -> finiteNumber (Some (ofZ z)) = ofZ z.
Proof. intros Hz. simpl. by rewrite isFinite_ofZ. Qed.

Lemma sum_ofZ zs : abs_sum zs < 2 ^ 53 -> sum (map ofZ zs) = ofZ (zsum zs).
Proof.
  intros B. rewrite <- nsum_ofZ by done. unfold sum, nsum.
  assert (S : Forall safe zs).
  { clear -B. unfold abs_sum in B. apply List.Forall_forall. intros z I.
    assert (G : forall l, In z l -> Z.abs z <= zsum (map Z.abs l)).
    { intros l. induction l as [|x l IH]; simpl; [done|]. pose proof (abs_sum_nonneg l).
      unfold abs_sum in *. intros [->|I']; [lia|]. specialize (IH I'). lia. }
    specialize (G zs I). unfold safe. lia. }
  clear B. generalize (ofZ 0) as a. induction S as [|z zs Hz S IH]; intros a; [done|].
  cbn [map fold_left]. rewrite finiteNumber_ofZ by done. apply IH.
Qed.

Section logistics.
Context `{IcuLaws}.

Lemma method_text_normalize m : normalizeCoupangFulfillmentMethod (Some (method_text m)) = m.
Proof.
  unfold normalizeCoupangFulfillmentMethod, parseExplicitCoupangFulfillmentMethod. cbn [coalesce from_option].
  destruct m; cbn [method_text]; (rewrite to_lower_ascii; [|by vm_compute]); by vm_compute.
Qed.

(** Whole fees of a cost rule. *)
Definition whole_fees (c : CoupangCostInput) (seller hanaro inbound shipping : Z) : Prop :=
  finiteNumber (nullish_option (sellerShippingFeeKrw c)) = ofZ seller
  /\ finiteNumber (nullish_option (hanaroShippingFeeKrw c)) = ofZ hanaro
  /\ finiteNumber (growthInboundFeeKrw c) = ofZ inbound
  /\ finiteNumber (growthShippingFeeKrw c) = ofZ shipping
  /\ 0 <= seller /\ 0 <= hanaro /\ 0 <= inbound /\ 0 <= shipping.

Definition quantity_of (s : CoupangProfitSegmentInput) : Z := toZ (seg_salesQuantity s).
Definition whole_quantity (s : CoupangProfitSegmentInput) : Prop :=
  seg_salesQuantity s = ofZ (quantity_of s) /\ 0 <= quantity_of s.

Definition total_quantity (segments : list CoupangProfitSegmentInput) : Z :=
  zsum (map quantity_of segments).

Definition fee_of (seller hanaro inbound shipping : Z) (m : CoupangFulfillmentMethod) : Z :=
  match m with SELLER => seller | GROWTH => hanaro + inbound + shipping end.

Lemma total_quantity_nonneg segments : Forall whole_quantity segments -> 0 <= total_quantity segments.
Proof. unfold total_quantity. induction 1 as [|s l [_ ?]]; simpl; lia. Qed.

Definition of_method (m : CoupangFulfillmentMethod) (segments : list CoupangProfitSegmentInput) :=
  List.filter (fun s => bool_decide (fulfillmentMethod s = m)) segments.

Lemma method_split segments :
  total_quantity segments
  = total_quantity (of_method SELLER segments) + total_quantity (of_method GROWTH segments).
Proof.
  unfold total_quantity. induction segments as [|s l IH]; simpl; [done|].
  destruct (fulfillmentMethod s); simpl; lia.
Qed.

Lemma Forall_of_method P m segments : Forall P segments -> Forall P (of_method m segments).
Proof.
  rewrite !List.Forall_forall. intros F s [I _]%filter_In. auto.
Qed.

Lemma method_quantity_whole m segments :
  Forall whole_quantity segments -> total_quantity segments < 2 ^ 53 ->
  method_quantity m segments = ofZ (total_quantity (of_method m segments)).
Proof.
  intros F B. unfold method_quantity. fold (of_method m segments).
  assert (Fm := Forall_of_method _ m _ F).
  pose proof (total_quantity_nonneg _ (Forall_of_method _ SELLER _ F)).
  pose proof (total_quantity_nonneg _ (Forall_of_method _ GROWTH _ F)).
  assert (Bm : total_quantity (of_method m segments) < 2 ^ 53)
    by (rewrite method_split in B; destruct m; lia).
  clear B F. assert (A : abs_sum (map quantity_of (of_method m segments))
                         = total_quantity (of_method m segments)).
  { unfold abs_sum, total_quantity. induction Fm as [|s l [_ ?]]; simpl; [done|].
    pose proof (total_quantity_nonneg _ Fm). unfold total_quantity in *. simpl in *. lia. }
  unfold total_quantity in *. rewrite <- sum_ofZ by lia. f_equal. rewrite map_map.
  apply map_ext_in. intros s I. apply list_elem_of_In in I. rewrite Forall_forall in Fm.
  destruct (Fm s I) as [E P]. rewrite E, finiteNumber_ofZ; [done|].
  assert (quantity_of s <= zsum (map quantity_of (of_method m segments))); [|unfold safe; lia].
  clear -Fm I. induction (of_method m segments) as [|x l IH]; [by apply elem_of_nil in I|].
  assert (Fl : Forall whole_quantity l) by (apply Forall_forall; intros; apply Fm; by apply list_elem_of_further).
  pose proof (total_quantity_nonneg l Fl). unfold total_quantity in *.
  destruct (Fm x ltac:(apply list_elem_of_here)) as [_ ?]. simpl.
  apply elem_of_cons in I as [->|I]; [lia|].
  enough (quantity_of s <= zsum (map quantity_of l)) by lia.
  apply IH; [|done]. intros; apply Fm. by apply list_elem_of_further.
Qed.

Definition segment_fee (seller hanaro inbound shipping : Z) (s : CoupangProfitSegmentInput) : Z :=
  fee_of seller hanaro inbound shipping (fulfillmentMethod s) * quantity_of s.

Lemma segment_fee_sum seller hanaro inbound shipping segments :
  zsum (map (segment_fee seller hanaro inbound shipping) segments)
  = seller * total_quantity (of_method SELLER segments)
    + (hanaro + inbound + shipping) * total_quantity (of_method GROWTH segments).
Proof.
  unfold total_quantity. induction segments as [|s l IH]; simpl; [lia|]. rewrite IH.
  unfold segment_fee. destruct (fulfillmentMethod s); simpl; lia.
Qed.

Lemma quantity_le_total s segments :
  Forall whole_quantity segments -> s ∈ segments -> 0 <= quantity_of s <= total_quantity segments.
Proof.
  induction 1 as [|x l [_ Hx] F IH]; [by intros ?%elem_of_nil|].
  pose proof (total_quantity_nonneg l F). unfold total_quantity in *. simpl.
  intros [->|I]%elem_of_cons; [lia|]. specialize (IH I). lia.
Qed.

Lemma segment_shipping input s seller hanaro inbound shipping :
  whole_fees (cost input) seller hanaro inbound shipping ->
  whole_quantity s -> (seller + hanaro + inbound + shipping + 1) * (quantity_of s + 1) < 2 ^ 53 ->
  shippingCostKrw (segment_result input s) = ofZ (segment_fee seller hanaro inbound shipping s).
Proof.
  intros (Es & Eh & Ei & Eg & Hs & Hh & Hi & Hg) [Eq Hq] B.
  unfold segment_result, calculateCoupangProfit. cbn [shippingCostKrw saleMethod in_salesQuantity useGrowthCost].
  rewrite Eq, finiteNumber_ofZ by (unfold safe; nia).
  unfold shippingCost, isGrowthSaleMethod. rewrite method_text_normalize, Es, Eh, Ei, Eg.
  rewrite (bool_decide_eq_false_2 (Some true = Some false)) by done.
  assert (0 <= seller * quantity_of s <= (seller + hanaro + inbound + shipping + 1) * (quantity_of s + 1)) by nia.
  assert (0 <= (hanaro + inbound + shipping) * quantity_of s
            <= (seller + hanaro + inbound + shipping + 1) * (quantity_of s + 1)) by nia.
  unfold segment_fee. destruct (fulfillmentMethod s); simpl fee_of.
  - rewrite bool_decide_eq_false_2 by done. by rewrite nmul_ofZ by (unfold safe; nia).
  - rewrite bool_decide_eq_true_2 by done.
    rewrite nadd_ofZ by (unfold safe; nia). rewrite nadd_ofZ by (unfold safe; nia).
    by rewrite nmul_ofZ by (unfold safe; nia).
Qed.

(** For whole fees and quantities, the logistics cost computed from the
    quantities per fulfilment method is the sum of the shipping costs of the
    segments: seller sales pay the seller fee, growth sales the three growth fees,
    however the sales are split into segments. *)
Theorem logistics_by_method input seller hanaro inbound shipping :
  whole_fees (cost input) seller hanaro inbound shipping ->
  Forall whole_quantity (incurredSegments input) ->
  (seller + hanaro + inbound + shipping + 1) * (total_quantity (incurredSegments input) + 1) < 2 ^ 53 ->
  let r := calculateCoupangProfitByAccountingBases input in
  totalLogisticsCostKrw r
  = ofZ (zsum (map (segment_fee seller hanaro inbound shipping) (incurredSegments input)))
  /\ totalLogisticsCostKrw r
     = sum (map (fun s => shippingCostKrw (segment_result input s)) (incurredSegments input)).
Proof.
  intros W F B r. pose proof W as (Es & Eh & Ei & Eg & Hs & Hh & Hi & Hg).
  set (segs := incurredSegments input) in *.
  pose proof (total_quantity_nonneg _ F) as N.
  pose proof (total_quantity_nonneg _ (Forall_of_method _ SELLER _ F)) as NS.
  pose proof (total_quantity_nonneg _ (Forall_of_method _ GROWTH _ F)) as NG.
  pose proof (method_split segs) as Sp.
  assert (L : totalLogisticsCostKrw r
              = ofZ (zsum (map (segment_fee seller hanaro inbound shipping) segs))).
  { unfold r, calculateCoupangProfitByAccountingBases. cbn [totalLogisticsCostKrw].
    fold segs. rewrite !method_quantity_whole by (done || nia). rewrite Es, Eh, Ei, Eg.
    rewrite segment_fee_sum.
    set (a := total_quantity (of_method SELLER segs)) in *.
    set (b := total_quantity (of_method GROWTH segs)) in *.
    set (k := (seller + hanaro + inbound + shipping + 1) * (total_quantity segs + 1)) in *.
    assert (0 <= seller * a) by nia. assert (0 <= hanaro * b) by nia.
    assert (0 <= inbound * b) by nia. assert (0 <= shipping * b) by nia.
    assert (seller * a + hanaro * b + inbound * b + shipping * b <= k) by (unfold k; nia).
    assert (a < 2 ^ 53 /\ b < 2 ^ 53 /\ seller < 2 ^ 53 /\ hanaro < 2 ^ 53 /\ inbound < 2 ^ 53
            /\ shipping < 2 ^ 53) by (unfold k in *; nia).
    rewrite !nmul_ofZ by (unfold safe; lia).
    repeat (rewrite nadd_ofZ by (unfold safe; lia)). f_equal. ring. }
  split; [done|]. rewrite L. clear L.
  rewrite (map_ext_in _ (fun s => ofZ (segment_fee seller hanaro inbound shipping s))).
  2:{ intros s I. apply list_elem_of_In in I. apply segment_shipping; [done| |].
      - rewrite Forall_forall in F. by apply F.
      - pose proof (quantity_le_total s segs F I). nia. }
  rewrite <- (map_map (segment_fee seller hanaro inbound shipping) ofZ). symmetry. apply sum_ofZ.
  assert (A : abs_sum (map (segment_fee seller hanaro inbound shipping) segs)
              = zsum (map (segment_fee seller hanaro inbound shipping) segs)).
  { clear -F Hs Hh Hi Hg. unfold abs_sum. induction F as [|s l [_ ?]]; simpl; [done|].
    assert (0 <= segment_fee seller hanaro inbound shipping s)
      by (unfold segment_fee; destruct (fulfillmentMethod s); simpl; nia). lia. }
  rewrite A, segment_fee_sum. nia.
Qed.
End logistics.

Lemma logistics_by_method_witness :
  let seg m q n := {| fulfillmentMethod := m; seg_netSalesKrw := ofZ n; seg_salesQuantity := ofZ q |} in
  let input := {| recognizedSegments := []; incurredSegments := [seg SELLER 2 20000; seg GROWTH 3 30000; seg SELLER 1 9000];
                  cost := {| productCostKrw := ofZ 4000; sellerShippingFeeKrw := Val (ofZ 2500);
                             hanaroShippingFeeKrw := Val (ofZ 300); growthInboundFeeKrw := Some (ofZ 200);
                             growthShippingFeeKrw := Some (ofZ 1900); returnRate := None;
                             returnCostPerUnitKrw := None; extraCostKrw := None |};
                  ads := no_ads; in_salesFeeRate := decimal 1 1; in_includeReturnCost := None |} in
  totalLogisticsCostKrw (@calculateCoupangProfitByAccountingBases c_locale input)
  = ofZ (zsum (map (segment_fee 2500 300 200 1900) (incurredSegments input))).
Proof.
  intros seg input.
  refine (proj1 (@logistics_by_method c_locale c_locale_laws input 2500 300 200 1900 _ _ _)).
  - repeat split; vm_compute; (reflexivity || discriminate).
  - repeat constructor; vm_compute; discriminate.
  - vm_compute. reflexivity.
Defined.
