(* ===== verification/CoupangPipeline.v ===== *)
(** * The Coupang profit pipeline

    Models [apps/api/src/domain/coupang-profit-pipeline.ts]: reported sales are
    aggregated per product and day into segments by fulfilment method, manual
    purchases are aggregated and deducted from them, and the profit of the normal
    sales is combined with the cost of the manual purchases.

    The code mutates the record it keeps in a [Map]; each record belongs to one
    key, so an update is a [map_set].  The segments of a record are mutated in
    place through references picked by method; a reference is the position of
    the segment in the array. *)

From S2P Require Import Prelude JsNumber SafeInteger JsString DateNumber CoupangProfit.

Local Open Scope Z_scope.

Inductive CoupangCalculationPartStatus := COMPLETE | INCOMPLETE | NOT_APPLICABLE.

#[export] Instance CoupangCalculationPartStatus_eq : EqDecision CoupangCalculationPartStatus.
Proof. solve_decision. Defined.

Record ReportedSalesFactInput := {
  row_productId : str;
  row_date : str;
  row_salesKrw : num;
  row_cancelAmountKrw : num;
  row_netSalesKrw : num;
  row_salesQuantity : num;
  row_orderCount : num;
  row_saleMethod : option str;
  row_lineCount : option num;
  row_productName : option str
}.

Record CoupangSalesSegment := {
  fulfillmentMethod : CoupangFulfillmentMethod;
  sourceSaleMethods : list str;
  seg_salesKrw : num;
  seg_cancelAmountKrw : num;
  seg_netSalesKrw : num;
  seg_salesQuantity : num;
  seg_orderCount : num;
  seg_lineCount : num
}.

Record ReportedSalesFacts := {
  rep_productId : str;
  rep_date : str;
  productName : str;
  rep_salesKrw : num;
  rep_cancelAmountKrw : num;
  rep_netSalesKrw : num;
  rep_salesQuantity : num;
  rep_orderCount : num;
  rep_lineCount : num;
  saleMethods : list str;
  segments : list CoupangSalesSegment;
  hasReportedRows : bool
}.

Record ManualPurchaseFactInput := {
  mrow_productId : str;
  mrow_date : str;
  mrow_quantity : num;
  mrow_salesAmountKrw : option num;
  mrow_baseSalePriceKrw : option num;
  mrow_vendorFeeKrw : option num;
  mrow_totalCostKrw : option num;
  mrow_saleMethod : option str
}.

Record ManualPurchaseFacts := {
  man_productId : str;
  man_date : str;
  man_quantity : num;
  man_salesAmountKrw : option num;
  man_productCostKrw : option num;
  man_vendorFeeKrw : option num;
  man_coupangSalesFeeKrw : option num;
  man_shippingCostKrw : option num;
  man_otherCostKrw : option num;
  man_totalCostKrw : option num;
  man_saleMethods : list str;
  man_rowCount : nat;
  man_warnings : list str;
  isCostSnapshotComplete : bool
}.

Record ActualSalesFacts := {
  act_salesKrw : option num;
  act_netSalesKrw : option num;
  act_salesQuantity : option num;
  act_orderCount : num;
  act_segments : list CoupangSalesSegment;
  act_warnings : list str;
  isValid : bool;
  isManualOnly : bool
}.

Record NormalCoupangProfitResult := {
  status : CoupangCalculationPartStatus;
  calculated : option CoupangSegmentProfitResult;
  norm_warnings : list str
}.

(** [finiteOrZero], [positiveOrNull], [nonNegativeOrNull], [sumNullable], [unique]. *)
Definition finiteOrZero (value : option num) : num := finiteNumber value.

Definition positiveOrNull (value : option num) : option num :=
  match value with
  | Some x => if isFinite x && nltb (ofZ 0) x then Some x else None
  | None => None
  end.

Definition nonNegativeOrNull (value : option num) : option num :=
  match value with
  | Some x => if isFinite x && nleb (ofZ 0) x then Some x else None
  | None => None
  end.

Fixpoint all_some {A} (values : list (option A)) : option (list A) :=
  match values with
  | [] => Some []
  | None :: _ => None
  | Some a :: rest => l ← all_some rest; Some (a :: l)
  end.

Definition sumNullable (values : list (option num)) : option num :=
  match all_some values with Some xs => Some (nsum xs) | None => None end.

Definition unique (values : list (option str)) : list str :=
  js_unique (List.filter truthy (omap (fun v => v) values)).

Definition unique_str (values : list str) : list str := unique (map Some values).

(** The key of a product and a day: two texts joined by a NUL. *)
Definition productDateKey (productId date : str) : str := productId ++ [0%N] ++ date.

Section pipeline.
Context `{Icu}.

(** ** Reported sales *)

Definition emptySalesSegment (m : CoupangFulfillmentMethod) : CoupangSalesSegment :=
  {| fulfillmentMethod := m; sourceSaleMethods := []; seg_salesKrw := ofZ 0;
     seg_cancelAmountKrw := ofZ 0; seg_netSalesKrw := ofZ 0; seg_salesQuantity := ofZ 0;
     seg_orderCount := ofZ 0; seg_lineCount := ofZ 0 |}.

Definition emptyReportedSalesFacts (productId date productName : str) : ReportedSalesFacts :=
  {| rep_productId := productId; rep_date := date; productName := productName;
     rep_salesKrw := ofZ 0; rep_cancelAmountKrw := ofZ 0; rep_netSalesKrw := ofZ 0;
     rep_salesQuantity := ofZ 0; rep_orderCount := ofZ 0; rep_lineCount := ofZ 0;
     saleMethods := []; segments := []; hasReportedRows := false |}.

Record segment_totals := {
  tot_salesKrw : num;
  tot_cancelAmountKrw : num;
  tot_netSalesKrw : num;
  tot_salesQuantity : num;
  tot_orderCount : num;
  tot_lineCount : num
}.

Definition sumCoupangSalesSegments (segs : list CoupangSalesSegment) : segment_totals :=
  fold_left (fun t s =>
    {| tot_salesKrw := nadd (tot_salesKrw t) (finiteOrZero (Some (seg_salesKrw s)));
       tot_cancelAmountKrw := nadd (tot_cancelAmountKrw t) (finiteOrZero (Some (seg_cancelAmountKrw s)));
       tot_netSalesKrw := nadd (tot_netSalesKrw t) (finiteOrZero (Some (seg_netSalesKrw s)));
       tot_salesQuantity := nadd (tot_salesQuantity t) (finiteOrZero (Some (seg_salesQuantity s)));
       tot_orderCount := nadd (tot_orderCount t) (finiteOrZero (Some (seg_orderCount s)));
       tot_lineCount := nadd (tot_lineCount t) (finiteOrZero (Some (seg_lineCount s))) |})
    segs
    {| tot_salesKrw := ofZ 0; tot_cancelAmountKrw := ofZ 0; tot_netSalesKrw := ofZ 0;
       tot_salesQuantity := ofZ 0; tot_orderCount := ofZ 0; tot_lineCount := ofZ 0 |}.

Definition syncReportedTotalsFromSegments (r : ReportedSalesFacts) : ReportedSalesFacts :=
  let t := sumCoupangSalesSegments (segments r) in
  {| rep_productId := rep_productId r; rep_date := rep_date r; productName := productName r;
     rep_salesKrw := tot_salesKrw t; rep_cancelAmountKrw := tot_cancelAmountKrw t;
     rep_netSalesKrw := tot_netSalesKrw t; rep_salesQuantity := tot_salesQuantity t;
     rep_orderCount := tot_orderCount t; rep_lineCount := tot_lineCount t;
     saleMethods := saleMethods r; segments := segments r; hasReportedRows := hasReportedRows r |}.

(** [if (m && !methods.includes(m)) methods.push(m)]. *)
Definition push_method (m : option str) (methods : list str) : list str :=
  match m with
  | None | Some [] => methods
  | Some x => if bool_decide (x ∈ methods) then methods else methods ++ [x]
  end.

Definition row_method (row : ReportedSalesFactInput) : CoupangFulfillmentMethod :=
  normalizeCoupangFulfillmentMethod (row_saleMethod row).

Definition add_to_segment (row : ReportedSalesFactInput) (s : CoupangSalesSegment)
    : CoupangSalesSegment :=
  {| fulfillmentMethod := fulfillmentMethod s;
     sourceSaleMethods := push_method (row_saleMethod row) (sourceSaleMethods s);
     seg_salesKrw := nadd (seg_salesKrw s) (finiteOrZero (Some (row_salesKrw row)));
     seg_cancelAmountKrw := nadd (seg_cancelAmountKrw s) (finiteOrZero (Some (row_cancelAmountKrw row)));
     seg_netSalesKrw := nadd (seg_netSalesKrw s) (finiteOrZero (Some (row_netSalesKrw row)));
     seg_salesQuantity := nadd (seg_salesQuantity s) (finiteOrZero (Some (row_salesQuantity row)));
     seg_orderCount := nadd (seg_orderCount s) (finiteOrZero (Some (row_orderCount row)));
     seg_lineCount := nadd (seg_lineCount s)
       (nmax (ofZ 0) (trunc (finiteOrZero (Some (row_lineCount row ?? ofZ 1))))) |}.

(** Find the segment of the row's method, or push an empty one, and add to it. *)
Fixpoint update_segment (row : ReportedSalesFactInput) (segs : list CoupangSalesSegment)
    : list CoupangSalesSegment :=
  match segs with
  | [] => [add_to_segment row (emptySalesSegment (row_method row))]
  | s :: rest =>
      if decide (fulfillmentMethod s = row_method row) then add_to_segment row s :: rest
      else s :: update_segment row rest
  end.

Definition add_reported_row (current : ReportedSalesFacts) (row : ReportedSalesFactInput)
    : ReportedSalesFacts :=
  syncReportedTotalsFromSegments
    {| rep_productId := rep_productId current; rep_date := rep_date current;
       productName := productName current; rep_salesKrw := rep_salesKrw current;
       rep_cancelAmountKrw := rep_cancelAmountKrw current;
       rep_netSalesKrw := rep_netSalesKrw current; rep_salesQuantity := rep_salesQuantity current;
       rep_orderCount := rep_orderCount current; rep_lineCount := rep_lineCount current;
       saleMethods := push_method (row_saleMethod row) (saleMethods current);
       segments := update_segment row (segments current); hasReportedRows := true |}.

Definition row_key (row : ReportedSalesFactInput) : str :=
  productDateKey (row_productId row) (row_date row).

Definition initial_facts (row : ReportedSalesFactInput) : ReportedSalesFacts :=
  emptyReportedSalesFacts (row_productId row) (row_date row)
    (row_productName row ?? js "Coupang Product").

Definition aggregateReportedSalesByProductDate (rows : list ReportedSalesFactInput)
    : list (str * ReportedSalesFacts) :=
  aggregate row_key initial_facts add_reported_row rows.

(** ** Manual purchases *)

Inductive amount_source := STORED | BASE_PRICE | MISSING.

Record resolved_amount := {
  resolved_salesAmountKrw : option num;
  source : amount_source;
  resolved_warnings : list str
}.

Definition resolveManualPurchaseSalesAmount (input : ManualPurchaseFactInput) : resolved_amount :=
  if neqb (mrow_quantity input) (ofZ 0) then
    {| resolved_salesAmountKrw := Some (ofZ 0); source := STORED; resolved_warnings := [] |}
  else
    match positiveOrNull (mrow_salesAmountKrw input) with
    | Some stored =>
        {| resolved_salesAmountKrw := Some stored; source := STORED; resolved_warnings := [] |}
    | None =>
        let missing :=
          {| resolved_salesAmountKrw := None; source := MISSING;
             resolved_warnings := [js "MANUAL_PURCHASE_SALES_AMOUNT_MISSING"] |} in
        match positiveOrNull (mrow_baseSalePriceKrw input) with
        | Some base =>
            if isInteger (mrow_quantity input) && nltb (ofZ 0) (mrow_quantity input) then
              {| resolved_salesAmountKrw := Some (nmul base (mrow_quantity input));
                 source := BASE_PRICE;
                 resolved_warnings := [js "MANUAL_PURCHASE_SALES_AMOUNT_LEGACY_FALLBACK"] |}
            else missing
        | None => missing
        end
    end.

Definition mrow_key (row : ManualPurchaseFactInput) : str :=
  productDateKey (mrow_productId row) (mrow_date row).

Definition invalid_quantity (row : ManualPurchaseFactInput) : bool :=
  negb (isInteger (mrow_quantity row)) || nltb (mrow_quantity row) (ofZ 0).

(** The facts of one product and day from its rows. *)
Definition manual_facts (group : list ManualPurchaseFactInput) : ManualPurchaseFacts :=
  let resolvedSales := map resolveManualPurchaseSalesAmount group in
  let vendorFeeKrw := sumNullable (map (fun r => nonNegativeOrNull (mrow_vendorFeeKrw r)) group) in
  let storedTotalCostKrw :=
    sumNullable (map (fun r => nonNegativeOrNull (mrow_totalCostKrw r)) group) in
  let totalCostKrw := option_map roundMoney vendorFeeKrw in
  let cost_warnings :=
    match storedTotalCostKrw, totalCostKrw with
    | Some stored, Some total =>
        if negb (neqb (roundMoney stored) total) then [js "MANUAL_PURCHASE_TOTAL_COST_MISMATCH"] else []
    | _, _ => [js "MANUAL_PURCHASE_COST_SNAPSHOT_INCOMPLETE"]
    end in
  let snapshotComplete :=
    match storedTotalCostKrw, totalCostKrw with Some _, Some _ => true | _, _ => false end in
  let warnings :=
    concat (map resolved_warnings resolvedSales)
    ++ (if (1 <? List.length group)%nat then [js "DUPLICATE_MANUAL_PURCHASE_ROWS"] else [])
    ++ (if existsb invalid_quantity group then [js "MANUAL_PURCHASE_INVALID_QUANTITY"] else [])
    ++ cost_warnings in
  {| man_productId := from_option mrow_productId [] (head group);
     man_date := from_option mrow_date [] (head group);
     man_quantity := nsum (map (fun r => finiteOrZero (Some (mrow_quantity r))) group);
     man_salesAmountKrw := sumNullable (map resolved_salesAmountKrw resolvedSales);
     man_productCostKrw := Some (ofZ 0); man_vendorFeeKrw := vendorFeeKrw;
     man_coupangSalesFeeKrw := Some (ofZ 0); man_shippingCostKrw := Some (ofZ 0);
     man_otherCostKrw := Some (ofZ 0); man_totalCostKrw := totalCostKrw;
     man_saleMethods := unique (map mrow_saleMethod group); man_rowCount := List.length group;
     man_warnings := unique_str warnings;
     isCostSnapshotComplete :=
       snapshotComplete && negb (bool_decide (js "MANUAL_PURCHASE_TOTAL_COST_MISMATCH" ∈ warnings)) |}.

Definition aggregateManualPurchasesByProductDate (rows : list ManualPurchaseFactInput)
    : list (str * ManualPurchaseFacts) :=
  fold_left (fun m '(k, group) => map_set m k (manual_facts group)) (group_by mrow_key rows) [].

Definition sales_blocking : list str :=
  [js "DUPLICATE_MANUAL_PURCHASE_ROWS"; js "MANUAL_PURCHASE_INVALID_QUANTITY";
   js "MANUAL_PURCHASE_SALES_AMOUNT_MISSING"; js "MANUAL_PURCHASE_QUANTITY_EXCEEDS_REPORTED";
   js "MANUAL_PURCHASE_SALES_EXCEEDS_REPORTED"; js "MANUAL_PURCHASE_ADJUSTED_NET_SALES_NEGATIVE";
   js "MANUAL_PURCHASE_WITHOUT_REPORTED_SALES"].

Definition hasBlockingManualSalesWarning (ws : list str) : bool :=
  existsb (fun w => bool_decide (w ∈ sales_blocking)) ws.

Definition hasBlockingManualWarning (ws : list str) : bool :=
  hasBlockingManualSalesWarning ws
  || existsb (fun w => bool_decide (w ∈ [js "MANUAL_PURCHASE_COST_SNAPSHOT_INCOMPLETE";
                                         js "MANUAL_PURCHASE_TOTAL_COST_MISMATCH"])) ws.

(** ** Deducting manual purchases from the reported segments *)

Definition has_method (m : CoupangFulfillmentMethod) (s : CoupangSalesSegment) : bool :=
  bool_decide (fulfillmentMethod s = m).

Fixpoint index_of {A} (p : A -> bool) (l : list A) : option nat :=
  match l with
  | [] => None
  | x :: r => if p x then Some O else option_map S (index_of p r)
  end.

(** The positions of the first SELLER and the first GROWTH segment. *)
Definition deduction_targets (segs : list CoupangSalesSegment) : list nat :=
  omap (fun m => index_of (has_method m) segs) [SELLER; GROWTH].

Definition set_quantity (q : num) (s : CoupangSalesSegment) : CoupangSalesSegment :=
  {| fulfillmentMethod := fulfillmentMethod s; sourceSaleMethods := sourceSaleMethods s;
     seg_salesKrw := seg_salesKrw s; seg_cancelAmountKrw := seg_cancelAmountKrw s;
     seg_netSalesKrw := seg_netSalesKrw s; seg_salesQuantity := q;
     seg_orderCount := seg_orderCount s; seg_lineCount := seg_lineCount s |}.

Inductive amount_field := SalesKrw | NetSalesKrw.

Definition get_amount (f : amount_field) (s : CoupangSalesSegment) : num :=
  match f with SalesKrw => seg_salesKrw s | NetSalesKrw => seg_netSalesKrw s end.

Definition set_amount (f : amount_field) (x : num) (s : CoupangSalesSegment) : CoupangSalesSegment :=
  {| fulfillmentMethod := fulfillmentMethod s; sourceSaleMethods := sourceSaleMethods s;
     seg_salesKrw := match f with SalesKrw => x | NetSalesKrw => seg_salesKrw s end;
     seg_cancelAmountKrw := seg_cancelAmountKrw s;
     seg_netSalesKrw := match f with SalesKrw => seg_netSalesKrw s | NetSalesKrw => x end;
     seg_salesQuantity := seg_salesQuantity s;
     seg_orderCount := seg_orderCount s; seg_lineCount := seg_lineCount s |}.

(** One target: what it takes of the remaining quantity. *)
Definition deduct_quantity_step (st : list CoupangSalesSegment * num * list (nat * num)) (i : nat)
    : list CoupangSalesSegment * num * list (nat * num) :=
  let '(segs, remaining, deductions) := st in
  if nleb remaining (ofZ 0) then st
  else match segs !! i with
       | None => st
       | Some s =>
           let available := nmax (ofZ 0) (finiteOrZero (Some (seg_salesQuantity s))) in
           let deducted := nmin available remaining in
           (<[i := set_quantity (nsub available deducted) s]> segs,
            nsub remaining deducted,
            if nltb (ofZ 0) deducted then deductions ++ [(i, deducted)] else deductions)
       end.

(** [desiredDeductions[last] += x]. *)
Definition add_to_last (x : num) (l : list num) : list num :=
  match last l with
  | Some y => removelast l ++ [nadd y x]
  | None => l
  end.

Definition available_amount (f : amount_field) (segs : list CoupangSalesSegment) (i : nat) : num :=
  match segs !! i with
  | Some s => nmax (ofZ 0) (finiteOrZero (Some (get_amount f s)))
  | None => ofZ 0
  end.

(** The first loop: cap every deduction by what is available. *)
Fixpoint cap_deductions (f : amount_field) (segs : list CoupangSalesSegment)
    (deductions : list (nat * num)) (desired : list num) (shortfall : num) : list num * num :=
  match deductions, desired with
  | (i, _) :: ds, d :: rest =>
      let available := available_amount f segs i in
      if nltb available d then
        let '(capped, sf) := cap_deductions f segs ds rest (nadd shortfall (nsub d available)) in
        (available :: capped, sf)
      else
        let '(capped, sf) := cap_deductions f segs ds rest shortfall in (d :: capped, sf)
  | _, _ => (desired, shortfall)
  end.

(** The second loop: spread the shortfall over what is left. *)
Fixpoint redistribute (f : amount_field) (segs : list CoupangSalesSegment)
    (deductions : list (nat * num)) (desired : list num) (shortfall : num) : list num * num :=
  match deductions, desired with
  | (i, _) :: ds, d :: rest =>
      if nltb (ofZ 0) shortfall then
        let spare := nmax (ofZ 0) (nsub (available_amount f segs i) d) in
        let x := nmin spare shortfall in
        let '(out, sf) := redistribute f segs ds rest (nsub shortfall x) in (nadd d x :: out, sf)
      else (desired, shortfall)
  | _, _ => (desired, shortfall)
  end.

Fixpoint apply_deductions (f : amount_field) (deductions : list (nat * num)) (desired : list num)
    (segs : list CoupangSalesSegment) : list CoupangSalesSegment :=
  match deductions, desired with
  | (i, _) :: ds, d :: rest =>
      apply_deductions f ds rest
        (match segs !! i with
         | Some s => <[i := set_amount f (nsub (finiteOrZero (Some (get_amount f s))) d) s]> segs
         | None => segs
         end)
  | _, _ => segs
  end.

Definition deductManualSalesAmount (deductions : list (nat * num)) (requested : num) (f : amount_field)
    (segs : list CoupangSalesSegment) : list CoupangSalesSegment :=
  let deductedQuantity := nsum (map snd deductions) in
  let total := nmax (ofZ 0) requested in
  let desired := map (fun d => nmul total (ndiv (snd d) deductedQuantity)) deductions in
  let desired := add_to_last (nsub total (nsum desired)) desired in
  let '(desired, shortfall) := cap_deductions f segs deductions desired (ofZ 0) in
  let '(desired, shortfall) := redistribute f segs deductions desired shortfall in
  let desired := if nltb (ofZ 0) shortfall then add_to_last shortfall desired else desired in
  apply_deductions f deductions desired segs.

Definition deductManualPurchaseFromReportedSegments (segs : list CoupangSalesSegment) (quantity : num)
    (salesAmountKrw : option num) : list CoupangSalesSegment :=
  let requested := finiteOrZero (Some quantity) in
  if nleb requested (ofZ 0) || negb (truthy_list segs) then segs
  else
    let targets := deduction_targets segs in
    let '(adjusted, _, deductions) :=
      fold_left deduct_quantity_step targets (segs, requested, []) in
    match salesAmountKrw, last targets with
    | Some amount, Some last_target =>
        let sales := if truthy_list deductions then deductions else [(last_target, ofZ 1)] in
        deductManualSalesAmount sales amount NetSalesKrw
          (deductManualSalesAmount sales amount SalesKrw adjusted)
    | _, _ => adjusted
    end.

(** ** Actual sales *)

Definition resolvedReportedSegments (r : ReportedSalesFacts) : list CoupangSalesSegment :=
  if truthy_list (segments r) then segments r
  else if negb (hasReportedRows r) && neqb (rep_salesKrw r) (ofZ 0)
          && neqb (rep_netSalesKrw r) (ofZ 0) && neqb (rep_salesQuantity r) (ofZ 0)
  then []
  else [{| fulfillmentMethod := normalizeCoupangFulfillmentMethod (head (saleMethods r));
           sourceSaleMethods := saleMethods r; seg_salesKrw := rep_salesKrw r;
           seg_cancelAmountKrw := rep_cancelAmountKrw r; seg_netSalesKrw := rep_netSalesKrw r;
           seg_salesQuantity := rep_salesQuantity r; seg_orderCount := rep_orderCount r;
           seg_lineCount := rep_lineCount r |}].

Definition push_once (w : str) (ws : list str) : list str :=
  if bool_decide (w ∈ ws) then ws else ws ++ [w].

Definition reported_as_is (r : ReportedSalesFacts) : ActualSalesFacts :=
  {| act_salesKrw := Some (rep_salesKrw r); act_netSalesKrw := Some (rep_netSalesKrw r);
     act_salesQuantity := Some (rep_salesQuantity r); act_orderCount := rep_orderCount r;
     act_segments := resolvedReportedSegments r; act_warnings := []; isValid := true;
     isManualOnly := false |}.

Definition some_negative (x : option num) : bool :=
  match x with Some v => nltb v (ofZ 0) | None => false end.

Definition adjustReportedSalesForManualPurchase (reported : ReportedSalesFacts)
    (manual : option ManualPurchaseFacts) : ActualSalesFacts :=
  match manual with
  | None => reported_as_is reported
  | Some m =>
      if neqb (man_quantity m) (ofZ 0) then reported_as_is reported
      else if negb (hasReportedRows reported) then
        let ws := man_warnings m ++ [js "MANUAL_PURCHASE_WITHOUT_REPORTED_SALES"] in
        {| act_salesKrw := Some (ofZ 0); act_netSalesKrw := Some (ofZ 0);
           act_salesQuantity := Some (ofZ 0); act_orderCount := ofZ 0; act_segments := [];
           act_warnings := unique_str ws; isValid := negb (hasBlockingManualSalesWarning ws);
           isManualOnly := true |}
      else
        let ws := man_warnings m
          ++ (if nltb (rep_salesQuantity reported) (man_quantity m)
              then [js "MANUAL_PURCHASE_QUANTITY_EXCEEDS_REPORTED"] else [])
          ++ (match man_salesAmountKrw m with
              | Some a => if nltb (rep_salesKrw reported) a
                          then [js "MANUAL_PURCHASE_SALES_EXCEEDS_REPORTED"] else []
              | None => []
              end) in
        let adjusted := deductManualPurchaseFromReportedSegments (resolvedReportedSegments reported)
                          (man_quantity m) (man_salesAmountKrw m) in
        let t := sumCoupangSalesSegments adjusted in
        let sales := match man_salesAmountKrw m with None => None | Some _ => Some (tot_salesKrw t) end in
        let net := match man_salesAmountKrw m with None => None | Some _ => Some (tot_netSalesKrw t) end in
        let quantity := nsub (rep_salesQuantity reported) (man_quantity m) in
        let ws := if nltb quantity (ofZ 0)
                  then push_once (js "MANUAL_PURCHASE_QUANTITY_EXCEEDS_REPORTED") ws else ws in
        let ws := if some_negative sales
                  then push_once (js "MANUAL_PURCHASE_SALES_EXCEEDS_REPORTED") ws else ws in
        let ws := if some_negative net
                  then ws ++ [js "MANUAL_PURCHASE_ADJUSTED_NET_SALES_NEGATIVE"] else ws in
        {| act_salesKrw := sales; act_netSalesKrw := net; act_salesQuantity := Some quantity;
           act_orderCount := rep_orderCount reported; act_segments := adjusted;
           act_warnings := unique_str ws; isValid := negb (hasBlockingManualSalesWarning ws);
           isManualOnly := false |}
  end.

(** ** Profit of the normal sales and of the manual purchases *)

Definition hasCoupangSalesSegmentActivity (segs : list CoupangSalesSegment) : bool :=
  existsb (fun s => negb (neqb (seg_netSalesKrw s) (ofZ 0))
                    || negb (neqb (seg_salesQuantity s) (ofZ 0))) segs.

Definition is_null (x : nullish num) : bool := match x with Null => true | _ => false end.

Definition sells_by (m : CoupangFulfillmentMethod) (segs : list CoupangSalesSegment) : bool :=
  existsb (fun s => has_method m s && nltb (ofZ 0) (seg_salesQuantity s)) segs.

Definition missingCoupangLogisticsCostWarnings (segs : list CoupangSalesSegment)
    (cost : CoupangCostInput) : list str :=
  (if sells_by SELLER segs && is_null (sellerShippingFeeKrw cost)
   then [js "SELLER_SHIPPING_FEE_MISSING"] else [])
  ++ (if sells_by GROWTH segs && is_null (hanaroShippingFeeKrw cost)
      then [js "HANARO_SHIPPING_FEE_MISSING"] else []).

Definition emptyCostInput : CoupangCostInput :=
  {| productCostKrw := ofZ 0; sellerShippingFeeKrw := Undefined; hanaroShippingFeeKrw := Undefined;
     growthInboundFeeKrw := None; growthShippingFeeKrw := None; returnRate := None;
     returnCostPerUnitKrw := None; extraCostKrw := None |}.

Definition profit_segment (s : CoupangSalesSegment) : CoupangProfitSegmentInput :=
  {| CoupangProfit.fulfillmentMethod := fulfillmentMethod s;
     CoupangProfit.seg_netSalesKrw := seg_netSalesKrw s;
     CoupangProfit.seg_salesQuantity := seg_salesQuantity s |}.

Definition incomplete (ws : list str) : NormalCoupangProfitResult :=
  {| status := INCOMPLETE; calculated := None; norm_warnings := ws |}.

Definition calculateNormalCoupangProfit (actual : ActualSalesFacts) (cost : option CoupangCostInput)
    (ads : CoupangAdInput) (salesFeeRate : option num) : NormalCoupangProfitResult :=
  if negb (isValid actual) || negb (is_Some_b (act_netSalesKrw actual))
     || negb (is_Some_b (act_salesQuantity actual))
  then incomplete []
  else
    let normal := act_segments actual in
    if negb (is_Some_b salesFeeRate) && negb (isManualOnly actual) then
      incomplete [js "COUPANG_GLOBAL_SALES_FEE_RATE_MISSING"]
    else if negb (hasCoupangSalesSegmentActivity normal) then
      let r := calculateCoupangProfitBySegments (map profit_segment normal) emptyCostInput ads
                 (salesFeeRate ?? ofZ 0) (Some false) in
      {| status := NOT_APPLICABLE; calculated := Some r; norm_warnings := warnings (profit r) |}
    else
      match salesFeeRate, cost with
      | None, _ => incomplete [js "COUPANG_GLOBAL_SALES_FEE_RATE_MISSING"]
      | Some _, None => incomplete [js "NORMAL_COST_RULE_MISSING"]
      | Some rate, Some c =>
          let missing := missingCoupangLogisticsCostWarnings normal c in
          if truthy_list missing then incomplete missing
          else
            let r := calculateCoupangProfitBySegments (map profit_segment normal) c ads rate (Some true) in
            {| status := COMPLETE; calculated := Some r; norm_warnings := warnings (profit r) |}
      end.

Record manual_adjustment := {
  adj_status : CoupangCalculationPartStatus;
  adj_totalCostKrw : option num;
  marginAdjustmentKrw : option num;
  adj_warnings : list str
}.

Definition calculateManualPurchaseProfitAdjustment (manual : option ManualPurchaseFacts)
    : manual_adjustment :=
  let not_applicable := {| adj_status := NOT_APPLICABLE; adj_totalCostKrw := Some (ofZ 0);
                           marginAdjustmentKrw := Some (ofZ 0); adj_warnings := [] |} in
  match manual with
  | None => not_applicable
  | Some m =>
      if neqb (man_quantity m) (ofZ 0) then not_applicable
      else
        match man_totalCostKrw m with
        | Some total =>
            if hasBlockingManualWarning (man_warnings m) || negb (isCostSnapshotComplete m) then
              {| adj_status := INCOMPLETE; adj_totalCostKrw := man_totalCostKrw m;
                 marginAdjustmentKrw := None; adj_warnings := man_warnings m |}
            else
              {| adj_status := COMPLETE; adj_totalCostKrw := Some total;
                 marginAdjustmentKrw := Some (nopp total); adj_warnings := man_warnings m |}
        | None =>
            {| adj_status := INCOMPLETE; adj_totalCostKrw := None;
               marginAdjustmentKrw := None; adj_warnings := man_warnings m |}
        end
  end.

Record combined := {
  calculationStatus : CoupangCalculationPartStatus;
  comb_totalCostKrw : option num;
  comb_marginKrw : option num
}.

Definition combineCoupangProfitParts (normal : NormalCoupangProfitResult) (manual : manual_adjustment)
    : combined :=
  let st := if bool_decide (status normal = INCOMPLETE) || bool_decide (adj_status manual = INCOMPLETE)
            then INCOMPLETE else COMPLETE in
  match st, calculated normal, adj_totalCostKrw manual with
  | COMPLETE, Some r, Some cost =>
      {| calculationStatus := st;
         comb_totalCostKrw := Some (nadd (totalCostKrw (profit r)) cost);
         comb_marginKrw := Some (nsub (marginKrw (profit r)) cost) |}
  | _, _, _ => {| calculationStatus := st; comb_totalCostKrw := None; comb_marginKrw := None |}
  end.
End pipeline.

(** ** Facts: reported sales *)

Inductive field := FSales | FCancel | FNet | FQuantity | FOrders.

Definition row_get (f : field) (r : ReportedSalesFactInput) : num :=
  match f with
  | FSales => row_salesKrw r | FCancel => row_cancelAmountKrw r | FNet => row_netSalesKrw r
  | FQuantity => row_salesQuantity r | FOrders => row_orderCount r
  end.

Definition seg_get (f : field) (s : CoupangSalesSegment) : num :=
  match f with
  | FSales => seg_salesKrw s | FCancel => seg_cancelAmountKrw s | FNet => seg_netSalesKrw s
  | FQuantity => seg_salesQuantity s | FOrders => seg_orderCount s
  end.

Definition rep_get (f : field) (r : ReportedSalesFacts) : num :=
  match f with
  | FSales => rep_salesKrw r | FCancel => rep_cancelAmountKrw r | FNet => rep_netSalesKrw r
  | FQuantity => rep_salesQuantity r | FOrders => rep_orderCount r
  end.

Definition tot_get (f : field) (t : segment_totals) : num :=
  match f with
  | FSales => tot_salesKrw t | FCancel => tot_cancelAmountKrw t | FNet => tot_netSalesKrw t
  | FQuantity => tot_salesQuantity t | FOrders => tot_orderCount t
  end.

Section reported_facts.
Context `{Icu}.

(** The segment of a method from its rows. *)
Definition seg_of (m : CoupangFulfillmentMethod) (rows : list ReportedSalesFactInput)
    : CoupangSalesSegment :=
  fold_left (fun s r => add_to_segment r s) rows (emptySalesSegment m).

Lemma seg_of_method m rows : fulfillmentMethod (seg_of m rows) = m.
Proof.
  unfold seg_of. change m with (fulfillmentMethod (emptySalesSegment m)) at 2.
  generalize (emptySalesSegment m) as s.
  induction rows as [|r rows IH]; intros s; simpl; [done|]. by rewrite IH.
Qed.

Lemma seg_of_get f m rows :
  seg_get f (seg_of m rows) = sum (map (row_get f) rows).
Proof.
  unfold seg_of, sum. rewrite (fold_left_map_l (row_get f)).
  replace (ofZ 0) with (seg_get f (emptySalesSegment m)) by by destruct f.
  generalize (emptySalesSegment m) as s.
  induction rows as [|r rows IH]; intros s; cbn [fold_left]; [done|]. rewrite IH. f_equal. by destruct f.
Qed.

Lemma update_segment_groups row gs :
  update_segment row (map (fun g => seg_of (fst g) (snd g)) gs)
  = map (fun g => seg_of (fst g) (snd g)) (group_add row_method gs row).
Proof.
  unfold group_add. induction gs as [|[m g] gs IH]; simpl; [done|].
  rewrite seg_of_method. destruct (decide (m = row_method row)) as [->|]; simpl.
  - f_equal. unfold seg_of. by rewrite fold_left_app.
  - by rewrite IH.
Qed.

Lemma segments_fold rows f0 :
  segments (fold_left add_reported_row rows f0)
  = fold_left (fun segs r => update_segment r segs) rows (segments f0).
Proof. revert f0. induction rows as [|r rows IH]; intros f0; simpl; [done|]. by rewrite IH. Qed.

Lemma segments_group rows :
  fold_left (fun segs r => update_segment r segs) rows []
  = map (fun g => seg_of (fst g) (snd g)) (group_by row_method rows).
Proof.
  induction rows as [|r rows IH] using rev_ind; [done|].
  rewrite fold_left_app, group_by_snoc. simpl. by rewrite IH, update_segment_groups.
Qed.

Lemma tot_get_sum f segs : tot_get f (sumCoupangSalesSegments segs) = sum (map (seg_get f) segs).
Proof.
  unfold sumCoupangSalesSegments, sum. rewrite (fold_left_map_l (seg_get f)).
  match goal with
  | |- tot_get f (fold_left ?g segs ?t0) = fold_left ?h segs _ =>
      assert (G : forall t, tot_get f (fold_left g segs t) = fold_left h segs (tot_get f t))
  end.
  { induction segs as [|s segs IH]; intros t; cbn [fold_left]; [done|]. rewrite IH. f_equal. by destruct f. }
  rewrite G. by destruct f.
Qed.

(** Totals are always those of the segments. *)
Lemma rep_get_sync f r :
  rep_get f (syncReportedTotalsFromSegments r) = sum (map (seg_get f) (segments r)).
Proof. rewrite <- tot_get_sum. by destruct f. Qed.

Lemma rep_get_add f current row :
  rep_get f (add_reported_row current row)
  = sum (map (seg_get f) (segments (add_reported_row current row))).
Proof. unfold add_reported_row. by rewrite rep_get_sync. Qed.

Definition amount_of (f : field) (r : ReportedSalesFactInput) : Z := toZ (row_get f r).

(** The column [f] of the rows is whole, its magnitudes summing to a safe integer. *)
Definition whole_rows (f : field) (rows : list ReportedSalesFactInput) : Prop :=
  Forall (fun r => row_get f r = ofZ (amount_of f r)) rows
  /\ abs_sum (map (amount_of f) rows) < 2 ^ 53.

Lemma sum_rows f rows : whole_rows f rows -> sum (map (row_get f) rows) = ofZ (zsum (map (amount_of f) rows)).
Proof.
  intros [F B]. rewrite <- sum_ofZ by done. f_equal. rewrite map_map. apply map_ext_in.
  intros r I. rewrite Forall_forall in F. apply F. by apply list_elem_of_In.
Qed.

Lemma zsum_concat (l : list (list Z)) : zsum (concat l) = zsum (map zsum l).
Proof. induction l as [|x l IH]; simpl; [done|]. by rewrite zsum_app, IH. Qed.

(** Sums of the groups of a partition. *)
Lemma group_sums (f : ReportedSalesFactInput -> Z) rows :
  zsum (map (fun g => zsum (map f (snd g))) (group_by row_method rows)) = zsum (map f rows).
Proof.
  transitivity (zsum (map f (concat (map_values (group_by row_method rows))))).
  - unfold map_values. rewrite concat_map, zsum_concat, !map_map. done.
  - pose proof (group_by_partition row_method rows) as P.
    assert (Q : map f (concat (map_values (group_by row_method rows))) ≡ₚ map f rows) by (by rewrite P).
    clear P. induction Q; simpl; lia.
Qed.

(** The facts of a product and day exist exactly when it has rows; they have
    one segment per fulfilment method, holding the rows of that method, and each
    total (sales, cancellations, net sales, quantity, orders) is the sum over the
    rows of the product and day, when these are whole. *)
Theorem aggregateReportedSales_spec rows k :
  let mine := of_key row_key k rows in
  match map_get (aggregateReportedSalesByProductDate rows) k with
  | None => mine = []
  | Some facts =>
      mine <> [] /\ hasReportedRows facts = true
      /\ NoDup (map fulfillmentMethod (segments facts))
      /\ segments facts = map (fun g => seg_of (fst g) (snd g)) (group_by row_method mine)
      /\ forall f, whole_rows f mine -> rep_get f facts = ofZ (zsum (map (amount_of f) mine))
  end.
Proof.
  intros mine. unfold aggregateReportedSalesByProductDate. rewrite map_get_aggregate. fold mine.
  destruct mine as [|r rs] eqn:E; [done|]. rewrite <- E.
  assert (N : mine <> []) by by rewrite E.
  assert (S : segments (fold_left add_reported_row mine (initial_facts r))
              = map (fun g => seg_of (fst g) (snd g)) (group_by row_method mine))
    by (rewrite segments_fold; apply segments_group).
  split; [done|]. split; [|split; [|split; [done|]]].
  - destruct (exists_last N) as (l & x & ->). by rewrite fold_left_app.
  - rewrite S, map_map. erewrite map_ext; [apply NoDup_group_by|]. intros g. apply seg_of_method.
  - intros f W. destruct (exists_last N) as (l & x & El).
    assert (T : rep_get f (fold_left add_reported_row mine (initial_facts r))
                = sum (map (seg_get f) (segments (fold_left add_reported_row mine (initial_facts r))))).
    { rewrite El, fold_left_app. cbn [fold_left]. apply rep_get_add. }
    rewrite T, S, map_map. clear T S El.
    rewrite (map_ext _ (fun g => sum (map (row_get f) (snd g)))) by (intros g; apply seg_of_get).
    rewrite (map_ext_in _ (fun g => ofZ (zsum (map (amount_of f) (snd g))))).
    2:{ intros [m g] I. apply list_elem_of_In, elem_of_group_by in I as [-> _]. simpl.
        apply sum_rows. destruct W as [F B]. split.
        - apply Forall_forall. intros y [Iy _]%elem_of_filterb. rewrite Forall_forall in F. auto.
        - eapply Z.le_lt_trans; [|exact B]. clear. unfold abs_sum, of_key.
          induction mine as [|y l IH]; simpl; [lia|]. case_bool_decide; simpl; lia. }
    rewrite <- (map_map (fun g => zsum (map (amount_of f) (snd g))) ofZ).
    rewrite sum_ofZ; [by rewrite group_sums|].
    destruct W as [F B]. eapply Z.le_lt_trans; [|exact B].
    unfold abs_sum. rewrite map_map, (map_map (amount_of f)).
    rewrite <- (group_sums (fun r => Z.abs (amount_of f r))).
    clear. induction (group_by row_method mine) as [|g l IH]; simpl; [lia|].
    pose proof (abs_sum_bound (map (amount_of f) (snd g))) as Bd. unfold abs_sum in Bd.
    rewrite map_map in Bd. lia.
Qed.
End reported_facts.

(** ** Facts: deducting quantities *)

(** What the deduction of amounts leaves alone. *)
Definition quantities (segs : list CoupangSalesSegment) : list (CoupangFulfillmentMethod * num) :=
  map (fun s => (fulfillmentMethod s, seg_salesQuantity s)) segs.

Lemma quantities_insert i x s f segs :
  segs !! i = Some s -> quantities (<[i := set_amount f x s]> segs) = quantities segs.
Proof.
  unfold quantities. revert i. induction segs as [|y segs IH]; intros [|i] E; simpl in *; try done.
  - by injection E as ->.
  - by rewrite IH.
Qed.

Lemma quantities_apply f deductions desired segs :
  quantities (apply_deductions f deductions desired segs) = quantities segs.
Proof.
  revert desired segs. induction deductions as [|[i q] ds IH]; intros [|d rest] segs; simpl; try done.
  rewrite IH. destruct (segs !! i) eqn:E; [|done]. by apply quantities_insert.
Qed.

Lemma quantities_amount deductions requested f segs :
  quantities (deductManualSalesAmount deductions requested f segs) = quantities segs.
Proof.
  unfold deductManualSalesAmount. destruct (cap_deductions _ _ _ _ _) as [d1 s1].
  destruct (redistribute _ _ _ _ _) as [d2 s2]. apply quantities_apply.
Qed.

Lemma quantities_deduct segs q amount :
  segs <> [] -> safe q -> 0 < q ->
  quantities (deductManualPurchaseFromReportedSegments segs (ofZ q) amount)
  = quantities (fst (fst (fold_left deduct_quantity_step (deduction_targets segs) (segs, ofZ q, [])))).
Proof.
  intros N Hq Pq. unfold deductManualPurchaseFromReportedSegments, finiteOrZero.
  rewrite finiteNumber_ofZ by done. rewrite nleb_ofZ by (done || (unfold safe; lia)).
  replace (q <=? 0) with false by lia. destruct segs as [|s0 segs0] eqn:E; [done|]. cbn [truthy_list negb orb].
  rewrite <- E. destruct (fold_left _ _ _) as [[adjusted rem] ds]. simpl.
  destruct amount, (last (deduction_targets segs)); rewrite ?quantities_amount; done.
Qed.

(** The quantity of a method, 0 without a segment. *)
Definition quantity_by (m : CoupangFulfillmentMethod) (qs : list (CoupangFulfillmentMethod * num)) : Z :=
  match List.find (fun e => bool_decide (fst e = m)) qs with Some (_, q) => toZ q | None => 0 end.

Definition whole_quantities (segs : list CoupangSalesSegment) : Prop :=
  Forall (fun s => exists z, seg_salesQuantity s = ofZ z /\ 0 <= z < 2 ^ 53) segs.

(** One step on a segment of whole quantity. *)
Lemma deduct_step_whole segs i m z r ds :
  quantities segs !! i = Some (m, ofZ z) -> 0 <= z < 2 ^ 53 -> 0 <= r < 2 ^ 53 ->
  exists segs' ds',
    deduct_quantity_step (segs, ofZ r, ds) i = (segs', ofZ (r - Z.min z r), ds')
    /\ quantities segs' = <[i := (m, ofZ (z - Z.min z r))]> (quantities segs).
Proof.
  intros Q Hz Hr. pose proof Q as L. unfold quantities in L. rewrite list_lookup_fmap in L.
  destruct (segs !! i) as [s|] eqn:Es; [|done]. simpl in L. injection L as Em E.
  unfold deduct_quantity_step. rewrite Es, E.
  rewrite nleb_ofZ by (unfold safe; lia). destruct (Z.leb_spec r 0).
  - exists segs, ds. replace r with 0 by lia. rewrite Z.min_r, !Z.sub_0_r by lia. split; [done|].
    by rewrite list_insert_id.
  - unfold finiteOrZero. rewrite finiteNumber_ofZ, (nmax_ofZ 0) by (unfold safe; lia).
    rewrite Z.max_r, nmin_ofZ, !nsub_ofZ by (unfold safe; lia).
    eexists _, _. split; [done|]. unfold quantities. rewrite list_fmap_insert. simpl. by rewrite Em.
Qed.

(** The targets taken in order, on the quantities alone. *)
Definition take_from (st : list (CoupangFulfillmentMethod * Z) * Z) (i : nat)
    : list (CoupangFulfillmentMethod * Z) * Z :=
  let '(qs, r) := st in
  match qs !! i with
  | Some (m, z) => (<[i := (m, z - Z.min z r)]> qs, r - Z.min z r)
  | None => st
  end.

Definition num_quantities (qs : list (CoupangFulfillmentMethod * Z))
    : list (CoupangFulfillmentMethod * num) := map (fun e => (fst e, ofZ (snd e))) qs.

Lemma deduct_steps_whole targets segs qs r ds :
  quantities segs = num_quantities qs -> Forall (fun e => 0 <= snd e < 2 ^ 53) qs -> 0 <= r < 2 ^ 53 ->
  Forall (fun i => (i < List.length qs)%nat) targets ->
  quantities (fst (fst (fold_left deduct_quantity_step targets (segs, ofZ r, ds))))
  = num_quantities (fst (fold_left take_from targets (qs, r))).
Proof.
  intros E W Hr F. revert segs qs r ds E W Hr F. induction targets as [|i targets IH];
    intros segs qs r ds E W Hr F; [done|].
  apply Forall_cons in F as [Hi F]. destruct (lookup_lt_is_Some_2 qs i Hi) as [[m z] L].
  assert (Hz : 0 <= z < 2 ^ 53) by (apply (Forall_lookup_1 _ _ _ _ W L)).
  destruct (deduct_step_whole segs i m z r ds) as (segs' & ds' & S & Q); [|done|done|].
  { rewrite E. unfold num_quantities. by rewrite list_lookup_fmap, L. }
  cbn [fold_left]. rewrite S. unfold take_from at 2. rewrite L. apply IH.
  - rewrite Q, E. unfold num_quantities. by rewrite list_fmap_insert.
  - apply Forall_insert; [done|]. simpl. lia.
  - lia.
  - by rewrite length_insert.
Qed.

Lemma whole_quantities_num segs :
  whole_quantities segs ->
  exists qs, quantities segs = num_quantities qs /\ Forall (fun e => 0 <= snd e < 2 ^ 53) qs
             /\ map fst qs = map fulfillmentMethod segs.
Proof.
  induction 1 as [|s segs (z & E & Hz) W (qs & Q & B & M)]; [by exists []|].
  exists ((fulfillmentMethod s, z) :: qs). unfold quantities, num_quantities in *. simpl.
  rewrite E, Q, M. split; [done|]. split; [by constructor|done].
Qed.

Lemma index_of_methods m segs :
  index_of (has_method m) segs = index_of (fun m' => bool_decide (m' = m)) (map fulfillmentMethod segs).
Proof. induction segs as [|s segs IH]; simpl; [done|]. unfold has_method at 1. case_bool_decide; [done|]. by rewrite IH. Qed.

(** A manual purchase is taken from the SELLER quantity first and only what
    exceeds it from the GROWTH quantity; no quantity becomes negative, no other
    quantity changes, and no segment appears or disappears. *)
Theorem deduct_quantities segs q amount :
  NoDup (map fulfillmentMethod segs) -> whole_quantities segs -> 0 < q < 2 ^ 53 ->
  let before := quantities segs in
  let after := quantities (deductManualPurchaseFromReportedSegments segs (ofZ q) amount) in
  map fst after = map fst before
  /\ quantity_by SELLER after = Z.max 0 (quantity_by SELLER before - q)
  /\ quantity_by GROWTH after
     = Z.max 0 (quantity_by GROWTH before - Z.max 0 (q - quantity_by SELLER before)).
Proof.
  intros N W Hq before after.
  destruct (whole_quantities_num segs W) as (qs & Q & B & M).
  unfold before. rewrite Q. assert (A : after = num_quantities
    (match qs with [] => [] | _ =>
       fst (fold_left take_from (omap (fun m => index_of (fun m' => bool_decide (m' = m)) (map fst qs)) [SELLER; GROWTH])
              (qs, q)) end)).
  { unfold after. destruct qs as [|e qs0].
    { destruct segs; [|done]. unfold deductManualPurchaseFromReportedSegments. by rewrite orb_true_r. }
    rewrite quantities_deduct; [| |unfold safe; lia|lia].
    2:{ intros ->. done. }
    unfold deduction_targets. rewrite (list_omap_ext _ (fun m => index_of (fun m' => bool_decide (m' = m)) (map fst (e :: qs0))) [SELLER; GROWTH] [SELLER; GROWTH]).
    2:{ apply Forall_Forall2_diag, Forall_true. intros m. by rewrite index_of_methods, M. }
    apply deduct_steps_whole; [done|done|lia|].
    apply Forall_forall. intros i (m & _ & Hi)%list_elem_of_omap.
    rewrite <- (length_map fst). revert i Hi. generalize (map fst (e :: qs0)).
    intros l. induction l as [|x l IH]; intros i Hi; simpl in *; [done|].
    case_bool_decide; [injection Hi as <-; lia|].
    destruct (index_of _ l) as [j|]; [|done]. injection Hi as <-. specialize (IH j eq_refl). lia. }
  rewrite A. clear A after before Q W. rewrite <- M in N. clear M segs amount.
  destruct qs as [|[m z] [|[m' z'] [|[m'' z''] qs]]].
  - unfold quantity_by. simpl. split; [done|]. lia.
  - apply Forall_cons in B as [B1 _]. simpl in B1.
    destruct m; unfold quantity_by; simpl; rewrite !toZ_ofZ by (unfold safe; lia); (split; [done|]; lia).
  - apply Forall_cons in B as [B1 [B2 _]%Forall_cons]. simpl in B1, B2.
    destruct m, m'; try (exfalso; simpl in N; apply NoDup_cons in N as [N _]; set_solver);
      unfold quantity_by; simpl; rewrite !toZ_ofZ by (unfold safe; lia); (split; [done|]; lia).
  - exfalso. simpl in N. apply NoDup_cons in N as [N1 [N2 _]%NoDup_cons].
    rewrite !not_elem_of_cons in N1. rewrite not_elem_of_cons in N2.
    destruct m, m', m''; naive_solver.
Qed.

Lemma deduct_quantities_witness :
  let seg m q n := {| fulfillmentMethod := m; sourceSaleMethods := []; seg_salesKrw := ofZ n;
                      seg_cancelAmountKrw := ofZ 0; seg_netSalesKrw := ofZ n; seg_salesQuantity := ofZ q;
                      seg_orderCount := ofZ q; seg_lineCount := ofZ 1 |} in
  let segs := [seg GROWTH 5 50000; seg SELLER 2 20000] in
  let after := quantities (deductManualPurchaseFromReportedSegments segs (ofZ 3) (Some (ofZ 30000))) in
  after = [(GROWTH, ofZ 4); (SELLER, ofZ 0)] /\ quantity_by GROWTH after = 4.
Proof.
  intros seg segs after. split; [vm_compute; reflexivity|].
  refine (proj2 (proj2 (deduct_quantities segs 3 (Some (ofZ 30000)) _ _ _))).
  - repeat constructor; rewrite ?elem_of_cons, ?elem_of_nil; simpl; intuition congruence.
  - repeat constructor; [exists 5|exists 2]; split; (reflexivity || lia).
  - lia.
Defined.

(** ** Facts: actual sales and profit *)

Lemma blocking_app ws ws' :
  hasBlockingManualSalesWarning (ws ++ ws')
  = hasBlockingManualSalesWarning ws || hasBlockingManualSalesWarning ws'.
Proof. apply existsb_app. Qed.

Lemma not_blocking w ws :
  hasBlockingManualSalesWarning ws = false -> w ∈ sales_blocking -> w ∉ ws.
Proof.
  unfold hasBlockingManualSalesWarning. rewrite existsb_false_iff. intros F Hw Hi.
  specialize (F w Hi). by rewrite bool_decide_eq_true_2 in F.
Qed.

Lemma push_once_blocking w ws :
  w ∈ sales_blocking -> hasBlockingManualSalesWarning (push_once w ws) = false -> False.
Proof.
  intros Hw H. eapply (not_blocking w); [exact H|done|]. unfold push_once.
  case_bool_decide; [done|]. apply elem_of_app. right. apply list_elem_of_here.
Qed.

Lemma push_once_sub w ws x : x ∈ ws -> x ∈ push_once w ws.
Proof. unfold push_once. case_bool_decide; [done|]. intros. apply elem_of_app. by left. Qed.

Lemma blocking_sub ws ws' :
  (forall x, x ∈ ws -> x ∈ ws') -> hasBlockingManualSalesWarning ws' = false ->
  hasBlockingManualSalesWarning ws = false.
Proof.
  unfold hasBlockingManualSalesWarning. rewrite !existsb_false_iff. intros S F x Hx. auto.
Qed.

Ltac blocking_member :=
  match goal with
  | |- ?w ∈ sales_blocking => apply (bool_decide_eq_true_1 (w ∈ sales_blocking)); vm_compute; reflexivity
  end.

(** A manual purchase of an unknown amount is flagged. *)
Lemma manual_amount_missing group :
  man_salesAmountKrw (manual_facts group) = None ->
  js "MANUAL_PURCHASE_SALES_AMOUNT_MISSING" ∈ man_warnings (manual_facts group).
Proof.
  cbn [manual_facts man_salesAmountKrw man_warnings]. unfold sumNullable.
  destruct (all_some _) eqn:E; [done|]. intros _.
  assert (R : exists r, r ∈ group /\ resolved_salesAmountKrw (resolveManualPurchaseSalesAmount r) = None).
  { clear -E. rewrite map_map in E. induction group as [|r group IH]; simpl in E; [done|].
    destruct (resolved_salesAmountKrw _) eqn:R; [|exists r; split; [apply list_elem_of_here|done]].
    destruct (all_some _) eqn:A; [done|]. destruct (IH eq_refl) as (x & Hx & Hr).
    exists x. split; [by apply list_elem_of_further|done]. }
  destruct R as (r & Hr & R).
  assert (W : js "MANUAL_PURCHASE_SALES_AMOUNT_MISSING" ∈ resolved_warnings (resolveManualPurchaseSalesAmount r)).
  { revert R. unfold resolveManualPurchaseSalesAmount. repeat case_match; simpl; try done;
      intros _; apply list_elem_of_here. }
  unfold unique_str, unique. rewrite elem_of_js_unique, elem_of_filterb. split; [|done].
  apply list_elem_of_omap. exists (Some (js "MANUAL_PURCHASE_SALES_AMOUNT_MISSING")). split; [|done].
  apply list_elem_of_In, in_map, list_elem_of_In. rewrite !elem_of_app. left.
  apply list_elem_of_In, in_concat. exists (resolved_warnings (resolveManualPurchaseSalesAmount r)).
  split; [|by apply list_elem_of_In].
  rewrite map_map. apply (in_map (fun x => resolved_warnings (resolveManualPurchaseSalesAmount x))).
  by apply list_elem_of_In.
Qed.

(** Actual sales that remain valid after a manual purchase were reported,
    have every amount known, and nothing in them is negative: the purchase does
    not exceed the reported quantity nor the reported sales.  Sales without a
    report are therefore never valid. *)
Theorem adjust_valid `{Icu} reported group :
  let m := manual_facts group in
  let a := adjustReportedSalesForManualPurchase reported (Some m) in
  neqb (man_quantity m) (ofZ 0) = false -> isValid a = true ->
  hasReportedRows reported = true /\ isManualOnly a = false
  /\ nltb (rep_salesQuantity reported) (man_quantity m) = false
  /\ exists amount sales net quantity,
       man_salesAmountKrw m = Some amount /\ nltb (rep_salesKrw reported) amount = false
       /\ act_salesKrw a = Some sales /\ nltb sales (ofZ 0) = false
       /\ act_netSalesKrw a = Some net /\ nltb net (ofZ 0) = false
       /\ act_salesQuantity a = Some quantity /\ nltb quantity (ofZ 0) = false
       /\ quantity = nsub (rep_salesQuantity reported) (man_quantity m).
Proof.
  intros m a Q V. unfold a, adjustReportedSalesForManualPurchase in *. rewrite Q in *.
  destruct (hasReportedRows reported); cbn [negb] in *.
  2:{ exfalso. cbn [isValid] in V. apply negb_true_iff in V.
      apply (not_blocking (js "MANUAL_PURCHASE_WITHOUT_REPORTED_SALES")) in V; [|blocking_member].
      apply V, elem_of_app. right. apply list_elem_of_here. }
  destruct (man_salesAmountKrw m) as [amount|] eqn:Am.
  2:{ exfalso. cbn [isValid some_negative] in V. apply negb_true_iff in V.
      pose proof (manual_amount_missing group Am) as Mi. fold m in Mi.
      apply (not_blocking (js "MANUAL_PURCHASE_SALES_AMOUNT_MISSING")) in V; [|blocking_member].
      apply V. destruct (nltb (nsub _ _) _); [apply push_once_sub|]; apply elem_of_app; by left. }
  cbn [isValid isManualOnly act_salesKrw act_netSalesKrw act_salesQuantity some_negative] in *.
  apply negb_true_iff in V.
  set (t := sumCoupangSalesSegments _) in *.
  set (ws0 := man_warnings m ++ _) in *.
  set (ws1 := if nltb (nsub (rep_salesQuantity reported) (man_quantity m)) (ofZ 0) then _ else _) in *.
  set (ws2 := if nltb (tot_salesKrw t) (ofZ 0) then _ else _) in *.
  assert (N3 : nltb (tot_netSalesKrw t) (ofZ 0) = false).
  { destruct (nltb (tot_netSalesKrw t) (ofZ 0)); [|done]. exfalso. rewrite blocking_app in V.
    apply orb_false_iff in V as [_ V]. by vm_compute in V. }
  rewrite N3 in V.
  assert (N2 : nltb (tot_salesKrw t) (ofZ 0) = false).
  { unfold ws2 in V. destruct (nltb (tot_salesKrw t) (ofZ 0)); [|done]. exfalso.
    eapply push_once_blocking; [|exact V]. blocking_member. }
  unfold ws2 in V. rewrite N2 in V.
  assert (N1 : nltb (nsub (rep_salesQuantity reported) (man_quantity m)) (ofZ 0) = false).
  { unfold ws1 in V. destruct (nltb (nsub _ _) _); [|done]. exfalso.
    eapply push_once_blocking; [|exact V]. blocking_member. }
  unfold ws1 in V. rewrite N1 in V. unfold ws0 in V. rewrite !blocking_app in V.
  apply orb_false_iff in V as [_ [V1 V2]%orb_false_iff].
  assert (M1 : nltb (rep_salesQuantity reported) (man_quantity m) = false)
    by (destruct (nltb (rep_salesQuantity reported) _); [by vm_compute in V1|done]).
  assert (M2 : nltb (rep_salesKrw reported) amount = false)
    by (destruct (nltb (rep_salesKrw reported) _); [by vm_compute in V2|done]).
  split; [done|]. split; [done|]. split; [done|].
  exists amount, (tot_salesKrw t), (tot_netSalesKrw t), (nsub (rep_salesQuantity reported) (man_quantity m)).
  repeat (split; [done|]). done.
Qed.

(** The profit of a product and day is complete exactly when a margin is
    given; it is then the margin of the normal sales less the cost of the manual
    purchase, both parts being known; an incomplete part never yields a margin. *)
Theorem combine_complete `{Icu} actual cost ads rate manual :
  let normal := calculateNormalCoupangProfit actual cost ads rate in
  let adj := calculateManualPurchaseProfitAdjustment manual in
  let c := combineCoupangProfitParts normal adj in
  (calculationStatus c = COMPLETE <-> comb_marginKrw c <> None)
  /\ (calculationStatus c = COMPLETE <-> status normal <> INCOMPLETE /\ adj_status adj <> INCOMPLETE)
  /\ (calculationStatus c <> COMPLETE -> comb_totalCostKrw c = None)
  /\ forall margin, comb_marginKrw c = Some margin ->
       exists r k, calculated normal = Some r /\ adj_totalCostKrw adj = Some k
         /\ margin = nsub (marginKrw (profit r)) k
         /\ comb_totalCostKrw c = Some (nadd (totalCostKrw (profit r)) k).
Proof.
  intros normal adj c.
  assert (Hn : status normal <> INCOMPLETE -> exists r, calculated normal = Some r).
  { unfold normal, calculateNormalCoupangProfit, incomplete. repeat case_match; simpl; naive_solver. }
  assert (Ha : adj_status adj <> INCOMPLETE -> exists k, adj_totalCostKrw adj = Some k).
  { unfold adj, calculateManualPurchaseProfitAdjustment. repeat case_match; simpl; naive_solver. }
  unfold c, combineCoupangProfitParts.
  destruct (decide (status normal = INCOMPLETE)) as [En|En].
  { rewrite (bool_decide_eq_true_2 (status normal = INCOMPLETE)) by done. simpl. naive_solver. }
  rewrite (bool_decide_eq_false_2 (status normal = INCOMPLETE)) by done. destruct (Hn En) as [r Er].
  destruct (decide (adj_status adj = INCOMPLETE)) as [Ea|Ea].
  { rewrite (bool_decide_eq_true_2 (adj_status adj = INCOMPLETE)) by done. simpl. naive_solver. }
  rewrite (bool_decide_eq_false_2 (adj_status adj = INCOMPLETE)) by done. destruct (Ha Ea) as [k Ek].
  rewrite Er, Ek. simpl. split; [done|]. split; [done|]. split; [done|].
  intros margin [= <-]. by exists r, k.
Qed.

Lemma adjust_valid_witness :
  let mrow := {| mrow_productId := js "p"; mrow_date := js "2026-01-01"; mrow_quantity := ofZ 2;
                 mrow_salesAmountKrw := Some (ofZ 20000); mrow_baseSalePriceKrw := None;
                 mrow_vendorFeeKrw := Some (ofZ 1000); mrow_totalCostKrw := Some (ofZ 1000);
                 mrow_saleMethod := None |} in
  let row := {| row_productId := js "p"; row_date := js "2026-01-01"; row_salesKrw := ofZ 50000;
                row_cancelAmountKrw := ofZ 0; row_netSalesKrw := ofZ 50000;
                row_salesQuantity := ofZ 5; row_orderCount := ofZ 5; row_saleMethod := None;
                row_lineCount := None; row_productName := None |} in
  let reported := @add_reported_row c_locale (initial_facts row) row in
  let a := @adjustReportedSalesForManualPurchase c_locale reported (Some (manual_facts [mrow])) in
  act_salesQuantity a = Some (ofZ 3) /\ isManualOnly a = false.
Proof.
  intros mrow row reported a. split; [vm_compute; reflexivity|].
  refine (proj1 (proj2 (@adjust_valid c_locale reported [mrow] _ _))); vm_compute; reflexivity.
Defined.
