(* ===== verification/StorageKey.v ===== *)
(** * Storage keys and references

    [storage/storage-reference.ts]: the check every storage key passes, the
    textual references [provider:key] kept in the database, and the translation
    of the older workspace paths.  The functions of [node:path] the source
    calls (POSIX flavour) are written out on path segments.  The file shows
    that an accepted key denotes a file strictly below the storage root and
    that references are read back as they were written. *)

From S2P Require Import Prelude JsNumber JsString.

Local Open Scope N_scope.

(** ** [node:path] *)

Definition slash : N := 47.
Definition dot : str := [46].
Definition dotdot : str := [46; 46].

(** [normalizeString]: the segments of a path after ["."] and [".."] are
    resolved; [acc] is the reversed output. *)
Fixpoint normalize_segments (allowAboveRoot : bool) (acc segs : list str) : list str :=
  match segs with
  | [] => rev acc
  | s :: r =>
      if negb (truthy s) || str_eqb s dot then normalize_segments allowAboveRoot acc r
      else if str_eqb s dotdot then
        match acc with
        | top :: acc' =>
            if str_eqb top dotdot then normalize_segments allowAboveRoot (dotdot :: acc) r
            else normalize_segments allowAboveRoot acc' r
        | [] => normalize_segments allowAboveRoot (if allowAboveRoot then [dotdot] else []) r
        end
      else normalize_segments allowAboveRoot (s :: acc) r
  end.

Definition isAbsolute (p : str) : bool := match p with c :: _ => c =? slash | [] => false end.

Definition posix_normalize (p : str) : str :=
  if negb (truthy p) then dot
  else
    let absolute := isAbsolute p in
    let trailing := ends_with [slash] p in
    let body := join [slash] (normalize_segments (negb absolute) [] (split_on slash p)) in
    if negb (truthy body) then if absolute then [slash] else if trailing then js "./" else dot
    else (if absolute then [slash] else []) ++ body ++ (if trailing then [slash] else []).

(** [path.resolve(...args)] with the working directory [cwd]: the segments
    of the absolute result. *)
Definition resolve_step (p arg : str) : str :=
  if negb (truthy arg) then p else if isAbsolute arg then arg else p ++ [slash] ++ arg.

Definition resolve (cwd : str) (args : list str) : list str :=
  normalize_segments false [] (split_on slash (fold_left resolve_step args cwd)).

(** [path.relative(from, to)] on resolved paths. *)
Fixpoint relative (from to : list str) : list str :=
  match from, to with
  | f :: from', t :: to' =>
      if str_eqb f t then relative from' to' else map (fun _ => dotdot) from ++ to
  | _, _ => map (fun _ => dotdot) from ++ to
  end.

(** ** Keys *)

Definition InvalidStorageKeyError : js_error :=
  {| err_status := 0; err_code := js "InvalidStorageKeyError" |}.

Definition is_control (c : N) : bool := (c <=? 31) || (c =? 127).

Definition reserved_names : list str :=
  map js ["con"; "prn"; "aux"; "nul"; "clock$"; "conin$"; "conout$"]%string
  ++ map (fun d => js "com" ++ [d]) [49; 50; 51; 52; 53; 54; 55; 56; 57]
  ++ map (fun d => js "lpt" ++ [d]) [49; 50; 51; 52; 53; 54; 55; 56; 57].

(** The device names of Windows, alone or before an extension. *)
Definition is_reserved (segment : str) : bool :=
  existsb (fun name =>
    starts_with name (map ascii_lower segment)
    && match drop (List.length name) segment with [] => true | c :: _ => c =? 46 end)
    reserved_names.

Definition ends_dot_or_space (segment : str) : bool := ends_with [46] segment || ends_with [32] segment.

Definition bad_segment (segment : str) : bool :=
  negb (truthy segment) || str_eqb segment dot || str_eqb segment dotdot
  || ends_dot_or_space segment || is_reserved segment.

Definition bad_text (key : str) : bool :=
  negb (truthy key) || (1024 <? N.of_nat (List.length key)) || existsb (N.eqb 0) key
  || existsb (N.eqb 92) key || existsb (N.eqb 58) key || existsb is_control key || isAbsolute key.

Definition normalizeStorageKey (key : str) : result str :=
  if bad_text key then Throws InvalidStorageKeyError
  else
    let normalized := posix_normalize key in
    if str_eqb normalized dot || str_eqb normalized dotdot || starts_with (js "../") normalized
       || negb (str_eqb normalized key) || existsb bad_segment (split_on slash normalized)
    then Throws InvalidStorageKeyError
    else Ok normalized.

(** ** References *)

Record StorageReference := { provider : str; key : str }.

Definition is_provider_start (c : N) : bool := (97 <=? c) && (c <=? 122).
Definition is_provider_char (c : N) : bool := is_provider_start c || is_digit c || (c =? 45).

(** [/^[a-z][a-z0-9-]{0,31}$/]. *)
Definition is_provider (p : str) : bool :=
  match p with
  | c :: r => is_provider_start c && forallb is_provider_char r
              && (N.of_nat (List.length r) <=? 31)
  | [] => false
  end.

Definition storageReference (provider key : str) : result str :=
  if negb (is_provider provider) then Throws InvalidStorageKeyError
  else let! key := normalizeStorageKey key in Ok (provider ++ js ":" ++ key).

(** The characters [.] does not match in a regular expression. *)
Definition is_line_terminator (c : N) : bool :=
  (c =? 10) || (c =? 13) || (c =? 8232) || (c =? 8233).

Fixpoint before_colon (s : str) : option (str * str) :=
  match s with
  | [] => None
  | c :: s' => if c =? 58 then Some ([], s')
               else '(p, r) ← before_colon s'; Some (c :: p, r)
  end.

(** [REFERENCE_PATTERN]: no provider character is a colon, so the first
    group ends at the first colon. *)
Definition match_reference (value : str) : option (str * str) :=
  '(p, r) ← before_colon value;
  if is_provider p && truthy r && negb (existsb is_line_terminator r) then Some (p, r) else None.

Definition parseStorageReference (value : str) : result (option StorageReference) :=
  match match_reference value with
  | None => Ok None
  | Some (p, r) =>
      let! k := normalizeStorageKey r in Ok (Some {| provider := p; key := k |})
  end.

(** ** Workspace paths *)

Section paths.
Context (cwd : str).

(** The location of a key, [path.resolve(rootPath, ...key.split("/"))], with
    the lexical containment test of [LocalFileStorage.safeTargetPath]. *)
Definition safeTargetPath (rootPath key : str) : result (list str) :=
  let targetPath := resolve cwd (rootPath :: split_on slash key) in
  let rel := join [slash] (relative (resolve cwd [rootPath]) targetPath) in
  if negb (truthy rel) || str_eqb rel dotdot || starts_with (js "../") rel || isAbsolute rel
  then Throws InvalidStorageKeyError else Ok targetPath.

Definition legacyLocalPathToKey (workspacePath storageRoot : str) : result str :=
  if negb (truthy workspacePath) || existsb (N.eqb 0) workspacePath
  then Throws InvalidStorageKeyError
  else
    let root := resolve cwd [storageRoot] in
    let absolutePath := resolve cwd [workspacePath] in
    let rel := join [slash] (relative root absolutePath) in
    if negb (truthy rel) || str_eqb rel dotdot || starts_with (js "../") rel || isAbsolute rel
    then Throws InvalidStorageKeyError
    else normalizeStorageKey rel.
End paths.

(** ** Facts about paths *)

Lemma split_on_go_nonempty c acc s : split_on_go c acc s <> [].
Proof. revert acc. induction s as [|d s IH]; intros acc; simpl; [done|]. by destruct (d =? c). Qed.

Lemma join_cons c p ps : ps <> [] -> join [c] (p :: ps) = p ++ c :: join [c] ps.
Proof. by destruct ps. Qed.

Lemma split_on_go_join c acc s : join [c] (split_on_go c acc s) = rev acc ++ s.
Proof.
  revert acc. induction s as [|d s IH]; intros acc; simpl; [by rewrite app_nil_r|].
  destruct (N.eqb_spec d c) as [->|].
  - by rewrite join_cons, IH by apply split_on_go_nonempty.
  - rewrite IH. simpl. by rewrite <- app_assoc.
Qed.

Lemma join_split_on c s : join [c] (split_on c s) = s.
Proof. apply (split_on_go_join c []). Qed.

Lemma split_on_go_app c acc s t :
  split_on_go c acc (s ++ c :: t) = split_on_go c acc s ++ split_on c t.
Proof.
  revert acc. induction s as [|d s IH]; intros acc; simpl; [by rewrite N.eqb_refl|].
  destruct (d =? c); by rewrite IH.
Qed.

Lemma split_on_app c s t : split_on c (s ++ c :: t) = split_on c s ++ split_on c t.
Proof. apply split_on_go_app. Qed.

Lemma split_on_go_nosep c acc s :
  existsb (N.eqb c) s = false -> split_on_go c acc s = [rev acc ++ s].
Proof.
  revert acc. induction s as [|d s IH]; intros acc; simpl; [by rewrite app_nil_r|].
  intros [D H]%orb_false_iff. rewrite N.eqb_sym, D, IH by done. simpl. by rewrite <- app_assoc.
Qed.

(** No segment holds the separator. *)
Lemma split_on_go_segments c acc s :
  existsb (N.eqb c) acc = false -> forall p, p ∈ split_on_go c acc s -> existsb (N.eqb c) p = false.
Proof.
  assert (R : forall a, existsb (N.eqb c) a = false -> existsb (N.eqb c) (rev a) = false).
  { intros a. rewrite !existsb_false_iff. intros H x Hx. apply H.
    rewrite list_elem_of_In in *. by apply in_rev. }
  revert acc. induction s as [|d s IH]; intros acc Ha p; simpl.
  - rewrite list_elem_of_singleton. intros ->. auto.
  - destruct (N.eqb_spec d c) as [->|N].
    + rewrite elem_of_cons. intros [->|Hp]; [auto|]. by apply (IH []).
    + apply IH. simpl. rewrite Ha. apply orb_false_iff. split; [|done]. apply N.eqb_neq. auto.
Qed.

Lemma split_on_segments c s p : p ∈ split_on c s -> existsb (N.eqb c) p = false.
Proof. by apply split_on_go_segments. Qed.

(** A segment that normalisation keeps. *)
Definition plain (s : str) : bool := truthy s && negb (str_eqb s dot) && negb (str_eqb s dotdot).

Lemma normalize_segments_plain b acc segs rest :
  forallb plain segs = true ->
  normalize_segments b acc (segs ++ rest) = normalize_segments b (rev segs ++ acc) rest.
Proof.
  revert acc. induction segs as [|s segs IH]; intros acc; [done|].
  cbn [forallb app normalize_segments rev]. unfold plain at 1. intros H. bool_simpl.
  destruct H as [[[Ht Hd] Hdd] H].
  rewrite Ht, Hd, Hdd. cbn [negb orb].
  rewrite IH by done. by rewrite <- app_assoc.
Qed.

Lemma normalize_segments_all b segs :
  forallb plain segs = true -> normalize_segments b [] segs = segs.
Proof.
  intros H. rewrite <- (app_nil_r segs) at 1. rewrite normalize_segments_plain by done.
  simpl. by rewrite app_nil_r, rev_involutive.
Qed.

Lemma normalize_segments_app acc segs rest :
  forallb plain acc = true ->
  exists acc', forallb plain acc' = true
    /\ normalize_segments false acc segs = rev acc'
    /\ normalize_segments false acc (segs ++ rest) = normalize_segments false acc' rest.
Proof.
  revert acc. induction segs as [|s segs IH]; intros acc H; [by exists acc|].
  cbn [normalize_segments app]. destruct (negb (truthy s) || str_eqb s dot) eqn:E1; [by apply IH|].
  destruct (str_eqb s dotdot) eqn:E2.
  - destruct acc as [|top acc]; [by apply IH|]. simpl in H. apply andb_true_iff in H as [Ht H].
    unfold plain in Ht. bool_simpl. destruct Ht as [_ Ht]. rewrite Ht. by apply IH.
  - apply IH. simpl. rewrite H. unfold plain. bool_simpl. destruct E1 as [E1 ->].
    by rewrite E1, E2.
Qed.

(** A resolved path is made of plain segments. *)
Lemma resolve_plain cwd args : forallb plain (resolve cwd args) = true.
Proof.
  unfold resolve. destruct (normalize_segments_app [] (split_on slash (fold_left resolve_step args cwd)) []
    eq_refl) as (acc & H & -> & _).
  rewrite forallb_forall_iff in *. intros x Hx. apply H. rewrite list_elem_of_In in *. by apply in_rev.
Qed.

Lemma relative_under root rest : relative root (root ++ rest) = rest.
Proof.
  induction root as [|r root IH]; simpl; [by destruct rest|].
  unfold str_eqb. by rewrite bool_decide_eq_true_2.
Qed.

(** What is not reached through [".."] lies below. *)
Lemma relative_below root target :
  (forall r, relative root target <> dotdot :: r) ->
  target = root ++ relative root target.
Proof.
  revert target. induction root as [|r root IH]; intros [|t target] H; simpl in *; try done.
  - exfalso. by eapply H.
  - unfold str_eqb in *. case_bool_decide as E; subst; [|exfalso; by eapply H].
    f_equal. by apply IH.
Qed.

Lemma normalize_segments_resolve segs rest :
  normalize_segments false [] (segs ++ rest)
  = normalize_segments false (rev (normalize_segments false [] segs)) rest.
Proof.
  destruct (normalize_segments_app [] segs rest eq_refl) as (acc & _ & -> & ->).
  by rewrite rev_involutive.
Qed.

(** Appending segments that hold no separator and are not absolute. *)
Lemma fold_resolve_segments p segs :
  (forall s, s ∈ segs -> truthy s = true /\ existsb (N.eqb slash) s = false) ->
  split_on slash (fold_left resolve_step segs p) = split_on slash p ++ segs.
Proof.
  revert p. induction segs as [|s segs IH]; intros p H; [by rewrite app_nil_r|].
  cbn [fold_left]. destruct (H s (list_elem_of_here _ _)) as [T S].
  rewrite IH by (intros t Ht; apply H; by apply list_elem_of_further).
  unfold resolve_step. rewrite T. cbn [negb].
  assert (A : isAbsolute s = false).
  { destruct s as [|c s]; [done|]. simpl in *. apply orb_false_iff in S as [S _].
    by rewrite N.eqb_sym. }
  rewrite A. cbn [app]. rewrite split_on_app. unfold split_on at 2.
  rewrite split_on_go_nosep by done. by rewrite <- app_assoc.
Qed.

Lemma bad_segment_plain s : bad_segment s = false -> plain s = true.
Proof. unfold bad_segment, plain. destruct (truthy s), (str_eqb s dot), (str_eqb s dotdot); done. Qed.

Lemma bad_segments_plain segs : existsb bad_segment segs = false -> forallb plain segs = true.
Proof.
  rewrite existsb_false_iff, forallb_forall_iff. intros H s Hs. by apply bad_segment_plain, H.
Qed.

(** ** Facts about accepted keys *)

(** Reference definition: a key is accepted on the text and on its segments
    alone. *)
Definition key_ok (key : str) : bool :=
  negb (bad_text key) && negb (existsb bad_segment (split_on slash key)).

Lemma not_truthy_nil (s : str) : negb (truthy s) = true <-> s = [].
Proof. by destruct s. Qed.

Lemma ends_with_1 (c : N) s : ends_with [c] s = true -> exists t, s = t ++ [c].
Proof.
  unfold ends_with. simpl. destruct (rev s) as [|d r] eqn:E; [done|].
  rewrite andb_true_r. intros ->%N.eqb_eq. exists (rev r).
  by rewrite <- (rev_involutive s), E.
Qed.

Lemma posix_normalize_plain key :
  truthy key = true -> isAbsolute key = false -> forallb plain (split_on slash key) = true ->
  posix_normalize key = key.
Proof.
  intros T A P. unfold posix_normalize. rewrite T, A. cbn [negb].
  rewrite normalize_segments_all, join_split_on, T by done. cbn [negb app].
  destruct (ends_with [slash] key) eqn:E; [|by rewrite app_nil_r].
  destruct (ends_with_1 _ _ E) as [t ->]. rewrite split_on_app, forallb_app in P.
  simpl in P. by rewrite andb_false_r in P.
Qed.

Lemma plain_head_dotdot s : forallb plain (split_on slash (dotdot ++ slash :: s)) = false.
Proof. by rewrite split_on_app. Qed.

Lemma plain_no_escape key :
  forallb plain (split_on slash key) = true ->
  str_eqb key dotdot = false /\ starts_with (js "../") key = false.
Proof.
  intros P. split; apply not_true_iff_false.
  - intros E%bool_decide_eq_true. by subst.
  - intros [r ->]%starts_with_iff. change (js "../" ++ r) with (dotdot ++ slash :: r) in P.
    by rewrite plain_head_dotdot in P.
Qed.

Lemma key_ok_parts key :
  key_ok key = true ->
  truthy key = true /\ isAbsolute key = false
  /\ forallb plain (split_on slash key) = true
  /\ forall s, s ∈ split_on slash key -> truthy s = true /\ existsb (N.eqb slash) s = false.
Proof.
  unfold key_ok, bad_text. intros H. bool_simpl. destruct H as [H S]. apply bad_segments_plain in S.
  destruct H as [[[[[[T _] _] _] _] _] A]. split; [done|]. split; [done|]. split; [done|].
  intros s Hs. split; [|by eapply split_on_segments].
  rewrite forallb_forall_iff in S. specialize (S s Hs). unfold plain in S. bool_simpl. tauto.
Qed.

(** The tests made on the normalised path add nothing to those made on the
    key and on its segments. *)
Lemma normalizeStorageKey_key_ok key :
  normalizeStorageKey key = if key_ok key then Ok key else Throws InvalidStorageKeyError.
Proof.
  unfold normalizeStorageKey.
  destruct (key_ok key) eqn:K.
  - destruct (key_ok_parts key K) as (T & A & P & _). unfold key_ok in K. bool_simpl.
    destruct K as [-> S]. rewrite posix_normalize_plain by done. rewrite S.
    assert (E : str_eqb key key = true) by (apply bool_decide_eq_true_2; done). rewrite E.
    destruct (str_eqb key dot) eqn:E1; [apply bool_decide_eq_true in E1; by subst|].
    by destruct (plain_no_escape key P) as [-> ->].
  - unfold key_ok in K. destruct (bad_text key); [done|]. simpl in K. bool_simpl.
    destruct (str_eqb (posix_normalize key) key) eqn:E; [|by rewrite !orb_true_r].
    apply bool_decide_eq_true in E. rewrite E, K. by rewrite !orb_true_r.
Qed.

Lemma normalizeStorageKey_ok key k : normalizeStorageKey key = Ok k -> k = key /\ key_ok key = true.
Proof. rewrite normalizeStorageKey_key_ok. destruct (key_ok key); naive_solver. Qed.

Lemma resolve_key cwd root key :
  key_ok key = true ->
  resolve cwd (root :: split_on slash key) = resolve cwd [root] ++ split_on slash key.
Proof.
  intros K. destruct (key_ok_parts key K) as (_ & _ & P & S). unfold resolve.
  cbn [fold_left]. rewrite fold_resolve_segments by done.
  rewrite normalize_segments_resolve.
  rewrite <- (app_nil_r (split_on slash key)) at 1. rewrite normalize_segments_plain by done.
  simpl. by rewrite rev_app_distr, !rev_involutive.
Qed.

Lemma normalize_segments_elem acc segs s :
  s ∈ normalize_segments false acc segs -> s ∈ acc \/ s ∈ segs \/ s = dotdot.
Proof.
  revert acc. induction segs as [|x segs IH]; intros acc; cbn [normalize_segments].
  - rewrite list_elem_of_In, <- in_rev, <- list_elem_of_In. by left.
  - rewrite (elem_of_cons segs). destruct (negb (truthy x) || str_eqb x dot).
    + intros H%IH. tauto.
    + destruct (str_eqb x dotdot).
      * destruct acc as [|top acc]; [intros H%IH; tauto|]. rewrite elem_of_cons.
        destruct (str_eqb top dotdot); intros H%IH; rewrite ?elem_of_cons in H; tauto.
      * intros H%IH. rewrite elem_of_cons in H. tauto.
Qed.

Lemma resolve_no_slash cwd args s : s ∈ resolve cwd args -> existsb (N.eqb slash) s = false.
Proof.
  intros [H%not_elem_of_nil|[H| ->]]%normalize_segments_elem; [done| |done].
  by eapply split_on_segments.
Qed.

Lemma split_join_segments segs :
  segs <> [] -> (forall s, s ∈ segs -> existsb (N.eqb slash) s = false) ->
  split_on slash (join [slash] segs) = segs.
Proof.
  induction segs as [|p ps IH]; [done|]. intros _ H.
  assert (S : existsb (N.eqb slash) p = false) by apply H, list_elem_of_here.
  destruct ps as [|q ps]; [by unfold split_on; simpl; rewrite split_on_go_nosep|].
  rewrite join_cons, split_on_app by done. unfold split_on at 1.
  rewrite split_on_go_nosep, IH; [done|done| |done].
  intros s Hs. apply H. by apply list_elem_of_further.
Qed.

(** ** Properties *)

(** [normalizeStorageKey] returns exactly the keys it is given whose text
    holds no control character, backslash, colon or leading slash, has 1 to
    1024 characters, and whose every segment is a plain file name (not empty,
    not [.] or [..], not ending in a dot or a space, not a device name); all
    others throw.  The tests on the normalised path never decide. *)
Theorem normalizeStorageKey_spec key :
  normalizeStorageKey key
  = if negb (bad_text key) && forallb (fun s => negb (bad_segment s)) (split_on slash key)
    then Ok key else Throws InvalidStorageKeyError.
Proof.
  rewrite normalizeStorageKey_key_ok. unfold key_ok.
  assert (E : forall l, negb (existsb bad_segment l) = forallb (fun s => negb (bad_segment s)) l)
    by (induction l as [|s l IH]; simpl; [done|]; by rewrite <- IH, negb_orb).
  by rewrite E.
Qed.

(** The file of an accepted key lies strictly below the storage root:
    its path is the root's followed by the segments of the key, so the
    containment test of [safeTargetPath] never rejects an accepted key,
    whatever the root and the working directory. *)
Theorem safeTargetPath_below cwd root key k :
  normalizeStorageKey key = Ok k ->
  safeTargetPath cwd root k = Ok (resolve cwd [root] ++ split_on slash key)
  /\ split_on slash key <> [].
Proof.
  intros [-> K]%normalizeStorageKey_ok. split; [|apply split_on_go_nonempty].
  unfold safeTargetPath. rewrite resolve_key, relative_under, join_split_on by done.
  destruct (key_ok_parts key K) as (T & A & P & _). rewrite T, A. cbn [negb orb].
  by destruct (plain_no_escape key P) as [-> ->].
Qed.

Lemma safeTargetPath_below_witness :
  safeTargetPath (js "/srv/app") (js "../data/./store") (js "2024/a b.csv")
  = Ok (map js ["srv"; "data"; "store"; "2024"; "a b.csv"]%string).
Proof.
  exact (proj1 (safeTargetPath_below (js "/srv/app") (js "../data/./store")
                  (js "2024/a b.csv") (js "2024/a b.csv") ltac:(vm_compute; reflexivity))).
Defined.

(** A workspace path that [legacyLocalPathToKey] accepts is translated to
    the key of the same file. *)
Theorem legacyLocalPathToKey_same_file cwd path root key :
  legacyLocalPathToKey cwd path root = Ok key ->
  resolve cwd (root :: split_on slash key) = resolve cwd [path].
Proof.
  unfold legacyLocalPathToKey.
  destruct (negb (truthy path) || existsb (N.eqb 0) path); [done|].
  set (rel := join [slash] (relative (resolve cwd [root]) (resolve cwd [path]))).
  destruct (negb (truthy rel) || str_eqb rel dotdot || starts_with (js "../") rel || isAbsolute rel)
    eqn:B; [done|].
  intros [-> K]%normalizeStorageKey_ok. rewrite resolve_key by done.
  bool_simpl. destruct B as [[[T _] U] _].
  destruct (key_ok_parts rel K) as (_ & _ & P & _).
  assert (N : forall r, relative (resolve cwd [root]) (resolve cwd [path]) <> dotdot :: r).
  { intros r E. unfold rel in P. rewrite E in P. destruct r as [|q r].
    - simpl in P. done.
    - rewrite join_cons in P by done. by rewrite plain_head_dotdot in P. }
  pose proof (relative_below _ _ N) as E. etransitivity; [|symmetry; exact E]. f_equal.
  unfold rel. apply split_join_segments.
  - intros E0. unfold rel in T. by rewrite E0 in T.
  - intros s Hs. assert (In : s ∈ resolve cwd [path]) by (rewrite E; apply elem_of_app; by right).
    by eapply resolve_no_slash.
Qed.

Lemma before_colon_app p r : existsb (N.eqb 58) p = false -> before_colon (p ++ 58 :: r) = Some (p, r).
Proof.
  induction p as [|c p IH]; [done|]. cbn [existsb app before_colon].
  intros [C H]%orb_false_iff. rewrite N.eqb_sym, C. by rewrite IH.
Qed.

Lemma provider_no_colon p : is_provider p = true -> existsb (N.eqb 58) p = false.
Proof.
  assert (Ch : forall c, is_provider_char c = true -> N.eqb 58 c = false).
  { intros c. rewrite N.eqb_sym. destruct (N.eqb_spec c 58) as [->|]; [by vm_compute|done]. }
  destruct p as [|c p]; [done|]. cbn [is_provider existsb]. intros H. bool_simpl.
  destruct H as [[H1 H2] _].
  split; [apply Ch; unfold is_provider_char; by rewrite H1|].
  apply existsb_false_iff. rewrite forallb_forall_iff in H2. auto.
Qed.

(** A stored reference is read back as the provider and key it was written
    from - except that a key holding U+2028 or U+2029, which
    [normalizeStorageKey] accepts, is not recognised as a reference at all,
    because [.] of the pattern does not match these characters. *)
Theorem parseStorageReference_storageReference prov k r :
  storageReference prov k = Ok r ->
  parseStorageReference r
  = Ok (if existsb is_line_terminator k then None else Some {| provider := prov; key := k |}).
Proof.
  unfold storageReference. destruct (is_provider prov) eqn:P; [|done]. cbn [negb].
  destruct (normalizeStorageKey k) as [k'|] eqn:K; [|done]. cbn [result_bind]. intros [= <-].
  destruct (normalizeStorageKey_ok k k' K) as [-> Kok].
  unfold parseStorageReference, match_reference.
  change (js ":" ++ k) with (58 :: k).
  rewrite before_colon_app by by apply provider_no_colon. cbn. rewrite P.
  destruct (key_ok_parts k Kok) as [-> _]. cbn [andb].
  destruct (existsb is_line_terminator k); [done|]. cbn. by rewrite K.
Qed.

Lemma parseStorageReference_storageReference_witness :
  parseStorageReference (js "local:2024/a.csv")
  = Ok (Some {| provider := js "local"; key := js "2024/a.csv" |}).
Proof.
  exact (parseStorageReference_storageReference (js "local") (js "2024/a.csv")
           (js "local:2024/a.csv") ltac:(vm_compute; reflexivity)).
Defined.

Lemma legacyLocalPathToKey_same_file_witness :
  resolve (js "/srv/app") [js "storage"; js "2024"; js "a.csv"]
  = resolve (js "/srv/app") [js "./storage/x/../2024/a.csv"].
Proof.
  exact (legacyLocalPathToKey_same_file (js "/srv/app") (js "./storage/x/../2024/a.csv")
           (js "storage") (js "2024/a.csv") ltac:(vm_compute; reflexivity)).
Defined.
