(* ===== verification/SecurityAudit.v ===== *)
(** * The security audit records

    [security-audit/security-audit.types.ts]: the record every security
    relevant operation appends to the audit trail, the checks made on it, and
    the scan that keeps credentials out of the two JSON columns.  The file
    shows that an accepted record holds no key naming a credential at any depth
    and attributes exactly the user actions to a user. *)

From S2P Require Import Prelude JsNumber JsString.

Local Open Scope N_scope.

Inductive SecurityAuditActorType := USER | SYSTEM | ANONYMOUS.
Inductive SecurityAuditResult := REQUESTED | PROVIDER_SUCCEEDED | SUCCESS | FAILURE | PARTIAL.

#[export] Instance SecurityAuditActorType_eq_dec : EqDecision SecurityAuditActorType.
Proof. solve_decision. Defined.

(** Optional fields: [None] stands for both [undefined] and [null]. *)
Record SecurityAuditWrite := {
  actorUserId : option str;
  actorType : SecurityAuditActorType;
  action : str;
  targetType : str;
  targetId : option str;
  auditResult : SecurityAuditResult;
  beforeJson : option json;
  afterJson : option json;
  requestId : option str
}.

Definition is_upper (c : N) : bool := (65 <=? c) && (c <=? 90).
Definition is_lower (c : N) : bool := (97 <=? c) && (c <=? 122).

(** [/^[A-Z][A-Z0-9_]{0,n}$/]. *)
Definition is_code (n : N) (s : str) : bool :=
  match s with
  | c :: r => is_upper c && forallb (fun c => is_upper c || is_digit c || (c =? 95)) r
              && (N.of_nat (List.length r) <=? n)
  | [] => false
  end.

Definition FORBIDDEN_AUDIT_KEY_PARTS : list str :=
  map js ["password"; "token"; "cookie"; "secret"; "authorization";
          "providerraw"; "rawprovider"; "accesstoken"; "refreshtoken"; "linkhash"; "tokenhash"]%string.

Definition truthy_opt (s : option str) : bool := match s with Some s => truthy s | None => false end.

Section audit.
Context `{Icu}.

(** [key.toLowerCase().replace(/[^a-z0-9]/g, "")]. *)
Definition normalized_key (key : str) : str :=
  List.filter (fun c => is_lower c || is_digit c) (to_lower key).

Definition forbidden_key (key : str) : bool :=
  existsb (fun part => includes part (normalized_key key)) FORBIDDEN_AUDIT_KEY_PARTS.

(** Whether [assertSafeAuditJson] returns. *)
Fixpoint assertSafeAuditJson (value : json) : bool :=
  match value with
  | JArr items => forallb assertSafeAuditJson items
  | JObj fields =>
      forallb (fun '(key, child) => negb (forbidden_key key) && assertSafeAuditJson child) fields
  | _ => true
  end.

Definition plain_error {A} : result A := Throws {| err_status := 0; err_code := js "Error" |}.

Definition safe_opt (v : option json) : bool :=
  match v with Some v => assertSafeAuditJson v | None => true end.

Definition securityAuditData (event : SecurityAuditWrite) : result SecurityAuditWrite :=
  if negb (is_code 95 (action event)) then plain_error
  else if negb (is_code 63 (targetType event)) then plain_error
  else if truthy_opt (targetId event)
          && (128 <? N.of_nat (List.length (targetId event ?? []))) then plain_error
  else if bool_decide (actorType event = USER) && negb (truthy_opt (actorUserId event))
          || negb (bool_decide (actorType event = USER)) && truthy_opt (actorUserId event)
  then plain_error
  else if negb (safe_opt (beforeJson event)) then plain_error
  else if negb (safe_opt (afterJson event)) then plain_error
  else Ok event.
End audit.

(** ** Properties *)

(** A key that occurs somewhere in a JSON value. *)
Inductive key_in (k : str) : json -> Prop :=
  | key_here v fields : (k, v) ∈ fields -> key_in k (JObj fields)
  | key_field k' v fields : (k', v) ∈ fields -> key_in k v -> key_in k (JObj fields)
  | key_item v items : v ∈ items -> key_in k v -> key_in k (JArr items).

Section properties.
Context `{Icu}.

Lemma assertSafeAuditJson_keys v k :
  assertSafeAuditJson v = true -> key_in k v -> forbidden_key k = false.
Proof.
  intros S K. induction K as [v fields I|k' v fields I K IH|v items I K IH]; simpl in S;
    rewrite forallb_forall_iff in S; specialize (S _ I); simpl in S; bool_simpl; tauto.
Qed.

(** A record that [securityAuditData] accepts holds no key, at any depth of
    its two JSON values, whose letters and digits contain a word for a
    credential; its target id has at most 128 characters; and it names an acting
    user exactly when the actor type is USER. *)
Theorem securityAuditData_safe event data k v :
  securityAuditData event = Ok data ->
  data = event
  /\ ((beforeJson data = Some v \/ afterJson data = Some v) -> key_in k v ->
      forall part, part ∈ FORBIDDEN_AUDIT_KEY_PARTS -> includes part (normalized_key k) = false)
  /\ (truthy_opt (actorUserId data) = true <-> actorType data = USER)
  /\ (List.length (targetId data ?? []) <= 128)%nat.
Proof.
  unfold securityAuditData, plain_error.
  destruct (is_code 95 _); [|done]. destruct (is_code 63 _); [|done]. cbn [negb].
  destruct (truthy_opt (targetId event) && _) eqn:L; [done|].
  destruct (_ || _) eqn:A; [done|].
  destruct (safe_opt (beforeJson event)) eqn:B; [|done].
  destruct (safe_opt (afterJson event)) eqn:F; [|done]. cbn [negb]. intros [= <-].
  split; [done|]. split; [|split].
  - intros J K. assert (S : assertSafeAuditJson v = true) by (destruct J as [J|J]; rewrite J in *; done).
    pose proof (assertSafeAuditJson_keys v k S K) as N. unfold forbidden_key in N.
    rewrite existsb_false_iff in N. exact N.
  - destruct (truthy_opt (actorUserId event)), (actorType event); simpl in A; naive_solver.
  - destruct (targetId event) as [[|c t]|]; simpl in *; [lia| |lia].
    apply N.ltb_ge in L. lia.
Qed.
End properties.

Lemma securityAuditData_safe_witness :
  let event := {| actorUserId := None; actorType := SYSTEM; action := js "STORAGE_OBJECT_PURGE";
    targetType := js "STORAGE_TOMBSTONE"; targetId := Some (js "t1"); auditResult := SUCCESS;
    beforeJson := None; afterJson := Some (JArr [JObj [(js "state", JStr (js "PURGED"))]]);
    requestId := None |} in
  includes (js "token") (normalized_key (H := c_locale) (js "state")) = false
  /\ @securityAuditData c_locale
       {| actorUserId := None; actorType := SYSTEM; action := js "LOGIN"; targetType := js "USER";
          targetId := None; auditResult := SUCCESS; beforeJson := None;
          afterJson := Some (JArr [JObj [(js "Access-Token", JNull)]]); requestId := None |}
     = plain_error.
Proof.
  intros event. split; [|vm_compute; reflexivity].
  refine (proj1 (proj2 (@securityAuditData_safe c_locale event event (js "state")
            (JArr [JObj [(js "state", JStr (js "PURGED"))]]) _)) _ _ (js "token") _).
  - vm_compute. reflexivity.
  - right. reflexivity.
  - eapply key_item; [apply list_elem_of_here|]. eapply key_here. apply list_elem_of_here.
  - apply list_elem_of_In. right. left. reflexivity.
Defined.
