(* ===== verification/FileStorage.v ===== *)
(** * The object stores

    [storage/file-storage.ts] is the contract of an object store, here the
    class [FileStorage] with the promises [FileStorageLaws] its clients rely
    on.  [storage/local-file-storage.ts] is the implementation on a local
    directory: [LocalFileStorage] is its [FileStorage] instance, on a map from
    keys to contents, and the laws are proved of it.  The failures an I/O call
    may add to these results are in [Effects]. *)

From Stdlib Require Import Strings.Byte.
From S2P Require Import Prelude JsNumber JsString StorageKey.

Local Open Scope Z_scope.

Abbreviation bytes := (list Byte.byte).

#[export] Instance byte_eq_dec : EqDecision Byte.byte := Byte.byte_eq_dec.

(** A store: the contents of its keys. *)
Abbreviation store := (gmap str bytes).

(** SHA-256, as lower-case hexadecimal digits. *)
Class Digest := sha256 : bytes -> str.

Definition StorageObjectNotFoundError : js_error :=
  {| err_status := 0; err_code := js "StorageObjectNotFoundError" |}.
Definition StorageIntegrityError : js_error :=
  {| err_status := 0; err_code := js "StorageIntegrityError" |}.
Definition StorageObjectTooLargeError : js_error :=
  {| err_status := 0; err_code := js "StorageObjectTooLargeError" |}.

(** A stream is the sequence of chunks it delivers. *)
Record FileStoragePutInput := {
  put_key : str;
  body : list bytes;
  expectedHashSha256 : option str;
  maxBytes : option Z
}.

Record StoredFile := { stored_key : str; hash : str; size : Z }.
Record StoredFileStream := { stream : list bytes; stream_size : Z }.

Definition size_of (b : bytes) : Z := Z.of_nat (List.length b).

(** The contract.  [put] and [delete] return the new store; an error leaves
    the store as it was. *)
Class FileStorage := {
  fs_put : store -> FileStoragePutInput -> result (StoredFile * store);
  fs_getStream : store -> str -> result StoredFileStream;
  fs_delete : store -> str -> result (bool * store);
  fs_exists : store -> str -> result bool
}.

Class FileStorageLaws `{Icu, Digest, FileStorage} : Prop := {
  (** [put] publishes the body, or finds an object of the same hash and size;
      it never replaces an object. *)
  put_ok s i f s' : fs_put s i = Ok (f, s') ->
    exists b, s' = <[put_key i := b]> s
      /\ (s !! put_key i = None /\ b = concat (body i) \/ s !! put_key i = Some b)
      /\ hash f = sha256 b /\ size f = size_of b /\ sha256 b = sha256 (concat (body i))
      /\ (forall h, expectedHashSha256 i = Some h -> truthy h = true -> sha256 b = to_lower h);
  put_accepts s k b h n : key_ok k = true -> s !! k = None ->
    truthy h = true -> to_lower h = sha256 (concat b) ->
    size_of (concat b) = n -> n <= 9007199254740991 ->
    exists f, fs_put s {| put_key := k; body := b; expectedHashSha256 := Some h; maxBytes := Some n |}
              = Ok (f, <[k := concat b]> s);
  getStream_ok s k g : fs_getStream s k = Ok g ->
    exists b, s !! k = Some b /\ concat (stream g) = b /\ stream_size g = size_of b;
  getStream_accepts s k b : key_ok k = true -> s !! k = Some b -> exists g, fs_getStream s k = Ok g;
  delete_ok s k r s' : fs_delete s k = Ok (r, s') ->
    s' = base.delete k s /\ r = bool_decide (is_Some (s !! k));
  delete_accepts s k : key_ok k = true -> exists r, fs_delete s k = Ok r;
  exists_ok s k r : fs_exists s k = Ok r -> r = bool_decide (is_Some (s !! k));
  exists_accepts s k : key_ok k = true -> exists r, fs_exists s k = Ok r;
  (** The errors of a store are not HTTP exceptions. *)
  storage_errors s k i e :
    fs_put s i = Throws e \/ fs_getStream s k = Throws e \/ fs_delete s k = Throws e
    \/ fs_exists s k = Throws e -> err_status e = 0
}.

(** ** The local directory *)

Section local.
Context `{Icu, Digest}.

(** The read stream of a file delivers its content in pieces. *)
Context (chunks : bytes -> list bytes).

Definition MAX_SAFE_INTEGER : Z := 9007199254740991.

Definition checkedLimit (value : option Z) : result Z :=
  match value with
  | None => Ok MAX_SAFE_INTEGER
  | Some v =>
      if (v <? 0) || (MAX_SAFE_INTEGER <? v) then Throws StorageObjectTooLargeError else Ok v
  end.

(** The copy loop of [writeAndSyncOwnedPendingFile]: [written] is the content
    of the pending file, so [size] is its length. *)
Fixpoint write_chunks (limit : Z) (written : bytes) (source : list bytes) : result bytes :=
  match source with
  | [] => Ok written
  | chunk :: rest =>
      if size_of chunk =? 0 then write_chunks limit written rest
      else if limit - size_of written <? size_of chunk then Throws StorageObjectTooLargeError
      else write_chunks limit (written ++ chunk) rest
  end.

Definition writeAndSyncOwnedPendingFile (source : list bytes) (maximumBytes : Z)
  : result (bytes * str * Z) :=
  let! limit := checkedLimit (Some maximumBytes) in
  let! written := write_chunks limit [] source in
  Ok (written, sha256 written, size_of written).

Fixpoint hash_chunks (limit : Z) (seen : bytes) (source : list bytes) : result bytes :=
  match source with
  | [] => Ok seen
  | chunk :: rest =>
      if limit <? size_of seen + size_of chunk then Throws StorageObjectTooLargeError
      else hash_chunks limit (seen ++ chunk) rest
  end.

Definition openRegularFile (s : store) (key : str) : result bytes :=
  match s !! key with Some b => Ok b | None => Throws StorageObjectNotFoundError end.

Definition hashFile (s : store) (key : str) (maxBytes : option Z) : result StoredFile :=
  let! limit := checkedLimit maxBytes in
  let! content := openRegularFile s key in
  let! seen := hash_chunks limit [] (chunks content) in
  Ok {| stored_key := key; hash := sha256 seen; size := size_of seen |}.

(** [link] publishes the pending file unless the name is taken. *)
Definition local_put (s : store) (input : FileStoragePutInput) : result (StoredFile * store) :=
  let! key := normalizeStorageKey (put_key input) in
  let! limit := checkedLimit (maxBytes input) in
  let! (content, digest, n) := writeAndSyncOwnedPendingFile (body input) limit in
  if match expectedHashSha256 input with
     | Some h => truthy h && negb (str_eqb digest (to_lower h))
     | None => false
     end
  then Throws StorageIntegrityError
  else match s !! key with
       | None => Ok ({| stored_key := key; hash := digest; size := n |}, <[key := content]> s)
       | Some _ =>
           let! stored := hashFile s key (maxBytes input) in
           if negb (str_eqb (hash stored) digest) || negb (size stored =? n)
           then Throws StorageIntegrityError else Ok (stored, s)
       end.

Definition local_getStream (s : store) (key : str) : result StoredFileStream :=
  let! key := normalizeStorageKey key in
  let! content := openRegularFile s key in
  Ok {| stream := chunks content; stream_size := size_of content |}.

Definition local_delete (s : store) (key : str) : result (bool * store) :=
  let! key := normalizeStorageKey key in
  match s !! key with Some _ => Ok (true, base.delete key s) | None => Ok (false, s) end.

Definition local_exists (s : store) (key : str) : result bool :=
  let! key := normalizeStorageKey key in
  match s !! key with Some _ => Ok true | None => Ok false end.

#[export] Instance LocalFileStorage : FileStorage := {|
  fs_put := local_put;
  fs_getStream := local_getStream;
  fs_delete := local_delete;
  fs_exists := local_exists
|}.
End local.

Arguments checkedLimit : simpl never.
Arguments writeAndSyncOwnedPendingFile : simpl never.

(** ** Facts about the local directory *)

Lemma result_bind_ok {A B} (x : result A) (f : A -> result B) b :
  result_bind x f = Ok b -> exists a, x = Ok a /\ f a = Ok b.
Proof. destruct x as [a|e]; [|done]. intros H. by exists a. Qed.

Section local_facts.
Context `{Icu, Digest} (chunks : bytes -> list bytes) (Hchunks : forall b, concat (chunks b) = b).

Lemma write_chunks_ok limit written source b :
  write_chunks limit written source = Ok b -> b = written ++ concat source.
Proof.
  revert written. induction source as [|c source IH]; intros written; simpl.
  - intros [= <-]. by rewrite app_nil_r.
  - destruct (Z.eqb_spec (size_of c) 0) as [E|E].
    + intros ->%IH. destruct c; [done|]. unfold size_of in E. simpl in E. lia.
    + destruct (_ <? _); [done|]. intros ->%IH. by rewrite <- app_assoc.
Qed.

Lemma size_of_app a b : size_of (a ++ b) = size_of a + size_of b.
Proof. unfold size_of. rewrite length_app. lia. Qed.

Lemma size_of_nonneg b : 0 <= size_of b.
Proof. unfold size_of. lia. Qed.

Lemma write_chunks_accepts limit written source :
  size_of (written ++ concat source) <= limit ->
  write_chunks limit written source = Ok (written ++ concat source).
Proof.
  revert written. induction source as [|c source IH]; intros written; simpl; [by rewrite app_nil_r|].
  intros L. destruct (Z.eqb_spec (size_of c) 0) as [E|E].
  - rewrite IH; destruct c; try done; unfold size_of in E; simpl in E; lia.
  - rewrite !size_of_app in L. pose proof (size_of_nonneg (concat source)).
    replace (limit - size_of written <? size_of c) with false by lia.
    rewrite IH; rewrite <- app_assoc; [done|]. rewrite !size_of_app. lia.
Qed.

Lemma hash_chunks_ok limit seen source b :
  hash_chunks limit seen source = Ok b -> b = seen ++ concat source.
Proof.
  revert seen. induction source as [|c source IH]; intros seen; simpl.
  - intros [= <-]. by rewrite app_nil_r.
  - destruct (_ <? _); [done|]. intros ->%IH. by rewrite <- app_assoc.
Qed.

Lemma pending_ok source n c d m :
  writeAndSyncOwnedPendingFile source n = Ok (c, d, m) ->
  c = concat source /\ d = sha256 c /\ m = size_of c.
Proof.
  unfold writeAndSyncOwnedPendingFile. intros (limit & _ & E)%result_bind_ok.
  apply result_bind_ok in E as (w & W & [= <- <- <-]). by apply write_chunks_ok in W.
Qed.

Lemma hashFile_ok s key m f :
  hashFile chunks s key m = Ok f ->
  exists b, s !! key = Some b /\ hash f = sha256 b /\ size f = size_of b.
Proof.
  unfold hashFile, openRegularFile. intros (limit & _ & E)%result_bind_ok.
  destruct (s !! key) as [b|]; [|done]. cbn [result_bind] in E.
  apply result_bind_ok in E as (w & ->%hash_chunks_ok & [= <-]). exists b. by rewrite Hchunks.
Qed.

Lemma local_put_ok s i f s' :
  local_put chunks s i = Ok (f, s') ->
  exists b, s' = <[put_key i := b]> s
    /\ (s !! put_key i = None /\ b = concat (body i) \/ s !! put_key i = Some b)
    /\ hash f = sha256 b /\ size f = size_of b /\ sha256 b = sha256 (concat (body i))
    /\ (forall h, expectedHashSha256 i = Some h -> truthy h = true -> sha256 b = to_lower h).
Proof.
  unfold local_put. intros (k & [-> _]%normalizeStorageKey_ok & E)%result_bind_ok.
  apply result_bind_ok in E as (limit & _ & E).
  apply result_bind_ok in E as ([[c d] n] & (-> & -> & ->)%pending_ok & E).
  destruct (match expectedHashSha256 i with Some _ => _ | None => _ end) eqn:X; [done|].
  assert (Hh : forall h, expectedHashSha256 i = Some h -> truthy h = true ->
               sha256 (concat (body i)) = to_lower h).
  { intros h Eh T. rewrite Eh, T in X. simpl in X. apply negb_false_iff in X.
    by apply bool_decide_eq_true in X. }
  destruct (s !! put_key i) as [b|] eqn:L.
  - apply result_bind_ok in E as (st & (b' & Lb & Hs & Hz)%hashFile_ok & E).
    rewrite L in Lb. injection Lb as <-.
    destruct (_ || _) eqn:M; [done|]. injection E as <- <-. bool_simpl. destruct M as [M1 M2].
    apply bool_decide_eq_true in M1. exists b. rewrite insert_id by done.
    repeat split; auto; [congruence|]. intros h Eh T. rewrite <- (Hh h Eh T). congruence.
  - injection E as <- <-. exists (concat (body i)). auto 10.
Qed.

Lemma result_bind_throws {A B} (x : result A) (f : A -> result B) e :
  result_bind x f = Throws e -> x = Throws e \/ exists a, x = Ok a /\ f a = Throws e.
Proof. destruct x as [a|e']; simpl; [intros X; right; by exists a|intros [= ->]; by left]. Qed.

Lemma normalizeStorageKey_throws k e : normalizeStorageKey k = Throws e -> err_status e = 0.
Proof. rewrite normalizeStorageKey_key_ok. destruct (key_ok k); [done|]. by intros [= <-]. Qed.

Lemma openRegularFile_throws s k e : openRegularFile s k = Throws e -> err_status e = 0.
Proof. unfold openRegularFile. destruct (s !! k); [done|]. by intros [= <-]. Qed.

Lemma checkedLimit_throws v e : checkedLimit v = Throws e -> err_status e = 0.
Proof. unfold checkedLimit. destruct v as [v|]; [destruct (_ || _)|]; [by intros [= <-]|done..]. Qed.

Lemma write_chunks_throws limit w c e : write_chunks limit w c = Throws e -> err_status e = 0.
Proof.
  revert w. induction c as [|c cs IH]; intros w; simpl; [done|].
  destruct (_ =? _); [apply IH|]. destruct (_ <? _); [by intros [= <-]|apply IH].
Qed.

Lemma hash_chunks_throws limit w c e : hash_chunks limit w c = Throws e -> err_status e = 0.
Proof.
  revert w. induction c as [|c cs IH]; intros w; simpl; [done|].
  destruct (_ <? _); [by intros [= <-]|apply IH].
Qed.

Lemma hashFile_throws s k m e : hashFile chunks s k m = Throws e -> err_status e = 0.
Proof.
  unfold hashFile. intros [X|(l & _ & X)]%result_bind_throws; [by eapply checkedLimit_throws|].
  apply result_bind_throws in X as [X|(c & _ & X)]; [by eapply openRegularFile_throws|].
  apply result_bind_throws in X as [X|(h & _ & X)]; [by eapply hash_chunks_throws|done].
Qed.

Lemma local_put_throws s i e : local_put chunks s i = Throws e -> err_status e = 0.
Proof.
  unfold local_put. intros [X|(k & _ & X)]%result_bind_throws; [by eapply normalizeStorageKey_throws|].
  apply result_bind_throws in X as [X|(l & _ & X)]; [by eapply checkedLimit_throws|].
  apply result_bind_throws in X as [X|([[c d] n] & _ & X)].
  - unfold writeAndSyncOwnedPendingFile in X.
    apply result_bind_throws in X as [X|(l' & _ & X)]; [by eapply checkedLimit_throws|].
    apply result_bind_throws in X as [X|(w & _ & X)]; [by eapply write_chunks_throws|done].
  - destruct (match expectedHashSha256 i with Some _ => _ | None => _ end); [by injection X as <-|].
    destruct (s !! k); [|done].
    apply result_bind_throws in X as [X|(st & _ & X)]; [by eapply hashFile_throws|].
    destruct (_ || _); [by injection X as <-|done].
Qed.

Lemma local_lookup_throws s k e :
  local_getStream chunks s k = Throws e \/ local_delete s k = Throws e \/ local_exists s k = Throws e ->
  err_status e = 0.
Proof.
  intros [X|[X|X]]; apply result_bind_throws in X as [X|(k' & _ & X)];
    try (by eapply normalizeStorageKey_throws); [|by destruct (s !! k')..].
  apply result_bind_throws in X as [X|(c & _ & X)]; [by eapply openRegularFile_throws|done].
Qed.

#[export] Instance LocalFileStorage_laws : @FileStorageLaws _ _ (LocalFileStorage chunks).
Proof.
  split.
  - apply local_put_ok.
  - intros s k b h n K L T Hh Hn Hm. simpl. unfold local_put. cbn.
    rewrite normalizeStorageKey_key_ok, K. cbn.
    pose proof (size_of_nonneg (concat b)).
    assert (C : checkedLimit (Some n) = Ok n).
    { unfold checkedLimit, MAX_SAFE_INTEGER.
      by replace ((n <? 0) || (9007199254740991 <? n)) with false by lia. }
    rewrite C. cbn. unfold writeAndSyncOwnedPendingFile. rewrite C. cbn.
    rewrite write_chunks_accepts by (simpl; lia). cbn. rewrite T, Hh.
    unfold str_eqb at 1. rewrite bool_decide_eq_true_2 by done. cbn. rewrite L. eauto.
  - intros s k g. simpl. unfold local_getStream, openRegularFile.
    intros (k' & [-> _]%normalizeStorageKey_ok & E)%result_bind_ok.
    destruct (s !! k) as [b|]; [|done]. injection E as <-. exists b. cbn. by rewrite Hchunks.
  - intros s k b K L. simpl. unfold local_getStream, openRegularFile.
    rewrite normalizeStorageKey_key_ok, K. cbn. rewrite L. cbn. eauto.
  - intros s k r s'. simpl. unfold local_delete.
    intros (k' & [-> _]%normalizeStorageKey_ok & E)%result_bind_ok.
    destruct (s !! k) as [b|] eqn:L; injection E as <- <-; [by rewrite bool_decide_eq_true_2|].
    rewrite delete_id by done. by rewrite bool_decide_eq_false_2 by (intros [? ?]; done).
  - intros s k K. simpl. unfold local_delete. rewrite normalizeStorageKey_key_ok, K. cbn.
    destruct (s !! k); eauto.
  - intros s k r. simpl. unfold local_exists.
    intros (k' & [-> _]%normalizeStorageKey_ok & E)%result_bind_ok.
    destruct (s !! k) as [b|] eqn:L; injection E as <-; [by rewrite bool_decide_eq_true_2|].
    by rewrite bool_decide_eq_false_2 by (intros [? ?]; done).
  - intros s k K. simpl. unfold local_exists. rewrite normalizeStorageKey_key_ok, K. cbn.
    destruct (s !! k); eauto.
  - intros s k i e [X|X]; [exact (local_put_throws s i e X)|exact (local_lookup_throws s k e X)].
Qed.
End local_facts.

(** ** Properties *)

(** A [put] on the local directory that succeeds leaves at its key an object
    whose hash is the expected one and whose hash and size it reports, and
    changes no other key; an object that was there stays as it is.  Publishing
    an object and reading it back gives its content. *)
Theorem local_put_spec `{Icu, Digest} chunks s input f s' :
  (forall b, concat (chunks b) = b) ->
  local_put chunks s input = Ok (f, s') ->
  exists content g,
    s' = <[put_key input := content]> s
    /\ content = from_option (fun old => old) (concat (body input)) (s !! put_key input)
    /\ hash f = sha256 content /\ size f = size_of content
    /\ (forall h, expectedHashSha256 input = Some h -> truthy h = true -> hash f = to_lower h)
    /\ local_getStream chunks s' (put_key input) = Ok g /\ concat (stream g) = content.
Proof.
  intros Hc Ep. destruct (local_put_ok chunks Hc s input f s' Ep) as (b & -> & Hb & Hh & Hz & _ & He).
  exists b, {| stream := chunks b; stream_size := size_of b |}.
  split; [done|]. split; [by destruct Hb as [[-> ->]| ->]|]. split; [done|]. split; [done|].
  split; [intros h Eh T; rewrite Hh; by apply He|]. split; [|apply Hc].
  unfold local_getStream, openRegularFile.
  unfold local_put in Ep. apply result_bind_ok in Ep as (k & Ek & _). rewrite Ek.
  apply normalizeStorageKey_ok in Ek as [-> _]. cbn. by rewrite lookup_insert_eq.
Qed.

Lemma local_put_spec_witness :
  let dig : Digest := fun b => map Byte.to_N b in
  let input := {| put_key := js "a/b"; body := [[x01]; []; [x02; x03]];
                  expectedHashSha256 := Some [1; 2; 3]%N; maxBytes := Some 3 |} in
  let s' : store := {[js "a/b" := [x01; x02; x03]]} in
  exists content g,
    s' = <[js "a/b" := content]> (∅ : store)
    /\ @local_getStream (fun b => [b]) s' (js "a/b") = Ok g /\ concat (stream g) = content.
Proof.
  intros dig input s'.
  assert (P : @local_put c_locale dig (fun b => [b]) (∅ : store) input
              = Ok ({| stored_key := js "a/b"; hash := [1; 2; 3]%N; size := 3 |}, s'))
    by (vm_compute; reflexivity).
  destruct (@local_put_spec c_locale dig (fun b => [b]) _ _ _ _ (fun b => app_nil_r b) P)
    as (c & g & E & _ & _ & _ & _ & G & S).
  exists c, g. split; [exact E|]. split; [exact G|exact S].
Defined.
