(* ===== verification/Effects.v ===== *)
(** * Effects that may fail

    The storage services call a database and an object store, and each call
    may fail before or after it had its effect.  A computation takes the state
    of the outside world and a script of what happens to its calls; it returns
    a value or throws.  [transaction] is [prisma.$transaction]: an exception of
    its body rolls the database back, and the commit itself may be lost or may
    succeed without its answer arriving.

    [wp b m Q c] says that [m], started in [c], ends in a result and a state
    that [Q] accepts - under every script when [b] is true, and when no call
    fails when [b] is false. *)

From S2P Require Import Prelude JsNumber JsString.

Section effects.
Context {C R : Type}.

(** What happens to one call.  [Raced r] is a concurrent request that gets its
    own database write in first; only calls that can be raced look at it. *)
Inductive fault := NoFault | FailBefore | FailAfter | Raced (r : R).

Abbreviation script := (list fault).

Definition M (A : Type) : Type := C * script -> result A * (C * script).

Definition io_error : js_error := {| err_status := 0; err_code := js "Error" |}.

Definition ret {A} (a : A) : M A := fun w => (Ok a, w).
Definition throw {A} (e : js_error) : M A := fun w => (Throws e, w).
Definition lift {A} (x : result A) : M A := fun w => (x, w).

Definition bind {A B} (m : M A) (f : A -> M B) : M B := fun w =>
  match m w with
  | (Ok a, w') => f a w'
  | (Throws e, w') => (Throws e, w')
  end.

Definition catch {A} (m : M A) (handler : js_error -> M A) : M A := fun w =>
  match m w with
  | (Ok a, w') => (Ok a, w')
  | (Throws e, w') => handler e w'
  end.

Definition next (s : script) : fault * script :=
  match s with [] => (NoFault, []) | f :: s' => (f, s') end.

(** Reading the state without calling out. *)
Definition gets {A} (f : C -> A) : M A := fun '(c, s) => (Ok (f c), (c, s)).

(** A call with effect [f]; [race] is what a concurrent request does first. *)
Definition raced_effect {A} (race : R -> C -> option C) (f : C -> result (A * C)) : M A :=
  fun '(c, s) =>
    let run c1 s' after :=
      match f c1 with
      | Throws e => (Throws e, (c1, s'))
      | Ok (a, c') => if after : bool then (Throws io_error, (c', s')) else (Ok a, (c', s'))
      end in
    match next s with
    | (NoFault, s') => run c s' false
    | (FailBefore, s') => (Throws io_error, (c, s'))
    | (FailAfter, s') => run c s' true
    | (Raced r, s') => run (from_option (fun c1 => c1) c (race r c)) s' false
    end.

Definition effect {A} : (C -> result (A * C)) -> M A := raced_effect (fun _ _ => None).

(** A call that only has to succeed: a lock, the reading of a stream. *)
Definition io : M unit := effect (fun c => Ok (tt, c)).

(** [rollback before after] undoes the database part of a change of state. *)
Definition transaction {A} (rollback : C -> C -> C) (body : M A) : M A := fun '(c, s) =>
  match body (c, s) with
  | (Throws e, (c', s')) => (Throws e, (rollback c c', s'))
  | (Ok a, (c', s')) =>
      match next s' with
      | (FailBefore, s'') => (Throws io_error, (rollback c c', s''))
      | (FailAfter, s'') => (Throws io_error, (c', s''))
      | (_, s'') => (Ok a, (c', s''))
      end
  end.

(** ** Reasoning *)

Definition allowed (faulty : bool) (s : script) : Prop :=
  faulty = true \/ Forall (fun f => f = NoFault) s.

Definition wp (faulty : bool) {A} (m : M A) (Q : result A -> C -> Prop) (c : C) : Prop :=
  forall s, allowed faulty s ->
  exists r c' s', m (c, s) = (r, (c', s')) /\ allowed faulty s' /\ Q r c'.

Lemma allowed_next faulty s f s' :
  allowed faulty s -> next s = (f, s') -> allowed faulty s' /\ (faulty = true \/ f = NoFault).
Proof.
  unfold allowed. intros [F|F] E; [auto|].
  destruct F as [|f0 s0 -> F]; simpl in E; injection E as <- <-; auto.
Qed.

Lemma wp_mono b {A} (m : M A) (Q Q' : result A -> C -> Prop) c :
  wp b m Q c -> (forall r c', Q r c' -> Q' r c') -> wp b m Q' c.
Proof. intros H HQ s Hs. destruct (H s Hs) as (r & c' & s' & E & Hs' & Hq). eauto 10. Qed.

Lemma wp_ret b {A} (a : A) (Q : result A -> C -> Prop) c : Q (Ok a) c -> wp b (ret a) Q c.
Proof. intros H s Hs. unfold ret. eauto 10. Qed.

Lemma wp_throw b {A} e (Q : result A -> C -> Prop) c : Q (Throws e) c -> wp b (throw e) Q c.
Proof. intros H s Hs. unfold throw. eauto 10. Qed.

Lemma wp_lift b {A} (x : result A) (Q : result A -> C -> Prop) c : Q x c -> wp b (lift x) Q c.
Proof. intros H s Hs. unfold lift. eauto 10. Qed.

Lemma wp_gets b {A} (f : C -> A) (Q : result A -> C -> Prop) c : Q (Ok (f c)) c -> wp b (gets f) Q c.
Proof. intros H s Hs. unfold gets. eauto 10. Qed.

Lemma wp_bind b {A B} (m : M A) (f : A -> M B) (Q : result B -> C -> Prop) c :
  wp b m (fun r c' => match r with Ok a => wp b (f a) Q c' | Throws e => Q (Throws e) c' end) c ->
  wp b (bind m f) Q c.
Proof.
  intros H s Hs. unfold bind. destruct (H s Hs) as (r & c' & s' & -> & Hs' & Hq).
  destruct r as [a|e]; eauto 10.
Qed.

Lemma wp_catch b {A} (m : M A) h (Q : result A -> C -> Prop) c :
  wp b m (fun r c' => match r with Ok a => Q (Ok a) c' | Throws e => wp b (h e) Q c' end) c ->
  wp b (catch m h) Q c.
Proof.
  intros H s Hs. unfold catch. destruct (H s Hs) as (r & c' & s' & -> & Hs' & Hq).
  destruct r as [a|e]; eauto 10.
Qed.

Definition run_post {A} (faulty : bool) (Q : result A -> C -> Prop) (c : C) (x : result (A * C)) :=
  match x with
  | Ok (a, c') => Q (Ok a) c' /\ (faulty = true -> Q (Throws io_error) c')
  | Throws e => Q (Throws e) c
  end.

Lemma wp_raced_effect b {A} race (f : C -> result (A * C)) (Q : result A -> C -> Prop) c :
  run_post b Q c (f c) ->
  (b = true -> Q (Throws io_error) c) ->
  (b = true -> forall r c1, race r c = Some c1 -> run_post b Q c1 (f c1)) ->
  wp b (raced_effect race f) Q c.
Proof.
  intros H B Rc s Hs. unfold raced_effect. destruct (next s) as [f0 s'] eqn:E.
  destruct (allowed_next b s f0 s' Hs E) as [Hs' Hf]. unfold run_post in *.
  destruct f0 as [| | |r].
  - destruct (f c) as [[a c']|e]; eexists _, _, _; (split; [done|split; [done|]]); tauto.
  - eexists _, _, _. split; [done|]. split; [done|]. destruct Hf; [auto|done].
  - destruct Hf; [|done]. destruct (f c) as [[a c']|e];
      eexists _, _, _; (split; [done|split; [done|]]); tauto.
  - destruct Hf as [Hf|]; [|done]. destruct (race r c) as [c1|] eqn:Er; simpl.
    + specialize (Rc Hf r c1 Er).
      destruct (f c1) as [[a c']|e]; eexists _, _, _; (split; [done|split; [done|]]); tauto.
    + destruct (f c) as [[a c']|e]; eexists _, _, _; (split; [done|split; [done|]]); tauto.
Qed.

Lemma wp_effect b {A} (f : C -> result (A * C)) (Q : result A -> C -> Prop) c :
  run_post b Q c (f c) -> (b = true -> Q (Throws io_error) c) -> wp b (effect f) Q c.
Proof. intros. by apply wp_raced_effect. Qed.

Lemma wp_io b (Q : result unit -> C -> Prop) c :
  Q (Ok tt) c -> (b = true -> Q (Throws io_error) c) -> wp b io Q c.
Proof. intros. apply wp_effect; simpl; auto. Qed.

Lemma wp_transaction b {A} rollback (body : M A) (Q : result A -> C -> Prop) c :
  wp b body (fun r c' => match r with
    | Ok a => Q (Ok a) c'
              /\ (b = true -> Q (Throws io_error) c' /\ Q (Throws io_error) (rollback c c'))
    | Throws e => Q (Throws e) (rollback c c')
    end) c ->
  wp b (transaction rollback body) Q c.
Proof.
  intros H s Hs. unfold transaction. destruct (H s Hs) as (r & c' & s' & -> & Hs' & Hq).
  destruct r as [a|e]; [|eauto 10].
  destruct (next s') as [f s''] eqn:E. destruct (allowed_next b s' f s'' Hs' E) as [Hs'' Hf].
  destruct f; try (eexists _, _, _; split; [done|]; split; [done|]; destruct Hf; [tauto|done]);
    eexists _, _, _; (split; [done|]); tauto.
Qed.

(** The result of a computation, for examples. *)
Definition run {A} (m : M A) (c : C) (s : script) : result A * C :=
  let '(r, (c', _)) := m (c, s) in (r, c').

Lemma wp_run b {A} (m : M A) (Q : result A -> C -> Prop) c s :
  wp b m Q c -> allowed b s -> Q (run m c s).1 (run m c s).2.
Proof.
  intros H Hs. unfold run. destruct (H s Hs) as (r & c' & s' & -> & _ & Hq). done.
Qed.

Lemma wp_intro b {A} (m : M A) (Q : result A -> C -> Prop) c :
  (forall s, allowed b s -> allowed b (m (c, s)).2.2 /\ Q (run m c s).1 (run m c s).2) -> wp b m Q c.
Proof.
  intros H s Hs. specialize (H s Hs). unfold run in H.
  destruct (m (c, s)) as [r [c' s']]. naive_solver.
Qed.
End effects.

Arguments M : clear implicits.
Arguments fault : clear implicits.

Notation "'let*' x ':=' e 'in' k" := (bind e (fun x => k))
  (at level 200, x pattern, e at level 100, k at level 200, right associativity).
Notation "e ;;; k" := (bind e (fun _ => k)) (at level 199, right associativity).

(** Peel the computation at the head of the goal. *)
Ltac wp_step :=
  cbv beta iota;
  lazymatch goal with
  | |- wp _ (bind _ _) _ _ => apply wp_bind
  | |- wp _ (ret _) _ _ => apply wp_ret
  | |- wp _ (throw _) _ _ => apply wp_throw
  | |- wp _ (lift _) _ _ => apply wp_lift
  | |- wp _ (gets _) _ _ => apply wp_gets
  | |- wp _ (catch _ _) _ _ => apply wp_catch
  | |- wp _ (transaction _ _) _ _ => apply wp_transaction
  end.
