(* ===== verification/Tombstone.v ===== *)
(** * The storage tombstones

    [storage/storage-tombstone.service.ts]: how a stored object is moved to the
    trash when its business record is deleted ([retain]), brought back
    ([restore]) and finally destroyed ([purge], [purgeExpired]).  Every private
    method of the service is a definition here, over the object stores of
    [FileStorage] and a database table, in the monad of [Effects]; the
    theorems are in [TombstoneSafety]. *)

From S2P Require Import Prelude JsNumber JsString StorageKey FileStorage SecurityAudit Effects.

Local Open Scope Z_scope.

(** ** Data *)

Inductive StorageTombstoneDomain := META_UPLOAD | REPORT.
Inductive StorageDomain := uploads | reports.
Inductive StorageTombstoneState := PENDING | RETAINED | RESTORED | PURGED | FAILED.

#[export] Instance StorageTombstoneDomain_eq_dec : EqDecision StorageTombstoneDomain.
Proof. solve_decision. Defined.
#[export] Instance StorageDomain_eq_dec : EqDecision StorageDomain.
Proof. solve_decision. Defined.
#[export] Instance StorageTombstoneState_eq_dec : EqDecision StorageTombstoneState.
Proof. solve_decision. Defined.

Record RetainStorageObjectInput := {
  in_domain : StorageTombstoneDomain;
  in_businessRecordId : str;
  in_reference : str;
  in_expectedHash : str;
  in_actorUserId : option str
}.

(** A row of the table, which the source also types [RetentionTombstone]. *)
Record Tombstone := {
  t_id : str;
  t_domain : StorageTombstoneDomain;
  t_provider : str;
  originalKey : str;
  trashKey : str;
  hashSha256 : str;
  byteSize : Z;
  businessRecordId : str;
  state : StorageTombstoneState;
  deletedAt : Z;
  purgeAfter : Z;
  restoredAt : option Z;
  purgedAt : option Z;
  t_actorUserId : option str;
  failureCode : option str
}.

(** A [ResolvedObject]: the storage is the one of its domain. *)
Record ResolvedObject := { r_provider : str; r_key : str; r_storage : StorageDomain }.

Record SafeResult := {
  tombstoneId : str; r_state : StorageTombstoneState; r_purgeAfter : Z;
  r_restoredAt : option Z; r_purgedAt : option Z
}.

(** The outside world: the database, the object stores, the clock and the
    number of random identifiers drawn. *)
Record World := {
  tombstones : list Tombstone;
  uploadBatches : list str;
  auditEvents : list SecurityAuditWrite;
  uploads_store : store;
  reports_store : store;
  clock : Z;
  drawn : nat
}.

(** What a concurrent [retain] of the same business record creates. *)
Record RacedRow := {
  raced_id : str; raced_key : str; raced_hash : str; raced_purgeAfter : Z
}.

Abbreviation Eff := (M World RacedRow).

(** The settings the service reads.  [supabase_settings] is whether the other
    settings of the Supabase adapter are present and valid. *)
Record StorageConfig := {
  STORAGE_PROVIDER : option str;
  SUPABASE_STORAGE_ACCESS_MODE : option str;
  supabase_settings : bool;
  SUPABASE_STORAGE_RETENTION_DAYS : option str;
  storage_dir : StorageDomain -> str;
  process_cwd : str
}.

Definition store_of (d : StorageDomain) (w : World) : store :=
  match d with uploads => uploads_store w | reports => reports_store w end.

Definition set_store (d : StorageDomain) (s : store) (w : World) : World :=
  {| tombstones := tombstones w; uploadBatches := uploadBatches w; auditEvents := auditEvents w;
     uploads_store := match d with uploads => s | reports => uploads_store w end;
     reports_store := match d with uploads => reports_store w | reports => s end;
     clock := clock w; drawn := drawn w |}.

Definition set_tombstones (ts : list Tombstone) (w : World) : World :=
  {| tombstones := ts; uploadBatches := uploadBatches w; auditEvents := auditEvents w;
     uploads_store := uploads_store w; reports_store := reports_store w;
     clock := clock w; drawn := drawn w |}.

Definition add_audit (e : SecurityAuditWrite) (w : World) : World :=
  {| tombstones := tombstones w; uploadBatches := uploadBatches w;
     auditEvents := auditEvents w ++ [e];
     uploads_store := uploads_store w; reports_store := reports_store w;
     clock := clock w; drawn := drawn w |}.

(** Rolling a transaction back restores the tables, not the objects. *)
Definition rollback (before after : World) : World :=
  {| tombstones := tombstones before; uploadBatches := uploadBatches before;
     auditEvents := auditEvents before;
     uploads_store := uploads_store after; reports_store := reports_store after;
     clock := clock after; drawn := drawn after |}.

Definition set_state (s : StorageTombstoneState) (code : option str) (t : Tombstone) : Tombstone :=
  {| t_id := t_id t; t_domain := t_domain t; t_provider := t_provider t;
     originalKey := originalKey t; trashKey := trashKey t; hashSha256 := hashSha256 t;
     byteSize := byteSize t; businessRecordId := businessRecordId t; state := s;
     deletedAt := deletedAt t; purgeAfter := purgeAfter t; restoredAt := restoredAt t;
     purgedAt := purgedAt t; t_actorUserId := t_actorUserId t; failureCode := code |}.

Definition set_dates (deleted purge : Z) (restored purged : option Z) (actor : option str)
  (t : Tombstone) : Tombstone :=
  {| t_id := t_id t; t_domain := t_domain t; t_provider := t_provider t;
     originalKey := originalKey t; trashKey := trashKey t; hashSha256 := hashSha256 t;
     byteSize := byteSize t; businessRecordId := businessRecordId t; state := state t;
     deletedAt := deleted; purgeAfter := purge; restoredAt := restored;
     purgedAt := purged; t_actorUserId := actor; failureCode := failureCode t |}.

(** ** Errors *)

Definition conflict (code : string) : js_error := {| err_status := 409; err_code := js code |}.
Definition not_found (code : string) : js_error := {| err_status := 404; err_code := js code |}.
Definition unavailable (code : string) : js_error := {| err_status := 503; err_code := js code |}.
Definition UNIQUE_CONFLICT : js_error := {| err_status := 0; err_code := js "P2002" |}.
Definition other_error : js_error := {| err_status := 0; err_code := js "Error" |}.

Definition isUniqueConflict (e : js_error) : bool := bool_decide (e = UNIQUE_CONFLICT).

(** [error instanceof ConflictException || error instanceof NotFoundException]. *)
Definition is_final (e : js_error) : bool := (err_status e =? 409) || (err_status e =? 404).

(** ** Helpers *)

Definition toStorageDomain (d : StorageTombstoneDomain) : StorageDomain :=
  match d with META_UPLOAD => uploads | REPORT => reports end.

Definition safeResult (t : Tombstone) : SafeResult :=
  {| tombstoneId := t_id t; r_state := state t; r_purgeAfter := purgeAfter t;
     r_restoredAt := restoredAt t; r_purgedAt := purgedAt t |}.

Definition assertExpectedSize (n expected : Z) : result unit :=
  if n =? expected then Ok tt else Throws StorageIntegrityError.

Definition toSafeNumber (value : Z) : result Z :=
  if (MAX_SAFE_INTEGER <? value) || (value <? 0) then Throws StorageIntegrityError else Ok value.

Definition trash_prefix : str := js "trash/".

(** The business record that each key of a storage was made for: the caller's
    knowledge, which no operation of the service looks at; only what a concurrent
    [retain] may name ([race_row]) and the conditions of the theorems depend on
    it.  [UploadStorage] has the one of the uploads. *)
Class KeyRecords := key_record : StorageDomain -> str -> str.

Section service.
Context `{Icu, Digest, FileStorage, KeyRecords} (config : StorageConfig) (uuid : nat -> str).

Definition is_hex_lower (c : N) : bool := is_digit c || ((97 <=? c) && (c <=? 102))%N.

Definition normalizedHash (value : str) : result str :=
  let normalized := to_lower value in
  if (Z.of_nat (List.length normalized) =? 64) && forallb is_hex_lower normalized
  then Ok normalized else Throws StorageIntegrityError.

(** [configuredFileStorageForProvider]: whether it returns. *)
Definition configuredFileStorageForProvider (provider : str) : result unit :=
  let configuredProvider := to_lower (trim (STORAGE_PROVIDER config ?? js "local")) in
  if negb (str_eqb provider configuredProvider) then Throws other_error
  else if str_eqb provider (js "supabase") then
    let accessMode := to_lower (trim (SUPABASE_STORAGE_ACCESS_MODE config ?? js "admin")) in
    if negb (str_eqb accessMode (js "admin")) && negb (str_eqb accessMode (js "rls"))
    then Throws other_error
    else if supabase_settings config then Ok tt else Throws other_error
  else if negb (str_eqb provider (js "local")) then Throws other_error
  else Ok tt.

Definition storageForRow (domain : StorageTombstoneDomain) (provider : str) : result StorageDomain :=
  let! _ := configuredFileStorageForProvider provider in Ok (toStorageDomain domain).

Definition resolveReference (domain : StorageTombstoneDomain) (reference : str)
  : result ResolvedObject :=
  let storageDomain := toStorageDomain domain in
  let! parsed := parseStorageReference reference in
  match parsed with
  | Some p =>
      let! _ := configuredFileStorageForProvider (provider p) in
      Ok {| r_provider := provider p; r_key := key p; r_storage := storageDomain |}
  | None =>
      let! _ := configuredFileStorageForProvider (js "local") in
      let! k := legacyLocalPathToKey (process_cwd config) reference (storage_dir config storageDomain) in
      Ok {| r_provider := js "local"; r_key := k; r_storage := storageDomain |}
  end.

Definition retentionDays : result Z :=
  let value := to_number (SUPABASE_STORAGE_RETENTION_DAYS config ?? js "30") in
  if negb (isSafeInteger value) || nltb value (ofZ 1) || nltb (ofZ 365) value
  then Throws other_error else Ok (toZ value).

(** [deletedAt.getTime() + this.retentionDays() * 86_400_000]. *)
Definition retention_end (from : Z) : result Z :=
  let! days := retentionDays in Ok (from + days * 86400000).

(** ** Calls *)

Definition new_Date : Eff Z := gets clock.

Definition randomUUID : Eff str := fun '(w, s) =>
  (Ok (uuid (drawn w)),
   ({| tombstones := tombstones w; uploadBatches := uploadBatches w; auditEvents := auditEvents w;
       uploads_store := uploads_store w; reports_store := reports_store w;
       clock := clock w; drawn := S (drawn w) |}, s)).

Definition on_store {A} (d : StorageDomain) (f : store -> result (A * store)) : Eff A :=
  effect (fun w => let! (a, s) := f (store_of d w) in Ok (a, set_store d s w)).

Definition st_exists (d : StorageDomain) (k : str) : Eff bool :=
  on_store d (fun s => let! b := fs_exists s k in Ok (b, s)).
Definition st_getStream (d : StorageDomain) (k : str) : Eff StoredFileStream :=
  on_store d (fun s => let! g := fs_getStream s k in Ok (g, s)).
Definition st_delete (d : StorageDomain) (k : str) : Eff bool :=
  on_store d (fun s => fs_delete s k).
Definition st_put (d : StorageDomain) (i : FileStoragePutInput) : Eff StoredFile :=
  on_store d (fun s => fs_put s i).

Definition is_business (d : StorageTombstoneDomain) (b : str) (t : Tombstone) : bool :=
  bool_decide (t_domain t = d) && str_eqb (businessRecordId t) b.
Definition has_id (id : str) (t : Tombstone) : bool := str_eqb (t_id t) id.

Definition findByBusiness (d : StorageTombstoneDomain) (b : str) : Eff (option Tombstone) :=
  effect (fun w => Ok (List.find (is_business d b) (tombstones w), w)).
Definition findById (id : str) : Eff (option Tombstone) :=
  effect (fun w => Ok (List.find (has_id id) (tombstones w), w)).

(** [tx.storageTombstone.update]. *)
Definition update (id : str) (f : Tombstone -> Tombstone) : Eff Tombstone :=
  effect (fun w =>
    match List.find (has_id id) (tombstones w) with
    | None => Throws other_error
    | Some t =>
        Ok (f t, set_tombstones (map (fun t => if has_id id t then f t else t) (tombstones w)) w)
    end).

Definition updateMany (p : Tombstone -> bool) (f : Tombstone -> Tombstone) : Eff unit :=
  effect (fun w =>
    Ok (tt, set_tombstones (map (fun t => if p t then f t else t) (tombstones w)) w)).

(** The unique indexes of the table. *)
Definition violates_unique (t u : Tombstone) : bool :=
  has_id (t_id t) u || is_business (t_domain t) (businessRecordId t) u
  || str_eqb (t_provider u) (t_provider t) && str_eqb (trashKey u) (trashKey t).

Definition insert_row (data : Tombstone) (w : World) : result (Tombstone * World) :=
  if existsb (violates_unique data) (tombstones w) then Throws UNIQUE_CONFLICT
  else Ok (data, set_tombstones (tombstones w ++ [data]) w).

(** The row [retain] creates. *)
Definition pending_row (id : str) (d : StorageTombstoneDomain) (provider key hash : str) (n : Z)
  (b : str) (deleted purge : Z) (actor : option str) : Tombstone :=
  {| t_id := id; t_domain := d; t_provider := provider; originalKey := key;
     trashKey := trash_prefix ++ id; hashSha256 := hash; byteSize := n; businessRecordId := b;
     state := PENDING; deletedAt := deleted; purgeAfter := purge; restoredAt := None;
     purgedAt := None; t_actorUserId := actor; failureCode := None |}.

(** A concurrent [retain] of the record [data] is about, for a key of that
    record, gets its row in: it has inspected the object it names. *)
Definition race_row (data : Tombstone) (r : RacedRow) (w : World) : option World :=
  content ← store_of (toStorageDomain (t_domain data)) w !! raced_key r;
  let row := pending_row (raced_id r) (t_domain data) (t_provider data) (raced_key r) (raced_hash r)
               (size_of content) (businessRecordId data) (clock w) (raced_purgeAfter r) None in
  if starts_with trash_prefix (raced_key r)
     || negb (str_eqb (key_record (toStorageDomain (t_domain data)) (raced_key r)) (businessRecordId data))
     || match normalizedHash (raced_hash r) with
        | Ok h => negb (str_eqb h (raced_hash r)) || negb (str_eqb (sha256 content) h)
        | Throws _ => true
        end
  then None
  else match insert_row row w with Ok (_, w') => Some w' | Throws _ => None end.

Definition create (data : Tombstone) : Eff Tombstone :=
  raced_effect (race_row data) (insert_row data).

Definition acquireTombstoneTransitionFence (id : str) : Eff unit := io ;;; io ;;; io.

Definition requireTombstone (id : str) : Eff Tombstone :=
  let* tombstone := findById id in
  match tombstone with
  | None => throw (not_found "STORAGE_TOMBSTONE_NOT_FOUND")
  | Some t => ret t
  end.

Definition has_upload (id : str) : Eff bool :=
  effect (fun w => Ok (existsb (str_eqb id) (uploadBatches w), w)).

(** ** Inspection *)

(** The loop over the chunks of [inspectObject]: the bytes seen. *)
Fixpoint read_stream (limit : Z) (seen : bytes) (chunks : list bytes) : result bytes :=
  match chunks with
  | [] => Ok seen
  | chunk :: rest =>
      let seen := seen ++ chunk in
      if limit <? size_of seen then Throws StorageIntegrityError
      else read_stream limit seen rest
  end.

Definition inspectObject (d : StorageDomain) (k expectedHash : str) (expectedSize : option Z)
  : Eff Z :=
  let* k := lift (normalizeStorageKey k) in
  let* stored := st_getStream d k in
  lift (match expectedSize with
        | Some n => assertExpectedSize (stream_size stored) n
        | None => Ok tt
        end) ;;;
  io ;;;
  let* seen := lift (read_stream (stream_size stored) [] (stream stored)) in
  if negb (size_of seen =? stream_size stored) then throw StorageIntegrityError
  else
    let* h := lift (normalizedHash expectedHash) in
    if negb (str_eqb (sha256 seen) h) then throw StorageIntegrityError else ret (size_of seen).

Definition inspect_original (d : StorageDomain) (t : Tombstone) : Eff Z :=
  inspectObject d (originalKey t) (hashSha256 t) (Some (byteSize t)).
Definition inspect_trash (d : StorageDomain) (t : Tombstone) : Eff Z :=
  inspectObject d (trashKey t) (hashSha256 t) (Some (byteSize t)).

(** Reading [from] and putting it at [to] under the hash and size of the row. *)
Definition copy_object (d : StorageDomain) (t : Tombstone) (from to : str) : Eff unit :=
  let* source := st_getStream d from in
  lift (assertExpectedSize (stream_size source) (byteSize t)) ;;;
  let* limit := lift (toSafeNumber (byteSize t)) in
  let* put := st_put d {| put_key := to; body := stream source;
                          expectedHashSha256 := Some (hashSha256 t); maxBytes := Some limit |} in
  lift (assertExpectedSize (size put) (byteSize t)).

(** ** Transitions *)

Definition completeRetention (d : StorageDomain) (t : Tombstone) : Eff unit :=
  let* trashExists := st_exists d (trashKey t) in
  (if trashExists : bool then inspect_trash d t ;;; ret tt
   else copy_object d t (originalKey t) (trashKey t)) ;;;
  inspect_trash d t ;;;
  let* activeDeleted := st_delete d (originalKey t) in
  if activeDeleted : bool then ret tt
  else
    let* still := st_exists d (originalKey t) in
    if still : bool then throw other_error else ret tt.

Definition ensureActiveCopy (d : StorageDomain) (t : Tombstone) : Eff unit :=
  let* activeExists := st_exists d (originalKey t) in
  if activeExists : bool then inspect_original d t ;;; ret tt
  else copy_object d t (trashKey t) (originalKey t) ;;; inspect_original d t ;;; ret tt.

Definition assertSameRetentionObject (current expected : Tombstone) (resolved : ResolvedObject)
  (expectedHash : str) : result unit :=
  if negb (str_eqb (t_provider current) (r_provider resolved))
     || negb (str_eqb (originalKey current) (r_key resolved))
     || negb (str_eqb (hashSha256 current) expectedHash)
     || negb (str_eqb (trashKey current) (trashKey expected))
     || negb (byteSize current =? byteSize expected)
  then Throws (conflict "STORAGE_TOMBSTONE_CONFLICT") else Ok tt.

Definition actor_type (actor : option str) : SecurityAuditActorType :=
  if truthy_opt actor then USER else SYSTEM.

Definition state_json (s : StorageTombstoneState) : json :=
  JStr (js (match s with PENDING => "PENDING" | RETAINED => "RETAINED" | RESTORED => "RESTORED"
            | PURGED => "PURGED" | FAILED => "FAILED" end)%string).

Definition tombstone_audit (actor : option str) (action id : str) (r : SecurityAuditResult)
  (before after : option json) : SecurityAuditWrite :=
  {| actorUserId := actor; actorType := actor_type actor; action := action;
     targetType := js "STORAGE_TOMBSTONE"; targetId := Some id; auditResult := r;
     beforeJson := before; afterJson := after; requestId := None |}.

Definition create_audit (e : SecurityAuditWrite) : Eff unit :=
  effect (fun w => Ok (tt, add_audit e w)).

Definition writeSecurityAudit (e : SecurityAuditWrite) : Eff unit :=
  let* data := lift (securityAuditData e) in create_audit data.

(** [.catch(() => undefined)]. *)
Definition ignore_error (m : Eff unit) : Eff unit := catch m (fun _ => ret tt).

Definition record_failure (p : Tombstone -> bool) (f : Tombstone -> Tombstone)
  (e : SecurityAuditWrite) : Eff unit :=
  ignore_error (updateMany p f) ;;;
  let* data := lift (securityAuditData e) in ignore_error (create_audit data).

Definition recordRetentionFailure (id : str) (actor : option str) (compensationFailed : bool)
  : Eff unit :=
  let code := js (if compensationFailed then "RETENTION_COMPENSATION_FAILED"
                  else "RETENTION_TRANSITION_FAILED") in
  record_failure
    (fun t => has_id id t && (bool_decide (state t = PENDING) || bool_decide (state t = FAILED)))
    (set_state FAILED (Some code))
    (tombstone_audit actor (js "STORAGE_OBJECT_TRANSITION") id PARTIAL None
       (Some (JObj [(js "retryable", JBool (negb compensationFailed));
                    (js "activeCopyVerified", JBool (negb compensationFailed));
                    (js "failureCode", JStr code)]))).

Definition recordFailure (id : str) (actor : option str) (failureCode : str) : Eff unit :=
  record_failure
    (fun t => has_id id t && bool_decide (state t = RETAINED))
    (fun t => set_state (state t) (Some failureCode) t)
    (tombstone_audit actor (js "STORAGE_OBJECT_TRANSITION") id PARTIAL None
       (Some (JObj [(js "retryable", JBool true); (js "failureCode", JStr failureCode)]))).

Inductive Reconciled := COMMITTED (result : SafeResult) | ROLLED_BACK.

Definition reconcileRetentionFailure (expected : Tombstone) (resolved : ResolvedObject)
  (expectedHash : str) : Eff Reconciled :=
  let d := r_storage resolved in
  transaction rollback (
    acquireTombstoneTransitionFence (t_id expected) ;;;
    let* current := requireTombstone (t_id expected) in
    lift (assertSameRetentionObject current expected resolved expectedHash) ;;;
    if decide (state current = RETAINED) then
      completeRetention d current ;;; ret (COMMITTED (safeResult current))
    else if decide (state current = PURGED) then
      throw (conflict "STORAGE_TOMBSTONE_STATE_CONFLICT")
    else
      ensureActiveCopy d current ;;;
      let* trashDeleted := st_delete d (trashKey current) in
      (if trashDeleted : bool then ret tt
       else let* still := st_exists d (trashKey current) in
            if still : bool then throw other_error else ret tt) ;;;
      inspect_original d current ;;;
      let* now := new_Date in
      update (t_id current) (fun t =>
        set_state RESTORED None
          (set_dates (deletedAt t) (purgeAfter t) (Some now) (purgedAt t) (t_actorUserId t) t)) ;;;
      ret ROLLED_BACK).

(** [tombstone.provider !== resolved.provider || ...] of [retain]. *)
Definition differs (t : Tombstone) (resolved : ResolvedObject) (expectedHash : str) : bool :=
  negb (str_eqb (t_provider t) (r_provider resolved))
  || negb (str_eqb (originalKey t) (r_key resolved))
  || negb (str_eqb (hashSha256 t) expectedHash).

(** The row of the business record: the one there is, or a new one once the
    object is inspected. *)
Definition find_or_create (input : RetainStorageObjectInput) (resolved : ResolvedObject)
  (expectedHash : str) : Eff Tombstone :=
  let* tombstone := findByBusiness (in_domain input) (in_businessRecordId input) in
  match tombstone with
  | Some t =>
      if differs t resolved expectedHash
      then throw (conflict "STORAGE_TOMBSTONE_CONFLICT") else ret t
  | None =>
      let* sourceSize := inspectObject (r_storage resolved) (r_key resolved) expectedHash None in
      let* id := randomUUID in
      let* deletedAt := new_Date in
      catch (
        let* purgeAfter := lift (retention_end deletedAt) in
        create (pending_row id (in_domain input) (r_provider resolved) (r_key resolved)
                  expectedHash sourceSize (in_businessRecordId input) deletedAt purgeAfter
                  (in_actorUserId input)))
      (fun error =>
        if negb (isUniqueConflict error) then throw error
        else
          let* tombstone := findByBusiness (in_domain input) (in_businessRecordId input) in
          match tombstone with
          | None => throw error
          | Some t =>
              if differs t resolved expectedHash || negb (byteSize t =? sourceSize)
              then throw (conflict "STORAGE_TOMBSTONE_CONFLICT") else ret t
          end)
  end.

(** The transaction of [retain]. *)
Definition retain_transition (tombstone : Tombstone) (resolved : ResolvedObject)
  (expectedHash : str) : Eff SafeResult :=
  let d := r_storage resolved in
  transaction rollback (
    acquireTombstoneTransitionFence (t_id tombstone) ;;;
    let* current := requireTombstone (t_id tombstone) in
    lift (assertSameRetentionObject current tombstone resolved expectedHash) ;;;
    if decide (state current = RETAINED) then
      completeRetention d current ;;; ret (safeResult current)
    else if decide (state current = PURGED) then
      throw (conflict "STORAGE_TOMBSTONE_STATE_CONFLICT")
    else
      let* transition :=
        (if decide (state current = RESTORED) then
           let* now := new_Date in
           let* purge := lift (retention_end now) in
           update (t_id current) (fun t =>
             set_state PENDING None
               (set_dates now purge None (purgedAt t) (t_actorUserId t) t))
         else ret current) in
      completeRetention d transition ;;;
      let* retained := update (t_id transition) (set_state RETAINED None) in
      ret (safeResult retained)).

Definition retain (input : RetainStorageObjectInput) : Eff SafeResult :=
  let* expectedHash := lift (normalizedHash (in_expectedHash input)) in
  let* resolved := lift (resolveReference (in_domain input) (in_reference input)) in
  if starts_with trash_prefix (r_key resolved) then throw StorageIntegrityError
  else
    let* tombstone := find_or_create input resolved expectedHash in
    catch (retain_transition tombstone resolved expectedHash) (fun error =>
      if is_final error then throw error
      else
        let* reconciled :=
          catch (reconcileRetentionFailure tombstone resolved expectedHash) (fun _ =>
            catch (ensureActiveCopy (r_storage resolved) tombstone ;;; ret ROLLED_BACK) (fun _ =>
              recordRetentionFailure (t_id tombstone) (in_actorUserId input) true ;;;
              throw (unavailable "STORAGE_RETENTION_COMPENSATION_REQUIRED"))) in
        match reconciled with
        | COMMITTED result => ret result
        | ROLLED_BACK =>
            recordRetentionFailure (t_id tombstone) (in_actorUserId input) false ;;;
            throw (unavailable "STORAGE_RETENTION_RETRY_REQUIRED")
        end).

Definition actor_or (actor : option str) (t : Tombstone) : option str :=
  if truthy_opt actor then actor else t_actorUserId t.

(** The part of [restore] that moves the object back. *)
Definition restore_objects (d : StorageDomain) (t : Tombstone) : Eff unit :=
  let* activeExists := st_exists d (originalKey t) in
  (if activeExists : bool then inspect_original d t ;;; ret tt
   else copy_object d t (trashKey t) (originalKey t)) ;;;
  inspect_original d t ;;;
  st_delete d (trashKey t) ;;;
  ret tt.

Definition restore_audit (actor : option str) (id : str) : SecurityAuditWrite :=
  tombstone_audit actor (js "STORAGE_OBJECT_RESTORE") id SUCCESS
    (Some (JObj [(js "state", state_json RETAINED)]))
    (Some (JObj [(js "state", state_json RESTORED); (js "hashVerified", JBool true)])).

Definition set_restored (actor : option str) (restoredAt : Z) (t : Tombstone) : Tombstone :=
  set_state RESTORED None
    (set_dates (deletedAt t) (purgeAfter t) (Some restoredAt) (purgedAt t) (actor_or actor t) t).

(** The callback of the transaction of [restore]. *)
Definition restore_transition (id : str) (actor : option str) : Eff SafeResult :=
  acquireTombstoneTransitionFence id ;;;
  let* tombstone := requireTombstone id in
  if decide (state tombstone = RESTORED) then ret (safeResult tombstone)
  else if negb (bool_decide (state tombstone = RETAINED)) then
    throw (conflict "STORAGE_RESTORE_STATE_CONFLICT")
  else
    let* now := new_Date in
    if purgeAfter tombstone <=? now then throw (conflict "STORAGE_RESTORE_EXPIRED")
    else
      let* d := lift (storageForRow (t_domain tombstone) (t_provider tombstone)) in
      restore_objects d tombstone ;;;
      let* restoredAt := new_Date in
      let* updated := update (t_id tombstone) (set_restored actor restoredAt) in
      writeSecurityAudit (restore_audit actor (t_id tombstone)) ;;;
      ret (safeResult updated).

Definition restore (id : str) (actor : option str) : Eff SafeResult :=
  catch (transaction rollback (restore_transition id actor)) (fun error =>
    if is_final error then throw error
    else recordFailure id actor (js "RESTORE_TRANSITION_FAILED") ;;;
         throw (unavailable "STORAGE_RESTORE_RETRY_REQUIRED")).

(** The part of [purge] that destroys the objects. *)
Definition purge_objects (d : StorageDomain) (t : Tombstone) : Eff unit :=
  let* activeExists := st_exists d (originalKey t) in
  let* trashExists := st_exists d (trashKey t) in
  (if activeExists : bool then inspect_original d t ;;; ret tt else ret tt) ;;;
  (if trashExists : bool then inspect_trash d t ;;; ret tt else ret tt) ;;;
  (if activeExists : bool then st_delete d (originalKey t) ;;; ret tt else ret tt) ;;;
  (if trashExists : bool then st_delete d (trashKey t) ;;; ret tt else ret tt) ;;;
  let* active := st_exists d (originalKey t) in
  if active : bool then throw other_error
  else
    let* trash := st_exists d (trashKey t) in
    if trash : bool then throw other_error else ret tt.

(** [purge] of a [META_UPLOAD] refuses while the upload exists. *)
Definition assert_no_upload (t : Tombstone) : Eff unit :=
  if decide (t_domain t = META_UPLOAD) then
    let* activeBusinessRecord := has_upload (businessRecordId t) in
    if activeBusinessRecord : bool
    then throw (conflict "STORAGE_PURGE_BUSINESS_RECORD_ACTIVE") else ret tt
  else ret tt.

Definition purge_audit (actor : option str) (id : str) (force : bool) : SecurityAuditWrite :=
  tombstone_audit actor (js "STORAGE_OBJECT_PURGE") id SUCCESS
    (Some (JObj [(js "state", state_json RETAINED)]))
    (Some (JObj [(js "state", state_json PURGED); (js "explicit", JBool force)])).

Definition set_purged (actor : option str) (purgedAt : Z) (t : Tombstone) : Tombstone :=
  set_state PURGED None
    (set_dates (deletedAt t) (purgeAfter t) (restoredAt t) (Some purgedAt) (actor_or actor t) t).

(** The callback of the transaction of [purge]. *)
Definition purge_transition (id : str) (actor : option str) (force : bool) : Eff SafeResult :=
  acquireTombstoneTransitionFence id ;;;
  let* tombstone := requireTombstone id in
  if decide (state tombstone = PURGED) then ret (safeResult tombstone)
  else if negb (bool_decide (state tombstone = RETAINED)) then
    throw (conflict "STORAGE_PURGE_STATE_CONFLICT")
  else
    let* now := new_Date in
    if negb force && (now <? purgeAfter tombstone) then throw (conflict "STORAGE_PURGE_NOT_DUE")
    else
      assert_no_upload tombstone ;;;
      let* d := lift (storageForRow (t_domain tombstone) (t_provider tombstone)) in
      purge_objects d tombstone ;;;
      let* purgedAt := new_Date in
      let* updated := update (t_id tombstone) (set_purged actor purgedAt) in
      writeSecurityAudit (purge_audit actor (t_id tombstone) force) ;;;
      ret (safeResult updated).

Definition purge (id : str) (actor : option str) (force : bool) : Eff SafeResult :=
  catch (transaction rollback (purge_transition id actor force)) (fun error =>
    if is_final error then throw error
    else recordFailure id actor (js "PURGE_TRANSITION_FAILED") ;;;
         throw (unavailable "STORAGE_PURGE_RETRY_REQUIRED")).

Record PurgeExpired := { candidateCount : Z; purgedCount : Z; dryRun : bool }.

Definition compare_due (t u : Tombstone) : Z :=
  (purgeAfter t - purgeAfter u) ||| str_cmp (t_id t) (t_id u).

(** [orderBy] and [take] of the query for due tombstones. *)
Definition due_ids (limit : Z) (w : World) : list str :=
  map t_id (firstn (Z.to_nat limit)
    (js_sort compare_due
      (List.filter (fun t => bool_decide (state t = RETAINED) && (purgeAfter t <=? clock w))
        (tombstones w)))).

Fixpoint purge_all (ids : list str) (purgedCount : Z) : Eff Z :=
  match ids with
  | [] => ret purgedCount
  | id :: rest => purge id None false ;;; purge_all rest (purgedCount + 1)
  end.

Definition purgeExpired (execute : bool) (limit : option Z) : Eff PurgeExpired :=
  let limit := Z.max 1 (Z.min (limit ?? 100) 500) in
  let* due := effect (fun w => Ok (due_ids limit w, w)) in
  let candidateCount := Z.of_nat (List.length due) in
  if negb execute
  then ret {| candidateCount := candidateCount; purgedCount := 0; dryRun := true |}
  else
    let* n := purge_all due 0 in
    ret {| candidateCount := candidateCount; purgedCount := n; dryRun := false |}.
End service.
