(* ===== verification/TombstoneObjects.v ===== *)
(** * The objects of a tombstone

    What the calls of [Tombstone] do to the objects of one row: inspection,
    copying, [completeRetention] and [ensureActiveCopy], under every pattern of
    failing calls and, with [fails false], when no call fails. *)

From S2P Require Import Prelude JsNumber JsString StorageKey FileStorage SecurityAudit Effects Tombstone.

Local Open Scope Z_scope.

Section objects.
Context `{FileStorageLaws} `{!IcuLaws}.

(** ** Copies *)

Definition dom (t : Tombstone) : StorageDomain := toStorageDomain (t_domain t).

(** A content with the hash and size the row records. *)
Definition good (t : Tombstone) (b : bytes) : Prop :=
  normalizedHash (hashSha256 t) = Ok (sha256 b) /\ size_of b = byteSize t.

Definition verified (w : World) (t : Tombstone) (k : str) : Prop :=
  exists b, store_of (dom t) w !! k = Some b /\ good t b.

Definition safe_copy (w : World) (t : Tombstone) : Prop :=
  verified w t (originalKey t) \/ verified w t (trashKey t).

Definition hash_wf (t : Tombstone) : Prop := exists h, normalizedHash (hashSha256 t) = Ok h.

Lemma set_store_id d w : set_store d (store_of d w) w = w.
Proof. by destruct w, d. Qed.

Lemma store_of_set d s w : store_of d (set_store d s w) = s.
Proof. by destruct d. Qed.

Lemma store_of_set_ne d d' s w : d <> d' -> store_of d' (set_store d s w) = store_of d' w.
Proof. by destruct d, d'. Qed.

Lemma normalizedHash_ok v h :
  normalizedHash v = Ok h -> h = to_lower v /\ truthy v = true.
Proof.
  unfold normalizedHash. destruct (_ && _) eqn:E; [|done]. intros [= <-]. split; [done|].
  destruct v; [|done]. rewrite (to_lower_ascii []) in E by done. done.
Qed.

Lemma normalizedHash_throws v e : normalizedHash v = Throws e -> err_status e = 0.
Proof. unfold normalizedHash. destruct (_ && _); [done|]. by intros [= <-]. Qed.

(** ** Calls to a store *)

Definition fails (b : bool) (possible : Prop) : Prop := b = true \/ ~ possible.

Lemma wp_on_store (b : bool) {A} (d : StorageDomain) (f : store -> result (A * store)) (Q : result A -> World -> Prop) w :
  (forall a s, f (store_of d w) = Ok (a, s) ->
     Q (Ok a) (set_store d s w) /\ (b = true -> Q (Throws io_error) (set_store d s w))) ->
  (forall e, f (store_of d w) = Throws e -> Q (Throws e) w) ->
  (b = true -> Q (Throws io_error) w) ->
  wp b (on_store d f) Q w.
Proof.
  intros HO HE HB. apply wp_effect; [|done]. unfold run_post.
  destruct (f (store_of d w)) as [[a s]|e] eqn:E; simpl; [by apply HO|by apply HE].
Qed.

Lemma exists_spec b d k w :
  wp b (st_exists d k) (fun r w' => w' = w /\ match r with
    | Ok r => r = bool_decide (is_Some (store_of d w !! k))
    | Throws e => err_status e = 0 /\ fails b (key_ok k = true)
    end) w.
Proof.
  apply wp_on_store.
  - intros a s E. apply result_bind_ok in E as (r & E & [= <- <-]). rewrite set_store_id.
    apply exists_ok in E. unfold fails. auto.
  - intros e E. apply result_bind_throws in E as [E|(? & _ & ?)]; [|done]. split; [done|].
    split; [apply (storage_errors (store_of d w) k {| put_key := []; body := []; expectedHashSha256 := None; maxBytes := None |}); auto|].
    right. intros K. destruct (exists_accepts (store_of d w) k K) as [r Er]. congruence.
  - unfold fails. auto.
Qed.

Lemma getStream_spec b d k w :
  wp b (st_getStream d k) (fun r w' => w' = w /\ match r with
    | Ok g => store_of d w !! k = Some (concat (stream g))
              /\ stream_size g = size_of (concat (stream g))
    | Throws e => err_status e = 0
                  /\ fails b (key_ok k = true /\ is_Some (store_of d w !! k))
    end) w.
Proof.
  apply wp_on_store.
  - intros a s E. apply result_bind_ok in E as (r & E & [= <- <-]). rewrite set_store_id.
    apply getStream_ok in E as (bl & L & <- & Z). unfold fails. auto.
  - intros e E. apply result_bind_throws in E as [E|(? & _ & ?)]; [|done]. split; [done|].
    split; [apply (storage_errors (store_of d w) k {| put_key := []; body := []; expectedHashSha256 := None; maxBytes := None |}); auto|].
    right. intros [K [bl L]]. destruct (getStream_accepts (store_of d w) k bl K L) as [r Er]. congruence.
  - unfold fails. auto.
Qed.

Lemma delete_spec b d k w :
  wp b (st_delete d k) (fun r w' => match r with
    | Ok r => w' = set_store d (delete k (store_of d w)) w
              /\ r = bool_decide (is_Some (store_of d w !! k))
    | Throws e => (w' = w \/ w' = set_store d (delete k (store_of d w)) w)
                  /\ err_status e = 0 /\ fails b (key_ok k = true)
    end) w.
Proof.
  apply wp_on_store.
  - intros a s E. apply delete_ok in E as [-> ->]. unfold fails. auto.
  - intros e E. split; [auto|].
    split; [apply (storage_errors (store_of d w) k {| put_key := []; body := []; expectedHashSha256 := None; maxBytes := None |}); auto|].
    right. intros K. destruct (delete_accepts (store_of d w) k K) as [r Er]. congruence.
  - unfold fails. auto.
Qed.

(** ** Inspection and copying *)

Definition inspectable (d : StorageDomain) (k h : str) (n : option Z) (w : World) (bl : bytes) : Prop :=
  store_of d w !! k = Some bl /\ normalizedHash h = Ok (sha256 bl)
  /\ forall m, n = Some m -> size_of bl = m.

Lemma read_stream_ok limit seen chunks b :
  read_stream limit seen chunks = Ok b -> b = seen ++ concat chunks.
Proof.
  revert seen. induction chunks as [|c cs IH]; intros seen; simpl.
  - intros [= <-]. by rewrite app_nil_r.
  - destruct (_ <? _); [done|]. intros ->%IH. by rewrite <- app_assoc.
Qed.

Lemma read_stream_all limit seen chunks :
  size_of (seen ++ concat chunks) <= limit -> read_stream limit seen chunks = Ok (seen ++ concat chunks).
Proof.
  revert seen. induction chunks as [|c cs IH]; intros seen; simpl; [by rewrite app_nil_r|].
  intros L. rewrite app_assoc in L. rewrite size_of_app in L.
  pose proof (size_of_nonneg (concat cs)).
  replace (limit <? size_of (seen ++ c)) with false by lia.
  rewrite IH; [by rewrite <- app_assoc|]. rewrite size_of_app. lia.
Qed.

Lemma read_stream_throws limit seen chunks e :
  read_stream limit seen chunks = Throws e -> e = StorageIntegrityError.
Proof.
  revert seen. induction chunks as [|c cs IH]; intros seen; simpl; [done|].
  destruct (_ <? _); [by intros [= <-]|apply IH].
Qed.

Lemma inspect_spec b d k h n w :
  wp b (inspectObject d k h n) (fun r w' => w' = w /\ match r with
    | Ok m => exists bl, inspectable d k h n w bl /\ m = size_of bl
    | Throws e => err_status e = 0
                  /\ fails b (key_ok k = true /\ exists bl, inspectable d k h n w bl)
    end) w.
Proof.
  unfold inspectObject, fails. do 2 wp_step.
  destruct (normalizeStorageKey k) as [k'|e] eqn:K.
  2: { split; [done|]. split; [by eapply normalizeStorageKey_throws|].
       right. intros [Ok _]. rewrite normalizeStorageKey_key_ok, Ok in K. done. }
  apply normalizeStorageKey_ok in K as [-> K]. wp_step.
  eapply wp_mono; [apply getStream_spec|]. intros [g|e] w' [-> Hg]; cbn.
  2: { split; [done|]. destruct Hg as [He Hf]. split; [done|]. destruct Hf as [Hf|Hf]; [auto|].
       right. intros [_ (bl & L & _)]. apply Hf. eauto. }
  destruct Hg as [L Z]. do 2 wp_step.
  destruct (match n with Some _ => _ | None => _ end) as [[]|e] eqn:A.
  2: { split; [done|]. destruct n as [m|]; [|done]. unfold assertExpectedSize in A.
       destruct (Z.eqb_spec (stream_size g) m); [done|]. injection A as <-. split; [done|].
       right. intros [_ (bl & L' & _ & Hm)]. specialize (Hm m eq_refl). congruence. }
  wp_step. apply wp_io; [|intros ->; auto]. do 2 wp_step.
  destruct (read_stream (stream_size g) [] (stream g)) as [seen|e] eqn:Rd.
  2: { apply read_stream_throws in Rd as E. subst e. split; [done|]. split; [done|].
       rewrite read_stream_all in Rd by (simpl; lia). done. }
  apply read_stream_ok in Rd. simpl in Rd. subst seen. rewrite Z, Z.eqb_refl. cbn. do 2 wp_step.
  destruct (normalizedHash h) as [h'|e] eqn:N.
  2: { split; [done|]. split; [by eapply normalizedHash_throws|]. right.
       intros [_ (bl & _ & N' & _)]. congruence. }
  unfold str_eqb. case_bool_decide as S; cbn; wp_step.
  - split; [done|]. exists (concat (stream g)). split; [|done]. split; [done|]. subst h'. split; [done|].
    intros m ->. unfold assertExpectedSize in A. destruct (Z.eqb_spec (stream_size g) m); [lia|done].
  - split; [done|]. split; [done|]. right. intros [_ (bl & L' & N' & _)]. congruence.
Qed.

Lemma inspectable_good t k w bl :
  inspectable (dom t) k (hashSha256 t) (Some (byteSize t)) w bl <->
  store_of (dom t) w !! k = Some bl /\ good t bl.
Proof.
  unfold inspectable, good. split; [intros (L & N & S)|intros (L & N & S)].
  - eauto.
  - split; [done|]. split; [done|]. by intros m [= <-].
Qed.

Lemma inspect_row_spec b t k w :
  wp b (inspectObject (dom t) k (hashSha256 t) (Some (byteSize t))) (fun r w' => w' = w /\ match r with
    | Ok _ => verified w t k
    | Throws e => err_status e = 0 /\ fails b (key_ok k = true /\ verified w t k)
    end) w.
Proof.
  eapply wp_mono; [apply inspect_spec|]. intros [m|e] w' [-> Hr]; (split; [done|]).
  - destruct Hr as (bl & I & _). apply inspectable_good in I. by exists bl.
  - destruct Hr as [He Hf]. split; [done|]. destruct Hf as [Hf|Hf]; [by left|right].
    intros [K (bl & I)]. apply Hf. split; [done|]. exists bl. by apply inspectable_good.
Qed.

(** Nothing but a new good object at [k]. *)
Definition grow (t : Tombstone) (k : str) (w w' : World) : Prop :=
  w' = w \/ (store_of (dom t) w !! k = None
             /\ exists b, good t b /\ w' = set_store (dom t) (<[k := b]> (store_of (dom t) w)) w).

Definition copyable (t : Tombstone) (from to : str) (w : World) : Prop :=
  key_ok from = true /\ key_ok to = true /\ verified w t from /\ store_of (dom t) w !! to = None
  /\ 0 <= byteSize t <= MAX_SAFE_INTEGER.

Lemma copy_spec b t from to w :
  hash_wf t ->
  wp b (copy_object (dom t) t from to) (fun r w' => grow t to w w' /\ match r with
    | Ok _ => verified w' t to
    | Throws e => err_status e = 0 /\ fails b (copyable t from to w)
    end) w.
Proof.
  intros [h Wf]. destruct (normalizedHash_ok _ _ Wf) as [-> T].
  assert (G0 : grow t to w w) by by left.
  unfold copy_object, fails, copyable. wp_step.
  eapply wp_mono; [apply getStream_spec|]. intros [g|e] w' [-> Hg]; cbn.
  2: { split; [done|]. destruct Hg as [He [Hf|Hf]]; (split; [done|]); [by left|right].
       intros (K & _ & (bl & L & _) & _). apply Hf. eauto. }
  destruct Hg as [L Z]. do 2 wp_step. unfold assertExpectedSize.
  destruct (Z.eqb_spec (stream_size g) (byteSize t)) as [S|S].
  2: { split; [done|]. split; [done|]. right. intros (_ & _ & (bl & L' & _ & Hs) & _). congruence. }
  do 2 wp_step. unfold toSafeNumber.
  destruct (_ || _) eqn:Rg.
  { split; [done|]. split; [done|]. right. intros (_ & _ & _ & _ & B). bool_simpl. lia. }
  wp_step. set (inp := {| put_key := to; body := stream g; expectedHashSha256 := Some (hashSha256 t);
                          maxBytes := Some (byteSize t) |}).
  apply wp_on_store.
  - intros f s E. destruct (put_ok _ _ _ _ E) as (bl & -> & Hb & Hh & Hz & Hs & He).
    specialize (He (hashSha256 t) eq_refl T).
    assert (G : grow t to w (set_store (dom t) (<[to := bl]> (store_of (dom t) w)) w)
                /\ (size f = byteSize t -> good t bl)
                /\ (store_of (dom t) w !! to = None -> size f = byteSize t)).
    { assert (Gd : size f = byteSize t -> good t bl).
      { intros F. split; [by rewrite Wf, He|]. by rewrite <- Hz. }
      assert (Fr : store_of (dom t) w !! to = None -> size f = byteSize t).
      { intros N. destruct Hb as [[_ ->]|Hb]; [|simpl in Hb; congruence]. rewrite Hz, <- S, Z. done. }
      split; [|auto]. destruct Hb as [[N _]|Hb].
      - right. split; [done|]. exists bl. auto.
      - left. simpl in Hb. by rewrite insert_id, set_store_id. }
    destruct G as (G & Gd & Fr). split.
    + wp_step. destruct (Z.eqb_spec (size f) (byteSize t)) as [F|F].
      * split; [done|]. exists bl. split; [|auto]. by rewrite store_of_set, lookup_insert_eq.
      * split; [done|]. split; [done|]. right. intros (_ & _ & _ & N & _). auto.
    + intros B. split; [done|]. auto.
  - intros e E. split; [done|]. split; [by eapply (storage_errors (store_of (dom t) w) to inp); auto|].
    right. intros (_ & K & (bl & L' & N & _) & L2 & B).
    rewrite L in L'. injection L' as <-. rewrite Wf in N. injection N as N.
    destruct (put_accepts (store_of (dom t) w) to (stream g) (hashSha256 t) (byteSize t)) as [f Ef];
      try done; [congruence|unfold MAX_SAFE_INTEGER in B; lia|].
    fold inp in Ef. rewrite Ef in E. done.
  - auto.
Qed.

(** ** Changes to the objects of one row *)

(** The keys of [t] are the only ones that change, and no table does. *)
Record obj_step (t : Tombstone) (w w' : World) : Prop := {
  obj_tombstones : tombstones w' = tombstones w;
  obj_uploads : uploadBatches w' = uploadBatches w;
  obj_clock : clock w' = clock w;
  obj_frame d k : ~ (d = dom t /\ (k = originalKey t \/ k = trashKey t)) ->
    store_of d w' !! k = store_of d w !! k
}.

#[export] Instance obj_step_preorder t : PreOrder (obj_step t).
Proof.
  split; [by split|]. intros w1 w2 w3 [T1 U1 C1 F1] [T2 U2 C2 F2].
  split; [congruence..|]. intros d k N. by rewrite F2, F1.
Qed.

Lemma obj_step_set t k f w :
  k = originalKey t \/ k = trashKey t ->
  (forall k', k' <> k -> f !! k' = store_of (dom t) w !! k') ->
  obj_step t w (set_store (dom t) f w).
Proof.
  intros K F. split; [done..|]. intros d k' N.
  destruct (decide (dom t = d)) as [<-|D]; [|by rewrite store_of_set_ne].
  rewrite store_of_set. apply F. intros ->. apply N. auto.
Qed.

Lemma grow_step t k w w' :
  k = originalKey t \/ k = trashKey t -> grow t k w w' ->
  obj_step t w w' /\ forall k', verified w t k' -> verified w' t k'.
Proof.
  intros K [->|(N & b & Gb & ->)]; [done|]. split.
  - apply (obj_step_set t k); [done|]. intros k' Nk. by rewrite lookup_insert_ne.
  - intros k' (b' & L & G'). exists b'. split; [|done]. rewrite store_of_set.
    rewrite lookup_insert_ne; [done|]. intros ->. congruence.
Qed.

Lemma delete_step t k w :
  k = originalKey t \/ k = trashKey t ->
  let w' := set_store (dom t) (delete k (store_of (dom t) w)) w in
  obj_step t w w' /\ store_of (dom t) w' !! k = None
  /\ forall k', k' <> k -> verified w t k' -> verified w' t k'.
Proof.
  intros K w'. subst w'. split; [|split].
  - apply (obj_step_set t k); [done|]. intros k' Nk. by rewrite lookup_delete_ne.
  - by rewrite store_of_set, lookup_delete_eq.
  - intros k' Nk (b' & L & G'). exists b'. split; [|done].
    by rewrite store_of_set, lookup_delete_ne.
Qed.

Definition keys_differ (t : Tombstone) : Prop := originalKey t <> trashKey t.

(** ** The private transitions *)

(** What [completeRetention] needs. *)
Definition retainable (t : Tombstone) (w : World) : Prop :=
  key_ok (originalKey t) = true /\ key_ok (trashKey t) = true
  /\ 0 <= byteSize t <= MAX_SAFE_INTEGER
  /\ (verified w t (trashKey t)
      \/ store_of (dom t) w !! trashKey t = None /\ verified w t (originalKey t)).

Definition removed (t : Tombstone) (k : str) (w w' : World) : Prop :=
  w' = set_store (dom t) (delete k (store_of (dom t) w)) w.

Lemma verified_is_Some w t k : verified w t k -> is_Some (store_of (dom t) w !! k).
Proof. intros (b & L & _). eauto. Qed.

Lemma completeRetention_spec b t w :
  hash_wf t ->
  wp b (completeRetention (dom t) t) (fun r w' => match r with
    | Ok _ => exists w1, grow t (trashKey t) w w1 /\ verified w1 t (trashKey t)
                         /\ removed t (originalKey t) w1 w'
    | Throws e =>
        err_status e = 0 /\ fails b (retainable t w)
        /\ exists w1, grow t (trashKey t) w w1
             /\ (w' = w1 \/ verified w1 t (trashKey t) /\ removed t (originalKey t) w1 w')
    end) w.
Proof.
  intros Wf. unfold completeRetention. wp_step.
  eapply wp_mono; [apply exists_spec|]. intros [r|e] w' [-> Hr]; cbn.
  2: { destruct Hr as [He Hf]. split; [done|]. split; [|by exists w; split; [left|left]].
       destruct Hf as [Hf|Hf]; [by left|right]. by intros (_ & K & _). }
  wp_step.
  apply wp_mono with (Q := fun r w1 => grow t (trashKey t) w w1 /\ match r with
    | Ok _ => verified w1 t (trashKey t)
    | Throws e => err_status e = 0 /\ fails b (retainable t w) end).
  { subst r. case_bool_decide as Ex.
    - wp_step. eapply wp_mono; [apply inspect_row_spec|]. intros [m|e] w' [-> Hm]; cbn.
      + wp_step. split; [by left|done].
      + split; [by left|]. destruct Hm as [He [Hf|Hf]]; (split; [done|]); [by left|right].
        intros (_ & K & _ & [V|[N _]]); [by apply Hf|]. rewrite N in Ex. by destruct Ex.
    - eapply wp_mono; [by apply copy_spec|]. intros [u|e] w' [G Hm]; (split; [done|]); [done|].
      destruct Hm as [He [Hf|Hf]]; (split; [done|]); [by left|right].
      intros (K1 & K2 & B & [V|[N V]]).
      + by apply Ex, verified_is_Some.
      + by apply Hf. }
  intros [u|e] w1 [G Hu]; cbn.
  2: { destruct Hu as [He Hf]. split; [done|]. split; [done|]. exists w1. auto. }
  wp_step. eapply wp_mono; [apply inspect_row_spec|]. intros [m|e] w' [-> Hm]; cbn.
  2: { destruct Hm as [He Hf]. split; [done|]. split; [|exists w1; auto].
       destruct Hf as [Hf|Hf]; [by left|right]. intros (K1 & K2 & B & V). by apply Hf. }
  wp_step. eapply wp_mono; [apply delete_spec|]. intros [r2|e] w' Hd; cbn.
  2: { destruct Hd as (Hw & He & Hf). split; [done|]. split; [|exists w1; split; [done|]].
       - destruct Hf as [Hf|Hf]; [by left|right]. by intros (K & _).
       - destruct Hw as [-> | ->]; [by left|right]. done. }
  destruct Hd as [-> Hr2].
  assert (Rm : removed t (originalKey t) w1
                 (set_store (dom t) (delete (originalKey t) (store_of (dom t) w1)) w1)) by done.
  destruct r2; [wp_step; eauto 10|]. wp_step.
  eapply wp_mono; [apply exists_spec|]. intros [r3|e] w' [-> HE]; cbn.
  - subst r3. rewrite store_of_set, lookup_delete_eq. cbn. wp_step. eauto 10.
  - destruct HE as [He Hf]. split; [done|]. split; [|eauto 10].
    destruct Hf as [Hf|Hf]; [by left|right]. by intros (K & _).
Qed.

Lemma ensureActiveCopy_spec b t w :
  hash_wf t ->
  wp b (ensureActiveCopy (dom t) t) (fun r w' => grow t (originalKey t) w w' /\ match r with
    | Ok _ => verified w' t (originalKey t)
    | Throws e => err_status e = 0
    end) w.
Proof.
  intros Wf. unfold ensureActiveCopy. wp_step.
  eapply wp_mono; [apply exists_spec|]. intros [r|e] w' [-> Hr]; cbn.
  2: { split; [by left|tauto]. }
  destruct r; wp_step.
  - eapply wp_mono; [apply inspect_row_spec|]. intros [m|e] w' [-> Hm]; cbn.
    + wp_step. split; [by left|done].
    + split; [by left|tauto].
  - eapply wp_mono; [by apply copy_spec|]. intros [u|e] w1 [G Hm]; cbn.
    2: { split; [done|tauto]. }
    wp_step. eapply wp_mono; [apply inspect_row_spec|]. intros [m|e] w' [-> Hm']; cbn.
    + by wp_step.
    + split; [done|tauto].
Qed.

End objects.
