(* ===== verification/TombstoneRows.v ===== *)
(** * The rows of the tombstone table

    The columns no operation changes, the steps that keep the verified copy of
    a row ([safe_step]), and the transactions of [retain] as such steps. *)

From S2P Require Import Prelude JsNumber JsString StorageKey FileStorage SecurityAudit Effects.
From S2P Require Import Tombstone TombstoneObjects.

Local Open Scope Z_scope.

Section rows.
Context `{FileStorageLaws} `{!IcuLaws} (config : StorageConfig).

(** ** Rows *)

(** The columns no operation changes. *)
Definition identity (t : Tombstone) :=
  (t_id t, t_domain t, t_provider t, originalKey t, trashKey t, hashSha256 t, byteSize t,
   businessRecordId t).

Lemma identity_fields t u :
  identity t = identity u ->
  t_id t = t_id u /\ t_domain t = t_domain u /\ t_provider t = t_provider u
  /\ originalKey t = originalKey u /\ trashKey t = trashKey u /\ hashSha256 t = hashSha256 u
  /\ byteSize t = byteSize u /\ businessRecordId t = businessRecordId u /\ dom t = dom u.
Proof. unfold identity, dom. intros [= -> -> -> -> -> -> -> ->]. repeat split. Qed.

Lemma identity_good t u b : identity t = identity u -> good t b <-> good u b.
Proof. intros (_ & _ & _ & _ & _ & E1 & E2 & _)%identity_fields. unfold good. by rewrite E1, E2. Qed.

Lemma identity_verified w t u k : identity t = identity u -> verified w t k -> verified w u k.
Proof.
  intros E (b & L & G). exists b. split; [|by apply (identity_good _ _ _ E)].
  apply identity_fields in E as (_ & _ & _ & _ & _ & _ & _ & _ & <-). done.
Qed.

Lemma identity_safe w t u : identity t = identity u -> safe_copy w t -> safe_copy w u.
Proof.
  intros E S. destruct (identity_fields t u E) as (_ & _ & _ & E4 & E5 & _).
  destruct S as [V|V]; apply (identity_verified _ _ _ _ E) in V;
    [left; by rewrite <- E4|right; by rewrite <- E5].
Qed.

Definition row_wf (t : Tombstone) : Prop :=
  hash_wf t /\ trashKey t = trash_prefix ++ t_id t
  /\ starts_with trash_prefix (originalKey t) = false.

Lemma row_wf_keys t : row_wf t -> keys_differ t.
Proof.
  intros (_ & T & S) E. rewrite E, T, starts_with_app in S. done.
Qed.

Lemma identity_wf t u : identity t = identity u -> row_wf t -> row_wf u.
Proof.
  intros (E1 & _ & _ & E4 & E5 & E6 & _)%identity_fields. unfold row_wf, hash_wf.
  by rewrite E1, E4, E5, E6.
Qed.

(** A step that changes neither whether a row is purged nor whether the
    object of [t] has a copy, nor any object of another row. *)
Record safe_step (t : Tombstone) (w w' : World) : Prop := {
  step_rows : exists f, tombstones w' = map f (tombstones w)
    /\ forall u, u ∈ tombstones w ->
         identity (f u) = identity u /\ (state (f u) = PURGED <-> state u = PURGED);
  step_uploads : uploadBatches w' = uploadBatches w;
  step_clock : clock w' = clock w;
  step_frame d k : ~ (d = dom t /\ (k = originalKey t \/ k = trashKey t)) ->
    store_of d w' !! k = store_of d w !! k;
  step_safe : safe_copy w t -> safe_copy w' t
}.

#[export] Instance safe_step_preorder t : PreOrder (safe_step t).
Proof.
  split.
  - intros w. split; try done. exists (fun u => u). split; [by rewrite map_id|done].
  - intros w1 w2 w3 [(f & Ef & Hf) U1 C1 F1 S1] [(g & Eg & Hg) U2 C2 F2 S2].
    split; [|congruence|congruence|intros d k N; by rewrite F2, F1|auto].
    exists (fun u => g (f u)). split; [by rewrite Eg, Ef, map_map|].
    intros u Hu. destruct (Hf u Hu) as [I P].
    destruct (Hg (f u)) as [I' P']; [rewrite Ef; by apply list_elem_of_fmap_2|].
    split; [congruence|]. by rewrite P'.
Qed.

Lemma obj_safe_step t w w' :
  obj_step t w w' -> (safe_copy w t -> safe_copy w' t) -> safe_step t w w'.
Proof.
  intros [T U C F] S. split; try done. exists (fun u => u). split; [by rewrite map_id|done].
Qed.

Lemma store_of_rollback d w w' : store_of d (rollback w w') = store_of d w'.
Proof. by destruct d. Qed.

Lemma verified_stores w w' t k :
  store_of (dom t) w = store_of (dom t) w' -> verified w t k <-> verified w' t k.
Proof. intros E. unfold verified. by rewrite E. Qed.

Lemma safe_stores w w' t : store_of (dom t) w = store_of (dom t) w' -> safe_copy w t <-> safe_copy w' t.
Proof. intros E. unfold safe_copy. by rewrite !(verified_stores w w' t _ E). Qed.

Lemma safe_step_rollback t w w' : safe_step t w w' -> safe_step t w (rollback w w').
Proof.
  intros [R U C F S]. split.
  - exists (fun u => u). split; [by rewrite map_id|done].
  - done.
  - done.
  - intros d k N. rewrite store_of_rollback. auto.
  - rewrite (safe_stores (rollback w w') w') by apply store_of_rollback. done.
Qed.

Lemma safe_step_grow t k w w' :
  k = originalKey t \/ k = trashKey t -> grow t k w w' -> safe_step t w w'.
Proof.
  intros K G. destruct (grow_step t k w w' K G) as [O V]. apply obj_safe_step; [done|].
  intros [S|S]; apply V in S; [by left|by right].
Qed.

Lemma safe_step_remove_original t w w' :
  keys_differ t -> verified w t (trashKey t) -> removed t (originalKey t) w w' -> safe_step t w w'.
Proof.
  intros D V ->. destruct (delete_step t (originalKey t) w (or_introl eq_refl)) as (O & _ & Kp).
  apply obj_safe_step; [done|]. intros _. right. by apply Kp.
Qed.

Lemma safe_step_remove_trash t w w' :
  keys_differ t -> verified w t (originalKey t) -> removed t (trashKey t) w w' -> safe_step t w w'.
Proof.
  intros D V ->. destruct (delete_step t (trashKey t) w (or_intror eq_refl)) as (O & _ & Kp).
  apply obj_safe_step; [done|]. intros _. left. by apply Kp.
Qed.

(** The table holds the row of [t], found by its id. *)
Definition known (t : Tombstone) (w : World) : Prop :=
  NoDup (map t_id (tombstones w)) /\ exists u, u ∈ tombstones w /\ identity u = identity t.

Lemma NoDup_ids_eq (l : list Tombstone) t u :
  NoDup (map t_id l) -> t ∈ l -> u ∈ l -> t_id t = t_id u -> t = u.
Proof.
  induction l as [|x l IH]; simpl; [by intros _ ?%not_elem_of_nil|].
  intros [N D]%NoDup_cons. rewrite !elem_of_cons. intros [->|Ht] [->|Hu] E; auto.
  - exfalso. apply N. rewrite E. by apply list_elem_of_fmap_2.
  - exfalso. apply N. rewrite <- E. by apply list_elem_of_fmap_2.
Qed.

Lemma has_id_true id t : has_id id t = true <-> t_id t = id.
Proof. apply bool_decide_eq_true. Qed.

Lemma find_id_some id l t : List.find (has_id id) l = Some t -> t ∈ l /\ t_id t = id.
Proof.
  intros (l1 & l2 & -> & Hx & _)%find_some_iff. split; [|by apply has_id_true].
  apply elem_of_app. right. apply list_elem_of_here.
Qed.

Lemma find_id_known t w :
  known t w -> exists u, List.find (has_id (t_id t)) (tombstones w) = Some u
    /\ u ∈ tombstones w /\ identity u = identity t.
Proof.
  intros [D (u & Hu & E)]. destruct (List.find (has_id (t_id t)) (tombstones w)) as [v|] eqn:Fd.
  - apply find_id_some in Fd as [Hv Ev]. exists v. split; [done|]. split; [done|].
    apply identity_fields in E as Ei. destruct Ei as [Ei _].
    rewrite (NoDup_ids_eq _ v u D Hv Hu) by congruence. done.
  - exfalso. rewrite find_none_iff in Fd. specialize (Fd u Hu).
    apply not_true_iff_false in Fd. apply Fd, has_id_true. by apply identity_fields in E as [-> _].
Qed.

Lemma map_ids_step t w w' :
  safe_step t w w' -> map t_id (tombstones w') = map t_id (tombstones w).
Proof.
  intros [(f & -> & Hf) _ _ _ _]. rewrite map_map. apply map_ext_in. intros u Hu.
  apply list_elem_of_In in Hu. destruct (Hf u Hu) as [I _]. by apply identity_fields in I as [-> _].
Qed.

Lemma known_step t u w w' : safe_step u w w' -> known t w -> known t w'.
Proof.
  intros St [D (v & Hv & E)]. split; [by rewrite (map_ids_step _ _ _ St)|].
  destruct St as [(f & Ef & Hf) _ _ _ _]. exists (f v). rewrite Ef.
  split; [by apply list_elem_of_fmap_2|]. destruct (Hf v Hv) as [-> _]. done.
Qed.

(** A change of the columns of one row. *)
Definition updated (id : str) (g : Tombstone -> Tombstone) (w : World) : World :=
  set_tombstones (map (fun t => if has_id id t then g t else t) (tombstones w)) w.

Lemma updated_step t u g w :
  NoDup (map t_id (tombstones w)) -> u ∈ tombstones w ->
  identity (g u) = identity u -> (state (g u) = PURGED <-> state u = PURGED) ->
  safe_step t w (updated (t_id u) g w).
Proof.
  intros D Hu I P. split; try done.
  eexists. split; [done|]. intros v Hv. cbn. destruct (has_id (t_id u) v) eqn:E; [|done].
  apply has_id_true in E. by rewrite (NoDup_ids_eq _ v u D Hv Hu).
Qed.

Lemma updated_elem u g w : u ∈ tombstones w -> g u ∈ tombstones (updated (t_id u) g w).
Proof.
  intros Hu. apply list_elem_of_fmap. exists u. split; [|done].
  replace (has_id (t_id u) u) with true; [done|]. symmetry. by apply has_id_true.
Qed.

Lemma update_spec b id g w u :
  List.find (has_id id) (tombstones w) = Some u ->
  wp b (update id g) (fun r w' => match r with
    | Ok v => v = g u /\ w' = updated id g w
    | Throws e => (w' = w \/ w' = updated id g w) /\ err_status e = 0 /\ b = true
    end) w.
Proof.
  intros Fd. apply wp_effect; unfold run_post; rewrite ?Fd; auto.
Qed.

(** ** Retention *)

Lemma fence_spec b id w :
  wp b (acquireTombstoneTransitionFence id)
    (fun r w' => w' = w /\ match r with Ok _ => True | Throws e => err_status e = 0 /\ b = true end) w.
Proof.
  unfold acquireTombstoneTransitionFence.
  wp_step. apply wp_io; [|auto]. wp_step. apply wp_io; [|auto]. apply wp_io; auto.
Qed.

Lemma require_spec b id w :
  wp b (requireTombstone id) (fun r w' => w' = w /\ match r with
    | Ok u => List.find (has_id id) (tombstones w) = Some u
    | Throws e => List.find (has_id id) (tombstones w) = None
                  \/ err_status e = 0 /\ b = true
    end) w.
Proof.
  unfold requireTombstone. wp_step. apply wp_effect; cbn; [|intros; auto].
  split; [|auto]. destruct (List.find (has_id id) (tombstones w)) eqn:E; wp_step; auto.
Qed.

(** A transaction whose body takes safe steps, kept or rolled back, is one. *)
Lemma wp_safe_transaction b t {A} (m : M World RacedRow A) (P : A -> World -> Prop) (C : Prop) w :
  wp b m (fun r w' => safe_step t w w' /\ match r with Ok a => P a w' | Throws _ => fails b C end) w ->
  wp b (transaction rollback m)
    (fun r w' => safe_step t w w' /\ match r with Ok a => P a w' | Throws _ => fails b C end) w.
Proof.
  intros Hm. wp_step. eapply wp_mono; [exact Hm|]. intros [a|e] w' [S Hr]; cbn.
  - split; [done|]. intros ->. split; (split; [|by left]); [done|by apply safe_step_rollback].
  - split; [by apply safe_step_rollback|done].
Qed.

Definition agrees (t : Tombstone) (resolved : ResolvedObject) (h : str) : Prop :=
  t_provider t = r_provider resolved /\ originalKey t = r_key resolved /\ hashSha256 t = h
  /\ dom t = r_storage resolved.

Lemma str_eqb_refl s : str_eqb s s = true.
Proof. by apply bool_decide_eq_true. Qed.

Lemma assertSame_ok t u resolved h :
  identity u = identity t -> agrees t resolved h ->
  assertSameRetentionObject u t resolved h = Ok tt.
Proof.
  intros (_ & _ & E3 & E4 & E5 & E6 & E7 & _)%identity_fields (A1 & A2 & A3 & _).
  unfold assertSameRetentionObject. rewrite E3, E4, E5, E6, E7, A1, A2, A3.
  by rewrite !str_eqb_refl, Z.eqb_refl.
Qed.

(** The object of [t] is in the trash under a row in state RETAINED. *)
Definition retained (t : Tombstone) (res : SafeResult) (w : World) : Prop :=
  exists u, u ∈ tombstones w /\ identity u = identity t /\ state u = RETAINED
    /\ res = safeResult u /\ verified w t (trashKey t)
    /\ store_of (dom t) w !! originalKey t = None.

Lemma completeRetention_safe b t u w :
  row_wf t -> identity u = identity t ->
  wp b (completeRetention (dom t) u) (fun r w' => safe_step t w w' /\ tombstones w' = tombstones w
    /\ match r with
       | Ok _ => verified w' t (trashKey t) /\ store_of (dom t) w' !! originalKey t = None
       | Throws e => fails b (retainable t w)
       end) w.
Proof.
  intros Wf I. assert (D : keys_differ t) by by apply row_wf_keys.
  assert (E : completeRetention (dom t) u = completeRetention (dom t) t).
  { destruct (identity_fields _ _ I) as (_ & _ & _ & E4 & E5 & E6 & E7 & _).
    unfold completeRetention, inspect_trash, copy_object. by rewrite E4, E5, E6, E7. }
  rewrite E. eapply wp_mono; [apply completeRetention_spec, Wf|]. intros [[]|e] w'.
  - intros (w1 & G & V & Rm).
    destruct (grow_step t _ _ _ (or_intror eq_refl) G) as [O _].
    destruct (delete_step t (originalKey t) w1 (or_introl eq_refl)) as (O2 & N & Kp).
    split; [etransitivity; [eapply safe_step_grow, G; by right|by apply safe_step_remove_original]|].
    unfold removed in Rm. subst w'. split; [by rewrite (obj_tombstones _ _ _ O2), (obj_tombstones _ _ _ O)|].
    split; [by apply Kp|done].
  - intros (_ & Hf & w1 & G & Hw).
    destruct (grow_step t _ _ _ (or_intror eq_refl) G) as [O _].
    assert (S : safe_step t w w1) by (eapply safe_step_grow, G; by right).
    destruct Hw as [-> | [V Rm]].
    + split; [done|]. split; [by apply O|done].
    + split; [etransitivity; [exact S|by apply safe_step_remove_original]|].
      destruct (delete_step t (originalKey t) w1 (or_introl eq_refl)) as (O2 & _).
      unfold removed in Rm. subst w'.
      split; [by rewrite (obj_tombstones _ _ _ O2), (obj_tombstones _ _ _ O)|done].
Qed.

(** Setting the state of the row found for [t], not purged before or after. *)
Lemma update_safe b t u g w :
  known t w -> u ∈ tombstones w -> identity u = identity t ->
  identity (g u) = identity u -> (state (g u) = PURGED <-> state u = PURGED) ->
  wp b (update (t_id u) g) (fun r w' => safe_step t w w' /\ match r with
    | Ok v => v = g u /\ g u ∈ tombstones w' /\ w' = updated (t_id u) g w
    | Throws _ => b = true
    end) w.
Proof.
  intros K Hu I Ig P. destruct (identity_fields _ _ I) as [Ei _].
  destruct (find_id_known t w K) as (v & Fd & Hv & Iv).
  assert (v = u) as ->.
  { apply (NoDup_ids_eq _ v u (proj1 K) Hv Hu). apply identity_fields in Iv as [-> _]. done. }
  rewrite <- Ei in Fd.
  assert (St : safe_step t w (updated (t_id u) g w)) by (apply updated_step; try done; apply K).
  eapply wp_mono; [by apply update_spec|]. intros [x|e] w'.
  - intros [-> ->]. split; [done|]. split; [done|]. split; [by apply updated_elem|done].
  - intros (Hw & _ & B). split; [by destruct Hw as [-> | ->]|done].
Qed.

(** When the transition of [retain] cannot fail by itself. *)
Definition transition_ready (t : Tombstone) (w : World) : Prop :=
  retainable t w /\ (exists d, retentionDays config = Ok d)
  /\ forall u, u ∈ tombstones w -> identity u = identity t -> state u <> PURGED.

Lemma verified_set_tombstones w t k f :
  verified w t k -> verified (set_tombstones f w) t k.
Proof. unfold verified. by destruct (dom t). Qed.

Lemma store_updated d id g w : store_of d (updated id g w) = store_of d w.
Proof. by destruct d. Qed.

Lemma retainable_stores t w w' :
  store_of (dom t) w = store_of (dom t) w' -> retainable t w <-> retainable t w'.
Proof. intros E. unfold retainable, verified. by rewrite E. Qed.

Lemma finish_retention b t u w0 w :
  row_wf t -> known t w -> u ∈ tombstones w -> identity u = identity t -> state u <> PURGED ->
  safe_step t w0 w ->
  wp b (let* _ := completeRetention (dom t) u in
        let* r := update (t_id u) (set_state RETAINED None) in ret (safeResult r))
    (fun r w' => safe_step t w0 w' /\ match r with
       | Ok res => retained t res w' /\ res = safeResult (set_state RETAINED None u)
       | Throws _ => fails b (retainable t w)
       end) w.
Proof.
  intros Wf K Hu I NP S0. wp_step.
  eapply wp_mono; [by apply completeRetention_safe|]. intros [[]|e] w1 (S1 & T1 & Hr); cbn.
  2: { split; [by etransitivity|done]. }
  wp_step. eapply wp_mono.
  { apply (update_safe b t u); [by eapply known_step|by rewrite T1|done|done|]. by destruct u. }
  intros [v|e] w2 [S2 Hv]; cbn.
  2: { split; [by do 2 (etransitivity; [eassumption|])|]. by left. }
  destruct Hv as (-> & Hin & ->). wp_step. destruct Hr as [V N].
  split; [by do 2 (etransitivity; [eassumption|])|]. split; [|done]. exists (set_state RETAINED None u).
  by repeat split.
Qed.

Lemma retain_transition_spec b t resolved h w :
  row_wf t -> known t w -> agrees t resolved h ->
  wp b (retain_transition config t resolved h) (fun r w' => safe_step t w w' /\ match r with
    | Ok res => retained t res w'
                /\ (t ∈ tombstones w -> state t = PENDING ->
                    res = safeResult (set_state RETAINED None t))
    | Throws _ => fails b (transition_ready t w)
    end) w.
Proof.
  intros Wf K Ag. unfold retain_transition. apply wp_safe_transaction.
  destruct (find_id_known t w K) as (u & Fd & Hu & I).
  assert (Eu : t ∈ tombstones w -> u = t).
  { intros Ht. apply (NoDup_ids_eq _ u t (proj1 K) Hu Ht). by apply identity_fields in I as [-> _]. }
  assert (R0 : safe_step t w w) by reflexivity.
  wp_step. eapply wp_mono; [apply fence_spec|]. intros [[]|e] w' [-> Hf]; cbn.
  2: { split; [done|]. left. tauto. }
  wp_step. eapply wp_mono; [apply require_spec|]. intros [v|e] w' [-> Hv]; cbn.
  2: { split; [done|]. left. destruct Hv as [Hv|Hv]; [congruence|tauto]. }
  rewrite Fd in Hv. injection Hv as <-. do 2 wp_step.
  rewrite (assertSame_ok t u resolved h I Ag). destruct Ag as (_ & _ & _ & <-).
  case_decide as C1.
  { wp_step. eapply wp_mono; [by apply completeRetention_safe|].
    intros [[]|e] w1 (S1 & T1 & Hr); cbn.
    - wp_step. split; [done|]. split; [exists u; rewrite T1; tauto|].
      intros Ht Sp. rewrite (Eu Ht) in C1. congruence.
    - split; [done|]. destruct Hr as [?|Hr]; [by left|right]. intros [? _]. by apply Hr. }
  case_decide as C2.
  { wp_step. split; [done|]. right. intros (_ & _ & NP). by apply (NP u). }
  wp_step. apply wp_mono with (Q := fun r w1 => safe_step t w w1 /\ match r with
       | Ok v => v ∈ tombstones w1 /\ identity v = identity t /\ state v <> PURGED
                 /\ store_of (dom t) w1 = store_of (dom t) w
                 /\ (state u <> RESTORED -> v = u)
       | Throws _ => fails b (transition_ready t w)
       end).
  { case_decide as C3; [|wp_step; done]. unfold new_Date. do 4 wp_step. unfold retention_end.
    destruct (retentionDays config) as [d|e] eqn:Rd; cbn.
    2: { split; [done|]. right. intros (_ & [d Hd] & _). congruence. }
    eapply wp_mono; [apply (update_safe b t u); try done; by rewrite C3|].
    intros [v|e] w1 [S1 Hv]; (split; [done|]); [|by left].
    destruct Hv as (-> & Hin & ->). rewrite store_updated. done. }
  intros [v|e] w1 [S1 Hv]; cbn; [|done]. destruct Hv as (Hv & Iv & NP & Es & Vu).
  eapply wp_mono.
  { eapply finish_retention; try done. by eapply known_step. }
  intros [r|e] w2 [S2 Hr]; (split; [done|]).
  { destruct Hr as [Hr ->]. split; [done|]. intros Ht Sp. rewrite <- (Eu Ht) in Sp |- *.
    rewrite Vu; [done|]. congruence. }
  destruct Hr as [?|Hr]; [by left|right]. intros [? _]. apply Hr. by apply (retainable_stores t w1 w).
Qed.

(** ** Compensation *)

Definition original_copy (t : Tombstone) (w : World) : Prop := verified w t (originalKey t).

Lemma ensureActiveCopy_safe b t u w :
  row_wf t -> identity u = identity t ->
  wp b (ensureActiveCopy (dom t) u) (fun r w' => safe_step t w w' /\ tombstones w' = tombstones w
    /\ match r with Ok _ => original_copy t w' | Throws _ => True end) w.
Proof.
  intros Wf I.
  assert (E : ensureActiveCopy (dom t) u = ensureActiveCopy (dom t) t).
  { destruct (identity_fields _ _ I) as (_ & _ & _ & E4 & E5 & E6 & E7 & _).
    unfold ensureActiveCopy, inspect_original, copy_object. by rewrite E4, E5, E6, E7. }
  rewrite E. eapply wp_mono; [apply ensureActiveCopy_spec, Wf|]. intros [[]|e] w' [G Hr].
  - destruct (grow_step t _ _ _ (or_introl eq_refl) G) as [O _].
    split; [eapply safe_step_grow, G; by left|]. split; [by apply O|done].
  - destruct (grow_step t _ _ _ (or_introl eq_refl) G) as [O _].
    split; [eapply safe_step_grow, G; by left|]. split; [by apply O|done].
Qed.

Lemma reconcile_spec t resolved h w :
  row_wf t -> known t w -> agrees t resolved h ->
  wp true (reconcileRetentionFailure t resolved h) (fun r w' => safe_step t w w' /\ match r with
    | Ok (COMMITTED res) => retained t res w'
    | Ok ROLLED_BACK => original_copy t w'
    | Throws _ => True
    end) w.
Proof.
  intros Wf K Ag. unfold reconcileRetentionFailure.
  eapply wp_mono.
  { apply (wp_safe_transaction true t _ (fun r w' => match r with
      | COMMITTED res => retained t res w' | ROLLED_BACK => original_copy t w' end) True).
    destruct (find_id_known t w K) as (u & Fd & Hu & I).
    assert (R0 : safe_step t w w) by reflexivity.
    assert (F0 : fails true True) by by left.
    wp_step. eapply wp_mono; [apply fence_spec|]. intros [[]|e] w' [-> Hf]; cbn; [|done].
    wp_step. eapply wp_mono; [apply require_spec|]. intros [v|e] w' [-> Hv]; cbn; [|done].
    rewrite Fd in Hv. injection Hv as <-. do 2 wp_step.
    rewrite (assertSame_ok t u resolved h I Ag). destruct Ag as (_ & _ & _ & <-).
    case_decide as C1.
    { wp_step. eapply wp_mono; [by apply completeRetention_safe|].
      intros [[]|e] w1 (S1 & T1 & Hr); cbn; [|done].
      wp_step. split; [done|]. exists u. rewrite T1. tauto. }
    case_decide as C2; [by wp_step|].
    wp_step. eapply wp_mono; [by apply ensureActiveCopy_safe|].
    intros [[]|e] w1 (S1 & T1 & V1); cbn; [|done].
    destruct (identity_fields _ _ I) as (_ & _ & _ & E4 & E5 & _). rewrite E5.
    assert (D : keys_differ t) by by apply row_wf_keys.
    wp_step. eapply wp_mono; [apply delete_spec|]. intros [r|e] w2 Hd; cbn.
    2: { split; [|done]. destruct Hd as [[-> | ->] _]; [done|].
         etransitivity; [done|]. by apply safe_step_remove_trash. }
    destruct Hd as [Rm _].
    assert (S2 : safe_step t w w2) by (etransitivity; [done|by apply safe_step_remove_trash]).
    assert (T2 : tombstones w2 = tombstones w) by (rewrite Rm; by destruct (dom t)).
    assert (V2 : original_copy t w2).
    { destruct (delete_step t (trashKey t) w1 (or_intror eq_refl)) as (_ & _ & Kp). subst w2.
      by apply Kp. }
    wp_step. apply wp_mono with (Q := fun _ w3 => w3 = w2).
    { destruct r; [by wp_step|]. wp_step. eapply wp_mono; [apply exists_spec|].
      intros [r|e] w3 [-> _]; cbn; [|done]. by destruct r; wp_step. }
    intros [[]|e] w3 ->; cbn; [|done]. unfold inspect_original. wp_step.
    rewrite E4. eapply wp_mono.
    { apply (inspect_spec true (dom t)). }
    intros [m|e] w3 [-> _]; cbn; [|done]. unfold new_Date. do 3 wp_step.
    eapply wp_mono.
    { apply (update_safe true t u); [by eapply known_step|by rewrite T2|done|by destruct u|].
      split; [by intros [=]|done]. }
    intros [v|e] w3 [S3 Hv]; cbn; [|split; [by etransitivity|done]].
    wp_step. split; [by etransitivity|]. destruct Hv as (_ & _ & ->).
    unfold original_copy. by apply verified_set_tombstones. }
  intros [[res|]|e] w'; tauto.
Qed.

End rows.
