(* ===== verification/TombstoneSafety.v ===== *)
(** * What the storage tombstones guarantee

    Theorems about the service of [Tombstone]: under every pattern of failing
    calls the object of a row that is not purged keeps a copy whose hash and
    size are verified, at its original or at its trash key; an outcome reported
    to the caller is true; only an authorised purge destroys an object; and
    retaining and then restoring an object puts every object back. *)

From S2P Require Import Prelude JsNumber JsString StorageKey FileStorage SecurityAudit Effects.
From S2P Require Import Tombstone TombstoneObjects TombstoneRows.

Local Open Scope Z_scope.

Section safety.
Context `{FileStorageLaws} `{!IcuLaws} `{KR : KeyRecords} (config : StorageConfig) (uuid : nat -> str).

(** ** The invariant *)

(** The key of a row is one of the row's business record. *)
Definition own_row (t : Tombstone) : Prop := key_record (dom t) (originalKey t) = businessRecordId t.

Lemma identity_own t u : identity u = identity t -> own_row t -> own_row u.
Proof. unfold own_row. by intros (_ & _ & _ & -> & _ & _ & _ & -> & ->)%identity_fields. Qed.

(** [destroyed] lists the rows whose purge was authorised and begun. *)
Record Inv (destroyed : list str) (w : World) : Prop := {
  inv_ids : NoDup (map t_id (tombstones w));
  inv_wf t : t ∈ tombstones w -> row_wf t;
  inv_owner t : t ∈ tombstones w -> own_row t;
  inv_keys t u : t ∈ tombstones w -> u ∈ tombstones w -> dom t = dom u ->
    originalKey t = originalKey u -> t = u;
  inv_safe t : t ∈ tombstones w -> state t <> PURGED -> t_id t ∉ destroyed -> safe_copy w t
}.

Lemma starts_with_inj (p r r' : str) : p ++ r = p ++ r' -> r = r'.
Proof. apply app_inv_head. Qed.

(** Different rows have different keys. *)
Lemma keys_disjoint D w t u k :
  Inv D w -> t ∈ tombstones w -> u ∈ tombstones w -> t <> u ->
  k = originalKey u \/ k = trashKey u ->
  ~ (dom u = dom t /\ (k = originalKey t \/ k = trashKey t)).
Proof.
  intros I Ht Hu N Hk [Dm Hk'].
  destruct (inv_wf _ _ I t Ht) as (_ & Tt & St). destruct (inv_wf _ _ I u Hu) as (_ & Tu & Su).
  destruct Hk as [-> | ->], Hk' as [E|E].
  - by apply N, (inv_keys _ _ I).
  - rewrite E, Tt, starts_with_app in Su. done.
  - rewrite <- E, Tu, starts_with_app in St. done.
  - rewrite Tt, Tu in E. apply starts_with_inj in E.
    by apply N, (NoDup_ids_eq (tombstones w)); [apply I| | |].
Qed.

Lemma safe_frame w w' u :
  (forall k, k = originalKey u \/ k = trashKey u -> store_of (dom u) w' !! k = store_of (dom u) w !! k) ->
  safe_copy w u -> safe_copy w' u.
Proof.
  intros F [(b & L & G)|(b & L & G)]; [left|right]; exists b; (split; [|done]); rewrite F; auto.
Qed.

Lemma Inv_step D t w w' : Inv D w -> known t w -> safe_step t w w' -> Inv D w'.
Proof.
  intros I [_ (v & Hv & Ev)] St. pose proof (map_ids_step _ _ _ St) as Ids.
  destruct St as [(f & Ef & Hf) _ _ Fr Sf].
  assert (Hin : forall x, x ∈ tombstones w' -> exists u, u ∈ tombstones w /\ x = f u).
  { intros x. rewrite Ef. intros (u & -> & Hu)%list_elem_of_fmap. eauto. }
  split.
  - rewrite Ids. apply I.
  - intros x (u & Hu & ->)%Hin. destruct (Hf u Hu) as [E _].
    eapply identity_wf; [symmetry; exact E|]. by apply (inv_wf _ _ I).
  - intros x (u & Hu & ->)%Hin. destruct (Hf u Hu) as [E _].
    eapply identity_own; [exact E|]. by apply (inv_owner _ _ I).
  - intros x y (u & Hu & ->)%Hin (u' & Hu' & ->)%Hin.
    destruct (Hf u Hu) as [(_ & _ & _ & -> & _ & _ & _ & _ & ->)%identity_fields _].
    destruct (Hf u' Hu') as [(_ & _ & _ & -> & _ & _ & _ & _ & ->)%identity_fields _].
    intros E1 E2. f_equal. by apply (inv_keys _ _ I).
  - intros x (u & Hu & ->)%Hin. destruct (Hf u Hu) as [E P].
    destruct (identity_fields _ _ E) as [-> _]. rewrite P. intros NP ND.
    apply (identity_safe w' u (f u)); [done|].
    pose proof (inv_safe _ _ I u Hu NP ND) as S.
    destruct (decide (t_id u = t_id v)) as [Eid|Nid].
    + assert (u = v) as -> by (apply (NoDup_ids_eq (tombstones w)); try done; apply I).
      eapply identity_safe; [symmetry; exact Ev|]. apply Sf. by eapply identity_safe.
    + eapply safe_frame; [|exact S]. intros k Hk. apply Fr.
      destruct (identity_fields _ _ Ev) as (_ & _ & _ & E4 & E5 & _ & _ & _ & E9).
      rewrite <- E4, <- E5, <- E9. apply (keys_disjoint D w v u); try done. by intros <-.
Qed.

(** Steps that leave rows and objects alone. *)
Lemma Inv_same D w w' :
  tombstones w' = tombstones w -> (forall d, store_of d w' = store_of d w) -> Inv D w -> Inv D w'.
Proof.
  intros T S I. split; rewrite ?T; try apply I.
  intros t Ht NP ND. rewrite (safe_stores w' w) by done. by apply I.
Qed.

Lemma is_business_iff d b t : is_business d b t = true <-> t_domain t = d /\ businessRecordId t = b.
Proof.
  unfold is_business. rewrite andb_true_iff, bool_decide_eq_true.
  unfold str_eqb. by rewrite bool_decide_eq_true.
Qed.

(** Two rows of one key are rows of one business record. *)
Lemma own_rows_business t u :
  own_row t -> own_row u -> dom u = dom t -> originalKey u = originalKey t ->
  is_business (t_domain t) (businessRecordId t) u = true.
Proof.
  unfold own_row. intros <- Ou Ed Ek. apply is_business_iff. rewrite Ed, Ek in Ou. split; [|done].
  unfold dom in Ed. by destruct (t_domain u), (t_domain t).
Qed.

(** A new row for a key of its record. *)
Lemma Inv_insert D w w' data r :
  Inv D w -> row_wf data -> safe_copy w data -> own_row data ->
  insert_row data w = Ok (r, w') ->
  Inv D w' /\ r = data /\ tombstones w' = tombstones w ++ [data]
  /\ (forall d, store_of d w' = store_of d w) /\ clock w' = clock w.
Proof.
  intros I Wf S Od. unfold insert_row. destruct (existsb _ _) eqn:V; [done|]. intros [= <- <-].
  assert (Es : forall d, store_of d (set_tombstones (tombstones w ++ [data]) w) = store_of d w)
    by by intros [|].
  split; [|done]. rewrite existsb_false_iff in V.
  assert (Own : forall u, u ∈ tombstones w -> dom u = dom data -> originalKey u = originalKey data -> False).
  { intros u Hu Ed Ek. specialize (V u Hu). unfold violates_unique in V.
    by rewrite (own_rows_business data u Od (inv_owner _ _ I u Hu) Ed Ek), orb_true_r in V. }
  split; cbn.
  - rewrite map_app. apply NoDup_app. split; [apply I|]. split; [|apply NoDup_singleton].
    intros x (u & -> & Hu)%list_elem_of_fmap Hx. apply list_elem_of_singleton in Hx.
    specialize (V u Hu). unfold violates_unique in V. bool_simpl. destruct V as [[V _] _].
    apply not_true_iff_false in V. by apply V, has_id_true.
  - intros t [Ht|Ht]%elem_of_app; [by apply (inv_wf _ _ I)|]. apply list_elem_of_singleton in Ht. by subst.
  - intros t [Ht|Ht]%elem_of_app; [by apply (inv_owner _ _ I)|]. apply list_elem_of_singleton in Ht. by subst.
  - intros t u [Ht|Ht]%elem_of_app [Hu|Hu]%elem_of_app; rewrite ?list_elem_of_singleton in *; subst.
    + by apply (inv_keys _ _ I).
    + intros E1 E2. exfalso. by eapply Own.
    + intros E1 E2. exfalso. by eapply Own.
    + done.
  - intros t [Ht|Ht]%elem_of_app NP ND.
    + rewrite (safe_stores _ w) by apply Es. by apply (inv_safe _ _ I).
    + apply list_elem_of_singleton in Ht. subst. by rewrite (safe_stores _ w) by apply Es.
Qed.

(** ** [retain] *)

Lemma hex_lower_ascii h : forallb is_hex_lower h = true -> is_ascii h = true /\ map ascii_lower h = h.
Proof.
  intros F. assert (C : forall c, is_hex_lower c = true -> (c <? 128)%N = true /\ ascii_lower c = c).
  { intros c. unfold is_hex_lower, is_digit, ascii_lower. intros Hc.
    destruct (N.leb_spec 65 c), (N.leb_spec c 90); cbn; bool_simpl; rewrite ?N.leb_le, ?N.ltb_lt in *; lia. }
  induction h as [|c h IH]; [done|]. simpl in F. apply andb_true_iff in F as [Fc F].
  destruct (C c Fc) as [C1 C2]. destruct (IH F) as [I1 I2].
  change (is_ascii (c :: h)) with ((c <? 128)%N && is_ascii h). simpl map.
  by rewrite C1, C2, I1, I2.
Qed.

Lemma normalizedHash_idem v h : normalizedHash v = Ok h -> normalizedHash h = Ok h.
Proof.
  unfold normalizedHash at 1. destruct (_ && _) eqn:E; [|done]. intros [= Eh]. subst h.
  set (h := to_lower v) in *. apply andb_true_iff in E as [L F].
  destruct (hex_lower_ascii h F) as [A M]. unfold normalizedHash.
  rewrite to_lower_ascii, M by done. by rewrite L, F.
Qed.

(** The reference of the request names a key of the business record of the
    request.  [retain] does not check it: it is how its callers make their
    references ([UploadStorage.prepared_reference]). *)
Definition own_key (input : RetainStorageObjectInput) : Prop :=
  forall r, resolveReference config (in_domain input) (in_reference input) = Ok r ->
  key_record (r_storage r) (r_key r) = in_businessRecordId input.

Definition of_input (input : RetainStorageObjectInput) (t : Tombstone) : Prop :=
  t_domain t = in_domain input /\ businessRecordId t = in_businessRecordId input.

Lemma find_business_spec b d r w :
  wp b (findByBusiness d r) (fun x w' => w' = w /\ match x with
    | Ok o => o = List.find (is_business d r) (tombstones w)
    | Throws e => err_status e = 0 /\ b = true
    end) w.
Proof. apply wp_effect; unfold run_post; auto. Qed.

Lemma find_business_some d r w t :
  List.find (is_business d r) (tombstones w) = Some t ->
  t ∈ tombstones w /\ t_domain t = d /\ businessRecordId t = r.
Proof.
  intros (l1 & l2 & E & Hb & _)%find_some_iff. rewrite E. split; [|by apply is_business_iff].
  apply elem_of_app. right. apply list_elem_of_here.
Qed.

Lemma resolveReference_storage d ref r :
  resolveReference config d ref = Ok r -> r_storage r = toStorageDomain d.
Proof.
  unfold resolveReference. intros (p & _ & E)%result_bind_ok. destruct p as [p|].
  - apply result_bind_ok in E as (_ & _ & [= <-]). done.
  - apply result_bind_ok in E as (_ & _ & E). by apply result_bind_ok in E as (k & _ & [= <-]).
Qed.

Lemma resolveReference_throws d ref e : resolveReference config d ref = Throws e -> err_status e = 0.
Proof.
  assert (Kp : forall k x, normalizeStorageKey k = Throws x -> err_status x = 0).
  { intros k x. rewrite normalizeStorageKey_key_ok. destruct (key_ok k); [done|]. by intros [= <-]. }
  assert (Cp : forall p x, configuredFileStorageForProvider config p = Throws x -> err_status x = 0).
  { intros p x. unfold configuredFileStorageForProvider. repeat case_match; naive_solver. }
  unfold resolveReference. intros [Ep|(p & _ & Ep)]%result_bind_throws.
  - unfold parseStorageReference in Ep. destruct (match_reference ref) as [[p r]|]; [|done].
    apply result_bind_throws in Ep as [Ep|(k & _ & Ep)]; [by eapply Kp|done].
  - destruct p as [p|]; apply result_bind_throws in Ep as [Ep|(u & _ & Ep)]; try done; [by eapply Cp..|].
    apply result_bind_throws in Ep as [Ep|(k & _ & Ep)]; [|done].
    unfold legacyLocalPathToKey in Ep. destruct (_ || _) in Ep; [by injection Ep as <-|].
    cbv zeta in Ep. destruct (_ || _) in Ep; [by injection Ep as <-|by eapply Kp].
Qed.

Lemma differs_false t resolved h :
  differs t resolved h = false -> dom t = r_storage resolved -> agrees t resolved h.
Proof.
  unfold differs, agrees. intros D Es. bool_simpl. destruct D as [[D1 D2] D3].
  unfold str_eqb in *. rewrite !bool_decide_eq_true in *. done.
Qed.

(** What the row of the business record is, once found or created. *)
Definition ours (input : RetainStorageObjectInput) (resolved : ResolvedObject) (h : str)
  (t : Tombstone) (w : World) : Prop :=
  row_wf t /\ known t w /\ agrees t resolved h /\ of_input input t.

Lemma ours_found D input resolved h t w :
  Inv D w -> r_storage resolved = toStorageDomain (in_domain input) ->
  List.find (is_business (in_domain input) (in_businessRecordId input)) (tombstones w) = Some t ->
  differs t resolved h = false -> ours input resolved h t w.
Proof.
  intros I Es (Ht & E1 & E2)%find_business_some Df.
  split; [by apply (inv_wf _ _ I)|]. split; [|split; [|done]].
  - split; [apply I|]. by exists t.
  - apply differs_false; [done|]. unfold dom. by rewrite E1.
Qed.

Lemma race_row_Inv D data r w w' :
  Inv D w -> race_row data r w = Some w' ->
  Inv D w' /\ exists row, tombstones w' = tombstones w ++ [row]
    /\ is_business (t_domain data) (businessRecordId data) row = true.
Proof.
  intros I. unfold race_row. destruct (store_of _ w !! raced_key r) as [content|] eqn:L; [|done]. cbn.
  destruct (_ || _) eqn:Bd; [done|]. bool_simpl. destruct Bd as [[Bt Bo] Bh].
  destruct (normalizedHash (raced_hash r)) as [h|] eqn:Nh; [|done].
  bool_simpl. destruct Bh as [Bh1 Bh2]. unfold str_eqb in Bh1, Bh2. rewrite bool_decide_eq_true in *.
  subst h. destruct (insert_row _ w) as [[row w1]|] eqn:Ir; [|done]. intros [= <-].
  eapply (Inv_insert D w w1) in Ir as (I' & -> & Et & _).
  2: done.
  2: { split; [by exists (raced_hash r)|]. done. }
  2: { left. exists content. split; [exact L|]. split; [cbn; by rewrite Nh, Bh2|done]. }
  2: { unfold str_eqb in Bo. by apply bool_decide_eq_true in Bo. }
  split; [done|]. eexists. split; [exact Et|]. by apply is_business_iff.
Qed.

Lemma wp_randomUUID b (Q : result str -> World -> Prop) w :
  (forall w', tombstones w' = tombstones w -> (forall d, store_of d w' = store_of d w) ->
     clock w' = clock w -> Q (Ok (uuid (drawn w))) w') ->
  wp b (randomUUID uuid) Q w.
Proof. intros HQ s Hs. unfold randomUUID. eexists _, _, _. split; [done|]. split; [done|]. by apply HQ. Qed.

Lemma retention_end_throws from e : retention_end config from = Throws e -> err_status e = 0.
Proof.
  unfold retention_end, retentionDays. destruct (_ || _); cbn; [by intros [= <-]|done].
Qed.

Lemma insert_row_throws data w e : insert_row data w = Throws e -> e = UNIQUE_CONFLICT.
Proof. unfold insert_row. destruct (existsb _ _); [by intros [= <-]|done]. Qed.

(** The first part of [retain] is ready when it meets no other failure. *)
Definition source_ready (input : RetainStorageObjectInput) (resolved : ResolvedObject) (h : str)
  (w : World) : Prop :=
  List.find (is_business (in_domain input) (in_businessRecordId input)) (tombstones w) = None
  /\ key_ok (r_key resolved) = true
  /\ (exists bl, store_of (r_storage resolved) w !! r_key resolved = Some bl /\ h = sha256 bl)
  /\ (exists d, retentionDays config = Ok d)
  /\ (forall u, u ∈ tombstones w -> t_id u <> uuid (drawn w)).

Lemma create_spec b D data w :
  Inv D w -> row_wf data -> safe_copy w data -> own_row data ->
  wp b (create data) (fun r w' => Inv D w' /\ match r with
    | Ok t => t = data /\ tombstones w' = tombstones w ++ [data]
              /\ (forall d, store_of d w' = store_of d w) /\ clock w' = clock w
    | Throws e => err_status e = 0
                  /\ fails b (existsb (violates_unique data) (tombstones w) = false)
    end) w.
Proof.
  intros I Wf S Own. unfold fails. apply wp_raced_effect.
  - unfold run_post. destruct (insert_row data w) as [[t w']|e] eqn:E.
    + destruct (Inv_insert D w w' data t I Wf S Own E) as (I' & -> & T & Es & Ec). auto 10.
    + split; [done|]. split; [by apply insert_row_throws in E as ->|]. right. intros V.
      unfold insert_row in E. by rewrite V in E.
  - intros B. auto.
  - intros B r c1 Er. destruct (race_row_Inv D data r w c1 I Er) as (I1 & row & T1 & Br).
    unfold run_post, insert_row.
    assert (V : existsb (violates_unique data) (tombstones c1) = true).
    { apply existsb_exists_iff. exists row. split; [rewrite T1; apply elem_of_app; right; by constructor|].
      unfold violates_unique. by rewrite Br, !orb_true_r. }
    rewrite V. auto.
Qed.

Lemma starts_with_trash_app id : starts_with trash_prefix (trash_prefix ++ id) = true.
Proof. apply starts_with_app. Qed.

Lemma find_or_create_spec b D input resolved h w :
  Inv D w -> resolveReference config (in_domain input) (in_reference input) = Ok resolved ->
  own_key input -> normalizedHash h = Ok h ->
  starts_with trash_prefix (r_key resolved) = false ->
  wp b (find_or_create config uuid input resolved h) (fun r w' => Inv D w' /\ match r with
    | Ok t => ours input resolved h t w'
              /\ (b = false -> source_ready input resolved h w ->
                  t_id t = uuid (drawn w) /\ state t = PENDING
                  /\ tombstones w' = tombstones w ++ [t]
                  /\ (forall d, store_of d w' = store_of d w) /\ verified w' t (originalKey t)
                  /\ clock w' = clock w /\ retention_end config (clock w) = Ok (purgeAfter t))
    | Throws e => err_status e <> 503 /\ fails b (source_ready input resolved h w)
    end) w.
Proof.
  intros I Er Own Hh Hk. pose proof (resolveReference_storage _ _ _ Er) as Es.
  unfold find_or_create. wp_step. eapply wp_mono; [apply find_business_spec|].
  intros [o|e] w' [-> Ho]; cbn. 2: { split; [done|]. split; [lia|left; tauto]. }
  subst o. destruct (List.find _ (tombstones w)) as [t|] eqn:Fd.
  { destruct (differs t resolved h) eqn:Df; wp_step; (split; [done|]).
    - split; [done|]. right. intros (N & _). congruence.
    - split; [by eapply ours_found|]. intros _ (N & _). congruence. }
  wp_step. eapply wp_mono; [apply inspect_spec|]. intros [m|e] w' [-> Hm]; cbn.
  2: { split; [done|]. destruct Hm as [He Hf]. split; [lia|].
       destruct Hf as [Hf|Hf]; [by left|right]. intros (_ & K & (bl & L & Eh) & _).
       apply Hf. split; [done|]. exists bl. repeat split; [done|by rewrite Hh, Eh|by intros ? ?]. }
  destruct Hm as (bl & (L & Nb & _) & ->).
  wp_step. apply wp_randomUUID. intros w1 T1 S1 C1. unfold new_Date. do 4 wp_step.
  assert (I1 : Inv D w1) by by apply (Inv_same D w).
  destruct (retention_end config (clock w1)) as [pa|e] eqn:Re; wp_step.
  2: { apply retention_end_throws in Re as E0.
       unfold isUniqueConflict. case_bool_decide as Uc; cbn.
       - unfold retention_end, retentionDays in Re. subst e. by destruct (_ || _).
       - wp_step. split; [done|]. split; [lia|]. right. intros (_ & _ & _ & [d Hd] & _).
         unfold retention_end in Re. by rewrite Hd in Re. }
  set (data := pending_row _ _ _ _ _ _ _ _ _ _).
  assert (Wf : row_wf data) by (split; [by exists h|done]).
  assert (V1 : verified w1 data (originalKey data)).
  { exists bl. unfold dom, data. cbn. rewrite S1, <- Es. split; [done|]. by split. }
  assert (Od : own_row data).
  { unfold own_row, dom, data. cbn. rewrite <- Es. by apply Own. }
  eapply wp_mono; [by apply (create_spec b D); [| |left|]|].
  intros [t|e] w2 [I2 Hr].
  - destruct Hr as (-> & T2 & S2 & C2). split; [done|]. split.
    + split; [done|]. split; [|by repeat split].
      split; [apply I2|]. exists data. split; [|done]. rewrite T2. apply elem_of_app. right. by constructor.
    + intros _ _. split; [done|]. split; [done|]. split; [by rewrite T2, T1|].
      split; [intros d; by rewrite S2|]. split; [by apply (verified_stores w2 w1)|].
      split; [by rewrite C2|]. by rewrite <- C1.
  - destruct Hr as [He Hf].
    assert (F2 : fails b (source_ready input resolved h w)).
    { destruct Hf as [Hf|Hf]; [by left|right]. intros (_ & _ & _ & _ & Fr). apply Hf.
      rewrite T1. apply existsb_false_iff. intros u Hu. unfold violates_unique. cbn.
      rewrite find_none_iff in Fd. rewrite (Fd u Hu), orb_false_r.
      assert (N : has_id (uuid (drawn w)) u = false)
        by (apply not_true_iff_false; intros E%has_id_true; by eapply Fr).
      rewrite N. cbn. destruct (str_eqb (trashKey u) _) eqn:Et; [|by rewrite andb_false_r].
      apply bool_decide_eq_true in Et. destruct (inv_wf _ _ I u Hu) as (_ & Tu & _).
      rewrite Tu in Et. apply starts_with_inj in Et. exfalso. by eapply Fr. }
    destruct (isUniqueConflict e); cbn; [|by wp_step; split; [|split; [lia|]]].
    wp_step. eapply wp_mono; [apply find_business_spec|].
    intros [o|e'] w3 [-> Ho]; cbn. 2: { split; [done|]. split; [lia|left; tauto]. }
    subst o. destruct (List.find _ (tombstones w2)) as [t|] eqn:Fd2.
    + destruct (differs t resolved h) eqn:Df; cbn; [by wp_step|].
      destruct (negb (byteSize t =? size_of bl)); wp_step; [done|]. split; [done|].
      split; [by eapply ours_found|]. intros -> Sr. by destruct F2.
    + wp_step. split; [done|]. split; [lia|done].
Qed.

Lemma securityAuditData_throws e x : securityAuditData e = Throws x -> err_status x = 0.
Proof.
  unfold securityAuditData, plain_error. repeat (case_match; [by intros [= <-]|]). done.
Qed.

(** A step that changes no object. *)
Definition rows_step (w w' : World) : Prop :=
  (forall d, store_of d w' = store_of d w) /\ forall t, safe_step t w w'.

Lemma rows_step_original t w w' : rows_step w w' -> original_copy t w -> original_copy t w'.
Proof. intros [S _]. unfold original_copy. by rewrite (verified_stores w' w). Qed.

Lemma rows_step_map p f w :
  (forall u, p u = true -> identity (f u) = identity u /\ (state (f u) = PURGED <-> state u = PURGED)) ->
  rows_step w (set_tombstones (map (fun u => if p u then f u else u) (tombstones w)) w).
Proof.
  intros Hf. split; [by intros []|]. intros t. split; try done.
  eexists. split; [done|]. intros u _. cbn. destruct (p u) eqn:E; [by apply Hf|done].
Qed.

Lemma rows_step_audit e w : rows_step w (add_audit e w).
Proof.
  split; [by intros []|]. intros t. split; try done.
  exists (fun u => u). split; [by rewrite map_id|done].
Qed.

#[export] Instance rows_step_preorder : PreOrder rows_step.
Proof.
  split; [by split|]. intros w1 w2 w3 [S1 F1] [S2 F2].
  split; [intros d; by rewrite S2|]. intros t. etransitivity; [apply F1|apply F2].
Qed.

Lemma record_failure_spec p f e w :
  (forall u, p u = true -> identity (f u) = identity u /\ (state (f u) = PURGED <-> state u = PURGED)) ->
  wp true (record_failure p f e) (fun r w' => rows_step w w' /\ match r with
    | Ok _ => True | Throws x => err_status x = 0 end) w.
Proof.
  intros Hf. pose proof (rows_step_map p f w Hf) as Sm. unfold record_failure. wp_step.
  apply wp_mono with (Q := fun r w1 => rows_step w w1 /\ r = Ok tt).
  { unfold ignore_error. wp_step. apply wp_effect; unfold run_post.
    - split; [done|]. intros _. by wp_step.
    - intros _. by wp_step. }
  intros r w1 [S1 ->]. do 2 wp_step.
  destruct (securityAuditData e) as [data|x] eqn:E; [|split; [done|by eapply securityAuditData_throws]].
  assert (S2 : rows_step w (add_audit data w1)) by (etransitivity; [done|apply rows_step_audit]).
  unfold ignore_error. wp_step. apply wp_effect; unfold run_post.
  - split; [done|]. intros _. by wp_step.
  - intros _. by wp_step.
Qed.

Lemma rows_step_Inv D w w' : rows_step w w' -> Inv D w -> Inv D w'.
Proof.
  intros [S F] I. destruct (tombstones w) as [|t l] eqn:T.
  - destruct (F {| t_id := []; t_domain := REPORT; t_provider := []; originalKey := [];
      trashKey := []; hashSha256 := []; byteSize := 0; businessRecordId := []; state := PENDING;
      deletedAt := 0; purgeAfter := 0; restoredAt := None; purgedAt := None;
      t_actorUserId := None; failureCode := None |}) as [(f & E & _) _ _ _ _].
    rewrite T in E. by apply (Inv_same D w); [rewrite E, T|..].
  - eapply (Inv_step D t w); [done| |apply F]. split; [apply I|]. exists t. rewrite T.
    split; [by constructor|done].
Qed.

Definition RETRY : js_error := unavailable "STORAGE_RETENTION_RETRY_REQUIRED".

(** What [retain] tells its caller. *)
Definition retain_outcome (input : RetainStorageObjectInput) (r : result SafeResult) (w : World) : Prop :=
  match r with
  | Ok res => exists t, of_input input t /\ retained t res w
  | Throws e => e = RETRY -> exists t u, u ∈ tombstones w /\ identity u = identity t
                  /\ of_input input t /\ original_copy t w
  end.

Lemma known_elem t w : known t w -> exists u, u ∈ tombstones w /\ identity u = identity t.
Proof. by intros [_ K]. Qed.

Lemma retain_spec D input w :
  Inv D w -> own_key input ->
  wp true (retain config uuid input) (fun r w' => Inv D w' /\ retain_outcome input r w') w.
Proof.
  intros I Own. unfold retain. do 2 wp_step.
  destruct (normalizedHash (in_expectedHash input)) as [h|e] eqn:Nh.
  2: { split; [done|]. intros ->. by apply normalizedHash_throws in Nh. }
  apply normalizedHash_idem in Nh. do 2 wp_step.
  destruct (resolveReference config (in_domain input) (in_reference input)) as [resolved|e] eqn:Er.
  2: { split; [done|]. intros ->. by apply resolveReference_throws in Er. }
  destruct (starts_with trash_prefix (r_key resolved)) eqn:St; [by wp_step|].
  wp_step. eapply wp_mono; [by apply find_or_create_spec|].
  intros [t|e] w1 [I1 Ht].
  2: { split; [done|]. intros ->. destruct Ht as [Ht _]. by destruct Ht. }
  destruct Ht as ((Wf & K & Ag & Oi) & _).
  wp_step. eapply wp_mono; [by apply retain_transition_spec|].
  intros [res|e] w2 [S2 Hr].
  { split; [by eapply Inv_step|]. exists t. split; [done|]. apply Hr. }
  destruct (is_final e) eqn:Fe.
  { wp_step. split; [by eapply Inv_step|]. by intros ->. }
  assert (K2 : known t w2) by by eapply known_step.
  wp_step. apply wp_mono with (Q := fun r w3 => safe_step t w2 w3 /\ match r with
    | Ok (COMMITTED res) => retained t res w3
    | Ok ROLLED_BACK => original_copy t w3
    | Throws e => e <> RETRY
    end).
  { wp_step. eapply wp_mono; [by apply reconcile_spec|]. intros [r|e'] w3 [S3 H3']; [done|].
    wp_step. wp_step.
    assert (Es : r_storage resolved = dom t) by by destruct Ag as (_ & _ & _ & ->).
    rewrite Es. eapply wp_mono; [by apply ensureActiveCopy_safe|].
    intros [[]|e''] w4 (S4 & T4 & H4).
    - wp_step. split; [by etransitivity|done].
    - wp_step. eapply wp_mono; [apply record_failure_spec|].
      { intros u Hu. split; [done|]. bool_simpl. destruct Hu as [_ Hu].
        rewrite !bool_decide_eq_true in Hu. by destruct Hu as [-> | ->]. }
      intros [[]|x] w5 [[_ S5] H5]; cbn; [wp_step|].
      + split; [|done]. by do 2 (etransitivity; [eassumption|]).
      + split; [by do 2 (etransitivity; [eassumption|])|]. by intros ->. }
  intros [[res|]|e'] w3 [S3 Hs3].
  - wp_step. split; [eapply Inv_step, S3; [by eapply Inv_step|done]|]. exists t. by split.
  - wp_step. assert (I3 : Inv D w3) by (eapply Inv_step, S3; [by eapply Inv_step|done]).
    eapply wp_mono; [apply record_failure_spec|].
    { intros u Hu. split; [done|]. bool_simpl. destruct Hu as [_ Hu].
      rewrite !bool_decide_eq_true in Hu. by destruct Hu as [-> | ->]. }
    intros [[]|x] w4 [R4 H4]; cbn.
    + wp_step. split; [by eapply rows_step_Inv|]. intros _. exists t.
      assert (K4 : known t w4) by (eapply known_step; [apply (proj2 R4 t)|by eapply known_step]).
      destruct (known_elem _ _ K4) as (u & Hu & Iu). exists u.
      split; [done|]. split; [done|]. split; [done|]. by eapply rows_step_original.
    + split; [by eapply rows_step_Inv|]. by intros ->.
  - split; [eapply Inv_step, S3; [by eapply Inv_step|done]|]. by intros ->.
Qed.

(** ** [restore] and [purge] *)

(** Rows and objects change as a purge of [t] may change them. *)
Record destroy_step (t : Tombstone) (w w' : World) : Prop := {
  destroy_rows : exists f, tombstones w' = map f (tombstones w)
    /\ forall u, u ∈ tombstones w ->
         identity (f u) = identity u
         /\ (t_id u <> t_id t -> (state (f u) = PURGED <-> state u = PURGED));
  destroy_frame d k : ~ (d = dom t /\ (k = originalKey t \/ k = trashKey t)) ->
    store_of d w' !! k = store_of d w !! k
}.

#[export] Instance destroy_step_preorder t : PreOrder (destroy_step t).
Proof.
  split.
  - intros w. split; [|done]. exists (fun u => u). split; [by rewrite map_id|done].
  - intros w1 w2 w3 [(f & Ef & Hf) F1] [(g & Eg & Hg) F2].
    split; [|intros d k N; by rewrite F2, F1].
    exists (fun u => g (f u)). split; [by rewrite Eg, Ef, map_map|].
    intros u Hu. destruct (Hf u Hu) as [I P].
    destruct (Hg (f u)) as [I' P']; [rewrite Ef; by apply list_elem_of_fmap_2|].
    split; [congruence|]. intros N. rewrite P'; [by apply P|].
    by destruct (identity_fields _ _ I) as [-> _].
Qed.

Lemma safe_destroy_step t w w' : safe_step t w w' -> destroy_step t w w'.
Proof. intros [(f & Ef & Hf) _ _ F _]. split; [|done]. exists f. split; [done|]. naive_solver. Qed.

Lemma obj_destroy_step t w w' : obj_step t w w' -> destroy_step t w w'.
Proof. intros [T _ _ F]. split; [|done]. exists (fun u => u). rewrite map_id. done. Qed.

Lemma destroy_step_rollback t w w' : destroy_step t w w' -> destroy_step t w (rollback w w').
Proof.
  intros [_ F]. split.
  - exists (fun u => u). by rewrite map_id.
  - intros d k N. rewrite store_of_rollback. auto.
Qed.

Lemma updated_destroy_step t u g w :
  t_id u = t_id t -> (forall x, identity (g x) = identity x) ->
  destroy_step t w (updated (t_id u) g w).
Proof.
  intros E I. split.
  - eexists. split; [done|]. intros v _. cbn. destruct (has_id (t_id u) v) eqn:Ev; [|done].
    apply has_id_true in Ev. split; [done|]. congruence.
  - intros d k _. by rewrite store_updated.
Qed.

Lemma destroy_step_ids t w w' :
  destroy_step t w w' -> map t_id (tombstones w') = map t_id (tombstones w).
Proof.
  intros [(f & -> & Hf) _]. rewrite map_map. apply map_ext_in. intros u Hu.
  apply list_elem_of_In in Hu. destruct (Hf u Hu) as [I _]. by apply identity_fields in I as [-> _].
Qed.

Lemma Inv_destroy D t w w' :
  Inv D w -> t ∈ tombstones w -> destroy_step t w w' -> Inv (t_id t :: D) w'.
Proof.
  intros I Ht St. pose proof (destroy_step_ids _ _ _ St) as Ids. destruct St as [(f & Ef & Hf) Fr].
  assert (Hin : forall x, x ∈ tombstones w' -> exists u, u ∈ tombstones w /\ x = f u).
  { intros x. rewrite Ef. intros (u & -> & Hu)%list_elem_of_fmap. eauto. }
  split.
  - rewrite Ids. apply I.
  - intros x (u & Hu & ->)%Hin. destruct (Hf u Hu) as [E _].
    eapply identity_wf; [symmetry; exact E|]. by apply (inv_wf _ _ I).
  - intros x (u & Hu & ->)%Hin. destruct (Hf u Hu) as [E _].
    eapply identity_own; [exact E|]. by apply (inv_owner _ _ I).
  - intros x y (u & Hu & ->)%Hin (u' & Hu' & ->)%Hin.
    destruct (Hf u Hu) as [(_ & _ & _ & -> & _ & _ & _ & _ & ->)%identity_fields _].
    destruct (Hf u' Hu') as [(_ & _ & _ & -> & _ & _ & _ & _ & ->)%identity_fields _].
    intros E1 E2. f_equal. by apply (inv_keys _ _ I).
  - intros x (u & Hu & ->)%Hin. destruct (Hf u Hu) as [E P].
    destruct (identity_fields _ _ E) as [-> _]. rewrite not_elem_of_cons. intros NP [Nt ND].
    rewrite (P Nt) in NP. apply (identity_safe w' u (f u)); [done|].
    eapply safe_frame; [|apply (inv_safe _ _ I u Hu NP ND)]. intros k Hk. apply Fr.
    apply (keys_disjoint D w t u); try done. by intros ->.
Qed.

Lemma failure_handler id actor code e err w (Q : result SafeResult -> World -> Prop) :
  (forall e' w', rows_step w w' -> Q (Throws e') w') ->
  wp true (if is_final e then throw e
           else recordFailure id actor code ;;; throw (unavailable err)) Q w.
Proof.
  intros HQ. destruct (is_final e); wp_step; [by apply HQ|].
  eapply wp_mono; [apply record_failure_spec|].
  { intros u Hu. split; [done|]. done. }
  intros [[]|x] w' [S _]; cbn; [wp_step|]; by apply HQ.
Qed.

(** The guards of [purge]. *)
Definition authorised (id : str) (force : bool) (w : World) : bool :=
  match List.find (has_id id) (tombstones w) with
  | Some t => bool_decide (state t = RETAINED) && (force || (purgeAfter t <=? clock w))
              && negb (bool_decide (t_domain t = META_UPLOAD)
                       && existsb (str_eqb (businessRecordId t)) (uploadBatches w))
  | None => false
  end.

Definition gone (t : Tombstone) (w : World) : Prop :=
  store_of (dom t) w !! originalKey t = None /\ store_of (dom t) w !! trashKey t = None.

Lemma purge_objects_spec t w :
  keys_differ t ->
  wp true (purge_objects (dom t) t) (fun r w' => obj_step t w w' /\ match r with
    | Ok _ => gone t w' | Throws _ => True end) w.
Proof.
  intros D. unfold purge_objects.
  wp_step. eapply wp_mono; [apply exists_spec|]. intros [ra|e] w1 [-> Ha]; cbn; [|done].
  wp_step. eapply wp_mono; [apply exists_spec|]. intros [rt|e] w1 [-> Hb]; cbn; [|done].
  wp_step. apply wp_mono with (Q := fun _ w' => w' = w).
  { destruct ra; [|by wp_step]. wp_step. eapply wp_mono; [apply inspect_row_spec|].
    intros [m|e] w1 [-> _]; [by wp_step|done]. }
  intros [[]|e] w1 ->; cbn; [|done].
  wp_step. apply wp_mono with (Q := fun _ w' => w' = w).
  { destruct rt; [|by wp_step]. wp_step. eapply wp_mono; [apply inspect_row_spec|].
    intros [m|e] w1 [-> _]; [by wp_step|done]. }
  intros [[]|e] w1 ->; cbn; [|done].
  assert (Del : forall (c : bool) k w0, k = originalKey t \/ k = trashKey t ->
    wp true (if c then st_delete (dom t) k ;;; ret tt else ret tt) (fun r w' => obj_step t w0 w') w0).
  { intros c k w0 Hk. destruct (delete_step t k w0 Hk) as [O _]. destruct c; wp_step; [|done].
    eapply wp_mono; [apply delete_spec|]. intros [r|e] w1 Hd; cbn.
    - wp_step. by destruct Hd as [-> _].
    - by destruct Hd as [[-> | ->] _]. }
  wp_step. eapply wp_mono; [apply (Del ra); by left|]. intros [[]|e] w1 O1; cbn; [|done].
  wp_step. eapply wp_mono; [apply (Del rt); by right|]. intros [[]|e] w2 O2; cbn.
  2: { split; [by etransitivity|done]. }
  assert (O : obj_step t w w2) by by etransitivity.
  wp_step. eapply wp_mono; [apply exists_spec|]. intros [r1|e] w3 [-> H1']; cbn; [|done].
  destruct r1; [by wp_step|]. wp_step.
  eapply wp_mono; [apply exists_spec|]. intros [r2|e] w3 [-> H2']; cbn; [|done].
  destruct r2; [by wp_step|]. wp_step. split; [done|].
  symmetry in H1', H2'. apply bool_decide_eq_false in H1', H2'. unfold gone.
  by rewrite !eq_None_not_Some.
Qed.

Definition purge_outcome (id : str) (w : World) (r : result SafeResult) (w' : World) : Prop :=
  match r with
  | Ok res => exists u, u ∈ tombstones w' /\ t_id u = id /\ state u = PURGED /\ res = safeResult u
                /\ (w' = w \/ gone u w')
  | Throws _ => True
  end.

Lemma gone_identity t u w : identity t = identity u -> gone t w -> gone u w.
Proof. intros (_ & _ & _ & E4 & E5 & _ & _ & _ & E9)%identity_fields. unfold gone. by rewrite E4, E5, E9. Qed.

(** What a purge may do to the world: nothing to the objects unless it is
    authorised. *)
Definition purge_effect (id : str) (force : bool) (w w' : World) : Prop :=
  if authorised id force w
  then forall t, t ∈ tombstones w -> t_id t = id -> destroy_step t w w'
  else rows_step w w'.

Lemma purge_effect_refl id force w : purge_effect id force w w.
Proof. unfold purge_effect. by destruct (authorised id force w); [intros|]. Qed.

Lemma purge_effect_rows id force w w1 w2 :
  purge_effect id force w w1 -> rows_step w1 w2 -> purge_effect id force w w2.
Proof.
  unfold purge_effect. destruct (authorised id force w); intros E R.
  - intros t Ht Hid. etransitivity; [by apply E|]. apply safe_destroy_step, R.
  - by etransitivity.
Qed.

Lemma purge_effect_rollback id force w w' :
  purge_effect id force w w' -> purge_effect id force w (rollback w w').
Proof.
  unfold purge_effect. destruct (authorised id force w).
  - intros E t Ht Hid. by apply destroy_step_rollback, E.
  - intros [S F]. split; [intros d; by rewrite store_of_rollback|].
    intros t. by apply safe_step_rollback.
Qed.

Lemma storageForRow_ok d p s : storageForRow config d p = Ok s -> s = toStorageDomain d.
Proof. unfold storageForRow. by intros (x & _ & [= <-])%result_bind_ok. Qed.

Lemma writeSecurityAudit_spec b e w :
  wp b (writeSecurityAudit e) (fun r w' => rows_step w w' /\ tombstones w' = tombstones w /\ match r with
    | Ok _ => True
    | Throws _ => fails b (securityAuditData e = Ok e)
    end) w.
Proof.
  unfold writeSecurityAudit. do 2 wp_step. destruct (securityAuditData e) as [data|x] eqn:E.
  - apply wp_effect; unfold run_post.
    + split; [split; [apply rows_step_audit|done]|]. intros ->.
      split; [apply rows_step_audit|split; [done|by left]].
    + intros ->. split; [done|]. split; [done|by left].
  - split; [done|]. split; [done|]. by right.
Qed.

Lemma assert_no_upload_spec id force t w :
  List.find (has_id id) (tombstones w) = Some t -> state t = RETAINED ->
  negb force && (clock w <? purgeAfter t) = false ->
  wp true (assert_no_upload t) (fun r w' => w' = w /\ (r = Ok tt -> authorised id force w = true)) w.
Proof.
  intros Fd St Du.
  assert (Au : negb (bool_decide (t_domain t = META_UPLOAD)
                     && existsb (str_eqb (businessRecordId t)) (uploadBatches w)) = true ->
               authorised id force w = true).
  { intros U. unfold authorised. rewrite Fd, U, bool_decide_eq_true_2 by done.
    cbn. rewrite andb_true_r. destruct force; [done|]. cbn in *.
    apply Z.ltb_ge in Du. by apply Z.leb_le. }
  unfold assert_no_upload. destruct (decide (t_domain t = META_UPLOAD)) as [Cd|Cd].
  - wp_step. apply wp_effect; unfold run_post; [|by intros _; split]. split; [|by intros _; split].
    destruct (existsb (str_eqb (businessRecordId t)) (uploadBatches w)) eqn:X; wp_step; [done|].
    split; [done|]. intros _. apply Au. by rewrite andb_false_r.
  - wp_step. split; [done|]. intros _. apply Au. by rewrite bool_decide_eq_false_2.
Qed.

Lemma purge_transition_spec D id actor force w :
  Inv D w ->
  wp true (purge_transition config id actor force)
    (fun r w' => purge_effect id force w w' /\ purge_outcome id w r w') w.
Proof.
  intros I. pose proof (purge_effect_refl id force w) as E0. unfold purge_transition.
  wp_step. eapply wp_mono; [apply fence_spec|]. intros [[]|e] w' [-> _]; cbn; [|done].
  wp_step. eapply wp_mono; [apply require_spec|]. intros [t|e] w' [-> Fd]; cbn; [|done].
  destruct (find_id_some _ _ _ Fd) as [Ht Hid].
  case_decide as C1.
  { wp_step. split; [done|]. exists t. auto 10. }
  destruct (bool_decide (state t = RETAINED)) eqn:C2; cbn; [|by wp_step].
  unfold new_Date at 1. do 2 wp_step.
  destruct (negb force && (clock w <? purgeAfter t)) eqn:Du; [by wp_step|].
  wp_step. eapply wp_mono; [apply (assert_no_upload_spec id force); [done|by apply bool_decide_eq_true_1 in C2|done]|].
  intros [[]|e] w' [-> Au]; cbn; [|done]. specialize (Au eq_refl).
  do 2 wp_step. destruct (storageForRow config (t_domain t) (t_provider t)) as [d|e] eqn:Sr; [|done].
  apply storageForRow_ok in Sr. fold (dom t) in Sr. subst d.
  assert (Wt : keys_differ t) by by apply row_wf_keys, (inv_wf _ _ I).
  assert (Only : forall w', destroy_step t w w' -> purge_effect id force w w').
  { intros w' S. unfold purge_effect. rewrite Au. intros x Hx Ex.
    by rewrite (NoDup_ids_eq _ x t (inv_ids _ _ I) Hx Ht) by congruence. }
  wp_step. eapply wp_mono; [by apply purge_objects_spec|].
  intros [[]|e] w1 [O1 G1]; cbn; [|split; [by apply Only, obj_destroy_step|done]].
  unfold new_Date. do 3 wp_step. set (g := set_purged actor (clock w1)).
  assert (S2 : destroy_step t w (updated (t_id t) g w1))
    by (etransitivity; [by apply obj_destroy_step|by apply updated_destroy_step]).
  assert (T1 : tombstones w1 = tombstones w) by apply O1.
  eapply wp_mono; [apply (update_spec true _ g w1 t); by rewrite T1, Hid|].
  intros [v|e] w2 Hv; cbn.
  2: { split; [|done]. apply Only. destruct Hv as [[-> | ->] _]; [by apply obj_destroy_step|done]. }
  destruct Hv as [-> ->]. wp_step. eapply wp_mono; [apply writeSecurityAudit_spec|].
  intros [[]|e] w3 (R3 & T3 & _); cbn; [wp_step|]; (split; [by eapply purge_effect_rows; [apply Only|]|]);
    [|done].
  exists (g t). rewrite T3. split; [apply updated_elem; by rewrite T1|].
  split; [done|]. split; [done|]. split; [done|]. right.
  assert (Gt : gone t w3) by (unfold gone; by rewrite (proj1 R3), store_updated).
  by apply (gone_identity t).
Qed.

Lemma purge_spec D id actor force w :
  Inv D w ->
  wp true (purge config id actor force)
    (fun r w' => purge_effect id force w w' /\ purge_outcome id w r w') w.
Proof.
  intros I. unfold purge. do 2 wp_step. eapply wp_mono; [by apply (purge_transition_spec D)|].
  assert (Hd : forall e w1, purge_effect id force w w1 ->
    wp true (if is_final e then throw e
             else recordFailure id actor (js "PURGE_TRANSITION_FAILED") ;;;
                  throw (unavailable "STORAGE_PURGE_RETRY_REQUIRED"))
      (fun r w' => purge_effect id force w w' /\ purge_outcome id w r w') w1).
  { intros e w1 E1. apply failure_handler. intros e' w2 R. split; [|done]. by eapply purge_effect_rows. }
  intros [res|e] w1 [E1 Oc]; [split; [done|]|]; intros; try split; apply Hd; try done;
    by apply purge_effect_rollback.
Qed.

(** When [restore] cannot fail by itself. *)
Definition restorable (t : Tombstone) (actor : option str) (w : World) : Prop :=
  state t = RETAINED /\ clock w < purgeAfter t
  /\ storageForRow config (t_domain t) (t_provider t) = Ok (dom t)
  /\ key_ok (originalKey t) = true /\ key_ok (trashKey t) = true
  /\ 0 <= byteSize t <= MAX_SAFE_INTEGER
  /\ verified w t (trashKey t) /\ store_of (dom t) w !! originalKey t = None
  /\ (List.length (t_id t) <= 128)%nat.

Definition restored (id : str) (w : World) (res : SafeResult) (w' : World) : Prop :=
  exists u, u ∈ tombstones w' /\ t_id u = id /\ state u = RESTORED /\ res = safeResult u
    /\ (w' = w \/ original_copy u w' /\ store_of (dom u) w' !! trashKey u = None).

Lemma ascii_key_safe k :
  is_ascii k = true -> @forbidden_key c_locale k = false -> forbidden_key k = false.
Proof. intros A F. unfold forbidden_key, normalized_key in *. by rewrite to_lower_ascii. Qed.

Lemma restore_audit_ok actor id :
  (List.length id <= 128)%nat ->
  securityAuditData (restore_audit actor id) = Ok (restore_audit actor id).
Proof.
  intros L. assert (K1 : forbidden_key (js "state") = false) by by apply ascii_key_safe.
  assert (K2 : forbidden_key (js "hashVerified") = false) by by apply ascii_key_safe.
  unfold securityAuditData, restore_audit, tombstone_audit, actor_type.
  cbn [action targetType targetId actorType actorUserId beforeJson afterJson safe_opt
       assertSafeAuditJson forallb state_json].
  rewrite K1, K2. cbn [negb andb].
  replace (is_code 95 (js "STORAGE_OBJECT_RESTORE")) with true by done.
  replace (is_code 63 (js "STORAGE_TOMBSTONE")) with true by done. cbn [negb].
  assert (Lb : (128 <? N.of_nat (List.length (Some id ?? [])))%N = false)
    by (apply N.ltb_ge; cbn; lia).
  rewrite Lb, andb_false_r. by destruct (truthy_opt actor).
Qed.

Lemma restore_objects_spec b t w :
  row_wf t ->
  wp b (restore_objects (dom t) t) (fun r w' => safe_step t w w' /\ tombstones w' = tombstones w
    /\ match r with
       | Ok _ => original_copy t w' /\ store_of (dom t) w' !! trashKey t = None
       | Throws _ => fails b (copyable t (trashKey t) (originalKey t) w)
       end) w.
Proof.
  intros Wf. assert (D : keys_differ t) by by apply row_wf_keys.
  assert (R0 : safe_step t w w) by reflexivity. unfold restore_objects.
  wp_step. eapply wp_mono; [apply exists_spec|]. intros [r|e] w' [-> Hr]; cbn.
  2: { split; [done|]. split; [done|]. destruct Hr as [_ [?|Hr]]; [by left|right].
       intros (_ & X & _). by apply Hr. }
  wp_step. apply wp_mono with (Q := fun r w1 => grow t (originalKey t) w w1 /\ match r with
    | Ok _ => verified w1 t (originalKey t)
    | Throws _ => fails b (copyable t (trashKey t) (originalKey t) w)
    end).
  { subst r. case_bool_decide as Exi.
    - wp_step. eapply wp_mono; [apply inspect_row_spec|]. intros [m|e] w1 [-> Hm]; cbn.
      + wp_step. split; [by left|done].
      + split; [by left|]. right. intros (_ & _ & _ & X & _). rewrite X in Exi. by destruct Exi.
    - eapply wp_mono; [apply copy_spec, Wf|]. intros [[]|e] w1 [G Hm]; (split; [done|]); tauto. }
  intros [[]|e] w1 [G V]; cbn;
    destruct (grow_step t _ _ _ (or_introl eq_refl) G) as [O1 _];
    assert (S1 : safe_step t w w1) by (eapply safe_step_grow, G; by left).
  2: { split; [done|]. split; [apply O1|done]. }
  wp_step. eapply wp_mono; [apply inspect_row_spec|]. intros [m|e] w' [-> Hm]; cbn.
  2: { split; [done|]. split; [apply O1|]. destruct Hm as [_ [?|Hm]]; [by left|right].
       intros (_ & X & _). by apply Hm. }
  destruct (delete_step t (trashKey t) w1 (or_intror eq_refl)) as (O2 & N2 & Kp).
  assert (S2 : safe_step t w (set_store (dom t) (delete (trashKey t) (store_of (dom t) w1)) w1))
    by (etransitivity; [done|by apply safe_step_remove_trash]).
  assert (T2 : tombstones (set_store (dom t) (delete (trashKey t) (store_of (dom t) w1)) w1)
               = tombstones w) by by rewrite (obj_tombstones _ _ _ O2), (obj_tombstones _ _ _ O1).
  wp_step. eapply wp_mono; [apply delete_spec|]. intros [r2|e] w2 Hd; cbn.
  - wp_step. destruct Hd as [-> _]. split; [done|]. split; [done|]. split; [|done]. by apply Kp.
  - destruct Hd as ([-> | ->] & _ & Hd); (split; [done|]); (split; [done || apply O1|]);
      (destruct Hd as [?|Hd]; [by left|right; by intros (X & _)]).
Qed.

Lemma restore_transition_spec b t actor w :
  row_wf t -> known t w -> t ∈ tombstones w ->
  wp b (restore_transition config (t_id t) actor) (fun r w' => safe_step t w w' /\ match r with
       | Ok res => restored (t_id t) w res w'
       | Throws _ => fails b (restorable t actor w)
       end) w.
Proof.
  intros Wf K Ht. assert (R0 : safe_step t w w) by reflexivity. unfold restore_transition.
  destruct (find_id_known t w K) as (u & Fd & Hu & Iu).
  assert (u = t) as ->.
  { apply (NoDup_ids_eq _ u t (proj1 K)); try done. by apply identity_fields in Iu as [-> _]. }
  wp_step. eapply wp_mono; [apply fence_spec|]. intros [[]|e] w' [-> Hf]; cbn.
  2: { split; [done|]. left. tauto. }
  wp_step. eapply wp_mono; [apply require_spec|]. intros [v|e] w' [-> Hv]; cbn.
  2: { split; [done|]. left. destruct Hv as [Hv|Hv]; [congruence|tauto]. }
  rewrite Fd in Hv. injection Hv as <-.
  destruct (decide (state t = RESTORED)) as [C1|C1].
  { wp_step. split; [done|]. exists t. auto 10. }
  case_bool_decide as C2; cbn.
  2: { wp_step. split; [done|]. right. by intros [? _]. }
  unfold new_Date at 1. do 2 wp_step.
  destruct (Z.leb_spec (purgeAfter t) (clock w)) as [Ex|Ex].
  { wp_step. split; [done|]. right. intros (_ & ? & _). lia. }
  do 2 wp_step. destruct (storageForRow config (t_domain t) (t_provider t)) as [d|e] eqn:Sr.
  2: { split; [done|]. right. intros (_ & _ & X & _). by rewrite Sr in X. }
  apply storageForRow_ok in Sr as Ed. fold (dom t) in Ed. subst d.
  wp_step. eapply wp_mono; [by apply restore_objects_spec|]. intros [[]|e] w2 (S2 & T2 & Hr); cbn.
  2: { split; [done|]. destruct Hr as [?|Hr]; [by left|right].
       intros (_ & _ & _ & X1 & X2 & X3 & X4 & X5 & _). by apply Hr. }
  unfold new_Date. do 3 wp_step. set (g := set_restored actor (clock w2)).
  eapply wp_mono; [apply (update_safe b t t g); [by eapply known_step|by rewrite T2|done..|]|].
  { cbn. rewrite C2. by split; intros [=]. }
  intros [v|e] w3 [S3 Hv]; cbn.
  2: { split; [by etransitivity|]. by left. }
  destruct Hv as (-> & Hin & ->). wp_step. eapply wp_mono; [apply writeSecurityAudit_spec|].
  intros [[]|e] w4 (R4 & T4 & Hau); cbn; [wp_step|];
    (split; [do 2 (etransitivity; [eassumption|]); apply R4|]).
  - exists (g t). rewrite T4. repeat (split; [done|]). right. destruct Hr as [V N].
    split; [|by change (store_of (dom t) w4 !! trashKey t = None); rewrite (proj1 R4), store_updated].
    apply (rows_step_original (g t)) in R4; [done|]. apply verified_set_tombstones.
    by apply (identity_verified w2 t (g t)).
  - destruct Hau as [?|Hau]; [by left|right].
    intros (_ & _ & _ & _ & _ & _ & _ & _ & L). by apply Hau, restore_audit_ok.
Qed.

Definition restore_outcome (id : str) (w : World) (r : result SafeResult) (w' : World) : Prop :=
  match r with Ok res => restored id w res w' | Throws _ => True end.

(** What a restore may do to the world. *)
Definition restore_effect (id : str) (w w' : World) : Prop :=
  match List.find (has_id id) (tombstones w) with
  | Some t => safe_step t w w'
  | None => rows_step w w'
  end.

Lemma elem_known D t w : Inv D w -> t ∈ tombstones w -> known t w.
Proof. intros I Ht. split; [apply I|]. by exists t. Qed.

Lemma restore_spec D id actor w :
  Inv D w ->
  wp true (restore config id actor)
    (fun r w' => restore_effect id w w' /\ restore_outcome id w r w') w.
Proof.
  intros I. unfold restore, restore_effect. wp_step.
  destruct (List.find (has_id id) (tombstones w)) as [t|] eqn:Fd.
  - destruct (find_id_some _ _ _ Fd) as [Ht <-]. wp_step.
    assert (K : known t w) by by eapply elem_known.
    eapply wp_mono; [apply restore_transition_spec; [by apply (inv_wf _ _ I)|done..]|].
    assert (Hd : forall e w1, safe_step t w w1 ->
      wp true (if is_final e then throw e
               else recordFailure (t_id t) actor (js "RESTORE_TRANSITION_FAILED") ;;;
                    throw (unavailable "STORAGE_RESTORE_RETRY_REQUIRED"))
        (fun r w' => safe_step t w w' /\ restore_outcome (t_id t) w r w') w1).
    { intros e w1 S1. apply failure_handler. intros e' w2 [_ R]. split; [by etransitivity|done]. }
    intros [res|e] w1 [S1 Oc]; [split; [done|]|]; intros; try split; apply Hd; try done;
      by apply safe_step_rollback.
  - wp_step. unfold restore_transition. wp_step. eapply wp_mono; [apply fence_spec|].
    intros [[]|e] w' [-> _]; cbn.
    2: { apply failure_handler. intros e' w' R. split; [|done]. by destruct w. }
    wp_step. eapply wp_mono; [apply require_spec|]. intros [v|e] w' [-> Hv]; cbn; [congruence|].
    apply failure_handler. intros e' w' R. split; [|done]. by destruct w.
Qed.
End safety.
