(* ===== verification/TombstoneGuarantees.v ===== *)
(** * The guarantees of the storage tombstones

    The theorems about whole runs of [retain], [restore], [purge] and
    [purgeExpired] and about every sequence of them: no object of a row is lost
    unless a purge of the row was authorised, the outcomes reported to the
    caller are true, and retaining and restoring is the identity on the stores. *)

From Stdlib Require Import Strings.Byte.
From stdpp Require Import relations.
From S2P Require Import Prelude JsNumber JsString StorageKey FileStorage SecurityAudit Effects.
From S2P Require Import Tombstone TombstoneObjects TombstoneRows TombstoneSafety.

Local Open Scope Z_scope.

Section guarantees.
Context `{FileStorageLaws} `{!IcuLaws} `{KR : KeyRecords} (config : StorageConfig) (uuid : nat -> str).

Lemma allowed_any {R} (s : list (fault R)) : allowed true s.
Proof. by left. Qed.

(** A key that belongs to one of the rows [ids]. *)
Definition key_of_row (ids : list str) (w : World) (d : StorageDomain) (k : str) : Prop :=
  exists t, t ∈ tombstones w /\ t_id t ∈ ids /\ d = dom t /\ (k = originalKey t \/ k = trashKey t).

Lemma destroy_step_changes t w w' d k :
  t ∈ tombstones w -> destroy_step t w w' -> store_of d w' !! k <> store_of d w !! k ->
  d = dom t /\ (k = originalKey t \/ k = trashKey t).
Proof.
  intros Ht St N. destruct (decide (d = dom t)) as [->|Nd].
  - destruct (decide (k = originalKey t)) as [->|N1]; [auto|].
    destruct (decide (k = trashKey t)) as [->|N2]; [auto|].
    exfalso. apply N, (destroy_frame _ _ _ St). tauto.
  - exfalso. apply N, (destroy_frame _ _ _ St). tauto.
Qed.

Lemma purge_effect_changes D id force w w' d k :
  Inv D w -> purge_effect id force w w' -> store_of d w' !! k <> store_of d w !! k ->
  authorised id force w = true /\ key_of_row [id] w d k.
Proof.
  intros I E N. unfold purge_effect in E. destruct (authorised id force w) eqn:A.
  - split; [done|]. unfold authorised in A.
    destruct (List.find (has_id id) (tombstones w)) as [t|] eqn:Fd; [|done].
    apply find_id_some in Fd as [Ht Et]. exists t. split; [done|]. split; [rewrite Et; by constructor|].
    eapply destroy_step_changes; [done|by apply E|done].
  - exfalso. apply N. by rewrite (proj1 E).
Qed.

(** C2: Let every stored key have been made for one business record
    ([key_record]), and let a [retain] - and each concurrent [retain] that gets
    in between - name a key of the record it is about ([own_key]): [retain] itself
    does not check that, its callers see to it when they make their references.
    Then, from any state that keeps the invariant [Inv], whatever calls fail
    during [retain], its answer is true.  When it returns, the row of the business record is RETAINED, its trash key holds a
    copy with the recorded hash and size and the original key is empty; when it
    throws STORAGE_RETENTION_RETRY_REQUIRED, the original key holds such a copy.
    In every case the invariant is kept, by which every row that is not PURGED
    and whose purge was not authorised has a copy at its original or at its
    trash key. *)
Theorem retain_reports_truth D input w s :
  Inv D w -> own_key config input ->
  Inv D (run (retain config uuid input) w s).2
  /\ retain_outcome input (run (retain config uuid input) w s).1 (run (retain config uuid input) w s).2.
Proof.
  intros I Own. exact (wp_run true _ _ w s (retain_spec config uuid D input w I Own) (allowed_any s)).
Qed.

(** Whatever calls fail during [restore], the object of the row keeps a
    verified copy and no object of another row changes; when it returns, the
    row is RESTORED and, unless it already was, the original key holds a
    verified copy and the trash key is empty. *)
Theorem restore_keeps_copies D id actor w s d k :
  Inv D w ->
  let '(r, w') := run (restore config id actor) w s in
  Inv D w' /\ restore_outcome id w r w'
  /\ (store_of d w' !! k <> store_of d w !! k -> key_of_row [id] w d k).
Proof.
  intros I.
  pose proof (wp_run true _ _ w s (restore_spec config D id actor w I) (allowed_any s)) as [E O].
  destruct (run _ w s) as [r w']. cbn in E, O. unfold restore_effect in E.
  destruct (List.find (has_id id) (tombstones w)) as [t|] eqn:Fd.
  - apply find_id_some in Fd as [Ht Et].
    split; [eapply Inv_step; [done|by eapply elem_known|done]|]. split; [done|].
    intros N. exists t. split; [done|]. split; [rewrite Et; by constructor|].
    eapply destroy_step_changes; [done|by apply safe_destroy_step|done].
  - split; [by eapply rows_step_Inv|]. split; [done|]. intros []. by rewrite (proj1 E).
Qed.

(** C3: [purge] changes an object only if the row is RETAINED, its retention
    period is over or the purge is forced, and - for an upload - its batch is
    gone; and then only the two objects of that row.  When it returns, the row
    is PURGED and, unless it already was, both objects are gone. *)
Theorem purge_only_authorised D id actor force w s d k :
  Inv D w ->
  let '(r, w') := run (purge config id actor force) w s in
  purge_outcome id w r w'
  /\ (store_of d w' !! k <> store_of d w !! k ->
      authorised id force w = true /\ key_of_row [id] w d k).
Proof.
  intros I.
  pose proof (wp_run true _ _ w s (purge_spec config D id actor force w I) (allowed_any s)) as [E O].
  destruct (run _ w s) as [r w']. split; [done|]. by eapply purge_effect_changes.
Qed.

(** ** Every sequence of operations *)

Definition set_clock (c : Z) (w : World) : World :=
  {| tombstones := tombstones w; uploadBatches := uploadBatches w; auditEvents := auditEvents w;
     uploads_store := uploads_store w; reports_store := reports_store w;
     clock := c; drawn := drawn w |}.

Definition set_uploads (us : list str) (w : World) : World :=
  {| tombstones := tombstones w; uploadBatches := us; auditEvents := auditEvents w;
     uploads_store := uploads_store w; reports_store := reports_store w;
     clock := clock w; drawn := drawn w |}.

(** The service, called any number of times with any failing calls, while the
    time passes, upload batches come and go and new objects are stored; every
    [retain] names a key of its own record.  The second component lists the rows whose purge was authorised. *)
Inductive step : World * list str -> World * list str -> Prop :=
  | step_retain input s w D : own_key config input ->
      step (w, D) ((run (retain config uuid input) w s).2, D)
  | step_restore id actor s w D :
      step (w, D) ((run (restore config id actor) w s).2, D)
  | step_purge id actor force s w D :
      step (w, D) ((run (purge config id actor force) w s).2,
                   if authorised id force w then id :: D else D)
  | step_time c w D : clock w <= c -> step (w, D) (set_clock c w, D)
  | step_batches us w D : step (w, D) (set_uploads us w, D)
  | step_store d k b w D : store_of d w !! k = None ->
      step (w, D) (set_store d (<[k := b]> (store_of d w)) w, D).

Lemma Inv_purge D id actor force w s :
  Inv D w ->
  Inv (if authorised id force w then id :: D else D) (run (purge config id actor force) w s).2.
Proof.
  intros I.
  pose proof (wp_run true _ _ w s (purge_spec config D id actor force w I) (allowed_any s)) as [E _].
  destruct (run _ w s) as [r w']. cbn in *. unfold purge_effect in E.
  destruct (authorised id force w) eqn:A; [|by eapply rows_step_Inv].
  unfold authorised in A. destruct (List.find (has_id id) (tombstones w)) as [t|] eqn:Fd; [|done].
  apply find_id_some in Fd as [Ht <-]. eapply Inv_destroy; [done|done|by apply E].
Qed.

Lemma Inv_store D d k b w :
  store_of d w !! k = None -> Inv D w -> Inv D (set_store d (<[k := b]> (store_of d w)) w).
Proof.
  intros N I. split; try apply I. intros t Ht NP ND.
  assert (Kp : forall k', verified w t k' -> verified (set_store d (<[k := b]> (store_of d w)) w) t k').
  { intros k' (b' & L & G). exists b'. split; [|done].
    destruct (decide (d = dom t)) as [->|Nd]; [|by rewrite store_of_set_ne].
    rewrite store_of_set, lookup_insert_ne; [done|]. intros ->. congruence. }
  destruct (inv_safe _ _ I t Ht NP ND) as [V|V]; [left|right]; by apply Kp.
Qed.

Lemma Inv_reachable p q : step p q -> Inv p.2 p.1 -> Inv q.2 q.1.
Proof.
  intros St I. destruct St; cbn in *.
  - apply (wp_run true _ _ w s (retain_spec config uuid D input w I H4) (allowed_any s)).
  - pose proof (restore_keeps_copies D id actor w s uploads [] I) as R.
    destruct (run _ w s) as [r w']. apply R.
  - by apply Inv_purge.
  - by apply (Inv_same D w).
  - by apply (Inv_same D w).
  - by apply Inv_store.
Qed.

Lemma reachable_Inv p q : rtc step p q -> Inv p.2 p.1 -> Inv q.2 q.1.
Proof. induction 1 as [|p q r St R IH]; [done|]. intros I. apply IH. by eapply Inv_reachable. Qed.

Lemma Inv_initial w : tombstones w = [] -> Inv [] w.
Proof. intros E. split; rewrite E; [constructor|intros; exfalso; by eapply not_elem_of_nil..]. Qed.

(** C1: No object is lost, provided every [retain] names a key of its own record:
    each stored key was made for one business record ([key_record]), and the
    reference of a [retain], concurrent ones included, resolves to a key of the
    record it is about ([own_key]).  [retain] does not check this; without it
    objects can be lost ([Example.foreign_key_loses_copy]), and the references
    that [prepareOriginalFileReference] makes meet it
    ([UploadStorage.prepared_reference]).  Under this proviso, starting from an
    empty table, after any sequence of
    [retain], [restore] and [purge] calls, each with any pattern of failing
    calls, every row that is not PURGED and whose purge was never authorised
    has, at its original or at its trash key, a content with the hash and size
    recorded for it. *)
Theorem objects_never_lost w0 w D t :
  tombstones w0 = [] -> rtc step (w0, []) (w, D) ->
  t ∈ tombstones w -> state t <> PURGED -> t_id t ∉ D ->
  exists k content, (k = originalKey t \/ k = trashKey t)
    /\ store_of (toStorageDomain (t_domain t)) w !! k = Some content
    /\ normalizedHash (hashSha256 t) = Ok (sha256 content) /\ size_of content = byteSize t.
Proof.
  intros E R Ht NP ND.
  pose proof (reachable_Inv (w0, []) (w, D) R (Inv_initial w0 E)) as I. cbn in I.
  destruct (inv_safe _ _ I t Ht NP ND) as [(b & L & G1 & G2)|(b & L & G1 & G2)];
    [exists (originalKey t)|exists (trashKey t)]; exists b; auto.
Qed.

(** ** [purgeExpired] *)

Lemma purge_effect_rows_map D id force w w' :
  Inv D w -> purge_effect id force w w' ->
  exists f, tombstones w' = map f (tombstones w)
    /\ forall u, u ∈ tombstones w -> identity (f u) = identity u /\ (state u = PURGED -> state (f u) = PURGED).
Proof.
  intros I E. unfold purge_effect in E. destruct (authorised id force w) eqn:A.
  - unfold authorised in A. destruct (List.find (has_id id) (tombstones w)) as [t|] eqn:Fd; [|done].
    apply find_id_some in Fd as [Ht Et]. destruct (E t Ht Et) as [(f & Ef & Hf) _].
    exists f. split; [done|]. intros u Hu. destruct (Hf u Hu) as [Iu Pu]. split; [done|]. intros P.
    apply Pu; [|done]. intros Eu. rewrite (NoDup_ids_eq _ u t (inv_ids _ _ I) Hu Ht Eu) in P.
    bool_simpl. destruct A as [[A _] _]. apply bool_decide_eq_true in A. congruence.
  - destruct E as [_ E]. destruct (tombstones w) as [|t l] eqn:T.
    + destruct (E (pending_row [] REPORT [] [] [] 0 [] 0 0 None)) as [(f & Ef & Hf) _ _ _ _].
      rewrite T in *. exists f. split; [done|]. intros u Hu. by destruct (Hf u Hu) as [? [? ?]]; auto.
    + destruct (E t) as [(f & Ef & Hf) _ _ _ _]. rewrite T in *. exists f. split; [done|].
      intros u Hu. by destruct (Hf u Hu) as [? [? ?]]; auto.
Qed.

Definition is_purged (id : str) (w : World) : Prop :=
  exists u, u ∈ tombstones w /\ t_id u = id /\ state u = PURGED.

Lemma is_purged_map id w w' f :
  tombstones w' = map f (tombstones w) ->
  (forall u, u ∈ tombstones w -> identity (f u) = identity u /\ (state u = PURGED -> state (f u) = PURGED)) ->
  is_purged id w -> is_purged id w'.
Proof.
  intros Ef Hf (u & Hu & Ei & P). destruct (Hf u Hu) as [Iu Pu]. exists (f u).
  split; [rewrite Ef; by apply list_elem_of_fmap_2|]. split; [|auto].
  by apply identity_fields in Iu as [-> _].
Qed.

Lemma key_of_row_map ids w w' f d k :
  tombstones w' = map f (tombstones w) ->
  (forall u, u ∈ tombstones w -> identity (f u) = identity u /\ (state u = PURGED -> state (f u) = PURGED)) ->
  key_of_row ids w' d k -> key_of_row ids w d k.
Proof.
  intros Ef Hf (x & Hx & Hid & Hd & Hk). rewrite Ef in Hx.
  apply list_elem_of_fmap in Hx as (u & -> & Hu). destruct (Hf u Hu) as [Iu _].
  destruct (identity_fields _ _ Iu) as (E1 & _ & _ & E4 & E5 & _ & _ & _ & E9).
  exists u. rewrite <- E1, <- E4, <- E5, <- E9. auto.
Qed.

Lemma key_of_row_mono ids ids' w d k :
  (forall id, id ∈ ids -> id ∈ ids') -> key_of_row ids w d k -> key_of_row ids' w d k.
Proof. intros S (t & Ht & Hid & R). exists t. auto. Qed.

Lemma purge_all_spec ids D n w :
  Inv D w ->
  wp true (purge_all config ids n) (fun r w' =>
    (forall id, is_purged id w -> is_purged id w')
    /\ (forall d k, store_of d w' !! k <> store_of d w !! k -> key_of_row ids w d k)
    /\ match r with
       | Ok m => m = n + Z.of_nat (List.length ids) /\ forall id, id ∈ ids -> is_purged id w'
       | Throws _ => True
       end) w.
Proof.
  revert D n w. induction ids as [|id ids IH]; intros D n w I; simpl purge_all.
  { wp_step. split; [done|]. split; [done|]. split; [simpl; lia|]. by intros id ?%not_elem_of_nil. }
  wp_step. eapply wp_mono; [by apply (purge_spec config D)|]. intros r w1 [E O].
  destruct (purge_effect_rows_map D id false w w1 I E) as (f & Ef & Hf).
  assert (Ch : forall d k, store_of d w1 !! k <> store_of d w !! k -> key_of_row (id :: ids) w d k).
  { intros d k N. destruct (purge_effect_changes D id false w w1 d k I E N) as [_ K].
    eapply key_of_row_mono, K. intros x ->%list_elem_of_singleton. by constructor. }
  destruct r as [res|e]; [|split; [by intros; eapply is_purged_map|done]].
  assert (P1 : is_purged id w1) by (destruct O as (u & Hu & Eu & Pu & _); by exists u).
  assert (I1 : exists D1, Inv D1 w1).
  { unfold purge_effect in E. destruct (authorised id false w) eqn:A; [|exists D; by eapply rows_step_Inv].
    unfold authorised in A. destruct (List.find (has_id id) (tombstones w)) as [t|] eqn:Fd; [|done].
    apply find_id_some in Fd as [Ht <-]. eexists. eapply Inv_destroy; [done|done|by apply E]. }
  destruct I1 as [D1 I1]. eapply wp_mono; [by apply (IH D1)|]. intros r w2 (Kp & Ch2 & Oc).
  split; [by intros x Px; eapply Kp, is_purged_map|]. split.
  - intros d k N. destruct (decide (store_of d w2 !! k = store_of d w1 !! k)) as [E2|N2].
    + apply Ch. by rewrite <- E2.
    + eapply key_of_row_map; [done|done|]. eapply key_of_row_mono, Ch2, N2. by constructor.
  - destruct r as [m|e]; [|done]. destruct Oc as [-> Oc]. split; [simpl List.length; lia|].
    intros x [->|Hx]%elem_of_cons; [by apply Kp|by apply Oc].
Qed.

Lemma due_ids_spec limit w id :
  id ∈ due_ids limit w ->
  exists t, t ∈ tombstones w /\ t_id t = id /\ state t = RETAINED /\ purgeAfter t <= clock w.
Proof.
  unfold due_ids. intros (t & -> & Ht)%list_elem_of_fmap.
  apply subseteq_take, elem_of_js_sort, elem_of_filterb in Ht as [Ht B]. bool_simpl.
  destruct B as [B1 B2]. apply bool_decide_eq_true in B1. apply Z.leb_le in B2. by exists t.
Qed.

(** [purgeExpired] touches at most 500 rows, all RETAINED with a retention
    period that is over, and changes no object of another row.  Without [execute] it changes nothing.  With it, when it
    returns, every row it selected is PURGED and counted. *)
Theorem purgeExpired_spec D execute limit w s :
  Inv D w ->
  let due := due_ids (Z.max 1 (Z.min (limit ?? 100) 500)) w in
  let '(r, w') := run (purgeExpired config execute limit) w s in
  (List.length due <= 500)%nat
  /\ (forall id, id ∈ due -> exists t, t ∈ tombstones w /\ t_id t = id /\ state t = RETAINED
                                   /\ purgeAfter t <= clock w)
  /\ (forall d k, store_of d w' !! k <> store_of d w !! k -> execute = true /\ key_of_row due w d k)
  /\ (execute = false -> w' = w)
  /\ match r with
     | Ok res => candidateCount res = Z.of_nat (List.length due) /\ dryRun res = negb execute
                 /\ purgedCount res = (if execute then candidateCount res else 0)
                 /\ (execute = true -> forall id, id ∈ due -> is_purged id w')
     | Throws _ => True
     end.
Proof.
  intros I due.
  assert (W : wp true (purgeExpired config execute limit) (fun r w' =>
    (forall d k, store_of d w' !! k <> store_of d w !! k -> execute = true /\ key_of_row due w d k)
    /\ (execute = false -> w' = w)
    /\ match r with
       | Ok res => candidateCount res = Z.of_nat (List.length due) /\ dryRun res = negb execute
                   /\ purgedCount res = (if execute then candidateCount res else 0)
                   /\ (execute = true -> forall id, id ∈ due -> is_purged id w')
       | Throws _ => True
       end) w).
  { unfold purgeExpired. wp_step. apply wp_effect; cbn; [|done]. split; [|done]. fold due.
    destruct execute; cbn; [|by wp_step]. wp_step.
    eapply wp_mono; [by apply (purge_all_spec due D)|]. intros [m|e] w' (_ & Ch & Oc); cbn.
    - wp_step. destruct Oc as [-> Oc]. split; [auto|]. done.
    - split; [auto|done]. }
  pose proof (wp_run true _ _ w s W (allowed_any s)) as R. destruct (run _ w s) as [r w'].
  split; [|split; [apply due_ids_spec|exact R]].
  unfold due, due_ids. rewrite length_map. etransitivity; [apply firstn_le_length|lia].
Qed.

(** ** Retaining and restoring *)

Lemma resolveReference_ok d ref r :
  resolveReference config d ref = Ok r ->
  key_ok (r_key r) = true /\ r_storage r = toStorageDomain d
  /\ configuredFileStorageForProvider config (r_provider r) = Ok tt.
Proof.
  intros E. pose proof (resolveReference_storage config d ref r E) as Es. revert E.
  unfold resolveReference. intros (p & Ep & E)%result_bind_ok. destruct p as [p|].
  - apply result_bind_ok in E as ([] & Ec & [= <-]). split; [|done]. cbn.
    unfold parseStorageReference in Ep. destruct (match_reference ref) as [[q k]|]; [|done].
    apply result_bind_ok in Ep as (k' & Ek & [= <-]). cbn.
    apply normalizeStorageKey_ok in Ek as [-> Ek]. done.
  - apply result_bind_ok in E as ([] & Ec & E). apply result_bind_ok in E as (k & Ek & [= <-]).
    split; [|done]. cbn. unfold legacyLocalPathToKey in Ek. destruct (_ || _) in Ek; [done|].
    cbv zeta in Ek. destruct (_ || _) in Ek; [done|].
    apply normalizeStorageKey_ok in Ek as [-> Ek]. done.
Qed.

(** What the round trip needs of the request and of the world: a new record,
    its object in place under the expected hash, a fresh identifier. *)
Record retain_request (input : RetainStorageObjectInput) (resolved : ResolvedObject)
  (content : bytes) (w : World) : Prop := {
  req_hash : normalizedHash (in_expectedHash input) = Ok (sha256 content);
  req_resolved : resolveReference config (in_domain input) (in_reference input) = Ok resolved;
  req_key : starts_with trash_prefix (r_key resolved) = false;
  req_own_key : own_key config input;
  req_object : store_of (r_storage resolved) w !! r_key resolved = Some content;
  req_size : size_of content <= 9007199254740991;
  req_new : List.find (is_business (in_domain input) (in_businessRecordId input)) (tombstones w) = None;
  req_fresh u : u ∈ tombstones w -> t_id u <> uuid (drawn w);
  req_trash : store_of (r_storage resolved) w !! (trash_prefix ++ uuid (drawn w)) = None;
  req_uuid : key_ok (trash_prefix ++ uuid (drawn w)) = true /\ (List.length (uuid (drawn w)) <= 128)%nat;
  req_days : exists d, retentionDays config = Ok d /\ 0 < d
}.

Lemma retain_live D input resolved content w :
  Inv D w -> retain_request input resolved content w ->
  wp false (retain config uuid input) (fun r w' => exists res t,
    r = Ok res /\ Inv D w' /\ row_wf t /\ agrees t resolved (sha256 content)
    /\ t_id t = uuid (drawn w) /\ retained t res w'
    /\ t_domain t = in_domain input /\ byteSize t = size_of content
    /\ clock w' < r_purgeAfter res
    /\ (forall d k, ~ (d = dom t /\ (k = originalKey t \/ k = trashKey t)) ->
         store_of d w' !! k = store_of d w !! k)) w.
Proof.
  intros I [Rh Rr Rk Ro Rc Rs Rn Rf Rt [Ru1 Ru2] [days [Rd Pd]]]. unfold retain. do 2 wp_step.
  rewrite Rh. do 2 wp_step. rewrite Rr, Rk. wp_step.
  destruct (resolveReference_ok _ _ _ Rr) as (Kk & Es & Ec).
  pose proof (normalizedHash_idem _ _ Rh) as Nh.
  assert (Sr : source_ready config uuid input resolved (sha256 content) w).
  { split; [done|]. split; [done|]. split; [by exists content|]. split; [by exists days|done]. }
  eapply wp_mono; [by apply (find_or_create_spec config uuid false D)|].
  intros [t|e] w1 [I1 Ht]; [|by destruct Ht as (_ & [?|[]])].
  destruct Ht as ((Wf & K & Ag & Oi) & Hsr).
  destruct (Hsr eq_refl Sr) as (Eid & Ep & T1 & S1 & V1 & C1 & Ra).
  assert (Ht : t ∈ tombstones w1) by (rewrite T1; apply elem_of_app; right; by constructor).
  pose proof Ag as (A1 & A2 & A3 & A4).
  assert (Tk : trashKey t = trash_prefix ++ uuid (drawn w)) by (rewrite <- Eid; apply Wf).
  assert (Bs : byteSize t = size_of content).
  { destruct V1 as (bl & L & _ & <-). rewrite S1, A4, A2, Rc in L. by injection L as <-. }
  wp_step. eapply wp_mono; [by apply retain_transition_spec|].
  intros [res|e] w2 [S2 Hr].
  - destruct Hr as [Hr Er]. exists res, t. specialize (Er Ht Ep).
    repeat (split; [done || by eapply Inv_step|]). split; [apply Oi|]. split; [done|]. split.
    + rewrite Er. cbn. rewrite (step_clock _ _ _ S2), C1. unfold retention_end in Ra. rewrite Rd in Ra.
      cbn in Ra. injection Ra as <-. lia.
    + intros d k N. rewrite (step_frame _ _ _ S2) by done. by rewrite S1.
  - exfalso. destruct Hr as [?|Hr]; [done|]. apply Hr. split; [|split; [by exists days|]].
    + split; [by rewrite A2|]. split; [by rewrite Tk|].
      split; [rewrite Bs; pose proof (size_of_nonneg content); unfold MAX_SAFE_INTEGER; lia|].
      right. split; [|done]. by rewrite Tk, S1, A4.
    + intros u Hu Iu. apply identity_fields in Iu as [Iu _].
      rewrite (NoDup_ids_eq _ u t (inv_ids _ _ I1) Hu Ht Iu). congruence.
Qed.

Lemma restore_live D u actor w :
  Inv D w -> u ∈ tombstones w -> restorable config u actor w ->
  wp false (restore config (t_id u) actor) (fun r w' => exists res, r = Ok res
    /\ safe_step u w w' /\ restored (t_id u) w res w') w.
Proof.
  intros I Hu Rs. unfold restore. do 2 wp_step.
  eapply wp_mono; [apply restore_transition_spec; [by apply (inv_wf _ _ I)|by eapply elem_known|done]|].
  intros [res|e] w' [S Hr].
  - split; [by exists res|done].
  - by destruct Hr as [?|[]].
Qed.

(** C4: When no call fails, retaining a stored object of a new business record
    moves it to the trash, and restoring it within its retention period brings
    it back: both calls return, the original key again holds an object of the
    same hash and size, and every other key of both stores is as it was. *)
Theorem retain_restore_roundtrip D input resolved content actor w :
  Inv D w -> retain_request input resolved content w ->
  exists res w1 res' w2 content',
    run (retain config uuid input) w [] = (Ok res, w1)
    /\ r_state res = RETAINED
    /\ store_of (r_storage resolved) w1 !! r_key resolved = None
    /\ run (restore config (tombstoneId res) actor) w1 [] = (Ok res', w2)
    /\ r_state res' = RESTORED
    /\ store_of (r_storage resolved) w2 !! r_key resolved = Some content'
    /\ sha256 content' = sha256 content /\ size_of content' = size_of content
    /\ forall d k, (d, k) <> (r_storage resolved, r_key resolved) ->
         store_of d w2 !! k = store_of d w !! k.
Proof.
  intros I Rq. pose proof Rq as [Rh Rr _ _ _ Rs _ _ Rt [Ru1 Ru2] _].
  destruct (resolveReference_ok _ _ _ Rr) as (Kk & _ & Ec).
  assert (A0 : allowed (R := RacedRow) false []) by (right; constructor).
  pose proof (wp_run false _ _ w [] (retain_live D input resolved content w I Rq) A0)
    as (res & t & E1 & I1 & Wf & Ag & Eid & Hr & Ed & Bs & Cl & Fr).
  destruct (run (retain config uuid input) w []) as [r1 w1]. cbn in E1. subst r1. cbn in *.
  destruct Hr as (u & Hu & Iu & Su & -> & Vt & No). pose proof Ag as (A1 & A2 & A3 & A4).
  destruct (identity_fields _ _ Iu) as (B1 & B2 & B3 & B4 & B5 & B6 & B7 & _ & B9).
  assert (Tk : trashKey t = trash_prefix ++ uuid (drawn w)) by (rewrite <- Eid; apply Wf).
  assert (Rb : restorable config u actor w1).
  { split; [done|]. split; [done|]. split; [|split; [|split; [|split; [|split; [|split]]]]].
    - unfold storageForRow. by rewrite B3, A1, Ec.
    - by rewrite B4, A2.
    - by rewrite B5, Tk.
    - rewrite B7, Bs. pose proof (size_of_nonneg content). unfold MAX_SAFE_INTEGER. lia.
    - rewrite B5. by apply (identity_verified w1 t u).
    - by rewrite B4, B9.
    - by rewrite B1, Eid. }
  pose proof (wp_run false _ _ w1 [] (restore_live D u actor w1 I1 Hu Rb) A0)
    as (res' & E2 & S2 & v & Hv & Ev & Sv & -> & Ov).
  destruct (run (restore config (t_id u) actor) w1 []) as [r2 w2] eqn:Er2.
  cbn in *. subst r2.
  assert (Iv : identity v = identity t).
  { destruct S2 as [(f & Ef & Hf) _ _ _ _]. rewrite Ef in Hv.
    apply list_elem_of_fmap in Hv as (x & -> & Hx). destruct (Hf x Hx) as [Ix _].
    destruct (identity_fields _ _ Ix) as [Ex _]. rewrite Ev in Ex.
    rewrite (NoDup_ids_eq _ u x (inv_ids _ _ I1) Hu Hx Ex) in *. congruence. }
  destruct Ov as [->|[(bl & L & G1 & G2) Nt]].
  { exfalso. rewrite (NoDup_ids_eq _ v u (inv_ids _ _ I1) Hv Hu Ev) in Sv. congruence. }
  destruct (identity_fields _ _ Iv) as (_ & _ & _ & D4 & D5 & D6 & D7 & _ & D9).
  rewrite D4, D9, A4, A2 in L. rewrite D6, A3, (normalizedHash_idem _ _ Rh) in G1.
  rewrite D5, D9 in Nt. injection G1 as G1.
  exists (safeResult u), w1, (safeResult v), w2, bl. cbn. rewrite Er2.
  repeat (split; [done || congruence|]). intros d k N.
  destruct (decide (d = dom t /\ k = trashKey t)) as [[-> ->]|Nk].
  - rewrite Nt, Tk, A4. done.
  - rewrite (step_frame _ _ _ S2), Fr; [done| |].
    + intros [-> [-> | ->]]; [by rewrite A2, A4 in N|by apply Nk].
    + rewrite B4, B5, B9. intros [-> [-> | ->]]; [by rewrite A2, A4 in N|by apply Nk].
Qed.
End guarantees.

(** ** A concrete service

    One upload on a local directory, with a stand-in for SHA-256. *)

Module Example.
Definition digest : Digest := fun b => replicate 63 48%N ++ [Z.to_N (48 + size_of b mod 10)].
Definition chunks (b : bytes) : list bytes := [b].
Definition storage : FileStorage := @LocalFileStorage c_locale digest chunks.

(** The file was stored for the record [batch]. *)
Definition records : KeyRecords :=
  fun _ k => if str_eqb k (js "2024/a.csv") then js "batch" else js "other".

#[export] Existing Instances c_locale digest storage records.

Lemma laws : FileStorageLaws.
Proof. apply LocalFileStorage_laws. intros b. apply app_nil_r. Qed.

#[export] Existing Instance laws.

Definition config : StorageConfig := {|
  STORAGE_PROVIDER := None; SUPABASE_STORAGE_ACCESS_MODE := None; supabase_settings := false;
  SUPABASE_STORAGE_RETENTION_DAYS := None;
  storage_dir d := match d with uploads => js "/srv/uploads" | reports => js "/srv/reports" end;
  process_cwd := js "/srv"
|}.

Definition uuid (n : nat) : str := js "id-" ++ digits_of 5 (Z.of_nat n).

Definition content : bytes := [x01; x02; x03].

Definition w0 : World := {|
  tombstones := []; uploadBatches := []; auditEvents := [];
  uploads_store := {[js "2024/a.csv" := content]}; reports_store := ∅; clock := 1000; drawn := 0
|}.

Definition input : RetainStorageObjectInput := {|
  in_domain := META_UPLOAD; in_businessRecordId := js "batch"; in_reference := js "local:2024/a.csv";
  in_expectedHash := digest content; in_actorUserId := None
|}.

Definition resolved : ResolvedObject :=
  {| r_provider := js "local"; r_key := js "2024/a.csv"; r_storage := uploads |}.

Lemma own_key_input : own_key config input.
Proof.
  intros r E. assert (R : resolveReference config (in_domain input) (in_reference input) = Ok resolved)
    by (vm_compute; reflexivity).
  rewrite R in E. injection E as <-. vm_compute. reflexivity.
Qed.

Lemma request : retain_request config uuid input resolved content w0.
Proof.
  split; try (vm_compute; reflexivity); try (vm_compute; discriminate).
  - apply own_key_input.
  - intros u Hu. by apply not_elem_of_nil in Hu.
  - split; [vm_compute; reflexivity|]. apply Nat.leb_le. vm_compute. reflexivity.
  - exists 30. split; [vm_compute; reflexivity|lia].
Qed.

(** The state after [retain]. *)
Definition w1 : World := (run (retain config uuid input) w0 []).2.

Lemma Inv_w1 : Inv [] w1.
Proof.
  exact (proj1 (wp_run true _ _ w0 [] (retain_spec config uuid [] input w0 (Inv_initial w0 eq_refl)
                  own_key_input) (allowed_any []))).
Qed.

(** Where a [retain] names the key of another record, the other record's
    restored object moves to the trash of the wrong row: the row [id-0], which
    nobody purged, is left without a copy. *)
Definition foreign_input : RetainStorageObjectInput := {|
  in_domain := META_UPLOAD; in_businessRecordId := js "other"; in_reference := js "local:2024/a.csv";
  in_expectedHash := digest content; in_actorUserId := None
|}.

Definition w_restored : World := (run (restore config (js "id-0") None) w1 []).2.
Definition w_foreign : World := (run (retain config uuid foreign_input) w_restored []).2.

Example foreign_key_loses_copy :
  map (fun t => (t_id t, state t)) (tombstones w_foreign) = [(js "id-0", RESTORED); (js "id-1", RETAINED)]
  /\ uploads_store w_foreign !! js "2024/a.csv" = None
  /\ uploads_store w_foreign !! js "trash/id-0" = None.
Proof. split; [|split]; vm_compute; reflexivity. Qed.
End Example.
Import Example.

Lemma retain_reports_truth_witness :
  let script := [NoFault; NoFault; NoFault; NoFault; NoFault; NoFault; NoFault; FailAfter] in
  retain_outcome Example.input (run (retain Example.config Example.uuid Example.input) Example.w0 script).1
    (run (retain Example.config Example.uuid Example.input) Example.w0 script).2.
Proof.
  intros script.
  exact (proj2 (retain_reports_truth Example.config Example.uuid [] Example.input Example.w0 script
           (Inv_initial Example.w0 eq_refl) Example.own_key_input)).
Defined.

Lemma retain_restore_roundtrip_witness :
  exists res w1 res' w2 content',
    run (retain Example.config Example.uuid Example.input) Example.w0 [] = (Ok res, w1)
    /\ r_state res = RETAINED
    /\ uploads_store w1 !! js "2024/a.csv" = None
    /\ run (restore Example.config (tombstoneId res) None) w1 [] = (Ok res', w2)
    /\ r_state res' = RESTORED
    /\ uploads_store w2 !! js "2024/a.csv" = Some content'
    /\ sha256 content' = sha256 Example.content /\ size_of content' = 3
    /\ forall d k, (d, k) <> (uploads, js "2024/a.csv") ->
         store_of d w2 !! k = store_of d Example.w0 !! k.
Proof.
  exact (retain_restore_roundtrip Example.config Example.uuid [] Example.input Example.resolved
           Example.content None Example.w0 (Inv_initial Example.w0 eq_refl) Example.request).
Defined.

Lemma restore_keeps_copies_witness :
  restore_outcome (js "id-0") Example.w1
    (run (restore Example.config (js "id-0") None) Example.w1 [NoFault; NoFault; FailBefore]).1
    (run (restore Example.config (js "id-0") None) Example.w1 [NoFault; NoFault; FailBefore]).2.
Proof.
  pose proof (restore_keeps_copies Example.config [] (js "id-0") None Example.w1
                [NoFault; NoFault; FailBefore] uploads [] Example.Inv_w1) as R.
  destruct (run _ Example.w1 _) as [r w']. exact (proj1 (proj2 R)).
Defined.

Lemma purge_only_authorised_witness :
  let w' := (run (purge Example.config (js "id-0") None true) Example.w1 []).2 in
  let key := js "trash/id-0" in
  uploads_store w' !! key <> uploads_store Example.w1 !! key
  /\ authorised (js "id-0") true Example.w1 = true.
Proof.
  intros w' key.
  assert (N : uploads_store w' !! key <> uploads_store Example.w1 !! key) by (vm_compute; discriminate).
  split; [exact N|].
  pose proof (purge_only_authorised Example.config [] (js "id-0") None true Example.w1 []
                uploads key Example.Inv_w1) as R.
  subst w'. destruct (run _ Example.w1 _) as [r w']. exact (proj1 (proj2 R N)).
Defined.

Lemma objects_never_lost_witness :
  exists t k content, t ∈ tombstones Example.w1 /\ (k = originalKey t \/ k = trashKey t)
    /\ uploads_store Example.w1 !! k = Some content /\ size_of content = 3.
Proof.
  destruct (tombstones Example.w1) as [|t l] eqn:E; [vm_compute in E; discriminate E|].
  assert (Ht : t ∈ tombstones Example.w1) by (rewrite E; apply list_elem_of_here).
  assert (P : state t = RETAINED /\ toStorageDomain (t_domain t) = uploads /\ byteSize t = 3)
    by (vm_compute in E; injection E as <- _; split; [|split]; reflexivity).
  destruct P as (P1 & P2 & P3).
  destruct (objects_never_lost Example.config Example.uuid Example.w0 Example.w1 [] t eq_refl)
    as (k & c & Hk & L & _ & S).
  - apply rtc_once. exact (step_retain _ _ Example.input [] Example.w0 [] Example.own_key_input).
  - exact Ht.
  - rewrite P1. discriminate.
  - apply not_elem_of_nil.
  - exists t, k, c. rewrite P2 in L. rewrite P3 in S. rewrite <- E. auto.
Defined.

Lemma purgeExpired_spec_witness :
  let w := set_clock 2600000000000 Example.w1 in
  let due := due_ids 100 w in
  due = [js "id-0"]
  /\ forall id, id ∈ due -> exists t, t ∈ tombstones w /\ t_id t = id /\ state t = RETAINED
                                  /\ purgeAfter t <= clock w.
Proof.
  intros w due. split; [vm_compute; reflexivity|].
  assert (I : Inv [] w) by exact (Inv_same [] Example.w1 w eq_refl (fun d => match d with uploads => eq_refl | reports => eq_refl end) Example.Inv_w1).
  pose proof (purgeExpired_spec Example.config [] true None w [] I) as R. cbv zeta in R.
  destruct (run _ w _) as [r w']. exact (proj1 (proj2 R)).
Defined.
