(* ===== verification/Concurrency.v ===== *)
(** * Requests that run at the same time

    A request handler of a service is a tree of atomic actions on the outside
    world: a database transaction or a call to another system, which may also
    fail before or after its effect, and local actions such as reading the
    clock.  Between two actions of one request the others run, so the world may
    have changed arbitrarily far along the other requests' actions.

    [system_step] interleaves any number of requests; [safe] is the
    rely-guarantee specification of one request, and [reachable_invariant] and
    [reachable_guarantee] say that safe requests keep the invariant and the
    guarantee in every interleaving.  With the rely relation [eq] the same
    specification describes a request that runs alone, which [run] executes. *)

From S2P Require Import Prelude JsNumber JsString.
From stdpp Require Import relations.

Section concurrency.
Context {W : Type}.

(** ** Transactions

    The body of a transaction reads and writes the world; when it throws,
    nothing it wrote remains. *)
Definition TX (A : Type) : Type := W -> result (A * W).

Definition tx_ret {A} (a : A) : TX A := fun w => Ok (a, w).
Definition tx_throw {A} (e : js_error) : TX A := fun _ => Throws e.
Definition tx_get {A} (f : W -> A) : TX A := fun w => Ok (f w, w).
Definition tx_bind {A B} (m : TX A) (f : A -> TX B) : TX B := fun w =>
  match m w with Ok (a, w') => f a w' | Throws e => Throws e end.
Definition tx_lift {A} (r : result A) : TX A := fun w => let! a := r in Ok (a, w).

(** ** Requests *)

Inductive prog (A : Type) : Type :=
  | Ret (a : A)
  | Throw (e : js_error)
  | Local {B : Type} (f : W -> B * W) (k : B -> prog A)
  | Call {B : Type} (f : TX B) (k : result B -> prog A).

Fixpoint bind {A B} (m : prog A) (f : A -> prog B) : prog B :=
  match m with
  | Ret _ a => f a
  | Throw _ e => Throw _ e
  | Local _ g k => Local _ g (fun b => bind (k b) f)
  | Call _ g k => Call _ g (fun r => bind (k r) f)
  end.

Fixpoint catch {A} (m : prog A) (h : js_error -> prog A) : prog A :=
  match m with
  | Ret _ a => Ret _ a
  | Throw _ e => h e
  | Local _ g k => Local _ g (fun b => catch (k b) h)
  | Call _ g k => Call _ g (fun r => catch (k r) h)
  end.

Definition of_result {A} (r : result A) : prog A :=
  match r with Ok a => Ret _ a | Throws e => Throw _ e end.

(** A transaction or another call, as a request of its own. *)
Definition call {A} (f : TX A) : prog A := Call _ f of_result.
Definition look {A} (f : W -> A) : prog A := Local _ (fun w => (f w, w)) (fun a => Ret _ a).

Definition io_error : js_error := {| err_status := 0; err_code := js "Error" |}.

(** ** A request alone

    The script says for each call whether it fails before or after its effect. *)
Inductive fault := NoFault | FailBefore | FailAfter.

Fixpoint run {A} (script : list fault) (m : prog A) (w : W) : result A * W :=
  match m with
  | Ret _ a => (Ok a, w)
  | Throw _ e => (Throws e, w)
  | Local _ f k => let '(b, w') := f w in run script (k b) w'
  | Call _ f k =>
      let '(flt, rest) := match script with [] => (NoFault, []) | x :: s => (x, s) end in
      match flt, f w with
      | FailBefore, _ => run rest (k (Throws io_error)) w
      | _, Throws e => run rest (k (Throws e)) w
      | NoFault, Ok (b, w') => run rest (k (Ok b)) w'
      | FailAfter, Ok (b, w') => run rest (k (Throws io_error)) w'
      end
  end.

(** ** All requests together *)

Inductive prog_step {A} : prog A -> W -> prog A -> W -> Prop :=
  | step_local {B} (f : W -> B * W) k w b w' :
      f w = (b, w') -> prog_step (Local _ f k) w (k b) w'
  | step_call {B} (f : TX B) k w b w' :
      f w = Ok (b, w') -> prog_step (Call _ f k) w (k (Ok b)) w'
  | step_throw {B} (f : TX B) k w e :
      f w = Throws e -> prog_step (Call _ f k) w (k (Throws e)) w
  | step_fail_before {B} (f : TX B) k w :
      prog_step (Call _ f k) w (k (Throws io_error)) w
  | step_fail_after {B} (f : TX B) k w b w' :
      f w = Ok (b, w') -> prog_step (Call _ f k) w (k (Throws io_error)) w'.

Context {Reply : Type} (handlers : prog Reply -> Prop) (environment : relation W).

Inductive system_step : W * list (prog Reply) -> W * list (prog Reply) -> Prop :=
  | sys_request w ts h : handlers h -> system_step (w, ts) (w, ts ++ [h])
  | sys_thread w w' ts1 ts2 p p' :
      prog_step p w p' w' -> system_step (w, ts1 ++ p :: ts2) (w', ts1 ++ p' :: ts2)
  | sys_environment w w' ts : environment w w' -> system_step (w, ts) (w', ts).

(** Running one request to its end is one of the interleavings. *)
Lemma run_reachable (m : prog Reply) script w ts1 ts2 :
  rtc system_step (w, ts1 ++ m :: ts2)
    ((run script m w).2, ts1 ++ of_result (run script m w).1 :: ts2).
Proof.
  revert script w. induction m as [a|e|B f k IH|B f k IH]; intros script w; simpl.
  - reflexivity.
  - reflexivity.
  - destruct (f w) as [b w'] eqn:E. eapply rtc_l; [apply sys_thread; by constructor|apply IH].
  - destruct (match script with [] => _ | _ => _ end) as [flt rest].
    destruct flt, (f w) as [[b w']|e] eqn:E; (eapply rtc_l; [apply sys_thread|apply IH]);
      solve [by apply step_call | by apply step_throw | by apply step_fail_before | by eapply step_fail_after].
Qed.

(** A request in the pool either has not acted yet or acted first at some
    moment of the run. *)
Lemma first_action k (m : prog Reply) s s' : s.2 !! k = Some m -> rtc system_step s s' ->
  s'.2 !! k = Some m
  \/ exists v ts1 ts2 m1 v1, List.length ts1 = k /\ rtc system_step s (v, ts1 ++ m :: ts2)
       /\ prog_step m v m1 v1 /\ rtc system_step (v1, ts1 ++ m1 :: ts2) s'.
Proof.
  intros Hk R. induction R as [s|s s1 s' St R IH]; [by left|].
  assert (C : s1.2 !! k = Some m \/ exists v ts1 ts2 m1 v1, List.length ts1 = k
            /\ s = (v, ts1 ++ m :: ts2) /\ prog_step m v m1 v1 /\ s1 = (v1, ts1 ++ m1 :: ts2)).
  { destruct St as [w ts h _|w w' ts1 ts2 p p' St|w w' ts _]; simpl in *.
    - left. by apply lookup_app_l_Some.
    - destruct (decide (k = List.length ts1)) as [->|N].
      + rewrite list_lookup_middle in Hk by done. injection Hk as ->. right. by eexists _, _, _, _, _.
      + left. destruct (decide (k < List.length ts1)%nat) as [L|L];
          [by rewrite lookup_app_l in Hk |- *|].
        rewrite lookup_app_r in Hk |- * by lia. by destruct (k - List.length ts1)%nat eqn:D; [lia|].
    - by left. }
  destruct C as [C|(v & ts1 & ts2 & m1 & v1 & <- & -> & P & ->)].
  - destruct (IH C) as [?|(v & ts1 & ts2 & m1 & v1 & E & R1 & P & R2)]; [by left|].
    right. exists v, ts1, ts2, m1, v1. split; [done|]. split; [by eapply rtc_l|done].
  - right. by exists v, ts1, ts2, m1, v1.
Qed.

(** A request that has answered does nothing more. *)
Lemma answered_stays k (m : prog Reply) s s' : s.2 !! k = Some m ->
  (exists a, m = Ret _ a) \/ (exists e, m = Throw _ e) -> rtc system_step s s' -> s'.2 !! k = Some m.
Proof.
  intros Hk A R. destruct (first_action k m s s' Hk R) as [?|(v & ts1 & ts2 & m1 & v1 & _ & _ & P & _)]; [done|].
  destruct A as [[a ->]|[e ->]]; inversion P.
Qed.

(** The actions a request may do next. *)
Lemma prog_step_inv {A} (m m' : prog A) w w' : prog_step m w m' w' ->
  match m with
  | Ret _ _ | Throw _ _ => False
  | Local _ f k => m' = k (f w).1 /\ w' = (f w).2
  | Call _ f k => (exists e, m' = k (Throws e)) \/ exists b, f w = Ok (b, w') /\ m' = k (Ok b)
  end.
Proof. destruct 1 as [B f k w b w' E| | | |]; eauto. by rewrite E. Qed.

(** ** Specifications *)

Section safe.
Context (faulty : bool) (I : W -> Prop) (rely guarantee : relation W).

(** From [w] on, whatever [rely] allows in between: every action keeps [I] and
    [guarantee], and the end satisfies [Q]. *)
Fixpoint safe {A} (m : prog A) (Q : result A -> W -> Prop) (w : W) : Prop :=
  match m with
  | Ret _ a => Q (Ok a) w
  | Throw _ e => Q (Throws e) w
  | Local _ f k => forall w1, rely w w1 -> I w1 ->
      I (f w1).2 /\ guarantee w1 (f w1).2 /\ safe (k (f w1).1) Q (f w1).2
  | Call _ f k => forall w1, rely w w1 -> I w1 ->
      (faulty = true -> safe (k (Throws io_error)) Q w1) /\
      match f w1 with
      | Ok (b, w2) => I w2 /\ guarantee w1 w2 /\ safe (k (Ok b)) Q w2
                      /\ (faulty = true -> safe (k (Throws io_error)) Q w2)
      | Throws e => safe (k (Throws e)) Q w1
      end
  end.

Lemma safe_ret {A} (a : A) (Q : result A -> W -> Prop) w : Q (Ok a) w -> safe (Ret _ a) Q w.
Proof. done. Qed.

Lemma safe_throw {A} e (Q : result A -> W -> Prop) w : Q (Throws e) w -> safe (Throw _ e) Q w.
Proof. done. Qed.

Lemma safe_mono {A} (m : prog A) (Q Q' : result A -> W -> Prop) w :
  safe m Q w -> (forall r w', Q r w' -> Q' r w') -> safe m Q' w.
Proof.
  intros S HQ. revert w S. induction m as [a|e|B f k IH|B f k IH]; simpl; intros w S; auto.
  - intros w1 R Hi. specialize (S w1 R Hi). naive_solver.
  - intros w1 R Hi. destruct (S w1 R Hi) as [Sb Sf]. split; [auto|].
    destruct (f w1) as [[b w2]|e]; [|auto].
    destruct Sf as (? & ? & ? & Sa). auto 6.
Qed.

Lemma safe_bind {A B} (m : prog A) (f : A -> prog B) (Q : result B -> W -> Prop) w :
  safe m (fun r w' => match r with Ok a => safe (f a) Q w' | Throws e => Q (Throws e) w' end) w ->
  safe (bind m f) Q w.
Proof.
  revert w. induction m as [a|e|C g k IH|C g k IH]; simpl; intros w S; [done..| |].
  - intros w1 R Hi. specialize (S w1 R Hi). naive_solver.
  - intros w1 R Hi. destruct (S w1 R Hi) as [Sb Sf]. split; [auto|].
    destruct (g w1) as [[b w2]|e]; [|auto].
    destruct Sf as (? & ? & ? & Sa). auto 6.
Qed.

Lemma safe_catch {A} (m : prog A) h (Q : result A -> W -> Prop) w :
  safe m (fun r w' => match r with Ok a => Q (Ok a) w' | Throws e => safe (h e) Q w' end) w ->
  safe (catch m h) Q w.
Proof.
  revert w. induction m as [a|e|C g k IH|C g k IH]; simpl; intros w S; [done..| |].
  - intros w1 R Hi. specialize (S w1 R Hi). naive_solver.
  - intros w1 R Hi. destruct (S w1 R Hi) as [Sb Sf]. split; [auto|].
    destruct (g w1) as [[b w2]|e]; [|auto].
    destruct Sf as (? & ? & ? & Sa). auto 6.
Qed.

Lemma safe_call {A} (f : TX A) (Q : result A -> W -> Prop) w :
  (forall w1, rely w w1 -> I w1 ->
    (faulty = true -> Q (Throws io_error) w1) /\
    match f w1 with
    | Ok (b, w2) => I w2 /\ guarantee w1 w2 /\ Q (Ok b) w2 /\ (faulty = true -> Q (Throws io_error) w2)
    | Throws e => Q (Throws e) w1
    end) ->
  safe (call f) Q w.
Proof.
  intros S. unfold call. simpl. intros w1 R Hi. destruct (S w1 R Hi) as [Sb Sf].
  split; [auto|]. destruct (f w1) as [[b w2]|e]; auto.
Qed.

Lemma safe_look {A} (f : W -> A) (Q : result A -> W -> Prop) w :
  (forall w1, guarantee w1 w1) ->
  (forall w1, rely w w1 -> I w1 -> Q (Ok (f w1)) w1) -> safe (look f) Q w.
Proof. intros G S. simpl. auto 6. Qed.

(** What a request owes the others does not depend on when it goes on. *)
Lemma safe_rely {A} (m : prog A) w w' :
  Transitive rely -> rely w w' -> safe m (fun _ _ => True) w -> safe m (fun _ _ => True) w'.
Proof. intros T R. destruct m; simpl; eauto 10. Qed.

(** A request that has not answered yet. *)
Definition live {A} (Q : result A -> W -> Prop) (m : prog A) (w : W) : Prop :=
  (exists a, m = Ret _ a) \/ (exists e, m = Throw _ e) \/ safe m Q w.

Lemma live_rely {A} (Q : result A -> W -> Prop) (m : prog A) w w' :
  Transitive rely -> rely w w' -> live Q m w -> live Q m w'.
Proof.
  intros T R [?|[?|S]]; [by left|by right; left|]. unfold live.
  destruct m; simpl in *; [eauto..| |]; right; right; eauto 10.
Qed.

Lemma safe_step {A} (Q : result A -> W -> Prop) (m m' : prog A) w w' :
  Reflexive rely -> faulty = true ->
  prog_step m w m' w' -> I w -> guarantee w w ->
  safe m Q w -> I w' /\ guarantee w w' /\ safe m' Q w'.
Proof.
  intros Rr F St Hi G S.
  destruct St as [B f k w b w' E|B f k w b w' E|B f k w e E|B f k w|B f k w b w' E]; simpl in S;
    specialize (S w ltac:(reflexivity) Hi); try rewrite E in S; simpl in S; naive_solver.
Qed.
End safe.

(** A request that runs alone does what [safe] says with the rely relation [eq]. *)
Lemma safe_run faulty I guarantee {A} (m : prog A) (Q : result A -> W -> Prop) script w :
  safe faulty I eq guarantee m Q w -> I w ->
  (faulty = true \/ Forall (fun f => f = NoFault) script) ->
  Q (run script m w).1 (run script m w).2 /\ I (run script m w).2.
Proof.
  revert script w. induction m as [a|e|B f k IH|B f k IH]; simpl; intros script w S Hi F; auto.
  - destruct (S w eq_refl Hi) as (Hi' & _ & Sk). destruct (f w) as [b w']. auto.
  - destruct (S w eq_refl Hi) as [Sb Sf].
    assert (Fr : exists flt rest, match script with [] => (NoFault, []) | x :: s => (x, s) end = (flt, rest)
              /\ (faulty = true \/ flt = NoFault /\ Forall (fun f => f = NoFault) rest)).
    { destruct script as [|x s]; [eauto 10|]. eexists _, _. split; [done|].
      destruct F as [|F]; [auto|]. inversion F; auto. }
    destruct Fr as (flt & rest & -> & Fr).
    assert (Fr' : faulty = true \/ Forall (fun f => f = NoFault) rest) by naive_solver.
    destruct (f w) as [[b w2]|e]; destruct flt; try (apply IH; naive_solver).
Qed.

(** ** Every interleaving *)

Section soundness.
Context (I : W -> Prop) (rely guarantee : relation W).
Context `{!PreOrder rely} (guarantee_refl : forall w, guarantee w w).
Context (guarantee_rely : forall w w', I w -> I w' -> guarantee w w' -> rely w w').
Context (environment_rely : forall w w', I w -> environment w w' -> I w' /\ rely w w').
Context (handlers_safe : forall h w, handlers h -> I w -> safe true I rely guarantee h (fun _ _ => True) w).

Definition good (s : W * list (prog Reply)) : Prop :=
  I s.1 /\ Forall (fun m => safe true I rely guarantee m (fun _ _ => True) s.1) s.2.

Lemma pool_rely w w' (ts : list (prog Reply)) : rely w w' ->
  Forall (fun m => safe true I rely guarantee m (fun _ _ => True) w) ts ->
  Forall (fun m => safe true I rely guarantee m (fun _ _ => True) w') ts.
Proof. intros R F. eapply Forall_impl; [exact F|]. intros m. by apply safe_rely; [apply _|]. Qed.

Lemma good_step s s' : good s -> system_step s s' ->
  good s' /\ rely s.1 s'.1 /\ (guarantee s.1 s'.1 \/ environment s.1 s'.1).
Proof.
  intros [Hi Ss] St. destruct St as [w ts h Hh|w w' ts1 ts2 p p' St|w w' ts E]; simpl in *.
  - split; [|split; [reflexivity|auto]]. split; [done|]. simpl.
    apply Forall_app. split; [done|]. apply Forall_singleton. auto.
  - apply Forall_app in Ss as [S1 [Sp S2]%Forall_cons].
    destruct (safe_step true I rely guarantee (fun _ _ => True) p p' w w') as (Hi' & G & Sp'); auto; [apply _|].
    assert (R : rely w w') by auto. split; [|auto]. split; [done|]. simpl.
    apply Forall_app. split; [by eapply pool_rely|]. constructor; [done|by eapply pool_rely].
  - destruct (environment_rely w w' Hi E) as [Hi' R]. split; [|auto]. split; [done|]. simpl.
    by eapply pool_rely.
Qed.

Lemma good_reachable s s' : good s -> rtc system_step s s' -> good s' /\ rely s.1 s'.1.
Proof.
  intros G R. induction R as [s|s s1 s' St R IH]; [split; [done|reflexivity]|].
  destruct (good_step s s1 G St) as (G1 & R1 & _). destruct (IH G1) as [G' R']. split; [done|].
  by transitivity s1.1.
Qed.

Lemma reachable_invariant w s : I w -> rtc system_step (w, []) s -> I s.1 /\ rely w s.1.
Proof.
  intros Hi R. destruct (good_reachable (w, []) s) as [[Hi' _] Rl]; [|done|auto]. split; [done|constructor].
Qed.

Lemma reachable_guarantee w s s' : I w -> rtc system_step (w, []) s -> system_step s s' ->
  I s.1 /\ I s'.1 /\ (guarantee s.1 s'.1 \/ environment s.1 s'.1).
Proof.
  intros Hi R St. destruct (good_reachable (w, []) s) as [G _]; [|done|]; [split; [done|constructor]|].
  destruct (good_step s s' G St) as ([Hi' _] & _ & C). destruct G. auto.
Qed.

(** An action of a request, as opposed to one of the environment. *)
Lemma reachable_request w w1 w2 ts1 ts2 p p' : I w ->
  rtc system_step (w, []) (w1, ts1 ++ p :: ts2) -> prog_step p w1 p' w2 -> guarantee w1 w2.
Proof.
  intros Hi R St. destruct (good_reachable (w, []) (w1, ts1 ++ p :: ts2)) as [[Hi1 Ss] _];
    [split; [done|constructor]|done|]. simpl in *.
  apply Forall_app in Ss as [_ [Sp _]%Forall_cons].
  by destruct (safe_step true I rely guarantee (fun _ _ => True) p p' w1 w2) as (_ & G & _); [apply _|auto..].
Qed.

(** The [k]th request, started in a state from which it satisfies [Q], answers
    as [Q] says at the step in which it answers. *)
Lemma reachable_answer (Q : result Reply -> W -> Prop) k m w ts s p a w' :
  good (w, ts) -> ts !! k = Some m -> safe true I rely guarantee m Q w ->
  rtc system_step (w, ts) s -> s.2 !! k = Some p -> prog_step p s.1 (Ret _ a) w' -> Q (Ok a) w'.
Proof.
  intros G Hm Sm R Hp St.
  set (Live := live true I rely guarantee Q).
  assert (L : forall s s', good s -> (exists p, s.2 !! k = Some p /\ Live p s.1) -> rtc system_step s s' ->
            good s' /\ exists p, s'.2 !! k = Some p /\ Live p s'.1).
  { clear -guarantee_refl guarantee_rely environment_rely handlers_safe PreOrder0.
    intros s s' G P R. induction R as [s|s s1 s' St R IH]; [done|].
    destruct (good_step s s1 G St) as (G1 & R1 & _). apply IH; [done|]. clear IH R.
    destruct P as (q & Hq & Lq).
    apply (live_rely true I rely guarantee Q q _ s1.1 ltac:(apply _) R1) in Lq as Lq'.
    destruct G as [Hi Ss]. destruct St as [v ts h Hh|v v' ts1 ts2 p1 p1' St|v v' ts E]; simpl in *.
    - exists q. split; [by apply lookup_app_l_Some|done].
    - destruct (decide (k = length ts1)) as [->|Nk].
      + rewrite list_lookup_middle in Hq by done. injection Hq as <-. exists p1'.
        split; [by rewrite list_lookup_middle|].
        destruct Lq as [[b ->]|[[e ->]|Sq]]; [inversion St|inversion St|]. right. right.
        by destruct (safe_step true I rely guarantee Q p1 p1' v v') as (_ & _ & ?); [apply _|auto..].
      + exists q. split; [|done]. rewrite <- Hq. clear -Nk.
        destruct (decide (k < length ts1)%nat) as [Lk|Lk]; [by rewrite !lookup_app_l by done|].
        rewrite !lookup_app_r by lia. destruct (k - length ts1)%nat eqn:D; [lia|done].
    - by exists q. }
  destruct (L (w, ts) s G) as (Gs & q & Hq & Lq); [exists m; split; [done|by right; right]|done|].
  rewrite Hp in Hq. injection Hq as <-. destruct Lq as [[b ->]|[[e ->]|Sq]]; [inversion St|inversion St|].
  destruct Gs as [Hi _].
  by destruct (safe_step true I rely guarantee Q p (Ret _ a) s.1 w') as (_ & _ & ?); [apply _|auto..].
Qed.

(** A relation that every action of a safe request and of the environment
    respects holds between the ends of every run. *)
Lemma reachable_closure (C : relation W) `{!PreOrder C} w s s' : I w ->
  (forall w1 w2, I w1 -> I w2 -> guarantee w1 w2 \/ environment w1 w2 -> C w1 w2) ->
  rtc system_step (w, []) s -> rtc system_step s s' -> C s.1 s'.1.
Proof.
  intros Hi Hc R R'. induction R' as [s|s s1 s' St R' IH]; [reflexivity|].
  destruct (reachable_guarantee w s s1 Hi R St) as (H1 & H2 & G).
  transitivity s1.1; [auto|]. apply IH. by eapply rtc_r.
Qed.
End soundness.
End concurrency.

Arguments TX : clear implicits.
Arguments prog : clear implicits.
Arguments Ret {W A} a.
Arguments Throw {W A} e.
Arguments Local {W A B} f k.
Arguments Call {W A B} f k.
#[global] Arguments safe : simpl never.

Notation "'tx!' x ':=' e 'in' k" := (tx_bind e (fun x => k))
  (at level 200, x pattern, e at level 100, k at level 200, right associativity).
Notation "'await' x ':=' e 'in' k" := (bind e (fun x => k))
  (at level 200, x pattern, e at level 100, k at level 200, right associativity).

(** Peel the action at the head of a specification. *)
Ltac safe_peel :=
  cbv beta iota;
  lazymatch goal with
  | |- safe _ _ _ _ (bind _ _) _ _ => apply safe_bind
  | |- safe _ _ _ _ (catch _ _) _ _ => apply safe_catch
  | |- safe _ _ _ _ (call _) _ _ => apply safe_call
  | |- safe _ _ _ _ (look _) _ _ => apply safe_look
  | |- safe _ _ _ _ (Ret _) _ _ => apply safe_ret
  | |- safe _ _ _ _ (Throw _) _ _ => apply safe_throw
  end.
