(* ===== verification/Transactions.v ===== *)
(** * Reasoning about transactions

    The inversion of a transaction that succeeded into its statements, and
    relations between the worlds before and after that every statement of a
    transaction respects. *)

From S2P Require Import Prelude JsNumber JsString.
From S2P Require Import Concurrency.

Lemma tx_bind_inv {W A B} (m : TX W A) (f : A -> TX W B) w b w' :
  tx_bind m f w = Ok (b, w') -> exists a w1, m w = Ok (a, w1) /\ f a w1 = Ok (b, w').
Proof. unfold tx_bind. destruct (m w) as [[a w1]|e]; [eauto|done]. Qed.

Lemma tx_lift_inv {W A} (x : result A) (w : W) a w' : tx_lift x w = Ok (a, w') -> x = Ok a /\ w = w'.
Proof. unfold tx_lift. destruct x; simpl; [|done]. by intros [= <- <-]. Qed.

(** Use an equation of two results to eliminate a variable, and only it. *)
Ltac elim_eq E :=
  match type of E with
  | ?x = ?y => first [is_var y; destruct E | is_var x; symmetry in E; destruct E | idtac]
  end.
Ltac inj_eq H :=
  let E1 := fresh "Q" in let E2 := fresh "Q" in
  injection H as E1 E2; elim_eq E1; elim_eq E2.

(** The statements of a transaction that succeeded, one equation for each. *)
Ltac tx_steps :=
  repeat match goal with
  | H : tx_bind _ _ _ = Ok _ |- _ =>
      let a := fresh "a" in let w := fresh "w" in let E := fresh "E" in
      apply tx_bind_inv in H as (a & w & E & H); cbv beta in H
  | H : tx_ret _ _ = Ok _ |- _ => unfold tx_ret in H; inj_eq H
  | H : tx_get _ _ = Ok _ |- _ => unfold tx_get in H; inj_eq H
  | H : tx_lift _ _ = Ok _ |- _ =>
      let E := fresh "L" in let Q := fresh "Q" in apply tx_lift_inv in H as [E Q]; elim_eq Q
  | H : tx_throw _ _ = Ok _ |- _ => discriminate H
  end.

(** The steps of a computation with results that succeeded. *)
Ltac let_steps := repeat match goal with
  | L : result_bind ?x _ = Ok _ |- _ => destruct x eqn:?; cbn [result_bind] in L; [|discriminate L]
  end.

(** The first statement of [F], with names. *)
Tactic Notation "tx_first" hyp(F) "as" simple_intropattern(a) ident(w) ident(E) :=
  apply tx_bind_inv in F as (a & w & E & F); cbv beta in F.

Section respects.
Context {W : Type} (R : relation W) `{!PreOrder R}.

Definition respects {A} (f : TX W A) : Prop := forall w a w', f w = Ok (a, w') -> R w w'.

Lemma respects_ret {A} (a : A) : respects (tx_ret a).
Proof. by intros w b w' [= <- <-]. Qed.

Lemma respects_throw {A} e : respects (A := A) (tx_throw e).
Proof. done. Qed.

Lemma respects_get {A} (f : W -> A) : respects (tx_get f).
Proof. by intros w b w' [= <- <-]. Qed.

Lemma respects_lift {A} (x : result A) : respects (tx_lift x).
Proof. by intros w b w' [_ <-]%tx_lift_inv. Qed.

Lemma respects_bind {A B} (m : TX W A) (f : A -> TX W B) :
  respects m -> (forall a, respects (f a)) -> respects (tx_bind m f).
Proof. intros M F w b w' (a & w1 & E & E')%tx_bind_inv. transitivity w1; [by eapply M|by eapply F]. Qed.

Lemma respects_read {A} (f : W -> result A) : respects (fun w => let! a := f w in Ok (a, w)).
Proof. intros w b w'. destruct (f w); simpl; [|done]. by intros [= <- <-]. Qed.
End respects.

(** Go through the statements of a transaction; the facts of the hint database
    [respects] settle the others. *)
Create HintDb respects.

#[export] Hint Resolve respects_ret respects_throw respects_get respects_lift respects_read : respects.

Ltac respect :=
  repeat first
    [ solve [auto with respects typeclass_instances]
    | apply respects_bind; [apply _| |intros ?]
    | match goal with |- respects _ (match ?x with _ => _ end) => destruct x end
    | progress cbv zeta ].

(** ** Requests that run alone *)

Section alone.
Context {W A B : Type}.

Lemma run_bind (m : prog W A) (k : A -> prog W B) w :
  run [] (bind m k) w
  = match run [] m w with (Ok a, w') => run [] (k a) w' | (Throws e, w') => (Throws e, w') end.
Proof.
  revert w. induction m as [a|e|C f c IH|C f c IH]; intros w; [done|done| |].
  - simpl. destruct (f w) as [b w']. apply IH.
  - simpl. destruct (f w) as [[b w']|e]; apply IH.
Qed.

Lemma run_catch (m : prog W A) (h : js_error -> prog W A) w :
  run [] (catch m h) w
  = match run [] m w with (Throws e, w') => run [] (h e) w' | r => r end.
Proof.
  revert w. induction m as [a|e|C f c IH|C f c IH]; intros w.
  - done.
  - simpl. by destruct (run [] (h e) w).
  - simpl. destruct (f w) as [b w']. apply IH.
  - simpl. destruct (f w) as [[b w']|e]; apply IH.
Qed.

Lemma run_bind_inv (m : prog W A) (k : A -> prog W B) w b w' :
  run [] (bind m k) w = (Ok b, w') -> exists a w1, run [] m w = (Ok a, w1) /\ run [] (k a) w1 = (Ok b, w').
Proof. rewrite run_bind. destruct (run [] m w) as [[a|e] w1]; [eauto|done]. Qed.

Lemma run_call (f : TX W A) w : run [] (call f) w = match f w with Ok (a, w') => (Ok a, w') | Throws e => (Throws e, w) end.
Proof. unfold call. simpl. by destruct (f w) as [[a w']|e]. Qed.

Lemma run_call_inv (f : TX W A) w a w' : run [] (call f) w = (Ok a, w') -> f w = Ok (a, w').
Proof. rewrite run_call. destruct (f w) as [[b w1]|e]; [by intros [= -> ->]|done]. Qed.

Lemma run_of_result (r : result A) (w : W) : run [] (of_result r) w = (r, w).
Proof. by destruct r. Qed.
End alone.

(** The steps of a request that ran alone and succeeded. *)
Ltac run_steps :=
  repeat match goal with
  | H : run [] (bind _ _) _ = (Ok _, _) |- _ =>
      let a := fresh "a" in let w := fresh "w" in let E := fresh "R" in
      apply run_bind_inv in H as (a & w & E & H); cbv beta in H
  | H : run [] (call _) _ = (Ok _, _) |- _ => apply run_call_inv in H
  | H : run [] (of_result _) _ = (Ok _, _) |- _ =>
      let E := fresh "L" in let Q := fresh "Q" in rewrite run_of_result in H; injection H as E Q; elim_eq Q
  | H : run [] (Ret _ _) _ = (Ok _, _) |- _ =>
      let E1 := fresh "Q" in let E2 := fresh "Q" in injection H as E1 E2; elim_eq E1; elim_eq E2
  | H : run [] (Throw _ _) _ = (Ok _, _) |- _ => discriminate H
  end.

(** ** Relations that a request keeps when it runs alone, answered or refused *)

Section keeps.
Context {W : Type} (R : relation W) `{!PreOrder R}.

Definition keeps {A} (m : prog W A) : Prop := forall w, R w (run [] m w).2.

Lemma keeps_ret {A} (a : A) : keeps (Ret a).
Proof. intros w. reflexivity. Qed.

Lemma keeps_throw {A} e : keeps (A := A) (Throw e).
Proof. intros w. reflexivity. Qed.

Lemma keeps_result {A} (r : result A) : keeps (of_result r).
Proof. intros w. by rewrite run_of_result. Qed.

Lemma keeps_call {A} (f : TX W A) : respects R f -> keeps (call f).
Proof. intros F w. rewrite run_call. destruct (f w) as [[a w']|e] eqn:E; [by eapply F|reflexivity]. Qed.

Lemma keeps_look {A} (f : W -> A) : keeps (look f).
Proof. intros w. reflexivity. Qed.

Lemma keeps_bind {A B} (m : prog W A) (k : A -> prog W B) : keeps m -> (forall a, keeps (k a)) -> keeps (bind m k).
Proof.
  intros M K w. rewrite run_bind. specialize (M w). destruct (run [] m w) as [[a|e] w']; [|done].
  etransitivity; [exact M|apply K].
Qed.

Lemma keeps_catch {A} (m : prog W A) (h : js_error -> prog W A) : keeps m -> (forall e, keeps (h e)) -> keeps (catch m h).
Proof.
  intros M K w. rewrite run_catch. specialize (M w). destruct (run [] m w) as [[a|e] w']; [done|].
  etransitivity; [exact M|apply K].
Qed.

(** A statement whose failure is an answer like another. *)
Lemma keeps_Call {A C} (f : TX W C) (k : result C -> prog W A) : respects R f -> (forall r, keeps (k r)) -> keeps (Call f k).
Proof.
  intros F K w. simpl. destruct (f w) as [[c w']|e] eqn:E; [|apply K].
  etransitivity; [by eapply F|apply K].
Qed.
End keeps.

#[export] Hint Resolve keeps_ret keeps_throw keeps_result keeps_look : respects.

(** Go through the statements of a request. *)
Ltac keep :=
  repeat first
    [ solve [auto with respects typeclass_instances]
    | apply keeps_catch; [apply _| |intros ?]
    | apply keeps_bind; [apply _| |intros ?]
    | apply keeps_call; [apply _|respect]
    | apply keeps_Call; [apply _|respect|intros ?]
    | match goal with |- keeps _ (match ?x with _ => _ end) => destruct x end
    | progress cbv zeta ].
