(* ===== verification/Access.v ===== *)
(** * Access policies

    The small pure policies of the accounts and of the exports:
    [auth/role-permissions.ts], [users/invite-state-machine.ts] (its predicates;
    the lock is the atomicity of the transactions of [Users]),
    [auth/session-idle.ts], [auth/email-normalizer.ts] and
    [common/safe-export-cell.ts]. *)

From S2P Require Import Prelude JsNumber SafeInteger JsString.

Local Open Scope Z_scope.

(** ** Roles and permissions *)

Inductive AppRole := SUPER_ADMIN | ADMIN | USER | GUEST.

#[export] Instance AppRole_eq_dec : EqDecision AppRole.
Proof. solve_decision. Defined.

Inductive Permission :=
  | data_read | change_logs_create | reports_generate | products_manage | imports_manage
  | mappings_manage | operations_run | settings_manage | users_manage | audit_read.

#[export] Instance Permission_eq_dec : EqDecision Permission.
Proof. solve_decision. Defined.

Definition PERMISSIONS : list Permission :=
  [data_read; change_logs_create; reports_generate; products_manage; imports_manage;
   mappings_manage; operations_run; settings_manage; users_manage; audit_read].

Definition ROLE_PERMISSIONS (role : AppRole) : list Permission :=
  match role with
  | SUPER_ADMIN => PERMISSIONS
  | ADMIN => [data_read; change_logs_create; reports_generate; products_manage; imports_manage;
              mappings_manage; operations_run]
  | USER => [data_read; change_logs_create; reports_generate]
  | GUEST => [data_read]
  end.

Definition permissionsForRole (role : AppRole) : list Permission := ROLE_PERMISSIONS role.

(** ** Invitations *)

Inductive InviteStatus :=
  | PENDING_PROVIDER | INVITED | VERIFIED_PENDING_PASSWORD | RECONCILE_REQUIRED | ACTIVE | CANCELLED.

#[export] Instance InviteStatus_eq_dec : EqDecision InviteStatus.
Proof. solve_decision. Defined.

Definition TRANSITIONS (from : InviteStatus) : list InviteStatus :=
  match from with
  | PENDING_PROVIDER => [INVITED; RECONCILE_REQUIRED; CANCELLED]
  | INVITED => [VERIFIED_PENDING_PASSWORD; RECONCILE_REQUIRED; CANCELLED]
  | VERIFIED_PENDING_PASSWORD => [ACTIVE; RECONCILE_REQUIRED; CANCELLED]
  | RECONCILE_REQUIRED => [PENDING_PROVIDER; CANCELLED]
  | ACTIVE => []
  | CANCELLED => []
  end.

Definition canTransitionInvitation (from to : InviteStatus) : bool :=
  bool_decide (from = to) || bool_decide (to ∈ TRANSITIONS from).

Definition canRestartCancelledInvitation (inviteStatus : InviteStatus)
    (authUserId invitationErrorCode : option str) : bool :=
  bool_decide (inviteStatus = CANCELLED) && bool_decide (authUserId = None)
  && bool_decide (invitationErrorCode = None).

(** ** Idle sessions *)

Definition SESSION_IDLE_MS : Z := 2 * 60 * 60 * 1000.

Definition sessionIsIdle (lastSeenAt : option Z) (now : Z) : bool :=
  match lastSeenAt with None => true | Some t => SESSION_IDLE_MS <=? now - t end.

(** The header value: [None] when it is absent or repeated. *)
Definition activityAge (value : option str) : option Z :=
  match value with
  | Some v =>
      let n := List.length v in
      if negb ((1 <=? Z.of_nat n) && (Z.of_nat n <=? 5) && forallb is_digit v) then None
      else let age := digits_val v in if age <=? 60000 then Some age else None
  | None => None
  end.

(** ** Addresses *)

Fixpoint drop_spaces (s : str) : str :=
  match s with c :: r => if (c =? 32)%N then drop_spaces r else s | [] => [] end.

(** [email.replace(/^ +| +$/g, "")]. *)
Definition trim_spaces (s : str) : str := rev (drop_spaces (rev (drop_spaces s))).

Definition printable_ascii (c : N) : bool := ((33 <=? c) && (c <=? 126))%N.

(** [/^[^\s@]+@[^\s@]+\.[^\s@]+$/]: one at sign, something before it, and
    after it a dot that is neither the first nor the last character. *)
Definition EMAIL_PATTERN (s : str) : bool :=
  forallb (fun c => negb (is_ws c)) s
  && match split_on 64 s with
     | [user; domain] =>
         truthy user && bool_decide (46%N ∈ removelast (tl domain))
     | _ => false
     end.

Definition INVALID_EMAIL : js_error := {| err_status := 0; err_code := js "INVALID_EMAIL" |}.

Section email.
Context `{Icu}.

Definition normalizeEmail (email : str) : result str :=
  let trimmed := trim_spaces email in
  if negb (truthy trimmed) || (320 <? Z.of_nat (List.length trimmed))
     || existsb (fun c => negb (printable_ascii c)) trimmed || negb (EMAIL_PATTERN trimmed)
  then Throws INVALID_EMAIL
  else Ok (to_lower trimmed).

Definition normalizeEmailOrNull (email : option str) : option str :=
  match email with
  | Some ((_ :: _) as e) => match normalizeEmail e with Ok n => Some n | Throws _ => None end
  | _ => None
  end.
End email.

(** ** Exported cells *)

Inductive cell := CText (s : str) | COther (v : json).

Definition is_formula_space (c : N) : bool :=
  bool_decide (c ∈ [9; 10; 13; 32; 160])%N.
Definition is_formula_sign (c : N) : bool := bool_decide (c ∈ [61; 43; 45; 64])%N.

(** [/^[\t\n\r \u00a0]*[=+\-@]/]. *)
Fixpoint FORMULA_PREFIX (s : str) : bool :=
  match s with
  | c :: r => is_formula_sign c || is_formula_space c && FORMULA_PREFIX r
  | [] => false
  end.

Definition safeExportCellValue (value : cell) : cell :=
  match value with
  | CText s => if FORMULA_PREFIX s then CText (39%N :: s) else value
  | COther _ => value
  end.

(** ** Lemmas *)

(** Arithmetic on comparisons of code units. *)
Ltac code_units :=
  bool_simpl;
  rewrite ?N.leb_le, ?N.ltb_lt, ?N.eqb_eq, ?N.leb_gt, ?N.ltb_ge, ?N.eqb_neq in *; try lia.

(** Every role can do what the next weaker one can. *)
Lemma permissions_monotone :
  permissionsForRole GUEST ⊆ permissionsForRole USER
  /\ permissionsForRole USER ⊆ permissionsForRole ADMIN
  /\ permissionsForRole ADMIN ⊆ permissionsForRole SUPER_ADMIN.
Proof. unfold subseteq, list_subseteq, permissionsForRole. simpl. set_solver. Qed.

Lemma canTransitionInvitation_refl st : canTransitionInvitation st st = true.
Proof. unfold canTransitionInvitation. by rewrite bool_decide_eq_true_2. Qed.

(** An exported text is read as text by a spreadsheet, and its original
    can be told from it. *)
Lemma safeExportCellValue_inert v s : safeExportCellValue v = CText s -> FORMULA_PREFIX s = false.
Proof.
  destruct v as [t|j]; simpl; [|done]. destruct (FORMULA_PREFIX t) eqn:E; intros [= <-]; [|done].
  done.
Qed.

Lemma safeExportCellValue_idem v :
  safeExportCellValue (safeExportCellValue v) = safeExportCellValue v.
Proof.
  destruct (safeExportCellValue v) as [s|j] eqn:E; [|done]. simpl.
  by rewrite (safeExportCellValue_inert v s E).
Qed.

Lemma drop_spaces_fix s : (forall c, c ∈ s -> c <> 32%N) -> drop_spaces s = s.
Proof.
  destruct s as [|c r]; intros S; simpl; [done|]. destruct (N.eqb_spec c 32) as [E|]; [|done].
  edestruct S; [left|exact E].
Qed.

Lemma trim_spaces_fix s : (forall c, c ∈ s -> c <> 32%N) -> trim_spaces s = s.
Proof.
  intros S. unfold trim_spaces. rewrite (drop_spaces_fix s S), drop_spaces_fix, rev_involutive; [done|].
  intros c Hc. apply S. apply list_elem_of_In, in_rev, list_elem_of_In; exact Hc.
Qed.

Lemma split_on_go_map (f : N -> N) c acc s :
  (forall x, x ∈ s -> (f x =? c)%N = (x =? c)%N) ->
  split_on_go c (map f acc) (map f s) = map (map f) (split_on_go c acc s).
Proof.
  revert acc. induction s as [|x s IH]; intros acc S; simpl; [by rewrite map_rev|].
  rewrite S by left. assert (S' : forall y, y ∈ s -> (f y =? c)%N = (y =? c)%N) by set_solver.
  destruct (x =? c)%N; simpl; [|apply (IH (x :: acc) S')].
  rewrite map_rev. f_equal. apply (IH [] S').
Qed.

Lemma ascii_lower_printable c : printable_ascii c = true -> printable_ascii (ascii_lower c) = true.
Proof. unfold printable_ascii, ascii_lower. 
  intros P. destruct ((65 <=? c) && _)%N eqn:E; [|done]. code_units.
Qed.

Lemma ascii_lower_eqb k c : (k <? 65)%N = true -> (ascii_lower c =? k)%N = (c =? k)%N.
Proof.
  unfold ascii_lower. intros L. destruct ((65 <=? c) && _)%N eqn:E; [|done].
  apply eq_true_iff_eq. code_units.
Qed.

Lemma map_ascii_lower_idem s : map ascii_lower (map ascii_lower s) = map ascii_lower s.
Proof.
  rewrite map_map. apply map_ext. intros c. unfold ascii_lower.
  destruct (((65 <=? c) && (c <=? 90))%N) eqn:E; [|by rewrite E].
  destruct (((65 <=? c + 32) && (c + 32 <=? 90))%N) eqn:F; code_units.
Qed.

Lemma elem_of_46_lower s : 46%N ∈ map ascii_lower s <-> 46%N ∈ s.
Proof.
  rewrite list_elem_of_fmap. split; [|intros I; by exists 46%N].
  intros (c & E & I). pose proof (ascii_lower_eqb 46 c eq_refl) as F.
  rewrite <- E in F. symmetry in F. apply N.eqb_eq in F. by subst.
Qed.

Lemma not_ws_printable c : printable_ascii c = true -> is_ws c = false.
Proof. unfold printable_ascii, is_ws. intros P. code_units. Qed.

Lemma EMAIL_PATTERN_lower s :
  forallb printable_ascii s = true -> EMAIL_PATTERN s = true -> EMAIL_PATTERN (map ascii_lower s) = true.
Proof.
  intros P E. unfold EMAIL_PATTERN in *. bool_simpl. destruct E as [_ E]. split.
  - apply forallb_forall_iff. intros c (d & -> & I)%list_elem_of_fmap.
    rewrite forallb_forall_iff in P. rewrite not_ws_printable; [done|]. auto using ascii_lower_printable.
  - unfold split_on in *. change (@nil N) with (map ascii_lower []).
    rewrite split_on_go_map by (intros; by apply ascii_lower_eqb).
    destruct (split_on_go 64 [] s) as [|u [|d [|]]]; try done. simpl. bool_simpl.
    destruct E as [E1 E2]. split; [by destruct u|].
    apply bool_decide_eq_true in E2. apply bool_decide_eq_true.
    replace (removelast (tl (map ascii_lower d))) with (map ascii_lower (removelast (tl d)));
      [by apply elem_of_46_lower|].
    destruct d as [|c d]; [done|]. simpl. clear.
    induction d as [|x [|y d] IH]; [done..|]. simpl in *. by rewrite <- IH.
Qed.

(** A normalised address is printable, in lower case and normal. *)
Lemma normalizeEmail_normal `{IcuLaws} e n :
  normalizeEmail e = Ok n ->
  normalizeEmail n = Ok n /\ forallb printable_ascii n = true /\ map ascii_lower n = n.
Proof.
  unfold normalizeEmail. destruct (_ || _) eqn:B; [done|]. intros [= <-].
  set (t := trim_spaces e) in *. bool_simpl. destruct B as [[[B1 B2] B3] B4].
  assert (P : forallb printable_ascii t = true).
  { apply forallb_forall_iff. intros c I. rewrite existsb_false_iff in B3.
    specialize (B3 c I). by destruct (printable_ascii c). }
  assert (A : is_ascii t = true).
  { unfold is_ascii. rewrite forallb_forall_iff in P |- *. intros c I. specialize (P c I).
    unfold printable_ascii in P. code_units. }
  rewrite (to_lower_ascii t A).
  assert (P' : forallb printable_ascii (map ascii_lower t) = true).
  { rewrite forallb_forall_iff in P |- *. intros c (d & -> & I)%list_elem_of_fmap.
    auto using ascii_lower_printable. }
  assert (A' : is_ascii (map ascii_lower t) = true).
  { unfold is_ascii. rewrite forallb_forall_iff in P' |- *. intros c I. specialize (P' c I).
    unfold printable_ascii in P'. code_units. }
  split; [|split; [done|apply map_ascii_lower_idem]].
  rewrite trim_spaces_fix.
  2: { intros c I ->. rewrite forallb_forall_iff in P'. by specialize (P' _ I). }
  replace (existsb _ (map ascii_lower t)) with false.
  2: { symmetry. apply existsb_false_iff. intros c I. rewrite forallb_forall_iff in P'. by rewrite (P' _ I). }
  rewrite length_map, B2, (EMAIL_PATTERN_lower t P B4). destruct t; [done|]. simpl.
  rewrite (to_lower_ascii _ A'). f_equal. apply (map_ascii_lower_idem (_ :: _)).
Qed.
