(* ===== verification/Limits.v ===== *)
(** * Limits on the use of the server

    [common/heavy-operation.ts] (how many memory-intensive requests run at
    once), [storage/temporary-storage-budget.ts] (how much temporary storage
    is in use) and [auth/postgres-security-rate-limiter.ts] (how often a key is
    used in a window of time).  Each is a state machine over sequences of
    operations; the theorems bound what any sequence can reach. *)

From S2P Require Import Prelude JsNumber SafeInteger JsString.

Local Open Scope Z_scope.

(** ** The gate of heavy operations *)

Module HeavyOperation.

(** A lease is a closure over its own [released] flag: its position below. *)
Record Gate := { active : Z; leases : list bool }.

Definition new_gate : Gate := {| active := 0; leases := [] |}.

Definition HEAVY_OPERATION_BUSY : js_error :=
  {| err_status := 503; err_code := js "HEAVY_OPERATION_BUSY" |}.

Definition tryAcquire (heavyOperationConcurrency : Z) (g : Gate) : option nat * Gate :=
  if heavyOperationConcurrency <=? active g then (None, g)
  else (Some (List.length (leases g)),
        {| active := active g + 1; leases := leases g ++ [false] |}).

Definition release (lease : nat) (g : Gate) : Gate :=
  match leases g !! lease with
  | Some false => {| active := Z.max 0 (active g - 1); leases := <[lease := true]> (leases g) |}
  | _ => g
  end.

(** What [next.handle()] does: throw, or return the stream of the response. *)
Definition intercept (heavyOperationConcurrency : Z) (heavy : bool) (next : result unit) (g : Gate)
  : result (option nat) * Gate :=
  if negb heavy then (let! _ := next in Ok None, g)
  else
    match tryAcquire heavyOperationConcurrency g with
    | (None, g') => (Throws HEAVY_OPERATION_BUSY, g')
    | (Some lease, g') =>
        match next with
        | Throws e => (Throws e, release lease g')
        | Ok _ => (Ok (Some lease), g')
        end
    end.

Inductive event := Request (heavy : bool) (next : result unit) | Finalize (lease : nat).

Definition handle (n : Z) (e : event) (g : Gate) : Gate :=
  match e with
  | Request heavy next => (intercept n heavy next g).2
  | Finalize lease => release lease g
  end.

Definition reach (n : Z) (es : list event) : Gate := fold_left (fun g e => handle n e g) es new_gate.

(** The operations that have a lease and have not released it. *)
Definition running (g : Gate) : Z := Z.of_nat (List.length (List.filter negb (leases g))).

Lemma running_released ls (i : nat) : ls !! i = Some false ->
  List.length (List.filter negb ls) = S (List.length (List.filter negb (<[i := true]> ls))).
Proof.
  revert i. induction ls as [|b ls IH]; intros [|i]; simpl; try done.
  - by intros [= ->].
  - intros L. destruct b; simpl; rewrite (IH i L); done.
Qed.

Definition sound (n : Z) (g : Gate) : Prop := active g = running g /\ 0 <= running g <= n.

Lemma release_sound n i g : sound n g -> sound n (release i g).
Proof.
  intros [A B]. unfold release. destruct (leases g !! i) as [[|]|] eqn:E; try done.
  unfold sound, running in *. simpl. pose proof (running_released _ _ E). lia.
Qed.

Lemma gate_handle_sound n e g : sound n g -> sound n (handle n e g).
Proof.
  intros S. destruct e as [heavy next|i]; [|by apply release_sound]. simpl. unfold intercept.
  destruct heavy; [|done]. simpl. unfold tryAcquire. destruct (n <=? active g) eqn:F; [done|].
  assert (S' : sound n {| active := active g + 1; leases := leases g ++ [false] |}).
  { destruct S as [A B]. unfold sound, running in *. simpl.
    rewrite List.filter_app, length_app. simpl. lia. }
  destruct next; [done|]. by apply release_sound.
Qed.

(** In every sequence of requests, handler failures and ends of responses -
    ends signalled twice or for a foreign lease included - the gate counts
    exactly the heavy operations still running, their number never exceeds the
    configured concurrency, and a heavy request is turned away with
    HEAVY_OPERATION_BUSY exactly when that many are running. *)
Theorem gate_counts (n : Z) (es : list event) :
  0 <= n ->
  let g := reach n es in
  active g = running g /\ 0 <= running g <= n
  /\ forall next, (intercept n true next g).1
     = (if running g =? n then Throws HEAVY_OPERATION_BUSY
        else match next with Ok _ => Ok (Some (List.length (leases g))) | Throws e => Throws e end).
Proof.
  intros N g. assert (S : sound n g).
  { unfold g, reach. assert (sound n new_gate) as S0 by (unfold sound, running; simpl; lia).
    revert S0. generalize new_gate. induction es as [|e es IH]; intros g0 S0; simpl; [done|].
    apply IH. by apply gate_handle_sound. }
  destruct S as [A B]. split; [done|]. split; [done|]. intros next. unfold intercept, tryAcquire. simpl.
  destruct (Z.eqb_spec (running g) n), (Z.leb_spec n (active g)); try lia; simpl; [done|].
  by destruct next.
Qed.

Lemma gate_counts_witness :
  let g := reach 1 [Request true (Ok tt); Request true (Ok tt); Finalize 0; Finalize 0;
                    Request true (Ok tt)] in
  0 <= 1 /\ active g = 1 /\ (intercept 1 true (Ok tt) g).1 = Throws HEAVY_OPERATION_BUSY.
Proof.
  intros g. split; [lia|]. destruct (gate_counts 1 [Request true (Ok tt); Request true (Ok tt);
    Finalize 0; Finalize 0; Request true (Ok tt)] ltac:(lia)) as (_ & _ & B).
  split; [reflexivity|]. exact (B (Ok tt)).
Defined.
End HeavyOperation.

(** ** The budget of temporary storage *)

Module StorageBudget.

Record TemporaryStorageBudget := {
  reservedBytes : num;
  activeLeases : Z;
  leases : list (num * bool)
}.

Definition new_budget : TemporaryStorageBudget :=
  {| reservedBytes := ofZ 0; activeLeases := 0; leases := [] |}.

Definition StorageProviderUnavailableError : js_error :=
  {| err_status := 0; err_code := js "StorageProviderUnavailableError" |}.

Definition acquire (bytes budgetBytes : num) (s : TemporaryStorageBudget)
  : result nat * TemporaryStorageBudget :=
  if negb (isSafeInteger bytes) || nltb bytes (ofZ 0) || negb (isSafeInteger budgetBytes)
     || nltb budgetBytes (ofZ 1) || nltb budgetBytes bytes
     || nltb budgetBytes (nadd (reservedBytes s) bytes) || (2 <=? activeLeases s)
  then (Throws StorageProviderUnavailableError, s)
  else (Ok (List.length (leases s)),
        {| reservedBytes := nadd (reservedBytes s) bytes; activeLeases := activeLeases s + 1;
           leases := leases s ++ [(bytes, false)] |}).

Definition release (lease : nat) (s : TemporaryStorageBudget) : TemporaryStorageBudget :=
  match leases s !! lease with
  | Some (bytes, false) =>
      {| reservedBytes := nsub (reservedBytes s) bytes; activeLeases := activeLeases s - 1;
         leases := <[lease := (bytes, true)]> (leases s) |}
  | _ => s
  end.

Inductive event := Acquire (bytes : Z) | Release (lease : nat).

Definition handle (budget : Z) (e : event) (s : TemporaryStorageBudget) : TemporaryStorageBudget :=
  match e with
  | Acquire bytes => (acquire (ofZ bytes) (ofZ budget) s).2
  | Release lease => release lease s
  end.

Definition reach (budget : Z) (es : list event) : TemporaryStorageBudget :=
  fold_left (fun s e => handle budget e s) es new_budget.

(** The sizes of the leases that are not released. *)
Definition open_leases (s : TemporaryStorageBudget) : list Z :=
  map (fun l => toZ (fst l)) (List.filter (fun l => negb (snd l)) (leases s)).

(** Every lease has a size between 0 and the budget, and the counters are the
    sum and the number of the open leases. *)
Definition sound (budget : Z) (s : TemporaryStorageBudget) : Prop :=
  Forall (fun l => exists z, l.1 = ofZ z /\ 0 <= z <= budget) (leases s)
  /\ reservedBytes s = ofZ (zsum (open_leases s)) /\ 0 <= zsum (open_leases s) <= budget
  /\ activeLeases s = Z.of_nat (List.length (open_leases s)) /\ activeLeases s <= 2.

Lemma open_released ls (i : nat) b : ls !! i = Some (b, false) ->
  let f l := map (fun l : num * bool => toZ (fst l)) (List.filter (fun l => negb (snd l)) l) in
  f ls ≡ₚ toZ b :: f (<[i := (b, true)]> ls).
Proof.
  intros L f. revert i L. induction ls as [|[b' r] ls IH]; intros [|i] L; try done.
  - injection L as -> ->. done.
  - unfold f in *. simpl. destruct r; simpl; [by apply IH|].
    rewrite (IH i L). apply Permutation_swap.
Qed.

Section bounded.
Context (budget : Z) (budget_range : 1 <= budget < 2 ^ 52).

Lemma acquire_spec b s : safe b -> sound budget s ->
  acquire (ofZ b) (ofZ budget) s
  = if (b <? 0) || (budget <? zsum (open_leases s) + b) || (2 <=? activeLeases s)
    then (Throws StorageProviderUnavailableError, s)
    else (Ok (List.length (leases s)),
          {| reservedBytes := ofZ (zsum (open_leases s) + b); activeLeases := activeLeases s + 1;
             leases := leases s ++ [(ofZ b, false)] |}).
Proof.
  intros Sb (_ & R & B & _ & _). unfold acquire.
  rewrite !isSafeInteger_ofZ by (unfold safe in *; lia). simpl.
  rewrite !nltb_ofZ by (unfold safe in *; lia).
  destruct (Z.ltb_spec b 0); [done|]. destruct (Z.ltb_spec budget 1); [lia|].
  destruct (Z.ltb_spec budget b); simpl.
  { destruct (Z.ltb_spec budget (zsum (open_leases s) + b)); [done|lia]. }
  rewrite R, nadd_ofZ, nltb_ofZ by (unfold safe in *; lia). by destruct (_ <? _), (2 <=? _).
Qed.

Lemma budget_handle_sound e s :
  match e with Acquire b => safe b | _ => True end -> sound budget s -> sound budget (handle budget e s).
Proof.
  intros Se S. destruct e as [b|i]; simpl.
  - rewrite acquire_spec by done. destruct (_ || _) eqn:E; [done|]. simpl. bool_simpl.
    destruct E as [[E1 E2] E3]. destruct S as (F & R & B & A & L).
    assert (O : forall r a, open_leases {| reservedBytes := r; activeLeases := a;
                leases := leases s ++ [(ofZ b, false)] |} = open_leases s ++ [b]).
    { intros. unfold open_leases. simpl. rewrite List.filter_app, map_app. simpl.
      by rewrite toZ_ofZ. }
    unfold sound. rewrite O, zsum_app, length_app. simpl. split.
    { apply Forall_app. split; [done|]. apply Forall_singleton. exists b. split; [done|lia]. }
    split; [f_equal; lia|]. lia.
  - unfold release. destruct (leases s !! i) as [[n [|]]|] eqn:E; try done.
    destruct S as (F & R & B & A & L). pose proof (open_released _ _ _ E) as P. simpl in P.
    fold (open_leases s) in P. pose proof (Forall_lookup_1 _ _ _ _ F E) as (z & Hz & Bz).
    simpl in Hz. subst n. rewrite toZ_ofZ in P by (unfold safe; lia).
    pose proof (zsum_perm _ _ P) as Z. pose proof (Permutation_length P) as N. simpl in Z, N.
    assert (Fo : Forall (fun l => exists z, l.1 = ofZ z /\ 0 <= z <= budget) (<[i:=(ofZ z, true)]> (leases s))).
    { apply Forall_insert; [done|]. by exists z. }
    assert (N0 : forall ls, Forall (fun l : num * bool => exists z, l.1 = ofZ z /\ 0 <= z <= budget) ls ->
              0 <= zsum (map (fun l => toZ l.1) (List.filter (fun l => negb l.2) ls))).
    { clear - budget_range. induction 1 as [|[n [|]] ls (y & Y & By) Fl IH]; simpl in *; try lia.
      subst n. rewrite toZ_ofZ by (unfold safe; lia). lia. }
    specialize (N0 _ Fo). unfold sound, open_leases. simpl. split; [done|].
    unfold open_leases in *. split; [|lia].
    rewrite R, nsub_ofZ by (unfold safe; lia). f_equal. lia.
Qed.
End bounded.

(** In every sequence of acquisitions of whole sizes and of releases,
    repeated or foreign ones included, the reserved bytes are exactly the sum of
    the sizes of the leases still open, there are at most two of them and their
    sum never exceeds the budget; a further acquisition is refused exactly when
    its size is negative, would exceed the budget, or two leases are open. *)
Theorem budget_holds (budget : Z) (es : list event) :
  1 <= budget < 2 ^ 52 ->
  Forall (fun e => match e with Acquire b => safe b | Release _ => True end) es ->
  let s := reach budget es in
  reservedBytes s = ofZ (zsum (open_leases s)) /\ 0 <= zsum (open_leases s) <= budget
  /\ (List.length (open_leases s) <= 2)%nat
  /\ forall b, safe b -> (acquire (ofZ b) (ofZ budget) s).1
     = if (b <? 0) || (budget <? zsum (open_leases s) + b) || (2 <=? activeLeases s)
       then Throws StorageProviderUnavailableError else Ok (List.length (leases s)).
Proof.
  intros B F s. assert (S : sound budget s).
  { unfold s, reach. assert (sound budget new_budget) as S0.
    { unfold sound. split; [by constructor|]. split; [done|]. simpl. lia. }
    revert S0 F. generalize new_budget. induction es as [|e es IH]; intros s0 S0 F; simpl; [done|].
    apply Forall_cons in F as [Fe F]. apply IH; [|done]. by apply budget_handle_sound. }
  pose proof S as (_ & R & Bz & A & L). split; [done|]. split; [done|]. split; [lia|].
  intros b Hb. rewrite acquire_spec by done. by destruct (_ || _).
Qed.

Lemma budget_holds_witness :
  let es := [Acquire 60; Acquire 50; Acquire 40; Release 0; Release 0; Acquire 70] in
  open_leases (reach 100 es) = [40] /\ reservedBytes (reach 100 es) = ofZ 40.
Proof.
  intros es. destruct (budget_holds 100 es) as (R & _).
  - split; vm_compute; [discriminate|reflexivity].
  - repeat constructor; vm_compute; reflexivity.
  - assert (O : open_leases (reach 100 es) = [40]) by (vm_compute; reflexivity).
    split; [exact O|]. rewrite O in R. exact R.
Defined.
End StorageBudget.

(** ** The rate limiter

    Times are the database's, in microseconds.  The statement reads its clock
    for the window of the request ([at_window]) and for the answer
    ([at_answer]); the cleanup, when it is due, reads it later ([at_cleanup]). *)

Module RateLimiter.

Record Bucket := { count : Z; expires_at : Z }.

(** The primary key of the table: key hash, start of the window, its length. *)
Abbreviation bucket_id := (str * Z * Z)%type.

(** The table is shared by the instances of the server, each of which counts
    its own requests since it last removed expired buckets. *)
Record Limiter := { requestsSinceCleanup : gmap nat Z; buckets : gmap bucket_id Bucket }.

Record RateLimitDecision :=
  { allowed : bool; limit : Z; remaining : Z; retryAfterSeconds : Z }.

Record request := {
  instance : nat;
  rkey : str;
  rlimit : num;
  windowMs : num;
  at_window : Z;
  at_answer : Z;
  at_cleanup : Z;
  cleanup_fails : bool
}.

Definition plain_error : js_error := {| err_status := 0; err_code := js "Error" |}.
(** The error of an integer column that overflows. *)
Definition numeric_value_out_of_range : js_error := {| err_status := 0; err_code := js "22003" |}.

Definition MAX_INT4 : Z := 2147483647.

Definition assertPolicy (limit windowMs : num) : result unit :=
  if negb (isInteger limit) || nltb limit (ofZ 1) || nltb (ofZ 1000000) limit then Throws plain_error
  else if negb (isInteger windowMs) || nltb windowMs (ofZ 1000) || nltb (ofZ 86400000) windowMs
  then Throws plain_error
  else Ok tt.

(** [date_bin(windowMs milliseconds, now, epoch)]. *)
Definition date_bin (windowMs now : Z) : Z := now / (1000 * windowMs) * (1000 * windowMs).

Section limiter.
Context (sha256 : str -> str).

Definition bucket_of (r : request) : bucket_id :=
  (sha256 (rkey r), date_bin (toZ (windowMs r)) (at_window r), toZ (windowMs r)).

(** [INSERT ... ON CONFLICT DO UPDATE ... RETURNING]: the sum [count + 1] is
    computed in the type of the column before [LEAST] is applied to it. *)
Definition upsert (id : bucket_id) (table : gmap bucket_id Bucket)
  : result (Bucket * gmap bucket_id Bucket) :=
  match table !! id with
  | None =>
      let b := {| count := 1; expires_at := id.1.2 + 1000 * id.2 |} in Ok (b, <[id := b]> table)
  | Some b =>
      if MAX_INT4 <? count b + 1 then Throws numeric_value_out_of_range
      else
        let b' := {| count := Z.min (count b + 1) MAX_INT4; expires_at := expires_at b |} in
        Ok (b', <[id := b']> table)
  end.

Definition removeExpiredBuckets (now : Z) (fails : bool) (table : gmap bucket_id Bucket)
  : gmap bucket_id Bucket :=
  if fails then table else filter (fun e => now <= expires_at e.2) table.

Definition ceil_seconds (micros : Z) : Z := - (- micros / 1000000).

Definition consume (r : request) (s : Limiter) : result RateLimitDecision * Limiter :=
  match assertPolicy (rlimit r) (windowMs r) with
  | Throws e => (Throws e, s)
  | Ok _ =>
      match upsert (bucket_of r) (buckets s) with
      | Throws e => (Throws e, s)
      | Ok (row, table) =>
          let n := ((requestsSinceCleanup s !! instance r) ?? 0) + 1 in
          let due := 256 <=? n in
          (Ok {| allowed := count row <=? toZ (rlimit r); limit := toZ (rlimit r);
                 remaining := Z.max 0 (toZ (rlimit r) - count row);
                 retryAfterSeconds := Z.max 1 (ceil_seconds (expires_at row - at_answer r)) |},
           {| requestsSinceCleanup := <[instance r := if due then 0 else n]> (requestsSinceCleanup s);
              buckets := if due then removeExpiredBuckets (at_cleanup r) (cleanup_fails r) table
                         else table |})
      end
  end.

Definition empty_limiter : Limiter := {| requestsSinceCleanup := ∅; buckets := ∅ |}.

Definition reach (rs : list request) : Limiter :=
  fold_left (fun s r => (consume r s).2) rs empty_limiter.

(** The requests of a bucket that were counted. *)
Definition counted (id : bucket_id) (r : request) : bool :=
  match assertPolicy (rlimit r) (windowMs r) with
  | Ok _ => bool_decide (bucket_of r = id)
  | Throws _ => false
  end.
Definition hits (id : bucket_id) (rs : list request) : Z :=
  Z.of_nat (List.length (List.filter (counted id) rs)).

Lemma hits_snoc id rs r : hits id (rs ++ [r]) = hits id rs + if counted id r then 1 else 0.
Proof. unfold hits. rewrite List.filter_app, length_app. simpl. destruct (counted id r); simpl; lia. Qed.

Lemma hits_bound id rs : 0 <= hits id rs <= Z.of_nat (List.length rs).
Proof. unfold hits. pose proof (List.filter_length_le (counted id) rs). lia. Qed.

Definition stored (id : bucket_id) (n : Z) : option Bucket :=
  if n =? 0 then None else Some {| count := n; expires_at := id.1.2 + 1000 * id.2 |}.

Lemma upsert_stored id n table : 0 <= n < MAX_INT4 -> table !! id = stored id n ->
  exists table', upsert id table = Ok ({| count := n + 1; expires_at := id.1.2 + 1000 * id.2 |}, table')
    /\ table' !! id = stored id (n + 1) /\ forall id', id' <> id -> table' !! id' = table !! id'.
Proof.
  intros B E. unfold upsert, stored in *. rewrite E.
  destruct (Z.eqb_spec (n + 1) 0); [lia|]. destruct (Z.eqb_spec n 0) as [->|N]; simpl.
  - eexists. split; [done|]. split; [by simplify_map_eq|]. intros. by rewrite lookup_insert_ne.
  - destruct (Z.ltb_spec MAX_INT4 (n + 1)); [lia|]. rewrite Z.min_l by lia.
    eexists. split; [done|]. split; [by simplify_map_eq|]. intros. by rewrite lookup_insert_ne.
Qed.

Lemma cleanup_keeps id n now fails table : now <= id.1.2 + 1000 * id.2 ->
  table !! id = stored id n -> removeExpiredBuckets now fails table !! id = stored id n.
Proof.
  intros L E. unfold removeExpiredBuckets. destruct fails; [done|].
  destruct (stored id n) as [b|] eqn:S.
  - apply map_lookup_filter_Some. split; [done|]. unfold stored in S. case_match; [done|].
    injection S as <-. done.
  - apply map_lookup_filter_None. by left.
Qed.

(** A window that had not ended when any expired bucket was removed is counted
    exactly. *)
Lemma reach_bucket rs id :
  Z.of_nat (List.length rs) <= MAX_INT4 ->
  Forall (fun r => at_cleanup r <= id.1.2 + 1000 * id.2) rs ->
  buckets (reach rs) !! id = stored id (hits id rs).
Proof.
  induction rs as [|r rs IH] using rev_ind; intros L F; [done|].
  rewrite length_app in L. simpl in L. apply Forall_app in F as [F [Fr _]%Forall_cons].
  specialize (IH ltac:(lia) F). unfold reach. rewrite fold_left_app. simpl. fold (reach rs).
  rewrite hits_snoc. pose proof (hits_bound id rs) as B. unfold consume, counted.
  destruct (assertPolicy (rlimit r) (windowMs r)) as [[]|e]; [|by rewrite Z.add_0_r].
  destruct (decide (bucket_of r = id)) as [E|N].
  - rewrite E, bool_decide_eq_true_2 by done.
    destruct (upsert_stored id (hits id rs) (buckets (reach rs))) as (table & -> & T & _); [lia|done|].
    simpl. destruct (256 <=? _); [by apply cleanup_keeps|done].
  - rewrite bool_decide_eq_false_2 by done. rewrite Z.add_0_r.
    assert (U : forall row table, upsert (bucket_of r) (buckets (reach rs)) = Ok (row, table) ->
                table !! id = stored id (hits id rs)).
    { intros row table. unfold upsert. rewrite <- IH.
      destruct (buckets (reach rs) !! bucket_of r); [case_match; [done|]|];
        intros [= _ <-]; by rewrite lookup_insert_ne. }
    destruct (upsert _ _) as [[row table]|e]; [|done]. specialize (U row table eq_refl).
    simpl. destruct (256 <=? _); [by apply cleanup_keeps|done].
Qed.

Lemma date_bin_window w t : 0 < w -> date_bin w t <= t < date_bin w t + 1000 * w.
Proof.
  intros W. unfold date_bin. pose proof (Z.mul_div_le t (1000 * w) ltac:(lia)).
  pose proof (Z.mod_pos_bound t (1000 * w) ltac:(lia)). pose proof (Z.div_mod t (1000 * w) ltac:(lia)). lia.
Qed.

(** C40: of all requests counted in one window of a key - whichever instance of
    the server they reach and whatever was cleaned up meanwhile - the [j]-th is
    allowed exactly when [j] is at most the limit, is told that [limit - j]
    requests remain (never less than 0), and is told to retry after at least one
    second and not after the end of the window, rounded up. *)
Theorem consume_exact (rs : list request) (r : request) (j : Z) :
  assertPolicy (rlimit r) (windowMs r) = Ok tt ->
  0 < toZ (windowMs r) ->
  Z.of_nat (List.length rs) < MAX_INT4 ->
  Forall (fun r' => at_cleanup r' <= at_window r) rs ->
  j = hits (bucket_of r) rs + 1 ->
  exists d, (consume r (reach rs)).1 = Ok d
  /\ allowed d = (j <=? toZ (rlimit r)) /\ remaining d = Z.max 0 (toZ (rlimit r) - j)
  /\ 1 <= retryAfterSeconds d
  /\ (at_window r <= at_answer r ->
      retryAfterSeconds d <= Z.max 1 (ceil_seconds (date_bin (toZ (windowMs r)) (at_window r)
                                                    + 1000 * toZ (windowMs r) - at_window r))).
Proof.
  intros P W L F ->. pose proof (date_bin_window (toZ (windowMs r)) (at_window r) W) as D.
  pose proof (hits_bound (bucket_of r) rs) as B.
  assert (S : buckets (reach rs) !! bucket_of r = stored (bucket_of r) (hits (bucket_of r) rs)).
  { apply reach_bucket; [lia|]. eapply Forall_impl; [exact F|]. intros r' C.
    cbv beta in C. unfold bucket_of. cbn [fst snd]. lia. }
  destruct (upsert_stored (bucket_of r) (hits (bucket_of r) rs) (buckets (reach rs)))
    as (table & U & _); [lia|done|].
  unfold consume. rewrite P, U. eexists. split; [done|]. simpl. repeat split; [lia|].
  intros A. apply Z.max_le_compat_l. unfold ceil_seconds. apply -> Z.opp_le_mono.
  apply Z.div_le_mono; lia.
Qed.

(** The saturation of the counter is never reached: the sum overflows first. *)
Lemma upsert_overflow id table b :
  table !! id = Some b -> count b = MAX_INT4 -> upsert id table = Throws numeric_value_out_of_range.
Proof. intros E C. unfold upsert. rewrite E, C. done. Qed.
End limiter.

Definition sample (t : Z) : request :=
  {| instance := 0; rkey := js "auth:login:ip:10.0.0.1"; rlimit := ofZ 2; windowMs := ofZ 60000;
     at_window := t; at_answer := t + 5; at_cleanup := t + 10; cleanup_fails := false |}.

Lemma consume_exact_witness :
  exists d, (consume (fun k => k) (sample 3000) (reach (fun k => k) [sample 1000; sample 2000])).1 = Ok d
    /\ allowed d = false.
Proof.
  destruct (consume_exact (fun k => k) [sample 1000; sample 2000] (sample 3000) 3) as (d & E & A & _).
  - vm_compute; reflexivity.
  - vm_compute; reflexivity.
  - vm_compute; reflexivity.
  - repeat constructor; vm_compute; discriminate.
  - vm_compute; reflexivity.
  - exists d. split; [exact E|]. rewrite A. vm_compute. reflexivity.
Defined.
End RateLimiter.
