(* ===== verification/Users.v ===== *)
(** * Users and invitations

    [users/users.service.ts]: how an account is invited through an external
    identity provider, retried, cancelled and compensated, and how its role and
    activity are changed.  The service keeps its rows in a database and calls
    the provider between two transactions, so every handler is a request of
    [Concurrency]: other requests run between its transactions, and any
    transaction or call may fail before or after it took effect.

    A transaction is one action, as if transactions were serialisable.  The
    source runs them at READ COMMITTED: those that write the state of an
    invitation take the advisory lock of its account ([lockInvitationState]),
    [update] takes the lock of the super administrators
    ([lockSuperAdminInvariant]).  An [update] and a transaction on the
    invitation of the same account are therefore not serialised by the source:
    [UsersRaces] runs the read and the write of an update as two actions.  Times are in milliseconds. *)

From S2P Require Import Prelude JsNumber JsString.
From S2P Require Import SecurityAudit.
From S2P Require Import Concurrency.
From S2P Require Import Access.

Local Open Scope Z_scope.

(** ** Data *)

(** A row of app_users: the columns the invitation services use. *)
Record AppUser := {
  u_id : str;
  u_email : option str;
  normalizedEmail : option str;
  u_name : str;
  u_role : AppRole;
  inviteStatus : InviteStatus;
  authUserId : option str;
  isActive : bool;
  lastLoginAt : option Z;
  deactivatedAt : option Z;
  authzVersion : Z;
  invitedAt : option Z;
  invitedBy : option str;
  invitationRequestId : option str;
  invitationErrorCode : option str;
  createdAt : Z;
  updatedAt : Z
}.

(** One field of the [data] of a Prisma update. *)
Inductive write :=
  | SetEmail (v : option str)
  | SetName (v : str)
  | SetRole (v : AppRole)
  | SetStatus (v : InviteStatus)
  | SetAuthUserId (v : option str)
  | SetIsActive (v : bool)
  | SetLastLoginAt (v : option Z)
  | SetDeactivatedAt (v : option Z)
  | SetInvitedAt (v : option Z)
  | SetInvitedBy (v : option str)
  | SetRequestId (v : option str)
  | SetErrorCode (v : option str)
  | SetUpdatedAt (v : Z)
  | IncrementVersion.

Definition apply_write (w : write) (u : AppUser) : AppUser :=
  match w with
  | SetEmail v =>
      {| u_id := u_id u; u_email := v; normalizedEmail := normalizedEmail u; u_name := u_name u;
         u_role := u_role u; inviteStatus := inviteStatus u; authUserId := authUserId u;
         isActive := isActive u; lastLoginAt := lastLoginAt u; deactivatedAt := deactivatedAt u;
         authzVersion := authzVersion u; invitedAt := invitedAt u; invitedBy := invitedBy u;
         invitationRequestId := invitationRequestId u;
         invitationErrorCode := invitationErrorCode u; createdAt := createdAt u;
         updatedAt := updatedAt u |}
  | SetName v =>
      {| u_id := u_id u; u_email := u_email u; normalizedEmail := normalizedEmail u; u_name := v;
         u_role := u_role u; inviteStatus := inviteStatus u; authUserId := authUserId u;
         isActive := isActive u; lastLoginAt := lastLoginAt u; deactivatedAt := deactivatedAt u;
         authzVersion := authzVersion u; invitedAt := invitedAt u; invitedBy := invitedBy u;
         invitationRequestId := invitationRequestId u;
         invitationErrorCode := invitationErrorCode u; createdAt := createdAt u;
         updatedAt := updatedAt u |}
  | SetRole v =>
      {| u_id := u_id u; u_email := u_email u; normalizedEmail := normalizedEmail u;
         u_name := u_name u; u_role := v; inviteStatus := inviteStatus u;
         authUserId := authUserId u; isActive := isActive u; lastLoginAt := lastLoginAt u;
         deactivatedAt := deactivatedAt u; authzVersion := authzVersion u;
         invitedAt := invitedAt u; invitedBy := invitedBy u;
         invitationRequestId := invitationRequestId u;
         invitationErrorCode := invitationErrorCode u; createdAt := createdAt u;
         updatedAt := updatedAt u |}
  | SetStatus v =>
      {| u_id := u_id u; u_email := u_email u; normalizedEmail := normalizedEmail u;
         u_name := u_name u; u_role := u_role u; inviteStatus := v; authUserId := authUserId u;
         isActive := isActive u; lastLoginAt := lastLoginAt u; deactivatedAt := deactivatedAt u;
         authzVersion := authzVersion u; invitedAt := invitedAt u; invitedBy := invitedBy u;
         invitationRequestId := invitationRequestId u;
         invitationErrorCode := invitationErrorCode u; createdAt := createdAt u;
         updatedAt := updatedAt u |}
  | SetAuthUserId v =>
      {| u_id := u_id u; u_email := u_email u; normalizedEmail := normalizedEmail u;
         u_name := u_name u; u_role := u_role u; inviteStatus := inviteStatus u; authUserId := v;
         isActive := isActive u; lastLoginAt := lastLoginAt u; deactivatedAt := deactivatedAt u;
         authzVersion := authzVersion u; invitedAt := invitedAt u; invitedBy := invitedBy u;
         invitationRequestId := invitationRequestId u;
         invitationErrorCode := invitationErrorCode u; createdAt := createdAt u;
         updatedAt := updatedAt u |}
  | SetIsActive v =>
      {| u_id := u_id u; u_email := u_email u; normalizedEmail := normalizedEmail u;
         u_name := u_name u; u_role := u_role u; inviteStatus := inviteStatus u;
         authUserId := authUserId u; isActive := v; lastLoginAt := lastLoginAt u;
         deactivatedAt := deactivatedAt u; authzVersion := authzVersion u;
         invitedAt := invitedAt u; invitedBy := invitedBy u;
         invitationRequestId := invitationRequestId u;
         invitationErrorCode := invitationErrorCode u; createdAt := createdAt u;
         updatedAt := updatedAt u |}
  | SetLastLoginAt v =>
      {| u_id := u_id u; u_email := u_email u; normalizedEmail := normalizedEmail u;
         u_name := u_name u; u_role := u_role u; inviteStatus := inviteStatus u;
         authUserId := authUserId u; isActive := isActive u; lastLoginAt := v;
         deactivatedAt := deactivatedAt u; authzVersion := authzVersion u;
         invitedAt := invitedAt u; invitedBy := invitedBy u;
         invitationRequestId := invitationRequestId u;
         invitationErrorCode := invitationErrorCode u; createdAt := createdAt u;
         updatedAt := updatedAt u |}
  | SetDeactivatedAt v =>
      {| u_id := u_id u; u_email := u_email u; normalizedEmail := normalizedEmail u;
         u_name := u_name u; u_role := u_role u; inviteStatus := inviteStatus u;
         authUserId := authUserId u; isActive := isActive u; lastLoginAt := lastLoginAt u;
         deactivatedAt := v; authzVersion := authzVersion u; invitedAt := invitedAt u;
         invitedBy := invitedBy u; invitationRequestId := invitationRequestId u;
         invitationErrorCode := invitationErrorCode u; createdAt := createdAt u;
         updatedAt := updatedAt u |}
  | SetInvitedAt v =>
      {| u_id := u_id u; u_email := u_email u; normalizedEmail := normalizedEmail u;
         u_name := u_name u; u_role := u_role u; inviteStatus := inviteStatus u;
         authUserId := authUserId u; isActive := isActive u; lastLoginAt := lastLoginAt u;
         deactivatedAt := deactivatedAt u; authzVersion := authzVersion u; invitedAt := v;
         invitedBy := invitedBy u; invitationRequestId := invitationRequestId u;
         invitationErrorCode := invitationErrorCode u; createdAt := createdAt u;
         updatedAt := updatedAt u |}
  | SetInvitedBy v =>
      {| u_id := u_id u; u_email := u_email u; normalizedEmail := normalizedEmail u;
         u_name := u_name u; u_role := u_role u; inviteStatus := inviteStatus u;
         authUserId := authUserId u; isActive := isActive u; lastLoginAt := lastLoginAt u;
         deactivatedAt := deactivatedAt u; authzVersion := authzVersion u;
         invitedAt := invitedAt u; invitedBy := v; invitationRequestId := invitationRequestId u;
         invitationErrorCode := invitationErrorCode u; createdAt := createdAt u;
         updatedAt := updatedAt u |}
  | SetRequestId v =>
      {| u_id := u_id u; u_email := u_email u; normalizedEmail := normalizedEmail u;
         u_name := u_name u; u_role := u_role u; inviteStatus := inviteStatus u;
         authUserId := authUserId u; isActive := isActive u; lastLoginAt := lastLoginAt u;
         deactivatedAt := deactivatedAt u; authzVersion := authzVersion u;
         invitedAt := invitedAt u; invitedBy := invitedBy u; invitationRequestId := v;
         invitationErrorCode := invitationErrorCode u; createdAt := createdAt u;
         updatedAt := updatedAt u |}
  | SetErrorCode v =>
      {| u_id := u_id u; u_email := u_email u; normalizedEmail := normalizedEmail u;
         u_name := u_name u; u_role := u_role u; inviteStatus := inviteStatus u;
         authUserId := authUserId u; isActive := isActive u; lastLoginAt := lastLoginAt u;
         deactivatedAt := deactivatedAt u; authzVersion := authzVersion u;
         invitedAt := invitedAt u; invitedBy := invitedBy u;
         invitationRequestId := invitationRequestId u; invitationErrorCode := v;
         createdAt := createdAt u; updatedAt := updatedAt u |}
  | SetUpdatedAt v =>
      {| u_id := u_id u; u_email := u_email u; normalizedEmail := normalizedEmail u;
         u_name := u_name u; u_role := u_role u; inviteStatus := inviteStatus u;
         authUserId := authUserId u; isActive := isActive u; lastLoginAt := lastLoginAt u;
         deactivatedAt := deactivatedAt u; authzVersion := authzVersion u;
         invitedAt := invitedAt u; invitedBy := invitedBy u;
         invitationRequestId := invitationRequestId u;
         invitationErrorCode := invitationErrorCode u; createdAt := createdAt u; updatedAt := v |}
  | IncrementVersion =>
      {| u_id := u_id u; u_email := u_email u; normalizedEmail := normalizedEmail u;
         u_name := u_name u; u_role := u_role u; inviteStatus := inviteStatus u;
         authUserId := authUserId u; isActive := isActive u; lastLoginAt := lastLoginAt u;
         deactivatedAt := deactivatedAt u; authzVersion := authzVersion u + 1;
         invitedAt := invitedAt u; invitedBy := invitedBy u;
         invitationRequestId := invitationRequestId u;
         invitationErrorCode := invitationErrorCode u; createdAt := createdAt u;
         updatedAt := updatedAt u |}
  end.

#[export] Instance AppUser_eq_dec : EqDecision AppUser.
Proof. solve_decision. Defined.

Definition apply_writes (ws : list write) (u : AppUser) : AppUser :=
  fold_left (fun u w => apply_write w u) ws u.

(** A row of app_auth_sessions. *)
Record AppAuthSession := {
  s_id : str;
  s_appUserId : str;
  providerSessionId : option str;
  revokedAt : option Z;
  lastSeenAt : option Z
}.

(** ** The identity provider

    [auth/identity-provider.ts]: another system, with a state of its own. *)

Record ProviderUser := {
  pu_id : str;
  pu_email : option str;
  emailVerified : bool;
  pu_invitationRequestId : option str
}.

Record ProviderSession := {
  accessToken : str;
  refreshToken : str;
  expiresIn : Z;
  ps_user : ProviderUser
}.

Class IdentityProvider := {
  PState : Type;
  ip_signInWithPassword : str -> str -> PState -> result (ProviderSession * PState);
  ip_refreshSession : str -> PState -> result (ProviderSession * PState);
  ip_revokeSession : str -> PState -> result (unit * PState);
  ip_getUserById : str -> PState -> result (ProviderUser * PState);
  ip_inviteUserByEmail : str -> str -> str -> PState -> result (ProviderUser * PState);
  ip_verifyInvitationToken : str -> option str -> PState -> result (ProviderSession * PState);
  ip_updatePassword : str -> str -> PState -> result (ProviderUser * PState);
  ip_deleteInvitationUser : str -> PState -> result (unit * PState)
}.

Definition plain_error (code : string) : js_error := {| err_status := 0; err_code := js code |}.
Definition ProviderUserNotFoundError : js_error := plain_error "ProviderUserNotFoundError".
Definition ProviderIdentityConflictError : js_error := plain_error "ProviderIdentityConflictError".

(** What the services rely on: identifiers are never reused.  An identity that
    was deleted does not come back ([existing] only shrinks on used
    identifiers), only its own deletion removes one, an invitation answers with
    a used identifier, and "not found" means that there is no such identity.  A
    deletion never answers "not found" ([SupabaseAuthAdapter]). *)
Class IdentityProviderLaws `{IdentityProvider} := {
  existing : str -> PState -> Prop;
  used : str -> PState -> Prop;
  keeps (p p' : PState) : Prop :=
    forall s, used s p -> used s p' /\ (existing s p' <-> existing s p);
  existing_used s p : existing s p -> used s p;
  used_non_empty s p : used s p -> s <> [];
  signIn_keeps e pw p a p' : ip_signInWithPassword e pw p = Ok (a, p') -> keeps p p';
  refresh_keeps t p a p' : ip_refreshSession t p = Ok (a, p') -> keeps p p';
  revoke_keeps t p a p' : ip_revokeSession t p = Ok (a, p') -> keeps p p';
  get_keeps i p a p' : ip_getUserById i p = Ok (a, p') -> keeps p p';
  invite_keeps e r q p a p' : ip_inviteUserByEmail e r q p = Ok (a, p') ->
    keeps p p' /\ used (pu_id a) p';
  verify_keeps t ty p a p' : ip_verifyInvitationToken t ty p = Ok (a, p') -> keeps p p';
  password_keeps t pw p a p' : ip_updatePassword t pw p = Ok (a, p') -> keeps p p';
  delete_removes i p a p' : ip_deleteInvitationUser i p = Ok (a, p') ->
    (forall s, used s p -> used s p' /\ (existing s p' <-> existing s p /\ s <> i));
  not_found i p : ip_getUserById i p = Throws ProviderUserNotFoundError -> ~ existing i p;
  delete_found i p : ip_deleteInvitationUser i p <> Throws ProviderUserNotFoundError
}.

(** ** Errors *)

(** [user-lifecycle.errors.ts]: the code of the exception determines its status. *)
Inductive UserLifecycleErrorCode :=
  | USER_NOT_FOUND | USER_EMAIL_EXISTS | USER_EMAIL_INVALID | USERNAME_EXISTS | USERNAME_INVALID
  | IDEMPOTENCY_KEY_INVALID | IDEMPOTENCY_KEY_CONFLICT | IDEMPOTENCY_REPLAY | USER_UPDATE_EMPTY
  | SELF_LOCKOUT | LAST_ACTIVE_SUPER_ADMIN | INVALID_USER_TRANSITION | INVITATION_NOT_RECONCILABLE
  | INVITATION_PROVIDER_UNAVAILABLE | INVITATION_LOCAL_COMMIT_FAILED.

Definition contract (code : UserLifecycleErrorCode) : Z * string :=
  match code with
  | USER_NOT_FOUND => (404, "USER_NOT_FOUND"%string)
  | USER_EMAIL_EXISTS => (409, "USER_EMAIL_EXISTS"%string)
  | USER_EMAIL_INVALID => (400, "USER_EMAIL_INVALID"%string)
  | USERNAME_EXISTS => (409, "USERNAME_EXISTS"%string)
  | USERNAME_INVALID => (400, "USERNAME_INVALID"%string)
  | IDEMPOTENCY_KEY_INVALID => (400, "IDEMPOTENCY_KEY_INVALID"%string)
  | IDEMPOTENCY_KEY_CONFLICT => (409, "IDEMPOTENCY_KEY_CONFLICT"%string)
  | IDEMPOTENCY_REPLAY => (409, "IDEMPOTENCY_REPLAY"%string)
  | USER_UPDATE_EMPTY => (400, "USER_UPDATE_EMPTY"%string)
  | SELF_LOCKOUT => (409, "SELF_LOCKOUT"%string)
  | LAST_ACTIVE_SUPER_ADMIN => (409, "LAST_ACTIVE_SUPER_ADMIN"%string)
  | INVALID_USER_TRANSITION => (409, "INVALID_USER_TRANSITION"%string)
  | INVITATION_NOT_RECONCILABLE => (409, "INVITATION_NOT_RECONCILABLE"%string)
  | INVITATION_PROVIDER_UNAVAILABLE => (503, "INVITATION_PROVIDER_UNAVAILABLE"%string)
  | INVITATION_LOCAL_COMMIT_FAILED => (500, "INVITATION_LOCAL_COMMIT_FAILED"%string)
  end.

Definition userLifecycleError (code : UserLifecycleErrorCode) : js_error :=
  {| err_status := (contract code).1; err_code := js (contract code).2 |}.

(** The database's errors: a violated unique index names its column. *)
Definition P2002 (column : str) : js_error := {| err_status := 0; err_code := js "P2002:" ++ column |}.
Definition P2003 : js_error := plain_error "P2003".
Definition P2025 : js_error := plain_error "P2025".

Definition isUniqueViolation (error : js_error) (field : str) : bool :=
  starts_with (js "P2002:") (err_code error)
  && includes field (skipn 6 (err_code error)).

(** ** Constants and predicates of the service *)

Definition INVITATION_REQUEST_IN_PROGRESS : str := js "INVITATION_REQUEST_IN_PROGRESS".
Definition INVITATION_RETRY_IN_PROGRESS : str := js "INVITATION_RETRY_IN_PROGRESS".
Definition PROVIDER_UNAVAILABLE : str := js "INVITATION_PROVIDER_UNAVAILABLE".
Definition PROVIDER_IDENTITY_MISMATCH : str := js "INVITATION_PROVIDER_IDENTITY_MISMATCH".
Definition PROVIDER_COMPENSATION_REQUIRED : str := js "INVITATION_PROVIDER_COMPENSATION_REQUIRED".
Definition PROVIDER_SUBJECT_CONFLICT : str := js "INVITATION_PROVIDER_SUBJECT_CONFLICT".
Definition LOCAL_COMMIT_FAILED : str := js "INVITATION_LOCAL_COMMIT_FAILED".
Definition INVITATION_IN_PROGRESS_TTL_MS : Z := 2 * 60000.

Definition is_hex (c : N) : bool :=
  (is_digit c || ((97 <=? c) && (c <=? 102)) || ((65 <=? c) && (c <=? 70)))%N.

(** [/^[0-9a-f]{8}-[0-9a-f]{4}-[1-8][0-9a-f]{3}-[89ab][0-9a-f]{3}-[0-9a-f]{12}$/i]. *)
Definition isUuid (value : str) : bool :=
  match split_on 45 value with
  | [a; b; c; d; e] =>
      forallb (fun part => forallb is_hex part) [a; b; c; d; e]
      && bool_decide (map (@List.length N) [a; b; c; d; e] = [8; 4; 4; 4; 12])%nat
      && match c with v :: _ => ((49 <=? v) && (v <=? 56))%N | [] => false end
      && match d with v :: _ => bool_decide (v ∈ [56; 57; 97; 98; 65; 66])%N | [] => false end
  | _ => false
  end.

Definition isInvitationInProgress (code : option str) : bool :=
  bool_decide (code = Some INVITATION_REQUEST_IN_PROGRESS)
  || bool_decide (code = Some INVITATION_RETRY_IN_PROGRESS).

Definition isRetryableInvitationFailure (status : InviteStatus) (code : option str) : bool :=
  bool_decide (status = RECONCILE_REQUIRED) && bool_decide (code = Some PROVIDER_UNAVAILABLE).

Definition isCancellableInvitationStatus (status : InviteStatus) : bool :=
  match status with
  | PENDING_PROVIDER | INVITED | VERIFIED_PENDING_PASSWORD | RECONCILE_REQUIRED => true
  | ACTIVE | CANCELLED => false
  end.

Definition isFreshInvitationClaim (at_ now : Z) : bool := now - INVITATION_IN_PROGRESS_TTL_MS <? at_.

Inductive ReconciliationAction := RETRY_INVITATION | CANCEL.

Definition reconciliationActions (user : AppUser) (now : Z) : list ReconciliationAction :=
  match inviteStatus user with
  | CANCELLED =>
      if bool_decide (invitationErrorCode user = Some PROVIDER_COMPENSATION_REQUIRED)
      then [CANCEL] else []
  | INVITED | VERIFIED_PENDING_PASSWORD => [CANCEL]
  | RECONCILE_REQUIRED =>
      if negb (truthy_opt (authUserId user))
         && bool_decide (invitationErrorCode user = Some PROVIDER_UNAVAILABLE)
      then [RETRY_INVITATION; CANCEL] else [CANCEL]
  | PENDING_PROVIDER =>
      if isInvitationInProgress (invitationErrorCode user)
         && isFreshInvitationClaim (updatedAt user) now
      then [] else [CANCEL]
  | ACTIVE => []
  end.

(** The summary that is sent: the selected columns and the actions. *)
Record UserSummary := { sum_user : AppUser; sum_actions : list ReconciliationAction }.

Definition toSummary (user : AppUser) (now : Z) : UserSummary :=
  {| sum_user := user; sum_actions := reconciliationActions user now |}.

Definition role_name (r : AppRole) : str :=
  match r with
  | SUPER_ADMIN => js "SUPER_ADMIN" | ADMIN => js "ADMIN" | Access.USER => js "USER" | GUEST => js "GUEST"
  end.

Definition status_name (s : InviteStatus) : str :=
  match s with
  | PENDING_PROVIDER => js "PENDING_PROVIDER" | INVITED => js "INVITED"
  | VERIFIED_PENDING_PASSWORD => js "VERIFIED_PENDING_PASSWORD"
  | RECONCILE_REQUIRED => js "RECONCILE_REQUIRED" | ACTIVE => js "ACTIVE" | CANCELLED => js "CANCELLED"
  end.

(** [userAuditSnapshot], with fields that may be added to it. *)
Definition userAuditSnapshot (user : AppUser) : list (str * json) :=
  [(js "id", JStr (u_id user));
   (js "email", match u_email user with Some e => JStr e | None => JNull end);
   (js "name", JStr (u_name user));
   (js "role", JStr (role_name (u_role user)));
   (js "isActive", JBool (isActive user));
   (js "inviteStatus", JStr (status_name (inviteStatus user)))].

(** ** The outside world *)

Section service.
Context `{Icu, IdentityProvider}.

Record World := {
  users : gmap str AppUser;
  sessions : list AppAuthSession;
  auditEvents : list SecurityAuditWrite;
  identities : PState;
  clock : Z;
  drawn : nat
}.

Definition set_users (m : gmap str AppUser) (w : World) : World :=
  {| users := m; sessions := sessions w; auditEvents := auditEvents w;
     identities := identities w; clock := clock w; drawn := drawn w |}.
Definition set_sessions (l : list AppAuthSession) (w : World) : World :=
  {| users := users w; sessions := l; auditEvents := auditEvents w;
     identities := identities w; clock := clock w; drawn := drawn w |}.
Definition add_audit (e : SecurityAuditWrite) (w : World) : World :=
  {| users := users w; sessions := sessions w; auditEvents := auditEvents w ++ [e];
     identities := identities w; clock := clock w; drawn := drawn w |}.
Definition set_identities (p : PState) (w : World) : World :=
  {| users := users w; sessions := sessions w; auditEvents := auditEvents w;
     identities := p; clock := clock w; drawn := drawn w |}.

Context (uuid : nat -> str) (inviteRedirectUrl : str).

Definition randomUUID : prog World str :=
  Local (fun w => (uuid (drawn w),
      {| users := users w; sessions := sessions w; auditEvents := auditEvents w;
         identities := identities w; clock := clock w; drawn := S (drawn w) |}))
    Ret.

Definition now : prog World Z := look clock.
Definition tx_now : TX World Z := tx_get clock.

(** A call to the provider. *)
Definition provider_tx {A} (f : PState -> result (A * PState)) : TX World A := fun w =>
  let! (a, p) := f (identities w) in Ok (a, set_identities p w).

(** ** The tables *)

Definition findUser (id : str) : TX World (option AppUser) := tx_get (fun w => users w !! id).

Definition first_user (p : AppUser -> bool) (w : World) : option AppUser :=
  List.find p (map snd (map_to_list (users w))).

Definition findBy (column : AppUser -> option str) (value : str) : TX World (option AppUser) :=
  tx_get (first_user (fun u => bool_decide (column u = Some value))).

(** The unique indexes, in the order in which the migrations create them. *)
Definition unique_columns : list (str * (AppUser -> option str)) :=
  [(js "email", u_email); (js "auth_user_id", authUserId);
   (js "normalized_email", normalizedEmail); (js "invitation_request_id", invitationRequestId)].

Definition collides (column : AppUser -> option str) (u v : AppUser) : bool :=
  negb (bool_decide (u_id v = u_id u)) && bool_decide (is_Some (column u))
  && bool_decide (column v = column u).

Definition clash (u : AppUser) (w : World) : option str :=
  fst <$> List.find (fun '(_, column) => is_Some_b (first_user (collides column u) w)) unique_columns.

(** Store a row: the unique indexes and the foreign key of [invitedBy]. *)
Definition store_user (u : AppUser) : TX World AppUser := fun w =>
  match clash u w with
  | Some column => Throws (P2002 column)
  | None =>
      if match invitedBy u with
         | Some i => bool_decide (is_Some (users w !! i))
         | None => true
         end
      then Ok (u, set_users (<[u_id u := u]> (users w)) w)
      else Throws P2003
  end.

(** [tx.appUser.update]: [updatedAt] follows every change. *)
Definition update_user (id : str) (data : list write) : TX World AppUser := fun w =>
  match users w !! id with
  | None => Throws P2025
  | Some u => store_user (apply_writes (data ++ [SetUpdatedAt (clock w)]) u) w
  end.

Definition create_user (u : AppUser) : TX World AppUser := fun w =>
  match users w !! u_id u with
  | Some _ => Throws (P2002 (js "id"))
  | None => store_user u w
  end.

(** [tx.appAuthSession.updateMany] on the sessions of a user. *)
Definition revoke_sessions (id : str) : TX World unit := fun w =>
  Ok (tt, set_sessions
    (map (fun s => if bool_decide (s_appUserId s = id) && bool_decide (revokedAt s = None)
                   then {| s_id := s_id s; s_appUserId := s_appUserId s;
                           providerSessionId := providerSessionId s;
                           revokedAt := Some (clock w); lastSeenAt := lastSeenAt s |}
                   else s) (sessions w)) w).

(** [writeSecurityAudit]: the checks of the record and the foreign key of its
    actor. *)
Definition writeSecurityAudit (e : SecurityAuditWrite) : TX World unit := fun w =>
  let! data := securityAuditData e in
  if match actorUserId data with
     | Some a => bool_decide (is_Some (users w !! a))
     | None => true
     end
  then Ok (tt, add_audit data w) else Throws P2003.

(** The record of an action of a user on an account. *)
Definition user_audit (actor : str) (act : string) (target : str) (res : SecurityAuditResult)
    (before after : option (list (str * json))) (request : option str) : SecurityAuditWrite :=
  {| actorUserId := Some actor; actorType := SecurityAudit.USER; action := js act;
     targetType := js "APP_USER"; targetId := Some target; auditResult := res;
     beforeJson := JObj <$> before; afterJson := JObj <$> after; requestId := request |}.

Definition assertTransition (from to : InviteStatus) : TX World unit :=
  if canTransitionInvitation from to then tx_ret tt
  else tx_throw (userLifecycleError INVALID_USER_TRANSITION).

Definition fail {A} (code : UserLifecycleErrorCode) : TX World A := tx_throw (userLifecycleError code).

(** ** Listing *)

(** Newest first; rows of the same time by descending identifier. *)
Definition list_users (w : World) : list UserSummary :=
  map (fun u => toSummary u (clock w))
    (js_sort (fun u v => cmp_or (createdAt v - createdAt u) (str_cmp (u_id v) (u_id u)))
       (map snd (map_to_list (users w)))).

(** ** Starting an invitation *)

Record InvitationStart := { start_user : AppUser; shouldSend : bool }.

Definition same_invitation (u : AppUser) (email name : str) (role : AppRole) : bool :=
  bool_decide (normalizedEmail u = Some email) && str_eqb (u_name u) name && bool_decide (u_role u = role).

(** The first transaction of a new account. *)
Definition create_invitation (pendingUserId email name : str) (role : AppRole) (actor request : str)
  : TX World InvitationStart :=
  tx! at_ := tx_now in
  tx! created := create_user
    {| u_id := pendingUserId; u_email := Some email; normalizedEmail := Some email; u_name := name;
       u_role := role; inviteStatus := PENDING_PROVIDER; authUserId := None; isActive := true;
       lastLoginAt := None; deactivatedAt := None; authzVersion := 1; invitedAt := None;
       invitedBy := Some actor; invitationRequestId := Some request;
       invitationErrorCode := Some INVITATION_REQUEST_IN_PROGRESS;
       createdAt := at_; updatedAt := at_ |} in
  tx! _ := writeSecurityAudit (user_audit actor "USER_INVITATION_REQUESTED" (u_id created) REQUESTED
             None (Some (userAuditSnapshot created)) (Some request)) in
  tx_ret {| start_user := created; shouldSend := true |}.

(** The first transaction when the address already has an account. *)
Definition restart_invitation (ownerId email name : str) (role : AppRole) (actor request : str)
  : TX World InvitationStart :=
  tx! locked := findUser ownerId in
  match locked with
  | None => fail USER_NOT_FOUND
  | Some locked =>
      if bool_decide (invitationRequestId locked = Some request) then
        if negb (same_invitation locked email name role) then fail IDEMPOTENCY_KEY_CONFLICT
        else tx_ret {| start_user := locked; shouldSend := false |}
      else if negb (canRestartCancelledInvitation (inviteStatus locked) (authUserId locked)
                      (invitationErrorCode locked))
      then fail USER_EMAIL_EXISTS
      else
        tx! restarted := update_user (u_id locked)
          [SetEmail (Some email); SetName name; SetRole role; SetIsActive true;
           SetStatus PENDING_PROVIDER; SetRequestId (Some request); SetInvitedBy (Some actor);
           SetInvitedAt None; SetDeactivatedAt None;
           SetErrorCode (Some INVITATION_REQUEST_IN_PROGRESS); IncrementVersion] in
        tx! _ := writeSecurityAudit (user_audit actor "USER_INVITATION_RESTARTED" (u_id restarted)
                   REQUESTED (Some (userAuditSnapshot locked)) (Some (userAuditSnapshot restarted))
                   (Some request)) in
        tx_ret {| start_user := restarted; shouldSend := true |}
  end.

Definition beginInvitation (email name : str) (role : AppRole) (actor request : str)
  : prog World InvitationStart :=
  await emailOwner := call (findBy normalizedEmail email) in
  match emailOwner with
  | None =>
      await pendingUserId := randomUUID in
      call (create_invitation pendingUserId email name role actor request)
  | Some owner => call (restart_invitation (u_id owner) email name role actor request)
  end.

(** ** Failures *)

Definition mark_failure_tx (id actor request errorCode : str) : TX World unit :=
  tx! before := findUser id in
  match before with
  | None => tx_ret tt
  | Some before =>
      if negb (bool_decide (inviteStatus before = PENDING_PROVIDER))
         || negb (bool_decide (invitationRequestId before = Some request))
         || negb (isInvitationInProgress (invitationErrorCode before))
      then tx_ret tt
      else
        tx! _ := assertTransition (inviteStatus before) RECONCILE_REQUIRED in
        tx! updated := update_user id
          [SetStatus RECONCILE_REQUIRED; SetErrorCode (Some errorCode); IncrementVersion] in
        writeSecurityAudit (user_audit actor "USER_INVITATION_FAILED" id FAILURE
          (Some (userAuditSnapshot before))
          (Some (userAuditSnapshot updated ++ [(js "errorCode", JStr errorCode)])) (Some request))
  end.

Definition markInvitationFailure (id actor request errorCode : str) : prog World unit :=
  call (mark_failure_tx id actor request errorCode).

Definition mark_succeeded_tx (id actor request subject : str) : TX World unit :=
  tx! before := findUser id in
  match before with
  | None => tx_ret tt
  | Some before =>
      if negb (bool_decide (inviteStatus before = PENDING_PROVIDER))
         || negb (bool_decide (invitationRequestId before = Some request))
      then tx_ret tt
      else
        tx! _ := assertTransition (inviteStatus before) RECONCILE_REQUIRED in
        tx! subjectOwner := findBy authUserId subject in
        let subjectConflict :=
          match subjectOwner with Some o => negb (str_eqb (u_id o) (u_id before)) | None => false end in
        tx! updated := update_user id
          ((if subjectConflict then [] else [SetAuthUserId (Some subject)])
           ++ [SetStatus RECONCILE_REQUIRED;
               SetErrorCode (Some (if subjectConflict then PROVIDER_SUBJECT_CONFLICT
                                   else LOCAL_COMMIT_FAILED));
               IncrementVersion]) in
        writeSecurityAudit (user_audit actor "USER_INVITATION_PROVIDER_SUCCEEDED" id PROVIDER_SUCCEEDED
          (Some (userAuditSnapshot before))
          (Some (userAuditSnapshot updated ++ [(js "providerSubjectConflict", JBool subjectConflict)]))
          (Some request))
  end.

Definition markProviderSucceededLocalFailure (id actor request subject : str) : prog World unit :=
  call (mark_succeeded_tx id actor request subject).

(** ** Compensation: the provider's identity of a cancelled invitation *)

Inductive Compensation := DELETED | ALREADY_ABSENT | OWNERSHIP_MISMATCH | RETRY_REQUIRED.

#[export] Instance Compensation_eq_dec : EqDecision Compensation.
Proof. solve_decision. Defined.

Definition compensation_name (c : Compensation) : str :=
  match c with
  | DELETED => js "DELETED" | ALREADY_ABSENT => js "ALREADY_ABSENT"
  | OWNERSHIP_MISMATCH => js "OWNERSHIP_MISMATCH" | RETRY_REQUIRED => js "RETRY_REQUIRED"
  end.

(** Ask the provider for the identity and delete it when it is this invitation's. *)
Definition compensate_at_provider (subject email request : str) : prog World Compensation :=
  catch
    (await providerUser := call (provider_tx (ip_getUserById subject)) in
     if negb (str_eqb (pu_id providerUser) subject)
        || negb (bool_decide (normalizeEmailOrNull (pu_email providerUser) = Some email))
        || negb (bool_decide (pu_invitationRequestId providerUser = Some request))
     then Ret OWNERSHIP_MISMATCH
     else
       await _ := call (provider_tx (ip_deleteInvitationUser (pu_id providerUser))) in
       Ret DELETED)
    (fun error => Ret (if bool_decide (error = ProviderUserNotFoundError)
                       then ALREADY_ABSENT else RETRY_REQUIRED)).

Definition finish_compensation (id actor : str) (pending : AppUser) (compensation : Compensation)
  : TX World UserSummary :=
  tx! at_ := tx_now in
  tx! locked := findUser id in
  match locked with
  | None => fail USER_NOT_FOUND
  | Some locked =>
      if negb (bool_decide (inviteStatus locked = CANCELLED))
         || negb (bool_decide (authUserId locked = authUserId pending))
         || negb (bool_decide (invitationRequestId locked = invitationRequestId pending))
      then tx_ret (toSummary locked at_)
      else
        let succeeded := bool_decide (compensation = DELETED)
                         || bool_decide (compensation = ALREADY_ABSENT) in
        tx! updated := update_user id
          (if succeeded then [SetAuthUserId None; SetErrorCode None]
           else [SetErrorCode (Some PROVIDER_COMPENSATION_REQUIRED)]) in
        tx! _ := writeSecurityAudit (user_audit actor "USER_INVITATION_PROVIDER_COMPENSATION" id
                   (if succeeded then SUCCESS else PARTIAL)
                   (Some (userAuditSnapshot locked))
                   (Some (userAuditSnapshot updated
                          ++ [(js "providerIdentityCompensation", JStr (compensation_name compensation))]))
                   (invitationRequestId locked)) in
        tx_ret (toSummary updated at_)
  end.

Definition compensateCancelledInvitation (id actor : str) : prog World UserSummary :=
  await pending := call (findUser id) in
  match pending with
  | None => Throw (userLifecycleError INVITATION_NOT_RECONCILABLE)
  | Some pending =>
      match bool_decide (inviteStatus pending = CANCELLED)
            && bool_decide (invitationErrorCode pending = Some PROVIDER_COMPENSATION_REQUIRED),
            authUserId pending, invitationRequestId pending, normalizedEmail pending with
      | true, Some ((_ :: _) as subject), Some ((_ :: _) as request), Some ((_ :: _) as email) =>
          await compensation := compensate_at_provider subject email request in
          call (finish_compensation id actor pending compensation)
      | _, _, _, _ =>
          if bool_decide (inviteStatus pending = CANCELLED) then
            await at_ := now in Ret (toSummary pending at_)
          else Throw (userLifecycleError INVITATION_NOT_RECONCILABLE)
      end
  end.

Definition attach_cancelled_identity (id actor request email providerUserId : str) : TX World bool :=
  let partial_ code := writeSecurityAudit (user_audit actor "USER_INVITATION_CANCEL_RACE_COMPENSATED" id
                         PARTIAL None (Some [(js "providerIdentityCompensation", JStr (js code))])
                         (Some request)) in
  tx! cancelled := findUser id in
  match cancelled with
  | None => tx_ret false
  | Some cancelled =>
      if negb (bool_decide (inviteStatus cancelled = CANCELLED))
         || negb (bool_decide (invitationRequestId cancelled = Some request))
         || negb (bool_decide (normalizedEmail cancelled = Some email))
      then tx_ret false
      else if truthy_opt (authUserId cancelled)
              && negb (bool_decide (authUserId cancelled = Some providerUserId))
      then tx! _ := partial_ "SUBJECT_MISMATCH"%string in tx_ret false
      else
        tx! subjectOwner := findBy authUserId providerUserId in
        if match subjectOwner with Some o => negb (str_eqb (u_id o) (u_id cancelled)) | None => false end
        then tx! _ := partial_ "SUBJECT_OWNERSHIP_CONFLICT"%string in tx_ret false
        else
          tx! _ := update_user id
            [SetAuthUserId (Some providerUserId);
             SetErrorCode (Some PROVIDER_COMPENSATION_REQUIRED)] in
          tx_ret true
  end.

Definition compensateCancelledProviderIdentity (id actor request email providerUserId : str)
  : prog World unit :=
  await attached := call (attach_cancelled_identity id actor request email providerUserId) in
  if attached : bool then await _ := compensateCancelledInvitation id actor in Ret tt else Ret tt.

(** Both, each with [.catch(() => undefined)]: what follows a lost commit. *)
Definition repair_local_failure (id actor request email subject : str) : prog World unit :=
  await _ := catch (markProviderSucceededLocalFailure id actor request subject) (fun _ => Ret tt) in
  catch (compensateCancelledProviderIdentity id actor request email subject) (fun _ => Ret tt).

(** ** Inviting *)

(** The transaction that records the provider's identity on the row that asked
    for it.  [claim] is the code under which the row waits for the provider. *)
Definition commit_invitation (id actor request : str) (providerUser : ProviderUser)
  : TX World UserSummary :=
  tx! invitedAt := tx_now in
  tx! current := findUser id in
  match current with
  | None => fail INVALID_USER_TRANSITION
  | Some current =>
      if negb (bool_decide (inviteStatus current = PENDING_PROVIDER))
         || negb (bool_decide (invitationRequestId current = Some request))
         || negb (bool_decide (invitationErrorCode current = Some INVITATION_REQUEST_IN_PROGRESS))
      then fail INVALID_USER_TRANSITION
      else
        tx! conflictingSubject := findBy authUserId (pu_id providerUser) in
        if match conflictingSubject with Some o => negb (str_eqb (u_id o) (u_id current)) | None => false end
        then fail INVALID_USER_TRANSITION
        else
          tx! _ := assertTransition (inviteStatus current) INVITED in
          tx! updated := update_user id
            [SetAuthUserId (Some (pu_id providerUser)); SetStatus INVITED; SetInvitedAt (Some invitedAt);
             SetErrorCode None; IncrementVersion] in
          tx! _ := writeSecurityAudit (user_audit actor "USER_INVITATION_PROVIDER_SUCCEEDED" (u_id updated)
                     PROVIDER_SUCCEEDED None (Some [(js "providerSubjectVerified", JBool true)])
                     (Some request)) in
          tx! _ := writeSecurityAudit (user_audit actor "USER_INVITATION_COMPLETED" (u_id updated) SUCCESS
                     (Some (userAuditSnapshot current)) (Some (userAuditSnapshot updated))
                     (Some request)) in
          tx_ret (toSummary updated invitedAt)
  end.

(** The provider's answer, when it is about this address and this request. *)
Definition request_identity (email request : str) : prog World ProviderUser :=
  await providerUser := call (provider_tx (ip_inviteUserByEmail email inviteRedirectUrl request)) in
  if negb (bool_decide (normalizeEmailOrNull (pu_email providerUser) = Some email))
     || negb (bool_decide (pu_invitationRequestId providerUser = Some request))
  then Throw ProviderIdentityConflictError else Ret providerUser.

(** Sending the invitation of a row that this request has claimed. *)
Definition send_invitation (id actor email request : str) : prog World UserSummary :=
  await providerUser :=
    catch (request_identity email request)
      (fun error =>
         await _ := markInvitationFailure id actor request
           (if bool_decide (error = ProviderIdentityConflictError)
            then PROVIDER_IDENTITY_MISMATCH else PROVIDER_UNAVAILABLE) in
         Throw (userLifecycleError INVITATION_PROVIDER_UNAVAILABLE)) in
  catch (call (commit_invitation id actor request providerUser))
    (fun _ =>
       await _ := repair_local_failure id actor request email (pu_id providerUser) in
       Throw (userLifecycleError INVITATION_LOCAL_COMMIT_FAILED)).

(** What happens when the first transaction fails: another request with the same
    key may have won the race. *)
Definition lost_race (email name : str) (role : AppRole) (request : str) (error : js_error)
  : prog World UserSummary :=
  if isUniqueViolation error (js "invitation_request_id") then
    await raced := call (findBy invitationRequestId request) in
    match raced with
    | Some u =>
        if same_invitation u email name role then await at_ := now in Ret (toSummary u at_)
        else Throw (userLifecycleError IDEMPOTENCY_KEY_CONFLICT)
    | None => Throw (userLifecycleError IDEMPOTENCY_KEY_CONFLICT)
    end
  else if isUniqueViolation error (js "email") || isUniqueViolation error (js "normalized_email")
  then Throw (userLifecycleError USER_EMAIL_EXISTS)
  else Throw error.

Record InviteUserDto := { body_email : option str; body_name : str; body_role : AppRole }.

Definition invite (body : InviteUserDto) (actor : str) (suppliedRequestId : option str)
  : prog World UserSummary :=
  await request :=
    match suppliedRequestId with
    | Some s => if truthy (trim s) then Ret (trim s) else randomUUID
    | None => randomUUID
    end in
  if negb (isUuid request) then Throw (userLifecycleError IDEMPOTENCY_KEY_INVALID)
  else
    match (match body_email body with
           | Some ((_ :: _) as e) => normalizeEmail e
           | _ => Throws (plain_error "Error")
           end) with
    | Throws _ => Throw (userLifecycleError USER_EMAIL_INVALID)
    | Ok email =>
        let name := trim (body_name body) in
        await existingRequest := call (findBy invitationRequestId request) in
        match existingRequest with
        | Some u =>
            if negb (same_invitation u email name (body_role body))
            then Throw (userLifecycleError IDEMPOTENCY_KEY_CONFLICT)
            else await at_ := now in Ret (toSummary u at_)
        | None =>
            await start :=
              catch (await s := beginInvitation email name (body_role body) actor request in Ret (inl s))
                (fun error => await s := lost_race email name (body_role body) request error in
                              Ret (inr s)) in
            match start with
            | inr summary => Ret summary
            | inl start =>
                if negb (shouldSend start) then
                  await at_ := now in Ret (toSummary (start_user start) at_)
                else send_invitation (u_id (start_user start)) actor email request
            end
        end
    end.

(** ** Changing an account *)

Record UpdateUserDto := {
  new_name : option str; new_role : option AppRole; new_isActive : option bool
}.

Definition is_active_super_admin (u : AppUser) : bool :=
  bool_decide (u_role u = SUPER_ADMIN) && isActive u && bool_decide (inviteStatus u = ACTIVE).

Definition count_users (p : AppUser -> bool) (w : World) : Z :=
  Z.of_nat (List.length (List.filter p (map snd (map_to_list (users w))))).

Definition opt_write {A} (f : A -> write) (x : option A) : list write :=
  match x with Some a => [f a] | None => [] end.

(** [update] in three parts: what the change makes of the role and activity that
    were read, the checks of the row that was read, and the writes. *)
Definition next_role (body : UpdateUserDto) (current : AppUser) : AppRole := new_role body ?? u_role current.
Definition next_active (body : UpdateUserDto) (current : AppUser) : bool := new_isActive body ?? isActive current.

Definition authorization_changed (body : UpdateUserDto) (current : AppUser) : bool :=
  negb (bool_decide (next_role body current = u_role current))
  || negb (Bool.eqb (next_active body current) (isActive current)).

Definition update_checks (id : str) (body : UpdateUserDto) (actor : str) (current : AppUser) : TX World unit :=
  let nextRole := next_role body current in
  let nextActive := next_active body current in
  if str_eqb id actor && (negb nextActive || negb (bool_decide (nextRole = u_role current)))
  then fail SELF_LOCKOUT
  else if bool_decide (new_isActive body = Some true)
          && negb (bool_decide (inviteStatus current = ACTIVE))
  then fail INVALID_USER_TRANSITION
  else
    tx! activeSuperAdmins := tx_get (count_users is_active_super_admin) in
    if is_active_super_admin current
       && (negb (bool_decide (nextRole = SUPER_ADMIN)) || negb nextActive)
       && (activeSuperAdmins <=? 1)
    then fail LAST_ACTIVE_SUPER_ADMIN
    else tx_ret tt.

Definition update_write (id : str) (body : UpdateUserDto) (actor : str) (current : AppUser)
  : TX World UserSummary :=
  tx! at_ := tx_now in
  let authorizationChanged := authorization_changed body current in
  tx! _ := (if authorizationChanged then revoke_sessions id else tx_ret tt) in
  tx! updated := update_user id
    (opt_write SetName (new_name body) ++ opt_write SetRole (new_role body)
     ++ opt_write SetIsActive (new_isActive body)
     ++ match new_isActive body with
        | Some false => [SetDeactivatedAt (Some at_)]
        | Some true => [SetDeactivatedAt None]
        | None => []
        end
     ++ (if authorizationChanged then [IncrementVersion] else [])) in
  tx! _ := writeSecurityAudit (user_audit actor
             (if authorizationChanged then "USER_AUTHORIZATION_CHANGED" else "USER_PROFILE_CHANGED")
             id SUCCESS (Some (userAuditSnapshot current)) (Some (userAuditSnapshot updated))
             None) in
  tx! _ := (if authorizationChanged then
              writeSecurityAudit (user_audit actor "USER_SESSIONS_REVOKED" id SUCCESS None
                (Some [(js "localSessionsRevoked", JBool true);
                       (js "providerRevocation", JStr (js "NOT_AVAILABLE_WITHOUT_SESSION_TOKEN"))])
                None)
            else tx_ret tt) in
  tx_ret (toSummary updated at_).

Definition update_tx (id : str) (body : UpdateUserDto) (actor : str) : TX World UserSummary :=
  tx! current := findUser id in
  match current with
  | None => fail USER_NOT_FOUND
  | Some current =>
      tx! _ := update_checks id body actor current in
      update_write id body actor current
  end.

Definition update (id : str) (body : UpdateUserDto) (actor : str) : prog World UserSummary :=
  match new_name body, new_role body, new_isActive body with
  | None, None, None => Throw (userLifecycleError USER_UPDATE_EMPTY)
  | _, _, _ =>
      call (update_tx id {| new_name := trim <$> new_name body; new_role := new_role body;
                            new_isActive := new_isActive body |} actor)
  end.

(** ** Reconciling an invitation *)

Definition cancel_tx (id actor : str) : TX World AppUser :=
  tx! at_ := tx_now in
  tx! locked := findUser id in
  match locked with
  | None => fail INVITATION_NOT_RECONCILABLE
  | Some locked =>
      if bool_decide (inviteStatus locked = CANCELLED)
         && (bool_decide (invitationErrorCode locked = Some PROVIDER_COMPENSATION_REQUIRED)
             || bool_decide (invitationErrorCode locked = None))
      then tx_ret locked
      else if negb (isCancellableInvitationStatus (inviteStatus locked))
              || negb (truthy_opt (invitationRequestId locked))
              || negb (truthy_opt (normalizedEmail locked))
              || isInvitationInProgress (invitationErrorCode locked)
                 && isFreshInvitationClaim (updatedAt locked) at_
      then fail INVITATION_NOT_RECONCILABLE
      else
        tx! _ := assertTransition (inviteStatus locked) CANCELLED in
        tx! _ := revoke_sessions id in
        tx! cancelled := update_user id
          [SetStatus CANCELLED; SetIsActive false; SetDeactivatedAt (Some at_); IncrementVersion;
           SetErrorCode (if truthy_opt (authUserId locked)
                         then Some PROVIDER_COMPENSATION_REQUIRED else None)] in
        tx! _ := writeSecurityAudit (user_audit actor "USER_INVITATION_CANCELLED" id SUCCESS
                   (Some (userAuditSnapshot locked)) (Some (userAuditSnapshot cancelled))
                   (invitationRequestId locked)) in
        tx_ret cancelled
  end.

Definition cancel (id actor : str) (current : AppUser) : prog World UserSummary :=
  if bool_decide (inviteStatus current = CANCELLED)
     && bool_decide (invitationErrorCode current = Some PROVIDER_COMPENSATION_REQUIRED)
  then compensateCancelledInvitation id actor
  else if bool_decide (inviteStatus current = CANCELLED)
          && bool_decide (invitationErrorCode current = None)
  then await at_ := now in Ret (toSummary current at_)
  else
    await cancelled := call (cancel_tx id actor) in
    if bool_decide (invitationErrorCode cancelled = Some PROVIDER_COMPENSATION_REQUIRED)
    then compensateCancelledInvitation id actor
    else await at_ := now in Ret (toSummary cancelled at_).

Definition claim_retry (id actor request : str) : TX World AppUser :=
  tx! locked := findUser id in
  match locked with
  | None => fail INVITATION_NOT_RECONCILABLE
  | Some locked =>
      if truthy_opt (authUserId locked)
         || negb (bool_decide (inviteStatus locked = RECONCILE_REQUIRED))
         || negb (isRetryableInvitationFailure (inviteStatus locked) (invitationErrorCode locked))
      then fail INVITATION_NOT_RECONCILABLE
      else
        tx! _ := assertTransition (inviteStatus locked) PENDING_PROVIDER in
        tx! claimed := update_user id
          [SetStatus PENDING_PROVIDER; SetErrorCode (Some INVITATION_RETRY_IN_PROGRESS)] in
        tx! _ := writeSecurityAudit (user_audit actor "USER_INVITATION_RETRY_REQUESTED" id REQUESTED
                   (Some (userAuditSnapshot locked)) (Some (userAuditSnapshot claimed)) (Some request)) in
        tx_ret claimed
  end.

Definition commit_retry (id actor request : str) (providerUser : ProviderUser)
  : TX World UserSummary :=
  tx! at_ := tx_now in
  tx! before := findUser id in
  match before with
  | None => fail INVITATION_NOT_RECONCILABLE
  | Some before =>
      if negb (bool_decide (inviteStatus before = PENDING_PROVIDER))
         || negb (bool_decide (invitationRequestId before = Some request))
         || negb (bool_decide (invitationErrorCode before = Some INVITATION_RETRY_IN_PROGRESS))
      then fail INVITATION_NOT_RECONCILABLE
      else
        tx! conflictingSubject := findBy authUserId (pu_id providerUser) in
        if match conflictingSubject with Some o => negb (str_eqb (u_id o) (u_id before)) | None => false end
        then fail INVALID_USER_TRANSITION
        else
          tx! _ := assertTransition (inviteStatus before) INVITED in
          tx! updated := update_user id
            [SetAuthUserId (Some (pu_id providerUser)); SetStatus INVITED; SetInvitedAt (Some at_);
             SetErrorCode None; SetIsActive true; SetDeactivatedAt None; IncrementVersion] in
          tx! _ := writeSecurityAudit (user_audit actor "USER_INVITATION_PROVIDER_SUCCEEDED" id
                     PROVIDER_SUCCEEDED None (Some [(js "providerSubjectVerified", JBool true)])
                     (Some request)) in
          tx! _ := writeSecurityAudit (user_audit actor "USER_INVITATION_RETRIED" id SUCCESS
                     (Some (userAuditSnapshot before)) (Some (userAuditSnapshot updated))
                     (Some request)) in
          tx_ret (toSummary updated at_)
  end.

Definition retry (id actor request : str) : prog World UserSummary :=
  await retryClaim := call (claim_retry id actor request) in
  let email := normalizedEmail retryClaim ?? [] in
  await providerUser :=
    catch (call (provider_tx (ip_inviteUserByEmail email inviteRedirectUrl request)))
      (fun _ =>
         await _ := markInvitationFailure id actor request PROVIDER_UNAVAILABLE in
         Throw (userLifecycleError INVITATION_PROVIDER_UNAVAILABLE)) in
  if negb (bool_decide (normalizeEmailOrNull (pu_email providerUser) = normalizedEmail retryClaim))
     || negb (bool_decide (pu_invitationRequestId providerUser = Some request))
  then
    await _ := markInvitationFailure id actor request PROVIDER_IDENTITY_MISMATCH in
    Throw (userLifecycleError INVITATION_PROVIDER_UNAVAILABLE)
  else
    catch (call (commit_retry id actor request providerUser))
      (fun _ =>
         await _ := repair_local_failure id actor request email (pu_id providerUser) in
         Throw (userLifecycleError INVITATION_LOCAL_COMMIT_FAILED)).

Definition reconcile (id : str) (action : ReconciliationAction) (actor : str)
  : prog World UserSummary :=
  await current := call (findUser id) in
  match current with
  | None => Throw (userLifecycleError USER_NOT_FOUND)
  | Some current =>
      match action with
      | CANCEL => cancel id actor current
      | RETRY_INVITATION =>
          match invitationRequestId current with
          | Some ((_ :: _) as request) =>
              if negb (bool_decide (inviteStatus current = RECONCILE_REQUIRED))
                 || negb (bool_decide (invitationErrorCode current = Some PROVIDER_UNAVAILABLE))
                 || truthy_opt (authUserId current) || negb (truthy_opt (normalizedEmail current))
              then Throw (userLifecycleError INVITATION_NOT_RECONCILABLE)
              else retry id actor request
          | _ => Throw (userLifecycleError INVITATION_NOT_RECONCILABLE)
          end
      end
  end.
End service.
