(* ===== verification/UploadStorage.v ===== *)
(** * The original files of the Meta uploads

    [uploads/upload-storage.service.ts]: the reference under which the original
    file of an upload is stored, and the storing and the deletion of the file.
    The keys are made for one upload each ([prepared_reference]), which is what
    the theorems on the tombstones ask of the callers of [retain]. *)

From S2P Require Import Prelude JsNumber JsString StorageKey FileStorage.
From S2P Require Import Users.
From S2P Require Import Tombstone TombstoneSafety.

Local Open Scope Z_scope.

Section uploads.
Context `{Icu, Digest, FileStorage} (config : StorageConfig).

(** The local year and month of a time. *)
Context (getFullYear getMonth : Z -> Z).

(** [/^[a-f0-9]{64}$/i]. *)
Definition is_file_hash (s : str) : bool := (List.length s =? 64)%nat && forallb is_hex s.

(** The provider of [this.storage], [configuredFileStorage(config, "uploads")]. *)
Definition storage_provider : result str :=
  let provider := to_lower (trim (STORAGE_PROVIDER config ?? js "local")) in
  let! _ := configuredFileStorageForProvider config provider in Ok provider.

Definition original_key (fileHash : str) (now : Z) (objectId : str) : str :=
  join [slash] [digits_of 20 (getFullYear now); pad_start 2 (digits_of 20 (getMonth now + 1));
                to_lower objectId; to_lower fileHash].

Definition prepareOriginalFileReference (fileHash : str) (now : Z) (objectId : str) : result str :=
  if negb (is_file_hash fileHash) then Throws other_error
  else if negb (isUuid objectId) then Throws other_error
  else
    let key := original_key fileHash now objectId in
    let! provider := storage_provider in
    storageReference provider key.

Definition localReference (reference : str) : result StorageReference :=
  let! parsed := parseStorageReference reference in
  match parsed with
  | None => Throws other_error
  | Some p =>
      let! provider := storage_provider in
      if str_eqb (StorageKey.provider p) provider then Ok p else Throws other_error
  end.

Definition putOriginalFile (buffer : bytes) (reference : str) (s : store) : result (StoredFile * store) :=
  let! parsed := localReference reference in
  fs_put s {| put_key := key parsed; body := [buffer]; expectedHashSha256 := Some (sha256 buffer);
              maxBytes := Some (size_of buffer) |}.

Definition storeOriginalFile (buffer : bytes) (fileHash : str) (now : Z) (randomUUID : str) (s : store)
  : result (str * store) :=
  let! reference := prepareOriginalFileReference fileHash now randomUUID in
  let! (_, s) := putOriginalFile buffer reference s in
  Ok (reference, s).

(** The local adapter alone has a [rootPath]. *)
Definition localRootPath : result str :=
  let! provider := storage_provider in
  if str_eqb provider (js "local") then Ok (storage_dir config uploads) else Throws other_error.

Definition deleteStoredUploadFile (storedFilePath : option str) (s : store) : result (bool * store) :=
  match storedFilePath with
  | None => Ok (false, s)
  | Some path =>
      if negb (truthy path) then Ok (false, s)
      else
        let! parsed := parseStorageReference path in
        match parsed with
        | Some p =>
            let! provider := storage_provider in
            if negb (str_eqb (StorageKey.provider p) provider) then Throws other_error
            else fs_delete s (key p)
        | None =>
            let! root := localRootPath in
            let! key := legacyLocalPathToKey (process_cwd config) path root in
            fs_delete s key
        end
  end.
End uploads.

(** ** The key of an upload *)

(** The upload that a key was made for: its third segment. *)
Definition upload_key_record : KeyRecords := fun _ k => nth 2 (split_on slash k) [].

(** The characters of the segments of the keys. *)
Definition key_char (c : N) : bool := (is_hex c || (c =? 45)%N).

Lemma key_char_cases c : key_char c = true ->
  (c = 45 \/ 48 <= c <= 57 \/ 97 <= c <= 102 \/ 65 <= c <= 70)%N.
Proof. unfold key_char, is_hex, is_digit. rewrite !orb_true_iff, !andb_true_iff, ?N.leb_le, N.eqb_eq. lia. Qed.

Lemma digits_key_chars f n : 0 <= n -> forallb key_char (digits_of f n) = true.
Proof.
  assert (D : forall d, 0 <= d < 10 -> key_char (Z.to_N (d + 48)) = true).
  { intros d Hd. unfold key_char, is_hex, is_digit.
    rewrite !orb_true_iff, !andb_true_iff, ?N.leb_le, ?N.eqb_eq. lia. }
  revert n. induction f as [|f IH]; intros n Hn; [done|]. cbn [digits_of].
  destruct (Z.ltb_spec n 10); [cbn [forallb]; by rewrite D|].
  rewrite forallb_app, IH by (apply Z.div_pos; lia). cbn [forallb andb].
  rewrite D by (apply Z.mod_pos_bound; lia). done.
Qed.

Lemma pad_key_chars k s : forallb key_char s = true -> forallb key_char (pad_start k s) = true.
Proof.
  intros Hs. unfold pad_start. rewrite forallb_app, Hs, andb_true_r.
  apply forallb_forall_iff. intros c [-> _]%elem_of_replicate. done.
Qed.

Lemma lower_key_chars `{IcuLaws} s : forallb key_char s = true -> forallb key_char (to_lower s) = true.
Proof.
  intros Hs. rewrite forallb_forall_iff in Hs. rewrite to_lower_ascii.
  - apply forallb_forall_iff. intros c (x & -> & Hx)%list_elem_of_fmap. specialize (Hs x Hx).
    apply key_char_cases in Hs. unfold ascii_lower, key_char, is_hex, is_digit.
    destruct (N.leb_spec 65 x), (N.leb_spec x 90); cbn [andb];
      rewrite !orb_true_iff, !andb_true_iff, ?N.leb_le, ?N.eqb_eq; lia.
  - apply forallb_forall_iff. intros c Hc. apply N.ltb_lt. specialize (Hs c Hc).
    apply key_char_cases in Hs. lia.
Qed.

Lemma isUuid_key_chars s : isUuid s = true -> forallb key_char s = true.
Proof.
  unfold isUuid. pose proof (join_split_on 45 s) as J.
  destruct (split_on 45 s) as [|a [|b [|c [|d [|e [|]]]]]]; try done.
  intros U. bool_simpl. destruct U as [[[F _] _] _]. cbn [join] in J. rewrite <- J.
  assert (W : forall p, p ∈ [a; b; c; d; e] -> forallb key_char p = true).
  { intros p Hp. pose proof (proj1 (forallb_forall_iff _ _) F p Hp) as Fp. cbv beta in Fp.
    apply forallb_forall_iff. intros x Hx. unfold key_char. by rewrite (proj1 (forallb_forall_iff _ _) Fp x Hx). }
  repeat (rewrite forallb_app; cbn [forallb app]). by rewrite !W by set_solver.
Qed.

Lemma no_slash s : forallb key_char s = true -> existsb (N.eqb slash) s = false.
Proof.
  rewrite forallb_forall_iff, existsb_false_iff. intros Hs x Hx. specialize (Hs x Hx).
  apply key_char_cases in Hs. apply N.eqb_neq. unfold slash. lia.
Qed.

(** Keys made of such segments split into them and are read back from references. *)
Lemma split_on_join_segments segs :
  segs <> [] -> Forall (fun s => forallb key_char s = true) segs -> split_on slash (join [slash] segs) = segs.
Proof.
  intros N F. induction F as [|s segs Hs F IH]; [done|]. destruct segs as [|t segs].
  - cbn [join]. unfold split_on. by rewrite split_on_go_nosep by by apply no_slash.
  - rewrite join_cons by done. rewrite split_on_app, IH by done.
    unfold split_on at 1. by rewrite split_on_go_nosep by by apply no_slash.
Qed.

Lemma join_no_line_terminator segs :
  Forall (fun s => forallb key_char s = true) segs -> existsb is_line_terminator (join [slash] segs) = false.
Proof.
  assert (W : forall s, forallb key_char s = true -> existsb is_line_terminator s = false).
  { intros s. rewrite forallb_forall_iff, existsb_false_iff. intros Hs x Hx. specialize (Hs x Hx).
    apply key_char_cases in Hs. unfold is_line_terminator. rewrite !orb_false_iff, !N.eqb_neq. lia. }
  intros F. induction F as [|s segs Hs F IH]; [done|]. destruct segs as [|t segs]; [by apply W|].
  rewrite join_cons by done. rewrite existsb_app, W by done. cbn [existsb orb]. by rewrite IH.
Qed.

Section keys.
Context `{IcuLaws} (config : StorageConfig) (getFullYear getMonth : Z -> Z).
(** What the language says of the calendar, for the times from the year 0 on. *)
Hypothesis calendar : forall t, 0 <= t -> 0 <= getFullYear t /\ 0 <= getMonth t <= 11.

Lemma segments_ok fileHash now objectId :
  0 <= now -> is_file_hash fileHash = true -> isUuid objectId = true ->
  Forall (fun s => forallb key_char s = true)
    [digits_of 20 (getFullYear now); pad_start 2 (digits_of 20 (getMonth now + 1));
     to_lower objectId; to_lower fileHash].
Proof.
  intros T Hh Hu. destruct (calendar now T) as [Y M].
  repeat apply List.Forall_cons; [by apply digits_key_chars|apply pad_key_chars, digits_key_chars; lia| | |constructor].
  - by apply lower_key_chars, isUuid_key_chars.
  - apply lower_key_chars. unfold is_file_hash in Hh. apply andb_true_iff in Hh as [_ Hh].
    rewrite forallb_forall_iff in Hh |- *. intros c Hc. unfold key_char. by rewrite Hh.
Qed.

Lemma original_key_ok fileHash now objectId :
  0 <= now -> is_file_hash fileHash = true -> isUuid objectId = true ->
  upload_key_record uploads (original_key getFullYear getMonth fileHash now objectId) = to_lower objectId
  /\ existsb is_line_terminator (original_key getFullYear getMonth fileHash now objectId) = false.
Proof.
  intros T Hh Hu. pose proof (segments_ok fileHash now objectId T Hh Hu) as F. unfold original_key.
  split; [|by apply join_no_line_terminator]. unfold upload_key_record.
  rewrite split_on_join_segments; [done|discriminate|done].
Qed.

(** The reference made for the file of an upload names a key of that upload:
    a [retain] of the upload with it meets [own_key].  (The id is a
    [randomUUID()], which is in lower case.) *)
Theorem prepared_reference fileHash now objectId reference d hash actor :
  0 <= now -> to_lower objectId = objectId ->
  prepareOriginalFileReference config getFullYear getMonth fileHash now objectId = Ok reference ->
  own_key (KR := upload_key_record) config
    {| in_domain := d; in_businessRecordId := objectId; in_reference := reference;
       in_expectedHash := hash; in_actorUserId := actor |}.
Proof.
  intros T L. unfold prepareOriginalFileReference.
  destruct (is_file_hash fileHash) eqn:Hh; [|done]. destruct (isUuid objectId) eqn:Hu; [|done]. cbn [negb].
  destruct (storage_provider config) as [p|]; [|done]. cbn [result_bind]. intros Er r.
  destruct (original_key_ok fileHash now objectId T Hh Hu) as [Ek Nl].
  revert Er Ek Nl. generalize (original_key getFullYear getMonth fileHash now objectId). intros k Er Ek Nl.
  unfold resolveReference. cbn [in_domain in_reference in_businessRecordId].
  rewrite (parseStorageReference_storageReference _ _ _ Er).
  rewrite Nl. cbn [result_bind]. intros (_ & _ & [= <-])%result_bind_ok.
  unfold key_record. cbn [r_key key]. by rewrite <- L, <- Ek.
Qed.

(** Different uploads have different keys. *)
Corollary prepared_references_differ h h' now now' o o' p k :
  0 <= now -> 0 <= now' ->
  prepareOriginalFileReference config getFullYear getMonth h now o = Ok p ->
  prepareOriginalFileReference config getFullYear getMonth h' now' o' = Ok k ->
  to_lower o <> to_lower o' -> p <> k.
Proof.
  intros T T' Ep Eq N ->. apply N. revert Ep Eq. unfold prepareOriginalFileReference.
  destruct (is_file_hash h) eqn:Hh, (isUuid o) eqn:Hu; try done.
  destruct (is_file_hash h') eqn:Hh', (isUuid o') eqn:Hu'; try done. cbn [negb].
  destruct (storage_provider config) as [q|]; [|done]. cbn [result_bind].
  destruct (original_key_ok h now o T Hh Hu) as [<- Nl], (original_key_ok h' now' o' T' Hh' Hu') as [<- Nl'].
  revert Nl Nl'. generalize (original_key getFullYear getMonth h now o), (original_key getFullYear getMonth h' now' o').
  intros x y Nx Ny Ep Eq. apply parseStorageReference_storageReference in Ep, Eq.
  rewrite Nx in Ep. rewrite Ny in Eq. rewrite Ep in Eq. by injection Eq as ->.
Qed.
End keys.

(** ** The file of an upload *)

Section files.
Context `{FileStorageLaws} (config : StorageConfig) (getFullYear getMonth : Z -> Z).

(** A file that is stored is there under its reference, and deleting it by
    that reference removes its key alone. *)
Theorem stored_file_deleted buffer fileHash now objectId reference s s1 p :
  storeOriginalFile config getFullYear getMonth buffer fileHash now objectId s = Ok (reference, s1) ->
  parseStorageReference reference = Ok (Some p) ->
  (exists b, s1 = <[key p := b]> s /\ sha256 b = sha256 buffer)
  /\ forall r s2, deleteStoredUploadFile config (Some reference) s1 = Ok (r, s2) -> r = true /\ s2 = delete (key p) s1.
Proof.
  unfold storeOriginalFile. intros (ref & Er & E)%result_bind_ok Ep.
  apply result_bind_ok in E as ([f s'] & E & [= -> ->]).
  unfold putOriginalFile in E. apply result_bind_ok in E as (q & Eq & E).
  unfold localReference in Eq. rewrite Ep in Eq. cbn [result_bind] in Eq.
  apply result_bind_ok in Eq as (pr & Epr & Eq). destruct (str_eqb (StorageKey.provider p) pr) eqn:Es; [|done].
  injection Eq as <-. apply put_ok in E as (b & Eb & _ & _ & _ & Hb & _).
  cbn [put_key body concat] in *. rewrite app_nil_r in Hb. split; [by exists b|]. intros r s2. unfold deleteStoredUploadFile.
  destruct (truthy reference) eqn:Tr; [|by destruct reference].
  cbn [negb]. rewrite Ep, Epr. cbn [result_bind]. rewrite Es. cbn [negb]. intros D.
  apply delete_ok in D as [-> ->]. split; [|done]. rewrite Eb. apply bool_decide_eq_true.
  rewrite lookup_insert_eq. by eexists.
Qed.
End files.

Module UploadExample.
#[local] Existing Instance c_locale.

Definition config : StorageConfig := {|
  STORAGE_PROVIDER := None; SUPABASE_STORAGE_ACCESS_MODE := None; supabase_settings := false;
  SUPABASE_STORAGE_RETENTION_DAYS := None; storage_dir d := js "/srv/uploads"; process_cwd := js "/srv"
|}.

Definition batch : str := js "0f8fad5b-d9cb-469f-a165-70867728950e".
Definition file_hash : str := replicate 64 65%N.

Example prepared : prepareOriginalFileReference config (fun _ => 2024) (fun _ => 0) file_hash 1000 batch
  = Ok (js "local:2024/01/0f8fad5b-d9cb-469f-a165-70867728950e/" ++ replicate 64 97%N).
Proof. vm_compute. reflexivity. Qed.

Example refused : prepareOriginalFileReference config (fun _ => 2024) (fun _ => 0) file_hash 1000 (js "../../x") = Throws other_error.
Proof. vm_compute. reflexivity. Qed.

Lemma prepared_reference_witness :
  own_key (KR := upload_key_record) config
    {| in_domain := META_UPLOAD; in_businessRecordId := batch;
       in_reference := js "local:2024/01/0f8fad5b-d9cb-469f-a165-70867728950e/" ++ replicate 64 97%N;
       in_expectedHash := file_hash; in_actorUserId := None |}.
Proof.
  apply (prepared_reference config (fun _ => 2024) (fun _ => 0) ltac:(intros; lia) file_hash 1000).
  - lia.
  - vm_compute. reflexivity.
  - exact prepared.
Defined.
End UploadExample.
