(* ===== verification/UsersSafety.v ===== *)
(** * What every action on an account keeps

    The invariant of the account table, what one action may do to a row
    ([row_step]) and to the world ([guarantee]), what the other requests may do
    in between ([rely]), and the proof that each transaction and each provider
    call of [Users] respects them.  The theorems are in [UsersGuarantees]. *)

From S2P Require Import Prelude JsNumber JsString.
From S2P Require Import SecurityAudit.
From S2P Require Import Concurrency.
From S2P Require Import Transactions.
From S2P Require Import Access.
From S2P Require Import Users.

Local Open Scope Z_scope.

(** ** Inversion of transactions *)

(** Walk through a transaction that succeeded. *)
Ltac tx_inv :=
  repeat match goal with
  | H : tx_bind _ _ _ = Ok _ |- _ =>
      let a := fresh "a" in let w := fresh "w" in let E := fresh "E" in
      apply tx_bind_inv in H as (a & w & E & H); cbv beta in H
  | H : tx_ret _ _ = Ok _ |- _ => unfold tx_ret in H; inj_eq H
  | H : tx_get _ _ = Ok _ |- _ => unfold tx_get in H; inj_eq H
  | H : tx_now _ = Ok _ |- _ => unfold tx_now, tx_get in H; inj_eq H
  | H : findUser _ _ = Ok _ |- _ => unfold findUser, tx_get in H; inj_eq H
  | H : findBy _ _ _ = Ok _ |- _ => unfold findBy, tx_get in H; inj_eq H
  | H : tx_throw _ _ = Ok _ |- _ => discriminate H
  | H : fail _ _ = Ok _ |- _ => discriminate H
  | H : assertTransition _ _ _ = Ok _ |- _ =>
      unfold assertTransition in H; destruct (canTransitionInvitation _ _) eqn:?; [|discriminate H]
  | H : (if ?c then _ else _) _ = Ok _ |- _ => destruct c eqn:?
  | H : match ?x with Some _ => _ | None => _ end _ = Ok _ |- _ => destruct x eqn:?
  end.

Section safety.
Context `{IcuLaws, IdentityProviderLaws}.

(** ** The tables *)

Lemma elem_of_rows (w : World) u : u ∈ map snd (map_to_list (users w)) <-> exists id, users w !! id = Some u.
Proof.
  rewrite list_elem_of_fmap. split.
  - intros ([id v] & -> & I%elem_of_map_to_list). eauto.
  - intros [id I]. exists (id, u). by rewrite elem_of_map_to_list.
Qed.

Lemma first_user_None p (w : World) : first_user p w = None <-> forall id u, users w !! id = Some u -> p u = false.
Proof.
  unfold first_user. rewrite find_none_iff. split.
  - intros F id u E. apply F, elem_of_rows. eauto.
  - intros F u [id E]%elem_of_rows. eauto.
Qed.

Lemma first_user_Some p (w : World) u : first_user p w = Some u -> p u = true /\ exists id, users w !! id = Some u.
Proof.
  unfold first_user. intros F. apply find_some in F as [I P]. split; [done|].
  apply elem_of_rows. by apply list_elem_of_In.
Qed.

Lemma apply_writes_id ws u : u_id (apply_writes ws u) = u_id u.
Proof.
  unfold apply_writes. revert u. induction ws as [|x ws IH]; intros u; simpl; [done|].
  rewrite IH. by destruct x.
Qed.

Lemma securityAuditData_Ok e d : securityAuditData e = Ok d -> d = e.
Proof. unfold securityAuditData, SecurityAudit.plain_error. repeat case_match; congruence. Qed.

Lemma writeSecurityAudit_inv e (w w' : World) x : writeSecurityAudit e w = Ok (x, w') -> w' = add_audit e w.
Proof.
  unfold writeSecurityAudit. destruct (securityAuditData e) as [d|] eqn:D; simpl; [|done].
  apply securityAuditData_Ok in D as ->. intros F. by repeat case_match; simplify_eq.
Qed.

(** ** The invariant *)

Definition column_unique (column : AppUser -> option str) (m : gmap str AppUser) : Prop :=
  forall i j u v x, m !! i = Some u -> m !! j = Some v -> column u = Some x -> column v = Some x -> i = j.

Record invariant (w : World) : Prop := {
  inv_keys i u : users w !! i = Some u -> u_id u = i;
  inv_unique name column : (name, column) ∈ unique_columns -> column_unique column (users w);
  inv_used i u s : users w !! i = Some u -> authUserId u = Some s -> used s (identities w)
}.

Lemma inv_subject w : invariant w -> column_unique authUserId (users w).
Proof. intros I. apply (inv_unique w I (js "auth_user_id")). unfold unique_columns. set_solver. Qed.

Lemma clash_unique u (w : World) : invariant w -> clash u w = None ->
  forall name column, (name, column) ∈ unique_columns -> column_unique column (<[u_id u := u]> (users w)).
Proof.
  intros I C name column Hc. unfold clash in C. apply fmap_None in C. rewrite find_none_iff in C.
  specialize (C _ Hc). simpl in C. unfold is_Some_b in C.
  destruct (first_user (collides column u) w) eqn:F; [done|]. rewrite first_user_None in F.
  assert (N : forall k v x, users w !! k = Some v -> k <> u_id u -> column v = Some x -> column u = Some x -> False).
  { intros k v x Hv K Cv Cu. specialize (F k v Hv). unfold collides in F.
    rewrite (inv_keys w I k v Hv), Cv, Cu in F.
    rewrite bool_decide_eq_false_2, !bool_decide_eq_true_2 in F by (done || by eexists). done. }
  intros i j v v' x Hi Hj Ci Cj.
  destruct (decide (i = u_id u)) as [->|Ni], (decide (j = u_id u)) as [->|Nj]; [done| | |].
  - rewrite lookup_insert_eq in Hi. rewrite lookup_insert_ne in Hj by done. simplify_eq.
    exfalso; eauto.
  - rewrite lookup_insert_ne in Hi by done. rewrite lookup_insert_eq in Hj. simplify_eq.
    exfalso; eauto.
  - rewrite lookup_insert_ne in Hi, Hj by done. by eapply (inv_unique w I).
Qed.

(** ** Steps *)

Definition gone (s : str) (w : World) : Prop := used s (identities w) /\ ~ existing s (identities w).

(** A cancelled invitation whose identity at the provider has to be removed. *)
Definition owes (s : str) (u : AppUser) : Prop :=
  inviteStatus u = CANCELLED /\ authUserId u = Some s
  /\ invitationErrorCode u = Some PROVIDER_COMPENSATION_REQUIRED.

Record rely (w w' : World) : Prop := {
  rely_rows i u : users w !! i = Some u ->
    exists u', users w' !! i = Some u' /\ forall s, owes s u -> owes s u' \/ gone s w';
  rely_used s : used s (identities w) -> used s (identities w');
  rely_gone s : gone s w -> gone s w'
}.

#[export] Instance rely_preorder : PreOrder rely.
Proof.
  split.
  - intros w. split; [|done..]. intros i u E. eauto.
  - intros w1 w2 w3 R1 R2. split.
    + intros i u E. destruct (rely_rows _ _ R1 i u E) as (u2 & E2 & O2).
      destruct (rely_rows _ _ R2 i u2 E2) as (u3 & E3 & O3). exists u3. split; [done|].
      intros s O. destruct (O2 s O) as [O'|G]; [auto|]. right. by apply (rely_gone _ _ R2).
    + intros s U. apply (rely_used _ _ R2), (rely_used _ _ R1), U.
    + intros s G. apply (rely_gone _ _ R2), (rely_gone _ _ R1), G.
Qed.

(** What a row's owner may do on the server. *)
Definition standing (u : AppUser) : AppRole * bool * InviteStatus := (u_role u, isActive u, inviteStatus u).

Definition may_become (u u' : AppUser) : Prop :=
  canTransitionInvitation (inviteStatus u) (inviteStatus u') = true
  \/ (canRestartCancelledInvitation (inviteStatus u) (authUserId u) (invitationErrorCode u) = true
      /\ inviteStatus u' = PENDING_PROVIDER).

Record row_step (u u' : AppUser) : Prop := {
  row_lifecycle : may_become u u';
  row_version : authzVersion u <= authzVersion u';
  row_authorization : (u_role u, isActive u) <> (u_role u', isActive u') ->
    authzVersion u < authzVersion u'
}.

Definition has_super_admin (w : World) : Prop :=
  exists i u, users w !! i = Some u /\ is_active_super_admin u = true.

Record guarantee (w w' : World) : Prop := {
  g_rely : rely w w';
  g_rows i u u' : users w !! i = Some u -> users w' !! i = Some u' -> row_step u u';
  g_audited : exists new, auditEvents w' = auditEvents w ++ new /\
    forall i u', users w' !! i = Some u' -> standing <$> users w !! i <> Some (standing u') ->
      exists e, e ∈ new /\ targetId e = Some i;
  g_super_admin : has_super_admin w -> has_super_admin w';
  g_identities i u s : users w !! i = Some u -> authUserId u = Some s -> inviteStatus u <> CANCELLED ->
    existing s (identities w) -> existing s (identities w')
}.

Lemma row_step_refl u : row_step u u.
Proof. split; [left; apply canTransitionInvitation_refl|lia|done]. Qed.

Lemma guarantee_same_users w w' :
  users w' = users w -> (exists new, auditEvents w' = auditEvents w ++ new) ->
  (forall s, used s (identities w) -> used s (identities w')) ->
  (forall s, gone s w -> gone s w') ->
  (forall i u s, users w !! i = Some u -> authUserId u = Some s -> inviteStatus u <> CANCELLED ->
    existing s (identities w) -> existing s (identities w')) ->
  invariant w -> invariant w' /\ guarantee w w'.
Proof.
  intros Eu [new Ea] U G P I. split; split; rewrite ?Eu; try (by apply I).
  - intros i u s E A. apply U. by eapply (inv_used w I).
  - split; rewrite ?Eu; [|auto..]. intros i u E. eauto.
  - intros i u u' E E'. simplify_eq. apply row_step_refl.
  - exists new. split; [done|]. intros i u' E N. by rewrite E in N.
  - unfold has_super_admin. by rewrite Eu.
  - exact P.
Qed.

Lemma guarantee_refl w : guarantee w w.
Proof.
  split.
  - reflexivity.
  - intros. simplify_eq. apply row_step_refl.
  - exists []. rewrite app_nil_r. split; [done|]. intros i u' E N. by rewrite E in N.
  - done.
  - done.
Qed.

Lemma keeps_guarantee w w' :
  users w' = users w -> (exists new, auditEvents w' = auditEvents w ++ new) ->
  keeps (identities w) (identities w') -> invariant w -> invariant w' /\ guarantee w w'.
Proof.
  intros Eu Ea K I. apply guarantee_same_users; [done..| | | |done].
  - intros s U. by destruct (K s U).
  - intros s [U N]. destruct (K s U) as [U' X]. split; [done|]. by rewrite X.
  - intros i u s E A _ X. apply (K s); [by eapply (inv_used w I)|done].
Qed.

Lemma add_audit_guarantee e w : invariant w -> invariant (add_audit e w) /\ guarantee w (add_audit e w).
Proof. intros I. apply keeps_guarantee; [done|by exists [e]| |done]. split; simpl; tauto. Qed.

(** ** Storing a row *)

Lemma others_super_admin w i : 1 < count_users is_active_super_admin w ->
  exists j v, j <> i /\ users w !! j = Some v /\ is_active_super_admin v = true.
Proof. unfold count_users. intros C. apply two_values. lia. Qed.

(** The conditions under which a changed or new row may be stored. *)
Record admissible (w : World) (old : option AppUser) (u' : AppUser) (new : list SecurityAuditWrite) : Prop := {
  adm_row u : old = Some u -> row_step u u';
  adm_audit : standing <$> old <> Some (standing u') -> exists e, e ∈ new /\ targetId e = Some (u_id u');
  adm_super u : old = Some u -> is_active_super_admin u = true ->
    is_active_super_admin u' = true \/ 1 < count_users is_active_super_admin w;
  adm_owes u s : old = Some u -> owes s u -> owes s u' \/ gone s w;
  adm_used s : authUserId u' = Some s -> used s (identities w)
}.

Lemma store_step w w' u' new :
  invariant w -> clash u' w = None -> admissible w (users w !! u_id u') u' new ->
  users w' = <[u_id u' := u']> (users w) -> auditEvents w' = auditEvents w ++ new ->
  identities w' = identities w ->
  invariant w' /\ guarantee w w'.
Proof.
  intros I C A Eu Ea Ei. set (i := u_id u') in *.
  assert (R : rely w w').
  { split; rewrite ?Eu; unfold gone; rewrite ?Ei; auto.
    intros j u E. destruct (decide (j = i)) as [->|N].
    - rewrite lookup_insert_eq. eexists. split; [done|]. intros s O.
      destruct (adm_owes _ _ _ _ A u s E O) as [O'|[G1 G2]]; auto.
    - rewrite lookup_insert_ne by done. eauto. }
  split; [split; rewrite ?Eu, ?Ei|split; rewrite ?Eu, ?Ei].
  - intros j u E. destruct (decide (j = i)) as [->|N].
    + rewrite lookup_insert_eq in E. by injection E as <-.
    + rewrite lookup_insert_ne in E by done. by apply (inv_keys w I).
  - by apply clash_unique.
  - intros j u s E S. destruct (decide (j = i)) as [->|N].
    + rewrite lookup_insert_eq in E. injection E as <-. by apply (adm_used _ _ _ _ A).
    + rewrite lookup_insert_ne in E by done. by eapply (inv_used w I).
  - done.
  - intros j u v E F. destruct (decide (j = i)) as [->|N].
    + rewrite lookup_insert_eq in F. injection F as <-. by apply (adm_row _ _ _ _ A).
    + rewrite lookup_insert_ne in F by done. simplify_eq. apply row_step_refl.
  - exists new. split; [done|]. intros j v F D. destruct (decide (j = i)) as [->|N].
    + rewrite lookup_insert_eq in F. injection F as <-. by apply (adm_audit _ _ _ _ A).
    + rewrite lookup_insert_ne in F by done. by rewrite F in D.
  - intros (j & u & E & S). unfold has_super_admin. rewrite Eu. destruct (decide (j = i)) as [->|N].
    + destruct (adm_super _ _ _ _ A u E S) as [S'|S'].
      * exists i, u'. by rewrite lookup_insert_eq.
      * destruct (others_super_admin w i S') as (k & v & Nk & Ek & Sk).
        exists k, v. by rewrite lookup_insert_ne.
    + exists j, u. by rewrite lookup_insert_ne.
  - done.
Qed.

Lemma store_user_inv u (w w' : World) r : store_user u w = Ok (r, w') ->
  r = u /\ clash u w = None /\ w' = set_users (<[u_id u := u]> (users w)) w.
Proof.
  unfold store_user. destruct (clash u w); [done|]. intros F. by repeat case_match; simplify_eq.
Qed.

Lemma update_user_inv i data (w w' : World) u' : update_user i data w = Ok (u', w') ->
  exists u, users w !! i = Some u /\ u' = apply_writes (data ++ [SetUpdatedAt (clock w)]) u
    /\ clash u' w = None /\ w' = set_users (<[u_id u' := u']> (users w)) w.
Proof.
  unfold update_user. destruct (users w !! i) as [u|] eqn:E; [|done].
  intros (-> & C & ->)%store_user_inv. eauto 10.
Qed.

Lemma create_user_inv u (w w' : World) u' : create_user u w = Ok (u', w') ->
  u' = u /\ users w !! u_id u = None /\ clash u w = None /\ w' = set_users (<[u_id u := u]> (users w)) w.
Proof.
  unfold create_user. destruct (users w !! u_id u) eqn:E; [done|]. intros (-> & C & ->)%store_user_inv. done.
Qed.

Lemma admissible_update w u u' new :
  may_become u u' -> authzVersion u <= authzVersion u' ->
  ((u_role u, isActive u) <> (u_role u', isActive u') -> authzVersion u < authzVersion u') ->
  (Some (standing u) <> Some (standing u') -> exists e, e ∈ new /\ targetId e = Some (u_id u')) ->
  (is_active_super_admin u = true ->
   is_active_super_admin u' = true \/ 1 < count_users is_active_super_admin w) ->
  (forall s, owes s u -> owes s u' \/ gone s w) ->
  (forall s, authUserId u' = Some s -> used s (identities w)) ->
  admissible w (Some u) u' new.
Proof. intros. split; intros; simplify_eq; auto. by split. Qed.

Lemma clash_users u (w w' : World) : users w' = users w -> clash u w' = clash u w.
Proof. unfold clash, first_user. by intros ->. Qed.
End safety.

(** Turn the guards that were taken into equations. *)
Ltac guards :=
  bool_simpl; repeat match goal with
  | H : _ /\ _ |- _ => destruct H
  | H : bool_decide _ = true |- _ => apply bool_decide_eq_true in H
  | H : bool_decide _ = false |- _ => apply bool_decide_eq_false in H
  end.

(** Continue [tx_inv] through the writes of a transaction. *)
Ltac tx_writes :=
  tx_inv;
  repeat (match goal with
  | H : writeSecurityAudit _ _ = Ok _ |- _ => let E := fresh "Q" in pose proof (writeSecurityAudit_inv _ _ _ _ H) as E; clear H; elim_eq E
  | H : revoke_sessions _ _ = Ok _ |- _ => unfold revoke_sessions in H; inj_eq H
  | H : update_user _ _ _ = Ok _ |- _ =>
      let u := fresh "u" in let E := fresh "E" in let D := fresh "D" in let C := fresh "C" in
      let Ew := fresh "Ew" in
      apply update_user_inv in H as (u & E & D & C & Ew)
  | H : create_user _ _ = Ok _ |- _ =>
      let E := fresh "E" in let D := fresh "D" in let C := fresh "C" in let Ew := fresh "Ew" in
      apply create_user_inv in H as (D & E & C & Ew)
  end; tx_inv).

(** The end of a proof about a transaction: nothing was written, or one row was. *)
Ltac unchanged := solve [split; [done | apply guarantee_refl]].
Ltac stored :=
  match goal with
  | I : invariant ?w, E : users ?w !! ?i = Some ?u, D : ?u' = apply_writes _ ?u, C : clash ?u' ?w = None,
    Ew : _ = set_users _ _ |- _ =>
      let K := fresh "K" in
      assert (K : u_id u' = i) by (rewrite D, apply_writes_id; by apply (inv_keys w I));
      eapply (store_step w _ u'); [exact I|exact C| |rewrite Ew; reflexivity
        |rewrite Ew; simpl; rewrite <- ?app_assoc; first [reflexivity | symmetry; apply app_nil_r]|rewrite Ew; reflexivity];
      rewrite K, E; apply admissible_update; rewrite ?K; rewrite D; clear D K Ew; unfold apply_writes; simpl
  end.

(** What is left of a changed row, when its status decides. *)
Ltac by_status :=
  simplify_eq;
  try solve [lia | intros; exfalso; congruence | intros; lia];
  try solve [left; unfold canTransitionInvitation; simpl; assumption];
  try solve [left; apply canTransitionInvitation_refl];
  try solve [let X := fresh in intros X; destruct X; reflexivity];
  try solve [eexists; split; [left; reflexivity | reflexivity]];
  try solve [match goal with S : inviteStatus ?u = _ |- _ =>
               unfold is_active_super_admin; rewrite S; simpl; rewrite andb_false_r; done end];
  try solve [intros ? [? [? ?]]; first [congruence | left; repeat split; simpl; congruence]];
  try solve [intros; by eapply inv_used].

Section transactions.
Context `{IcuLaws, IdentityProviderLaws} (uuid : nat -> str) (inviteRedirectUrl : str).

(** A transaction that keeps the invariant and gives the guarantee, when [P]
    holds in the world it starts in. *)
Definition tx_ok {A} (P : World -> Prop) (f : TX World A) : Prop :=
  forall w r w', invariant w -> P w -> f w = Ok (r, w') -> invariant w' /\ guarantee w w'.
(** Decide the first condition inside the written data. *)
Ltac written_if :=
  match goal with D : _ = apply_writes ?l _ |- _ =>
    match l with context [if ?c then _ else _] => destruct c eqn:? end
  end.

Lemma mark_failure_ok i actor request code :
  tx_ok (fun _ => True) (mark_failure_tx i actor request code).
Proof.
  intros w r w' I _ F. unfold mark_failure_tx in F. tx_writes; guards; try unchanged.
  stored; by_status.
Qed.

Lemma mark_succeeded_ok i actor request subject :
  tx_ok (fun w => used subject (identities w)) (mark_succeeded_tx i actor request subject).
Proof.
  intros w r w' I U F. unfold mark_succeeded_tx in F. tx_writes; guards; try unchanged.
  written_if; stored; by_status.
  by intros s [= <-].
Qed.

Lemma finish_compensation_ok i actor pending c :
  tx_ok (fun w => c = DELETED \/ c = ALREADY_ABSENT -> forall s, authUserId pending = Some s -> gone s w)
    (finish_compensation i actor pending c).
Proof.
  intros w r w' I G F. unfold finish_compensation in F. tx_writes; guards; try unchanged.
  written_if; guards; stored; by_status.
  intros s (_ & A & _). right. apply G; [|congruence].
  by destruct Heqb as [B|B]; apply bool_decide_eq_true in B; auto.
Qed.

Lemma attach_ok i actor request email subject :
  tx_ok (fun w => used subject (identities w)) (attach_cancelled_identity i actor request email subject).
Proof.
  intros w r w' I U F. unfold attach_cancelled_identity in F. tx_writes; guards; try unchanged.
  1, 2: by apply add_audit_guarantee.
  stored; by_status; [|by intros s [= <-]].
  intros s (_ & A & _). left. repeat split; simpl; [done|].
  destruct Heqb0 as [T|T]; [|apply bool_decide_eq_true in T; congruence].
  rewrite A in T. destruct s; [|done]. by destruct (used_non_empty [] (identities w)); [eapply inv_used|].
Qed.

Lemma commit_invitation_ok i actor request pu :
  tx_ok (fun w => used (pu_id pu) (identities w)) (commit_invitation i actor request pu).
Proof.
  intros w r w' I U F. unfold commit_invitation in F. tx_writes; guards; try unchanged.
  stored; by_status. by intros s [= <-].
Qed.

Lemma commit_retry_ok i actor request pu :
  tx_ok (fun w => used (pu_id pu) (identities w)) (commit_retry i actor request pu).
Proof.
  intros w r w' I U F. unfold commit_retry in F. tx_writes; guards; try unchanged.
  stored; by_status. by intros s [= <-].
Qed.

Lemma claim_retry_ok i actor request : tx_ok (fun _ => True) (claim_retry i actor request).
Proof.
  intros w r w' I _ F. unfold claim_retry in F. tx_writes; guards; try unchanged.
  stored; by_status.
Qed.


Lemma create_invitation_ok i email name role actor request :
  tx_ok (fun _ => True) (create_invitation i email name role actor request).
Proof.
  intros w r w' I _ F. unfold create_invitation in F. tx_writes; guards; try unchanged.
  rewrite <- D in *. eapply (store_step w _ a0); [exact I|exact C| |rewrite Ew; reflexivity
    |rewrite Ew; simpl; reflexivity|rewrite Ew; reflexivity].
  rewrite E. split; try done; [|by rewrite D]. intros _. eexists. split; [left; reflexivity|done].
Qed.

Lemma restart_invitation_ok i email name role actor request :
  tx_ok (fun _ => True) (restart_invitation i email name role actor request).
Proof.
  intros w r w' I _ F. unfold restart_invitation in F. tx_writes; guards; try unchanged.
  assert (K : u_id a = i) by (by apply (inv_keys w I)). rewrite K in *.
  assert (u = a) as -> by congruence. clear K.
  pose proof Heqb0 as R. unfold canRestartCancelledInvitation in R. guards.
  stored; by_status. by right.
Qed.

(** The revocation of sessions does not touch the other tables. *)
Ltac past_revocation :=
  match goal with C : clash ?u (set_sessions ?l ?w) = None |- _ =>
    change (clash u w = None) in C; change (users (set_sessions l w)) with (users w) in *;
    change (clock (set_sessions l w)) with (clock w) in *
  end.

Lemma cancel_ok i actor : tx_ok (fun _ => True) (cancel_tx i actor).
Proof.
  intros w r w' I _ F. unfold cancel_tx in F. tx_writes; guards; try unchanged.
  past_revocation. stored; by_status.
  - intros S. unfold is_active_super_admin in S. guards. by rewrite H8 in H3.
  - intros s (S & _). by rewrite S in H3.
Qed.

Lemma guarded_super_admin a u' role active w :
  (is_active_super_admin a = false \/ bool_decide (role = SUPER_ADMIN) = true /\ active = true)
  \/ (count_users is_active_super_admin w <=? 1) = false ->
  u_role u' = role -> isActive u' = active -> inviteStatus u' = inviteStatus a ->
  is_active_super_admin a = true ->
  is_active_super_admin u' = true \/ 1 < count_users is_active_super_admin w.
Proof.
  intros [[G|[G1 G2]]|G] R A S P; [congruence| |right; lia]. left.
  unfold is_active_super_admin in *. rewrite R, A, S, G1, G2.
  destruct (bool_decide (inviteStatus a = ACTIVE)); [done|]. by rewrite andb_false_r in P.
Qed.

Lemma same_authorization a role active (n : Z) :
  role = u_role a -> Bool.eqb active (isActive a) = true ->
  (u_role a, isActive a) <> (role, active) -> n < n.
Proof. intros -> E%Bool.eqb_prop N. by subst. Qed.

Lemma update_ok i body actor : tx_ok (fun _ => True) (update_tx i body actor).
Proof.
  intros w r w' I _ F. unfold update_tx, update_checks, update_write, authorization_changed, next_role, next_active in F. tx_writes; guards; try unchanged;
    try past_revocation; destruct body as [nn nr na]; destruct nn, nr, na as [[]|];
    stored; by_status; try (match goal with G : _ |- _ => apply (guarded_super_admin _ _ _ _ w G); reflexivity end);
    try (eapply same_authorization; eassumption).
Qed.

(** ** Requests *)

Definition stable (K : World -> Prop) : Prop := forall w w', rely w w' -> K w -> K w'.

Definition safely {A} (m : prog World A) (Q : result A -> World -> Prop) (w : World) : Prop :=
  safe true invariant rely guarantee m Q w.

Lemma safe_tx {A} P (K : World -> Prop) (f : TX World A) (Q : result A -> World -> Prop) w :
  tx_ok P f -> stable K -> K w -> (forall w1, invariant w1 -> K w1 -> P w1) ->
  (forall r w', K w' ->
     (forall b, r = Ok b -> exists w1, invariant w1 /\ K w1 /\ f w1 = Ok (b, w')) ->
     (forall e, r = Throws e -> e = io_error \/ (invariant w' /\ f w' = Throws e)) -> Q r w') ->
  safely (call f) Q w.
Proof.
  intros T S Kw KP HQ. apply safe_call. intros w1 R I. pose proof (S w w1 R Kw) as K1.
  split; [intros _; apply HQ; naive_solver|].
  destruct (f w1) as [[b w2]|e] eqn:F; [|apply HQ; naive_solver].
  destruct (T w1 b w2 I (KP w1 I K1) F) as [I2 G]. split; [done|]. split; [done|].
  pose proof (S w1 w2 (g_rely _ _ G) K1) as K2. split; [|intros _]; apply HQ; naive_solver.
Qed.

Lemma stable_True : stable (fun _ => True).
Proof. done. Qed.

Lemma stable_used s : stable (fun w => used s (identities w)).
Proof. intros w w' R. apply (rely_used _ _ R). Qed.

Lemma stable_gone s : stable (gone s).
Proof. intros w w' R. apply (rely_gone _ _ R). Qed.

(** What a compensation relies on while it talks to the provider: the identity
    is gone, or it still belongs to the cancelled row. *)
Definition owed (i s : str) (w : World) : Prop :=
  used s (identities w) /\ (gone s w \/ exists u, users w !! i = Some u /\ owes s u).

Lemma stable_owed i s : stable (owed i s).
Proof.
  intros w w' R [U O]. split; [by apply (rely_used _ _ R)|].
  destruct O as [G|(u & E & O)]; [left; by apply (rely_gone _ _ R)|].
  destruct (rely_rows _ _ R i u E) as (u' & E' & O'). destruct (O' s O); eauto.
Qed.

Lemma read_ok {A} (f : World -> A) : tx_ok (fun _ => True) (tx_get f).
Proof. intros w r w' I _ F. tx_inv. unchanged. Qed.

Lemma provider_ok {A} (f : PState -> result (A * PState)) :
  (forall p a p', f p = Ok (a, p') -> keeps p p') -> tx_ok (fun _ => True) (provider_tx f).
Proof.
  intros K w r w' I _ F. unfold provider_tx in F. destruct (f (identities w)) as [[a p]|] eqn:E; [|done].
  injection F as <- <-. apply keeps_guarantee; [done|exists []; by rewrite app_nil_r| |done].
  by eapply K.
Qed.

Lemma provider_tx_inv {A} (f : PState -> result (A * PState)) w a w' :
  provider_tx f w = Ok (a, w') -> f (identities w) = Ok (a, identities w').
Proof. unfold provider_tx. destruct (f (identities w)) as [[b p]|]; [|done]. by intros [= <- <-]. Qed.

Lemma provider_tx_throws {A} (f : PState -> result (A * PState)) w e :
  provider_tx f w = Throws e -> f (identities w) = Throws e.
Proof. unfold provider_tx. destruct (f (identities w)) as [[b p]|]; simpl; [done|by intros [= ->]]. Qed.

(** Deleting an identity that is owed takes it from nobody who may use it. *)
Lemma delete_ok i s : tx_ok (owed i s) (provider_tx (ip_deleteInvitationUser s)).
Proof.
  intros w r w' I [U O] F. pose proof (provider_tx_inv _ _ _ _ F) as D. pose proof (delete_removes _ _ _ _ D) as X.
  unfold provider_tx in F. destruct (ip_deleteInvitationUser s (identities w)) as [[a p]|] eqn:E; [|done].
  injection F as <- <-. simpl in *. apply guarantee_same_users; try done; simpl.
  - exists []. by rewrite app_nil_r.
  - intros s' U'. by apply X.
  - intros s' [U' N]. destruct (X s' U') as [U2 N2]. split; [done|]. rewrite N2. tauto.
  - intros j u s' Ej A S Ex. apply (X s'); [by eapply inv_used|]. split; [done|]. intros ->.
    destruct O as [[_ G]|(v & Ei & Sv & Av & _)]; [done|].
    assert (i = j) as -> by (by eapply (inv_subject w I)). congruence.
Qed.

Lemma compensate_at_provider_safe i s email request w : owed i s w ->
  safely (compensate_at_provider s email request)
    (fun r w' => forall c, r = Ok c -> owed i s w' /\ (c = DELETED \/ c = ALREADY_ABSENT -> gone s w')) w.
Proof.
  intros O. unfold compensate_at_provider. apply safe_catch, safe_bind.
  eapply (safe_tx (fun _ => True) (owed i s)); [|apply stable_owed|done|done|].
  { apply provider_ok. intros p a p'. apply get_keeps. }
  assert (Not : forall w' c, c = OWNERSHIP_MISMATCH \/ c = RETRY_REQUIRED -> owed i s w' ->
            forall c', Ok c = Ok c' -> owed i s w' /\ (c' = DELETED \/ c' = ALREADY_ABSENT -> gone s w')).
  { intros w' c C O' c' [= <-]. split; [done|]. by intros [->| ->]; destruct C. }
  intros r w1 O1 _ Th. destruct r as [pu|e]; cbv beta iota.
  2: { apply safe_ret. case_bool_decide as Nf; [|by apply Not; auto]. intros c [= <-]. split; [done|].
       intros _. destruct (Th e eq_refl) as [->|[_ F]]; [done|]. apply provider_tx_throws in F. subst e.
       split; [apply O1|by apply not_found]. }
  destruct (str_eqb (pu_id pu) s) eqn:Es; cbn [negb orb]; [|apply safe_ret; by apply Not; auto].
  apply bool_decide_eq_true in Es. rewrite Es.
  destruct (_ || _); [apply safe_ret; by apply Not; auto|].
  apply safe_bind. eapply (safe_tx (owed i s) (owed i s)); [apply delete_ok|apply stable_owed|done|auto|].
  intros r w2 O2 D Th2. destruct r as [x|e]; cbv beta iota; apply safe_ret.
  - intros c [= <-]. split; [done|]. intros _. destruct (D x eq_refl) as (w3 & I3 & [U3 _] & F).
    apply provider_tx_inv in F. pose proof (delete_removes _ _ _ _ F s U3) as [U4 N4].
    split; [done|]. rewrite N4. tauto.
  - case_bool_decide as Nf; [|by apply Not; auto]. exfalso.
    destruct (Th2 e eq_refl) as [->|[_ F]]; [done|]. apply provider_tx_throws in F. subst e.
    by apply delete_found in F.
Qed.

Definition any {A} : result A -> World -> Prop := fun _ _ => True.

(** A transaction or read about which nothing more is known afterwards. *)
Lemma safe_tx_any {A} (f : TX World A) w : tx_ok (fun _ => True) f -> safely (call f) any w.
Proof. intros T. by eapply (safe_tx (fun _ => True) (fun _ => True)). Qed.

Lemma safe_tx_used {A} s (f : TX World A) w :
  tx_ok (fun w => used s (identities w)) f -> used s (identities w) ->
  safely (call f) (fun _ w' => used s (identities w')) w.
Proof. intros T U. by eapply safe_tx; [exact T|apply (stable_used s)|..]. Qed.

Lemma safe_weaken {A} (m : prog World A) (Q : result A -> World -> Prop) w :
  safely m Q w -> safely m any w.
Proof. intros S. by eapply safe_mono. Qed.

Lemma safe_read {A} (f : World -> A) (Q : result A -> World -> Prop) w :
  (forall w', Q (Throws io_error) w') -> (forall w', invariant w' -> Q (Ok (f w')) w') ->
  safely (call (tx_get f)) Q w.
Proof.
  intros T O. eapply (safe_tx (fun _ => True) (fun _ => True)); [apply read_ok|done..|].
  intros r w' _ D E. destruct r as [a|e].
  - destruct (D a eq_refl) as (w1 & I & _ & F). unfold tx_get in F. injection F as <- <-. by apply O.
  - destruct (E e eq_refl) as [->|[_ F]]; [apply T|done].
Qed.

Lemma safe_now {A} (k : Z -> prog World A) Q w :
  (forall t w', safely (k t) Q w') -> safely (bind now k) Q w.
Proof.
  intros S. apply safe_bind, safe_look; [intros; apply guarantee_refl|]. intros w' _ _. apply S.
Qed.

Lemma compensateCancelledInvitation_safe i actor w : safely (compensateCancelledInvitation i actor) any w.
Proof.
  unfold compensateCancelledInvitation. apply safe_bind, safe_read; [done|]. intros w1 I. cbv beta iota.
  destruct (users w1 !! i) as [p|] eqn:E; [|done].
  destruct (bool_decide (inviteStatus p = CANCELLED)) eqn:S; [|cbn [andb]; by repeat case_match].
  destruct (bool_decide (invitationErrorCode p = _)) eqn:C, (authUserId p) as [[|c s]|] eqn:A,
    (invitationRequestId p) as [[|r q]|], (normalizedEmail p) as [[|m e]|]; cbn [andb];
    try (by apply safe_now). guards.
  apply safe_bind. eapply safe_mono.
  - apply (compensate_at_provider_safe i). split; [by eapply inv_used|]. right. by exists p.
  - intros r0 w2 G. destruct r0 as [comp|er]; [|done]. destruct (G comp eq_refl) as [_ Gn].
    eapply (safe_tx _ (fun w => comp = DELETED \/ comp = ALREADY_ABSENT -> gone (c :: s) w));
      [apply finish_compensation_ok|intros v v' R G0 D; by apply (rely_gone _ _ R), G0|done| |done].
    intros v _ G0 D s' As. rewrite A in As. injection As as <-. by apply G0.
Qed.

Lemma compensateCancelledProviderIdentity_safe i actor request email s w :
  used s (identities w) -> safely (compensateCancelledProviderIdentity i actor request email s) any w.
Proof.
  intros U. unfold compensateCancelledProviderIdentity. apply safe_bind. eapply safe_mono.
  - by apply (safe_tx_used s); [apply attach_ok|].
  - intros [[|]|e] w1 _; [|done..]. apply safe_bind. eapply safe_mono; [apply compensateCancelledInvitation_safe|].
    by intros [|].
Qed.

Lemma repair_local_failure_safe i actor request email s w :
  used s (identities w) -> safely (repair_local_failure i actor request email s) any w.
Proof.
  intros U. unfold repair_local_failure. apply safe_bind, safe_catch. eapply safe_mono.
  - by apply (safe_tx_used s); [apply mark_succeeded_ok|].
  - intros r w1 U1. assert (safely (catch (compensateCancelledProviderIdentity i actor request email s)
      (fun _ => Ret tt)) any w1).
    { apply safe_catch. eapply safe_mono; [by apply compensateCancelledProviderIdentity_safe|]. by intros [|]. }
    by destruct r.
Qed.

(** What follows an answer of the provider. *)
Lemma after_identity_safe (commit : TX World UserSummary) i actor request email s w :
  tx_ok (fun w => used s (identities w)) commit -> used s (identities w) ->
  safely (catch (call commit) (fun _ =>
    await _ := repair_local_failure i actor request email s in
    Throw (userLifecycleError INVITATION_LOCAL_COMMIT_FAILED))) any w.
Proof.
  intros T U. apply safe_catch. eapply safe_mono; [by apply (safe_tx_used s)|].
  intros [x|e] w1 U1; [done|]. apply safe_bind. eapply safe_mono; [by apply repair_local_failure_safe|].
  by intros [|].
Qed.

Lemma mark_then_throw_safe {A} i actor request code e w :
  safely (await _ := markInvitationFailure i actor request code in Throw e : prog World A)
    (fun r _ => exists e', r = Throws e') w.
Proof.
  apply safe_bind. eapply safe_mono; [apply safe_tx_any, mark_failure_ok|].
  intros [|e'] w' _; [by exists e|by exists e'].
Qed.

Lemma provider_invite_safe email request w :
  safely (call (provider_tx (ip_inviteUserByEmail email inviteRedirectUrl request)))
    (fun r w' => match r with Ok pu => used (pu_id pu) (identities w') | Throws _ => True end) w.
Proof.
  eapply (safe_tx (fun _ => True) (fun _ => True)).
  - apply provider_ok. intros p a p' E. by destruct (invite_keeps _ _ _ _ _ _ E).
  - done.
  - done.
  - done.
  - intros [pu|e] w' _ D _; [|done]. destruct (D pu eq_refl) as (w1 & _ & _ & F).
    apply provider_tx_inv in F. by destruct (invite_keeps _ _ _ _ _ _ F).
Qed.

Lemma send_invitation_safe i actor email request w :
  safely (send_invitation inviteRedirectUrl i actor email request) any w.
Proof.
  unfold send_invitation. apply safe_bind, safe_catch. unfold request_identity. apply safe_bind.
  eapply safe_mono; [apply provider_invite_safe|]. intros [pu|e] w1 U; cbv beta iota.
  - destruct (_ || _); [apply safe_throw|apply safe_ret].
    + eapply safe_mono; [apply mark_then_throw_safe|]. by intros r w2 [e' ->].
    + apply after_identity_safe; [apply commit_invitation_ok|done].
  - eapply safe_mono; [apply mark_then_throw_safe|]. by intros r w2 [e' ->].
Qed.

(** Drawing an identifier touches nothing that matters. *)
Lemma randomUUID_safe {B} (k : str -> prog World B) w :
  (forall s w', safely (k s) any w') -> safely (bind (randomUUID uuid) k) any w.
Proof.
  intros K. apply safe_bind. unfold randomUUID. cbn [safe safely]. intros w2 _ I.
  destruct (keeps_guarantee w2 {| users := users w2; sessions := sessions w2;
    auditEvents := auditEvents w2; identities := identities w2; clock := clock w2; drawn := S (drawn w2) |})
    as [I' G]; simpl; [done|exists []; by rewrite app_nil_r|by intros s U|done|].
  split; [done|]. split; [done|]. apply K.
Qed.

Lemma beginInvitation_safe email name role actor request w :
  safely (beginInvitation uuid email name role actor request) any w.
Proof.
  unfold beginInvitation. apply safe_bind, safe_read; [done|]. intros w1 _. cbv beta iota.
  destruct (first_user _ _) as [o|]; [apply safe_tx_any, restart_invitation_ok|].
  apply randomUUID_safe. intros s w2. apply safe_tx_any, create_invitation_ok.
Qed.

Lemma lost_race_safe email name role request e w : safely (lost_race email name role request e) any w.
Proof.
  unfold lost_race. destruct (isUniqueViolation e _).
  - apply safe_bind, safe_read; [done|]. intros w1 _. cbv beta iota.
    destruct (first_user _ _); [|done]. destruct (same_invitation _ _ _ _); [by apply safe_now|done].
  - by destruct (_ || _).
Qed.


Lemma start_invitation_safe (k : InvitationStart + UserSummary -> prog World UserSummary)
    name role actor request email w :
  (forall start w', safely (k start) any w') ->
  safely (bind (catch (await s := beginInvitation uuid email name role actor request in Ret (inl s))
                (fun error => await s := lost_race email name role request error in Ret (inr s))) k) any w.
Proof.
  intros K. apply safe_bind, safe_catch, safe_bind. eapply safe_mono; [apply beginInvitation_safe|].
  intros [s|e] w1 _; cbv beta iota; [apply safe_ret, K|].
  apply safe_bind. eapply safe_mono; [apply lost_race_safe|]. intros [s|e'] w2 _; [apply safe_ret, K|done].
Qed.

Lemma invite_safe body actor supplied w : safely (invite uuid inviteRedirectUrl body actor supplied) any w.
Proof.
  unfold invite. match goal with |- safely (bind _ ?k) _ _ => assert (K : forall s w', safely (k s) any w') end.
  2: { destruct supplied as [s|]; [destruct (truthy (trim s))|]; [apply K| |]; by apply randomUUID_safe. }
  intros request w1. destruct (negb _); [done|].
  destruct (match body_email body with Some _ => _ | None => _ end) as [email|]; [|done].
  apply safe_bind, safe_read; [done|]. intros w2 _. cbv beta iota.
  destruct (first_user _ _) as [u|]; [destruct (negb _); [done|by apply safe_now]|].
  apply start_invitation_safe. intros [st|sm] w3; [|done].
  destruct (negb _); [by apply safe_now|apply send_invitation_safe].
Qed.

Lemma cancel_safe i actor current w : safely (cancel i actor current) any w.
Proof.
  unfold cancel. destruct (_ && _); [apply compensateCancelledInvitation_safe|].
  destruct (_ && _); [by apply safe_now|]. apply safe_bind.
  eapply safe_mono; [apply safe_tx_any, cancel_ok|]. intros [u|e] w1 _; [|done].
  destruct (bool_decide _); [apply compensateCancelledInvitation_safe|by apply safe_now].
Qed.

Lemma retry_safe i actor request w : safely (retry inviteRedirectUrl i actor request) any w.
Proof.
  unfold retry. apply safe_bind. eapply safe_mono; [apply safe_tx_any, claim_retry_ok|].
  intros [claim|e] w1 _; [|done]. apply safe_bind, safe_catch.
  eapply safe_mono; [apply provider_invite_safe|]. intros [pu|e] w2 U; cbv beta iota.
  - destruct (_ || _).
    + eapply safe_mono; [apply mark_then_throw_safe|]. by intros r w3 [e' ->].
    + apply after_identity_safe; [apply commit_retry_ok|done].
  - eapply safe_mono; [apply mark_then_throw_safe|]. by intros r w3 [e' ->].
Qed.

Lemma reconcile_safe i action actor w : safely (reconcile inviteRedirectUrl i action actor) any w.
Proof.
  unfold reconcile. apply safe_bind, safe_read; [done|]. intros w1 _. cbv beta iota.
  destruct (users w1 !! i) as [u|]; [|done]. destruct action; [|apply cancel_safe].
  destruct (invitationRequestId u) as [[|c q]|]; [done| |done].
  destruct (_ || _); [done|apply retry_safe].
Qed.

Lemma user_update_safe i body actor w : safely (update i body actor) any w.
Proof. unfold update. repeat case_match; try done; apply safe_tx_any, update_ok. Qed.
End transactions.
