(* ===== verification/Auth.v ===== *)
(** * Sessions and the acceptance of invitations

    [auth/auth.service.ts] (all but [refresh], whose transaction contains calls
    to the provider), with the error codes of [auth/auth.errors.ts] and
    [auth/invitation.errors.ts] and the checks of
    [auth/supabase-jwt.verifier.ts].  The requests run on the world of [Users]
    together with those of the user service; [AuthSafety] shows that they
    respect the same guarantee. *)

From S2P Require Import Prelude JsNumber JsString.
From S2P Require Import SecurityAudit.
From S2P Require Import Concurrency.
From S2P Require Import Access.
From S2P Require Import Users.

Local Open Scope Z_scope.

(** ** Errors *)

Inductive AuthErrorCode :=
  | AUTHENTICATION_REQUIRED | SESSION_INVALID | ACCESS_TOKEN_EXPIRED | SESSION_REVOKED
  | INVALID_CREDENTIALS | ACCOUNT_NOT_PROVISIONED | ACCOUNT_INACTIVE | ACCOUNT_ONBOARDING_REQUIRED
  | PERMISSION_DENIED | AUTH_PROVIDER_UNAVAILABLE | REFRESH_RACE_RETRY | ORIGIN_NOT_ALLOWED
  | CSRF_INVALID | RATE_LIMITED.

Definition auth_status (code : AuthErrorCode) : Z * string :=
  match code with
  | AUTHENTICATION_REQUIRED => (401, "AUTHENTICATION_REQUIRED"%string)
  | SESSION_INVALID => (401, "SESSION_INVALID"%string)
  | ACCESS_TOKEN_EXPIRED => (401, "ACCESS_TOKEN_EXPIRED"%string)
  | SESSION_REVOKED => (401, "SESSION_REVOKED"%string)
  | INVALID_CREDENTIALS => (401, "INVALID_CREDENTIALS"%string)
  | ACCOUNT_NOT_PROVISIONED => (403, "ACCOUNT_NOT_PROVISIONED"%string)
  | ACCOUNT_INACTIVE => (403, "ACCOUNT_INACTIVE"%string)
  | ACCOUNT_ONBOARDING_REQUIRED => (403, "ACCOUNT_ONBOARDING_REQUIRED"%string)
  | PERMISSION_DENIED => (403, "PERMISSION_DENIED"%string)
  | AUTH_PROVIDER_UNAVAILABLE => (503, "AUTH_PROVIDER_UNAVAILABLE"%string)
  | REFRESH_RACE_RETRY => (409, "REFRESH_RACE_RETRY"%string)
  | ORIGIN_NOT_ALLOWED => (403, "ORIGIN_NOT_ALLOWED"%string)
  | CSRF_INVALID => (403, "CSRF_INVALID"%string)
  | RATE_LIMITED => (429, "RATE_LIMITED"%string)
  end.

Definition authError (code : AuthErrorCode) : js_error :=
  {| err_status := (auth_status code).1; err_code := js (auth_status code).2 |}.

Inductive InvitationErrorCode :=
  | INVITATION_INVALID_OR_EXPIRED | ACTIVE_SESSION_PRESENT | ONBOARDING_SESSION_REQUIRED
  | PASSWORD_POLICY_INVALID | PASSWORD_PROVIDER_UNAVAILABLE | PASSWORD_LOCAL_COMMIT_FAILED.

Definition invitation_status (code : InvitationErrorCode) : Z * string :=
  match code with
  | INVITATION_INVALID_OR_EXPIRED => (400, "INVITATION_INVALID_OR_EXPIRED"%string)
  | ACTIVE_SESSION_PRESENT => (409, "ACTIVE_SESSION_PRESENT"%string)
  | ONBOARDING_SESSION_REQUIRED => (403, "ONBOARDING_SESSION_REQUIRED"%string)
  | PASSWORD_POLICY_INVALID => (422, "PASSWORD_POLICY_INVALID"%string)
  | PASSWORD_PROVIDER_UNAVAILABLE => (503, "PASSWORD_PROVIDER_UNAVAILABLE"%string)
  | PASSWORD_LOCAL_COMMIT_FAILED => (500, "PASSWORD_LOCAL_COMMIT_FAILED"%string)
  end.

Definition invitationError (code : InvitationErrorCode) : js_error :=
  {| err_status := (invitation_status code).1; err_code := js (invitation_status code).2 |}.

(** [error instanceof AuthHttpException], [... InvitationHttpException]. *)
Definition is_auth_exception (e : js_error) : bool :=
  existsb (fun code => bool_decide (e = authError code))
    [AUTHENTICATION_REQUIRED; SESSION_INVALID; ACCESS_TOKEN_EXPIRED; SESSION_REVOKED;
     INVALID_CREDENTIALS; ACCOUNT_NOT_PROVISIONED; ACCOUNT_INACTIVE; ACCOUNT_ONBOARDING_REQUIRED;
     PERMISSION_DENIED; AUTH_PROVIDER_UNAVAILABLE; REFRESH_RACE_RETRY; ORIGIN_NOT_ALLOWED;
     CSRF_INVALID; RATE_LIMITED].
Definition is_invitation_exception (e : js_error) : bool :=
  existsb (fun code => bool_decide (e = invitationError code))
    [INVITATION_INVALID_OR_EXPIRED; ACTIVE_SESSION_PRESENT; ONBOARDING_SESSION_REQUIRED;
     PASSWORD_POLICY_INVALID; PASSWORD_PROVIDER_UNAVAILABLE; PASSWORD_LOCAL_COMMIT_FAILED].

Definition ProviderUnavailableError : js_error := plain_error "ProviderUnavailableError".
Definition ProviderInvalidCredentialsError : js_error := plain_error "ProviderInvalidCredentialsError".
Definition ProviderInvalidInvitationError : js_error := plain_error "ProviderInvalidInvitationError".
Definition ProviderPasswordPolicyError : js_error := plain_error "ProviderPasswordPolicyError".

(** ** Access tokens *)

(** What the library [jose] answers about a token: its header and claims when
    the signature, issuer, audience and expiry hold, or how it failed. *)
Record JwtClaims := {
  typ : option str; sub : option str; session_id : option str; exp : option num
}.
Inductive jwt_answer := Verified (c : JwtClaims) | JWTExpired | JwksUnavailable | JoseError.

Record VerifiedAccessToken := { subject : str; t_sessionId : str; expiresAt : num }.

(** [SupabaseJwtVerifier.verify]. *)
Definition verify (answer : jwt_answer) : result VerifiedAccessToken :=
  match answer with
  | JWTExpired => Throws (authError ACCESS_TOKEN_EXPIRED)
  | JwksUnavailable => Throws (authError AUTH_PROVIDER_UNAVAILABLE)
  | JoseError => Throws (authError SESSION_INVALID)
  | Verified c =>
      if truthy_opt (typ c) && negb (bool_decide (typ c = Some (js "JWT")))
      then Throws (authError SESSION_INVALID)
      else
        match sub c, session_id c, exp c with
        | Some s, Some i, Some e =>
            if isUuid s && isUuid i && isSafeInteger e
            then Ok {| subject := s; t_sessionId := i; expiresAt := e |}
            else Throws (authError SESSION_INVALID)
        | _, _, _ => Throws (authError SESSION_INVALID)
        end
  end.

(** ** Principals

    A user name that is not there is [None]; only local accounts have one. *)

Record AuthenticatedUser := {
  p_id : str;
  p_authUserId : str;
  p_email : option str;
  p_username : option str;
  p_name : str;
  p_role : AppRole;
  p_inviteStatus : InviteStatus;
  p_isActive : bool;
  p_authzVersion : Z;
  p_permissions : list Permission;
  p_sessionId : str
}.

Definition toPrincipal (user : AppUser) (sessionId : str) : AuthenticatedUser :=
  {| p_id := u_id user; p_authUserId := authUserId user ?? []; p_email := u_email user;
     p_username := None; p_name := u_name user; p_role := u_role user; p_inviteStatus := inviteStatus user;
     p_isActive := isActive user; p_authzVersion := authzVersion user;
     p_permissions := if bool_decide (inviteStatus user = ACTIVE)
                      then permissionsForRole (u_role user) else [];
     p_sessionId := sessionId |}.

Record AuthUserResponse := {
  r_id : str;
  r_email : option str;
  r_username : option str;
  r_name : str;
  r_role : AppRole;
  r_isActive : bool;
  r_inviteStatus : InviteStatus;
  r_permissions : list Permission;
  authorizationVersion : str
}.

(** The response and the session whose tokens are set as cookies. *)
Record AuthResult := { response : AuthUserResponse; cookies : ProviderSession; cookie_session : str }.

(** [assertUsableUser] and [assertAuthenticatableUser]. *)
Definition assertUsableUser (user : option AppUser) : result AppUser :=
  match user with
  | None => Throws (authError ACCOUNT_NOT_PROVISIONED)
  | Some u =>
      if negb (isActive u) then Throws (authError ACCOUNT_INACTIVE)
      else if negb (bool_decide (inviteStatus u = ACTIVE))
      then Throws (authError ACCOUNT_ONBOARDING_REQUIRED)
      else Ok u
  end.

Definition assertAuthenticatableUser (user : option AppUser) : result AppUser :=
  match user with
  | None => Throws (authError ACCOUNT_NOT_PROVISIONED)
  | Some u =>
      if negb (isActive u) then Throws (authError ACCOUNT_INACTIVE)
      else if negb (bool_decide (inviteStatus u = ACTIVE))
              && negb (bool_decide (inviteStatus u = VERIFIED_PENDING_PASSWORD))
      then Throws (authError ACCOUNT_ONBOARDING_REQUIRED)
      else Ok u
  end.

(** ** The service *)

Section service.
Context `{Icu, IdentityProvider} (uuid : nat -> str).
(** The cookie service signs session handles and derives the version shown to
    the client; [jose] answers about tokens at a time. *)
Context (verifySessionHandle : option str -> option str) (authorization_version : str -> Z -> str)
  (jwtVerify : Z -> str -> jwt_answer).

Definition toResponse (p : AuthenticatedUser) : AuthUserResponse :=
  {| r_id := p_id p; r_email := p_email p; r_username := None; r_name := p_name p;
     r_role := p_role p; r_isActive := p_isActive p; r_inviteStatus := p_inviteStatus p;
     r_permissions := p_permissions p;
     authorizationVersion := authorization_version (p_id p) (p_authzVersion p) |}.

Definition auth_result (p : AuthenticatedUser) (s : ProviderSession) : AuthResult :=
  {| response := toResponse p; cookies := s; cookie_session := p_sessionId p |}.

(** The verifier turns every failure into an [AuthHttpException]. *)
Definition verify_token (token : str) : prog World VerifiedAccessToken :=
  catch (await answer := call (tx_get (fun w => jwtVerify (clock w) token)) in of_result (verify answer))
    (fun e => Throw (if is_auth_exception e then e else authError SESSION_INVALID)).

(** The adapter turns a failed exchange into a [ProviderUnavailableError]. *)
Definition provider_call {A} (f : PState -> result (A * PState)) : prog World A :=
  catch (call (provider_tx f))
    (fun e => Throw (if bool_decide (e = io_error) then ProviderUnavailableError else e)).

Definition quietly {A} (m : prog World A) : prog World unit :=
  catch (await _ := m in Ret tt) (fun _ => Ret tt).

Definition revokeProviderQuietly (token : str) : prog World unit :=
  quietly (provider_call (ip_revokeSession token)).

Definition recordAnonymousAudit (act : string) (res : SecurityAuditResult) : prog World unit :=
  quietly (call (writeSecurityAudit
    {| actorUserId := None; actorType := ANONYMOUS; action := js act; targetType := js "AUTHENTICATION";
       targetId := None; auditResult := res; beforeJson := None; afterJson := None; requestId := None |})).

(** ** Sessions *)

Definition findSession (p : AppAuthSession -> bool) : TX World (option AppAuthSession) :=
  tx_get (fun w => List.find p (sessions w)).
Definition by_provider_session (i : str) (s : AppAuthSession) : bool :=
  bool_decide (providerSessionId s = Some i).
Definition by_session_id (i : str) (s : AppAuthSession) : bool := str_eqb (s_id s) i.

Definition update_sessions (p : AppAuthSession -> bool) (f : AppAuthSession -> AppAuthSession)
  : TX World unit := fun w =>
  Ok (tt, set_sessions (map (fun s => if p s then f s else s) (sessions w)) w).

Definition seen (t : Z) (s : AppAuthSession) : AppAuthSession :=
  {| s_id := s_id s; s_appUserId := s_appUserId s; providerSessionId := providerSessionId s;
     revokedAt := revokedAt s; lastSeenAt := Some t |}.
Definition revoked (t : Z) (s : AppAuthSession) : AppAuthSession :=
  {| s_id := s_id s; s_appUserId := s_appUserId s; providerSessionId := providerSessionId s;
     revokedAt := Some t; lastSeenAt := lastSeenAt s |}.

(** A new session; its identifier is drawn by the database client. *)
Definition create_session (userId providerSession : str) : TX World AppAuthSession := fun w =>
  if is_Some_b (List.find (by_provider_session providerSession) (sessions w))
  then Throws (P2002 (js "provider_session_id"))
  else
    let s := {| s_id := uuid (drawn w); s_appUserId := userId;
                providerSessionId := Some providerSession; revokedAt := None;
                lastSeenAt := Some (clock w) |} in
    Ok (s, {| users := users w; sessions := sessions w ++ [s]; auditEvents := auditEvents w;
              identities := identities w; clock := clock w; drawn := S (drawn w) |}).

(** ** Login *)

Definition login_tx (token : VerifiedAccessToken) (providerEmail : option str)
  : TX World AuthenticatedUser :=
  tx! found := findBy authUserId (subject token) in
  tx! user := tx_lift (assertUsableUser found) in
  if negb (bool_decide (normalizedEmail user = providerEmail))
  then tx_throw (authError ACCOUNT_NOT_PROVISIONED)
  else
    tx! existing := findSession (by_provider_session (t_sessionId token)) in
    tx! at_ := tx_now in
    tx! appSession :=
      match existing with
      | Some s =>
          if negb (str_eqb (s_appUserId s) (u_id user)) then tx_throw (authError SESSION_INVALID)
          else if bool_decide (is_Some (revokedAt s)) then tx_throw (authError SESSION_REVOKED)
          else tx! _ := update_sessions (by_session_id (s_id s)) (seen at_) in tx_ret (seen at_ s)
      | None => create_session (u_id user) (t_sessionId token)
      end in
    tx! updatedUser := update_user (u_id user) [SetLastLoginAt (Some at_)] in
    tx! _ := writeSecurityAudit (user_audit (u_id updatedUser) "LOGIN_SUCCEEDED" (u_id updatedUser)
               SUCCESS None
               (Some [(js "id", JStr (u_id updatedUser)); (js "role", JStr (role_name (u_role updatedUser)))])
               None) in
    tx_ret (toPrincipal updatedUser (s_id appSession)).

Definition login (email password : str) : prog World AuthResult :=
  await normalizedEmail := of_result (normalizeEmail email) in
  await providerSession :=
    catch (provider_call (ip_signInWithPassword normalizedEmail password))
      (fun error =>
         await _ := recordAnonymousAudit "LOGIN_FAILED" FAILURE in
         Throw (authError (if bool_decide (error = ProviderInvalidCredentialsError)
                           then INVALID_CREDENTIALS else AUTH_PROVIDER_UNAVAILABLE))) in
  catch
    (await token := verify_token (accessToken providerSession) in
     let providerEmail := normalizeEmailOrNull (pu_email (ps_user providerSession)) in
     if negb (str_eqb (subject token) (pu_id (ps_user providerSession)))
        || negb (emailVerified (ps_user providerSession))
        || negb (bool_decide (providerEmail = Some normalizedEmail))
     then Throw (authError SESSION_INVALID)
     else
       await principal := call (login_tx token providerEmail) in
       Ret (auth_result principal providerSession))
    (fun error =>
       await _ := revokeProviderQuietly (accessToken providerSession) in
       await _ := recordAnonymousAudit "LOGIN_FAILED" FAILURE in
       Throw error).

(** ** Requests with an access token *)

Definition authenticateAccessToken (accessToken : str) (activityAgeMs : option Z)
  : prog World AuthenticatedUser :=
  await token := verify_token accessToken in
  await found := call (findBy authUserId (subject token)) in
  await user := of_result (assertAuthenticatableUser found) in
  await session := call (findSession (by_provider_session (t_sessionId token))) in
  match session with
  | None => Throw (authError SESSION_INVALID)
  | Some session =>
      if negb (str_eqb (s_appUserId session) (u_id user)) then Throw (authError SESSION_INVALID)
      else if bool_decide (is_Some (revokedAt session)) then Throw (authError SESSION_REVOKED)
      else
        await at_ := now in
        if sessionIsIdle (lastSeenAt session) at_ then Throw (authError SESSION_INVALID)
        else
          await _ :=
            match activityAgeMs with
            | Some age =>
                if (0 <=? age) && (age <=? 60000) then
                  await at_ := now in
                  let lastSeen := at_ - age in
                  call (update_sessions
                    (fun s => by_session_id (s_id session) s && bool_decide (revokedAt s = None)
                              && match lastSeenAt s with Some t => t <? lastSeen | None => false end)
                    (seen lastSeen))
                else Ret tt
            | None => Ret tt
            end in
          Ret (toPrincipal user (s_id session))
  end.

Definition hasActiveBrowserSession (signedHandle : option str) : prog World bool :=
  match verifySessionHandle signedHandle with
  | Some ((_ :: _) as i) =>
      await session := call (findSession (by_session_id i)) in
      Ret match session with Some s => bool_decide (revokedAt s = None) | None => false end
  | _ => Ret false
  end.

(** ** Logout *)

Definition revoke_tx (i : str) : TX World (option (AppAuthSession * option AppUser)) :=
  tx! session := findSession (by_session_id i) in
  match session with
  | None => tx_ret None
  | Some s =>
      tx! at_ := tx_now in
      tx! user := findUser (s_appUserId s) in
      tx! _ := (if bool_decide (revokedAt s = None) then update_sessions (by_session_id i) (revoked at_)
                else tx_ret tt) in
      tx_ret (Some (s, user))
  end.

Definition same_session (v : VerifiedAccessToken) (s : AppAuthSession) (u : option AppUser) : bool :=
  bool_decide (providerSessionId s = Some (t_sessionId v))
  && bool_decide ((u ≫= authUserId) = Some (subject v)).

Definition logout (signedHandle accessToken_ refreshToken_ : option str) : prog World unit :=
  await localSession :=
    match verifySessionHandle signedHandle with
    | Some ((_ :: _) as i) => call (revoke_tx i)
    | _ => Ret None
    end in
  match localSession with
  | None => Ret tt
  | Some (session, user) =>
      await fromAccess :=
        match accessToken_ with
        | Some ((_ :: _) as t) =>
            catch (await v := verify_token t in Ret (if same_session v session user then Some t else None))
              (fun _ => Ret None)
        | _ => Ret None
        end in
      await providerAccessToken :=
        match fromAccess, refreshToken_ with
        | None, Some ((_ :: _) as t) =>
            catch
              (await refreshed := provider_call (ip_refreshSession t) in
               await v := verify_token (accessToken refreshed) in
               Ret (if same_session v session user
                       && bool_decide ((user ≫= authUserId) = Some (pu_id (ps_user refreshed)))
                    then Some (accessToken refreshed) else None))
              (fun _ => Ret None)
        | _, _ => Ret fromAccess
        end in
      match providerAccessToken with
      | Some t => revokeProviderQuietly t
      | None => Ret tt
      end
  end.

(** ** Accepting an invitation *)

Definition accept_tx (candidateId : str) (token : VerifiedAccessToken) (providerEmail : str)
    (request : option str) : TX World AuthenticatedUser :=
  tx! found := findUser candidateId in
  match found with
  | None => tx_throw (invitationError INVITATION_INVALID_OR_EXPIRED)
  | Some user =>
      if negb (isActive user) || negb (bool_decide (inviteStatus user = INVITED))
         || negb (bool_decide (authUserId user = Some (subject token)))
         || negb (bool_decide (normalizedEmail user = Some providerEmail))
         || negb (bool_decide (invitationRequestId user = request))
      then tx_throw (invitationError INVITATION_INVALID_OR_EXPIRED)
      else if negb (canTransitionInvitation (inviteStatus user) VERIFIED_PENDING_PASSWORD)
      then tx_throw (invitationError INVITATION_INVALID_OR_EXPIRED)
      else
        tx! existing := findSession (by_provider_session (t_sessionId token)) in
        tx! session :=
          match existing with
          | Some s =>
              if negb (str_eqb (s_appUserId s) (u_id user)) || bool_decide (is_Some (revokedAt s))
              then tx_throw (invitationError INVITATION_INVALID_OR_EXPIRED)
              else tx_ret s
          | None => create_session (u_id user) (t_sessionId token)
          end in
        tx! updated := update_user (u_id user)
          [SetStatus VERIFIED_PENDING_PASSWORD; SetErrorCode None; IncrementVersion] in
        tx! _ := writeSecurityAudit (user_audit (u_id updated) "USER_INVITATION_ACCEPTED" (u_id updated)
                   SUCCESS (Some (userAuditSnapshot user)) (Some (userAuditSnapshot updated))
                   (invitationRequestId updated)) in
        tx_ret (toPrincipal updated (s_id session))
  end.

Definition mark_accept_tx (candidateId subject_ : str) : TX World unit :=
  tx! found := findUser candidateId in
  match found with
  | None => tx_ret tt
  | Some user =>
      if negb (bool_decide (authUserId user = Some subject_))
         || negb (bool_decide (inviteStatus user = INVITED))
      then tx_ret tt
      else if negb (canTransitionInvitation (inviteStatus user) RECONCILE_REQUIRED) then tx_ret tt
      else
        tx! updated := update_user (u_id user)
          [SetStatus RECONCILE_REQUIRED;
           SetErrorCode (Some (js "INVITATION_ACCEPT_LOCAL_COMMIT_FAILED")); IncrementVersion] in
        writeSecurityAudit
          {| actorUserId := None; actorType := ANONYMOUS;
             action := js "USER_INVITATION_ACCEPT_LOCAL_COMMIT_FAILED"; targetType := js "APP_USER";
             targetId := Some (u_id user); auditResult := PARTIAL;
             beforeJson := Some (JObj (userAuditSnapshot user));
             afterJson := Some (JObj (userAuditSnapshot updated));
             requestId := invitationRequestId user |}
  end.

Definition markAcceptCommitFailure (subject_ : str) : prog World unit :=
  await candidate := call (findBy authUserId subject_) in
  match candidate with
  | None => Ret tt
  | Some c => call (mark_accept_tx (u_id c) subject_)
  end.

Definition acceptInvitation (tokenHash : str) (tokenType : option str) : prog World AuthResult :=
  await providerSession :=
    catch (provider_call (ip_verifyInvitationToken tokenHash tokenType))
      (fun error =>
         await _ := recordAnonymousAudit "USER_INVITATION_ACCEPT_FAILED" FAILURE in
         Throw (if bool_decide (error = ProviderUnavailableError)
                then authError AUTH_PROVIDER_UNAVAILABLE
                else invitationError INVITATION_INVALID_OR_EXPIRED)) in
  let invalid := invitationError INVITATION_INVALID_OR_EXPIRED in
  catch
    (await token := verify_token (accessToken providerSession) in
     let providerUser := ps_user providerSession in
     match normalizeEmailOrNull (pu_email providerUser), pu_invitationRequestId providerUser with
     | Some ((_ :: _) as providerEmail), Some (_ :: _) =>
         if negb (str_eqb (subject token) (pu_id providerUser)) || negb (emailVerified providerUser)
         then Throw invalid
         else
           await candidate := call (findBy authUserId (subject token)) in
           match candidate with
           | None => Throw invalid
           | Some candidate =>
               await principal := call (accept_tx (u_id candidate) token providerEmail
                                          (pu_invitationRequestId providerUser)) in
               Ret (auth_result principal providerSession)
           end
     | _, _ => Throw invalid
     end)
    (fun error =>
       await _ := revokeProviderQuietly (accessToken providerSession) in
       await _ := (if negb (is_invitation_exception error) && negb (is_auth_exception error)
                   then quietly (markAcceptCommitFailure (pu_id (ps_user providerSession)))
                   else Ret tt) in
       if bool_decide (error = authError AUTH_PROVIDER_UNAVAILABLE) then Throw error else Throw invalid).

Definition complete_tx (principal : AuthenticatedUser) (providerUser : ProviderUser)
  : TX World AuthenticatedUser :=
  tx! found := findUser (p_id principal) in
  tx! session := findSession (by_session_id (p_sessionId principal)) in
  match found, session with
  | Some user, Some session =>
      if bool_decide (is_Some (revokedAt session)) || negb (str_eqb (s_appUserId session) (u_id user))
         || negb (bool_decide (authUserId user = Some (pu_id providerUser))) || negb (isActive user)
         || negb (bool_decide (inviteStatus user = VERIFIED_PENDING_PASSWORD))
      then tx_throw (invitationError ONBOARDING_SESSION_REQUIRED)
      else if negb (canTransitionInvitation (inviteStatus user) ACTIVE)
      then tx_throw (invitationError ONBOARDING_SESSION_REQUIRED)
      else
        tx! updated := update_user (u_id user)
          [SetStatus ACTIVE; IncrementVersion; SetErrorCode None] in
        tx! _ := writeSecurityAudit (user_audit (u_id user) "USER_INITIAL_PASSWORD_COMPLETED" (u_id user)
                   SUCCESS (Some (userAuditSnapshot user)) (Some (userAuditSnapshot updated))
                   (invitationRequestId user)) in
        tx_ret (toPrincipal updated (s_id session))
  | _, _ => tx_throw (invitationError ONBOARDING_SESSION_REQUIRED)
  end.

Definition completeInitialPassword (principal : AuthenticatedUser) (accessToken password : str)
  : prog World AuthUserResponse :=
  if negb (bool_decide (p_inviteStatus principal = VERIFIED_PENDING_PASSWORD))
  then Throw (invitationError ONBOARDING_SESSION_REQUIRED)
  else
    await providerUser :=
      catch (provider_call (ip_updatePassword accessToken password))
        (fun error => Throw (invitationError
           (if bool_decide (error = ProviderPasswordPolicyError) then PASSWORD_POLICY_INVALID
            else if bool_decide (error = ProviderInvalidInvitationError) then ONBOARDING_SESSION_REQUIRED
            else PASSWORD_PROVIDER_UNAVAILABLE))) in
    if negb (str_eqb (pu_id providerUser) (p_authUserId principal))
       || negb (bool_decide (normalizeEmailOrNull (pu_email providerUser)
                             = normalizeEmailOrNull (p_email principal)))
    then Throw (invitationError ONBOARDING_SESSION_REQUIRED)
    else
      catch
        (await updatedPrincipal := call (complete_tx principal providerUser) in
         Ret (toResponse updatedPrincipal))
        (fun _ =>
           await _ := quietly (call (writeSecurityAudit
             (user_audit (p_id principal) "USER_INITIAL_PASSWORD_LOCAL_COMMIT_FAILED" (p_id principal)
                PARTIAL None (Some [(js "identityCredentialUpdated", JBool true)]) None))) in
           Throw (invitationError PASSWORD_LOCAL_COMMIT_FAILED)).
End service.
