(* ===== verification/AuthSafety.v ===== *)
(** * The requests of the authentication service respect the guarantee

    Continues [UsersSafety] for the transactions and requests of [Auth]. *)

From S2P Require Import Prelude JsNumber JsString.
From S2P Require Import SecurityAudit.
From S2P Require Import Concurrency.
From S2P Require Import Transactions.
From S2P Require Import Access.
From S2P Require Import Users.
From S2P Require Import UsersSafety.
From S2P Require Import Auth.

Local Open Scope Z_scope.

Create HintDb auth.

Section safety.
Context `{IcuLaws, IdentityProviderLaws} (uuid : nat -> str).
Context (verifySessionHandle : option str -> option str) (authorization_version : str -> Z -> str)
  (jwtVerify : Z -> str -> jwt_answer).

(** Changing sessions leaves what the guarantee is about alone. *)
Definition same_accounts (w w' : World) : Prop :=
  users w' = users w /\ auditEvents w' = auditEvents w /\ identities w' = identities w /\ clock w' = clock w.

Lemma same_accounts_ok w w' : same_accounts w w' -> invariant w -> invariant w' /\ guarantee w w'.
Proof.
  intros (U & A & D & _) I. apply keeps_guarantee; [done|exists []; by rewrite A, app_nil_r| |done].
  rewrite D. by intros s Us.
Qed.

#[export] Instance same_accounts_preorder : PreOrder same_accounts.
Proof. split; [done|]. intros w1 w2 w3 (?&?&?&?) (?&?&?&?). repeat split; congruence. Qed.

Lemma create_session_same u p w s w' : create_session uuid u p w = Ok (s, w') -> same_accounts w w'.
Proof. unfold create_session. case_match; [done|]. by intros [= <- <-]. Qed.

Lemma update_sessions_same p f w x w' : update_sessions p f w = Ok (x, w') -> same_accounts w w'.
Proof. by intros [= <- <-]. Qed.

(** A row stored after a change of the sessions. *)
Lemma update_user_after i data w1 w u w' :
  same_accounts w w1 -> update_user i data w1 = Ok (u, w') ->
  exists old, users w !! i = Some old /\ u = apply_writes (data ++ [SetUpdatedAt (clock w)]) old
    /\ clash u w = None /\ users w' = <[u_id u := u]> (users w)
    /\ auditEvents w' = auditEvents w /\ identities w' = identities w.
Proof.
  intros (U & A & D & C) (old & E & -> & Cl & ->)%update_user_inv. exists old.
  rewrite (clash_users _ w) in Cl by done. rewrite U in E. rewrite C in *. simpl. by rewrite U.
Qed.

Lemma findSession_same p w r w' : findSession p w = Ok (r, w') -> same_accounts w w'.
Proof. by intros [= <- <-]. Qed.

(** One row and one audit record after a change of the sessions. *)
Lemma update_after_ok w w1 w2 w3 i a data u e x :
  invariant w -> users w !! i = Some a -> same_accounts w w1 ->
  update_user i data w1 = Ok (u, w2) -> writeSecurityAudit e w2 = Ok (x, w3) ->
  let u' := apply_writes (data ++ [SetUpdatedAt (clock w)]) a in
  targetId e = Some i \/ targetId e = Some (u_id u) -> may_become a u' -> authzVersion a <= authzVersion u' ->
  ((u_role a, isActive a) <> (u_role u', isActive u') -> authzVersion a < authzVersion u') ->
  (is_active_super_admin a = true ->
   is_active_super_admin u' = true \/ 1 < count_users is_active_super_admin w) ->
  (forall s, owes s a -> owes s u' \/ gone s w) ->
  (forall s, authUserId u' = Some s -> used s (identities w)) ->
  invariant w3 /\ guarantee w w3.
Proof.
  intros I E S Up Au u' T B V Z P O U.
  destruct (update_user_after i data w1 w u w2 S Up) as (old & Eo & Eu & C & Us & As & Ds).
  assert (old = a) as -> by congruence. fold u' in Eu. subst u.
  apply writeSecurityAudit_inv in Au. subst w3.
  assert (K : u_id u' = i) by (unfold u'; rewrite apply_writes_id; by apply (inv_keys w I)).
  apply (store_step w _ u' [e]); simpl; [done|done| |done|by rewrite As|done].
  rewrite K, E. apply admissible_update; try done. intros _. exists e. split; [left|]. rewrite K in *. by destruct T.
Qed.
End safety.

Section transactions.
Context `{IcuLaws, IdentityProviderLaws} (uuid : nat -> str).
Context (verifySessionHandle : option str -> option str) (authorization_version : str -> Z -> str)
  (jwtVerify : Z -> str -> jwt_answer).

(** The next action of a transaction that succeeded. *)
Ltac tx_next F := let a := fresh "a" in let w := fresh "w" in let E := fresh "E" in
  apply tx_bind_inv in F as (a & w & E & F); cbv beta in F.

Lemma session_or_new_same ex u ps (chk : AppAuthSession -> bool) e1 w s w' :
  match ex with
  | Some s => if chk s then tx_throw e1 else tx_ret s
  | None => create_session uuid u ps
  end w = Ok (s, w') -> same_accounts w w'.
Proof.
  destruct ex as [s0|]; [|apply create_session_same]. destruct (chk s0); [done|].
  unfold tx_ret. by intros [= <- <-].
Qed.

Lemma accept_ok i token email request : tx_ok (fun _ => True) (accept_tx uuid i token email request).
Proof.
  intros w r w' I _ F. unfold accept_tx in F. tx_next F. unfold findUser, tx_get in E. inj_eq E.
  destruct (users w !! i) as [a|] eqn:Ea; [|discriminate F].
  destruct (_ || _) eqn:G0 in F; [discriminate F|]. destruct (negb _) eqn:G in F; [discriminate F|]. guards.
  tx_next F. apply findSession_same in E. tx_next F.
  apply (session_or_new_same _ _ _ (fun s => negb (str_eqb (s_appUserId s) (u_id a))
           || bool_decide (is_Some (revokedAt s))) (invitationError INVITATION_INVALID_OR_EXPIRED)) in E0.
  assert (S : same_accounts w w1) by (by transitivity w0).
  tx_next F. tx_next F. unfold tx_ret in F. inj_eq F. rewrite (inv_keys w I i a Ea) in E1.
  eapply (update_after_ok w w1 _ _ i a); try eassumption; unfold apply_writes; simpl; by_status.
  by right.
Qed.

Lemma mark_accept_ok i s : tx_ok (fun _ => True) (mark_accept_tx i s).
Proof.
  intros w r w' I _ F. unfold mark_accept_tx in F. tx_next F. unfold findUser, tx_get in E. inj_eq E.
  destruct (users w !! i) as [a|] eqn:Ea; [|tx_inv; unchanged].
  destruct (_ || _) eqn:G0 in F; [tx_inv; unchanged|]. destruct (negb _) eqn:G in F; [tx_inv; unchanged|].
  guards. tx_next F. rewrite (inv_keys w I i a Ea) in *.
  eapply (update_after_ok w w _ _ i a); try eassumption; [done|..]; unfold apply_writes; simpl; by_status.
  by left.
Qed.

Lemma complete_ok principal pu : tx_ok (fun _ => True) (complete_tx principal pu).
Proof.
  intros w r w' I _ F. unfold complete_tx in F. tx_next F. unfold findUser, tx_get in E. inj_eq E.
  tx_next F. apply findSession_same in E. set (i := p_id principal) in *.
  destruct (users w !! i) as [u|] eqn:Eu; [|discriminate F]. destruct a as [s|]; [|discriminate F].
  destruct (_ || _) eqn:G0 in F; [discriminate F|]. destruct (negb _) eqn:G in F; [discriminate F|]. guards.
  tx_next F. tx_next F. unfold tx_ret in F. inj_eq F. rewrite (inv_keys w I i u Eu) in *.
  eapply (update_after_ok w w0 _ _ i u); try eassumption; unfold apply_writes; simpl; by_status.
  by left.
Qed.

Lemma login_ok token email : tx_ok (fun _ => True) (login_tx uuid token email).
Proof.
  intros w r w' I _ F. unfold login_tx in F. tx_next F. unfold findBy, tx_get in E. inj_eq E.
  destruct (first_user _ w) as [u|] eqn:Fu; [|discriminate F]. tx_next F.
  unfold tx_lift, assertUsableUser in E.
  destruct (negb _) in E; [discriminate E|]. destruct (negb _) in E; [discriminate E|]. simpl in E. inj_eq E.
  destruct (negb _) in F; [discriminate F|]. tx_next F. apply findSession_same in E. tx_next F.
  unfold tx_now, tx_get in E0. inj_eq E0. tx_next F.
  assert (S : same_accounts w0 w1).
  { destruct a as [s|]; [|by apply create_session_same in E0].
    destruct (negb _) in E0; [discriminate E0|]. destruct (bool_decide _) in E0; [discriminate E0|].
    tx_next E0. apply update_sessions_same in E1. unfold tx_ret in E0. by inj_eq E0. }
  assert (S' : same_accounts w w1) by (by transitivity w0).
  tx_next F. tx_next F. unfold tx_ret in F. inj_eq F.
  apply first_user_Some in Fu as (_ & i & Eu). rewrite (inv_keys w I i u Eu) in E1.
  eapply (update_after_ok w w1 _ _ i u); try eassumption; unfold apply_writes; simpl; by_status.
  by right.
Qed.

Lemma revoke_ok i : tx_ok (fun _ => True) (revoke_tx i).
Proof.
  intros w r w' I _ F. apply same_accounts_ok; [|done]. unfold revoke_tx in F.
  tx_next F. apply findSession_same in E. destruct a as [s|]; [|unfold tx_ret in F; by inj_eq F].
  tx_next F. unfold tx_now, tx_get in E0. inj_eq E0. tx_next F. unfold findUser, tx_get in E0. inj_eq E0.
  tx_next F. unfold tx_ret in F. inj_eq F. transitivity w0; [done|].
  destruct (bool_decide _) in E0; [by apply update_sessions_same in E0|]. unfold tx_ret in E0. by inj_eq E0.
Qed.

Lemma audit_ok e : tx_ok (fun _ => True) (writeSecurityAudit e).
Proof. intros w r w' I _ ->%writeSecurityAudit_inv. by apply add_audit_guarantee. Qed.

Lemma update_sessions_ok p f : tx_ok (fun _ => True) (update_sessions p f).
Proof. intros w r w' I _ S%update_sessions_same. by apply same_accounts_ok. Qed.

(** ** Requests *)

Lemma any_catch {A} (m : prog World A) h w :
  safely m any w -> (forall e w', safely (h e) any w') -> safely (catch m h) any w.
Proof. intros S K. apply safe_catch. eapply safe_mono; [exact S|]. intros [a|e] w' _; [done|apply K]. Qed.

Lemma any_bind {A B} (m : prog World A) (k : A -> prog World B) w :
  safely m any w -> (forall a w', safely (k a) any w') -> safely (bind m k) any w.
Proof. intros S K. apply safe_bind. eapply safe_mono; [exact S|]. intros [a|e] w' _; [apply K|done]. Qed.

Lemma verify_token_safe t w : safely (verify_token jwtVerify t) any w.
Proof.
  apply any_catch; [|done]. apply any_bind; [by apply safe_tx_any, read_ok|].
  intros a w'. by destruct (verify a).
Qed.

Lemma provider_call_safe {A} (f : PState -> result (A * PState)) w :
  (forall p a p', f p = Ok (a, p') -> keeps p p') -> safely (provider_call f) any w.
Proof. intros K. apply any_catch; [|done]. by apply safe_tx_any, provider_ok. Qed.

Lemma quietly_safe {A} (m : prog World A) w : safely m any w -> safely (quietly m) any w.
Proof. intros S. apply any_catch; [|done]. by apply any_bind. Qed.

Lemma revokeProviderQuietly_safe t w : safely (revokeProviderQuietly t) any w.
Proof. apply quietly_safe, provider_call_safe. intros p a p'. apply revoke_keeps. Qed.

Lemma recordAnonymousAudit_safe act res w : safely (recordAnonymousAudit act res) any w.
Proof. apply quietly_safe, safe_tx_any, audit_ok. Qed.

Lemma of_result_safe {A} (r : result A) w : safely (of_result r) any w.
Proof. by destruct r. Qed.

Lemma findBy_safe c x w : safely (call (findBy c x)) any w.
Proof. by apply safe_tx_any, read_ok. Qed.

Lemma findSession_safe p w : safely (call (findSession p)) any w.
Proof. by apply safe_tx_any, read_ok. Qed.

#[local] Hint Resolve verify_token_safe revokeProviderQuietly_safe recordAnonymousAudit_safe of_result_safe
  findBy_safe findSession_safe : auth.

(** Walk through a request of which only safety matters. *)
Ltac request :=
  repeat first
    [ done
    | solve [auto with auth]
    | apply any_bind; [|intros ? ?]
    | apply any_catch; [|intros ? ?]
    | case_match ].

Lemma login_safe email password w :
  safely (login uuid authorization_version jwtVerify email password) any w.
Proof.
  unfold login. request.
  - apply provider_call_safe. intros ? ? ?. apply signIn_keeps.
  - apply safe_tx_any, login_ok.
Qed.

Lemma authenticate_safe t age w : safely (authenticateAccessToken jwtVerify t age) any w.
Proof.
  unfold authenticateAccessToken. request; try (apply safe_now; intros; request); apply safe_tx_any, update_sessions_ok.
Qed.

Lemma logout_safe h a r w : safely (logout verifySessionHandle jwtVerify h a r) any w.
Proof.
  unfold logout. request; try (apply safe_tx_any, revoke_ok); apply provider_call_safe; intros ? ? ?; apply refresh_keeps.
Qed.

Lemma markAccept_safe s w : safely (markAcceptCommitFailure s) any w.
Proof. unfold markAcceptCommitFailure. request. apply safe_tx_any, mark_accept_ok. Qed.

Lemma accept_safe t ty w : safely (acceptInvitation uuid authorization_version jwtVerify t ty) any w.
Proof.
  unfold acceptInvitation. request; try (apply safe_tx_any, accept_ok).
  - apply provider_call_safe. intros ? ? ?. apply verify_keeps.
  - apply safe_tx_any, mark_accept_ok.
Qed.

Lemma complete_safe p t pw w : safely (completeInitialPassword authorization_version p t pw) any w.
Proof.
  unfold completeInitialPassword. request; try (apply safe_tx_any, complete_ok).
  - apply provider_call_safe. intros ? ? ?. apply password_keeps.
  - apply safe_tx_any, audit_ok.
Qed.
End transactions.
