(* ===== verification/UsersGuarantees.v ===== *)
(** * What holds however requests on accounts interleave

    The requests of the user service and of the authentication service run
    concurrently, any number of them, in any interleaving of their
    transactions and calls, each of which may fail before or after its effect,
    while the clock advances and the provider's identities change for reasons
    of their own.  The theorems are about every state such a system reaches. *)

From S2P Require Import Prelude JsNumber JsString.
From S2P Require Import SecurityAudit.
From S2P Require Import Concurrency.
From S2P Require Import Transactions.
From S2P Require Import Access.
From S2P Require Import Users.
From S2P Require Import UsersSafety.
From S2P Require Import Auth.
From S2P Require Import AuthSafety.
From stdpp Require Import relations.

Local Open Scope Z_scope.

Section system.
Context `{IcuLaws, IdentityProviderLaws} (uuid : nat -> str) (inviteRedirectUrl : str).
Context (verifySessionHandle : option str -> option str) (authorization_version : str -> Z -> str)
  (jwtVerify : Z -> str -> jwt_answer).

(** A request whose answer is sent to the client. *)
Definition answered {A} (m : prog World A) : prog World unit := bind m (fun _ => Ret tt).

Inductive served : prog World unit -> Prop :=
  | serve_invite body actor key : served (answered (invite uuid inviteRedirectUrl body actor key))
  | serve_update id body actor : served (answered (update id body actor))
  | serve_reconcile id action actor : served (answered (reconcile inviteRedirectUrl id action actor))
  | serve_login email password :
      served (answered (login uuid authorization_version jwtVerify email password))
  | serve_authenticate token age : served (answered (authenticateAccessToken jwtVerify token age))
  | serve_logout h a r : served (answered (logout verifySessionHandle jwtVerify h a r))
  | serve_accept token type :
      served (answered (acceptInvitation uuid authorization_version jwtVerify token type))
  | serve_complete p token password :
      served (answered (completeInitialPassword authorization_version p token password)).

(** Time passes; identities appear and disappear at the provider, but a used
    identifier that is gone stays gone. *)
Record environment (w w' : World) : Prop := {
  env_users : users w' = users w;
  env_sessions : sessions w' = sessions w;
  env_audit : auditEvents w' = auditEvents w;
  env_clock : clock w <= clock w';
  env_used s : used s (identities w) -> used s (identities w');
  env_gone s : gone s w -> gone s w'
}.

Definition step : World * list (prog World unit) -> World * list (prog World unit) -> Prop :=
  system_step served environment.
Definition steps : World * list (prog World unit) -> World * list (prog World unit) -> Prop :=
  rtc step.

Lemma served_safe h w : served h -> invariant w -> safe true invariant rely guarantee h (fun _ _ => True) w.
Proof.
  intros S _. assert (A : forall B (m : prog World B), safely m any w -> safely (answered m) any w).
  { intros B m Sm. by apply any_bind. }
  destruct S; apply A.
  - apply invite_safe.
  - apply user_update_safe.
  - apply reconcile_safe.
  - apply login_safe.
  - apply authenticate_safe.
  - apply logout_safe.
  - apply accept_safe.
  - apply complete_safe.
Qed.

Lemma environment_ok w w' : invariant w -> environment w w' -> invariant w' /\ rely w w'.
Proof.
  intros I E. split; split; rewrite ?(env_users _ _ E); try apply I; try apply E.
  - intros i u s Eu A. apply (env_used _ _ E). by eapply (inv_used w I).
  - intros i u Eu. eauto.
Qed.

Lemma guarantee_rely' w w' : invariant w -> invariant w' -> guarantee w w' -> rely w w'.
Proof. intros _ _ G. apply G. Qed.

Lemma reached w s : invariant w -> steps (w, []) s -> invariant s.1 /\ rely w s.1.
Proof.
  intros I R. eapply (reachable_invariant served environment invariant rely guarantee);
    eauto using guarantee_refl, guarantee_rely', environment_ok, served_safe; apply _.
Qed.

Lemma step_ok w s s' : invariant w -> steps (w, []) s -> step s s' ->
  invariant s.1 /\ invariant s'.1 /\ (guarantee s.1 s'.1 \/ environment s.1 s'.1).
Proof.
  intros I R St.
  eapply (reachable_guarantee served environment invariant rely guarantee);
    eauto using guarantee_refl, guarantee_rely', environment_ok, served_safe; apply _.
Qed.

(** ** Properties *)

(** C5: whatever requests run and however they interleave, fail or are
    lost in part, the server never loses its last active super administrator:
    if it has one at the start, it has one in every state it reaches. *)
Theorem super_admin_survives w s :
  invariant w -> has_super_admin w -> steps (w, []) s -> has_super_admin s.1.
Proof.
  intros I S R. assert (P : PreOrder (fun w w' => has_super_admin w -> has_super_admin w')).
  { split; [by intros v|]. intros v1 v2 v3 H1' H2'. auto. }
  refine (reachable_closure served environment invariant rely guarantee guarantee_refl guarantee_rely'
    environment_ok served_safe (fun w w' => has_super_admin w -> has_super_admin w') w (w, []) s I _
    (rtc_refl _ _) R S).
  intros w1 w2 _ _ [G|E]; [apply G|]. unfold has_super_admin. by rewrite (env_users _ _ E).
Qed.

(** C7: every action in every interleaving keeps every account and
    moves its invitation only along a transition of the state machine or, for a
    cancelled invitation whose provider identity is detached and compensated,
    back to its start; no action makes two accounts share an address, a provider
    identity or an invitation key. *)
Theorem invitation_lifecycle w s s' :
  invariant w -> steps (w, []) s -> step s s' ->
  (forall i u, users s.1 !! i = Some u ->
     exists u', users s'.1 !! i = Some u' /\ may_become u u')
  /\ (forall name column, (name, column) ∈ unique_columns -> column_unique column (users s'.1)).
Proof.
  intros I R St. destruct (step_ok w s s' I R St) as (I1 & I2 & C). split; [|apply I2].
  intros i u Eu. destruct C as [G|E].
  - destruct (rely_rows _ _ (g_rely _ _ G) i u Eu) as (u' & Eu' & _). exists u'. split; [done|].
    apply (g_rows _ _ G i u u' Eu Eu').
  - rewrite (env_users _ _ E). exists u. split; [done|]. left. apply canTransitionInvitation_refl.
Qed.

(** C8: an action that creates an account, or changes its role, its
    activity or the state of its invitation, appends an audit record naming that
    account in the same action; no action removes or rewrites a record. *)
Theorem changes_are_audited w s s' :
  invariant w -> steps (w, []) s -> step s s' ->
  exists new, auditEvents s'.1 = auditEvents s.1 ++ new
  /\ forall i u', users s'.1 !! i = Some u' -> standing <$> users s.1 !! i <> Some (standing u') ->
     exists e, e ∈ new /\ targetId e = Some i.
Proof.
  intros I R St. destruct (step_ok w s s' I R St) as (_ & _ & [G|E]); [apply G|].
  exists []. rewrite app_nil_r, (env_audit _ _ E), (env_users _ _ E). split; [done|].
  intros i u' Eu N. by rewrite Eu in N.
Qed.

(** C6: no action of any request ever deletes the provider identity of an
    account whose invitation is not cancelled - not even a compensation that was
    decided on long before, while the account was cancelled and started again. *)
Theorem identities_of_accounts_survive w w1 w2 ts1 ts2 p p' i u s :
  invariant w -> steps (w, []) (w1, ts1 ++ p :: ts2) -> prog_step p w1 p' w2 ->
  users w1 !! i = Some u -> authUserId u = Some s -> inviteStatus u <> CANCELLED ->
  existing s (identities w1) -> existing s (identities w2).
Proof.
  intros I R St. intros Eu A S X.
  assert (G : guarantee w1 w2).
  { eapply (reachable_request served environment invariant rely guarantee); try eassumption;
      eauto using guarantee_refl, guarantee_rely', environment_ok, served_safe; apply _. }
  by eapply (g_identities _ _ G).
Qed.

End system.

(** ** An example *)

Module Example.
#[local] Existing Instance c_locale.

Definition subject_of (n : nat) : str := js "00000000-0000-4000-8000-00000000000" ++ [N.of_nat n + 48]%N.

Lemma subject_of_inj m n : subject_of m = subject_of n -> m = n.
Proof. unfold subject_of. intros E%app_inv_head. injection E. lia. Qed.

(** A provider that numbers its identities; a token is the identity itself. *)
Definition state : Type := nat * list ProviderUser.

Definition lookup (i : str) (p : state) : option ProviderUser :=
  List.find (fun u => str_eqb (pu_id u) i) p.2.

Definition session_for (u : option ProviderUser) (e : js_error) (p : state)
  : result (ProviderSession * state) :=
  match u with
  | Some u => Ok ({| accessToken := pu_id u; refreshToken := pu_id u; expiresIn := 3600; ps_user := u |}, p)
  | None => Throws e
  end.

#[export] Instance provider : IdentityProvider := {|
  PState := state;
  ip_signInWithPassword email _ p :=
    session_for (List.find (fun u => bool_decide (pu_email u = Some email)) p.2)
      ProviderInvalidCredentialsError p;
  ip_refreshSession t p := session_for (lookup t p) ProviderUnavailableError p;
  ip_revokeSession _ p := Ok (tt, p);
  ip_getUserById i p :=
    match lookup i p with Some u => Ok (u, p) | None => Throws ProviderUserNotFoundError end;
  ip_inviteUserByEmail email _ request p :=
    let u := {| pu_id := subject_of p.1; pu_email := Some email; emailVerified := true;
                pu_invitationRequestId := Some request |} in
    Ok (u, (S p.1, u :: p.2));
  ip_verifyInvitationToken t _ p := session_for (lookup t p) ProviderInvalidInvitationError p;
  ip_updatePassword t _ p :=
    match lookup t p with Some u => Ok (u, p) | None => Throws ProviderInvalidInvitationError end;
  ip_deleteInvitationUser i p := Ok (tt, (p.1, List.filter (fun u => negb (str_eqb (pu_id u) i)) p.2))
|}.

Definition is_used (s : str) (p : state) : Prop := exists n, (n < p.1)%nat /\ s = subject_of n.
Definition is_existing (s : str) (p : state) : Prop := is_used s p /\ exists u, u ∈ p.2 /\ pu_id u = s.

Lemma session_for_keeps u e p a p' : session_for u e p = Ok (a, p') -> p' = p.
Proof. unfold session_for. destruct u; congruence. Qed.

Lemma lookup_keeps u e (p : state) (a : ProviderUser) p' :
  match u with Some u => Ok (u, p) | None => Throws e end = Ok (a, p') -> p' = p.
Proof. destruct u; congruence. Qed.

Definition keeps_ids (p p' : state) : Prop :=
  forall s, is_used s p -> is_used s p' /\ (is_existing s p' <-> is_existing s p).

Lemma keeps_ids_refl p : keeps_ids p p.
Proof. done. Qed.

Lemma session_keeps_ids u e p a p' : session_for u e p = Ok (a, p') -> keeps_ids p p'.
Proof. intros ->%session_for_keeps. apply keeps_ids_refl. Qed.

Lemma lookup_keeps_ids u e (p : state) (a : ProviderUser) p' :
  match u with Some u => Ok (u, p) | None => Throws e end = Ok (a, p') -> keeps_ids p p'.
Proof. intros ->%lookup_keeps. apply keeps_ids_refl. Qed.

Lemma invited_keeps_ids n l u : pu_id u = subject_of n ->
  keeps_ids (n, l) (S n, u :: l) /\ is_used (pu_id u) (S n, u :: l).
Proof.
  intros I. split; [|exists n; simpl; split; [lia|done]].
  intros s (k & L & ->). simpl in L. assert (U : is_used (subject_of k) (S n, u :: l)).
  { exists k. simpl. split; [lia|done]. }
  split; [done|]. unfold is_existing. simpl. split.
  - intros [_ (v & [->|Hv]%elem_of_cons & E)].
    + rewrite I in E. apply subject_of_inj in E. lia.
    + split; [by exists k|eauto].
  - intros [_ (v & Hv & E)]. split; [done|]. exists v. split; [by apply list_elem_of_further|done].
Qed.

Lemma deleted_ids i n l s : is_used s (n, l) ->
  let p' := (n, List.filter (fun u => negb (str_eqb (pu_id u) i)) l) in
  is_used s p' /\ (is_existing s p' <-> is_existing s (n, l) /\ s <> i).
Proof.
  intros U p'. split; [done|]. unfold is_existing, p'. simpl. split.
  - intros [_ (u & [Hu N%negb_true_iff%str_eqb_neq]%elem_of_filterb & Es)].
    split; [eauto|congruence].
  - intros [[_ (u & Hu & Es)] N]. split; [done|]. exists u. split; [|done].
    apply elem_of_filterb. split; [done|]. apply negb_true_iff, str_eqb_neq. congruence.
Qed.

Lemma lookup_existing i p : lookup i p = None -> ~ is_existing i p.
Proof.
  unfold lookup. rewrite find_none_iff. intros F [_ (u & Hu & Eu)].
  by apply (proj1 (str_eqb_neq _ _) (F u Hu)).
Qed.

Lemma is_used_non_empty s p : is_used s p -> s <> [].
Proof. intros (n & _ & ->). by unfold subject_of. Qed.

#[export] Instance provider_laws : IdentityProviderLaws.
Proof.
  refine {| existing := is_existing; used := is_used |}.
  - intros s p E. apply E.
  - apply is_used_non_empty.
  - intros e pw p a p'. apply session_keeps_ids.
  - intros t p a p'. apply session_keeps_ids.
  - intros t p a p' E. injection E as _ <-. apply keeps_ids_refl.
  - intros i p a p'. apply lookup_keeps_ids.
  - intros e r q [n l] a p' E. injection E as <- <-. by apply invited_keeps_ids.
  - intros t ty p a p'. apply session_keeps_ids.
  - intros t pw p a p'. apply lookup_keeps_ids.
  - intros i [n l] a p' E s U. injection E as <- <-. by apply deleted_ids.
  - intros i p E. apply lookup_existing. cbn in E. by destruct (lookup i p).
  - intros i p E. discriminate E.
Defined.

Definition account (i email : string) (role : AppRole) (subject : option str) : AppUser := {|
  u_id := js i; u_email := Some (js email); normalizedEmail := Some (js email); u_name := js i;
  u_role := role; inviteStatus := ACTIVE; authUserId := subject; isActive := true;
  lastLoginAt := None; deactivatedAt := None; authzVersion := 1; invitedAt := None;
  invitedBy := None; invitationRequestId := None; invitationErrorCode := None;
  createdAt := 0; updatedAt := 0
|}.

Definition root : AppUser := account "root" "root@example.com" SUPER_ADMIN None.
Definition ann : AppUser := account "ann" "ann@example.com" Access.USER (Some (subject_of 0)).

Definition ann_at_provider : ProviderUser := {|
  pu_id := subject_of 0; pu_email := Some (js "ann@example.com"); emailVerified := true;
  pu_invitationRequestId := None
|}.

Definition w0 : World := {|
  users := {[js "root" := root; js "ann" := ann]}; sessions := []; auditEvents := [];
  identities := (1%nat, [ann_at_provider]); clock := 1000; drawn := 0
|}.

Lemma rows i u : users w0 !! i = Some u -> (i = js "root" /\ u = root) \/ (i = js "ann" /\ u = ann).
Proof.
  unfold w0. simpl. intros E. apply lookup_insert_Some in E as [[<- <-]|[N E]]; [auto|].
  apply lookup_singleton_Some in E as [<- <-]. auto.
Qed.

Lemma columns_differ :
  Forall (fun c : str * (AppUser -> option str) => c.2 root <> c.2 ann \/ c.2 root = None) unique_columns.
Proof.
  do 4 (apply Forall_cons; split;
    [cbn [snd]; first [right; reflexivity | left; vm_compute; discriminate]|]).
  apply Forall_nil. exact I.
Qed.

Lemma w0_invariant : invariant w0.
Proof.
  split.
  - intros i u [[-> ->]|[-> ->]]%rows; reflexivity.
  - intros name column C i j u v x Eu Ev Cu Cv.
    pose proof (proj1 (Forall_forall _ _) columns_differ _ C) as N. simpl in N.
    apply rows in Eu, Ev. destruct Eu as [[-> ->]|[-> ->]], Ev as [[-> ->]|[-> ->]];
      [reflexivity| | |reflexivity]; destruct N; congruence.
  - intros i u s [[-> ->]|[-> ->]]%rows; [discriminate|].
    intros <-%(Some_inj (subject_of 0) s). exists 0%nat. split; [apply Nat.lt_0_1|reflexivity].
Qed.

Lemma w0_super_admin : has_super_admin w0.
Proof. exists (js "root"), root. split; reflexivity. Qed.

Definition jwtVerify (_ : Z) (t : str) : jwt_answer :=
  Verified {| typ := None; sub := Some t; session_id := Some t; exp := Some (ofZ 3600) |}.
Definition uuid (n : nat) : str := js "10000000-0000-4000-8000-00000000000" ++ [N.of_nat n + 48]%N.
Definition version (i : str) (v : Z) : str := i.
Definition handle (h : option str) : option str := h.
Definition redirect : str := js "https://example.com".

(** Promote Ann, by the super administrator; demote him, by Ann. *)
Definition promote : prog World unit :=
  answered (update (js "ann") {| new_name := None; new_role := Some ADMIN; new_isActive := None |}
    (js "root")).
Definition demote : prog World unit :=
  answered (update (js "root") {| new_name := None; new_role := Some Access.USER; new_isActive := None |}
    (js "ann")).

Abbreviation step' := (system_step (served uuid redirect handle version jwtVerify) environment).

Lemma promote_served : served uuid redirect handle version jwtVerify promote.
Proof. constructor. Qed.
Lemma demote_served : served uuid redirect handle version jwtVerify demote.
Proof. constructor. Qed.

Definition w1 : World := (run [] promote w0).2.

Lemma promote_step : prog_step promote w0 (Ret tt) w1.
Proof.
  unfold w1, promote, answered, update. simpl.
  match goal with |- prog_step (Call ?f ?k) _ _ _ => destruct (f w0) as [[b w']|e] eqn:E end.
  - exact (step_call _ _ w0 b w' E).
  - vm_compute in E. discriminate E.
Qed.

Lemma promote_requested : rtc step' (w0, []) (w0, [] ++ promote :: []).
Proof. apply rtc_once. exact (sys_request _ _ w0 [] promote promote_served). Qed.

Lemma promote_runs : step' (w0, [] ++ promote :: []) (w1, [] ++ Ret tt :: []).
Proof. exact (sys_thread _ _ w0 w1 [] [] promote (Ret tt) promote_step). Qed.
End Example.
Import Example.
#[local] Existing Instance c_locale.

Lemma super_admin_survives_witness :
  has_super_admin (run [] demote w1).2 /\ is_Some (users w1 !! js "ann").
Proof.
  split; [|vm_compute; eexists; reflexivity].
  apply (super_admin_survives uuid redirect handle version jwtVerify w0
           ((run [] demote w1).2, [Ret tt] ++ of_result (run [] demote w1).1 :: [])
           w0_invariant w0_super_admin).
  etransitivity; [apply promote_requested|]. eapply rtc_l; [apply promote_runs|].
  eapply rtc_l; [exact (sys_request _ _ w1 [Ret tt] demote demote_served)|].
  apply (run_reachable _ _ demote [] w1 [Ret tt] []).
Defined.

Lemma invitation_lifecycle_witness :
  exists u', users w1 !! js "ann" = Some u' /\ may_become ann u'.
Proof.
  exact (proj1 (invitation_lifecycle uuid redirect handle version jwtVerify w0
    (w0, [] ++ promote :: []) (w1, [] ++ Ret tt :: []) w0_invariant promote_requested promote_runs)
    (js "ann") ann eq_refl).
Defined.

Lemma changes_are_audited_witness :
  exists e, e ∈ auditEvents w1 /\ targetId e = Some (js "ann").
Proof.
  destruct (changes_are_audited uuid redirect handle version jwtVerify w0
    (w0, [] ++ promote :: []) (w1, [] ++ Ret tt :: []) w0_invariant promote_requested promote_runs)
    as (new & E & C).
  assert (R : exists u', users w1 !! js "ann" = Some u' /\ standing u' <> standing ann).
  { vm_compute. eexists. split; [reflexivity|]. discriminate. }
  destruct R as (u' & Eu & N). destruct (C (js "ann") u' Eu) as (e & He & T).
  - intros X. apply N. symmetry. exact (Some_inj (standing ann) (standing u') X).
  - exists e. split; [|exact T]. simpl in E. rewrite E. exact He.
Defined.

Lemma identities_of_accounts_survive_witness : existing (subject_of 0) (identities w1).
Proof.
  apply (identities_of_accounts_survive uuid redirect handle version jwtVerify w0 w0 w1 [] []
    promote (Ret tt) (js "ann") ann (subject_of 0) w0_invariant promote_requested promote_step
    eq_refl eq_refl).
  - discriminate.
  - split; [exists 0%nat; split; [apply Nat.lt_0_1|reflexivity]|].
    exists ann_at_provider. split; [apply list_elem_of_here|reflexivity].
Defined.
