(* ===== verification/UsersRaces.v ===== *)
(** * An update that another transaction overtakes

    [UsersService.update] reads the account and writes it in two statements of a
    transaction that runs at READ COMMITTED and holds only the lock of the super
    administrators; cancelling, retrying and restarting an invitation hold only
    the lock of the account.  So such a transaction of the same account may
    commit between the two.  The file runs an update as two actions, its read
    and its write, among all other requests - no two updates at once, which the
    lock rules out - and shows what then still holds of the authorization
    versions.

    The other transactions stay one action each.  What they read of the account
    before they write it - the state of the invitation, its key, its error, the
    identity and the address - an update does not write ([update_write_row]),
    but for the time of the last change that tells whether a claim is fresh; and
    whatever they read, one that writes the role or the activity raises the
    version. *)

From S2P Require Import Prelude JsNumber JsString.
From S2P Require Import SecurityAudit.
From S2P Require Import Concurrency.
From S2P Require Import Transactions.
From S2P Require Import Access.
From S2P Require Import Users.
From S2P Require Import UsersSafety.
From S2P Require Import Auth.
From S2P Require Import AuthSafety.
From S2P Require Import UsersGuarantees.
Import UsersGuarantees.Example.
From stdpp Require Import relations.

Local Open Scope Z_scope.

Section races.
Context `{IcuLaws, IdentityProviderLaws} (uuid : nat -> str) (inviteRedirectUrl : str).
Context (verifySessionHandle : option str -> option str) (authorization_version : str -> Z -> str)
  (jwtVerify : Z -> str -> jwt_answer).

(** ** The write of an update *)

Definition authorization (u : AppUser) : AppRole * bool := (u_role u, isActive u).

(** What the write does to the row it finds, [u], after [current] was read. *)
Record updated_row (body : UpdateUserDto) (current u u' : AppUser) : Prop := {
  up_authorization : authorization u' = (next_role body u, next_active body u);
  up_version : authzVersion u' = authzVersion u + (if authorization_changed body current then 1 else 0);
  up_invitation : inviteStatus u' = inviteStatus u /\ authUserId u' = authUserId u
    /\ invitationErrorCode u' = invitationErrorCode u /\ invitationRequestId u' = invitationRequestId u
    /\ normalizedEmail u' = normalizedEmail u
}.

Lemma update_writes_row body current at_ t u :
  updated_row body current u
    (apply_writes
       ((opt_write SetName (new_name body) ++ opt_write SetRole (new_role body)
         ++ opt_write SetIsActive (new_isActive body)
         ++ match new_isActive body with
            | Some false => [SetDeactivatedAt (Some at_)]
            | Some true => [SetDeactivatedAt None]
            | None => []
            end
         ++ (if authorization_changed body current then [IncrementVersion] else []))
        ++ [SetUpdatedAt t]) u).
Proof.
  destruct (authorization_changed body current) eqn:C; split; rewrite ?C; unfold next_role, next_active, authorization;
    destruct (new_name body), (new_role body), (new_isActive body) as [[]|]; simpl; auto with lia.
Qed.

Lemma update_write_row id body actor current w r w' : invariant w ->
  update_write id body actor current w = Ok (r, w') ->
  invariant w' /\ rely w w'
  /\ exists u u', users w !! id = Some u /\ users w' = <[id := u']> (users w) /\ updated_row body current u u'.
Proof.
  intros I F. unfold update_write in F. apply tx_bind_inv in F as (t & w0 & E & F).
  unfold tx_now, tx_get in E. injection E as <- <-. cbv zeta in F.
  apply tx_bind_inv in F as (x & w1 & E & F).
  assert (S1 : users w1 = users w /\ identities w1 = identities w /\ clock w1 = clock w).
  { destruct (authorization_changed body current); [|by injection E as _ <-].
    unfold revoke_sessions in E. by injection E as _ <-. }
  clear E. destruct S1 as (U1 & P1 & C1).
  apply tx_bind_inv in F as (u' & w2 & (u & Eu & Eu' & Cl & ->)%update_user_inv & F).
  apply tx_bind_inv in F as (y & w3 & ->%writeSecurityAudit_inv & F).
  apply tx_bind_inv in F as (z & w4 & E & F). injection F as _ <-.
  assert (S4 : users w4 = <[u_id u' := u']> (users w) /\ identities w4 = identities w).
  { destruct (authorization_changed body current); [apply writeSecurityAudit_inv in E as ->|injection E as _ <-];
      simpl; by rewrite U1, P1. }
  destruct S4 as [U4 P4]. rewrite U1 in Eu.
  pose proof (update_writes_row body current (clock w) (clock w1) u) as Up. rewrite <- Eu' in Up.
  assert (K : u_id u' = id) by (rewrite Eu', apply_writes_id; by apply (inv_keys w I)). rewrite K in *.
  destruct Up as [Ua Uv Ui]. pose proof Ui as (Us & Uu & Ue & _).
  assert (Cw : clash u' w = None) by (by rewrite <- (clash_users u' w w1)).
  split; [|split; [|by exists u, u']].
  - split; rewrite ?U4, ?P4.
    + intros j v. destruct (decide (j = id)) as [->|N].
      * rewrite lookup_insert_eq. by intros [= <-].
      * rewrite lookup_insert_ne by done. apply (inv_keys w I).
    + rewrite <- K. by apply clash_unique.
    + intros j v s. destruct (decide (j = id)) as [->|N].
      * rewrite lookup_insert_eq. intros [= <-]. rewrite Uu. by apply (inv_used w I id).
      * rewrite lookup_insert_ne by done. apply (inv_used w I).
  - split; unfold gone; rewrite ?U4, ?P4; auto. intros j v Ev. destruct (decide (j = id)) as [->|N].
    + rewrite lookup_insert_eq. exists u'. split; [done|]. intros s (O1 & O2 & O3). left. simplify_eq.
      unfold owes. by rewrite Us, Uu, Ue.
    + rewrite lookup_insert_ne by done. eauto.
Qed.

(** ** Updates in two actions *)

(** An update between its read and its write. *)
Record UpdateRead := {
  ur_id : str; ur_body : UpdateUserDto; ur_actor : str; ur_current : AppUser
}.

(** All requests but the updates. *)
Definition others (h : prog World unit) : Prop :=
  served uuid inviteRedirectUrl verifySessionHandle authorization_version jwtVerify h
  /\ forall id body actor, h <> answered (update id body actor).

Definition RaceState : Type := (World * list (prog World unit)) * option UpdateRead.

Inductive racing_step : RaceState -> RaceState -> Prop :=
  | race_others s s' q : system_step others environment s s' -> racing_step (s, q) (s', q)
  | race_read w ts id body actor current :
      users w !! id = Some current -> update_checks id body actor current w = Ok (tt, w) ->
      racing_step ((w, ts), None)
        ((w, ts), Some {| ur_id := id; ur_body := body; ur_actor := actor; ur_current := current |})
  | race_write w ts q r w' :
      update_write (ur_id q) (ur_body q) (ur_actor q) (ur_current q) w = Ok (r, w') ->
      racing_step ((w, ts), Some q) ((w', ts), None)
  | race_abandoned s q : racing_step (s, Some q) (s, None).

(** Since the read the account has kept its version and what it may do, or its
    version has grown. *)
Definition read_of (q : UpdateRead) (w : World) : Prop :=
  exists u, users w !! ur_id q = Some u /\ authzVersion (ur_current q) <= authzVersion u
    /\ (authorization (ur_current q) <> authorization u -> authzVersion (ur_current q) < authzVersion u).

Definition race_inv (s : RaceState) : Prop :=
  good invariant rely guarantee s.1 /\ forall q, s.2 = Some q -> read_of q s.1.1.

(** The write of an update whose account another transaction has changed since
    the update read it. *)
Definition overtaken (i : str) (s s' : RaceState) : Prop :=
  exists q u r, s.2 = Some q /\ s'.2 = None /\ ur_id q = i
    /\ update_write i (ur_body q) (ur_actor q) (ur_current q) s.1.1 = Ok (r, s'.1.1)
    /\ users s.1.1 !! i = Some u /\ authzVersion (ur_current q) < authzVersion u.

Definition version_step (w w' : World) (i : str) (exception : Prop) : Prop :=
  forall u, users w !! i = Some u -> exists u', users w' !! i = Some u' /\ authzVersion u <= authzVersion u'
    /\ (authorization u <> authorization u' -> authzVersion u < authzVersion u' \/ exception).

Lemma others_safe h w : others h -> invariant w -> safe true invariant rely guarantee h (fun _ _ => True) w.
Proof. intros [S _] I. by eapply served_safe. Qed.

Lemma environment_version w w' i : guarantee w w' \/ environment w w' -> version_step w w' i False.
Proof.
  intros [G|E] u Eu.
  - destruct (rely_rows _ _ (g_rely _ _ G) i u Eu) as (u' & Eu' & _). exists u'. split; [done|].
    destruct (g_rows _ _ G i u u' Eu Eu') as [_ V A]. auto.
  - rewrite (env_users _ _ E). exists u. done.
Qed.

Lemma read_of_later q w w' i : version_step w w' i False -> ur_id q = i -> read_of q w -> read_of q w'.
Proof.
  intros V E (u & Eu & L & A). rewrite E in Eu. destruct (V u Eu) as (u' & Eu' & L' & A').
  exists u'. rewrite E. split; [done|]. split; [lia|]. intros N.
  destruct (decide (authorization (ur_current q) = authorization u)) as [Q|Q]; [|specialize (A Q); lia].
  rewrite Q in N. destruct (A' N); [lia|done].
Qed.

Lemma write_version q w r w' i : invariant w -> read_of q w ->
  update_write (ur_id q) (ur_body q) (ur_actor q) (ur_current q) w = Ok (r, w') ->
  version_step w w' i (ur_id q = i /\ exists u, users w !! i = Some u /\ authzVersion (ur_current q) < authzVersion u).
Proof.
  intros I (v & Ev & L & A) F u Eu.
  destruct (update_write_row _ _ _ _ _ _ _ I F) as (_ & _ & x & x' & Ex & Ew & [Ua Uv _]).
  rewrite Ew. destruct (decide (i = ur_id q)) as [->|N].
  - rewrite lookup_insert_eq. assert (x = u) as -> by congruence. assert (v = u) as -> by congruence. exists x'. split; [done|]. rewrite Uv.
    split; [destruct (authorization_changed _ _); lia|]. intros D.
    destruct (authorization_changed (ur_body q) (ur_current q)) eqn:C; [left; lia|]. right. split; [done|].
    exists u. split; [done|]. apply A. intros Q. apply D. rewrite Ua.
    unfold authorization_changed, next_role, next_active, authorization in *. bool_simpl. destruct C as [C1 C2].
    apply bool_decide_eq_true in C1. apply eqb_prop in C2. injection Q as Q1 Q2.
    destruct (new_role (ur_body q)), (new_isActive (ur_body q)); simpl in *; congruence.
  - rewrite lookup_insert_ne by done. exists u. done.
Qed.

Lemma racing_step_inv s s' : race_inv s -> racing_step s s' ->
  race_inv s' /\ forall i, version_step s.1.1 s'.1.1 i (overtaken i s s').
Proof.
  intros [G R] St. destruct St as [s s' q St|w ts id body actor current Eu C|w ts q r w' F|s q]; simpl in *.
  - destruct (good_step others environment invariant rely guarantee guarantee_refl
      guarantee_rely' environment_ok others_safe s s' G St) as (G' & _ & Gs).
    assert (V : forall i, version_step s.1 s'.1 i False) by (intros i; by apply environment_version).
    split; [split; [done|]|].
    + intros q' E. eapply read_of_later; [apply (V (ur_id q'))|done|by apply R].
    + intros i u Eu. destruct (V i u Eu) as (u' & ? & ? & A). exists u'. split; [done|]. split; [done|].
      intros N. destruct (A N); [by left|done].
  - split; [split; [done|]|].
    + intros q [= <-]. exists current. simpl. done.
    + intros i u E. exists u. done.
  - destruct G as [I Ss]. destruct (update_write_row _ _ _ _ _ _ _ I F) as (I' & Rl & _).
    split; [split; [split; [done|exact (pool_rely invariant rely guarantee w w' ts Rl Ss)]|done]|].
    intros i u Eu. destruct (write_version q w r w' i I (R q eq_refl) F u Eu) as (u' & Eu' & L & A).
    exists u'. split; [done|]. split; [done|]. intros N. destruct (A N) as [?|(<- & v & Ev & Lv)]; [by left|].
    right. by exists q, v, r.
  - split; [split; [done|by intros]|]. intros i u Eu. by exists u.
Qed.

Lemma racing_inv s s' : race_inv s -> rtc racing_step s s' -> race_inv s'.
Proof. intros I R. induction R as [s|s s1 s' St R IH]; [done|]. by apply IH, (racing_step_inv s s1 I St). Qed.

Lemma race_inv_start w : invariant w -> race_inv ((w, []), None).
Proof. intros I. split; [split; [done|constructor]|done]. Qed.

(** C9: between any two states of a run an account's authorization version never
    decreases; and while it stays the same the account's role and activity are
    the same, unless in between an update wrote the account that another
    transaction - of its invitation - had changed, raising the version, after
    the update had read it: the update compares with the role and the activity
    that it read, so it may set back those of the other transaction without a
    new version. *)
Theorem authorization_versions w s s' i u :
  invariant w -> rtc racing_step ((w, []), None) s -> rtc racing_step s s' -> users s.1.1 !! i = Some u ->
  exists u', users s'.1.1 !! i = Some u' /\ authzVersion u <= authzVersion u'
  /\ (authzVersion u = authzVersion u' ->
      u_role u = u_role u' /\ isActive u = isActive u'
      \/ exists s1 s2, rtc racing_step s s1 /\ racing_step s1 s2 /\ rtc racing_step s2 s' /\ overtaken i s1 s2).
Proof.
  intros I R R'. assert (Is : race_inv s) by (by eapply racing_inv; [apply race_inv_start|]). clear I R w.
  revert u. induction R' as [s|s s1 s' St R' IH]; intros u Eu.
  { exists u. split; [done|]. split; [lia|]. by left. }
  destruct (racing_step_inv s s1 Is St) as [I1 V]. destruct (V i u Eu) as (u1 & E1 & L1 & A1).
  destruct (IH I1 u1 E1) as (u' & E' & L' & A'). exists u'. split; [done|]. split; [lia|]. intros Q.
  destruct (decide (authorization u = authorization u1)) as [D|D].
  - injection D as D1 D2. destruct A' as [[X Y]|(s2 & s3 & R2 & S3 & R3 & O)]; [lia|left; split; congruence|].
    right. exists s2, s3. split; [by eapply rtc_l|done].
  - destruct (A1 D) as [?|O]; [lia|]. right. exists s, s1. split; [done|]. split; [done|]. by split.
Qed.
End races.

(** ** The race

    Bob's invitation is cancelled.  The administrator's update, which gives him
    the role that he has, reads his account; then he is invited again, as an
    administrator; then the update writes: the role is changed back, and the
    version stays that of the invitation. *)
Module RaceExample.
#[local] Existing Instance c_locale.

Definition bob : AppUser := {|
  u_id := js "bob"; u_email := Some (js "bob@example.com"); normalizedEmail := Some (js "bob@example.com");
  u_name := js "bob"; u_role := Access.USER; inviteStatus := CANCELLED; authUserId := None; isActive := false;
  lastLoginAt := None; deactivatedAt := Some 500; authzVersion := 2; invitedAt := None;
  invitedBy := None; invitationRequestId := None; invitationErrorCode := None; createdAt := 0; updatedAt := 500
|}.

Definition race_start : World := {|
  users := {[js "root" := root; js "bob" := bob]}; sessions := []; auditEvents := [];
  identities := (1%nat, []); clock := 1000; drawn := 0
|}.

Definition same_role : UpdateUserDto := {| new_name := None; new_role := Some Access.USER; new_isActive := None |}.

Definition reinvite : prog World unit :=
  answered (invite uuid redirect
    {| body_email := Some (js "bob@example.com"); body_name := js "bob"; body_role := ADMIN |} (js "root") None).

Definition invited : World := (run [] reinvite race_start).2.
Definition overwritten : World :=
  match update_write (js "bob") same_role (js "root") bob invited with Ok (_, w) => w | Throws _ => race_start end.

Definition bob_in (w : World) : option (AppRole * bool * Z) :=
  (fun u => (u_role u, isActive u, authzVersion u)) <$> users w !! js "bob".

Example overtaken_update : map bob_in [race_start; invited; overwritten]
  = [Some (Access.USER, false, 2); Some (ADMIN, true, 4); Some (Access.USER, true, 4)].
Proof. vm_compute. reflexivity. Qed.

Definition the_read : UpdateRead :=
  {| ur_id := js "bob"; ur_body := same_role; ur_actor := js "root"; ur_current := bob |}.

Abbreviation races := (racing_step uuid redirect handle version jwtVerify).
Definition answer : prog World unit := of_result (run [] reinvite race_start).1.

Lemma reinvite_other : others uuid redirect handle version jwtVerify reinvite.
Proof.
  split; [constructor|]. intros id body actor. unfold reinvite, invite, answered, update. simpl.
  destruct (new_name body), (new_role body), (new_isActive body); discriminate.
Qed.

Lemma races_to_invited : rtc races ((race_start, []), None) ((invited, [answer]), Some the_read).
Proof.
  eapply rtc_l.
  { apply (race_read _ _ _ _ _ race_start [] (js "bob") same_role (js "root") bob); vm_compute; reflexivity. }
  eapply rtc_l.
  { apply race_others. exact (sys_request _ _ race_start [] reinvite reinvite_other). }
  refine (rtc_congruence (fun s => (s, Some the_read)) races _ _ (fun x y St => race_others _ _ _ _ _ x y _ St) _).
  exact (run_reachable _ _ reinvite [] race_start [] []).
Qed.

Lemma race_written : exists r, update_write (js "bob") same_role (js "root") bob invited = Ok (r, overwritten).
Proof.
  unfold overwritten. destruct (update_write _ _ _ _ invited) as [[r w]|e] eqn:E; [by exists r|].
  exfalso. revert E. vm_compute. discriminate.
Qed.

Lemma race_rows i u : users race_start !! i = Some u -> (i = js "root" /\ u = root) \/ (i = js "bob" /\ u = bob).
Proof.
  unfold race_start. simpl. intros E. apply lookup_insert_Some in E as [[<- <-]|[N E]]; [auto|].
  apply lookup_singleton_Some in E as [<- <-]. auto.
Qed.

Lemma race_columns :
  Forall (fun c : str * (AppUser -> option str) => c.2 root <> c.2 bob \/ c.2 root = None) unique_columns.
Proof.
  do 4 (apply Forall_cons; split;
    [cbn [snd]; first [right; reflexivity | left; vm_compute; discriminate]|]).
  apply Forall_nil. exact I.
Qed.

Lemma race_start_invariant : invariant race_start.
Proof.
  split.
  - intros i u [[-> ->]|[-> ->]]%race_rows; reflexivity.
  - intros name column C i j u v x Eu Ev Cu Cv.
    pose proof (proj1 (Forall_forall _ _) race_columns _ C) as N. simpl in N.
    apply race_rows in Eu, Ev. destruct Eu as [[-> ->]|[-> ->]], Ev as [[-> ->]|[-> ->]];
      [reflexivity| | |reflexivity]; destruct N; congruence.
  - intros i u s [[-> ->]|[-> ->]]%race_rows; discriminate.
Qed.
End RaceExample.
Import RaceExample.
#[local] Existing Instance c_locale.

Lemma authorization_versions_witness : exists u u',
  users invited !! js "bob" = Some u /\ users overwritten !! js "bob" = Some u'
  /\ u_role u = ADMIN /\ u_role u' = Access.USER /\ authzVersion u = authzVersion u'
  /\ exists s1 s2, races s1 s2 /\ overtaken (js "bob") s1 s2.
Proof.
  destruct (users invited !! js "bob") as [u|] eqn:Eu; [|vm_compute in Eu; discriminate Eu].
  destruct race_written as [r Ew].
  destruct (authorization_versions uuid redirect handle version jwtVerify race_start
    ((invited, [answer]), Some the_read) ((overwritten, [answer]), None) (js "bob") u
    race_start_invariant races_to_invited (rtc_once _ _ (race_write _ _ _ _ _ invited [answer] the_read r overwritten Ew)) Eu)
    as (u' & Eu' & _ & A).
  exists u, u'. split; [reflexivity|]. split; [exact Eu'|].
  assert (B : bob_in invited = Some (ADMIN, true, 4) /\ bob_in overwritten = Some (Access.USER, true, 4))
    by (split; vm_compute; reflexivity).
  destruct B as [B1 B2]. unfold bob_in in B1, B2. rewrite Eu in B1. cbn [fst] in Eu'. rewrite Eu' in B2.
  injection B1 as R1 _ V1. injection B2 as R2 _ V2.
  split; [exact R1|]. split; [exact R2|]. split; [congruence|].
  destruct A as [[C _]|(s1 & s2 & _ & St & _ & O)]; [congruence|congruence|]. exact (ex_intro _ s1 (ex_intro _ s2 (conj St O))).
Defined.
