(* ===== verification/LocalCredentials.v ===== *)
(** * User names, passwords and the work they cost

    [auth/local-credentials.ts]: what a user name and a new password may be,
    how a password is stored and compared, and the limiter that keeps the
    derivations of keys within their memory.  The derivation itself ([scrypt])
    and the random salts are parameters. *)

From S2P Require Import Prelude JsNumber JsString.
From S2P Require Import Access.
From S2P Require Import Users.
From S2P Require Import Auth.
From Stdlib Require Import Zify.

Local Open Scope N_scope.

(** ** Base64url *)

Module Base64url.

Definition alphabet : str := js "ABCDEFGHIJKLMNOPQRSTUVWXYZabcdefghijklmnopqrstuvwxyz0123456789-_".

Definition digit (i : N) : N := nth (N.to_nat i) alphabet 0.

(** [[A-Za-z0-9_-]]. *)
Definition url_char (c : N) : bool :=
  (65 <=? c) && (c <=? 90) || (97 <=? c) && (c <=? 122) || is_digit c || (c =? 95) || (c =? 45).

Definition value (c : N) : N :=
  if (65 <=? c) && (c <=? 90) then c - 65
  else if (97 <=? c) && (c <=? 122) then c - 71
  else if is_digit c then c + 4
  else if c =? 45 then 62 else 63.

(** [buffer.toString("base64url")]. *)
Fixpoint encode (bs : list N) : str :=
  match bs with
  | a :: b :: c :: r =>
      digit (a / 4) :: digit (a mod 4 * 16 + b / 16) :: digit (b mod 16 * 4 + c / 64)
      :: digit (c mod 64) :: encode r
  | [a; b] => [digit (a / 4); digit (a mod 4 * 16 + b / 16); digit (b mod 16 * 4)]
  | [a] => [digit (a / 4); digit (a mod 4 * 16)]
  | [] => []
  end.

(** [Buffer.from(text, "base64url")], on the characters of the alphabet. *)
Fixpoint decode (s : str) : list N :=
  match s with
  | w :: x :: y :: z :: r =>
      value w * 4 + value x / 16 :: value x mod 16 * 16 + value y / 4
      :: value y mod 4 * 64 + value z :: decode r
  | [w; x; y] => [value w * 4 + value x / 16; value x mod 16 * 16 + value y / 4]
  | [w; x] => [value w * 4 + value x / 16]
  | _ => []
  end.

Definition byte (b : N) : Prop := b < 256.

Lemma digits_ok :
  forallb (fun n => let i := N.of_nat n in (value (digit i) =? i) && url_char (digit i)) (seq 0 64) = true.
Proof. vm_compute. reflexivity. Qed.

Lemma digit_ok i : i < 64 -> value (digit i) = i /\ url_char (digit i) = true.
Proof.
  intros L. pose proof (proj1 (forallb_forall _ _) digits_ok (N.to_nat i)) as F.
  cbv beta zeta in F. rewrite N2Nat.id in F. destruct (andb_prop _ _ (F ltac:(apply in_seq; lia))) as [E U].
  split; [by apply N.eqb_eq|done].
Qed.

Lemma digit_value i : i < 64 -> value (digit i) = i.
Proof. intros L. by apply digit_ok. Qed.

Lemma digit_url_char i : i < 64 -> url_char (digit i) = true.
Proof. intros L. by apply digit_ok. Qed.

#[local] Ltac Zify.zify_post_hook ::= Z.to_euclidean_division_equations.

(** Lists three elements at a time. *)
Lemma by_three (P : list N -> Prop) :
  P [] -> (forall a, P [a]) -> (forall a b, P [a; b]) ->
  (forall a b c r, P r -> P (a :: b :: c :: r)) -> forall l, P l.
Proof.
  intros P0 P1 P2 P3. assert (S : forall l, P l /\ (forall a, P (a :: l)) /\ (forall a b, P (a :: b :: l))).
  { induction l as [|x l (I1 & I2 & I3)]; auto. }
  intros l. apply S.
Qed.

Lemma decode_encode bs : Forall byte bs -> decode (encode bs) = bs.
Proof.
  unfold byte. induction bs as [|a|a b|a b c r IH] using by_three; [done|..];
    rewrite ?Forall_cons; intros F; cbn [encode decode].
  - rewrite !digit_value by lia. f_equal. lia.
  - rewrite !digit_value by lia. repeat f_equal; lia.
  - rewrite !digit_value by lia. rewrite IH by apply F. repeat f_equal; lia.
Qed.

Lemma encode_chars bs : Forall byte bs -> forallb url_char (encode bs) = true.
Proof.
  unfold byte. induction bs as [|a|a b|a b c r IH] using by_three; [done|..];
    rewrite ?Forall_cons; intros F; cbn [encode forallb];
    rewrite !digit_url_char by lia; [done..|]. apply IH, F.
Qed.

(** 32 bytes are 43 characters, the last of which carries four bits. *)
Lemma encode_app xs ys : (exists k, List.length xs = 3 * k)%nat -> encode (xs ++ ys) = encode xs ++ encode ys.
Proof.
  intros [k L]. revert xs L. induction k as [|k IH]; intros xs L.
  - destruct xs; [done|simpl in L; lia].
  - destruct xs as [|a [|b [|c xs]]]; simpl in L; [lia..|]. cbn [encode app]. rewrite IH by lia. done.
Qed.

Lemma length_encode k xs : List.length xs = (3 * k)%nat -> List.length (encode xs) = (4 * k)%nat.
Proof.
  revert xs. induction k as [|k IH]; intros xs L.
  - destruct xs; [done|simpl in L; lia].
  - destruct xs as [|a [|b [|c xs]]]; simpl in L; [lia..|]. cbn [encode List.length].
    rewrite (IH xs) by lia. lia.
Qed.

Lemma encode_32 bs : List.length bs = 32%nat -> Forall byte bs ->
  exists s c, encode bs = s ++ [c] /\ List.length s = 42%nat /\ forallb url_char s = true
    /\ exists i, i < 16 /\ c = digit (i * 4).
Proof.
  intros L F. rewrite <- (take_drop 30 bs) in F |- *. apply Forall_app in F as [F1 F2].
  assert (L1 : List.length (take 30 bs) = 30%nat) by (rewrite length_take; lia).
  destruct (drop 30 bs) as [|a [|b [|x r]]] eqn:E;
    pose proof (length_drop bs 30) as Ld; rewrite E in Ld; simpl in Ld; [lia..| |lia].
  rewrite encode_app by (exists 10%nat; lia). unfold byte in F2. rewrite !Forall_cons in F2.
  exists (encode (take 30 bs) ++ [digit (a / 4); digit (a mod 4 * 16 + b / 16)]), (digit (b mod 16 * 4)).
  split; [by rewrite <- app_assoc|]. split; [rewrite length_app, (length_encode 10) by lia; simpl; lia|].
  split.
  - rewrite forallb_app, encode_chars by done. cbn [forallb].
    rewrite !digit_url_char by lia. done.
  - exists (b mod 16). split; [lia|done].
Qed.
End Base64url.

(** ** User names *)

Definition USERNAME_INVALID_ERROR : js_error := plain_error "USERNAME_INVALID".

Definition is_lower (c : N) : bool := (97 <=? c) && (c <=? 122).
Definition name_char (c : N) : bool :=
  is_lower c || is_digit c || (c =? 46) || (c =? 95) || (c =? 45).

(** [/^[a-z][a-z0-9._-]{2,31}$/]. *)
Definition USERNAME_PATTERN (s : str) : bool :=
  match s with
  | c :: r => is_lower c && forallb name_char r
              && bool_decide (2 <= List.length r <= 31)%nat
  | [] => false
  end.

(** ** Text as bytes and code points *)

Definition is_high (c : N) : bool := (55296 <=? c) && (c <=? 56319).
Definition is_low (c : N) : bool := (56320 <=? c) && (c <=? 57343).
Definition is_surrogate (c : N) : bool := is_high c || is_low c.

(** [Array.from(text)]: a pair of surrogates is one element. *)
Fixpoint code_points (s : str) : list N :=
  match s with
  | [] => []
  | [a] => [a]
  | a :: ((b :: r) as r') =>
      if is_high a && is_low b then 65536 + (a - 55296) * 1024 + (b - 56320) :: code_points r
      else a :: code_points r'
  end.

(** [text.replace(/[\uD800-\uDBFF][\uDC00-\uDFFF]/gu, "")]: with the flag [u] the
    pattern reads code points, here and in the test that follows. *)
Fixpoint remove_pairs (cs : list N) : list N :=
  match cs with
  | [] => []
  | [a] => [a]
  | a :: ((b :: r) as r') =>
      if is_high a && is_low b then remove_pairs r else a :: remove_pairs r'
  end.

(** [Buffer.byteLength(text, "utf8")]; a lone surrogate is encoded as the
    three bytes of the replacement character. *)
Definition byteLength (s : str) : N :=
  fold_right N.add 0
    (map (fun c => if c <? 128 then 1 else if c <? 2048 then 2 else if c <? 65536 then 3 else 4)
       (code_points s)).

(** ** Stored credentials *)

Record StoredLocalCredential := {
  algorithm : str;
  version : Z;
  costN : Z;
  blockSizeR : Z;
  parallelizationP : Z;
  keyLength : Z;
  salt : str;
  passwordHash : str
}.

#[export] Instance StoredLocalCredential_eq_dec : EqDecision StoredLocalCredential.
Proof. solve_decision. Defined.

(** [{ ...LOCAL_SCRYPT, salt, passwordHash }]. *)
Definition LOCAL_SCRYPT (salt passwordHash : str) : StoredLocalCredential :=
  {| algorithm := js "scrypt"; version := 1; costN := 65536; blockSizeR := 8; parallelizationP := 1;
     keyLength := 32; salt := salt; passwordHash := passwordHash |}.

(** [/^[A-Za-z0-9_-]{42}[AEIMQUYcgkosw048]$/]. *)
Definition KEY_PATTERN (s : str) : bool :=
  match rev s with
  | c :: r => bool_decide (List.length r = 42)%nat && forallb Base64url.url_char r
              && bool_decide (c ∈ js "AEIMQUYcgkosw048")
  | [] => false
  end.

Definition boundedPolicy (value : StoredLocalCredential) : result StoredLocalCredential :=
  if negb (bool_decide (value = LOCAL_SCRYPT (salt value) (passwordHash value)))
     || negb (KEY_PATTERN (salt value)) || negb (KEY_PATTERN (passwordHash value))
  then Throws (plain_error "LOCAL_CREDENTIAL_PARAMETERS_INVALID")
  else Ok value.

Definition decodeBase64Url (value : str) (length : Z) : list N :=
  if negb (truthy value && forallb Base64url.url_char value) then []
  else
    let decoded := Base64url.decode value in
    if bool_decide (Z.of_nat (List.length decoded) = length) then decoded else [].

Definition dummyCredential : StoredLocalCredential :=
  LOCAL_SCRYPT (js "AAAAAAAAAAAAAAAAAAAAAAAAAAAAAAAAAAAAAAAAAAA")
    (js "AAAAAAAAAAAAAAAAAAAAAAAAAAAAAAAAAAAAAAAAAAA").

Section credentials.
Context `{Icu}.

Definition normalizeUsername (value : str) : result str :=
  let normalized := to_lower (nfkc value) in
  if USERNAME_PATTERN normalized then Ok normalized else Throws USERNAME_INVALID_ERROR.

Definition validateNewPassword (password : str) : result unit :=
  let codePoints := N.of_nat (List.length (code_points password)) in
  if existsb is_surrogate (remove_pairs (code_points password))
     || negb (str_eqb password (nfkc password)) || negb (str_eqb password (trim password))
     || (codePoints <? 7) || (128 <? codePoints) || (256 <? byteLength password)
  then Throws (invitationError PASSWORD_POLICY_INVALID)
  else Ok tt.

(** The key that [scrypt] derives from a password and a salt under
    [LOCAL_SCRYPT]: 32 bytes. *)
Context (scrypt : str -> str -> list N).

Definition createCredential (password : str) (random : list N) : result StoredLocalCredential :=
  let! _ := validateNewPassword password in
  let salt := Base64url.encode random in
  Ok (LOCAL_SCRYPT salt (Base64url.encode (scrypt password salt))).

Definition verifyCredential (password : str) (credential : StoredLocalCredential) : result bool :=
  let! policy := boundedPolicy credential in
  let expected := decodeBase64Url (passwordHash credential) (keyLength policy) in
  let actual := scrypt password (salt credential) in
  Ok (bool_decide (expected = actual)).
End credentials.

(** ** What they guarantee *)

Section username.
Context `{IcuLaws}.

Lemma name_char_ascii c : name_char c = true -> (c <? 128) = true /\ ascii_lower c = c.
Proof.
  unfold name_char, is_lower, is_digit, ascii_lower. intros C.
  repeat case_match; bool_simpl; rewrite ?N.leb_le, ?N.eqb_eq, ?N.ltb_lt in *; lia.
Qed.

(** An accepted name is in normal form: it is found again however it is typed. *)
Lemma normalizeUsername_idem v n : normalizeUsername v = Ok n -> normalizeUsername n = Ok n.
Proof.
  unfold normalizeUsername. destruct (USERNAME_PATTERN _) eqn:P; [|done].
  intros [= E]. rewrite E in P. clear E.
  assert (C : forall c, c ∈ n -> name_char c = true).
  { destruct n as [|c0 r]; [done|]. simpl in P. bool_simpl.
    destruct P as [[L F] _]. rewrite forallb_forall_iff in F. intros c [->|I]%elem_of_cons; [|auto].
    unfold name_char. by rewrite L. }
  assert (A : is_ascii n = true).
  { apply forallb_forall_iff. intros c I. by apply name_char_ascii, C. }
  rewrite nfkc_ascii, to_lower_ascii by done.
  replace (map ascii_lower n) with n; [by rewrite P|].
  symmetry. rewrite <- (map_id n) at 2. apply map_ext_in. intros c I.
  by apply name_char_ascii, C, list_elem_of_In.
Qed.
End username.

(** ** Lone surrogates *)

Lemma is_highP c : reflect (55296 <= c <= 56319) (is_high c).
Proof. apply iff_reflect. unfold is_high. rewrite andb_true_iff, !N.leb_le. done. Qed.

Lemma is_lowP c : reflect (56320 <= c <= 57343) (is_low c).
Proof. apply iff_reflect. unfold is_low. rewrite andb_true_iff, !N.leb_le. done. Qed.

Lemma code_points_head a b r c cs : is_high a = true ->
  code_points (a :: b :: r) = a :: c :: cs -> is_low c = false.
Proof.
  intros A. cbn [code_points]. rewrite A. destruct (is_low b) eqn:B; cbn [andb].
  - intros E. injection E as E _. destruct (is_highP a); [lia|done].
  - destruct r as [|d r]; [by intros [= <- _]|].
    cbn [code_points]. destruct (is_high b && is_low d); intros [= <- _]; [|done].
    destruct (is_lowP (65536 + (b - 55296) * 1024 + (d - 56320))); lia || done.
Qed.

(** Code points never are a high surrogate before a low one, so the replacement
    changes nothing and exactly the lone surrogates are refused. *)
Lemma remove_pairs_code_points s : remove_pairs (code_points s) = code_points s.
Proof.
  induction s as [s IH] using (well_founded_induction (Wf_nat.well_founded_ltof _ (@List.length N))).
  unfold Wf_nat.ltof in IH. destruct s as [|a [|b r]]; [done..|].
  destruct (is_high a && is_low b) eqn:P.
  - cbn [code_points]. rewrite P.
    pose proof (IH r ltac:(cbn; lia)) as R. destruct (code_points r) as [|c cs] eqn:Er; [done|].
    assert (Q : is_high (65536 + (a - 55296) * 1024 + (b - 56320)) = false)
      by (destruct (is_highP (65536 + (a - 55296) * 1024 + (b - 56320))); lia || done).
    cbn [remove_pairs]. rewrite Q. exact (f_equal (cons _) R).
  - assert (E : code_points (a :: b :: r) = a :: code_points (b :: r)) by (cbn; by rewrite P).
    pose proof (IH (b :: r) ltac:(cbn; lia)) as R. rewrite E.
    destruct (code_points (b :: r)) as [|c cs] eqn:Er; [done|].
    cbn [remove_pairs]. destruct (is_high a) eqn:A; cbn [andb]; [|exact (f_equal (cons _) R)].
    rewrite (code_points_head a b r c cs A E). exact (f_equal (cons _) R).
Qed.

Section credentials.
Context `{Icu} (scrypt : str -> str -> list N).
Context (scrypt_bytes : forall p s, List.length (scrypt p s) = 32%nat /\ Forall Base64url.byte (scrypt p s)).

Lemma last_digits :
  forallb (fun n => bool_decide (Base64url.digit (N.of_nat n * 4) ∈ js "AEIMQUYcgkosw048")) (seq 0 16) = true.
Proof. vm_compute. reflexivity. Qed.

Lemma KEY_PATTERN_encode bs : List.length bs = 32%nat -> Forall Base64url.byte bs ->
  KEY_PATTERN (Base64url.encode bs) = true.
Proof.
  intros L F. destruct (Base64url.encode_32 bs L F) as (s & c & -> & Ls & Fs & i & Li & ->).
  unfold KEY_PATTERN. rewrite rev_unit. rewrite length_rev, bool_decide_eq_true_2 by done.
  assert (Fr : forallb Base64url.url_char (rev s) = true).
  { apply forallb_forall. intros x I. apply (proj1 (forallb_forall _ _) Fs). by apply in_rev. }
  rewrite Fr. pose proof (proj1 (forallb_forall _ _) last_digits (N.to_nat i)) as D.
  cbv beta in D. rewrite N2Nat.id in D. apply D, in_seq. lia.
Qed.

Lemma decodeBase64Url_encode bs : List.length bs = 32%nat -> Forall Base64url.byte bs ->
  decodeBase64Url (Base64url.encode bs) 32 = bs.
Proof.
  intros L F. unfold decodeBase64Url. rewrite Base64url.encode_chars by done.
  rewrite Base64url.decode_encode by done. rewrite bool_decide_eq_true_2 by lia.
  destruct (Base64url.encode_32 bs L F) as (s & c & -> & _). by destruct s.
Qed.

(** The stored form of an accepted password verifies exactly the
    passwords from which the same key is derived: its own always, so nobody is
    locked out, and another one only if it collides under the derivation. *)
Theorem verifyCredential_createCredential password attempt random credential :
  List.length random = 32%nat -> Forall Base64url.byte random ->
  createCredential scrypt password random = Ok credential ->
  verifyCredential scrypt attempt credential
  = Ok (bool_decide (scrypt password (salt credential) = scrypt attempt (salt credential))).
Proof.
  intros L F C. unfold createCredential in C. destruct (validateNewPassword password); [|done].
  injection C as <-. cbn [salt LOCAL_SCRYPT].
  destruct (scrypt_bytes password (Base64url.encode random)) as [Lk Fk].
  unfold verifyCredential, boundedPolicy. cbn [salt passwordHash keyLength LOCAL_SCRYPT].
  rewrite bool_decide_eq_true_2 by done. rewrite !KEY_PATTERN_encode by done. cbn.
  by rewrite decodeBase64Url_encode.
Qed.

(** The credential used when there is none is well formed: the comparison with
    it costs a derivation like any other. *)
Lemma boundedPolicy_dummy : boundedPolicy dummyCredential = Ok dummyCredential.
Proof. vm_compute. reflexivity. Qed.
End credentials.

Lemma verifyCredential_createCredential_witness :
  let scrypt (p s : str) := replicate 32 (N.of_nat (List.length p) mod 256) in
  exists credential,
    @createCredential c_locale scrypt (js "correct horse") (replicate 32 7) = Ok credential
    /\ verifyCredential scrypt (js "correct horse") credential = Ok true.
Proof.
  intros scrypt. destruct (@createCredential c_locale scrypt (js "correct horse") (replicate 32 7))
    as [credential|e] eqn:C; [|vm_compute in C; discriminate C].
  exists credential. split; [reflexivity|].
  assert (B : forall p s, List.length (scrypt p s) = 32%nat /\ Forall Base64url.byte (scrypt p s)).
  { intros p s. split; [apply length_replicate|]. apply Forall_replicate, N.mod_lt. discriminate. }
  assert (F : Forall Base64url.byte (replicate 32 7)) by (apply Forall_replicate; reflexivity).
  rewrite (@verifyCredential_createCredential c_locale scrypt B (js "correct horse") (js "correct horse")
             (replicate 32 7) credential eq_refl F C).
  by rewrite bool_decide_eq_true_2.
Defined.

(** ** The limiter of derivations *)

Module ScryptWorkLimiter.
Local Open Scope Z_scope.

(** [waiters] are resolvers of promises, here the calls that wait.  The calls
    that are at work, and all calls that were let in, are what the theorem is
    about. *)
Record Limiter := {
  active : Z;
  waiters : list nat;
  at_work : list nat;
  started : list nat;
  accepted : list nat
}.

Definition new_limiter : Limiter :=
  {| active := 0; waiters := []; at_work := []; started := []; accepted := [] |}.

(** The start of [run]: the call works at once, waits, or is refused. *)
Definition acquire (concurrency queueLimit : Z) (call : nat) (l : Limiter) : result unit * Limiter :=
  if active l <? concurrency then
    (Ok tt, {| active := active l + 1; waiters := waiters l; at_work := at_work l ++ [call];
               started := started l ++ [call]; accepted := accepted l ++ [call] |})
  else if queueLimit <=? Z.of_nat (List.length (waiters l)) then (Throws (authError RATE_LIMITED), l)
  else (Ok tt, {| active := active l; waiters := waiters l ++ [call]; at_work := at_work l;
                  started := started l; accepted := accepted l ++ [call] |}).

(** The [finally] of a call at work: its place goes to the oldest waiter. *)
Definition release (call : nat) (l : Limiter) : Limiter :=
  let rest := List.filter (fun c => negb (Nat.eqb c call)) (at_work l) in
  match waiters l with
  | next :: waiters' =>
      {| active := active l; waiters := waiters'; at_work := rest ++ [next];
         started := started l ++ [next]; accepted := accepted l |}
  | [] => {| active := active l - 1; waiters := []; at_work := rest; started := started l;
             accepted := accepted l |}
  end.

(** Calls are numbered as they come; only a call at work finishes. *)
Inductive event := Run | Finish (call : nat).

Definition handle (concurrency queueLimit : Z) (e : event) (s : nat * Limiter) : nat * Limiter :=
  match e with
  | Run => (S s.1, (acquire concurrency queueLimit s.1 s.2).2)
  | Finish c => if bool_decide (c ∈ at_work s.2) then (s.1, release c s.2) else s
  end.

Definition reach (concurrency queueLimit : Z) (es : list event) : nat * Limiter :=
  fold_left (fun s e => handle concurrency queueLimit e s) es (0%nat, new_limiter).

Section limits.
Context (concurrency queueLimit : Z) (positive : 0 < concurrency) (nonneg : 0 <= queueLimit).

Record sound (s : nat * Limiter) : Prop := {
  sound_active : active s.2 = Z.of_nat (List.length (at_work s.2));
  sound_bound : active s.2 <= concurrency;
  sound_queue : Z.of_nat (List.length (waiters s.2)) <= queueLimit;
  sound_busy : waiters s.2 <> [] -> active s.2 = concurrency;
  sound_fifo : started s.2 ++ waiters s.2 = accepted s.2;
  sound_calls : NoDup (at_work s.2 ++ waiters s.2);
  sound_fresh c : c ∈ at_work s.2 ++ waiters s.2 -> (c < s.1)%nat
}.

Lemma remove_one c l : NoDup l -> c ∈ l ->
  l ≡ₚ c :: List.filter (fun x => negb (Nat.eqb x c)) l.
Proof.
  intros N I. apply NoDup_Permutation; [done| |].
  - constructor; [|by apply NoDup_filterb]. rewrite elem_of_filterb, Nat.eqb_refl. by intros [].
  - intros x. rewrite elem_of_cons, elem_of_filterb, negb_true_iff, Nat.eqb_neq.
    destruct (Nat.eq_dec x c) as [->|D]; naive_solver.
Qed.

Lemma handle_limiter_sound e s : sound s -> sound (handle concurrency queueLimit e s).
Proof.
  destruct s as [n l]. intros [A B Q W F D P]. simpl in *. destruct e as [|c]; simpl.
  - unfold acquire. destruct (Z.ltb_spec (active l) concurrency) as [L|L].
    + assert (Wn : waiters l = []) by (destruct (waiters l); [done|]; rewrite W in L; [lia|done]).
      rewrite Wn, ?app_nil_r in *. split; simpl; rewrite ?Wn, ?app_nil_r, ?length_app; simpl; try lia; try done.
      * by rewrite F.
      * apply NoDup_app. split; [done|]. split; [|apply NoDup_singleton].
        intros x I ->%list_elem_of_singleton. specialize (P _ I). lia.
      * intros x [I| ->%list_elem_of_singleton]%elem_of_app; [specialize (P _ I)|]; lia.
    + destruct (Z.leb_spec queueLimit (Z.of_nat (List.length (waiters l)))) as [G|G].
      * split; simpl; try done. intros x I. specialize (P x I). lia.
      * split; simpl; rewrite ?length_app; simpl; try lia; try done.
        -- by rewrite app_assoc, F.
        -- rewrite app_assoc. apply NoDup_app. split; [done|]. split; [|apply NoDup_singleton].
           intros x I ->%list_elem_of_singleton. specialize (P _ I). lia.
        -- rewrite app_assoc. intros x [I| ->%list_elem_of_singleton]%elem_of_app; [specialize (P _ I)|]; lia.
  - case_bool_decide as I; [|by split]. apply NoDup_app in D as (D1 & D2 & D3).
    pose proof (remove_one c _ D1 I) as R. pose proof (Permutation_length R) as Lr. simpl in Lr.
    unfold release. destruct (waiters l) as [|next ws] eqn:Ew; split; simpl in *.
    + lia.
    + lia.
    + lia.
    + done.
    + done.
    + rewrite app_nil_r. by apply NoDup_filterb.
    + intros x. rewrite app_nil_r, elem_of_filterb. intros [Ix _]. apply P. by rewrite app_nil_r.
    + rewrite length_app. simpl. lia.
    + done.
    + lia.
    + intros _. by apply W.
    + by rewrite <- app_assoc.
    + rewrite <- app_assoc. simpl. apply NoDup_app. split; [by apply NoDup_filterb|].
      split; [|done]. intros x [Ix _]%elem_of_filterb. by apply D2.
    + intros x. rewrite <- app_assoc, elem_of_app, elem_of_filterb. intros [[Ix _]|Ix]; apply P, elem_of_app; auto.
Qed.

(** C18: at most [concurrency] derivations run and at most [queueLimit]
    calls wait, whatever comes and finishes when; nobody waits while a place is
    free, and calls start in the order in which they were let in. *)
Theorem limiter_bounded_and_fair es :
  let l := (reach concurrency queueLimit es).2 in
  Z.of_nat (List.length (at_work l)) = active l /\ active l <= concurrency
  /\ Z.of_nat (List.length (waiters l)) <= queueLimit
  /\ (waiters l <> [] -> Z.of_nat (List.length (at_work l)) = concurrency)
  /\ started l ++ waiters l = accepted l.
Proof.
  intros l. assert (S : sound (reach concurrency queueLimit es)).
  { unfold reach. assert (S0 : sound (0%nat, new_limiter)).
    { split; simpl; try done; try lia; [constructor|]. intros c []%not_elem_of_nil. }
    revert S0. generalize (0%nat, new_limiter). induction es as [|e es IH]; [done|].
    intros s S0. by apply IH, handle_limiter_sound. }
  destruct S as [A B Q W F _ _]. subst l. rewrite <- A. repeat split; auto.
Qed.
End limits.

Lemma limiter_bounded_and_fair_witness :
  let l := (reach 2 3 [Run; Run; Run; Run; Finish 0; Run]).2 in
  at_work l = [1; 2]%nat /\ waiters l = [3; 4]%nat /\ active l <= 2.
Proof.
  intros l. split; [vm_compute; reflexivity|]. split; [vm_compute; reflexivity|].
  exact (proj1 (proj2 (limiter_bounded_and_fair 2 3 eq_refl ltac:(lia) [Run; Run; Run; Run; Finish 0; Run]))).
Defined.
End ScryptWorkLimiter.
