(* ===== verification/LocalAccounts.v ===== *)
(** * Accounts that this server authenticates itself

    [users/local-users.service.ts] and [auth/local-auth.service.ts]: accounts
    with a user name, invited with a setup token, and sessions whose tokens are
    stored as keyed hashes.  The services run when the provider is [local],
    instead of those of [Users] and [Auth].

    Requests are those of [Concurrency].  A transaction is one action: the
    source takes the advisory lock of the super administrators in [update] and
    [resetPassword], and locks the rows of the account with FOR UPDATE in
    [login], [acceptSetupToken] and [completeInitialPassword].  [resetPassword]
    revokes the sessions before its UPDATE takes the lock of the account row; a
    login that commits between the two is not modelled.  Times are in
    milliseconds; the keyed hash, [scrypt] and the random values are
    parameters. *)

From S2P Require Import Prelude JsNumber JsString.
From S2P Require Import SecurityAudit.
From S2P Require Import Concurrency.
From S2P Require Import Access.
From S2P Require Import Users.
From S2P Require Import Auth.
From S2P Require Import LocalCredentials.

Local Open Scope Z_scope.

(** ** Data *)

(** A row of app_users with the columns of local accounts. *)
Record LocalUser := {
  account : AppUser;
  username : option str;
  normalizedUsername : option str
}.

(** A row of app_auth_sessions of a local session. *)
Record LocalSession := {
  ls_id : str;
  ls_appUserId : str;
  localTokenHash : option str;
  previousLocalTokenHash : option str;
  previousTokenValidUntil : option Z;
  idleExpiresAt : option Z;
  absoluteExpiresAt : option Z;
  onboardingOnly : bool;
  ls_revokedAt : option Z;
  ls_lastSeenAt : option Z;
  refreshedAt : option Z;
  ls_createdAt : Z
}.

(** A row of local_account_setup_tokens. *)
Record SetupToken := {
  st_id : str;
  st_appUserId : str;
  tokenHash_ : str;
  st_expiresAt : Z;
  usedAt : option Z;
  st_revokedAt : option Z;
  createdBy : option str;
  st_createdAt : Z
}.

(** A row of local_credentials. *)
Record CredentialRow := { stored : StoredLocalCredential; passwordChangedAt : Z }.

Record AuthConfig := {
  provider_is_local : bool;
  localSessionTokenSecret : option str;
  localSetupTokenSecret : option str;
  localSessionIdleTtlMs : Z;
  localSessionAbsoluteTtlMs : Z;
  localSessionRotationTtlMs : Z;
  localSetupTokenTtlMs : Z
}.

(** [scryptBusy]: the limiter of derivations has no place left, not even for
    waiting ([LocalCredentials.ScryptWorkLimiter]). *)
Record World := {
  accounts : gmap str LocalUser;
  localCredentials : gmap str CredentialRow;
  localSessions : list LocalSession;
  setupTokens : list SetupToken;
  auditLog : list SecurityAuditWrite;
  time : Z;
  draws : nat;
  scryptBusy : bool
}.

Definition set_accounts (m : gmap str LocalUser) (w : World) : World :=
  {| accounts := m; localCredentials := localCredentials w; localSessions := localSessions w;
     setupTokens := setupTokens w; auditLog := auditLog w; time := time w; draws := draws w;
     scryptBusy := scryptBusy w |}.
Definition set_credentials (m : gmap str CredentialRow) (w : World) : World :=
  {| accounts := accounts w; localCredentials := m; localSessions := localSessions w;
     setupTokens := setupTokens w; auditLog := auditLog w; time := time w; draws := draws w;
     scryptBusy := scryptBusy w |}.
Definition set_local_sessions (l : list LocalSession) (w : World) : World :=
  {| accounts := accounts w; localCredentials := localCredentials w; localSessions := l;
     setupTokens := setupTokens w; auditLog := auditLog w; time := time w; draws := draws w;
     scryptBusy := scryptBusy w |}.
Definition set_setup_tokens (l : list SetupToken) (w : World) : World :=
  {| accounts := accounts w; localCredentials := localCredentials w; localSessions := localSessions w;
     setupTokens := l; auditLog := auditLog w; time := time w; draws := draws w;
     scryptBusy := scryptBusy w |}.
Definition add_event (e : SecurityAuditWrite) (w : World) : World :=
  {| accounts := accounts w; localCredentials := localCredentials w; localSessions := localSessions w;
     setupTokens := setupTokens w; auditLog := auditLog w ++ [e]; time := time w; draws := draws w;
     scryptBusy := scryptBusy w |}.
Definition drawn_one (w : World) : World :=
  {| accounts := accounts w; localCredentials := localCredentials w; localSessions := localSessions w;
     setupTokens := setupTokens w; auditLog := auditLog w; time := time w; draws := S (draws w);
     scryptBusy := scryptBusy w |}.

(** ** Tokens *)

Definition zero_hash : str := repeat 48%N 64.

Definition hex_digit (n : N) : N := if (n <? 10)%N then (48 + n)%N else (87 + n)%N.
Definition hex (bs : list N) : str := flat_map (fun b => [hex_digit (b / 16)%N; hex_digit (b mod 16)%N]) bs.

Definition url_text (n : nat) (s : str) : bool :=
  bool_decide (List.length s = n) && forallb Base64url.url_char s.

(** [/^[0-9a-f-]{36}\.[A-Za-z0-9_-]{43}\.[A-Za-z0-9_-]{43}$/i]. *)
Definition session_pattern (token : str) : bool :=
  match split_on 46 token with
  | [i; proof; nonce] =>
      bool_decide (List.length i = 36%nat) && forallb (fun c => is_hex c || (c =? 45)%N) i
      && url_text 43 proof && url_text 43 nonce
  | _ => false
  end.

(** [/^[A-Za-z0-9_-]{32,128}$/]. *)
Definition setup_pattern (token : str) : bool :=
  forallb Base64url.url_char token && bool_decide (32 <= List.length token <= 128)%nat.

Inductive purpose := session | setup.

Section service.
Context `{Icu} (config : AuthConfig).
(** HMAC-SHA-256 under a key, [scrypt], identifiers and 32 random bytes. *)
Context (hmac : str -> str -> list N) (scrypt : str -> str -> list N).
Context (uuid : nat -> str) (randomBytes : nat -> list N).
Context (authorization_version : str -> Z -> str).

Definition requireSecret (p : purpose) : result str :=
  match provider_is_local config,
        match p with session => localSessionTokenSecret config | setup => localSetupTokenSecret config end with
  | true, Some ((_ :: _) as secret) => Ok secret
  | _, _ => Throws (plain_error "Error")
  end.

Definition tokenHash (p : purpose) (token secret : str) : str :=
  let '(pattern, name) :=
    match p with session => (session_pattern, js "session") | setup => (setup_pattern, js "setup") end in
  if negb (pattern token) then zero_hash else hex (hmac secret (name ++ [0%N] ++ token)).

Definition sessionFamilyProof (secret sessionId : str) : str :=
  Base64url.encode (hmac secret (js "session-family" ++ [0%N] ++ sessionId)).

Definition createSessionToken (secret sessionId : str) (nonce : list N) : str :=
  sessionId ++ [46%N] ++ sessionFamilyProof secret sessionId ++ [46%N] ++ Base64url.encode nonce.

Definition validSessionFamilyId (secret token : str) : option str :=
  match split_on 46 token with
  | sessionId :: proof :: nonce :: rest =>
      if match rest with extra :: _ => truthy extra | [] => false end
         || negb (isUuid sessionId) || negb (url_text 43 proof) || negb (url_text 43 nonce)
      then None
      else if str_eqb proof (sessionFamilyProof secret sessionId) then Some sessionId else None
  | _ => None
  end.

Definition hashSetupToken (token : str) : result str :=
  let! secret := requireSecret setup in Ok (tokenHash setup token secret).

(** ** The tables *)

Definition tx_time : TX World Z := tx_get time.

Definition tx_draw : TX World nat := fun w => Ok (draws w, drawn_one w).
Definition draw : prog World nat := Local (fun w => (draws w, drawn_one w)) Ret.

Definition findAccount (id : str) : TX World (option LocalUser) := tx_get (fun w => accounts w !! id).

Definition first_account (p : LocalUser -> bool) (w : World) : option LocalUser :=
  List.find p (map snd (map_to_list (accounts w))).

Definition byNormalizedUsername (name : str) : TX World (option LocalUser) :=
  tx_get (first_account (fun u => bool_decide (normalizedUsername u = Some name))).
Definition byRequestId (request : str) : TX World (option LocalUser) :=
  tx_get (first_account (fun u => bool_decide (invitationRequestId (account u) = Some request))).

Definition write_account (data : list write) (u : LocalUser) : LocalUser :=
  {| account := apply_writes data (account u); username := username u;
     normalizedUsername := normalizedUsername u |}.

(** [tx.appUser.update] of columns that no unique index is on. *)
Definition update_account (id : str) (data : list write) : TX World LocalUser := fun w =>
  match accounts w !! id with
  | None => Throws P2025
  | Some u =>
      let u' := write_account (data ++ [SetUpdatedAt (time w)]) u in
      Ok (u', set_accounts (<[id := u']> (accounts w)) w)
  end.

Definition local_columns : list (str * (LocalUser -> option str)) :=
  [(js "username", username); (js "normalized_username", normalizedUsername);
   (js "email", fun u => u_email (account u)); (js "auth_user_id", fun u => authUserId (account u));
   (js "normalized_email", fun u => normalizedEmail (account u));
   (js "invitation_request_id", fun u => invitationRequestId (account u))].

Definition same_column (column : LocalUser -> option str) (u v : LocalUser) : bool :=
  bool_decide (is_Some (column u)) && bool_decide (column v = column u).

Definition create_account (u : LocalUser) : TX World LocalUser := fun w =>
  if is_Some_b (accounts w !! u_id (account u)) then Throws (P2002 (js "id"))
  else
    match List.find (fun '(_, column) => is_Some_b (first_account (same_column column u) w)) local_columns with
    | Some (name, _) => Throws (P2002 name)
    | None =>
        if match invitedBy (account u) with
           | Some i => bool_decide (is_Some (accounts w !! i))
           | None => true
           end
        then Ok (u, set_accounts (<[u_id (account u) := u]> (accounts w)) w)
        else Throws P2003
    end.

Definition update_rows {A} (get : World -> list A) (set : list A -> World -> World)
    (p : World -> A -> bool) (f : World -> A -> A) : TX World unit := fun w =>
  Ok (tt, set (map (fun x => if p w x then f w x else x) (get w)) w).

Definition revoked_at (t : Z) (s : LocalSession) : LocalSession :=
  {| ls_id := ls_id s; ls_appUserId := ls_appUserId s; localTokenHash := localTokenHash s;
     previousLocalTokenHash := previousLocalTokenHash s;
     previousTokenValidUntil := previousTokenValidUntil s; idleExpiresAt := idleExpiresAt s;
     absoluteExpiresAt := absoluteExpiresAt s; onboardingOnly := onboardingOnly s;
     ls_revokedAt := Some t; ls_lastSeenAt := ls_lastSeenAt s; refreshedAt := refreshedAt s;
     ls_createdAt := ls_createdAt s |}.

Definition revoke_where (p : World -> LocalSession -> bool) : TX World unit :=
  update_rows localSessions set_local_sessions
    (fun w s => p w s && bool_decide (ls_revokedAt s = None)) (fun w => revoked_at (time w)).

Definition revoke_account_sessions (id : str) : TX World unit :=
  revoke_where (fun _ s => str_eqb (ls_appUserId s) id).
Definition revokeSessionById (id : str) : TX World unit :=
  revoke_where (fun _ s => str_eqb (ls_id s) id).

Definition token_spent (t : SetupToken) : bool :=
  bool_decide (is_Some (usedAt t)) || bool_decide (is_Some (st_revokedAt t)).

Definition revoke_setup_tokens (id : str) : TX World unit :=
  update_rows setupTokens set_setup_tokens
    (fun _ t => str_eqb (st_appUserId t) id && negb (token_spent t))
    (fun w t => {| st_id := st_id t; st_appUserId := st_appUserId t; tokenHash_ := tokenHash_ t;
                   st_expiresAt := st_expiresAt t; usedAt := usedAt t;
                   st_revokedAt := Some (time w); createdBy := createdBy t;
                   st_createdAt := st_createdAt t |}).

Definition P2010 : js_error := plain_error "P2010".

Definition writeAudit (e : SecurityAuditWrite) : TX World unit := fun w =>
  let! data := securityAuditData e in
  if match actorUserId data with
     | Some a => bool_decide (is_Some (accounts w !! a))
     | None => true
     end
  then Ok (tt, add_event data w) else Throws P2003.

Definition authentication_audit (actor : str) (act : string) : SecurityAuditWrite :=
  {| actorUserId := Some actor; actorType := SecurityAudit.USER; action := js act;
     targetType := js "AUTHENTICATION"; targetId := Some actor; auditResult := SUCCESS;
     beforeJson := None; afterJson := None; requestId := None |}.

Definition recordAnonymous (act : string) (res : SecurityAuditResult) : prog World unit :=
  catch (call (fun w => Ok (tt, add_event
      {| actorUserId := None; actorType := ANONYMOUS; action := js act;
         targetType := js "AUTHENTICATION"; targetId := None; auditResult := res;
         beforeJson := None; afterJson := None; requestId := None |} w)))
    (fun _ => Ret tt).

(** ** Sessions *)

(** The token is drawn with the identifier of its session. *)
Definition issueSession (appUserId : str) (onboarding : bool) : TX World (str * str) :=
  tx! i := tx_draw in
  tx! n := tx_draw in
  tx! secret := tx_lift (requireSecret session) in
  let sessionId := uuid i in
  let token := createSessionToken secret sessionId (randomBytes n) in
  let h := tokenHash session token secret in
  fun w =>
    if existsb (fun s => str_eqb (ls_id s) sessionId || bool_decide (localTokenHash s = Some h))
         (localSessions w)
    then Throws P2010
    else
      Ok ((token, sessionId), set_local_sessions (localSessions w ++
        [{| ls_id := sessionId; ls_appUserId := appUserId; localTokenHash := Some h;
            previousLocalTokenHash := None; previousTokenValidUntil := None;
            idleExpiresAt := Some (time w + localSessionIdleTtlMs config);
            absoluteExpiresAt := Some (time w + localSessionAbsoluteTtlMs config);
            onboardingOnly := onboarding; ls_revokedAt := None; ls_lastSeenAt := Some (time w);
            refreshedAt := None; ls_createdAt := time w |}]) w).

Definition toPrincipal (user : LocalUser) (sessionId : str) : AuthenticatedUser :=
  let u := account user in
  {| p_id := u_id u; p_authUserId := u_id u; p_email := u_email u;
     p_username := username user; p_name := u_name u;
     p_role := u_role u; p_inviteStatus := inviteStatus u; p_isActive := isActive u;
     p_authzVersion := authzVersion u;
     p_permissions := if bool_decide (inviteStatus u = ACTIVE) then permissionsForRole (u_role u) else [];
     p_sessionId := sessionId |}.

Definition toResponse (p : AuthenticatedUser) : AuthUserResponse :=
  {| r_id := p_id p; r_email := p_email p; r_username := p_username p; r_name := p_name p;
     r_role := p_role p; r_isActive := p_isActive p; r_inviteStatus := p_inviteStatus p;
     r_permissions := p_permissions p;
     authorizationVersion := authorization_version (p_id p) (p_authzVersion p) |}.

Record SessionResult := { sessionToken : str; sessionResponse : AuthUserResponse }.

Definition session_result (token : str) (p : AuthenticatedUser) : SessionResult :=
  {| sessionToken := token; sessionResponse := toResponse p |}.

(** A time that a column holds is later than another; NULL is not. *)
Definition after (column : option Z) (t : Z) : bool :=
  match column with Some x => t <? x | None => false end.

(** The condition of the UPDATE that touches a session. *)
Definition accepts (h : str) (allowPrevious : bool) (t : Z) (s : LocalSession) : bool :=
  (bool_decide (localTokenHash s = Some h)
   || allowPrevious && bool_decide (previousLocalTokenHash s = Some h)
      && after (previousTokenValidUntil s) t)
  && bool_decide (ls_revokedAt s = None) && after (idleExpiresAt s) t && after (absoluteExpiresAt s) t.

Definition touched (t : Z) (s : LocalSession) : LocalSession :=
  {| ls_id := ls_id s; ls_appUserId := ls_appUserId s; localTokenHash := localTokenHash s;
     previousLocalTokenHash := previousLocalTokenHash s;
     previousTokenValidUntil := previousTokenValidUntil s;
     idleExpiresAt := (fun e => Z.min e (t + localSessionIdleTtlMs config)) <$> absoluteExpiresAt s;
     absoluteExpiresAt := absoluteExpiresAt s; onboardingOnly := onboardingOnly s;
     ls_revokedAt := ls_revokedAt s; ls_lastSeenAt := Some t; refreshedAt := refreshedAt s;
     ls_createdAt := ls_createdAt s |}.

Definition touch (h : str) (allowPrevious : bool) : TX World (option LocalSession) := fun w =>
  let hit := accepts h allowPrevious (time w) in
  Ok (touched (time w) <$> List.find hit (localSessions w),
      set_local_sessions (map (fun s => if hit s then touched (time w) s else s) (localSessions w)) w).

Definition rotationDue (s : LocalSession) (t : Z) : bool :=
  (refreshedAt s ?? ls_createdAt s) + localSessionRotationTtlMs config <=? t.

(** What [authenticateSession] does with the row its UPDATE returned. *)
Definition recognise (allowPreviousForRefresh : bool) (found : option LocalSession) (at_ : Z)
  : prog World AuthenticatedUser :=
  match found with
  | None => Throw (authError SESSION_INVALID)
  | Some s =>
      await user := call (findAccount (ls_appUserId s)) in
      let reject :=
        await _ := call (revokeSessionById (ls_id s)) in Throw (authError SESSION_INVALID) in
      match user with
      | None => reject
      | Some u =>
          if negb (isActive (account u)) then reject
          else
            let onboarding := bool_decide (inviteStatus (account u) = VERIFIED_PENDING_PASSWORD) in
            if negb (Bool.eqb (onboardingOnly s) onboarding)
               || negb onboarding && negb (bool_decide (inviteStatus (account u) = ACTIVE))
            then reject
            else if negb allowPreviousForRefresh && negb onboarding && rotationDue s at_
            then Throw (authError ACCESS_TOKEN_EXPIRED)
            else Ret (toPrincipal u (ls_id s))
      end
  end.

Definition authenticateSession (token : str) (allowPreviousForRefresh : bool)
  : prog World AuthenticatedUser :=
  await secret := of_result (requireSecret session) in
  await row := call (tx! r := touch (tokenHash session token secret) allowPreviousForRefresh in
                     tx! t := tx_time in tx_ret (r, t)) in
  recognise allowPreviousForRefresh row.1 row.2.

(** The conditional UPDATE of [refresh], and how many rows it changed. *)
Definition rotate_token (sessionId oldHash nextHash : str) : TX World nat := fun w =>
  let hit s := str_eqb (ls_id s) sessionId && bool_decide (localTokenHash s = Some oldHash)
               && bool_decide (ls_revokedAt s = None) && after (absoluteExpiresAt s) (time w) in
  Ok (List.length (List.filter hit (localSessions w)),
      set_local_sessions (map (fun s =>
        if hit s then
          {| ls_id := ls_id s; ls_appUserId := ls_appUserId s; localTokenHash := Some nextHash;
             previousLocalTokenHash := localTokenHash s;
             previousTokenValidUntil := Some (time w + 5000);
             idleExpiresAt := idleExpiresAt s; absoluteExpiresAt := absoluteExpiresAt s;
             onboardingOnly := onboardingOnly s; ls_revokedAt := ls_revokedAt s;
             ls_lastSeenAt := ls_lastSeenAt s; refreshedAt := Some (time w);
             ls_createdAt := ls_createdAt s |}
        else s) (localSessions w)) w).

Definition refresh (token : str) : prog World SessionResult :=
  await secret := of_result (requireSecret session) in
  await principal :=
    catch (authenticateSession token true)
      (fun error =>
         await _ := match validSessionFamilyId secret token with
                    | Some familyId => call (revokeSessionById familyId)
                    | None => Ret tt
                    end in
         Throw error) in
  await n := draw in
  let nextToken := createSessionToken secret (p_sessionId principal) (randomBytes n) in
  let oldHash := tokenHash session token secret in
  let nextHash := tokenHash session nextToken secret in
  await changed := call (rotate_token (p_sessionId principal) oldHash nextHash) in
  if negb (Nat.eqb changed 1) then Throw (authError REFRESH_RACE_RETRY)
  else Ret (session_result nextToken principal).

Definition logout (token : option str) : prog World unit :=
  match token with
  | Some ((_ :: _) as token) =>
      await secret := of_result (requireSecret session) in
      match validSessionFamilyId secret token with
      | Some familyId => call (revokeSessionById familyId)
      | None =>
          let h := tokenHash session token secret in
          call (revoke_where (fun w s =>
            bool_decide (localTokenHash s = Some h)
            || bool_decide (previousLocalTokenHash s = Some h) && after (previousTokenValidUntil s) (time w)))
      end
  | _ => Ret tt
  end.

Definition hasActiveBrowserSession (token : option str) : prog World bool :=
  match token with
  | Some ((_ :: _) as token) =>
      catch (await _ := authenticateSession token true in Ret true) (fun _ => Ret false)
  | _ => Ret false
  end.
(** ** Login *)

(** [verifyCredential] with the limiter: its checks come first. *)
Definition limiter_place : TX World unit := fun w =>
  if scryptBusy w then Throws (authError RATE_LIMITED) else Ok (tt, w).

Definition verify_password (password : str) (credential : StoredLocalCredential) : prog World bool :=
  await _ := of_result (boundedPolicy credential) in
  await _ := call limiter_place in
  of_result (verifyCredential scrypt password credential).

Definition safeUsername (value : str) : option str :=
  match normalizeUsername value with Ok n => Some n | Throws _ => None end.

Definition find_with_credential (name : str) : TX World (option (LocalUser * option CredentialRow)) :=
  tx! user := byNormalizedUsername name in
  tx_get (fun w => u ← user; Some (u, localCredentials w !! u_id (account u))).

Definition login_transaction (id : str) (currentCredential : StoredLocalCredential)
  : TX World (str * str) :=
  tx! locked := findAccount id in
  tx! credential := tx_get (fun w => localCredentials w !! id) in
  if match locked with
     | Some u => negb (isActive (account u)) || negb (bool_decide (inviteStatus (account u) = ACTIVE))
     | None => true
     end
     || negb (bool_decide (stored <$> credential = Some currentCredential))
  then tx_throw (authError INVALID_CREDENTIALS)
  else
    tx! issued := issueSession id false in
    tx! t := tx_time in
    tx! _ := update_account id [SetLastLoginAt (Some t)] in
    tx! _ := writeAudit (authentication_audit id "LOCAL_LOGIN_SUCCEEDED") in
    tx_ret issued.

Definition login (name password : str) : prog World SessionResult :=
  await found :=
    match safeUsername name with
    | Some normalized => call (find_with_credential normalized)
    | None => Ret None
    end in
  let userCredential := stored <$> (found ≫= snd) in
  await verified :=
    catch (verify_password password (userCredential ?? dummyCredential))
      (fun _ =>
         match userCredential with
         | None => Throw (authError INVALID_CREDENTIALS)
         | Some _ =>
             await _ := catch (verify_password password dummyCredential) (fun _ => Ret false) in
             Ret false
         end) in
  match found, userCredential with
  | Some (user, _), Some currentCredential =>
      if negb verified || negb (isActive (account user))
         || negb (bool_decide (inviteStatus (account user) = ACTIVE))
      then
        await _ := recordAnonymous "LOCAL_LOGIN_FAILED" FAILURE in
        Throw (authError INVALID_CREDENTIALS)
      else
        await issued := call (login_transaction (u_id (account user)) currentCredential) in
        Ret (session_result issued.1 (toPrincipal user issued.2))
  | _, _ =>
      await _ := recordAnonymous "LOCAL_LOGIN_FAILED" FAILURE in
      Throw (authError INVALID_CREDENTIALS)
  end.

(** ** Setup tokens *)

Definition acceptable (h : str) (w : World) (t : SetupToken) : bool :=
  str_eqb (tokenHash_ t) h && negb (token_spent t) && (time w <? st_expiresAt t)
  && match accounts w !! st_appUserId t with
     | Some u => isActive (account u)
                 && (bool_decide (inviteStatus (account u) = INVITED)
                     || bool_decide (inviteStatus (account u) = VERIFIED_PENDING_PASSWORD))
     | None => false
     end.

Definition spend_setup_token (h : str) : TX World unit :=
  update_rows setupTokens set_setup_tokens
    (fun _ t => str_eqb (tokenHash_ t) h && negb (token_spent t))
    (fun w t => {| st_id := st_id t; st_appUserId := st_appUserId t; tokenHash_ := tokenHash_ t;
                   st_expiresAt := st_expiresAt t; usedAt := Some (time w);
                   st_revokedAt := st_revokedAt t; createdBy := createdBy t;
                   st_createdAt := st_createdAt t |}).

Definition accept_setup_transaction (h : str) : TX World SessionResult :=
  tx! row := tx_get (fun w => List.find (acceptable h w) (setupTokens w)) in
  match row with
  | None => tx_throw (authError INVALID_CREDENTIALS)
  | Some t =>
      tx! _ := spend_setup_token h in
      tx! user := update_account (st_appUserId t) [SetStatus VERIFIED_PENDING_PASSWORD] in
      tx! issued := issueSession (u_id (account user)) true in
      tx! _ := writeAudit (authentication_audit (u_id (account user)) "LOCAL_SETUP_ACCEPTED") in
      tx_ret (session_result issued.1 (toPrincipal user issued.2))
  end.

Definition acceptSetupToken (token : str) : prog World SessionResult :=
  await h := of_result (hashSetupToken token) in
  call (accept_setup_transaction h).

(** The session that may set the initial password of its account. *)
Definition onboarding_session (principal : AuthenticatedUser) (w : World) (s : LocalSession) : bool :=
  str_eqb (ls_id s) (p_sessionId principal) && str_eqb (ls_appUserId s) (p_id principal)
  && onboardingOnly s && bool_decide (ls_revokedAt s = None) && after (idleExpiresAt s) (time w)
  && after (absoluteExpiresAt s) (time w)
  && match accounts w !! ls_appUserId s with
     | Some u => isActive (account u)
                 && bool_decide (inviteStatus (account u) = VERIFIED_PENDING_PASSWORD)
     | None => false
     end.

Definition upsert_credential (id : str) (credential : StoredLocalCredential) : TX World unit := fun w =>
  Ok (tt, set_credentials
    (<[id := {| stored := credential; passwordChangedAt := time w |}]> (localCredentials w)) w).

Definition complete_transaction (principal : AuthenticatedUser) (credential : StoredLocalCredential)
  : TX World (LocalUser * (str * str)) :=
  tx! locked := tx_get (fun w => existsb (onboarding_session principal w) (localSessions w)) in
  if negb locked then tx_throw (authError SESSION_INVALID)
  else
    let id := p_id principal in
    tx! _ := upsert_credential id credential in
    tx! updated := update_account id [SetStatus ACTIVE; IncrementVersion] in
    tx! _ := revoke_account_sessions id in
    tx! issued := issueSession id false in
    tx! _ := writeAudit (authentication_audit id "LOCAL_PASSWORD_SET") in
    tx_ret (updated, issued).

Definition completeInitialPassword (principal : AuthenticatedUser) (password : str)
  : prog World SessionResult :=
  await _ := of_result (validateNewPassword password) in
  await n := draw in
  await _ := call limiter_place in
  await credential := of_result (createCredential scrypt password (randomBytes n)) in
  await completed := call (complete_transaction principal credential) in
  Ret (session_result completed.2.1 (toPrincipal completed.1 completed.2.2)).

(** ** The administration of accounts *)

(** [createSetupToken]. *)
Definition createSetupToken (appUserId token actor : str) : TX World unit :=
  tx! i := tx_draw in
  tx! h := tx_lift (hashSetupToken token) in
  fun w =>
    if existsb (fun t => str_eqb (tokenHash_ t) h) (setupTokens w) then Throws P2010
    else
      Ok (tt, set_setup_tokens (setupTokens w ++
        [{| st_id := uuid i; st_appUserId := appUserId; tokenHash_ := h;
            st_expiresAt := time w + localSetupTokenTtlMs config; usedAt := None;
            st_revokedAt := None; createdBy := Some actor; st_createdAt := time w |}]) w).

Definition local_users (w : World) : list LocalUser :=
  js_sort (fun u v => cmp_or (createdAt (account v) - createdAt (account u))
                             (str_cmp (u_id (account v)) (u_id (account u))))
    (List.filter (fun u => bool_decide (is_Some (normalizedUsername u)))
       (map snd (map_to_list (accounts w)))).

Definition summaryAudit (u : LocalUser) : json :=
  JObj [(js "id", JStr (u_id (account u))); (js "role", JStr (role_name (u_role (account u))));
        (js "isActive", JBool (isActive (account u)));
        (js "inviteStatus", JStr (status_name (inviteStatus (account u))))].

Definition account_audit (actor : str) (act : string) (target : str) (before after_ : option json)
    (request : option str) : SecurityAuditWrite :=
  {| actorUserId := Some actor; actorType := SecurityAudit.USER; action := js act;
     targetType := js "APP_USER"; targetId := Some target; auditResult := SUCCESS;
     beforeJson := before; afterJson := after_; requestId := request |}.

Record LocalInvite := { li_username : option str; li_name : str; li_role : AppRole }.

Definition invite_transaction (name display : str) (role : AppRole) (actor request token : str)
  : TX World LocalUser :=
  tx! byRequest := byRequestId request in
  match byRequest with
  | Some u =>
      if negb (bool_decide (username u = Some name)) || negb (str_eqb (u_name (account u)) display)
         || negb (bool_decide (u_role (account u) = role))
      then tx_throw (userLifecycleError IDEMPOTENCY_KEY_CONFLICT)
      else if negb (isActive (account u)) || negb (bool_decide (inviteStatus (account u) = INVITED))
      then tx_throw (userLifecycleError IDEMPOTENCY_KEY_CONFLICT)
      else tx_throw (userLifecycleError IDEMPOTENCY_REPLAY)
  | None =>
      tx! taken := byNormalizedUsername name in
      if is_Some_b taken then tx_throw (userLifecycleError USERNAME_EXISTS)
      else
        tx! i := tx_draw in
        tx! t := tx_time in
        tx! created := create_account
          {| account :=
               {| u_id := uuid i; u_email := None; normalizedEmail := None; u_name := display;
                  u_role := role; inviteStatus := INVITED; authUserId := None; isActive := true;
                  lastLoginAt := None; deactivatedAt := None; authzVersion := 1;
                  invitedAt := Some t; invitedBy := Some actor; invitationRequestId := Some request;
                  invitationErrorCode := None; createdAt := t; updatedAt := t |};
             username := Some name; normalizedUsername := Some name |} in
        tx! _ := createSetupToken (u_id (account created)) token actor in
        tx! _ := writeAudit (account_audit actor "LOCAL_USER_CREATED" (u_id (account created)) None
                   (Some (JObj [(js "id", JStr (u_id (account created))); (js "role", JStr (role_name role));
                                (js "isActive", JBool true); (js "inviteStatus", JStr (js "INVITED"))]))
                   (Some request)) in
        tx_ret created
  end.

Definition is_P2002 (e : js_error) : bool := starts_with (js "P2002:") (err_code e).

Definition invite (body : LocalInvite) (actor : str) (suppliedRequestId : option str)
  : prog World (LocalUser * str) :=
  match li_username body with
  | None | Some [] => Throw (userLifecycleError USERNAME_INVALID)
  | Some name =>
      match normalizeUsername name with
      | Throws _ => Throw (userLifecycleError USERNAME_INVALID)
      | Ok name =>
          let display := trim (li_name body) in
          await request :=
            match suppliedRequestId with
            | Some s => if truthy (trim s) then Ret (trim s) else await i := draw in Ret (uuid i)
            | None => await i := draw in Ret (uuid i)
            end in
          if negb (isUuid request) then Throw (userLifecycleError IDEMPOTENCY_KEY_INVALID)
          else
            await n := draw in
            let token := Base64url.encode (randomBytes n) in
            catch
              (await user := call (invite_transaction name display (li_role body) actor request token) in
               Ret (user, token))
              (fun error => Throw (if is_P2002 error then userLifecycleError IDEMPOTENCY_KEY_CONFLICT
                                   else error))
      end
  end.

Definition is_local_super_admin (u : LocalUser) : bool :=
  bool_decide (is_Some (normalizedUsername u)) && bool_decide (u_role (account u) = SUPER_ADMIN)
  && isActive (account u) && bool_decide (inviteStatus (account u) = ACTIVE).

Definition count_accounts (p : LocalUser -> bool) (w : World) : Z :=
  Z.of_nat (List.length (List.filter p (map snd (map_to_list (accounts w))))).

(** [body.isActive === false || (body.role && body.role !== SUPER_ADMIN)]. *)
Definition gives_up_super_admin (body : UpdateUserDto) : bool :=
  bool_decide (new_isActive body = Some false)
  || match new_role body with Some r => negb (bool_decide (r = SUPER_ADMIN)) | None => false end.

Definition update_transaction (id : str) (body : UpdateUserDto) (actor : str) : TX World LocalUser :=
  tx! before := findAccount id in
  match before with
  | None => tx_throw (userLifecycleError USER_NOT_FOUND)
  | Some before =>
      if negb (truthy_opt (username before)) then tx_throw (userLifecycleError USER_NOT_FOUND)
      else if str_eqb id actor && gives_up_super_admin body
      then tx_throw (userLifecycleError SELF_LOCKOUT)
      else
        tx! admins := tx_get (count_accounts is_local_super_admin) in
        if bool_decide (u_role (account before) = SUPER_ADMIN) && isActive (account before)
           && bool_decide (inviteStatus (account before) = ACTIVE) && gives_up_super_admin body
           && (admins <=? 1)
        then tx_throw (userLifecycleError LAST_ACTIVE_SUPER_ADMIN)
        else
          tx! t := tx_time in
          tx! changed := update_account id
            (opt_write SetName (trim <$> new_name body) ++ opt_write SetRole (new_role body)
             ++ match new_isActive body with
                | Some b => [SetIsActive b; SetDeactivatedAt (if b then None else Some t)]
                | None => []
                end
             ++ [IncrementVersion]) in
          tx! _ := (match new_role body, new_isActive body with
                    | None, None => tx_ret tt
                    | _, _ => revoke_account_sessions id
                    end) in
          tx! _ := (if bool_decide (new_isActive body = Some false) then revoke_setup_tokens id
                    else tx_ret tt) in
          tx! _ := writeAudit (account_audit actor "LOCAL_USER_UPDATED" id (Some (summaryAudit before))
                     (Some (summaryAudit changed)) None) in
          tx_ret changed
  end.

Definition update (id : str) (body : UpdateUserDto) (actor : str) : prog World LocalUser :=
  match new_name body, new_role body, new_isActive body with
  | None, None, None => Throw (userLifecycleError USER_UPDATE_EMPTY)
  | _, _, _ => call (update_transaction id body actor)
  end.

Definition reset_transaction (id actor token : str) : TX World LocalUser :=
  tx! current := findAccount id in
  match current with
  | None => tx_throw (userLifecycleError USER_NOT_FOUND)
  | Some current =>
      if negb (truthy_opt (username current)) then tx_throw (userLifecycleError USER_NOT_FOUND)
      else if negb (isActive (account current)) then tx_throw (userLifecycleError INVALID_USER_TRANSITION)
      else
        tx! admins := tx_get (count_accounts is_local_super_admin) in
        if bool_decide (u_role (account current) = SUPER_ADMIN)
           && bool_decide (inviteStatus (account current) = ACTIVE) && (admins <=? 1)
        then tx_throw (userLifecycleError LAST_ACTIVE_SUPER_ADMIN)
        else
          tx! _ := revoke_setup_tokens id in
          tx! _ := revoke_account_sessions id in
          tx! _ := createSetupToken id token actor in
          tx! changed := update_account id [SetStatus INVITED; IncrementVersion] in
          tx! _ := writeAudit (account_audit actor "LOCAL_PASSWORD_RESET_REQUESTED" id
                     (Some (summaryAudit current)) (Some (summaryAudit changed)) None) in
          tx_ret changed
  end.

Definition resetPassword (id actor : str) : prog World (LocalUser * str) :=
  if str_eqb id actor then Throw (userLifecycleError SELF_LOCKOUT)
  else
    await n := draw in
    let token := Base64url.encode (randomBytes n) in
    await user := call (reset_transaction id actor token) in
    Ret (user, token).
End service.
