(* ===== verification/LocalSafety.v ===== *)
(** * What every action on local accounts keeps

    [later] is what all transactions of [LocalAccounts] respect: sessions and
    setup tokens stay, a revoked session and a spent token stay so, accounts
    keep their names, their authorization version tells changes apart.  It is a
    preorder, so it is proved of the operations on the tables once and holds of
    the transactions by composition ([moves]).  What an account loses or gains
    with its last super administrator and its audit record is proved of each
    transaction. *)

From S2P Require Import Prelude JsNumber JsString.
From S2P Require Import SecurityAudit.
From S2P Require Import Concurrency.
From S2P Require Import Transactions.
From S2P Require Import Access.
From S2P Require Import Users.
From S2P Require Import UsersSafety.
From S2P Require Import Auth.
From S2P Require Import LocalCredentials.
From S2P Require Import LocalAccounts.

Local Open Scope Z_scope.

Create HintDb local.

(** ** The invariant and the steps *)

Record linvariant (w : World) : Prop := {
  linv_keys i u : accounts w !! i = Some u -> u_id (account u) = i;
  linv_names i j u v x : accounts w !! i = Some u -> accounts w !! j = Some v ->
    normalizedUsername u = Some x -> normalizedUsername v = Some x -> i = j;
  linv_sessions : NoDup (map ls_id (localSessions w));
  linv_tokens : NoDup (map tokenHash_ (setupTokens w))
}.

Record session_later (s s' : LocalSession) : Prop := {
  sl_id : ls_id s' = ls_id s;
  sl_owner : ls_appUserId s' = ls_appUserId s;
  sl_onboarding : onboardingOnly s' = onboardingOnly s;
  sl_absolute : absoluteExpiresAt s' = absoluteExpiresAt s;
  sl_revoked : is_Some (ls_revokedAt s) -> is_Some (ls_revokedAt s')
}.

Record token_later (t t' : SetupToken) : Prop := {
  tl_hash : tokenHash_ t' = tokenHash_ t;
  tl_owner : st_appUserId t' = st_appUserId t;
  tl_expiry : st_expiresAt t' = st_expiresAt t;
  tl_spent : token_spent t = true -> token_spent t' = true
}.

Record account_later (u u' : LocalUser) : Prop := {
  al_id : u_id (account u') = u_id (account u);
  al_username : username u' = username u;
  al_name : normalizedUsername u' = normalizedUsername u;
  al_version : authzVersion (account u) <= authzVersion (account u');
  al_changed : (u_role (account u), isActive (account u)) <> (u_role (account u'), isActive (account u')) ->
    authzVersion (account u) < authzVersion (account u')
}.

Record later (w w' : World) : Prop := {
  l_inv : linvariant w -> linvariant w';
  l_sessions s : s ∈ localSessions w -> exists s', s' ∈ localSessions w' /\ session_later s s';
  l_tokens t : t ∈ setupTokens w -> exists t', t' ∈ setupTokens w' /\ token_later t t';
  l_accounts i u : accounts w !! i = Some u -> exists u', accounts w' !! i = Some u' /\ account_later u u';
  l_time : time w <= time w'
}.

#[export] Instance session_later_preorder : PreOrder session_later.
Proof. split; [done|]. intros a b c [] []. split; try congruence. auto. Qed.

#[export] Instance token_later_preorder : PreOrder token_later.
Proof. split; [done|]. intros a b c [] []. split; try congruence. auto. Qed.

#[export] Instance account_later_preorder : PreOrder account_later.
Proof.
  split; [done|]. intros a b c [] []. split; try congruence; [lia|]. intros N.
  destruct (decide ((u_role (account a), isActive (account a)) = (u_role (account b), isActive (account b)))) as [E|D].
  - rewrite E in N. specialize (al_changed1 N). lia.
  - specialize (al_changed0 D). lia.
Qed.

#[export] Instance later_preorder : PreOrder later.
Proof.
  split.
  - intros w. split; [done|..|lia].
    + intros s Hs. by exists s.
    + intros t Ht. by exists t.
    + intros i u Hu. by exists u.
  - intros w1 w2 w3 L1 L2. split.
    + intros I. apply L2, L1, I.
    + intros s Hs. destruct (l_sessions _ _ L1 s Hs) as (s2 & H2 & S2).
      destruct (l_sessions _ _ L2 s2 H2) as (s3 & H3 & S3). exists s3. split; [done|by transitivity s2].
    + intros s Hs. destruct (l_tokens _ _ L1 s Hs) as (s2 & H2 & S2).
      destruct (l_tokens _ _ L2 s2 H2) as (s3 & H3 & S3). exists s3. split; [done|by transitivity s2].
    + intros i u Hu. destruct (l_accounts _ _ L1 i u Hu) as (u2 & H2 & S2).
      destruct (l_accounts _ _ L2 i u2 H2) as (u3 & H3 & S3). exists u3. split; [done|by transitivity u2].
    + pose proof (l_time _ _ L1). pose proof (l_time _ _ L2). lia.
Qed.

(** ** Operations on the tables *)

Lemma NoDup_map_eq {A B} (f : A -> B) l x y :
  NoDup (map f l) -> x ∈ l -> y ∈ l -> f x = f y -> x = y.
Proof.
  induction l as [|z l IH]; [by intros _ ?%not_elem_of_nil|]. simpl.
  intros [N D]%NoDup_cons [->|Hx]%elem_of_cons [->|Hy]%elem_of_cons E; auto; exfalso; apply N.
  - rewrite E. apply list_elem_of_fmap. eauto.
  - rewrite <- E. apply list_elem_of_fmap. eauto.
Qed.

Definition moves {A} (f : TX World A) : Prop := forall w r w', f w = Ok (r, w') -> later w w'.

Lemma moves_ret {A} (a : A) : moves (tx_ret a).
Proof. intros w r w' [= <- <-]. reflexivity. Qed.

Lemma moves_throw {A} e : moves (A := A) (tx_throw e).
Proof. done. Qed.

Lemma moves_get {A} (f : World -> A) : moves (tx_get f).
Proof. intros w r w' [= <- <-]. reflexivity. Qed.

Lemma moves_lift {A} (x : result A) : moves (tx_lift x).
Proof. intros w r w'. unfold tx_lift. destruct x; simpl; [|done]. intros [= <- <-]. reflexivity. Qed.

Lemma moves_bind {A B} (m : TX World A) (f : A -> TX World B) :
  moves m -> (forall a, moves (f a)) -> moves (tx_bind m f).
Proof.
  intros M F w r w' (a & w1 & E & E')%tx_bind_inv. transitivity w1; [by eapply M|by eapply F].
Qed.

(** A change of other parts of the world. *)
Lemma later_same w w' : accounts w' = accounts w -> localSessions w' = localSessions w ->
  setupTokens w' = setupTokens w -> time w' = time w -> later w w'.
Proof.
  intros A S T C. split; rewrite ?A, ?S, ?T, ?C; [|eauto..|lia].
  - intros [] . split; rewrite ?A, ?S, ?T; auto.
  - intros s Hs. exists s. split; [done|reflexivity].
  - intros s Hs. exists s. split; [done|reflexivity].
  - intros i u Hu. exists u. split; [done|reflexivity].
Qed.

Lemma moves_draw : moves tx_draw.
Proof. intros w r w' [= <- <-]. by apply later_same. Qed.

Lemma moves_audit `{Icu} e : moves (writeAudit e).
Proof.
  intros w r w'. unfold writeAudit. destruct (securityAuditData e); simpl; [|done].
  case_match; [|done]. intros [= <- <-]. by apply later_same.
Qed.

Lemma moves_upsert i c : moves (upsert_credential i c).
Proof. intros w r w' [= <- <-]. by apply later_same. Qed.

Lemma moves_limiter : moves limiter_place.
Proof. intros w r w'. unfold limiter_place. case_match; [done|]. intros [= <- <-]. reflexivity. Qed.

(** Sessions that are changed one by one. *)
Lemma later_sessions f w :
  (forall s, session_later s (f s)) -> later w (set_local_sessions (map f (localSessions w)) w).
Proof.
  intros F. split; simpl; [| | | |lia].
  - intros []. split; simpl; auto. rewrite map_map.
    erewrite map_ext; [exact linv_sessions0|]. intros s. apply F.
  - intros s Hs. exists (f s). split; [|apply F]. apply list_elem_of_fmap. eauto.
  - intros t Ht. exists t. split; [done|reflexivity].
  - intros i u Hu. exists u. split; [done|reflexivity].
Qed.

Lemma later_tokens f w :
  (forall t, token_later t (f t)) -> later w (set_setup_tokens (map f (setupTokens w)) w).
Proof.
  intros F. split; simpl; [| | | |lia].
  - intros []. split; simpl; auto. rewrite map_map.
    erewrite map_ext; [exact linv_tokens0|]. intros s. apply F.
  - intros s Hs. exists s. split; [done|reflexivity].
  - intros s Hs. exists (f s). split; [|apply F]. apply list_elem_of_fmap. eauto.
  - intros i u Hu. exists u. split; [done|reflexivity].
Qed.

Lemma session_later_if (b : bool) f s : session_later s (f s) -> session_later s (if b then f s else s).
Proof. by destruct b. Qed.

Lemma moves_revoke p : moves (revoke_where p).
Proof.
  intros w r w' [= <- <-]. apply later_sessions. intros s. apply session_later_if. by split.
Qed.

Lemma moves_touch config h b : moves (touch config h b).
Proof.
  intros w r w' [= <- <-]. apply later_sessions. intros s. apply session_later_if. by split.
Qed.

Lemma moves_rotate i h h' : moves (rotate_token i h h').
Proof.
  intros w r w' [= <- <-]. apply later_sessions. intros s. case_match; [|reflexivity]. by split.
Qed.

Lemma moves_revoke_tokens i : moves (revoke_setup_tokens i).
Proof.
  intros w r w' [= <- <-]. apply later_tokens. intros t. case_match; [|reflexivity].
  split; try done. intros _. unfold token_spent. simpl. by rewrite orb_true_r.
Qed.

Lemma moves_spend h : moves (spend_setup_token h).
Proof.
  intros w r w' [= <- <-]. apply later_tokens. intros t. case_match; [|reflexivity]. by split.
Qed.

Lemma moves_issue `{Icu} config hmac uuid random i b : moves (issueSession config hmac uuid random i b).
Proof.
  unfold issueSession. apply moves_bind; [apply moves_draw|]. intros n. apply moves_bind; [apply moves_draw|].
  intros m. apply moves_bind; [apply moves_lift|]. intros secret w r w'. cbv beta zeta.
  destruct (existsb _ _) eqn:X; [done|]. intros [= <- <-]. rewrite existsb_false_iff in X.
  split; simpl; [| | | |lia].
  - intros []. split; simpl; auto. rewrite map_app. apply NoDup_app. split; [done|].
    split; [|apply NoDup_singleton]. simpl. intros x Hx ->%list_elem_of_singleton.
    apply list_elem_of_fmap in Hx as (s & E & Hs). specialize (X s Hs). bool_simpl.
    destruct X as [X _]. apply str_eqb_neq in X. congruence.
  - intros s Hs. exists s. split; [|reflexivity]. apply elem_of_app. by left.
  - intros s Hs. exists s. split; [done|reflexivity].
  - intros j u Hu. exists u. split; [done|reflexivity].
Qed.

Lemma moves_create_token `{Icu} config hmac uuid i token actor :
  moves (createSetupToken config hmac uuid i token actor).
Proof.
  unfold createSetupToken. apply moves_bind; [apply moves_draw|]. intros n.
  apply moves_bind; [apply moves_lift|]. intros h w r w'. cbv beta.
  destruct (existsb _ _) eqn:X; [done|]. intros [= <- <-]. rewrite existsb_false_iff in X.
  split; simpl; [| | | |lia].
  - intros []. split; simpl; auto. rewrite map_app. apply NoDup_app. split; [done|].
    split; [|apply NoDup_singleton]. simpl. intros x Hx ->%list_elem_of_singleton.
    apply list_elem_of_fmap in Hx as (s & E & Hs). specialize (X s Hs). apply str_eqb_neq in X. congruence.
  - intros s Hs. exists s. split; [done|reflexivity].
  - intros s Hs. exists s. split; [|reflexivity]. apply elem_of_app. by left.
  - intros j u Hu. exists u. split; [done|reflexivity].
Qed.

(** An account that is written. *)
Lemma moves_update_account id data :
  (forall u t, account_later u (write_account (data ++ [SetUpdatedAt t]) u)) -> moves (update_account id data).
Proof.
  intros D w r w'. unfold update_account. destruct (accounts w !! id) as [u|] eqn:Eu; [|done].
  intros [= <- <-]. specialize (D u (time w)). set (u' := write_account _ u) in *.
  assert (L : forall i v, accounts w !! i = Some v ->
            exists v', <[id := u']> (accounts w) !! i = Some v' /\ account_later v v').
  { intros i v Ev. destruct (decide (i = id)) as [->|N].
    - rewrite lookup_insert_eq. exists u'. split; [done|]. by simplify_eq.
    - rewrite lookup_insert_ne by done. by exists v. }
  assert (B : forall i v', <[id := u']> (accounts w) !! i = Some v' ->
            exists v, accounts w !! i = Some v /\ account_later v v').
  { intros i v'. destruct (decide (i = id)) as [->|N].
    - rewrite lookup_insert_eq. intros [= <-]. eauto.
    - rewrite lookup_insert_ne by done. by exists v'. }
  split; simpl; [|by intros s Hs; exists s|by intros t Ht; exists t|done|lia].
  - intros [K N S T]. split; simpl; auto.
    + intros i v' (v & Ev & [Ei _ _ _ _])%B. rewrite Ei. by apply K.
    + intros i j v' x' x (v & Ev & [_ _ Ev' _ _])%B (y & Ey & [_ _ Ey' _ _])%B. rewrite Ev', Ey'. by apply N.
Qed.

Lemma first_account_None p (w : World) :
  first_account p w = None <-> forall id u, accounts w !! id = Some u -> p u = false.
Proof.
  unfold first_account. rewrite find_none_iff. setoid_rewrite list_elem_of_fmap. split.
  - intros F id u E. apply F. exists (id, u). by rewrite elem_of_map_to_list.
  - intros F u ([id v] & -> & I%elem_of_map_to_list). by eapply F.
Qed.

Lemma moves_create_account u : moves (create_account u).
Proof.
  intros w r w'. unfold create_account. destruct (accounts w !! u_id (account u)) eqn:Eu; [done|].
  cbn [is_Some_b].
  match goal with |- context [List.find ?f ?l] => destruct (List.find f l) as [[name c]|] eqn:F end; [done|].
  case_match; [|done]. intros [= <- <-].
  rewrite find_none_iff in F.
  assert (X : forall i v x, accounts w !! i = Some v -> normalizedUsername u = Some x ->
            normalizedUsername v = Some x -> False).
  { intros i v x Ev Xu Xv. specialize (F (js "normalized_username", normalizedUsername)).
    assert (I : (js "normalized_username", normalizedUsername) ∈ local_columns).
    { unfold local_columns. apply list_elem_of_further, list_elem_of_here. }
    specialize (F I). simpl in F. unfold is_Some_b in F.
    destruct (first_account _ w) eqn:N; [done|]. rewrite first_account_None in N.
    specialize (N i v Ev). unfold same_column in N. rewrite Xu, Xv in N.
    rewrite !bool_decide_eq_true_2 in N by (done || by eexists). done. }
  assert (N : forall i v, accounts w !! i = Some v -> i <> u_id (account u)) by (intros i v Ev ->; congruence).
  split; simpl; [| | | |lia].
  - intros [K D S T]. split; simpl; auto.
    + intros i v. destruct (decide (i = u_id (account u))) as [->|Ne].
      * rewrite lookup_insert_eq. by intros [= <-].
      * rewrite lookup_insert_ne by done. apply K.
    + intros i j v v' x Hi Hj Ci Cj.
      apply lookup_insert_Some in Hi as [[<- <-]|[Ni Hi]], Hj as [[<- <-]|[Nj Hj]]; [done|..].
      * exfalso. by eapply (X j).
      * exfalso. by eapply (X i).
      * by eapply D.
  - intros s Hs. by exists s.
  - intros t Ht. by exists t.
  - intros i v Ev. exists v. split; [|done]. rewrite lookup_insert_ne; [done|]. intros E. by apply (N i v).
Qed.

#[export] Hint Resolve moves_ret moves_throw moves_get moves_lift moves_draw moves_audit moves_upsert
  moves_limiter moves_revoke moves_touch moves_rotate moves_revoke_tokens moves_spend moves_issue
  moves_create_token moves_create_account : local.

(** Data that keeps the role and the activity, or increments the version. *)
Ltac account_data :=
  intros ? ?; unfold write_account, apply_writes; split; simpl;
  try reflexivity; try lia; try (intros N; exfalso; apply N; reflexivity).

Ltac moves :=
  repeat first
    [ solve [auto with local]
    | apply moves_get
    | apply moves_revoke
    | apply moves_bind; [|intros ?]
    | apply moves_update_account; account_data
    | case_match ].

Section transactions.
Context `{IcuLaws} (config : AuthConfig) (hmac scrypt : str -> str -> list N) (uuid : nat -> str)
  (random : nat -> list N) (version_text : str -> Z -> str).

Lemma login_moves id c : moves (login_transaction config hmac uuid random id c).
Proof. unfold login_transaction. moves. Qed.

Lemma accept_moves h : moves (accept_setup_transaction config hmac uuid random version_text h).
Proof. unfold accept_setup_transaction. moves. Qed.

Lemma complete_moves p c : moves (complete_transaction config hmac uuid random p c).
Proof. unfold complete_transaction. moves. Qed.

Lemma invite_moves n d r a q t : moves (invite_transaction config hmac uuid n d r a q t).
Proof. unfold invite_transaction. moves. Qed.

Lemma reset_moves i a t : moves (reset_transaction config hmac uuid i a t).
Proof. unfold reset_transaction. moves. Qed.

Lemma update_moves i b a : moves (update_transaction i b a).
Proof.
  unfold update_transaction. destruct b as [[] [] [[]|]]; moves.
Qed.
End transactions.

(** ** The last super administrator, and the record of changes *)

Definition has_local_super_admin (w : World) : Prop :=
  exists i u, accounts w !! i = Some u /\ is_local_super_admin u = true.

Definition audited (w w' : World) : Prop :=
  exists new, auditLog w' = auditLog w ++ new /\
    forall i u', accounts w' !! i = Some u' ->
      (fun u => standing (account u)) <$> accounts w !! i <> Some (standing (account u')) ->
      exists e, e ∈ new /\ targetId e = Some i.

Record lguarantee (w w' : World) : Prop := {
  lg_later : later w w';
  lg_super_admin : has_local_super_admin w -> has_local_super_admin w';
  lg_audited : audited w w'
}.

(** Operations that leave the accounts and their record alone. *)
Definition quiet (w w' : World) : Prop :=
  accounts w' = accounts w /\ auditLog w' = auditLog w /\ time w' = time w.

#[export] Instance quiet_preorder : PreOrder quiet.
Proof. split; [done|]. intros a b c (?&?&?) (?&?&?). repeat split; congruence. Qed.

Definition is_quiet {A} (f : TX World A) : Prop := forall w r w', f w = Ok (r, w') -> quiet w w'.

Lemma quiet_bind {A B} (m : TX World A) (f : A -> TX World B) :
  is_quiet m -> (forall a, is_quiet (f a)) -> is_quiet (tx_bind m f).
Proof. intros M F w r w' (a & w1 & E & E')%tx_bind_inv. transitivity w1; [by eapply M|by eapply F]. Qed.

Lemma quiet_ret {A} (a : A) : is_quiet (tx_ret a).
Proof. by intros w r w' [= <- <-]. Qed.

Lemma quiet_get {A} (f : World -> A) : is_quiet (tx_get f).
Proof. by intros w r w' [= <- <-]. Qed.

Lemma quiet_lift {A} (x : result A) : is_quiet (tx_lift x).
Proof. intros w r w'. unfold tx_lift. destruct x; simpl; [|done]. by intros [= <- <-]. Qed.

Lemma quiet_draw : is_quiet tx_draw.
Proof. by intros w r w' [= <- <-]. Qed.

Lemma quiet_revoke p : is_quiet (revoke_where p).
Proof. by intros w r w' [= <- <-]. Qed.

Lemma quiet_revoke_account i : is_quiet (revoke_account_sessions i).
Proof. apply quiet_revoke. Qed.

Lemma quiet_revoke_tokens i : is_quiet (revoke_setup_tokens i).
Proof. by intros w r w' [= <- <-]. Qed.

Lemma quiet_upsert i c : is_quiet (upsert_credential i c).
Proof. by intros w r w' [= <- <-]. Qed.

Lemma quiet_spend h : is_quiet (spend_setup_token h).
Proof. by intros w r w' [= <- <-]. Qed.

Lemma quiet_issue `{Icu} config hmac uuid random i b : is_quiet (issueSession config hmac uuid random i b).
Proof.
  unfold issueSession. apply quiet_bind; [apply quiet_draw|]. intros n. apply quiet_bind; [apply quiet_draw|].
  intros m. apply quiet_bind; [apply quiet_lift|]. intros secret w r w'. cbv beta zeta.
  case_match; [done|]. by intros [= <- <-].
Qed.

Lemma quiet_create_token `{Icu} config hmac uuid i token actor :
  is_quiet (createSetupToken config hmac uuid i token actor).
Proof.
  unfold createSetupToken. apply quiet_bind; [apply quiet_draw|]. intros n.
  apply quiet_bind; [apply quiet_lift|]. intros h w r w'. cbv beta. case_match; [done|]. by intros [= <- <-].
Qed.

Lemma quiet_if {A} (b : bool) (f g : TX World A) : is_quiet f -> is_quiet g -> is_quiet (if b then f else g).
Proof. by destruct b. Qed.

#[export] Hint Resolve quiet_ret quiet_get quiet_lift quiet_draw quiet_revoke quiet_revoke_account
  quiet_revoke_tokens quiet_upsert quiet_spend quiet_issue quiet_create_token quiet_if : local.

Lemma quiet_use {A} (f : TX World A) w r w' : is_quiet f -> f w = Ok (r, w') -> quiet w w'.
Proof. intros Q. apply Q. Qed.

(** Turn the quiet steps of a transaction into equations. *)
Ltac quiet_steps :=
  repeat match goal with
  | H : ?f ?w = Ok (_, ?w') |- _ =>
      let Q := fresh "Quiet" in
      assert (Q : quiet w w') by (apply (quiet_use f w _ w') in H; [exact H|solve [auto with local]]);
      clear H
  end.

Ltac quiet_chain :=
  repeat match goal with Q : quiet ?a ?b |- quiet ?a ?c => transitivity b; [exact Q|clear Q] end;
  try reflexivity.

Lemma writeAudit_inv `{Icu} e w x w' : writeAudit e w = Ok (x, w') -> w' = add_event e w.
Proof.
  unfold writeAudit. destruct (securityAuditData e) as [d|] eqn:D; simpl; [|done].
  apply securityAuditData_Ok in D as ->. intros F. by repeat case_match; simplify_eq.
Qed.

Lemma update_account_inv i data w u w' : update_account i data w = Ok (u, w') ->
  exists old, accounts w !! i = Some old /\ u = write_account (data ++ [SetUpdatedAt (time w)]) old
    /\ w' = set_accounts (<[i := u]> (accounts w)) w.
Proof. unfold update_account. destruct (accounts w !! i) as [old|]; [|done]. intros [= <- <-]. eauto. Qed.

(** A transaction that changes one account and records it. *)
Lemma one_account `{Icu} w w1 w2 w3 w4 i data u e x :
  quiet w w1 -> update_account i data w1 = Ok (u, w2) -> quiet w2 w3 -> writeAudit e w3 = Ok (x, w4) ->
  targetId e = Some i ->
  (forall old, accounts w !! i = Some old -> is_local_super_admin old = true ->
     is_local_super_admin u = true
     \/ exists j v, j <> i /\ accounts w !! j = Some v /\ is_local_super_admin v = true) ->
  (has_local_super_admin w -> has_local_super_admin w4) /\ audited w w4.
Proof.
  intros (A1 & L1 & _) (old & Eo & Eu & ->)%update_account_inv (A3 & L3 & _) ->%writeAudit_inv T S.
  simpl in *. rewrite A1 in *. split.
  - intros (j & v & Ej & Sv). unfold has_local_super_admin. simpl. rewrite A3.
    destruct (decide (j = i)) as [->|N].
    + rewrite Ej in Eo. injection Eo as ->. destruct (S old Ej Sv) as [Su|(k & y & N & Ek & Sy)].
      * exists i, u. by rewrite lookup_insert_eq.
      * exists k, y. by rewrite lookup_insert_ne.
    + exists j, v. by rewrite lookup_insert_ne.
  - exists [e]. simpl. rewrite L3, L1. split; [done|]. intros j u'. rewrite A3.
    destruct (decide (j = i)) as [->|N]; [intros _ _; exists e; split; [apply list_elem_of_here|done]|].
    rewrite lookup_insert_ne by done. intros Ej C. by rewrite Ej in C.
Qed.

(** An operation that changes no account. *)
Lemma quiet_guarantee w w' : later w w' -> quiet w w' -> lguarantee w w'.
Proof.
  intros L (A & G & _). split; [done|unfold has_local_super_admin; by rewrite A|].
  exists []. rewrite app_nil_r. split; [done|]. intros i u' Eu C. rewrite A in Eu. by rewrite Eu in C.
Qed.

Lemma counted_super_admins (w : World) i : 1 < count_accounts is_local_super_admin w ->
  exists j v, j <> i /\ accounts w !! j = Some v /\ is_local_super_admin v = true.
Proof. unfold count_accounts. intros C. apply two_values. lia. Qed.

(** A transaction that only adds sessions and tokens, or changes them. *)
Definition ok {A} (f : TX World A) : Prop :=
  forall w r w', linvariant w -> f w = Ok (r, w') -> lguarantee w w'.

Lemma quiet_ok {A} (f : TX World A) : moves f -> is_quiet f -> ok f.
Proof. intros M Q w r w' _ E. apply quiet_guarantee; [by eapply M|by eapply Q]. Qed.

Section guarantees.
Context `{IcuLaws} (config : AuthConfig) (hmac scrypt : str -> str -> list N) (uuid : nat -> str)
  (random : nat -> list N) (version_text : str -> Z -> str).

Lemma written_id w i data t old u : linvariant w -> accounts w !! i = Some old ->
  u = write_account (data ++ [SetUpdatedAt t]) old -> u_id (account u) = i.
Proof. intros I E ->. unfold write_account. cbn [account]. rewrite apply_writes_id. by apply (linv_keys w I). Qed.

(** The transaction changed one account, in between quiet steps. *)
Ltac one_account :=
  match goal with
  | L : later ?w ?w', U : update_account ?i _ ?w1 = Ok (_, ?w2), A : writeAudit _ ?w3 = Ok (_, ?w') |- _ =>
      let Q1 := fresh in let Q2 := fresh in
      assert (Q1 : quiet w w1) by quiet_chain; assert (Q2 : quiet w2 w3) by quiet_chain;
      pose proof U as Inv; apply update_account_inv in Inv as (old & Old & New & _);
      try rewrite (proj1 Q1) in Old; pose proof (written_id _ _ _ _ _ _ ltac:(eassumption) Old New) as Id;
      refine (let G := one_account w w1 w2 w3 w' i _ _ _ _ Q1 U Q2 A _ _ in
              Build_lguarantee _ _ L (proj1 G) (proj2 G)); [|intros ? E S; rewrite Old in E; injection E as <-]
  end.

Lemma local_login_ok id c : ok (login_transaction config hmac uuid random id c).
Proof.
  intros w r w' I F. pose proof (login_moves config hmac uuid random id c w r w' F) as L.
  unfold login_transaction, findAccount, tx_time in F. tx_inv. quiet_steps. one_account; [done|].
  left. by subst a1.
Qed.

Lemma local_accept_ok h : ok (accept_setup_transaction config hmac uuid random version_text h).
Proof.
  intros w r w' I F. pose proof (accept_moves config hmac uuid random version_text h w r w' F) as L.
  unfold accept_setup_transaction in F. tx_inv. quiet_steps.
  match goal with Fd : List.find _ _ = Some ?t |- _ => apply find_some in Fd as [_ Fd] end.
  one_account.
  - by rewrite <- Id.
  - exfalso. unfold acceptable in Heqo. rewrite Old in Heqo. unfold is_local_super_admin in S.
    bool_simpl. rewrite !bool_decide_eq_true in *. destruct Heqo as [_ [_ [?|?]]], S as [_ S]; congruence.
Qed.

Lemma local_complete_ok p c : ok (complete_transaction config hmac uuid random p c).
Proof.
  intros w r w' I F. pose proof (complete_moves config hmac uuid random p c w r w' F) as L.
  unfold complete_transaction in F. tx_inv. quiet_steps. one_account; [done|].
  left. subst. unfold is_local_super_admin in *. simpl. bool_simpl. tauto.
Qed.

Lemma reset_ok i actor t : ok (reset_transaction config hmac uuid i actor t).
Proof.
  intros w r w' I F. pose proof (reset_moves config hmac uuid i actor t w r w' F) as L.
  unfold reset_transaction, findAccount in F. tx_inv. quiet_steps. one_account; [done|].
  right. apply counted_super_admins. rewrite Old in Heqo. injection Heqo as <-.
  unfold is_local_super_admin in S. destruct (Z.leb_spec (count_accounts is_local_super_admin w) 1); [|done].
  bool_simpl. destruct S as [[[_ S1] _] S2]. rewrite S1, S2 in Heqb1. naive_solver.
Qed.

Lemma keeps_super_admin b name r t old :
  gives_up_super_admin b = false -> new_role b = r -> is_local_super_admin old = true ->
  is_local_super_admin (write_account
    ((opt_write SetName name ++ opt_write SetRole r
      ++ match new_isActive b with
         | Some b => [SetIsActive b; SetDeactivatedAt (if b then None else Some t)]
         | None => []
         end ++ [IncrementVersion]) ++ [SetUpdatedAt t]) old) = true.
Proof.
  unfold gives_up_super_admin, is_local_super_admin. destruct b as [n [[]|] [[]|]], name; simpl;
    intros G <- S; try discriminate G; simpl; bool_simpl; rewrite ?bool_decide_eq_true in *; tauto.
Qed.

Lemma guarded_demotion (w : World) i u :
  bool_decide (u_role (account u) = SUPER_ADMIN) && isActive (account u)
  && bool_decide (inviteStatus (account u) = ACTIVE) && true
  && (count_accounts is_local_super_admin w <=? 1) = false ->
  is_local_super_admin u = true ->
  exists j v, j <> i /\ accounts w !! j = Some v /\ is_local_super_admin v = true.
Proof.
  unfold is_local_super_admin at 2. intros C S. apply counted_super_admins. bool_simpl.
  destruct S as [[[_ S1] S2] S3]. rewrite S1, S2, S3 in C. simpl in C. lia.
Qed.

Lemma local_update_ok i b actor : ok (update_transaction i b actor).
Proof.
  intros w r w' I F. pose proof (update_moves i b actor w r w' F) as L.
  unfold update_transaction, findAccount, tx_time in F. tx_inv; quiet_steps.
  all: one_account; [done|].
  all: rewrite Old in Heqo; injection Heqo as <-; destruct (gives_up_super_admin b) eqn:G;
    [right; by eapply guarded_demotion|].
  all: left; subst a0.
  all: match goal with
       | Hr : new_role ?x = _, Hg : gives_up_super_admin ?x = false |- _ =>
           pose proof (keeps_super_admin x (trim <$> new_name x) _ (time w) old Hg Hr S) as K
       end.
  all: try match goal with Ha : new_isActive _ = _ |- _ => rewrite Ha in K end; exact K.
Qed.

Lemma create_account_inv u w r w' : create_account u w = Ok (r, w') ->
  r = u /\ accounts w !! u_id (account u) = None /\ w' = set_accounts (<[u_id (account u) := u]> (accounts w)) w.
Proof.
  unfold create_account. destruct (accounts w !! u_id (account u)); [done|]. cbn [is_Some_b].
  match goal with |- context [List.find ?f ?l] => destruct (List.find f l) as [[name c]|] end; [done|].
  case_match; [|done]. by intros [= <- <-].
Qed.

Lemma invite_ok n d role actor q t : ok (invite_transaction config hmac uuid n d role actor q t).
Proof.
  intros w r w' I F. pose proof (invite_moves config hmac uuid n d role actor q t w r w' F) as L.
  unfold invite_transaction, byRequestId, byNormalizedUsername, tx_time in F. tx_inv. quiet_steps.
  apply create_account_inv in E1 as (-> & N & ->). apply writeAudit_inv in E3 as ->.
  destruct Quiet as (A2 & L2 & _), Quiet0 as (A0 & L0 & _). simpl in *. rewrite A0 in *.
  split; [done| |].
  - intros (j & v & Ej & Sv). exists j, v. simpl. rewrite A2, lookup_insert_ne; [done|]. congruence.
  - eexists [_]. simpl. rewrite L2, L0. split; [done|]. intros j u'. rewrite A2.
    destruct (decide (j = uuid a)) as [->|Nj]; [intros _ _; eexists; by split; [apply list_elem_of_here|]|].
    rewrite lookup_insert_ne by done. intros Ej C. by rewrite Ej in C.
Qed.
End guarantees.
