(* ===== verification/LocalGuarantees.v ===== *)
(** * What holds of local accounts however requests interleave

    All requests of [LocalAccounts] run concurrently, in any interleaving of
    their transactions, each of which may fail before or after its effect, while
    time passes and the limiter of derivations fills and empties. *)

From S2P Require Import Prelude JsNumber JsString.
From S2P Require Import SecurityAudit.
From S2P Require Import Concurrency.
From S2P Require Import Transactions.
From S2P Require Import Access.
From S2P Require Import Users.
From S2P Require Import UsersSafety.
From S2P Require Import Auth.
From S2P Require Import LocalCredentials.
From S2P Require Import LocalAccounts.
From S2P Require Import LocalSafety.
From stdpp Require Import relations.

Local Open Scope Z_scope.

Create HintDb local_request.

Section system.
Context `{IcuLaws} (config : AuthConfig) (hmac scrypt : str -> str -> list N) (uuid : nat -> str)
  (random : nat -> list N) (version_text : str -> Z -> str).

(** ** Requests *)

Abbreviation lsafely m Q w := (safe true linvariant later lguarantee m Q w).

Definition whatever {A} : result A -> World -> Prop := fun _ _ => True.

Lemma lguarantee_refl w : lguarantee w w.
Proof. by apply quiet_guarantee. Qed.

Lemma call_safe {A} (f : TX World A) (Q : result A -> World -> Prop) w :
  ok f ->
  (forall w1, later w w1 -> linvariant w1 -> Q (Throws io_error) w1 /\
     match f w1 with
     | Ok (a, w2) => lguarantee w1 w2 -> linvariant w2 -> Q (Ok a) w2 /\ Q (Throws io_error) w2
     | Throws e => Q (Throws e) w1
     end) ->
  lsafely (call f) Q w.
Proof.
  intros T C. apply safe_call. intros w1 R I. destruct (C w1 R I) as [C0 C1]. split; [done|].
  destruct (f w1) as [[a w2]|e] eqn:F; [|done]. pose proof (T w1 a w2 I F) as G.
  pose proof (l_inv _ _ (lg_later _ _ G) I) as I2. naive_solver.
Qed.

Lemma call_any {A} (f : TX World A) w : ok f -> lsafely (call f) whatever w.
Proof. intros T. apply call_safe; [done|]. intros w1 _ _. split; [done|]. by destruct (f w1) as [[? ?]|]. Qed.

Lemma any_bind' {A B} (m : prog World A) (k : A -> prog World B) w :
  lsafely m whatever w -> (forall a w', lsafely (k a) whatever w') -> lsafely (bind m k) whatever w.
Proof. intros S K. apply safe_bind. eapply safe_mono; [exact S|]. intros [a|e] w' _; [apply K|done]. Qed.

Lemma any_catch' {A} (m : prog World A) h w :
  lsafely m whatever w -> (forall e w', lsafely (h e) whatever w') -> lsafely (catch m h) whatever w.
Proof. intros S K. apply safe_catch. eapply safe_mono; [exact S|]. intros [a|e] w' _; [done|apply K]. Qed.

Lemma of_result_any {A} (r : result A) w : lsafely (of_result r) whatever w.
Proof. by destruct r. Qed.

Lemma draw_any w : lsafely draw whatever w.
Proof.
  unfold draw, safe, whatever. intros w1 _ I. simpl.
  assert (L : later w1 (drawn_one w1)) by by apply later_same.
  split; [by apply L|]. split; [|done]. by apply quiet_guarantee.
Qed.

Lemma get_ok {A} (f : World -> A) : ok (tx_get f).
Proof. apply quiet_ok; [apply moves_get|apply quiet_get]. Qed.

Lemma local_revoke_ok p : ok (revoke_where p).
Proof. apply quiet_ok; [apply moves_revoke|apply quiet_revoke]. Qed.

Lemma rotate_ok i h h' : ok (rotate_token i h h').
Proof. apply quiet_ok; [apply moves_rotate|]. by intros w r w' [= <- <-]. Qed.

Lemma touch_quiet h b : is_quiet (touch config h b).
Proof. by intros w r w' [= <- <-]. Qed.

Lemma limiter_ok : ok limiter_place.
Proof.
  apply quiet_ok; [apply moves_limiter|]. intros w r w'. unfold limiter_place. case_match; [done|].
  by intros [= <- <-].
Qed.

Lemma touch_time_ok h b :
  ok (tx! r := touch config h b in tx! t := tx_time in tx_ret (r, t)).
Proof.
  apply quiet_ok.
  - apply moves_bind; [apply moves_touch|]. intros r. apply moves_bind; [apply moves_get|]. intros t. apply moves_ret.
  - apply quiet_bind; [apply touch_quiet|]. intros r. apply quiet_bind; [apply quiet_get|]. intros t. apply quiet_ret.
Qed.

Lemma find_with_credential_ok n : ok (find_with_credential n).
Proof.
  apply quiet_ok.
  - apply moves_bind; [apply moves_get|]. intros u. apply moves_get.
  - apply quiet_bind; [apply quiet_get|]. intros u. apply quiet_get.
Qed.

Lemma anonymous_ok (e : SecurityAuditWrite) : ok (fun w => Ok (tt, add_event e w)).
Proof.
  intros w r w' I [= <- <-]. split; [by apply later_same|done|]. exists [e]. split; [done|].
  intros i u' Eu C. simpl in Eu. by rewrite Eu in C.
Qed.

Lemma recordAnonymous_any act res w : lsafely (recordAnonymous act res) whatever w.
Proof. apply any_catch'; [|done]. apply call_any, anonymous_ok. Qed.

#[local] Hint Resolve call_any of_result_any draw_any get_ok local_revoke_ok rotate_ok limiter_ok touch_time_ok
  find_with_credential_ok recordAnonymous_any local_login_ok local_accept_ok local_complete_ok invite_ok local_update_ok reset_ok
  : local_request.

Ltac lrequest :=
  repeat first
    [ done
    | solve [auto with local_request]
    | apply any_bind'; [|intros ? ?]
    | apply any_catch'; [|intros ? ?]
    | case_match ].

Lemma authenticate_any t b w : lsafely (authenticateSession config hmac t b) whatever w.
Proof. unfold authenticateSession, recognise, findAccount, revokeSessionById. lrequest. Qed.

#[local] Hint Resolve authenticate_any : local_request.

Lemma verify_password_any p c w : lsafely (verify_password scrypt p c) whatever w.
Proof. unfold verify_password. lrequest. Qed.

#[local] Hint Resolve verify_password_any : local_request.

Lemma refresh_any t w : lsafely (refresh config hmac random version_text t) whatever w.
Proof. unfold refresh, revokeSessionById. lrequest. Qed.

Lemma logout_any t w : lsafely (logout config hmac t) whatever w.
Proof. unfold logout, revokeSessionById. lrequest. Qed.

Lemma hasActive_any t w : lsafely (hasActiveBrowserSession config hmac t) whatever w.
Proof. unfold hasActiveBrowserSession. lrequest. Qed.

Lemma login_any n p w : lsafely (login config hmac scrypt uuid random version_text n p) whatever w.
Proof. unfold login. lrequest. Qed.

Lemma accept_any t w : lsafely (acceptSetupToken config hmac uuid random version_text t) whatever w.
Proof. unfold acceptSetupToken. lrequest. Qed.

Lemma complete_any p pw w :
  lsafely (completeInitialPassword config hmac scrypt uuid random version_text p pw) whatever w.
Proof. unfold completeInitialPassword. lrequest. Qed.

Lemma invite_any b a k w : lsafely (invite config hmac uuid random b a k) whatever w.
Proof. unfold invite. lrequest. Qed.

Lemma update_any i b a w : lsafely (update i b a) whatever w.
Proof. unfold update. lrequest. Qed.

Lemma reset_any i a w : lsafely (resetPassword config hmac uuid random i a) whatever w.
Proof. unfold resetPassword. lrequest. Qed.
(** ** The system *)

(** What is sent to a client; only principals are told apart here. *)
Inductive reply := Authenticated (p : AuthenticatedUser) | Done.

Definition acknowledged {A} (m : prog World A) : prog World reply := bind m (fun _ => Ret Done).

Definition authentication (token : str) (forRefresh : bool) : prog World reply :=
  bind (authenticateSession config hmac token forRefresh) (fun p => Ret (Authenticated p)).

Inductive lserved : prog World reply -> Prop :=
  | serve_authentication t b : lserved (authentication t b)
  | serve_refresh t : lserved (acknowledged (refresh config hmac random version_text t))
  | serve_local_logout t : lserved (acknowledged (logout config hmac t))
  | serve_has_session t : lserved (acknowledged (hasActiveBrowserSession config hmac t))
  | serve_local_login n p : lserved (acknowledged (login config hmac scrypt uuid random version_text n p))
  | serve_accept_setup t : lserved (acknowledged (acceptSetupToken config hmac uuid random version_text t))
  | serve_set_password p pw :
      lserved (acknowledged (completeInitialPassword config hmac scrypt uuid random version_text p pw))
  | serve_local_invite b a k : lserved (acknowledged (invite config hmac uuid random b a k))
  | serve_local_update i b a : lserved (acknowledged (update i b a))
  | serve_reset i a : lserved (acknowledged (resetPassword config hmac uuid random i a)).

Lemma lserved_safe h w : lserved h -> linvariant w -> lsafely h (fun _ _ => True) w.
Proof.
  intros S _. destruct S; (apply any_bind'; [|done]).
  - apply authenticate_any.
  - apply refresh_any.
  - apply logout_any.
  - apply hasActive_any.
  - apply login_any.
  - apply accept_any.
  - apply complete_any.
  - apply invite_any.
  - apply update_any.
  - apply reset_any.
Qed.

(** Time passes, and the limiter fills and empties. *)
Record lenvironment (w w' : World) : Prop := {
  le_accounts : accounts w' = accounts w;
  le_sessions : localSessions w' = localSessions w;
  le_tokens : setupTokens w' = setupTokens w;
  le_audit : auditLog w' = auditLog w;
  le_time : time w <= time w'
}.

Lemma lenvironment_ok w w' : linvariant w -> lenvironment w w' -> linvariant w' /\ later w w'.
Proof.
  intros I [A S T _ C]. assert (L : later w w'); [|split; [by apply L|done]].
  split; rewrite ?A, ?S, ?T; [|by intros s Hs; exists s|by intros t Ht; exists t|by intros i u Eu; exists u|done].
  intros []. split; rewrite ?A, ?S, ?T; auto.
Qed.

Lemma lguarantee_later w w' : linvariant w -> linvariant w' -> lguarantee w w' -> later w w'.
Proof. intros _ _ G. apply G. Qed.

Definition lstep : World * list (prog World reply) -> World * list (prog World reply) -> Prop :=
  system_step lserved lenvironment.
Definition lsteps : World * list (prog World reply) -> World * list (prog World reply) -> Prop := rtc lstep.

Lemma lreached w s : linvariant w -> lsteps (w, []) s -> linvariant s.1 /\ later w s.1.
Proof.
  intros I R. apply (reachable_invariant lserved lenvironment linvariant later lguarantee lguarantee_refl
    lguarantee_later lenvironment_ok lserved_safe w s I R).
Qed.

Lemma lreached_from w s s' : linvariant w -> lsteps (w, []) s -> lsteps s s' -> later s.1 s'.1.
Proof.
  intros I R R'.
  refine (reachable_closure lserved lenvironment linvariant later lguarantee lguarantee_refl
    lguarantee_later lenvironment_ok lserved_safe later w s s' I _ R R').
  intros w1 w2 I1 _ [G|E]; [apply G|by apply lenvironment_ok].
Qed.
(** ** Properties *)

(** C10: whatever requests run and however they interleave or fail, the
    server never loses its last active super administrator among the local
    accounts: neither by changing roles nor by resetting passwords. *)
Theorem local_super_admin_survives w s :
  linvariant w -> has_local_super_admin w -> lsteps (w, []) s -> has_local_super_admin s.1.
Proof.
  intros I A R. assert (P : PreOrder (fun w w' => has_local_super_admin w -> has_local_super_admin w')).
  { split; [by intros v|]. intros v1 v2 v3 P1 P2. auto. }
  refine (reachable_closure lserved lenvironment linvariant later lguarantee lguarantee_refl
    lguarantee_later lenvironment_ok lserved_safe
    (fun w w' => has_local_super_admin w -> has_local_super_admin w') w (w, []) s I _ (rtc_refl _ _) R A).
  intros w1 w2 _ _ [G|E]; [apply G|]. unfold has_local_super_admin. by rewrite (le_accounts _ _ E).
Qed.

(** C13: a session that was revoked at one moment of a run - by a logout,
    a reset password, a changed role, a replayed token - is accepted at no later
    moment, whatever token is presented. *)
Theorem revoked_sessions_stay_revoked w s s' old token b x w' :
  linvariant w -> lsteps (w, []) s -> lsteps s s' ->
  old ∈ localSessions s.1 -> is_Some (ls_revokedAt old) ->
  touch config token b s'.1 = Ok (Some x, w') -> ls_id x <> ls_id old.
Proof.
  intros I R R' Hold Rev T E. pose proof (lreached_from w s s' I R R') as L.
  destruct (lreached w s I R) as [I1 _]. pose proof (l_inv _ _ L I1) as I2.
  destruct (l_sessions _ _ L old Hold) as (old' & Hold' & [Eid _ _ _ Rev']). specialize (Rev' Rev).
  unfold touch in T. injection T as T _. destruct (List.find _ _) as [y|] eqn:F; [|done].
  injection T as <-. apply find_some in F as [Hy%list_elem_of_In A].
  assert (y = old') as ->.
  { apply (NoDup_map_eq ls_id (localSessions s'.1)); [apply I2|done|done|]. simpl in E. congruence. }
  unfold accepts in A. bool_simpl. destruct A as [[[_ A] _] _]. apply bool_decide_eq_true in A.
  rewrite A in Rev'. by destruct Rev'.
Qed.

Definition spent (h : str) (w : World) : Prop :=
  exists t, t ∈ setupTokens w /\ tokenHash_ t = h /\ token_spent t = true.

Lemma spent_rejected h w : linvariant w -> spent h w ->
  accept_setup_transaction config hmac uuid random version_text h w = Throws (authError INVALID_CREDENTIALS).
Proof.
  intros I (t & Ht & Eh & S). unfold accept_setup_transaction, tx_bind, tx_get.
  destruct (List.find _ _) as [t'|] eqn:F; [|done]. exfalso.
  apply find_some in F as [Ht'%list_elem_of_In A]. unfold acceptable in A. bool_simpl.
  destruct A as [[[A1 A2] _] _]. apply bool_decide_eq_true in A1.
  assert (t' = t) as -> by (apply (NoDup_map_eq tokenHash_ (setupTokens w)); [apply I|done..|congruence]).
  congruence.
Qed.

Lemma accepted_spent h w r w' : linvariant w ->
  accept_setup_transaction config hmac uuid random version_text h w = Ok (r, w') -> spent h w'.
Proof.
  intros I F. unfold accept_setup_transaction in F.
  apply tx_bind_inv in F as (row & w1 & E & F). unfold tx_get in E. injection E as Er <-.
  destruct row as [t|]; [|done]. apply find_some in Er as [Ht%list_elem_of_In A].
  unfold acceptable in A. bool_simpl. destruct A as [[[A1 A2] _] _].
  apply tx_bind_inv in F as (x & w1 & E & F). unfold spend_setup_token, update_rows in E. injection E as _ Ew1.
  assert (S : spent h w1).
  { subst w1. eexists. split.
    - simpl. apply list_elem_of_fmap. exists t. split; [reflexivity|done].
    - rewrite A1, A2. simpl. split; [by apply bool_decide_eq_true in A1|]. done. }
  assert (L : later w1 w').
  { match type of F with ?k w1 = _ => assert (M : moves k) by moves; exact (M _ _ _ F) end. }
  destruct S as (t' & Ht' & <- & S). destruct (l_tokens _ _ L t' Ht') as (t2 & H2 & [Eh _ _ Sp]).
  exists t2. auto.
Qed.

(** C12: a setup token opens an account at most once.  Accepting it spends
    it, and once it is spent - accepted, or revoked by a reset or a deactivation -
    no later moment of any run accepts it. *)
Theorem setup_tokens_open_once w s s' h :
  linvariant w -> lsteps (w, []) s -> lsteps s s' ->
  (spent h s.1 ->
   accept_setup_transaction config hmac uuid random version_text h s'.1
   = Throws (authError INVALID_CREDENTIALS))
  /\ (forall r w', accept_setup_transaction config hmac uuid random version_text h s'.1 = Ok (r, w') ->
        spent h w').
Proof.
  intros I R R'. pose proof (lreached_from w s s' I R R') as L. destruct (lreached w s I R) as [I1 _].
  pose proof (l_inv _ _ L I1) as I2. split; [|intros r w'; by apply accepted_spent].
  intros (t & Ht & <- & S). apply spent_rejected; [done|].
  destruct (l_tokens _ _ L t Ht) as (t' & Ht' & [Eh _ _ Sp]). exists t'. auto.
Qed.

(** What a request that began in [w0] may answer in [w]. *)
Record authentic (w0 w : World) (p : AuthenticatedUser) (u : LocalUser) (s : LocalSession) : Prop := {
  auth_account : accounts w !! p_id p = Some u;
  auth_current : p = toPrincipal u (ls_id s);
  auth_active : isActive (account u) = true;
  auth_session : s ∈ localSessions w /\ ls_appUserId s = p_id p;
  auth_rights :
    if onboardingOnly s then inviteStatus (account u) = VERIFIED_PENDING_PASSWORD /\ p_permissions p = []
    else inviteStatus (account u) = ACTIVE /\ p_permissions p = permissionsForRole (u_role (account u));
  auth_live old : old ∈ localSessions w0 -> ls_id old = ls_id s -> ls_revokedAt old = None;
  auth_unexpired : after (absoluteExpiresAt s) (time w0) = true
}.

Definition authenticates (w0 : World) (r : result AuthenticatedUser) (w : World) : Prop :=
  forall p, r = Ok p -> exists u s, authentic w0 w p u s.

(** The row opens with the token at the moment [t]: it holds the token's hash,
    or for a refresh held it a few seconds ago, it is not revoked, and neither
    its idle deadline nor its absolute one has passed. *)
Definition opens_with (token : str) (forRefresh : bool) (t : Z) (s : LocalSession) : Prop :=
  exists secret, requireSecret config session = Ok secret
  /\ (localTokenHash s = Some (tokenHash hmac session token secret)
      \/ forRefresh = true /\ previousLocalTokenHash s = Some (tokenHash hmac session token secret)
         /\ exists until, previousTokenValidUntil s = Some until /\ t < until)
  /\ ls_revokedAt s = None
  /\ (exists idle, idleExpiresAt s = Some idle /\ t < idle)
  /\ exists absolute, absoluteExpiresAt s = Some absolute /\ t < absolute.

Lemma after_iff c t : after c t = true <-> exists e, c = Some e /\ t < e.
Proof.
  unfold after. destruct c as [e|]; [|naive_solver].
  rewrite Z.ltb_lt. split; [eauto|by intros (? & [= <-] & ?)].
Qed.

Lemma accepts_opens secret token b t s : requireSecret config session = Ok secret ->
  accepts (tokenHash hmac session token secret) b t s = true -> opens_with token b t s.
Proof.
  intros E A. exists secret. split; [done|]. unfold accepts in A.
  rewrite !andb_true_iff, orb_true_iff, !andb_true_iff, !bool_decide_eq_true, !after_iff in A. tauto.
Qed.

Lemma touched_live w0 w1 y : later w0 w1 -> linvariant w1 -> y ∈ localSessions w1 ->
  ls_revokedAt y = None -> after (absoluteExpiresAt y) (time w1) = true ->
  (forall old, old ∈ localSessions w0 -> ls_id old = ls_id y -> ls_revokedAt old = None)
  /\ after (absoluteExpiresAt y) (time w0) = true.
Proof.
  intros L I Hy N A. split.
  - intros old Ho E. destruct (l_sessions _ _ L old Ho) as (o & Hn & [Ei _ _ _ R]).
    assert (o = y) as -> by (apply (NoDup_map_eq ls_id (localSessions w1)); [apply I|done|done|congruence]).
    destruct (ls_revokedAt old); [|done]. rewrite N in R. by destruct R.
  - pose proof (l_time _ _ L). unfold after in *. destruct (absoluteExpiresAt y); [lia|done].
Qed.

Lemma recognise_sound w0 w1 w2 h b y at_ :
  later w0 w1 -> linvariant w1 -> y ∈ localSessions w1 -> accepts h b (time w1) y = true ->
  touched config (time w1) y ∈ localSessions w2 ->
  lsafely (recognise config b (Some (touched config (time w1) y)) at_)
    (fun r w => forall p, r = Ok p -> exists u s, ls_id s = ls_id y /\ authentic w0 w p u s) w2.
Proof.
  intros L1 I1 Hy A Hy'. unfold accepts in A. bool_simpl. destruct A as [[[_ A1] _] A3].
  apply bool_decide_eq_true in A1.
  destruct (touched_live w0 w1 y L1 I1 Hy A1 A3) as [Live Ex]. unfold recognise.
  assert (Rj : forall i w, lsafely (await _ := call (revokeSessionById i) in Throw (authError SESSION_INVALID))
    (fun r w => forall p : AuthenticatedUser, r = Ok p -> exists u s, ls_id s = ls_id y /\ authentic w0 w p u s) w).
  { intros i w. apply safe_bind, call_safe; [apply local_revoke_ok|]. intros w3 _ _. split; [done|].
    destruct (revokeSessionById i w3) as [[x w4]|e]; done. }
  apply safe_bind, call_safe; [apply get_ok|]. intros w3 L3 I3. split; [done|].
  unfold findAccount, tx_get. intros _ _. split; [|done]. cbv beta iota zeta.
  destruct (l_sessions _ _ L3 _ Hy') as (s & Hs & [Ei Eo Eb Ea _]). simpl in Ei, Eo, Eb, Ea.
  change (ls_appUserId (touched config (time w1) y)) with (ls_appUserId y).
  destruct (accounts w3 !! ls_appUserId y) as [u|] eqn:Eu; [|apply Rj].
  destruct (isActive (account u)) eqn:Act; [|apply Rj]. cbn [negb].
  destruct (_ || _) eqn:C; [apply Rj|]. destruct (negb b && _ && _); [by apply safe_throw|]. apply safe_ret.
  intros p [= <-]. exists u, s. split; [done|]. pose proof (linv_keys w3 I3 _ _ Eu) as K.
  split; simpl; rewrite ?K, ?Ei, ?Ea; try done.
  bool_simpl. destruct C as [C1 C2]. apply eqb_prop in C1. simpl in C1. rewrite Eb, C1.
  case_bool_decide as V; [by rewrite V|]. destruct C2 as [?|C2]; [done|].
  apply bool_decide_eq_true in C2. by rewrite C2.
Qed.

Lemma touched_elem h b w y : List.find (accepts h b (time w)) (localSessions w) = Some y ->
  y ∈ localSessions w /\ accepts h b (time w) y = true
  /\ touched config (time w) y ∈ localSessions (set_local_sessions
       (map (fun s => if accepts h b (time w) s then touched config (time w) s else s) (localSessions w)) w).
Proof.
  intros [Hy%list_elem_of_In A]%find_some. split; [done|]. split; [done|].
  simpl. apply list_elem_of_fmap. exists y. by rewrite A.
Qed.

Lemma authenticate_sound w0 t b : lsafely (authenticateSession config hmac t b) (authenticates w0) w0.
Proof.
  unfold authenticateSession. apply safe_bind. destruct (requireSecret config session) as [secret|e]; [|done].
  cbn [of_result]. apply safe_ret. apply safe_bind, call_safe; [apply touch_time_ok|].
  intros w1 L1 I1. split; [done|]. unfold tx_bind, touch, tx_time, tx_get, tx_ret. intros _ _.
  split; [|done]. cbn [fst snd]. destruct (List.find _ (localSessions w1)) as [y|] eqn:F; [|done].
  apply touched_elem in F as (Hy & A & Hy'). cbn [fmap option_fmap option_map].
  eapply safe_mono; [by eapply recognise_sound|]. intros r w P p E. destruct (P p E) as (u & s & _ & Q). eauto.
Qed.

(** The first action of an authentication touches the row that opens with the
    token; what follows it answers about that row. *)
Lemma authentication_acts w0 t b v m1 v1 :
  later w0 v -> linvariant v -> prog_step (authentication t b) v m1 v1 ->
  (exists e, m1 = Throw e)
  \/ exists y, y ∈ localSessions v /\ opens_with t b (time v) y
     /\ lsafely m1 (fun r w => forall p, r = Ok (Authenticated p) ->
                      exists u s, ls_id s = ls_id y /\ authentic w0 w p u s) v1.
Proof.
  intros L I. unfold authentication, authenticateSession.
  destruct (requireSecret config session) as [secret|e] eqn:Sc; simpl; [|by inversion 1].
  intros St%prog_step_inv. cbv beta iota in St. destruct St as [(e & ->)|(x & E & ->)]; [left; by eexists|].
  unfold tx_bind, touch, tx_time, tx_get, tx_ret in E. injection E as <- <-.
  cbn [of_result bind fst snd]. destruct (List.find _ (localSessions v)) as [y|] eqn:F; [|left; by eexists].
  apply touched_elem in F as (Hy & A & Hy'). right. exists y. split; [done|].
  split; [by eapply accepts_opens|]. apply safe_bind. eapply safe_mono; [by eapply recognise_sound|].
  intros [q|e] w P; [|done]. apply safe_ret. intros p [= <-]. by apply P.
Qed.

(** C11: when the server recognises a caller, at any moment of any run, it
    does so by an account that is active at that moment and with that account's
    current role: full rights by a full session of an activated account, no
    rights by the session that only sets the first password.  At some moment [v]
    of the run, while the request was served, the session held the hash of the
    token that was presented (or, for a refresh, held it until a deadline not yet
    passed), was not revoked, and neither its idle nor its absolute deadline had
    passed; and it was not revoked when the request came. *)
Theorem authenticated_callers w w0 ts1 ts2 token b s us1 us2 m p w' :
  linvariant w -> lsteps (w, []) (w0, ts1 ++ authentication token b :: ts2) ->
  lsteps (w0, ts1 ++ authentication token b :: ts2) s -> s.2 = us1 ++ m :: us2 ->
  List.length us1 = List.length ts1 -> prog_step m s.1 (Ret (Authenticated p)) w' ->
  exists v row u sess,
    lsteps (w0, ts1 ++ authentication token b :: ts2) v /\ lsteps v s
    /\ row ∈ localSessions v.1 /\ opens_with token b (time v.1) row /\ ls_id sess = ls_id row
    /\ authentic w0 w' p u sess.
Proof.
  intros I R R' E N St.
  assert (Hm : s.2 !! List.length ts1 = Some m) by (rewrite E, <- N; by apply list_lookup_middle).
  destruct (lreached w _ I R) as [I0 _]. simpl in I0.
  assert (Fresh : forall v m1 v1, linvariant v -> prog_step (authentication token b) v m1 v1 -> m1 <> Ret (Authenticated p)).
  { unfold authentication, authenticateSession. destruct (requireSecret _ _); simpl; [|by inversion 2].
    intros v m1 v1 _ [(e & ->)|(x & _ & ->)]%prog_step_inv; [done|]. by destruct x as [[y|] t']. }
  destruct (first_action _ _ (List.length ts1) (authentication token b) (w0, ts1 ++ _ :: ts2) s
      (list_lookup_middle ts1 ts2 _ _ eq_refl) R')
    as [Hs|(v & us & us' & m1 & v1 & El & R1 & P & R2)].
  { rewrite Hm in Hs. injection Hs as ->. destruct (lreached w s I ltac:(by etransitivity)) as [Is _].
    by destruct (Fresh _ _ _ Is St). }
  pose proof (lreached_from w _ _ I R R1) as L. simpl in L. pose proof (l_inv _ _ L I0) as Iv.
  destruct (authentication_acts w0 token b v m1 v1 L Iv P) as [(e & ->)|(y & Hy & O & S)].
  - exfalso. pose proof (answered_stays _ _ (List.length ts1) (Throw e) (v1, us ++ _ :: us') s
      (list_lookup_middle us us' _ _ (eq_sym El)) (or_intror (ex_intro _ e eq_refl)) R2) as Hs. rewrite Hm in Hs. injection Hs as ->. inversion St.
  - assert (G : good linvariant later lguarantee (v1, us ++ m1 :: us')).
    { refine (proj1 (good_reachable lserved lenvironment linvariant later lguarantee lguarantee_refl
        lguarantee_later lenvironment_ok lserved_safe (w, []) _ _ _)); [split; [done|constructor]|].
      etransitivity; [exact R|]. eapply rtc_r; [exact R1|]. by apply sys_thread. }
    destruct (reachable_answer lserved lenvironment linvariant later lguarantee lguarantee_refl
      lguarantee_later lenvironment_ok lserved_safe _ (List.length ts1) m1 v1 _ s m _ w'
      G (list_lookup_middle us us' _ _ (eq_sym El)) S R2 Hm St p eq_refl) as (u & sess & Es & A).
    exists (v, us ++ authentication token b :: us'), y, u, sess. split; [done|].
    split; [|done]. eapply rtc_l; [by apply sys_thread|done].
Qed.

Lemma createSetupToken_inv i token actor w r w' h :
  hashSetupToken config hmac token = Ok h -> createSetupToken config hmac uuid i token actor w = Ok (r, w') ->
  (forall t, t ∈ setupTokens w -> tokenHash_ t <> h) /\ localSessions w' = localSessions w
  /\ accounts w' = accounts w /\ time w' = time w
  /\ exists t, setupTokens w' = setupTokens w ++ [t] /\ tokenHash_ t = h /\ st_appUserId t = i
      /\ st_expiresAt t = time w + localSetupTokenTtlMs config /\ token_spent t = false.
Proof.
  intros Eh F. unfold createSetupToken in F. apply tx_bind_inv in F as (n & w1 & E & F).
  injection E as _ <-. apply tx_bind_inv in F as (h' & w1 & E & F). unfold tx_lift in E. rewrite Eh in E.
  injection E as <- <-. destruct (existsb _ _) eqn:X; [done|]. injection F as <- <-.
  split; [|repeat split; eexists; repeat split]. intros t Ht E. rewrite existsb_false_iff in X.
  specialize (X t Ht). apply str_eqb_neq in X. congruence.
Qed.

(** C14: resetting a password cuts its account off at once: every session
    of the account is revoked, no password opens it, every earlier setup token
    is spent, and the one new token, while it lasts, is the only way in. *)
Theorem reset_locks_out w i actor token h u w' :
  linvariant w -> hashSetupToken config hmac token = Ok h ->
  reset_transaction config hmac uuid i actor token w = Ok (u, w') ->
  (forall s, s ∈ localSessions w' -> ls_appUserId s = i -> is_Some (ls_revokedAt s))
  /\ (forall c, login_transaction config hmac uuid random i c w' = Throws (authError INVALID_CREDENTIALS))
  /\ (forall t, t ∈ setupTokens w' -> st_appUserId t = i -> tokenHash_ t = h \/ token_spent t = true)
  /\ (0 < localSetupTokenTtlMs config -> exists t, t ∈ setupTokens w' /\ acceptable h w' t = true).
Proof.
  intros I Eh F. unfold reset_transaction, findAccount in F. tx_inv.
  match goal with H : revoke_setup_tokens _ _ = _ |- _ => injection H as _ <- end.
  match goal with H : revoke_account_sessions _ _ = _ |- _ => injection H as _ <- end.
  match goal with H : createSetupToken _ _ _ _ _ _ _ = _ |- _ =>
    destruct (createSetupToken_inv _ _ _ _ _ _ _ Eh H) as (_ & S & A & T & t & Tk & Th & To & Te & Ts) end.
  match goal with H : update_account _ _ _ = _ |- _ => apply update_account_inv in H as (old & Eo & -> & ->) end.
  match goal with H : writeAudit _ _ = _ |- _ => apply writeAudit_inv in H as -> end.
  simpl in *. rewrite A, Heqo in Eo. injection Eo as <-. repeat split.
  - intros s. rewrite S, list_elem_of_fmap. intros (s0 & -> & _).
    destruct (str_eqb (ls_appUserId s0) i && _) eqn:C; [by eexists|].
    intros O. rewrite andb_false_iff in C. destruct C as [C%str_eqb_neq|C]; [done|].
    apply bool_decide_eq_false in C. by destruct (ls_revokedAt s0); [eexists|].
  - intros c. unfold login_transaction, findAccount, tx_bind, tx_get. simpl. rewrite lookup_insert_eq. simpl.
    rewrite orb_true_r. done.
  - intros t'. rewrite Tk, elem_of_app, list_elem_of_singleton. intros [Ht| ->]; [|by left]. intros O. right.
    apply list_elem_of_fmap in Ht as (t0 & -> & _).
    destruct (str_eqb (st_appUserId t0) i && _) eqn:C.
    + unfold token_spent. simpl. by rewrite orb_true_r.
    + rewrite andb_false_iff in C. destruct C as [C%str_eqb_neq|C]; [done|]. by apply negb_false_iff in C.
  - intros P. exists t. split; [rewrite Tk; apply elem_of_app; right; by apply list_elem_of_singleton|].
    unfold acceptable. simpl. rewrite To, Ts, Te, T, lookup_insert_eq. simpl.
    rewrite (proj2 (Z.ltb_lt _ _)) by lia. apply negb_false_iff in Heqb0. rewrite Heqb0.
    unfold str_eqb. by rewrite bool_decide_eq_true_2.
Qed.
End system.

(** ** An example *)

Module Example.
#[local] Existing Instance c_locale.

Definition config : AuthConfig := {|
  provider_is_local := true; localSessionTokenSecret := Some (js "session key");
  localSetupTokenSecret := Some (js "setup key"); localSessionIdleTtlMs := 1800000;
  localSessionAbsoluteTtlMs := 28800000; localSessionRotationTtlMs := 600000;
  localSetupTokenTtlMs := 86400000
|}.

(** Keyed hashes, keys and random bytes that are easy to compute. *)
Definition hmac (key data : str) : list N := take 32 (rev data ++ replicate 32 0%N).
Definition scrypt (password salt : str) : list N := replicate 32 (N.of_nat (List.length password)).
Definition uuid (n : nat) : str := js "00000000-0000-4000-8000-00000000000" ++ [N.of_nat n + 48]%N.
Definition random (n : nat) : list N := replicate 32 (N.of_nat n).
Definition version (i : str) (v : Z) : str := i.

Definition person (i name : str) (role : AppRole) : LocalUser := {|
  account := {|
    u_id := i; u_email := None; normalizedEmail := None; u_name := name; u_role := role;
    inviteStatus := ACTIVE; authUserId := None; isActive := true; lastLoginAt := None;
    deactivatedAt := None; authzVersion := 1; invitedAt := None; invitedBy := None;
    invitationRequestId := None; invitationErrorCode := None; createdAt := 0; updatedAt := 0 |};
  username := Some name; normalizedUsername := Some name
|}.

Definition root : str := uuid 0.
Definition ann : str := uuid 1.

Definition token_of (n : nat) : str := createSessionToken hmac (js "session key") (uuid n) (random n).

Definition session_of (n : nat) (owner : str) : LocalSession := {|
  ls_id := uuid n; ls_appUserId := owner;
  localTokenHash := Some (tokenHash hmac session (token_of n) (js "session key"));
  previousLocalTokenHash := None; previousTokenValidUntil := None; idleExpiresAt := Some 100000;
  absoluteExpiresAt := Some 200000; onboardingOnly := false; ls_revokedAt := None;
  ls_lastSeenAt := Some 0; refreshedAt := None; ls_createdAt := 0
|}.

Definition w0 : World := {|
  accounts := {[root := person root (js "root") SUPER_ADMIN; ann := person ann (js "ann") Access.USER]};
  localCredentials := ∅; localSessions := [session_of 2 root; session_of 3 ann];
  setupTokens := []; auditLog := []; time := 1000; draws := 4; scryptBusy := false
|}.

Lemma people i u : accounts w0 !! i = Some u ->
  (i = root /\ u = person root (js "root") SUPER_ADMIN) \/ (i = ann /\ u = person ann (js "ann") Access.USER).
Proof.
  unfold w0. cbn [accounts]. intros E. apply lookup_insert_Some in E as [[<- <-]|[N E]]; [auto|].
  apply lookup_singleton_Some in E as [<- <-]. auto.
Qed.

Lemma local_w0_invariant : linvariant w0.
Proof.
  split.
  - intros i u [[-> ->]|[-> ->]]%people; reflexivity.
  - intros i j u v x [[-> ->]|[-> ->]]%people [[-> ->]|[-> ->]]%people Ex Ey; try reflexivity;
      rewrite <- Ex in Ey; vm_compute in Ey; discriminate Ey.
  - refine (bool_decide_unpack _ _). vm_compute. exact I.
  - constructor.
Qed.

Lemma local_w0_super_admin : has_local_super_admin w0.
Proof. exists root, (person root (js "root") SUPER_ADMIN). split; vm_compute; reflexivity. Qed.

Abbreviation served' := (lserved config hmac scrypt uuid random version).
Abbreviation steps' := (lsteps config hmac scrypt uuid random version).

Definition reset : prog World reply :=
  acknowledged (resetPassword config hmac uuid random ann root).
Definition demote : prog World reply :=
  acknowledged (update root {| new_name := None; new_role := Some Access.USER; new_isActive := None |} ann).

Lemma reset_served : served' reset.
Proof. apply serve_reset. Qed.
Lemma local_demote_served : served' demote.
Proof. apply serve_local_update. Qed.

Definition w1 : World := (run [] reset w0).2.

(** One request, from its arrival to its answer. *)
Lemma served_alone (m : prog World reply) w ts : served' m ->
  steps' (w, ts) ((run [] m w).2, ts ++ [of_result (run [] m w).1]).
Proof.
  intros S. eapply rtc_l; [exact (sys_request _ _ w ts m S)|]. apply (run_reachable _ _ m [] w ts []).
Qed.
End Example.
Import Example.
#[local] Existing Instance c_locale.

Lemma local_super_admin_survives_witness :
  has_local_super_admin (run [] demote w1).2 /\ inviteStatus <$> (account <$> accounts w1 !! ann) = Some INVITED.
Proof.
  split; [|vm_compute; reflexivity].
  apply (local_super_admin_survives Example.config Example.hmac Example.scrypt Example.uuid Example.random
           version w0 ((run [] demote w1).2, ([] ++ [of_result (run [] reset w0).1]) ++ [of_result (run [] demote w1).1])
           local_w0_invariant local_w0_super_admin).
  etransitivity; [apply (served_alone reset w0 [] reset_served)|]. apply (served_alone demote w1 _ local_demote_served).
Defined.

Lemma revoked_sessions_stay_revoked_witness :
  exists old x w', old ∈ localSessions w1 /\ ls_id old = Example.uuid 3 /\ is_Some (ls_revokedAt old)
    /\ touch Example.config (tokenHash Example.hmac session (token_of 2) (js "session key")) false w1
       = Ok (Some x, w')
    /\ ls_id x <> ls_id old.
Proof.
  set (old := revoked_at 1000 (session_of 3 ann)).
  assert (Hold : old ∈ localSessions w1).
  { assert (E : localSessions w1 !! 1%nat = Some old) by (vm_compute; reflexivity).
    by apply list_elem_of_lookup_2 in E. }
  destruct (touch Example.config (tokenHash Example.hmac session (token_of 2) (js "session key"))
              false w1) as [[[x|] w']|e] eqn:T; [|vm_compute in T; discriminate T..].
  exists old, x, w'. split; [exact Hold|]. split; [reflexivity|]. split; [by eexists|]. split; [reflexivity|].
  eapply (revoked_sessions_stay_revoked Example.config Example.hmac Example.scrypt Example.uuid Example.random
            version w0 (w1, [of_result (run [] reset w0).1]) (w1, [of_result (run [] reset w0).1]) old _ false x w'
            local_w0_invariant (served_alone reset w0 [] reset_served) (rtc_refl _ _) Hold ltac:(by eexists) T).
Defined.

(** The setup token that the reset issued. *)
Definition issued : str := tokenHash Example.hmac setup (Base64url.encode (Example.random 4)) (js "setup key").

Lemma setup_tokens_open_once_witness :
  exists r w', accept_setup_transaction Example.config Example.hmac Example.uuid Example.random version issued w1
               = Ok (r, w') /\ spent issued w'.
Proof.
  destruct (accept_setup_transaction Example.config Example.hmac Example.uuid Example.random version issued w1)
    as [[r w']|e] eqn:F; [|vm_compute in F; discriminate F].
  exists r, w'. split; [reflexivity|].
  exact (proj2 (setup_tokens_open_once Example.config Example.hmac Example.scrypt Example.uuid Example.random
           version w0 (w1, [of_result (run [] reset w0).1]) (w1, [of_result (run [] reset w0).1]) issued
           local_w0_invariant (served_alone reset w0 [] reset_served) (rtc_refl _ _)) r w' F).
Defined.

Lemma reset_locks_out_witness :
  exists u w', reset_transaction Example.config Example.hmac Example.uuid ann root
                 (Base64url.encode (Example.random 4)) w0 = Ok (u, w')
    /\ exists t, t ∈ setupTokens w' /\ acceptable issued w' t = true.
Proof.
  destruct (reset_transaction Example.config Example.hmac Example.uuid ann root
              (Base64url.encode (Example.random 4)) w0) as [[u w']|e] eqn:F; [|vm_compute in F; discriminate F].
  exists u, w'. split; [reflexivity|].
  exact (proj2 (proj2 (proj2 (reset_locks_out Example.config Example.hmac Example.uuid Example.random w0 ann root
           (Base64url.encode (Example.random 4)) issued u w' local_w0_invariant eq_refl F))) eq_refl).
Defined.

(** The step of a request whose next action does not fail. *)
Definition next {A} (m : prog World A) (w : World) : option (prog World A * World) :=
  match m with
  | Call f k => match f w with Ok (b, w') => Some (k (Ok b), w') | Throws _ => None end
  | _ => None
  end.

Lemma next_step {A} (m m' : prog World A) w w' : next m w = Some (m', w') -> prog_step m w m' w'.
Proof.
  destruct m as [a|e|B f k|B f k]; simpl; try discriminate. destruct (f w) as [[b v]|e] eqn:E; [|discriminate].
  intros [= <- <-]. by apply step_call.
Qed.

Lemma authenticated_callers_witness :
  exists p w' (v : World * list (prog World reply)) row u s, p_id p = root
    /\ row ∈ localSessions v.1
    /\ opens_with Example.config Example.hmac (token_of 2) false (time v.1) row
    /\ ls_id s = ls_id row /\ authentic w0 w' p u s.
Proof.
  set (m := authentication Example.config Example.hmac (token_of 2) false).
  destruct (next m w0) as [[m1 v1]|] eqn:E1; [|vm_compute in E1; discriminate E1].
  destruct (next m1 v1) as [[m2 v2]|] eqn:E2; [|vm_compute in E1; injection E1 as <- <-; vm_compute in E2; discriminate E2].
  assert (P : exists p, m2 = Ret (Authenticated p) /\ p_id p = root).
  { vm_compute in E1. injection E1 as <- <-. vm_compute in E2. injection E2 as <- <-. eexists.
    split; [reflexivity|]. vm_compute. reflexivity. }
  destruct P as (p & -> & Pr).
  destruct (authenticated_callers Example.config Example.hmac Example.scrypt Example.uuid Example.random version
    w0 w0 [] [] (token_of 2) false (v1, [] ++ m1 :: []) [] [] m1 p v2 local_w0_invariant)
    as (v & row & u & s & _ & _ & Hr & O & Er & A).
  - apply rtc_once. apply (sys_request _ _ w0 [] m). constructor.
  - apply rtc_once. apply (sys_thread _ _ w0 v1 [] []). apply next_step. exact E1.
  - reflexivity.
  - reflexivity.
  - apply next_step. exact E2.
  - exists p, v2, v, row, u, s. split; [exact Pr|]. split; [exact Hr|]. split; [exact O|]. split; [exact Er|exact A].
Defined.
