(* ===== verification/RequestBody.v ===== *)
(** * Values of a request body

    The services receive [body: Record<string, unknown>], an instance of a
    validated transport class.  This file gives such values with the
    conversions [Number(value)] and [String(value)], and the interface of the
    decimal numbers that Prisma returns and PostgreSQL stores, which are a
    library of the program. *)

From S2P Require Import Prelude JsNumber JsString.
From S2P Require Import DateNumber.

Local Open Scope Z_scope.

(** ** Number.prototype.toString

    The shortest decimal digits that denote the number. *)

(** [10^e] as a ratio. *)
Definition ratio_pow (e : Z) : Z * Z := if 0 <=? e then (10 ^ e, 1) else (1, 10 ^ (- e)).

(** The number of integer digits of [p / q], or minus the zeros after the
    point: [10^(n-1) <= p / q < 10^n]. *)
Fixpoint magnitude (fuel : nat) (n p q : Z) : Z :=
  match fuel with
  | O => n
  | S fuel' =>
      if q <=? p then magnitude fuel' (n + 1) p (10 * q)
      else if 10 * p <? q then magnitude fuel' (n - 1) (10 * p) q
      else n
  end.

(** The [k] digits closest to [p / q] with [n] integer digits, ties to even. *)
Definition nearest_digits (k n p q : Z) : Z :=
  let '(u, v) := ratio_pow (k - n) in
  let a := p * u in
  let b := q * v in
  let s := a / b in
  let r := 2 * (a mod b) in
  if r <? b then s else if b <? r then s + 1 else if Z.even s then s else s + 1.

Fixpoint shortest (fuel : nat) (k n p q : Z) (x : num) : Z * Z :=
  let s := nearest_digits k n p q in
  match fuel with
  | O => (k, s)
  | S fuel' => if neqb (scaled s (n - k)) x then (k, s) else shortest fuel' (k + 1) n p q x
  end.

Definition zeros (n : Z) : str := repeat 48%N (Z.to_nat n).

Definition exponent_text (e : Z) : str :=
  js "e" ++ (if e <? 0 then js "-" else js "+") ++ digits_of 20 (Z.abs e).

Definition magnitude_text (p q : Z) (x : num) : str :=
  let n := magnitude 700 0 p q in
  let '(k, s) := shortest 16 1 n p q x in
  let ds := digits_of 20 s in
  if (k <=? n) && (n <=? 21) then ds ++ zeros (n - k)
  else if (0 <? n) && (n <=? 21) then firstn (Z.to_nat n) ds ++ js "." ++ skipn (Z.to_nat n) ds
  else if (-6 <? n) && (n <=? 0) then js "0." ++ zeros (- n) ++ ds
  else if k =? 1 then ds ++ exponent_text (n - 1)
  else firstn 1 ds ++ js "." ++ skipn 1 ds ++ exponent_text (n - 1).

Definition num_text (x : num) : str :=
  match x with
  | SpecFloat.S754_nan => js "NaN"
  | SpecFloat.S754_infinity s => (if s then js "-" else []) ++ js "Infinity"
  | SpecFloat.S754_zero _ => js "0"
  | SpecFloat.S754_finite s m e =>
      let '(p, q) := if 0 <=? e then (Zpos m * 2 ^ e, 1) else (Zpos m, 2 ^ (- e)) in
      (if s then js "-" else []) ++ magnitude_text p q (nabs x)
  end.

Example num_text_examples :
  map num_text [decimal 1 1; ofZ 1200; nopp (decimal 125 2); decimal 5 7; ofZ (10 ^ 21);
                ndiv (ofZ 1) (ofZ 3); ofZ 123456789012345678]
  = map js ["0.1"; "1200"; "-1.25"; "5e-7"; "1e+21"; "0.3333333333333333"; "123456789012345680"]%string.
Proof. vm_compute. reflexivity. Qed.

(** ** Fields *)

(** A value of the body; an array of a body is one of texts. *)
Inductive field :=
  | Undefined
  | Null
  | Boolean (b : bool)
  | Number (x : num)
  | Text (s : str)
  | Texts (l : list str).

Abbreviation body := (list (str * field)).

(** [Object.prototype.hasOwnProperty.call(body, name)] and [body.name]. *)
Definition has_own (b : body) (name : str) : bool := existsb (fun '(k, _) => str_eqb k name) b.

Fixpoint body_field (b : body) (name : str) : field :=
  match b with
  | [] => Undefined
  | (k, v) :: r => if str_eqb k name then v else body_field r name
  end.

(** The last of [{ ...b, name: v }]. *)
Definition set_field (b : body) (name : str) (v : field) : body :=
  List.filter (fun '(k, _) => negb (str_eqb k name)) b ++ [(name, v)].

(** [delete b.name]. *)
Definition delete_field (b : body) (name : str) : body :=
  List.filter (fun '(k, _) => negb (str_eqb k name)) b.

Definition is_undefined (v : field) : bool := match v with Undefined => true | _ => false end.

(** [value === null || value === undefined]. *)
Definition nullish (v : field) : bool := match v with Undefined | Null => true | _ => false end.

(** [String(value)]. *)
Definition string_of (v : field) : str :=
  match v with
  | Undefined => js "undefined"
  | Null => js "null"
  | Boolean b => if b then js "true" else js "false"
  | Number x => num_text x
  | Text s => s
  | Texts l => join (js ",") l
  end.

(** [Number(value)]. *)
Definition number_of (v : field) : num :=
  match v with
  | Undefined => NaN
  | Null => ofZ 0
  | Boolean b => ofZ (if b then 1 else 0)
  | Number x => x
  | Text s => to_number s
  | Texts l => to_number (join (js ",") l)
  end.

(** [Boolean(value)]. *)
Definition boolean_of (v : field) : bool :=
  match v with
  | Undefined | Null => false
  | Boolean b => b
  | Number x => num_truthy x
  | Text s => truthy s
  | Texts _ => true
  end.

(** [a ?? b]. *)
Definition field_or (a b : field) : field := if nullish a then b else a.

(** [value === null || value === undefined || String(value).trim() === ""]. *)
Definition blank (v : field) : bool := nullish v || negb (truthy (trim (string_of v))).

(** [typeof value === "string" && value.trim() !== ""]: the trimmed text. *)
Definition requiredString (v : field) : result str :=
  match v with
  | Text s => if truthy (trim s) then Ok (trim s) else bad_request "FIELD_REQUIRED"
  | _ => bad_request "FIELD_REQUIRED"
  end.

(** [String(value).trim()] if it is not empty; [null] counts as missing. *)
Definition optionalString (v : field) : option str :=
  if nullish v then None
  else if truthy (trim (string_of v)) then Some (trim (string_of v)) else None.

(** ** Decimal numbers

    The finite values of [Prisma.Decimal], and the columns of type
    NUMERIC(precision, scale); [dec_of_text] is the value of a text that denotes
    one, [dec_text] is [String(value)]. *)
Class DecimalNumber := {
  dec : Type;
  dec_eq_dec :: EqDecision dec;
  dec_of_num : num -> dec;
  dec_of_text : str -> option dec;
  dec_text : dec -> str;
  dec_num : dec -> num;
  dec_is_negative : dec -> bool;
  dec_is_integer : dec -> bool;
  dec_greater : dec -> Z -> bool;
  dec_tenth : dec -> dec;
  numeric : Z -> Z -> dec -> option dec
}.

Definition dec_zero `{DecimalNumber} : dec := dec_of_num (ofZ 0).

(** What their documentation says: a decimal is read back from its text, which
    is not blank, and a column stores zero and what it returned as they are. *)
Class DecimalLaws `{DecimalNumber} : Prop := {
  dec_of_text_text d : dec_of_text (dec_text d) = Some d;
  dec_text_not_blank d : truthy (trim (dec_text d)) = true;
  numeric_idem p s d d' : numeric p s d = Some d' -> numeric p s d' = Some d';
  numeric_zero p s : 0 <= p -> numeric p s dec_zero = Some dec_zero
}.
