(* ===== verification/Pattern.v ===== *)
(** * Regular expressions

    The patterns that the parsers match from the start of a text to its end,
    with the backtracking search of the language: alternatives in their order,
    greedy and lazy repetition of a character class, and the texts of the
    groups in the order in which they close.  [search_iff] says that the search
    misses no match. *)

From S2P Require Import Prelude JsNumber JsString.

Inductive re :=
  | Chars (p : N -> bool)
  | Cat (a b : re)
  | Alt (a b : re)
  | Many (p : N -> bool)
  | Some_lazy (p : N -> bool)
  | Maybe (a : re)
  | Group (a : re).

Definition is_char (c : N) (x : N) : bool := (x =? c)%N.
Definition one_of (cs : str) (x : N) : bool := existsb (N.eqb x) cs.

(** [.], which matches no line terminator. *)
Definition dot (c : N) : bool := negb (one_of [10; 13; 8232; 8233]%N c).

(** A word, whatever its case ([/i]). *)
Fixpoint word (s : str) : re :=
  match s with
  | [] => Many (fun _ => false)
  | [c] => Chars (fun x => ascii_lower x =? ascii_lower c)%N
  | c :: r => Cat (Chars (fun x => ascii_lower x =? ascii_lower c)%N) (word r)
  end.

Definition captures := list str.

Section search.
Context {R : Type}.

Definition first_of (a b : option R) : option R := match a with Some _ => a | None => b end.

Fixpoint many (p : N -> bool) (s : str) (k : str -> option R) : option R :=
  match s with
  | c :: t => if p c then first_of (many p t k) (k s) else k s
  | [] => k []
  end.

Fixpoint fewest (p : N -> bool) (s : str) (k : str -> option R) : option R :=
  first_of (k s) match s with c :: t => if p c then fewest p t k else None | [] => None end.

Fixpoint exec (r : re) (s : str) (caps : captures) (k : str -> captures -> option R) : option R :=
  match r with
  | Chars p => match s with c :: t => if p c then k t caps else None | [] => None end
  | Cat a b => exec a s caps (fun t caps => exec b t caps k)
  | Alt a b => first_of (exec a s caps k) (exec b s caps k)
  | Many p => many p s (fun t => k t caps)
  | Some_lazy p =>
      match s with c :: t => if p c then fewest p t (fun u => k u caps) else None | [] => None end
  | Maybe a => first_of (exec a s caps k) (k s caps)
  | Group a => exec a s caps (fun t caps => k t (caps ++ [firstn (List.length s - List.length t) s]))
  end.
End search.

(** [text.match(/^...$/)]: the texts of the groups. *)
Definition match_all (r : re) (s : str) : option captures :=
  exec r s [] (fun t caps => match t with [] => Some caps | _ => None end).

(** ** The language of a pattern *)

Inductive matches : re -> str -> Prop :=
  | m_chars p c : p c = true -> matches (Chars p) [c]
  | m_cat a b s t : matches a s -> matches b t -> matches (Cat a b) (s ++ t)
  | m_left a b s : matches a s -> matches (Alt a b) s
  | m_right a b s : matches b s -> matches (Alt a b) s
  | m_many p s : forallb p s = true -> matches (Many p) s
  | m_some p s : s <> [] -> forallb p s = true -> matches (Some_lazy p) s
  | m_none a : matches (Maybe a) []
  | m_maybe a s : matches a s -> matches (Maybe a) s
  | m_group a s : matches a s -> matches (Group a) s.

(** The same with the texts of the groups. *)
Inductive captured : re -> str -> captures -> Prop :=
  | c_chars p c : p c = true -> captured (Chars p) [c] []
  | c_cat a b s t x y : captured a s x -> captured b t y -> captured (Cat a b) (s ++ t) (x ++ y)
  | c_left a b s x : captured a s x -> captured (Alt a b) s x
  | c_right a b s x : captured b s x -> captured (Alt a b) s x
  | c_many p s : forallb p s = true -> captured (Many p) s []
  | c_some p s : s <> [] -> forallb p s = true -> captured (Some_lazy p) s []
  | c_none a : captured (Maybe a) [] []
  | c_maybe a s x : captured a s x -> captured (Maybe a) s x
  | c_group a s x : captured a s x -> captured (Group a) s (x ++ [s]).

Section facts.
Context {R : Type}.

Lemma first_of_some (a b : option R) x : first_of a b = Some x -> a = Some x \/ b = Some x.
Proof. destruct a; auto. Qed.

Lemma first_of_found (a b : option R) : is_Some (first_of a b) <-> is_Some a \/ is_Some b.
Proof.
  destruct a as [y|]; simpl; [|by split; [right|intros [[? [=]]|H]]].
  split; intros _; [left|]; by exists y.
Qed.

Lemma many_found p s (k : str -> option R) :
  is_Some (many p s k) <-> exists u t, s = u ++ t /\ forallb p u = true /\ is_Some (k t).
Proof.
  induction s as [|c s IH]; simpl.
  - split; [by exists [], []|]. by intros ([|? ?] & [|? ?] & [=] & _ & H).
  - destruct (p c) eqn:P; [rewrite first_of_found, IH|]; split.
    + intros [(u & t & -> & A & H)|H]; [exists (c :: u), t; simpl; by rewrite P|by exists [], (c :: s)].
    + intros ([|d u] & t & E & A & H); simpl in *; [subst t; by right|].
      injection E as <- ->. apply andb_prop in A as [_ A]. left. by exists u, t.
    + by exists [], (c :: s).
    + intros ([|d u] & t & E & A & H); simpl in *; [by subst t|].
      injection E as <- ->. apply andb_prop in A as [Q _]. by rewrite P in Q.
Qed.

Lemma fewest_found p s (k : str -> option R) :
  is_Some (fewest p s k) <-> exists u t, s = u ++ t /\ forallb p u = true /\ is_Some (k t).
Proof.
  induction s as [|c s IH]; simpl; rewrite first_of_found.
  - split; [intros [H|[? [=]]]; by exists [], []|].
    intros ([|? ?] & [|? ?] & [=] & _ & H); by left.
  - destruct (p c) eqn:P; [rewrite IH|]; split.
    + intros [H|(u & t & -> & A & H)]; [by exists [], (c :: s)|exists (c :: u), t; simpl; by rewrite P].
    + intros ([|d u] & t & E & A & H); simpl in *; [subst t; by left|].
      injection E as <- ->. apply andb_prop in A as [_ A]. right. by exists u, t.
    + intros [H|[? [=]]]. by exists [], (c :: s).
    + intros ([|d u] & t & E & A & H); simpl in *; [subst t; by left|].
      injection E as <- ->. apply andb_prop in A as [Q _]. by rewrite P in Q.
Qed.

Lemma many_value p s (k : str -> option R) x :
  many p s k = Some x -> exists u t, s = u ++ t /\ forallb p u = true /\ k t = Some x.
Proof.
  induction s as [|c s IH]; simpl; [intros E; by exists [], []|].
  destruct (p c) eqn:P; [|intros E; by exists [], (c :: s)].
  intros [(u & t & -> & A & H)%IH|E]%first_of_some; [|by exists [], (c :: s)].
  exists (c :: u), t. simpl. by rewrite P.
Qed.

Lemma fewest_value p s (k : str -> option R) x :
  fewest p s k = Some x -> exists u t, s = u ++ t /\ forallb p u = true /\ k t = Some x.
Proof.
  induction s as [|c s IH]; simpl; intros [E|E]%first_of_some; [by exists [], []|done| |].
  - by exists [], (c :: s).
  - destruct (p c) eqn:P; [|done]. apply IH in E as (u & t & -> & A & H).
    exists (c :: u), t. simpl. by rewrite P.
Qed.

(** What it finds is a match with its groups. *)
Lemma exec_value r : forall s caps (k : str -> captures -> option R) x,
  exec r s caps k = Some x ->
  exists u t cs, s = u ++ t /\ captured r u cs /\ k t (caps ++ cs) = Some x.
Proof.
  induction r as [p|a IHa b IHb|a IHa b IHb|p|p|a IHa|a IHa]; intros s caps k x E; simpl in E.
  - destruct s as [|c s]; [done|]. destruct (p c) eqn:P; [|done].
    exists [c], s, []. rewrite app_nil_r. auto using captured.
  - apply IHa in E as (u & t & cs & -> & M & E). apply IHb in E as (u' & t' & cs' & -> & M' & E).
    exists (u ++ u'), t', (cs ++ cs'). rewrite <- !app_assoc in *. auto using captured.
  - apply first_of_some in E as [(u & t & cs & -> & M & E)%IHa|(u & t & cs & -> & M & E)%IHb];
      exists u, t, cs; auto using captured.
  - apply many_value in E as (u & t & -> & A & E). exists u, t, [].
    rewrite app_nil_r. auto using captured.
  - destruct s as [|c s]; [done|]. destruct (p c) eqn:P; [|done].
    apply fewest_value in E as (u & t & -> & A & E). exists (c :: u), t, [].
    rewrite app_nil_r. split; [done|]. split; [|done]. apply c_some; [done|]. simpl. by rewrite P.
  - apply first_of_some in E as [(u & t & cs & -> & M & E)%IHa|E].
    + exists u, t, cs; auto using captured.
    + exists [], s, []. rewrite app_nil_r. auto using captured.
  - apply IHa in E as (u & t & cs & -> & M & E). exists u, t, (cs ++ [u]).
    rewrite length_app, Nat.add_sub, firstn_app, Nat.sub_diag, firstn_all, app_nil_r, <- app_assoc in E.
    auto using captured.
Qed.

(** The search finds something exactly when a split of the text into a match
    and a rest does; what it passes on does not depend on the groups. *)
Lemma exec_found r : forall s caps (k : str -> captures -> option R) (K : str -> Prop),
  (forall t caps, is_Some (k t caps) <-> K t) ->
  is_Some (exec r s caps k) <-> exists u t, s = u ++ t /\ matches r u /\ K t.
Proof.
  induction r as [p|a IHa b IHb|a IHa b IHb|p|p|a IHa|a IHa]; intros s caps k K HK; simpl.
  - destruct s as [|c s]; [|destruct (p c) eqn:P].
    + split; [intros [? [=]]|]. intros (u & t & E & M & _). inversion M; subst. discriminate E.
    + rewrite HK. split; [intros H; exists [c], s; auto using matches|].
      intros (u & t & E & M & H). inversion M; subst. by injection E as <- ->.
    + split; [intros [? [=]]|]. intros (u & t & E & M & _). inversion M as [? d Q| | | | | | | |]; subst.
      injection E as -> _. by rewrite P in Q.
  - rewrite (IHa _ _ _ (fun t => exists u' t', t = u' ++ t' /\ matches b u' /\ K t'));
      [|intros; by apply IHb]. split.
    + intros (u & t & -> & M & u' & t' & -> & M' & H). exists (u ++ u'), t'.
      rewrite <- app_assoc. auto using matches.
    + intros (u & t & -> & M & H). inversion M as [|? ? u1 u2 M1 M2| | | | | | |]; subst.
      exists u1, (u2 ++ t). rewrite <- app_assoc. eauto 8.
  - rewrite first_of_found, (IHa _ _ _ K HK), (IHb _ _ _ K HK). split.
    + intros [(u & t & E & M & H)|(u & t & E & M & H)]; exists u, t; auto using matches.
    + intros (u & t & E & M & H). inversion M; subst; [left|right]; by exists u, t.
  - rewrite many_found. split.
    + intros (u & t & E & A & H). exists u, t. rewrite HK in H. auto using matches.
    + intros (u & t & E & M & H). inversion M; subst. exists u, t. by rewrite HK.
  - destruct s as [|c s]; [|destruct (p c) eqn:P].
    + split; [intros [? [=]]|]. intros (u & t & E & M & _). inversion M; subst.
      symmetry in E. by apply app_eq_nil in E as [-> _].
    + rewrite fewest_found. split.
      * intros (u & t & -> & A & H). exists (c :: u), t. rewrite HK in H. split; [done|].
        split; [|done]. apply m_some; [done|]. simpl. by rewrite P.
      * intros (u & t & E & M & H). inversion M as [| | | | |? ? N A| | |]; subst.
        destruct u as [|d u]; [done|]. injection E as <- ->.
        simpl in A. apply andb_prop in A as [_ A]. exists u, t. by rewrite HK.
    + split; [intros [? [=]]|]. intros (u & t & E & M & H). inversion M as [| | | | |? ? N A| | |]; subst.
      destruct u as [|d u]; [done|]. injection E as <- ->.
      simpl in A. apply andb_prop in A as [Q _]. by rewrite P in Q.
  - rewrite first_of_found, (IHa _ _ _ K HK), HK. split.
    + intros [(u & t & E & M & H)|H]; [exists u, t; auto using matches|exists [], s; auto using matches].
    + intros (u & t & E & M & H). inversion M; subst; [by right|left; by exists u, t].
  - rewrite (IHa _ _ _ K); [|intros; apply HK]. split.
    + intros (u & t & E & M & H). exists u, t; auto using matches.
    + intros (u & t & E & M & H). inversion M; subst. by exists u, t.
Qed.
End facts.

Lemma search_iff r s : is_Some (match_all r s) <-> matches r s.
Proof.
  unfold match_all. rewrite (exec_found _ _ _ _ (fun t => t = [])).
  - split; [intros (u & t & -> & M & ->); by rewrite app_nil_r|].
    intros M. exists s, []. by rewrite app_nil_r.
  - by intros [|c t] caps; split.
Qed.

Lemma search_value r s cs : match_all r s = Some cs -> captured r s cs.
Proof.
  intros (u & [|c t] & cs' & -> & M & E)%exec_value; [|done].
  injection E as <-. by rewrite app_nil_r.
Qed.

(** A pattern without groups. *)
Fixpoint plain (r : re) : bool :=
  match r with
  | Chars _ | Many _ | Some_lazy _ => true
  | Cat a b | Alt a b => plain a && plain b
  | Maybe a => plain a
  | Group _ => false
  end.

Lemma plain_captured r s cs : captured r s cs -> plain r = true -> cs = [].
Proof.
  induction 1; simpl; rewrite ?andb_true_iff; intros P; try done; try by apply IHcaptured; tauto.
  destruct P. by rewrite IHcaptured1, IHcaptured2.
Qed.
