(* ===== verification/FixedDecimals.v ===== *)
(** * Decimals with six places

    One implementation of the interface [DecimalNumber]: a decimal counts
    millionths, and its text is that of the count with the exponent [e-6].  It
    satisfies [DecimalLaws], so the theorems over the interface apply to it;
    their witnesses run the program with these decimals. *)

From S2P Require Import Prelude JsNumber JsString.
From S2P Require Import DateNumber.
From S2P Require Import RequestBody.

Local Open Scope Z_scope.

(** ** Digits *)

Definition digits (n : Z) : str := digits_of (S (Z.to_nat (Z.log2 n))) n.

Lemma digits_of_val f n : 0 <= n < 10 ^ Z.of_nat f -> (0 < f)%nat ->
  digits_val (digits_of f n) = n /\ all_digits (digits_of f n) = true /\ truthy (digits_of f n) = true.
Proof.
  revert n. induction f as [|f IH]; intros n R L; [lia|]. cbn [digits_of].
  destruct (Z.ltb_spec n 10) as [B|B].
  - split; [|split; [|done]].
    + unfold digits_val. cbn [fold_left]. unfold digit_val. rewrite Z2N.id by lia. lia.
    + unfold all_digits. cbn [forallb]. unfold is_digit. rewrite andb_true_r, andb_true_iff, !N.leb_le. lia.
  - rewrite Nat2Z.inj_succ, Z.pow_succ_r in R by lia.
    destruct f as [|f]; [simpl in R; lia|]. destruct (IH (n / 10)) as (V & A & _); [|lia|].
    { split; [apply Z.div_pos; lia|]. apply Z.div_lt_upper_bound; lia. }
    pose proof (Z.mod_pos_bound n 10 ltac:(lia)). split; [|split].
    + rewrite digits_val_app, V. unfold digit_val. rewrite Z2N.id by lia. pose proof (Z.div_mod n 10). lia.
    + rewrite all_digits_app, A. unfold all_digits. cbn [forallb]. unfold is_digit.
      rewrite andb_true_r. cbn [andb]. rewrite andb_true_iff, !N.leb_le. lia.
    + by destruct (digits_of (S f) (n / 10)).
Qed.

Lemma digits_of_ok n : 0 <= n ->
  digits_val (digits n) = n /\ all_digits (digits n) = true /\ truthy (digits n) = true.
Proof.
  intros L. apply digits_of_val; [|lia]. split; [done|].
  destruct (Z.eq_dec n 0) as [->|N]; [by compute|].
  pose proof (Z.log2_spec n ltac:(lia)) as [_ U]. pose proof (Z.log2_nonneg n).
  rewrite Nat2Z.inj_succ, Z2Nat.id by lia. eapply Z.lt_le_trans; [exact U|].
  apply Z.pow_le_mono_l. lia.
Qed.

(** ** The implementation *)

Definition million : Z := 1000000.

Definition fixed_text (d : Z) : str := (if d <? 0 then js "-" else []) ++ digits (Z.abs d) ++ js "e-6".

(** The digits of a text before an exponent, or with a point. *)
Definition count_of (s : str) : option Z :=
  match rev s with
  | 54%N :: 45%N :: 101%N :: r =>
      let ds := rev r in if truthy ds && all_digits ds then Some (digits_val ds) else None
  | _ =>
      match split_on 46 s with
      | [i] => if truthy i && all_digits i then Some (digits_val i * million) else None
      | [i; f] =>
          if truthy i && all_digits i && truthy f && all_digits f && (length f <=? 6)%nat
          then Some (digits_val i * million + digits_val f * 10 ^ (6 - Z.of_nat (length f))) else None
      | _ => None
      end
  end.

Definition fixed_of_text (s : str) : option Z :=
  match s with
  | 45%N :: r => Z.opp <$> count_of r
  | _ => count_of s
  end.

(** NUMERIC(p, s): rounded to [s] places, rejected beyond [p - s] integer digits. *)
Definition fixed_numeric (p s d : Z) : option Z :=
  let unit := 10 ^ Z.max 0 (6 - s) in
  let q := Z.quot d unit in
  let r := Z.rem d unit in
  let n := if 2 * Z.abs r <? unit then q else q + Z.sgn d in
  if Z.abs n <? 10 ^ p then Some (n * unit) else None.

Definition fixed : DecimalNumber := {|
  dec := Z;
  dec_of_num x := toZ (round (nmul x (ofZ million)));
  dec_of_text := fixed_of_text;
  dec_text := fixed_text;
  dec_num d := ndiv (ofZ d) (ofZ million);
  dec_is_negative d := d <? 0;
  dec_is_integer d := d mod million =? 0;
  dec_greater d n := n * million <? d;
  dec_tenth d := Z.quot d 10;
  numeric := fixed_numeric
|}.

Lemma count_of_digits n : 0 <= n -> count_of (digits n ++ js "e-6") = Some n.
Proof.
  intros L. destruct (digits_of_ok n L) as (V & A & T). unfold count_of. rewrite rev_app_distr.
  change (rev (js "e-6")) with [54%N; 45%N; 101%N]. cbn [app]. by rewrite rev_involutive, T, A, V.
Qed.

Lemma digits_head n c r : 0 <= n -> digits n = c :: r -> c <> 45%N.
Proof.
  intros L E. destruct (digits_of_ok n L) as (_ & A & _). rewrite E in A. unfold all_digits in A.
  cbn [forallb] in A. apply andb_true_iff in A as [A _]. unfold is_digit in A.
  apply andb_true_iff in A as [A _]. apply N.leb_le in A. lia.
Qed.

Lemma fixed_numeric_idem p s d d' : fixed_numeric p s d = Some d' -> fixed_numeric p s d' = Some d'.
Proof.
  unfold fixed_numeric. set (unit := 10 ^ Z.max 0 (6 - s)). cbv zeta. generalize (if 2 * Z.abs (Z.rem d unit) <? unit then Z.quot d unit else Z.quot d unit + Z.sgn d).
  intros n. destruct (Z.ltb_spec (Z.abs n) (10 ^ p)) as [B|]; [|done]. intros [= <-].
  assert (N : 0 < unit) by (apply Z.pow_pos_nonneg; lia).
  rewrite Z.quot_mul, Z.rem_mul, Z.abs_0, Z.mul_0_r by lia.
  destruct (Z.ltb_spec 0 unit); [|lia]. by destruct (Z.ltb_spec (Z.abs n) (10 ^ p)); [|lia].
Qed.

Lemma drop_ws_elem s c : c ∈ s -> is_ws c = false -> c ∈ drop_ws s.
Proof.
  intros I N. induction s as [|x s IH]; [done|]. simpl. apply elem_of_cons in I as [->|I]; [rewrite N; by left|].
  destruct (is_ws x); [by apply IH|by right].
Qed.

Lemma trim_not_blank s c : c ∈ s -> is_ws c = false -> truthy (trim s) = true.
Proof.
  intros I N. unfold trim. assert (J : c ∈ rev (drop_ws (rev (drop_ws s)))).
  { apply list_elem_of_In. rewrite <- in_rev. apply list_elem_of_In, drop_ws_elem; [|done].
    apply list_elem_of_In. rewrite <- in_rev. by apply list_elem_of_In, drop_ws_elem. }
  destruct (rev (drop_ws (rev (drop_ws s)))); [by apply elem_of_nil in J|done].
Qed.

#[local] Existing Instance fixed.

Lemma fixed_laws : DecimalLaws.
Proof.
  split.
  - intros d. change (fixed_of_text (fixed_text d) = Some d). unfold fixed_text, fixed_of_text.
    destruct (Z.ltb_spec d 0) as [L|L].
    + change (js "-") with [45%N]. cbn [app]. rewrite count_of_digits by lia. simpl. f_equal. lia.
    + cbn [app]. rewrite Z.abs_eq by lia. destruct (digits d) as [|c r] eqn:E.
      { destruct (digits_of_ok d L) as (_ & _ & T). by rewrite E in T. }
      pose proof (digits_head d c r L E) as N. pose proof (count_of_digits d L) as C. rewrite E in C.
      cbn [app] in *. destruct c as [|c]; [done|]. do 6 (try destruct c as [c|c|]; try done).
  - intros d. change (truthy (trim (fixed_text d)) = true). apply (trim_not_blank _ 54%N); [|done].
    unfold fixed_text. rewrite app_assoc. apply elem_of_app. right. change (js "e-6") with [101; 45; 54]%N. do 2 right. by left.
  - exact fixed_numeric_idem.
  - intros p s L. change (fixed_numeric p s 0 = Some 0). unfold fixed_numeric.
    set (unit := 10 ^ Z.max 0 (6 - s)). assert (U : 0 < unit) by (apply Z.pow_pos_nonneg; lia).
    assert (P : 0 < 10 ^ p) by (apply Z.pow_pos_nonneg; lia).
    rewrite Z.quot_0_l, Z.rem_0_l, Z.abs_0, Z.mul_0_r by lia. rewrite (proj2 (Z.ltb_lt 0 unit)) by done.
    rewrite Z.abs_0. by rewrite (proj2 (Z.ltb_lt 0 (10 ^ p))).
Qed.

Example fixed_examples :
  map fixed_of_text (map js ["1200"; "0.035"; "-12.5"; "7e-6"; "x"; "1.2345678"]%string)
  = [Some 1200000000; Some 35000; Some (-12500000); Some 7; None; None].
Proof. reflexivity. Qed.

Example fixed_texts : map fixed_text [1200000000; -5; 0] = map js ["1200000000e-6"; "-5e-6"; "0e-6"]%string.
Proof. vm_compute. reflexivity. Qed.

Example fixed_columns :
  (fixed_numeric 14 2 1235000, fixed_numeric 14 2 1234999, fixed_numeric 8 6 100000000) = (Some 1240000, Some 1230000, None).
Proof. vm_compute. reflexivity. Qed.
