(* ===== verification/Timeline.v ===== *)
(** * Settings that change from one day to the next

    Four tables of the program hold the history of a setting as rows with a
    first day and a last day: the cost rules and the sales fee of Coupang, the
    cost rules and the CPA rules of a product.  Writers choose first days; the
    last days follow from them and are stored by a pass over the sorted rows.

    This file has the pass and the choice of the row for a day once, over the
    class [Ruled] of such rows, and their specification: the abstract history
    is a finite map from first days to settings, the setting in force on a day
    is the one with the last first day, and a table whose last days were stored
    by the pass answers exactly that. *)

From Stdlib Require Import Sorting.Sorted.
From S2P Require Import Prelude JsNumber JsString JsDate.
From S2P Require Import DateNumber.

Local Open Scope Z_scope.

(** ** Rows *)

Class Ruled (A : Type) := {
  rl_id : A -> str;
  rl_from : A -> Z;
  rl_to : A -> option Z;
  rl_createdAt : A -> Z;
  rl_ending : option Z -> A -> A;
  rl_check : A -> bool
}.

(** [rl_ending] only writes the last day, and the CHECK constraint of the
    table only asks that a rule does not end before it starts. *)
Class RuledLaws (A : Type) `{Ruled A} : Prop := {
  rl_ending_id t r : rl_id (rl_ending t r) = rl_id r;
  rl_ending_from t r : rl_from (rl_ending t r) = rl_from r;
  rl_ending_to t r : rl_to (rl_ending t r) = t;
  rl_ending_same r : rl_ending (rl_to r) r = r;
  rl_ending_ending t u r : rl_ending t (rl_ending u r) = rl_ending t r;
  rl_check_order r : (forall t, rl_to r = Some t -> rl_from r <= t) -> rl_check r = true
}.

(** A rejected CHECK constraint, and [update] of a row that is not there. *)
Definition check_violation : js_error := {| err_status := 0; err_code := js "CHECK" |}.
Definition row_missing : js_error := {| err_status := 0; err_code := js "P2025" |}.

Section rules.
Context {A : Type} `{Ruled A}.

Definition row_by_id (i : str) (table : list A) : option A :=
  List.find (fun r => str_eqb (rl_id r) i) table.

Definition put_row (r' : A) (table : list A) : list A :=
  map (fun r => if str_eqb (rl_id r) (rl_id r') then r' else r) table.

(** [update({ where: { id }, data })]. *)
Definition update_row (i : str) (f : A -> A) (table : list A) : result (list A) :=
  match row_by_id i table with
  | None => Throws row_missing
  | Some r => if rl_check (f r) then Ok (put_row (f r) table) else Throws check_violation
  end.

(** [orderBy: [{ effectiveFrom: "asc" }, { createdAt: "asc" }, { id: "asc" }]]. *)
Definition ascending (a b : A) : Z :=
  (rl_from a - rl_from b) ||| (rl_createdAt a - rl_createdAt b) ||| str_cmp (rl_id a) (rl_id b).
Definition descending (a b : A) : Z := ascending b a.

(** One step of the pass, and the pass over the sorted rules; [duplicate] is
    the error of the tables that test for a shared first day on the way. *)
Definition end_rule (previous : Z -> Z) (current : A) (next : option A) (table : list A)
  : result (list A) :=
  let effectiveTo := (fun n => previous (rl_from n)) <$> next in
  if dateValuesDiffer (rl_to current) effectiveTo
  then update_row (rl_id current) (rl_ending effectiveTo) table else Ok table.

Definition shares_date (current : A) (next : option A) : bool :=
  match next with Some n => rl_from n =? rl_from current | None => false end.

Fixpoint normalize (previous : Z -> Z) (duplicate : option js_error) (rules table : list A)
  : result (list A) :=
  match rules with
  | [] => Ok table
  | current :: rest =>
      match duplicate with
      | Some e =>
          if shares_date current (head rest) then Throws e
          else
            let! table' := end_rule previous current (head rest) table in
            normalize previous duplicate rest table'
      | None =>
          let! table' := end_rule previous current (head rest) table in
          normalize previous duplicate rest table'
      end
  end.

(** [rule.effectiveFrom <= date && (!rule.effectiveTo || rule.effectiveTo >= date)],
    and the first such rule in the order of a comparator. *)
Definition covers (d : Z) (r : A) : bool :=
  (rl_from r <=? d) && match rl_to r with Some t => d <=? t | None => true end.

Definition rule_on (compare : A -> A -> Z) (rules : list A) (d : Z) : option A :=
  head (js_sort compare (List.filter (covers d) rules)).
End rules.

(** ** First days *)

(** The next first day after a day, and the last one not after it. *)
Definition next_start (starts : list Z) (d : Z) : option Z :=
  fold_right (fun s acc => if d <? s then Some (match acc with Some m => Z.min s m | None => s end)
                           else acc) None starts.
Definition last_start (starts : list Z) (d : Z) : option Z :=
  fold_right (fun s acc => if s <=? d then Some (match acc with Some m => Z.max s m | None => s end)
                           else acc) None starts.

Lemma next_start_spec S d :
  match next_start S d with
  | Some n => n ∈ S /\ d < n /\ (forall m, m ∈ S -> d < m -> n <= m)
  | None => forall m, m ∈ S -> m <= d
  end.
Proof.
  induction S as [|s S IH]; simpl; [by intros m ?%elem_of_nil|].
  destruct (next_start S d) as [n|], (Z.ltb_spec d s) as [L|L]; simpl; setoid_rewrite elem_of_cons.
  - destruct IH as (I & Ln & Mn). split; [destruct (Z.min_spec s n) as [[_ ->]|[_ ->]]; auto|].
    split; [lia|]. intros m [->|Hm] Lm; [lia|]. specialize (Mn m Hm Lm). lia.
  - destruct IH as (I & Ln & Mn). split; [auto|]. split; [done|]. intros m [->|Hm] Lm; [lia|auto].
  - split; [auto|]. split; [done|]. intros m [->|Hm] Lm; [lia|]. specialize (IH m Hm). lia.
  - intros m [->|Hm]; [done|auto].
Qed.

Lemma last_start_spec S d :
  match last_start S d with
  | Some n => n ∈ S /\ n <= d /\ (forall m, m ∈ S -> m <= d -> m <= n)
  | None => forall m, m ∈ S -> d < m
  end.
Proof.
  induction S as [|s S IH]; simpl; [by intros m ?%elem_of_nil|].
  destruct (last_start S d) as [n|], (Z.leb_spec s d) as [L|L]; simpl; setoid_rewrite elem_of_cons.
  - destruct IH as (I & Ln & Mn). split; [destruct (Z.max_spec s n) as [[_ ->]|[_ ->]]; auto|].
    split; [lia|]. intros m [->|Hm] Lm; [lia|]. specialize (Mn m Hm Lm). lia.
  - destruct IH as (I & Ln & Mn). split; [auto|]. split; [done|]. intros m [->|Hm] Lm; [lia|auto].
  - split; [auto|]. split; [done|]. intros m [->|Hm] Lm; [lia|]. specialize (IH m Hm). lia.
  - intros m [->|Hm]; [done|auto].
Qed.

(** They depend on the set of first days only. *)
Lemma next_start_set S S' d : (forall x, x ∈ S <-> x ∈ S') -> next_start S d = next_start S' d.
Proof.
  intros E. pose proof (next_start_spec S d) as P. pose proof (next_start_spec S' d) as P'.
  destruct (next_start S d) as [n|], (next_start S' d) as [n'|]; try done.
  - destruct P as (I & L & M), P' as (I' & L' & M'). f_equal.
    pose proof (M n' (proj2 (E n') I') L'). pose proof (M' n (proj1 (E n) I) L). lia.
  - destruct P as (I & L & _). apply E, P' in I. lia.
  - destruct P' as (I & L & _). apply E, P in I. lia.
Qed.

(** [next_start] looks at the later days only. *)
Lemma next_start_after S S' d : (forall x, d < x -> x ∈ S <-> x ∈ S') -> next_start S d = next_start S' d.
Proof.
  intros E. pose proof (next_start_spec S d) as P. pose proof (next_start_spec S' d) as P'.
  destruct (next_start S d) as [n|], (next_start S' d) as [n'|]; try done.
  - destruct P as (I & L & M), P' as (I' & L' & M'). f_equal.
    pose proof (M n' (proj2 (E n' L') I') L'). pose proof (M' n (proj1 (E n L) I) L). lia.
  - destruct P as (I & L & _). apply (E n L), P' in I. lia.
  - destruct P' as (I & L & _). apply (E n' L), P in I. lia.
Qed.

Lemma last_start_set S S' d : (forall x, x ∈ S <-> x ∈ S') -> last_start S d = last_start S' d.
Proof.
  intros E. pose proof (last_start_spec S d) as P. pose proof (last_start_spec S' d) as P'.
  destruct (last_start S d) as [n|], (last_start S' d) as [n'|]; try done.
  - destruct P as (I & L & M), P' as (I' & L' & M'). f_equal.
    pose proof (M n' (proj2 (E n') I') L'). pose proof (M' n (proj1 (E n) I) L). lia.
  - destruct P as (I & L & _). apply E, P' in I. lia.
  - destruct P' as (I & L & _). apply E, P in I. lia.
Qed.

(** ** The abstract history *)

(** The setting in force on a day. *)
Definition in_force {V} (h : gmap Z V) (d : Z) : option V :=
  s ← last_start (map fst (map_to_list h)) d; h !! s.

Definition first_days {V} (h : gmap Z V) : list Z := map fst (map_to_list h).

Lemma in_force_here {V} (h : gmap Z V) d v : h !! d = Some v -> in_force h d = Some v.
Proof.
  intros E. unfold in_force. pose proof (last_start_spec (map fst (map_to_list h)) d) as P.
  assert (I : d ∈ map fst (map_to_list h)).
  { apply list_elem_of_fmap. exists (d, v). split; [done|]. by apply elem_of_map_to_list. }
  destruct (last_start _ d) as [n|]; [|specialize (P d I); lia]. destruct P as (_ & L & M).
  specialize (M d I ltac:(lia)). assert (n = d) as -> by lia. done.
Qed.

Lemma elem_of_starts {V} (h : gmap Z V) x : x ∈ map fst (map_to_list h) <-> is_Some (h !! x).
Proof.
  rewrite list_elem_of_fmap. split.
  - intros ([s v] & -> & I). apply elem_of_map_to_list in I. by exists v.
  - intros [v E]. exists (x, v). split; [done|by apply elem_of_map_to_list].
Qed.

(** A setting stored for a first day is in force from that day until the next
    first day, and no other day is touched. *)
Lemma in_force_insert {V} (h : gmap Z V) s v d :
  in_force (<[s := v]> h) d
  = if (s <=? d) && match next_start (map fst (map_to_list h)) s with Some n => d <? n | None => true end
    then Some v else in_force h d.
Proof.
  unfold in_force. set (S := map fst (map_to_list h)). set (S' := map fst (map_to_list (<[s := v]> h))).
  assert (E : forall x, x ∈ S' <-> x = s \/ x ∈ S).
  { intros x. unfold S, S'. rewrite !elem_of_starts. destruct (decide (s = x)) as [->|N].
    - rewrite lookup_insert_eq. naive_solver.
    - rewrite lookup_insert_ne by done. naive_solver. }
  pose proof (last_start_spec S' d) as P'. pose proof (last_start_spec S d) as P.
  pose proof (next_start_spec S s) as Q. clearbody S S'.
  destruct (Z.leb_spec s d) as [L|L]; cbn [andb].
  - destruct (last_start S' d) as [n'|]; [|specialize (P' s); rewrite E in P'; lia].
    destruct P' as (I' & Ln' & M'). assert (s <= n') by (apply M'; rewrite ?E; auto).
    destruct (next_start S s) as [n|]; [destruct (Z.ltb_spec d n)|].
    + apply E in I' as [->|I']; [simpl; by rewrite lookup_insert_eq|].
      destruct (decide (n' = s)) as [->|Nn]; [simpl; by rewrite lookup_insert_eq|].
      destruct Q as (_ & _ & Qm). specialize (Qm n' I' ltac:(lia)). lia.
    + destruct Q as (In & Lsn & _). destruct (last_start S d) as [m|]; [|specialize (P n In); lia].
      destruct P as (Im & Lm & Mm). pose proof (Mm n In ltac:(lia)).
      pose proof (M' m (proj2 (E m) (or_intror Im)) Lm).
      apply E in I' as [->|I']; [lia|]. specialize (Mm n' I' Ln'). assert (n' = m) as -> by lia.
      simpl. rewrite lookup_insert_ne by lia. done.
    + apply E in I' as [->|I']; [simpl; by rewrite lookup_insert_eq|].
      specialize (Q n' I'). assert (n' = s) as -> by lia. simpl. by rewrite lookup_insert_eq.
  - destruct (last_start S' d) as [n'|], (last_start S d) as [m|]; simpl; try done.
    + destruct P' as (I' & Ln' & M'), P as (Im & Lm & Mm).
      apply E in I' as [->|I']; [lia|]. specialize (Mm n' I' Ln').
      specialize (M' m (proj2 (E m) (or_intror Im)) Lm). assert (n' = m) as -> by lia.
      by rewrite lookup_insert_ne by lia.
    + destruct P' as (I' & Ln' & _). apply E in I' as [->|I']; [lia|]. specialize (P n' I'). lia.
    + destruct P as (Im & Lm & _). specialize (P' m (proj2 (E m) (or_intror Im))). lia.
Qed.

(** ** Tables with stored last days *)

Definition whole_day (d : Z) : Prop := (msPerDay | d).

Lemma whole_day_lt a b : whole_day a -> whole_day b -> a < b -> a <= b - msPerDay.
Proof. unfold whole_day, msPerDay. intros [x ->] [y ->] L. lia. Qed.

Section timeline.
Context {A : Type} `{RuledLaws A}.

Definition ids (rs : list A) : list str := map rl_id rs.
Definition starts (rs : list A) : list Z := map rl_from rs.

Lemma same_id rs r r' : NoDup (ids rs) -> r ∈ rs -> r' ∈ rs -> rl_id r = rl_id r' -> r = r'.
Proof.
  unfold ids. induction rs as [|x rs IH]; simpl; [by intros _ ?%elem_of_nil|].
  rewrite NoDup_cons, !elem_of_cons. intros [N ND] [->|I] [->|I'] E; auto.
  - destruct N. rewrite E. by apply list_elem_of_fmap_2.
  - destruct N. rewrite <- E. by apply list_elem_of_fmap_2.
Qed.

Lemma same_start rs r r' : NoDup (starts rs) -> r ∈ rs -> r' ∈ rs -> rl_from r = rl_from r' -> r = r'.
Proof.
  unfold starts. induction rs as [|x rs IH]; simpl; [by intros _ ?%elem_of_nil|].
  rewrite NoDup_cons, !elem_of_cons. intros [N ND] [->|I] [->|I'] E; auto.
  - destruct N. rewrite E. by apply list_elem_of_fmap_2.
  - destruct N. rewrite <- E. by apply list_elem_of_fmap_2.
Qed.

Lemma row_by_id_Some i rs r : row_by_id i rs = Some r -> r ∈ rs /\ rl_id r = i.
Proof.
  intros E. apply find_some in E as [I E]. rewrite list_elem_of_In. split; [done|].
  by apply bool_decide_eq_true in E.
Qed.

Lemma row_by_id_in rs r : NoDup (ids rs) -> r ∈ rs -> row_by_id (rl_id r) rs = Some r.
Proof.
  intros N I. destruct (row_by_id (rl_id r) rs) as [r'|] eqn:E.
  - apply row_by_id_Some in E as [I' E]. f_equal. by eapply same_id.
  - exfalso. unfold row_by_id in E. apply list_elem_of_In in I.
    pose proof (find_none _ _ E r I) as F. by apply bool_decide_eq_false in F.
Qed.

Lemma put_row_map (f : A -> A) rs r : NoDup (ids rs) -> r ∈ rs -> rl_id (f r) = rl_id r ->
  put_row (f r) rs = map (fun x => if str_eqb (rl_id x) (rl_id r) then f x else x) rs.
Proof.
  intros N I E. apply map_ext_in. intros x Hx. apply list_elem_of_In in Hx. rewrite E.
  unfold str_eqb. case_bool_decide as D; [|done]. by rewrite (same_id rs x r).
Qed.

Lemma update_row_ok rs r (f : A -> A) : NoDup (ids rs) -> r ∈ rs -> rl_id (f r) = rl_id r ->
  rl_check (f r) = true ->
  update_row (rl_id r) f rs = Ok (map (fun x => if str_eqb (rl_id x) (rl_id r) then f x else x) rs).
Proof.
  intros N I E C. unfold update_row. rewrite row_by_id_in by done. rewrite C. f_equal.
  by apply put_row_map.
Qed.

(** ** The pass stores what follows from the first days *)

Definition earlier (a b : A) : Prop := rl_from a < rl_from b.

Lemma next_start_head c rest : StronglySorted earlier (c :: rest) ->
  next_start (starts (c :: rest)) (rl_from c) = rl_from <$> head rest.
Proof.
  intros [S F]%StronglySorted_inv. unfold starts. cbn [map]. unfold next_start at 1. cbn [fold_right].
  rewrite Z.ltb_irrefl. fold (next_start (map rl_from rest) (rl_from c)).
  pose proof (next_start_spec (map rl_from rest) (rl_from c)) as P.
  destruct rest as [|n rest]; [done|]. cbn [head fmap option_fmap option_map].
  apply Forall_cons in F as [Ln F]. apply StronglySorted_inv in S as [S Fn].
  destruct (next_start _ _) as [m|].
  - destruct P as (I & Lm & M). f_equal. specialize (M (rl_from n)). cbn [map] in M, I.
    specialize (M ltac:(apply list_elem_of_here) Ln). apply elem_of_cons in I as [->|I]; [done|].
    apply list_elem_of_fmap in I as (x & -> & I). rewrite Forall_forall in Fn. specialize (Fn x I).
    unfold earlier in Fn. lia.
  - specialize (P (rl_from n) ltac:(apply list_elem_of_here)). unfold earlier in Ln. lia.
Qed.

Definition target (S : list Z) (r : A) : option Z := (fun d => d - msPerDay) <$> next_start S (rl_from r).

Context (previous : Z -> Z) (previous_day : forall d, previous d = d - msPerDay).

Lemma end_rule_ok c rest rs : StronglySorted earlier (c :: rest) -> Forall whole_day (starts (c :: rest)) ->
  NoDup (ids rs) -> c ∈ rs ->
  end_rule previous c (head rest) rs
  = Ok (map (fun x => if str_eqb (rl_id x) (rl_id c) then rl_ending (target (starts (c :: rest)) c) x else x) rs).
Proof.
  intros S D N I. unfold end_rule, target. rewrite next_start_head by done.
  set (t := (fun n => previous (rl_from n)) <$> head rest).
  assert (T : (fun d => d - msPerDay) <$> (rl_from <$> head rest) = t)
    by (unfold t; destruct rest; simpl; by rewrite ?previous_day).
  rewrite T. unfold dateValuesDiffer. case_bool_decide as E; cbn [negb].
  - f_equal. rewrite <- E. symmetry. rewrite <- (List.map_id rs) at 2. apply map_ext_in.
    intros x Hx. apply list_elem_of_In in Hx. unfold str_eqb. case_bool_decide as F; [|done].
    assert (x = c) as -> by (by eapply same_id). by rewrite rl_ending_same.
  - apply (update_row_ok rs c (rl_ending t)); [done..|apply rl_ending_id|].
    apply rl_check_order. rewrite rl_ending_to, rl_ending_from. intros d Ed. unfold t in Ed.
    destruct rest as [|n rest]; [done|]. injection Ed as <-. rewrite previous_day.
    apply StronglySorted_inv in S as [_ F]. apply Forall_cons in F as [F _].
    apply Forall_cons in D as [Dc D]. apply Forall_cons in D as [Dn _]. by apply whole_day_lt.
Qed.

Lemma normalize_sorted duplicate rules rs :
  StronglySorted earlier rules -> Forall whole_day (starts rules) -> NoDup (ids rs) ->
  (forall r, r ∈ rules -> r ∈ rs) ->
  normalize previous duplicate rules rs
  = Ok (map (fun x => if bool_decide (rl_id x ∈ ids rules) then rl_ending (target (starts rules) x) x else x) rs).
Proof.
  revert rs. induction rules as [|c rest IH]; intros rs S D N I.
  { cbn [normalize]. f_equal. rewrite <- (List.map_id rs) at 1. apply map_ext. intros x.
    by rewrite bool_decide_eq_false_2 by apply not_elem_of_nil. }
  assert (Sh : shares_date c (head rest) = false).
  { apply StronglySorted_inv in S as [_ F]. destruct rest as [|n rest]; [done|]. simpl.
    apply Forall_cons in F as [F _]. unfold earlier in F. lia. }
  assert (G : (let! table' := end_rule previous c (head rest) rs in normalize previous duplicate rest table')
              = Ok (map (fun x => if bool_decide (rl_id x ∈ ids (c :: rest))
                                  then rl_ending (target (starts (c :: rest)) x) x else x) rs)).
  2: { cbn [normalize]. by destruct duplicate; rewrite ?Sh. }
  assert (Ic : c ∈ rs) by (apply I, list_elem_of_here).
  rewrite (end_rule_ok c rest rs S D N Ic). cbn [result_bind].
  pose proof (StronglySorted_inv S) as [S' F]. rewrite Forall_forall in F.
  assert (Nc : rl_id c ∉ ids rest).
  { intros Hc. apply list_elem_of_fmap in Hc as (x & Ex & Hx).
    assert (c = x) as -> by (eapply same_id; [exact N|done|by apply I, list_elem_of_further|done]).
    specialize (F x Hx). unfold earlier in F. lia. }
  rewrite IH; [|done|by apply Forall_cons in D as [_ D]| |].
  - f_equal. rewrite map_map. apply map_ext_in. intros x Hx. apply list_elem_of_In in Hx.
    change (ids (c :: rest)) with (rl_id c :: ids rest). unfold str_eqb.
    destruct (decide (rl_id x = rl_id c)) as [Exc|Exc].
    + assert (x = c) as -> by (by eapply same_id).
      rewrite !(bool_decide_eq_true_2 (rl_id c = rl_id c)) by done.
      rewrite rl_ending_id, bool_decide_eq_false_2 by done.
      by rewrite bool_decide_eq_true_2 by apply list_elem_of_here.
    + rewrite !(bool_decide_eq_false_2 (rl_id x = rl_id c)) by done.
      destruct (decide (rl_id x ∈ ids rest)) as [Hr|Hr].
      * rewrite !bool_decide_eq_true_2 by (done || by apply list_elem_of_further). f_equal.
        unfold target, starts. cbn [map]. unfold next_start at 2. cbn [fold_right].
        apply list_elem_of_fmap in Hr as (y & Ey & Hy).
        assert (x = y) as -> by (eapply same_id; [exact N|done|by apply I, list_elem_of_further|done]).
        specialize (F y Hy). unfold earlier in F. by destruct (Z.ltb_spec (rl_from y) (rl_from c)); [lia|].
      * rewrite !bool_decide_eq_false_2; [done|rewrite elem_of_cons; naive_solver|done].
  - unfold ids. rewrite map_map. erewrite map_ext; [exact N|]. intros x. simpl.
    destruct (str_eqb _ _); [apply rl_ending_id|done].
  - intros r Hr. apply list_elem_of_fmap. exists r. split; [|by apply I, list_elem_of_further].
    unfold str_eqb. case_bool_decide as E; [|done]. destruct Nc. rewrite <- E. by apply list_elem_of_fmap_2.
Qed.

(** The rules of one history among the rows of a table. *)
Context (mine : A -> bool) (mine_ending : forall t r, mine (rl_ending t r) = mine r).
Context (compare : A -> A -> Z) `{!Comparator compare}
  (compare_start : forall a b, compare a b <= 0 -> rl_from a <= rl_from b).

Lemma sorted_rules rs : NoDup (starts rs) -> StronglySorted earlier (js_sort compare rs).
Proof.
  intros N. assert (N' : NoDup (starts (js_sort compare rs))) by (unfold starts; by rewrite js_sort_perm).
  pose proof (js_sort_Sorted compare rs) as S. induction S as [|r l S IH F]; [constructor|].
  unfold starts in N'. cbn [map] in N'. apply NoDup_cons in N' as [Nr N']. constructor; [by apply IH|].
  apply Forall_forall. intros x Hx. rewrite Forall_forall in F. specialize (F x Hx).
  apply compare_start in F. unfold earlier. assert (rl_from r <> rl_from x); [|lia].
  intros E. destruct Nr. rewrite E. by apply list_elem_of_fmap_2.
Qed.

Definition ended (rs : list A) : list A :=
  map (fun x => if mine x then rl_ending (target (starts (List.filter mine rs)) x) x else x) rs.

Lemma normalize_ended duplicate rs :
  NoDup (ids rs) -> NoDup (starts (List.filter mine rs)) ->
  Forall whole_day (starts (List.filter mine rs)) ->
  normalize previous duplicate (js_sort compare (List.filter mine rs)) rs = Ok (ended rs).
Proof.
  intros N Ns D. rewrite normalize_sorted; [|by apply sorted_rules| |done|].
  - f_equal. apply map_ext_in. intros x Hx. apply list_elem_of_In in Hx.
    assert (E : rl_id x ∈ ids (js_sort compare (List.filter mine rs)) <-> mine x = true).
    { unfold ids. rewrite js_sort_perm. split.
      - intros Hi. apply list_elem_of_fmap in Hi as (y & Ey & Hy). apply elem_of_filterb in Hy as [Hy My].
        by rewrite (same_id rs x y).
      - intros M. apply list_elem_of_fmap_2, elem_of_filterb. done. }
    destruct (mine x) eqn:M.
    + rewrite bool_decide_eq_true_2 by (apply E; done). f_equal. unfold target. f_equal.
      apply next_start_set. intros y. unfold starts. by rewrite js_sort_perm.
    + rewrite bool_decide_eq_false_2; [done|]. intros Hi. apply E in Hi. done.
  - unfold starts. by rewrite js_sort_perm.
  - intros r Hr. rewrite elem_of_js_sort, elem_of_filterb in Hr. tauto.
Qed.

Lemma ended_map_eq {B} (f : A -> B) rs : (forall t r, f (rl_ending t r) = f r) ->
  map f (ended rs) = map f rs.
Proof.
  intros E. unfold ended. rewrite map_map. apply map_ext. intros x. by destruct (mine x).
Qed.

Lemma filter_ended (p : A -> bool) rs : (forall t r, p (rl_ending t r) = p r) ->
  List.filter p (ended rs)
  = map (fun x => if mine x then rl_ending (target (starts (List.filter mine rs)) x) x else x) (List.filter p rs).
Proof.
  intros E. unfold ended. set (g := fun x => _). assert (G : forall x, p (g x) = p x)
    by (intros x; unfold g; destruct (mine x); auto). clearbody g.
  induction rs as [|x rs IH]; [done|]. simpl. rewrite G. destruct (p x); simpl; by rewrite IH.
Qed.

(** Other histories of the same table stay as they are. *)
Lemma filter_ended_other (p : A -> bool) rs : (forall t r, p (rl_ending t r) = p r) ->
  (forall r, r ∈ rs -> p r = true -> mine r = false) -> List.filter p (ended rs) = List.filter p rs.
Proof.
  intros E D. rewrite filter_ended by done. rewrite <- (List.map_id (List.filter p rs)) at 2.
  apply map_ext_in. intros x Hx. apply list_elem_of_In, elem_of_filterb in Hx as [Hx Px].
  by rewrite (D x Hx Px).
Qed.
End timeline.

(** ** The invariant, and what it means *)

Record timeline {A} `{Ruled A} (rs : list A) : Prop := {
  tl_starts : NoDup (starts rs);
  tl_days : Forall whole_day (starts rs);
  tl_ends : forall r, r ∈ rs -> rl_to r = target (starts rs) r
}.

Section meaning.
Context {A : Type} `{RuledLaws A}.
Context {V : Type} (value : A -> V) (value_ending : forall t r, value (rl_ending t r) = value r).

Definition history (rs : list A) : gmap Z V := list_to_map (map (fun r => (rl_from r, value r)) rs).

Lemma history_starts rs x : is_Some (history rs !! x) <-> x ∈ starts rs.
Proof.
  unfold history, starts. rewrite list_elem_of_fmap. split.
  - intros [v E]. apply elem_of_list_to_map_2 in E. apply list_elem_of_fmap in E as (r & [= -> ->] & I).
    by exists r.
  - intros (r & -> & I). destruct (list_to_map _ !! rl_from r) as [v|] eqn:E; [by exists v|].
    apply not_elem_of_list_to_map in E. destruct E. rewrite list_elem_of_fmap.
    exists (rl_from r, value r). split; [done|]. apply list_elem_of_fmap. by exists r.
Qed.

Lemma history_lookup rs r : NoDup (starts rs) -> r ∈ rs -> history rs !! rl_from r = Some (value r).
Proof.
  intros N I. apply elem_of_list_to_map_1.
  - rewrite <- list_fmap_compose. exact N.
  - apply list_elem_of_fmap. by exists r.
Qed.

Lemma history_lookup_Some rs d v : NoDup (starts rs) ->
  history rs !! d = Some v <-> exists r, r ∈ rs /\ rl_from r = d /\ value r = v.
Proof.
  intros N. split.
  - intros E. apply elem_of_list_to_map_2, list_elem_of_fmap in E as (r & [= -> ->] & I). by exists r.
  - intros (r & I & <- & <-). by apply history_lookup.
Qed.

(** In a timeline the rule for a day is the one with the last first day. *)
Lemma rule_on_latest (compare : A -> A -> Z) `{!Comparator compare} rs d : timeline rs -> whole_day d ->
  match rule_on compare rs d with
  | Some r => r ∈ rs /\ last_start (starts rs) d = Some (rl_from r)
  | None => last_start (starts rs) d = None
  end.
Proof.
  intros [N D E] Wd.
  assert (C : forall r, r ∈ rs -> covers d r = true <-> last_start (starts rs) d = Some (rl_from r)).
  { intros r I. assert (Is : rl_from r ∈ starts rs) by by apply list_elem_of_fmap_2.
    unfold covers. rewrite (E r I). unfold target.
    pose proof (next_start_spec (starts rs) (rl_from r)) as P. pose proof (last_start_spec (starts rs) d) as Q.
    rewrite Forall_forall in D. rewrite andb_true_iff, Z.leb_le.
    destruct (last_start (starts rs) d) as [m|].
    - destruct Q as (Im & Lm & Mm). destruct (next_start _ _) as [n|]; cbn [fmap option_fmap option_map].
      + destruct P as (In & Ln & Mn). rewrite Z.leb_le. split.
        * intros [L L']. f_equal. pose proof (Mm _ Is L). destruct (Z.eq_dec m (rl_from r)); [done|].
          specialize (Mn m Im ltac:(lia)). unfold msPerDay in *. lia.
        * intros [= ->]. split; [done|]. apply whole_day_lt; [done|by apply D|].
          destruct (Z.le_gt_cases n d) as [Ld|Ld]; [|lia]. specialize (Mm n In Ld). lia.
      + split.
        * intros [L _]. f_equal. pose proof (Mm _ Is L). specialize (P m Im). lia.
        * intros [= ->]. done.
    - specialize (Q _ Is). split; [lia|done]. }
  unfold rule_on. destruct (js_sort compare (List.filter (covers d) rs)) as [|r l] eqn:Es; simpl.
  - pose proof (last_start_spec (starts rs) d) as Q. destruct (last_start (starts rs) d) as [m|] eqn:El; [|done].
    destruct Q as (Im & _). apply list_elem_of_fmap in Im as (r & -> & I).
    assert (F : r ∈ js_sort compare (List.filter (covers d) rs)).
    { rewrite elem_of_js_sort, elem_of_filterb. split; [done|]. by apply C. }
    rewrite Es in F. by apply elem_of_nil in F.
  - apply js_sort_head in Es as [I _]; [|done]. apply elem_of_filterb in I as [I Cr].
    split; [done|]. by apply C.
Qed.

(** The refinement: the table answers what the history says. *)
Lemma rule_on_in_force (compare : A -> A -> Z) `{!Comparator compare} rs d : timeline rs -> whole_day d ->
  value <$> rule_on compare rs d = in_force (history rs) d.
Proof.
  intros T Wd. pose proof (rule_on_latest compare rs d T Wd) as P. unfold in_force.
  rewrite (last_start_set _ (starts rs)) by (intros x; rewrite elem_of_starts; apply history_starts).
  destruct (rule_on compare rs d) as [r|]; [|by rewrite P]. destruct P as [I ->]. simpl.
  rewrite history_lookup by (done || apply T). done.
Qed.

(** Two sets of rules with the same days and values have the same history. *)
Lemma history_ext rs rs' : NoDup (starts rs) -> NoDup (starts rs') ->
  (forall d v, (exists r, r ∈ rs /\ rl_from r = d /\ value r = v)
               <-> (exists r, r ∈ rs' /\ rl_from r = d /\ value r = v)) ->
  history rs = history rs'.
Proof.
  intros N N' E. apply map_eq. intros d. apply option_eq. intros v.
  by rewrite !history_lookup_Some.
Qed.

Lemma history_cons r rs : NoDup (starts (r :: rs)) -> history (r :: rs) = <[rl_from r := value r]> (history rs).
Proof. done. Qed.

Lemma history_perm rs rs' : NoDup (starts rs) -> rs ≡ₚ rs' -> history rs = history rs'.
Proof.
  intros N P. apply history_ext; [done| |].
  - unfold starts. by rewrite <- P.
  - intros d v. by setoid_rewrite P.
Qed.
End meaning.

(** The pass turns rows with distinct first days into a timeline with the same
    history. *)
Section pass.
Context {A : Type} `{RuledLaws A} (mine : A -> bool) (mine_ending : forall t r, mine (rl_ending t r) = mine r).

Lemma ended_timeline rs : NoDup (starts (List.filter mine rs)) ->
  Forall whole_day (starts (List.filter mine rs)) -> timeline (List.filter mine (ended mine rs)).
Proof.
  intros N D. rewrite filter_ended by done.
  set (S := starts (List.filter mine rs)). set (g := fun x => _).
  assert (Es : starts (map g (List.filter mine rs)) = S).
  { unfold starts. rewrite map_map. apply map_ext. intros x. unfold g.
    destruct (mine x); [apply rl_ending_from|done]. }
  split; [by rewrite Es..|]. rewrite Es. intros r I. apply list_elem_of_fmap in I as (x & -> & I).
  apply elem_of_filterb in I as [_ M]. unfold g. rewrite M, rl_ending_to. unfold target.
  by rewrite rl_ending_from.
Qed.

Lemma ended_history {V} (value : A -> V) rs : (forall t r, value (rl_ending t r) = value r) ->
  history value (List.filter mine (ended mine rs)) = history value (List.filter mine rs).
Proof.
  intros E. unfold history. f_equal. rewrite filter_ended by done. rewrite map_map. apply map_ext.
  intros x. destruct (mine x); [by rewrite rl_ending_from, E|done].
Qed.

(** On a timeline the pass changes nothing. *)
Lemma ended_id rs : timeline (List.filter mine rs) -> ended mine rs = rs.
Proof.
  intros [N D E]. unfold ended. rewrite <- (List.map_id rs) at 2. apply map_ext_in.
  intros x Hx. apply list_elem_of_In in Hx. destruct (mine x) eqn:M; [|done].
  rewrite <- (E x) by (by apply elem_of_filterb). apply rl_ending_same.
Qed.
End pass.

(** ** What the statements do to the histories *)

Section statements.
Context {A : Type} `{RuledLaws A}.
Context {V : Type} (value : A -> V).

Lemma NoDup_rows (rs : list A) : NoDup (ids rs) -> NoDup rs.
Proof. apply NoDup_fmap_1. Qed.

Lemma NoDup_starts_iff (rs : list A) : NoDup (ids rs) ->
  NoDup (starts rs) <-> forall x y, x ∈ rs -> y ∈ rs -> rl_from x = rl_from y -> x = y.
Proof.
  intros N. split; [intros S x y; by apply same_start|].
  intros I. apply NoDup_fmap_2_strong; [intros x y Hx Hy; by apply I|by apply NoDup_rows].
Qed.

Lemma put_row_ids (r' : A) rs : ids (put_row r' rs) = ids rs.
Proof.
  unfold ids, put_row. rewrite map_map. apply map_ext. intros x. unfold str_eqb.
  case_bool_decide as E; [done|done].
Qed.

Lemma put_row_elem (rs : list A) r r' x : r ∈ rs -> rl_id r' = rl_id r ->
  x ∈ put_row r' rs <-> x = r' \/ (x ∈ rs /\ rl_id x <> rl_id r).
Proof.
  intros I E. unfold put_row. rewrite list_elem_of_fmap. unfold str_eqb. rewrite E. split.
  - intros (y & -> & Hy). case_bool_decide; auto.
  - intros [->|[Hx N]].
    + exists r. by rewrite bool_decide_eq_true_2.
    + exists x. by rewrite bool_decide_eq_false_2.
Qed.

Lemma put_row_starts (rs : list A) r r' : NoDup (ids rs) -> NoDup (starts rs) -> r ∈ rs -> rl_id r' = rl_id r ->
  (forall x, x ∈ rs -> rl_id x <> rl_id r -> rl_from x <> rl_from r') -> NoDup (starts (put_row r' rs)).
Proof.
  intros N S I E F. apply NoDup_starts_iff; [by rewrite put_row_ids|]. intros x y.
  rewrite !(put_row_elem rs r r') by done. intros [->|[Hx Nx]] [->|[Hy Ny]] D; [done| | |].
  - by destruct (F y Hy Ny).
  - by destruct (F x Hx Nx).
  - by eapply same_start.
Qed.

Lemma put_row_history (rs : list A) r r' : NoDup (ids rs) -> NoDup (starts rs) -> r ∈ rs -> rl_id r' = rl_id r ->
  (forall x, x ∈ rs -> rl_id x <> rl_id r -> rl_from x <> rl_from r') ->
  history value (put_row r' rs) = <[rl_from r' := value r']> (delete (rl_from r) (history value rs)).
Proof.
  intros N S I E F. pose proof (put_row_starts rs r r' N S I E F) as S'.
  apply map_eq. intros d. apply option_eq. intros v. rewrite history_lookup_Some by done.
  setoid_rewrite (put_row_elem rs r r'); [|done..].
  destruct (decide (d = rl_from r')) as [->|Nd].
  - rewrite lookup_insert_eq. split.
    + intros (x & [->|[Hx Nx]] & D & <-); [done|]. by destruct (F x Hx Nx).
    + intros [= <-]. exists r'. auto.
  - rewrite lookup_insert_ne by done. destruct (decide (d = rl_from r)) as [->|Nd'].
    + rewrite lookup_delete_eq. split; [|done]. intros (x & [->|[Hx Nx]] & D & _); [done|].
      destruct Nx. by rewrite (same_start rs x r).
    + rewrite lookup_delete_ne, history_lookup_Some by done. split.
      * intros (x & [->|[Hx Nx]] & <- & <-); [done|]. by exists x.
      * intros (x & Hx & <- & <-). exists x. split; [right; split; [done|]|done].
        intros Ex. destruct Nd'. by rewrite (same_id rs x r).
Qed.

Lemma snoc_history (rs : list A) r : NoDup (starts (rs ++ [r])) ->
  history value (rs ++ [r]) = <[rl_from r := value r]> (history value rs).
Proof.
  intros N. assert (P : rs ++ [r] ≡ₚ r :: rs) by (symmetry; apply Permutation_cons_append).
  rewrite (history_perm value _ _ N P). by rewrite history_cons by (unfold starts in *; by rewrite <- P).
Qed.

Definition drop_row (i : str) (rs : list A) : list A := List.filter (fun x => negb (str_eqb (rl_id x) i)) rs.

Lemma drop_row_elem i rs x : x ∈ drop_row i rs <-> x ∈ rs /\ rl_id x <> i.
Proof. unfold drop_row. rewrite elem_of_filterb, negb_true_iff. unfold str_eqb. by rewrite bool_decide_eq_false. Qed.

Lemma drop_row_NoDup {B} (f : A -> B) i rs : NoDup (map f rs) -> NoDup (map f (drop_row i rs)).
Proof.
  unfold drop_row. induction rs as [|x rs IH]; [done|]. cbn [map List.filter]. rewrite NoDup_cons. intros [N S].
  destruct (negb _); [|auto]. cbn [map]. apply NoDup_cons. split; [|auto]. intros I. apply N.
  apply list_elem_of_fmap in I as (y & -> & I). apply elem_of_filterb in I as [I _]. by apply list_elem_of_fmap_2.
Qed.

Lemma drop_row_history (rs : list A) r : NoDup (ids rs) -> NoDup (starts rs) -> r ∈ rs ->
  history value (drop_row (rl_id r) rs) = delete (rl_from r) (history value rs).
Proof.
  intros N S I. pose proof (drop_row_NoDup rl_from (rl_id r) rs S) as S'.
  apply map_eq. intros d. apply option_eq. intros v. rewrite history_lookup_Some by done.
  setoid_rewrite drop_row_elem. destruct (decide (d = rl_from r)) as [->|Nd].
  - rewrite lookup_delete_eq. split; [|done]. intros (x & [Hx Nx] & D & _).
    destruct Nx. by rewrite (same_start rs x r).
  - rewrite lookup_delete_ne, history_lookup_Some by done. split.
    + intros (x & [Hx Nx] & <- & <-). by exists x.
    + intros (x & Hx & <- & <-). exists x. split; [split; [done|]|done].
      intros Ex. destruct Nd. by rewrite (same_id rs x r).
Qed.
End statements.
