(* ===== verification/RuledTable.v ===== *)
(** * Tables of many histories

    A table of rules whose rows belong to different owners: each owner has a
    history of its own.  Between a statement and the pass that stores the last
    days the history of one owner is open; all others are timelines.  The
    lemmas say what an insertion, an update, a deletion and the pass do to the
    histories, and that the pass closes the one it is for. *)

From S2P Require Import Prelude JsNumber JsString JsDate.
From S2P Require Import DateNumber.
From S2P Require Import Timeline.

Local Open Scope Z_scope.

Section table.
Context {A : Type} `{RuledLaws A} {V : Type} (owner : A -> str) (value : A -> V).
Context (owner_ending : forall t r, owner (rl_ending t r) = owner r)
        (value_ending : forall t r, value (rl_ending t r) = value r).

Definition of_owner (p : str) (rs : list A) : list A := List.filter (fun r => str_eqb (owner r) p) rs.

(** The history of an owner. *)
Definition hist (rs : list A) (p : str) : gmap Z V := history value (of_owner p rs).

Record table (open : list str) (rs : list A) : Prop := {
  tb_ids : NoDup (ids rs);
  tb_days : Forall whole_day (starts rs);
  tb_starts p : NoDup (starts (of_owner p rs));
  tb_timeline p : p ∉ open -> timeline (of_owner p rs)
}.

Lemma elem_of_owner p rs r : r ∈ of_owner p rs <-> r ∈ rs /\ owner r = p.
Proof. unfold of_owner, str_eqb. by rewrite elem_of_filterb, bool_decide_eq_true. Qed.

Lemma table_weaken open open' rs : open ⊆ open' -> table open rs -> table open' rs.
Proof. intros S [I D N T]. split; [done..|]. intros p Hp. apply T. set_solver. Qed.

Lemma table_owner_days open rs p : table open rs -> Forall whole_day (starts (of_owner p rs)).
Proof.
  intros [_ D _ _]. rewrite Forall_forall in D. apply Forall_forall. intros d Hd.
  apply list_elem_of_fmap in Hd as (r & -> & [Hr _]%elem_of_owner). apply D. by apply list_elem_of_fmap_2.
Qed.

Lemma table_owner_ids open rs p : table open rs -> NoDup (ids (of_owner p rs)).
Proof.
  intros [I _ _ _]. unfold ids, of_owner in *. clear -I.
  induction rs as [|x rs IH]; [done|]. cbn [map List.filter] in *.
  apply NoDup_cons in I as [N I]. destruct (str_eqb _ _); [|auto]. cbn [map]. apply NoDup_cons. split; [|auto].
  intros Hx. apply N. apply list_elem_of_fmap in Hx as (y & -> & [Hy _]%elem_of_filterb).
  by apply list_elem_of_fmap_2.
Qed.

Lemma hist_lookup open rs r : table open rs -> r ∈ rs -> hist rs (owner r) !! rl_from r = Some (value r).
Proof. intros T Hr. apply history_lookup; [by eapply tb_starts|by apply elem_of_owner]. Qed.

Lemma hist_Some open rs p d v : table open rs ->
  hist rs p !! d = Some v <-> exists r, r ∈ rs /\ owner r = p /\ rl_from r = d /\ value r = v.
Proof.
  intros T. unfold hist. rewrite history_lookup_Some by by eapply tb_starts.
  setoid_rewrite elem_of_owner. naive_solver.
Qed.

Lemma hist_None open rs p d : table open rs ->
  hist rs p !! d = None <-> forall r, r ∈ rs -> owner r = p -> rl_from r <> d.
Proof.
  intros T. split.
  - intros E r Hr <- <-. by rewrite (hist_lookup open) in E.
  - intros F. destruct (hist rs p !! d) as [v|] eqn:E; [|done].
    apply (hist_Some open rs p d v T) in E as (r & Hr & Ho & Hd & _). by destruct (F r Hr Ho).
Qed.

Lemma table_starts_whole open rs p d v : table open rs -> hist rs p !! d = Some v -> whole_day d.
Proof.
  intros T (r & Hr & _ & <- & _)%(hist_Some open); [|done]. destruct T as [_ D _ _].
  rewrite Forall_forall in D. apply D. by apply list_elem_of_fmap_2.
Qed.

(** ** An insertion *)

Lemma of_owner_app p rs r :
  of_owner p (rs ++ [r]) = if str_eqb (owner r) p then of_owner p rs ++ [r] else of_owner p rs.
Proof.
  unfold of_owner. rewrite List.filter_app. cbn [List.filter]. destruct (str_eqb _ _); [done|by rewrite app_nil_r].
Qed.

Lemma table_insert open rs r : table open rs -> rl_id r ∉ ids rs -> whole_day (rl_from r) ->
  hist rs (owner r) !! rl_from r = None -> table (owner r :: open) (rs ++ [r]).
Proof.
  intros T Hi Hw Hn. pose proof T as [I D N L]. split.
  - unfold ids. rewrite map_app. apply NoDup_app. split; [done|]. split.
    + intros x Hx ->%list_elem_of_singleton. done.
    + apply NoDup_singleton.
  - unfold starts. rewrite map_app. apply Forall_app. split; [done|by apply Forall_singleton].
  - intros p. rewrite of_owner_app. unfold str_eqb. case_bool_decide as E; [|done].
    unfold starts. rewrite map_app. apply NoDup_app. split; [apply N|]. split; [|apply NoDup_singleton].
    intros x Hx ->%list_elem_of_singleton. apply list_elem_of_fmap in Hx as (y & Ey & [Hy Ho]%elem_of_owner).
    rewrite (hist_None open) in Hn by done. apply (Hn y Hy); congruence.
  - intros p Hp. rewrite not_elem_of_cons in Hp. destruct Hp as [Hp Ho]. rewrite of_owner_app.
    unfold str_eqb. rewrite bool_decide_eq_false_2 by done. by apply L.
Qed.

Lemma hist_insert open rs r p : table open (rs ++ [r]) ->
  hist (rs ++ [r]) p
  = if str_eqb p (owner r) then <[rl_from r := value r]> (hist rs p) else hist rs p.
Proof.
  intros T. pose proof (tb_starts _ _ T p) as N. unfold hist. rewrite of_owner_app in *. unfold str_eqb in *.
  destruct (decide (p = owner r)) as [->|Np].
  - rewrite !bool_decide_eq_true_2 in * by done. by apply snoc_history.
  - by rewrite !bool_decide_eq_false_2 by done.
Qed.

(** ** An update that keeps the owner *)

Lemma of_owner_put p rs r r' : NoDup (ids rs) -> r ∈ rs -> rl_id r' = rl_id r -> owner r' = owner r ->
  of_owner p (put_row r' rs) = if str_eqb p (owner r) then put_row r' (of_owner p rs) else of_owner p rs.
Proof.
  intros N Hr Ei Eo. unfold of_owner, put_row.
  assert (G : forall l, (forall x, x ∈ l -> x ∈ rs) ->
    List.filter (fun x => str_eqb (owner x) p) (map (fun x => if str_eqb (rl_id x) (rl_id r') then r' else x) l)
    = if str_eqb p (owner r)
      then map (fun x => if str_eqb (rl_id x) (rl_id r') then r' else x) (List.filter (fun x => str_eqb (owner x) p) l)
      else List.filter (fun x => str_eqb (owner x) p) l); [|by apply G].
  induction l as [|x l IH]; intros S; [by destruct (str_eqb p (owner r))|]. cbn [map List.filter].
  rewrite IH by (intros; apply S; by apply list_elem_of_further). clear IH. rewrite Ei. unfold str_eqb.
  destruct (decide (rl_id x = rl_id r)) as [E|E].
  - assert (x = r) as -> by (eapply same_id; [done|apply S, list_elem_of_here|done..]).
    rewrite (bool_decide_eq_true_2 (rl_id r = rl_id r)), Eo by done.
    destruct (decide (p = owner r)) as [->|Np].
    + rewrite !bool_decide_eq_true_2 by done. cbn [map]. by rewrite bool_decide_eq_true_2 by done.
    + by rewrite !bool_decide_eq_false_2 by done.
  - rewrite (bool_decide_eq_false_2 (rl_id x = rl_id r)) by done.
    destruct (decide (owner x = p)) as [<-|Np].
    + rewrite (bool_decide_eq_true_2 (owner x = owner x)) by done. case_bool_decide; [|done]. cbn [map].
      by rewrite bool_decide_eq_false_2.
    + by rewrite (bool_decide_eq_false_2 (owner x = p)) by done.
Qed.

(** No other rule of the owner starts when the new row does. *)
Definition free_start (rs : list A) (r' : A) : Prop :=
  forall x, x ∈ rs -> owner x = owner r' -> rl_id x <> rl_id r' -> rl_from x <> rl_from r'.

Lemma table_put open rs r r' : table open rs -> r ∈ rs -> rl_id r' = rl_id r -> owner r' = owner r ->
  whole_day (rl_from r') -> free_start rs r' -> table (owner r :: open) (put_row r' rs).
Proof.
  intros T Hr Ei Eo Hw Hf. pose proof T as [I D N L]. split.
  - by rewrite put_row_ids.
  - rewrite Forall_forall in D. apply Forall_forall. intros d Hd.
    apply list_elem_of_fmap in Hd as (x & -> & Hx). rewrite (put_row_elem rs r r') in Hx by done.
    destruct Hx as [->|[Hx _]]; [done|]. apply D. by apply list_elem_of_fmap_2.
  - intros p. rewrite (of_owner_put p rs r r') by done. unfold str_eqb. case_bool_decide as E; [|done]. subst p.
    apply (put_row_starts _ r); [by eapply table_owner_ids|done|by apply elem_of_owner|done|].
    intros x [Hx Ho]%elem_of_owner Nx. apply Hf; [done|congruence..].
  - intros p Hp. rewrite not_elem_of_cons in Hp. destruct Hp as [Hp Ho].
    rewrite (of_owner_put p rs r r') by done. unfold str_eqb. rewrite bool_decide_eq_false_2 by done. by apply L.
Qed.

Lemma hist_put open rs r r' p : table open rs -> r ∈ rs -> rl_id r' = rl_id r -> owner r' = owner r ->
  free_start rs r' ->
  hist (put_row r' rs) p
  = if str_eqb p (owner r) then <[rl_from r' := value r']> (delete (rl_from r) (hist rs p)) else hist rs p.
Proof.
  intros T Hr Ei Eo Hf. unfold hist. rewrite (of_owner_put p rs r r') by (done || apply T).
  unfold str_eqb. case_bool_decide as E; [|done]. subst p.
  apply put_row_history; [by eapply table_owner_ids|apply T|by apply elem_of_owner|done|].
  intros x [Hx Ho]%elem_of_owner Nx. apply Hf; [done|congruence..].
Qed.

(** ** A deletion *)

Lemma of_owner_drop p i rs : of_owner p (drop_row i rs) = drop_row i (of_owner p rs).
Proof.
  unfold of_owner, drop_row. rewrite !filterb_and. apply filterb_ext. intros x _. apply andb_comm.
Qed.

Lemma drop_row_none i rs : i ∉ ids rs -> drop_row i rs = rs.
Proof.
  intros N. apply filter_all. intros x Hx. apply negb_true_iff, bool_decide_eq_false. intros <-.
  apply N. by apply list_elem_of_fmap_2.
Qed.

Lemma of_owner_drop_other p rs r : NoDup (ids rs) -> r ∈ rs -> p <> owner r ->
  of_owner p (drop_row (rl_id r) rs) = of_owner p rs.
Proof.
  intros N Hr Np. rewrite of_owner_drop. apply drop_row_none. intros Hi.
  apply list_elem_of_fmap in Hi as (x & Ex & [Hx Ho]%elem_of_owner).
  by rewrite (same_id rs r x) in Np.
Qed.

Lemma table_drop open rs r : table open rs -> r ∈ rs -> table (owner r :: open) (drop_row (rl_id r) rs).
Proof.
  intros T Hr. pose proof T as [I D N L]. split.
  - by apply drop_row_NoDup.
  - rewrite Forall_forall in D. apply Forall_forall. intros d Hd.
    apply list_elem_of_fmap in Hd as (x & -> & [Hx _]%drop_row_elem). apply D. by apply list_elem_of_fmap_2.
  - intros p. rewrite of_owner_drop. apply (drop_row_NoDup rl_from), N.
  - intros p Hp. rewrite not_elem_of_cons in Hp. destruct Hp as [Hp Ho].
    rewrite of_owner_drop_other by done. by apply L.
Qed.

Lemma hist_drop open rs r p : table open rs -> r ∈ rs ->
  hist (drop_row (rl_id r) rs) p
  = if str_eqb p (owner r) then delete (rl_from r) (hist rs p) else hist rs p.
Proof.
  intros T Hr. unfold hist, str_eqb. case_bool_decide as E.
  - subst p. rewrite of_owner_drop. apply drop_row_history; [by eapply table_owner_ids|apply T|by apply elem_of_owner].
  - by rewrite of_owner_drop_other by (done || apply T).
Qed.

(** ** The pass *)

Context (compare : A -> A -> Z) `{!Comparator compare}
  (compare_start : forall a b, compare a b <= 0 -> rl_from a <= rl_from b).
Context (previous : Z -> Z) (previous_day : forall d, previous d = d - msPerDay).

Lemma owns_ending p t r : str_eqb (owner (rl_ending t r)) p = str_eqb (owner r) p.
Proof. by rewrite owner_ending. Qed.

Definition closed (p : str) : list A -> list A := ended (fun r => str_eqb (owner r) p).

Lemma normalize_closed open rs p duplicate : table open rs ->
  normalize previous duplicate (js_sort compare (of_owner p rs)) rs = Ok (closed p rs).
Proof.
  intros T. apply normalize_ended; [done..|apply T|apply T|by eapply table_owner_days].
Qed.

Lemma of_owner_closed p q rs : p <> q -> of_owner q (closed p rs) = of_owner q rs.
Proof.
  intros Np. apply filter_ended_other; [intros ? ?; apply owns_ending|].
  intros r _ Hq. apply bool_decide_eq_true in Hq. apply bool_decide_eq_false. congruence.
Qed.

Lemma closed_ids p rs : ids (closed p rs) = ids rs.
Proof. apply ended_map_eq. apply rl_ending_id. Qed.

Lemma closed_starts p q rs : starts (of_owner q (closed p rs)) = starts (of_owner q rs).
Proof.
  unfold of_owner, closed. rewrite filter_ended by (intros ? ?; apply owns_ending).
  unfold starts. rewrite map_map. apply map_ext. intros x. case_match; [apply rl_ending_from|done].
Qed.

Lemma table_closed open rs p : table (p :: open) rs -> table open (closed p rs).
Proof.
  intros T. pose proof T as [I D N L].
  assert (C : timeline (of_owner p (closed p rs))).
  { apply ended_timeline; [intros ? ?; apply owns_ending|apply N|by eapply table_owner_days]. }
  split.
  - by rewrite closed_ids.
  - unfold starts, closed in *. by rewrite ended_map_eq by apply rl_ending_from.
  - intros q. rewrite closed_starts. apply N.
  - intros q Hq. destruct (decide (p = q)) as [<-|Np]; [done|].
    rewrite of_owner_closed by done. apply L. rewrite elem_of_cons. naive_solver.
Qed.

Lemma hist_closed p q rs : hist (closed p rs) q = hist rs q.
Proof.
  unfold hist. destruct (decide (p = q)) as [<-|Np]; [|by rewrite of_owner_closed].
  by apply ended_history; [intros ? ?; apply owns_ending|].
Qed.

(** A row after the pass: the same row with another last day. *)
Lemma elem_of_closed p rs r : r ∈ closed p rs ->
  exists x t, x ∈ rs /\ r = (if str_eqb (owner x) p then rl_ending t x else x).
Proof.
  intros Hr. apply list_elem_of_fmap in Hr as (x & -> & Hx). eexists x, _. split; [done|]. reflexivity.
Qed.

Lemma closed_by_id p rs i : row_by_id i (closed p rs)
  = (fun x => if str_eqb (owner x) p then rl_ending (target (starts (of_owner p rs)) x) x else x)
    <$> row_by_id i rs.
Proof.
  unfold closed, ended, row_by_id. fold (of_owner p rs). set (S := starts (of_owner p rs)). clearbody S.
  induction rs as [|x rs IH]; [done|]. cbn [map List.find].
  replace (rl_id (if str_eqb (owner x) p then _ else x)) with (rl_id x)
    by (case_match; [by rewrite rl_ending_id|done]).
  destruct (str_eqb (rl_id x) i); [done|apply IH].
Qed.
End table.

(** ** A check *)

Section check.
Context {A : Type} `{RuledLaws A}.

Definition timeline_check (rs : list A) : bool :=
  bool_decide (NoDup (starts rs)) && forallb (fun d => d mod msPerDay =? 0) (starts rs)
  && forallb (fun r => bool_decide (rl_to r = target (starts rs) r)) rs.

Lemma timeline_check_ok rs : timeline_check rs = true -> timeline rs.
Proof.
  unfold timeline_check. rewrite !andb_true_iff, bool_decide_eq_true, !forallb_forall_iff. intros [[N D] E].
  split; [done| |].
  - apply Forall_forall. intros d Hd. apply Z.mod_divide; [done|]. by apply Z.eqb_eq, D.
  - intros r Hr. by apply (bool_decide_eq_true (rl_to r = target (starts rs) r)), E.
Qed.

(** A table of one owner. *)
Lemma table_single (owner : A -> str) q rs : forallb (fun r => str_eqb (owner r) q) rs = true ->
  bool_decide (NoDup (ids rs)) = true -> timeline_check rs = true -> table owner [] rs.
Proof.
  intros O N T%timeline_check_ok. rewrite forallb_forall_iff in O. apply bool_decide_eq_true in N.
  assert (P : forall p, of_owner owner p rs = rs \/ of_owner owner p rs = []).
  { intros p. destruct (decide (q = p)) as [<-|Np]; [left; by apply filter_all|right].
    apply filter_nothing. intros x Hx. apply bool_decide_eq_false. intros Ex.
    apply Np. specialize (O x Hx). apply bool_decide_eq_true in O. congruence. }
  split; [done|apply T| |].
  - intros p. destruct (P p) as [-> | ->]; [apply T|constructor].
  - intros p _. destruct (P p) as [-> | ->]; [done|]. split; [constructor..|]. by intros r Hr%elem_of_nil.
Qed.
End check.
