(* ===== verification/RuledErasure.v ===== *)
(** * Tables of histories without last days

    The last days of a history follow from its first days, so that a table whose
    last days were stored is determined by what remains without them.  [erase]
    forgets the last days of some owners; two tables that agree after that
    become equal when the pass runs for each of these owners. *)

From S2P Require Import Prelude JsNumber JsString JsDate.
From S2P Require Import Timeline.
From S2P Require Import RuledTable.

Local Open Scope Z_scope.

Section erasure.
Context {A : Type} `{RuledLaws A} (owner : A -> str).
Context (owner_ending : forall t r, owner (rl_ending t r) = owner r).
Implicit Types (a b rs : list A) (S : list str).

Definition erase1 S (r : A) : A := if bool_decide (owner r ∈ S) then rl_ending None r else r.
Definition erase S rs : list A := map (erase1 S) rs.

Lemma erase1_id S r : rl_id (erase1 S r) = rl_id r.
Proof. unfold erase1. case_bool_decide; [apply rl_ending_id|done]. Qed.
Lemma erase1_from S r : rl_from (erase1 S r) = rl_from r.
Proof. unfold erase1. case_bool_decide; [apply rl_ending_from|done]. Qed.
Lemma erase1_owner S r : owner (erase1 S r) = owner r.
Proof. unfold erase1. by case_bool_decide. Qed.
Lemma erase1_keep S r : owner r ∉ S -> erase1 S r = r.
Proof. intros N. unfold erase1. by rewrite bool_decide_eq_false_2. Qed.

Lemma erase_ids S rs : ids (erase S rs) = ids rs.
Proof. unfold ids, erase. rewrite map_map. apply map_ext, erase1_id. Qed.

Lemma erase_starts S rs : starts (erase S rs) = starts rs.
Proof. unfold starts, erase. rewrite map_map. apply map_ext, erase1_from. Qed.

Lemma erase_of_owner S p rs : of_owner owner p (erase S rs) = erase S (of_owner owner p rs).
Proof.
  unfold of_owner, erase. induction rs as [|r rs IH]; [done|]. simpl. rewrite erase1_owner, IH.
  by destruct (str_eqb _ _).
Qed.

Lemma erase_nil rs : erase [] rs = rs.
Proof.
  unfold erase. rewrite <- (List.map_id rs) at 2. apply map_ext. intros r. apply erase1_keep, not_elem_of_nil.
Qed.

(** Forgetting more. *)
Lemma erase_erase S S' rs : S ⊆ S' -> erase S' (erase S rs) = erase S' rs.
Proof.
  intros Sub. unfold erase. rewrite map_map. apply map_ext. intros r. unfold erase1 at 1. rewrite erase1_owner.
  unfold erase1. case_bool_decide as I; [|by rewrite (bool_decide_eq_false_2 (owner r ∈ S)) by set_solver].
  case_bool_decide; [apply rl_ending_ending|done].
Qed.

Lemma erase_mono S S' a b : S ⊆ S' -> erase S a = erase S b -> erase S' a = erase S' b.
Proof. intros Sub E. rewrite <- (erase_erase S S' a), E by done. by apply erase_erase. Qed.

(** The tables agree on ids, first days and owners, and on the other owners. *)
Lemma erased_table S a b : erase S a = erase S b -> table owner [] b -> table owner S a.
Proof.
  intros E [I D N L]. split.
  - by rewrite <- (erase_ids S), E, erase_ids.
  - by rewrite <- (erase_starts S), E, erase_starts.
  - intros p. rewrite <- (erase_starts S), <- erase_of_owner, E, erase_of_owner, erase_starts. apply N.
  - intros p Np. replace (of_owner owner p a) with (of_owner owner p b); [apply L, not_elem_of_nil|].
    assert (K : forall rs, erase S (of_owner owner p rs) = of_owner owner p rs).
    { intros rs. unfold erase. rewrite <- (List.map_id (of_owner owner p rs)) at 2. apply map_ext_in.
      intros r [_ O]%list_elem_of_In%elem_of_owner. apply erase1_keep. by rewrite O. }
    rewrite <- (K b), <- (K a), <- !erase_of_owner. by rewrite E.
Qed.

(** A row of another owner is in both. *)
Lemma erased_row S a b i r : erase S a = erase S b -> row_by_id i b = Some r -> owner r ∉ S ->
  row_by_id i a = Some r.
Proof.
  intros E F N.
  assert (G : forall rs, row_by_id i (erase S rs) = erase1 S <$> row_by_id i rs).
  { intros rs. unfold row_by_id, erase. induction rs as [|x rs IH]; [done|]. simpl. rewrite erase1_id.
    by destruct (str_eqb _ _). }
  pose proof (G a) as Ga. rewrite E, G, F in Ga. simpl in Ga. rewrite erase1_keep in Ga by done.
  destruct (row_by_id i a) as [y|]; [|done]. injection Ga as Ga. f_equal. rewrite Ga in N |- *.
  rewrite erase1_owner in N. symmetry. by apply erase1_keep.
Qed.

Lemma erase_put S x rs : owner x ∉ S -> erase S (put_row x rs) = put_row x (erase S rs).
Proof.
  intros N. unfold erase, put_row. rewrite !map_map. apply map_ext. intros r. rewrite erase1_id.
  destruct (str_eqb _ _); [by apply erase1_keep|done].
Qed.

Lemma erase_drop S i rs : erase S (drop_row i rs) = drop_row i (erase S rs).
Proof.
  unfold erase, drop_row. induction rs as [|r rs IH]; [done|]. simpl. rewrite erase1_id.
  destruct (negb _); simpl; by rewrite IH.
Qed.

Lemma erase_app S a b : erase S (a ++ b) = erase S a ++ erase S b.
Proof. apply map_app. Qed.

(** ** The pass *)

Definition end_one (p : str) rs (r : A) : A :=
  if str_eqb (owner r) p then rl_ending (target (starts (of_owner owner p rs)) r) r else r.

Lemma closed_eq p rs : closed owner p rs = map (end_one p rs) rs.
Proof. reflexivity. Qed.

Lemma erase1_closed p S t r : p ∈ S -> owner r = p -> erase1 S (rl_ending t r) = erase1 S r.
Proof.
  intros I <-. unfold erase1. rewrite owner_ending, bool_decide_eq_true_2 by done. apply rl_ending_ending.
Qed.

Lemma erase_closed p S rs : p ∈ S -> erase S (closed owner p rs) = erase S rs.
Proof.
  intros I. rewrite closed_eq. unfold erase. rewrite map_map. apply map_ext. intros r. unfold end_one.
  destruct (str_eqb (owner r) p) eqn:E; [|done]. apply bool_decide_eq_true in E. by eapply erase1_closed.
Qed.

(** It determines the last days that were forgotten. *)
Lemma closed_erased p S a b : erase (p :: S) a = erase (p :: S) b ->
  erase S (closed owner p a) = erase S (closed owner p b).
Proof.
  intros E. set (h St r := if str_eqb (owner r) p then erase1 S (rl_ending (target St r) r) else r).
  assert (K : forall rs, erase S (closed owner p rs)
    = map (h (starts (of_owner owner p (erase (p :: S) rs)))) (erase (p :: S) rs)).
  { intros rs. rewrite closed_eq, erase_of_owner, erase_starts. unfold erase. rewrite !map_map. apply map_ext.
    intros r. unfold h, end_one. rewrite erase1_owner. destruct (str_eqb (owner r) p) eqn:O.
    - apply bool_decide_eq_true in O. f_equal. unfold erase1. rewrite bool_decide_eq_true_2 by (rewrite O; by left).
      unfold target. by rewrite rl_ending_from, rl_ending_ending.
    - apply bool_decide_eq_false in O. unfold erase1.
      destruct (bool_decide (owner r ∈ S)) eqn:B.
      + apply bool_decide_eq_true in B. by rewrite bool_decide_eq_true_2 by (by right).
      + apply bool_decide_eq_false in B. rewrite bool_decide_eq_false_2; [done|]. by rewrite not_elem_of_cons. }
  by rewrite (K a), (K b), E.
Qed.

(** It changes nothing where the last days are stored. *)
Lemma end_one_same p rs r : timeline (of_owner owner p rs) -> r ∈ rs -> end_one p rs r = r.
Proof.
  intros [_ _ T] I. unfold end_one. destruct (str_eqb (owner r) p) eqn:E; [|done].
  apply bool_decide_eq_true in E. rewrite <- T by by apply elem_of_owner. apply rl_ending_same.
Qed.

Lemma closed_same p rs : timeline (of_owner owner p rs) -> closed owner p rs = rs.
Proof.
  intros T. rewrite closed_eq. transitivity (map (fun r => r) rs); [|apply List.map_id]. apply map_ext_in.
  intros r I%list_elem_of_In. by apply end_one_same.
Qed.

(** Nor after a row was replaced by one with the same days. *)
Lemma closed_put p rs r r' : table owner [] rs -> r ∈ rs -> rl_id r' = rl_id r -> owner r' = owner r ->
  rl_from r' = rl_from r -> rl_to r' = rl_to r -> closed owner p (put_row r' rs) = put_row r' rs.
Proof.
  intros T I Ei Eo Ef Et.
  assert (St : starts (of_owner owner p (put_row r' rs)) = starts (of_owner owner p rs)).
  { rewrite (of_owner_put owner p rs r r') by (done || apply T). destruct (str_eqb p (owner r)); [|done].
    unfold starts, put_row. rewrite map_map. apply map_ext_in. intros x [Hx Ox]%list_elem_of_In%elem_of_owner.
    destruct (str_eqb (rl_id x) (rl_id r')) eqn:E; [|done]. apply bool_decide_eq_true in E.
    rewrite (same_id rs x r); [done|apply T|done|done|congruence]. }
  assert (L : timeline (of_owner owner p rs)) by apply T, not_elem_of_nil.
  rewrite closed_eq. unfold put_row at 2. rewrite map_map. apply map_ext_in. intros x Hx%list_elem_of_In.
  pose proof (end_one_same p rs x L Hx) as Sx. pose proof (end_one_same p rs r L I) as Sr.
  unfold end_one in *. rewrite St. destruct (str_eqb (rl_id x) (rl_id r')); [|done].
  rewrite Eo. destruct (str_eqb (owner r) p); [|done]. unfold target in *. rewrite Ef.
  rewrite <- Sr in Et. rewrite rl_ending_to in Et. rewrite <- Et. apply rl_ending_same.
Qed.

(** Running it for every owner in [ps] brings back what was forgotten of them. *)
Lemma close_all ps S a b : table owner [] b -> S ⊆ ps -> erase S a = erase S b ->
  fold_left (fun rs p => closed owner p rs) ps a = b.
Proof.
  revert S a. induction ps as [|p ps IH]; intros S a T Sub E; simpl.
  - assert (S = []) as -> by (destruct S as [|s S]; [done|]; exfalso; eapply not_elem_of_nil, Sub; by left).
    by rewrite !erase_nil in E.
  - apply (IH (List.filter (fun q => negb (bool_decide (q = p))) S)); [done| |].
    + intros q [Iq Nq]%elem_of_filterb. apply negb_true_iff, bool_decide_eq_false in Nq.
      apply Sub, elem_of_cons in Iq as [?|?]; done.
    + rewrite <- (closed_same p b) by (apply T, not_elem_of_nil). apply closed_erased.
      eapply erase_mono, E. intros q Iq. destruct (decide (q = p)) as [->|N]; [by left|]. right.
      apply elem_of_filterb. split; [done|]. by apply negb_true_iff, bool_decide_eq_false.
Qed.
End erasure.
