(* ===== verification/CoupangPriceText.v ===== *)
(** * Price lists of Coupang products

    domain/coupang-price-text.ts: a text with one product and its price per
    line.  SHA-256 is a parameter. *)

From S2P Require Import Prelude JsNumber JsString.
From S2P Require Import DateNumber.
From S2P Require Import Pattern.

Module Price_text.

Definition spaces : re := Many is_ws.

(** [(?:=|,|\t|\s{2,})]. *)
Definition separator : re :=
  Alt (Chars (is_char 61)) (Alt (Chars (is_char 44))
    (Alt (Chars (is_char 9)) (Cat (Chars is_ws) (Cat (Chars is_ws) spaces)))).

Definition is_price_char (c : N) : bool := is_digit c || one_of (js ",.") c || is_ws c.

(** The patterns of a line, from its start to its end: the name, a separator,
    for the first one a currency sign or [KRW] in any case, and the price. *)
Definition PRICE_TEXT_LINE_PATTERN : re :=
  Cat spaces (Cat (Group (Some_lazy dot)) (Cat spaces (Cat separator (Cat spaces
    (Cat (Maybe (Cat (word (js "KRW")) spaces)) (Cat (Maybe (Chars (one_of [8361; 65510; 36]%N)))
      (Cat spaces (Cat (Group (Cat (Chars is_digit) (Many is_price_char)))
        (Cat (Maybe (Chars (is_char 50896))) spaces))))))))).

Definition LEGACY_PRICE_TEXT_LINE_PATTERN : re :=
  Cat spaces (Cat (Group (Some_lazy dot)) (Cat spaces (Cat separator (Cat spaces
    (Cat (Group (Cat (Chars is_price_char) (Many is_price_char))) spaces))))).

Record ParsedCoupangPriceTextRow := {
  itemName : str;
  salePriceKrw : num
}.

Record ParsedCoupangPriceTextRowResult := {
  rowNumber : Z;
  rawLine : str;
  sourceRowHash : str;
  parsedRow : option ParsedCoupangPriceTextRow;
  issues : list ParseIssue
}.

Definition legacyCoupangPriceTextItemName (rawLine correctedItemName : str) : option str :=
  match match_all LEGACY_PRICE_TEXT_LINE_PATTERN rawLine with
  | Some (name :: _) =>
      let legacyItemName := trim name in
      if negb (truthy legacyItemName) || str_eqb legacyItemName (trim correctedItemName)
      then None else Some legacyItemName
  | _ => None
  end.

Section parser.
Context (hashCoupangPriceTextRecord : str -> str).

Definition parseLine (line : str) (n : Z) : ParsedCoupangPriceTextRowResult :=
  match match_all PRICE_TEXT_LINE_PATTERN line with
  | Some [name; price] =>
      match parseNumberValue (CellText price) None with
      | Some p =>
          {| rowNumber := n; rawLine := line; sourceRowHash := hashCoupangPriceTextRecord line;
             parsedRow := Some {| itemName := trim name; salePriceKrw := p |}; issues := [] |}
      | None =>
          {| rowNumber := n; rawLine := line; sourceRowHash := hashCoupangPriceTextRecord line;
             parsedRow := None;
             issues := [{| columnName := js "price"; errorCode := js "INVALID_NUMBER";
                           message := js "Sale price must be numeric."; rawValue := Some price |}] |}
      end
  | _ =>
      {| rowNumber := n; rawLine := line; sourceRowHash := hashCoupangPriceTextRecord line;
         parsedRow := None;
         issues := [{| columnName := js "line"; errorCode := js "INVALID_PRICE_TEXT_LINE";
           message := js "Expected a product name and price separated by '=', comma, tab, or repeated spaces.";
           rawValue := Some line |}] |}
  end.

(** [text.split(/\r?\n/)]. *)
Definition lines (text : str) : list str :=
  let parts := split_on 10 text in
  let cut s := if ends_with [13%N] s then slice_drop_last 1 s else s in
  match rev parts with
  | [] => []
  | last :: before => map cut (rev before) ++ [last]
  end.

Definition parseBuffer (text : str) : list ParsedCoupangPriceTextRowResult :=
  List.filter (fun row => truthy (trim (rawLine row)))
    (imap (fun index line => parseLine line (Z.of_nat index + 1)) (lines text)).
End parser.

(** The pattern has two groups. *)
Lemma price_groups line cs :
  captured PRICE_TEXT_LINE_PATTERN line cs -> exists name price, cs = [name; price].
Proof.
  unfold PRICE_TEXT_LINE_PATTERN, spaces. intros M.
  repeat match goal with
  | H : captured (Cat _ _) _ _ |- _ => inversion H; subst; clear H
  | H : captured (Group _) _ _ |- _ => inversion H; subst; clear H
  | H : captured _ _ ?cs |- _ => is_var cs; apply plain_captured in H; [subst|done]
  end.
  simpl. eauto.
Qed.

(** A line gives a row exactly when it has the format of the pattern and
    the price found in it is a number; the row has the trimmed name and the
    number.  The search of the pattern misses no way to read the line. *)
Theorem parseLine_spec hash line n :
  match parsedRow (parseLine hash line n) with
  | Some row => exists name price,
      captured PRICE_TEXT_LINE_PATTERN line [name; price]
      /\ itemName row = trim name /\ parseNumberValue (CellText price) None = Some (salePriceKrw row)
      /\ issues (parseLine hash line n) = []
  | None =>
      (~ matches PRICE_TEXT_LINE_PATTERN line
       \/ exists name price, captured PRICE_TEXT_LINE_PATTERN line [name; price]
                            /\ parseNumberValue (CellText price) None = None)
      /\ issues (parseLine hash line n) <> []
  end.
Proof.
  unfold parseLine. pose proof (search_iff PRICE_TEXT_LINE_PATTERN line) as F.
  destruct (match_all PRICE_TEXT_LINE_PATTERN line) as [cs|] eqn:M.
  - apply search_value in M. pose proof (price_groups _ _ M) as (name & price & ->).
    destruct (parseNumberValue (CellText price) None) eqn:P; simpl; [by exists name, price|].
    split; [|done]. right. by exists name, price.
  - simpl. split; [|done]. left. intros [? E]%F. done.
Qed.

Example parse_price_lines :
  map (fun r => (rowNumber r, (fun p => (itemName p, toZ (salePriceKrw p))) <$> parsedRow r))
    (parseBuffer (fun s => s) (js "A-1 Tea = 12,900" ++ [13; 10; 32; 10]%N ++ js "Soap  KRW 3500" ++ [50896; 10]%N ++ js "Cup"))
  = [(1, Some (js "A-1 Tea", 12900)); (3, Some (js "Soap", 3500)); (4, None)]%Z.
Proof. vm_compute. reflexivity. Qed.

Example legacy_name :
  (legacyCoupangPriceTextItemName (js "Tea = 2, 500") (js "Tea = 2"),
   legacyCoupangPriceTextItemName (js "Tea = 500") (js "Tea")) = (Some (js "Tea"), None).
Proof. vm_compute. reflexivity. Qed.

End Price_text.
