(* ===== verification/CoupangMargin.v ===== *)
(** * Margin sheets of Coupang products

    domain/coupang-margin-csv.ts: the choice of the encoding, the columns by
    their names and the rows.  The CSV reader and the decoders are libraries of
    the program: [csv_parse] gives the records of a text as objects, [None]
    when it throws, and [csv_first_line] its first record. *)

From S2P Require Import Prelude JsNumber JsString.
From S2P Require Import DateNumber.

Module Margin_csv.

Inductive CoupangMarginColumnKey :=
  | ItemName | SalePrice | SupplyPrice | ProductCost | SalesFeeRate | SalesFee | SellerShippingFee
  | HanaroShippingFee | GrowthInboundFee | GrowthShippingFee | ReturnRate | ReturnCostPerUnit | AdEnabled.

#[export] Instance key_eq_dec : EqDecision CoupangMarginColumnKey.
Proof. solve_decision. Defined.

Record ParsedCoupangMarginRow := {
  itemName : str;
  salePriceKrw : num;
  supplyPriceKrw : num;
  productCostKrw : num;
  sellerShippingFeeKrw : option num;
  hanaroShippingFeeKrw : option num;
  growthInboundFeeKrw : num;
  growthShippingFeeKrw : num;
  returnRate : num;
  returnCostPerUnitKrw : num;
  adEnabled : bool
}.

(** The keys of the table of names, in its order. *)
Definition keys : list CoupangMarginColumnKey :=
  [ItemName; SalePrice; SupplyPrice; ProductCost; SalesFeeRate; SalesFee; SellerShippingFee;
   HanaroShippingFee; GrowthInboundFee; GrowthShippingFee; ReturnRate; ReturnCostPerUnit; AdEnabled].

Definition COUPANG_MARGIN_COLUMN_ALIASES (k : CoupangMarginColumnKey) : list str :=
  map js match k with
  | ItemName => ["항목"; "품목"; "Item"; "itemName"]
  | SalePrice => ["판매가(VAT포함)"; "판매가"; "Sale Price"; "salePriceKrw"]
  | SupplyPrice => ["공급가"; "Supply Price"; "supplyPriceKrw"]
  | ProductCost => ["원가"; "Product Cost"; "productCostKrw"]
  | SalesFeeRate => ["판매수수료율"; "Sales Fee Rate"; "salesFeeRate"]
  | SalesFee => ["판매수수료"; "Sales Fee"; "salesFeeKrw"]
  | SellerShippingFee => ["판매자 배송비"; "Seller Shipping Fee"; "sellerShippingFeeKrw"]
  | HanaroShippingFee => ["하나로 배송비"; "Hanaro Shipping Fee"; "hanaroShippingFeeKrw"]
  | GrowthInboundFee => ["그로스 입출고비"; "Growth Inbound Fee"; "growthInboundFeeKrw"]
  | GrowthShippingFee => ["그로스 배송비"; "Growth Shipping Fee"; "growthShippingFeeKrw"]
  | ReturnRate => ["평균 반품률"; "Return Rate"; "returnRate"]
  | ReturnCostPerUnit => ["반품 1건당 비용"; "Return Cost Per Unit"; "returnCostPerUnitKrw"]
  | AdEnabled => ["광고집행(Y/N)"; "Ad Enabled"; "adEnabled"]
  end%string.

Definition first_alias (k : CoupangMarginColumnKey) : str :=
  match COUPANG_MARGIN_COLUMN_ALIASES k with a :: _ => a | [] => [] end.

Definition COUPANG_MARGIN_REQUIRED_COLUMNS : list CoupangMarginColumnKey :=
  [ItemName; SalePrice; ProductCost; HanaroShippingFee; GrowthInboundFee; GrowthShippingFee].

Abbreviation header_map := (list (CoupangMarginColumnKey * str)).
Abbreviation raw_row := (list (str * str)).

Section parser.
Context `{Icu}.

(** ** Columns *)

Definition strip_bom (s : str) : str := match s with 65279%N :: r => r | _ => s end.
Definition normalizeHeader (value : str) : str := to_lower (trim (remove_ws (strip_bom value))).

Definition buildHeaderMap (headers : list str) : header_map :=
  let normalizedHeaders := fold_left (fun m h => map_set m (normalizeHeader h) h) headers [] in
  omap (fun key =>
    match List.find truthy (omap (fun alias => map_get normalizedHeaders (normalizeHeader alias))
                              (COUPANG_MARGIN_COLUMN_ALIASES key)) with
    | Some header => Some (key, header)
    | None => None
    end) keys.

Definition headerMatchScore (headers : list str) : nat :=
  List.length (List.filter (fun key =>
    existsb (fun alias => bool_decide (normalizeHeader alias ∈ map normalizeHeader headers))
      (COUPANG_MARGIN_COLUMN_ALIASES key)) keys).

(** [rawRow[header]] of the column of a key; [None] for [undefined]. *)
Definition readRaw (rawRow : raw_row) (headerMap : header_map) (key : CoupangMarginColumnKey) : option str :=
  header ← map_get headerMap key; if truthy header then map_get rawRow header else None.

Definition cell_of (raw : option str) : cell :=
  match raw with Some s => CellText s | None => CellUndefined end.

(** ** Values *)

Definition optionalText (rawRow : raw_row) (headerMap : header_map) (key : CoupangMarginColumnKey) : option str :=
  value ← readRaw rawRow headerMap key; if truthy (trim value) then Some (trim value) else None.

Definition issue (key : CoupangMarginColumnKey) (code text : string) (raw : option str) : ParseIssue :=
  {| columnName := first_alias key; errorCode := js code; message := first_alias key ++ js text; rawValue := raw |}.

(** Each reader returns its value and the issues that it pushes. *)
Definition requiredText (rawRow : raw_row) (headerMap : header_map) (key : CoupangMarginColumnKey)
  : str * list ParseIssue :=
  match optionalText rawRow headerMap key with
  | Some value => (value, [])
  | None => ([], [issue key "REQUIRED" " is required." (readRaw rawRow headerMap key)])
  end.

Definition requiredNumber (rawRow : raw_row) (headerMap : header_map) (key : CoupangMarginColumnKey)
  : num * list ParseIssue :=
  let raw := readRaw rawRow headerMap key in
  match parseNumberValue (cell_of raw) (Some (ofZ 0)) with
  | Some parsed => (parsed, [])
  | None => (ofZ 0, [issue key "INVALID_NUMBER" " must be numeric." raw])
  end.

Definition optionalNumber (rawRow : raw_row) (headerMap : header_map) (key : CoupangMarginColumnKey) : num :=
  parseNumberValue (cell_of (readRaw rawRow headerMap key)) (Some (ofZ 0)) ?? ofZ 0.

Definition logisticsIntegerValue (rawRow : raw_row) (headerMap : header_map) (key : CoupangMarginColumnKey)
    (emptyValue : option num) : option num * list ParseIssue :=
  match readRaw rawRow headerMap key with
  | None => (emptyValue, [])
  | Some rawValue =>
      if negb (truthy (trim rawValue)) then (emptyValue, [])
      else
        let refused := (emptyValue,
          [issue key "INVALID_NON_NEGATIVE_INTEGER" " must be a non-negative integer." (Some rawValue)]) in
        match parseNumberValue (CellText rawValue) None with
        | None => refused
        | Some parsed =>
            if negb (isFinite parsed) || nltb parsed (ofZ 0) || negb (isInteger parsed)
            then refused else (Some parsed, [])
        end
  end.

Definition optionalRate (rawRow : raw_row) (headerMap : header_map) (key : CoupangMarginColumnKey) : num :=
  let raw := readRaw rawRow headerMap key in
  let parsed := parseNumberValue (cell_of raw) (Some (ofZ 0)) ?? ofZ 0 in
  if match raw with Some r => includes (js "%") r | None => false end || nltb (ofZ 1) parsed
  then ndiv parsed (ofZ 100) else parsed.

Definition parseYn (value : option str) : bool :=
  let normalized := to_lower (trim (value ?? js "Y")) in
  existsb (str_eqb normalized) (map js ["y"; "yes"; "true"; "1"]%string).

Definition parseRow (rawRow : raw_row) (headerMap : header_map) : option ParsedCoupangMarginRow * list ParseIssue :=
  let '(itemName, i1) := requiredText rawRow headerMap ItemName in
  let '(salePriceKrw, i2) := requiredNumber rawRow headerMap SalePrice in
  let '(productCostKrw, i3) := requiredNumber rawRow headerMap ProductCost in
  let '(returnCostPerUnitKrw, i4) := requiredNumber rawRow headerMap ReturnCostPerUnit in
  let '(sellerShippingFeeKrw, i5) := logisticsIntegerValue rawRow headerMap SellerShippingFee None in
  let '(hanaroShippingFeeKrw, i6) := logisticsIntegerValue rawRow headerMap HanaroShippingFee None in
  let '(growthInboundFeeKrw, i7) := logisticsIntegerValue rawRow headerMap GrowthInboundFee (Some (ofZ 0)) in
  let '(growthShippingFeeKrw, i8) := logisticsIntegerValue rawRow headerMap GrowthShippingFee (Some (ofZ 0)) in
  let issues := i1 ++ i2 ++ i3 ++ i4 ++ i5 ++ i6 ++ i7 ++ i8 in
  (if truthy_list issues then None
   else Some
     {| itemName := itemName; salePriceKrw := salePriceKrw;
        supplyPriceKrw := optionalNumber rawRow headerMap SupplyPrice;
        productCostKrw := productCostKrw; sellerShippingFeeKrw := sellerShippingFeeKrw;
        hanaroShippingFeeKrw := hanaroShippingFeeKrw;
        growthInboundFeeKrw := growthInboundFeeKrw ?? ofZ 0;
        growthShippingFeeKrw := growthShippingFeeKrw ?? ofZ 0;
        returnRate := optionalRate rawRow headerMap ReturnRate;
        returnCostPerUnitKrw := returnCostPerUnitKrw;
        adEnabled := parseYn (optionalText rawRow headerMap AdEnabled) |},
   issues).

(** ** What a parsed row is worth *)

Definition non_negative_integer (x : num) : Prop :=
  isFinite x = true /\ isInteger x = true /\ nltb x (ofZ 0) = false.

Lemma parseNumberValue_finite value e x : (forall y, e = Some y -> isFinite y = true) ->
  parseNumberValue value e = Some x -> isFinite x = true.
Proof.
  intros F. destruct value as [| |y|v]; simpl; [apply F|apply F| |].
  - destruct (isFinite y) eqn:E; [by intros [= <-]|apply F].
  - destruct (_ || _); [apply F|]. destruct (negb _); [apply F|].
    destruct (isFinite (to_number _)) eqn:E; [by intros [= <-]|done].
Qed.

Lemma zero_finite y : Some (ofZ 0) = Some y -> isFinite y = true.
Proof. by intros [= <-]. Qed.

Lemma requiredText_spec r h k s : requiredText r h k = (s, []) -> truthy s = true /\ optionalText r h k = Some s.
Proof.
  unfold requiredText. destruct (optionalText r h k) eqn:E; [|done]. intros [= <-]. split; [|done].
  unfold optionalText in E. destruct (readRaw r h k) as [v|]; [|done]. simpl in E.
  destruct (truthy (trim v)) eqn:T; [by injection E as <-|done].
Qed.

Lemma requiredNumber_spec r h k x : requiredNumber r h k = (x, []) -> isFinite x = true.
Proof.
  unfold requiredNumber. destruct (parseNumberValue _ _) eqn:E; [|done]. intros [= <-].
  eapply parseNumberValue_finite; [apply zero_finite|done].
Qed.

Lemma logisticsIntegerValue_spec r h k e x : logisticsIntegerValue r h k e = (x, []) ->
  x = e \/ exists y, x = Some y /\ non_negative_integer y.
Proof.
  unfold logisticsIntegerValue. destruct (readRaw r h k) as [v|]; [|intros [= <-]; auto].
  destruct (negb (truthy _)); [intros [= <-]; auto|].
  destruct (parseNumberValue _ _) as [y|]; [|done].
  destruct (isFinite y) eqn:F, (nltb y _) eqn:L, (isInteger y) eqn:I; try done. intros [= <-].
  right. by exists y.
Qed.

Lemma zero_integer : non_negative_integer (ofZ 0).
Proof. vm_compute. auto. Qed.

(** A row of a margin sheet is accepted exactly when no issue is found in
    it, and then it has a name, finite amounts, and logistics fees that are
    non-negative integers; a blank seller or Hanaro fee stays unknown, while
    blank Growth fees are zero. *)
Theorem parseRow_spec r h : let '(parsed, found) := parseRow r h in
  (is_Some parsed <-> found = [])
  /\ forall row, parsed = Some row ->
       truthy (itemName row) = true /\ optionalText r h ItemName = Some (itemName row)
       /\ isFinite (salePriceKrw row) = true /\ isFinite (productCostKrw row) = true
       /\ isFinite (returnCostPerUnitKrw row) = true /\ isFinite (supplyPriceKrw row) = true
       /\ (forall fee, sellerShippingFeeKrw row = Some fee -> non_negative_integer fee)
       /\ (forall fee, hanaroShippingFeeKrw row = Some fee -> non_negative_integer fee)
       /\ non_negative_integer (growthInboundFeeKrw row)
       /\ non_negative_integer (growthShippingFeeKrw row).
Proof.
  unfold parseRow.
  destruct (requiredText r h ItemName) as [name i1] eqn:E1.
  destruct (requiredNumber r h SalePrice) as [sale i2] eqn:E2.
  destruct (requiredNumber r h ProductCost) as [cost i3] eqn:E3.
  destruct (requiredNumber r h ReturnCostPerUnit) as [ret i4] eqn:E4.
  destruct (logisticsIntegerValue r h SellerShippingFee None) as [seller i5] eqn:E5.
  destruct (logisticsIntegerValue r h HanaroShippingFee None) as [hanaro i6] eqn:E6.
  destruct (logisticsIntegerValue r h GrowthInboundFee _) as [inbound i7] eqn:E7.
  destruct (logisticsIntegerValue r h GrowthShippingFee _) as [shipping i8] eqn:E8.
  destruct (truthy_list _) eqn:T.
  - split; [|done]. split; [intros [? [=]]|]. intros Q. by rewrite Q in T.
  - destruct (i1 ++ _) eqn:Q; [|done]. split; [split; [done|by eexists]|].
    repeat (apply app_eq_nil in Q as [-> Q]). subst.
    intros row [= <-]. simpl.
    apply requiredText_spec in E1 as [? ?]. apply requiredNumber_spec in E2, E3, E4.
    apply logisticsIntegerValue_spec in E5, E6, E7, E8.
    assert (forall x, (x = Some (ofZ 0) \/ exists y, x = Some y /\ non_negative_integer y) ->
              non_negative_integer (x ?? ofZ 0)) as D.
    { intros x [->|(y & -> & P)]; [apply zero_integer|done]. }
    assert (forall (x : option num) fee, (x = None \/ exists y, x = Some y /\ non_negative_integer y) ->
              x = Some fee -> non_negative_integer fee) as O.
    { by intros x fee [->|(y & -> & P)]; [|intros [= <-]]. }
    split_and!; eauto.
    + unfold optionalNumber. destruct (parseNumberValue _ _) eqn:P; [|done].
      eapply parseNumberValue_finite; [apply zero_finite|done].
Qed.

(** ** The sheet *)

Record ParsedCoupangMarginRowResult := {
  rowNumber : Z;
  rawRow : raw_row;
  sourceRowHash : str;
  parsedRow : option ParsedCoupangMarginRow;
  issues : list ParseIssue
}.

Record Sheet := {
  headers : list str;
  rows : list ParsedCoupangMarginRowResult;
  missingColumns : list CoupangMarginColumnKey;
  ignoredColumns : list str
}.

Context (csv_parse : N -> str -> option (list raw_row)) (csv_first_line : N -> str -> option (list str))
        (hashCoupangMarginRecord : raw_row -> str).

Definition detectDelimiter (text : str) : N :=
  let firstLine := List.find (fun line => truthy (trim line)) (split_on 10 text) ?? [] in
  let count c := List.length (List.filter (N.eqb c) firstLine) in
  if (count 44%N <? count 9%N)%nat then 9%N else 44%N.

Definition parseHeadersOnly (text : str) : option (list str) :=
  map strip_bom <$> csv_first_line (detectDelimiter text) text.

(** The first decoding with the most known columns. *)
Definition decodeCsvText (first : str) (others : list str) : str :=
  fst (fold_left (fun '(bestText, bestScore) text =>
         match parseHeadersOnly text with
         | Some hs =>
             let score := Z.of_nat (headerMatchScore hs) in
             if (bestScore <? score)%Z then (text, score) else (bestText, bestScore)
         | None => (bestText, bestScore)
         end) (first :: others) (first, (-1)%Z)).

Definition parseBuffer (utf8 : str) (others : list str) : option Sheet :=
  let text := decodeCsvText utf8 others in
  records ← csv_parse (detectDelimiter text) text;
  hs ← match records with record :: _ => Some (map fst record) | [] => parseHeadersOnly text end;
  let headerMap := buildHeaderMap hs in
  Some {| headers := hs;
          ignoredColumns := List.filter truthy (omap (map_get headerMap) [SalesFeeRate; SalesFee]);
          missingColumns := List.filter (fun key => negb (is_Some_b (map_get headerMap key)))
                              COUPANG_MARGIN_REQUIRED_COLUMNS;
          rows := imap (fun index raw =>
            let parsed := parseRow raw headerMap in
            {| rowNumber := Z.of_nat index + 2; rawRow := raw; sourceRowHash := hashCoupangMarginRecord raw;
               parsedRow := parsed.1; issues := parsed.2 |}) records |}.
End parser.

End Margin_csv.
