(* ===== verification/CoupangSheets.v ===== *)
(** * Sheets of Coupang sales and advertising

    domain/coupang-sales-xlsx.ts and domain/coupang-ads-xlsx.ts: how the first
    worksheet of a workbook becomes rows, and the logical key of a row.  The
    workbook reader is a library of the program: a worksheet is the list of its
    rows with their numbers and the values of their cells.  What the two files
    repeat in the same words is in Module [Sheet_rows], over the table of column
    names of either. *)

From S2P Require Import Prelude JsNumber JsString JsDate.
From S2P Require Import DateNumber.
From S2P Require Import RequestBody.
From S2P Require Import CoupangMargin.

Local Open Scope Z_scope.

Module Sheet_rows.

(** The value of a cell; an object has the fields [text], [result] and
    [richText], the texts of whose parts are listed. *)
Inductive cell_value :=
  | EmptyCell
  | DateCell (t : Z)
  | ObjectCell (text result : option field) (richText : option (list str))
  | ValueCell (v : field).

Abbreviation worksheet := (list (Z * list cell_value)).
Abbreviation raw_row := (list (str * str)).

Definition cellToText (v : cell_value) : str :=
  match v with
  | EmptyCell => []
  | DateCell t => formatDateOnly t
  | ObjectCell (Some t) _ _ => string_of t
  | ObjectCell None (Some r) _ => string_of r
  | ObjectCell None None (Some parts) => concat parts
  | ObjectCell None None None => js "[object Object]"
  | ValueCell v => if nullish v then [] else string_of v
  end.

Definition rowToValues (row : list cell_value) : list str := map (fun c => trim (cellToText c)) row.

Definition isEmptyRow (row : list cell_value) : bool := forallb (fun v => negb (truthy v)) (rowToValues row).

(** The first row with three values that are not blank, and its number. *)
Fixpoint findHeaderRow (sheet : worksheet) : list str * Z :=
  match sheet with
  | [] => ([], 1)
  | (n, row) :: rest =>
      let values := rowToValues row in
      if (3 <=? List.length (List.filter truthy values))%nat then (values, n) else findHeaderRow rest
  end.

(** A column without a cell in this row reads as the empty text. *)
Definition rowToRawRow (row : list cell_value) (headers : list str) : raw_row :=
  fold_left (fun raw '(index, header) =>
    if truthy header then map_set raw header (cellToText (nth index row EmptyCell)) else raw)
    (imap pair headers) [].

(** The rows of data: those after the row of the headers that are not empty. *)
Definition data_rows (sheet : worksheet) (headerRowNumber : Z) : worksheet :=
  List.filter (fun '(n, row) => (headerRowNumber <? n) && negb (isEmptyRow row)) sheet.

(** ** Columns *)

Section columns.
Context `{Icu} {K : Type} `{EqDecision K} (keys : list K) (aliases : K -> list str).

Abbreviation header_map := (list (K * str)).

Definition buildHeaderMap (headers : list str) : header_map :=
  let normalizedHeaders := fold_left (fun m h => map_set m (Margin_csv.normalizeHeader h) h) headers [] in
  omap (fun key =>
    header ← List.find truthy (omap (fun alias => map_get normalizedHeaders (Margin_csv.normalizeHeader alias)) (aliases key));
    Some (key, header)) keys.

Definition readRaw (rawRow : raw_row) (headerMap : header_map) (key : K) : option str :=
  header ← map_get headerMap key; if truthy header then map_get rawRow header else None.

Definition optionalText (rawRow : raw_row) (headerMap : header_map) (key : K) : option str :=
  value ← readRaw rawRow headerMap key; if truthy (trim value) then Some (trim value) else None.

Definition issue (key : K) (code text : string) (raw : option str) : ParseIssue :=
  let column := match aliases key with a :: _ => a | [] => [] end in
  {| columnName := column; errorCode := js code; message := column ++ js text; rawValue := raw |}.

Definition requiredText (rawRow : raw_row) (headerMap : header_map) (key : K) : str * list ParseIssue :=
  match optionalText rawRow headerMap key with
  | Some value => (value, [])
  | None => ([], [issue key "REQUIRED" " is required." (readRaw rawRow headerMap key)])
  end.

Definition requiredNumber (rawRow : raw_row) (headerMap : header_map) (key : K) : num * list ParseIssue :=
  let raw := readRaw rawRow headerMap key in
  match parseNumberValue (Margin_csv.cell_of raw) (Some (ofZ 0)) with
  | Some parsed => (parsed, [])
  | None => (ofZ 0, [issue key "INVALID_NUMBER" " must be numeric." raw])
  end.

Definition requiredDate (rawRow : raw_row) (headerMap : header_map) (key : K) : option Z * list ParseIssue :=
  let raw := readRaw rawRow headerMap key in
  match toDateOnly raw with
  | Some d => (Some d, [])
  | None => (None, [issue key "INVALID_DATE" " must be a valid date." raw])
  end.
End columns.
End Sheet_rows.

(** ** coupang-sales-xlsx.ts *)

Module Sales_xlsx.
Import Sheet_rows.

Inductive CoupangCancelAmountMode := SALES_IS_NET | NEGATIVE_ADD | POSITIVE_SUBTRACT.

Inductive CoupangSalesColumnKey :=
  | OptionId | OptionName | ProductName | RegisteredProductId | Category | SaleMethod | SalesKrw | OrderCount
  | SalesQuantity | TotalSalesKrw | TotalSalesQuantity | CancelAmountKrw | CancelQuantity | InstantCancelQuantity.

#[export] Instance sales_key_eq_dec : EqDecision CoupangSalesColumnKey.
Proof. solve_decision. Defined.

Record ParsedCoupangSaleRow := {
  optionId : option str;
  optionName : str;
  productName : str;
  registeredProductId : option str;
  category : option str;
  saleMethod : option str;
  salesKrw : num;
  orderCount : num;
  salesQuantity : num;
  totalSalesKrw : num;
  totalSalesQuantity : num;
  cancelAmountKrw : num;
  cancelQuantity : num;
  instantCancelQuantity : num;
  netSalesKrw : num;
  saleDate : option Z
}.

Record ParsedCoupangSalesRowResult := {
  rowNumber : Z;
  rawRow : raw_row;
  sourceRowHash : str;
  parsedRow : option ParsedCoupangSaleRow;
  issues : list ParseIssue
}.

Definition keys : list CoupangSalesColumnKey :=
  [OptionId; OptionName; ProductName; RegisteredProductId; Category; SaleMethod; SalesKrw; OrderCount;
   SalesQuantity; TotalSalesKrw; TotalSalesQuantity; CancelAmountKrw; CancelQuantity; InstantCancelQuantity].

Definition COUPANG_SALES_COLUMN_ALIASES (k : CoupangSalesColumnKey) : list str :=
  map js match k with
  | OptionId => ["옵션 ID"; "Option ID"; "optionId"]
  | OptionName => ["옵션명"; "Option Name"; "optionName"]
  | ProductName => ["상품명"; "Product Name"; "productName"]
  | RegisteredProductId => ["등록상품 ID"; "등록상품ID"; "Registered Product ID"; "registeredProductId"]
  | Category => ["카테고리"; "Category"; "category"]
  | SaleMethod => ["판매방식"; "Sale Method"; "saleMethod"]
  | SalesKrw => ["매출(원)"; "Sales(KRW)"; "salesKrw"]
  | OrderCount => ["주문"; "Orders"; "orderCount"]
  | SalesQuantity => ["판매량"; "판매수량"; "Sales Quantity"; "salesQuantity"]
  | TotalSalesKrw => ["총 매출(원)"; "Total Sales(KRW)"; "totalSalesKrw"]
  | TotalSalesQuantity => ["총 판매수"; "총 판매수량"; "Total Sales Quantity"; "totalSalesQuantity"]
  | CancelAmountKrw => ["총 취소 금액(원)"; "Cancel Amount(KRW)"; "cancelAmountKrw"]
  | CancelQuantity => ["총 취소된 상품수"; "총 취소된 상품수량"; "Cancel Quantity"; "cancelQuantity"]
  | InstantCancelQuantity =>
      ["즉시 취소된 상품수"; "즉시 취소된 상품수량"; "Instant Cancel Quantity"; "instantCancelQuantity"]
  end%string.

Definition COUPANG_SALES_REQUIRED_COLUMNS : list CoupangSalesColumnKey :=
  [OptionId; OptionName; ProductName; SaleMethod; SalesKrw; OrderCount; SalesQuantity; TotalSalesKrw;
   TotalSalesQuantity; CancelAmountKrw; CancelQuantity; InstantCancelQuantity].

(** *** The date in a file name *)

(** The first place of the text where [f] succeeds. *)
Fixpoint search_text {A} (f : str -> option A) (s : str) : option A :=
  match f s with
  | Some a => Some a
  | None => match s with [] => None | _ :: r => search_text f r end
  end.

(** [/(20\d{2})(\d{2})(\d{2})/] at the start of the text. *)
Definition compact_date (s : str) : option str :=
  if starts_with (js "20") s && between 8 8 (firstn 8 s)
  then Some (firstn 4 s ++ js "-" ++ firstn 2 (skipn 4 s) ++ js "-" ++ firstn 2 (skipn 6 s)) else None.

(** Six digits and then no digit. *)
Definition six_digits (s : str) : option (str * str * str) :=
  if between 6 6 (firstn 6 s) && match skipn 6 s with c :: _ => negb (is_digit c) | [] => true end
  then Some (firstn 2 s, firstn 2 (skipn 2 s), firstn 2 (skipn 4 s)) else None.

(** [/(?:^|[^\d])(\d{2})(\d{2})(\d{2})(?:[^\d]|$)/] after the start. *)
Definition short_compact (s : str) : option (str * str * str) :=
  match s with c :: r => if is_digit c then None else six_digits r | [] => None end.

Definition is_date_separator (c : N) : bool := (c =? 45)%N || (c =? 95)%N || (c =? 46)%N.

(** The one or two digits at the start, and the rest. *)
Definition one_or_two (s : str) : option (str * str) :=
  match s with
  | a :: b :: r => if is_digit a then if is_digit b then Some ([a; b], r) else Some ([a], b :: r) else None
  | [a] => if is_digit a then Some ([a], []) else None
  | [] => None
  end.

(** [/(20\d{2})[-_.](\d{1,2})[-_.](\d{1,2})/] at the start of the text: a
    shorter month would leave a digit where a separator is due. *)
Definition separated (s : str) : option (str * str * str) :=
  if starts_with (js "20") s && between 4 4 (firstn 4 s) then
    match skipn 4 s with
    | c :: r =>
        if is_date_separator c then
          match one_or_two r with
          | Some (m, c' :: r') =>
              if is_date_separator c'
              then match one_or_two r' with Some (d, _) => Some (firstn 4 s, m, d) | None => None end
              else None
          | _ => None
          end
        else None
    | [] => None
    end
  else None.

Definition extractDateFromFilename (filename : str) : option str :=
  match search_text compact_date filename with
  | Some d => Some d
  | None =>
      let dashed y m d := parseDateString (Some (y ++ js "-" ++ m ++ js "-" ++ d)) in
      match option_or (six_digits filename) (search_text short_compact filename) with
      | Some (y, m, d) => dashed (js "20" ++ y) m d
      | None =>
          match search_text separated filename with
          | Some (y, m, d) => dashed y m d
          | None => None
          end
      end
  end.

(** *** Rows *)

Section parser.
Context `{Icu} (hashCoupangSalesRecord : raw_row -> str).

Abbreviation requiredText := (requiredText COUPANG_SALES_COLUMN_ALIASES).
Abbreviation requiredNumber := (requiredNumber COUPANG_SALES_COLUMN_ALIASES).

Definition calculateCoupangNetSales (salesKrw cancelAmountKrw : num) (mode : CoupangCancelAmountMode) : num :=
  match mode with
  | NEGATIVE_ADD => nadd salesKrw cancelAmountKrw
  | POSITIVE_SUBTRACT => nsub salesKrw (nabs cancelAmountKrw)
  | SALES_IS_NET => salesKrw
  end.

Definition parseRow (raw : raw_row) (h : list (CoupangSalesColumnKey * str)) (fallbackDate : option Z)
    (mode : CoupangCancelAmountMode) : option ParsedCoupangSaleRow * list ParseIssue :=
  let '(optionName, i1) := requiredText raw h OptionName in
  let '(productName, i2) := requiredText raw h ProductName in
  let '(salesKrw, i3) := requiredNumber raw h SalesKrw in
  let '(orders, i4) := requiredNumber raw h OrderCount in
  let '(salesQuantity, i5) := requiredNumber raw h SalesQuantity in
  let '(totalSalesKrw, i6) := requiredNumber raw h TotalSalesKrw in
  let '(totalSalesQuantity, i7) := requiredNumber raw h TotalSalesQuantity in
  let '(cancelAmountKrw, i8) := requiredNumber raw h CancelAmountKrw in
  let '(cancelQuantity, i9) := requiredNumber raw h CancelQuantity in
  let '(instantCancelQuantity, i10) := requiredNumber raw h InstantCancelQuantity in
  let issues := i1 ++ i2 ++ i3 ++ i4 ++ i5 ++ i6 ++ i7 ++ i8 ++ i9 ++ i10 in
  (if truthy_list issues then None
   else Some
     {| optionId := optionalText raw h OptionId; optionName := optionName; productName := productName;
        registeredProductId := optionalText raw h RegisteredProductId; category := optionalText raw h Category;
        saleMethod := optionalText raw h SaleMethod; salesKrw := salesKrw; orderCount := trunc orders;
        salesQuantity := salesQuantity; totalSalesKrw := totalSalesKrw; totalSalesQuantity := totalSalesQuantity;
        cancelAmountKrw := cancelAmountKrw; cancelQuantity := cancelQuantity;
        instantCancelQuantity := instantCancelQuantity;
        netSalesKrw := calculateCoupangNetSales salesKrw cancelAmountKrw mode; saleDate := fallbackDate |},
   issues).

Record Sheet := {
  headers : list str;
  rows : list ParsedCoupangSalesRowResult;
  missingColumns : list CoupangSalesColumnKey
}.

(** [None] for a workbook without a worksheet. *)
Definition parseBuffer (sheet : option worksheet) (filename : str) (reportDate : option str)
    (mode : CoupangCancelAmountMode) : Sheet :=
  match sheet with
  | None => {| headers := []; rows := []; missingColumns := COUPANG_SALES_REQUIRED_COLUMNS |}
  | Some sheet =>
      let '(headers, headerRowNumber) := findHeaderRow sheet in
      let headerMap := buildHeaderMap keys COUPANG_SALES_COLUMN_ALIASES headers in
      let fallbackDate := toDateOnly (option_or reportDate (extractDateFromFilename filename)) in
      {| headers := headers;
         missingColumns := List.filter (fun key => negb (is_Some_b (map_get headerMap key))) COUPANG_SALES_REQUIRED_COLUMNS;
         rows := map (fun '(n, row) =>
           let raw := rowToRawRow row headers in
           let parsed := parseRow raw headerMap fallbackDate mode in
           {| rowNumber := n; rawRow := raw; sourceRowHash := hashCoupangSalesRecord raw;
              parsedRow := parsed.1; issues := parsed.2 |}) (data_rows sheet headerRowNumber) |}
  end.
End parser.

Definition formatDateOrEmpty (date : option Z) : str := match date with Some d => formatDateOnly d | None => [] end.

Definition coupangSaleLineKey (row : ParsedCoupangSaleRow) : str :=
  join (js ":") (map trim [formatDateOrEmpty (saleDate row); optionId row ?? []; productName row; optionName row]).

Example file_dates :
  map extractDateFromFilename (map js ["sales_20240305.xlsx"; "240305.xlsx"; "s 240399.xlsx"; "a-2024_3.5"; "x1234567"]%string)
  = [Some (js "2024-03-05"); Some (js "2024-03-05"); None; Some (js "2024-03-05"); None].
Proof. vm_compute. reflexivity. Qed.
End Sales_xlsx.

(** ** coupang-ads-xlsx.ts *)

Module Ads_xlsx.
Import Sheet_rows.

Inductive CoupangAdsColumnKey :=
  | MetricDate | CampaignName | AdGroupName | AdName | AdExecutionOptionId | AdExecutionProductName
  | ConversionOptionId | ConversionProductName | Impressions | Clicks | AdSpendKrw | TotalOrders1d | DirectOrders1d
  | IndirectOrders1d | TotalConversionSales1dKrw | DirectConversionSales1dKrw | IndirectConversionSales1dKrw
  | TotalSalesQuantity1d | DirectSalesQuantity1d | IndirectSalesQuantity1d.

#[export] Instance ads_key_eq_dec : EqDecision CoupangAdsColumnKey.
Proof. solve_decision. Defined.

Record ParsedCoupangAdRow := {
  metricDate : Z;
  campaignName : option str;
  adGroupName : option str;
  adName : option str;
  adExecutionOptionId : option str;
  adExecutionProductName : str;
  conversionOptionId : option str;
  conversionProductName : str;
  impressions : num;
  clicks : num;
  adSpendKrw : num;
  totalOrders1d : num;
  directOrders1d : num;
  indirectOrders1d : num;
  totalConversionSales1dKrw : num;
  directConversionSales1dKrw : num;
  indirectConversionSales1dKrw : num;
  totalSalesQuantity1d : num;
  directSalesQuantity1d : num;
  indirectSalesQuantity1d : num
}.

Record ParsedCoupangAdsRowResult := {
  rowNumber : Z;
  rawRow : raw_row;
  sourceRowHash : str;
  parsedRow : option ParsedCoupangAdRow;
  issues : list ParseIssue
}.

Definition keys : list CoupangAdsColumnKey :=
  [MetricDate; CampaignName; AdGroupName; AdName; AdExecutionOptionId; AdExecutionProductName; ConversionOptionId;
   ConversionProductName; Impressions; Clicks; AdSpendKrw; TotalOrders1d; DirectOrders1d; IndirectOrders1d;
   TotalConversionSales1dKrw; DirectConversionSales1dKrw; IndirectConversionSales1dKrw; TotalSalesQuantity1d;
   DirectSalesQuantity1d; IndirectSalesQuantity1d].

Definition COUPANG_ADS_COLUMN_ALIASES (k : CoupangAdsColumnKey) : list str :=
  map js match k with
  | MetricDate => ["날짜"; "Date"; "metricDate"]
  | CampaignName => ["캠페인 이름"; "Campaign Name"; "campaignName"]
  | AdGroupName => ["광고그룹"; "Ad Group"; "adGroupName"]
  | AdName => ["광고명"; "광고 이름"; "Ad Name"; "adName"]
  | AdExecutionOptionId => ["광고 집행 옵션 ID"; "Ad Execution Option ID"; "adExecutionOptionId"]
  | AdExecutionProductName => ["광고집행 상품명"; "Ad Execution Product Name"; "adExecutionProductName"]
  | ConversionOptionId => ["광고 전환 매출 발생 옵션 ID"; "Conversion Option ID"; "conversionOptionId"]
  | ConversionProductName => ["광고 전환 매출 발생 상품명"; "Conversion Product Name"; "conversionProductName"]
  | Impressions => ["노출수"; "Impressions"; "impressions"]
  | Clicks => ["클릭수"; "Clicks"; "clicks"]
  | AdSpendKrw => ["광고비(원)"; "Ad Spend(KRW)"; "adSpendKrw"]
  | TotalOrders1d => ["총 주문수(1일)"; "Total Orders(1d)"; "totalOrders1d"]
  | DirectOrders1d => ["직접 주문수(1일)"; "Direct Orders(1d)"; "directOrders1d"]
  | IndirectOrders1d => ["간접 주문수(1일)"; "Indirect Orders(1d)"; "indirectOrders1d"]
  | TotalConversionSales1dKrw =>
      ["총 전환 매출액(1일)(원)"; "Total Conversion Sales(1d)(KRW)"; "totalConversionSales1dKrw"]
  | DirectConversionSales1dKrw =>
      ["직접 전환 매출액(1일)(원)"; "Direct Conversion Sales(1d)(KRW)"; "directConversionSales1dKrw"]
  | IndirectConversionSales1dKrw =>
      ["간접 전환 매출액(1일)(원)"; "Indirect Conversion Sales(1d)(KRW)"; "indirectConversionSales1dKrw"]
  | TotalSalesQuantity1d => ["총 판매 수량 (1일)"; "Total Sales Quantity(1d)"; "totalSalesQuantity1d"]
  | DirectSalesQuantity1d => ["직접 판매 수량 (1일)"; "Direct Sales Quantity(1d)"; "directSalesQuantity1d"]
  | IndirectSalesQuantity1d => ["간접 판매 수량 (1일)"; "Indirect Sales Quantity(1d)"; "indirectSalesQuantity1d"]
  end%string.

Definition COUPANG_ADS_REQUIRED_COLUMNS : list CoupangAdsColumnKey :=
  List.filter (fun k => negb (bool_decide (k = AdName))) keys.

Section parser.
Context `{Icu} (hashCoupangAdsRecord : raw_row -> str).

Definition parseRow (raw : raw_row) (h : list (CoupangAdsColumnKey * str)) : option ParsedCoupangAdRow * list ParseIssue :=
  let text := optionalText raw h in
  let number := requiredNumber COUPANG_ADS_COLUMN_ALIASES raw h in
  match requiredDate COUPANG_ADS_COLUMN_ALIASES raw h MetricDate with
  | (None, issues) => (None, issues)
  | (Some date, _) =>
      let '(impressions, i1) := number Impressions in
      let '(clicks, i2) := number Clicks in
      let '(adSpendKrw, i3) := number AdSpendKrw in
      let '(totalOrders, i4) := number TotalOrders1d in
      let '(directOrders, i5) := number DirectOrders1d in
      let '(indirectOrders, i6) := number IndirectOrders1d in
      let '(totalSales, i7) := number TotalConversionSales1dKrw in
      let '(directSales, i8) := number DirectConversionSales1dKrw in
      let '(indirectSales, i9) := number IndirectConversionSales1dKrw in
      let '(totalQuantity, i10) := number TotalSalesQuantity1d in
      let '(directQuantity, i11) := number DirectSalesQuantity1d in
      let '(indirectQuantity, i12) := number IndirectSalesQuantity1d in
      let issues := i1 ++ i2 ++ i3 ++ i4 ++ i5 ++ i6 ++ i7 ++ i8 ++ i9 ++ i10 ++ i11 ++ i12 in
      (if truthy_list issues then None
       else Some
         {| metricDate := date; campaignName := text CampaignName; adGroupName := text AdGroupName;
            adName := text AdName; adExecutionOptionId := text AdExecutionOptionId;
            adExecutionProductName := text AdExecutionProductName ?? [];
            conversionOptionId := text ConversionOptionId;
            conversionProductName := text ConversionProductName ?? [];
            impressions := trunc impressions; clicks := trunc clicks; adSpendKrw := adSpendKrw;
            totalOrders1d := trunc totalOrders; directOrders1d := trunc directOrders;
            indirectOrders1d := trunc indirectOrders; totalConversionSales1dKrw := totalSales;
            directConversionSales1dKrw := directSales; indirectConversionSales1dKrw := indirectSales;
            totalSalesQuantity1d := totalQuantity; directSalesQuantity1d := directQuantity;
            indirectSalesQuantity1d := indirectQuantity |},
       issues)
  end.

Record Sheet := {
  headers : list str;
  rows : list ParsedCoupangAdsRowResult;
  missingColumns : list CoupangAdsColumnKey
}.

Definition parseBuffer (sheet : option worksheet) : Sheet :=
  match sheet with
  | None => {| headers := []; rows := []; missingColumns := COUPANG_ADS_REQUIRED_COLUMNS |}
  | Some sheet =>
      let '(headers, headerRowNumber) := findHeaderRow sheet in
      let headerMap := buildHeaderMap keys COUPANG_ADS_COLUMN_ALIASES headers in
      {| headers := headers;
         missingColumns := List.filter (fun key => negb (is_Some_b (map_get headerMap key))) COUPANG_ADS_REQUIRED_COLUMNS;
         rows := map (fun '(n, row) =>
           let raw := rowToRawRow row headers in
           let parsed := parseRow raw headerMap in
           {| rowNumber := n; rawRow := raw; sourceRowHash := hashCoupangAdsRecord raw;
              parsedRow := parsed.1; issues := parsed.2 |}) (data_rows sheet headerRowNumber) |}
  end.
End parser.

Definition isPlaceholderCoupangAdsText (value : option str) : bool :=
  let text := trim (value ?? []) in negb (truthy text) || str_eqb text (js "-").

Definition coupangAdMetricKey (row : ParsedCoupangAdRow) : str :=
  join (js ":") (map trim
    [formatDateOnly (metricDate row); campaignName row ?? []; adGroupName row ?? []; adExecutionOptionId row ?? [];
     if isPlaceholderCoupangAdsText (Some (adExecutionProductName row)) then adName row ?? []
     else adExecutionProductName row;
     conversionOptionId row ?? []; conversionProductName row]).
End Ads_xlsx.

(** ** Keys

    A key is not empty and has no white space at its ends, whatever the texts
    of the row. *)

Lemma drop_ws_length s : (List.length (drop_ws s) <= List.length s)%nat.
Proof. destruct (drop_ws_suffix s) as (p & E & _). rewrite E at 2. rewrite length_app. lia. Qed.

Lemma drop_ws_trim s : drop_ws (trim s) = trim s.
Proof.
  destruct (drop_ws_suffix (trim s)) as (p & E & _). rewrite E at 2.
  assert (L : (List.length (trim s) <= List.length (drop_ws (trim s)))%nat).
  { rewrite <- (trim_idem s) at 1. unfold trim at 1. rewrite length_rev. etransitivity; [apply drop_ws_length|].
    by rewrite length_rev. }
  rewrite E, length_app in L at 1. by destruct p; [|simpl in L; lia].
Qed.

Lemma drop_ws_rev_trim s : drop_ws (rev (trim s)) = rev (trim s).
Proof. unfold trim. by rewrite rev_involutive, drop_ws_idem. Qed.

Lemma drop_ws_colon a r : drop_ws a = a -> drop_ws (a ++ 58%N :: r) = a ++ 58%N :: r.
Proof. destruct a as [|c a]; [done|]. intros E. apply drop_ws_no_ws. by eapply drop_ws_head. Qed.

Lemma join_last a b l : exists r z, join (js ":") (map trim (a :: b :: l)) = r ++ 58%N :: trim z.
Proof.
  revert a b. induction l as [|c l IH]; intros a b; [by exists (trim a), b|].
  destruct (IH b c) as (r & z & E). exists (trim a ++ 58%N :: r), z.
  change (join (js ":") (map trim (a :: b :: c :: l))) with (trim a ++ 58%N :: join (js ":") (map trim (b :: c :: l))).
  rewrite E. by rewrite <- app_assoc.
Qed.

Lemma key_text a b l : let key := join (js ":") (map trim (a :: b :: l)) in truthy key = true /\ trim key = key.
Proof.
  cbv zeta. assert (F : join (js ":") (map trim (a :: b :: l)) = trim a ++ 58%N :: join (js ":") (map trim (b :: l))) by done.
  destruct (join_last a b l) as (r & z & E). split; [rewrite F; by destruct (trim a)|].
  unfold trim at 1. rewrite F at 1. rewrite drop_ws_colon by apply drop_ws_trim. rewrite <- F, E.
  rewrite rev_app_distr. cbn [rev]. rewrite <- app_assoc. cbn [app].
  rewrite drop_ws_colon by apply drop_ws_rev_trim. rewrite rev_app_distr. cbn [rev].
  by rewrite rev_involutive, rev_involutive, <- app_assoc.
Qed.

Lemma sale_key_text row : truthy (Sales_xlsx.coupangSaleLineKey row) = true
  /\ trim (Sales_xlsx.coupangSaleLineKey row) = Sales_xlsx.coupangSaleLineKey row.
Proof. apply key_text. Qed.

Lemma ad_key_text row : truthy (Ads_xlsx.coupangAdMetricKey row) = true
  /\ trim (Ads_xlsx.coupangAdMetricKey row) = Ads_xlsx.coupangAdMetricKey row.
Proof. apply key_text. Qed.
