(* ===== verification/CoupangDb.v ===== *)
(** * The Coupang tables

    The rows that coupang/coupang.service.ts reads and writes, as Prisma
    returns them, the database as the state of its transactions, and what each
    kind of statement does: unique indexes, CHECK constraints, foreign keys and
    the range of NUMERIC columns reject a statement, which ends its
    transaction.  Of other tables there is what refers to these: the batch and
    the product of a promotion price in [promotions], the product and the
    mapping rule of a manual purchase in [productUses] and [ruleUses].  Timelines are those of [Timeline].  The CHECK of the
    fee table on the range of a rate is left out: the service parses a rate
    into that range before it stores one. *)

From S2P Require Import Prelude JsNumber JsString JsDate.
From S2P Require Import DateNumber.
From S2P Require Import SecurityAudit.
From S2P Require Import Concurrency.
From S2P Require Import RequestBody.
From S2P Require Import Timeline.

Local Open Scope Z_scope.

(** ** Enumerations *)

Inductive CoupangUploadSourceType := SALES | ADS | MARGIN | PRICE_TEXT | PROMOTION | BUNDLE.
Inductive UploadStatus := PENDING | VALIDATING | VALIDATED | IMPORTED | PARTIAL | FAILED | CANCELLED.
Inductive ConflictPolicy := SKIP | OVERWRITE | NEW_VERSION.
Inductive RowValidationStatus := VALID | WARNING | ERROR | ROW_UNMATCHED.
Inductive MatchSource := RULE | MANUAL | INFERRED | UNMATCHED.

#[export] Instance source_eq_dec : EqDecision CoupangUploadSourceType.
Proof. solve_decision. Defined.
#[export] Instance upload_status_eq_dec : EqDecision UploadStatus.
Proof. solve_decision. Defined.
#[export] Instance policy_eq_dec : EqDecision ConflictPolicy.
Proof. solve_decision. Defined.
#[export] Instance validation_eq_dec : EqDecision RowValidationStatus.
Proof. solve_decision. Defined.

(** ** Rows *)

Section rows.
Context `{Icu, DecimalNumber}.

(** The amounts of a cost rule: the columns a rule has by name. *)
Inductive money_field :=
  | SalePrice | SupplyPrice | ProductCost | SalesFeeRate | SalesFee | GrowthInboundFee
  | GrowthShippingFee | ReturnRate | ReturnCostPerUnit | ExtraCost.
Inductive shipping_field := SellerShippingFee | HanaroShippingFee.

Record Costs := {
  salePriceKrw : dec;
  supplyPriceKrw : dec;
  productCostKrw : dec;
  salesFeeRate : dec;
  salesFeeKrw : dec;
  sellerShippingFeeKrw : option dec;
  hanaroShippingFeeKrw : option dec;
  growthInboundFeeKrw : dec;
  growthShippingFeeKrw : dec;
  returnRate : dec;
  returnCostPerUnitKrw : dec;
  extraCostKrw : dec;
  costNote : option str
}.

Record CostRule := {
  cr_id : str;
  cr_productId : str;
  cr_costs : Costs;
  cr_effectiveFrom : Z;
  cr_effectiveTo : option Z;
  cr_createdAt : Z
}.

Record FeeRule := {
  fr_id : str;
  fr_salesFeeRate : dec;
  fr_effectiveFrom : Z;
  fr_effectiveTo : option Z;
  fr_note : option str;
  fr_createdAt : Z
}.

Record Product := {
  pr_id : str;
  pr_groupId : option str;
  standardName : str;
  pr_displayName : str;
  pr_sortOrder : num;
  pr_isActive : bool;
  pr_createdAt : Z
}.

Record MappingRule := {
  mr_id : str;
  mr_productId : str;
  mr_displayName : str;
  includeKeywords : list str;
  excludeKeywords : list str;
  mr_priority : num;
  mr_saleMethod : option str;
  adEnabled : bool;
  mr_isActive : bool;
  validFrom : Z;
  validTo : option Z;
  mr_note : option str;
  mr_createdAt : Z
}.

Record UploadBatch := {
  ub_id : str;
  sourceType : CoupangUploadSourceType;
  originalFilename : str;
  fileHashSha256 : str;
  dataStart : option Z;
  dataEnd : option Z;
  columnSchema : json;
  rowCount : Z;
  validRowCount : Z;
  warningCount : Z;
  errorCount : Z;
  conflictPolicy : ConflictPolicy;
  ub_status : UploadStatus;
  uploadedBy : option str;
  uploadedAt : Z;
  validatedAt : option Z;
  importedAt : option Z
}.

(** A problem of a row, with the candidates of an ambiguous match. *)
Record RowIssue := {
  ri_columnName : option str;
  ri_errorCode : str;
  ri_message : str;
  ri_rawValue : option str;
  ri_isError : bool;
  ri_candidates : list str
}.

Record RowError := {
  re_batchId : str;
  re_sourceType : CoupangUploadSourceType;
  re_saleLineId : option str;
  re_adMetricId : option str;
  re_rowNumber : option Z;
  re_issue : RowIssue
}.

Record SaleAmounts := {
  salesKrw : dec;
  orderCount : num;
  salesQuantity : dec;
  totalSalesKrw : dec;
  totalSalesQuantity : dec;
  cancelAmountKrw : dec;
  cancelQuantity : dec;
  instantCancelQuantity : dec;
  netSalesKrw : dec
}.

Record SaleLine := {
  sl_id : str;
  sl_batchId : str;
  sl_rowNumber : Z;
  sl_sourceRowHash : str;
  saleLineKey : str;
  saleDate : option Z;
  optionId : option str;
  optionName : str;
  productName : str;
  registeredProductId : option str;
  category : option str;
  saleMethod : option str;
  sl_amounts : SaleAmounts;
  sl_productId : option str;
  sl_ruleId : option str;
  sl_matchSource : MatchSource;
  sl_validationStatus : RowValidationStatus;
  sl_validationErrors : list RowIssue;
  sl_importVersion : Z;
  sl_isCurrent : bool;
  sl_createdAt : Z
}.

Record AdAmounts := {
  impressions : num;
  clicks : num;
  adSpendKrw : dec;
  totalOrders1d : num;
  directOrders1d : num;
  indirectOrders1d : num;
  totalConversionSales1dKrw : dec;
  directConversionSales1dKrw : dec;
  indirectConversionSales1dKrw : dec;
  totalSalesQuantity1d : dec;
  directSalesQuantity1d : dec;
  indirectSalesQuantity1d : dec
}.

Record AdMetric := {
  am_id : str;
  am_batchId : str;
  am_rowNumber : Z;
  am_sourceRowHash : str;
  adMetricKey : str;
  metricDate : Z;
  campaignName : option str;
  adGroupName : option str;
  adName : option str;
  adExecutionOptionId : option str;
  adExecutionProductName : str;
  conversionOptionId : option str;
  conversionProductName : str;
  am_amounts : AdAmounts;
  spendProductId : option str;
  spendRuleId : option str;
  conversionProductId : option str;
  conversionRuleId : option str;
  spendMatchSource : MatchSource;
  conversionMatchSource : MatchSource;
  am_validationStatus : RowValidationStatus;
  am_validationErrors : list RowIssue;
  am_importVersion : Z;
  am_isCurrent : bool;
  am_createdAt : Z
}.

(** ** The database *)

Record Db := {
  products : list Product;
  costRules : list CostRule;
  feeRules : list FeeRule;
  mappingRules : list MappingRule;
  groups : list str;
  batches : list UploadBatch;
  saleLines : list SaleLine;
  adMetrics : list AdMetric;
  rowErrors : list RowError;
  promotions : list (str * option str);
  productUses : list str;
  ruleUses : list str;
  appUsers : list str;
  auditLog : list SecurityAuditWrite;
  time : Z;
  draws : nat
}.

Definition set_products (v : list Product) (w : Db) : Db :=
  {| products := v; costRules := costRules w; feeRules := feeRules w; mappingRules :=
     mappingRules w; groups := groups w; batches := batches w; saleLines := saleLines w;
     adMetrics := adMetrics w; rowErrors := rowErrors w; promotions := promotions w; productUses := productUses w; ruleUses
     := ruleUses w; appUsers := appUsers w; auditLog := auditLog w; time := time w; draws :=
     draws w |}.
Definition set_costRules (v : list CostRule) (w : Db) : Db :=
  {| products := products w; costRules := v; feeRules := feeRules w; mappingRules :=
     mappingRules w; groups := groups w; batches := batches w; saleLines := saleLines w;
     adMetrics := adMetrics w; rowErrors := rowErrors w; promotions := promotions w; productUses := productUses w; ruleUses
     := ruleUses w; appUsers := appUsers w; auditLog := auditLog w; time := time w; draws :=
     draws w |}.
Definition set_feeRules (v : list FeeRule) (w : Db) : Db :=
  {| products := products w; costRules := costRules w; feeRules := v; mappingRules :=
     mappingRules w; groups := groups w; batches := batches w; saleLines := saleLines w;
     adMetrics := adMetrics w; rowErrors := rowErrors w; promotions := promotions w; productUses := productUses w; ruleUses
     := ruleUses w; appUsers := appUsers w; auditLog := auditLog w; time := time w; draws :=
     draws w |}.
Definition set_mappingRules (v : list MappingRule) (w : Db) : Db :=
  {| products := products w; costRules := costRules w; feeRules := feeRules w; mappingRules :=
     v; groups := groups w; batches := batches w; saleLines := saleLines w; adMetrics :=
     adMetrics w; rowErrors := rowErrors w; promotions := promotions w; productUses := productUses w; ruleUses := ruleUses w;
     appUsers := appUsers w; auditLog := auditLog w; time := time w; draws := draws w |}.
Definition set_batches (v : list UploadBatch) (w : Db) : Db :=
  {| products := products w; costRules := costRules w; feeRules := feeRules w; mappingRules :=
     mappingRules w; groups := groups w; batches := v; saleLines := saleLines w; adMetrics :=
     adMetrics w; rowErrors := rowErrors w; promotions := promotions w; productUses := productUses w; ruleUses := ruleUses w;
     appUsers := appUsers w; auditLog := auditLog w; time := time w; draws := draws w |}.
Definition set_saleLines (v : list SaleLine) (w : Db) : Db :=
  {| products := products w; costRules := costRules w; feeRules := feeRules w; mappingRules :=
     mappingRules w; groups := groups w; batches := batches w; saleLines := v; adMetrics :=
     adMetrics w; rowErrors := rowErrors w; promotions := promotions w; productUses := productUses w; ruleUses := ruleUses w;
     appUsers := appUsers w; auditLog := auditLog w; time := time w; draws := draws w |}.
Definition set_adMetrics (v : list AdMetric) (w : Db) : Db :=
  {| products := products w; costRules := costRules w; feeRules := feeRules w; mappingRules :=
     mappingRules w; groups := groups w; batches := batches w; saleLines := saleLines w;
     adMetrics := v; rowErrors := rowErrors w; promotions := promotions w; productUses := productUses w; ruleUses := ruleUses
     w; appUsers := appUsers w; auditLog := auditLog w; time := time w; draws := draws w |}.
Definition set_rowErrors (v : list RowError) (w : Db) : Db :=
  {| products := products w; costRules := costRules w; feeRules := feeRules w; mappingRules :=
     mappingRules w; groups := groups w; batches := batches w; saleLines := saleLines w;
     adMetrics := adMetrics w; rowErrors := v; promotions := promotions w; productUses := productUses w; ruleUses := ruleUses
     w; appUsers := appUsers w; auditLog := auditLog w; time := time w; draws := draws w |}.
Definition set_promotions (v : list (str * option str)) (w : Db) : Db :=
  {| products := products w; costRules := costRules w; feeRules := feeRules w; mappingRules :=
     mappingRules w; groups := groups w; batches := batches w; saleLines := saleLines w;
     adMetrics := adMetrics w; rowErrors := rowErrors w; promotions := v; productUses := productUses w; ruleUses := ruleUses
     w; appUsers := appUsers w; auditLog := auditLog w; time := time w; draws := draws w |}.
Definition set_auditLog (v : list SecurityAuditWrite) (w : Db) : Db :=
  {| products := products w; costRules := costRules w; feeRules := feeRules w; mappingRules :=
     mappingRules w; groups := groups w; batches := batches w; saleLines := saleLines w;
     adMetrics := adMetrics w; rowErrors := rowErrors w; promotions := promotions w; productUses := productUses w; ruleUses
     := ruleUses w; appUsers := appUsers w; auditLog := v; time := time w; draws := draws w |}.
Definition set_time (v : Z) (w : Db) : Db :=
  {| products := products w; costRules := costRules w; feeRules := feeRules w; mappingRules :=
     mappingRules w; groups := groups w; batches := batches w; saleLines := saleLines w;
     adMetrics := adMetrics w; rowErrors := rowErrors w; promotions := promotions w; productUses := productUses w; ruleUses
     := ruleUses w; appUsers := appUsers w; auditLog := auditLog w; time := v; draws := draws w
     |}.
Definition set_draws (v : nat) (w : Db) : Db :=
  {| products := products w; costRules := costRules w; feeRules := feeRules w; mappingRules :=
     mappingRules w; groups := groups w; batches := batches w; saleLines := saleLines w;
     adMetrics := adMetrics w; rowErrors := rowErrors w; promotions := promotions w; productUses := productUses w; ruleUses
     := ruleUses w; appUsers := appUsers w; auditLog := auditLog w; time := time w; draws := v
     |}.

(** ** Errors of statements *)

Definition statement_error (code : str) : js_error := {| err_status := 0; err_code := code |}.
Definition P2002 (target : string) : js_error := statement_error (js "P2002:" ++ js target).
Definition P2003 : js_error := statement_error (js "P2003").
Definition P2020 : js_error := statement_error (js "P2020").

Definition not_found {A} (code : string) : result A := Throws {| err_status := 404; err_code := js code |}.
Definition conflict {A} (code : string) : result A := Throws {| err_status := 409; err_code := js code |}.

(** ** The amounts of a cost rule *)

Definition get_money (f : money_field) (c : Costs) : dec :=
  match f with
  | SalePrice => salePriceKrw c | SupplyPrice => supplyPriceKrw c | ProductCost => productCostKrw c
  | SalesFeeRate => salesFeeRate c | SalesFee => salesFeeKrw c
  | GrowthInboundFee => growthInboundFeeKrw c | GrowthShippingFee => growthShippingFeeKrw c
  | ReturnRate => returnRate c | ReturnCostPerUnit => returnCostPerUnitKrw c
  | ExtraCost => extraCostKrw c
  end.

Definition get_shipping (f : shipping_field) (c : Costs) : option dec :=
  match f with SellerShippingFee => sellerShippingFeeKrw c | HanaroShippingFee => hanaroShippingFeeKrw c end.

Definition build_costs (m : money_field -> dec) (s : shipping_field -> option dec) (n : option str) : Costs :=
  {| salePriceKrw := m SalePrice; supplyPriceKrw := m SupplyPrice; productCostKrw := m ProductCost;
     salesFeeRate := m SalesFeeRate; salesFeeKrw := m SalesFee;
     sellerShippingFeeKrw := s SellerShippingFee; hanaroShippingFeeKrw := s HanaroShippingFee;
     growthInboundFeeKrw := m GrowthInboundFee; growthShippingFeeKrw := m GrowthShippingFee;
     returnRate := m ReturnRate; returnCostPerUnitKrw := m ReturnCostPerUnit;
     extraCostKrw := m ExtraCost; costNote := n |}.

(** [data] of a create or an update: the fields that are not [undefined]. *)
Inductive cost_write :=
  | SetMoney (f : money_field) (d : dec)
  | SetShipping (f : shipping_field) (d : option dec)
  | SetCostNote (n : option str)
  | SetCostFrom (d : Z)
  | SetCostTo (d : option Z).

(** DECIMAL(8, 6) for rates and DECIMAL(14, 2) for amounts. *)
Definition money_column (f : money_field) (d : dec) : result dec :=
  match match f with SalesFeeRate | ReturnRate => numeric 8 6 d | _ => numeric 14 2 d end with
  | Some d' => Ok d'
  | None => Throws P2020
  end.

Definition shipping_column (d : option dec) : result (option dec) :=
  match d with
  | None => Ok None
  | Some d => match numeric 14 2 d with Some d' => Ok (Some d') | None => Throws P2020 end
  end.

Definition money_field_eqb (f g : money_field) : bool :=
  match f, g with
  | SalePrice, SalePrice | SupplyPrice, SupplyPrice | ProductCost, ProductCost
  | SalesFeeRate, SalesFeeRate | SalesFee, SalesFee | GrowthInboundFee, GrowthInboundFee
  | GrowthShippingFee, GrowthShippingFee | ReturnRate, ReturnRate
  | ReturnCostPerUnit, ReturnCostPerUnit | ExtraCost, ExtraCost => true
  | _, _ => false
  end.

Definition set_costs (c : Costs) (r : CostRule) : CostRule :=
  {| cr_id := cr_id r; cr_productId := cr_productId r; cr_costs := c;
     cr_effectiveFrom := cr_effectiveFrom r; cr_effectiveTo := cr_effectiveTo r;
     cr_createdAt := cr_createdAt r |}.

Definition write_cost (r : CostRule) (x : cost_write) : result CostRule :=
  let c := cr_costs r in
  match x with
  | SetMoney f d =>
      let! d' := money_column f d in
      Ok (set_costs (build_costs (fun g => if money_field_eqb f g then d' else get_money g c)
                       (fun g => get_shipping g c) (costNote c)) r)
  | SetShipping f d =>
      let! d' := shipping_column d in
      Ok (set_costs (build_costs (fun g => get_money g c)
            (fun g => match f, g with
                      | SellerShippingFee, SellerShippingFee | HanaroShippingFee, HanaroShippingFee => d'
                      | _, _ => get_shipping g c
                      end) (costNote c)) r)
  | SetCostNote n => Ok (set_costs (build_costs (fun g => get_money g c) (fun g => get_shipping g c) n) r)
  | SetCostFrom d =>
      Ok {| cr_id := cr_id r; cr_productId := cr_productId r; cr_costs := c; cr_effectiveFrom := d;
            cr_effectiveTo := cr_effectiveTo r; cr_createdAt := cr_createdAt r |}
  | SetCostTo d =>
      Ok {| cr_id := cr_id r; cr_productId := cr_productId r; cr_costs := c;
            cr_effectiveFrom := cr_effectiveFrom r; cr_effectiveTo := d; cr_createdAt := cr_createdAt r |}
  end.

Fixpoint write_costs (r : CostRule) (xs : list cost_write) : result CostRule :=
  match xs with
  | [] => Ok r
  | x :: rest => let! r' := write_cost r x in write_costs r' rest
  end.

(** ** Rules as rows of a timeline *)

Definition in_order (from : Z) (to : option Z) : bool :=
  match to with Some t => from <=? t | None => true end.

#[global] Instance cost_rule_ruled : Ruled CostRule := {|
  rl_id := cr_id; rl_from := cr_effectiveFrom; rl_to := cr_effectiveTo; rl_createdAt := cr_createdAt;
  rl_ending t r :=
    {| cr_id := cr_id r; cr_productId := cr_productId r; cr_costs := cr_costs r;
       cr_effectiveFrom := cr_effectiveFrom r; cr_effectiveTo := t; cr_createdAt := cr_createdAt r |};
  rl_check r := in_order (cr_effectiveFrom r) (cr_effectiveTo r)
|}.

#[global] Instance fee_rule_ruled : Ruled FeeRule := {|
  rl_id := fr_id; rl_from := fr_effectiveFrom; rl_to := fr_effectiveTo; rl_createdAt := fr_createdAt;
  rl_ending t r :=
    {| fr_id := fr_id r; fr_salesFeeRate := fr_salesFeeRate r; fr_effectiveFrom := fr_effectiveFrom r;
       fr_effectiveTo := t; fr_note := fr_note r; fr_createdAt := fr_createdAt r |};
  rl_check r := in_order (fr_effectiveFrom r) (fr_effectiveTo r)
|}.

#[global] Instance cost_rule_laws : RuledLaws CostRule.
Proof.
  split; try done; intros []; try done. simpl. unfold in_order.
  destruct cr_effectiveTo0; [|done]. intros L. apply Z.leb_le. by apply L.
Qed.

#[global] Instance fee_rule_laws : RuledLaws FeeRule.
Proof.
  split; try done; intros []; try done. simpl. unfold in_order.
  destruct fr_effectiveTo0; [|done]. intros L. apply Z.leb_le. by apply L.
Qed.

(** ** Statements *)

Definition tx_draw : TX Db nat := fun w => Ok (draws w, set_draws (S (draws w)) w).

(** [writeSecurityAudit]. *)
Definition write_audit (e : SecurityAuditWrite) : TX Db unit := fun w =>
  let! data := securityAuditData e in
  if match actorUserId data with
     | Some a => bool_decide (a ∈ appUsers w)
     | None => true
     end
  then Ok (tt, set_auditLog (auditLog w ++ [data]) w) else Throws P2003.

Definition rules_of (product : str) (rules : list CostRule) : list CostRule :=
  List.filter (fun r => str_eqb (cr_productId r) product) rules.

(** The unique index on the product and the first day. *)
Definition starts_on (product : str) (from : Z) (except : str) (r : CostRule) : bool :=
  str_eqb (cr_productId r) product && (cr_effectiveFrom r =? from) && negb (str_eqb (cr_id r) except).

Definition insert_cost_rule (r : CostRule) : TX Db CostRule := fun w =>
  if existsb (fun x => str_eqb (cr_id x) (cr_id r)) (costRules w) then Throws (P2002 "id")
  else if existsb (starts_on (cr_productId r) (cr_effectiveFrom r) (cr_id r)) (costRules w)
  then Throws (P2002 "coupang_product_id,effective_from")
  else if negb (existsb (fun p => str_eqb (pr_id p) (cr_productId r)) (products w)) then Throws P2003
  else if negb (rl_check r) then Throws check_violation
  else Ok (r, set_costRules (costRules w ++ [r]) w).

Definition update_cost_rule (i : str) (data : list cost_write) : TX Db CostRule := fun w =>
  match row_by_id i (costRules w) with
  | None => Throws row_missing
  | Some r =>
      let! r' := write_costs r data in
      if existsb (starts_on (cr_productId r') (cr_effectiveFrom r') i) (costRules w)
      then Throws (P2002 "coupang_product_id,effective_from")
      else if negb (rl_check r') then Throws check_violation
      else Ok (r', set_costRules (put_row r' (costRules w)) w)
  end.

Definition delete_cost_rule (i : str) : TX Db unit := fun w =>
  match row_by_id i (costRules w) with
  | None => Throws row_missing
  | Some _ =>
      Ok (tt, set_costRules (List.filter (fun r => negb (str_eqb (cr_id r) i)) (costRules w)) w)
  end.

Definition find_cost_rule (i : str) : TX Db (option CostRule) := tx_get (fun w => row_by_id i (costRules w)).

Definition findUniqueOrThrow {A} (x : TX Db (option A)) : TX Db A :=
  tx! r := x in match r with Some a => tx_ret a | None => tx_throw row_missing end.

(** [normalize] of one history, on the table of the database. *)
Definition normalize_cost_rules (previous : Z -> Z) (duplicate : js_error) (product : str) : TX Db unit :=
  fun w =>
    let! rules := normalize previous (Some duplicate) (js_sort ascending (rules_of product (costRules w)))
                    (costRules w) in
    Ok (tt, set_costRules rules w).

Definition insert_fee_rule (r : FeeRule) : TX Db FeeRule := fun w =>
  if existsb (fun x => str_eqb (fr_id x) (fr_id r)) (feeRules w) then Throws (P2002 "id")
  else if existsb (fun x => fr_effectiveFrom x =? fr_effectiveFrom r) (feeRules w)
  then Throws (P2002 "effective_from")
  else if negb (rl_check r) then Throws check_violation
  else Ok (r, set_feeRules (feeRules w ++ [r]) w).

Definition find_product (i : str) : TX Db (option Product) :=
  tx_get (fun w => List.find (fun p => str_eqb (pr_id p) i) (products w)).

Definition find_product_by_name (name : str) : TX Db (option Product) :=
  tx_get (fun w => List.find (fun p => str_eqb (standardName p) name) (products w)).
End rows.
