(* ===== verification/CoupangVersions.v ===== *)
(** * Versions of imported rows

    A row of a sales or advertising file has a logical key and a version, and
    of the rows with one key at most one is current.  The imports supersede the
    current row or keep it, and removing an upload makes the newest remaining
    row current (restoreCurrentCoupangSaleLines and
    restoreCurrentCoupangAdMetrics of coupang/coupang.service.ts).  Both tables
    are instances of the class [Versioned], over which this file has the
    operations and what they do. *)

From S2P Require Import Prelude JsNumber JsString JsDate.
From S2P Require Import Concurrency.
From S2P Require Import CoupangDb.

Local Open Scope Z_scope.

Class Versioned (A : Type) := {
  vs_id : A -> str;
  vs_batch : A -> str;
  vs_key : A -> str;
  vs_version : A -> Z;
  vs_createdAt : A -> Z;
  vs_refused : A -> bool;
  vs_current : A -> bool;
  vs_with_current : bool -> A -> A
}.

(** [vs_with_current] only writes the flag. *)
Class VersionedLaws (A : Type) `{Versioned A} : Prop := {
  with_current_id b x : vs_id (vs_with_current b x) = vs_id x;
  with_current_key b x : vs_key (vs_with_current b x) = vs_key x;
  with_current_batch b x : vs_batch (vs_with_current b x) = vs_batch x;
  with_current_version b x : vs_version (vs_with_current b x) = vs_version x;
  with_current_createdAt b x : vs_createdAt (vs_with_current b x) = vs_createdAt x;
  with_current_current b x : vs_current (vs_with_current b x) = b;
  with_current_refused b x : vs_refused (vs_with_current b x) = vs_refused x;
  with_current_same x : vs_with_current (vs_current x) x = x;
  with_current_twice b c x : vs_with_current b (vs_with_current c x) = vs_with_current b x
}.

(** ** The decision for one row *)

Record CoupangRowImportDecision := {
  importVersion : Z;
  isCurrent : bool;
  supersedeExisting : bool;
  skippedDuplicate : bool
}.

(** [existingCurrent] is the version of the current row, if there is one. *)
Definition resolveCoupangRowImportDecision (conflictPolicy : ConflictPolicy) (existingCurrent latest : option Z)
  : CoupangRowImportDecision :=
  let latestImportVersion := match latest with Some v => v | None => existingCurrent ?? 0 end in
  match existingCurrent with
  | None =>
      {| importVersion := if 0 <? latestImportVersion then latestImportVersion + 1 else 1;
         isCurrent := true; supersedeExisting := false; skippedDuplicate := false |}
  | Some v =>
      match conflictPolicy with
      | SKIP => {| importVersion := v; isCurrent := false; supersedeExisting := false; skippedDuplicate := true |}
      | NEW_VERSION =>
          {| importVersion := latestImportVersion + 1; isCurrent := true; supersedeExisting := true;
             skippedDuplicate := false |}
      | OVERWRITE =>
          {| importVersion := v; isCurrent := true; supersedeExisting := true; skippedDuplicate := false |}
      end
  end.

Definition resolveCoupangRowStoredState (validationStatus : RowValidationStatus) (d : CoupangRowImportDecision)
  : CoupangRowImportDecision :=
  match validationStatus with
  | ERROR => {| importVersion := importVersion d; isCurrent := false; supersedeExisting := false;
                skippedDuplicate := skippedDuplicate d |}
  | _ => d
  end.

Section operations.
Context {A : Type} `{Versioned A}.

Definition of_row_key (k : str) (x : A) : bool := str_eqb (vs_key x) k.

(** [updateMany({ where: { key }, data: { isCurrent: false } })]. *)
Definition clear_current (k : str) (rows : list A) : list A :=
  map (fun x => if of_row_key k x then vs_with_current false x else x) rows.

Definition set_current (i : str) (rows : list A) : list A :=
  map (fun x => if str_eqb (vs_id x) i then vs_with_current true x else x) rows.

(** [orderBy: [{ importVersion: "desc" }, { createdAt: "desc" }]]; the order of
    the table stands for what the database does with equal rows. *)
Definition newest (a b : A) : Z := (vs_version b - vs_version a) ||| (vs_createdAt b - vs_createdAt a).

Definition latest_of (k : str) (rows : list A) : option A :=
  head (js_sort newest (List.filter (fun x => of_row_key k x && negb (vs_refused x)) rows)).

Definition restore_key (rows : list A) (k : str) : list A :=
  let cleared := clear_current k rows in
  match latest_of k cleared with Some x => set_current (vs_id x) cleared | None => cleared end.

Definition restore_current (keys : list str) (rows : list A) : list A := fold_left restore_key keys rows.

(** *** Importing a row *)

(** [findMany({ where: { key }, orderBy })], and the current rows of it. *)
Definition existing_rows (k : str) (rows : list A) : list A := js_sort newest (List.filter (of_row_key k) rows).
Definition existing_current (k : str) (rows : list A) : list A := List.filter vs_current (existing_rows k rows).

Definition row_decision (policy : ConflictPolicy) (k : str) (rows : list A) : CoupangRowImportDecision :=
  resolveCoupangRowImportDecision policy (vs_version <$> head (existing_current k rows))
    (vs_version <$> head (existing_rows k rows)).

(** [updateMany({ where: { id: { in: ids } }, data: { isCurrent: false } })]. *)
Definition clear_ids (row_ids : list str) (rows : list A) : list A :=
  map (fun x => if bool_decide (vs_id x ∈ row_ids) then vs_with_current false x else x) rows.

(** What becomes of the current rows of the key before the new row is stored. *)
Definition supersede (k : str) (stored : CoupangRowImportDecision) (rows : list A) : list A :=
  let currents := existing_current k rows in
  if supersedeExisting stored && truthy_list currents then clear_ids (map vs_id currents) rows
  else if (1 <? List.length currents)%nat then clear_ids (map vs_id (List.tl currents)) rows
  else rows.

(** ** At most one current row *)

Definition current_of (k : str) (rows : list A) : list A :=
  List.filter (fun x => of_row_key k x && vs_current x) rows.

Definition one_current (rows : list A) : Prop := forall k, (List.length (current_of k rows) <= 1)%nat.
End operations.

Section facts.
Context {A : Type} `{VersionedLaws A}.
Implicit Types rows : list A.

#[local] Hint Rewrite @with_current_id @with_current_key @with_current_current @with_current_refused
  using typeclasses eauto : versions.

Lemma of_key_with_current k b (x : A) : of_row_key k (vs_with_current b x) = of_row_key k x.
Proof. unfold of_row_key. by autorewrite with versions. Qed.

(** Other keys are not touched. *)
Lemma clear_current_other k k' rows : k' <> k -> current_of k' (clear_current k rows) = current_of k' rows.
Proof.
  intros N. unfold current_of, clear_current. induction rows as [|x rows IH]; [done|]. simpl. rewrite IH.
  destruct (of_row_key k x) eqn:E; [|done]. unfold of_row_key, str_eqb in *. apply bool_decide_eq_true in E.
  autorewrite with versions. rewrite E. by rewrite bool_decide_eq_false_2.
Qed.

Lemma clear_current_none k rows : current_of k (clear_current k rows) = [].
Proof.
  unfold current_of, clear_current. induction rows as [|x rows IH]; [done|]. simpl. rewrite IH.
  destruct (of_row_key k x) eqn:E; [rewrite of_key_with_current, E; by autorewrite with versions|by rewrite E].
Qed.

Lemma clear_current_ids k rows : map vs_id (clear_current k rows) = map vs_id rows.
Proof.
  unfold clear_current. rewrite map_map. apply map_ext. intros x.
  destruct (of_row_key k x); by autorewrite with versions.
Qed.

Lemma set_current_ids i rows : map vs_id (set_current i rows) = map vs_id rows.
Proof.
  unfold set_current. rewrite map_map. apply map_ext. intros x.
  destruct (str_eqb (vs_id x) i); by autorewrite with versions.
Qed.

Lemma set_current_away i rows : i ∉ map vs_id rows -> set_current i rows = rows.
Proof.
  unfold set_current, str_eqb. induction rows as [|y rows IH]; [done|]. simpl.
  rewrite not_elem_of_cons. intros [Ny N]. rewrite IH by done. by rewrite bool_decide_eq_false_2 by congruence.
Qed.

(** Making one row current adds it to the current rows of its key. *)
Lemma set_current_length k x rows : NoDup (map vs_id rows) -> x ∈ rows ->
  (List.length (current_of k (set_current (vs_id x) rows))
   <= List.length (current_of k rows) + (if of_row_key k x then 1 else 0))%nat.
Proof.
  unfold current_of. induction rows as [|y rows IH]; intros N I; [by apply elem_of_nil in I|].
  simpl in N. apply NoDup_cons in N as [Ny N]. simpl. destruct (str_eqb (vs_id y) (vs_id x)) eqn:E.
  - unfold str_eqb in E. apply bool_decide_eq_true in E. rewrite <- E. fold (@set_current A _).
    change (map _ rows) with (set_current (vs_id y) rows). rewrite set_current_away by done.
    rewrite of_key_with_current. autorewrite with versions. rewrite andb_true_r.
    assert (x = y \/ vs_id y ∈ map vs_id rows) as [->|I'].
    { apply elem_of_cons in I as [->|I]; [auto|]. right. rewrite E. by apply list_elem_of_fmap_2. }
    + destruct (of_row_key k y), (vs_current y); simpl; lia.
    + done.
  - apply elem_of_cons in I as [->|I]; [by unfold str_eqb in E; rewrite bool_decide_eq_true_2 in E|].
    specialize (IH N I). destruct (of_row_key k y && vs_current y); simpl; lia.
Qed.

Lemma latest_of_elem k rows x : latest_of k rows = Some x ->
  x ∈ rows /\ of_row_key k x = true /\ vs_refused x = false.
Proof.
  unfold latest_of. intros E. assert (I : x ∈ js_sort newest (List.filter
    (fun x => of_row_key k x && negb (vs_refused x)) rows)).
  { destruct (js_sort _ _) as [|y l]; [done|]. injection E as ->. by left. }
  rewrite elem_of_js_sort, elem_of_filterb in I. destruct I as [I P]. apply andb_true_iff in P as [P Q].
  by apply negb_true_iff in Q.
Qed.

Lemma restore_key_ids k rows : map vs_id (restore_key rows k) = map vs_id rows.
Proof.
  unfold restore_key. destruct (latest_of _ _); [by rewrite set_current_ids, clear_current_ids|].
  apply clear_current_ids.
Qed.

(** Whatever the table was, a key whose row was restored has one current row at
    most, and the other keys keep theirs. *)
Lemma restore_key_current k k' rows : NoDup (map vs_id rows) ->
  (List.length (current_of k' (restore_key rows k))
   <= if str_eqb k' k then 1 else List.length (current_of k' rows))%nat.
Proof.
  intros N. unfold restore_key. unfold str_eqb. case_bool_decide as E.
  - subst k'. destruct (latest_of _ _) as [x|] eqn:L; [|by rewrite clear_current_none; simpl; lia].
    apply latest_of_elem in L as (I & K & _).
    pose proof (set_current_length k x (clear_current k rows)) as B.
    rewrite clear_current_ids, clear_current_none, K in B. specialize (B N I). done.
  - destruct (latest_of _ _) as [x|] eqn:L; [|by rewrite clear_current_other].
    apply latest_of_elem in L as (I & K & _).
    pose proof (set_current_length k' x (clear_current k rows)) as B.
    rewrite clear_current_ids, clear_current_other in B by done. specialize (B N I).
    assert (of_row_key k' x = false) as Q; [|rewrite Q in B; lia].
    unfold of_row_key, str_eqb in *. apply bool_decide_eq_true in K. by rewrite bool_decide_eq_false_2 by congruence.
Qed.

Lemma restore_current_ids keys rows : map vs_id (restore_current keys rows) = map vs_id rows.
Proof.
  unfold restore_current. revert rows. induction keys as [|k keys IH]; intros rows; [done|]. simpl.
  by rewrite IH, restore_key_ids.
Qed.

Lemma restore_current_bound keys k' rows : NoDup (map vs_id rows) ->
  (List.length (current_of k' (restore_current keys rows))
   <= if bool_decide (k' ∈ keys) then 1 else List.length (current_of k' rows))%nat.
Proof.
  unfold restore_current. revert rows. induction keys as [|k keys IH]; intros rows N; simpl; [done|].
  specialize (IH (restore_key rows k)). rewrite restore_key_ids in IH. specialize (IH N).
  pose proof (restore_key_current k k' rows N) as B. unfold str_eqb in B.
  destruct (bool_decide (k' ∈ keys)) eqn:I.
  { apply bool_decide_eq_true in I. rewrite bool_decide_eq_true_2; [done|by right]. }
  apply bool_decide_eq_false in I.
  case_bool_decide as E; [subst; rewrite bool_decide_eq_true_2; [lia|by left]|].
  rewrite bool_decide_eq_false_2; [lia|]. rewrite not_elem_of_cons. done.
Qed.

Lemma restore_current_one keys rows : NoDup (map vs_id rows) -> one_current rows ->
  one_current (restore_current keys rows).
Proof.
  intros N O k. pose proof (restore_current_bound keys k rows N) as B. specialize (O k).
  destruct (bool_decide _); lia.
Qed.
End facts.
