(* ===== verification/CoupangVersionsSafety.v ===== *)
(** * What imports and removals do to versions

    Proofs about [CoupangVersions]: importing a row leaves at most one current
    row per key and never takes the current row of a key away without another;
    removing the rows of an upload and restoring the newest remaining ones
    returns the table to what it was. *)

From S2P Require Import Prelude JsNumber JsString JsDate.
From S2P Require Import Concurrency.
From S2P Require Import CoupangDb.
From S2P Require Import CoupangVersions.

Local Open Scope Z_scope.

#[export] Instance filterb_proper {A} (p : A -> bool) : Proper (Permutation ==> Permutation) (List.filter p).
Proof.
  intros l l' P. induction P as [|x l l' P IH|x y l|l1 l2 l3 P1 IH1 P2 IH2]; simpl; [done| | |by etransitivity].
  - by destruct (p x); [constructor|].
  - by destruct (p x), (p y); [constructor| | |].
Qed.

Section versions.
Context {A : Type} `{VersionedLaws A}.
Implicit Types rows : list A.

#[local] Hint Rewrite @with_current_id @with_current_key @with_current_current @with_current_refused
  @with_current_batch @with_current_version @with_current_createdAt @with_current_twice
  using typeclasses eauto : versions.

(** ** Superseding *)

Lemma existing_current_perm k rows : existing_current k rows ≡ₚ current_of k rows.
Proof.
  unfold existing_current, existing_rows, current_of. rewrite js_sort_perm.
  induction rows as [|x rows IH]; [done|]. simpl. destruct (of_row_key k x); simpl; [|done].
  destruct (vs_current x); [by constructor|done].
Qed.

Lemma current_clear_ids k l rows :
  current_of k (clear_ids l rows) = List.filter (fun x => negb (bool_decide (vs_id x ∈ l))) (current_of k rows).
Proof.
  unfold current_of, clear_ids. induction rows as [|x rows IH]; [done|]. simpl. rewrite IH.
  destruct (bool_decide (vs_id x ∈ l)) eqn:E.
  - rewrite of_key_with_current. autorewrite with versions. rewrite andb_false_r.
    destruct (of_row_key k x && vs_current x); [|done]. simpl. by rewrite E.
  - destruct (of_row_key k x && vs_current x); [|done]. simpl. by rewrite E.
Qed.

Lemma clear_ids_ids l rows : map vs_id (clear_ids l rows) = map vs_id rows.
Proof.
  unfold clear_ids. rewrite map_map. apply map_ext. intros x. by destruct (bool_decide _); autorewrite with versions.
Qed.

Lemma supersede_ids k stored rows : map vs_id (supersede k stored rows) = map vs_id rows.
Proof. unfold supersede. destruct (_ && _); [apply clear_ids_ids|]. destruct (_ <? _)%nat; [apply clear_ids_ids|done]. Qed.

Lemma filter_out_ids (l : list A) m : m ⊆ l ->
  List.filter (fun x => negb (bool_decide (vs_id x ∈ map vs_id l))) m = [].
Proof.
  induction m as [|x m IH]; intros S; [done|]. simpl. rewrite bool_decide_eq_true_2; [|apply list_elem_of_fmap_2, S; by left].
  apply IH. intros y Iy. apply S. by right.
Qed.

(** At most one current row is left, none when the new row supersedes them. *)
Lemma supersede_one k stored rows :
  (List.length (current_of k (supersede k stored rows)) <= if supersedeExisting stored then 0 else 1)%nat.
Proof.
  unfold supersede. pose proof (existing_current_perm k rows) as P. destruct (existing_current k rows) as [|h t].
  - rewrite andb_false_r. cbn [List.length Nat.ltb Nat.leb]. apply Permutation_nil_l in P. rewrite <- P. simpl. lia.
  - rewrite andb_true_r. destruct (supersedeExisting stored).
    + rewrite current_clear_ids, <- P, filter_out_ids by done. done.
    + destruct (1 <? _)%nat eqn:L.
      * rewrite current_clear_ids, <- P. cbn [List.tl List.filter]. rewrite (filter_out_ids t t) by done.
        destruct (negb _); simpl; lia.
      * rewrite <- P. apply Nat.ltb_ge in L. done.
Qed.

(** A row that does not supersede leaves a key with a current row one. *)
Lemma supersede_some k stored rows : NoDup (map vs_id rows) -> supersedeExisting stored = false ->
  current_of k rows <> [] -> current_of k (supersede k stored rows) <> [].
Proof.
  intros N S C. unfold supersede. rewrite S. cbn [andb]. pose proof (existing_current_perm k rows) as P.
  destruct (_ <? _)%nat; [|done]. destruct (existing_current k rows) as [|h t] eqn:E.
  { by apply Permutation_nil_l in P. }
  rewrite current_clear_ids. cbn [List.tl]. intros Q. assert (F : h ∈ List.filter (fun x => negb (bool_decide (vs_id x ∈ map vs_id t))) (current_of k rows)).
  { apply elem_of_filterb. split; [rewrite <- P; by left|]. apply negb_true_iff, bool_decide_eq_false_2.
    assert (Nc : NoDup (map vs_id (current_of k rows))).
    { unfold current_of. clear -N. induction rows as [|x rows IH]; [constructor|]. simpl in *.
      apply NoDup_cons in N as [Nx N]. destruct (_ && _); [|by apply IH]. simpl. constructor; [|by apply IH].
      intros I. apply Nx. apply list_elem_of_fmap in I as (y & -> & [Iy _]%elem_of_filterb). by apply list_elem_of_fmap_2. }
    rewrite <- P in Nc. by apply NoDup_cons in Nc as [? _]. }
  rewrite Q in F. by apply elem_of_nil in F.
Qed.

(** Other keys keep their current rows. *)
Lemma clear_ids_other k k' l rows : NoDup (map vs_id rows) -> k' <> k ->
  (forall i, i ∈ l -> exists x, x ∈ rows /\ vs_id x = i /\ of_row_key k x = true) ->
  current_of k' (clear_ids l rows) = current_of k' rows.
Proof.
  intros N Nk Hl. rewrite current_clear_ids. apply filter_all. intros x Ix. apply negb_true_iff, bool_decide_eq_false_2.
  intros Il. apply Hl in Il as (y & Iy & Ey & Ky). unfold current_of in Ix. apply elem_of_filterb in Ix as [Ix Kx].
  apply andb_true_iff in Kx as [Kx _]. assert (x = y) as ->.
  { clear -N Ix Iy Ey. induction rows as [|z rows IH]; [by apply elem_of_nil in Ix|]. simpl in N.
    apply NoDup_cons in N as [Nz N]. apply elem_of_cons in Ix as [->|Ix]; apply elem_of_cons in Iy as [->|Iy]; try done.
    - destruct Nz. rewrite <- Ey. by apply list_elem_of_fmap_2.
    - destruct Nz. rewrite Ey. by apply list_elem_of_fmap_2.
    - by apply IH. }
  unfold of_row_key, str_eqb in *. apply bool_decide_eq_true in Kx, Ky. congruence.
Qed.

Lemma existing_current_elem k rows x : x ∈ existing_current k rows -> x ∈ rows /\ of_row_key k x = true.
Proof.
  rewrite existing_current_perm. unfold current_of. intros [I C]%elem_of_filterb. by apply andb_true_iff in C as [C _].
Qed.

Lemma supersede_other k k' stored rows : NoDup (map vs_id rows) -> k' <> k ->
  current_of k' (supersede k stored rows) = current_of k' rows.
Proof.
  intros N Nk. assert (I : forall l, l ⊆ existing_current k rows -> forall i, i ∈ map vs_id l ->
    exists x, x ∈ rows /\ vs_id x = i /\ of_row_key k x = true).
  { intros l S i Ii. apply list_elem_of_fmap in Ii as (x & -> & Ix). apply S, existing_current_elem in Ix as [? ?].
    by exists x. }
  unfold supersede. destruct (_ && _); [by apply (clear_ids_other k), I|].
  destruct (_ <? _)%nat; [|done]. apply (clear_ids_other k); [done..|]. apply I.
  destruct (existing_current k rows); [done|]. intros x Ix. by right.
Qed.

(** ** Storing a row *)

Definition stored_row (policy : ConflictPolicy) (status : RowValidationStatus) (k : str) rows : CoupangRowImportDecision :=
  resolveCoupangRowStoredState status (row_decision policy k rows).

Lemma stored_current policy status k rows : let d := stored_row policy status k rows in
  (supersedeExisting d = true -> isCurrent d = true)
  /\ (isCurrent d = true -> supersedeExisting d = true \/ existing_current k rows = [])
  /\ (isCurrent d = true -> status <> ERROR)
  /\ (existing_current k rows = [] -> status <> ERROR -> isCurrent d = true).
Proof.
  unfold stored_row, resolveCoupangRowStoredState, row_decision, resolveCoupangRowImportDecision. cbv zeta.
  destruct (existing_current k rows) as [|h t], status, policy; cbn; naive_solver.
Qed.

(** The table after a row of the key is stored. *)
Definition store (k : str) (stored : CoupangRowImportDecision) (x : A) rows : list A := supersede k stored rows ++ [x].

Lemma current_app k rows x :
  current_of k (rows ++ [x]) = current_of k rows ++ (if of_row_key k x && vs_current x then [x] else []).
Proof. unfold current_of. rewrite List.filter_app. by simpl; destruct (_ && _). Qed.

(** One current row at most for the key; one if it had one, or if the row is
    not in error. *)
Lemma store_current policy status k x rows : NoDup (map vs_id rows) ->
  let d := stored_row policy status k rows in
  vs_key x = k -> vs_current x = isCurrent d ->
  (List.length (current_of k (store k d x rows)) <= 1)%nat
  /\ (current_of k rows <> [] \/ status <> ERROR -> current_of k (store k d x rows) <> [])
  /\ forall k', k' <> k -> current_of k' (store k d x rows) = current_of k' rows.
Proof.
  intros N d Kx Cx. destruct (stored_current policy status k rows) as (SC & CS & _ & NC). fold d in SC, CS, NC.
  assert (Ko : forall k', of_row_key k' x = str_eqb k k') by (intros k'; unfold of_row_key; by rewrite Kx).
  unfold store. split; [|split].
  - rewrite current_app, Ko, Cx, length_app. pose proof (supersede_one k d rows) as L.
    destruct (isCurrent d) eqn:C; [|rewrite andb_false_r; simpl; destruct (supersedeExisting d); lia].
    destruct (CS eq_refl) as [S|E]; [rewrite S in L; destruct (_ && _); simpl; lia|].
    assert (Z : current_of k (supersede k d rows) = []).
    { unfold supersede. rewrite E. rewrite andb_false_r. cbn. pose proof (existing_current_perm k rows) as P.
      rewrite E in P. by apply Permutation_nil_l in P. }
    rewrite Z. destruct (_ && _); simpl; lia.
  - intros Hc. rewrite current_app, Ko, Cx. unfold str_eqb. rewrite bool_decide_eq_true_2 by done. cbn [andb].
    destruct (isCurrent d) eqn:C; [by intros [_ ?]%app_eq_nil|]. rewrite app_nil_r.
    destruct (supersedeExisting d) eqn:S; [by specialize (SC eq_refl)|]. apply supersede_some; [done..|].
    destruct Hc as [Hc|Hc]; [done|]. intros E. pose proof (existing_current_perm k rows) as P. rewrite E in P.
    apply Permutation_nil_r in P. by specialize (NC P Hc).
  - intros k' Nk. rewrite current_app, Ko. unfold str_eqb. rewrite bool_decide_eq_false_2 by congruence. cbn [andb].
    rewrite app_nil_r. by apply supersede_other.
Qed.

(** ** Restoring *)

Definition flag (i : option str) (x : A) : A := vs_with_current (bool_decide (i = Some (vs_id x))) x.

Definition latest_id (k : str) rows : option str := vs_id <$> latest_of k rows.

(** Rows that differ in their flags only. *)
Definition unflagged rows : list A := map (vs_with_current false) rows.

Lemma newest_unflagged (x y : A) : newest (vs_with_current false x) (vs_with_current false y) = newest x y.
Proof. unfold newest. by autorewrite with versions. Qed.

Lemma latest_unflagged k rows : latest_id k (unflagged rows) = latest_id k rows.
Proof.
  unfold latest_id, latest_of, unflagged.
  assert (F : List.filter (fun x => of_row_key k x && negb (vs_refused x)) (map (vs_with_current false) rows)
    = map (vs_with_current false) (List.filter (fun x => of_row_key k x && negb (vs_refused x)) rows)).
  { induction rows as [|x rows IH]; [done|]. simpl. rewrite of_key_with_current. autorewrite with versions.
    destruct (_ && _); simpl; by rewrite IH. }
  rewrite F, (js_sort_map _ newest newest) by apply newest_unflagged. destruct (js_sort _ _) as [|x l]; [done|].
  cbn. f_equal. by autorewrite with versions.
Qed.

Lemma unflagged_latest k rows rows' : unflagged rows = unflagged rows' -> latest_id k rows = latest_id k rows'.
Proof. intros E. by rewrite <- (latest_unflagged k rows), E, latest_unflagged. Qed.

Lemma clear_current_unflagged k rows : unflagged (clear_current k rows) = unflagged rows.
Proof.
  unfold unflagged, clear_current. rewrite map_map. apply map_ext. intros x. destruct (of_row_key k x); [|done].
  by autorewrite with versions.
Qed.

Lemma clear_ids_unflagged l rows : unflagged (clear_ids l rows) = unflagged rows.
Proof.
  unfold unflagged, clear_ids. rewrite map_map. apply map_ext. intros x. destruct (bool_decide _); [|done].
  by autorewrite with versions.
Qed.

Lemma same_row rows x y : NoDup (map vs_id rows) -> x ∈ rows -> y ∈ rows -> vs_id x = vs_id y -> x = y.
Proof.
  induction rows as [|z rows IH]; intros N Ix Iy E; [by apply elem_of_nil in Ix|]. simpl in N.
  apply NoDup_cons in N as [Nz N]. apply elem_of_cons in Ix as [->|Ix]; apply elem_of_cons in Iy as [->|Iy]; try done.
  - destruct Nz. rewrite E. by apply list_elem_of_fmap_2.
  - destruct Nz. rewrite <- E. by apply list_elem_of_fmap_2.
  - by apply IH.
Qed.

(** The restored key has the flag on its newest accepted row. *)
Lemma restore_key_flags k rows : NoDup (map vs_id rows) ->
  restore_key rows k = map (fun x => if of_row_key k x then flag (latest_id k rows) x else x) rows.
Proof.
  intros N. assert (Li : latest_id k (clear_current k rows) = latest_id k rows).
  { apply unflagged_latest, clear_current_unflagged. }
  unfold restore_key. rewrite <- Li. unfold latest_id. destruct (latest_of k (clear_current k rows)) as [y|] eqn:E.
  - apply latest_of_elem in E as (Iy & Ky & _). unfold set_current. unfold clear_current at 1. rewrite map_map.
    apply map_ext_in. intros x Ix%list_elem_of_In. cbn [fmap option_fmap option_map]. unfold flag.
    destruct (of_row_key k x) eqn:Kx.
    + autorewrite with versions. unfold str_eqb. destruct (bool_decide (vs_id x = vs_id y)) eqn:Q.
      * apply bool_decide_eq_true in Q. rewrite Q, bool_decide_eq_true_2 by done. by autorewrite with versions.
      * apply bool_decide_eq_false in Q. rewrite bool_decide_eq_false_2 by congruence. done.
    + unfold str_eqb. case_bool_decide as Q; [|done]. exfalso.
      assert (Nc : NoDup (map vs_id (clear_current k rows))) by (by rewrite clear_current_ids).
      assert (Ic : x ∈ clear_current k rows).
      { unfold clear_current. apply list_elem_of_fmap. exists x. by rewrite Kx. }
      rewrite (same_row _ x y Nc Ic Iy Q) in Kx. congruence.
  - unfold clear_current. apply map_ext. intros x. destruct (of_row_key k x); [|done]. unfold flag.
    cbn. by rewrite bool_decide_eq_false_2.
Qed.

(** The current row of every key is its newest accepted one. *)
Definition newest_current rows : Prop := forall x, x ∈ rows -> flag (latest_id (vs_key x) rows) x = x.

(** The same rows, up to the flags of some keys. *)
Definition agrees (ks : list str) rows rows' : Prop :=
  Forall2 (fun x y => y = x \/ (vs_key x ∈ ks /\ vs_with_current false y = vs_with_current false x)) rows rows'.

Lemma agrees_unflagged ks rows rows' : agrees ks rows rows' -> unflagged rows' = unflagged rows.
Proof. induction 1 as [|x y rows rows' [->|[_ E]] _ IH]; [done|..]; simpl; f_equal; done. Qed.

Lemma unflagged_ids rows rows' : unflagged rows = unflagged rows' -> map vs_id rows = map vs_id rows'.
Proof.
  intros E. assert (F : forall l : list A, map vs_id l = map vs_id (unflagged l)).
  { intros l. unfold unflagged. rewrite map_map. apply map_ext. intros x. by autorewrite with versions. }
  by rewrite F, E, <- F.
Qed.

Lemma agrees_refl ks rows : agrees ks rows rows.
Proof. induction rows; constructor; auto. Qed.

Lemma agrees_mono ks ks' rows rows' : ks ⊆ ks' -> agrees ks rows rows' -> agrees ks' rows rows'.
Proof. intros S F. eapply Forall2_impl; [exact F|]. cbn. intros x y [?|[? ?]]; auto. Qed.

Lemma agrees_trans ks rows rows1 rows2 : agrees ks rows rows1 -> agrees ks rows1 rows2 -> agrees ks rows rows2.
Proof.
  intros E. revert rows2. induction E as [|x y rows rows1 Hxy _ IH]; intros rows2 F; inversion_clear F; constructor.
  - destruct Hxy as [->|[Kx Exy]]; [done|]. destruct H1 as [->|[Ky Eyz]]; [auto|]. right. split; [done|congruence].
  - by apply IH.
Qed.

Lemma clear_ids_agrees k l rows : (forall x, x ∈ rows -> vs_id x ∈ l -> vs_key x = k) -> agrees [k] rows (clear_ids l rows).
Proof.
  unfold clear_ids. induction rows as [|x rows IH]; intros K; constructor; [|apply IH; intros; apply K; [by right|done]].
  destruct (bool_decide (vs_id x ∈ l)) eqn:E; [|auto]. apply bool_decide_eq_true in E. right.
  rewrite (K x) by (by left || done). split; [by left|]. by autorewrite with versions.
Qed.

Lemma supersede_agrees k d rows : NoDup (map vs_id rows) -> agrees [k] rows (supersede k d rows).
Proof.
  intros N. assert (C : forall l, l ⊆ existing_current k rows -> agrees [k] rows (clear_ids (map vs_id l) rows)).
  { intros l S. apply clear_ids_agrees. intros x Ix (y & Ey & Iy%S)%list_elem_of_fmap.
    apply existing_current_elem in Iy as [Iy Ky]. rewrite (same_row rows x y N Ix Iy Ey).
    unfold of_row_key, str_eqb in Ky. by apply bool_decide_eq_true in Ky. }
  unfold supersede. destruct (_ && _); [by apply C|]. destruct (_ <? _)%nat; [|apply agrees_refl]. apply C.
  destruct (existing_current k rows); [done|]. intros x Ix. by right.
Qed.

(** Restoring the keys whose flags differ gives the rows back. *)
Lemma restore_key_agrees k ks rows rows' : NoDup (map vs_id rows) -> newest_current rows -> agrees ks rows rows' ->
  agrees (List.filter (fun k' => negb (str_eqb k' k)) ks) rows (restore_key rows' k).
Proof.
  intros N W E. pose proof (agrees_unflagged _ _ _ E) as U.
  rewrite restore_key_flags by (by rewrite (unflagged_ids rows' rows)). rewrite (unflagged_latest k rows' rows U).
  assert (W' : forall x, x ∈ rows -> of_row_key k x = true -> flag (latest_id k rows) x = x).
  { intros x Ix Kx. unfold of_row_key, str_eqb in Kx. apply bool_decide_eq_true in Kx as <-. by apply W. }
  clear W N U. revert W'. generalize (latest_id k rows). intros i W'.
  induction E as [|x y rows rows' Hxy _ IH]; constructor; [|apply IH; intros; apply W'; [by right|done]].
  assert (Ky : of_row_key k y = of_row_key k x /\ vs_id y = vs_id x /\ vs_with_current false y = vs_with_current false x).
  { destruct Hxy as [->|[_ Q]]; [done|]. split; [|split; [|done]].
    - by rewrite <- (of_key_with_current k false y), Q, of_key_with_current.
    - by rewrite <- (with_current_id false y), Q, with_current_id. }
  destruct Ky as (Ky & Iy & Q). rewrite Ky. destruct (of_row_key k x) eqn:Kx.
  - left. rewrite <- (W' x) by (by left || done). unfold flag. rewrite Iy.
    rewrite <- (with_current_twice _ false y), Q. by autorewrite with versions.
  - destruct Hxy as [->|[Ik _]]; [auto|]. right. split; [|done]. apply elem_of_filterb. split; [done|].
    apply negb_true_iff. unfold of_row_key in Kx. exact Kx.
Qed.

Lemma restore_agrees keys ks rows rows' : NoDup (map vs_id rows) -> newest_current rows -> agrees ks rows rows' ->
  ks ⊆ keys -> restore_current keys rows' = rows.
Proof.
  intros N W. unfold restore_current. revert ks rows'. induction keys as [|k keys IH]; intros ks rows' E S; simpl.
  - assert (ks = []) as -> by (destruct ks as [|k ks]; [done|]; exfalso; eapply not_elem_of_nil, S; by left).
    clear W N S. induction E as [|x y rows rows' [->|[I _]] _ IH]; [done|by f_equal|]. by apply elem_of_nil in I.
  - apply (IH (List.filter (fun k' => negb (str_eqb k' k)) ks)); [by apply restore_key_agrees|].
    intros k' [Ik Nk]%elem_of_filterb. apply S, elem_of_cons in Ik as [->|?]; [|done].
    unfold str_eqb in Nk. by rewrite bool_decide_eq_true_2 in Nk.
Qed.

(** ** Importing the rows of an upload and removing it *)

(** What an upload [b] did to the table [rows]: it added its own rows, and
    changed flags of rows with their keys only. *)
Definition imported (b : str) rows rows' : Prop :=
  exists old new, rows' = old ++ new /\ Forall (fun x => vs_batch x = b) new /\ agrees (map vs_key new) rows old.

Lemma imported_refl b rows : imported b rows rows.
Proof. exists rows, []. rewrite app_nil_r. split; [done|]. split; [constructor|apply agrees_refl]. Qed.

Lemma supersede_app_agrees k d old new : NoDup (map vs_id (old ++ new)) -> exists old' new',
  supersede k d (old ++ new) = old' ++ new' /\ agrees [k] old old' /\ agrees [k] new new'.
Proof.
  intros N. pose proof (supersede_agrees k d _ N) as E. apply Forall2_app_inv_l in E as (o & n & Eo & En & ->).
  by exists o, n.
Qed.

Lemma imported_store b k d x rows rows' : NoDup (map vs_id rows') -> imported b rows rows' -> vs_batch x = b -> vs_key x = k ->
  imported b rows (store k d x rows').
Proof.
  intros N (old & new & -> & Fb & Ag) Bx Kx. destruct (supersede_app_agrees k d old new N) as (o & n & E & Eo & En).
  exists o, (n ++ [x]). unfold store. rewrite E, <- app_assoc. split; [done|]. split.
  - apply Forall_app. split; [|by apply Forall_singleton]. clear -Fb En H0. revert Fb.
    induction En as [|y z new n Hyz _ IH]; intros Fb; constructor; apply Forall_cons in Fb as [Fy Fb]; [|by apply IH].
    destruct Hyz as [->|[_ Q]]; [done|]. by rewrite <- (with_current_batch false z), Q, with_current_batch.
  - assert (Kn : map vs_key n = map vs_key new).
    { clear -En H0. induction En as [|y z new n Hyz _ IH]; [done|]. simpl. f_equal; [|done].
      destruct Hyz as [->|[_ Q]]; [done|]. by rewrite <- (with_current_key false z), Q, with_current_key. }
    rewrite map_app, Kn. eapply agrees_trans; eapply agrees_mono; [|exact Ag| |exact Eo].
    + intros k' Ik. apply elem_of_app. by left.
    + intros k' Ik. apply elem_of_app. right. cbn [map]. by rewrite Kx.
Qed.
End versions.
