(* ===== verification/CoupangRules.v ===== *)
(** * Cost rules, product settings and the sales fee of Coupang

    From coupang/coupang.service.ts: the settings of a product with the history
    of its costs, the history of the global sales fee, and the values of a
    request body that they accept.  Each request is one transaction; those that
    write a history first take the advisory lock of that history, so they are
    not interleaved with others that write it. *)

From S2P Require Import Prelude JsNumber JsString JsDate.
From S2P Require Import DateNumber.
From S2P Require Import SecurityAudit.
From S2P Require Import Concurrency.
From S2P Require Import RequestBody.
From S2P Require Import Timeline.
From S2P Require Import CoupangDb.

Local Open Scope Z_scope.

(** ** Values of the body *)

Section values.
Context `{Icu, DecimalNumber}.

Definition MAX_COUPANG_COST_INTEGER_KRW : Z := 999999999999.

Definition shiftUtcDate (date days : Z) : Z :=
  make_day (getUTCFullYear date) (getUTCMonth date) (getUTCDate date + days) * msPerDay
  + time_within_day date.
Definition previousDate (date : Z) : Z := shiftUtcDate date (-1).

(** [/^\d{4}-\d{2}-\d{2}$/]. *)
Definition DATE_PATTERN (s : str) : bool :=
  match split_on 45 s with
  | [y; m; d] => between 4 4 y && between 2 2 m && between 2 2 d
  | _ => false
  end.

Definition requiredDateFromBody (value : field) : result Z :=
  let text := match value with Text s => trim s | _ => [] end in
  match (if DATE_PATTERN text then toDateOnly (Some text) else None) with
  | Some d => Ok d
  | None => bad_request "INVALID_DATE"
  end.

(** The date in Korea, which is nine hours ahead of UTC all year. *)
Definition currentKoreaDateOnly (now : Z) : result Z :=
  requiredDateFromBody (Text (iso_date (now + 9 * 3600000))).

Definition optionalNullableString (value : field) : option (option str) :=
  match value with
  | Undefined => None
  | Null => Some None
  | _ => Some (if truthy (trim (string_of value)) then Some (trim (string_of value)) else None)
  end.

Definition numberOrDefault (value : field) (fallback : Z) : num :=
  let parsed := number_of value in if isFinite parsed then trunc parsed else ofZ fallback.

Definition uniqueNonEmpty (values : list str) : list str :=
  js_unique (List.filter truthy (map trim values)).

Definition stringArray (value : field) : result (option (list str)) :=
  match value with
  | Undefined => Ok None
  | Texts l => Ok (Some (uniqueNonEmpty l))
  | Text s => Ok (Some (uniqueNonEmpty (split_on 44 s)))
  | _ => bad_request "INVALID_ARRAY"
  end.

Definition requiredStringArray (value : field) : result (list str) :=
  let! values := stringArray value in
  match values with
  | Some ((_ :: _) as l) => Ok l
  | _ => bad_request "FIELD_REQUIRED"
  end.

Definition standardProductName (value : str) : str := to_lower (join (js " ") (split_ws (trim value))).

Definition sales_fee_fields : list str := map js ["salesFeeRate"; "salesFeeKrw"; "salesFeePercent"]%string.

Definition assertGlobalSalesFeeFieldsNotPresent (b : body) : result unit :=
  if existsb (has_own b) sales_fee_fields then bad_request "COUPANG_SALES_FEE_IS_GLOBAL" else Ok tt.

Definition assertCoupangCostEffectiveToNotPresent (b : body) : result unit :=
  if has_own b (js "effectiveTo") then bad_request "COUPANG_COST_RULE_EFFECTIVE_TO_MANAGED" else Ok tt.

Definition rateDecimalFromBody (value : field) (code : string) : result dec :=
  let parsed := number_of value in
  if blank value || negb (isFinite parsed) || nltb parsed (ofZ 0) || nltb (ofZ 1) parsed
  then bad_request code
  else Ok (dec_of_num (ndiv (round (nmul parsed (ofZ 1000000))) (ofZ 1000000))).

Definition salesFeeRateFromPercentBody (value : field) : result dec :=
  let parsed := number_of value in
  if blank value || negb (isFinite parsed) || nltb parsed (ofZ 0) || nltb (ofZ 100) parsed
  then bad_request "INVALID_SALES_FEE_PERCENT"
  else Ok (dec_of_num (ndiv (round (nmul (ndiv parsed (ofZ 100)) (ofZ 1000000))) (ofZ 1000000))).

(** The name of a field, and the code that [invalidCoupangCostField] makes of it. *)
Definition money_name (f : money_field) : str :=
  js match f with
     | SalePrice => "salePriceKrw" | SupplyPrice => "supplyPriceKrw" | ProductCost => "productCostKrw"
     | SalesFeeRate => "salesFeeRate" | SalesFee => "salesFeeKrw"
     | GrowthInboundFee => "growthInboundFeeKrw" | GrowthShippingFee => "growthShippingFeeKrw"
     | ReturnRate => "returnRate" | ReturnCostPerUnit => "returnCostPerUnitKrw"
     | ExtraCost => "extraCostKrw"
     end%string.
Definition shipping_name (f : shipping_field) : str :=
  js match f with
     | SellerShippingFee => "sellerShippingFeeKrw" | HanaroShippingFee => "hanaroShippingFeeKrw"
     end%string.

(** [field.replace(/([a-z])([A-Z])/g, "$1_$2").toUpperCase().replace(/_KRW$/, "")]. *)
Fixpoint snake (s : str) : str :=
  match s with
  | a :: ((c :: _) as r) =>
      if (97 <=? a)%N && (a <=? 122)%N && (65 <=? c)%N && (c <=? 90)%N then a :: 95%N :: snake r
      else a :: snake r
  | _ => s
  end.

Definition invalidCoupangCostField (name : str) : js_error :=
  let upper := map ascii_upper (snake name) in
  {| err_status := 400;
     err_code := js "INVALID_" ++ (if ends_with (js "_KRW") upper then slice_drop_last 4 upper else upper) |}.

(** [/^-?\d+(?:\.\d+)?$/]. *)
Definition numeric_text (s : str) : bool :=
  let digits := match s with 45%N :: r => r | _ => s end in
  match split_on 46 digits with
  | [i] => truthy i && all_digits i
  | [i; f] => truthy i && all_digits i && truthy f && all_digits f
  | _ => false
  end.

Definition decimalFromBody (value : field) (name : str) : result (option dec) :=
  if blank value then Ok None
  else
    match value with
    | Number x => if isFinite x then Ok (Some (dec_of_num x)) else Throws (invalidCoupangCostField name)
    | Text s =>
        if numeric_text (trim s)
        then match dec_of_text (trim s) with
             | Some d => Ok (Some d)
             | None => Throws (invalidCoupangCostField name)
             end
        else Throws (invalidCoupangCostField name)
    | _ => Throws (invalidCoupangCostField name)
    end.

Definition nonNegativeCostDecimalFromBody (value : field) (name : str) : result (option dec) :=
  let! parsed := decimalFromBody value name in
  match parsed with
  | Some d =>
      if dec_is_negative d || negb (dec_is_integer d) || dec_greater d MAX_COUPANG_COST_INTEGER_KRW
      then Throws (invalidCoupangCostField name) else Ok (Some d)
  | None => Ok None
  end.

Definition nullableNonNegativeCostDecimalFromBody (value : field) (name : str) : result (option dec) :=
  if blank value then Ok None else nonNegativeCostDecimalFromBody value name.

(** ** A cost rule from a body *)

Definition COUPANG_COST_FIELDS : list str :=
  map js ["salePriceKrw"; "supplyPriceKrw"; "productCostKrw"; "sellerShippingFeeKrw";
          "hanaroShippingFeeKrw"; "growthInboundFeeKrw"; "growthShippingFeeKrw"; "returnRate";
          "returnCostPerUnitKrw"; "extraCostKrw"]%string.

Definition hasCoupangCostFields (b : body) : bool := existsb (has_own b) COUPANG_COST_FIELDS.

(** The fields that are not [undefined]. *)
Definition provided {A} (w : A -> cost_write) (x : option A) : list cost_write :=
  match x with Some a => [w a] | None => [] end.

Definition shipping_write (b : body) (latest : option Costs) (f : shipping_field) : result cost_write :=
  if has_own b (shipping_name f)
  then let! d := nullableNonNegativeCostDecimalFromBody (body_field b (shipping_name f)) (shipping_name f) in
       Ok (SetShipping f d)
  else Ok (SetShipping f (c ← latest; get_shipping f c)).

Definition money_write (b : body) (latest : option Costs) (f : money_field) : result (list cost_write) :=
  let! d := nonNegativeCostDecimalFromBody (body_field b (money_name f)) (money_name f) in
  Ok (provided (SetMoney f) (match d with Some _ => d | None => get_money f <$> latest end)).

Definition maybeCostRuleCreate (b : body) (latest : option Costs) : result (option (list cost_write)) :=
  if negb (hasCoupangCostFields b) then Ok None
  else
    let! seller := shipping_write b latest SellerShippingFee in
    let! hanaro := shipping_write b latest HanaroShippingFee in
    let! salePrice := money_write b latest SalePrice in
    let! supplyPrice := money_write b latest SupplyPrice in
    let! productCost := money_write b latest ProductCost in
    let! inbound := money_write b latest GrowthInboundFee in
    let! shipping := money_write b latest GrowthShippingFee in
    let! rate :=
      (if is_undefined (body_field b (js "returnRate")) then Ok (returnRate <$> latest)
       else let! r := rateDecimalFromBody (body_field b (js "returnRate")) "INVALID_RETURN_RATE" in Ok (Some r)) in
    let! returnCost := money_write b latest ReturnCostPerUnit in
    let! extra := money_write b latest ExtraCost in
    let! from :=
      (if boolean_of (body_field b (js "effectiveFrom"))
       then let! d := requiredDateFromBody (body_field b (js "effectiveFrom")) in Ok (Some d) else Ok None) in
    let note := if is_undefined (body_field b (js "note")) then costNote <$> latest
                else Some <$> optionalString (body_field b (js "note")) in
    Ok (Some (salePrice ++ supplyPrice ++ productCost
              ++ [SetMoney SalesFeeRate dec_zero; SetMoney SalesFee dec_zero; seller; hanaro]
              ++ inbound ++ shipping ++ provided (SetMoney ReturnRate) rate ++ returnCost ++ extra
              ++ provided SetCostFrom from ++ provided SetCostNote note)).

(** The row that a create starts from: the defaults of the columns. *)
Definition default_costs : Costs := build_costs (fun _ => dec_zero) (fun _ => None) None.

Definition default_cost_rule (id product : str) (now : Z) : CostRule :=
  {| cr_id := id; cr_productId := product; cr_costs := default_costs;
     cr_effectiveFrom := day now * msPerDay; cr_effectiveTo := None; cr_createdAt := now |}.
End values.

(** ** The statements of the requests *)

Section statements.
Context `{Icu, DecimalNumber} (uuid : nat -> str).

(** The audit record of a request that names its actor. *)
Definition audit (actor : option str) (act kind : string) (target : str) (before after : option json)
  : TX Db unit :=
  match actor with
  | None => tx_ret tt
  | Some a =>
      write_audit {| actorUserId := Some a; actorType := USER; action := js act; targetType := js kind;
                     targetId := Some target; auditResult := SUCCESS; beforeJson := before;
                     afterJson := after; requestId := None |}
  end.

(** [catch (error) { rethrow(error) }]. *)
Definition tx_rethrow {A} (f : js_error -> js_error) (m : TX Db A) : TX Db A := fun w =>
  match m w with Throws e => Throws (f e) | r => r end.

Definition bad_request_error (code : string) : js_error := {| err_status := 400; err_code := js code |}.

Definition COUPANG_COST_RULE_DATE_EXISTS : js_error := bad_request_error "COUPANG_COST_RULE_DATE_EXISTS".
Definition COUPANG_SALES_FEE_RULE_DATE_EXISTS : js_error :=
  bad_request_error "COUPANG_SALES_FEE_RULE_DATE_EXISTS".

Definition rethrowCoupangCostRuleWriteError (e : js_error) : js_error :=
  if starts_with (js "P2002:") (err_code e) && includes (js "coupang_product_id") (err_code e)
     && includes (js "effective_from") (err_code e)
  then COUPANG_COST_RULE_DATE_EXISTS else e.

Definition rethrowSalesFeeRuleWriteError (e : js_error) : js_error :=
  if starts_with (js "P2002:") (err_code e) then COUPANG_SALES_FEE_RULE_DATE_EXISTS else e.

Definition create_cost_rule (product : str) (data : list cost_write) : TX Db CostRule :=
  tx! n := tx_draw in
  tx! now := tx_get time in
  tx! r := tx_lift (write_costs (default_cost_rule (uuid n) product now) data) in
  insert_cost_rule r.

Definition findCoupangCostRuleAtOrBeforeDate (product : str) (date : Z) : TX Db (option CostRule) :=
  tx_get (fun w => head (js_sort descending
    (List.filter (fun r => cr_effectiveFrom r <=? date) (rules_of product (costRules w))))).

Definition findCoupangCostRuleStartingOnDate (product : str) (date : Z) : TX Db (option CostRule) :=
  tx_get (fun w => head (js_sort descending
    (List.filter (fun r => cr_effectiveFrom r =? date) (rules_of product (costRules w))))).

Definition normalizeCoupangCostRuleRanges (product : str) : TX Db unit :=
  normalize_cost_rules previousDate COUPANG_COST_RULE_DATE_EXISTS product.

(** [compareCoupangCostRuleForSelection], [findRuleForDate] and
    [findSalesFeeRuleForDate]. *)
Definition compareCoupangCostRuleForSelection (a b : CostRule) : Z := descending a b.

Definition findRuleForDate (rules : list CostRule) (date : Z) : option CostRule :=
  rule_on compareCoupangCostRuleForSelection rules date.

Definition findSalesFeeRuleForDate (rules : list FeeRule) (date : Z) : option FeeRule :=
  rule_on (descending (A := FeeRule)) rules date.

Definition sortCoupangCostRulesForSettings (rules : list CostRule) : list CostRule :=
  js_sort compareCoupangCostRuleForSelection rules.

(** The first rule that starts after a day. *)
Definition following_rule (product : str) (date : Z) (except : option str) : TX Db (option CostRule) :=
  tx_get (fun w => head (js_sort ascending
    (List.filter (fun r => (date <? cr_effectiveFrom r) && negb (bool_decide (Some (cr_id r) = except)))
       (rules_of product (costRules w))))).

(** ** Products *)

Inductive product_write :=
  | SetDisplayName (s : str)
  | SetStandardName (s : str)
  | SetSortOrder (x : num)
  | SetProductActive (b : bool)
  | SetGroup (g : option str).

Definition write_product (p : Product) (x : product_write) : Product :=
  match x with
  | SetDisplayName s =>
      {| pr_id := pr_id p; pr_groupId := pr_groupId p; standardName := standardName p;
         pr_displayName := s; pr_sortOrder := pr_sortOrder p; pr_isActive := pr_isActive p;
         pr_createdAt := pr_createdAt p |}
  | SetStandardName s =>
      {| pr_id := pr_id p; pr_groupId := pr_groupId p; standardName := s;
         pr_displayName := pr_displayName p; pr_sortOrder := pr_sortOrder p;
         pr_isActive := pr_isActive p; pr_createdAt := pr_createdAt p |}
  | SetSortOrder x =>
      {| pr_id := pr_id p; pr_groupId := pr_groupId p; standardName := standardName p;
         pr_displayName := pr_displayName p; pr_sortOrder := x; pr_isActive := pr_isActive p;
         pr_createdAt := pr_createdAt p |}
  | SetProductActive b =>
      {| pr_id := pr_id p; pr_groupId := pr_groupId p; standardName := standardName p;
         pr_displayName := pr_displayName p; pr_sortOrder := pr_sortOrder p; pr_isActive := b;
         pr_createdAt := pr_createdAt p |}
  | SetGroup g =>
      {| pr_id := pr_id p; pr_groupId := g; standardName := standardName p;
         pr_displayName := pr_displayName p; pr_sortOrder := pr_sortOrder p;
         pr_isActive := pr_isActive p; pr_createdAt := pr_createdAt p |}
  end.

Definition put_product (p' : Product) (l : list Product) : list Product :=
  map (fun p => if str_eqb (pr_id p) (pr_id p') then p' else p) l.

Definition update_product (i : str) (data : list product_write) : TX Db Product := fun w =>
  match List.find (fun p => str_eqb (pr_id p) i) (products w) with
  | None => Throws row_missing
  | Some p =>
      let p' := fold_left write_product data p in
      if existsb (fun q => str_eqb (standardName q) (standardName p') && negb (str_eqb (pr_id q) i)) (products w)
      then Throws (P2002 "standard_name")
      else Ok (p', set_products (put_product p' (products w)) w)
  end.

Definition insert_product (p : Product) : TX Db Product := fun w =>
  if existsb (fun q => str_eqb (pr_id q) (pr_id p)) (products w) then Throws (P2002 "id")
  else if existsb (fun q => str_eqb (standardName q) (standardName p)) (products w)
  then Throws (P2002 "standard_name")
  else Ok (p, set_products (products w ++ [p]) w).

Definition productAuditSnapshot (p : Product) : json :=
  JObj [(js "id", JStr (pr_id p)); (js "standardName", JStr (standardName p));
        (js "displayName", JStr (pr_displayName p)); (js "sortOrder", JNum (pr_sortOrder p));
        (js "isActive", JBool (pr_isActive p))].

Definition assertProduct (i : str) : TX Db Product :=
  tx! p := find_product i in
  match p with Some p => tx_ret p | None => tx_lift (not_found "COUPANG_PRODUCT_NOT_FOUND") end.

Definition assertProductGroup (g : str) : TX Db unit :=
  tx! found := tx_get (fun w => existsb (str_eqb g) (groups w)) in
  if found then tx_ret tt else tx_lift (not_found "COUPANG_PRODUCT_GROUP_NOT_FOUND").

Definition buildCoupangProductSettingUpdateData (b : body) : TX Db (list product_write) :=
  let field name := body_field b (js name) in
  tx! displayName :=
    tx_lift (if is_undefined (field "displayName") then Ok []
             else let! s := requiredString (field "displayName") in Ok [SetDisplayName s]) in
  tx! standard :=
    tx_lift (if is_undefined (field "standardName") then Ok []
             else let! s := requiredString (field "standardName") in
                  Ok [SetStandardName (standardProductName s)]) in
  let order := if is_undefined (field "sortOrder") then []
               else [SetSortOrder (numberOrDefault (field "sortOrder") 100)] in
  let active := if is_undefined (field "isActive") then []
                else [SetProductActive (boolean_of (field "isActive"))] in
  tx! group :=
    match optionalNullableString (field "groupId") with
    | None => tx_ret []
    | Some (Some g) => tx! _ := assertProductGroup g in tx_ret [SetGroup (Some g)]
    | Some None => tx_ret [SetGroup None]
    end in
  tx_ret (displayName ++ standard ++ order ++ active ++ group).

(** ** Mapping rules *)

Definition mapping_order (a b : MappingRule) : Z :=
  nsign (nsub (mr_priority a) (mr_priority b)) ||| (mr_createdAt a - mr_createdAt b).

Definition put_mapping_rule (r' : MappingRule) (l : list MappingRule) : list MappingRule :=
  map (fun r => if str_eqb (mr_id r) (mr_id r') then r' else r) l.

Definition upsertPrimaryCoupangProductRule (product : str) (b : body) : TX Db unit :=
  let field name := body_field b (js name) in
  if is_undefined (field "mappingRuleId") && is_undefined (field "includeKeywords")
     && is_undefined (field "excludeKeywords") && is_undefined (field "priority")
  then tx_ret tt
  else
    tx! include :=
      tx_lift (if is_undefined (field "includeKeywords") then Ok None
               else let! l := requiredStringArray (field "includeKeywords") in Ok (Some l)) in
    let ruleId := optionalString (field "mappingRuleId") in
    tx! existing := tx_get (fun w =>
      match ruleId with
      | Some i => List.find (fun r => str_eqb (mr_id r) i) (mappingRules w)
      | None => head (js_sort mapping_order
                  (List.filter (fun r => str_eqb (mr_productId r) product && mr_isActive r) (mappingRules w)))
      end) in
    match ruleId, existing with
    | Some _, None => tx_lift (not_found "COUPANG_MAPPING_RULE_NOT_FOUND")
    | _, Some r =>
        if negb (str_eqb (mr_productId r) product) then tx_lift (bad_request "COUPANG_RULE_PRODUCT_MISMATCH")
        else
          tx! name :=
            tx_lift (if is_undefined (field "displayName") then Ok (mr_displayName r)
                     else requiredString (field "displayName")) in
          tx! exclude :=
            tx_lift (if is_undefined (field "excludeKeywords") then Ok (excludeKeywords r)
                     else let! l := stringArray (field "excludeKeywords") in Ok (l ?? [])) in
          fun w => Ok (tt, set_mappingRules (put_mapping_rule
            {| mr_id := mr_id r; mr_productId := mr_productId r; mr_displayName := name;
               includeKeywords := include ?? includeKeywords r; excludeKeywords := exclude;
               mr_priority := if is_undefined (field "priority") then mr_priority r
                              else numberOrDefault (field "priority") 100;
               mr_saleMethod := mr_saleMethod r; adEnabled := adEnabled r; mr_isActive := true;
               validFrom := validFrom r; validTo := validTo r; mr_note := mr_note r;
               mr_createdAt := mr_createdAt r |} (mappingRules w)) w)
    | None, None =>
        match include with
        | None | Some [] => tx_ret tt
        | Some l =>
            tx! n := tx_draw in
            tx! exclude := tx_lift (stringArray (field "excludeKeywords")) in
            fun w => Ok (tt, set_mappingRules (mappingRules w ++
              [{| mr_id := uuid n; mr_productId := product;
                  mr_displayName := optionalString (field "displayName") ?? js "매칭 규칙";
                  includeKeywords := l; excludeKeywords := exclude ?? [];
                  mr_priority := numberOrDefault (field "priority") 100; mr_saleMethod := None;
                  adEnabled := true; mr_isActive := true; validFrom := day (time w) * msPerDay;
                  validTo := None; mr_note := None; mr_createdAt := time w |}]) w)
        end
    end.
End statements.

(** ** The requests *)

Section requests.
Context `{Icu, DecimalNumber} (uuid : nat -> str).

Definition now : prog Db Z := look time.

Record ProductResult := {
  product : Product;
  productCostRules : list CostRule;
  currentCostRule : option CostRule
}.

Definition product_result (w : Db) (date : Z) (p : Product) : ProductResult :=
  let rules := sortCoupangCostRulesForSettings (rules_of (pr_id p) (costRules w)) in
  {| product := p; productCostRules := rules; currentCostRule := findRuleForDate rules date |}.

Definition listProductSettings (includeInactive : bool) (date : option str) : prog Db (list ProductResult) :=
  await t := now in
  await d := of_result (match date with
                        | Some ((_ :: _) as s) => requiredDateFromBody (Text s)
                        | _ => currentKoreaDateOnly t
                        end) in
  call (tx_get (fun w => map (product_result w d)
    (js_sort (fun p q => nsign (nsub (pr_sortOrder p) (pr_sortOrder q))
                         ||| str_cmp (pr_displayName p) (pr_displayName q))
       (List.filter (fun p => includeInactive || pr_isActive p) (products w))))).

Definition create_product (standard display : str) (group : option str) (order : num) (active : bool)
    (costs : option (list cost_write)) : TX Db Product :=
  tx! n := tx_draw in
  tx! t := tx_get time in
  tx! p := insert_product {| pr_id := uuid n; pr_groupId := group; standardName := standard;
    pr_displayName := display; pr_sortOrder := order; pr_isActive := active; pr_createdAt := t |} in
  tx! _ := match costs with
           | Some data => tx! _ := create_cost_rule uuid (pr_id p) data in tx_ret tt
           | None => tx_ret tt
           end in
  tx_ret p.

Definition createProductSetting (b : body) (actor : option str) : prog Db Product :=
  let field name := body_field b (js name) in
  await _ := of_result (assertGlobalSalesFeeFieldsNotPresent b) in
  await _ := of_result (assertCoupangCostEffectiveToNotPresent b) in
  await display := of_result (requiredString (field_or (field "displayName") (field "standardName"))) in
  await standard := of_result (requiredString (field_or (field "standardName") (Text display))) in
  let standard := standardProductName standard in
  let group := match optionalNullableString (field "groupId") with Some g => g | None => None end in
  await costBody :=
    (if hasCoupangCostFields b then
       await t := now in
       await d := of_result (if has_own b (js "effectiveFrom") then requiredDateFromBody (field "effectiveFrom")
                             else currentKoreaDateOnly t) in
       Ret (set_field b (js "effectiveFrom") (Text (formatDateOnly d)))
     else Ret b) in
  await _ := match group with Some g => call (assertProductGroup g) | None => Ret tt end in
  await costs := of_result (maybeCostRuleCreate costBody None) in
  call
    (tx! created := create_product standard display group (numberOrDefault (field "sortOrder") 100)
        (if is_undefined (field "isActive") then true else boolean_of (field "isActive")) costs in
     tx! _ := audit actor "COUPANG_PRODUCT_SETTING_CREATED" "COUPANG_PRODUCT" (pr_id created) None
                (Some (productAuditSnapshot created)) in
     tx_ret created).

Inductive cost_operation := CREATED | UPDATED_SAME_DATE.

Record CostRuleChange := {
  operation : cost_operation;
  changedRule : CostRule;
  change_effectiveFrom : str;
  change_effectiveTo : option str;
  nextRuleEffectiveFrom : option str
}.

(** The part of [updateProductConfiguration] that writes the costs. *)
Definition save_cost_rule (id : str) (b : body) : TX Db CostRuleChange :=
  tx! effectiveFrom := tx_lift (requiredDateFromBody (body_field b (js "effectiveFrom"))) in
  tx! sameDateRule := findCoupangCostRuleStartingOnDate id effectiveFrom in
  tx! atOrBefore := findCoupangCostRuleAtOrBeforeDate id effectiveFrom in
  let baseRule := match sameDateRule with Some r => Some r | None => atOrBefore end in
  tx! costRule := tx_lift (maybeCostRuleCreate b (cr_costs <$> baseRule)) in
  match costRule with
  | None => tx_lift (bad_request "COST_RULE_EMPTY")
  | Some data =>
      tx! saved :=
        match sameDateRule with
        | Some r =>
            update_cost_rule (cr_id r)
              (data ++ [SetMoney SalesFeeRate (salesFeeRate (cr_costs r)); SetMoney SalesFee (salesFeeKrw (cr_costs r))])
        | None => create_cost_rule uuid id data
        end in
      tx! _ := normalizeCoupangCostRuleRanges id in
      tx! rule := findUniqueOrThrow (find_cost_rule (cr_id saved)) in
      tx! nextRule := following_rule id effectiveFrom None in
      tx_ret {| operation := if is_Some_b sameDateRule then UPDATED_SAME_DATE else CREATED;
                changedRule := rule; change_effectiveFrom := formatDateOnly (cr_effectiveFrom rule);
                change_effectiveTo := formatDateOnly <$> cr_effectiveTo rule;
                nextRuleEffectiveFrom := (fun r => formatDateOnly (cr_effectiveFrom r)) <$> nextRule |}
  end.

Definition with_change (snapshot : json) (changed : bool) : json :=
  match snapshot with JObj l => JObj (l ++ [(js "costRuleChanged", JBool changed)]) | j => j end.

Definition configuration_transaction (id : str) (b : body) (actor : option str)
  : TX Db (ProductResult * option CostRuleChange) :=
  tx! before := assertProduct id in
  tx! data := buildCoupangProductSettingUpdateData b in
  tx! _ := match data with [] => tx_ret tt | _ => tx! _ := update_product id data in tx_ret tt end in
  tx! change := (if hasCoupangCostFields b then tx! c := save_cost_rule id b in tx_ret (Some c) else tx_ret None) in
  tx! _ := upsertPrimaryCoupangProductRule uuid id b in
  tx! updated := assertProduct id in
  tx! t := tx_get time in
  tx! today := tx_lift (currentKoreaDateOnly t) in
  tx! res := tx_get (fun w => product_result w today updated) in
  tx! _ := audit actor
      (if pr_isActive updated then "COUPANG_PRODUCT_SETTING_UPDATED" else "COUPANG_PRODUCT_SETTING_DEACTIVATED")
      "COUPANG_PRODUCT" id (Some (productAuditSnapshot before))
      (Some (with_change (productAuditSnapshot updated) (is_Some_b change))) in
  tx_ret (res, change).

Definition updateProductConfiguration (id : str) (b : body) (actor : option str)
  : prog Db (ProductResult * option CostRuleChange) :=
  await _ := of_result (assertGlobalSalesFeeFieldsNotPresent b) in
  await _ := of_result (assertCoupangCostEffectiveToNotPresent b) in
  call (tx_rethrow rethrowCoupangCostRuleWriteError (configuration_transaction id b actor)).

Definition mapping_fields : list str :=
  map js ["mappingRuleId"; "includeKeywords"; "excludeKeywords"; "priority"]%string.

Definition updateProductSetting (id : str) (b : body) (actor : option str) : prog Db Product :=
  await _ := of_result (assertGlobalSalesFeeFieldsNotPresent b) in
  await _ := of_result (assertCoupangCostEffectiveToNotPresent b) in
  if hasCoupangCostFields b then
    await t := now in
    await today := of_result (currentKoreaDateOnly t) in
    let configuration := set_field (fold_left delete_field mapping_fields b) (js "effectiveFrom")
      (field_or (body_field b (js "effectiveFrom")) (Text (formatDateOnly today))) in
    await res := updateProductConfiguration id configuration actor in
    Ret (product res.1)
  else
    await before := call (assertProduct id) in
    call
      (tx! data := buildCoupangProductSettingUpdateData b in
       tx! _ := match data with [] => tx_ret tt | _ => tx! _ := update_product id data in tx_ret tt end in
       tx! updated := assertProduct id in
       tx! _ := audit actor
           (if pr_isActive updated then "COUPANG_PRODUCT_SETTING_UPDATED"
            else "COUPANG_PRODUCT_SETTING_DEACTIVATED")
           "COUPANG_PRODUCT" id (Some (productAuditSnapshot before)) (Some (productAuditSnapshot updated)) in
       tx_ret updated).

Definition deleteProductSetting (id : str) (actor : option str) : prog Db Product :=
  await before := call (assertProduct id) in
  call
    (tx! updated := update_product id [SetProductActive false] in
     tx! _ := audit actor "COUPANG_PRODUCT_SETTING_DEACTIVATED" "COUPANG_PRODUCT" id
                (Some (productAuditSnapshot before)) (Some (productAuditSnapshot updated)) in
     tx_ret updated).

(** ** Corrections of a cost rule *)

Definition correction_money : list money_field :=
  [SalePrice; SupplyPrice; ProductCost; SalesFee; GrowthInboundFee; GrowthShippingFee; ReturnCostPerUnit; ExtraCost].

Definition correct_money (b : body) (f : money_field) : result (list (str * list cost_write)) :=
  if has_own b (money_name f) then
    let! d := nonNegativeCostDecimalFromBody (body_field b (money_name f)) (money_name f) in
    Ok [(money_name f, provided (SetMoney f) d)]
  else Ok [].

Definition correct_shipping (b : body) (f : shipping_field) : result (list (str * list cost_write)) :=
  if has_own b (shipping_name f) then
    let! d := nullableNonNegativeCostDecimalFromBody (body_field b (shipping_name f)) (shipping_name f) in
    Ok [(shipping_name f, [SetShipping f d])]
  else Ok [].

Definition correct_rate (b : body) (f : money_field) (code : string) : result (list (str * list cost_write)) :=
  if has_own b (money_name f) then
    let! d := rateDecimalFromBody (body_field b (money_name f)) code in
    Ok [(money_name f, [SetMoney f d])]
  else Ok [].

(** The keys of [data] with what they write. *)
Definition correction_data (b : body) : result (list (str * list cost_write)) :=
  let! money := result_map (correct_money b) correction_money in
  let! shipping := result_map (correct_shipping b) [SellerShippingFee; HanaroShippingFee] in
  let! fee := correct_rate b SalesFeeRate "INVALID_SALES_FEE_RATE" in
  let! rate := correct_rate b ReturnRate "INVALID_RETURN_RATE" in
  let! from :=
    (if has_own b (js "effectiveFrom")
     then let! d := requiredDateFromBody (body_field b (js "effectiveFrom")) in
          Ok [(js "effectiveFrom", [SetCostFrom d])]
     else Ok []) in
  let! _ := assertCoupangCostEffectiveToNotPresent b in
  let note := if has_own b (js "note")
              then [(js "note", provided SetCostNote (optionalNullableString (body_field b (js "note"))))]
              else [] in
  Ok (concat money ++ concat shipping ++ fee ++ rate ++ from ++ note).

(** The first day that a list of writes sets. *)
Definition new_start (data : list (str * list cost_write)) : option Z :=
  head (flat_map (fun w => match w with SetCostFrom d => [d] | _ => [] end) (flat_map snd data)).

Definition correction_transaction (productId costRuleId : str) (b : body) (actor : option str) : TX Db CostRule :=
  tx! _ := assertProduct productId in
  tx! existing := find_cost_rule costRuleId in
  match existing with
  | None => tx_lift (not_found "COUPANG_COST_RULE_NOT_FOUND")
  | Some existing =>
      if negb (str_eqb (cr_productId existing) productId)
      then tx_lift (bad_request "COUPANG_COST_RULE_PRODUCT_MISMATCH")
      else
        tx! data := tx_lift (correction_data b) in
        let nextFrom := new_start data ?? cr_effectiveFrom existing in
        tx! duplicate := tx_get (fun w => existsb (starts_on productId nextFrom costRuleId) (costRules w)) in
        if duplicate then tx_throw COUPANG_COST_RULE_DATE_EXISTS
        else if match data with [] => true | _ => false end then tx_lift (bad_request "COST_RULE_CORRECTION_EMPTY")
        else
          tx! ends :=
            (if is_Some_b (new_start data) then
               tx! following := following_rule productId nextFrom (Some costRuleId) in
               tx_ret [SetCostTo ((fun r => previousDate (cr_effectiveFrom r)) <$> following)]
             else tx_ret []) in
          tx! _ := update_cost_rule costRuleId (flat_map snd data ++ ends) in
          tx! _ := normalizeCoupangCostRuleRanges productId in
          tx! normalized := findUniqueOrThrow (find_cost_rule costRuleId) in
          tx! _ := audit actor "COUPANG_PRODUCT_COST_RULE_CORRECTED" "COUPANG_COST_RULE" costRuleId
              (Some (JObj [(js "productId", JStr productId);
                           (js "effectiveFrom", JStr (formatDateOnly (cr_effectiveFrom existing)))]))
              (Some (JObj [(js "productId", JStr productId);
                           (js "effectiveFrom", JStr (formatDateOnly (cr_effectiveFrom normalized)));
                           (js "changedFields", JArr (map (fun d => JStr d.1) data))])) in
          tx_ret normalized
  end.

Definition correctProductCostRule (productId costRuleId : str) (b : body) (actor : option str) : prog Db CostRule :=
  call (tx_rethrow rethrowCoupangCostRuleWriteError (correction_transaction productId costRuleId b actor)).

(** ** The sales fee *)

Record SalesFeeAnswer := {
  sf_id : str;
  sf_salesFeeRate : num;
  sf_salesFeePercent : num;
  sf_effectiveFrom : str;
  sf_effectiveTo : option str;
  sf_note : option str;
  sf_createdAt : Z
}.

Definition serializeSalesFeeRule (r : FeeRule) : SalesFeeAnswer :=
  let rate := dec_num (fr_salesFeeRate r) in
  {| sf_id := fr_id r; sf_salesFeeRate := rate;
     sf_salesFeePercent := ndiv (round (nmul rate (ofZ 100000000))) (ofZ 1000000);
     sf_effectiveFrom := formatDateOnly (fr_effectiveFrom r);
     sf_effectiveTo := formatDateOnly <$> fr_effectiveTo r; sf_note := fr_note r;
     sf_createdAt := fr_createdAt r |}.

(** [orderBy: [{ effectiveFrom: "desc" }, { createdAt: "desc" }]]. *)
Definition newest_first (a b : FeeRule) : Z :=
  (fr_effectiveFrom b - fr_effectiveFrom a) ||| (fr_createdAt b - fr_createdAt a).

Definition currentSalesFeeRule (date : option str) : prog Db SalesFeeAnswer :=
  await t := now in
  await d := of_result (match date with
                        | Some ((_ :: _) as s) => requiredDateFromBody (Text s)
                        | _ => currentKoreaDateOnly t
                        end) in
  await rule := call (tx_get (fun w => rule_on newest_first (feeRules w) d)) in
  match rule with
  | Some r => Ret (serializeSalesFeeRule r)
  | None => of_result (not_found "COUPANG_GLOBAL_SALES_FEE_RATE_MISSING")
  end.

Definition listSalesFeeRules : prog Db (list SalesFeeAnswer) :=
  call (tx_get (fun w => map serializeSalesFeeRule (js_sort newest_first (feeRules w)))).

Definition fee_ascending (a b : FeeRule) : Z :=
  (fr_effectiveFrom a - fr_effectiveFrom b) ||| (fr_createdAt a - fr_createdAt b).

Definition normalizeSalesFeeRuleRanges : TX Db unit := fun w =>
  let! rules := normalize previousDate (Some COUPANG_SALES_FEE_RULE_DATE_EXISTS)
                  (js_sort fee_ascending (feeRules w)) (feeRules w) in
  Ok (tt, set_feeRules rules w).

Definition rate_column (d : dec) : result dec :=
  match numeric 8 6 d with Some d' => Ok d' | None => Throws P2020 end.

Definition find_fee_rule (i : str) : TX Db (option FeeRule) := tx_get (fun w => row_by_id i (feeRules w)).

Definition fee_audit (actor : option str) (act : string) (target : str) (before : option FeeRule) (after : FeeRule)
  : TX Db unit :=
  let snapshot r := JObj [(js "effectiveFrom", JStr (formatDateOnly (fr_effectiveFrom r)))] in
  audit actor act "COUPANG_SALES_FEE_RULE" target (snapshot <$> before) (Some (snapshot after)).

Definition create_fee_transaction (rate : dec) (effectiveFrom : Z) (note : option str) (actor : option str)
  : TX Db SalesFeeAnswer :=
  tx! duplicate := tx_get (fun w => existsb (fun r => fr_effectiveFrom r =? effectiveFrom) (feeRules w)) in
  if duplicate then tx_throw COUPANG_SALES_FEE_RULE_DATE_EXISTS
  else
    tx! n := tx_draw in
    tx! t := tx_get time in
    tx! stored := tx_lift (rate_column rate) in
    tx! created := insert_fee_rule
      {| fr_id := uuid n; fr_salesFeeRate := stored; fr_effectiveFrom := effectiveFrom;
         fr_effectiveTo := None; fr_note := note; fr_createdAt := t |} in
    tx! _ := normalizeSalesFeeRuleRanges in
    tx! rule := findUniqueOrThrow (find_fee_rule (fr_id created)) in
    tx! _ := fee_audit actor "COUPANG_SALES_FEE_SETTING_CREATED" (fr_id rule) None rule in
    tx_ret (serializeSalesFeeRule rule).

Definition createSalesFeeRule (b : body) (actor : option str) : prog Db SalesFeeAnswer :=
  await rate := of_result (salesFeeRateFromPercentBody (body_field b (js "salesFeePercent"))) in
  await effectiveFrom := of_result (requiredDateFromBody (body_field b (js "effectiveFrom"))) in
  let note := optionalNullableString (body_field b (js "note")) ?? None in
  call (tx_rethrow rethrowSalesFeeRuleWriteError (create_fee_transaction rate effectiveFrom note actor)).

Record fee_correction := {
  new_rate : option dec;
  new_from : option Z;
  new_note : option (option str)
}.

Definition fee_correction_data (b : body) : result (bool * fee_correction) :=
  let! rate :=
    (if has_own b (js "salesFeePercent")
     then let! r := salesFeeRateFromPercentBody (body_field b (js "salesFeePercent")) in Ok (Some r) else Ok None) in
  let! from :=
    (if has_own b (js "effectiveFrom")
     then let! d := requiredDateFromBody (body_field b (js "effectiveFrom")) in Ok (Some d) else Ok None) in
  let note := if has_own b (js "note") then optionalNullableString (body_field b (js "note")) else None in
  Ok (existsb (has_own b) (map js ["salesFeePercent"; "effectiveFrom"; "note"]%string),
      {| new_rate := rate; new_from := from; new_note := note |}).

(** The UPDATE of a fee rule; its new last day is the one before the next first day. *)
Definition update_fee_rule (i : str) (c : fee_correction) (ends : option (option Z)) : TX Db unit := fun w =>
  match row_by_id i (feeRules w) with
  | None => Throws row_missing
  | Some r =>
      let! rate := match new_rate c with Some d => rate_column d | None => Ok (fr_salesFeeRate r) end in
      let r' := {| fr_id := fr_id r; fr_salesFeeRate := rate;
                   fr_effectiveFrom := new_from c ?? fr_effectiveFrom r;
                   fr_effectiveTo := ends ?? fr_effectiveTo r;
                   fr_note := new_note c ?? fr_note r; fr_createdAt := fr_createdAt r |} in
      if existsb (fun x => (fr_effectiveFrom x =? fr_effectiveFrom r') && negb (str_eqb (fr_id x) i)) (feeRules w)
      then Throws (P2002 "effective_from")
      else if negb (rl_check r') then Throws check_violation
      else Ok (tt, set_feeRules (put_row r' (feeRules w)) w)
  end.

Definition following_fee_rule (date : Z) (except : str) : TX Db (option FeeRule) :=
  tx_get (fun w => head (js_sort ascending
    (List.filter (fun r => (date <? fr_effectiveFrom r) && negb (str_eqb (fr_id r) except)) (feeRules w)))).

Definition correct_fee_transaction (id : str) (b : body) (actor : option str) : TX Db SalesFeeAnswer :=
  tx! existing := find_fee_rule id in
  match existing with
  | None => tx_lift (not_found "COUPANG_SALES_FEE_RULE_NOT_FOUND")
  | Some existing =>
      tx! data := tx_lift (fee_correction_data b) in
      let '(given, data) := data in
      if negb given then tx_lift (bad_request "SALES_FEE_RULE_CORRECTION_EMPTY")
      else
        let nextFrom := new_from data ?? fr_effectiveFrom existing in
        tx! duplicate := tx_get (fun w =>
          existsb (fun r => (fr_effectiveFrom r =? nextFrom) && negb (str_eqb (fr_id r) id)) (feeRules w)) in
        if duplicate then tx_throw COUPANG_SALES_FEE_RULE_DATE_EXISTS
        else
          tx! ends :=
            (if is_Some_b (new_from data) then
               tx! following := following_fee_rule nextFrom id in
               tx_ret (Some ((fun r => previousDate (fr_effectiveFrom r)) <$> following))
             else tx_ret None) in
          tx! _ := update_fee_rule id data ends in
          tx! _ := normalizeSalesFeeRuleRanges in
          tx! rule := findUniqueOrThrow (find_fee_rule id) in
          tx! _ := fee_audit actor "COUPANG_SALES_FEE_SETTING_CORRECTED" id (Some existing) rule in
          tx_ret (serializeSalesFeeRule rule)
  end.

Definition correctSalesFeeRule (id : str) (b : body) (actor : option str) : prog Db SalesFeeAnswer :=
  call (tx_rethrow rethrowSalesFeeRuleWriteError (correct_fee_transaction id b actor)).
End requests.
