(* ===== verification/CoupangUploads.v ===== *)
(** * Uploads of Coupang costs and their removal

    From coupang/coupang.service.ts: the reservation of an upload, the imports
    of price lists and margin sheets, and the removal of an upload with what it
    did to the cost rules.  A file comes in as what its parser makes of it
    ([CoupangPriceText], [CoupangMargin]) and its hash. *)

From S2P Require Import Prelude JsNumber JsString JsDate.
From S2P Require Import DateNumber.
From S2P Require Import SecurityAudit.
From S2P Require Import Concurrency.
From S2P Require Import RequestBody.
From S2P Require Import Timeline.
From S2P Require Import CoupangPriceText.
From S2P Require Import CoupangMargin.
From S2P Require Import CoupangDb.
From S2P Require Import CoupangVersions.
From S2P Require Import CoupangRules.

Local Open Scope Z_scope.

(** ** Names in JSON *)

Definition source_name (s : CoupangUploadSourceType) : str :=
  js match s with
     | SALES => "SALES" | ADS => "ADS" | MARGIN => "MARGIN" | PRICE_TEXT => "PRICE_TEXT"
     | PROMOTION => "PROMOTION" | BUNDLE => "BUNDLE"
     end%string.

Definition policy_name (p : ConflictPolicy) : str :=
  js match p with SKIP => "SKIP" | OVERWRITE => "OVERWRITE" | NEW_VERSION => "NEW_VERSION" end%string.

Definition status_name (s : UploadStatus) : str :=
  js match s with
     | PENDING => "PENDING" | VALIDATING => "VALIDATING" | VALIDATED => "VALIDATED"
     | IMPORTED => "IMPORTED" | PARTIAL => "PARTIAL" | FAILED => "FAILED" | CANCELLED => "CANCELLED"
     end%string.

(** [String(value ?? SKIP)]; a name that the enumeration inherits from
    [Object.prototype] passes the test of the code and is refused by Prisma. *)
Definition parseConflictPolicy (value : field) : result ConflictPolicy :=
  let text := if nullish value then js "SKIP" else string_of value in
  match List.find (fun p => str_eqb (policy_name p) text) [SKIP; OVERWRITE; NEW_VERSION] with
  | Some p => Ok p
  | None => bad_request "INVALID_CONFLICT_POLICY"
  end.

(** ** The marker of a reservation *)

Inductive retry_state := RESERVED | TRANSIENT_FAILED.

#[export] Instance retry_state_eq_dec : EqDecision retry_state.
Proof. solve_decision. Defined.

Record CoupangRetryMarker := {
  marker_source : CoupangUploadSourceType;
  marker_state : retry_state;
  attemptId : str;
  leaseExpiresAt : str
}.

Definition COUPANG_RETRY_MARKER_KEY : str := js "_securityRetry".
Definition COUPANG_RETRY_LEASE_MS : Z := 60 * 60 * 1000.

Definition isCoupangRetrySource (s : CoupangUploadSourceType) : bool :=
  match s with SALES | ADS | MARGIN => true | _ => false end.

Definition state_name (s : retry_state) : str :=
  js match s with RESERVED => "RESERVED" | TRANSIENT_FAILED => "TRANSIENT_FAILED" end%string.

Definition marker_json (m : CoupangRetryMarker) : json :=
  JObj [(js "version", JNum (ofZ 1)); (js "sourceType", JStr (source_name (marker_source m)));
        (js "state", JStr (state_name (marker_state m))); (js "attemptId", JStr (attemptId m));
        (js "leaseExpiresAt", JStr (leaseExpiresAt m))].

Definition withCoupangRetryMarker (schema : json) (m : CoupangRetryMarker) : json :=
  let base := match schema with JObj l => l | _ => [] end in
  JObj (map_set base COUPANG_RETRY_MARKER_KEY (marker_json m)).

Definition is_hex_digit (c : N) : bool :=
  is_digit c || (let l := ascii_lower c in (97 <=? l)%N && (l <=? 102)%N).

(** [/^[0-9a-f]{8}-[0-9a-f]{4}-[1-5][0-9a-f]{3}-[89ab][0-9a-f]{3}-[0-9a-f]{12}$/i]. *)
Definition UUID_PATTERN (s : str) : bool :=
  let hex n t := (List.length t =? n)%nat && forallb is_hex_digit t in
  match split_on 45 s with
  | [a; b; c; d; e] =>
      hex 8%nat a && hex 4%nat b && hex 4%nat c && hex 4%nat d && hex 12%nat e
      && match c with x :: _ => (49 <=? x)%N && (x <=? 53)%N | [] => false end
      && match d with x :: _ => existsb (N.eqb (ascii_lower x)) (js "89ab") | [] => false end
  | _ => false
  end.

Definition json_text (v : option json) : option str :=
  match v with Some (JStr s) => Some s | _ => None end.

Definition coupangRetryMarker (schema : json) : option CoupangRetryMarker :=
  match schema with
  | JObj l =>
      match json_field l COUPANG_RETRY_MARKER_KEY with
      | Some (JObj m) =>
          source ← List.find (fun s => bool_decide (json_text (json_field m (js "sourceType")) = Some (source_name s)))
                     [SALES; ADS; MARGIN];
          state ← List.find (fun s => bool_decide (json_text (json_field m (js "state")) = Some (state_name s)))
                    [RESERVED; TRANSIENT_FAILED];
          attempt ← json_text (json_field m (js "attemptId"));
          lease ← json_text (json_field m (js "leaseExpiresAt"));
          if match json_field m (js "version") with Some (JNum x) => neqb x (ofZ 1) | _ => false end
             && UUID_PATTERN attempt && is_Some_b (date_parse lease)
          then Some {| marker_source := source; marker_state := state; attemptId := attempt;
                       leaseExpiresAt := lease |}
          else None
      | _ => None
      end
  | _ => None
  end.

Definition coupangRetryConflict {A} (code : string) : result A := conflict code.

(** ** Batches *)

Section batches.
Context `{Icu, DecimalNumber} (uuid : nat -> str) (sha256 : str -> str) (random_text : nat -> str).

Definition newCoupangRetryMarker (source : CoupangUploadSourceType) (state : retry_state) : TX Db CoupangRetryMarker :=
  tx! t := tx_get time in
  tx! n := tx_draw in
  tx_ret {| marker_source := source; marker_state := state; attemptId := uuid n;
            leaseExpiresAt := toISOString (t + COUPANG_RETRY_LEASE_MS) |}.

Definition duplicateBatchHash (fileHash : str) (policy : ConflictPolicy) : TX Db str :=
  tx! t := tx_get time in
  tx! n := tx_draw in
  tx_ret (sha256 (fileHash ++ js ":" ++ policy_name policy ++ js ":" ++ digits_of 20 t ++ js ":" ++ random_text n)).

Record BatchInput := {
  in_sourceType : CoupangUploadSourceType;
  in_originalFilename : str;
  in_fileHash : str;
  in_conflictPolicy : ConflictPolicy;
  in_allowDuplicate : bool;
  in_columnSchema : json;
  in_rowCount : Z
}.

Definition find_batch (i : str) : TX Db (option UploadBatch) :=
  tx_get (fun w => List.find (fun b => str_eqb (ub_id b) i) (batches w)).
Definition find_batch_by_hash (h : str) : TX Db (option UploadBatch) :=
  tx_get (fun w => List.find (fun b => str_eqb (fileHashSha256 b) h) (batches w)).

Definition insert_batch (b : UploadBatch) : TX Db UploadBatch := fun w =>
  if existsb (fun x => str_eqb (ub_id x) (ub_id b)) (batches w) then Throws (P2002 "id")
  else if existsb (fun x => str_eqb (fileHashSha256 x) (fileHashSha256 b)) (batches w)
  then Throws (P2002 "file_hash_sha256")
  else if match uploadedBy b with Some u => negb (bool_decide (u ∈ appUsers w)) | None => false end then Throws P2003
  else Ok (b, set_batches (batches w ++ [b]) w).

Definition createBatch (input : BatchInput) (actorId : str) : TX Db UploadBatch :=
  tx! columnSchema :=
    (if isCoupangRetrySource (in_sourceType input)
     then tx! m := newCoupangRetryMarker (in_sourceType input) RESERVED in
          tx_ret (withCoupangRetryMarker (in_columnSchema input) m)
     else tx_ret (in_columnSchema input)) in
  tx! hash :=
    (if bool_decide (in_conflictPolicy input = SKIP) && negb (in_allowDuplicate input)
     then tx_ret (in_fileHash input)
     else duplicateBatchHash (in_fileHash input) (in_conflictPolicy input)) in
  tx! n := tx_draw in
  tx! t := tx_get time in
  insert_batch
    {| ub_id := uuid n; sourceType := in_sourceType input; originalFilename := in_originalFilename input;
       fileHashSha256 := hash; dataStart := None; dataEnd := None; columnSchema := columnSchema;
       rowCount := in_rowCount input; validRowCount := 0; warningCount := 0; errorCount := 0;
       conflictPolicy := in_conflictPolicy input; ub_status := VALIDATING; uploadedBy := Some actorId;
       uploadedAt := t; validatedAt := None; importedAt := None |}.

(** [updateMany({ where: { id, status, columnSchema }, data })]: the number of
    rows that it changed. *)
Definition put_batch (b' : UploadBatch) (l : list UploadBatch) : list UploadBatch :=
  map (fun b => if str_eqb (ub_id b) (ub_id b') then b' else b) l.

(** The foreign key of [uploadedBy], checked when it changes. *)
Definition user_missing (w : Db) (before after : UploadBatch) : bool :=
  negb (bool_decide (uploadedBy after = uploadedBy before))
  && match uploadedBy after with Some u => negb (bool_decide (u ∈ appUsers w)) | None => false end.

Definition update_batch_if (i : str) (status : UploadStatus) (schema : json) (f : UploadBatch -> UploadBatch)
  : TX Db nat := fun w =>
  match List.find (fun b => str_eqb (ub_id b) i) (batches w) with
  | Some b =>
      if bool_decide (ub_status b = status) && json_eqb (columnSchema b) schema
      then if user_missing w b (f b) then Throws P2003
           else Ok (1%nat, set_batches (put_batch (f b) (batches w)) w)
      else Ok (0%nat, w)
  | None => Ok (0%nat, w)
  end.

Definition update_batch (i : str) (f : UploadBatch -> UploadBatch) : TX Db UploadBatch := fun w =>
  match List.find (fun b => str_eqb (ub_id b) i) (batches w) with
  | Some b => Ok (f b, set_batches (put_batch (f b) (batches w)) w)
  | None => Throws row_missing
  end.

(** What an import writes of a batch. *)
Record BatchData := {
  bd_valid : Z;
  bd_warnings : Z;
  bd_errors : Z;
  bd_status : UploadStatus;
  bd_schema : json;
  bd_range : option (option Z * option Z)
}.

Definition write_batch (d : BatchData) (now : Z) (b : UploadBatch) : UploadBatch :=
  {| ub_id := ub_id b; sourceType := sourceType b; originalFilename := originalFilename b;
     fileHashSha256 := fileHashSha256 b;
     dataStart := match bd_range d with Some (s, _) => s | None => dataStart b end;
     dataEnd := match bd_range d with Some (_, e) => e | None => dataEnd b end;
     columnSchema := bd_schema d; rowCount := rowCount b; validRowCount := bd_valid d;
     warningCount := bd_warnings d; errorCount := bd_errors d; conflictPolicy := conflictPolicy b;
     ub_status := bd_status d; uploadedBy := uploadedBy b; uploadedAt := uploadedAt b;
     validatedAt := Some now; importedAt := if 0 <? bd_valid d then Some now else None |}.

(** A new status, actor and marker of a reservation. *)
Definition mark_batch (status : UploadStatus) (validated : option Z) (by_ : option str) (schema : json) (b : UploadBatch)
  : UploadBatch :=
  {| ub_id := ub_id b; sourceType := sourceType b; originalFilename := originalFilename b;
     fileHashSha256 := fileHashSha256 b; dataStart := dataStart b; dataEnd := dataEnd b;
     columnSchema := schema; rowCount := rowCount b; validRowCount := validRowCount b;
     warningCount := warningCount b; errorCount := errorCount b; conflictPolicy := conflictPolicy b;
     ub_status := status; uploadedBy := by_; uploadedAt := uploadedAt b;
     validatedAt := validated; importedAt := importedAt b |}.

Definition finalizeCoupangReservation (batch : UploadBatch) (d : BatchData) : TX Db unit :=
  tx! t := tx_get time in
  tx! n := update_batch_if (ub_id batch) VALIDATING (columnSchema batch) (write_batch d t) in
  if bool_decide (n = 1%nat) then tx_ret tt
  else tx_lift (coupangRetryConflict "COUPANG_UPLOAD_RESERVATION_LOST").

(** ** Reservations *)

Definition by_upload (a b : UploadBatch) : Z := uploadedAt b - uploadedAt a.

Definition reusableDuplicate (fileHash : str) (source : CoupangUploadSourceType) (policy : ConflictPolicy)
  : TX Db (option UploadBatch) :=
  match policy with
  | SKIP => tx_get (fun w => head (js_sort by_upload (List.filter (fun b =>
      str_eqb (fileHashSha256 b) fileHash && bool_decide (sourceType b = source)
      && match ub_status b with IMPORTED | PARTIAL => true | _ => false end) (batches w))))
  | _ => tx_ret None
  end.

(** The rows of other tables that an upload owns. *)
Definition count_sale_lines (i : str) (w : Db) : nat :=
  List.length (List.filter (fun x => str_eqb (sl_batchId x) i) (saleLines w)).
Definition count_ad_metrics (i : str) (w : Db) : nat :=
  List.length (List.filter (fun x => str_eqb (am_batchId x) i) (adMetrics w)).
Definition count_promotions (i : str) (w : Db) : nat :=
  List.length (List.filter (fun x => str_eqb (fst x) i) (promotions w)).
Definition count_row_errors (i : str) (w : Db) : nat :=
  List.length (List.filter (fun x => str_eqb (re_batchId x) i) (rowErrors w)).

Definition claimCoupangRetryBatch (batch : UploadBatch) (source : CoupangUploadSourceType) (actorId : str)
  : prog Db UploadBatch :=
  let refuse := of_result (coupangRetryConflict "COUPANG_UPLOAD_RETRY_NOT_ALLOWED") in
  if negb (bool_decide (sourceType batch = source)) then refuse
  else
    await saleLineCount := call (tx_get (count_sale_lines (ub_id batch))) in
    await adMetricCount := call (tx_get (count_ad_metrics (ub_id batch))) in
    await promotionPriceCount := call (tx_get (count_promotions (ub_id batch))) in
    await rowErrorCount := call (tx_get (count_row_errors (ub_id batch))) in
    if (0 <? saleLineCount)%nat || (0 <? adMetricCount)%nat || (0 <? promotionPriceCount)%nat
       || (0 <? rowErrorCount)%nat || (0 <? validRowCount batch) || (0 <? warningCount batch)
       || (0 <? errorCount batch) || is_Some_b (importedAt batch)
    then refuse
    else
      match coupangRetryMarker (columnSchema batch) with
      | None => refuse
      | Some marker =>
          if negb (bool_decide (marker_source marker = source))
             || negb (match ub_status batch with VALIDATING | FAILED => true | _ => false end)
          then refuse
          else
            await t := now in
            if bool_decide (marker_state marker = RESERVED)
               && match date_parse (leaseExpiresAt marker) with Some lease => t <? lease | None => false end
            then of_result (coupangRetryConflict "COUPANG_UPLOAD_IN_PROGRESS")
            else
              await fresh := call (newCoupangRetryMarker source RESERVED) in
              let claimedSchema := withCoupangRetryMarker (columnSchema batch) fresh in
              let claim := mark_batch VALIDATING None (Some actorId) claimedSchema in
              await claimed := call (update_batch_if (ub_id batch) (ub_status batch) (columnSchema batch) claim) in
              if bool_decide (claimed = 1%nat) then Ret (claim batch)
              else of_result (coupangRetryConflict "COUPANG_UPLOAD_IN_PROGRESS")
      end.

Definition isPrismaUniqueConflict (e : js_error) : bool := starts_with (js "P2002:") (err_code e).

Definition reserveCoupangImportBatch (input : BatchInput) (actorId : str) : prog Db (UploadBatch + UploadBatch) :=
  let create :=
    catch (await b := call (createBatch input actorId) in Ret (inr b)) (fun e =>
      if bool_decide (in_conflictPolicy input = SKIP) && isPrismaUniqueConflict e then
        await raced := call (find_batch_by_hash (in_fileHash input)) in
        match raced with
        | Some b => await b' := claimCoupangRetryBatch b (in_sourceType input) actorId in Ret (inr b')
        | None => Throw e
        end
      else Throw e) in
  match in_conflictPolicy input with
  | SKIP =>
      await duplicate := call (reusableDuplicate (in_fileHash input) (in_sourceType input) SKIP) in
      match duplicate with
      | Some b => Ret (inl b)
      | None =>
          await existing := call (find_batch_by_hash (in_fileHash input)) in
          match existing with
          | Some b => await b' := claimCoupangRetryBatch b (in_sourceType input) actorId in Ret (inr b')
          | None => create
          end
      end
  | _ => create
  end.

(** [error instanceof HttpException && error.getStatus() < 500]. *)
Definition refused (e : js_error) : bool := (0 <? err_status e) && (err_status e <? 500).

Definition COUPANG_IMPORT_RETRYABLE_FAILURE : js_error :=
  {| err_status := 503; err_code := js "COUPANG_IMPORT_RETRYABLE_FAILURE" |}.

Definition rethrowCoupangImportFailure {A} (batch : UploadBatch) (e : js_error) : prog Db A :=
  if refused e then Throw e
  else
    match coupangRetryMarker (columnSchema batch) with
    | None => Throw COUPANG_IMPORT_RETRYABLE_FAILURE
    | Some marker =>
        await t := now in
        let failedSchema := withCoupangRetryMarker (columnSchema batch)
          {| marker_source := marker_source marker; marker_state := TRANSIENT_FAILED;
             attemptId := attemptId marker; leaseExpiresAt := toISOString t |} in
        Call (update_batch_if (ub_id batch) VALIDATING (columnSchema batch)
                (fun b => mark_batch FAILED (Some t) (uploadedBy b) failedSchema b))
             (fun _ => Throw COUPANG_IMPORT_RETRYABLE_FAILURE)
    end.

(** ** Rows in error *)

Definition rowIssue (i : ParseIssue) (is_error : bool) : RowIssue :=
  {| ri_columnName := Some (columnName i); ri_errorCode := errorCode i; ri_message := message i;
     ri_rawValue := rawValue i; ri_isError := is_error; ri_candidates := [] |}.

Definition createRowErrors (batch : str) (source : CoupangUploadSourceType) (saleLine adMetric : option str)
    (rowNumber : Z) (issues : list RowIssue) : TX Db unit := fun w =>
  Ok (tt, set_rowErrors (rowErrors w ++ map (fun i =>
    {| re_batchId := batch; re_sourceType := source; re_saleLineId := saleLine; re_adMetricId := adMetric;
       re_rowNumber := Some rowNumber; re_issue := i |}) issues) w).

Definition failMissingColumns (batch : str) (source : CoupangUploadSourceType) (missing : list str) : prog Db unit :=
  await _ := call (fun w => Ok (tt, set_rowErrors (rowErrors w ++ map (fun c =>
    {| re_batchId := batch; re_sourceType := source; re_saleLineId := None; re_adMetricId := None;
       re_rowNumber := None;
       re_issue := {| ri_columnName := Some c; ri_errorCode := js "MISSING_REQUIRED_COLUMN";
                      ri_message := js "Required Coupang column is missing: " ++ c; ri_rawValue := None;
                      ri_isError := true; ri_candidates := [] |} |}) missing) w)) in
  await t := now in
  await _ := call (update_batch batch (fun b =>
    {| ub_id := ub_id b; sourceType := sourceType b; originalFilename := originalFilename b;
       fileHashSha256 := fileHashSha256 b; dataStart := dataStart b; dataEnd := dataEnd b;
       columnSchema := columnSchema b; rowCount := rowCount b; validRowCount := validRowCount b;
       warningCount := warningCount b; errorCount := Z.of_nat (List.length missing);
       conflictPolicy := conflictPolicy b; ub_status := FAILED; uploadedBy := uploadedBy b;
       uploadedAt := uploadedAt b; validatedAt := Some t; importedAt := importedAt b |})) in
  of_result (bad_request "COUPANG_HEADER_INVALID").

Definition statusFor (valid errors : Z) : UploadStatus :=
  if (0 <? errors) && (0 <? valid) then PARTIAL else if 0 <? errors then FAILED else IMPORTED.
End batches.
