(* ===== verification/CoupangCostUploads.v ===== *)
(** * Imports of costs and their removal

    The rest of what [CoupangUploads] names: how a price list or a margin sheet
    becomes cost rules, the provenance that the upload keeps of each row, and
    deleteUpload, which takes the rows back in reverse order. *)

From S2P Require Import Prelude JsNumber JsString JsDate.
From S2P Require Import DateNumber.
From S2P Require Import SecurityAudit.
From S2P Require Import Concurrency.
From S2P Require Import RequestBody.
From S2P Require Import Timeline.
From S2P Require Import CoupangPriceText.
From S2P Require Import CoupangMargin.
From S2P Require Import CoupangDb.
From S2P Require Import CoupangVersions.
From S2P Require Import CoupangRules.
From S2P Require Import CoupangUploads.

Local Open Scope Z_scope.

Fixpoint tx_map {W A B} (f : A -> TX W B) (l : list A) : TX W (list B) :=
  match l with
  | [] => tx_ret []
  | x :: l' => tx! y := f x in tx! ys := tx_map f l' in tx_ret (y :: ys)
  end.

Fixpoint tx_each {W A} (f : A -> TX W unit) (l : list A) : TX W unit :=
  match l with
  | [] => tx_ret tt
  | x :: l' => tx! _ := f x in tx_each f l'
  end.

(** ** Snapshots of a cost rule *)

Section snapshots.
Context `{Icu, DecimalNumber}.

(** An object with texts and nulls, its keys in their order. *)
Definition Snapshot : Type := list (str * option str).

Definition money_first : list money_field := [SalePrice; SupplyPrice; ProductCost; SalesFeeRate; SalesFee].
Definition money_last : list money_field :=
  [GrowthInboundFee; GrowthShippingFee; ReturnRate; ReturnCostPerUnit; ExtraCost].
Definition shipping_fields : list shipping_field := [SellerShippingFee; HanaroShippingFee].

Definition serializeCoupangCostRuleRollbackSnapshot (r : CostRule) : Snapshot :=
  let money f := (money_name f, Some (dec_text (get_money f (cr_costs r)))) in
  let shipping f := (shipping_name f, dec_text <$> get_shipping f (cr_costs r)) in
  map money money_first ++ map shipping shipping_fields ++ map money money_last
  ++ [(js "effectiveFrom", Some (formatDateOnly (cr_effectiveFrom r)));
      (js "effectiveTo", formatDateOnly <$> cr_effectiveTo r);
      (js "note", costNote (cr_costs r))].

Definition snapshot_text (s : Snapshot) (k : str) : option str :=
  match map_get s k with Some v => v | None => None end.

Definition decimal_error : js_error := {| err_status := 0; err_code := js "DecimalError" |}.

Definition decimal_of_text (t : option str) : result dec :=
  match t ≫= dec_of_text with Some d => Ok d | None => Throws decimal_error end.

Definition deserializeCoupangCostRuleRollbackSnapshot (s : Snapshot) : result (list cost_write) :=
  let money f := let! d := decimal_of_text (snapshot_text s (money_name f)) in Ok (SetMoney f d) in
  let shipping f :=
    match snapshot_text s (shipping_name f) with
    | None => Ok (SetShipping f None)
    | t => let! d := decimal_of_text t in Ok (SetShipping f (Some d))
    end in
  let! first := result_map money money_first in
  let! fees := result_map shipping shipping_fields in
  let! last := result_map money money_last in
  let! from := requiredDateFromBody (match snapshot_text s (js "effectiveFrom") with Some t => Text t | None => Null end) in
  let! to := match snapshot_text s (js "effectiveTo") with
             | Some ((_ :: _) as t) => let! d := requiredDateFromBody (Text t) in Ok (Some d)
             | _ => Ok None
             end in
  Ok (first ++ fees ++ last ++ [SetCostFrom from; SetCostTo to; SetCostNote (snapshot_text s (js "note"))]).

Definition sameCoupangCostRuleRollbackSnapshot (r : CostRule) (s : Snapshot) : bool :=
  bool_decide (serializeCoupangCostRuleRollbackSnapshot r = s).

Definition snapshot_json (s : Snapshot) : json :=
  JObj (map (fun '(k, v) => (k, match v with Some t => JStr t | None => JNull end)) s).

Definition isFiniteDecimalText (v : option json) : bool :=
  match v with Some (JStr s) => truthy (trim s) && is_Some_b (dec_of_text s) | _ => false end.

Definition isNullableFiniteDecimalText (v : option json) : bool :=
  match v with Some JNull => true | _ => isFiniteDecimalText v end.

Definition isStrictDateOnlyText (v : option json) : bool :=
  match v with Some (JStr s) => DATE_PATTERN s && is_Some_b (toDateOnly (Some s)) | _ => false end.

Definition is_null (v : option json) : bool := match v with Some JNull => true | _ => false end.
Definition is_text (v : option json) : bool := match v with Some (JStr _) => true | _ => false end.

Definition parseCoupangCostRuleRollbackSnapshot (v : option json) : option Snapshot :=
  match v with
  | Some (JObj o) =>
      let get k := json_field o k in
      if forallb (fun f => isFiniteDecimalText (get (money_name f))) (money_first ++ money_last)
         && forallb (fun f => isNullableFiniteDecimalText (get (shipping_name f))) shipping_fields
         && isStrictDateOnlyText (get (js "effectiveFrom"))
         && (is_null (get (js "effectiveTo")) || isStrictDateOnlyText (get (js "effectiveTo")))
         && (is_null (get (js "note")) || is_text (get (js "note")))
      then
        let field k := (k, json_text (get k)) in
        Some (map field (map money_name money_first ++ map shipping_name shipping_fields
                         ++ map money_name money_last
                         ++ [js "effectiveFrom"; js "effectiveTo"; js "note"]))
      else None
  | _ => None
  end.

(** ** The provenance of a row *)

(** The fields of an applied row; those of the mapping rule are written for a
    margin sheet only. *)
Record AppliedRow := {
  ap_rowNumber : Z;
  ap_itemName : str;
  ap_standardName : str;
  ap_productId : str;
  ap_mapping : option (option str * bool);
  ap_costRuleId : str;
  ap_salePriceKrw : num;
  ap_operation : cost_operation;
  ap_before : option Snapshot;
  ap_after : Snapshot
}.

Definition operation_name (o : cost_operation) : str :=
  js match o with CREATED => "CREATED" | UPDATED_SAME_DATE => "UPDATED_SAME_DATE" end%string.

Definition nullable_text (t : option str) : json := match t with Some s => JStr s | None => JNull end.

Definition applied_row_json (a : AppliedRow) : json :=
  JObj ([(js "rowNumber", JNum (ofZ (ap_rowNumber a))); (js "itemName", JStr (ap_itemName a));
         (js "standardName", JStr (ap_standardName a)); (js "productId", JStr (ap_productId a))]
        ++ match ap_mapping a with
           | Some (rule, created) =>
               [(js "productRuleId", nullable_text rule); (js "productRuleCreated", JBool created)]
           | None => []
           end
        ++ [(js "costRuleId", JStr (ap_costRuleId a)); (js "salePriceKrw", JNum (ap_salePriceKrw a));
            (js "costRuleOperation", JStr (operation_name (ap_operation a)));
            (js "costRuleBefore", match ap_before a with Some s => snapshot_json s | None => JNull end);
            (js "costRuleAfter", snapshot_json (ap_after a))]).

(** What the removal reads of an applied row. *)
Record Provenance := {
  pv_productId : str;
  pv_productRuleId : option str;
  pv_productRuleCreated : bool;
  pv_costRuleId : str;
  pv_operation : cost_operation;
  pv_before : option Snapshot;
  pv_after : Snapshot
}.

Definition missingCoupangUploadRollbackProvenance {A} : result A :=
  bad_request "COUPANG_UPLOAD_ROLLBACK_PROVENANCE_MISSING".

Definition text_or_empty (v : option json) : str := match json_text v with Some s => trim s | None => [] end.

Definition parse_applied_row (margin : bool) (item : json) : result Provenance :=
  match item with
  | JObj o =>
      let get name := json_field o (js name) in
      let productId := text_or_empty (get "productId"%string) in
      let costRuleId := text_or_empty (get "costRuleId"%string) in
      let operation := List.find (fun op => bool_decide (json_text (get "costRuleOperation"%string) = Some (operation_name op)))
                         [CREATED; UPDATED_SAME_DATE] in
      let after := parseCoupangCostRuleRollbackSnapshot (get "costRuleAfter"%string) in
      let before := parseCoupangCostRuleRollbackSnapshot (get "costRuleBefore"%string) in
      match operation, after with
      | Some operation, Some after =>
          if negb (truthy productId) || negb (truthy costRuleId)
             || match operation with
                | UPDATED_SAME_DATE => negb (is_Some_b before)
                | CREATED => negb (is_null (get "costRuleBefore"%string))
                end
          then missingCoupangUploadRollbackProvenance
          else Ok {| pv_productId := productId;
                     pv_productRuleId := if margin then json_text (get "productRuleId"%string) else None;
                     pv_productRuleCreated :=
                       margin && match get "productRuleCreated"%string with Some (JBool b) => b | _ => false end;
                     pv_costRuleId := costRuleId; pv_operation := operation; pv_before := before;
                     pv_after := after |}
      | _, _ => missingCoupangUploadRollbackProvenance
      end
  | _ => missingCoupangUploadRollbackProvenance
  end.

Definition rollbackAppliedRows (margin : bool) (value : json) (expectedRowCount : Z) : result (list Provenance) :=
  match value with
  | JObj o =>
      match json_field o (js "appliedRows") with
      | Some (JArr items) =>
          if (expectedRowCount <? 0) || negb (Z.of_nat (List.length items) =? expectedRowCount)
          then missingCoupangUploadRollbackProvenance
          else result_map (parse_applied_row margin) items
      | _ => missingCoupangUploadRollbackProvenance
      end
  | _ => missingCoupangUploadRollbackProvenance
  end.

Definition priceTextAppliedRows : json -> Z -> result (list Provenance) := rollbackAppliedRows false.
Definition marginAppliedRows : json -> Z -> result (list Provenance) := rollbackAppliedRows true.

(** ** The costs of a row *)

(** [new Prisma.Decimal(Number.isFinite(value) ? Number(value) : 0)]. *)
Definition decimal_of (x : num) : dec := if isFinite x then dec_of_num x else dec_zero.

Definition buildCoupangPriceTextCostRuleData (salePrice : num) (from : Z) (latest : option Costs) : list cost_write :=
  let keep f := SetMoney f ((get_money f <$> latest) ?? dec_zero) in
  let keep_shipping f := SetShipping f (c ← latest; get_shipping f c) in
  [SetMoney SalePrice (decimal_of salePrice); keep SupplyPrice; keep ProductCost;
   SetMoney SalesFeeRate dec_zero; SetMoney SalesFee dec_zero;
   keep_shipping SellerShippingFee; keep_shipping HanaroShippingFee; keep GrowthInboundFee;
   keep GrowthShippingFee; keep ReturnRate; keep ReturnCostPerUnit; keep ExtraCost; SetCostFrom from]
  ++ provided SetCostNote (costNote <$> latest).

Definition buildCoupangMarginCostRuleData (row : Margin_csv.ParsedCoupangMarginRow) (from : Z)
    (latest : option Costs) : list cost_write :=
  [SetMoney SalePrice (decimal_of (Margin_csv.salePriceKrw row));
   SetMoney SupplyPrice (decimal_of (Margin_csv.supplyPriceKrw row));
   SetMoney ProductCost (decimal_of (Margin_csv.productCostKrw row));
   SetMoney SalesFeeRate dec_zero; SetMoney SalesFee dec_zero;
   SetShipping SellerShippingFee (match Margin_csv.sellerShippingFeeKrw row with
                                  | None => c ← latest; get_shipping SellerShippingFee c
                                  | Some x => Some (decimal_of x)
                                  end);
   SetShipping HanaroShippingFee (decimal_of <$> Margin_csv.hanaroShippingFeeKrw row);
   SetMoney GrowthInboundFee (decimal_of (Margin_csv.growthInboundFeeKrw row));
   SetMoney GrowthShippingFee (decimal_of (Margin_csv.growthShippingFeeKrw row));
   SetMoney ReturnRate (decimal_of (Margin_csv.returnRate row));
   SetMoney ReturnCostPerUnit (decimal_of (Margin_csv.returnCostPerUnitKrw row)); SetCostFrom from].
End snapshots.

(** ** Imports *)

Section imports.
Context `{Icu, DecimalNumber} (uuid : nat -> str) (sha256 : str -> str) (random_text : nat -> str).

Definition upsert_product (standard display : str) : TX Db Product :=
  tx! found := find_product_by_name standard in
  match found with
  | Some p => update_product (pr_id p) [SetDisplayName display; SetProductActive true]
  | None =>
      tx! n := tx_draw in
      tx! t := tx_get time in
      insert_product {| pr_id := uuid n; pr_groupId := None; standardName := standard; pr_displayName := display;
                        pr_sortOrder := ofZ 100; pr_isActive := true; pr_createdAt := t |}
  end.

Record SavedCostRule := {
  svd_operation : cost_operation;
  svd_rule : CostRule;
  svd_before : option Snapshot;
  svd_after : Snapshot
}.

Definition upsertImportedCoupangCostRule (product : str) (from : Z)
    (buildData : option Costs -> TX Db (list cost_write)) : TX Db SavedCostRule :=
  tx! existing := findCoupangCostRuleStartingOnDate product from in
  tx! atOrBefore := findCoupangCostRuleAtOrBeforeDate product from in
  let baseRule := match existing with Some r => Some r | None => atOrBefore end in
  tx! data := buildData (cr_costs <$> baseRule) in
  tx! saved := match existing with
               | Some r => update_cost_rule (cr_id r) data
               | None => create_cost_rule uuid product data
               end in
  tx! _ := normalizeCoupangCostRuleRanges product in
  tx! rule := findUniqueOrThrow (find_cost_rule (cr_id saved)) in
  tx_ret {| svd_operation := if is_Some_b existing then UPDATED_SAME_DATE else CREATED; svd_rule := rule;
            svd_before := serializeCoupangCostRuleRollbackSnapshot <$> existing;
            svd_after := serializeCoupangCostRuleRollbackSnapshot rule |}.

(** The product that an older parser made of the same line. *)
Definition legacy_product (rawLine itemName product : str) : TX Db (option Product) :=
  match Price_text.legacyCoupangPriceTextItemName rawLine itemName with
  | None => tx_ret None
  | Some legacy =>
      if str_eqb (standardProductName legacy) (standardProductName itemName) then tx_ret None
      else
        tx! found := find_product_by_name (standardProductName legacy) in
        match found with
        | Some p => if str_eqb (pr_id p) product then tx_ret None else tx_ret (Some p)
        | None => tx_ret None
        end
  end.

Definition findLegacyPriceTextCostRule (rawLine itemName product : str) (from : Z) : TX Db (option CostRule) :=
  tx! legacy := legacy_product rawLine itemName product in
  match legacy with
  | Some p => findCoupangCostRuleAtOrBeforeDate (pr_id p) from
  | None => tx_ret None
  end.

(** The rows that refer to a product, daily report categories apart, which are
    deleted with it. *)
Definition product_usage (i : str) (w : Db) : nat :=
  (List.length (rules_of i (costRules w))
   + List.length (List.filter (fun r => str_eqb (mr_productId r) i) (mappingRules w))
   + List.length (List.filter (fun x => bool_decide (sl_productId x = Some i)) (saleLines w))
   + List.length (List.filter (str_eqb i) (productUses w))
   + List.length (List.filter (fun x => bool_decide (snd x = Some i)) (promotions w))
   + List.length (List.filter (fun x => bool_decide (spendProductId x = Some i)) (adMetrics w))
   + List.length (List.filter (fun x => bool_decide (conversionProductId x = Some i)) (adMetrics w)))%nat.

Definition deleteCoupangProductIfUnused (i : str) : TX Db unit := fun w =>
  if existsb (fun p => str_eqb (pr_id p) i) (products w) && (product_usage i w =? 0)%nat
  then Ok (tt, set_products (List.filter (fun p => negb (str_eqb (pr_id p) i)) (products w)) w)
  else Ok (tt, w).

Definition deleteLegacyPriceTextProductIfUnused (rawLine itemName product : str) : TX Db unit :=
  tx! legacy := legacy_product rawLine itemName product in
  match legacy with Some p => deleteCoupangProductIfUnused (pr_id p) | None => tx_ret tt end.

(** One line of a price list; [None] for a line in error. *)
Definition import_price_row (batch : str) (from : Z) (row : Price_text.ParsedCoupangPriceTextRowResult)
  : TX Db (option AppliedRow) :=
  match Price_text.parsedRow row with
  | None =>
      tx! _ := createRowErrors batch PRICE_TEXT None None (Price_text.rowNumber row)
                 (map (fun i => rowIssue i true) (Price_text.issues row)) in
      tx_ret None
  | Some parsed =>
      let name := Price_text.itemName parsed in
      let standard := standardProductName name in
      tx! product := upsert_product standard name in
      tx! saved := upsertImportedCoupangCostRule (pr_id product) from (fun base =>
        tx! latest :=
          match base with
          | Some c => tx_ret (Some c)
          | None =>
              tx! r := findLegacyPriceTextCostRule (Price_text.rawLine row) name (pr_id product) from in
              tx_ret (cr_costs <$> r)
          end in
        tx_ret (buildCoupangPriceTextCostRuleData (Price_text.salePriceKrw parsed) from latest)) in
      tx! _ := deleteLegacyPriceTextProductIfUnused (Price_text.rawLine row) name (pr_id product) in
      tx_ret (Some
        {| ap_rowNumber := Price_text.rowNumber row; ap_itemName := name; ap_standardName := standard;
           ap_productId := pr_id product; ap_mapping := None; ap_costRuleId := cr_id (svd_rule saved);
           ap_salePriceKrw := Price_text.salePriceKrw parsed; ap_operation := svd_operation saved;
           ap_before := svd_before saved; ap_after := svd_after saved |})
  end.

(** The mapping rule of a row of a margin sheet: its id, and whether it is new. *)
Definition upsert_margin_rule (product : str) (row : Margin_csv.ParsedCoupangMarginRow) (from : Z) : TX Db (str * bool) :=
  fun w =>
    match head (js_sort mapping_order (List.filter (fun r => str_eqb (mr_productId r) product) (mappingRules w))) with
    | Some r =>
        Ok ((mr_id r, false), set_mappingRules (put_mapping_rule
          {| mr_id := mr_id r; mr_productId := mr_productId r; mr_displayName := Margin_csv.itemName row;
             includeKeywords := includeKeywords r; excludeKeywords := excludeKeywords r;
             mr_priority := mr_priority r; mr_saleMethod := mr_saleMethod r;
             adEnabled := Margin_csv.adEnabled row; mr_isActive := true; validFrom := validFrom r;
             validTo := validTo r; mr_note := mr_note r; mr_createdAt := mr_createdAt r |} (mappingRules w)) w)
    | None =>
        let i := uuid (draws w) in
        Ok ((i, true), set_draws (S (draws w)) (set_mappingRules (mappingRules w ++
          [{| mr_id := i; mr_productId := product; mr_displayName := Margin_csv.itemName row;
              includeKeywords := [Margin_csv.itemName row]; excludeKeywords := []; mr_priority := ofZ 100;
              mr_saleMethod := None; adEnabled := Margin_csv.adEnabled row; mr_isActive := true;
              validFrom := from; validTo := None;
              mr_note := Some (js "마진 TSV 업로드로 생성된 기본 매핑 규칙");
              mr_createdAt := time w |}]) w))
    end.

Definition import_margin_row (batch : str) (from : Z) (row : Margin_csv.ParsedCoupangMarginRowResult)
  : TX Db (option AppliedRow) :=
  match Margin_csv.parsedRow row with
  | None =>
      tx! _ := createRowErrors batch MARGIN None None (Margin_csv.rowNumber row)
                 (map (fun i => rowIssue i true) (Margin_csv.issues row)) in
      tx_ret None
  | Some parsed =>
      let name := Margin_csv.itemName parsed in
      let standard := standardProductName name in
      tx! product := upsert_product standard name in
      tx! rule := upsert_margin_rule (pr_id product) parsed from in
      tx! saved := upsertImportedCoupangCostRule (pr_id product) from (fun base =>
        tx_ret (buildCoupangMarginCostRuleData parsed from base)) in
      tx_ret (Some
        {| ap_rowNumber := Margin_csv.rowNumber row; ap_itemName := name; ap_standardName := standard;
           ap_productId := pr_id product; ap_mapping := Some (Some (fst rule), snd rule);
           ap_costRuleId := cr_id (svd_rule saved); ap_salePriceKrw := Margin_csv.salePriceKrw parsed;
           ap_operation := svd_operation saved; ap_before := svd_before saved; ap_after := svd_after saved |})
  end.

Record ImportAnswer := {
  an_batchId : str;
  an_rowCount : Z;
  an_validRowCount : Z;
  an_warningCount : Z;
  an_errorCount : Z
}.

Definition count {A} (l : list A) : Z := Z.of_nat (List.length l).

(** The counts and the schema that the rows of an import come to. *)
Definition import_outcome (schema : list (str * json)) (from : Z) (warnings : Z) (applied : list (option AppliedRow))
  : BatchData :=
  let rows := omap (fun a => a) applied in
  let valid := count rows in
  let errors := count applied - valid in
  {| bd_valid := valid; bd_warnings := warnings; bd_errors := errors; bd_status := statusFor valid errors;
     bd_schema := JObj (schema ++ [(js "effectiveFrom", JStr (formatDateOnly from));
                                   (js "appliedRows", JArr (map applied_row_json rows))]);
     bd_range := None |}.

Definition answer_of (batch : str) (rows : Z) (d : BatchData) : ImportAnswer :=
  {| an_batchId := batch; an_rowCount := rows; an_validRowCount := bd_valid d; an_warningCount := bd_warnings d;
     an_errorCount := bd_errors d |}.

Definition effective_from (b : body) : prog Db Z :=
  if boolean_of (body_field b (js "effectiveFrom"))
  then of_result (requiredDateFromBody (body_field b (js "effectiveFrom")))
  else await t := now in of_result (currentKoreaDateOnly t).

Definition price_text_schema : list (str * json) :=
  [(js "schemaVersion", JNum (ofZ 1)); (js "format", JStr (js "name price"))].

Definition price_text_transaction (batch : str) (from : Z) (rows : list Price_text.ParsedCoupangPriceTextRowResult)
  : TX Db BatchData :=
  tx! applied := tx_map (import_price_row batch from) rows in
  let outcome := import_outcome price_text_schema from 0 applied in
  tx! t := tx_get time in
  tx! _ := update_batch batch (write_batch outcome t) in
  tx_ret outcome.

Definition importPriceText (filename hash : str) (rows : list Price_text.ParsedCoupangPriceTextRowResult)
    (b : body) (actorId : str) : prog Db ImportAnswer :=
  await policy := of_result (parseConflictPolicy (body_field b (js "conflictPolicy"))) in
  await batch := call (createBatch uuid sha256 random_text
    {| in_sourceType := PRICE_TEXT; in_originalFilename := filename; in_fileHash := hash;
       in_conflictPolicy := policy; in_allowDuplicate := true; in_columnSchema := JObj price_text_schema;
       in_rowCount := count rows |} actorId) in
  await from := effective_from b in
  await outcome := call (price_text_transaction (ub_id batch) from rows) in
  Ret (answer_of (ub_id batch) (count rows) outcome).

Definition key_name (k : Margin_csv.CoupangMarginColumnKey) : str :=
  List.last (Margin_csv.COUPANG_MARGIN_COLUMN_ALIASES k) [].

Definition margin_schema (sheet : Margin_csv.Sheet) : list (str * json) :=
  [(js "schemaVersion", JNum (ofZ 3)); (js "columns", JArr (map JStr (Margin_csv.headers sheet)));
   (js "missingColumns", JArr (map (fun k => JStr (key_name k)) (Margin_csv.missingColumns sheet)));
   (js "ignoredColumns", JArr (map JStr (Margin_csv.ignoredColumns sheet)))].

Definition margin_transaction (batch : UploadBatch) (from : Z) (sheet : Margin_csv.Sheet) : TX Db BatchData :=
  tx! applied := tx_map (import_margin_row (ub_id batch) from) (Margin_csv.rows sheet) in
  let outcome := import_outcome (margin_schema sheet) from
                   (if truthy_list (Margin_csv.ignoredColumns sheet) then 1 else 0) applied in
  tx! _ := finalizeCoupangReservation batch outcome in
  tx_ret outcome.

Definition importMarginCsv (filename hash : str) (sheet : Margin_csv.Sheet) (b : body) (actorId : str)
  : prog Db (UploadBatch + ImportAnswer) :=
  await policy := of_result (parseConflictPolicy (body_field b (js "conflictPolicy"))) in
  await reservation := reserveCoupangImportBatch uuid sha256 random_text
    {| in_sourceType := MARGIN; in_originalFilename := filename; in_fileHash := hash;
       in_conflictPolicy := policy; in_allowDuplicate := false; in_columnSchema := JObj (margin_schema sheet);
       in_rowCount := count (Margin_csv.rows sheet) |} actorId in
  match reservation with
  | inl duplicate => Ret (inl duplicate)
  | inr batch =>
      catch
        (await _ := (if truthy_list (Margin_csv.missingColumns sheet)
                     then failMissingColumns (ub_id batch) MARGIN (map key_name (Margin_csv.missingColumns sheet))
                     else Ret tt) in
         await from := effective_from b in
         await outcome := call (margin_transaction batch from sheet) in
         Ret (inr (answer_of (ub_id batch) (count (Margin_csv.rows sheet)) outcome)))
        (rethrowCoupangImportFailure batch)
  end.
End imports.

(** ** Removal *)

Section removal.
Context `{Icu, DecimalNumber}.

Definition COUPANG_UPLOAD_ROLLBACK_ORDER_CONFLICT : js_error :=
  bad_request_error "COUPANG_UPLOAD_ROLLBACK_ORDER_CONFLICT".

Definition rollback_row (applied : Provenance) : TX Db unit :=
  tx! current := find_cost_rule (pv_costRuleId applied) in
  match current with
  | None => tx_throw COUPANG_UPLOAD_ROLLBACK_ORDER_CONFLICT
  | Some current =>
      if negb (str_eqb (cr_productId current) (pv_productId applied))
         || negb (sameCoupangCostRuleRollbackSnapshot current (pv_after applied))
      then tx_throw COUPANG_UPLOAD_ROLLBACK_ORDER_CONFLICT
      else
        match pv_operation applied with
        | UPDATED_SAME_DATE =>
            match pv_before applied with
            | None => tx_lift (bad_request "COUPANG_UPLOAD_ROLLBACK_SNAPSHOT_MISSING")
            | Some before =>
                tx! data := tx_lift (deserializeCoupangCostRuleRollbackSnapshot before) in
                tx! _ := update_cost_rule (pv_costRuleId applied) data in
                tx_ret tt
            end
        | CREATED => delete_cost_rule (pv_costRuleId applied)
        end
  end.

Definition text_order (a b : str) : Z := str_cmp a b.

Definition rollbackImportedCoupangCostRules (appliedRows : list Provenance) : TX Db unit :=
  let productIds := js_sort text_order (uniqueNonEmpty (map pv_productId appliedRows)) in
  tx! _ := tx_each rollback_row (rev appliedRows) in
  tx_each normalizeCoupangCostRuleRanges productIds.

Definition deletePriceTextUploadEffects (appliedRows : list Provenance) : TX Db unit :=
  tx! _ := rollbackImportedCoupangCostRules appliedRows in
  tx_each deleteCoupangProductIfUnused (uniqueNonEmpty (map pv_productId appliedRows)).

(** [deleteMany] of mapping rules, whose references become null. *)
Definition delete_mapping_rules (rule_ids : list str) : TX Db unit := fun w =>
  let gone i := match i with Some i => bool_decide (i ∈ rule_ids) | None => false end in
  let keep i := if gone i then None else i in
  Ok (tt,
    set_adMetrics (map (fun m =>
      {| am_id := am_id m; am_batchId := am_batchId m; am_rowNumber := am_rowNumber m;
         am_sourceRowHash := am_sourceRowHash m; adMetricKey := adMetricKey m; metricDate := metricDate m;
         campaignName := campaignName m; adGroupName := adGroupName m; adName := adName m;
         adExecutionOptionId := adExecutionOptionId m; adExecutionProductName := adExecutionProductName m;
         conversionOptionId := conversionOptionId m; conversionProductName := conversionProductName m;
         am_amounts := am_amounts m; spendProductId := spendProductId m; spendRuleId := keep (spendRuleId m);
         conversionProductId := conversionProductId m; conversionRuleId := keep (conversionRuleId m);
         spendMatchSource := spendMatchSource m; conversionMatchSource := conversionMatchSource m;
         am_validationStatus := am_validationStatus m; am_validationErrors := am_validationErrors m;
         am_importVersion := am_importVersion m; am_isCurrent := am_isCurrent m;
         am_createdAt := am_createdAt m |}) (adMetrics w))
    (set_saleLines (map (fun l =>
      {| sl_id := sl_id l; sl_batchId := sl_batchId l; sl_rowNumber := sl_rowNumber l;
         sl_sourceRowHash := sl_sourceRowHash l; saleLineKey := saleLineKey l; saleDate := saleDate l;
         optionId := optionId l; optionName := optionName l; productName := productName l;
         registeredProductId := registeredProductId l; category := category l; saleMethod := saleMethod l;
         sl_amounts := sl_amounts l; sl_productId := sl_productId l; sl_ruleId := keep (sl_ruleId l);
         sl_matchSource := sl_matchSource l; sl_validationStatus := sl_validationStatus l;
         sl_validationErrors := sl_validationErrors l; sl_importVersion := sl_importVersion l;
         sl_isCurrent := sl_isCurrent l; sl_createdAt := sl_createdAt l |}) (saleLines w))
    (set_mappingRules (List.filter (fun r => negb (bool_decide (mr_id r ∈ rule_ids))) (mappingRules w)) w))).

Definition deactivate_mapping_rules (rule_ids : list str) : TX Db unit := fun w =>
  Ok (tt, set_mappingRules (map (fun r =>
    if bool_decide (mr_id r ∈ rule_ids) then
      {| mr_id := mr_id r; mr_productId := mr_productId r; mr_displayName := mr_displayName r;
         includeKeywords := includeKeywords r; excludeKeywords := excludeKeywords r; mr_priority := mr_priority r;
         mr_saleMethod := mr_saleMethod r; adEnabled := adEnabled r; mr_isActive := false;
         validFrom := validFrom r; validTo := validTo r; mr_note := mr_note r; mr_createdAt := mr_createdAt r |}
    else r) (mappingRules w)) w).

Definition deleteMarginUploadEffects (appliedRows : list Provenance) : TX Db unit :=
  let created := uniqueNonEmpty (omap pv_productRuleId (List.filter pv_productRuleCreated appliedRows)) in
  tx! _ := rollbackImportedCoupangCostRules appliedRows in
  tx! _ :=
    (if truthy_list created then
       tx! uses := tx_get ruleUses in
       let referenced := List.filter (fun i => bool_decide (i ∈ uses)) created in
       let free := List.filter (fun i => negb (bool_decide (i ∈ uses))) created in
       tx! _ := (if truthy_list free then delete_mapping_rules free else tx_ret tt) in
       if truthy_list referenced then deactivate_mapping_rules referenced else tx_ret tt
     else tx_ret tt) in
  tx_each deleteCoupangProductIfUnused (uniqueNonEmpty (map pv_productId appliedRows)).

(** ** Versions of the rows of an upload *)

#[export] Instance sale_line_versioned : Versioned SaleLine := {|
  vs_id := sl_id; vs_batch := sl_batchId; vs_key := saleLineKey; vs_version := sl_importVersion;
  vs_createdAt := sl_createdAt; vs_refused l := bool_decide (sl_validationStatus l = ERROR);
  vs_current := sl_isCurrent;
  vs_with_current b l :=
    {| sl_id := sl_id l; sl_batchId := sl_batchId l; sl_rowNumber := sl_rowNumber l;
       sl_sourceRowHash := sl_sourceRowHash l; saleLineKey := saleLineKey l; saleDate := saleDate l;
       optionId := optionId l; optionName := optionName l; productName := productName l;
       registeredProductId := registeredProductId l; category := category l; saleMethod := saleMethod l;
       sl_amounts := sl_amounts l; sl_productId := sl_productId l; sl_ruleId := sl_ruleId l;
       sl_matchSource := sl_matchSource l; sl_validationStatus := sl_validationStatus l;
       sl_validationErrors := sl_validationErrors l; sl_importVersion := sl_importVersion l;
       sl_isCurrent := b; sl_createdAt := sl_createdAt l |}
|}.

#[export] Instance ad_metric_versioned : Versioned AdMetric := {|
  vs_id := am_id; vs_batch := am_batchId; vs_key := adMetricKey; vs_version := am_importVersion;
  vs_createdAt := am_createdAt; vs_refused m := bool_decide (am_validationStatus m = ERROR);
  vs_current := am_isCurrent;
  vs_with_current b m :=
    {| am_id := am_id m; am_batchId := am_batchId m; am_rowNumber := am_rowNumber m;
       am_sourceRowHash := am_sourceRowHash m; adMetricKey := adMetricKey m; metricDate := metricDate m;
       campaignName := campaignName m; adGroupName := adGroupName m; adName := adName m;
       adExecutionOptionId := adExecutionOptionId m; adExecutionProductName := adExecutionProductName m;
       conversionOptionId := conversionOptionId m; conversionProductName := conversionProductName m;
       am_amounts := am_amounts m; spendProductId := spendProductId m; spendRuleId := spendRuleId m;
       conversionProductId := conversionProductId m; conversionRuleId := conversionRuleId m;
       spendMatchSource := spendMatchSource m; conversionMatchSource := conversionMatchSource m;
       am_validationStatus := am_validationStatus m; am_validationErrors := am_validationErrors m;
       am_importVersion := am_importVersion m; am_isCurrent := b; am_createdAt := am_createdAt m |}
|}.

#[export] Instance sale_line_versions : VersionedLaws SaleLine.
Proof. by split; intros; try destruct x. Qed.
#[export] Instance ad_metric_versions : VersionedLaws AdMetric.
Proof. by split; intros; try destruct x. Qed.

(** ** deleteUpload *)

(** The keys of the rows of a batch, and the table without these rows. *)
Definition keys_of_batch {A} `{Versioned A} (i : str) (rows : list A) : list str :=
  uniqueNonEmpty (map vs_key (List.filter (fun x => str_eqb (vs_batch x) i) rows)).
Definition without_batch {A} `{Versioned A} (i : str) (rows : list A) : list A :=
  List.filter (fun x => negb (str_eqb (vs_batch x) i)) rows.

Definition delete_batch (i : str) : TX Db UploadBatch := fun w =>
  match List.find (fun b => str_eqb (ub_id b) i) (batches w) with
  | None => Throws row_missing
  | Some b =>
      Ok (b, set_batches (List.filter (fun b => negb (str_eqb (ub_id b) i)) (batches w))
            (set_promotions (List.filter (fun p => negb (str_eqb (fst p) i)) (promotions w)) w))
  end.

Definition delete_transaction (upload : UploadBatch) (priceTextRows marginRows : option (list Provenance))
    (actor : option str) : TX Db UploadBatch :=
  let i := ub_id upload in
  tx! keys := tx_get (fun w => (keys_of_batch i (saleLines w), keys_of_batch i (adMetrics w))) in
  let '(saleLineKeys, adMetricKeys) := keys in
  tx! _ := (fun w => Ok (tt, set_rowErrors (List.filter (fun e => negb (str_eqb (re_batchId e) i)) (rowErrors w)) w)) in
  tx! _ := (fun w => Ok (tt, set_saleLines (without_batch i (saleLines w)) w)) in
  tx! _ := (fun w => Ok (tt, set_adMetrics (without_batch i (adMetrics w)) w)) in
  tx! _ := match priceTextRows with Some rows => deletePriceTextUploadEffects rows | None => tx_ret tt end in
  tx! _ := match marginRows with Some rows => deleteMarginUploadEffects rows | None => tx_ret tt end in
  tx! _ := (fun w => Ok (tt, set_saleLines (restore_current saleLineKeys (saleLines w)) w)) in
  tx! _ := (fun w => Ok (tt, set_adMetrics (restore_current adMetricKeys (adMetrics w)) w)) in
  tx! deleted := delete_batch i in
  tx! _ := audit actor "COUPANG_UPLOAD_DELETE" "COUPANG_UPLOAD_BATCH" i
             (Some (JObj [(js "sourceType", JStr (source_name (sourceType upload)));
                          (js "status", JStr (status_name (ub_status upload)));
                          (js "rowCount", JNum (ofZ (rowCount upload)))]))
             (Some (JObj [(js "deleted", JBool true)])) in
  tx_ret deleted.

Definition assertUpload (i : str) : TX Db UploadBatch :=
  tx! found := find_batch i in
  match found with Some b => tx_ret b | None => tx_lift (not_found "COUPANG_UPLOAD_NOT_FOUND") end.

Definition deleteUpload (i : str) (actor : option str) : prog Db UploadBatch :=
  await upload := call (assertUpload i) in
  await priceTextRows := of_result (match sourceType upload with
    | PRICE_TEXT => let! rows := priceTextAppliedRows (columnSchema upload) (validRowCount upload) in Ok (Some rows)
    | _ => Ok None
    end) in
  await marginRows := of_result (match sourceType upload with
    | MARGIN => let! rows := marginAppliedRows (columnSchema upload) (validRowCount upload) in Ok (Some rows)
    | _ => Ok None
    end) in
  call (delete_transaction upload priceTextRows marginRows actor).
End removal.
