(* ===== verification/CoupangSheetUploads.v ===== *)
(** * Imports of sales and advertising sheets

    importSalesXlsx and importAdsXlsx of coupang/coupang.service.ts, on the
    worksheets of [CoupangSheets]: the match of each row with a product, the
    versions of [CoupangVersions] that it is stored under, and the counts of
    the upload.  [hash_row] and [hash_group] stand for the SHA-256 of a row and
    of the rows that are summed into one. *)

From S2P Require Import Prelude JsNumber JsString JsDate.
From S2P Require Import DateNumber.
From S2P Require Import ProductMatchers.
From S2P Require Import SecurityAudit.
From S2P Require Import Concurrency.
From S2P Require Import RequestBody.
From S2P Require Import CoupangSheets.
From S2P Require Import CoupangDb.
From S2P Require Import CoupangVersions.
From S2P Require Import CoupangRules.
From S2P Require Import CoupangUploads.
From S2P Require Import CoupangCostUploads.

Import Sheet_rows.
Local Open Scope Z_scope.

#[export] Instance match_reason_eq_dec : EqDecision CoupangMatcher.CoupangMatchReason.
Proof. solve_decision. Defined.

(** ** Products *)

Section matching.
Context `{Icu, DecimalNumber}.

Definition jsonStringArray (l : list str) : list str := uniqueNonEmpty l.

Definition rule_input (r : MappingRule) : CoupangMatcher.CoupangRuleInput := {|
  CoupangMatcher.id := mr_id r; CoupangMatcher.productId := mr_productId r;
  CoupangMatcher.displayName := Some (mr_displayName r);
  CoupangMatcher.includeKeywords := jsonStringArray (includeKeywords r);
  CoupangMatcher.excludeKeywords := jsonStringArray (excludeKeywords r);
  CoupangMatcher.priority := toZ (mr_priority r);
  CoupangMatcher.validFrom := Some (DateText (formatDateOnly (validFrom r)));
  CoupangMatcher.validTo := (fun d => DateText (formatDateOnly d)) <$> validTo r;
  CoupangMatcher.isActive := Some (mr_isActive r) |}.

Definition matcherRules (w : Db) : list CoupangMatcher.CoupangRuleInput :=
  map rule_input (js_sort mapping_order (List.filter (fun r =>
    mr_isActive r && existsb (fun p => str_eqb (pr_id p) (mr_productId r) && pr_isActive p) (products w))
    (mappingRules w))).

Definition reason_name (r : CoupangMatcher.CoupangMatchReason) : str :=
  js match r with
     | CoupangMatcher.MATCHED => "MATCHED" | CoupangMatcher.NO_MATCH => "NO_MATCH"
     | CoupangMatcher.AMBIGUOUS_MATCH => "AMBIGUOUS_MATCH"
     | CoupangMatcher.EXCLUDED_BY_KEYWORD => "EXCLUDED_BY_KEYWORD"
     end%string.

Definition matchIssue (errorCode : str) (candidates : list str) : RowIssue :=
  {| ri_columnName := None; ri_errorCode := errorCode;
     ri_message := js "Coupang product did not resolve to exactly one active rule.";
     ri_rawValue := Some (join (js ", ") candidates); ri_isError := false; ri_candidates := candidates |}.

Definition duplicateCurrentIssue (errorCode : string) (logicalKey : str) : RowIssue :=
  {| ri_columnName := None; ri_errorCode := js errorCode;
     ri_message := js "Coupang row already has a current logical key; this imported row was kept as non-current.";
     ri_rawValue := Some logicalKey; ri_isError := false; ri_candidates := [] |}.

Definition validationStatusFor (issues warnings : list RowIssue) (productId : option str) : RowValidationStatus :=
  if truthy_list issues then ERROR
  else if negb (truthy_opt productId) then ROW_UNMATCHED
  else if truthy_list warnings then WARNING else VALID.

Definition minDate (current : option Z) (next : Z) : Z :=
  match current with Some c => if c <? next then c else next | None => next end.
Definition maxDate (current : option Z) (next : Z) : Z :=
  match current with Some c => if next <? c then c else next | None => next end.

(** *** The products of an advertising row *)

Definition isPlaceholderCoupangProductText (value : option str) : bool :=
  let text := trim (value ?? []) in negb (truthy text) || str_eqb text (js "-").

Record CoupangSpendMatchResolution := {
  sm_productId : option str;
  sm_ruleId : option str;
  sm_source : MatchSource;
  sm_warning : option RowIssue;
  sm_matched : bool
}.

Definition matchCoupangAdSpendText (rules : list CoupangMatcher.CoupangRuleInput) (date : Z) (text : str)
  : CoupangSpendMatchResolution :=
  let m := CoupangMatcher.matchText text rules (Some (DateTime date)) in
  match CoupangMatcher.reason m with
  | CoupangMatcher.MATCHED =>
      {| sm_productId := CoupangMatcher.match_productId m; sm_ruleId := CoupangMatcher.matchRuleId m;
         sm_source := RULE; sm_warning := None; sm_matched := true |}
  | r =>
      {| sm_productId := None; sm_ruleId := None; sm_source := UNMATCHED;
         sm_warning := Some (matchIssue (js "SPEND_" ++ reason_name r) (CoupangMatcher.candidates m));
         sm_matched := false |}
  end.

Definition resolveCoupangAdSpendProductMatch (rules : list CoupangMatcher.CoupangRuleInput) (date : Z)
    (adExecutionProductName : str) (adName : option str) : CoupangSpendMatchResolution :=
  if negb (isPlaceholderCoupangProductText (Some adExecutionProductName))
  then matchCoupangAdSpendText rules date adExecutionProductName
  else if negb (isPlaceholderCoupangProductText adName) then matchCoupangAdSpendText rules date (adName ?? [])
  else {| sm_productId := None; sm_ruleId := None; sm_source := UNMATCHED;
          sm_warning := Some (matchIssue (js "SPEND_NO_MATCH") []); sm_matched := false |}.

Record CoupangAdProductMatchResolution := {
  pm_spend : CoupangSpendMatchResolution;
  pm_productId : option str;
  pm_ruleId : option str;
  pm_source : MatchSource;
  pm_warnings : list RowIssue;
  pm_matched : bool
}.

Definition resolveCoupangAdProductMatches (rules : list CoupangMatcher.CoupangRuleInput) (date : Z)
    (adExecutionProductName : str) (adName : option str) (conversionProductName : str)
  : CoupangAdProductMatchResolution :=
  let spend := resolveCoupangAdSpendProductMatch rules date adExecutionProductName adName in
  let warnings := match sm_warning spend with Some i => [i] | None => [] end in
  let none := {| pm_spend := spend; pm_productId := None; pm_ruleId := None; pm_source := UNMATCHED;
                 pm_warnings := warnings; pm_matched := false |} in
  if isPlaceholderCoupangProductText (Some conversionProductName) then
    if truthy_opt (sm_productId spend)
    then {| pm_spend := spend; pm_productId := sm_productId spend; pm_ruleId := sm_ruleId spend;
            pm_source := INFERRED; pm_warnings := warnings; pm_matched := true |}
    else none
  else
    let m := CoupangMatcher.matchText conversionProductName rules (Some (DateTime date)) in
    match CoupangMatcher.reason m with
    | CoupangMatcher.MATCHED =>
        {| pm_spend := spend; pm_productId := CoupangMatcher.match_productId m;
           pm_ruleId := CoupangMatcher.matchRuleId m; pm_source := RULE; pm_warnings := warnings; pm_matched := true |}
    | r =>
        {| pm_spend := spend; pm_productId := None; pm_ruleId := None; pm_source := UNMATCHED;
           pm_warnings := warnings ++ [matchIssue (js "CONVERSION_" ++ reason_name r) (CoupangMatcher.candidates m)];
           pm_matched := false |}
    end.

(** ** Columns of the tables *)

(** An INTEGER column, DECIMAL(14, 2) and DECIMAL(14, 4). *)
Definition int_column (bits : Z) (x : num) : result num :=
  if isInteger x && (- 2 ^ (bits - 1) <=? toZ x) && (toZ x <? 2 ^ (bits - 1)) then Ok x else Throws P2020.

Definition amount_column (scale : Z) (x : option num) : result dec :=
  match numeric 14 scale (match x with Some x => decimal_of x | None => dec_zero end) with
  | Some d => Ok d
  | None => Throws P2020
  end.

Definition sale_amounts (p : option Sales_xlsx.ParsedCoupangSaleRow) : result SaleAmounts :=
  let! sales := amount_column 2 (Sales_xlsx.salesKrw <$> p) in
  let! orders := int_column 32 ((Sales_xlsx.orderCount <$> p) ?? ofZ 0) in
  let! quantity := amount_column 4 (Sales_xlsx.salesQuantity <$> p) in
  let! total := amount_column 2 (Sales_xlsx.totalSalesKrw <$> p) in
  let! totalQuantity := amount_column 4 (Sales_xlsx.totalSalesQuantity <$> p) in
  let! cancel := amount_column 2 (Sales_xlsx.cancelAmountKrw <$> p) in
  let! cancelled := amount_column 4 (Sales_xlsx.cancelQuantity <$> p) in
  let! instant := amount_column 4 (Sales_xlsx.instantCancelQuantity <$> p) in
  let! net := amount_column 2 (Sales_xlsx.netSalesKrw <$> p) in
  Ok {| salesKrw := sales; orderCount := orders; salesQuantity := quantity; totalSalesKrw := total;
        totalSalesQuantity := totalQuantity; cancelAmountKrw := cancel; cancelQuantity := cancelled;
        instantCancelQuantity := instant; netSalesKrw := net |}.

Definition ad_amounts (p : option Ads_xlsx.ParsedCoupangAdRow) : result AdAmounts :=
  let count f := int_column 32 ((f <$> p) ?? ofZ 0) in
  let! impressions := int_column 64 ((Ads_xlsx.impressions <$> p) ?? ofZ 0) in
  let! clicks := count Ads_xlsx.clicks in
  let! spend := amount_column 2 (Ads_xlsx.adSpendKrw <$> p) in
  let! totalOrders := count Ads_xlsx.totalOrders1d in
  let! directOrders := count Ads_xlsx.directOrders1d in
  let! indirectOrders := count Ads_xlsx.indirectOrders1d in
  let! totalSales := amount_column 2 (Ads_xlsx.totalConversionSales1dKrw <$> p) in
  let! directSales := amount_column 2 (Ads_xlsx.directConversionSales1dKrw <$> p) in
  let! indirectSales := amount_column 2 (Ads_xlsx.indirectConversionSales1dKrw <$> p) in
  let! totalQuantity := amount_column 4 (Ads_xlsx.totalSalesQuantity1d <$> p) in
  let! directQuantity := amount_column 4 (Ads_xlsx.directSalesQuantity1d <$> p) in
  let! indirectQuantity := amount_column 4 (Ads_xlsx.indirectSalesQuantity1d <$> p) in
  Ok {| impressions := impressions; clicks := clicks; adSpendKrw := spend; totalOrders1d := totalOrders;
        directOrders1d := directOrders; indirectOrders1d := indirectOrders; totalConversionSales1dKrw := totalSales;
        directConversionSales1dKrw := directSales; indirectConversionSales1dKrw := indirectSales;
        totalSalesQuantity1d := totalQuantity; directSalesQuantity1d := directQuantity;
        indirectSalesQuantity1d := indirectQuantity |}.

(** The foreign keys of a row of an upload. *)
Definition known_batch (w : Db) (i : str) : bool := existsb (fun b => str_eqb (ub_id b) i) (batches w).
Definition known_product (w : Db) (i : option str) : bool :=
  match i with Some i => existsb (fun p => str_eqb (pr_id p) i) (products w) | None => true end.
Definition known_rule (w : Db) (i : option str) : bool :=
  match i with Some i => existsb (fun r => str_eqb (mr_id r) i) (mappingRules w) | None => true end.

Definition insert_sale_line (l : SaleLine) : TX Db SaleLine := fun w =>
  if existsb (fun x => str_eqb (sl_id x) (sl_id l)) (saleLines w) then Throws (P2002 "id")
  else if existsb (fun x => str_eqb (sl_batchId x) (sl_batchId l) && (sl_rowNumber x =? sl_rowNumber l)) (saleLines w)
  then Throws (P2002 "upload_batch_id,row_number")
  else if known_batch w (sl_batchId l) && known_product w (sl_productId l) && known_rule w (sl_ruleId l)
  then Ok (l, set_saleLines (saleLines w ++ [l]) w) else Throws P2003.

Definition insert_ad_metric (m : AdMetric) : TX Db AdMetric := fun w =>
  if existsb (fun x => str_eqb (am_id x) (am_id m)) (adMetrics w) then Throws (P2002 "id")
  else if existsb (fun x => str_eqb (am_batchId x) (am_batchId m) && (am_rowNumber x =? am_rowNumber m)) (adMetrics w)
  then Throws (P2002 "upload_batch_id,row_number")
  else if known_batch w (am_batchId m) && known_product w (spendProductId m) && known_rule w (spendRuleId m)
          && known_product w (conversionProductId m) && known_rule w (conversionRuleId m)
  then Ok (m, set_adMetrics (adMetrics w ++ [m]) w) else Throws P2003.
End matching.

(** ** Rows that are summed into one *)

Section aggregation.
Context (hash_group : str -> list str -> str).

Definition sumCoupangAdsMetric (rows : list Ads_xlsx.ParsedCoupangAdsRowResult) (field : Ads_xlsx.ParsedCoupangAdRow -> num) : num :=
  fold_left (fun sum row => nadd sum ((field <$> Ads_xlsx.parsedRow row) ?? ofZ 0)) rows (ofZ 0).

Definition by_row_number (a b : Ads_xlsx.ParsedCoupangAdsRowResult) : Z := Ads_xlsx.rowNumber a - Ads_xlsx.rowNumber b.

(** A group has a first row, and it is parsed.  The raw row of the sum, which
    names its sources, is not read again. *)
Definition aggregateCoupangAdsGroup (adMetricKey : str) (rows : list Ads_xlsx.ParsedCoupangAdsRowResult)
  : Ads_xlsx.ParsedCoupangAdsRowResult :=
  let sourceRows := js_sort by_row_number rows in
  let sum := sumCoupangAdsMetric sourceRows in
  {| Ads_xlsx.rowNumber := match sourceRows with r :: _ => Ads_xlsx.rowNumber r | [] => 0 end;
     Ads_xlsx.rawRow := [];
     Ads_xlsx.sourceRowHash := hash_group adMetricKey (js_sort text_order (map Ads_xlsx.sourceRowHash sourceRows));
     Ads_xlsx.parsedRow := first ← head sourceRows; p ← Ads_xlsx.parsedRow first; Some
       {| Ads_xlsx.metricDate := Ads_xlsx.metricDate p; Ads_xlsx.campaignName := Ads_xlsx.campaignName p;
          Ads_xlsx.adGroupName := Ads_xlsx.adGroupName p; Ads_xlsx.adName := Ads_xlsx.adName p;
          Ads_xlsx.adExecutionOptionId := Ads_xlsx.adExecutionOptionId p;
          Ads_xlsx.adExecutionProductName := Ads_xlsx.adExecutionProductName p;
          Ads_xlsx.conversionOptionId := Ads_xlsx.conversionOptionId p;
          Ads_xlsx.conversionProductName := Ads_xlsx.conversionProductName p;
          Ads_xlsx.impressions := sum Ads_xlsx.impressions; Ads_xlsx.clicks := sum Ads_xlsx.clicks;
          Ads_xlsx.adSpendKrw := sum Ads_xlsx.adSpendKrw; Ads_xlsx.totalOrders1d := sum Ads_xlsx.totalOrders1d;
          Ads_xlsx.directOrders1d := sum Ads_xlsx.directOrders1d;
          Ads_xlsx.indirectOrders1d := sum Ads_xlsx.indirectOrders1d;
          Ads_xlsx.totalConversionSales1dKrw := sum Ads_xlsx.totalConversionSales1dKrw;
          Ads_xlsx.directConversionSales1dKrw := sum Ads_xlsx.directConversionSales1dKrw;
          Ads_xlsx.indirectConversionSales1dKrw := sum Ads_xlsx.indirectConversionSales1dKrw;
          Ads_xlsx.totalSalesQuantity1d := sum Ads_xlsx.totalSalesQuantity1d;
          Ads_xlsx.directSalesQuantity1d := sum Ads_xlsx.directSalesQuantity1d;
          Ads_xlsx.indirectSalesQuantity1d := sum Ads_xlsx.indirectSalesQuantity1d |};
     Ads_xlsx.issues := [] |}.

Definition is_summed (row : Ads_xlsx.ParsedCoupangAdsRowResult) : bool :=
  is_Some_b (Ads_xlsx.parsedRow row) && negb (truthy_list (Ads_xlsx.issues row)).

Definition ad_row_key (row : Ads_xlsx.ParsedCoupangAdsRowResult) : str :=
  match Ads_xlsx.parsedRow row with Some p => Ads_xlsx.coupangAdMetricKey p | None => [] end.

Definition aggregateCoupangAdsImportRows (rows : list Ads_xlsx.ParsedCoupangAdsRowResult)
  : list Ads_xlsx.ParsedCoupangAdsRowResult :=
  js_sort by_row_number
    (List.filter (fun r => negb (is_summed r)) rows
     ++ map (fun '(key, group) => aggregateCoupangAdsGroup key group) (group_by ad_row_key (List.filter is_summed rows))).
End aggregation.

(** ** The imports *)

Section imports.
Context `{Icu, DecimalNumber} (uuid : nat -> str) (sha256 : str -> str) (random_text : nat -> str)
        (hash_row : raw_row -> str) (hash_group : str -> list str -> str).

(** What a row adds to the counts. *)
Record RowCounts := {
  rc_valid : bool;
  rc_warnings : nat;
  rc_matches : list (option CoupangMatcher.CoupangMatchReason);
  rc_date : option Z
}.

Definition sale_match (rules : list CoupangMatcher.CoupangRuleInput) (p : option Sales_xlsx.ParsedCoupangSaleRow)
  : option CoupangMatcher.CoupangMatchResult :=
  p ← p;
  Some (CoupangMatcher.matchText (Sales_xlsx.productName p ++ js " " ++ Sales_xlsx.optionName p) rules
          (DateTime <$> Sales_xlsx.saleDate p)).

Definition match_found (m : option CoupangMatcher.CoupangMatchResult) : bool :=
  bool_decide (CoupangMatcher.reason <$> m = Some CoupangMatcher.MATCHED).

Definition match_warnings (m : option CoupangMatcher.CoupangMatchResult) : list RowIssue :=
  match m with
  | Some m =>
      match CoupangMatcher.reason m with
      | CoupangMatcher.MATCHED => []
      | r => [matchIssue (reason_name r) (CoupangMatcher.candidates m)]
      end
  | None => []
  end.

Definition import_sale_row (batch : UploadBatch) (rules : list CoupangMatcher.CoupangRuleInput)
    (row : Sales_xlsx.ParsedCoupangSalesRowResult) : TX Db RowCounts :=
  let issues := map (fun i => rowIssue i true) (Sales_xlsx.issues row) in
  let p := Sales_xlsx.parsedRow row in
  let m := sale_match rules p in
  let productId := if match_found m then m ≫= CoupangMatcher.match_productId else None in
  let ruleId := if match_found m then m ≫= CoupangMatcher.matchRuleId else None in
  let key := match p with Some p => Sales_xlsx.coupangSaleLineKey p | None => hash_row (Sales_xlsx.rawRow row) end in
  tx! lines := tx_get saleLines in
  let decision := row_decision (conflictPolicy batch) key lines in
  let warnings := match_warnings m
    ++ (if skippedDuplicate decision then [duplicateCurrentIssue "COUPANG_SALE_LINE_ALREADY_CURRENT" key] else []) in
  let status := validationStatusFor issues warnings productId in
  let stored := resolveCoupangRowStoredState status decision in
  tx! _ := (fun w => Ok (tt, set_saleLines (supersede key stored (saleLines w)) w)) in
  tx! amounts := tx_lift (sale_amounts p) in
  tx! n := tx_draw in
  tx! t := tx_get time in
  tx! saved := insert_sale_line
    {| sl_id := uuid n; sl_batchId := ub_id batch; sl_rowNumber := Sales_xlsx.rowNumber row;
       sl_sourceRowHash := Sales_xlsx.sourceRowHash row; saleLineKey := key;
       saleDate := p ≫= Sales_xlsx.saleDate; optionId := p ≫= Sales_xlsx.optionId;
       optionName := (Sales_xlsx.optionName <$> p) ?? []; productName := (Sales_xlsx.productName <$> p) ?? [];
       registeredProductId := p ≫= Sales_xlsx.registeredProductId; category := p ≫= Sales_xlsx.category;
       saleMethod := p ≫= Sales_xlsx.saleMethod; sl_amounts := amounts; sl_productId := productId;
       sl_ruleId := ruleId; sl_matchSource := if match_found m then RULE else UNMATCHED;
       sl_validationStatus := status; sl_validationErrors := issues ++ warnings;
       sl_importVersion := importVersion stored; sl_isCurrent := isCurrent stored; sl_createdAt := t |} in
  tx! _ := createRowErrors (ub_id batch) SALES (Some (sl_id saved)) None (Sales_xlsx.rowNumber row) (issues ++ warnings) in
  tx_ret {| rc_valid := negb (truthy_list issues); rc_warnings := List.length warnings;
            rc_matches := [CoupangMatcher.reason <$> m]; rc_date := p ≫= Sales_xlsx.saleDate |}.

Definition import_ad_row (batch : UploadBatch) (rules : list CoupangMatcher.CoupangRuleInput)
    (row : Ads_xlsx.ParsedCoupangAdsRowResult) : TX Db (RowCounts * (bool * bool)) :=
  let issues := map (fun i => rowIssue i true) (Ads_xlsx.issues row) in
  let p := Ads_xlsx.parsedRow row in
  let m := (fun p => resolveCoupangAdProductMatches rules (Ads_xlsx.metricDate p) (Ads_xlsx.adExecutionProductName p)
                       (Ads_xlsx.adName p) (Ads_xlsx.conversionProductName p)) <$> p in
  let spend := pm_spend <$> m in
  let key := match p with Some p => Ads_xlsx.coupangAdMetricKey p | None => hash_row (Ads_xlsx.rawRow row) end in
  tx! metrics := tx_get adMetrics in
  let decision := row_decision (conflictPolicy batch) key metrics in
  let warnings := (pm_warnings <$> m) ?? []
    ++ (if skippedDuplicate decision then [duplicateCurrentIssue "COUPANG_AD_METRIC_ALREADY_CURRENT" key] else []) in
  let spendProduct := spend ≫= sm_productId in
  let conversionProduct := m ≫= pm_productId in
  let status := validationStatusFor issues warnings (if truthy_opt spendProduct then spendProduct else conversionProduct) in
  let stored := resolveCoupangRowStoredState status decision in
  tx! _ := (fun w => Ok (tt, set_adMetrics (supersede key stored (adMetrics w)) w)) in
  tx! amounts := tx_lift (ad_amounts p) in
  tx! n := tx_draw in
  tx! t := tx_get time in
  tx! saved := insert_ad_metric
    {| am_id := uuid n; am_batchId := ub_id batch; am_rowNumber := Ads_xlsx.rowNumber row;
       am_sourceRowHash := Ads_xlsx.sourceRowHash row; adMetricKey := key;
       metricDate := (Ads_xlsx.metricDate <$> p) ?? 0; campaignName := p ≫= Ads_xlsx.campaignName;
       adGroupName := p ≫= Ads_xlsx.adGroupName; adName := p ≫= Ads_xlsx.adName;
       adExecutionOptionId := p ≫= Ads_xlsx.adExecutionOptionId;
       adExecutionProductName := (Ads_xlsx.adExecutionProductName <$> p) ?? [];
       conversionOptionId := p ≫= Ads_xlsx.conversionOptionId;
       conversionProductName := (Ads_xlsx.conversionProductName <$> p) ?? [];
       am_amounts := amounts; spendProductId := spendProduct; spendRuleId := spend ≫= sm_ruleId;
       conversionProductId := conversionProduct; conversionRuleId := m ≫= pm_ruleId;
       spendMatchSource := (sm_source <$> spend) ?? UNMATCHED; conversionMatchSource := (pm_source <$> m) ?? UNMATCHED;
       am_validationStatus := status; am_validationErrors := issues ++ warnings;
       am_importVersion := importVersion stored; am_isCurrent := isCurrent stored; am_createdAt := t |} in
  tx! _ := createRowErrors (ub_id batch) ADS None (Some (am_id saved)) (Ads_xlsx.rowNumber row) (issues ++ warnings) in
  tx_ret ({| rc_valid := negb (truthy_list issues); rc_warnings := List.length warnings; rc_matches := [];
             rc_date := Ads_xlsx.metricDate <$> p |},
          ((sm_matched <$> spend) ?? false, (pm_matched <$> m) ?? false)).

(** The counts and the days of an upload; its schema stays as reserved. *)
Definition sheet_outcome (batch : UploadBatch) (rows : list RowCounts) : BatchData :=
  let valid := count (List.filter rc_valid rows) in
  let errors := count rows - valid in
  let dates := omap rc_date rows in
  {| bd_valid := valid; bd_warnings := Z.of_nat (list_sum (map rc_warnings rows)); bd_errors := errors;
     bd_status := statusFor valid errors; bd_schema := columnSchema batch;
     bd_range := Some (fold_left (fun d x => Some (minDate d x)) dates None,
                       fold_left (fun d x => Some (maxDate d x)) dates None) |}.

Record SheetAnswer := {
  sa_import : ImportAnswer;
  sa_matched : Z;
  sa_unmatched : Z;
  sa_ambiguous : Z;
  sa_range : option str * option str
}.

Definition range_text (d : BatchData) : option str * option str :=
  match bd_range d with
  | Some (s, e) => (formatDateOnly <$> s, formatDateOnly <$> e)
  | None => (None, None)
  end.

Definition sales_transaction (batch : UploadBatch) (rules : list CoupangMatcher.CoupangRuleInput)
    (rows : list Sales_xlsx.ParsedCoupangSalesRowResult) : TX Db (list RowCounts) :=
  tx! counts := tx_map (import_sale_row batch rules) rows in
  tx! _ := finalizeCoupangReservation batch (sheet_outcome batch counts) in
  tx_ret counts.

Definition ads_transaction (batch : UploadBatch) (rules : list CoupangMatcher.CoupangRuleInput)
    (rows : list Ads_xlsx.ParsedCoupangAdsRowResult) : TX Db (list (RowCounts * (bool * bool))) :=
  tx! counts := tx_map (import_ad_row batch rules) rows in
  tx! _ := finalizeCoupangReservation batch (sheet_outcome batch (map fst counts)) in
  tx_ret counts.

Definition count_reasons (f : CoupangMatcher.CoupangMatchReason -> bool) (rows : list RowCounts) : Z :=
  count (List.filter f (omap (fun r => r) (concat (map rc_matches rows)))).

Definition parseCoupangCancelAmountMode (value : option str) : Sales_xlsx.CoupangCancelAmountMode :=
  if bool_decide (value = Some (js "NEGATIVE_ADD")) then Sales_xlsx.NEGATIVE_ADD
  else if bool_decide (value = Some (js "POSITIVE_SUBTRACT")) then Sales_xlsx.POSITIVE_SUBTRACT
  else Sales_xlsx.SALES_IS_NET.

(** The name of a column key is the last of its names. *)
Definition column_names {K} (aliases : K -> list str) (missing : list K) : list str :=
  map (fun k => List.last (aliases k) []) missing.

Definition sheet_schema (columns missing : list str) : list (str * json) :=
  [(js "schemaVersion", JNum (ofZ 1)); (js "columns", JArr (map JStr columns));
   (js "missingColumns", JArr (map JStr missing))].

Definition importSalesXlsx (filename hash : str) (sheet : option worksheet) (b : body) (actorId : str)
  : prog Db (UploadBatch + SheetAnswer) :=
  let parsed := Sales_xlsx.parseBuffer hash_row sheet filename (optionalString (body_field b (js "reportDate")))
                  (parseCoupangCancelAmountMode (optionalString (body_field b (js "cancelAmountMode")))) in
  let missing := column_names Sales_xlsx.COUPANG_SALES_COLUMN_ALIASES (Sales_xlsx.missingColumns parsed) in
  let rows := Sales_xlsx.rows parsed in
  await policy := of_result (parseConflictPolicy (body_field b (js "conflictPolicy"))) in
  await reservation := reserveCoupangImportBatch uuid sha256 random_text
    {| in_sourceType := SALES; in_originalFilename := filename; in_fileHash := hash;
       in_conflictPolicy := policy; in_allowDuplicate := false;
       in_columnSchema := JObj (sheet_schema (Sales_xlsx.headers parsed) missing); in_rowCount := count rows |} actorId in
  match reservation with
  | inl duplicate => Ret (inl duplicate)
  | inr batch =>
      catch
        (await _ := (if truthy_list missing then failMissingColumns (ub_id batch) SALES missing else Ret tt) in
         await rules := call (tx_get matcherRules) in
         await counts := call (sales_transaction batch rules rows) in
         let outcome := sheet_outcome batch counts in
         let matched r := bool_decide (r = CoupangMatcher.MATCHED) in
         let ambiguous r := bool_decide (r = CoupangMatcher.AMBIGUOUS_MATCH) in
         Ret (inr {| sa_import := answer_of (ub_id batch) (count rows) outcome;
                     sa_matched := count_reasons matched counts;
                     sa_unmatched := count_reasons (fun r => negb (matched r) && negb (ambiguous r)) counts;
                     sa_ambiguous := count_reasons ambiguous counts; sa_range := range_text outcome |}))
        (rethrowCoupangImportFailure batch)
  end.

Record AdsAnswer := {
  aa_import : ImportAnswer;
  aa_matchedSpend : Z;
  aa_matchedConversion : Z;
  aa_range : option str * option str
}.

Definition importAdsXlsx (filename hash : str) (sheet : option worksheet) (b : body) (actorId : str)
  : prog Db (UploadBatch + AdsAnswer) :=
  let parsed := Ads_xlsx.parseBuffer hash_row sheet in
  let missing := column_names Ads_xlsx.COUPANG_ADS_COLUMN_ALIASES (Ads_xlsx.missingColumns parsed) in
  let sources := count (Ads_xlsx.rows parsed) in
  let rows := aggregateCoupangAdsImportRows hash_group (Ads_xlsx.rows parsed) in
  let number name n := (js name, JNum (ofZ n)) in
  await policy := of_result (parseConflictPolicy (body_field b (js "conflictPolicy"))) in
  await reservation := reserveCoupangImportBatch uuid sha256 random_text
    {| in_sourceType := ADS; in_originalFilename := filename; in_fileHash := hash;
       in_conflictPolicy := policy; in_allowDuplicate := false;
       in_columnSchema := JObj (sheet_schema (Ads_xlsx.headers parsed) missing
         ++ [number "sourceRowCount" sources; number "aggregatedRowCount" (count rows);
             number "aggregatedDuplicateCount" (Z.max (sources - count rows) 0)]%string);
       in_rowCount := sources |} actorId in
  match reservation with
  | inl duplicate => Ret (inl duplicate)
  | inr batch =>
      catch
        (await _ := (if truthy_list missing then failMissingColumns (ub_id batch) ADS missing else Ret tt) in
         await rules := call (tx_get matcherRules) in
         await counts := call (ads_transaction batch rules rows) in
         let outcome := sheet_outcome batch (map fst counts) in
         Ret (inr {| aa_import := answer_of (ub_id batch) sources outcome;
                     aa_matchedSpend := count (List.filter (fun c => fst (snd c)) counts);
                     aa_matchedConversion := count (List.filter (fun c => snd (snd c)) counts);
                     aa_range := range_text outcome |}))
        (rethrowCoupangImportFailure batch)
  end.
End imports.
