(* ===== verification/CoupangRulesSafety.v ===== *)
(** * What the requests on Coupang rules do to the histories

    The invariant that both tables of rules are timelines, and for each
    statement and each transaction of [CoupangRules] what it does to the
    histories: an insertion into, a move within or no change of a finite map
    from first days to settings. *)

From S2P Require Import Prelude JsNumber JsString JsDate.
From S2P Require Import DateNumber.
From S2P Require Import SecurityAudit.
From S2P Require Import Concurrency.
From S2P Require Import Transactions.
From S2P Require Import RequestBody.
From S2P Require Import Timeline.
From S2P Require Import RuledTable.
From S2P Require Import CoupangDb.
From S2P Require Import CoupangRules.

Local Open Scope Z_scope.

(** ** Comparators and days *)

Section orders.
Context {A : Type} `{Ruled A}.

#[export] Instance ascending_comparator : Comparator (@ascending A _).
Proof.
  apply (comparator_or (fun a b => (rl_from a - rl_from b) ||| (rl_createdAt a - rl_createdAt b))).
  - apply comparator_or; apply comparator_key.
  - apply (comparator_on rl_id), str_cmp_comparator.
Qed.

#[export] Instance descending_comparator : Comparator (@descending A _).
Proof.
  destruct ascending_comparator as [An Tr]. unfold descending. split; [intros; apply An|].
  intros x y z Hx Hy. by eapply Tr.
Qed.

Lemma ascending_start (a b : A) : ascending a b <= 0 -> rl_from a <= rl_from b.
Proof.
  unfold ascending, cmp_or. destruct (Z.eqb_spec (rl_from a - rl_from b) 0); [lia|].
  destruct (Z.eqb_spec (rl_from a - rl_from b) 0); lia.
Qed.

Lemma descending_start (a b : A) : descending a b <= 0 -> rl_from b <= rl_from a.
Proof. apply ascending_start. Qed.
End orders.

Section days.
Context `{Icu, DecimalNumber}.

#[export] Instance newest_first_comparator : Comparator newest_first.
Proof. apply comparator_or; [apply (comparator_key_desc fr_effectiveFrom)|apply (comparator_key_desc fr_createdAt)]. Qed.

#[export] Instance fee_ascending_comparator : Comparator fee_ascending.
Proof. apply comparator_or; [apply (comparator_key fr_effectiveFrom)|apply (comparator_key fr_createdAt)]. Qed.

Lemma fee_ascending_start a b : fee_ascending a b <= 0 -> fr_effectiveFrom a <= fr_effectiveFrom b.
Proof. unfold fee_ascending, cmp_or. destruct (Z.eqb_spec (fr_effectiveFrom a - fr_effectiveFrom b) 0); lia. Qed.

Lemma previousDate_day d : previousDate d = d - msPerDay.
Proof.
  unfold previousDate, shiftUtcDate. pose proof (make_day_getters d) as M. pose proof (day_time d) as T.
  unfold make_day in *. lia.
Qed.

Lemma requiredDate_whole v d : requiredDateFromBody v = Ok d -> whole_day d.
Proof.
  unfold requiredDateFromBody, toDateOnly. repeat case_match; simplify_eq; try done; intros [= <-]; eexists; reflexivity.
Qed.

Lemma today_whole t d : currentKoreaDateOnly t = Ok d -> whole_day d.
Proof. apply requiredDate_whole. Qed.
End days.

(** ** The tables *)

Section tables.
Context `{Icu, DecimalNumber}.

Definition fee_owner (_ : FeeRule) : str := [].

(** The history of the costs of a product and that of the sales fee. *)
Definition cost_history (w : Db) (p : str) : gmap Z Costs := hist cr_productId cr_costs (costRules w) p.
Definition fee_history (w : Db) : gmap Z dec := history fr_salesFeeRate (feeRules w).

Definition product_ids (w : Db) : list str := map pr_id (products w).

Record cost_table (open : list str) (w : Db) : Prop := {
  ct_table :> table cr_productId open (costRules w);
  ct_owned r : r ∈ costRules w -> cr_productId r ∈ product_ids w
}.
Definition fee_table (open : list str) (w : Db) : Prop := table fee_owner open (feeRules w).

(** Both tables are timelines, and every cost rule belongs to a product. *)
Definition rules_invariant (w : Db) : Prop := cost_table [] w /\ fee_table [] w.

Lemma of_owner_fee l : of_owner fee_owner [] l = l.
Proof. unfold of_owner. apply filter_all. intros x _. by apply bool_decide_eq_true. Qed.

Lemma fee_history_hist w : fee_history w = hist fee_owner fr_salesFeeRate (feeRules w) [].
Proof. unfold hist. by rewrite of_owner_fee. Qed.

Lemma cost_timeline w p : cost_table [] w -> timeline (rules_of p (costRules w)).
Proof. intros T. apply (tb_timeline _ _ _ T). apply not_elem_of_nil. Qed.

Lemma fee_timeline w : fee_table [] w -> timeline (feeRules w).
Proof. intros T. rewrite <- of_owner_fee. apply T. apply not_elem_of_nil. Qed.

(** Transactions that leave both tables alone and delete no product. *)
Record same_rules (w w' : Db) : Prop := {
  sr_costs : costRules w' = costRules w;
  sr_fees : feeRules w' = feeRules w;
  sr_products : product_ids w ⊆ product_ids w'
}.

#[export] Instance same_rules_preorder : PreOrder same_rules.
Proof.
  split; [by intros w; split|]. intros a b c [? ? ?] [? ? ?]. split; [congruence..|]. by etransitivity.
Qed.

Lemma same_rules_invariant w w' : same_rules w w' -> rules_invariant w -> rules_invariant w'.
Proof.
  intros [Ec Ef P] [[C O] F]. split; [split|]; unfold fee_table; rewrite ?Ec, ?Ef; auto.
Qed.

(** What a transaction does to the cost rules when it puts [v] at [d] into the
    history of [p] after taking away what [p] had at [old]. *)
Record cost_change (p : str) (old : option Z) (d : Z) (v : Costs) (w w' : Db) : Prop := {
  cc_table : cost_table [] w';
  cc_fees : feeRules w' = feeRules w;
  cc_history : cost_history w' p
    = <[d := v]> (match old with Some o => delete o (cost_history w p) | None => cost_history w p end);
  cc_others q : q <> p -> cost_history w' q = cost_history w q
}.

Record fee_change (old : option Z) (d : Z) (v : dec) (w w' : Db) : Prop := {
  fc_table : fee_table [] w';
  fc_costs : costRules w' = costRules w;
  fc_history : fee_history w'
    = <[d := v]> (match old with Some o => delete o (fee_history w) | None => fee_history w end)
}.
End tables.

(** ** The statements *)

Section statements.
Context `{Icu, DecimalNumber} (uuid : nat -> str).

Lemma existsb_id_false {A} (f : A -> str) i l : existsb (fun x => str_eqb (f x) i) l = false <-> i ∉ map f l.
Proof.
  rewrite existsb_false_iff. split.
  - intros E I. apply list_elem_of_fmap in I as (x & -> & I). specialize (E x I).
    by apply bool_decide_eq_false in E.
  - intros N x I. apply bool_decide_eq_false. intros <-. apply N. by apply list_elem_of_fmap_2.
Qed.

Lemma insert_cost_rule_inv r w r' w' : insert_cost_rule r w = Ok (r', w') ->
  r' = r /\ w' = set_costRules (costRules w ++ [r]) w /\ cr_productId r ∈ product_ids w
  /\ cr_id r ∉ ids (costRules w)
  /\ (forall x, x ∈ costRules w -> cr_productId x = cr_productId r -> cr_effectiveFrom x <> cr_effectiveFrom r).
Proof.
  unfold insert_cost_rule. destruct (existsb (fun x => str_eqb (cr_id x) (cr_id r)) (costRules w)) eqn:Ei; [done|].
  destruct (existsb (starts_on _ _ _) (costRules w)) eqn:Es; [done|].
  destruct (existsb (fun p => str_eqb (pr_id p) (cr_productId r)) (products w)) eqn:Ep; [|done]. cbn [negb].
  destruct (negb (rl_check r)); [done|]. intros [= <- <-]. apply existsb_id_false in Ei. do 2 (split; [done|]).
  split. { apply existsb_exists_iff in Ep as (p & Ip & Ep). apply bool_decide_eq_true in Ep. rewrite <- Ep.
    by apply list_elem_of_fmap_2. }
  split; [done|]. clear Ep.
  intros x I Ep Ef. rewrite existsb_false_iff in Es. specialize (Es x I). unfold starts_on, str_eqb in Es.
  rewrite Ep, Ef, bool_decide_eq_true_2, Z.eqb_refl in Es by done. simpl in Es.
  apply negb_false_iff, bool_decide_eq_true in Es. apply Ei. rewrite <- Es. by apply list_elem_of_fmap_2.
Qed.

Lemma insert_cost_rule_table open r w r' w' : cost_table open w -> whole_day (cr_effectiveFrom r) ->
  insert_cost_rule r w = Ok (r', w') ->
  r' = r /\ feeRules w' = feeRules w /\ r ∈ costRules w' /\ cost_table (cr_productId r :: open) w' /\
  forall q, cost_history w' q
    = if str_eqb q (cr_productId r) then <[cr_effectiveFrom r := cr_costs r]> (cost_history w q) else cost_history w q.
Proof.
  intros T D E. apply insert_cost_rule_inv in E as (-> & -> & Ho & Hi & Hf).
  assert (T' : table cr_productId (cr_productId r :: open) (costRules w ++ [r])).
  { apply (table_insert cr_productId cr_costs); [apply T|done..|]. by apply (hist_None cr_productId cr_costs open _ _ _ (ct_table _ _ T)). }
  split; [done|]. split; [done|]. split; [apply elem_of_app; right; by apply list_elem_of_singleton|].
  split. { split; [done|]. intros x [I| ->%list_elem_of_singleton]%elem_of_app; [by apply T|done]. }
  intros q. exact (hist_insert cr_productId cr_costs _ _ _ q T').
Qed.

(** A write keeps the identity and the owner of a rule. *)
Lemma write_costs_keeps xs r r' : write_costs r xs = Ok r' ->
  cr_id r' = cr_id r /\ cr_productId r' = cr_productId r /\ cr_createdAt r' = cr_createdAt r.
Proof.
  revert r. induction xs as [|x xs IH]; intros r; cbn [write_costs]; [by intros [= ->]|].
  destruct (write_cost r x) as [r1|] eqn:E; [|done]. cbn [result_bind]. intros F. apply IH in F as (-> & -> & ->).
  destruct x; simpl in E.
  - destruct (money_column _ _); simpl in E; [|done]. by injection E as <-.
  - destruct (shipping_column _); simpl in E; [|done]. by injection E as <-.
  - by injection E as <-.
  - by injection E as <-.
  - by injection E as <-.
Qed.

(** The first day after a list of writes: the last one they set. *)
Definition start_after (xs : list cost_write) (d : Z) : Z :=
  fold_left (fun d x => match x with SetCostFrom d' => d' | _ => d end) xs d.

Lemma write_costs_start xs r r' : write_costs r xs = Ok r' ->
  cr_effectiveFrom r' = start_after xs (cr_effectiveFrom r).
Proof.
  revert r. induction xs as [|x xs IH]; intros r; cbn [write_costs]; [by intros [= ->]|].
  destruct (write_cost r x) as [r1|] eqn:E; [|done]. cbn [result_bind]. intros F. apply IH in F as ->.
  unfold start_after. cbn [fold_left]. f_equal. destruct x; simpl in E.
  - destruct (money_column _ _); simpl in E; [|done]. by injection E as <-.
  - destruct (shipping_column _); simpl in E; [|done]. by injection E as <-.
  - by injection E as <-.
  - by injection E as <-.
  - by injection E as <-.
Qed.

Lemma update_cost_rule_table open i xs w r' w' : cost_table open w -> update_cost_rule i xs w = Ok (r', w') ->
  exists r, row_by_id i (costRules w) = Some r /\ write_costs r xs = Ok r' /\ feeRules w' = feeRules w /\
    costRules w' = put_row r' (costRules w) /\
    (whole_day (cr_effectiveFrom r') -> cost_table (cr_productId r :: open) w') /\
    forall q, cost_history w' q
      = if str_eqb q (cr_productId r)
        then <[cr_effectiveFrom r' := cr_costs r']> (delete (cr_effectiveFrom r) (cost_history w q))
        else cost_history w q.
Proof.
  intros T. unfold update_cost_rule. destruct (row_by_id i (costRules w)) as [r|] eqn:Er; [|done].
  destruct (write_costs r xs) as [r1|] eqn:Ew; [|done]. cbn [result_bind].
  destruct (existsb (starts_on _ _ _) _) eqn:Es; [done|]. destruct (negb _); [done|]. intros [= <- <-].
  exists r. pose proof (write_costs_keeps _ _ _ Ew) as (Ei & Ep & _). apply row_by_id_Some in Er as [I <-].
  assert (F : free_start cr_productId (costRules w) r1).
  { intros x Hx Eo Ni Ef. rewrite existsb_false_iff in Es. specialize (Es x Hx). unfold starts_on, str_eqb in Es.
    simpl in Ef, Ni, Ei. rewrite Eo, Ef, bool_decide_eq_true_2, Z.eqb_refl in Es by done. simpl in Es.
    apply negb_false_iff, bool_decide_eq_true in Es. congruence. }
  do 4 (split; [done|]). split.
  - intros D. split; [by apply table_put; [apply T|..]|]. intros x Hx. apply (put_row_elem _ r) in Hx; [|done..].
    destruct Hx as [->|[Hx _]]; [rewrite Ep|]; by apply T.
  - intros q. exact (hist_put cr_productId cr_costs open _ r r1 q T I Ei Ep F).
Qed.

Lemma normalize_cost_rules_table open p w : cost_table (p :: open) w ->
  exists w', normalizeCoupangCostRuleRanges p w = Ok (tt, w') /\ cost_table open w' /\
    feeRules w' = feeRules w /\ (forall q, cost_history w' q = cost_history w q) /\
    costRules w' = closed cr_productId p (costRules w).
Proof.
  intros T. unfold normalizeCoupangCostRuleRanges, normalize_cost_rules.
  change (rules_of p (costRules w)) with (of_owner cr_productId p (costRules w)).
  rewrite (normalize_closed cr_productId ascending ascending_start previousDate previousDate_day
             (p :: open)) by apply T.
  eexists. split; [reflexivity|]. split.
  { split; [by apply table_closed; [|apply T]|]. intros r Hr. apply elem_of_closed in Hr as (x & t & Hx & ->).
    replace (cr_productId _) with (cr_productId x) by (by case_match). by apply T. }
  split; [done|]. split; [|done].
  intros q. by apply hist_closed.
Qed.
End statements.

(** ** The transactions on costs *)

Section transactions.
Context `{Icu, DecimalNumber} (uuid : nat -> str).

Lemma elem_of_rules x p l : x ∈ rules_of p l <-> x ∈ l /\ cr_productId x = p.
Proof. apply (elem_of_owner cr_productId). Qed.

(** A rule is found by its first day, or as the one in force. *)
Lemma starting_on_spec p d w r w' : findCoupangCostRuleStartingOnDate p d w = Ok (r, w') ->
  w' = w /\ match r with
            | Some x => x ∈ costRules w /\ cr_productId x = p /\ cr_effectiveFrom x = d
            | None => forall x, x ∈ costRules w -> cr_productId x = p -> cr_effectiveFrom x <> d
            end.
Proof.
  intros [= <- <-]. split; [done|]. destruct (js_sort descending _) as [|x l] eqn:E; simpl.
  - intros x Hx Ep Ed. assert (I : x ∈ js_sort descending
      (List.filter (fun r => cr_effectiveFrom r =? d) (rules_of p (costRules w)))).
    { by rewrite elem_of_js_sort, elem_of_filterb, elem_of_rules, Z.eqb_eq. }
    rewrite E in I. by apply elem_of_nil in I.
  - apply js_sort_head in E as [I _]; [|apply _]. rewrite elem_of_filterb, elem_of_rules, Z.eqb_eq in I. tauto.
Qed.

Lemma at_or_before_spec p d w r w' : cost_table [] w ->
  findCoupangCostRuleAtOrBeforeDate p d w = Ok (r, w') -> w' = w /\ cr_costs <$> r = in_force (cost_history w p) d.
Proof.
  intros T [= <- <-]. split; [done|]. pose proof (cost_timeline w p T) as [N _ _].
  unfold in_force. rewrite (last_start_set _ (starts (rules_of p (costRules w))))
    by (intros x; rewrite elem_of_starts; apply history_starts).
  pose proof (last_start_spec (starts (rules_of p (costRules w))) d) as P.
  destruct (js_sort descending _) as [|x l] eqn:E; simpl.
  - destruct (last_start _ d) as [m|]; [|done]. destruct P as (Im & Lm & _).
    apply list_elem_of_fmap in Im as (x & -> & Hx).
    assert (I : x ∈ js_sort descending (List.filter (fun r => cr_effectiveFrom r <=? d) (rules_of p (costRules w)))).
    { rewrite elem_of_js_sort, elem_of_filterb, Z.leb_le. done. }
    rewrite E in I. by apply elem_of_nil in I.
  - apply js_sort_head in E as [I M]; [|apply _]. rewrite elem_of_filterb, Z.leb_le in I. destruct I as [I L].
    assert (Is : cr_effectiveFrom x ∈ starts (rules_of p (costRules w))) by by apply list_elem_of_fmap_2.
    destruct (last_start _ d) as [m|]; [|specialize (P _ Is); lia]. destruct P as (Im & Lm & Mm).
    pose proof (Mm _ Is L). apply list_elem_of_fmap in Im as (y & -> & Hy).
    specialize (M y ltac:(by rewrite elem_of_filterb, Z.leb_le)). apply descending_start in M. simpl in M.
    assert (Em : cr_effectiveFrom y = cr_effectiveFrom x) by (simpl in *; lia). simpl. rewrite Em. symmetry.
    exact (history_lookup cr_costs (rules_of p (costRules w)) x N I).
Qed.

Lemma following_spec p d w r w' : following_rule p d None w = Ok (r, w') -> cost_table [] w ->
  w' = w /\ cr_effectiveFrom <$> r = next_start (first_days (cost_history w p)) d.
Proof.
  intros [= <- <-] T. split; [done|]. unfold first_days. rewrite (next_start_set _ (starts (rules_of p (costRules w))))
    by (intros x; rewrite elem_of_starts; apply history_starts).
  pose proof (next_start_spec (starts (rules_of p (costRules w))) d) as P.
  set (f := List.filter _ _).
  assert (F : forall x, x ∈ f <-> x ∈ rules_of p (costRules w) /\ d < cr_effectiveFrom x).
  { intros x. unfold f. rewrite elem_of_filterb, andb_true_iff, Z.ltb_lt.
    split; [tauto|]. intros [I L]. done. }
  destruct (js_sort ascending f) as [|x l] eqn:E; simpl.
  - destruct (next_start _ d) as [m|]; [|done]. destruct P as (Im & Lm & _).
    apply list_elem_of_fmap in Im as (x & -> & Hx).
    assert (I : x ∈ js_sort ascending f) by by rewrite elem_of_js_sort, F.
    rewrite E in I. by apply elem_of_nil in I.
  - apply js_sort_head in E as [I M]; [|apply _]. apply F in I as [I L].
    assert (Is : cr_effectiveFrom x ∈ starts (rules_of p (costRules w))) by by apply list_elem_of_fmap_2.
    destruct (next_start _ d) as [m|]; [|specialize (P _ Is); lia]. destruct P as (Im & Lm & Mm).
    pose proof (Mm _ Is L). apply list_elem_of_fmap in Im as (y & -> & Hy).
    specialize (M y ltac:(by apply F)). apply ascending_start in M. simpl in *. f_equal. lia.
Qed.

(** ** The first day in the writes of a body *)

Lemma start_after_app xs ys d : start_after (xs ++ ys) d = start_after ys (start_after xs d).
Proof. apply fold_left_app. Qed.

Lemma money_write_start b l f xs d : money_write b l f = Ok xs -> start_after xs d = d.
Proof. unfold money_write. destruct (nonNegativeCostDecimalFromBody _ _) as [v|]; simpl; [|done]. intros [= <-]. by destruct v, l. Qed.

Lemma shipping_write_start b l f x d : shipping_write b l f = Ok x -> start_after [x] d = d.
Proof.
  unfold shipping_write. destruct (has_own _ _); [|by intros [= <-]].
  destruct (nullableNonNegativeCostDecimalFromBody _ _); simpl; [|done]. by intros [= <-].
Qed.


Lemma provided_start {A} (k : A -> cost_write) x d :
  (forall a, match k a with SetCostFrom _ => False | _ => True end) -> start_after (provided k x) d = d.
Proof. intros N. destruct x as [a|]; [|done]. specialize (N a). cbn. by destruct (k a). Qed.

Lemma maybeCostRuleCreate_start b base data d : maybeCostRuleCreate b base = Ok (Some data) ->
  if boolean_of (body_field b (js "effectiveFrom"))
  then requiredDateFromBody (body_field b (js "effectiveFrom")) = Ok (start_after data d)
  else start_after data d = d.
Proof.
  unfold maybeCostRuleCreate. destruct (negb _); [done|]. intros E. let_steps. injection E as <-.
  assert (Lit : forall x y s h l d, start_after (SetMoney SalesFeeRate x :: SetMoney SalesFee y :: s :: h :: l) d
                  = start_after l (start_after [h] (start_after [s] d))) by done.
  rewrite !start_after_app, !Lit, !start_after_app, !(provided_start SetCostNote), !(provided_start (SetMoney ReturnRate)) by done.
  repeat match goal with
  | M : money_write _ _ _ = Ok ?xs |- context [start_after ?xs ?d] => rewrite !(money_write_start _ _ _ _ d M)
  | M : shipping_write _ _ _ = Ok ?x |- context [start_after [?x] ?d] => rewrite !(shipping_write_start _ _ _ _ d M)
  end.
  destruct (boolean_of _).
  - destruct (requiredDateFromBody _) as [d'|] eqn:Er; simpl in *; [|done]. by simplify_eq/=.
  - by simplify_eq/=.
Qed.

(** What a list of writes leaves in an amount. *)
Definition last_money (f : money_field) (xs : list cost_write) (acc : option dec) : option dec :=
  fold_left (fun acc x => match x with SetMoney g d => if money_field_eqb f g then Some d else acc | _ => acc end)
    xs acc.

Lemma money_field_eqb_eq f g : money_field_eqb f g = true <-> f = g.
Proof. by destruct f, g. Qed.

Lemma last_money_app f xs ys acc : last_money f (xs ++ ys) acc = last_money f ys (last_money f xs acc).
Proof. apply fold_left_app. Qed.

Definition holds_money (f : money_field) (start : dec) (acc : option dec) (r : CostRule) : Prop :=
  match acc with
  | Some d => money_column f d = Ok (get_money f (cr_costs r))
  | None => get_money f (cr_costs r) = start
  end.

Lemma get_money_build m s n f : get_money f (build_costs m s n) = m f.
Proof. by destruct f. Qed.

Lemma write_costs_money f start xs acc r r' : write_costs r xs = Ok r' ->
  holds_money f start acc r -> holds_money f start (last_money f xs acc) r'.
Proof.
  revert r acc. induction xs as [|x xs IH]; intros r acc; cbn [write_costs]; [by intros [= ->]|].
  destruct (write_cost r x) as [r1|] eqn:E; [|done]. cbn [result_bind]. intros F Hr.
  unfold last_money. cbn [fold_left]. eapply IH; [exact F|]. clear IH F.
  assert (K : forall r2, get_money f (cr_costs r2) = get_money f (cr_costs r) -> holds_money f start acc r2).
  { intros r2 E2. unfold holds_money in *. by rewrite E2. }
  destruct x as [g d|g d|n|d|d]; simpl in E.
  - destruct (money_column g d) as [d'|] eqn:Em; simpl in E; [|done]. injection E as <-.
    destruct (money_field_eqb f g) eqn:Ef.
    + apply money_field_eqb_eq in Ef as ->. simpl. rewrite get_money_build.
      by rewrite (proj2 (money_field_eqb_eq g g)).
    + apply K. simpl. rewrite get_money_build. destruct (money_field_eqb g f) eqn:Eg; [|done].
      apply money_field_eqb_eq in Eg as ->. by destruct f.
  - destruct (shipping_column d); simpl in E; [|done]. injection E as <-. apply K. simpl. apply get_money_build.
  - injection E as <-. apply K. simpl. apply get_money_build.
  - injection E as <-. by apply K.
  - injection E as <-. by apply K.
Qed.

(** The same for any column: the value that [pick] finds in a write, how the
    column stores it, and how it is read. *)
Section column.
Context {V W : Type} (pick : cost_write -> option V) (store : V -> result W) (view : Costs -> W).

Definition last_pick (xs : list cost_write) (acc : option V) : option V :=
  fold_left (fun acc x => match pick x with Some v => Some v | None => acc end) xs acc.

Definition holds_pick (start : W) (acc : option V) (r : CostRule) : Prop :=
  match acc with
  | Some v => store v = Ok (view (cr_costs r))
  | None => view (cr_costs r) = start
  end.

Lemma last_pick_app xs ys acc : last_pick (xs ++ ys) acc = last_pick ys (last_pick xs acc).
Proof. apply fold_left_app. Qed.

Lemma last_pick_none xs acc : Forall (fun x => pick x = None) xs -> last_pick xs acc = acc.
Proof.
  revert acc. induction xs as [|x xs IH]; intros acc F; [done|]. apply Forall_cons in F as [Fx F].
  unfold last_pick. cbn [fold_left]. rewrite Fx. by apply IH.
Qed.

Lemma write_costs_pick start xs acc r r' :
  (forall r x r', write_cost r x = Ok r' ->
     match pick x with
     | Some v => store v = Ok (view (cr_costs r'))
     | None => view (cr_costs r') = view (cr_costs r)
     end) ->
  write_costs r xs = Ok r' -> holds_pick start acc r -> holds_pick start (last_pick xs acc) r'.
Proof.
  intros Wr. revert r acc. induction xs as [|x xs IH]; intros r acc; cbn [write_costs]; [by intros [= ->]|].
  destruct (write_cost r x) as [r1|] eqn:E; [|done]. cbn [result_bind]. intros F Hr.
  unfold last_pick. cbn [fold_left]. eapply IH; [exact F|]. specialize (Wr _ _ _ E).
  destruct (pick x); [done|]. unfold holds_pick in *. by rewrite Wr.
Qed.
End column.

Definition pick_shipping (f : shipping_field) (x : cost_write) : option (option dec) :=
  match x, f with
  | SetShipping SellerShippingFee d, SellerShippingFee | SetShipping HanaroShippingFee d, HanaroShippingFee => Some d
  | _, _ => None
  end.
Definition pick_note (x : cost_write) : option (option str) :=
  match x with SetCostNote n => Some n | _ => None end.

Lemma get_shipping_build m s n f : get_shipping f (build_costs m s n) = s f.
Proof. by destruct f. Qed.

Lemma write_shipping f r x r' : write_cost r x = Ok r' ->
  match pick_shipping f x with
  | Some v => shipping_column v = Ok (get_shipping f (cr_costs r'))
  | None => get_shipping f (cr_costs r') = get_shipping f (cr_costs r)
  end.
Proof.
  destruct x as [g d|g d|n|d|d]; simpl.
  - destruct (money_column g d); simpl; [|done]. intros [= <-]. apply get_shipping_build.
  - destruct (shipping_column d) as [d'|] eqn:Ed; simpl; [|done]. intros [= <-].
    destruct g, f; simpl; done.
  - intros [= <-]. apply get_shipping_build.
  - by intros [= <-].
  - by intros [= <-].
Qed.

Lemma write_note r x r' : write_cost r x = Ok r' ->
  match pick_note x with
  | Some v => Ok v = Ok (costNote (cr_costs r'))
  | None => costNote (cr_costs r') = costNote (cr_costs r)
  end.
Proof.
  destruct x as [g d|g d|n|d|d]; simpl.
  - destruct (money_column g d); simpl; [|done]. by intros [= <-].
  - destruct (shipping_column d); simpl; [|done]. by intros [= <-].
  - by intros [= <-].
  - by intros [= <-].
  - by intros [= <-].
Qed.

(** The amount a body gives. *)
Definition given_money (b : body) (f : money_field) : option dec :=
  match nonNegativeCostDecimalFromBody (body_field b (money_name f)) (money_name f) with
  | Ok d => d | Throws _ => None end.

Definition or_base (x : option dec) (f : money_field) (base : option Costs) : option dec :=
  match x with Some _ => x | None => get_money f <$> base end.

Lemma money_write_last b base f xs g acc : money_write b base f = Ok xs ->
  last_money g xs acc
  = if money_field_eqb g f then match or_base (given_money b f) f base with Some d => Some d | None => acc end
    else acc.
Proof.
  unfold money_write, given_money, or_base. destruct (nonNegativeCostDecimalFromBody _ _) as [v|]; simpl; [|done].
  intros [= <-]. destruct v as [v|], base as [c|]; simpl; destruct (money_field_eqb g f); done.
Qed.

Definition given_shipping (b : body) (f : shipping_field) : option dec :=
  match nullableNonNegativeCostDecimalFromBody (body_field b (shipping_name f)) (shipping_name f) with
  | Ok d => d | Throws _ => None end.

Definition given_rate (b : body) (f : money_field) : option dec :=
  match rateDecimalFromBody (body_field b (money_name f)) "" with Ok d => Some d | Throws _ => None end.

(** What the saved rule of a day holds, where [base] are the costs in force on
    that day and [same] those of the rule that already starts on it: the sales
    fee and its rate are not saved here and stay those of the rule of the day;
    any other amount is the one given, or else the one in force; *)
Definition settled_money (b : body) (base same : option Costs) (f : money_field) : option dec :=
  match f with
  | SalesFeeRate | SalesFee => Some ((get_money f <$> same) ?? dec_zero)
  | ReturnRate =>
      if is_undefined (body_field b (js "returnRate")) then returnRate <$> base else given_rate b ReturnRate
  | _ => or_base (given_money b f) f base
  end.

(** a shipping fee that the body has, be it blank, is the one given, which may
    be none; *)
Definition settled_shipping (b : body) (base : option Costs) (f : shipping_field) : option dec :=
  if has_own b (shipping_name f) then given_shipping b f else (c ← base; get_shipping f c).

(** and the note is the one in force if the body has none, or else the one it
    gives; a blank note leaves the one of the rule of the day. *)
Definition settled_note (b : body) (base same : option Costs) : option str :=
  if is_undefined (body_field b (js "note")) then (c ← base; costNote c)
  else match optionalString (body_field b (js "note")) with
       | Some n => Some n
       | None => c ← same; costNote c
       end.

Record settled (b : body) (base same : option Costs) (r : CostRule) : Prop := {
  se_money f : holds_money f dec_zero (settled_money b base same f) r;
  se_shipping f : shipping_column (settled_shipping b base f) = Ok (get_shipping f (cr_costs r));
  se_note : costNote (cr_costs r) = settled_note b base same
}.

Lemma last_money_other f xs acc : (forall g d, SetMoney g d ∈ xs -> money_field_eqb f g = false) ->
  last_money f xs acc = acc.
Proof.
  revert acc. induction xs as [|x xs IH]; intros acc N; [done|]. 
  change (x :: xs) with ([x] ++ xs). rewrite last_money_app, IH by (intros g d I; eapply N; by apply list_elem_of_further).
  destruct x as [g d| | | |]; try done. unfold last_money. cbn [fold_left]. rewrite (N g d); [done|].
  apply list_elem_of_here.
Qed.

Lemma shipping_write_money b base f x g acc : shipping_write b base f = Ok x -> last_money g [x] acc = acc.
Proof.
  unfold shipping_write. destruct (has_own _ _); [|by intros [= <-]].
  destruct (nullableNonNegativeCostDecimalFromBody _ _); simpl; [|done]. by intros [= <-].
Qed.

Lemma provided_money {A} (k : A -> cost_write) x g acc :
  (forall a d h, k a = SetMoney h d -> money_field_eqb g h = false) -> last_money g (provided k x) acc = acc.
Proof.
  intros N. apply last_money_other. intros h d I. destruct x as [a|]; [|by apply elem_of_nil in I].
  apply list_elem_of_singleton in I. by eapply N.
Qed.

Lemma rate_given b f code d : rateDecimalFromBody (body_field b (money_name f)) code = Ok d -> given_rate b f = Some d.
Proof. unfold given_rate, rateDecimalFromBody. by destruct (_ || _ || _ || _) eqn:E; [|intros [= <-]]. Qed.

Lemma maybeCostRuleCreate_money b base data f : maybeCostRuleCreate b base = Ok (Some data) ->
  last_money f data None = settled_money b base None f.
Proof.
  unfold maybeCostRuleCreate. destruct (negb _); [done|]. intros E. let_steps. injection E as <-.
  assert (Lit : forall x y s h l acc, last_money f (SetMoney SalesFeeRate x :: SetMoney SalesFee y :: s :: h :: l) acc
    = last_money f l (last_money f [h] (last_money f [s] (last_money f [SetMoney SalesFeeRate x; SetMoney SalesFee y] acc))))
    by done.
  rewrite !last_money_app, Lit, !last_money_app.
  rewrite (provided_money SetCostNote), (provided_money SetCostFrom) by by intros.
  repeat match goal with
  | M : money_write _ _ _ = Ok ?xs |- context [last_money f ?xs ?acc] => rewrite (money_write_last _ _ _ _ f acc M)
  | M : shipping_write _ _ _ = Ok ?x |- context [last_money f [?x] ?acc] => rewrite (shipping_write_money _ _ _ _ f acc M)
  end.
  unfold settled_money, or_base. destruct f; cbn -[given_money provided]; try by repeat case_match.
  all: try (rewrite provided_money by (by intros ? ? ? [= <- <-]); by repeat case_match).
  destruct (is_undefined _).
  - simplify_eq/=. by destruct base.
  - destruct (rateDecimalFromBody _ _) as [d|] eqn:Er; simplify_eq/=.
    by rewrite (rate_given b ReturnRate _ _ Er).
Qed.

(** With costs in force every amount of the saved rule is known. *)
Lemma settled_known b c data : maybeCostRuleCreate b (Some c) = Ok (Some data) ->
  forall f, is_Some (settled_money b (Some c) None f).
Proof.
  unfold maybeCostRuleCreate. destruct (negb _); [done|]. intros E f. let_steps.
  unfold settled_money, or_base. destruct f; try (by eexists); try (by destruct (given_money b _); eexists).
  destruct (is_undefined _); [by eexists|].
  destruct (rateDecimalFromBody _ _) as [d|] eqn:Er; [|done]. rewrite (rate_given b ReturnRate _ _ Er). by eexists.
Qed.

Lemma provided_pick {A V} (pick : cost_write -> option V) (k : A -> cost_write) x :
  (forall a, pick (k a) = None) -> Forall (fun y => pick y = None) (provided k x).
Proof. intros N. destruct x as [a|]; simpl; [by constructor|constructor]. Qed.

Lemma money_write_pick {V} (pick : cost_write -> option V) b base f xs :
  (forall g d, pick (SetMoney g d) = None) -> money_write b base f = Ok xs -> Forall (fun y => pick y = None) xs.
Proof.
  intros N. unfold money_write. destruct (nonNegativeCostDecimalFromBody _ _) as [v|]; simpl; [|done].
  intros [= <-]. by apply provided_pick.
Qed.

Lemma shipping_write_pick b base f x : shipping_write b base f = Ok x -> x = SetShipping f (settled_shipping b base f).
Proof.
  unfold shipping_write, settled_shipping, given_shipping. destruct (has_own _ _); [|by intros [= <-]].
  destruct (nullableNonNegativeCostDecimalFromBody _ _); simpl; [|done]. by intros [= <-].
Qed.

Lemma maybeCostRuleCreate_others b base data : maybeCostRuleCreate b base = Ok (Some data) ->
  (forall f acc, last_pick (pick_shipping f) data acc = Some (settled_shipping b base f))
  /\ last_pick pick_note data None = if is_undefined (body_field b (js "note")) then costNote <$> base
                                     else Some <$> optionalString (body_field b (js "note")).
Proof.
  unfold maybeCostRuleCreate. destruct (negb _); [done|]. intros E. let_steps. injection E as <-.
  repeat match goal with
  | M : shipping_write _ _ _ = Ok ?x |- _ => apply shipping_write_pick in M as ->
  end.
  assert (Kp : forall V (pick : cost_write -> option V) f xs acc, (forall g d, pick (SetMoney g d) = None) ->
    money_write b base f = Ok xs -> last_pick pick xs acc = acc).
  { intros V pick f xs acc N M. apply last_pick_none. by eapply money_write_pick. }
  assert (Kq : forall V (pick : cost_write -> option V) A (k : A -> cost_write) x acc, (forall a, pick (k a) = None) ->
    last_pick pick (provided k x) acc = acc).
  { intros V pick A k x acc N. by apply last_pick_none, provided_pick. }
  assert (Lit : forall V (pick : cost_write -> option V) x y s h l acc, last_pick pick (x :: y :: s :: h :: l) acc
    = last_pick pick l (last_pick pick [x; y; s; h] acc)) by done.
  split.
  - intros f acc. rewrite !last_pick_app, Lit, !last_pick_app, (Kq _ _ _ SetCostNote), (Kq _ _ _ SetCostFrom), (Kq _ _ _ (SetMoney ReturnRate)) by done.
    repeat match goal with
    | M : money_write _ _ _ = Ok ?xs |- context [last_pick ?p ?xs ?acc] => rewrite (Kp _ p _ xs acc (fun _ _ => eq_refl) M)
    end. by destruct f.
  - rewrite !last_pick_app, Lit, !last_pick_app, (Kq _ _ _ SetCostFrom), (Kq _ _ _ (SetMoney ReturnRate)) by done.
    repeat match goal with
    | M : money_write _ _ _ = Ok ?xs |- context [last_pick ?p ?xs ?acc] => rewrite (Kp _ p _ xs acc (fun _ _ => eq_refl) M)
    end. destruct (is_undefined (body_field b (js "note"))); [by destruct base|by destruct (optionalString _)].
Qed.

(** ** Saving the costs of a day *)

Record saved (p : str) (b : body) (w : Db) (c : CostRuleChange) (w' : Db) : Prop := {
  sv_from : requiredDateFromBody (body_field b (js "effectiveFrom")) = Ok (cr_effectiveFrom (changedRule c));
  sv_change : cost_change p None (cr_effectiveFrom (changedRule c)) (cr_costs (changedRule c)) w w';
  sv_operation : operation c = UPDATED_SAME_DATE
                 <-> is_Some (cost_history w p !! cr_effectiveFrom (changedRule c));
  sv_ends : cr_effectiveTo (changedRule c)
    = (fun d => d - msPerDay) <$> next_start (first_days (cost_history w p)) (cr_effectiveFrom (changedRule c));
  sv_next : nextRuleEffectiveFrom c
    = formatDateOnly <$> next_start (first_days (cost_history w p)) (cr_effectiveFrom (changedRule c));
  sv_row : changedRule c ∈ costRules w' /\ cr_productId (changedRule c) = p;
  sv_settled : settled b (in_force (cost_history w p) (cr_effectiveFrom (changedRule c)))
    (cost_history w p !! cr_effectiveFrom (changedRule c)) (changedRule c)
}.

Lemma DATE_PATTERN_truthy v d : requiredDateFromBody v = Ok d -> boolean_of v = true.
Proof. destruct v as [| | | |s|]; try done. by destruct s. Qed.

Lemma default_money id p t f : get_money f (cr_costs (default_cost_rule id p t)) = dec_zero.
Proof. simpl. apply get_money_build. Qed.

Lemma create_cost_rule_table p data w r w' :
  cost_table [] w -> (forall d, whole_day d -> whole_day (start_after data d)) ->
  create_cost_rule uuid p data w = Ok (r, w') ->
  exists i t, write_costs (default_cost_rule i p t) data = Ok r /\ cr_productId r = p /\
    feeRules w' = feeRules w /\ r ∈ costRules w' /\ cost_table [p] w' /\
    forall q, cost_history w' q
      = if str_eqb q p then <[cr_effectiveFrom r := cr_costs r]> (cost_history w q) else cost_history w q.
Proof.
  intros T D F. unfold create_cost_rule, tx_draw in F. tx_steps. simplify_eq/=.
  pose proof (write_costs_keeps _ _ _ L) as (_ & Ep & _). simpl in Ep.
  apply (insert_cost_rule_table []) in F as (-> & Ef & Ir & T' & Eh); [|by destruct T; split|].
  - rewrite Ep in *. eauto 10.
  - rewrite (write_costs_start _ _ _ L). apply D. eexists. reflexivity.
Qed.

Lemma cost_by_id open w r : cost_table open w -> r ∈ costRules w -> row_by_id (cr_id r) (costRules w) = Some r.
Proof. intros T I. exact (row_by_id_in (costRules w) r (tb_ids _ _ _ T) I). Qed.

Lemma cost_history_row open w r : cost_table open w -> r ∈ costRules w ->
  cost_history w (cr_productId r) !! cr_effectiveFrom r = Some (cr_costs r).
Proof. intros T I. exact (hist_lookup cr_productId cr_costs open _ _ T I). Qed.

(** The row that was saved, the table it is in, and its history after the pass. *)
Lemma saved_row p r w w1 w' :
  cost_table [] w -> r ∈ costRules w1 -> cr_productId r = p -> cost_table [p] w1 ->
  cost_history w1 p = <[cr_effectiveFrom r := cr_costs r]> (cost_history w p) ->
  normalizeCoupangCostRuleRanges p w1 = Ok (tt, w') ->
  exists r', row_by_id (cr_id r) (costRules w') = Some r' /\ cr_costs r' = cr_costs r /\
    cr_productId r' = p /\ cr_effectiveFrom r' = cr_effectiveFrom r /\ r' ∈ costRules w' /\
    cr_effectiveTo r'
    = (fun d => d - msPerDay) <$> next_start (first_days (cost_history w p)) (cr_effectiveFrom r).
Proof.
  intros T I Ep T1 Eh N. destruct (normalize_cost_rules_table [] p w1 T1) as (w2 & N' & T2 & _ & _ & Ec).
  rewrite N' in N. injection N as <-.
  assert (B : row_by_id (cr_id r) (costRules w2)
    = Some (rl_ending (target (starts (of_owner cr_productId p (costRules w1))) r) r)).
  { rewrite Ec, closed_by_id. rewrite (cost_by_id _ _ _ T1 I). simpl. rewrite Ep. unfold str_eqb. by rewrite bool_decide_eq_true_2. }
  eexists. split; [exact B|]. apply row_by_id_Some in B as [B _]. do 4 (split; [done|]). simpl. unfold target.
  f_equal. apply next_start_after. intros x Lx. simpl in Lx.
  pose proof (history_starts cr_costs (of_owner cr_productId p (costRules w1)) x) as P1.
  change (history cr_costs (of_owner cr_productId p (costRules w1))) with (cost_history w1 p) in P1.
  rewrite Eh, lookup_insert_ne in P1 by lia. rewrite <- P1. unfold first_days. by rewrite elem_of_starts.
Qed.

(** The statement that writes the rule of a day, before the pass. *)
Record written (p : str) (b : body) (d : Z) (w : Db) (r : CostRule) (w' : Db) : Prop := {
  wr_fees : feeRules w' = feeRules w;
  wr_start : cr_effectiveFrom r = d;
  wr_product : cr_productId r = p;
  wr_row : r ∈ costRules w';
  wr_table : cost_table [p] w';
  wr_history q : cost_history w' q = if str_eqb q p then <[d := cr_costs r]> (cost_history w q) else cost_history w q;
  wr_settled : settled b (in_force (cost_history w p) d) (cost_history w p !! d) r
}.

Lemma settled_costs b base same r r' : cr_costs r' = cr_costs r -> settled b base same r -> settled b base same r'.
Proof. intros E [M S N]. split; unfold holds_money in *; rewrite E; done. Qed.

Lemma write_update p b d x data w r w' : cost_table [] w -> whole_day d ->
  x ∈ costRules w -> cr_productId x = p -> cr_effectiveFrom x = d ->
  maybeCostRuleCreate b (in_force (cost_history w p) d) = Ok (Some data) -> (forall d', start_after data d' = d) ->
  update_cost_rule (cr_id x)
    (data ++ [SetMoney SalesFeeRate (salesFeeRate (cr_costs x)); SetMoney SalesFee (salesFeeKrw (cr_costs x))]) w
  = Ok (r, w') -> written p b d w r w'.
Proof.
  intros T Wd Ix Ex Ef L Fs (x' & Hx & Hw & Hf & Hr & Ht & Hh)%(update_cost_rule_table []); [|done].
  rewrite (cost_by_id _ _ _ T Ix) in Hx. injection Hx as <-.
  pose proof (write_costs_keeps _ _ _ Hw) as (Ki & Kp & _). pose proof (write_costs_start _ _ _ Hw) as Ks.
  rewrite start_after_app, Fs in Ks. cbn in Ks. rewrite Ks in *. rewrite Ex in *.
  split; [done..| | | |].
  - rewrite Hr. apply (put_row_elem _ x); [done|done|by left].
  - by apply Ht.
  - intros q. rewrite Hh. case_match; [|done]. by rewrite Ef, insert_delete_eq.
  - assert (Bs : cost_history w p !! d = Some (cr_costs x)).
    { rewrite <- Ef, <- Ex. by apply (cost_history_row []). }
    assert (Bx : in_force (cost_history w p) d = Some (cr_costs x)) by by apply in_force_here.
    destruct (maybeCostRuleCreate_others b _ data L) as [Os On]. rewrite Bx in *. rewrite Bs. split.
    + intros f. pose proof (write_costs_money f (get_money f (cr_costs x)) _ None _ _ Hw eq_refl) as M.
      rewrite last_money_app, (maybeCostRuleCreate_money b _ data f L) in M.
      destruct (settled_known b _ data L f) as [v Ev]. rewrite Ev in M. revert Ev M.
      destruct f; cbn -[given_money given_rate] in *; try done; intros ->; done.
    + intros f. pose proof (write_costs_pick _ _ _ (get_shipping f (cr_costs x)) _ None _ _ (write_shipping f) Hw eq_refl) as M.
      by rewrite last_pick_app, Os in M.
    + pose proof (write_costs_pick _ Ok costNote (costNote (cr_costs x)) _ None _ _ write_note Hw eq_refl) as M.
      rewrite last_pick_app, On in M. unfold settled_note. cbn in M.
      destruct (is_undefined _); [|destruct (optionalString _)]; cbn in M |- *; congruence.
Qed.

Lemma write_create p b d data w r w' : cost_table [] w -> whole_day d -> cost_history w p !! d = None ->
  maybeCostRuleCreate b (in_force (cost_history w p) d) = Ok (Some data) -> (forall d', start_after data d' = d) ->
  create_cost_rule uuid p data w = Ok (r, w') -> written p b d w r w'.
Proof.
  intros T Wd Ns L Fs (i & t & Hw & Kp & Hf & Ir & Ht & Hh)%create_cost_rule_table; [|done|by intros; rewrite Fs].
  pose proof (write_costs_start _ _ _ Hw) as Ks. rewrite Fs in Ks. rewrite Ks in *. split; [done..|].
  destruct (maybeCostRuleCreate_others b _ data L) as [Os On]. rewrite Ns. split.
  - intros f. pose proof (write_costs_money f dec_zero _ None _ _ Hw) as M.
    rewrite (maybeCostRuleCreate_money b _ data f L) in M. apply M, default_money.
  - intros f. pose proof (write_costs_pick _ _ _ None _ None _ _ (write_shipping f) Hw) as M.
    rewrite Os in M. apply M. cbn. apply get_shipping_build.
  - pose proof (write_costs_pick _ Ok costNote None _ None _ _ write_note Hw eq_refl) as M.
    rewrite On in M. unfold settled_note. cbn in M.
    destruct (is_undefined _); [destruct (in_force _ _)|destruct (optionalString _)]; cbn in M |- *; congruence.
Qed.

(** The rule of the day, or the one before it, has the costs in force. *)
Lemma base_in_force p d w r0 r1 : cost_table [] w ->
  match r0 with
  | Some x => x ∈ costRules w /\ cr_productId x = p /\ cr_effectiveFrom x = d
  | None => True
  end -> cr_costs <$> r1 = in_force (cost_history w p) d ->
  cr_costs <$> match r0 with Some r => Some r | None => r1 end = in_force (cost_history w p) d.
Proof.
  intros T P E. destruct r0 as [x|]; [|done]. destruct P as (Ix & Ex & Ef). symmetry. apply in_force_here.
  rewrite <- Ef, <- Ex. by apply (cost_history_row []).
Qed.

Lemma known_start p d w r0 : cost_table [] w ->
  match r0 with
  | Some x => x ∈ costRules w /\ cr_productId x = p /\ cr_effectiveFrom x = d
  | None => forall x, x ∈ costRules w -> cr_productId x = p -> cr_effectiveFrom x <> d
  end -> is_Some_b r0 = true <-> is_Some (cost_history w p !! d).
Proof.
  intros T P. destruct r0 as [x|].
  - destruct P as (Ix & Ex & Ef). split; [|done]. intros _. exists (cr_costs x). rewrite <- Ef, <- Ex.
    by apply (cost_history_row []).
  - split; [done|]. intros [v (r & Hr & Ho & Hd & _)%(hist_Some cr_productId cr_costs [])]; [|apply T].
    by destruct (P r Hr Ho).
Qed.

Lemma save_cost_rule_spec p b w c w' : cost_table [] w ->
  save_cost_rule uuid p b w = Ok (c, w') -> saved p b w c w'.
Proof.
  intros T F. unfold save_cost_rule in F. tx_first F as d w0 L. apply tx_lift_inv in L as [L <-].
  tx_first F as same w1 E. destruct (starting_on_spec p d w same w1 E) as [-> P].
  tx_first F as before w2 E0. destruct (at_or_before_spec p d w before w2 T E0) as [-> P0].
  tx_first F as data w3 L0. apply tx_lift_inv in L0 as [L0 <-].
  rewrite (base_in_force p d w same before T) in L0; [|by destruct same|done]. destruct data as [data|]; [|done].
  pose proof (fun d' => maybeCostRuleCreate_start b _ data d' L0) as St.
  rewrite (DATE_PATTERN_truthy _ _ L), L in St.
  assert (Fs : forall d', start_after data d' = d) by (intros d'; specialize (St d'); congruence). clear St.
  pose proof (requiredDate_whole _ _ L) as Wd. pose proof (known_start p d w same T P) as Eo.
  tx_first F as r w2 E1. assert (G : written p b d w r w2).
  { destruct same as [x|].
    - destruct P as (Ix & Ex & Ef). by eapply write_update.
    - eapply write_create; try done. destruct (cost_history w p !! d) as [v|] eqn:Hd; [|done].
      by assert (is_Some_b (None : option CostRule) = true) by (apply Eo; by exists v). }
  clear P P0 E E0 E1. destruct G as [Ef Es Ep Ir T2 Eh Em].
  assert (Ehp : cost_history w2 p = <[cr_effectiveFrom r := cr_costs r]> (cost_history w p)).
  { rewrite Eh, Es. unfold str_eqb. by rewrite bool_decide_eq_true_2. }
  tx_first F as [] w3 E2. destruct (saved_row p r w w2 w3 T Ir Ep T2 Ehp E2) as (r' & Br & Kc & Kp & Kf & Ir' & Kt).
  destruct (normalize_cost_rules_table [] p w2 T2) as (w3' & N & T3 & Ef3 & Eh3 & _).
  rewrite N in E2. injection E2 as <-.
  tx_first F as r1 w4 E3. unfold findUniqueOrThrow, find_cost_rule in E3. tx_first E3 as o w5 E4.
  injection E4 as <- <-. rewrite Br in E3. injection E3 as <- <-.
  tx_first F as after w5 E4. destruct (following_spec p d w3' after w5 E4 T3) as [-> Ln].
  injection F as <- <-. rewrite Es in *.
  split; cbn [changedRule operation nextRuleEffectiveFrom]; rewrite ?Kf, ?Kc; [done| | |done| |done|].
  - split; [done|congruence|by rewrite Eh3|]. intros q Nq. rewrite Eh3, Eh. unfold str_eqb.
    by rewrite bool_decide_eq_false_2.
  - rewrite <- Eo. by destruct (is_Some_b same).
  - replace (next_start _ d) with (cr_effectiveFrom <$> after); [by destruct after|]. rewrite Ln.
    apply next_start_after. intros x Lx. unfold first_days. rewrite !elem_of_starts, Eh3, Ehp.
    by rewrite lookup_insert_ne by lia.
  - by apply (settled_costs b _ _ r).
Qed.

(** ** A correction *)

Definition starts_in (xs : list cost_write) : list Z :=
  flat_map (fun x => match x with SetCostFrom d => [d] | _ => [] end) xs.

Lemma starts_in_app xs ys : starts_in (xs ++ ys) = starts_in xs ++ starts_in ys.
Proof. apply flat_map_app. Qed.

Lemma start_after_starts xs d : start_after xs d = fold_left (fun _ d' => d') (starts_in xs) d.
Proof.
  revert d. induction xs as [|x xs IH]; intros d; [done|]. unfold start_after. cbn [fold_left].
  fold (start_after xs). change (x :: xs) with ([x] ++ xs). rewrite starts_in_app, fold_left_app.
  rewrite <- IH. by destruct x.
Qed.

Definition no_start (data : list (str * list cost_write)) : Prop := starts_in (flat_map snd data) = [].

Lemma no_start_app a b : no_start a -> no_start b -> no_start (a ++ b).
Proof. unfold no_start. intros A B. by rewrite flat_map_app, starts_in_app, A, B. Qed.

Lemma result_map_no_start {A} (g : A -> result (list (str * list cost_write))) fs l :
  (forall f x, g f = Ok x -> no_start x) -> result_map g fs = Ok l -> no_start (concat l).
Proof.
  intros N. revert l. induction fs as [|f fs IH]; intros l; cbn [result_map]; [by intros [= <-]|].
  destruct (g f) as [x|] eqn:E; [|done]. cbn [result_bind]. destruct (result_map g fs) as [y|]; [|done].
  intros [= <-]. apply no_start_app; [by eapply N|by apply IH].
Qed.

Lemma correct_money_no_start b f x : correct_money b f = Ok x -> no_start x.
Proof.
  unfold correct_money. destruct (has_own _ _); [|by intros [= <-]].
  destruct (nonNegativeCostDecimalFromBody _ _) as [o|]; [|done]. intros [= <-]. by destruct o.
Qed.

Lemma correct_shipping_no_start b f x : correct_shipping b f = Ok x -> no_start x.
Proof.
  unfold correct_shipping. destruct (has_own _ _); [|by intros [= <-]].
  destruct (nullableNonNegativeCostDecimalFromBody _ _) as [o|]; [|done]. by intros [= <-].
Qed.

Lemma correct_rate_no_start b f c x : correct_rate b f c = Ok x -> no_start x.
Proof.
  unfold correct_rate. destruct (has_own _ _); [|by intros [= <-]].
  destruct (rateDecimalFromBody _ _) as [o|]; [|done]. by intros [= <-].
Qed.

(** At most one write of a correction sets the first day. *)
Lemma correction_start b data : correction_data b = Ok data ->
  starts_in (flat_map snd data) = []
  \/ exists d, starts_in (flat_map snd data) = [d] /\ requiredDateFromBody (body_field b (js "effectiveFrom")) = Ok d.
Proof.
  unfold correction_data. intros E. let_steps. injection E as <-.
  match goal with M : result_map (correct_money b) _ = Ok ?l |- _ =>
    pose proof (result_map_no_start _ _ _ (correct_money_no_start b) M) as N1 end.
  match goal with M : result_map (correct_shipping b) _ = Ok ?l |- _ =>
    pose proof (result_map_no_start _ _ _ (correct_shipping_no_start b) M) as N2 end.
  repeat match goal with M : correct_rate _ _ _ = Ok _ |- _ => apply correct_rate_no_start in M end.
  unfold no_start in *. rewrite !flat_map_app, !starts_in_app, N1, N2.
  repeat match goal with M : starts_in _ = [] |- _ => rewrite M; clear M end. cbn [app].
  assert (Nn : starts_in (flat_map snd (if has_own b (js "note")
    then [(js "note", provided SetCostNote (optionalNullableString (body_field b (js "note"))))] else [])) = []).
  { destruct (has_own b (js "note")); [|done]. by destruct (optionalNullableString _). }
  rewrite Nn, app_nil_r. destruct (has_own b (js "effectiveFrom")).
  - destruct (requiredDateFromBody _) as [d|]; [|done]. simplify_eq/=. right. by exists d.
  - simplify_eq/=. by left.
Qed.

Lemma new_start_starts data : new_start data = head (starts_in (flat_map snd data)).
Proof. done. Qed.

(** What a correction writes: of the amounts that the body names, those it
    gives; a blank amount is left alone, a blank shipping fee is cleared. *)
Definition named_money (b : body) (f : money_field) : option dec :=
  if has_own b (money_name f) then
    match f with SalesFeeRate | ReturnRate => given_rate b f | _ => given_money b f end
  else None.

Definition named_shipping (b : body) (f : shipping_field) : option (option dec) :=
  if has_own b (shipping_name f) then Some (given_shipping b f) else None.

Definition named_note (b : body) : option (option str) :=
  if has_own b (js "note") then optionalNullableString (body_field b (js "note")) else None.

(** The costs after a correction. *)
Record amended (b : body) (old r : CostRule) : Prop := {
  am_money f : holds_money f (get_money f (cr_costs old)) (named_money b f) r;
  am_shipping f : holds_pick shipping_column (get_shipping f) (get_shipping f (cr_costs old)) (named_shipping b f) r;
  am_note : costNote (cr_costs r) = named_note b ?? costNote (cr_costs old)
}.

(** A request that corrects the rule [i] of the product [p]. *)
Record corrected (p i : str) (b : body) (w : Db) (r : CostRule) (w' : Db) : Prop := {
  co_old : exists old data, row_by_id i (costRules w) = Some old /\ cr_productId old = p /\
    correction_data b = Ok data /\ cr_effectiveFrom r = new_start data ?? cr_effectiveFrom old /\
    cost_change p (Some (cr_effectiveFrom old)) (cr_effectiveFrom r) (cr_costs r) w w' /\
    amended b old r;
  co_row : r ∈ costRules w' /\ cr_id r = i /\ cr_productId r = p
}.

Lemma tx_rethrow_inv {A} f (m : TX Db A) w a w' : tx_rethrow f m w = Ok (a, w') -> m w = Ok (a, w').
Proof. unfold tx_rethrow. by destruct (m w). Qed.

(** ** Statements that leave the rules alone *)

Lemma same_rules_of w w' : costRules w' = costRules w -> feeRules w' = feeRules w ->
  product_ids w' = product_ids w -> same_rules w w'.
Proof. intros C F P. split; [done..|by rewrite P]. Qed.

Lemma draw_same : respects same_rules (tx_draw (H0 := H0)).
Proof. by intros w a w' [= <- <-]. Qed.

Lemma write_audit_same e : respects same_rules (write_audit e).
Proof.
  intros w a w'. unfold write_audit. destruct (securityAuditData e); [|done]. cbn [result_bind].
  case_match; [|done]. by intros [= <- <-].
Qed.

Lemma audit_same a act kind t x y : respects same_rules (audit a act kind t x y).
Proof. unfold audit. destruct a; [apply write_audit_same|apply respects_ret, _]. Qed.

Lemma put_product_ids p' l : map pr_id (put_product p' l) = map pr_id l.
Proof.
  unfold put_product. rewrite map_map. apply map_ext. intros p. unfold str_eqb. by case_bool_decide.
Qed.

Lemma update_product_same i data : respects same_rules (update_product i data).
Proof.
  intros w a w'. unfold update_product. destruct (List.find _ _); [|done]. case_match; [done|].
  intros [= <- <-]. apply same_rules_of; [done..|]. apply put_product_ids.
Qed.

Lemma insert_product_same p : respects same_rules (insert_product p).
Proof.
  intros w a w'. unfold insert_product. case_match; [done|]. case_match; [done|]. intros [= <- <-].
  split; [done..|]. unfold product_ids. simpl. rewrite map_app. set_solver.
Qed.

Lemma product_group_same g : respects same_rules (assertProductGroup g).
Proof. unfold assertProductGroup. respect. Qed.

Lemma assertProduct_same i : respects same_rules (assertProduct i).
Proof. unfold assertProduct, find_product. respect. Qed.

Lemma setting_data_same b : respects same_rules (buildCoupangProductSettingUpdateData b).
Proof.
  unfold buildCoupangProductSettingUpdateData. respect.
Qed.

Lemma set_mapping_same l w : same_rules w (set_mappingRules l w).
Proof. by apply same_rules_of. Qed.

Lemma primary_rule_same p b : respects same_rules (upsertPrimaryCoupangProductRule uuid p b).
Proof.
  unfold upsertPrimaryCoupangProductRule. respect; try apply draw_same;
    try (intros w a' w' [= <- <-]; apply set_mapping_same).
Qed.

#[local] Hint Resolve draw_same write_audit_same audit_same update_product_same insert_product_same
  assertProduct_same setting_data_same primary_rule_same : respects.

(** Move a fact along transactions that leave the rules alone. *)
Lemma same_cost_table open w w' : same_rules w w' -> cost_table open w -> cost_table open w'.
Proof. intros [Ec Ef P] [C O]. split; rewrite ?Ec; auto. Qed.

Lemma cost_change_same p o d v w0 w w' w1 : same_rules w0 w -> same_rules w' w1 ->
  cost_change p o d v w w' -> cost_change p o d v w0 w1.
Proof.
  intros S S' [T F C O]. unfold cost_history in *. split.
  - by eapply same_cost_table.
  - rewrite (sr_fees _ _ S'), F. apply S.
  - unfold cost_history. rewrite (sr_costs _ _ S'), C. by rewrite (sr_costs _ _ S).
  - intros q Nq. unfold cost_history. rewrite (sr_costs _ _ S'), (O q Nq). by rewrite (sr_costs _ _ S).
Qed.

Lemma cost_change_invariant p o d v w w' : cost_change p o d v w w' -> rules_invariant w -> rules_invariant w'.
Proof. intros [T F _ _] [_ I]. split; [done|]. unfold fee_table. by rewrite F. Qed.

Lemma saved_same p b w0 w c w' w1 : same_rules w0 w -> same_rules w' w1 -> saved p b w c w' -> saved p b w0 c w1.
Proof.
  intros S S' [F C O E N R M]. assert (Eh : cost_history w0 p = cost_history w p)
    by (unfold cost_history; by rewrite (sr_costs _ _ S)).
  split; rewrite ?Eh; try done; [by eapply cost_change_same|]. by rewrite (sr_costs _ _ S').
Qed.

Lemma cost_start_whole open w r : cost_table open w -> r ∈ costRules w -> whole_day (cr_effectiveFrom r).
Proof.
  intros T I. pose proof (tb_days _ _ _ T) as D. rewrite Forall_forall in D. apply D.
  exact (list_elem_of_fmap_2 rl_from _ _ I).
Qed.

Lemma following_world p d e (w : Db) r w' : following_rule p d e w = Ok (r, w') -> w' = w.
Proof. by intros [= _ <-]. Qed.

Definition override {A} (x acc : option A) : option A := match x with Some _ => x | None => acc end.

Abbreviation writes data := (flat_map (@snd str (list cost_write)) data).

Lemma correct_money_last b g x f acc : match g with SalesFeeRate | ReturnRate => False | _ => True end ->
  correct_money b g = Ok x ->
  last_money f (writes x) acc = if money_field_eqb f g then override (named_money b g) acc else acc.
Proof.
  intros P. unfold correct_money, named_money, given_money. destruct (has_own _ _).
  - destruct (nonNegativeCostDecimalFromBody _ _) as [v|]; simpl; [|done]. intros [= <-].
    destruct g, v; simpl; try done; by destruct (money_field_eqb f _).
  - intros [= <-]. by destruct (money_field_eqb f g).
Qed.

Lemma correct_rate_last b g code x f acc : match g with SalesFeeRate | ReturnRate => True | _ => False end ->
  correct_rate b g code = Ok x ->
  last_money f (writes x) acc = if money_field_eqb f g then override (named_money b g) acc else acc.
Proof.
  intros P. unfold correct_rate, named_money. destruct (has_own _ _).
  - destruct (rateDecimalFromBody _ _) as [v|] eqn:Er; simpl; [|done]. intros [= <-].
    apply rate_given in Er. destruct g; try done; rewrite Er; simpl; by destruct (money_field_eqb f _).
  - intros [= <-]. by destruct (money_field_eqb f g).
Qed.

Lemma correct_shipping_writes b g x : correct_shipping b g = Ok x ->
  writes x = match named_shipping b g with Some d => [SetShipping g d] | None => [] end.
Proof.
  unfold correct_shipping, named_shipping, given_shipping. destruct (has_own _ _); [|by intros [= <-]].
  destruct (nullableNonNegativeCostDecimalFromBody _ _); simpl; [|done]. by intros [= <-].
Qed.

(** No amount is written by the parts for another kind of column. *)
Definition silent {V} (pick : cost_write -> option V) (data : list (str * list cost_write)) : Prop :=
  Forall (fun x => pick x = None) (writes data).

Lemma correct_money_silent {V} (pick : cost_write -> option V) b g x :
  (forall f d, pick (SetMoney f d) = None) -> correct_money b g = Ok x -> silent pick x.
Proof.
  intros N. unfold correct_money, silent. destruct (has_own _ _); [|intros [= <-]; constructor].
  destruct (nonNegativeCostDecimalFromBody _ _) as [[d|]|]; simpl; [| |done]; intros E; injection E as <-; simpl;
    [by constructor|constructor].
Qed.

Lemma correct_rate_silent {V} (pick : cost_write -> option V) b g code x :
  (forall f d, pick (SetMoney f d) = None) -> correct_rate b g code = Ok x -> silent pick x.
Proof.
  intros N. unfold correct_rate, silent. destruct (has_own _ _); [|intros [= <-]; constructor].
  destruct (rateDecimalFromBody _ _) as [d|]; simpl; [|done]. intros [= <-]. by constructor.
Qed.

Lemma last_money_silent f (xs : list cost_write) acc :
  Forall (fun x => match x with SetMoney _ _ => False | _ => True end) xs -> last_money f xs acc = acc.
Proof.
  intros F. apply last_money_other. intros g d I. rewrite Forall_forall in F. by apply F in I.
Qed.

Lemma result_map_cons {A B} (g : A -> result B) x xs l : result_map g (x :: xs) = Ok l ->
  exists y ys, g x = Ok y /\ result_map g xs = Ok ys /\ l = y :: ys.
Proof.
  cbn [result_map]. destruct (g x) as [y|]; [|done]. destruct (result_map g xs) as [ys|]; [|done].
  intros [= <-]. eauto.
Qed.

Lemma writes_app x y : writes (x ++ y) = writes x ++ writes y.
Proof. apply flat_map_app. Qed.

Lemma correct_moneys_last b fs l f acc :
  Forall (fun g => match g with SalesFeeRate | ReturnRate => False | _ => True end) fs ->
  result_map (correct_money b) fs = Ok l ->
  last_money f (writes (concat l)) acc
  = if existsb (money_field_eqb f) fs then override (named_money b f) acc else acc.
Proof.
  revert l acc. induction fs as [|g fs IH]; intros l acc; [by intros _ [= <-]|].
  intros [Pg P]%Forall_cons (y & ys & Ey & Eys & ->)%result_map_cons. cbn [concat existsb].
  rewrite writes_app, last_money_app, (correct_money_last b g y f acc Pg Ey), (IH ys _ P Eys).
  destruct (money_field_eqb f g) eqn:Eg; [|done]. apply money_field_eqb_eq in Eg as ->.
  by destruct (existsb _ fs), (named_money b g).
Qed.

Lemma result_map_silent {A V} (pick : cost_write -> option V) (g : A -> result (list (str * list cost_write))) fs l :
  (forall f x, g f = Ok x -> silent pick x) -> result_map g fs = Ok l -> silent pick (concat l).
Proof.
  intros N. revert l. induction fs as [|f fs IH]; intros l; [intros [= <-]; constructor|].
  intros (y & ys & Ey & Eys & ->)%result_map_cons. unfold silent. cbn [concat]. rewrite writes_app.
  apply Forall_app. split; [by eapply N|by apply IH].
Qed.

(** The parts of the data of a correction. *)
Lemma correction_parts b data : correction_data b = Ok data ->
  exists money fee rate from note,
    data = money ++ (concat (map (fun g => match named_shipping b g with Some d => [(shipping_name g, [SetShipping g d])] | None => [] end)
                             [SellerShippingFee; HanaroShippingFee]) ++ fee ++ rate ++ from ++ note)
    /\ (forall f acc, last_money f (writes money) acc
         = if existsb (money_field_eqb f) correction_money then override (named_money b f) acc else acc)
    /\ (forall V (pick : cost_write -> option V), (forall f d, pick (SetMoney f d) = None) ->
         silent pick money /\ silent pick fee /\ silent pick rate)
    /\ correct_rate b SalesFeeRate "INVALID_SALES_FEE_RATE" = Ok fee
    /\ correct_rate b ReturnRate "INVALID_RETURN_RATE" = Ok rate
    /\ (exists d, writes from = match d with Some d => [SetCostFrom d] | None => [] end)
    /\ writes note = match named_note b with Some n => [SetCostNote n] | None => [] end.
Proof.
  unfold correction_data. intros E. let_steps. injection E as <-.
  match goal with M : result_map (correct_money b) _ = Ok ?l, S : result_map (correct_shipping b) _ = Ok ?sh,
    R1 : correct_rate b SalesFeeRate _ = Ok ?fee, R2 : correct_rate b ReturnRate _ = Ok ?rate,
    Q : (if has_own b (js "effectiveFrom") then _ else _) = Ok ?from |- _ =>
    eexists (concat l), fee, rate, from, _; rename M into Em; rename S into Esh; rename R1 into Ef; rename R2 into Er;
    rename Q into Eq end.
  apply result_map_cons in Esh as (y & ys & Ey & Esh & ->).
  apply result_map_cons in Esh as (z & zs & Ez & [= <-] & ->).
  assert (Sh : forall g x, correct_shipping b g = Ok x ->
    x = match named_shipping b g with Some d => [(shipping_name g, [SetShipping g d])] | None => [] end).
  { intros g x. unfold correct_shipping, named_shipping, given_shipping. destruct (has_own b (shipping_name g)); [|by intros [= <-]].
    destruct (nullableNonNegativeCostDecimalFromBody (body_field b (shipping_name g)) _); simpl; congruence. }
  split; [by rewrite (Sh _ _ Ey), (Sh _ _ Ez)|]. split.
  { intros f acc. apply correct_moneys_last; [repeat constructor|done]. }
  split.
  { intros V pick N. split; [eapply result_map_silent; [|exact Em]; intros f x; by apply correct_money_silent|].
    split; by eapply correct_rate_silent. }
  split; [done|]. split; [done|]. split.
  - destruct (has_own b (js "effectiveFrom")); [|exists None; by injection Eq as <-].
    destruct (requiredDateFromBody _) as [d|]; [|done]. injection Eq as <-. by exists (Some d).
  - unfold named_note. destruct (has_own b (js "note")); [|done]. by destruct (optionalNullableString _).
Qed.

Lemma correction_last b data : correction_data b = Ok data ->
  (forall f, last_money f (writes data) None = named_money b f)
  /\ (forall f, last_pick (pick_shipping f) (writes data) None = named_shipping b f)
  /\ last_pick pick_note (writes data) None = named_note b.
Proof.
  intros (money & fee & rate & from & note & -> & Em & Si & Ef & Er & [d Hd] & En)%correction_parts.
  assert (Sp : writes (concat (map (fun g => match named_shipping b g with
      Some d => [(shipping_name g, [SetShipping g d])] | None => [] end) [SellerShippingFee; HanaroShippingFee]))
    = concat (map (fun g => match named_shipping b g with Some d => [SetShipping g d] | None => [] end)
        [SellerShippingFee; HanaroShippingFee])).
  { simpl. by destruct (named_shipping b SellerShippingFee), (named_shipping b HanaroShippingFee). }
  rewrite !writes_app, Sp, Hd, En. split; [|split].
  - intros f. rewrite !last_money_app, Em, (correct_rate_last _ ReturnRate _ _ f _ I Er),
      (correct_rate_last _ SalesFeeRate _ _ f _ I Ef).
    rewrite (last_money_silent f (match d with Some _ => _ | None => _ end)) by (destruct d; by repeat constructor).
    rewrite (last_money_silent f (match named_note b with Some _ => _ | None => _ end)) by (destruct (named_note b); by repeat constructor).
    rewrite (last_money_silent f (concat _)) by (simpl; repeat case_match; by repeat constructor).
    destruct f; simpl; unfold override; by repeat case_match.
  - intros f. destruct (Si _ (pick_shipping f)) as (S1 & S2 & S3); [done|].
    rewrite !last_pick_app, (last_pick_none _ (writes money)), (last_pick_none _ (writes fee)),
      (last_pick_none _ (writes rate)) by done.
    rewrite (last_pick_none _ (match d with Some _ => _ | None => _ end)) by (destruct d; by repeat constructor).
    rewrite (last_pick_none _ (match named_note b with Some _ => _ | None => _ end))
      by (destruct (named_note b); by repeat constructor).
    destruct f; simpl; destruct (named_shipping b SellerShippingFee), (named_shipping b HanaroShippingFee); done.
  - destruct (Si _ pick_note) as (S1 & S2 & S3); [done|].
    rewrite !last_pick_app, (last_pick_none _ (writes money)), (last_pick_none _ (writes fee)),
      (last_pick_none _ (writes rate)) by done.
    rewrite (last_pick_none _ (match d with Some _ => _ | None => _ end)) by (destruct d; by repeat constructor).
    rewrite (last_pick_none _ (concat _)) by (simpl; repeat case_match; by repeat constructor).
    by destruct (named_note b).
Qed.

Lemma correction_write p i b data ends w old r w' : cost_table [] w ->
  row_by_id i (costRules w) = Some old -> cr_productId old = p -> correction_data b = Ok data ->
  starts_in ends = [] ->
  Forall (fun x => match x with SetMoney _ _ | SetShipping _ _ | SetCostNote _ => False | _ => True end) ends ->
  update_cost_rule i (flat_map snd data ++ ends) w = Ok (r, w') ->
  cr_id r = i /\ cr_productId r = p /\ cr_effectiveFrom r = new_start data ?? cr_effectiveFrom old /\
  feeRules w' = feeRules w /\ r ∈ costRules w' /\ cost_table [p] w' /\
  (forall q, cost_history w' q
    = if str_eqb q p then <[cr_effectiveFrom r := cr_costs r]> (delete (cr_effectiveFrom old) (cost_history w q))
      else cost_history w q) /\ amended b old r.
Proof.
  intros T Eo <- L Es Em (old' & Ho & Hw & Hf & Hr & Ht & Hh)%(update_cost_rule_table []); [|done].
  rewrite Eo in Ho. injection Ho as <-. apply row_by_id_Some in Eo as [Io Ei].
  pose proof (write_costs_keeps _ _ _ Hw) as (Ki & Kp & _). pose proof (write_costs_start _ _ _ Hw) as Ks.
  rewrite start_after_app, (start_after_starts ends), Es, start_after_starts in Ks. cbn [fold_left] in Ks.
  split; [simpl in *; congruence|]. split; [done|]. split; [|split; [done|split]].
  - rewrite Ks, new_start_starts. by destruct (correction_start b data L) as [-> |(d' & -> & _)].
  - rewrite Hr. apply (put_row_elem _ old); [done|done|by left].
  - split; [|split; [done|]].
    + apply Ht. rewrite Ks. destruct (correction_start b data L) as [-> |(d' & -> & Hd')].
      * by apply (cost_start_whole [] w).
      * by apply (requiredDate_whole _ _ Hd').
    + destruct (correction_last b data L) as (L1 & L2 & L3).
      assert (Sl : forall V (pick : cost_write -> option V) acc,
        (forall d, pick (SetCostFrom d) = None) -> (forall d, pick (SetCostTo d) = None) -> last_pick pick ends acc = acc).
      { intros V pick acc N1 N2. apply last_pick_none. eapply Forall_impl; [exact Em|]. by intros []. }
      split.
      * intros f. pose proof (write_costs_money f (get_money f (cr_costs old)) _ None _ _ Hw eq_refl) as M.
        rewrite last_money_app, L1, last_money_silent in M; [done|]. eapply Forall_impl; [exact Em|]. by intros [].
      * intros f. pose proof (write_costs_pick _ _ _ (get_shipping f (cr_costs old)) _ None _ _ (write_shipping f) Hw eq_refl) as M.
        by rewrite last_pick_app, L2, Sl in M by (by destruct f).
      * pose proof (write_costs_pick _ Ok costNote (costNote (cr_costs old)) _ None _ _ write_note Hw eq_refl) as M.
        rewrite last_pick_app, L3, Sl in M by done. destruct (named_note b); cbn in M |- *; congruence.
Qed.

Lemma correction_spec p i b actor w r w' : cost_table [] w ->
  correction_transaction p i b actor w = Ok (r, w') -> corrected p i b w r w'.
Proof.
  intros T F. unfold correction_transaction in F.
  tx_first F as pr w0 E. assert (S0 : same_rules w w0) by (eapply assertProduct_same; exact E).
  tx_first F as old w1 E1. injection E1 as <- <-. destruct (row_by_id i (costRules w0)) as [old|] eqn:Eo; [|done].
  destruct (str_eqb (cr_productId old) p) eqn:Ep; [|done]. cbn [negb] in F. apply bool_decide_eq_true in Ep.
  tx_first F as data w1 L. apply tx_lift_inv in L as [L <-]. cbv zeta in F.
  tx_first F as dup w1 E1. injection E1 as Ed <-. destruct dup; [done|].
  destruct (match data with [] => true | _ => false end); [done|].
  tx_first F as ends w1 E1. assert (Ee : w1 = w0 /\ starts_in ends = [] /\ Forall (fun x => match x with
    SetMoney _ _ | SetShipping _ _ | SetCostNote _ => False | _ => True end) ends).
  { destruct (is_Some_b (new_start data)); tx_steps; [|by repeat split; constructor].
    match goal with Q : following_rule _ _ _ _ = _ |- _ => apply following_world in Q end.
    split; [done|]. split; [done|]. by constructor. }
  destruct Ee as (-> & Es & Em). tx_first F as r0 w1 E2.
  assert (T0 : cost_table [] w0) by by eapply same_cost_table.
  destruct (correction_write p i b data ends w0 old r0 w1 T0 Eo Ep L Es Em E2)
    as (Ki & Kp & Ks & Hf & Ir0 & T1 & Hh & Hm).
  tx_first F as [] w2 N. destruct (normalize_cost_rules_table [] p w1 T1) as (w2' & N' & T2 & Ef2 & Eh2 & Ec2).
  rewrite N' in N. injection N as <-.
  tx_first F as r1 w3 E3. unfold findUniqueOrThrow, find_cost_rule in E3. tx_first E3 as o w4 E4. injection E4 as <- <-.
  assert (Br : exists t, row_by_id i (costRules w2') = Some (rl_ending t r0)).
  { eexists. rewrite Ec2, closed_by_id. rewrite <- Ki, (cost_by_id _ _ _ T1 Ir0). simpl.
    rewrite Kp. unfold str_eqb. by rewrite bool_decide_eq_true_2. }
  destruct Br as [t Br]. rewrite Br in E3. injection E3 as <- <-.
  tx_first F as [] w5 E5. injection F as <- <-. assert (S5 : same_rules w2' w5) by (eapply audit_same; exact E5).
  split.
  - exists old, data. rewrite (sr_costs _ _ S0) in Eo. do 4 (split; [done|]).
    split; [|by destruct Hm as [M1 M2 M3]; split].
    eapply cost_change_same; [exact S0|exact S5|]. split; [done|congruence| |].
    + rewrite Eh2, Hh. unfold str_eqb. by rewrite bool_decide_eq_true_2.
    + intros q Nq. rewrite Eh2, Hh. unfold str_eqb. by rewrite bool_decide_eq_false_2.
  - apply row_by_id_Some in Br as [Ir Eri]. by rewrite (sr_costs _ _ S5).
Qed.

(** A request that sets up a product, with costs or without. *)
Lemma configuration_spec p b actor w res c w' : rules_invariant w ->
  configuration_transaction uuid p b actor w = Ok ((res, c), w') ->
  match c with
  | Some c => hasCoupangCostFields b = true /\ saved p b w c w'
  | None => hasCoupangCostFields b = false /\ same_rules w w'
  end.
Proof.
  intros [T _] F. unfold configuration_transaction in F.
  tx_first F as before w0 E0. tx_first F as data w1 E1. tx_first F as u w2 E2.
  assert (S : same_rules w w2).
  { transitivity w0; [by eapply assertProduct_same|]. transitivity w1; [by eapply setting_data_same|].
    destruct data; [by injection E2 as _ <-|]. tx_steps. by eapply update_product_same. }
  tx_first F as c0 w3 E3. tx_first F as u' w4 E4. tx_first F as up w5 E5. tx_first F as t w6 E6. injection E6 as _ <-.
  tx_first F as today w6 E6. apply tx_lift_inv in E6 as [_ <-]. tx_first F as res0 w6 E6. injection E6 as _ <-.
  tx_first F as [] w6 E6. injection F as _ <- <-.
  assert (S' : same_rules w3 w6).
  { transitivity w4; [by eapply primary_rule_same|]. transitivity w5; [by eapply assertProduct_same|].
    by eapply audit_same. }
  destruct (hasCoupangCostFields b); tx_steps.
  - split; [done|]. eapply saved_same; [exact S|exact S'|]. apply save_cost_rule_spec; [|done].
    by eapply same_cost_table.
  - split; [done|]. by transitivity w2; [|].
Qed.
End transactions.
