(* ===== verification/CoupangRollback.v ===== *)
(** * What the removal of an upload takes back

    Proofs about [CoupangCostUploads]: snapshots and provenance are read back
    as they were written, and taking back the rows of an upload in reverse
    order returns every cost rule to what it was before the import. *)

From Stdlib Require Import Sorting.Sorted.
From S2P Require Import Prelude JsNumber JsString JsDate.
From S2P Require Import DateNumber.
From S2P Require Import Concurrency.
From S2P Require Import Transactions.
From S2P Require Import RequestBody.
From S2P Require Import Timeline.
From S2P Require Import RuledTable.
From S2P Require Import RuledErasure.
From S2P Require Import CoupangPriceText.
From S2P Require Import CoupangMargin.
From S2P Require Import CoupangDb.
From S2P Require Import CoupangRules.
From S2P Require Import CoupangUploads.
From S2P Require Import CoupangCostUploads.
From S2P Require Import CoupangRulesSafety.

Local Open Scope Z_scope.

(** ** Dates and amounts read back *)

Section read_back.
Context `{Icu, DecimalLaws}.

(** The days whose text is read back. *)
Definition dated (d : Z) : Prop := whole_day d /\ 100 <= getUTCFullYear d <= 9999.

Definition starting (d : Z) : Prop := whole_day d /\ 101 <= getUTCFullYear d <= 9999.

Lemma starting_dated d : starting d -> dated d.
Proof. intros [W Y]. split; [done|lia]. Qed.

(** The day before a first day is read back too. *)
Lemma day_before d : starting d -> dated (d - msPerDay).
Proof.
  intros [[k ->] Y]. split; [exists (k - 1); unfold msPerDay; lia|].
  unfold getUTCFullYear, day in *. replace (k * msPerDay - msPerDay) with ((k - 1) * msPerDay) by (unfold msPerDay; lia).
  rewrite Z.div_mul in * by done.
  pose proof (year_from_day_spec k) as [L U]. set (y := year_from_day k) in *.
  pose proof (day_from_year_lt (y - 1) y ltac:(lia)).
  destruct (Z.lt_ge_cases (k - 1) (day_from_year y)) as [B|B].
  - rewrite (year_from_day_unique (y - 1) (k - 1)); [lia|]. replace (y - 1 + 1) with y by lia. lia.
  - rewrite (year_from_day_unique y (k - 1)); lia.
Qed.

Lemma ymd_text_shape y m d : 100 <= y < 10000 -> 0 <= m < 100 -> 0 <= d < 100 ->
  trim (ymd_text y m d) = ymd_text y m d /\ DATE_PATTERN (ymd_text y m d) = true.
Proof.
  intros Hy Hm Hd. unfold ymd_text. rewrite pad_4, !pad_2 by lia.
  assert (W : forall n, is_ws (digit n) = false) by (intros; apply is_digit_not_ws, is_digit_digit).
  change (js "-") with [45%N]. cbn [app]. split.
  - unfold trim. cbn [drop_ws]. rewrite W. cbn [rev app drop_ws]. rewrite W. done.
  - unfold DATE_PATTERN, split_on. cbn [split_on_go].
    assert (N : forall n, (digit n =? 45)%N = false).
    { intros n. pose proof (is_digit_digit n) as D. unfold is_digit in D. bool_simpl.
      destruct D as [L _]. rewrite N.leb_le in L. apply N.eqb_neq. lia. }
    rewrite !N, !N.eqb_refl. cbn [rev app]. unfold between, all_digits. cbn [List.length Nat.leb forallb].
    rewrite !is_digit_digit. done.
Qed.

Lemma date_reads_back d : dated d ->
  requiredDateFromBody (Text (formatDateOnly d)) = Ok d
  /\ isStrictDateOnlyText (Some (JStr (formatDateOnly d))) = true.
Proof.
  intros [W Y]. pose proof (civil_of_time d) as C. pose proof (civil_date_range _ _ _ C) as R.
  assert (M : 0 <= getUTCMonth d <= 11) by (destruct C; lia).
  pose proof (toDateOnly_formatDateOnly d Y) as T.
  assert (E : day d * msPerDay = d) by (unfold day; destruct W as [k ->]; by rewrite Z.div_mul).
  rewrite E in T.
  assert (F : formatDateOnly d = ymd_text (getUTCFullYear d) (getUTCMonth d + 1) (getUTCDate d))
    by (unfold formatDateOnly; rewrite iso_date_eq by lia; done).
  destruct (ymd_text_shape (getUTCFullYear d) (getUTCMonth d + 1) (getUTCDate d)) as [Tr P]; [lia..|].
  rewrite <- F in Tr, P. unfold requiredDateFromBody, isStrictDateOnlyText. by rewrite Tr, P, T.
Qed.

Lemma text_reads_back d : isFiniteDecimalText (Some (JStr (dec_text d))) = true.
Proof. unfold isFiniteDecimalText. by rewrite dec_text_not_blank, dec_of_text_text. Qed.

(** What the columns hold is what they would store. *)
Definition stored_costs (c : Costs) : Prop :=
  (forall f, money_column f (get_money f c) = Ok (get_money f c))
  /\ (forall f, shipping_column (get_shipping f c) = Ok (get_shipping f c)).

Definition stored_rule (r : CostRule) : Prop :=
  stored_costs (cr_costs r) /\ starting (cr_effectiveFrom r) /\ (forall d, cr_effectiveTo r = Some d -> dated d).

(** ** Snapshots *)

Lemma snapshot_money r f :
  snapshot_text (serializeCoupangCostRuleRollbackSnapshot r) (money_name f)
  = Some (dec_text (get_money f (cr_costs r))).
Proof. by destruct f. Qed.

Lemma snapshot_shipping r f :
  snapshot_text (serializeCoupangCostRuleRollbackSnapshot r) (shipping_name f)
  = dec_text <$> get_shipping f (cr_costs r).
Proof. by destruct f. Qed.

Lemma field_money r f :
  json_field (map (fun '(k, v) => (k, match v with Some t => JStr t | None => JNull end))
                (serializeCoupangCostRuleRollbackSnapshot r)) (money_name f)
  = Some (JStr (dec_text (get_money f (cr_costs r)))).
Proof. by destruct f. Qed.

Lemma field_shipping r f :
  json_field (map (fun '(k, v) => (k, match v with Some t => JStr t | None => JNull end))
                (serializeCoupangCostRuleRollbackSnapshot r)) (shipping_name f)
  = Some (nullable_text (dec_text <$> get_shipping f (cr_costs r))).
Proof. by destruct f. Qed.

Lemma field_others r :
  let o := map (fun '(k, v) => (k, match v with Some t => JStr t | None => JNull end))
             (serializeCoupangCostRuleRollbackSnapshot r) in
  json_field o (js "effectiveFrom") = Some (JStr (formatDateOnly (cr_effectiveFrom r)))
  /\ json_field o (js "effectiveTo") = Some (nullable_text (formatDateOnly <$> cr_effectiveTo r))
  /\ json_field o (js "note") = Some (nullable_text (costNote (cr_costs r))).
Proof. done. Qed.

Lemma json_text_nullable t : json_text (Some (nullable_text t)) = t.
Proof. by destruct t. Qed.

(** The snapshot of a rule is read back from the upload. *)
Lemma snapshot_reads_back r : stored_rule r ->
  parseCoupangCostRuleRollbackSnapshot (Some (snapshot_json (serializeCoupangCostRuleRollbackSnapshot r)))
  = Some (serializeCoupangCostRuleRollbackSnapshot r).
Proof.
  intros (_ & Df%starting_dated & Dt). unfold parseCoupangCostRuleRollbackSnapshot, snapshot_json.
  destruct (field_others r) as (Ff & Ft & Fn).
  set (o := map _ (serializeCoupangCostRuleRollbackSnapshot r)) in *.
  assert (M : forall l, forallb (fun f => isFiniteDecimalText (json_field o (money_name f))) l = true).
  { intros l. apply forallb_forall. intros f _. unfold o. rewrite field_money. apply text_reads_back. }
  assert (S : forall l, forallb (fun f => isNullableFiniteDecimalText (json_field o (shipping_name f))) l = true).
  { intros l. apply forallb_forall. intros f _. unfold o. rewrite field_shipping.
    destruct (get_shipping f (cr_costs r)); [|done]. simpl. rewrite dec_text_not_blank. by rewrite dec_of_text_text. }
  rewrite M, S, Ff, (proj2 (date_reads_back _ Df)), Ft, Fn. cbn [andb].
  replace (is_null _ || isStrictDateOnlyText _) with true.
  2:{ destruct (cr_effectiveTo r) as [t|] eqn:E; [|done]. symmetry. by apply date_reads_back, Dt. }
  replace (is_null _ || is_text _) with true by by destruct (costNote (cr_costs r)).
  cbn [andb]. f_equal.
  assert (Em : forall f, (money_name f, json_text (json_field o (money_name f)))
    = (money_name f, Some (dec_text (get_money f (cr_costs r))))) by (intros f; unfold o; by rewrite field_money).
  assert (Es : forall f, (shipping_name f, json_text (json_field o (shipping_name f)))
    = (shipping_name f, dec_text <$> get_shipping f (cr_costs r))).
  { intros f. unfold o. by rewrite field_shipping, json_text_nullable. }
  rewrite !map_app, !map_map. unfold serializeCoupangCostRuleRollbackSnapshot.
  do 3 (apply (f_equal2 (@app _)); [by apply map_ext|]).
  cbn [map]. by rewrite Ff, Ft, Fn, !json_text_nullable.
Qed.

Lemma result_map_ok {A B} (f : A -> result B) (g : A -> B) l : (forall x, x ∈ l -> f x = Ok (g x)) ->
  result_map f l = Ok (map g l).
Proof.
  induction l as [|x l IH]; intros E; [done|]. simpl. rewrite E by (by left). simpl. rewrite IH; [done|].
  intros y I. apply E. by right.
Qed.

(** The columns that a snapshot writes, and the row that they make. *)
Lemma snapshot_data r : stored_rule r ->
  deserializeCoupangCostRuleRollbackSnapshot (serializeCoupangCostRuleRollbackSnapshot r)
  = Ok (map (fun f => SetMoney f (get_money f (cr_costs r))) money_first
        ++ map (fun f => SetShipping f (get_shipping f (cr_costs r))) shipping_fields
        ++ map (fun f => SetMoney f (get_money f (cr_costs r))) money_last
        ++ [SetCostFrom (cr_effectiveFrom r); SetCostTo (cr_effectiveTo r); SetCostNote (costNote (cr_costs r))]).
Proof.
  intros (_ & Df%starting_dated & Dt). unfold deserializeCoupangCostRuleRollbackSnapshot.
  assert (M : forall l, result_map (fun f => let! d := decimal_of_text
      (snapshot_text (serializeCoupangCostRuleRollbackSnapshot r) (money_name f)) in Ok (SetMoney f d)) l
    = Ok (map (fun f => SetMoney f (get_money f (cr_costs r))) l)).
  { intros l. apply result_map_ok. intros f _. rewrite snapshot_money. unfold decimal_of_text. simpl.
    by rewrite dec_of_text_text. }
  rewrite !M. cbn [result_bind].
  rewrite (result_map_ok _ (fun f => SetShipping f (get_shipping f (cr_costs r)))).
  2:{ intros f _. rewrite snapshot_shipping. destruct (get_shipping f (cr_costs r)); [|done]. simpl.
      unfold decimal_of_text. simpl. by rewrite dec_of_text_text. }
  cbn [result_bind].
  change (snapshot_text _ (js "effectiveFrom")) with (Some (formatDateOnly (cr_effectiveFrom r))).
  change (snapshot_text _ (js "effectiveTo")) with (formatDateOnly <$> cr_effectiveTo r).
  change (snapshot_text _ (js "note")) with (costNote (cr_costs r)).
  cbv beta iota. rewrite (proj1 (date_reads_back _ Df)). cbn [result_bind].
  destruct (cr_effectiveTo r) as [t|]; [|done]. cbn [fmap option_fmap option_map].
  pose proof (proj1 (date_reads_back t (Dt t eq_refl))) as Et.
  destruct (formatDateOnly t) as [|c s]; [done|]. by rewrite Et.
Qed.

Lemma restored_row r y : stored_rule r -> cr_id y = cr_id r -> cr_productId y = cr_productId r ->
  cr_createdAt y = cr_createdAt r ->
  write_costs y
    (map (fun f => SetMoney f (get_money f (cr_costs r))) money_first
     ++ map (fun f => SetShipping f (get_shipping f (cr_costs r))) shipping_fields
     ++ map (fun f => SetMoney f (get_money f (cr_costs r))) money_last
     ++ [SetCostFrom (cr_effectiveFrom r); SetCostTo (cr_effectiveTo r); SetCostNote (costNote (cr_costs r))])
  = Ok r.
Proof.
  intros ([M S] & _) Ei Ep Ec. destruct y as [i p [] f t k], r as [i' p' [] f' t' k'].
  cbn -[money_column shipping_column] in *. subst i' p' k'.
  pose proof (M SalePrice). pose proof (M SupplyPrice). pose proof (M ProductCost). pose proof (M SalesFeeRate).
  pose proof (M SalesFee). pose proof (M GrowthInboundFee). pose proof (M GrowthShippingFee).
  pose proof (M ReturnRate). pose proof (M ReturnCostPerUnit). pose proof (M ExtraCost).
  pose proof (S SellerShippingFee). pose proof (S HanaroShippingFee). clear M S.
  cbn -[money_column shipping_column] in *.
  repeat (match goal with E : ?c = Ok _ |- context [?c] => rewrite E; clear E end;
          cbn -[money_column shipping_column]).
  done.
Qed.
End read_back.

(** ** Provenance *)

Section provenance.
Context `{Icu, DecimalLaws}.

Definition id_text (s : str) : Prop := truthy s = true /\ trim s = s.

(** The snapshots of an applied row are those of stored rows. *)
Record applied_ok (a : AppliedRow) : Prop := {
  ao_product : id_text (ap_productId a);
  ao_rule : id_text (ap_costRuleId a);
  ao_after : exists r, stored_rule r /\ ap_after a = serializeCoupangCostRuleRollbackSnapshot r;
  ao_before : match ap_operation a with
              | UPDATED_SAME_DATE =>
                  exists r, stored_rule r /\ ap_before a = Some (serializeCoupangCostRuleRollbackSnapshot r)
              | CREATED => ap_before a = None
              end
}.

Definition provenance (margin : bool) (a : AppliedRow) : Provenance :=
  {| pv_productId := ap_productId a;
     pv_productRuleId := if margin then match ap_mapping a with Some (r, _) => r | None => None end else None;
     pv_productRuleCreated := margin && match ap_mapping a with Some (_, c) => c | None => false end;
     pv_costRuleId := ap_costRuleId a; pv_operation := ap_operation a; pv_before := ap_before a;
     pv_after := ap_after a |}.

Lemma applied_row_reads_back margin a : applied_ok a ->
  parse_applied_row margin (applied_row_json a) = Ok (provenance margin a).
Proof.
  intros [[Np Tp] [Nr Tr] (ra & Sa & Ea) B].
  assert (Bf : match ap_operation a with
               | UPDATED_SAME_DATE =>
                   exists s, ap_before a = Some s /\ parseCoupangCostRuleRollbackSnapshot (Some (snapshot_json s)) = Some s
               | CREATED => ap_before a = None
               end).
  { destruct (ap_operation a); [done|]. destruct B as (rb & Sb & Eb). eexists. split; [exact Eb|].
    by apply snapshot_reads_back. }
  assert (Af : parseCoupangCostRuleRollbackSnapshot (Some (snapshot_json (ap_after a))) = Some (ap_after a)).
  { rewrite Ea. by apply snapshot_reads_back. }
  clear B Sa Ea. destruct a as [n item std p mp i price op before after]. cbn [ap_operation ap_before ap_after ap_productId ap_costRuleId] in *.
  assert (Fields : match applied_row_json (Build_AppliedRow n item std p mp i price op before after) with
    | JObj o =>
        json_field o (js "productId") = Some (JStr p) /\ json_field o (js "costRuleId") = Some (JStr i)
        /\ json_field o (js "costRuleOperation") = Some (JStr (operation_name op))
        /\ json_field o (js "costRuleAfter") = Some (snapshot_json after)
        /\ json_field o (js "costRuleBefore") = Some (match before with Some s => snapshot_json s | None => JNull end)
        /\ json_field o (js "productRuleId") = (fun m => nullable_text (fst m)) <$> mp
        /\ json_field o (js "productRuleCreated") = (fun m => JBool (snd m)) <$> mp
    | _ => False
    end) by (destruct mp as [[r c]|]; repeat split; reflexivity).
  unfold parse_applied_row. destruct (applied_row_json _) as [| | | | |o]; try done.
  destruct Fields as (F1 & F2 & F3 & F4 & F5 & F6 & F7).
  rewrite F1, F2, F3, F4, F5, F6, F7, Af. cbn [text_or_empty json_text]. rewrite Tp, Tr, Np, Nr. cbn [negb orb].
  destruct op.
  - rewrite Bf. change (List.find _ _) with (Some CREATED). by destruct mp as [[[r|] c]|], margin.
  - destruct Bf as (s & -> & ->). change (List.find _ _) with (Some UPDATED_SAME_DATE).
    by destruct mp as [[[r|] c]|], margin.
Qed.

Lemma provenance_reads_back margin schema from rows :
  json_field schema (js "appliedRows") = None -> Forall applied_ok rows ->
  rollbackAppliedRows margin
    (JObj (schema ++ [(js "effectiveFrom", JStr from); (js "appliedRows", JArr (map applied_row_json rows))]))
    (Z.of_nat (List.length rows))
  = Ok (map (provenance margin) rows).
Proof.
  intros Na F.
  assert (J : forall l, json_field schema (js "appliedRows") = None ->
    json_field (schema ++ l) (js "appliedRows") = json_field l (js "appliedRows")).
  { intros l. clear. induction schema as [|[k v] schema IH]; [done|]. simpl. by destruct (str_eqb _ _). }
  unfold rollbackAppliedRows. rewrite J by done. cbn [json_field].
  change (str_eqb (js "effectiveFrom") (js "appliedRows")) with false.
  change (str_eqb (js "appliedRows") (js "appliedRows")) with true. cbv iota.
  rewrite length_map, Z.eqb_refl. destruct (Z.ltb_spec (Z.of_nat (List.length rows)) 0); [lia|]. cbn [orb negb].
  induction F as [|a rows Oa F IH]; [done|]. cbn [map result_map].
  rewrite (applied_row_reads_back margin a Oa). cbn [result_bind]. rewrite IH; [done|]. lia.
Qed.
End provenance.

(** ** Taking back one row *)

Section undo.
Context `{Icu, DecimalLaws}.
Implicit Types (rs : list CostRule) (S : list str) (s : Db).

Abbreviation erased := (erase cr_productId).

Lemma cost_ending (t : option Z) (r : CostRule) : cr_productId (rl_ending t r) = cr_productId r.
Proof. done. Qed.

Definition good rs : Prop := table cr_productId [] rs /\ Forall stored_rule rs.

(** What one row of an upload did to the cost rules, and what it noted of it:
    it wrote the rule of its day, or it added one and stored the last days. *)
Inductive applied_step (d : Z) : Provenance -> list CostRule -> list CostRule -> Prop :=
  | applied_update a x x' rs :
      x ∈ rs -> cr_effectiveFrom x = d -> cr_id x' = cr_id x -> cr_productId x' = cr_productId x ->
      cr_createdAt x' = cr_createdAt x -> cr_effectiveFrom x' = d -> cr_effectiveTo x' = cr_effectiveTo x ->
      pv_productId a = cr_productId x -> pv_costRuleId a = cr_id x -> pv_operation a = UPDATED_SAME_DATE ->
      pv_before a = Some (serializeCoupangCostRuleRollbackSnapshot x) ->
      pv_after a = serializeCoupangCostRuleRollbackSnapshot x' ->
      applied_step d a rs (put_row x' rs)
  | applied_create a x' rs :
      cr_id x' ∉ ids rs -> (forall r, r ∈ rs -> cr_productId r = cr_productId x' -> cr_effectiveFrom r <> d) ->
      cr_effectiveFrom x' = d ->
      pv_productId a = cr_productId x' -> pv_costRuleId a = cr_id x' -> pv_operation a = CREATED ->
      pv_after a = serializeCoupangCostRuleRollbackSnapshot
                     (end_one cr_productId (cr_productId x') (rs ++ [x']) x') ->
      applied_step d a rs (closed cr_productId (cr_productId x') (rs ++ [x'])).

Inductive applied_steps (d : Z) : list Provenance -> list CostRule -> list CostRule -> Prop :=
  | steps_none rs : good rs -> applied_steps d [] rs rs
  | steps_snoc l a rs1 rs2 rs3 : applied_steps d l rs1 rs2 -> applied_step d a rs2 rs3 -> good rs3 ->
      applied_steps d (l ++ [a]) rs1 rs3.

Lemma steps_good d l rs1 rs2 : applied_steps d l rs1 rs2 -> good rs1 /\ good rs2.
Proof. induction 1; naive_solver. Qed.

Lemma good_check rs r : good rs -> r ∈ rs -> rl_check r = true.
Proof.
  intros [T _] I. apply rl_check_order. intros t E.
  destruct (tb_timeline _ _ _ T (cr_productId r) (not_elem_of_nil _)) as [_ D L].
  assert (Io : r ∈ of_owner cr_productId (cr_productId r) rs) by by apply elem_of_owner.
  rewrite L in E by done. unfold target in E.
  pose proof (next_start_spec (starts (of_owner cr_productId (cr_productId r) rs)) (rl_from r)) as P.
  destruct (next_start _ _) as [n|]; [|done]. injection E as <-. destruct P as (In & Ln & _).
  rewrite Forall_forall in D. destruct (D n In) as [u Eu]. destruct (D (rl_from r)) as [v Ev];
    [by apply list_elem_of_fmap_2|]. cbn in *. unfold msPerDay in *. lia.
Qed.

Lemma cost_by_id_list rs r : good rs -> r ∈ rs -> row_by_id (cr_id r) rs = Some r.
Proof. intros [T _] I. exact (row_by_id_in rs r (tb_ids _ _ _ T) I). Qed.

Lemma set_costRules_same s : set_costRules (costRules s) s = s.
Proof. by destruct s. Qed.

Lemma put_back x x' rs : NoDup (ids rs) -> x ∈ rs -> cr_id x' = cr_id x -> put_row x (put_row x' rs) = rs.
Proof.
  intros N I E. unfold put_row. rewrite map_map. rewrite <- (List.map_id rs) at 2. apply map_ext_in.
  intros y Iy%list_elem_of_In. cbn [rl_id cost_rule_ruled]. rewrite E.
  destruct (str_eqb (cr_id y) (cr_id x)) eqn:Q.
  - rewrite E. unfold str_eqb. rewrite bool_decide_eq_true_2 by done. apply bool_decide_eq_true in Q.
    symmetry. by apply (same_id rs).
  - by rewrite Q.
Qed.

Lemma undo_update d a x x' rs S s : good rs -> good (put_row x' rs) ->
  x ∈ rs -> cr_effectiveFrom x = d -> cr_id x' = cr_id x -> cr_productId x' = cr_productId x ->
  cr_createdAt x' = cr_createdAt x -> cr_effectiveFrom x' = d ->
  pv_productId a = cr_productId x -> pv_costRuleId a = cr_id x -> pv_operation a = UPDATED_SAME_DATE ->
  pv_before a = Some (serializeCoupangCostRuleRollbackSnapshot x) ->
  pv_after a = serializeCoupangCostRuleRollbackSnapshot x' ->
  erased S (costRules s) = erased S (put_row x' rs) -> cr_productId x ∉ S ->
  rollback_row a s = Ok (tt, set_costRules (put_row x (costRules s)) s)
  /\ erased S (put_row x (costRules s)) = erased S rs.
Proof.
  intros G G' I Ed Ei Ep Ec Ed' Ap Ar Ao Ab Af E N. destruct G as [T St]. destruct G' as [T' _].
  assert (I' : x' ∈ put_row x' rs) by (apply (put_row_elem rs x x'); auto).
  assert (R : row_by_id (cr_id x) (costRules s) = Some x').
  { apply (erased_row cr_productId cost_ending S _ (put_row x' rs)); [done| |by rewrite Ep].
    rewrite <- Ei. exact (row_by_id_in _ x' (tb_ids _ _ _ T') I'). }
  assert (Sx : stored_rule x) by (rewrite Forall_forall in St; by apply St).
  assert (Ts : table cr_productId S (costRules s)) by (by eapply erased_table).
  pose proof (row_by_id_Some _ _ _ R) as [Is _].
  split.
  - unfold rollback_row, tx_bind, find_cost_rule, tx_get. rewrite Ar, R, Ap, Ep.
    unfold str_eqb at 1. rewrite bool_decide_eq_true_2 by done.
    unfold sameCoupangCostRuleRollbackSnapshot. rewrite bool_decide_eq_true_2 by done. cbn [negb orb].
    rewrite Ao, Ab. unfold tx_bind, tx_lift. rewrite snapshot_data by done. cbn [result_bind].
    unfold update_cost_rule. rewrite R, restored_row by done. cbn [result_bind].
    destruct (existsb _ _) eqn:Q.
    { apply existsb_exists in Q as (y & Iy%list_elem_of_In & Q). unfold starts_on in Q.
      apply andb_true_iff in Q as [Q Ny]. apply andb_true_iff in Q as [Py Dy].
      apply bool_decide_eq_true in Py. apply Z.eqb_eq in Dy. apply negb_true_iff, bool_decide_eq_false in Ny.
      destruct Ny. rewrite <- Ei. f_equal.
      apply (same_start (of_owner cr_productId (cr_productId x) (costRules s))); [apply Ts| | |cbn; congruence];
        apply elem_of_owner; by split. }
    by rewrite (good_check rs).
  - rewrite erase_put by done. rewrite E, <- erase_put by done. by rewrite (put_back x x' rs) by (done || apply T).
Qed.

Lemma drop_last i rs x' : cr_id x' = i -> i ∉ ids rs -> drop_row i (rs ++ [x']) = rs.
Proof.
  intros <- N. unfold drop_row. rewrite List.filter_app. fold (drop_row (cr_id x') rs).
  rewrite drop_row_none by done. cbn [List.filter]. cbn [rl_id cost_rule_ruled]. unfold str_eqb.
  rewrite bool_decide_eq_true_2 by done. cbn. apply app_nil_r.
Qed.

Lemma undo_create d a x' rs S s : good (closed cr_productId (cr_productId x') (rs ++ [x'])) ->
  cr_id x' ∉ ids rs -> cr_effectiveFrom x' = d ->
  pv_productId a = cr_productId x' -> pv_costRuleId a = cr_id x' -> pv_operation a = CREATED ->
  pv_after a = serializeCoupangCostRuleRollbackSnapshot
                 (end_one cr_productId (cr_productId x') (rs ++ [x']) x') ->
  erased S (costRules s) = erased S (closed cr_productId (cr_productId x') (rs ++ [x'])) -> cr_productId x' ∉ S ->
  rollback_row a s = Ok (tt, set_costRules (drop_row (cr_id x') (costRules s)) s)
  /\ erased (cr_productId x' :: S) (drop_row (cr_id x') (costRules s)) = erased (cr_productId x' :: S) rs.
Proof.
  intros [T _] Ni Ed Ap Ar Ao Af E N.
  set (p := cr_productId x') in *. set (y := end_one cr_productId p (rs ++ [x']) x') in *.
  assert (Py : cr_productId y = p /\ cr_id y = cr_id x').
  { unfold y, end_one. by destruct (str_eqb _ _). }
  assert (Iy : y ∈ closed cr_productId p (rs ++ [x'])).
  { rewrite closed_eq. apply list_elem_of_fmap_2. apply elem_of_app. right. by left. }
  assert (R : row_by_id (cr_id x') (costRules s) = Some y).
  { apply (erased_row cr_productId cost_ending S _ _ _ _ E); [|destruct Py as [-> _]; done].
    destruct Py as [_ <-]. exact (row_by_id_in _ y (tb_ids _ _ _ T) Iy). }
  split.
  - unfold rollback_row, tx_bind, find_cost_rule, tx_get. rewrite Ar, R, Ap, (proj1 Py).
    unfold str_eqb at 1. rewrite bool_decide_eq_true_2 by done.
    unfold sameCoupangCostRuleRollbackSnapshot. rewrite bool_decide_eq_true_2 by done. cbn [negb orb].
    rewrite Ao. unfold delete_cost_rule. by rewrite R.
  - assert (Ip : p ∈ p :: S) by by left.
    rewrite erase_drop, (erase_mono cr_productId cost_ending S (p :: S) _ _ (fun q => list_elem_of_further q p S) E).
    rewrite erase_closed by done. rewrite <- erase_drop. by rewrite (drop_last (cr_id x') rs x').
Qed.

(** Taking back the rows in reverse order: the rules that remain agree with
    those before the upload, but for the last days of some of its products. *)
Definition without_day (d : Z) S rs : Prop :=
  forall r, r ∈ rs -> cr_productId r ∈ S -> cr_effectiveFrom r <> d.

Lemma undo_steps d l rs1 rs2 : applied_steps d l rs1 rs2 -> forall S s,
  erased S (costRules s) = erased S rs2 -> without_day d S rs2 ->
  exists S' rs, tx_each rollback_row (rev l) s = Ok (tt, set_costRules rs s)
    /\ erased S' rs = erased S' rs1 /\ S' ⊆ S ++ map pv_productId l.
Proof.
  induction 1 as [rs G|l a rs1 rs2 rs3 Hl IH Ha G]; intros S s E W.
  - exists S, (costRules s). rewrite set_costRules_same. split; [done|]. split; [done|]. set_solver.
  - rewrite rev_app_distr. cbn [rev app tx_each]. pose proof (steps_good _ _ _ _ Hl) as [_ G2].
    destruct Ha as [a x x' rs Hx Ed Ei Ep Ec Ed' Et Ap Ar Ao Ab Af|a x' rs Ni Nd Ed Ap Ar Ao Af].
    + assert (N : cr_productId x ∉ S).
      { intros Is. apply (W x'); [apply (put_row_elem rs x x'); auto|by rewrite Ep|done]. }
      destruct (undo_update d a x x' rs S s) as [R E']; [done..|].
      destruct (IH S (set_costRules (put_row x (costRules s)) s)) as (S' & rs' & R' & E2 & Sub); [done| |].
      { intros r Ir Is. destruct (decide (cr_id r = cr_id x)) as [Q|Nr].
        - rewrite (same_id rs r x) in Is; [done|apply G2|done..].
        - apply W; [|done]. apply (put_row_elem rs x x'); [done|done|]. by right. }
      exists S', rs'. unfold tx_bind. rewrite R, R'. split; [done|]. split; [done|]. rewrite map_app. set_solver.
    + assert (Iy : forall r, r ∈ rs ++ [x'] ->
        end_one cr_productId (cr_productId x') (rs ++ [x']) r ∈ closed cr_productId (cr_productId x') (rs ++ [x'])).
      { intros r Ir. rewrite closed_eq. by apply list_elem_of_fmap_2. }
      assert (Ey : forall r q, cr_productId (end_one cr_productId q (rs ++ [x']) r) = cr_productId r
                            /\ cr_effectiveFrom (end_one cr_productId q (rs ++ [x']) r) = cr_effectiveFrom r).
      { intros r q. unfold end_one. by destruct (str_eqb _ _). }
      assert (N : cr_productId x' ∉ S).
      { intros Is. apply (W _ (Iy x' ltac:(apply elem_of_app; right; by left))); by rewrite ?(proj1 (Ey _ _)), ?(proj2 (Ey _ _)). }
      destruct (undo_create d a x' rs S s) as [R E']; [done..|].
      destruct (IH (cr_productId x' :: S) (set_costRules (drop_row (cr_id x') (costRules s)) s))
        as (S' & rs' & R' & E2 & Sub); [done| |].
      { intros r Ir Is. apply elem_of_cons in Is as [Q|Is]; [by apply Nd|].
        rewrite <- (proj2 (Ey r (cr_productId x'))). apply W; [apply Iy, elem_of_app; by left|].
        by rewrite (proj1 (Ey _ _)). }
      exists S', rs'. unfold tx_bind. rewrite R, R'. split; [done|]. split; [done|]. rewrite map_app. cbn [map].
      rewrite Ap. set_solver.
Qed.

Lemma normalize_exact p S s : table cr_productId S (costRules s) ->
  normalizeCoupangCostRuleRanges p s = Ok (tt, set_costRules (closed cr_productId p (costRules s)) s).
Proof.
  intros T. unfold normalizeCoupangCostRuleRanges, normalize_cost_rules.
  change (rules_of p (costRules s)) with (of_owner cr_productId p (costRules s)).
  by rewrite (normalize_closed cr_productId ascending ascending_start previousDate previousDate_day S).
Qed.

Lemma normalize_all ps S s rs : table cr_productId [] rs -> S ⊆ ps -> erased S (costRules s) = erased S rs ->
  tx_each normalizeCoupangCostRuleRanges ps s = Ok (tt, set_costRules rs s).
Proof.
  intros T. revert S s. induction ps as [|p ps IH]; intros S s Sub E; cbn [tx_each].
  - assert (S = []) as -> by (destruct S as [|q S]; [done|]; exfalso; eapply not_elem_of_nil, Sub; by left).
    rewrite !erase_nil in E. by rewrite <- E, set_costRules_same.
  - unfold tx_bind. rewrite (normalize_exact p S) by (by eapply erased_table).
    rewrite (IH (List.filter (fun q => negb (bool_decide (q = p))) S)); [done| |].
    + intros q [Iq Nq]%elem_of_filterb. apply negb_true_iff, bool_decide_eq_false in Nq.
      apply Sub, elem_of_cons in Iq as [?|?]; done.
    + cbn [costRules set_costRules]. rewrite <- (closed_same cr_productId p rs) by (apply T, not_elem_of_nil).
      apply closed_erased; [done|]. eapply erase_mono, E; [done|]. intros q Iq.
      destruct (decide (q = p)) as [->|N]; [by left|]. right.
      apply elem_of_filterb. split; [done|]. by apply negb_true_iff, bool_decide_eq_false.
Qed.

(** The removal returns every cost rule to what it was. *)
Lemma rollback_restores d l rs1 s : applied_steps d l rs1 (costRules s) ->
  Forall (fun a => id_text (pv_productId a)) l ->
  rollbackImportedCoupangCostRules l s = Ok (tt, set_costRules rs1 s).
Proof.
  intros A I. destruct (undo_steps d l rs1 _ A [] s eq_refl) as (S' & rs & R & E & Sub).
  { by intros r _ ?%not_elem_of_nil. }
  unfold rollbackImportedCoupangCostRules, tx_bind. rewrite R.
  rewrite (normalize_all _ S' _ rs1); [done|apply (steps_good _ _ _ _ A)| |done].
  intros q Iq. rewrite elem_of_js_sort. unfold uniqueNonEmpty. rewrite elem_of_js_unique, elem_of_filterb.
  apply Sub in Iq. rewrite app_nil_l in Iq. pose proof Iq as Iq'.
  apply list_elem_of_fmap in Iq as (a & -> & Ia). rewrite Forall_forall in I. destruct (I a Ia) as [Nb Tr].
  split; [|done]. rewrite <- Tr at 1. by apply list_elem_of_fmap_2.
Qed.
End undo.
