(* ===== verification/CoupangImports.v ===== *)
(** * What an import of costs does

    Proofs about the imports of [CoupangCostUploads]: every row of a price list
    or of a margin sheet is a step of [CoupangRollback.applied_step], with the
    provenance that its upload keeps. *)

From S2P Require Import Prelude JsNumber JsString JsDate.
From S2P Require Import DateNumber.
From S2P Require Import Concurrency.
From S2P Require Import Transactions.
From S2P Require Import RequestBody.
From S2P Require Import Timeline.
From S2P Require Import RuledTable.
From S2P Require Import RuledErasure.
From S2P Require Import CoupangPriceText.
From S2P Require Import CoupangMargin.
From S2P Require Import CoupangDb.
From S2P Require Import CoupangRules.
From S2P Require Import CoupangUploads.
From S2P Require Import CoupangCostUploads.
From S2P Require Import CoupangRulesSafety.
From S2P Require Import CoupangRollback.

Local Open Scope Z_scope.

Section columns.
Context `{Icu, DecimalLaws}.

(** ** Columns keep stored values *)

Lemma money_column_stored f d d' : money_column f d = Ok d' -> money_column f d' = Ok d'.
Proof.
  unfold money_column. intros E. assert (N : exists p s, (match f with SalesFeeRate | ReturnRate => numeric 8 6
    | _ => numeric 14 2 end) = numeric p s) by (destruct f; eauto). destruct N as (p & s & Q).
  assert (forall x, (match f with SalesFeeRate | ReturnRate => numeric 8 6 x | _ => numeric 14 2 x end) = numeric p s x)
    as R by (intros x; rewrite <- Q; by destruct f).
  rewrite R in *. destruct (numeric p s d) as [y|] eqn:F; [|done]. injection E as <-. by rewrite (numeric_idem _ _ _ _ F).
Qed.

Lemma money_column_zero f : money_column f dec_zero = Ok dec_zero.
Proof. unfold money_column. destruct f; by rewrite numeric_zero. Qed.

Lemma shipping_column_stored d d' : shipping_column d = Ok d' -> shipping_column d' = Ok d'.
Proof.
  unfold shipping_column. destruct d as [d|]; [|by intros [= <-]].
  destruct (numeric 14 2 d) as [y|] eqn:F; [|done]. intros [= <-]. by rewrite (numeric_idem _ _ _ _ F).
Qed.

Lemma stored_build m s n : (forall f, money_column f (m f) = Ok (m f)) ->
  (forall f, shipping_column (s f) = Ok (s f)) -> stored_costs (build_costs m s n).
Proof. intros M S. split; intros f; [rewrite get_money_build; apply M|rewrite get_shipping_build; apply S]. Qed.

Lemma write_cost_stored r x r' : stored_costs (cr_costs r) -> write_cost r x = Ok r' -> stored_costs (cr_costs r').
Proof.
  intros [M S]. destruct x as [f d|f d|n|d|d]; simpl.
  - destruct (money_column f d) as [d'|] eqn:E; simpl; [|done]. intros [= <-]. apply stored_build; [|done].
    intros g. destruct (money_field_eqb f g) eqn:Q; [|apply M]. apply money_field_eqb_eq in Q as <-.
    by eapply money_column_stored.
  - destruct (shipping_column d) as [d'|] eqn:E; simpl; [|done]. intros [= <-]. apply stored_build; [done|].
    apply shipping_column_stored in E. intros g. destruct f, g; (exact E || apply (S SellerShippingFee) || apply (S HanaroShippingFee)).
  - intros [= <-]. by apply stored_build.
  - by intros [= <-].
  - by intros [= <-].
Qed.

Lemma write_costs_stored xs r r' : stored_costs (cr_costs r) -> write_costs r xs = Ok r' -> stored_costs (cr_costs r').
Proof.
  revert r. induction xs as [|x xs IH]; intros r S; cbn [write_costs]; [by intros [= <-]|].
  destruct (write_cost r x) as [r1|] eqn:E; [|done]. cbn [result_bind]. apply IH. by eapply write_cost_stored.
Qed.

Lemma default_stored : stored_costs default_costs.
Proof. apply stored_build; [apply money_column_zero|done]. Qed.

(** Data that keep the last day of a rule. *)
Definition keeps_end (xs : list cost_write) : bool :=
  forallb (fun x => match x with SetCostTo _ => false | _ => true end) xs.

Lemma write_costs_end xs r r' : keeps_end xs = true -> write_costs r xs = Ok r' -> cr_effectiveTo r' = cr_effectiveTo r.
Proof.
  revert r. induction xs as [|x xs IH]; intros r K; cbn [write_costs]; [by intros [= <-]|].
  cbn [keeps_end forallb] in K. apply andb_true_iff in K as [Kx K].
  destruct (write_cost r x) as [r1|] eqn:E; [|done]. cbn [result_bind]. intros F. rewrite (IH _ K F).
  destruct x as [f d|f d|n|d|d]; simpl in E; try done.
  - destruct (money_column _ _); simpl in E; [|done]. by injection E as <-.
  - destruct (shipping_column _); simpl in E; [|done]. by injection E as <-.
  - by injection E as <-.
  - by injection E as <-.
Qed.
End columns.

(** ** One cost rule *)

Section rule.
Context `{Icu, DecimalLaws} (uuid : nat -> str) (uuid_ok : forall n, id_text (uuid n)).

(** What the imports do not touch. *)
Record frame (w w' : Db) : Prop := {
  fr_batches : batches w' = batches w;
  fr_users : appUsers w' = appUsers w;
  fr_fees : feeRules w' = feeRules w;
  fr_time : time w' = time w
}.

#[export] Instance frame_preorder : PreOrder frame.
Proof. split; [by intros w; split|]. intros a b c [? ? ? ?] [? ? ? ?]. split; congruence. Qed.

(** The rules can be taken back: their values, days and ids are read back. *)
Record importable (w : Db) : Prop := {
  im_good : good (costRules w);
  im_rules : Forall id_text (ids (costRules w));
  im_products : Forall id_text (product_ids w)
}.

(** Data for a rule of the day. *)
Definition day_data (d : Z) (xs : list cost_write) : Prop :=
  (forall d', start_after xs d' = d) /\ keeps_end xs = true.

Lemma good_update rs x x' : good rs -> x ∈ rs -> cr_id x' = cr_id x -> cr_productId x' = cr_productId x ->
  cr_effectiveFrom x' = cr_effectiveFrom x -> cr_effectiveTo x' = cr_effectiveTo x ->
  stored_costs (cr_costs x') ->
  closed cr_productId (cr_productId x) (put_row x' rs) = put_row x' rs /\ good (put_row x' rs).
Proof.
  intros [T St] I Ei Ep Ef Et Sc.
  assert (C : closed cr_productId (cr_productId x) (put_row x' rs) = put_row x' rs)
    by (by apply (closed_put cr_productId _ rs x x')).
  split; [done|]. rewrite Forall_forall in St. split.
  - rewrite <- C. apply table_closed; [done|]. apply (table_put cr_productId [] rs x x'); try done.
    + cbn. rewrite Ef. pose proof (tb_days _ _ _ T) as D. rewrite Forall_forall in D. apply D.
      apply list_elem_of_fmap. by exists x.
    + intros y Iy Ey Ny Q. apply Ny. cbn in Ey, Q |- *. rewrite Ei. f_equal.
      apply (same_start (of_owner cr_productId (cr_productId x) rs)); [apply T| | |cbn; congruence];
        apply elem_of_owner; split; congruence.
  - apply Forall_forall. intros y Iy. apply (put_row_elem rs x x') in Iy; [|done..].
    destruct Iy as [->|[Iy _]]; [|by apply St]. destruct (St x I) as (_ & Df & Dt).
    split; [done|]. rewrite Ef, Et. done.
Qed.

Lemma good_insert rs x' : good rs -> cr_id x' ∉ ids rs ->
  (forall r, r ∈ rs -> cr_productId r = cr_productId x' -> cr_effectiveFrom r <> cr_effectiveFrom x') ->
  starting (cr_effectiveFrom x') -> stored_costs (cr_costs x') ->
  good (closed cr_productId (cr_productId x') (rs ++ [x'])).
Proof.
  intros [T St] Ni Nd D Sc. rewrite Forall_forall in St. split.
  - apply table_closed; [done|]. apply (table_insert cr_productId cr_costs); [done|done|apply D|].
    by apply (hist_None cr_productId cr_costs []).
  - apply Forall_forall. intros y Iy. rewrite closed_eq in Iy. apply list_elem_of_fmap in Iy as (r & -> & Ir).
    assert (A : forall q, q ∈ rs ++ [x'] -> stored_costs (cr_costs q) /\ starting (cr_effectiveFrom q)).
    { intros q [Iq| ->%list_elem_of_singleton]%elem_of_app; [by destruct (St q Iq) as (? & ? & _)|done]. }
    assert (E : r = x' \/ r ∈ rs) by (apply elem_of_app in Ir as [?| ->%list_elem_of_singleton]; auto).
    destruct (A r Ir) as [Sr Dr]. unfold end_one. destruct (str_eqb _ _) eqn:O.
    + split; [done|]. split; [done|]. intros t Et. cbn in Et. unfold target in Et.
      pose proof (next_start_spec (starts (of_owner cr_productId (cr_productId x') (rs ++ [x']))) (rl_from r)) as P.
      destruct (next_start _ _) as [n|]; [|done]. injection Et as <-. destruct P as (In & _).
      apply list_elem_of_fmap in In as (q & -> & [Iq _]%elem_of_owner). apply day_before. by apply A.
    + destruct E as [->|Ir']; [|by apply St]. unfold str_eqb in O. by rewrite bool_decide_eq_true_2 in O.
Qed.

Lemma create_inv p data w r w' : create_cost_rule uuid p data w = Ok (r, w') ->
  write_costs (default_cost_rule (uuid (draws w)) p (time w)) data = Ok r
  /\ cr_id r ∉ ids (costRules w) /\ cr_id r = uuid (draws w) /\ cr_productId r = p
  /\ (forall x, x ∈ costRules w -> cr_productId x = p -> cr_effectiveFrom x <> cr_effectiveFrom r)
  /\ w' = set_costRules (costRules w ++ [r]) (set_draws (S (draws w)) w).
Proof.
  unfold create_cost_rule, tx_draw, tx_get. unfold tx_bind, tx_lift at 1. cbv beta.
  destruct (write_costs _ data) as [x|] eqn:E; [|done]. cbn [result_bind time set_draws].
  intros F. cbn [time set_draws] in *. apply insert_cost_rule_inv in F as (-> & -> & _ & Ni & Nd).
  destruct (write_costs_keeps _ _ _ E) as (Ei & Ep & _). cbn in Ei, Ep.
  split; [done|]. split; [done|]. split; [done|]. split; [done|]. split; [|done].
  intros y Iy Py. apply Nd; [done|congruence].
Qed.

Lemma update_inv i data w r w' : update_cost_rule i data w = Ok (r, w') ->
  exists x, row_by_id i (costRules w) = Some x /\ write_costs x data = Ok r
    /\ w' = set_costRules (put_row r (costRules w)) w.
Proof.
  unfold update_cost_rule. destruct (row_by_id _ _) as [x|]; [|done].
  destruct (write_costs x data) as [y|] eqn:E; [|done]. cbn [result_bind].
  destruct (existsb _ _); [done|]. destruct (negb _); [done|]. intros [= <- <-]. by exists x.
Qed.

Lemma upsert_step p d build w sv w' : importable w -> starting d ->
  (forall b xs w1, build b w = Ok (xs, w1) -> w1 = w /\ day_data d xs) ->
  upsertImportedCoupangCostRule uuid p d build w = Ok (sv, w') ->
  exists rs, w' = set_costRules rs (set_draws (draws w') w) /\ importable w'
    /\ id_text (cr_id (svd_rule sv))
    /\ (exists r, stored_rule r /\ svd_after sv = serializeCoupangCostRuleRollbackSnapshot r)
    /\ (match svd_operation sv with
        | UPDATED_SAME_DATE =>
            exists r, stored_rule r /\ svd_before sv = Some (serializeCoupangCostRuleRollbackSnapshot r)
        | CREATED => svd_before sv = None
        end)
    /\ forall a, pv_productId a = p -> pv_costRuleId a = cr_id (svd_rule sv) -> pv_operation a = svd_operation sv ->
         pv_before a = svd_before sv -> pv_after a = svd_after sv -> applied_step d a (costRules w) rs.
Proof.
  intros [G Ir Ip] D Hb. unfold upsertImportedCoupangCostRule. intros F.
  apply tx_bind_inv in F as (ex & wa & E1 & F). apply starting_on_spec in E1 as [-> E1].
  apply tx_bind_inv in F as (ab & wb & E2 & F). unfold findCoupangCostRuleAtOrBeforeDate, tx_get in E2.
  injection E2 as _ <-. cbv zeta in F.
  apply tx_bind_inv in F as (data & w1 & E3 & F). apply Hb in E3 as [-> [St Ke]].
  apply tx_bind_inv in F as (saved & w2 & E4 & F). pose proof G as [T Sr]. rewrite Forall_forall in Sr.
  destruct ex as [x|].
  - destruct E1 as (Ix & Px & Dx). apply update_inv in E4 as (x0 & Hx & Hw & ->).
    rewrite (cost_by_id_list _ _ G Ix) in Hx. injection Hx as <-.
    destruct (write_costs_keeps _ _ _ Hw) as (Ki & Kp & Kc).
    assert (Kf : cr_effectiveFrom saved = d) by (by rewrite (write_costs_start _ _ _ Hw), St).
    pose proof (write_costs_end _ _ _ Ke Hw) as Kt.
    assert (Ks : stored_costs (cr_costs saved)) by (eapply write_costs_stored, Hw; by apply Sr).
    destruct (good_update (costRules w) x saved) as [C G']; [done..|by rewrite Kf|done|done|].
    apply tx_bind_inv in F as (u & w3 & E5 & F).
    rewrite (normalize_exact p []) in E5 by apply G'. injection E5 as _ <-. cbn [costRules set_costRules] in F.
    rewrite Px in C. rewrite C in F.
    assert (Is : saved ∈ put_row saved (costRules w)) by (apply (put_row_elem _ x saved); auto).
    apply tx_bind_inv in F as (rule & w4 & E6 & F).
    unfold findUniqueOrThrow, find_cost_rule, tx_bind, tx_get in E6. cbn [costRules set_costRules] in E6.
    rewrite (cost_by_id_list _ _ G' Is) in E6. injection E6 as <- <-. injection F as <- <-.
    exists (put_row saved (costRules w)). cbn [svd_rule svd_operation svd_before svd_after is_Some_b].
    split; [by destruct w|]. split.
    { split; [done| |done]. cbn [costRules set_costRules]. by rewrite put_row_ids. }
    split. { rewrite Ki. rewrite Forall_forall in Ir. apply Ir. apply list_elem_of_fmap. by exists x. }
    split. { exists saved. split; [|done]. destruct G' as [_ S']. rewrite Forall_forall in S'. by apply S'. }
    split. { exists x. split; [by apply Sr|done]. }
    intros a Ap Ar Ao Ab Af. apply (applied_update d a x saved); congruence || done.
  - apply create_inv in E4 as (Hw & Ni & Ei & Ep & Nd & ->).
    assert (Kf : cr_effectiveFrom saved = d) by (by rewrite (write_costs_start _ _ _ Hw), St).
    assert (Ks : stored_costs (cr_costs saved)) by (eapply write_costs_stored, Hw; apply default_stored).
    assert (G' : good (closed cr_productId p (costRules w ++ [saved]))).
    { rewrite <- Ep. apply good_insert; [done|done|by rewrite Ep|by rewrite Kf|done]. }
    apply tx_bind_inv in F as (u & w3 & E5 & F).
    assert (To : table cr_productId [p] (costRules w ++ [saved])).
    { rewrite <- Ep. apply (table_insert cr_productId cr_costs); [done|done|cbn; rewrite Kf; apply D|].
      apply (hist_None cr_productId cr_costs []); [done|]. by rewrite Ep. }
    rewrite (normalize_exact p [p]) in E5 by exact To. injection E5 as _ <-. cbn [costRules set_costRules set_draws] in F.
    apply tx_bind_inv in F as (rule & w4 & E6 & F).
    unfold findUniqueOrThrow, find_cost_rule, tx_bind, tx_get in E6. cbn [costRules set_costRules] in E6.
    rewrite closed_by_id in E6.
    assert (Rb : row_by_id (cr_id saved) (costRules w ++ [saved]) = Some saved).
    { apply (row_by_id_in _ saved (tb_ids _ _ _ To)). apply elem_of_app. right. by left. }
    rewrite Rb in E6. cbn [fmap option_fmap option_map] in E6.
    change (if str_eqb (cr_productId saved) p then _ else saved) with (end_one cr_productId p (costRules w ++ [saved]) saved) in E6.
    injection E6 as <- <-. injection F as <- <-.
    exists (closed cr_productId p (costRules w ++ [saved])). cbn [svd_rule svd_operation svd_before svd_after is_Some_b].
    assert (Ey : cr_id (end_one cr_productId p (costRules w ++ [saved]) saved) = cr_id saved).
    { unfold end_one. by destruct (str_eqb _ _). }
    split; [by destruct w|]. split.
    { split; [done| |done]. cbn [costRules set_costRules]. rewrite closed_ids. unfold ids. rewrite map_app.
      apply Forall_app. split; [done|]. apply Forall_singleton. cbn. rewrite Ei. apply uuid_ok. }
    split; [rewrite Ey, Ei; apply uuid_ok|]. split.
    { exists (end_one cr_productId p (costRules w ++ [saved]) saved). split; [|done]. destruct G' as [_ S'].
      rewrite Forall_forall in S'. apply S'. rewrite closed_eq. apply list_elem_of_fmap_2, elem_of_app. right. by left. }
    split; [done|]. intros a Ap Ar Ao Ab Af. rewrite <- Ep.
    apply (applied_create d a saved); [done|by rewrite Ep|done|congruence|congruence|done|by rewrite Ep].
Qed.
End rule.

(** ** Rows *)

Section rows.
Context `{Icu, DecimalLaws} (uuid : nat -> str) (uuid_ok : forall n, id_text (uuid n)).

(** Statements that leave the cost rules alone. *)
Record beside (w w' : Db) : Prop := {
  be_frame : frame w w';
  be_rules : costRules w' = costRules w;
  be_products : Forall id_text (product_ids w) -> Forall id_text (product_ids w')
}.

#[export] Instance beside_preorder : PreOrder beside.
Proof.
  split; [by intros w; split|]. intros a b c [? ? ?] [? ? ?]. split; [by etransitivity|congruence|auto].
Qed.

Lemma beside_importable w w' : beside w w' -> importable w -> importable w'.
Proof. intros [_ E P] [G I J]. split; rewrite ?E; auto. Qed.

Lemma upsert_product_beside standard display : respects beside (upsert_product uuid standard display).
Proof.
  unfold upsert_product. apply respects_bind; [apply _|apply respects_get; apply _|]. intros [p|].
  - unfold update_product. intros w r w'. destruct (List.find _ _) as [q|]; [|done].
    destruct (existsb _ _); [done|]. intros [= <- <-]. split; [by split|done|].
    intros F. unfold product_ids in *. cbn [products set_products]. by rewrite put_product_ids.
  - intros w r w' F. tx_steps. unfold tx_draw in *. inj_eq E. unfold insert_product in F.
    destruct (existsb _ _); [done|]. destruct (existsb _ _); [done|]. injection F as <- <-.
    split; [by split|done|]. intros I. unfold product_ids in *. cbn [products set_products set_draws] in *.
    rewrite map_app. apply Forall_app. split; [done|]. apply Forall_singleton. apply uuid_ok.
Qed.

Lemma upsert_product_id standard display w p w' : upsert_product uuid standard display w = Ok (p, w') ->
  Forall id_text (product_ids w) -> id_text (pr_id p).
Proof.
  unfold upsert_product, find_product_by_name. intros F I. tx_first F as r w1 E. unfold tx_get in E. injection E as <- <-.
  destruct (List.find _ _) as [q|] eqn:Q.
  - unfold update_product in F. destruct (List.find (fun p => str_eqb (pr_id p) (pr_id q)) _) as [q'|] eqn:Q'; [|done].
    destruct (existsb _ _); [done|]. injection F as <- _. cbn.
    apply find_some in Q' as [Iq _]. rewrite Forall_forall in I. apply I. apply list_elem_of_fmap. exists q'.
    split; [done|]. by apply list_elem_of_In.
  - tx_steps. unfold insert_product in F. destruct (existsb _ _); [done|]. destruct (existsb _ _); [done|].
    injection F as <- _. apply uuid_ok.
Qed.

Lemma delete_unused_beside i : respects beside (deleteCoupangProductIfUnused i).
Proof.
  unfold deleteCoupangProductIfUnused. intros w r w'. destruct (_ && _); intros [= <- <-]; [|done].
  split; [by split|done|]. intros F. unfold product_ids in *. cbn [products set_products].
  rewrite Forall_forall in *. intros x Ix. apply F. apply list_elem_of_fmap in Ix as (p & -> & [Ip _]%elem_of_filterb).
  by apply list_elem_of_fmap_2.
Qed.

Lemma legacy_product_beside line name p : respects beside (legacy_product line name p).
Proof. unfold legacy_product, find_product_by_name. respect. Qed.

Lemma row_errors_beside b s l m n found : respects beside (createRowErrors b s l m n found).
Proof. intros w r w' [= <- <-]. by split; [split| |]. Qed.

Lemma margin_rule_beside p row d : respects beside (upsert_margin_rule uuid p row d).
Proof. unfold upsert_margin_rule. intros w r w'. destruct (head _); intros [= <- <-]; by split; [split| |]. Qed.

Lemma legacy_product_reads line name p w r w' : legacy_product line name p w = Ok (r, w') -> w' = w.
Proof.
  unfold legacy_product, find_product_by_name. intros F.
  destruct (Price_text.legacyCoupangPriceTextItemName line name); [|by tx_steps].
  destruct (str_eqb _ _); [by tx_steps|]. tx_first F as x w1 E. unfold tx_get in E. injection E as <- <-.
  destruct (List.find _ _); [destruct (str_eqb _ _)|]; by tx_steps.
Qed.

Lemma price_data_day x d c : day_data d (buildCoupangPriceTextCostRuleData x d c).
Proof. split; [intros d'|]; unfold buildCoupangPriceTextCostRuleData; by destruct c. Qed.

Lemma margin_data_day row d c : day_data d (buildCoupangMarginCostRuleData row d c).
Proof. by split. Qed.

(** What a row of either kind of file does. *)
Definition row_effect (d : Z) (w w' : Db) (res : option AppliedRow) : Prop :=
  frame w w' /\ importable w'
  /\ match res with
     | None => costRules w' = costRules w
     | Some a => applied_ok a
                 /\ forall margin, applied_step d (provenance margin a) (costRules w) (costRules w')
     end.

(** The cost rule of a row, between statements that leave the rules alone. *)
Lemma rule_effect d w w1 w2 w3 p build sv a : importable w -> starting d -> beside w w1 -> id_text p ->
  (forall b xs w', build b w1 = Ok (xs, w') -> w' = w1 /\ day_data d xs) ->
  upsertImportedCoupangCostRule uuid p d build w1 = Ok (sv, w2) -> beside w2 w3 ->
  ap_productId a = p -> ap_costRuleId a = cr_id (svd_rule sv) -> ap_operation a = svd_operation sv ->
  ap_before a = svd_before sv -> ap_after a = svd_after sv ->
  row_effect d w w3 (Some a).
Proof.
  intros I D B Ip Hb U B' Ap Ar Ao Ab Af. pose proof (beside_importable _ _ B I) as I1.
  destruct (upsert_step uuid uuid_ok p d build w1 sv w2 I1 D Hb U) as (rs & Ew & I2 & Ir & Sa & Sb & St).
  assert (Fr : frame w1 w2) by (rewrite Ew; by split).
  split; [etransitivity; [apply B|etransitivity; [exact Fr|apply B']]|].
  split; [by eapply beside_importable|]. split.
  - split; [by rewrite Ap|by rewrite Ar|by rewrite Af|by rewrite Ao, Ab].
  - intros margin. rewrite (be_rules _ _ B'), <- (be_rules _ _ B). rewrite Ew. cbn [costRules set_costRules].
    apply St; cbn; congruence.
Qed.

Lemma price_row_effect batch d row w res w' : importable w -> starting d ->
  import_price_row uuid batch d row w = Ok (res, w') -> row_effect d w w' res.
Proof.
  intros I D. unfold import_price_row. destruct (Price_text.parsedRow row) as [parsed|]; intros F.
  - cbv zeta in F. tx_first F as p w1 E1. tx_first F as sv w2 E2. tx_first F as u w3 E3.
    injection F as <- <-. pose proof (upsert_product_beside _ _ _ _ _ E1) as B1.
    eapply (rule_effect d w w1 w2 w3 (pr_id p)); [done|done|exact B1| | |exact E2| |done..].
    + eapply upsert_product_id; [exact E1|apply I].
    + intros b xs wx X. tx_first X as l wl L. injection X as <- <-. split; [|apply price_data_day].
      destruct b as [c|]; [by injection L as <- <-|]. tx_first L as r wr R. injection L as <- <-.
      unfold findLegacyPriceTextCostRule in R. tx_first R as q wq Q. apply legacy_product_reads in Q as ->.
      by destruct q; injection R as <- <-.
    + unfold deleteLegacyPriceTextProductIfUnused in E3. tx_first E3 as q wq Q.
      apply legacy_product_reads in Q as ->. destruct q; [by eapply delete_unused_beside|]. by injection E3 as <- <-.
  - tx_first F as u w1 E. injection F as <- <-. apply row_errors_beside in E. split; [apply E|].
    split; [by eapply beside_importable|apply E].
Qed.

Lemma margin_row_effect batch d row w res w' : importable w -> starting d ->
  import_margin_row uuid batch d row w = Ok (res, w') -> row_effect d w w' res.
Proof.
  intros I D. unfold import_margin_row. destruct (Margin_csv.parsedRow row) as [parsed|]; intros F.
  - cbv zeta in F. tx_first F as p w1 E1. tx_first F as m w2 E2. tx_first F as sv w3 E3.
    injection F as <- <-. pose proof (upsert_product_beside _ _ _ _ _ E1) as B1.
    pose proof (margin_rule_beside _ _ _ _ _ _ E2) as B2.
    eapply (rule_effect d w w2 w3 w3 (pr_id p)); [done|done|by etransitivity| | |exact E3|done..].
    + eapply upsert_product_id; [exact E1|apply I].
    + intros b xs wx X. injection X as <- <-. split; [done|apply margin_data_day].
  - tx_first F as u w1 E. injection F as <- <-. apply row_errors_beside in E. split; [apply E|].
    split; [by eapply beside_importable|apply E].
Qed.

(** ** All rows *)

Definition applied_of (res : list (option AppliedRow)) : list AppliedRow := omap (fun a => a) res.

Lemma rows_effect {R} (f : R -> TX Db (option AppliedRow)) d rows :
  (forall row w res w', importable w -> f row w = Ok (res, w') -> row_effect d w w' res) ->
  forall w res w' l rs0, importable w -> (forall margin, applied_steps d (map (provenance margin) l) rs0 (costRules w)) ->
  Forall applied_ok l -> tx_map f rows w = Ok (res, w') ->
  frame w w' /\ importable w' /\ Forall applied_ok (l ++ applied_of res)
  /\ (forall margin, applied_steps d (map (provenance margin) (l ++ applied_of res)) rs0 (costRules w'))
  /\ List.length res = List.length rows.
Proof.
  intros Hf. induction rows as [|row rows IH]; intros w res w' l rs0 I St Ok_ F; cbn [tx_map] in F.
  - injection F as <- <-. cbn. rewrite app_nil_r. done.
  - tx_first F as r w1 E1. tx_first F as rest w2 E2. injection F as <- <-.
    apply Hf in E1 as (Fr & I1 & Eff); [|done]. destruct r as [a|].
    + destruct Eff as [Oa Sa].
      destruct (IH w1 rest w2 (l ++ [a]) rs0) as (Fr2 & I2 & O2 & S2 & Len); [done| | |done|].
      * intros margin. rewrite map_app. cbn [map]. eapply steps_snoc; [apply St|apply Sa|apply I1].
      * apply Forall_app. split; [done|]. by apply Forall_singleton.
      * rewrite <- app_assoc in O2. cbn [app] in O2. split; [by etransitivity|]. split; [done|]. split; [done|].
        split; [|cbn; by rewrite Len]. intros margin. specialize (S2 margin). by rewrite <- app_assoc in S2.
    + destruct (IH w1 rest w2 l rs0) as (Fr2 & I2 & O2 & S2 & Len); [done|by rewrite Eff|done|done|].
      split; [by etransitivity|]. split; [done|]. split; [done|]. split; [done|]. cbn. by rewrite Len.
Qed.

Lemma all_rows_effect {R} (f : R -> TX Db (option AppliedRow)) d rows w res w' :
  (forall row w res w', importable w -> f row w = Ok (res, w') -> row_effect d w w' res) ->
  importable w -> tx_map f rows w = Ok (res, w') ->
  frame w w' /\ importable w' /\ Forall applied_ok (applied_of res)
  /\ forall margin, applied_steps d (map (provenance margin) (applied_of res)) (costRules w) (costRules w').
Proof.
  intros Hf I F. destruct (rows_effect f d rows Hf w res w' [] (costRules w)) as (Fr & I' & Ok_ & St & _); try done.
  intros margin. apply steps_none, I.
Qed.
End rows.
