(* ===== verification/CoupangFeesSafety.v ===== *)
(** * What the requests on the sales fee do to its history

    The same as [CoupangRulesSafety] for the table of sales fee rules, which
    has a single history, and for the creation of a product with its first
    costs. *)

From S2P Require Import Prelude JsNumber JsString JsDate.
From S2P Require Import DateNumber.
From S2P Require Import SecurityAudit.
From S2P Require Import Concurrency.
From S2P Require Import Transactions.
From S2P Require Import RequestBody.
From S2P Require Import Timeline.
From S2P Require Import RuledTable.
From S2P Require Import CoupangDb.
From S2P Require Import CoupangRules.
From S2P Require Import CoupangRulesSafety.

Local Open Scope Z_scope.

Section fees.
Context `{Icu, DecimalNumber} (uuid : nat -> str).

(** ** Statements *)

Lemma fee_history_row open w r : fee_table open w -> r ∈ feeRules w ->
  fee_history w !! fr_effectiveFrom r = Some (fr_salesFeeRate r).
Proof. intros T I. rewrite fee_history_hist. exact (hist_lookup fee_owner fr_salesFeeRate open _ _ T I). Qed.

Lemma fee_history_None open w d : fee_table open w ->
  fee_history w !! d = None <-> forall r, r ∈ feeRules w -> fr_effectiveFrom r <> d.
Proof.
  intros T. rewrite fee_history_hist, (hist_None fee_owner fr_salesFeeRate open _ _ _ T).
  split; [intros F r I; by apply F|intros F r I _; by apply F].
Qed.

Lemma fee_taken open w d : fee_table open w ->
  existsb (fun r => fr_effectiveFrom r =? d) (feeRules w) = true <-> is_Some (fee_history w !! d).
Proof.
  intros T. rewrite existsb_exists_iff. split.
  - intros (r & I & <-%Z.eqb_eq). eexists. by eapply fee_history_row.
  - intros [v E]. destruct (existsb (fun r => fr_effectiveFrom r =? d) (feeRules w)) eqn:X.
    + apply existsb_exists_iff in X as (r & I & Er). by exists r.
    + rewrite existsb_false_iff in X. assert (fee_history w !! d = None); [|congruence].
      apply (fee_history_None open); [done|]. intros r I. by apply Z.eqb_neq, X.
Qed.

Lemma fee_start_whole open w r : fee_table open w -> r ∈ feeRules w -> whole_day (fr_effectiveFrom r).
Proof.
  intros T I. pose proof (tb_days _ _ _ T) as D. rewrite Forall_forall in D. apply D.
  exact (list_elem_of_fmap_2 rl_from _ _ I).
Qed.

Lemma fee_by_id open w r : fee_table open w -> r ∈ feeRules w -> row_by_id (fr_id r) (feeRules w) = Some r.
Proof. intros T I. exact (row_by_id_in (feeRules w) r (tb_ids _ _ _ T) I). Qed.

Lemma insert_fee_rule_table open r w r' w' : fee_table open w -> whole_day (fr_effectiveFrom r) ->
  insert_fee_rule r w = Ok (r', w') ->
  r' = r /\ costRules w' = costRules w /\ products w' = products w /\ r ∈ feeRules w' /\
  fee_table ([] :: open) w' /\ fee_history w' = <[fr_effectiveFrom r := fr_salesFeeRate r]> (fee_history w).
Proof.
  intros T D. unfold insert_fee_rule. destruct (existsb (fun x => str_eqb (fr_id x) (fr_id r)) _) eqn:Ei; [done|].
  destruct (existsb (fun x => fr_effectiveFrom x =? _) _) eqn:Es; [done|]. destruct (negb _); [done|].
  intros [= <- <-]. apply existsb_id_false in Ei. rewrite existsb_false_iff in Es.
  assert (T' : table fee_owner ([] :: open) (feeRules w ++ [r])).
  { apply (table_insert fee_owner fr_salesFeeRate open _ r); [done..|].
    apply (hist_None fee_owner fr_salesFeeRate open _ _ _ T). intros x I _. by apply Z.eqb_neq, Es. }
  do 3 (split; [done|]). split; [apply elem_of_app; right; by apply list_elem_of_singleton|]. split; [done|].
  rewrite !fee_history_hist. exact (hist_insert fee_owner fr_salesFeeRate _ _ _ [] T').
Qed.

Lemma update_fee_rule_table open i c e w u w' : fee_table open w -> update_fee_rule i c e w = Ok (u, w') ->
  exists r r', row_by_id i (feeRules w) = Some r /\ fr_id r' = i /\
    fr_effectiveFrom r' = new_from c ?? fr_effectiveFrom r /\
    match new_rate c with
    | Some d => rate_column d = Ok (fr_salesFeeRate r')
    | None => fr_salesFeeRate r' = fr_salesFeeRate r
    end /\ fr_note r' = new_note c ?? fr_note r /\
    costRules w' = costRules w /\ products w' = products w /\ r' ∈ feeRules w' /\
    (whole_day (fr_effectiveFrom r') -> fee_table ([] :: open) w') /\
    fee_history w' = <[fr_effectiveFrom r' := fr_salesFeeRate r']> (delete (fr_effectiveFrom r) (fee_history w)).
Proof.
  intros T. unfold update_fee_rule. destruct (row_by_id i (feeRules w)) as [r|] eqn:Er; [|done].
  destruct (match new_rate c with Some d => rate_column d | None => _ end) as [rate|] eqn:Ew; [|done].
  cbn [result_bind]. set (r' := Build_FeeRule _ _ _ _ _ _).
  destruct (existsb _ _) eqn:Es; [done|]. destruct (negb _); [done|]. intros [= <- <-].
  exists r, r'. apply row_by_id_Some in Er as [I Ei]. simpl in Ei.
  assert (F : free_start fee_owner (feeRules w) r').
  { intros x Hx _ Ni Ef. rewrite existsb_false_iff in Es. specialize (Es x Hx). cbv beta in Es.
    simpl in Ef, Ni. unfold r' in Es. rewrite Ef, Z.eqb_refl in Es. simpl in Es.
    apply negb_false_iff, bool_decide_eq_true in Es. simpl in Ei. congruence. }
  split; [done|]. split; [done|]. split; [done|]. split.
  { simpl. destruct (new_rate c); [done|]. congruence. }
  do 3 (split; [done|]). split; [by apply (put_row_elem _ r); [| |left]|]. split.
  - intros D. by apply (table_put fee_owner open _ r).
  - rewrite !fee_history_hist. exact (hist_put fee_owner fr_salesFeeRate open _ r r' [] T I eq_refl eq_refl F).
Qed.

Lemma normalize_fee_table w : fee_table [[]] w ->
  exists w', normalizeSalesFeeRuleRanges w = Ok (tt, w') /\ fee_table [] w' /\
    costRules w' = costRules w /\ products w' = products w /\ fee_history w' = fee_history w /\
    feeRules w' = closed fee_owner [] (feeRules w).
Proof.
  intros T. unfold normalizeSalesFeeRuleRanges. 
  pose proof (normalize_closed fee_owner fee_ascending fee_ascending_start previousDate previousDate_day [[]]
    (feeRules w) [] (Some COUPANG_SALES_FEE_RULE_DATE_EXISTS) T) as N.
  rewrite of_owner_fee in N. rewrite N. clear N.
  eexists. split; [reflexivity|]. split; [by apply table_closed|]. do 2 (split; [done|]). split; [|done].
  rewrite !fee_history_hist. by apply hist_closed.
Qed.

(** A rule that was just written, after the pass. *)
Lemma fee_closed_row w w' r : fee_table [[]] w -> r ∈ feeRules w -> normalizeSalesFeeRuleRanges w = Ok (tt, w') ->
  row_by_id (fr_id r) (feeRules w')
  = Some (rl_ending ((fun d => d - msPerDay) <$> next_start (first_days (fee_history w)) (fr_effectiveFrom r)) r).
Proof.
  intros T I N. destruct (normalize_fee_table w T) as (w1 & N' & _ & _ & _ & _ & Ec). rewrite N' in N.
  injection N as <-. rewrite Ec, closed_by_id, (fee_by_id _ _ _ T I). cbn [fmap option_fmap option_map].
  change (str_eqb (fee_owner r) []) with true. do 2 f_equal. unfold target. f_equal. rewrite of_owner_fee. apply next_start_set.
  intros x. unfold first_days. rewrite elem_of_starts. symmetry. apply history_starts.
Qed.

Lemma fee_change_same o d v w0 w w' w1 : same_rules w0 w -> same_rules w' w1 ->
  fee_change o d v w w' -> fee_change o d v w0 w1.
Proof.
  intros [C F P] [C' F' P'] [T Co Hi]. unfold fee_table, fee_history in *.
  split; unfold fee_table, fee_history; rewrite ?C', ?F'; [done|congruence|]. by rewrite <- F.
Qed.

(** ** Transactions *)

Lemma fee_audit_same a act t x y : respects same_rules (fee_audit a act t x y).
Proof. apply audit_same. Qed.

(** A rule of the sales fee that starts on a new day. *)
Record fee_created (rate : dec) (d : Z) (note : option str) (w : Db) (a : SalesFeeAnswer) (w' : Db) : Prop := {
  fe_free : fee_history w !! d = None;
  fe_row : exists r, r ∈ feeRules w' /\ a = serializeSalesFeeRule r /\ fr_effectiveFrom r = d /\
    fr_note r = note /\ rate_column rate = Ok (fr_salesFeeRate r) /\
    fr_effectiveTo r = (fun n => n - msPerDay) <$> next_start (first_days (fee_history w)) d /\
    fee_change None d (fr_salesFeeRate r) w w';
  fe_products : product_ids w ⊆ product_ids w'
}.

Lemma create_fee_spec rate d note actor w a w' : fee_table [] w -> whole_day d ->
  create_fee_transaction uuid rate d note actor w = Ok (a, w') -> fee_created rate d note w a w'.
Proof.
  intros T D F. unfold create_fee_transaction in F. tx_first F as dup w0 E. injection E as Ed <-.
  destruct dup; [done|]. tx_first F as n w0 E. injection E as <- <-. tx_first F as t w0 E. injection E as <- <-.
  tx_first F as stored w0 L. apply tx_lift_inv in L as [L <-].
  tx_first F as r w1 E. apply (insert_fee_rule_table []) in E as (-> & Ec & Ep & Ir & T1 & Eh); [|done|done].
  cbn [fr_effectiveFrom fr_salesFeeRate] in Eh. set (r := Build_FeeRule _ _ _ _ _ _) in *.
  change (fee_history (set_draws _ w)) with (fee_history w) in Eh.
  tx_first F as [] w2 N. pose proof (fee_closed_row w1 w2 r T1 Ir N) as B.
  destruct (normalize_fee_table w1 T1) as (w2' & N' & T2 & Ec2 & Ep2 & Eh2 & _). rewrite N' in N. injection N as <-.
  tx_first F as r1 w3 E. unfold findUniqueOrThrow, find_fee_rule in E. tx_first E as o w4 E4. injection E4 as <- <-.
  change (uuid (draws w)) with (fr_id r) in E. rewrite B in E. injection E as <- <-. tx_first F as [] w4 E. injection F as <- <-.
  assert (S : same_rules w2' w4) by (eapply fee_audit_same; exact E).
  assert (Fr : fee_history w !! d = None).
  { apply (fee_history_None [] w d T). intros x I Ex. rewrite existsb_false_iff in Ed.
    specialize (Ed x I). by apply Z.eqb_neq in Ed. }
  split; [done| |].
  - apply row_by_id_Some in B as [B _]. eexists. split; [by rewrite (sr_fees _ _ S)|]. do 4 (split; [done|]). split.
    + simpl. f_equal. apply next_start_after. intros x Lx. unfold first_days. rewrite !elem_of_starts, Eh.
      by rewrite lookup_insert_ne by lia.
    + eapply fee_change_same; [reflexivity|exact S|]. split; [done|by rewrite Ec2, Ec|]. by rewrite Eh2, Eh.
  - transitivity (product_ids w2'); [|apply S]. unfold product_ids. by rewrite Ep2, Ep.
Qed.

(** A corrected rule of the sales fee. *)
Record fee_corrected (i : str) (b : body) (w : Db) (a : SalesFeeAnswer) (w' : Db) : Prop := {
  fd_row : exists old r data, row_by_id i (feeRules w) = Some old /\ r ∈ feeRules w' /\ fr_id r = i /\
    a = serializeSalesFeeRule r /\ fee_correction_data b = Ok (true, data) /\
    fr_effectiveFrom r = new_from data ?? fr_effectiveFrom old /\
    match new_rate data with
    | Some d => rate_column d = Ok (fr_salesFeeRate r)
    | None => fr_salesFeeRate r = fr_salesFeeRate old
    end /\
    fee_change (Some (fr_effectiveFrom old)) (fr_effectiveFrom r) (fr_salesFeeRate r) w w';
  fd_products : product_ids w ⊆ product_ids w'
}.

Lemma fee_correction_whole b g data d : fee_correction_data b = Ok (g, data) -> whole_day d ->
  whole_day (new_from data ?? d).
Proof.
  intros E D. unfold fee_correction_data in E. let_steps. injection E as _ <-. cbn [new_from].
  destruct (has_own b (js "effectiveFrom")).
  - destruct (requiredDateFromBody _) eqn:Er; [|done]. simplify_eq/=. by eapply requiredDate_whole.
  - by simplify_eq/=.
Qed.

Lemma correct_fee_spec i b actor w a w' : fee_table [] w ->
  correct_fee_transaction i b actor w = Ok (a, w') -> fee_corrected i b w a w'.
Proof.
  intros T F. unfold correct_fee_transaction in F. tx_first F as old w0 E. injection E as <- <-.
  destruct (row_by_id i (feeRules w)) as [old|] eqn:Eo; [|done].
  tx_first F as gd w0 L. apply tx_lift_inv in L as [L <-]. destruct gd as [g data]. destruct g; [|done].
  cbn [negb] in F. cbv zeta in F. tx_first F as dup w0 E. injection E as _ <-. destruct dup; [done|].
  tx_first F as ends w0 E. assert (w0 = w) as ->.
  { destruct (is_Some_b (new_from data)); [|by injection E as _ <-].
    tx_first E as x w1 E1. injection E1 as _ <-. by injection E as _ <-. }
  tx_first F as [] w1 U. apply (update_fee_rule_table []) in U
    as (old' & r & Ho & Ei & Ef & Er & _ & Ec & Ep & Ir & Tc & Eh); [|done].
  rewrite Eo in Ho. injection Ho as <-. apply row_by_id_Some in Eo as Io. destruct Io as [Io _].
  assert (T1 : fee_table [[]] w1).
  { apply Tc. rewrite Ef. eapply fee_correction_whole; [exact L|]. by eapply fee_start_whole. }
  tx_first F as [] w2 N. pose proof (fee_closed_row w1 w2 r T1 Ir N) as B.
  destruct (normalize_fee_table w1 T1) as (w2' & N' & T2 & Ec2 & Ep2 & Eh2 & _). rewrite N' in N. injection N as <-.
  tx_first F as r1 w3 E1. unfold findUniqueOrThrow, find_fee_rule in E1. tx_first E1 as o w4 E4. injection E4 as <- <-.
  rewrite Ei in B. rewrite B in E1. injection E1 as <- <-. tx_first F as [] w4 E1. injection F as <- <-.
  assert (S : same_rules w2' w4) by (eapply fee_audit_same; exact E1).
  apply row_by_id_Some in B as [B Bi].
  split.
  - eexists old, _, data. split; [done|]. split; [rewrite (sr_fees _ _ S); exact B|]. do 5 (split; [done|]).
    eapply fee_change_same; [reflexivity|exact S|]. split; [done|by rewrite Ec2, Ec|]. by rewrite Eh2, Eh.
  - transitivity (product_ids w2'); [|apply S]. unfold product_ids. by rewrite Ep2, Ep.
Qed.
End fees.
