(* ===== verification/CoupangRulesGuarantees.v ===== *)
(** * The promises of the Coupang rules

    The refinement of the rule tables to histories - finite maps from first
    days to settings - and what each request does to the setting in force on
    every day. *)

From S2P Require Import Prelude JsNumber JsString JsDate.
From S2P Require Import DateNumber.
From S2P Require Import Concurrency.
From S2P Require Import Transactions.
From S2P Require Import RequestBody.
From S2P Require Import FixedDecimals.
From S2P Require Import Timeline.
From S2P Require Import RuledTable.
From S2P Require Import CoupangDb.
From S2P Require Import CoupangRules.
From S2P Require Import CoupangRulesSafety.
From S2P Require Import CoupangFeesSafety.

Local Open Scope Z_scope.

Section guarantees.
Context `{Icu, DecimalNumber} (uuid : nat -> str).

(** A day on which a setting that starts on [s] is in force, given the others. *)
Definition governed {V} (h : gmap Z V) (s d : Z) : bool :=
  (s <=? d) && match next_start (first_days h) s with Some n => d <? n | None => true end.

Lemma cost_change_in_force p s v w w' q d : cost_change p None s v w w' ->
  in_force (cost_history w' q) d
  = if str_eqb q p && governed (cost_history w p) s d then Some v else in_force (cost_history w q) d.
Proof.
  intros [_ _ E O]. unfold str_eqb. case_bool_decide as Q; [subst q|by rewrite O].
  rewrite E, in_force_insert. done.
Qed.

(** C19: the rule that the code selects for a day out of all rules of a
    product - the ones that started and did not end, latest first - is the one
    of the abstract history, a map from first days to costs, whose first day
    is the last one not after the day; the same for the sales fee, both as
    reports select it and as the current-fee request does. *)
Theorem selected_rule_in_force w p d :
  rules_invariant w -> whole_day d ->
  cr_costs <$> findRuleForDate (rules_of p (costRules w)) d = in_force (cost_history w p) d /\
  fr_salesFeeRate <$> findSalesFeeRuleForDate (feeRules w) d = in_force (fee_history w) d /\
  fr_salesFeeRate <$> rule_on newest_first (feeRules w) d = in_force (fee_history w) d.
Proof.
  intros [C F] D. split; [|split].
  - exact (rule_on_in_force cr_costs descending _ d (cost_timeline w p C) D).
  - exact (rule_on_in_force fr_salesFeeRate descending _ d (fee_timeline w F) D).
  - exact (rule_on_in_force fr_salesFeeRate newest_first _ d (fee_timeline w F) D).
Qed.

(** C20: when the costs of a product are saved for a day, these costs are in
    force from that day until the day before the next rule of the product,
    every other day and every other product keeps its costs, and both tables
    stay timelines.  Each of the seven amounts of the saved rule, and its return
    rate, is the one given, or else the one that was in force on that day, or
    else zero.  A shipping fee that the body has, be it null or blank, is what
    the body says - then none -, and one that it lacks is the one in force, or
    none.  The rule's own sales fee and rate stay those of the rule that started
    on the day, or are zero, and its note is the one given or in force.  The
    answer names the last day and the next rule, and says whether the day had a
    rule before. *)
Theorem updateProductConfiguration_saves id b actor w res c w' :
  rules_invariant w ->
  run [] (updateProductConfiguration uuid id b actor) w = (Ok (res, Some c), w') ->
  let from := cr_effectiveFrom (changedRule c) in
  let before := cost_history w id in
  rules_invariant w' /\
  requiredDateFromBody (body_field b (js "effectiveFrom")) = Ok from /\
  (forall q d, in_force (cost_history w' q) d
     = if str_eqb q id && governed before from d
       then Some (cr_costs (changedRule c)) else in_force (cost_history w q) d) /\
  (forall f, holds_money f dec_zero (settled_money b (in_force before from) (before !! from) f) (changedRule c)) /\
  (forall f, shipping_column (settled_shipping b (in_force before from) f) = Ok (get_shipping f (cr_costs (changedRule c)))) /\
  costNote (cr_costs (changedRule c)) = settled_note b (in_force before from) (before !! from) /\
  (operation c = UPDATED_SAME_DATE <-> is_Some (before !! from)) /\
  cr_effectiveTo (changedRule c) = (fun d => d - msPerDay) <$> next_start (first_days before) from /\
  nextRuleEffectiveFrom c = formatDateOnly <$> next_start (first_days before) from.
Proof.
  intros I F from before. unfold updateProductConfiguration, of_result in F.
  destruct (assertGlobalSalesFeeFieldsNotPresent b) as [[]|]; [|done].
  destruct (assertCoupangCostEffectiveToNotPresent b) as [[]|]; [|done]. cbn [bind call run] in F.
  destruct (tx_rethrow _ _ w) as [[[r0 c0] w0]|] eqn:T; [|done]. simpl in F. simplify_eq/=.
  apply tx_rethrow_inv, (configuration_spec uuid _ _ _ _ _ _ _ I) in T as [_ [S1 S2 S3 S4 S5 _ [S6 S7 S8]]].
  split; [by eapply cost_change_invariant|]. split; [done|]. split; [|by auto].
  intros q d. by eapply cost_change_in_force.
Qed.


(** A new rule of the sales fee is accepted only for a day on which no
    rule starts; then the given rate, rounded to the column, is in force from
    that day until the next rule, the answer is that rule, and nothing else
    changes.  On a day that has a rule the request is refused with
    [COUPANG_SALES_FEE_RULE_DATE_EXISTS] and changes nothing. *)
Theorem createSalesFeeRule_spec b actor w a w' :
  rules_invariant w ->
  run [] (createSalesFeeRule uuid b actor) w = (a, w') ->
  match a with
  | Ok answer => rules_invariant w' /\
      exists rate from r, salesFeeRateFromPercentBody (body_field b (js "salesFeePercent")) = Ok rate /\
        requiredDateFromBody (body_field b (js "effectiveFrom")) = Ok from /\
        fee_history w !! from = None /\
        r ∈ feeRules w' /\ answer = serializeSalesFeeRule r /\ rate_column rate = Ok (fr_salesFeeRate r) /\
        (forall d, in_force (fee_history w') d
           = if governed (fee_history w) from d then Some (fr_salesFeeRate r) else in_force (fee_history w) d) /\
        costRules w' = costRules w
  | Throws e => w' = w /\
      forall rate from, salesFeeRateFromPercentBody (body_field b (js "salesFeePercent")) = Ok rate ->
        requiredDateFromBody (body_field b (js "effectiveFrom")) = Ok from ->
        is_Some (fee_history w !! from) -> e = COUPANG_SALES_FEE_RULE_DATE_EXISTS
  end.
Proof.
  intros [C F] R. unfold createSalesFeeRule, of_result in R.
  destruct (salesFeeRateFromPercentBody _) as [rate|e1] eqn:Er; [|by injection R as <- <-].
  destruct (requiredDateFromBody _) as [from|e2] eqn:Ef; [|by injection R as <- <-]. cbn [bind call run] in R.
  destruct (tx_rethrow _ _ w) as [[r0 w0]|e] eqn:T; injection R as <- <-.
  - apply tx_rethrow_inv, create_fee_spec in T as [Fr (r & Ir & Ea & Es & _ & Ec & _ & Ch) Pr];
      [|done|by eapply requiredDate_whole].
    destruct Ch as [T' Co Eh]. split.
    { split; [|done]. split; rewrite Co; [apply C|]. intros x Hx. by apply Pr, C. }
    exists rate, from, r. do 6 (split; [done|]). split; [|done]. intros d. rewrite Eh. apply in_force_insert.
  - split; [done|]. intros ? ? [= <-] [= <-] X. unfold tx_rethrow, create_fee_transaction, tx_bind, tx_get in T.
    rewrite (proj2 (fee_taken [] w from F) X) in T. unfold tx_throw in T. by injection T as <-.
Qed.
End guarantees.

(** ** A concrete table *)

Section example.
#[local] Existing Instance c_locale.
#[local] Existing Instance fixed.

Definition example_uuid (n : nat) : str := js "id" ++ digits (Z.of_nat n).

Definition example_costs (price : Z) : Costs :=
  build_costs (fun f => match f with SalePrice => price * million | ProductCost => 3000 * million | _ => 0 end)
    (fun _ => Some (2500 * million)) None.

Definition example_day (s : string) : Z := date_of_iso (js s).

Definition example_rule (id : string) (price : Z) (from : string) (to : option string) : CostRule :=
  {| cr_id := js id; cr_productId := js "p1"; cr_costs := example_costs price;
     cr_effectiveFrom := example_day from; cr_effectiveTo := example_day <$> to; cr_createdAt := 0 |}.

Definition example_db : Db :=
  {| products := [{| pr_id := js "p1"; pr_groupId := None; standardName := js "a"; pr_displayName := js "A";
                     pr_sortOrder := ofZ 1; pr_isActive := true; pr_createdAt := 0 |}];
     costRules := [example_rule "r1" 10000 "2024-01-01" (Some "2024-02-29"%string);
                   example_rule "r2" 12000 "2024-03-01" None];
     feeRules := [{| fr_id := js "f1"; fr_salesFeeRate := 108000; fr_effectiveFrom := example_day "2024-01-01";
                     fr_effectiveTo := None; fr_note := None; fr_createdAt := 0 |}];
     mappingRules := []; groups := []; batches := []; saleLines := []; adMetrics := []; rowErrors := [];
     promotions := []; productUses := []; ruleUses := []; appUsers := [js "u1"]; auditLog := [];
     time := example_day "2024-02-10"; draws := 0 |}.

Lemma example_invariant : rules_invariant example_db.
Proof.
  split; [split|].
  - apply (table_single cr_productId (js "p1")); vm_compute; reflexivity.
  - intros r Hr. repeat (apply elem_of_cons in Hr as [->|Hr]; [vm_compute; left|]). by apply elem_of_nil in Hr.
  - apply (table_single fee_owner []); vm_compute; reflexivity.
Qed.

Lemma selected_rule_in_force_witness :
  rules_invariant example_db /\
  cr_id <$> findRuleForDate (rules_of (js "p1") (costRules example_db)) (example_day "2024-02-29") = Some (js "r1") /\
  cr_costs <$> findRuleForDate (rules_of (js "p1") (costRules example_db)) (example_day "2024-02-29")
  = in_force (cost_history example_db (js "p1")) (example_day "2024-02-29").
Proof.
  split; [exact example_invariant|]. split; [vm_compute; reflexivity|].
  exact (proj1 (selected_rule_in_force example_db (js "p1") (example_day "2024-02-29") example_invariant
    ltac:(apply Z.mod_divide; [done|vm_compute; reflexivity]))).
Defined.

Definition example_body : body :=
  [(js "salePriceKrw", Number (ofZ 11000)); (js "sellerShippingFeeKrw", Number (ofZ 2000));
   (js "hanaroShippingFeeKrw", Null); (js "effectiveFrom", Text (js "2024-02-01"))].

Definition answered {A} (x : result A * Db) (default : A) : A :=
  match x.1 with Ok a => a | Throws _ => default end.

Definition example_saved := run [] (updateProductConfiguration example_uuid (js "p1") example_body (Some (js "u1"))) example_db.

#[local] Strategy expand [example_saved].

(** The new rule starts on the 1st of February and ends before the 1st of March. *)
Example example_saved_change :
  match example_saved.1 with
  | Ok (_, Some c) => (cr_effectiveTo (changedRule c), salePriceKrw (cr_costs (changedRule c)),
                       productCostKrw (cr_costs (changedRule c)), nextRuleEffectiveFrom c)
                      = (Some (example_day "2024-02-29"), 11000 * million, 3000 * million, Some (js "2024-03-01"))
  | _ => False
  end.
Proof. vm_compute. reflexivity. Qed.

Lemma example_saved_ok : match example_saved with (Ok (_, Some _), _) => True | _ => False end.
Proof. vm_compute. exact I. Qed.

Lemma updateProductConfiguration_saves_witness : exists res c w',
  run [] (updateProductConfiguration example_uuid (js "p1") example_body (Some (js "u1"))) example_db
  = (Ok (res, Some c), w') /\ rules_invariant w'.
Proof.
  pose proof example_saved_ok as S.
  destruct example_saved as [[[res [c|]]|] w'] eqn:E; [|destruct S..].
  exists res, c, w'. split; [exact E|].
  exact (proj1 (@updateProductConfiguration_saves c_locale fixed example_uuid (js "p1") example_body (Some (js "u1")) example_db res c w' example_invariant E)).
Defined.

Definition example_correction : body :=
  [(js "productCostKrw", Number (ofZ 3500)); (js "effectiveFrom", Text (js "2024-02-15"))].

Definition example_corrected :=
  run [] (correctProductCostRule (js "p1") (js "r2") example_correction (Some (js "u1"))) example_db.

#[local] Strategy expand [example_corrected].

(** The corrected rule keeps its price; the rule before it now ends on the 14th. *)
Example example_corrected_rule :
  match example_corrected with
  | (Ok r, w) => (cr_effectiveFrom r, salePriceKrw (cr_costs r), productCostKrw (cr_costs r),
                  cr_effectiveTo <$> row_by_id (js "r1") (costRules w))
                 = (example_day "2024-02-15", 12000 * million, 3500 * million, Some (Some (example_day "2024-02-14")))
  | _ => False
  end.
Proof. vm_compute. reflexivity. Qed.


Definition example_fee : body :=
  [(js "salesFeePercent", Number (decimal 105 1)); (js "effectiveFrom", Text (js "2024-03-01"))].

Definition example_fee_created := run [] (createSalesFeeRule example_uuid example_fee (Some (js "u1"))) example_db.

#[local] Strategy expand [example_fee_created].

Example example_fee_answer :
  match example_fee_created with
  | (Ok a, w) => (sf_salesFeePercent a, sf_effectiveTo a, in_force (fee_history w) (example_day "2024-03-05"),
                  in_force (fee_history w) (example_day "2024-02-05"))
                 = (decimal 105 1, None, Some 105000, Some 108000)
  | _ => False
  end.
Proof. vm_compute. reflexivity. Qed.

Lemma createSalesFeeRule_spec_witness : exists a w',
  run [] (createSalesFeeRule example_uuid example_fee (Some (js "u1"))) example_db = (Ok a, w') /\ rules_invariant w'.
Proof.
  pose proof example_fee_answer as S. destruct example_fee_created as [[a|] w'] eqn:E; [|destruct S].
  exists a, w'. split; [exact E|].
  exact (proj1 (@createSalesFeeRule_spec c_locale fixed example_uuid example_fee (Some (js "u1")) example_db (Ok a) w' example_invariant E)).
Defined.

(** ** Fields that a request omitted

    The transport classes are compiled for ES2022, so an instance owns every
    optional field it declares, with the value [undefined]. *)

Definition omitted (names : list string) : body := map (fun n => (js n, Undefined)) names.

Definition dto_cost_fields : list string :=
  ["salePriceKrw"; "supplyPriceKrw"; "productCostKrw"; "sellerShippingFeeKrw"; "hanaroShippingFeeKrw";
   "growthInboundFeeKrw"; "growthShippingFeeKrw"; "returnRate"; "returnCostPerUnitKrw"; "extraCostKrw";
   "effectiveFrom"; "note"]%string.

Definition rename_body : body :=
  omitted (dto_cost_fields ++ ["standardName"; "groupId"; "sortOrder"; "isActive"]%string)
  ++ [(js "displayName", Text (js "B"))].

Definition example_renamed : Db :=
  (run [] (updateProductSetting example_uuid (js "p1") rename_body (Some (js "u1"))) example_db).2.

Definition shipping_on (w : Db) (d : Z) : option (option dec) :=
  sellerShippingFeeKrw <$> in_force (cost_history w (js "p1")) d.

(** Renaming a product starts a cost rule today and clears its shipping fees. *)
Example rename_clears_shipping :
  shipping_on example_db (example_day "2024-02-10") = Some (Some (2500 * million))
  /\ shipping_on example_renamed (example_day "2024-02-10") = Some None.
Proof. split; vm_compute; reflexivity. Qed.

Definition correction_body : body :=
  (js "productCostKrw", Number (ofZ 3500))
  :: omitted (List.filter (fun n => negb (String.eqb n "productCostKrw")) dto_cost_fields
              ++ ["salesFeeRate"; "salesFeeKrw"]%string).

(** A correction of the product cost alone is refused for the omitted fee rate. *)
Example correction_of_one_field_refused :
  match (run [] (correctProductCostRule (js "p1") (js "r2") correction_body (Some (js "u1"))) example_db).1 with
  | Throws e => err_code e = js "INVALID_SALES_FEE_RATE"
  | Ok _ => False
  end.
Proof. vm_compute. reflexivity. Qed.
End example.
