(* ===== verification/CoupangUploadsGuarantees.v ===== *)
(** * The promises of the Coupang uploads

    Removing an upload of costs takes back exactly what its import did to the
    cost rules; it refuses to when they changed since. *)

From S2P Require Import Prelude JsNumber JsString JsDate.
From S2P Require Import DateNumber.
From S2P Require Import SecurityAudit.
From S2P Require Import Concurrency.
From S2P Require Import Transactions.
From S2P Require Import RequestBody.
From S2P Require Import FixedDecimals.
From S2P Require Import Timeline.
From S2P Require Import RuledTable.
From S2P Require Import RuledErasure.
From S2P Require Import CoupangPriceText.
From S2P Require Import CoupangMargin.
From S2P Require Import CoupangDb.
From S2P Require Import CoupangVersions.
From S2P Require Import CoupangRules.
From S2P Require Import CoupangUploads.
From S2P Require Import CoupangCostUploads.
From S2P Require Import CoupangRulesSafety.
From S2P Require Import CoupangRollback.
From S2P Require Import CoupangImports.
From S2P Require Import CoupangRulesGuarantees.

Local Open Scope Z_scope.

Lemma tx_bind_ok {W A B} (m : TX W A) (f : A -> TX W B) w a w' : m w = Ok (a, w') -> tx_bind m f w = f a w'.
Proof. unfold tx_bind. by intros ->. Qed.

Lemma tx_ret_inv {W A} (a b : A) (w w' : W) : tx_ret a w = Ok (b, w') -> b = a /\ w' = w.
Proof. by intros [= <- <-]. Qed.

Section removal.
Context `{IcuLaws, DecimalLaws}.

(** ** Statements of the removal that leave rules, fees and uploads alone *)

Record untouched (w w' : Db) : Prop := {
  un_frame : frame w w';
  un_rules : costRules w' = costRules w
}.

#[export] Instance untouched_preorder : PreOrder untouched.
Proof. split; [by intros w; split|]. intros a b c [? ?] [? ?]. split; [by etransitivity|congruence]. Qed.

Definition quiet (f : TX Db unit) : Prop := forall w, exists w', f w = Ok (tt, w') /\ untouched w w'.

Lemma quiet_tx_ret : quiet (tx_ret tt).
Proof. intros w. by exists w. Qed.

Lemma quiet_tx_seq f g : quiet f -> quiet g -> quiet (tx! _ := f in g).
Proof.
  intros F G w. destruct (F w) as (w1 & E1 & U1). destruct (G w1) as (w2 & E2 & U2). exists w2.
  unfold tx_bind. rewrite E1, E2. split; [done|]. by etransitivity.
Qed.

Lemma quiet_tx_get {A} (h : Db -> A) (f : A -> TX Db unit) : (forall a, quiet (f a)) -> quiet (tx! a := tx_get h in f a).
Proof. intros F w. unfold tx_bind, tx_get. apply F. Qed.

Lemma quiet_tx_each {A} (f : A -> TX Db unit) l : (forall a, quiet (f a)) -> quiet (tx_each f l).
Proof. intros F. induction l as [|a l IH]; [apply quiet_tx_ret|]. by apply quiet_tx_seq. Qed.

Lemma quiet_tx_if (b : bool) f g : quiet f -> quiet g -> quiet (if b then f else g).
Proof. by destruct b. Qed.

Lemma quiet_tx_set (f : Db -> Db) : (forall w, untouched w (f w)) -> quiet (fun w => Ok (tt, f w)).
Proof. intros F w. by exists (f w). Qed.

Lemma quiet_delete_product i : quiet (deleteCoupangProductIfUnused i).
Proof.
  intros w. unfold deleteCoupangProductIfUnused. destruct (_ && _); eexists; (split; [reflexivity|]); [|done].
  by split; [split|].
Qed.

Lemma quiet_rules_deleted l : quiet (delete_mapping_rules l).
Proof. apply quiet_tx_set. intros w. by split; [split|]. Qed.

Lemma quiet_rules_deactivated l : quiet (deactivate_mapping_rules l).
Proof. apply quiet_tx_set. intros w. by split; [split|]. Qed.

(** ** The effects of an upload *)

Lemma price_effects_taken_back d l rs1 w : applied_steps d l rs1 (costRules w) ->
  Forall (fun a => id_text (pv_productId a)) l ->
  exists w', deletePriceTextUploadEffects l w = Ok (tt, w') /\ costRules w' = rs1 /\ frame w w'.
Proof.
  intros A I. unfold deletePriceTextUploadEffects, tx_bind. rewrite (rollback_restores d l rs1 w A I).
  destruct (quiet_tx_each deleteCoupangProductIfUnused (uniqueNonEmpty (map pv_productId l)) quiet_delete_product
              (set_costRules rs1 w)) as (w' & -> & [Fr Er]).
  exists w'. split; [done|]. split; [done|]. etransitivity; [|exact Fr]. by split.
Qed.

Lemma margin_effects_taken_back d l rs1 w : applied_steps d l rs1 (costRules w) ->
  Forall (fun a => id_text (pv_productId a)) l ->
  exists w', deleteMarginUploadEffects l w = Ok (tt, w') /\ costRules w' = rs1 /\ frame w w'.
Proof.
  intros A I. unfold deleteMarginUploadEffects. set (created := uniqueNonEmpty _).
  assert (Q : quiet (tx! _ :=
    (if truthy_list created then
       tx! uses := tx_get ruleUses in
       let referenced := List.filter (fun i => bool_decide (i ∈ uses)) created in
       let free := List.filter (fun i => negb (bool_decide (i ∈ uses))) created in
       tx! _ := (if truthy_list free then delete_mapping_rules free else tx_ret tt) in
       if truthy_list referenced then deactivate_mapping_rules referenced else tx_ret tt
     else tx_ret tt) in
    tx_each deleteCoupangProductIfUnused (uniqueNonEmpty (map pv_productId l)))).
  { apply quiet_tx_seq; [apply quiet_tx_if; [|apply quiet_tx_ret]|apply quiet_tx_each, quiet_delete_product].
    apply quiet_tx_get. intros uses. apply quiet_tx_seq; apply quiet_tx_if;
      apply quiet_tx_ret || apply quiet_rules_deleted || apply quiet_rules_deactivated. }
  unfold tx_bind at 1. rewrite (rollback_restores d l rs1 w A I).
  destruct (Q (set_costRules rs1 w)) as (w' & E & [Fr Er]).
  exists w'. split; [exact E|]. split; [done|]. etransitivity; [|exact Fr]. by split.
Qed.

(** ** The request *)

(** The audit record of a removal is accepted. *)
Lemma removal_audited actor i upload w : truthy actor = true -> actor ∈ appUsers w -> (List.length i <= 128)%nat ->
  exists w', audit (Some actor) "COUPANG_UPLOAD_DELETE" "COUPANG_UPLOAD_BATCH" i
      (Some (JObj [(js "sourceType", JStr (source_name (sourceType upload)));
                   (js "status", JStr (status_name (ub_status upload)));
                   (js "rowCount", JNum (ofZ (rowCount upload)))]))
      (Some (JObj [(js "deleted", JBool true)])) w = Ok (tt, w')
    /\ costRules w' = costRules w /\ feeRules w' = feeRules w /\ batches w' = batches w
    /\ saleLines w' = saleLines w /\ adMetrics w' = adMetrics w.
Proof.
  intros T I L. unfold audit, write_audit, securityAuditData. cbn [action targetType targetId actorType actorUserId].
  change (is_code 95 _) with true. change (is_code 63 _) with true. cbn [negb].
  replace (truthy_opt (Some i) && _) with false.
  2:{ symmetry. apply andb_false_iff. right. apply N.ltb_ge. cbn. lia. }
  cbn [truthy_opt]. rewrite T. cbn [negb andb orb bool_decide decide].
  replace (safe_opt _) with true.
  2:{ symmetry. unfold safe_opt. cbn [beforeJson assertSafeAuditJson forallb]. unfold forbidden_key, normalized_key.
      rewrite !to_lower_ascii by reflexivity. reflexivity. }
  replace (safe_opt _) with true.
  2:{ symmetry. unfold safe_opt. cbn [afterJson assertSafeAuditJson forallb]. unfold forbidden_key, normalized_key.
      rewrite !to_lower_ascii by reflexivity. reflexivity. }
  rewrite (bool_decide_eq_true_2 (USER = USER)) by done. cbn. rewrite bool_decide_eq_true_2 by done.
  eexists. split; [reflexivity|]. done.
Qed.

(** What the removal leaves of an upload of costs whose rows are known. *)
Lemma removal_restores d u i actor l rs1 w :
  List.find (fun b => str_eqb (ub_id b) i) (batches w) = Some u -> ub_id u = i ->
  match sourceType u with
  | PRICE_TEXT => priceTextAppliedRows (columnSchema u) (validRowCount u) = Ok l
  | MARGIN => marginAppliedRows (columnSchema u) (validRowCount u) = Ok l
  | _ => False
  end ->
  applied_steps d l rs1 (costRules w) -> Forall (fun a => id_text (pv_productId a)) l ->
  truthy actor = true -> actor ∈ appUsers w -> (List.length i <= 128)%nat ->
  exists w', run [] (deleteUpload i (Some actor)) w = (Ok u, w')
    /\ costRules w' = rs1 /\ feeRules w' = feeRules w
    /\ batches w' = List.filter (fun b => negb (str_eqb (ub_id b) i)) (batches w).
Proof.
  intros Fu Ei Src A Ids T Iu L. unfold deleteUpload. rewrite run_bind, run_call.
  unfold assertUpload, find_batch. unfold tx_bind at 1, tx_get at 1. rewrite Fu. cbn [tx_ret].
  set (w1 := set_adMetrics (without_batch i (adMetrics w)) (set_saleLines (without_batch i (saleLines w))
    (set_rowErrors (List.filter (fun e => negb (str_eqb (re_batchId e) i)) (rowErrors w)) w))).
  assert (D : forall pt mg,
    (exists w2, (tx! _ := match pt with Some rows => deletePriceTextUploadEffects rows | None => tx_ret tt end in
                 match mg with Some rows => deleteMarginUploadEffects rows | None => tx_ret tt end) w1 = Ok (tt, w2)
                /\ costRules w2 = rs1 /\ frame w1 w2) ->
    exists w', delete_transaction u pt mg (Some actor) w = Ok (u, w') /\ costRules w' = rs1
      /\ feeRules w' = feeRules w /\ batches w' = List.filter (fun b => negb (str_eqb (ub_id b) i)) (batches w)).
  { intros pt mg (w2 & E & Er & [Fb Fa Ff Ft]). unfold delete_transaction. rewrite Ei.
    unfold tx_bind at 1, tx_get at 1. cbv beta iota zeta. do 3 (unfold tx_bind at 1; cbv beta iota).
    match goal with |- exists w', ?f ?x = _ /\ _ => change x with w1 end.
    apply tx_bind_inv in E as ([] & wa & Ep & Em). rewrite (tx_bind_ok _ _ _ _ _ Ep), (tx_bind_ok _ _ _ _ _ Em).
    do 2 (unfold tx_bind at 1; cbv beta iota).
    match goal with |- exists w', tx_bind _ _ ?x = _ /\ _ => set (wb := x) end.
    assert (Bb : batches wb = batches w) by exact Fb.
    assert (Dl : exists wc, delete_batch i wb = Ok (u, wc) /\ costRules wc = rs1 /\ feeRules wc = feeRules w
      /\ appUsers wc = appUsers w /\ batches wc = List.filter (fun b => negb (str_eqb (ub_id b) i)) (batches w)).
    { unfold delete_batch. rewrite Bb, Fu. eexists. split; [reflexivity|]. cbn. by rewrite Er, Ff, Fa. }
    destruct Dl as (wc & Ed & Ec & Ef & Ea & Eb). rewrite (tx_bind_ok _ _ _ _ _ Ed).
    destruct (removal_audited actor i u wc) as (w' & Au & Ec' & Ef' & Eb' & _); [done|by rewrite Ea|done|].
    rewrite (tx_bind_ok _ _ _ _ _ Au). exists w'. split; [done|]. by rewrite Ec', Ef', Eb'. }
  assert (A1 : applied_steps d l rs1 (costRules w1)) by exact A.
  destruct (sourceType u) eqn:Su; try done; rewrite Src; cbn [result_bind]; rewrite !run_bind, run_of_result;
    rewrite run_bind, run_of_result, run_call.
  - destruct (D None (Some l)) as (w' & -> & R); [|by exists w'].
    unfold tx_bind, tx_ret. by apply (margin_effects_taken_back d).
  - destruct (D (Some l) None) as (w' & -> & R); [|by exists w'].
    destruct (price_effects_taken_back d l rs1 w1 A1 Ids) as (w2 & E & R). exists w2. unfold tx_bind. by rewrite E.
Qed.
End removal.

(** ** Imports and their removal *)

Section reservation.
Context `{IcuLaws, DecimalLaws} (uuid : nat -> str) (sha256 : str -> str) (random_text : nat -> str).

Definition other_batches (i : str) (l : list UploadBatch) : list UploadBatch :=
  List.filter (fun b => negb (str_eqb (ub_id b) i)) l.

(** An upload that is reserved: nothing but the upload itself changed. *)
Record reserved (source : CoupangUploadSourceType) (b : UploadBatch) (w w1 : Db) : Prop := {
  rv_found : List.find (fun x => str_eqb (ub_id x) (ub_id b)) (batches w1) = Some b;
  rv_source : sourceType b = source;
  rv_others : other_batches (ub_id b) (batches w1) = other_batches (ub_id b) (batches w);
  rv_costs : costRules w1 = costRules w;
  rv_fees : feeRules w1 = feeRules w;
  rv_users : appUsers w1 = appUsers w;
  rv_products : products w1 = products w;
  rv_time : time w1 = time w
}.

Lemma reserved_importable source b w w1 : reserved source b w w1 -> importable w -> importable w1.
Proof. intros [_ _ _ C _ _ P _] [G R I]. split; unfold product_ids in *; rewrite ?C, ?P; auto. Qed.

Lemma find_put i b b' l : List.find (fun x => str_eqb (ub_id x) i) l = Some b -> ub_id b' = i ->
  List.find (fun x => str_eqb (ub_id x) i) (put_batch b' l) = Some b'.
Proof.
  intros F E. induction l as [|x l IH]; [done|]. simpl in *. rewrite E. destruct (str_eqb (ub_id x) i) eqn:Q.
  - rewrite E. unfold str_eqb. by rewrite bool_decide_eq_true_2.
  - rewrite Q. by apply IH.
Qed.

Lemma others_put b' l : other_batches (ub_id b') (put_batch b' l) = other_batches (ub_id b') l.
Proof.
  induction l as [|x l IH]; [done|]. unfold other_batches, put_batch in *. cbn [map List.filter].
  destruct (str_eqb (ub_id x) (ub_id b')) eqn:Q; rewrite ?Q; cbn [negb]; [|by f_equal].
  unfold str_eqb at 1. rewrite bool_decide_eq_true_2 by done. exact IH.
Qed.

Lemma find_batch_id i l b : List.find (fun x => str_eqb (ub_id x) i) l = Some b -> ub_id b = i.
Proof. intros [_ E]%find_some. by apply bool_decide_eq_true in E. Qed.

Lemma fresh_others i l : existsb (fun x => str_eqb (ub_id x) i) l = false ->
  other_batches i l = l /\ forall b, ub_id b = i -> List.find (fun x => str_eqb (ub_id x) i) (l ++ [b]) = Some b.
Proof.
  intros E. induction l as [|x l IH].
  - split; [done|]. intros b <-. cbn. unfold str_eqb. by rewrite bool_decide_eq_true_2.
  - cbn [existsb] in E. apply orb_false_iff in E as [E El]. destruct (IH El) as [Eo Ef].
    split; [|intros b Eb; cbn; rewrite E; by apply Ef]. unfold other_batches. cbn [List.filter]. rewrite E. cbn [negb].
    f_equal. exact Eo.
Qed.

Lemma marker_draws source state w m w1 : newCoupangRetryMarker uuid source state w = Ok (m, w1) ->
  exists n, w1 = set_draws n w.
Proof.
  unfold newCoupangRetryMarker. intros F. tx_first F as t wt Et. injection Et as <- <-.
  tx_first F as k wk Ek. unfold tx_draw in Ek. injection Ek as <- <-. injection F as <- <-. by eexists.
Qed.

Lemma created_reserved input actor w b w1 : createBatch uuid sha256 random_text input actor w = Ok (b, w1) ->
  reserved (in_sourceType input) b w w1 /\ actor ∈ appUsers w /\ (exists n, ub_id b = uuid n)
  /\ other_batches (ub_id b) (batches w) = batches w.
Proof.
  unfold createBatch. intros F. tx_first F as schema wa Ea. tx_first F as hash wb Eb.
  assert (Fr : exists n, wb = set_draws n w).
  { assert (Fa : exists n, wa = set_draws n w).
    { destruct (isCoupangRetrySource _); [|injection Ea as <- <-; exists (draws w); by destruct w].
      tx_first Ea as m wm Em. injection Ea as <- <-. by eapply marker_draws. }
    destruct Fa as [n ->]. destruct (_ && _); [injection Eb as <- <-; by exists n|].
    unfold duplicateBatchHash in Eb. tx_first Eb as t wt Et. injection Et as <- <-.
    tx_first Eb as k wk Ek. unfold tx_draw in Ek. injection Ek as <- <-. apply tx_ret_inv in Eb as [_ ->]. by eexists. }
  destruct Fr as [n ->]. tx_first F as k wc Ec. unfold tx_draw in Ec. injection Ec as <- <-.
  tx_first F as t wd Ed. unfold tx_get in Ed. injection Ed as <- <-. unfold insert_batch in F.
  destruct (existsb _ _) eqn:Fi; [done|]. destruct (existsb (fun x => str_eqb (fileHashSha256 x) _) _); [done|].
  cbn [uploadedBy] in F. destruct (bool_decide _) eqn:Bu; [|done]. apply bool_decide_eq_true in Bu.
  injection F as <- <-. cbn [ub_id batches set_batches set_draws] in *. destruct (fresh_others _ _ Fi) as [Eo Ef].
  split; [|split; [done|split; [by eexists|done]]]. split; try done.
  - cbn [ub_id]. by apply Ef.
  - cbn [ub_id batches set_batches set_draws]. unfold other_batches at 1. rewrite List.filter_app.
    cbn [List.filter ub_id]. unfold str_eqb at 2. rewrite bool_decide_eq_true_2 by done. apply app_nil_r.
Qed.

Lemma update_if_reserved i status schema f w n w1 b :
  (forall b, ub_id (f b) = ub_id b /\ sourceType (f b) = sourceType b) ->
  List.find (fun x => str_eqb (ub_id x) i) (batches w) = Some b ->
  update_batch_if i status schema f w = Ok (n, w1) ->
  n = 1%nat -> reserved (sourceType b) (f b) w w1.
Proof.
  intros K F. unfold update_batch_if. rewrite F. destruct (_ && _); [|by intros [= <- <-]].
  destruct (user_missing _ _ _); [done|]. intros [= <- <-] _. pose proof (find_batch_id _ _ _ F) as <-.
  destruct (K b) as [Ki Ks]. split; try done; cbn [batches set_batches].
  - rewrite Ki. by apply (find_put _ b).
  - apply others_put.
Qed.

Lemma owns_nothing s a (p r : nat) x1 x2 x3 x4 :
  (0 <? s)%nat || (0 <? a)%nat || (0 <? p)%nat || (0 <? r)%nat || x1 || x2 || x3 || x4 = false -> s = 0%nat /\ a = 0%nat.
Proof. destruct s; [|done]. by destruct a. Qed.

Lemma claim_reserved batch source actor w b w1 :
  List.find (fun x => str_eqb (ub_id x) (ub_id batch)) (batches w) = Some batch ->
  run [] (claimCoupangRetryBatch uuid batch source actor) w = (Ok b, w1) ->
  reserved source b w w1 /\ ub_id b = ub_id batch
  /\ count_sale_lines (ub_id batch) w = 0%nat /\ count_ad_metrics (ub_id batch) w = 0%nat.
Proof.
  intros F. unfold claimCoupangRetryBatch. destruct (bool_decide (sourceType batch = source)) eqn:S; [|done].
  apply bool_decide_eq_true in S. cbn [negb]. rewrite run_bind, run_call. cbn [tx_get].
  do 3 (rewrite run_bind, run_call; cbn [tx_get]). destruct (_ || _) eqn:Owned; [done|]. apply owns_nothing in Owned.
  destruct (coupangRetryMarker _) as [marker|]; [|done]. destruct (_ || _); [done|].
  rewrite run_bind. change (run [] now w) with (@Ok Z (time w), w). cbv beta iota. destruct (_ && _); [done|].
  rewrite run_bind, run_call. destruct (newCoupangRetryMarker _ _ _ _) as [[fresh wa]|] eqn:Em; [|done].
  destruct (marker_draws _ _ _ _ _ Em) as [k ->]. rewrite run_bind, run_call.
  destruct (update_batch_if _ _ _ _ _) as [[n wb]|] eqn:U; [|done].
  destruct (bool_decide (n = 1%nat)) eqn:N; [|done]. intros [= <- <-]. apply bool_decide_eq_true in N.
  eapply (update_if_reserved _ _ _ _ (set_draws k w)) in U; [|done|exact F|done].
  rewrite S in U. split; [destruct U; by split|]. done.
Qed.

Lemma batch_found l b : NoDup (map ub_id l) -> b ∈ l -> List.find (fun x => str_eqb (ub_id x) (ub_id b)) l = Some b.
Proof.
  induction l as [|x l IH]; intros N I; [by apply not_elem_of_nil in I|]. apply NoDup_cons in N as [Nx N]. cbn.
  destruct (str_eqb (ub_id x) (ub_id b)) eqn:Q.
  - apply bool_decide_eq_true in Q. apply elem_of_cons in I as [->|I]; [done|]. destruct Nx. rewrite Q.
    by apply list_elem_of_fmap_2.
  - apply elem_of_cons in I as [->|I]; [|by apply IH]. unfold str_eqb in Q. by rewrite bool_decide_eq_true_2 in Q.
Qed.

(** The upload of a reservation is new, or one that owns no rows. *)
Definition new_or_empty (b : UploadBatch) (w : Db) : Prop :=
  ((exists n, ub_id b = uuid n) /\ other_batches (ub_id b) (batches w) = batches w)
  \/ exists b0, b0 ∈ batches w /\ ub_id b0 = ub_id b
       /\ count_sale_lines (ub_id b) w = 0%nat /\ count_ad_metrics (ub_id b) w = 0%nat.

Lemma reserve_reserved input actor w b w1 : NoDup (map ub_id (batches w)) ->
  run [] (reserveCoupangImportBatch uuid sha256 random_text input actor) w = (Ok (inr b), w1) ->
  reserved (in_sourceType input) b w w1
  /\ new_or_empty b w.
Proof.
  intros Nd. assert (Cl : forall b0, List.find (fun x => str_eqb (ub_id x) (ub_id b0)) (batches w) = Some b0 ->
    run [] (await b' := claimCoupangRetryBatch uuid b0 (in_sourceType input) actor in Ret (A := UploadBatch + UploadBatch) (inr b')) w
      = (Ok (inr b), w1) ->
    reserved (in_sourceType input) b w w1
    /\ new_or_empty b w).
  { intros b0 F R. run_steps. injection R as <- <-. pose proof F as [I _]%find_some.
    destruct (claim_reserved _ _ _ _ _ _ F R0) as (V & E & Cs & Ca). split; [done|]. right. exists b0. rewrite list_elem_of_In, E. done. }
  unfold reserveCoupangImportBatch. set (create := catch _ _).
  assert (Cr : find_batch_by_hash (in_fileHash input) w = Ok (None, w) \/ in_conflictPolicy input <> SKIP ->
    run [] create w = (Ok (inr b), w1) -> reserved (in_sourceType input) b w w1
    /\ new_or_empty b w).
  { intros Nf. unfold create. rewrite run_catch, run_bind, run_call.
    destruct (createBatch _ _ _ _ _ _) as [[b' wb]|e] eqn:Cb.
    - intros [= <- <-]. destruct (created_reserved _ _ _ _ _ Cb) as (V & _ & N & Eo). split; [done|]. by left.
    - destruct Nf as [Nf|Ns]; [|by rewrite bool_decide_eq_false_2].
      destruct (_ && _); [|done]. rewrite run_bind, run_call, Nf. done. }
  destruct (in_conflictPolicy input) eqn:P; [|apply Cr; by right..].
  rewrite run_bind, run_call. unfold reusableDuplicate at 1. cbn [tx_get].
  destruct (head _); [done|]. rewrite run_bind, run_call. unfold find_batch_by_hash at 1. cbn [tx_get].
  destruct (List.find _ (batches w)) as [b0|] eqn:F; [|apply Cr; left; unfold find_batch_by_hash, tx_get; by rewrite F].
  apply find_some in F as [I%list_elem_of_In _]. by apply Cl, batch_found.
Qed.

(** ** What the rows of a file leave to take back *)

(** The rows of a reserved upload, its outcome and its removal. *)
Lemma rows_taken_back {R} (margin : bool) (f : R -> TX Db (option AppliedRow)) rows schema d warnings source b actor w0 w1 w2 w3 applied t :
  let outcome := import_outcome schema d warnings applied in
  source = (if margin then MARGIN else PRICE_TEXT) ->
  (forall row w res w', importable w -> f row w = Ok (res, w') -> row_effect d w w' res) ->
  importable w0 -> reserved source b w0 w1 -> tx_map f rows w1 = Ok (applied, w2) ->
  (exists status schema', update_batch_if (ub_id b) status schema' (write_batch outcome t) w2 = Ok (1%nat, w3))
  \/ (exists x, update_batch (ub_id b) (write_batch outcome t) w2 = Ok (x, w3)) ->
  json_field schema (js "appliedRows") = None ->
  truthy actor = true -> actor ∈ appUsers w0 -> (List.length (ub_id b) <= 128)%nat ->
  exists u w', run [] (deleteUpload (ub_id b) (Some actor)) w3 = (Ok u, w')
    /\ costRules w' = costRules w0 /\ feeRules w' = feeRules w0 /\ batches w' = other_batches (ub_id b) (batches w0).
Proof.
  intros outcome Es Hf I V F U Na T Iu L. pose proof (reserved_importable _ _ _ _ V I) as I1.
  destruct (all_rows_effect f d rows w1 applied w2 Hf I1 F) as (Fr & I2 & Ok_ & St).
  assert (Fb : List.find (fun x => str_eqb (ub_id x) (ub_id b)) (batches w2) = Some b).
  { rewrite (fr_batches _ _ Fr). apply V. }
  assert (V' : reserved source (write_batch outcome t b) w2 w3).
  { rewrite <- (rv_source _ _ _ _ V). destruct U as [(status & schema' & U)|[x U]].
    - by eapply update_if_reserved.
    - unfold update_batch in U. rewrite Fb in U. injection U as <- <-. split; try done; cbn [batches set_batches].
      + by apply (find_put _ b).
      + apply (others_put (write_batch outcome t b)). }
  destruct (removal_restores d (write_batch outcome t b) (ub_id b) actor (map (provenance margin) (applied_of applied)) (costRules w1) w3)
    as (w' & E & Ec & Ef & Eb); try done.
  - apply V'.
  - rewrite (rv_source _ _ _ _ V'), Es. cbn [columnSchema validRowCount write_batch outcome import_outcome bd_schema bd_valid].
    destruct margin; by apply provenance_reads_back.
  - rewrite (rv_costs _ _ _ _ V'). apply St.
  - apply List.Forall_map. eapply Forall_impl; [exact Ok_|]. intros a Oa. apply Oa.
  - by rewrite (rv_users _ _ _ _ V'), (fr_users _ _ Fr), (rv_users _ _ _ _ V).
  - exists (write_batch outcome t b), w'. split; [done|]. split; [by rewrite Ec, (rv_costs _ _ _ _ V)|].
    split; [by rewrite Ef, (rv_fees _ _ _ _ V'), (fr_fees _ _ Fr), (rv_fees _ _ _ _ V)|].
    rewrite Eb. change (other_batches (ub_id (write_batch outcome t b)) (batches w3) = other_batches (ub_id b) (batches w0)).
    rewrite (rv_others _ _ _ _ V'), (fr_batches _ _ Fr). apply V.
Qed.

Lemma effective_from_reads b w r w' : run [] (effective_from b) w = (r, w') -> w' = w.
Proof.
  unfold effective_from. destruct (boolean_of _).
  - rewrite run_of_result. by intros [= <- <-].
  - rewrite run_bind. change (run [] now w) with (@Ok Z (time w), w). cbv beta iota. rewrite run_of_result.
    by intros [= <- <-].
Qed.

Lemma effective_from_time b w w1 : time w1 = time w -> (run [] (effective_from b) w1).1 = (run [] (effective_from b) w).1.
Proof.
  intros E. unfold effective_from. destruct (boolean_of _); [by rewrite !run_of_result|].
  rewrite !run_bind. change (run [] now w1) with (@Ok Z (time w1), w1). change (run [] now w) with (@Ok Z (time w), w).
  cbv beta iota. by rewrite !run_of_result, E.
Qed.

Lemma failed_columns_throw batch source missing w a w' :
  run [] (failMissingColumns batch source missing) w = (Ok a, w') -> False.
Proof.
  unfold failMissingColumns. intros R. run_steps. done.
Qed.

Lemma failure_throws {A} batch e w (a : A) w' : run [] (rethrowCoupangImportFailure batch e) w = (Ok a, w') -> False.
Proof.
  unfold rethrowCoupangImportFailure. destruct (refused e); [done|]. destruct (coupangRetryMarker _); [|done].
  rewrite run_bind. change (run [] now w) with (@Ok Z (time w), w). cbv beta iota. cbn [run].
  by destruct (update_batch_if _ _ _ _ _) as [[? ?]|].
Qed.
End reservation.

(** ** Taken back *)

Section taken_back.
Context `{IcuLaws, DecimalLaws} (uuid : nat -> str) (sha256 : str -> str) (random_text : nat -> str).
Context (uuid_ok : forall n, id_text (uuid n)) (uuid_length : forall n, (List.length (uuid n) <= 128)%nat).

(** C22: A price list taken back.  An import of a price list that succeeds, on
    cost rules that are stored and do not overlap, for a day whose text is read
    back, can be removed by its user at once, and the removal leaves every cost
    rule, fee rule and upload as they were before the import. *)
Theorem importPriceText_removed filename hash rows b actor w ans w1 :
  importable w -> (forall d, (run [] (effective_from b) w).1 = Ok d -> starting d) -> truthy actor = true ->
  run [] (importPriceText uuid sha256 random_text filename hash rows b actor) w = (Ok ans, w1) ->
  exists u w2, run [] (deleteUpload (an_batchId ans) (Some actor)) w1 = (Ok u, w2)
    /\ costRules w2 = costRules w /\ feeRules w2 = feeRules w /\ batches w2 = batches w.
Proof.
  intros I D T R. unfold importPriceText in R.
  apply run_bind_inv in R as (policy & wp & Rp & R). rewrite run_of_result in Rp. injection Rp as _ <-.
  apply run_bind_inv in R as (batch & wb & Rb & R). apply run_call_inv in Rb.
  destruct (created_reserved _ _ _ _ _ _ _ _ Rb) as (V & Iu & (n & Ei) & Eo).
  apply run_bind_inv in R as (d & wd & Rd & R). pose proof Rd as ->%effective_from_reads.
  specialize (D d). rewrite <- (effective_from_time b w wb), Rd in D by apply V. specialize (D eq_refl).
  apply run_bind_inv in R as (outcome & wo & Ro & R). apply run_call_inv in Ro. injection R as <- <-.
  unfold price_text_transaction in Ro. tx_first Ro as applied wa Ra. cbv zeta in Ro.
  tx_first Ro as t wt Rt. unfold tx_get in Rt. injection Rt as <- <-. tx_first Ro as x wx Rx.
  apply tx_ret_inv in Ro as [-> ->]. cbn [an_batchId answer_of]. rewrite <- Eo.
  eapply (rows_taken_back false (import_price_row uuid (ub_id batch) d)); [done| |exact I|exact V|exact Ra|right; by exists x|done..|].
  - intros row w0 res w0' I0. by apply price_row_effect.
  - rewrite Ei. apply uuid_length.
Qed.

(** C23: A margin sheet taken back.  The same holds of an import of a margin
    sheet that is not a duplicate, whether it created its upload or claimed one
    whose import had failed, for a user who exists: the removal returns the
    cost and fee rules, and of the uploads takes only that of the import. *)
Theorem importMarginCsv_removed filename hash sheet b actor w ans w1 :
  importable w -> (forall d, (run [] (effective_from b) w).1 = Ok d -> starting d) ->
  truthy actor = true -> actor ∈ appUsers w ->
  NoDup (map ub_id (batches w)) -> Forall (fun x => (List.length (ub_id x) <= 128)%nat) (batches w) ->
  run [] (importMarginCsv uuid sha256 random_text filename hash sheet b actor) w = (Ok (inr ans), w1) ->
  exists u w2, run [] (deleteUpload (an_batchId ans) (Some actor)) w1 = (Ok u, w2)
    /\ costRules w2 = costRules w /\ feeRules w2 = feeRules w
    /\ batches w2 = other_batches (an_batchId ans) (batches w).
Proof.
  intros I D T Iu Nd Fl R. unfold importMarginCsv in R.
  apply run_bind_inv in R as (policy & wp & Rp & R). rewrite run_of_result in Rp. injection Rp as _ <-.
  apply run_bind_inv in R as ([dup|batch] & wb & Rb & R); [done|].
  destruct (reserve_reserved _ _ _ _ _ _ _ _ Nd Rb) as (V & Ei). rewrite run_catch in R.
  destruct (run [] (bind _ _) wb) as [[a|e] wf] eqn:R'; [|by apply failure_throws in R]. injection R as -> ->.
  apply run_bind_inv in R' as (u & wu & Ru & R).
  assert (wu = wb) as ->.
  { destruct (truthy_list _); [by apply failed_columns_throw in Ru|]. by injection Ru. }
  apply run_bind_inv in R as (d & wd & Rd & R). pose proof Rd as ->%effective_from_reads.
  specialize (D d). rewrite <- (effective_from_time b w wb), Rd in D by apply V. specialize (D eq_refl).
  apply run_bind_inv in R as (outcome & wo & Ro & R). apply run_call_inv in Ro. injection R as <- <-.
  unfold margin_transaction in Ro. tx_first Ro as applied wa Ra. cbv zeta in Ro.
  tx_first Ro as y wy Ry. apply tx_ret_inv in Ro as [-> ->]. unfold finalizeCoupangReservation in Ry.
  tx_first Ry as t wt Rt. unfold tx_get in Rt. injection Rt as <- <-. tx_first Ry as n wn Rn.
  destruct (bool_decide (n = 1%nat)) eqn:N; [|done]. apply bool_decide_eq_true in N.
  apply tx_ret_inv in Ry as [_ ->]. cbn [an_batchId answer_of].
  eapply (rows_taken_back true (import_margin_row uuid (ub_id batch) d)); [done| |exact I|exact V|exact Ra| |try done..|].
  - intros row w0 res w0' I0. by apply margin_row_effect.
  - left. rewrite N in Rn. eauto.
  - reflexivity.
  - destruct Ei as [[[k ->] _]|(b0 & I0 & <- & _)]; [apply uuid_length|]. rewrite Forall_forall in Fl. by apply Fl.
Qed.
End taken_back.

(** ** Refused *)

Section refused.
Context `{IcuLaws, DecimalLaws}.

(** C24: The order of removals.  When the rule that the last row of an upload of
    costs wrote is gone, has another product or differs from what the upload
    noted of it, a later change is in the way: the removal is refused with the
    conflict of order, and nothing of the database changes. *)
Theorem deleteUpload_out_of_order u i actor l a w :
  List.find (fun b => str_eqb (ub_id b) i) (batches w) = Some u ->
  match sourceType u with
  | PRICE_TEXT => priceTextAppliedRows (columnSchema u) (validRowCount u) = Ok (l ++ [a])
  | MARGIN => marginAppliedRows (columnSchema u) (validRowCount u) = Ok (l ++ [a])
  | _ => False
  end ->
  (forall r, row_by_id (pv_costRuleId a) (costRules w) = Some r -> cr_productId r = pv_productId a ->
     serializeCoupangCostRuleRollbackSnapshot r <> pv_after a) ->
  run [] (deleteUpload i actor) w = (Throws COUPANG_UPLOAD_ROLLBACK_ORDER_CONFLICT, w).
Proof.
  intros Fu Src Ch. unfold deleteUpload. rewrite run_bind, run_call.
  unfold assertUpload, find_batch. unfold tx_bind at 1, tx_get at 1. rewrite Fu. cbn [tx_ret].
  assert (Rb : forall w0, costRules w0 = costRules w ->
    rollbackImportedCoupangCostRules (l ++ [a]) w0 = Throws COUPANG_UPLOAD_ROLLBACK_ORDER_CONFLICT).
  { intros w0 E0. unfold rollbackImportedCoupangCostRules. unfold tx_bind at 1.
    rewrite rev_app_distr. cbn [rev app tx_each]. unfold tx_bind at 1. unfold rollback_row, find_cost_rule.
    unfold tx_bind at 1, tx_get at 1. rewrite E0. destruct (row_by_id _ _) as [r|] eqn:R; [|done].
    specialize (Ch r eq_refl). destruct (str_eqb (cr_productId r) (pv_productId a)) eqn:P; [|done].
    apply bool_decide_eq_true in P. unfold sameCoupangCostRuleRollbackSnapshot.
    rewrite bool_decide_eq_false_2 by auto. done. }
  destruct (sourceType u); try done; rewrite Src; cbn [result_bind]; rewrite !run_bind, run_of_result;
    rewrite run_bind, run_of_result, run_call; unfold delete_transaction;
    unfold tx_bind at 1, tx_get at 1; cbv beta iota zeta; do 3 (unfold tx_bind at 1; cbv beta iota).
  - unfold tx_bind at 1. cbn [tx_ret]. unfold tx_bind at 1, deleteMarginUploadEffects. unfold tx_bind at 1. by rewrite Rb.
  - unfold tx_bind at 1, deletePriceTextUploadEffects. unfold tx_bind at 1. by rewrite Rb.
Qed.
End refused.

(** ** A concrete upload *)

Section example.
#[local] Existing Instance c_locale.
#[local] Existing Instance fixed.

Definition short_uuid (n : nat) : str := [97 + N.of_nat (Nat.modulo n 20)]%N.

Lemma short_uuid_ok n : id_text (short_uuid n) /\ (List.length (short_uuid n) <= 128)%nat.
Proof.
  split; [|cbn; lia]. unfold short_uuid. pose proof (Nat.mod_upper_bound n 20 ltac:(done)) as L.
  generalize dependent (Nat.modulo n 20). intros m L. do 20 (destruct m as [|m]; [split; vm_compute; reflexivity|]). lia.
Qed.

Definition startingb (d : Z) : bool :=
  (d mod msPerDay =? 0) && (101 <=? getUTCFullYear d) && (getUTCFullYear d <=? 9999).

Lemma startingb_ok d : startingb d = true -> starting d.
Proof.
  unfold startingb. intros [[W L]%andb_true_iff U]%andb_true_iff. apply Z.eqb_eq in W. apply Z.leb_le in L, U.
  split; [|done]. by apply Z.mod_divide.
Qed.

Lemma money_kept f (d : Z) :
  match f with SalesFeeRate | ReturnRate => fixed_numeric 8 6 d | _ => fixed_numeric 14 2 d end = Some d ->
  money_column f d = Ok d.
Proof. destruct f; intros E; unfold money_column, numeric; cbn -[fixed_numeric]; by rewrite E. Qed.

Lemma example_costs_stored price : fixed_numeric 14 2 (price * million) = Some (price * million) ->
  stored_costs (example_costs price).
Proof.
  intros E. apply stored_build.
  - intros f. apply money_kept. destruct f; first [exact E|vm_compute; reflexivity].
  - intros f. unfold shipping_column, numeric. cbn -[fixed_numeric].
    replace (fixed_numeric 14 2 (2500 * million)) with (Some (2500 * million)); [done|]. vm_compute. reflexivity.
Qed.

Lemma example_stored : Forall stored_rule (costRules example_db).
Proof.
  assert (St : forall i price from to, fixed_numeric 14 2 (price * million) = Some (price * million) ->
    startingb (example_day from) = true -> (forall s, to = Some s -> startingb (example_day s) = true) ->
    stored_rule (example_rule i price from to)).
  { intros i price from to P F T. split; [by apply example_costs_stored|]. split; [by apply startingb_ok|].
    intros d. cbn. destruct to as [s|]; [|done]. intros [= <-]. apply starting_dated, startingb_ok. by apply T. }
  cbn [costRules example_db]. repeat apply Forall_cons_2; [| |apply Forall_nil_2].
  - apply St; [vm_compute; reflexivity..|]. intros s [= <-]. vm_compute. reflexivity.
  - apply St; [vm_compute; reflexivity..|done].
Qed.

Lemma example_importable : importable example_db.
Proof.
  split; [split; [apply example_invariant|exact example_stored]|..];
    repeat apply Forall_cons_2; try apply Forall_nil_2; split; vm_compute; reflexivity.
Qed.

(** The price of a product of the table changes, and a second product is new. *)
Definition example_list : list Price_text.ParsedCoupangPriceTextRowResult :=
  Price_text.parseBuffer (fun s => s) (js "A = 11,000" ++ [10]%N ++ js "B  KRW 3500" ++ [10]%N ++ js "C").

Definition example_effective : body := [(js "effectiveFrom", Text (js "2024-02-01"))].

Definition example_import := run [] (importPriceText short_uuid (fun s => s) short_uuid (js "f") (js "h") example_list
  example_effective (js "u1")) example_db.

#[local] Strategy expand [example_import].

Example example_import_prices :
  match example_import with
  | (Ok ans, w) => (an_validRowCount ans, an_errorCount ans,
                    map (fun r => (salePriceKrw (cr_costs r), cr_effectiveFrom r)) (costRules w))
                   = (2, 1, [(10000 * million, example_day "2024-01-01"); (12000 * million, example_day "2024-03-01");
                             (11000 * million, example_day "2024-02-01"); (3500 * million, example_day "2024-02-01")])
  | _ => False
  end.
Proof. vm_compute. reflexivity. Qed.


Lemma example_effective_starting d : (run [] (effective_from example_effective) example_db).1 = Ok d -> starting d.
Proof.
  intros E. assert (Some d = Some (example_day "2024-02-01")) as [= ->].
  { transitivity (match (run [] (effective_from example_effective) example_db).1 with Ok d => Some d | _ => None end);
      [by rewrite E|vm_compute; reflexivity]. }
  apply startingb_ok. vm_compute. reflexivity.
Qed.

Lemma importPriceText_removed_witness : exists ans w1 u w2,
  example_import = (Ok ans, w1)
  /\ run [] (deleteUpload (an_batchId ans) (Some (js "u1"))) w1 = (Ok u, w2) /\ costRules w2 = costRules example_db.
Proof.
  pose proof example_import_prices as S. destruct example_import as [[ans|] w1] eqn:E; [|destruct S].
  destruct (@importPriceText_removed c_locale c_locale_laws fixed fixed_laws short_uuid (fun s => s) short_uuid
    (fun n => proj1 (short_uuid_ok n)) (fun n => proj2 (short_uuid_ok n)) (js "f") (js "h") example_list
    example_effective (js "u1") example_db ans w1 example_importable example_effective_starting eq_refl E)
    as (u & w2 & R & C & _).
  exists ans, w1, u, w2. exact (conj eq_refl (conj R C)).
Defined.

(** ** A margin sheet *)

Definition example_margin_row : Margin_csv.ParsedCoupangMarginRow := {|
  Margin_csv.itemName := js "A"; Margin_csv.salePriceKrw := ofZ 11000; Margin_csv.supplyPriceKrw := ofZ 0;
  Margin_csv.productCostKrw := ofZ 4000; Margin_csv.sellerShippingFeeKrw := None;
  Margin_csv.hanaroShippingFeeKrw := Some (ofZ 2200); Margin_csv.growthInboundFeeKrw := ofZ 100;
  Margin_csv.growthShippingFeeKrw := ofZ 0; Margin_csv.returnRate := decimal 3 2;
  Margin_csv.returnCostPerUnitKrw := ofZ 0; Margin_csv.adEnabled := true |}.

Definition example_sheet : Margin_csv.Sheet := {|
  Margin_csv.headers := [js "itemName"]; Margin_csv.missingColumns := []; Margin_csv.ignoredColumns := [];
  Margin_csv.rows := [{| Margin_csv.rowNumber := 2; Margin_csv.rawRow := []; Margin_csv.sourceRowHash := js "h";
                         Margin_csv.parsedRow := Some example_margin_row; Margin_csv.issues := [] |}] |}.

(** The first of March has a rule already, which the sheet overwrites. *)
Definition example_march : body := [(js "effectiveFrom", Text (js "2024-03-01"))].

Definition example_margin := run [] (importMarginCsv short_uuid (fun s => s) short_uuid (js "f") (js "h") example_sheet
  example_march (js "u1")) example_db.

#[local] Strategy expand [example_margin].

Example example_margin_prices :
  match example_margin with
  | (Ok (inr ans), w) =>
      (an_validRowCount ans, map (fun r => (productCostKrw (cr_costs r), sellerShippingFeeKrw (cr_costs r))) (costRules w))
      = (1, [(3000 * million, Some (2500 * million)); (4000 * million, Some (2500 * million))])
  | _ => False
  end.
Proof. vm_compute. reflexivity. Qed.

Lemma example_march_starting d : (run [] (effective_from example_march) example_db).1 = Ok d -> starting d.
Proof.
  intros E. assert (Some d = Some (example_day "2024-03-01")) as [= ->].
  { transitivity (match (run [] (effective_from example_march) example_db).1 with Ok d => Some d | _ => None end);
      [by rewrite E|vm_compute; reflexivity]. }
  apply startingb_ok. vm_compute. reflexivity.
Qed.

Lemma importMarginCsv_removed_witness : exists ans w1 u w2,
  example_margin = (Ok (inr ans), w1)
  /\ run [] (deleteUpload (an_batchId ans) (Some (js "u1"))) w1 = (Ok u, w2) /\ costRules w2 = costRules example_db.
Proof.
  pose proof example_margin_prices as S. destruct example_margin as [[[|ans]|] w1] eqn:E; [destruct S| |destruct S].
  assert (Iu : js "u1" ∈ appUsers example_db) by by left.
  destruct (@importMarginCsv_removed c_locale c_locale_laws fixed fixed_laws short_uuid (fun s => s) short_uuid
    (fun n => proj1 (short_uuid_ok n)) (fun n => proj2 (short_uuid_ok n)) (js "f") (js "h") example_sheet
    example_march (js "u1") example_db ans w1 example_importable example_march_starting eq_refl Iu
    (NoDup_nil_2) (List.Forall_nil _) E)
    as (u & w2 & R & C & _).
  exists ans, w1, u, w2. exact (conj eq_refl (conj R C)).
Defined.

(** ** Two lists for the same day *)

Definition example_second : list Price_text.ParsedCoupangPriceTextRowResult :=
  Price_text.parseBuffer (fun s => s) (js "B = 9000").

Definition imported_twice : Db :=
  (run [] (importPriceText short_uuid (fun s => s) short_uuid (js "g") (js "k") example_second example_effective
    (js "u1")) example_import.2).2.

#[local] Strategy expand [imported_twice].

Definition first_upload : option UploadBatch := head (batches imported_twice).

(** The rows of the first list, once the second one is in. *)
Example first_upload_rows :
  match first_upload with
  | Some u =>
      match priceTextAppliedRows (columnSchema u) (validRowCount u) with
      | Ok [a; b] =>
          match row_by_id (pv_costRuleId b) (costRules imported_twice) with
          | Some r => serializeCoupangCostRuleRollbackSnapshot r <> pv_after b
          | None => False
          end
      | _ => False
      end
  | None => False
  end.
Proof. vm_compute. discriminate. Qed.

#[local] Strategy expand [first_upload].

(** What the hypotheses of the refusal say of the first list. *)
Lemma first_upload_superseded : exists u a b r,
  List.find (fun x => str_eqb (ub_id x) (ub_id u)) (batches imported_twice) = Some u
  /\ sourceType u = PRICE_TEXT
  /\ priceTextAppliedRows (columnSchema u) (validRowCount u) = Ok ([a] ++ [b])
  /\ row_by_id (pv_costRuleId b) (costRules imported_twice) = Some r
  /\ serializeCoupangCostRuleRollbackSnapshot r <> pv_after b.
Proof.
  pose proof first_upload_rows as X. assert (Hd : first_upload = head (batches imported_twice)) by done.
  assert (So : sourceType <$> first_upload = Some PRICE_TEXT) by (vm_compute; reflexivity).
  destruct first_upload as [u|]; [|destruct X]. injection So as So. exists u.
  destruct (priceTextAppliedRows _ _) as [[|a [|b [|]]]|] eqn:P; [destruct X|destruct X| |destruct X|destruct X].
  destruct (row_by_id _ _) as [r|] eqn:Q; [|destruct X]. exists a, b, r.
  split; [|exact (conj So (conj eq_refl (conj Q X)))].
  destruct (batches imported_twice) as [|u' l]; [done|]. injection Hd as ->. cbn. unfold str_eqb.
  by rewrite bool_decide_eq_true_2.
Qed.

#[local] Strategy opaque [imported_twice first_upload].

Lemma deleteUpload_out_of_order_witness : exists i,
  run [] (deleteUpload i (Some (js "u1"))) imported_twice = (Throws COUPANG_UPLOAD_ROLLBACK_ORDER_CONFLICT, imported_twice).
Proof.
  destruct first_upload_superseded as (u & a & b & r & F & So & P & Q & N). exists (ub_id u).
  assert (Src : match sourceType u with
    | PRICE_TEXT => priceTextAppliedRows (columnSchema u) (validRowCount u) = Ok ([a] ++ [b])
    | MARGIN => marginAppliedRows (columnSchema u) (validRowCount u) = Ok ([a] ++ [b])
    | _ => False
    end) by (rewrite So; exact P).
  exact (@deleteUpload_out_of_order c_locale fixed u (ub_id u) (Some (js "u1")) [a] b imported_twice F Src
    (fun r' E _ => eq_ind (Some r) (fun o => match o with Some x => serializeCoupangCostRuleRollbackSnapshot x <> pv_after b
                                               | None => True end) N (Some r') (eq_trans (eq_sym Q) E))).
Defined.

(** ** Uploads that cannot be removed

    An import of costs that fails leaves an upload without the applied rows, and
    the removal asks for them whatever the status of the upload. *)

(** The code of the answer of a request, if it is refused, and the code of the
    refusal of the removal of the last upload that it leaves. *)
Definition removal_of_last {A} (x : result A * Db) : option str * option (UploadStatus * option str) :=
  (match x.1 with Ok _ => None | Throws e => Some (err_code e) end,
   b ← head (rev (batches x.2));
   Some (ub_status b, match (run [] (deleteUpload (ub_id b) (Some (js "u1"))) x.2).1 with
                      | Ok _ => None
                      | Throws e => Some (err_code e)
                      end)).

Definition headless_sheet : Margin_csv.Sheet := {|
  Margin_csv.headers := [js "x"]; Margin_csv.missingColumns := [Margin_csv.ItemName]; Margin_csv.ignoredColumns := [];
  Margin_csv.rows := [] |}.

Example failed_margin_upload_stays :
  removal_of_last (run [] (importMarginCsv short_uuid (fun s => s) short_uuid (js "f") (js "h") headless_sheet
    example_march (js "u1")) example_db)
  = (Some (js "COUPANG_HEADER_INVALID"), Some (FAILED, Some (js "COUPANG_UPLOAD_ROLLBACK_PROVENANCE_MISSING"))).
Proof. vm_compute. reflexivity. Qed.

Example undated_price_upload_stays :
  removal_of_last (run [] (importPriceText short_uuid (fun s => s) short_uuid (js "f") (js "h") example_list
    [(js "effectiveFrom", Text (js "soon"))] (js "u1")) example_db)
  = (Some (js "INVALID_DATE"), Some (VALIDATING, Some (js "COUPANG_UPLOAD_ROLLBACK_PROVENANCE_MISSING"))).
Proof. vm_compute. reflexivity. Qed.
End example.
