(* ===== verification/CoupangSheetGuarantees.v ===== *)
(** * The promises of the sales and advertising imports

    Whatever an import or a removal answers, a logical key has at most one
    current row, and imports never leave a key without one that had one.  An
    import that succeeded can be removed, which restores both tables. *)

From S2P Require Import Prelude JsNumber JsString JsDate.
From S2P Require Import DateNumber.
From S2P Require Import SecurityAudit.
From S2P Require Import Concurrency.
From S2P Require Import Transactions.
From S2P Require Import RequestBody.
From S2P Require Import Timeline.
From S2P Require Import CoupangPriceText.
From S2P Require Import CoupangMargin.
From S2P Require Import CoupangSheets.
From S2P Require Import CoupangDb.
From S2P Require Import CoupangVersions.
From S2P Require Import CoupangVersionsSafety.
From S2P Require Import CoupangRules.
From S2P Require Import CoupangUploads.
From S2P Require Import CoupangCostUploads.
From S2P Require Import CoupangSheetUploads.
From S2P Require Import CoupangRulesSafety.
From S2P Require Import CoupangRollback.
From S2P Require Import CoupangImports.
From S2P Require Import CoupangUploadsGuarantees.

Local Open Scope Z_scope.

(** ** Tables of versions *)

Record versions_ok {A} `{Versioned A} (rows : list A) : Prop := {
  vo_ids : NoDup (map vs_id rows);
  vo_one : one_current rows;
  vo_accepted : forall x, x ∈ rows -> vs_current x = true -> vs_refused x = false
}.

Section tables.
Context {A : Type} `{VersionedLaws A}.
Implicit Types rows : list A.

Lemma agrees_elem ks rows rows' y : agrees ks rows rows' -> y ∈ rows' ->
  exists x, x ∈ rows /\ vs_with_current false y = vs_with_current false x.
Proof.
  induction 1 as [|x z rows rows' Hxz _ IH]; intros I; [by apply elem_of_nil in I|].
  apply elem_of_cons in I as [->|I].
  - exists x. split; [by left|]. by destruct Hxz as [->|[_ ?]].
  - destruct (IH I) as (x' & ? & ?). exists x'. split; [by right|done].
Qed.

(** Superseding only takes flags away. *)
Lemma supersede_accepted k d rows : (forall x, x ∈ rows -> vs_current x = true -> vs_refused x = false) ->
  forall x, x ∈ supersede k d rows -> vs_current x = true -> vs_refused x = false.
Proof.
  intros Ac. assert (C : forall l x, x ∈ clear_ids l rows -> vs_current x = true -> vs_refused x = false).
  { intros l x (y & -> & Iy)%list_elem_of_fmap. destruct (bool_decide _); [|by apply Ac].
    by rewrite with_current_current. }
  unfold supersede. destruct (_ && _); [apply C|]. destruct (_ <? _)%nat; [apply C|done].
Qed.

Lemma store_ok policy status k x rows : versions_ok rows ->
  let d := stored_row policy status k rows in
  vs_key x = k -> vs_current x = isCurrent d -> vs_refused x = bool_decide (status = ERROR) -> vs_id x ∉ map vs_id rows ->
  versions_ok (store k d x rows)
  /\ forall k', current_of k' rows <> [] -> current_of k' (store k d x rows) <> [].
Proof.
  intros [N O Ac] d Kx Cx Rx Ix. destruct (store_current policy status k x rows N Kx Cx) as (L & Ke & Ot).
  fold d in L, Ke, Ot. split; [split|].
  - unfold store. rewrite map_app, supersede_ids. apply NoDup_app. split; [done|]. split; [|apply NoDup_singleton].
    intros i Ii Ei%list_elem_of_singleton. by subst.
  - intros k'. destruct (decide (k' = k)) as [->|Nk]; [done|]. rewrite (Ot k' Nk). apply O.
  - intros y [Iy| ->%list_elem_of_singleton]%elem_of_app; [by apply (supersede_accepted k d rows)|].
    rewrite Cx, Rx. intros C. apply bool_decide_eq_false_2. by apply (stored_current policy status k rows).
  - intros k' C. destruct (decide (k' = k)) as [->|Nk]; [apply Ke; by left|by rewrite (Ot k' Nk)].
Qed.

Lemma without_batch_ids i rows : NoDup (map vs_id rows) -> NoDup (map vs_id (without_batch i rows)).
Proof.
  unfold without_batch. induction rows as [|x rows IH]; [done|]. simpl. rewrite NoDup_cons. intros [Nx N].
  destruct (negb _); [|by apply IH]. simpl. constructor; [|by apply IH].
  intros (y & E & [Iy _]%elem_of_filterb)%list_elem_of_fmap. apply Nx. rewrite E. by apply list_elem_of_fmap_2.
Qed.

Lemma without_batch_ok i rows : versions_ok rows -> versions_ok (without_batch i rows).
Proof.
  intros [N O Ac]. split; [by apply without_batch_ids| |].
  - intros k. etransitivity; [|apply (O k)]. unfold current_of, without_batch.
    clear. induction rows as [|x rows IH]; [done|]. simpl. destruct (negb _); simpl; destruct (_ && _); simpl; lia.
  - intros x [Ix _]%elem_of_filterb. by apply Ac.
Qed.

Lemma restore_key_accepted k rows : NoDup (map vs_id rows) ->
  (forall x, x ∈ rows -> vs_current x = true -> vs_refused x = false) ->
  forall x, x ∈ restore_key rows k -> vs_current x = true -> vs_refused x = false.
Proof.
  intros N Ac x. rewrite restore_key_flags by done. intros (y & -> & Iy)%list_elem_of_fmap.
  destruct (of_row_key k y); [|by apply Ac]. unfold flag. rewrite with_current_current, with_current_refused.
  intros E%bool_decide_eq_true. unfold latest_id in E. destruct (latest_of k rows) as [z|] eqn:L; [|done].
  injection E as E. apply latest_of_elem in L as (Iz & _ & Rz). by rewrite <- (same_row rows z y N Iz Iy E).
Qed.

Lemma restore_ok keys rows : versions_ok rows -> versions_ok (restore_current keys rows).
Proof.
  intros [N O Ac]. split; [by rewrite restore_current_ids|by apply restore_current_one|].
  unfold restore_current. revert rows N O Ac. induction keys as [|k keys IH]; intros rows N O Ac; [done|].
  cbn [fold_left]. apply IH; [by rewrite restore_key_ids| |by apply restore_key_accepted].
  exact (restore_current_one [k] rows N O).
Qed.
End tables.

(** ** One row *)

(** What the rows of a sheet leave alone. *)
Record aside `{DecimalNumber} (w w' : Db) : Prop := {
  as_frame : frame w w';
  as_rules : costRules w' = costRules w;
  as_products : products w' = products w
}.

#[export] Instance aside_preorder `{DecimalNumber} : PreOrder aside.
Proof. split; [by intros w; split|]. intros a b c [? ? ?] [? ? ?]. split; [by etransitivity|congruence..]. Qed.

(** A row stored in a table: its key, and that the table becomes that of
    [store]. *)
Definition row_stored {A} `{Versioned A} (hash_row : Sheet_rows.raw_row -> str) (batch : UploadBatch)
    (rows rows' : list A) : Prop :=
  exists k status x,
    let d := stored_row (conflictPolicy batch) status k rows in
    rows' = store k d x rows /\ vs_key x = k /\ vs_batch x = ub_id batch /\ vs_current x = isCurrent d
    /\ vs_refused x = bool_decide (status = ERROR) /\ vs_id x ∉ map vs_id rows
    /\ ((exists r, k = hash_row r) \/ truthy k = true /\ trim k = k).

Ltac if_in E := match type of E with (if ?b then _ else _) = _ => destruct b end.

Section rows.
Context `{IcuLaws, DecimalLaws} (uuid : nat -> str) (hash_row : Sheet_rows.raw_row -> str).

Lemma not_taken {A} (f : A -> str) i l : existsb (fun x => str_eqb (f x) i) l = false -> i ∉ map f l.
Proof.
  intros E (x & -> & Ix)%list_elem_of_fmap. apply Bool.not_true_iff_false in E. apply E. apply existsb_exists.
  exists x. split; [by apply list_elem_of_In|]. by apply bool_decide_eq_true_2.
Qed.

Lemma sale_row_effect batch rules row w c w' : import_sale_row uuid hash_row batch rules row w = Ok (c, w') ->
  row_stored hash_row batch (saleLines w) (saleLines w') /\ adMetrics w' = adMetrics w /\ aside w w'.
Proof.
  unfold import_sale_row. cbv zeta. set (p := Sales_xlsx.parsedRow row). set (m := sale_match rules p).
  set (k := match p with Some p => _ | None => _ end). intros F.
  tx_first F as lines w1 E. unfold tx_get in E. injection E as <- <-.
  set (warnings := match_warnings m ++ _) in F. set (issues := map _ _) in F.
  set (status := validationStatusFor issues warnings _) in F.
  change (resolveCoupangRowStoredState status _) with (stored_row (conflictPolicy batch) status k (saleLines w)) in F.
  tx_first F as u w1 E. injection E as _ <-. tx_first F as amounts w1 E. apply tx_lift_inv in E as [_ <-].
  tx_first F as n w1 E. unfold tx_draw in E. injection E as <- <-. tx_first F as t w1 E. unfold tx_get in E. injection E as <- <-.
  tx_first F as saved w1 E. tx_first F as u' w2 E2. apply tx_ret_inv in F as [_ ->]. injection E2 as _ <-.
  unfold insert_sale_line in E. cbn [sl_id sl_batchId sl_rowNumber saleLines set_draws set_saleLines draws] in E.
  destruct (existsb (fun x => str_eqb (sl_id x) _) _) eqn:Fi; [done|].
  if_in E; [done|]. if_in E; [|done]. injection E as <- <-.
  split; [|by split; [|split; [split|..]]]. exists k, status. eexists. cbv zeta.
  split; [reflexivity|]. do 4 (split; [reflexivity|]). split.
  - apply not_taken in Fi. by rewrite <- (supersede_ids k (stored_row (conflictPolicy batch) status k (saleLines w))).
  - unfold k. destruct p; [right; apply sale_key_text|left; eexists; reflexivity].
Qed.

Lemma ad_row_effect batch rules row w c w' : import_ad_row uuid hash_row batch rules row w = Ok (c, w') ->
  row_stored hash_row batch (adMetrics w) (adMetrics w') /\ saleLines w' = saleLines w /\ aside w w'.
Proof.
  unfold import_ad_row. cbv zeta. set (p := Ads_xlsx.parsedRow row). set (m := _ <$> p).
  set (k := match p with Some p => _ | None => _ end). intros F.
  tx_first F as metrics w1 E. unfold tx_get in E. injection E as <- <-.
  set (warnings := _ ?? [] ++ _) in F. set (issues := map _ _) in F.
  set (status := validationStatusFor issues warnings _) in F.
  change (resolveCoupangRowStoredState status _) with (stored_row (conflictPolicy batch) status k (adMetrics w)) in F.
  tx_first F as u w1 E. injection E as _ <-. tx_first F as amounts w1 E. apply tx_lift_inv in E as [_ <-].
  tx_first F as n w1 E. unfold tx_draw in E. injection E as <- <-. tx_first F as t w1 E. unfold tx_get in E. injection E as <- <-.
  tx_first F as saved w1 E. tx_first F as u' w2 E2. apply tx_ret_inv in F as [_ ->]. injection E2 as _ <-.
  unfold insert_ad_metric in E. cbn [am_id am_batchId am_rowNumber adMetrics set_draws set_adMetrics draws] in E.
  destruct (existsb (fun x => str_eqb (am_id x) _) _) eqn:Fi; [done|].
  if_in E; [done|]. if_in E; [|done]. injection E as <- <-.
  split; [|by split; [|split; [split|..]]]. exists k, status. eexists. cbv zeta.
  split; [reflexivity|]. do 4 (split; [reflexivity|]). split.
  - apply not_taken in Fi. by rewrite <- (supersede_ids k (stored_row (conflictPolicy batch) status k (adMetrics w))).
  - unfold k. destruct p; [right; apply ad_key_text|left; eexists; reflexivity].
Qed.
End rows.

(** ** Whole requests *)

Definition table_advances {A} `{Versioned A} (rows rows' : list A) : Prop :=
  versions_ok rows -> versions_ok rows' /\ forall k, current_of k rows <> [] -> current_of k rows' <> [].

#[export] Instance table_advances_preorder {A} `{Versioned A} : PreOrder (@table_advances A _).
Proof.
  split; [by intros l V|]. intros a b c F G V. destruct (F V) as [Vb Kb]. destruct (G Vb) as [Vc Kc]. auto.
Qed.

(** What imports do to both tables of versions. *)
Record advances `{DecimalNumber} (w w' : Db) : Prop := {
  av_sales : table_advances (saleLines w) (saleLines w');
  av_ads : table_advances (adMetrics w) (adMetrics w')
}.

#[export] Instance advances_preorder `{DecimalNumber} : PreOrder advances.
Proof. split; [by intros w; split|]. intros a b c [? ?] [? ?]. split; by etransitivity. Qed.

Lemma respects_sub {W A} (R R' : relation W) (f : TX W A) : (forall w w', R w w' -> R' w w') -> respects R f -> respects R' f.
Proof. intros S F w a w' E. by eapply S, F. Qed.

Lemma respects_map {W A B} (R : relation W) `{!PreOrder R} (f : A -> TX W B) l : (forall a, respects R (f a)) -> respects R (tx_map f l).
Proof.
  intros F. induction l as [|a l IH]; [by apply respects_ret|]. cbn [tx_map].
  apply respects_bind; [done..|]. intros b. apply respects_bind; [done..|]. intros bs. by apply respects_ret.
Qed.

Section requests.
Context `{IcuLaws, DecimalLaws} (uuid : nat -> str) (sha256 : str -> str) (random_text : nat -> str)
        (hash_row : Sheet_rows.raw_row -> str) (hash_group : str -> list str -> str).

Definition same_tables (w w' : Db) : Prop := saleLines w' = saleLines w /\ adMetrics w' = adMetrics w.

#[local] Instance same_tables_preorder : PreOrder same_tables.
Proof. split; [done|]. intros a b c [? ?] [? ?]. split; congruence. Qed.

Lemma same_tables_advances w w' : same_tables w w' -> advances w w'.
Proof. intros [Es Ea]. split; [rewrite Es|rewrite Ea]; reflexivity. Qed.

Lemma tables_create input actor : respects same_tables (createBatch uuid sha256 random_text input actor).
Proof.
  intros w b w1 F. unfold createBatch in F. tx_first F as schema wa Ea. tx_first F as hash wb Eb.
  assert (Fa : same_tables w wa).
  { destruct (isCoupangRetrySource _); [|by injection Ea as <- <-].
    tx_first Ea as m wm Em. injection Ea as <- <-. apply marker_draws in Em as [n ->]. done. }
  assert (Fb : same_tables wa wb).
  { destruct (_ && _); [by injection Eb as <- <-|]. unfold duplicateBatchHash in Eb. tx_first Eb as t wt Et.
    injection Et as <- <-. tx_first Eb as k wk Ek. unfold tx_draw in Ek. injection Ek as <- <-.
    by apply tx_ret_inv in Eb as [_ ->]. }
  tx_first F as k wc Ec. unfold tx_draw in Ec. injection Ec as <- <-. tx_first F as t wd Ed. injection Ed as _ <-.
  unfold insert_batch in F. if_in F; [done|]. if_in F; [done|]. if_in F; [done|]. injection F as _ <-.
  etransitivity; [exact Fa|]. by etransitivity; [exact Fb|].
Qed.

Lemma tables_update_if i status schema f : respects same_tables (update_batch_if i status schema f).
Proof.
  intros w n w'. unfold update_batch_if. destruct (List.find _ _); [|by intros [= _ <-]].
  destruct (_ && _); [|by intros [= _ <-]]. destruct (user_missing _ _ _); [done|]. by intros [= _ <-].
Qed.

Lemma tables_update i f : respects same_tables (update_batch i f).
Proof. intros w n w'. unfold update_batch. destruct (List.find _ _); [|done]. by intros [= _ <-]. Qed.

Lemma tables_marker source state : respects same_tables (newCoupangRetryMarker uuid source state).
Proof. intros w m w' [n ->]%marker_draws. done. Qed.

Lemma tables_errors l : respects same_tables (fun w => Ok (tt, set_rowErrors (l w) w)).
Proof. by intros w u w' [= <- <-]. Qed.

#[local] Hint Resolve tables_create tables_update_if tables_update tables_marker tables_errors : respects.

Lemma tables_finalize batch d : respects same_tables (finalizeCoupangReservation batch d).
Proof. unfold finalizeCoupangReservation. respect. Qed.

Lemma tables_reserve input actor : keeps same_tables (reserveCoupangImportBatch uuid sha256 random_text input actor).
Proof.
  unfold reserveCoupangImportBatch, claimCoupangRetryBatch, now, coupangRetryConflict, find_batch_by_hash, reusableDuplicate.
  keep.
Qed.

Lemma tables_missing i source l : keeps same_tables (failMissingColumns i source l).
Proof. unfold failMissingColumns, now. keep. Qed.

Lemma tables_failure {A} batch e : keeps (A := A) same_tables (rethrowCoupangImportFailure batch e).
Proof. unfold rethrowCoupangImportFailure, now. keep. Qed.
End requests.

(** ** Every request on uploads *)

Section shapes.
Context {A : Type} `{Versioned A}.
Implicit Types rows : list A.

(** What [versions_ok] reads of a table. *)
Definition shape rows : list (str * str * bool * bool) := map (fun x => (vs_id x, vs_key x, vs_current x, vs_refused x)) rows.

Lemma versions_ok_shape rows rows' : shape rows' = shape rows -> versions_ok rows -> versions_ok rows'.
Proof.
  intros E [N O Ac].
  assert (Ids : forall l : list A, map vs_id l = map (fun s => s.1.1.1) (shape l)) by (intros l; unfold shape; by rewrite map_map).
  assert (Cur : forall k (l : list A), List.length (current_of k l) = List.length (List.filter (fun s => str_eqb s.1.1.2 k && s.1.2) (shape l))).
  { intros k l. unfold current_of, shape, of_row_key. induction l as [|x l IH]; [done|]. simpl. destruct (_ && _); simpl; by rewrite IH. }
  split.
  - by rewrite Ids, E, <- Ids.
  - intros k. rewrite Cur, E, <- Cur. apply O.
  - intros x Ix C. assert (I : (vs_id x, vs_key x, vs_current x, vs_refused x) ∈ shape rows).
    { rewrite <- E. unfold shape. apply list_elem_of_fmap. by exists x. }
    apply list_elem_of_fmap in I as (y & Q & Iy). injection Q as _ _ Qc Qr. rewrite Qr. apply Ac; [done|congruence].
Qed.
End shapes.

(** Both tables of versions are sound, and stay so. *)
Definition sound `{DecimalNumber} (w : Db) : Prop := versions_ok (saleLines w) /\ versions_ok (adMetrics w).
Definition stays_sound `{DecimalNumber} (w w' : Db) : Prop := sound w -> sound w'.

#[export] Instance stays_sound_preorder `{DecimalNumber} : PreOrder stays_sound.
Proof. split; [by intros w V|]. intros a b c F G V. exact (G (F V)). Qed.

Lemma keeps_sub {W A} (R R' : relation W) (m : prog W A) : (forall w w', R w w' -> R' w w') -> keeps R m -> keeps R' m.
Proof. intros S F w. apply S, F. Qed.

Lemma ok_inj {A B} (a b : A) (w w' : B) : Ok (a, w) = Ok (b, w') -> a = b /\ w = w'.
Proof. by intros [= -> ->]. Qed.

Lemma respects_each {W A} (R : relation W) `{!PreOrder R} (f : A -> TX W unit) l : (forall a, respects R (f a)) -> respects R (tx_each f l).
Proof.
  intros F. induction l as [|a l IH]; [by apply respects_ret|]. cbn [tx_each]. apply respects_bind; [done..|]. by intros u.
Qed.

Section serving.
Context `{IcuLaws, DecimalLaws} (uuid : nat -> str) (sha256 : str -> str) (random_text : nat -> str)
        (hash_row : Sheet_rows.raw_row -> str) (hash_group : str -> list str -> str).

#[local] Instance tables_preorder : PreOrder same_tables := same_tables_preorder.

(** A statement of a table other than those of versions. *)
Ltac elsewhere := intros ? ? ?; cbn [result_bind];
  repeat match goal with
  | |- context [result_bind ?x _] => destruct x; cbn [result_bind]
  | |- context [match ?x with _ => _ end] => destruct x
  end; try done; let E := fresh in intros E; apply ok_inj in E as [_ <-]; done.

Lemma tables_draw : respects same_tables tx_draw.
Proof. unfold tx_draw. elsewhere. Qed.
Lemma tables_row_errors b s l m n found : respects same_tables (createRowErrors b s l m n found).
Proof. unfold createRowErrors. elsewhere. Qed.
Lemma tables_update_product i data : respects same_tables (update_product i data).
Proof. unfold update_product. elsewhere. Qed.
Lemma tables_insert_product p : respects same_tables (insert_product p).
Proof. unfold insert_product. elsewhere. Qed.
Lemma tables_insert_cost r : respects same_tables (insert_cost_rule r).
Proof. unfold insert_cost_rule. elsewhere. Qed.
Lemma tables_update_cost i d : respects same_tables (update_cost_rule i d).
Proof. unfold update_cost_rule. elsewhere. Qed.
Lemma tables_delete_cost i : respects same_tables (delete_cost_rule i).
Proof. unfold delete_cost_rule. elsewhere. Qed.
Lemma tables_normalize p : respects same_tables (normalizeCoupangCostRuleRanges p).
Proof. unfold normalizeCoupangCostRuleRanges, normalize_cost_rules. elsewhere. Qed.
Lemma tables_unused i : respects same_tables (deleteCoupangProductIfUnused i).
Proof. unfold deleteCoupangProductIfUnused. elsewhere. Qed.
Lemma tables_margin_rule p row d : respects same_tables (upsert_margin_rule uuid p row d).
Proof. unfold upsert_margin_rule. elsewhere. Qed.
Lemma tables_deactivate l : respects same_tables (deactivate_mapping_rules l).
Proof. unfold deactivate_mapping_rules. elsewhere. Qed.
Lemma tables_delete_batch i : respects same_tables (delete_batch i).
Proof. unfold delete_batch. elsewhere. Qed.
Lemma tables_write_audit e : respects same_tables (write_audit e).
Proof. unfold write_audit. elsewhere. Qed.

#[local] Hint Resolve tables_draw tables_row_errors tables_update_product tables_insert_product tables_insert_cost
  tables_update_cost tables_delete_cost tables_normalize tables_unused tables_margin_rule tables_deactivate
  tables_delete_batch tables_write_audit tables_create tables_update_if tables_update tables_marker tables_errors
  tables_finalize tables_reserve tables_missing tables_failure : respects.

Lemma tables_upsert_product s d : respects same_tables (upsert_product uuid s d).
Proof. unfold upsert_product, find_product_by_name. respect. Qed.

Lemma tables_upsert_cost p d f : (forall c, respects same_tables (f c)) ->
  respects same_tables (upsertImportedCoupangCostRule uuid p d f).
Proof.
  intros F. unfold upsertImportedCoupangCostRule, findCoupangCostRuleStartingOnDate, findCoupangCostRuleAtOrBeforeDate,
    create_cost_rule, findUniqueOrThrow, find_cost_rule. respect.
Qed.

Lemma tables_price_row b d row : respects same_tables (import_price_row uuid b d row).
Proof.
  unfold import_price_row. destruct (Price_text.parsedRow row) as [parsed|]; [|respect].
  apply respects_bind; [apply _|apply tables_upsert_product|]. intros p.
  apply respects_bind; [apply _| |intros s; unfold deleteLegacyPriceTextProductIfUnused, legacy_product, find_product_by_name; respect].
  apply tables_upsert_cost. intros c. unfold findLegacyPriceTextCostRule, legacy_product, find_product_by_name,
    findCoupangCostRuleAtOrBeforeDate. respect.
Qed.

Lemma tables_margin_row b d row : respects same_tables (import_margin_row uuid b d row).
Proof.
  unfold import_margin_row. destruct (Margin_csv.parsedRow row) as [parsed|]; [|respect].
  apply respects_bind; [apply _|apply tables_upsert_product|]. intros p.
  apply respects_bind; [apply _|apply tables_margin_rule|]. intros r.
  apply respects_bind; [apply _| |intros s; respect]. apply tables_upsert_cost. intros c. respect.
Qed.

(** *** Imports of sheets *)

Lemma stored_advances {A} `{VersionedLaws A} batch rows rows' : row_stored hash_row batch rows rows' -> table_advances rows rows'.
Proof.
  intros (k & status & x & -> & Kx & _ & Cx & Rx & Ix & _) V.
  by apply (store_ok (conflictPolicy batch) status k x rows V).
Qed.

Lemma sale_row_advances batch rules row : respects advances (import_sale_row uuid hash_row batch rules row).
Proof.
  intros w c w' (St & Ea & _)%sale_row_effect. split; [by eapply stored_advances|]. by rewrite Ea.
Qed.

Lemma ad_row_advances batch rules row : respects advances (import_ad_row uuid hash_row batch rules row).
Proof.
  intros w c w' (St & Es & _)%ad_row_effect. split; [by rewrite Es|]. by eapply stored_advances.
Qed.

Lemma keeps_advances {A} (m : prog Db A) : keeps same_tables m -> keeps advances m.
Proof. apply keeps_sub, same_tables_advances. Qed.

Lemma respects_advances {A} (f : TX Db A) : respects same_tables f -> respects advances f.
Proof. apply respects_sub, same_tables_advances. Qed.

Lemma sales_import_advances filename hash sheet b actor :
  keeps advances (importSalesXlsx uuid sha256 random_text hash_row filename hash sheet b actor).
Proof.
  unfold importSalesXlsx. cbv zeta. apply keeps_bind; [apply _|auto with respects typeclass_instances|]. intros policy.
  apply keeps_bind; [apply _|apply keeps_advances, tables_reserve|]. intros [dup|batch]; [auto with respects typeclass_instances|].
  apply keeps_catch; [apply _| |intros e; apply keeps_advances, tables_failure].
  apply keeps_bind; [apply _| |intros u].
  { destruct (truthy_list _); [apply keeps_advances, tables_missing|auto with respects typeclass_instances]. }
  apply keeps_bind; [apply _|apply keeps_call, respects_get; apply _|]. intros rules.
  apply keeps_bind; [apply _| |intros counts; auto with respects typeclass_instances]. apply keeps_call; [apply _|].
  unfold sales_transaction. apply respects_bind; [apply _|apply respects_map; [apply _|apply sale_row_advances]|].
  intros counts. apply respects_bind; [apply _|apply respects_advances, tables_finalize|]. intros u'. apply respects_ret, _.
Qed.

Lemma ads_import_advances filename hash sheet b actor :
  keeps advances (importAdsXlsx uuid sha256 random_text hash_row hash_group filename hash sheet b actor).
Proof.
  unfold importAdsXlsx. cbv zeta. apply keeps_bind; [apply _|auto with respects typeclass_instances|]. intros policy.
  apply keeps_bind; [apply _|apply keeps_advances, tables_reserve|]. intros [dup|batch]; [auto with respects typeclass_instances|].
  apply keeps_catch; [apply _| |intros e; apply keeps_advances, tables_failure].
  apply keeps_bind; [apply _| |intros u].
  { destruct (truthy_list _); [apply keeps_advances, tables_missing|auto with respects typeclass_instances]. }
  apply keeps_bind; [apply _|apply keeps_call, respects_get; apply _|]. intros rules.
  apply keeps_bind; [apply _| |intros counts; auto with respects typeclass_instances]. apply keeps_call; [apply _|].
  unfold ads_transaction. apply respects_bind; [apply _|apply respects_map; [apply _|apply ad_row_advances]|].
  intros counts. apply respects_bind; [apply _|apply respects_advances, tables_finalize|]. intros u'. apply respects_ret, _.
Qed.

(** *** Imports of costs *)

Lemma price_import_tables filename hash rows b actor :
  keeps same_tables (importPriceText uuid sha256 random_text filename hash rows b actor).
Proof.
  unfold importPriceText, effective_from, now. cbv zeta. apply keeps_bind; [apply _|auto with respects typeclass_instances|]. intros policy.
  apply keeps_bind; [apply _|keep|]. intros batch. apply keeps_bind; [apply _|keep|]. intros from.
  apply keeps_bind; [apply _| |intros o; auto with respects typeclass_instances]. apply keeps_call; [apply _|].
  unfold price_text_transaction. apply respects_bind; [apply _|apply respects_map; [apply _|intros row; apply tables_price_row]|].
  intros applied. respect.
Qed.

Lemma margin_import_tables filename hash sheet b actor :
  keeps same_tables (importMarginCsv uuid sha256 random_text filename hash sheet b actor).
Proof.
  unfold importMarginCsv, effective_from, now. apply keeps_bind; [apply _|auto with respects typeclass_instances|]. intros policy.
  apply keeps_bind; [apply _|keep|]. intros [dup|batch]; [auto with respects typeclass_instances|].
  apply keeps_catch; [apply _| |intros e; apply tables_failure].
  apply keeps_bind; [apply _|destruct (truthy_list _); [apply tables_missing|auto with respects typeclass_instances]|]. intros u.
  apply keeps_bind; [apply _|keep|]. intros from.
  apply keeps_bind; [apply _| |intros o; auto with respects typeclass_instances]. apply keeps_call; [apply _|].
  unfold margin_transaction. apply respects_bind; [apply _|apply respects_map; [apply _|intros row; apply tables_margin_row]|].
  intros applied. respect.
Qed.

(** *** Removals *)

Lemma same_tables_sound w w' : same_tables w w' -> stays_sound w w'.
Proof. intros [Es Ea] [Vs Va]. split; [by rewrite Es|by rewrite Ea]. Qed.

Lemma respects_sound {A} (f : TX Db A) : respects same_tables f -> respects stays_sound f.
Proof. apply respects_sub, same_tables_sound. Qed.

Lemma rules_deleted_sound l : respects stays_sound (delete_mapping_rules l).
Proof.
  intros w a w' [_ <-]%ok_inj [Vs Va]. split; (eapply versions_ok_shape; [|eassumption]); unfold shape;
    cbn [saleLines adMetrics set_saleLines set_adMetrics set_mappingRules]; rewrite map_map; by apply map_ext.
Qed.

Lemma rollback_sound l : respects stays_sound (rollbackImportedCoupangCostRules l).
Proof.
  apply respects_sound. unfold rollbackImportedCoupangCostRules. apply respects_bind; [apply _| |intros u].
  - apply respects_each; [apply _|]. intros p. unfold rollback_row, find_cost_rule. respect.
  - apply respects_each; [apply _|]. intros p. respect.
Qed.

Lemma unused_sound l : respects stays_sound (tx_each deleteCoupangProductIfUnused l).
Proof. apply respects_sound, respects_each; [apply _|]. intros i. respect. Qed.

Lemma margin_effects_sound l : respects stays_sound (deleteMarginUploadEffects l).
Proof.
  unfold deleteMarginUploadEffects. cbv zeta. apply respects_bind; [apply _|apply rollback_sound|]. intros u.
  apply respects_bind; [apply _| |intros u'; apply unused_sound]. destruct (truthy_list _); [|apply respects_ret, _].
  apply respects_bind; [apply _|apply respects_get, _|]. intros uses. apply respects_bind; [apply _| |intros u'].
  - destruct (truthy_list _); [apply rules_deleted_sound|apply respects_ret, _].
  - destruct (truthy_list _); [|apply respects_ret, _]. apply respects_sound. respect.
Qed.

Lemma price_effects_sound l : respects stays_sound (deletePriceTextUploadEffects l).
Proof.
  unfold deletePriceTextUploadEffects. apply respects_bind; [apply _|apply rollback_sound|]. intros u. apply unused_sound.
Qed.

Lemma removal_sound i actor : keeps stays_sound (deleteUpload i actor).
Proof.
  unfold deleteUpload, assertUpload, find_batch. apply keeps_bind; [apply _|apply keeps_call, respects_sound; [apply _|respect]|].
  intros u. apply keeps_bind; [apply _|auto with respects typeclass_instances|]. intros pt.
  apply keeps_bind; [apply _|auto with respects typeclass_instances|]. intros mg. apply keeps_call; [apply _|].
  unfold delete_transaction. cbv zeta. apply respects_bind; [apply _|apply respects_get, _|]. intros [ks ka].
  apply respects_bind; [apply _|apply respects_sound, (tables_errors)|]. intros u1.
  apply respects_bind; [apply _|intros w a w' [_ <-]%ok_inj [Vs Va]; split; [by apply without_batch_ok|done]|]. intros u2.
  apply respects_bind; [apply _|intros w a w' [_ <-]%ok_inj [Vs Va]; split; [done|by apply without_batch_ok]|]. intros u3.
  apply respects_bind; [apply _|destruct pt; [apply price_effects_sound|apply respects_ret, _]|]. intros u4.
  apply respects_bind; [apply _|destruct mg; [apply margin_effects_sound|apply respects_ret, _]|]. intros u5.
  apply respects_bind; [apply _|intros w a w' [_ <-]%ok_inj [Vs Va]; split; [by apply restore_ok|done]|]. intros u6.
  apply respects_bind; [apply _|intros w a w' [_ <-]%ok_inj [Vs Va]; split; [done|by apply restore_ok]|]. intros u7.
  apply respects_sound. unfold audit. respect.
Qed.
End serving.

(** ** Requests in sequence *)

(** A request on uploads, with its arguments. *)
Inductive UploadRequest :=
| ImportSales (filename hash : str) (sheet : option Sheet_rows.worksheet) (b : body) (actor : str)
| ImportAds (filename hash : str) (sheet : option Sheet_rows.worksheet) (b : body) (actor : str)
| ImportPrices (filename hash : str) (rows : list Price_text.ParsedCoupangPriceTextRowResult) (b : body) (actor : str)
| ImportMargin (filename hash : str) (sheet : Margin_csv.Sheet) (b : body) (actor : str)
| Remove (upload : str) (actor : option str).

Definition is_removal (r : UploadRequest) : bool := match r with Remove _ _ => true | _ => false end.

Section requests_served.
Context `{IcuLaws, DecimalLaws} (uuid : nat -> str) (sha256 : str -> str) (random_text : nat -> str)
        (hash_row : Sheet_rows.raw_row -> str) (hash_group : str -> list str -> str).

(** The database after a request, whatever it answered. *)
Definition serve (w : Db) (r : UploadRequest) : Db :=
  match r with
  | ImportSales f h s b a => (run [] (importSalesXlsx uuid sha256 random_text hash_row f h s b a) w).2
  | ImportAds f h s b a => (run [] (importAdsXlsx uuid sha256 random_text hash_row hash_group f h s b a) w).2
  | ImportPrices f h l b a => (run [] (importPriceText uuid sha256 random_text f h l b a) w).2
  | ImportMargin f h s b a => (run [] (importMarginCsv uuid sha256 random_text f h s b a) w).2
  | Remove i a => (run [] (deleteUpload i a) w).2
  end.

Lemma serve_import w r : is_removal r = false -> advances w (serve w r).
Proof.
  destruct r; intros R; try discriminate R; cbn [serve].
  - apply sales_import_advances.
  - apply ads_import_advances.
  - apply same_tables_advances, price_import_tables.
  - apply same_tables_advances, margin_import_tables.
Qed.

Lemma serve_sound w r : sound w -> sound (serve w r).
Proof.
  intros V. destruct (is_removal r) eqn:R; [destruct r; try discriminate R; by apply removal_sound|].
  destruct (serve_import w r R) as [As Aa]. destruct V as [Vs Va]. split; [apply As, Vs|apply Aa, Va].
Qed.

(** C28: At most one current row.  Through any sequence of imports of sales
    sheets, advertising sheets, price lists and margin sheets and of removals of
    uploads, answered or refused, ids stay distinct in both tables of versions,
    a logical key has at most one current row and no row in error is current;
    and while nothing is removed, a key that has a current row keeps one. *)
Theorem one_current_served requests w : sound w ->
  let w' := fold_left serve requests w in
  sound w'
  /\ (forallb (fun r => negb (is_removal r)) requests = true -> forall k,
        (current_of k (saleLines w) <> [] -> current_of k (saleLines w') <> [])
        /\ (current_of k (adMetrics w) <> [] -> current_of k (adMetrics w') <> [])).
Proof.
  revert w. induction requests as [|r requests IH]; intros w V; [done|]. cbn [fold_left forallb].
  destruct (IH (serve w r) (serve_sound w r V)) as [S C]. split; [done|].
  intros [R Rs]%andb_true_iff k. destruct (C Rs k) as [Cs Ca]. apply negb_true_iff in R.
  destruct (serve_import w r R) as [As Aa]. destruct V as [Vs Va].
  split; intros Ck; [apply Cs, As|apply Ca, Aa]; done.
Qed.
End requests_served.
