(* ===== verification/CoupangSheetRemoval.v ===== *)
(** * Sheets taken back

    An import of a sales or advertising sheet that succeeded can be removed,
    and the removal gives both tables of versions back as they were. *)

From S2P Require Import Prelude JsNumber JsString JsDate.
From S2P Require Import DateNumber.
From S2P Require Import SecurityAudit.
From S2P Require Import Concurrency.
From S2P Require Import Transactions.
From S2P Require Import RequestBody.
From S2P Require Import FixedDecimals.
From S2P Require Import CoupangSheets.
From S2P Require Import CoupangDb.
From S2P Require Import CoupangVersions.
From S2P Require Import CoupangVersionsSafety.
From S2P Require Import CoupangRules.
From S2P Require Import CoupangUploads.
From S2P Require Import CoupangCostUploads.
From S2P Require Import CoupangSheetUploads.
From S2P Require Import CoupangRulesSafety.
From S2P Require Import CoupangRollback.
From S2P Require Import CoupangImports.
From S2P Require Import CoupangRulesGuarantees.
From S2P Require Import CoupangUploadsGuarantees.
From S2P Require Import CoupangSheetGuarantees.

Local Open Scope Z_scope.

(** ** The table of an upload in progress *)

Section tables.
Context {A : Type} `{VersionedLaws A}.
Implicit Types rows : list A.

Definition keyed (b : str) rows : Prop := forall x, x ∈ rows -> vs_batch x = b -> id_text (vs_key x).

(** What the upload [b] made of the table [base] so far. *)
Record grown (b : str) (base rows : list A) : Prop := {
  gr_ids : NoDup (map vs_id rows);
  gr_imported : imported b base rows;
  gr_keyed : keyed b rows
}.

Lemma supersede_elem k d rows y : NoDup (map vs_id rows) -> y ∈ supersede k d rows ->
  exists x, x ∈ rows /\ vs_with_current false y = vs_with_current false x.
Proof. intros N. by apply (agrees_elem [k]), supersede_agrees. Qed.

Lemma row_stored_grown hash_row batch base rows rows' : (forall r, id_text (hash_row r)) ->
  row_stored hash_row batch rows rows' -> grown (ub_id batch) base rows -> grown (ub_id batch) base rows'.
Proof.
  intros Hr (k & status & x & -> & Kx & Bx & Cx & Rx & Ix & Kk) [N I Q]. split.
  - unfold store. rewrite map_app, supersede_ids. apply NoDup_app. split; [done|]. split; [|apply NoDup_singleton].
    intros i Ii Ei%list_elem_of_singleton. by subst.
  - by apply imported_store.
  - intros y [Iy| ->%list_elem_of_singleton]%elem_of_app By.
    + apply supersede_elem in Iy as (z & Iz & E); [|done]. rewrite <- (with_current_key false y), E, with_current_key.
      apply Q; [done|]. by rewrite <- (with_current_batch false z), <- E, with_current_batch.
    + rewrite Kx. destruct Kk as [[r ->]|[T K]]; [apply Hr|by split].
Qed.

Lemma grown_refl b rows : NoDup (map vs_id rows) -> (forall x, x ∈ rows -> vs_batch x <> b) -> grown b rows rows.
Proof. intros N F. split; [done|apply imported_refl|]. intros x Ix Bx. by destruct (F x). Qed.

Lemma elem_of_uniqueNonEmpty k l : id_text k -> k ∈ l -> k ∈ uniqueNonEmpty l.
Proof.
  intros [T K] I. unfold uniqueNonEmpty. rewrite elem_of_js_unique, elem_of_filterb. split; [|done].
  apply list_elem_of_fmap. by exists k.
Qed.

Lemma filter_none (p : A -> bool) l : (forall x, x ∈ l -> p x = false) -> List.filter p l = [].
Proof.
  induction l as [|x l IH]; intros F; [done|]. simpl. rewrite (F x) by by left. apply IH. intros y Iy. apply F. by right.
Qed.

(** The removal of the upload undoes it. *)
Lemma grown_removed b base rows : grown b base rows -> NoDup (map vs_id base) -> newest_current base ->
  (forall x, x ∈ base -> vs_batch x <> b) ->
  restore_current (keys_of_batch b rows) (without_batch b rows) = base.
Proof.
  intros [_ (old & new & -> & Fb & Ag) Q] N W F.
  assert (Fo : forall x, x ∈ old -> str_eqb (vs_batch x) b = false).
  { intros x Ix. destruct (agrees_elem _ _ _ _ Ag Ix) as (y & Iy & E). apply bool_decide_eq_false.
    rewrite <- (with_current_batch false x), E, with_current_batch. by apply F. }
  rewrite Forall_forall in Fb. assert (Fn : forall x, x ∈ new -> str_eqb (vs_batch x) b = true).
  { intros x Ix. apply bool_decide_eq_true. by apply Fb. }
  unfold without_batch, keys_of_batch. rewrite !List.filter_app.
  rewrite (filter_none (fun x => str_eqb (vs_batch x) b) old) by exact Fo.
  rewrite (filter_all (fun x => str_eqb (vs_batch x) b) new) by exact Fn.
  rewrite (filter_all _ old) by (intros x Ix; by rewrite (Fo x Ix)).
  rewrite (filter_none _ new) by (intros x Ix; by rewrite (Fn x Ix)). rewrite app_nil_r. cbn [app].
  apply (restore_agrees _ (map vs_key new)); [done..|].
  intros k Ik. apply elem_of_uniqueNonEmpty; [|done]. apply list_elem_of_fmap in Ik as (x & -> & Ix).
  apply Q; [|by apply Fb]. apply elem_of_app. by right.
Qed.
End tables.

(** ** The request *)

Section removal.
Context `{IcuLaws, DecimalLaws}.

(** An upload of a sheet that is found is removed with its rows. *)
Lemma sheet_removed u actor w sales ads :
  List.find (fun b => str_eqb (ub_id b) (ub_id u)) (batches w) = Some u ->
  match sourceType u with SALES | ADS => True | _ => False end ->
  grown (ub_id u) sales (saleLines w) -> grown (ub_id u) ads (adMetrics w) ->
  NoDup (map vs_id sales) -> newest_current sales -> (forall x, x ∈ sales -> vs_batch x <> ub_id u) ->
  NoDup (map vs_id ads) -> newest_current ads -> (forall x, x ∈ ads -> vs_batch x <> ub_id u) ->
  truthy actor = true -> actor ∈ appUsers w -> (List.length (ub_id u) <= 128)%nat ->
  exists w', run [] (deleteUpload (ub_id u) (Some actor)) w = (Ok u, w')
    /\ saleLines w' = sales /\ adMetrics w' = ads /\ costRules w' = costRules w /\ feeRules w' = feeRules w
    /\ batches w' = other_batches (ub_id u) (batches w).
Proof.
  intros Fu Src Gs Ga Ns Ws Fs Na Wa Fa T Iu L. unfold deleteUpload. rewrite run_bind, run_call.
  unfold assertUpload, find_batch. unfold tx_bind at 1, tx_get at 1. rewrite Fu. cbn [tx_ret].
  assert (D : exists w', delete_transaction u None None (Some actor) w = Ok (u, w')
    /\ saleLines w' = sales /\ adMetrics w' = ads /\ costRules w' = costRules w /\ feeRules w' = feeRules w
    /\ batches w' = other_batches (ub_id u) (batches w)).
  { unfold delete_transaction. unfold tx_bind at 1, tx_get at 1. cbv beta iota zeta.
    do 7 (unfold tx_bind at 1; cbv beta iota; cbn [tx_ret]).
    match goal with |- exists w', tx_bind _ _ ?x = _ /\ _ => set (wb := x) end.
    assert (Es : saleLines wb = sales) by exact (grown_removed _ _ _ Gs Ns Ws Fs).
    assert (Ea : adMetrics wb = ads) by exact (grown_removed _ _ _ Ga Na Wa Fa).
    assert (Bb : batches wb = batches w) by done. assert (Ub : appUsers wb = appUsers w) by done.
    assert (Cb : costRules wb = costRules w /\ feeRules wb = feeRules w) by done. clearbody wb.
    unfold tx_bind at 1, delete_batch. rewrite Bb, Fu. cbv beta iota.
    match goal with |- exists w', tx_bind _ _ ?x = _ /\ _ => set (wc := x) end.
    destruct (removal_audited actor (ub_id u) u wc) as (w' & Au & Ec & Ef & Eb & El & Em); [done|exact (eq_ind_r (fun l => actor ∈ l) Iu Ub)|done|].
    rewrite (tx_bind_ok _ _ _ _ _ Au). exists w'. split; [done|]. rewrite Ec, Ef, Eb, El, Em.
    unfold wc. cbn. destruct Cb as [-> ->]. done. }
  destruct D as (w' & D & R). exists w'. split; [|exact R].
  destruct (sourceType u); try done; rewrite !run_bind, run_of_result, run_bind, run_of_result, run_call, D; done.
Qed.
End removal.

(** ** Imports and their removal *)

(** What the uploads leave: sound tables whose current rows are the newest
    accepted ones, and whose rows belong to uploads. *)
Record sheets_ready `{DecimalNumber} (w : Db) : Prop := {
  sr_sound : sound w;
  sr_sales : newest_current (saleLines w);
  sr_ads : newest_current (adMetrics w);
  sr_sale_owners : forall x, x ∈ saleLines w -> exists b, b ∈ batches w /\ ub_id b = sl_batchId x;
  sr_ad_owners : forall x, x ∈ adMetrics w -> exists b, b ∈ batches w /\ ub_id b = am_batchId x;
  sr_batches : NoDup (map ub_id (batches w));
  sr_lengths : Forall (fun b => (List.length (ub_id b) <= 128)%nat) (batches w)
}.

Section taken_back.
Context `{IcuLaws, DecimalLaws} (uuid : nat -> str) (sha256 : str -> str) (random_text : nat -> str)
        (hash_row : Sheet_rows.raw_row -> str) (hash_group : str -> list str -> str).
Context (uuid_length : forall n, (List.length (uuid n) <= 128)%nat) (hash_row_text : forall r, id_text (hash_row r)).

(** What the rows of a sheet do. *)
Record adds (b : UploadBatch) (w w' : Db) : Prop := {
  ad_aside : aside w w';
  ad_sales : forall base, grown (ub_id b) base (saleLines w) -> grown (ub_id b) base (saleLines w');
  ad_ads : forall base, grown (ub_id b) base (adMetrics w) -> grown (ub_id b) base (adMetrics w')
}.

#[local] Instance adds_preorder b : PreOrder (adds b).
Proof. split; [by intros w; split|]. intros x y z [? ? ?] [? ? ?]. split; [by etransitivity|auto..]. Qed.

Lemma sale_row_adds b rules row : respects (adds b) (import_sale_row uuid hash_row b rules row).
Proof.
  intros w c w' (St & Ea & As)%sale_row_effect. split; [done| |by rewrite Ea].
  intros base. by apply (row_stored_grown hash_row).
Qed.

Lemma ad_row_adds b rules row : respects (adds b) (import_ad_row uuid hash_row b rules row).
Proof.
  intros w c w' (St & Es & As)%ad_row_effect. split; [done|by rewrite Es|].
  intros base. by apply (row_stored_grown hash_row).
Qed.

Lemma owner_other b w i : new_or_empty uuid b w -> (exists b0, b0 ∈ batches w /\ ub_id b0 = i) ->
  (forall x, x ∈ saleLines w -> sl_batchId x = i -> i <> ub_id b) /\ (forall x, x ∈ adMetrics w -> am_batchId x = i -> i <> ub_id b).
Proof.
  intros [[_ E]|(_ & _ & _ & Cs & Ca)] (b0 & I0 & <-).
  - assert (N : ub_id b0 <> ub_id b); [|done]. rewrite <- E in I0. apply elem_of_filterb in I0 as [_ N].
    intros Q. rewrite Q in N. unfold str_eqb in N. by rewrite bool_decide_eq_true_2 in N.
  - unfold count_sale_lines, count_ad_metrics in *. apply length_zero_iff_nil in Cs, Ca.
    split; intros x Ix Ex Q.
    + assert (I : x ∈ List.filter (fun x => str_eqb (sl_batchId x) (ub_id b)) (saleLines w)).
      { apply elem_of_filterb. split; [done|]. rewrite Ex, Q. by apply bool_decide_eq_true_2. }
      rewrite Cs in I. by apply not_elem_of_nil in I.
    + assert (I : x ∈ List.filter (fun x => str_eqb (am_batchId x) (ub_id b)) (adMetrics w)).
      { apply elem_of_filterb. split; [done|]. rewrite Ex, Q. by apply bool_decide_eq_true_2. }
      rewrite Ca in I. by apply not_elem_of_nil in I.
Qed.

Lemma sheet_reserved input actor w b w1 : sheets_ready w ->
  run [] (reserveCoupangImportBatch uuid sha256 random_text input actor) w = (Ok (inr b), w1) ->
  reserved (in_sourceType input) b w w1 /\ new_or_empty uuid b w /\ same_tables w w1.
Proof.
  intros Rd R. pose proof (tables_reserve uuid sha256 random_text input actor w) as St. rewrite R in St.
  by destruct (reserve_reserved _ _ _ _ _ _ _ _ (sr_batches _ Rd) R).
Qed.

(** The rows of a reserved upload, its outcome and its removal. *)
Lemma sheet_taken_back source b d actor w0 w1 w2 w3 u :
  match source with SALES | ADS => True | _ => False end ->
  sheets_ready w0 -> reserved source b w0 w1 -> new_or_empty uuid b w0 -> same_tables w0 w1 -> adds b w1 w2 ->
  finalizeCoupangReservation b d w2 = Ok (u, w3) -> truthy actor = true -> actor ∈ appUsers w0 ->
  exists u w', run [] (deleteUpload (ub_id b) (Some actor)) w3 = (Ok u, w')
    /\ saleLines w' = saleLines w0 /\ adMetrics w' = adMetrics w0
    /\ costRules w' = costRules w0 /\ feeRules w' = feeRules w0 /\ batches w' = other_batches (ub_id b) (batches w0).
Proof.
  intros So [[[Ns _ _] [Na _ _]] Ws Wa Os Oa Nb Lb] V Ne [Es Ea] [[Fr Er _] As Aa] F T Iu.
  assert (Fs : forall x, x ∈ saleLines w0 -> vs_batch x <> ub_id b).
  { intros x Ix. by apply (owner_other b w0 (sl_batchId x) Ne (Os x Ix)) with (x := x). }
  assert (Fa : forall x, x ∈ adMetrics w0 -> vs_batch x <> ub_id b).
  { intros x Ix. by apply (owner_other b w0 (am_batchId x) Ne (Oa x Ix)) with (x := x). }
  pose proof (tables_finalize b d _ _ _ F) as [Es' Ea'].
  unfold finalizeCoupangReservation in F. tx_first F as t wt Et. unfold tx_get in Et. apply ok_inj in Et as [_ <-].
  tx_first F as n wn U. destruct (bool_decide (n = 1%nat)) eqn:N; [|done]. apply bool_decide_eq_true in N.
  apply tx_ret_inv in F as [_ ->]. 
  assert (Fb : List.find (fun x => str_eqb (ub_id x) (ub_id b)) (batches w2) = Some b).
  { rewrite (fr_batches _ _ Fr). apply V. }
  apply (update_if_reserved _ _ _ _ _ _ _ b) in U; [|done..].
  destruct (sheet_removed (write_batch d t b) actor wn (saleLines w0) (adMetrics w0)) as (w' & R & E1 & E2 & E3 & E4 & E5).
  - apply U.
  - rewrite (rv_source _ _ _ _ U), (rv_source _ _ _ _ V). done.
  - cbn [ub_id write_batch]. rewrite Es'. apply As. rewrite Es. by apply grown_refl.
  - cbn [ub_id write_batch]. rewrite Ea'. apply Aa. rewrite Ea. by apply grown_refl.
  - done.
  - done.
  - done.
  - done.
  - done.
  - done.
  - done.
  - by rewrite (rv_users _ _ _ _ U), (fr_users _ _ Fr), (rv_users _ _ _ _ V).
  - cbn [ub_id write_batch]. destruct Ne as [[[k ->] _]|(b0 & I0 & <- & _)]; [apply uuid_length|].
    rewrite Forall_forall in Lb. by apply Lb.
  - exists (write_batch d t b), w'. split; [exact R|]. split; [done|]. split; [done|].
    split; [by rewrite E3, (rv_costs _ _ _ _ U), Er, (rv_costs _ _ _ _ V)|].
    split; [by rewrite E4, (rv_fees _ _ _ _ U), (fr_fees _ _ Fr), (rv_fees _ _ _ _ V)|].
    rewrite E5. change (other_batches (ub_id (write_batch d t b)) (batches wn) = other_batches (ub_id b) (batches w0)).
    rewrite (rv_others _ _ _ _ U), (fr_batches _ _ Fr). apply V.
Qed.

(** C29: A sales sheet taken back.  On sound tables whose current rows are the
    newest accepted ones, an import of a sales sheet that succeeds and is not a
    duplicate can be removed by its user at once, and the removal leaves the
    rows of sales and advertising, with their versions and which of them are
    current, the cost and fee rules and the other uploads as they were. *)
Theorem importSalesXlsx_removed filename hash sheet b actor w ans w1 :
  sheets_ready w -> truthy actor = true -> actor ∈ appUsers w ->
  run [] (importSalesXlsx uuid sha256 random_text hash_row filename hash sheet b actor) w = (Ok (inr ans), w1) ->
  exists u w2, run [] (deleteUpload (an_batchId (sa_import ans)) (Some actor)) w1 = (Ok u, w2)
    /\ saleLines w2 = saleLines w /\ adMetrics w2 = adMetrics w
    /\ costRules w2 = costRules w /\ feeRules w2 = feeRules w
    /\ batches w2 = other_batches (an_batchId (sa_import ans)) (batches w).
Proof.
  intros Rd T Iu R. unfold importSalesXlsx in R.
  apply run_bind_inv in R as (policy & wp & Rp & R). rewrite run_of_result in Rp. injection Rp as _ <-.
  apply run_bind_inv in R as ([dup|batch] & wb & Rb & R); [done|].
  destruct (sheet_reserved _ _ _ _ _ Rd Rb) as (V & Ne & St). rewrite run_catch in R.
  destruct (run [] (bind _ _) wb) as [[a|e] wf] eqn:R'; [|by apply failure_throws in R]. injection R as -> ->.
  apply run_bind_inv in R' as (u & wu & Ru & R).
  assert (wu = wb) as ->.
  { destruct (truthy_list _); [by apply failed_columns_throw in Ru|]. by injection Ru. }
  apply run_bind_inv in R as (rules & wr & Rr & R). apply run_call_inv in Rr. unfold tx_get in Rr. apply ok_inj in Rr as [_ <-].
  apply run_bind_inv in R as (counts & wc & Rc & R). apply run_call_inv in Rc. cbv zeta in R. injection R as <- <-.
  unfold sales_transaction in Rc. tx_first Rc as cs wa Ra. tx_first Rc as y wy Ry. apply tx_ret_inv in Rc as [-> ->].
  cbn [sa_import an_batchId answer_of].
  eapply (sheet_taken_back SALES batch _ actor w wb wa); try done.
  eapply (respects_map (adds batch)); [|exact Ra]. apply sale_row_adds.
Qed.

(** An advertising sheet taken back.  The same holds of an import of an
    advertising sheet, whose rows with one key are summed first. *)
Theorem importAdsXlsx_removed filename hash sheet b actor w ans w1 :
  sheets_ready w -> truthy actor = true -> actor ∈ appUsers w ->
  run [] (importAdsXlsx uuid sha256 random_text hash_row hash_group filename hash sheet b actor) w = (Ok (inr ans), w1) ->
  exists u w2, run [] (deleteUpload (an_batchId (aa_import ans)) (Some actor)) w1 = (Ok u, w2)
    /\ saleLines w2 = saleLines w /\ adMetrics w2 = adMetrics w
    /\ costRules w2 = costRules w /\ feeRules w2 = feeRules w
    /\ batches w2 = other_batches (an_batchId (aa_import ans)) (batches w).
Proof.
  intros Rd T Iu R. unfold importAdsXlsx in R. cbv zeta in R.
  apply run_bind_inv in R as (policy & wp & Rp & R). rewrite run_of_result in Rp. injection Rp as _ <-.
  apply run_bind_inv in R as ([dup|batch] & wb & Rb & R); [done|].
  destruct (sheet_reserved _ _ _ _ _ Rd Rb) as (V & Ne & St). rewrite run_catch in R.
  destruct (run [] (bind _ _) wb) as [[a|e] wf] eqn:R'; [|by apply failure_throws in R]. injection R as -> ->.
  apply run_bind_inv in R' as (u & wu & Ru & R).
  assert (wu = wb) as ->.
  { destruct (truthy_list _); [by apply failed_columns_throw in Ru|]. by injection Ru. }
  apply run_bind_inv in R as (rules & wr & Rr & R). apply run_call_inv in Rr. unfold tx_get in Rr. apply ok_inj in Rr as [_ <-].
  apply run_bind_inv in R as (counts & wc & Rc & R). apply run_call_inv in Rc. injection R as <- <-.
  unfold ads_transaction in Rc. tx_first Rc as cs wa Ra. tx_first Rc as y wy Ry. apply tx_ret_inv in Rc as [-> ->].
  cbn [aa_import an_batchId answer_of].
  eapply (sheet_taken_back ADS batch _ actor w wb wa); try done.
  eapply (respects_map (adds batch)); [|exact Ra]. apply ad_row_adds.
Qed.
End taken_back.

(** ** Deciding the conditions *)

Section decisions.
Context {A : Type} `{VersionedLaws A}.
Implicit Types rows : list A.

Definition versions_okb rows : bool :=
  bool_decide (NoDup (map vs_id rows))
  && forallb (fun x => (List.length (current_of (vs_key x) rows) <=? 1)%nat && (negb (vs_current x) || negb (vs_refused x))) rows.

Lemma versions_okb_ok rows : versions_okb rows = true -> versions_ok rows.
Proof.
  unfold versions_okb. rewrite andb_true_iff, bool_decide_eq_true, forallb_forall. intros [N F]. split; [done| |].
  - intros k. destruct (current_of k rows) as [|x l] eqn:E; [simpl; lia|].
    assert (I : x ∈ current_of k rows) by (rewrite E; by left).
    apply elem_of_filterb in I as [I [Kx _]%andb_true_iff]. apply bool_decide_eq_true in Kx.
    specialize (F x (proj1 (list_elem_of_In _ _) I)). apply andb_true_iff in F as [F _]. apply Nat.leb_le in F.
    by rewrite Kx, E in F.
  - intros x Ix C. specialize (F x (proj1 (list_elem_of_In _ _) Ix)). apply andb_true_iff in F as [_ F].
    rewrite C in F. by apply negb_true_iff.
Qed.

Definition newest_currentb rows : bool :=
  forallb (fun x => Bool.eqb (vs_current x) (bool_decide (latest_id (vs_key x) rows = Some (vs_id x)))) rows.

Lemma newest_currentb_ok rows : newest_currentb rows = true -> newest_current rows.
Proof.
  unfold newest_currentb. rewrite forallb_forall. intros F x Ix. specialize (F x (proj1 (list_elem_of_In _ _) Ix)).
  apply Bool.eqb_prop in F. unfold flag. rewrite <- F. apply with_current_same.
Qed.
End decisions.

Definition sheets_readyb `{DecimalNumber} (w : Db) : bool :=
  versions_okb (saleLines w) && versions_okb (adMetrics w) && newest_currentb (saleLines w) && newest_currentb (adMetrics w)
  && forallb (fun x => existsb (fun b => str_eqb (ub_id b) (sl_batchId x)) (batches w)) (saleLines w)
  && forallb (fun x => existsb (fun b => str_eqb (ub_id b) (am_batchId x)) (batches w)) (adMetrics w)
  && bool_decide (NoDup (map ub_id (batches w))) && forallb (fun b => (List.length (ub_id b) <=? 128)%nat) (batches w).

Lemma owned_ok {A} (f : A -> str) (l : list A) (bs : list UploadBatch) :
  forallb (fun x => existsb (fun b => str_eqb (ub_id b) (f x)) bs) l = true ->
  forall x, x ∈ l -> exists b, b ∈ bs /\ ub_id b = f x.
Proof.
  rewrite forallb_forall. intros F x Ix. specialize (F x (proj1 (list_elem_of_In _ _) Ix)).
  apply existsb_exists in F as (b & Ib & E). exists b. split; [by apply list_elem_of_In|]. by apply bool_decide_eq_true in E.
Qed.

Lemma sheets_readyb_ok `{DecimalNumber} w : sheets_readyb w = true -> sheets_ready w.
Proof.
  unfold sheets_readyb. intros [[[[[[[Vs Va]%andb_true_iff Ns]%andb_true_iff Na]%andb_true_iff Os]%andb_true_iff
    Oa]%andb_true_iff Nb]%andb_true_iff Lb]%andb_true_iff.
  split; [split; by apply versions_okb_ok|by apply newest_currentb_ok..|exact (owned_ok sl_batchId _ _ Os)|
    exact (owned_ok am_batchId _ _ Oa)|by apply bool_decide_eq_true in Nb|].
  apply Forall_forall. intros b Ib. apply Nat.leb_le. rewrite forallb_forall in Lb. by apply Lb, list_elem_of_In.
Qed.

(** ** Concrete sheets *)

Section example.
#[local] Existing Instance c_locale.
#[local] Existing Instance fixed.

Definition text_cells (l : list str) : list Sheet_rows.cell_value := map (fun s => Sheet_rows.ValueCell (Text s)) l.

(** A sheet of sales: the product, the option and the amount of each row. *)
Definition sales_sheet (rows : list (string * string * string)) : Sheet_rows.worksheet :=
  (1, text_cells (column_names Sales_xlsx.COUPANG_SALES_COLUMN_ALIASES Sales_xlsx.keys))
  :: imap (fun i '(product, option_, amount) => (Z.of_nat i + 2, text_cells (map js
       ["7"; option_; product; ""; ""; "Rocket"; amount; "1"; "1"; amount; "1"; "0"; "0"; "0"]%string))) rows.

Definition sales_import (name policy : string) (rows : list (string * string * string)) :=
  run [] (importSalesXlsx short_uuid (fun s => s) short_uuid (fun _ => js "row") (js name) (js name)
    (Some (sales_sheet rows))
    [(js "reportDate", Text (js "2024-03-05")); (js "conflictPolicy", Text (js policy))] (js "u1")).

(** A second later. *)
Definition later (w : Db) : Db :=
  {| products := products w; costRules := costRules w; feeRules := feeRules w; mappingRules := mappingRules w;
     groups := groups w; batches := batches w; saleLines := saleLines w; adMetrics := adMetrics w;
     rowErrors := rowErrors w; promotions := promotions w; productUses := productUses w; ruleUses := ruleUses w;
     appUsers := appUsers w; auditLog := auditLog w; time := time w + 1000; draws := draws w |}.

(** What a row of sales shows: its product, amount, version and whether it is
    current. *)
Definition shown (w : Db) : list (str * Z * Z * bool) :=
  map (fun l => (CoupangDb.productName l, CoupangDb.salesKrw (sl_amounts l) / million, sl_importVersion l, sl_isCurrent l))
    (saleLines w).

Definition after_first : Db := later (sales_import "f" "SKIP" [("A", "red", "1000"); ("B", "red", "50")]%string example_db).2.
Definition second_import := sales_import "g" "NEW_VERSION" [("A", "red", "2000"); ("C", "red", "x")]%string after_first.

Example second_import_shown :
  match second_import with
  | (Ok (inr ans), w) =>
      (an_validRowCount (sa_import ans), an_errorCount (sa_import ans), shown after_first, shown w)
      = (1, 1, [(js "A", 1000, 1, true); (js "B", 50, 1, true)],
         [(js "A", 1000, 1, false); (js "B", 50, 1, true); (js "A", 2000, 2, true); ([], 0, 1, false)])
  | _ => False
  end.
Proof. vm_compute. reflexivity. Qed.

Lemma after_first_ready : sheets_ready after_first.
Proof. apply sheets_readyb_ok. vm_compute. reflexivity. Qed.

Lemma after_first_user : js "u1" ∈ appUsers after_first.
Proof. apply (bool_decide_eq_true_1 (js "u1" ∈ appUsers after_first)). vm_compute. reflexivity. Qed.

Lemma row_hash_text (r : Sheet_rows.raw_row) : id_text (js "row").
Proof. by split; vm_compute. Qed.

#[local] Strategy expand [second_import sales_import].
#[local] Strategy opaque [after_first].

Lemma importSalesXlsx_removed_witness : exists ans w1 u w2,
  second_import = (Ok (inr ans), w1)
  /\ run [] (deleteUpload (an_batchId (sa_import ans)) (Some (js "u1"))) w1 = (Ok u, w2)
  /\ saleLines w2 = saleLines after_first.
Proof.
  pose proof second_import_shown as S. destruct second_import as [[[|ans]|] w1] eqn:E; [destruct S| |destruct S].
  destruct (@importSalesXlsx_removed c_locale c_locale_laws fixed short_uuid (fun s => s) short_uuid
    (fun _ => js "row") (fun n => proj2 (short_uuid_ok n)) row_hash_text (js "g") (js "g")
    (Some (sales_sheet [("A", "red", "2000"); ("C", "red", "x")]%string))
    [(js "reportDate", Text (js "2024-03-05")); (js "conflictPolicy", Text (js "NEW_VERSION"))] (js "u1")
    after_first ans w1 after_first_ready eq_refl after_first_user E) as (u & w2 & R & C & _).
  exists ans, w1, u, w2. exact (conj eq_refl (conj R C)).
Defined.

(** *** Advertising *)

Definition ads_sheet (rows : list (string * string)) : Sheet_rows.worksheet :=
  (1, text_cells (column_names Ads_xlsx.COUPANG_ADS_COLUMN_ALIASES Ads_xlsx.keys))
  :: imap (fun i '(product, spend) => (Z.of_nat i + 2, text_cells (map js
       ["2024-03-05"; "c"; "g"; "n"; "7"; product; "7"; product; "10"; "2"; spend; "1"; "1"; "0"; spend; spend; "0";
        "1"; "1"; "0"]%string))) rows.

Definition ads_import := run [] (importAdsXlsx short_uuid (fun s => s) short_uuid (fun _ => js "row")
  (fun _ _ => js "group") (js "g") (js "k")
  (Some (ads_sheet [("A", "100"); ("A", "20"); ("B", "3")]%string)) [] (js "u1")) after_first.

#[local] Strategy expand [ads_import].

(** The two rows of A are summed. *)
Example ads_import_shown :
  match ads_import with
  | (Ok (inr ans), w) =>
      (an_rowCount (aa_import ans), an_validRowCount (aa_import ans),
       map (fun m => (adExecutionProductName m, CoupangDb.adSpendKrw (am_amounts m) / million, am_isCurrent m)) (adMetrics w))
      = (3, 2, [(js "A", 120, true); (js "B", 3, true)])
  | _ => False
  end.
Proof. vm_compute. reflexivity. Qed.

Lemma importAdsXlsx_removed_witness : exists ans w1 u w2,
  ads_import = (Ok (inr ans), w1)
  /\ run [] (deleteUpload (an_batchId (aa_import ans)) (Some (js "u1"))) w1 = (Ok u, w2)
  /\ adMetrics w2 = adMetrics after_first.
Proof.
  pose proof ads_import_shown as S. destruct ads_import as [[[|ans]|] w1] eqn:E; [destruct S| |destruct S].
  destruct (@importAdsXlsx_removed c_locale c_locale_laws fixed short_uuid (fun s => s) short_uuid
    (fun _ => js "row") (fun _ _ => js "group") (fun n => proj2 (short_uuid_ok n)) row_hash_text (js "g") (js "k")
    (Some (ads_sheet [("A", "100"); ("A", "20"); ("B", "3")]%string)) [] (js "u1")
    after_first ans w1 after_first_ready eq_refl after_first_user E) as (u & w2 & R & _ & C & _).
  exists ans, w1, u, w2. exact (conj eq_refl (conj R C)).
Defined.

(** *** Sequences of requests *)

Definition example_requests (upload : str) : list UploadRequest :=
  [ImportSales (js "g") (js "g") (Some (sales_sheet [("A", "red", "2000")]%string))
     [(js "conflictPolicy", Text (js "OVERWRITE"))] (js "u1");
   ImportAds (js "g") (js "k") (Some (ads_sheet [("A", "100")]%string)) [] (js "u1");
   Remove upload (Some (js "u1"))].

Lemma one_current_served_witness :
  sound (fold_left (serve short_uuid (fun s => s) short_uuid (fun _ => js "row") (fun _ _ => js "group"))
           (example_requests (js "b")) after_first).
Proof.
  exact (proj1 (@one_current_served c_locale fixed short_uuid (fun s => s) short_uuid
    (fun _ => js "row") (fun _ _ => js "group") (example_requests (js "b")) after_first (sr_sound _ after_first_ready))).
Defined.

(** *** A skipped row becomes current

    An import that skips duplicates stores them with the version of the row that
    they repeat; when a later version is removed, the newest row of the highest
    version is the skipped one. *)

Definition last_upload (w : Db) : str := match rev (batches w) with b :: _ => ub_id b | [] => [] end.

Definition skipped_then_replaced : Db :=
  (sales_import "i" "NEW_VERSION" [("A", "red", "3000")]%string
    (later (sales_import "g" "SKIP" [("A", "red", "2000")]%string after_first).2)).2.

Example skipped_row_restored :
  (shown (sales_import "g" "SKIP" [("A", "red", "2000")]%string after_first).2,
   shown (run [] (deleteUpload (last_upload skipped_then_replaced) (Some (js "u1"))) skipped_then_replaced).2)
  = ([(js "A", 1000, 1, true); (js "B", 50, 1, true); (js "A", 2000, 1, false)],
     [(js "A", 1000, 1, false); (js "B", 50, 1, true); (js "A", 2000, 1, true)]).
Proof. vm_compute. reflexivity. Qed.

(** *** Two products with one key

    The parts of a key are joined with a colon that they may contain. *)
Example products_share_a_key :
  shown (sales_import "g" "SKIP" [("X", "y:z", "70"); ("X:y", "z", "80")]%string example_db).2
  = [(js "X", 70, 1, true); (js "X:y", 80, 1, false)].
Proof. vm_compute. reflexivity. Qed.
End example.
