(* ===== verification/ZipArchive.v ===== *)
(** * The central directory of an uploaded archive

    What file-security/upload-preflight.ts reads of an XLSX file before a
    library opens it: the end-of-central-directory record, the records of the
    directory and the local headers that they point to.  A byte is a number
    below 256 and a buffer a list of bytes; a read beyond its end throws the
    error of Node, which is not a refusal of the upload.  The decoder of UTF-8
    and the normalisation of Unicode are parameters. *)

From S2P Require Import Prelude JsNumber JsString.

Local Open Scope Z_scope.

Abbreviation buffer := (list N).

Definition uploadException {A} (status : Z) (code : string) : result A :=
  Throws {| err_status := status; err_code := js code |}.

Definition PAYLOAD_TOO_LARGE : Z := 413.
Definition UNSUPPORTED_MEDIA_TYPE : Z := 415.

(** The error of a read out of range, and what a loop throws that did not end
    within its fuel. *)
Definition ERR_OUT_OF_RANGE : js_error := {| err_status := 0; err_code := js "ERR_OUT_OF_RANGE" |}.
Definition OUT_OF_FUEL : js_error := {| err_status := -1; err_code := [] |}.

(** ** Buffers *)

Definition blen (b : buffer) : Z := Z.of_nat (List.length b).

Definition byte_at (b : buffer) (i : Z) : Z := Z.of_N (nth (Z.to_nat i) b 0%N).

Definition readUInt16LE (b : buffer) (offset : Z) : result Z :=
  if (0 <=? offset) && (offset + 2 <=? blen b)
  then Ok (byte_at b offset + 256 * byte_at b (offset + 1)) else Throws ERR_OUT_OF_RANGE.

Definition readUInt32LE (b : buffer) (offset : Z) : result Z :=
  if (0 <=? offset) && (offset + 4 <=? blen b)
  then Ok (byte_at b offset + 256 * byte_at b (offset + 1) + 65536 * byte_at b (offset + 2)
           + 16777216 * byte_at b (offset + 3)) else Throws ERR_OUT_OF_RANGE.

(** [buffer.subarray(start, end)] for offsets that are not negative. *)
Definition subarray (b : buffer) (start end_ : Z) : buffer :=
  firstn (Z.to_nat (end_ - start)) (skipn (Z.to_nat start) b).

Definition assertAtMost (value maximum : Z) (code : string) : result unit :=
  if maximum <? value then uploadException PAYLOAD_TOO_LARGE code else Ok tt.

Definition guard (refused : bool) (code : string) : result unit :=
  if refused then uploadException UNSUPPORTED_MEDIA_TYPE code else Ok tt.

(** ** The records of an archive *)

Definition ZIP_LOCAL_FILE_HEADER_SIGNATURE : Z := 0x04034b50.
Definition ZIP_CENTRAL_FILE_HEADER_SIGNATURE : Z := 0x02014b50.
Definition ZIP_EOCD_SIGNATURE : Z := 0x06054b50.
Definition ZIP64_EOCD_LOCATOR_SIGNATURE : Z := 0x07064b50.
Definition ZIP_EOCD_MIN_BYTES : Z := 22.
Definition ZIP_MAX_COMMENT_BYTES : Z := 0xffff.

Definition invalid : string := "UPLOAD_XLSX_CENTRAL_DIRECTORY_INVALID".
Definition zip64 : string := "UPLOAD_XLSX_ZIP64_NOT_ALLOWED".
Definition bad_path : string := "UPLOAD_XLSX_ENTRY_PATH_INVALID".
Definition duplicate_entry : string := "UPLOAD_XLSX_DUPLICATE_ENTRY".
Definition entry_limit : string := "UPLOAD_XLSX_ENTRY_LIMIT_EXCEEDED".

(** The loop of findEocdOffset, from the last offset down. *)
Fixpoint eocd_loop (fuel : nat) (b : buffer) (offset minimum : Z) : result Z :=
  match fuel with
  | O => Throws OUT_OF_FUEL
  | S fuel =>
      if offset <? minimum then uploadException UNSUPPORTED_MEDIA_TYPE invalid
      else
        let! signature := readUInt32LE b offset in
        if negb (signature =? ZIP_EOCD_SIGNATURE) then eocd_loop fuel b (offset - 1) minimum
        else
          let! commentLength := readUInt16LE b (offset + 20) in
          if offset + ZIP_EOCD_MIN_BYTES + commentLength =? blen b then Ok offset
          else eocd_loop fuel b (offset - 1) minimum
  end.

Definition findEocdOffset (b : buffer) : result Z :=
  let! _ := guard (blen b <? ZIP_EOCD_MIN_BYTES) invalid in
  let minimumOffset := Z.max 0 (blen b - ZIP_EOCD_MIN_BYTES - ZIP_MAX_COMMENT_BYTES) in
  eocd_loop (S (S (Z.to_nat ZIP_MAX_COMMENT_BYTES))) b (blen b - ZIP_EOCD_MIN_BYTES) minimumOffset.

(** The loop of centralExtraContainsZip64 over the extra fields. *)
Fixpoint extra_loop (fuel : nat) (b : buffer) (cursor end_ : Z) : result bool :=
  match fuel with
  | O => Throws OUT_OF_FUEL
  | S fuel =>
      if cursor <? end_ then
        let! _ := guard (end_ <? cursor + 4) invalid in
        let! fieldId := readUInt16LE b cursor in
        let! fieldLength := readUInt16LE b (cursor + 2) in
        let cursor := cursor + 4 in
        let! _ := guard (end_ <? cursor + fieldLength) invalid in
        if fieldId =? 1 then Ok true else extra_loop fuel b (cursor + fieldLength) end_
      else Ok false
  end.

Definition centralExtraContainsZip64 (b : buffer) (offset length : Z) : result bool :=
  let end_ := offset + length in
  let! _ := guard (blen b <? end_) invalid in
  extra_loop (S (Z.to_nat length)) b offset end_.

Section directory.
Context `{Icu} (decode_utf8_fatal : buffer -> option str) (nfc : str -> str).

Definition slashes (name : str) : str := map (fun c => if (c =? 92)%N then 47%N else c) name.

(** [/^(?:[a-z]:|\/)/i]. *)
Definition is_absolute (name : str) : bool :=
  match name with
  | c :: r =>
      (c =? 47)%N
      || (let l := ascii_lower c in (97 <=? l)%N && (l <=? 122)%N) && match r with d :: _ => (d =? 58)%N | [] => false end
  | [] => false
  end.

Definition climbs (name : str) : bool := existsb (fun part => str_eqb part (js "..")) (split_on 47 name).

Definition control_character (c : N) : bool := (c <=? 31)%N || (c =? 127)%N.

Definition normalizedZipEntryName (nameBytes : buffer) : result str :=
  match decode_utf8_fatal nameBytes with
  | None => uploadException UNSUPPORTED_MEDIA_TYPE invalid
  | Some name =>
      let normalized := to_lower (nfc (slashes name)) in
      let! _ := guard (negb (truthy normalized) || existsb control_character normalized || is_absolute normalized
                       || climbs normalized) bad_path in
      Ok normalized
  end.

(** [a || b] of conditions that may throw. *)
Definition or_else (a : bool) (b : result bool) : result bool := if a then Ok true else b.

Definition assertMatchingLocalHeader (b : buffer) (localHeaderOffset centralOffset : Z) (centralNameBytes : buffer)
    (centralFlags centralCompressionMethod compressedSize : Z) : result unit :=
  let! wrong := or_else (centralOffset <? localHeaderOffset + 30)
                  (let! s := readUInt32LE b localHeaderOffset in Ok (negb (s =? ZIP_LOCAL_FILE_HEADER_SIGNATURE))) in
  let! _ := guard wrong invalid in
  let! localNameLength := readUInt16LE b (localHeaderOffset + 26) in
  let! localExtraLength := readUInt16LE b (localHeaderOffset + 28) in
  let localHeaderEnd := localHeaderOffset + 30 + localNameLength + localExtraLength in
  let! localFlags := readUInt16LE b (localHeaderOffset + 6) in
  let! wrong := or_else (negb (localFlags =? centralFlags))
    (let! localMethod := readUInt16LE b (localHeaderOffset + 8) in
     or_else (negb (localMethod =? centralCompressionMethod)
              || negb (localNameLength =? blen centralNameBytes) || (centralOffset <? localHeaderEnd)
              || (centralOffset <? localHeaderEnd + compressedSize))
       (centralExtraContainsZip64 b (localHeaderOffset + 30 + localNameLength) localExtraLength)) in
  let! _ := guard wrong invalid in
  let localNameBytes := subarray b (localHeaderOffset + 30) (localHeaderOffset + 30 + localNameLength) in
  guard (negb (bool_decide (localNameBytes = centralNameBytes))) invalid.

(** One record of the directory: its normalised name and where the next
    starts. *)
Definition central_record (b : buffer) (centralOffset centralEnd : Z) (names : list str) (cursor : Z)
  : result (str * Z) :=
  let! wrong := or_else (centralEnd <? cursor + 46)
                  (let! s := readUInt32LE b cursor in Ok (negb (s =? ZIP_CENTRAL_FILE_HEADER_SIGNATURE))) in
  let! _ := guard wrong invalid in
  let! flags := readUInt16LE b (cursor + 8) in
  let! compressionMethod := readUInt16LE b (cursor + 10) in
  let! compressedSize := readUInt32LE b (cursor + 20) in
  let! uncompressedSize := readUInt32LE b (cursor + 24) in
  let! nameLength := readUInt16LE b (cursor + 28) in
  let! extraLength := readUInt16LE b (cursor + 30) in
  let! commentLength := readUInt16LE b (cursor + 32) in
  let! diskStart := readUInt16LE b (cursor + 34) in
  let! localHeaderOffset := readUInt32LE b (cursor + 42) in
  let recordEnd := cursor + 46 + nameLength + extraLength + commentLength in
  let! large := or_else ((compressedSize =? 0xffffffff) || (uncompressedSize =? 0xffffffff)
                         || (localHeaderOffset =? 0xffffffff) || (diskStart =? 0xffff))
                  (centralExtraContainsZip64 b (cursor + 46 + nameLength) extraLength) in
  let! _ := guard large zip64 in
  let! _ := guard ((nameLength =? 0) || (centralEnd <? recordEnd) || negb (diskStart =? 0)
                   || negb (Z.land flags 0x0041 =? 0)) invalid in
  let centralNameBytes := subarray b (cursor + 46) (cursor + 46 + nameLength) in
  let! normalizedName := normalizedZipEntryName centralNameBytes in
  let! _ := guard (bool_decide (normalizedName ∈ names)) duplicate_entry in
  let! _ := assertMatchingLocalHeader b localHeaderOffset centralOffset centralNameBytes flags compressionMethod
              compressedSize in
  Ok (normalizedName, recordEnd).

(** The loop over the records: their names in order, and where it stopped. *)
Fixpoint central_loop (fuel : nat) (b : buffer) (maxEntries centralOffset centralEnd : Z) (names : list str)
    (cursor : Z) : result (list str * Z) :=
  match fuel with
  | O => Throws OUT_OF_FUEL
  | S fuel =>
      if cursor <? centralEnd then
        let! _ := assertAtMost (Z.of_nat (List.length names) + 1) maxEntries entry_limit in
        let! record := central_record b centralOffset centralEnd names cursor in
        central_loop fuel b maxEntries centralOffset centralEnd (names ++ [record.1]) record.2
      else Ok (names, cursor)
  end.

(** What the end record says: the number of entries and where the directory
    starts; it ends where this record starts. *)
Definition read_end_record (b : buffer) (maxEntries eocdOffset : Z) : result (Z * Z) :=
  let! diskNumber := readUInt16LE b (eocdOffset + 4) in
  let! centralDiskNumber := readUInt16LE b (eocdOffset + 6) in
  let! diskEntryCount := readUInt16LE b (eocdOffset + 8) in
  let! declaredEntryCount := readUInt16LE b (eocdOffset + 10) in
  let! centralSize := readUInt32LE b (eocdOffset + 12) in
  let! centralOffset := readUInt32LE b (eocdOffset + 16) in
  let! zip64LocatorPresent :=
    (if 20 <=? eocdOffset
     then let! s := readUInt32LE b (eocdOffset - 20) in Ok (s =? ZIP64_EOCD_LOCATOR_SIGNATURE) else Ok false) in
  let! _ := guard (zip64LocatorPresent || (declaredEntryCount =? 0xffff) || (diskEntryCount =? 0xffff)
                   || (centralSize =? 0xffffffff) || (centralOffset =? 0xffffffff)) zip64 in
  let! _ := guard (negb (diskNumber =? 0) || negb (centralDiskNumber =? 0)
                   || negb (diskEntryCount =? declaredEntryCount)) invalid in
  let! _ := assertAtMost declaredEntryCount maxEntries entry_limit in
  let centralEnd := centralOffset + centralSize in
  let! _ := guard ((2 ^ 53 - 1 <? centralEnd) || (centralOffset <? 0) || negb (centralEnd =? eocdOffset)
                   || (blen b <? centralEnd)) invalid in
  Ok (declaredEntryCount, centralOffset).

Definition inspectRawCentralDirectory (b : buffer) (maxEntries : Z) : result Z :=
  let! eocdOffset := findEocdOffset b in
  let! ended := read_end_record b maxEntries eocdOffset in
  let '(declaredEntryCount, centralOffset) := ended in
  let! walked := central_loop (S (S (Z.to_nat maxEntries))) b maxEntries centralOffset eocdOffset [] centralOffset in
  let '(names, cursor) := walked in
  let actualEntryCount := Z.of_nat (List.length names) in
  let! _ := guard (negb (cursor =? eocdOffset) || negb (actualEntryCount =? declaredEntryCount)) invalid in
  Ok actualEntryCount.
End directory.

(** ** Computations that refuse or return *)

(** A refusal of an upload. *)
Definition upload_refusal (e : js_error) : Prop := err_status e = 413 \/ err_status e = 415.

(** The computation returns a value with the property, or refuses. *)
Definition returns {A} (r : result A) (P : A -> Prop) : Prop :=
  match r with Ok a => P a | Throws e => upload_refusal e end.

Lemma returns_bind {A B} (r : result A) (f : A -> result B) P Q :
  returns r P -> (forall a, P a -> returns (f a) Q) -> returns (let! a := r in f a) Q.
Proof. destruct r; simpl; auto. Qed.

Lemma returns_impl {A} (r : result A) (P Q : A -> Prop) : returns r P -> (forall a, P a -> Q a) -> returns r Q.
Proof. destruct r; simpl; auto. Qed.

Lemma returns_ok {A} (a : A) (P : A -> Prop) : P a -> returns (Ok a) P.
Proof. done. Qed.

Lemma returns_refusal {A} code (P : A -> Prop) : returns (uploadException UNSUPPORTED_MEDIA_TYPE code) P.
Proof. by right. Qed.

Lemma returns_guard c code (P : unit -> Prop) : (c = false -> P tt) -> returns (guard c code) P.
Proof. unfold guard. destruct c; [by right|simpl; auto]. Qed.

Lemma returns_at_most x m code (P : unit -> Prop) : (x <= m -> P tt) -> returns (assertAtMost x m code) P.
Proof. unfold assertAtMost. destruct (m <? x) eqn:E; [by left|]. apply Z.ltb_ge in E. simpl. auto. Qed.

Lemma returns_then {A} c code (f : unit -> result A) Q : (c = false -> returns (f tt) Q) ->
  returns (let! u := guard c code in f u) Q.
Proof. intros F. eapply returns_bind; [apply (returns_guard _ _ (fun _ => c = false)); auto|]. intros []. auto. Qed.

Lemma returns_within {A} x m code (f : unit -> result A) Q : (x <= m -> returns (f tt) Q) ->
  returns (let! u := assertAtMost x m code in f u) Q.
Proof. intros F. eapply returns_bind; [apply (returns_at_most _ _ _ (fun _ => x <= m)); auto|]. intros []. auto. Qed.

Lemma returns_or a r (P : bool -> Prop) : (a = true -> P true) -> (a = false -> returns r P) -> returns (or_else a r) P.
Proof. destruct a; simpl; auto. Qed.

Lemma byte_nonneg b i : 0 <= byte_at b i.
Proof. unfold byte_at. lia. Qed.

Lemma returns_read16 b o (P : Z -> Prop) : 0 <= o -> o + 2 <= blen b ->
  (forall v, readUInt16LE b o = Ok v -> 0 <= v -> P v) -> returns (readUInt16LE b o) P.
Proof.
  intros L U F. unfold readUInt16LE in *. rewrite (proj2 (Z.leb_le _ _) L), (proj2 (Z.leb_le _ _) U) in *. simpl in *.
  apply F; [done|]. pose proof (byte_nonneg b o). pose proof (byte_nonneg b (o + 1)). lia.
Qed.

Lemma returns_read32 b o (P : Z -> Prop) : 0 <= o -> o + 4 <= blen b ->
  (forall v, readUInt32LE b o = Ok v -> 0 <= v -> P v) -> returns (readUInt32LE b o) P.
Proof.
  intros L U F. unfold readUInt32LE in *. rewrite (proj2 (Z.leb_le _ _) L), (proj2 (Z.leb_le _ _) U) in *. simpl in *.
  apply F; [done|]. pose proof (byte_nonneg b o). pose proof (byte_nonneg b (o + 1)).
  pose proof (byte_nonneg b (o + 2)). pose proof (byte_nonneg b (o + 3)). lia.
Qed.

(** One statement of a computation, whose reads are in range. *)
Ltac returning :=
  match goal with
  | |- returns (result_bind (readUInt16LE _ _) _) _ =>
      eapply returns_bind;
        [apply returns_read16; [lia|lia|let v := fresh "v" in let R := fresh "R" in let L := fresh "L" in
           intros v R L; exact (conj R L)]
        |let v := fresh "v" in let R := fresh "R" in let L := fresh "L" in intros v [R L]; cbv beta]
  | |- returns (result_bind (readUInt32LE _ _) _) _ =>
      eapply returns_bind;
        [apply returns_read32; [lia|lia|let v := fresh "v" in let R := fresh "R" in let L := fresh "L" in
           intros v R L; exact (conj R L)]
        |let v := fresh "v" in let R := fresh "R" in let L := fresh "L" in intros v [R L]; cbv beta]
  | |- returns (result_bind (guard _ _) _) _ => apply returns_then; let C := fresh "C" in intros C
  | |- returns (result_bind (assertAtMost _ _ _) _) _ => apply returns_within; let C := fresh "C" in intros C
  end.

(** ** What an accepted archive looks like *)

Section accepted.
Context `{Icu} (decode_utf8_fatal : buffer -> option str) (nfc : str -> str).

(** A name that stays below the directory that it is extracted in. *)
Definition safe_name (name : str) : Prop :=
  name <> [] /\ existsb control_character name = false /\ is_absolute name = false /\ climbs name = false.

(** The record at [cursor], and its data before the directory. *)
Record record_ok (b : buffer) (centralOffset centralEnd cursor : Z) (name : str) (next : Z) : Prop := {
  ro_signature : readUInt32LE b cursor = Ok ZIP_CENTRAL_FILE_HEADER_SIGNATURE;
  ro_inside : cursor + 46 < next <= centralEnd;
  ro_safe : safe_name name;
  ro_local : exists local size nameLength extraLength,
    readUInt32LE b (cursor + 42) = Ok local /\ readUInt32LE b (cursor + 20) = Ok size
    /\ readUInt16LE b (cursor + 28) = Ok nameLength /\ readUInt16LE b (local + 26) = Ok nameLength
    /\ readUInt16LE b (local + 28) = Ok extraLength
    /\ normalizedZipEntryName decode_utf8_fatal nfc (subarray b (cursor + 46) (cursor + 46 + nameLength)) = Ok name
    /\ subarray b (local + 30) (local + 30 + nameLength) = subarray b (cursor + 46) (cursor + 46 + nameLength)
    /\ readUInt32LE b local = Ok ZIP_LOCAL_FILE_HEADER_SIGNATURE
    /\ 0 <= local /\ 0 <= size /\ local + 30 + nameLength + extraLength + size <= centralOffset
}.

(** Records from [cursor] to [stop], one after the other. *)
Inductive walk (b : buffer) (centralOffset centralEnd : Z) : Z -> list str -> Z -> Prop :=
  | walk_end stop : walk b centralOffset centralEnd stop [] stop
  | walk_record cursor name next names stop :
      record_ok b centralOffset centralEnd cursor name next ->
      walk b centralOffset centralEnd next names stop ->
      walk b centralOffset centralEnd cursor (name :: names) stop.

(** ** The loops end *)

Lemma eocd_loop_returns fuel b offset minimum :
  0 <= minimum <= offset + 1 -> offset + 22 <= blen b -> offset - minimum + 1 < Z.of_nat fuel ->
  returns (eocd_loop fuel b offset minimum) (fun o => 0 <= o /\ o + 22 <= blen b
    /\ readUInt32LE b o = Ok ZIP_EOCD_SIGNATURE
    /\ exists comment, readUInt16LE b (o + 20) = Ok comment /\ o + 22 + comment = blen b).
Proof.
  revert offset. induction fuel as [|fuel IH]; intros offset M U F; [lia|]. cbn [eocd_loop].
  destruct (offset <? minimum) eqn:O; [apply returns_refusal|]. apply Z.ltb_ge in O. returning.
  destruct (v =? ZIP_EOCD_SIGNATURE) eqn:Sg; cbn [negb]; [|apply IH; lia]. apply Z.eqb_eq in Sg as ->. returning.
  destruct (_ =? blen b) eqn:E; [|apply IH; lia]. apply Z.eqb_eq in E. unfold ZIP_EOCD_MIN_BYTES in E.
  apply returns_ok. split; [lia|]. split; [lia|]. split; [done|]. by exists v.
Qed.

Lemma findEocdOffset_returns b : returns (findEocdOffset b) (fun o => 0 <= o /\ o + 22 <= blen b
  /\ readUInt32LE b o = Ok ZIP_EOCD_SIGNATURE
  /\ exists comment, readUInt16LE b (o + 20) = Ok comment /\ o + 22 + comment = blen b).
Proof.
  unfold findEocdOffset. returning. apply Z.ltb_ge in C. unfold ZIP_EOCD_MIN_BYTES, ZIP_MAX_COMMENT_BYTES in *.
  apply eocd_loop_returns; lia.
Qed.

Lemma extra_loop_returns fuel b cursor end_ : 0 <= cursor <= end_ -> end_ <= blen b -> end_ - cursor < Z.of_nat fuel ->
  returns (extra_loop fuel b cursor end_) (fun _ => True).
Proof.
  revert cursor. induction fuel as [|fuel IH]; intros cursor L U F; [lia|]. cbn [extra_loop].
  destruct (cursor <? end_) eqn:E; [|done]. returning. apply Z.ltb_ge in C. returning. returning. cbv zeta.
  returning. apply Z.ltb_ge in C0. destruct (v =? 1); [done|]. apply IH; lia.
Qed.

Lemma extra_returns b offset length : 0 <= offset -> 0 <= length ->
  returns (centralExtraContainsZip64 b offset length) (fun _ => offset + length <= blen b).
Proof.
  intros L1 L2. unfold centralExtraContainsZip64. returning. apply Z.ltb_ge in C.
  eapply returns_impl; [apply extra_loop_returns; lia|done].
Qed.

Lemma name_returns bytes : returns (normalizedZipEntryName decode_utf8_fatal nfc bytes)
  (fun name => normalizedZipEntryName decode_utf8_fatal nfc bytes = Ok name /\ safe_name name).
Proof.
  unfold normalizedZipEntryName. destruct (decode_utf8_fatal bytes) as [n|]; [|apply returns_refusal]. cbv zeta.
  set (name := to_lower _). unfold guard. destruct (_ || _) eqn:C; [by right|]. simpl. split; [done|].
  apply orb_false_iff in C as [C Cl]. apply orb_false_iff in C as [C Ab]. apply orb_false_iff in C as [T Ct].
  split; [|done]. by destruct name.
Qed.

(** A local header that matches. *)
Lemma local_returns b local centralOffset name flags method size :
  0 <= local -> 0 <= size -> centralOffset <= blen b ->
  returns (assertMatchingLocalHeader b local centralOffset name flags method size) (fun _ =>
    exists extraLength, readUInt16LE b (local + 26) = Ok (blen name) /\ readUInt16LE b (local + 28) = Ok extraLength
      /\ subarray b (local + 30) (local + 30 + blen name) = name
      /\ readUInt32LE b local = Ok ZIP_LOCAL_FILE_HEADER_SIGNATURE
      /\ local + 30 + blen name + extraLength + size <= centralOffset).
Proof.
  intros Ll Ls Lc. unfold assertMatchingLocalHeader.
  eapply returns_bind.
  { apply (returns_or _ _ (fun w => w = false -> local + 30 <= centralOffset /\ readUInt32LE b local = Ok ZIP_LOCAL_FILE_HEADER_SIGNATURE)).
    - by intros _.
    - intros C%Z.ltb_ge. returning. apply returns_ok. intros E%negb_false_iff%Z.eqb_eq. by subst. }
  intros w W. returning. destruct (W C) as [C1 Sg]. returning. returning. cbv zeta. returning.
  eapply returns_bind.
  { apply (returns_or _ _ (fun w => w = false -> v = blen name /\ local + 30 + v + v0 + size <= centralOffset)); [by intros _|].
    intros _. returning. apply returns_or; [by intros _|]. intros D. apply orb_false_iff in D as [D D4].
    apply orb_false_iff in D as [D D3]. apply orb_false_iff in D as [_ D2]. apply negb_false_iff, Z.eqb_eq in D2.
    apply Z.ltb_ge in D4. eapply returns_impl; [apply extra_returns; lia|]. cbv beta. intros x _ _. split; [done|lia]. }
  intros w' W'. returning. destruct (W' C0) as [-> E]. apply returns_guard. intros N.
  apply negb_false_iff, bool_decide_eq_true in N. by exists v0.
Qed.

Lemma record_returns b centralOffset centralEnd names cursor :
  0 <= cursor -> 0 <= centralOffset <= centralEnd -> centralEnd <= blen b ->
  returns (central_record decode_utf8_fatal nfc b centralOffset centralEnd names cursor)
    (fun r => record_ok b centralOffset centralEnd cursor r.1 r.2 /\ r.1 ∉ names).
Proof.
  intros Lc Lo Le. unfold central_record.
  eapply returns_bind.
  { apply (returns_or _ _ (fun w => w = false -> cursor + 46 <= centralEnd /\ readUInt32LE b cursor = Ok ZIP_CENTRAL_FILE_HEADER_SIGNATURE)).
    - by intros _.
    - intros C%Z.ltb_ge. returning. apply returns_ok. intros E%negb_false_iff%Z.eqb_eq. by subst. }
  intros w W. returning. destruct (W C) as [C1 Sg]. do 9 returning. cbv zeta.
  eapply returns_bind.
  { apply (returns_or _ _ (fun _ => True)); [done|]. intros _. eapply returns_impl; [apply extra_returns; lia|done]. }
  intros large _. returning. returning. apply orb_false_iff in C2 as [C2 _]. apply orb_false_iff in C2 as [C2 _].
  apply orb_false_iff in C2 as [Cn Ce]. apply Z.eqb_neq in Cn. apply Z.ltb_ge in Ce.
  eapply returns_bind; [apply name_returns|]. intros name [Nm Sf]. returning.
  apply bool_decide_eq_false in C2. set (bytes := subarray b _ _) in *.
  assert (Lb : blen bytes = v3).
  { unfold bytes, subarray, blen in *. rewrite length_firstn, length_skipn. lia. }
  eapply returns_bind; [apply local_returns; lia|]. intros _ (x & E1 & E2 & E3 & E4 & E5). rewrite Lb in *.
  apply returns_ok. split; [|done]. cbn [fst snd]. split; [done|lia|done|].
  exists v7, v1, v3, x. repeat (split; [done|]). lia.
Qed.

Lemma central_loop_returns fuel b maxEntries centralOffset centralEnd names cursor :
  0 <= cursor <= centralEnd -> 0 <= centralOffset <= centralEnd -> centralEnd <= blen b -> NoDup names ->
  maxEntries - Z.of_nat (List.length names) + 1 < Z.of_nat fuel -> (0 < fuel)%nat ->
  Z.of_nat (List.length names) <= maxEntries ->
  returns (central_loop decode_utf8_fatal nfc fuel b maxEntries centralOffset centralEnd names cursor) (fun r =>
    exists new, r.1 = names ++ new /\ NoDup r.1 /\ Z.of_nat (List.length r.1) <= maxEntries /\ r.2 = centralEnd
      /\ walk b centralOffset centralEnd cursor new r.2).
Proof.
  revert names cursor. induction fuel as [|fuel IH]; intros names cursor Lc Lo Le N F F0 L; [lia|]. cbn [central_loop].
  destruct (cursor <? centralEnd) eqn:E; [|apply Z.ltb_ge in E; apply returns_ok; exists []; rewrite app_nil_r; cbn [fst snd];
    split; [done|split; [done|split; [done|split; [lia|constructor]]]]].
  returning. eapply returns_bind; [apply record_returns; lia|]. intros [name next] [Ro Nn]. cbn [fst snd] in *.
  pose proof (ro_inside _ _ _ _ _ _ Ro) as In_. eapply returns_impl; [apply IH|].
  - lia.
  - lia.
  - lia.
  - apply NoDup_app. split; [done|]. split; [|apply NoDup_singleton]. intros x Ix ->%list_elem_of_singleton. done.
  - rewrite length_app. simpl. lia.
  - lia.
  - rewrite length_app. simpl. lia.
  - cbv beta. intros r (new & E1 & Nd & Ln & E2 & Wk). exists (name :: new).
    split; [by rewrite E1, <- app_assoc|]. repeat (split; [done|]). by econstructor.
Qed.
End accepted.

(** ** The whole inspection *)

Section inspection.
Context `{Icu} (decode_utf8_fatal : buffer -> option str) (nfc : str -> str).

Lemma end_record_returns b maxEntries o : 0 <= o -> o + 22 <= blen b ->
  returns (read_end_record b maxEntries o) (fun e => 0 <= e.2 <= o /\ 0 <= e.1 <= maxEntries).
Proof.
  intros L U. unfold read_end_record. do 6 returning. eapply returns_bind.
  { apply (returns_impl _ (fun _ => True)); [|intros ? _; exact I]. destruct (20 <=? o) eqn:E; [|done].
    apply Z.leb_le in E. by returning. }
  intros present _. returning. returning. returning. cbv zeta. returning. apply returns_ok. cbn [fst snd].
  repeat match goal with C : _ || _ = false |- _ => apply orb_false_iff in C as [? ?] end.
  match goal with C : negb (_ =? o) = false |- _ => apply negb_false_iff, Z.eqb_eq in C end. lia.
Qed.

(** What an accepted archive looks like. *)
Definition well_formed (b : buffer) (count : Z) : Prop := exists eocd start names comment,
  readUInt32LE b eocd = Ok ZIP_EOCD_SIGNATURE /\ readUInt16LE b (eocd + 20) = Ok comment
  /\ eocd + 22 + comment = blen b
  /\ walk decode_utf8_fatal nfc b start eocd start names eocd
  /\ NoDup names /\ count = Z.of_nat (List.length names).

Lemma inspection_returns b maxEntries : 0 <= maxEntries ->
  returns (inspectRawCentralDirectory decode_utf8_fatal nfc b maxEntries)
    (fun n => n <= maxEntries /\ well_formed b n).
Proof.
  intros L. unfold inspectRawCentralDirectory.
  eapply returns_bind; [apply findEocdOffset_returns|]. intros o (Lo & Uo & Sg & comment & Cm & Ce).
  eapply returns_bind; [by apply end_record_returns|]. intros [declared start] [Ls Ld]. cbn [fst snd] in *.
  eapply returns_bind; [apply central_loop_returns; [lia|lia|lia|apply NoDup_nil_2|simpl; lia|lia|simpl; lia]|].
  intros [names cursor] (new & E & N & Ln & Ec & Wk). cbn [fst snd app] in *. subst new cursor. cbv zeta.
  returning. apply returns_ok. split; [done|]. by exists o, start, names, comment.
Qed.

(** C33: The inspection of an archive ends.  For every buffer of bytes, the search
    of the end record, the walk over the extra fields and the walk over the
    directory end within the fuel of the model, no read is out of range, and the
    answer is a number of entries within the limit or a refusal with status 413
    or 415. *)
Theorem inspectRawCentralDirectory_ends b maxEntries : 0 <= maxEntries ->
  match inspectRawCentralDirectory decode_utf8_fatal nfc b maxEntries with
  | Ok n => 0 <= n <= maxEntries
  | Throws e => err_status e = 413 \/ err_status e = 415
  end.
Proof.
  intros L. pose proof (inspection_returns b maxEntries L) as R.
  destruct (inspectRawCentralDirectory _ _ b maxEntries) as [n|e]; [|exact R].
  destruct R as [Ln (o & s & names & c & _ & _ & _ & _ & _ & ->)]. lia.
Qed.

(** What an accepted archive is.  An archive that is accepted with [n]
    entries ends in its end record and comment; its directory is exactly [n]
    records one after the other up to that record, whose names are distinct
    once normalised, neither absolute nor climbing nor with control characters;
    and every record has a local header of the same name whose data lies before
    the directory. *)
Theorem inspectRawCentralDirectory_accepts b maxEntries n : 0 <= maxEntries ->
  inspectRawCentralDirectory decode_utf8_fatal nfc b maxEntries = Ok n -> well_formed b n.
Proof. intros L E. pose proof (inspection_returns b maxEntries L) as R. rewrite E in R. by destruct R. Qed.
End inspection.

(** ** Concrete archives *)

Section example.
#[local] Existing Instance c_locale.

Definition u16 (v : Z) : buffer := [Z.to_N (v mod 256); Z.to_N (v / 256)].
Definition u32 (v : Z) : buffer := u16 (v mod 65536) ++ u16 (v / 65536).

(** A decoder of ASCII, for UTF-8. *)
Definition ascii_only (b : buffer) : option str := if is_ascii b then Some b else None.

Definition local_file (name : string) (data : buffer) : buffer :=
  u32 ZIP_LOCAL_FILE_HEADER_SIGNATURE ++ u16 20 ++ u16 0 ++ u16 0 ++ u32 0 ++ u32 0 ++ u32 (blen data) ++ u32 (blen data)
  ++ u16 (blen (js name)) ++ u16 0 ++ js name ++ data.

Definition central_file (name : string) (data : buffer) (local : Z) : buffer :=
  u32 ZIP_CENTRAL_FILE_HEADER_SIGNATURE ++ u16 20 ++ u16 20 ++ u16 0 ++ u16 0 ++ u32 0 ++ u32 0 ++ u32 (blen data)
  ++ u32 (blen data) ++ u16 (blen (js name)) ++ u16 0 ++ u16 0 ++ u16 0 ++ u16 0 ++ u32 0 ++ u32 local ++ js name.

(** Two stored files, with the names given. *)
Definition two_files (name1 name2 : string) (comment : string) : buffer :=
  let a := local_file name1 [1; 2; 3]%N in
  let b := local_file name2 [4]%N in
  let c := central_file name1 [1; 2; 3]%N 0 ++ central_file name2 [4]%N (blen a) in
  a ++ b ++ c ++ u32 ZIP_EOCD_SIGNATURE ++ u16 0 ++ u16 0 ++ u16 2 ++ u16 2 ++ u32 (blen c) ++ u32 (blen a + blen b)
  ++ u16 (blen (js comment)) ++ js comment.

Definition inspect := inspectRawCentralDirectory ascii_only (fun s => s).

Example inspected :
  (inspect (two_files "a.xml" "xl\b.xml" "PK") 2048,
   inspect (two_files "a.xml" "A.XML" "") 2048, inspect (two_files "a" "x/../b" "") 2048,
   inspect (two_files "a" "C:b" "") 2048, inspect (two_files "a" "b" "") 1,
   inspect (firstn 60 (two_files "a" "b" "")) 2048)
  = (Ok 2, uploadException 415 duplicate_entry, uploadException 415 bad_path, uploadException 415 bad_path,
     uploadException 413 entry_limit, uploadException 415 invalid).
Proof. vm_compute. reflexivity. Qed.

Lemma inspectRawCentralDirectory_ends_witness :
  match inspect (two_files "a.xml" "b.xml" "") 2048 with
  | Ok n => 0 <= n <= 2048
  | Throws e => err_status e = 413 \/ err_status e = 415
  end.
Proof.
  unfold inspect. pose proof (inspectRawCentralDirectory_ends ascii_only (fun s => s) (two_files "a.xml" "b.xml" "") 2048 ltac:(lia)) as E.
  exact E.
Defined.

Lemma inspectRawCentralDirectory_accepts_witness : well_formed ascii_only (fun s => s) (two_files "a.xml" "b.xml" "") 2.
Proof.
  assert (E : inspectRawCentralDirectory ascii_only (fun s => s) (two_files "a.xml" "b.xml" "") 2048 = Ok 2)
    by (vm_compute; reflexivity).
  exact (inspectRawCentralDirectory_accepts ascii_only (fun s => s) (two_files "a.xml" "b.xml" "") 2048 2 ltac:(lia) E).
Defined.
End example.
