(* ===== verification/UploadProfiles.v ===== *)
(** * Upload profiles and the reception of files

    common/encoding.ts, the display name of an uploaded file, and
    file-security/upload-profiles.ts: what each upload accepts, the limits that
    the environment can lower, and the storage engine that collects the chunks
    of the files of a request.  The decoding of UTF-8 with replacement
    characters and the normalisation of Unicode are parameters. *)

From S2P Require Import Prelude JsNumber JsString.
From S2P Require Import SafeInteger.
From S2P Require Import ZipArchive.

Local Open Scope Z_scope.

(** ** Code points *)

(** [Array.from(text)]: a surrogate pair is one character. *)
Definition high_surrogate (c : N) : bool := (55296 <=? c)%N && (c <=? 56319)%N.
Definition low_surrogate (c : N) : bool := (56320 <=? c)%N && (c <=? 57343)%N.

Fixpoint characters (s : str) : list str :=
  match s with
  | [] => []
  | c :: t =>
      match t with
      | d :: r => if high_surrogate c && low_surrogate d then [c; d] :: characters r else [c] :: characters t
      | [] => [[c]]
      end
  end.

Definition character_count (s : str) : Z := Z.of_nat (List.length (characters s)).

(** [text.lastIndexOf(c)]. *)
Fixpoint last_index (c : N) (s : str) : option nat :=
  match s with
  | [] => None
  | x :: r => match last_index c r with Some i => Some (S i) | None => if (x =? c)%N then Some 0%nat else None end
  end.

(** ** common/encoding.ts *)

Section filenames.
Context (nfc : str -> str) (decode_utf8 : buffer -> str).

Definition MAX_UPLOAD_DISPLAY_FILENAME_LENGTH : nat := 180.

Definition count_units (p : N -> bool) (s : str) : Z := Z.of_nat (List.length (List.filter p s)).

Definition mojibake : str := js "ÃÂÄÅÆÇÈÉÊËÌÍÎÏÐÑÒÓÔÕÖØÙÚÛÜÝÞßàáâãäåæçèéêëìíîïðñòóôõöøùúûüýþÿ".

Definition koreanTextScore (value : str) : Z :=
  count_units (fun c => (44032 <=? c)%N && (c <=? 55203)%N) value * 5 - count_units (N.eqb 65533) value * 20
  - count_units (fun c => existsb (N.eqb c) mojibake) value * 2.

Definition decodeLegacyFilename (filename : str) : str :=
  let normalized := nfc filename in
  let decodedFromLatin1 := nfc (decode_utf8 (map (fun c => (c mod 256)%N) normalized)) in
  if koreanTextScore normalized <? koreanTextScore decodedFromLatin1 then decodedFromLatin1 else normalized.

Definition truncateFilename (filename : str) (maxLength : nat) : str :=
  let chars := characters filename in
  if (List.length chars <=? maxLength)%nat then filename
  else
    let extension := match last_index 46 filename with
                     | Some (S i) => skipn (S i) filename
                     | _ => []
                     end in
    let extensionCharacters := firstn 20 (characters extension) in
    let baseLength := Nat.max 1 (maxLength - List.length extensionCharacters) in
    concat (firstn baseLength chars) ++ concat extensionCharacters.

Definition reserved_character (c : N) : bool := existsb (N.eqb c) (js "<>:|?*" ++ [34]%N).

(** [text.replace(/[. ]+$/g, "")]. *)
Fixpoint drop_dots (s : str) : str :=
  match s with c :: r => if (c =? 46)%N || (c =? 32)%N then drop_dots r else s | [] => [] end.
Definition without_trailing_dots (s : str) : str := rev (drop_dots (rev s)).

Definition underscored (p : N -> bool) (s : str) : str := map (fun c => if p c then 95%N else c) s.

Definition sanitizeUploadedFilename (filename : str) : str :=
  let normalized := slashes (decodeLegacyFilename filename) in
  let basename := List.last (split_on 47 normalized) [] in
  let withoutControls :=
    without_trailing_dots (trim (collapse_ws (underscored reserved_character (underscored control_character basename)))) in
  let safeName := truncateFilename withoutControls MAX_UPLOAD_DISPLAY_FILENAME_LENGTH in
  if negb (truthy safeName) || str_eqb safeName (js ".") || str_eqb safeName (js "..") then js "upload" else safeName.

Definition normalizeUploadedFilename (filename : str) : str := sanitizeUploadedFilename filename.
End filenames.

(** ** Profiles *)

Definition MIB : Z := 1024 * 1024.

Inductive UploadProfileId :=
  | META_CSV | CAFE24_CSV | COUPANG_SALES_XLSX | COUPANG_ADS_XLSX | COUPANG_MARGIN_TEXT | COUPANG_PRICE_TEXT
  | COUPANG_PROMOTION_XLSX.

Inductive UploadContentKind := CSV | TEXT | XLSX.

Record UploadProfile := {
  profile_id : UploadProfileId;
  contentKind : UploadContentKind;
  extensions : list str;
  mimeTypes : list str;
  maxFileBytes : Z;
  maxFileBytesEnv : str
}.

Definition CSV_MIME_TYPES : list str := map js
  ["text/csv"; "application/csv"; "application/vnd.ms-excel"; "text/plain"; "application/octet-stream"]%string.

Definition XLSX_MIME_TYPES : list str := map js
  ["application/vnd.openxmlformats-officedocument.spreadsheetml.sheet"; "application/octet-stream"]%string.

Definition profile (i : UploadProfileId) (kind : UploadContentKind) (exts : list string) (mib : Z) (env : string)
  : UploadProfile :=
  {| profile_id := i; contentKind := kind; extensions := map js exts;
     mimeTypes := match kind with XLSX => XLSX_MIME_TYPES | _ => CSV_MIME_TYPES end;
     maxFileBytes := mib * MIB; maxFileBytesEnv := js env |}.

Definition UPLOAD_PROFILES (i : UploadProfileId) : UploadProfile :=
  match i with
  | META_CSV => profile i CSV [".csv"] 8 "UPLOAD_META_MAX_FILE_BYTES"
  | CAFE24_CSV => profile i CSV [".csv"] 8 "UPLOAD_CAFE24_MAX_FILE_BYTES"
  | COUPANG_SALES_XLSX | COUPANG_ADS_XLSX | COUPANG_PROMOTION_XLSX =>
      profile i XLSX [".xlsx"] 24 "UPLOAD_COUPANG_XLSX_MAX_FILE_BYTES"
  | COUPANG_MARGIN_TEXT => profile i CSV [".csv"; ".tsv"] 8 "UPLOAD_COUPANG_TEXT_MAX_FILE_BYTES"
  | COUPANG_PRICE_TEXT => profile i TEXT [".txt"; ".csv"; ".tsv"] 8 "UPLOAD_COUPANG_TEXT_MAX_FILE_BYTES"
  end%string.

Definition COUPANG_BUNDLE_FIELDS : list (str * UploadProfile) :=
  [(js "sales", UPLOAD_PROFILES COUPANG_SALES_XLSX); (js "ads", UPLOAD_PROFILES COUPANG_ADS_XLSX);
   (js "margin", UPLOAD_PROFILES COUPANG_MARGIN_TEXT)].

Definition DEFAULT_COUPANG_BUNDLE_MAX_TOTAL_BYTES : Z := 48 * MIB.

(** ** Limits that the environment can lower *)

Definition environment := str -> option str.

Definition configuration_error (name : str) (text : string) : js_error :=
  {| err_status := 0; err_code := name ++ js text |}.

Definition lowerOnlyLimit (raw : option str) (hardDefault minimum : Z) (name : str) : result Z :=
  match raw with
  | None => Ok hardDefault
  | Some raw =>
      if negb (truthy (trim raw)) then Ok hardDefault
      else if negb (all_digits (trim raw)) then Throws (configuration_error name " must be an integer.")
      else
        let parsed := to_number raw in
        if negb (isSafeInteger parsed) || nltb parsed (ofZ minimum) || nltb (ofZ hardDefault) parsed
        then Throws (configuration_error name " must be between the minimum and the default.")
        else Ok (toZ parsed)
  end.

Definition resolveProfileMaxFileBytes (p : UploadProfile) (env : environment) : result Z :=
  lowerOnlyLimit (env (maxFileBytesEnv p)) (maxFileBytes p) 1024 (maxFileBytesEnv p).

Definition resolveCoupangBundleMaxTotalBytes (env : environment) : result Z :=
  let name := js "UPLOAD_COUPANG_BUNDLE_MAX_TOTAL_BYTES" in
  lowerOnlyLimit (env name) DEFAULT_COUPANG_BUNDLE_MAX_TOTAL_BYTES 3072 name.

(** ** Envelopes *)

(** The names that every object has: [object[name]] is truthy and [name in
    object] holds for them. *)
Definition object_prototype : list str := map js
  ["constructor"; "__defineGetter__"; "__defineSetter__"; "hasOwnProperty"; "__lookupGetter__"; "__lookupSetter__";
   "isPrototypeOf"; "propertyIsEnumerable"; "toString"; "valueOf"; "__proto__"; "toLocaleString"]%string.

(** What a property of such an object, which is not a profile, throws. *)
Definition TYPE_ERROR : js_error := {| err_status := 0; err_code := js "TypeError" |}.

Section envelope.
Context `{Icu}.

Definition extensionOf (filename : str) : str :=
  match last_index 46 filename with Some i => to_lower (skipn i filename) | None => [] end.

(** The type before the parameters of [file.mimetype]. *)
Definition mime_type (mimetype : option str) : str :=
  to_lower (trim (hd [] (split_on 59 (mimetype ?? [])))).

Definition assertAllowedExtensionAndMime (originalname : str) (mimetype : option str) (p : UploadProfile) : result unit :=
  let! _ := guard (negb (existsb (str_eqb (extensionOf originalname)) (extensions p))) "UPLOAD_EXTENSION_NOT_ALLOWED" in
  guard (negb (existsb (str_eqb (mime_type mimetype)) (mimeTypes p))) "UPLOAD_MIME_NOT_ALLOWED".

(** What the filter of an upload does with a file: its name as it is kept, or
    the refusal. *)
Definition fileFilter (nfc : str -> str) (decode_utf8 : buffer -> str) (allowedProfiles : list (str * UploadProfile))
    (fieldname originalname : str) (mimetype : option str) : result str :=
  match map_get allowedProfiles fieldname with
  | None =>
      if existsb (str_eqb fieldname) object_prototype then Throws TYPE_ERROR else bad_request "UPLOAD_FIELD_INVALID"
  | Some p =>
      let name := sanitizeUploadedFilename nfc decode_utf8 originalname in
      let! _ := assertAllowedExtensionAndMime name mimetype p in
      Ok name
  end.
End envelope.

(** What the middleware is told of an upload: the profiles by field, the
    limits of the storage engine and its own. *)
Record MulterOptions := {
  mo_allowedProfiles : list (str * UploadProfile);
  mo_maxTotalBytes : Z;
  mo_perFieldMaxBytes : list (str * Z);
  mo_fieldNameSize : Z;
  mo_fieldSize : Z;
  mo_fields : Z;
  mo_fileSize : Z;
  mo_files : Z;
  mo_parts : Z;
  mo_headerPairs : Z
}.

Definition boundedMemoryOptions (maxFileBytes maxTotalBytes maxFiles : Z) (allowedProfiles : list (str * UploadProfile))
    (perFieldMaxBytes : list (str * Z)) : MulterOptions :=
  {| mo_allowedProfiles := allowedProfiles; mo_maxTotalBytes := maxTotalBytes; mo_perFieldMaxBytes := perFieldMaxBytes;
     mo_fieldNameSize := 64; mo_fieldSize := 16 * 1024; mo_fields := 10; mo_fileSize := maxFileBytes + 1;
     mo_files := maxFiles; mo_parts := maxFiles + 10; mo_headerPairs := 100 |}.

Definition singleUploadMulterOptions (p : UploadProfile) (env : environment) : result MulterOptions :=
  let! maxFileBytes := resolveProfileMaxFileBytes p env in
  Ok (boundedMemoryOptions maxFileBytes maxFileBytes 1 [(js "file", p)] [(js "file", maxFileBytes)]).

Definition bundleUploadMulterOptions (env : environment) : result MulterOptions :=
  let! perFieldMaxBytes :=
    result_map (fun '(field, p) => let! v := resolveProfileMaxFileBytes p env in Ok (field, v)) COUPANG_BUNDLE_FIELDS in
  let! maxTotalBytes := resolveCoupangBundleMaxTotalBytes env in
  Ok (boundedMemoryOptions (fold_left Z.max (map snd perFieldMaxBytes) 0) maxTotalBytes 3 COUPANG_BUNDLE_FIELDS perFieldMaxBytes).

(** ** The storage engine *)

(** A file that is received: what [_handleFile] keeps of it, and what it gave
    to its callback. *)
Record ReceivedFile := {
  rf_field : str;
  rf_fileBytes : Z;
  rf_chunks : list buffer;
  rf_answer : option (result buffer)
}.

(** The files of a request, which share the count of bytes. *)
Record Reception := { rc_bytes : Z; rc_files : list ReceivedFile }.

Inductive StreamEvent :=
  | OnData (file : nat) (chunk : buffer)
  | OnError (file : nat) (error : js_error)
  | OnEnd (file : nat).

Section storage.
Context (maxTotalBytes : Z) (perFieldMaxBytes : str -> option Z).

Definition UPLOAD_TOO_LARGE : js_error := {| err_status := 413; err_code := js "UPLOAD_TOO_LARGE" |}.
Definition UPLOAD_TOTAL_TOO_LARGE : js_error := {| err_status := 413; err_code := js "UPLOAD_TOTAL_TOO_LARGE" |}.

Definition fail_file (e : js_error) (f : ReceivedFile) : ReceivedFile :=
  match rf_answer f with
  | Some _ => f
  | None => {| rf_field := rf_field f; rf_fileBytes := rf_fileBytes f; rf_chunks := []; rf_answer := Some (Throws e) |}
  end.

Definition on_data (chunk : buffer) (bytes : Z) (f : ReceivedFile) : Z * ReceivedFile :=
  match rf_answer f with
  | Some _ => (bytes, f)
  | None =>
      let fileBytes := rf_fileBytes f + blen chunk in
      let bytes := bytes + blen chunk in
      let counted := {| rf_field := rf_field f; rf_fileBytes := fileBytes; rf_chunks := rf_chunks f; rf_answer := None |} in
      (bytes,
       if match perFieldMaxBytes (rf_field f) with
          | Some fieldLimit => (fieldLimit =? 0) || (fieldLimit <? fileBytes)
          | None => true
          end
       then fail_file UPLOAD_TOO_LARGE counted
       else if maxTotalBytes <? bytes then fail_file UPLOAD_TOTAL_TOO_LARGE counted
       else {| rf_field := rf_field f; rf_fileBytes := fileBytes; rf_chunks := rf_chunks f ++ [chunk]; rf_answer := None |})
  end.

Definition on_end (f : ReceivedFile) : ReceivedFile :=
  match rf_answer f with
  | Some _ => f
  | None => {| rf_field := rf_field f; rf_fileBytes := rf_fileBytes f; rf_chunks := rf_chunks f;
               rf_answer := Some (Ok (concat (rf_chunks f))) |}
  end.

Definition receive (r : Reception) (e : StreamEvent) : Reception :=
  match e with
  | OnData i chunk =>
      match rc_files r !! i with
      | Some f =>
          let '(bytes, f') := on_data chunk (rc_bytes r) f in
          {| rc_bytes := bytes; rc_files := <[i := f']> (rc_files r) |}
      | None => r
      end
  | OnError i error => {| rc_bytes := rc_bytes r; rc_files := alter (fail_file error) i (rc_files r) |}
  | OnEnd i => {| rc_bytes := rc_bytes r; rc_files := alter on_end i (rc_files r) |}
  end.

(** A request with files in these fields, before any event. *)
Definition reception (fields : list str) : Reception :=
  {| rc_bytes := 0;
     rc_files := map (fun f => {| rf_field := f; rf_fileBytes := 0; rf_chunks := []; rf_answer := None |}) fields |}.
End storage.

(** ** Names that are displayed *)

Lemma character_sound s x : x ∈ characters s -> List.length (characters x) = 1%nat /\ (forall c, c ∈ x -> c ∈ s).
Proof.
  revert x. induction s as [s IH] using (induction_ltof1 _ (@List.length N)). unfold ltof in IH. intros x.
  destruct s as [|c [|d r]]; [by intros ?%elem_of_nil| |].
  - cbn [characters]. intros ->%list_elem_of_singleton. by split.
  - cbn [characters]. destruct (high_surrogate c && low_surrogate d) eqn:E.
    + intros [->|I]%elem_of_cons.
      * split; [cbn [characters]; by rewrite E|]. intros e Ie. rewrite !elem_of_cons in *. set_solver.
      * destruct (IH r ltac:(simpl; lia) x I) as [L S]. split; [done|]. intros e Ie. do 2 right. by apply S.
    + intros [->|I]%elem_of_cons.
      * split; [done|]. intros e ->%list_elem_of_singleton. by left.
      * destruct (IH (d :: r) ltac:(simpl; lia) x I) as [L S]. split; [done|]. intros e Ie. right. by apply S.
Qed.

Lemma characters_app a b : (List.length (characters (a ++ b)) <= List.length (characters a) + List.length (characters b))%nat.
Proof.
  induction a as [a IH] using (induction_ltof1 _ (@List.length N)). unfold ltof in IH.
  assert (Tl : forall c s, (List.length (characters s) <= List.length (characters (c :: s)))%nat
    /\ (List.length (characters (c :: s)) <= S (List.length (characters s)))%nat).
  { intros c s. revert c. induction s as [|d r IHs]; intros c; [cbn; lia|]. cbn [characters].
    destruct (IHs d) as [L U]. destruct (high_surrogate c && low_surrogate d); cbn [List.length]; cbn [characters] in *; lia. }
  destruct a as [|c [|d r]]; [simpl; lia| |].
  - change ([c] ++ b) with (c :: b). pose proof (Tl c b). change (List.length (characters [c])) with 1%nat. lia.
  - change ((c :: d :: r) ++ b) with (c :: d :: (r ++ b)). cbn [characters]. destruct (high_surrogate c && low_surrogate d); cbn [List.length].
    + pose proof (IH r ltac:(simpl; lia)). lia.
    + pose proof (IH (d :: r) ltac:(simpl; lia)) as L. cbn [app characters] in *. lia.
Qed.

Lemma characters_concat l : (forall x, x ∈ l -> List.length (characters x) = 1%nat) ->
  (List.length (characters (concat l)) <= List.length l)%nat.
Proof.
  induction l as [|x l IH]; intros F; [done|]. cbn [concat]. pose proof (characters_app x (concat l)) as L.
  rewrite (F x) in L by by left. pose proof (IH (fun y I => F y ltac:(by right))). simpl. lia.
Qed.

Section display.
Context (nfc : str -> str) (decode_utf8 : buffer -> str).

(** What a display name does not have: control characters, separators of paths
    and what Windows reserves. *)
Definition display_unit (c : N) : bool :=
  negb (control_character c) && negb (reserved_character c) && negb (c =? 47)%N && negb (c =? 92)%N.

Lemma truncated_units s n : (forall c, c ∈ truncateFilename s n -> c ∈ s)
  /\ (20 < n -> List.length (characters (truncateFilename s n)) <= n)%nat.
Proof.
  unfold truncateFilename. destruct (List.length (characters s) <=? n)%nat eqn:L.
  { apply Nat.leb_le in L. by split. }
  set (ext := match last_index 46 s with Some (S i) => _ | _ => _ end).
  assert (Ie : forall c, c ∈ ext -> c ∈ s).
  { intros c. unfold ext. destruct (last_index 46 s) as [[|i]|]; [by intros ?%elem_of_nil| |by intros ?%elem_of_nil].
    apply subseteq_drop. }
  assert (Fs : forall k t x, x ∈ firstn k (characters t) -> x ∈ characters t) by (intros; by eapply subseteq_take).
  split.
  - intros c [I|I]%elem_of_app; apply list_elem_of_In, in_concat in I as (x & Ix & Ic);
      apply list_elem_of_In in Ix, Ic; apply Fs, character_sound in Ix as [_ S]; [by apply S|by apply Ie, S].
  - intros L20. pose proof (characters_app (concat (firstn (Nat.max 1 (n - List.length (firstn 20 (characters ext)))) (characters s)))
      (concat (firstn 20 (characters ext)))) as A.
    pose proof (characters_concat (firstn (Nat.max 1 (n - List.length (firstn 20 (characters ext)))) (characters s))
      (fun x I => proj1 (character_sound _ _ (Fs _ _ _ I)))) as B1.
    pose proof (characters_concat (firstn 20 (characters ext)) (fun x I => proj1 (character_sound _ _ (Fs _ _ _ I)))) as B2.
    rewrite length_firstn in B1. rewrite !length_firstn in *. lia.
Qed.

Lemma elem_rev (c : N) l : c ∈ rev l <-> c ∈ l.
Proof. rewrite !list_elem_of_In. symmetry. apply in_rev. Qed.

Lemma drop_dots_units s c : c ∈ without_trailing_dots s -> c ∈ s.
Proof.
  unfold without_trailing_dots. rewrite elem_rev, <- (elem_rev c s). induction (rev s) as [|x r IH]; [done|]. cbn [drop_dots]. destruct (_ || _); [|done]. intros I. right. by apply IH.
Qed.

Lemma trim_units s c : c ∈ trim s -> c ∈ s.
Proof.
  assert (D : forall t, c ∈ drop_ws t -> c ∈ t).
  { intros t. destruct (drop_ws_suffix t) as (p & E & _). rewrite E at 2. rewrite elem_of_app. auto. }
  unfold trim. intros I. by apply elem_rev, D, elem_rev, D in I.
Qed.

Lemma collapse_units s c : c ∈ collapse_ws s -> c ∈ s \/ c = 32%N.
Proof.
  unfold collapse_ws. generalize false. induction s as [|x s IH]; intros b I; [by apply elem_of_nil in I|].
  cbn [collapse_ws_go] in I. destruct (is_ws x), b; rewrite ?elem_of_cons in *; naive_solver.
Qed.

Lemma split_units d s x c : x ∈ split_on d s -> c ∈ x -> c ∈ s /\ c <> d.
Proof.
  unfold split_on. assert (G : forall acc, d ∉ acc -> x ∈ split_on_go d acc s -> c ∈ x -> (c ∈ s \/ c ∈ acc) /\ c <> d).
  { induction s as [|y s IH]; intros acc Na Ix Ic; cbn [split_on_go] in Ix.
    - apply list_elem_of_singleton in Ix as ->. rewrite elem_rev in Ic. split; [by right|].
      intros ->. done.
    - destruct (y =? d)%N eqn:E.
      + apply elem_of_cons in Ix as [->|Ix].
        * rewrite elem_rev in Ic. split; [by right|]. by intros ->.
        * destruct (IH [] ltac:(by apply not_elem_of_nil) Ix Ic) as [[I|I%elem_of_nil] Nc]; [|done]. split; [|done].
          left. by right.
      + apply N.eqb_neq in E. destruct (IH (y :: acc) ltac:(rewrite not_elem_of_cons; auto) Ix Ic) as [[I|I] Nc].
        * split; [left; by right|done].
        * apply elem_of_cons in I as [->|I]; (split; [|done]); [left; by left|by right]. }
  intros Ix Ic. destruct (G [] ltac:(by apply not_elem_of_nil) Ix Ic) as [[I|I%elem_of_nil] Nc]; [|done]. by split.
Qed.

Lemma last_split d s : List.last (split_on d s) [] ∈ split_on d s \/ List.last (split_on d s) [] = [].
Proof.
  induction (split_on d s) as [|x [|y l] IH]; [by right|left; by left|]. destruct IH as [I|E]; [|by right].
  left. right. exact I.
Qed.

(** C35: Display names are safe.  Whatever name a client gives its file, and
    whatever the decoders do, the name that is kept is not empty, is neither the
    current nor the parent directory, has at most 180 characters, and has no
    control character, no separator of paths and no character reserved by
    Windows. *)
Theorem sanitizeUploadedFilename_safe filename :
  let name := sanitizeUploadedFilename nfc decode_utf8 filename in
  name <> [] /\ name <> js "." /\ name <> js ".." /\ character_count name <= 180
  /\ forall c, c ∈ name -> display_unit c = true.
Proof.
  unfold sanitizeUploadedFilename. cbv zeta. set (base := List.last _ []).
  set (clean := without_trailing_dots _). destruct (truncated_units clean MAX_UPLOAD_DISPLAY_FILENAME_LENGTH) as [Un Ln].
  assert (Ub : forall c, c ∈ base -> (c =? 47)%N = false /\ (c =? 92)%N = false).
  { intros c Ic. unfold base in Ic. destruct (last_split 47 (slashes (decodeLegacyFilename nfc decode_utf8 filename))) as [I|E].
    - destruct (split_units _ _ _ _ I Ic) as [Is Ns]. split; [by apply N.eqb_neq|].
      apply list_elem_of_fmap in Is as (x & -> & _). destruct (x =? 92)%N eqn:X; [done|exact X].
    - rewrite E in Ic. by apply elem_of_nil in Ic. }
  assert (Uc : forall c, c ∈ clean -> display_unit c = true).
  { intros c Ic. apply drop_dots_units, trim_units, collapse_units in Ic as [Ic| ->]; [|done].
    apply list_elem_of_fmap in Ic as (y & -> & Iy). apply list_elem_of_fmap in Iy as (z & -> & Iz).
    apply Ub in Iz as [Z1 Z2]. unfold display_unit. destruct (control_character z) eqn:Cz; [done|].
    destruct (reserved_character z) eqn:Rz; [done|]. by rewrite Cz, Rz, Z1, Z2. }
  destruct (_ || _) eqn:G.
  - split; [done|]. split; [done|]. split; [done|]. split; [vm_compute; done|].
    intros c Ic. assert (F : forallb display_unit (js "upload") = true) by (vm_compute; done).
    rewrite forallb_forall in F. by apply F, list_elem_of_In.
  - apply orb_false_iff in G as [G G3]. apply orb_false_iff in G as [G1 G2].
    split; [by destruct (truncateFilename _ _)|]. split; [by apply bool_decide_eq_false in G2|].
    split; [by apply bool_decide_eq_false in G3|]. split; [|intros c Ic; by apply Uc, Un].
    unfold character_count. specialize (Ln ltac:(unfold MAX_UPLOAD_DISPLAY_FILENAME_LENGTH; lia)).
    unfold MAX_UPLOAD_DISPLAY_FILENAME_LENGTH in *. lia.
Qed.
End display.

(** ** Limits that are only lowered *)

Lemma digit_cases c : is_digit c = true -> c ∈ [48; 49; 50; 51; 52; 53; 54; 55; 56; 57]%N.
Proof. unfold is_digit. intros [L U]%andb_true_iff. apply N.leb_le in L, U. rewrite !elem_of_cons. lia. Qed.

Ltac each_digit H := apply digit_cases in H; repeat (apply elem_of_cons in H as [-> |H]); [..|by apply elem_of_nil in H].

Lemma span_all_digits s : all_digits s = true -> span_digits s = (s, []).
Proof. induction s as [|c s IH]; [done|]. cbn. intros [-> D]%andb_true_iff. by rewrite (IH D). Qed.

Lemma digits_val_nonneg s : all_digits s = true -> 0 <= digits_val s.
Proof.
  unfold digits_val. assert (G : forall v, 0 <= v -> all_digits s = true -> 0 <= fold_left (fun v c => 10 * v + digit_val c)%Z s v).
  2:{ by apply G. }
  induction s as [|c s IH]; intros v V; [done|]. cbn. intros [C D]%andb_true_iff. apply IH; [|done].
  unfold digit_val. unfold is_digit in C. apply andb_true_iff in C as [L _]. apply N.leb_le in L. lia.
Qed.

Lemma parse_digits s : truthy s = true -> all_digits s = true -> parse_unsigned_decimal s = ofZ (digits_val s).
Proof.
  intros T D. unfold parse_unsigned_decimal.
  assert (E : str_eqb s (js "Infinity") = false).
  { apply str_eqb_neq. intros ->. vm_compute in D. discriminate. }
  rewrite E, (span_all_digits s D), T. cbn [orb truthy parse_exponent]. rewrite app_nil_r. unfold scaled. cbn.
  by rewrite Z.mul_1_r.
Qed.

(** [Number] of digits between spaces. *)
Lemma to_number_digits text : truthy (trim text) = true -> all_digits (trim text) = true ->
  to_number text = ofZ (digits_val (trim text)).
Proof.
  intros T D. rewrite <- parse_digits by done. unfold to_number. destruct (trim text) as [|c s]; [done|].
  cbn in D. apply andb_true_iff in D as [C D]. each_digit C; try reflexivity.
  destruct s as [|x s]; [done|]. cbn in D. apply andb_true_iff in D as [X D]. by each_digit X.
Qed.

Definition within (minimum hardDefault v : Z) : Prop := minimum <= v <= hardDefault.

Lemma lowerOnlyLimit_within raw hardDefault minimum name v : safe hardDefault -> 0 <= minimum <= hardDefault ->
  lowerOnlyLimit raw hardDefault minimum name = Ok v -> within minimum hardDefault v.
Proof.
  intros S [M D]. unfold lowerOnlyLimit, within. destruct raw as [raw|]; [|intros [= <-]; lia].
  destruct (truthy (trim raw)) eqn:T; cbn [negb]; [|intros [= <-]; lia].
  destruct (all_digits (trim raw)) eqn:A; cbn [negb]; [|discriminate].
  rewrite (to_number_digits raw T A). pose proof (digits_val_nonneg _ A) as P. set (z := digits_val (trim raw)) in *.
  destruct (isSafeInteger (ofZ z)) eqn:I; [|discriminate]. apply isSafeInteger_of_ofZ in I; [|done].
  assert (Sm : safe minimum) by (unfold safe in *; lia). rewrite !nltb_ofZ, toZ_ofZ by done. cbn [negb orb].
  destruct (z <? minimum) eqn:Zm, (hardDefault <? z) eqn:Zd; try discriminate. cbn [orb]. intros [= <-]. lia.
Qed.

(** ** The bytes that a request keeps *)

Fixpoint total (l : list Z) : Z := match l with [] => 0 | x :: r => x + total r end.

Lemma total_update {A} (g : A -> Z) (l : list A) (i : nat) (x y : A) : l !! i = Some x -> total (map g (<[i := y]> l)) = total (map g l) - g x + g y.
Proof.
  revert i. induction l as [|z l IH]; intros [|i] E; try done; simpl in *.
  - injection E as ->. lia.
  - rewrite (IH i E). lia.
Qed.

Lemma alter_update {A} (h : A -> A) (i : nat) (l : list A) : alter h i l = match l !! i with Some x => <[i := h x]> l | None => l end.
Proof. revert i. induction l as [|z l IH]; intros [|i]; try done.
  change (alter h (S i) (z :: l)) with (z :: alter h i l). rewrite IH. simpl. by destruct (l !! i).
Qed.

Lemma blen_app (a b : buffer) : blen (a ++ b) = blen a + blen b.
Proof. unfold blen. rewrite length_app. lia. Qed.

Section reception.
Context (maxTotalBytes : Z) (perFieldMaxBytes : str -> option Z).

Definition held (f : ReceivedFile) : Z := blen (concat (rf_chunks f)).

(** What the request keeps in memory. *)
Definition kept (r : Reception) : Z := total (map held (rc_files r)).

Definition field_limit (f : ReceivedFile) : Z := Z.max 0 (perFieldMaxBytes (rf_field f) ?? 0).

(** The chunks of a file among the events. *)
Definition sent (i : nat) (events : list StreamEvent) : list buffer :=
  omap (fun e => match e with OnData j chunk => if (j =? i)%nat then Some chunk else None | _ => None end) events.

Lemma sent_app i a b : sent i (a ++ b) = sent i a ++ sent i b.
Proof. apply omap_app. Qed.

Definition file_ok (i : nat) (events : list StreamEvent) (f : ReceivedFile) : Prop :=
  held f <= field_limit f
  /\ match rf_answer f with
     | None => rf_chunks f = sent i events /\ rf_fileBytes f = held f
     | Some (Ok b) => b = concat (rf_chunks f)
         /\ exists before after, events = before ++ OnEnd i :: after /\ rf_chunks f = sent i before
     | Some (Throws _) => True
     end.

Record reception_ok (events : list StreamEvent) (r : Reception) : Prop := {
  rk_kept : kept r <= rc_bytes r;
  rk_total : kept r <= Z.max 0 maxTotalBytes;
  rk_files : forall i f, rc_files r !! i = Some f -> file_ok i events f
}.

Lemma field_limit_nonneg f : 0 <= field_limit f.
Proof. unfold field_limit. lia. Qed.

Lemma held_nonneg f : 0 <= held f.
Proof. unfold held, blen. lia. Qed.

(** An event of another file, or of one that was answered. *)
Lemma file_ok_more i events e f : sent i [e] = [] \/ rf_answer f <> None -> file_ok i events f -> file_ok i (events ++ [e]) f.
Proof.
  intros S [L A]. split; [done|]. destruct (rf_answer f) as [[b|e']|] eqn:E; [| |].
  - destruct A as [-> (x & y & -> & C)]. split; [done|]. exists x, (y ++ [e]). split; [by rewrite <- app_assoc|done].
  - done.
  - destruct S as [S|S]; [|done]. rewrite sent_app, S, app_nil_r. done.
Qed.

(** Putting the new state of one file. *)
Lemma put_ok events e r i f f' bytes : reception_ok events r -> rc_files r !! i = Some f ->
  (forall j, j <> i -> sent j [e] = []) -> file_ok i (events ++ [e]) f' ->
  rc_bytes r <= bytes -> held f' <= held f + (bytes - rc_bytes r) -> (held f < held f' -> bytes <= maxTotalBytes) ->
  reception_ok (events ++ [e]) {| rc_bytes := bytes; rc_files := <[i := f']> (rc_files r) |}.
Proof.
  intros [K T F] E O Ok' B H M. assert (Ke : kept {| rc_bytes := bytes; rc_files := <[i := f']> (rc_files r) |}
    = kept r - held f + held f') by (by apply total_update).
  split; rewrite ?Ke; cbn [rc_bytes rc_files] in *.
  - lia.
  - destruct (Z_lt_le_dec (held f) (held f')) as [Lt|Le]; [specialize (M Lt)|]; lia.
  - intros j g G. destruct (decide (j = i)) as [->|Nj].
    + rewrite list_lookup_insert_eq in G by (by eapply lookup_lt_Some). by injection G as <-.
    + rewrite list_lookup_insert_ne in G by done. apply file_ok_more; [left; by apply O|by apply F].
Qed.

Lemma unchanged_ok events e r : reception_ok events r ->
  (forall i f, rc_files r !! i = Some f -> sent i [e] = [] \/ rf_answer f <> None) -> reception_ok (events ++ [e]) r.
Proof. intros [K T F] S. split; [done..|]. intros i f E. apply file_ok_more; [by eapply S|by apply F]. Qed.

Lemma fail_ok i events e err f : file_ok i events f -> sent i [e] = [] \/ rf_answer f <> None ->
  file_ok i (events ++ [e]) (fail_file err f).
Proof.
  intros Fo S. unfold fail_file. destruct (rf_answer f) eqn:E; [apply file_ok_more; [by rewrite E|exact Fo]|].
  split; [|done]. apply field_limit_nonneg.
Qed.

Lemma fail_held err f : held (fail_file err f) <= held f.
Proof. unfold fail_file. destruct (rf_answer f); [done|]. unfold held, blen. cbn. lia. Qed.

Lemma receive_ok events e r : reception_ok events r -> reception_ok (events ++ [e]) (receive maxTotalBytes perFieldMaxBytes r e).
Proof.
  intros R. destruct e as [i chunk|i err|i]; cbn [receive].
  - assert (O : forall j, j <> i -> sent j [OnData i chunk] = []).
    { intros j N. unfold sent. cbn. by rewrite (proj2 (Nat.eqb_neq i j)) by auto. }
    destruct (rc_files r !! i) as [f|] eqn:E.
    2:{ apply unchanged_ok; [done|]. intros j f Ej. left. apply O. intros ->. by rewrite Ej in E. }
    pose proof (rk_files _ _ R i f E) as Fo. unfold on_data.
    destruct (rf_answer f) eqn:A.
    { eapply put_ok; [exact R|exact E|exact O| |lia|lia|lia]. apply file_ok_more; [right; by rewrite A|done]. }
    destruct Fo as [L Fo]. rewrite A in Fo. destruct Fo as [Ch By].
    assert (Cn : 0 <= blen chunk) by (unfold blen; lia).
    set (counted := {| rf_field := _ |}).
    assert (Fail : forall err, reception_ok (events ++ [OnData i chunk])
      {| rc_bytes := rc_bytes r + blen chunk; rc_files := <[i := fail_file err counted]> (rc_files r) |}).
    { intros err. eapply put_ok; [exact R|exact E|exact O| |lia| |].
      - split; [|done]. apply field_limit_nonneg.
      - pose proof (fail_held err counted) as H. change (held counted) with (held f) in H. lia.
      - pose proof (fail_held err counted) as H. change (held counted) with (held f) in H. lia. }
    destruct (match perFieldMaxBytes (rf_field f) with Some _ => _ | None => _ end) eqn:Lf; [apply Fail|].
    destruct (maxTotalBytes <? _) eqn:Tt; [apply Fail|]. apply Z.ltb_ge in Tt.
    assert (Hd : forall g, rf_chunks g = rf_chunks f ++ [chunk] -> held g = held f + blen chunk).
    { intros g Eg. unfold held. rewrite Eg, concat_app, blen_app. cbn. by rewrite app_nil_r. }
    eapply put_ok; [exact R|exact E|exact O| |lia| |].
    + split.
      * rewrite Hd by done. unfold field_limit in *. cbn [rf_field].
        destruct (perFieldMaxBytes (rf_field f)) as [l|]; [|done]. apply orb_false_iff in Lf as [_ Lf].
        apply Z.ltb_ge in Lf. cbn. lia.
      * cbn [rf_answer rf_chunks rf_fileBytes]. split; [|rewrite Hd by done; by rewrite By].
        rewrite sent_app, Ch. f_equal. unfold sent. cbn. by rewrite Nat.eqb_refl.
    + rewrite Hd by done. lia.
    + intros _. lia.
  - rewrite alter_update. destruct (rc_files r !! i) as [f|] eqn:E.
    + eapply put_ok; [exact R|exact E|done| |lia| |].
      * apply fail_ok; [by eapply rk_files|by left].
      * pose proof (fail_held err f). lia.
      * pose proof (fail_held err f). lia.
    + destruct r. apply unchanged_ok; [done|by left].
  - rewrite alter_update. destruct (rc_files r !! i) as [f|] eqn:E.
    + pose proof (rk_files _ _ R i f E) as Fo.
      assert (Hd : held (on_end f) = held f) by (unfold on_end; by destruct (rf_answer f)).
      eapply put_ok; [exact R|exact E|done| |lia|lia|lia].
      unfold on_end. destruct (rf_answer f) eqn:A; [apply file_ok_more; [by left|done]|].
      destruct Fo as [L Fo]. rewrite A in Fo. split; [exact L|]. cbn [rf_answer rf_chunks]. split; [done|].
      exists events, []. by destruct Fo.
    + destruct r. apply unchanged_ok; [done|by left].
Qed.

Lemma received_ok fields events : reception_ok events (fold_left (receive maxTotalBytes perFieldMaxBytes) events (reception fields)).
Proof.
  induction events as [|e events IH] using rev_ind; [|rewrite fold_left_app; by apply receive_ok].
  assert (Z0 : kept (reception fields) = 0).
  { unfold kept, reception. cbn [rc_files]. rewrite map_map. induction fields as [|f l IH]; [done|]. simpl. by rewrite IH. }
  split; cbn [fold_left]; rewrite ?Z0; [done|lia|]. intros i f E. apply list_elem_of_lookup_2 in E.
  apply list_elem_of_fmap in E as (x & -> & _). split; [|done]. apply field_limit_nonneg.
Qed.

(** Bounded reception.  However the chunks, errors and ends of the files of
    a request are interleaved, the bytes kept for all of them never exceed the
    total limit nor those of a file the limit of its field; and a file that is
    delivered is the concatenation of the chunks that came before its end. *)
Theorem receive_bounded fields events i f :
  let r := fold_left (receive maxTotalBytes perFieldMaxBytes) events (reception fields) in
  rc_files r !! i = Some f ->
  kept r <= Z.max 0 maxTotalBytes
  /\ blen (concat (rf_chunks f)) <= Z.max 0 (perFieldMaxBytes (rf_field f) ?? 0)
  /\ forall b, rf_answer f = Some (Ok b) -> blen b <= Z.max 0 (perFieldMaxBytes (rf_field f) ?? 0)
       /\ exists before after, events = before ++ OnEnd i :: after /\ b = concat (sent i before).
Proof.
  intros r E. destruct (received_ok fields events) as [_ T F]. destruct (F i f E) as [L A]. split; [exact T|].
  split; [exact L|]. intros b Eb. rewrite Eb in A. destruct A as [-> (x & y & -> & C)]. split; [exact L|].
  exists x, y. by rewrite C.
Qed.
End reception.

(** ** Concrete uploads *)

Section example.
#[local] Existing Instance c_locale.

Example example_names :
  map (sanitizeUploadedFilename (fun s => s) (fun b => b)) (map js
    ["..\..\etc/passwd"; "  a  b.csv. "; "x<y>:z.xlsx"; ".."; ""]%string)
  = map js ["passwd"; "a b.csv"; "x_y__z.xlsx"; "upload"; "upload"]%string.
Proof. vm_compute. reflexivity. Qed.

Definition example_limits (field : str) : option Z := if str_eqb field (js "a") then Some 4 else Some 10.

Definition example_events : list StreamEvent :=
  [OnData 0 [1; 2]%N; OnData 1 [7; 8; 9]%N; OnData 0 [3]%N; OnEnd 0; OnData 1 [5; 6]%N; OnEnd 1].

Definition example_reception := fold_left (receive 7 example_limits) example_events (reception [js "a"; js "b"]).

Example example_answers : map rf_answer (rc_files example_reception) = [Some (Ok [1; 2; 3]%N); Some (Throws UPLOAD_TOTAL_TOO_LARGE)].
Proof. vm_compute. reflexivity. Qed.

Lemma receive_bounded_witness : kept example_reception <= 7.
Proof.
  assert (E : exists f, rc_files example_reception !! 0%nat = Some f) by (eexists; vm_compute; reflexivity).
  destruct E as [f E]. exact (proj1 (receive_bounded 7 example_limits [js "a"; js "b"] example_events 0 f E)).
Defined.
End example.
