(* ===== verification/UploadText.v ===== *)
(** * Uploaded text

    file-security/upload-preflight.ts on CSV and text files: the limits and
    how the environment lowers them, the decoding of the bytes, the splitting
    into lines and columns and the checks on them.  UTF-8 is decoded as the
    Encoding Standard says; the decoder of CP949 and the CSV parser are
    libraries, and parameters. *)

From S2P Require Import Prelude JsNumber JsString.
From S2P Require Import SafeInteger.
From S2P Require Import ZipArchive.
From S2P Require Import UploadProfiles.

Local Open Scope Z_scope.

(** ** UTF-8 *)

(** Between two bytes: how many are missing, the bits so far, and the bounds
    of the next byte. *)
Record Utf8State := { u8_needed : nat; u8_bits : N; u8_lower : N; u8_upper : N }.

Definition utf8_start : Utf8State := {| u8_needed := 0; u8_bits := 0; u8_lower := 128; u8_upper := 191 |}.

(** What a byte gives: code points, [None] for an error. *)
Definition utf8_first (b : N) : list (option N) * Utf8State :=
  let more needed bits lower upper :=
    ([], {| u8_needed := needed; u8_bits := bits; u8_lower := lower; u8_upper := upper |}) in
  (if b <? 128 then ([Some b], utf8_start)
   else if b <? 194 then ([None], utf8_start)
   else if b <? 224 then more 1%nat (b mod 32) 128 191
   else if b <? 240 then more 2%nat (b mod 16) (if b =? 224 then 160 else 128) (if b =? 237 then 159 else 191)
   else if b <? 245 then more 3%nat (b mod 8) (if b =? 240 then 144 else 128) (if b =? 244 then 143 else 191)
   else ([None], utf8_start))%N.

Definition utf8_step (s : Utf8State) (b : N) : list (option N) * Utf8State :=
  match u8_needed s with
  | O => utf8_first b
  | S needed =>
      if ((u8_lower s <=? b) && (b <=? u8_upper s))%N then
        let bits := (u8_bits s * 64 + b mod 64)%N in
        match needed with
        | O => ([Some bits], utf8_start)
        | _ => ([], {| u8_needed := needed; u8_bits := bits; u8_lower := 128; u8_upper := 191 |})
        end
      else let '(points, s') := utf8_first b in (None :: points, s')
  end.

Fixpoint utf8_points (s : Utf8State) (b : buffer) : list (option N) :=
  match b with
  | [] => match u8_needed s with O => [] | _ => [None] end
  | x :: r => let '(points, s') := utf8_step s x in points ++ utf8_points s' r
  end.

(** [buffer.toString("utf8")]. *)
Definition toString_utf8 (b : buffer) : str :=
  concat (map (fun p => match p with Some c => code_units c | None => [65533%N] end) (utf8_points utf8_start b)).

(** [text.replace(/^\uFEFF/, "")]. *)
Definition without_bom (s : str) : str := match s with c :: r => if (c =? 65279)%N then r else s | [] => [] end.

(** [new TextDecoder("utf-8", { fatal: true }).decode(buffer)], which drops a
    byte order mark; [None] when it throws. *)
Definition decode_fatal (b : buffer) : option str :=
  let points := utf8_points utf8_start b in
  if forallb is_Some_b points then Some (without_bom (concat (map (fun p => match p with Some c => code_units c | None => [] end) points)))
  else None.

(** ** Limits *)

Record UploadStructureLimits := {
  maxTextRows : Z;
  maxTextColumns : Z;
  maxTextFieldCharacters : Z;
  maxTextRecordCharacters : Z;
  maxXlsxEntries : Z;
  maxXlsxExpandedBytes : Z;
  maxXlsxEntryBytes : Z;
  maxXlsxCompressionRatio : Z;
  maxXlsxWorksheets : Z;
  maxXlsxRows : Z;
  maxXlsxColumns : Z;
  maxXlsxCellCharacters : Z
}.

Definition DEFAULT_UPLOAD_STRUCTURE_LIMITS : UploadStructureLimits := {|
  maxTextRows := 100000;
  maxTextColumns := 256;
  maxTextFieldCharacters := 32768;
  maxTextRecordCharacters := 1024 * 1024;
  maxXlsxEntries := 2048;
  maxXlsxExpandedBytes := 96 * MIB;
  maxXlsxEntryBytes := 48 * MIB;
  maxXlsxCompressionRatio := 100;
  maxXlsxWorksheets := 32;
  maxXlsxRows := 100000;
  maxXlsxColumns := 256;
  maxXlsxCellCharacters := 32768
|}.

(** The function of the same text as lowerOnlyLimit. *)
Definition lowerOnly (raw : option str) (hardDefault minimum : Z) (name : str) : result Z :=
  match raw with
  | None => Ok hardDefault
  | Some raw =>
      if negb (truthy (trim raw)) then Ok hardDefault
      else if negb (all_digits (trim raw)) then Throws (configuration_error name " must be an integer.")
      else
        let parsed := to_number raw in
        if negb (isSafeInteger parsed) || nltb parsed (ofZ minimum) || nltb (ofZ hardDefault) parsed
        then Throws (configuration_error name " must be between the minimum and the default.")
        else Ok (toZ parsed)
  end.

Definition resolveUploadStructureLimits (env : environment) : result UploadStructureLimits :=
  let D := DEFAULT_UPLOAD_STRUCTURE_LIMITS in
  let lower name default minimum := lowerOnly (env (js name)) default minimum (js name) in
  let! textRows := lower "UPLOAD_MAX_TEXT_ROWS"%string (maxTextRows D) 1 in
  let! textColumns := lower "UPLOAD_MAX_TEXT_COLUMNS"%string (maxTextColumns D) 1 in
  let! textFieldCharacters := lower "UPLOAD_MAX_TEXT_FIELD_CHARACTERS"%string (maxTextFieldCharacters D) 64 in
  let! textRecordCharacters := lower "UPLOAD_MAX_TEXT_RECORD_CHARACTERS"%string (maxTextRecordCharacters D) 1024 in
  let! xlsxEntries := lower "UPLOAD_MAX_XLSX_ENTRIES"%string (maxXlsxEntries D) 8 in
  let! xlsxExpandedBytes := lower "UPLOAD_MAX_XLSX_EXPANDED_BYTES"%string (maxXlsxExpandedBytes D) MIB in
  let! xlsxEntryBytes := lower "UPLOAD_MAX_XLSX_ENTRY_BYTES"%string (maxXlsxEntryBytes D) MIB in
  let! xlsxCompressionRatio := lower "UPLOAD_MAX_XLSX_COMPRESSION_RATIO"%string (maxXlsxCompressionRatio D) 2 in
  let! xlsxWorksheets := lower "UPLOAD_MAX_XLSX_WORKSHEETS"%string (maxXlsxWorksheets D) 1 in
  let! xlsxRows := lower "UPLOAD_MAX_XLSX_ROWS"%string (maxXlsxRows D) 1 in
  let! xlsxColumns := lower "UPLOAD_MAX_XLSX_COLUMNS"%string (maxXlsxColumns D) 1 in
  let! xlsxCellCharacters := lower "UPLOAD_MAX_XLSX_CELL_CHARACTERS"%string (maxXlsxCellCharacters D) 64 in
  Ok {| maxTextRows := textRows; maxTextColumns := textColumns; maxTextFieldCharacters := textFieldCharacters;
        maxTextRecordCharacters := textRecordCharacters; maxXlsxEntries := xlsxEntries;
        maxXlsxExpandedBytes := xlsxExpandedBytes; maxXlsxEntryBytes := xlsxEntryBytes;
        maxXlsxCompressionRatio := xlsxCompressionRatio; maxXlsxWorksheets := xlsxWorksheets;
        maxXlsxRows := xlsxRows; maxXlsxColumns := xlsxColumns; maxXlsxCellCharacters := xlsxCellCharacters |}.

(** ** Text *)

Definition isZip (b : buffer) : bool :=
  match b with
  | 80%N :: 75%N :: c :: d :: _ =>
      ((c =? 3) && (d =? 4) || (c =? 5) && (d =? 6) || (c =? 7) && (d =? 8))%N
  | _ => false
  end.

Definition OLE_SIGNATURE : buffer := [0xd0; 0xcf; 0x11; 0xe0; 0xa1; 0xb1; 0x1a; 0xe1]%N.

(** A byte that no text has. *)
Definition control_byte (byte : N) : bool :=
  ((byte <? 32) && negb (byte =? 9) && negb (byte =? 10) && negb (byte =? 13) || (byte =? 127))%N.

Definition assertTextMagic (b : buffer) : result unit :=
  let! _ := guard (isZip b || bool_decide (subarray b 0 8 = OLE_SIGNATURE)) "UPLOAD_CONTENT_MISMATCH" in
  guard (existsb control_byte b) "UPLOAD_CONTROL_CHARACTER_NOT_ALLOWED".

(** [text.split(/\r\n?|\n/)]. *)
Fixpoint split_lines_go (acc s : str) : list str :=
  match s with
  | [] => [rev acc]
  | c :: r =>
      if (c =? 13)%N then
        match r with
        | d :: r' => if (d =? 10)%N then rev acc :: split_lines_go [] r' else rev acc :: split_lines_go [] r
        | [] => rev acc :: split_lines_go [] r
        end
      else if (c =? 10)%N then rev acc :: split_lines_go [] r
      else split_lines_go (c :: acc) r
  end.

Definition split_lines (s : str) : list str := split_lines_go [] s.

Definition count_char (c : N) (s : str) : Z := Z.of_nat (List.length (List.filter (N.eqb c) s)).

Definition detectDelimiter (text extension : str) : N :=
  if str_eqb extension (js ".tsv") then 9%N
  else
    let firstLine := List.find (fun line => truthy (trim line)) (split_lines text) ?? [] in
    if count_char 44 firstLine <? count_char 9 firstLine then 9%N else 44%N.

Definition splitTextColumns (line extension : str) : list str :=
  if str_eqb extension (js ".tsv") || includes [9%N] line then split_on 9 line
  else if includes [44%N] line then split_on 44 line
  else [line].

Section inspection.
Context (decode_cp949 : buffer -> str) (csv_parse : str -> N -> Z -> option (list (list str))).

Definition decodeText (b : buffer) : result str :=
  match decode_fatal b with
  | Some text => Ok (without_bom text)
  | None =>
      let text := without_bom (decode_cp949 b) in
      if includes [65533%N] text then uploadException UNSUPPORTED_MEDIA_TYPE "UPLOAD_ENCODING_NOT_ALLOWED" else Ok text
  end.

(** The fields of a line or record. *)
Fixpoint check_fields (limits : UploadStructureLimits) (fields : list str) : result unit :=
  match fields with
  | [] => Ok tt
  | f :: r =>
      let! _ := assertAtMost (character_count f) (maxTextFieldCharacters limits) "UPLOAD_FIELD_LIMIT_EXCEEDED" in
      check_fields limits r
  end.

Fixpoint check_lines (limits : UploadStructureLimits) (extension : str) (lines : list str) (columnCount : Z) : result Z :=
  match lines with
  | [] => Ok columnCount
  | line :: r =>
      let! _ := assertAtMost (character_count line) (maxTextRecordCharacters limits) "UPLOAD_RECORD_LIMIT_EXCEEDED" in
      let columns := splitTextColumns line extension in
      let! _ := assertAtMost (Z.of_nat (List.length columns)) (maxTextColumns limits) "UPLOAD_COLUMN_LIMIT_EXCEEDED" in
      let! _ := check_fields limits columns in
      check_lines limits extension r (Z.max columnCount (Z.of_nat (List.length columns)))
  end.

Fixpoint check_records (limits : UploadStructureLimits) (records : list (list str)) (columnCount : Z) : result Z :=
  match records with
  | [] => Ok columnCount
  | record :: r =>
      let! _ := assertAtMost (Z.of_nat (List.length record)) (maxTextColumns limits) "UPLOAD_COLUMN_LIMIT_EXCEEDED" in
      let! _ := check_fields limits record in
      check_records limits r (Z.max columnCount (Z.of_nat (List.length record)))
  end.

Record TextUploadInspection := { text_kind : UploadContentKind; text_rowCount : Z; text_columnCount : Z }.

Definition text_lines (text : str) : list str := List.filter truthy (split_lines text).

(** The lines of a text, and the records of a CSV file. *)
Definition inspect_rows (kind : UploadContentKind) (extension : str) (limits : UploadStructureLimits) (text : str)
  : result TextUploadInspection :=
  match kind with
  | TEXT =>
      let lines := text_lines text in
      let! _ := assertAtMost (Z.of_nat (List.length lines)) (maxTextRows limits) "UPLOAD_ROW_LIMIT_EXCEEDED" in
      let! columnCount := check_lines limits extension lines 1 in
      Ok {| text_kind := kind; text_rowCount := Z.of_nat (List.length lines); text_columnCount := columnCount |}
  | _ =>
      match csv_parse text (detectDelimiter text extension) (maxTextRecordCharacters limits) with
      | None => uploadException UNSUPPORTED_MEDIA_TYPE "UPLOAD_TEXT_MALFORMED"
      | Some records =>
          let! _ := assertAtMost (Z.of_nat (List.length records)) (maxTextRows limits + 1) "UPLOAD_ROW_LIMIT_EXCEEDED" in
          let! columnCount := check_records limits records 0 in
          Ok {| text_kind := kind; text_rowCount := Z.max 0 (Z.of_nat (List.length records) - 1);
                text_columnCount := columnCount |}
      end
  end.

(** [kind] is [TEXT] or [CSV]. *)
Definition inspectTextBuffer (b : buffer) (kind : UploadContentKind) (extension : str) (limits : UploadStructureLimits)
  : result TextUploadInspection :=
  let! _ := assertTextMagic b in
  let! text := decodeText b in
  if negb (truthy (trim text)) then bad_request "UPLOAD_EMPTY" else inspect_rows kind extension limits text.
End inspection.

(** ** Accepted text *)

Lemma at_most_ok x m code u : assertAtMost x m code = Ok u <-> x <= m.
Proof.
  unfold assertAtMost. destruct (m <? x) eqn:E; [apply Z.ltb_lt in E|apply Z.ltb_ge in E; destruct u].
  - split; [discriminate|lia].
  - done.
Qed.

Lemma guard_ok c code u : guard c code = Ok u <-> c = false.
Proof. unfold guard. destruct c, u; done. Qed.

(** A bind that returns. *)
Lemma bind_ok {A B} (r : result A) (f : A -> result B) y : (let! x := r in f x) = Ok y <-> exists x, r = Ok x /\ f x = Ok y.
Proof.
  destruct r as [x|e]; simpl; split.
  - intros E. by exists x.
  - by intros (x' & [= <-] & E).
  - discriminate.
  - by intros (x' & E & _).
Qed.

#[export] Instance content_kind_eq_dec : EqDecision UploadContentKind.
Proof. solve_decision. Defined.

Section accepted.
Context (decode_cp949 : buffer -> str) (csv_parse : str -> N -> Z -> option (list (list str))) (limits : UploadStructureLimits).

Definition row_ok (row : list str) : Prop :=
  Z.of_nat (List.length row) <= maxTextColumns limits
  /\ Forall (fun f => character_count f <= maxTextFieldCharacters limits) row.

(** The length of the longest row, and at least [least]. *)
Definition widest (least : Z) (rows : list (list str)) : Z :=
  fold_left (fun n row => Z.max n (Z.of_nat (List.length row))) rows least.

Lemma check_fields_ok fields u :
  check_fields limits fields = Ok u <-> Forall (fun f => character_count f <= maxTextFieldCharacters limits) fields.
Proof.
  destruct u. induction fields as [|f r IH]; [split; done|]. cbn [check_fields]. rewrite bind_ok, Forall_cons, <- IH.
  split; [intros ([] & F%at_most_ok & R); done|intros [F R]; exists tt; by rewrite at_most_ok].
Qed.

Lemma check_records_ok records n m :
  check_records limits records n = Ok m <-> Forall row_ok records /\ m = widest n records.
Proof.
  revert n. induction records as [|row r IH]; intros n; cbn [check_records].
  - split; [by intros [= ->]|by intros [_ ->]].
  - rewrite bind_ok, Forall_cons. unfold row_ok at 1. split.
    + intros ([] & L%at_most_ok & ([] & F%check_fields_ok & R)%bind_ok). apply IH in R as [R ->]. done.
    + intros [[[L F] R] ->]. exists tt. rewrite at_most_ok. split; [done|]. apply bind_ok. exists tt.
      rewrite check_fields_ok. split; [done|]. by apply IH.
Qed.

Lemma check_lines_ok extension lines n m :
  check_lines limits extension lines n = Ok m <->
  Forall (fun line => character_count line <= maxTextRecordCharacters limits) lines
  /\ Forall row_ok (map (fun line => splitTextColumns line extension) lines)
  /\ m = widest n (map (fun line => splitTextColumns line extension) lines).
Proof.
  revert n. induction lines as [|line r IH]; intros n; cbn [check_lines map].
  - split; [by intros [= ->]|by intros (_ & _ & ->)].
  - rewrite bind_ok, !Forall_cons. unfold row_ok at 1. split.
    + intros ([] & C%at_most_ok & ([] & L%at_most_ok & ([] & F%check_fields_ok & R)%bind_ok)%bind_ok).
      apply IH in R as (R & S & ->). done.
    + intros ([C Cr] & [[L F] S] & ->). exists tt. rewrite at_most_ok. split; [done|]. apply bind_ok. exists tt.
      rewrite at_most_ok. split; [done|]. apply bind_ok. exists tt. rewrite check_fields_ok. split; [done|]. by apply IH.
Qed.

(** The rows that the inspection sees, and the one that is not counted. *)
Definition rows_of (kind : UploadContentKind) (extension text : str) : option (list (list str)) :=
  match kind with
  | TEXT => Some (map (fun line => splitTextColumns line extension) (text_lines text))
  | _ => csv_parse text (detectDelimiter text extension) (maxTextRecordCharacters limits)
  end.

Definition headings (kind : UploadContentKind) : Z := match kind with TEXT => 0 | _ => 1 end.

(** The rows of a text that is accepted, and what is answered. *)
Definition rows_accepted (kind : UploadContentKind) (extension text : str) (rows : list (list str)) (i : TextUploadInspection)
  : Prop :=
  rows_of kind extension text = Some rows
  /\ Z.of_nat (List.length rows) <= maxTextRows limits + headings kind /\ Forall row_ok rows
  /\ (kind = TEXT -> Forall (fun line => character_count line <= maxTextRecordCharacters limits) (text_lines text))
  /\ i = {| text_kind := kind; text_rowCount := Z.max 0 (Z.of_nat (List.length rows) - headings kind);
            text_columnCount := widest (1 - headings kind) rows |}.

Lemma inspect_lines_ok extension text i :
  inspect_rows csv_parse TEXT extension limits text = Ok i <-> exists rows, rows_accepted TEXT extension text rows i.
Proof.
  unfold inspect_rows, rows_accepted, rows_of, headings. rewrite bind_ok. split.
  - intros ([] & L%at_most_ok & (n & (C & R & ->)%check_lines_ok & [= <-])%bind_ok). eexists. split; [done|].
    rewrite length_map. split; [lia|]. do 2 (split; [done|]). f_equal. lia.
  - intros (rows & [= <-] & L & R & C & ->). rewrite length_map in *. exists tt. rewrite at_most_ok. split; [lia|].
    apply bind_ok. eexists. rewrite check_lines_ok. split; [by split_and!; [apply C|..]|]. f_equal. f_equal. lia.
Qed.

Lemma inspect_records_ok kind extension text i : kind <> TEXT ->
  inspect_rows csv_parse kind extension limits text = Ok i <-> exists rows, rows_accepted kind extension text rows i.
Proof.
  intros K. assert (E : rows_of kind extension text = csv_parse text (detectDelimiter text extension) (maxTextRecordCharacters limits)
    /\ headings kind = 1) by by destruct kind.
  destruct E as (Er & Eh). unfold rows_accepted. rewrite Er, Eh. unfold inspect_rows.
  destruct kind; [|done|]; (destruct (csv_parse _ _ _) as [records|]; [|by split; [|intros (? & ? & _)]]); rewrite bind_ok;
    (split;
    [intros ([] & L%at_most_ok & (n & (R & ->)%check_records_ok & [= <-])%bind_ok); exists records; by split_and!
    |intros (rows & [= <-] & L & R & _ & ->); exists tt; rewrite at_most_ok; split; [done|]; apply bind_ok; eexists;
       rewrite check_records_ok; done]).
Qed.

Lemma magic_ok b u : assertTextMagic b = Ok u <->
  isZip b = false /\ subarray b 0 8 <> OLE_SIGNATURE /\ existsb control_byte b = false.
Proof.
  unfold assertTextMagic. rewrite bind_ok. split.
  - intros ([] & [Z O]%guard_ok%orb_false_iff & C%guard_ok). by apply bool_decide_eq_false in O.
  - intros (Z & O & C). exists tt. rewrite !guard_ok, Z, bool_decide_eq_false_2 by done. done.
Qed.

(** Accepted text.  A text is accepted exactly when it is neither an
    archive nor an old office document, has no control byte, decodes to
    something that is not blank, and has rows and columns within the limits,
    whose fields (and lines, where there is no parser) are within theirs; and
    what is answered counts its rows and the columns of the widest. *)
Theorem inspectTextBuffer_accepts b kind extension i :
  inspectTextBuffer decode_cp949 csv_parse b kind extension limits = Ok i <->
  isZip b = false /\ subarray b 0 8 <> OLE_SIGNATURE /\ existsb control_byte b = false
  /\ exists text rows, decodeText decode_cp949 b = Ok text /\ trim text <> [] /\ rows_accepted kind extension text rows i.
Proof.
  unfold inspectTextBuffer. rewrite bind_ok. split.
  - intros ([] & (Z & O & C)%magic_ok & (text & D & R)%bind_ok). do 3 (split; [done|]). exists text.
    destruct (trim text) eqn:T; [done|]. cbn [truthy negb] in R.
    destruct (decide (kind = TEXT)) as [->|K]; [apply inspect_lines_ok in R|apply inspect_records_ok in R; [|done]];
      destruct R as [rows R]; by exists rows.
  - intros (Z & O & C & text & rows & D & T & R). exists tt. split; [by apply magic_ok|]. apply bind_ok. exists text.
    split; [done|]. destruct (trim text) eqn:Tt; [done|]. cbn [truthy negb].
    destruct (decide (kind = TEXT)) as [->|K]; [apply inspect_lines_ok|apply inspect_records_ok; [done|]]; by exists rows.
Qed.
End accepted.

(** ** Limits of the environment *)

Definition limits_within (l : UploadStructureLimits) : Prop :=
  let D := DEFAULT_UPLOAD_STRUCTURE_LIMITS in
  within 1 (maxTextRows D) (maxTextRows l) /\ within 1 (maxTextColumns D) (maxTextColumns l)
  /\ within 64 (maxTextFieldCharacters D) (maxTextFieldCharacters l)
  /\ within 1024 (maxTextRecordCharacters D) (maxTextRecordCharacters l)
  /\ within 8 (maxXlsxEntries D) (maxXlsxEntries l) /\ within MIB (maxXlsxExpandedBytes D) (maxXlsxExpandedBytes l)
  /\ within MIB (maxXlsxEntryBytes D) (maxXlsxEntryBytes l)
  /\ within 2 (maxXlsxCompressionRatio D) (maxXlsxCompressionRatio l)
  /\ within 1 (maxXlsxWorksheets D) (maxXlsxWorksheets l) /\ within 1 (maxXlsxRows D) (maxXlsxRows l)
  /\ within 1 (maxXlsxColumns D) (maxXlsxColumns l) /\ within 64 (maxXlsxCellCharacters D) (maxXlsxCellCharacters l).

Lemma lowerOnly_within raw hardDefault minimum name v : safe hardDefault -> 0 <= minimum <= hardDefault ->
  lowerOnly raw hardDefault minimum name = Ok v -> within minimum hardDefault v.
Proof. apply lowerOnlyLimit_within. Qed.

(** The environment only lowers limits.  Whatever the environment says,
    when the limits of uploads are resolved, each is between its minimum and
    its default: those of the structure of a file, the bytes of a file of any
    profile and those of a bundle. *)
Theorem limits_only_lowered env :
  (forall l, resolveUploadStructureLimits env = Ok l -> limits_within l)
  /\ (forall i v, resolveProfileMaxFileBytes (UPLOAD_PROFILES i) env = Ok v -> within 1024 (maxFileBytes (UPLOAD_PROFILES i)) v)
  /\ (forall v, resolveCoupangBundleMaxTotalBytes env = Ok v -> within 3072 DEFAULT_COUPANG_BUNDLE_MAX_TOTAL_BYTES v).
Proof.
  split; [|split].
  - intros l. unfold resolveUploadStructureLimits. cbv zeta.
    repeat (intros (? & ?%lowerOnly_within & E)%bind_ok;
      [revert E|unfold safe; vm_compute; by split|vm_compute; split; discriminate]).
    intros [= <-]. unfold limits_within. cbn [maxTextRows maxTextColumns maxTextFieldCharacters maxTextRecordCharacters
      maxXlsxEntries maxXlsxExpandedBytes maxXlsxEntryBytes maxXlsxCompressionRatio maxXlsxWorksheets maxXlsxRows
      maxXlsxColumns maxXlsxCellCharacters]. split_and!; assumption.
  - intros i v. apply lowerOnlyLimit_within; destruct i; unfold safe; vm_compute; split; discriminate || done.
  - intros v. apply lowerOnlyLimit_within; unfold safe; vm_compute; split; discriminate || done.
Qed.

(** ** Concrete texts *)

(** A parser for a text without quotes. *)
Definition plain_csv (text : str) (delimiter : N) (_ : Z) : option (list (list str)) :=
  Some (map (split_on delimiter) (text_lines text)).

Definition example_text_limits : UploadStructureLimits :=
  match resolveUploadStructureLimits (fun name =>
    if str_eqb name (js "UPLOAD_MAX_TEXT_ROWS") then Some (js " 3 ")
    else if str_eqb name (js "UPLOAD_MAX_TEXT_COLUMNS") then Some (js "2") else None) with
  | Ok limits => limits
  | Throws _ => DEFAULT_UPLOAD_STRUCTURE_LIMITS
  end.

Definition inspect_text (kind : UploadContentKind) (b : buffer) :=
  inspectTextBuffer (fun _ => [65533%N]) plain_csv b kind (js ".csv") example_text_limits.

Example example_texts :
  (inspect_text CSV (js "a,b" ++ [13; 10] ++ js "1,2" ++ [10])%N, inspect_text TEXT (js "a,b" ++ [13] ++ js "1")%N,
   inspect_text CSV (js "a,b,c"), inspect_text TEXT (js "a" ++ [10] ++ js "b" ++ [10] ++ js "c" ++ [10] ++ js "d")%N,
   inspect_text CSV [0xff]%N, inspect_text CSV [0x20; 0xe2; 0x80; 0x83]%N, inspect_text CSV [0]%N)
  = (Ok {| text_kind := CSV; text_rowCount := 1; text_columnCount := 2 |},
     Ok {| text_kind := TEXT; text_rowCount := 2; text_columnCount := 2 |},
     uploadException 413 "UPLOAD_COLUMN_LIMIT_EXCEEDED", uploadException 413 "UPLOAD_ROW_LIMIT_EXCEEDED",
     uploadException 415 "UPLOAD_ENCODING_NOT_ALLOWED", bad_request "UPLOAD_EMPTY",
     uploadException 415 "UPLOAD_CONTROL_CHARACTER_NOT_ALLOWED").
Proof. vm_compute. reflexivity. Qed.

Example example_decoding :
  (toString_utf8 [0xec; 0xbf; 0xa0; 0xf0; 0x9f; 0x98; 0x80; 0xed; 0xa0; 0x80; 0xe2; 0x82; 0x41]%N, decode_fatal [0xef; 0xbb; 0xbf; 0x41]%N,
   decode_fatal [0xc0; 0x80]%N)
  = ([0xcfe0; 0xd83d; 0xde00; 65533; 65533; 65533; 65533; 0x41]%N, Some [0x41]%N, None).
Proof. vm_compute. reflexivity. Qed.

Lemma limits_only_lowered_witness : limits_within example_text_limits.
Proof.
  set (env := fun name => if str_eqb name (js "UPLOAD_MAX_TEXT_ROWS") then Some (js " 3 ")
    else if str_eqb name (js "UPLOAD_MAX_TEXT_COLUMNS") then Some (js "2") else None).
  assert (E : resolveUploadStructureLimits env = Ok example_text_limits) by (vm_compute; reflexivity).
  exact (proj1 (limits_only_lowered env) example_text_limits E).
Defined.

Lemma inspectTextBuffer_accepts_witness : isZip (js "a,b") = false.
Proof.
  assert (E : exists i, inspect_text CSV (js "a,b") = Ok i) by (eexists; vm_compute; reflexivity).
  destruct E as [i E]. unfold inspect_text in E. exact (proj1 (proj1 (inspectTextBuffer_accepts _ _ _ _ _ _ _) E)).
Defined.

Example example_limits_refused :
  map (fun v => resolveUploadStructureLimits (fun name => if str_eqb name (js "UPLOAD_MAX_XLSX_ROWS") then Some (js v) else None))
    ["100001"; "0"; "9007199254740993"; "-1"]%string
  = map (fun t => Throws (configuration_error (js "UPLOAD_MAX_XLSX_ROWS") t))
    [" must be between the minimum and the default."; " must be between the minimum and the default.";
     " must be between the minimum and the default."; " must be an integer."]%string.
Proof. vm_compute. reflexivity. Qed.
