(* ===== verification/UploadXlsx.v ===== *)
(** * Uploaded workbooks

    file-security/upload-preflight.ts on XLSX files: the metadata of the
    entries of the archive, their bounded decompression and the checks on their
    XML.  The library that opens the archive and the one that reads the
    workbook are parameters; a stream of theirs is the chunks that it emits
    before it ends or fails. *)

From S2P Require Import Prelude JsNumber JsString.
From S2P Require Import ZipArchive.
From S2P Require Import UploadProfiles.
From S2P Require Import UploadText.

Local Open Scope Z_scope.

(** ** What the libraries give *)

(** An entry of an archive: [Number] of the sizes that it declares, the length
    of its compressed content, if it has one, and its stream. *)
Record ZipEntry := {
  ze_name : str;
  ze_unsafeOriginalName : option str;
  ze_dir : bool;
  ze_compressedSize : num;
  ze_uncompressedSize : num;
  ze_contentLength : option Z;
  ze_chunks : list buffer;
  ze_fails : bool
}.

(** The value of a cell: one without text, a text, or an object with some of
    the fields [richText], [text] and [formula]. *)
Inductive CellValue :=
  | NoText
  | TextValue (s : str)
  | ObjectValue (richText : option (list (option str))) (text formula : option str).

Record Worksheet := { ws_actualRowCount : Z; ws_actualColumnCount : Z; ws_cells : list CellValue }.

(** ** Refusals *)

(** [assertAtMost] on a number that may not be an integer. *)
Definition assertFiniteAtMost (value : num) (maximum : Z) (code : string) : result unit :=
  if negb (isFinite value) || nltb (ofZ maximum) value then uploadException PAYLOAD_TOO_LARGE code else Ok tt.

Definition assertXlsxMagic (b : buffer) : result unit :=
  guard ((blen b <? 4) || negb (bool_decide (subarray b 0 4 = [0x50; 0x4b; 0x03; 0x04]%N))) "UPLOAD_CONTENT_MISMATCH".

(** ** Entries *)

Record CompressedEntryMetadata := { declaredUncompressedSize : Z; actualCompressedSize : Z }.

Definition compressedMetadata (e : ZipEntry) : option CompressedEntryMetadata :=
  match ze_contentLength e with
  | None => None
  | Some actual =>
      if negb (isSafeInteger (ze_compressedSize e)) || nltb (ze_compressedSize e) (ofZ 0)
         || negb (isSafeInteger (ze_uncompressedSize e)) || nltb (ze_uncompressedSize e) (ofZ 0)
         || (MAX_SAFE_INTEGER <? actual) || (actual <? 0) || negb (actual =? toZ (ze_compressedSize e))
      then None
      else Some {| declaredUncompressedSize := toZ (ze_uncompressedSize e); actualCompressedSize := actual |}
  end.

(** The ratio of a number of bytes to the compressed size. *)
Definition compression_ratio (bytes compressed : Z) : num :=
  if bytes =? 0 then ofZ 0 else if compressed =? 0 then Infinity else ndiv (ofZ bytes) (ofZ compressed).

Definition entry_size : string := "UPLOAD_XLSX_ENTRY_SIZE_EXCEEDED".
Definition expanded_size : string := "UPLOAD_XLSX_EXPANDED_SIZE_EXCEEDED".
Definition ratio_exceeded : string := "UPLOAD_XLSX_COMPRESSION_RATIO_EXCEEDED".
Definition xlsx_invalid : string := "UPLOAD_XLSX_INVALID".

(** What the stream gives: the bytes of the entry, those of all entries and
    the chunks that are kept. *)
Fixpoint read_chunks (limits : UploadStructureLimits) (compressed : Z) (collect : bool) (actualEntryBytes expandedBytes : Z)
    (kept : list buffer) (chunks : list buffer) : result (Z * Z * list buffer) :=
  match chunks with
  | [] => Ok (actualEntryBytes, expandedBytes, kept)
  | chunk :: r =>
      let nextEntryBytes := actualEntryBytes + blen chunk in
      let nextExpandedBytes := expandedBytes + blen chunk in
      if maxXlsxEntryBytes limits <? nextEntryBytes then uploadException PAYLOAD_TOO_LARGE entry_size
      else if maxXlsxExpandedBytes limits <? nextExpandedBytes then uploadException PAYLOAD_TOO_LARGE expanded_size
      else if nltb (ofZ (maxXlsxCompressionRatio limits)) (compression_ratio nextEntryBytes compressed)
      then uploadException PAYLOAD_TOO_LARGE ratio_exceeded
      else read_chunks limits compressed collect nextEntryBytes nextExpandedBytes
             (if collect then kept ++ [chunk] else kept) r
  end.

(** The content of the entry, empty when it is not collected, and the bytes of
    all entries. *)
Definition readBoundedZipEntry (e : ZipEntry) (metadata : CompressedEntryMetadata) (limits : UploadStructureLimits)
    (expandedBytes : Z) (collect : bool) : result (buffer * Z) :=
  let! read := read_chunks limits (actualCompressedSize metadata) collect 0 expandedBytes [] (ze_chunks e) in
  let '(actualEntryBytes, expandedBytes, kept) := read in
  let! _ := guard (negb (actualEntryBytes =? declaredUncompressedSize metadata)) "UPLOAD_XLSX_SIZE_MISMATCH" in
  let! _ := guard (ze_fails e) xlsx_invalid in
  Ok (concat kept, expandedBytes).

Definition assertSafeZipEntryPath (e : ZipEntry) : result unit :=
  let normalized := slashes (ze_unsafeOriginalName e ?? ze_name e) in
  guard (is_absolute normalized || climbs normalized) bad_path.

(** ** Names *)

(** A text as a regular expression with the flag [i] sees it, for a pattern
    of ASCII. *)
Definition ci (s : str) : str := map ascii_lower s.

Definition contains_ci (pattern : string) (s : str) : bool := includes (ci (js pattern)) (ci s).
Definition ends_ci (pattern : string) (s : str) : bool := ends_with (ci (js pattern)) (ci s).

Definition required_entries : list str :=
  map js ["[Content_Types].xml"; "_rels/.rels"; "xl/workbook.xml"; "xl/_rels/workbook.xml.rels"]%string.

Definition assertRequiredXlsxEntries (names : list str) : result unit :=
  guard (existsb (fun name => negb (bool_decide (name ∈ names))) required_entries) "UPLOAD_XLSX_REQUIRED_ENTRY_MISSING".

Definition external_entry (name : str) : bool :=
  starts_with (js "xl/externallinks/") (ci name) || starts_with (js "xl/querytables/") (ci name)
  || str_eqb (ci name) (js "xl/connections.xml").

Definition macro_entry (name : str) : bool :=
  str_eqb (ci name) (js "xl/vbaproject.bin") || starts_with (js "macrosheets/") (ci name)
  || includes (js "/macrosheets/") (ci name).

Definition external_link : string := "UPLOAD_XLSX_EXTERNAL_LINK_NOT_ALLOWED".
Definition macro : string := "UPLOAD_XLSX_MACRO_NOT_ALLOWED".

Fixpoint assertNoMacroOrExternalEntries (names : list str) : result unit :=
  match names with
  | [] => Ok tt
  | name :: r =>
      let! _ := guard (external_entry name) external_link in
      let! _ := guard (macro_entry name) macro in
      assertNoMacroOrExternalEntries r
  end.

(** [/^xl\/worksheets\/[^/]+\.xml$/i]. *)
Definition is_worksheet (name : str) : bool :=
  let n := ci name in
  starts_with (js "xl/worksheets/") n
  && (let file := skipn 14 n in
      (4 <? List.length file)%nat && ends_with (js ".xml") file && negb (includes [47%N] file)).

(** ** Regular expressions on XML *)

(** The characters that [\w] matches, as [\b] uses them. *)
Definition is_word (c : N) : bool :=
  is_digit c || (let l := ascii_lower c in (97 <=? l)%N && (l <=? 122)%N) || (c =? 95)%N.

(** The values at the matches of an expression from left to right, none
    overlapping another.  The expression sees whether the character before is
    one of a word, and gives how many characters it takes. *)
Section match_all.
Context {A : Type} (m : bool -> str -> option (A * nat)).

Fixpoint match_all (skip : nat) (prev : bool) (s : str) : list A :=
  match s with
  | [] => []
  | c :: r =>
      match skip with
      | S k => match_all k (is_word c) r
      | O =>
          match m prev s with
          | Some (a, S k) => a :: match_all k (is_word c) r
          | _ => match_all 0 (is_word c) r
          end
      end
  end.
End match_all.

Definition matches {A} (m : bool -> str -> option (A * nat)) (s : str) : list A := match_all m 0 false s.

(** A text in lower case at the start, in either case; what follows it. *)
Fixpoint after_ci (p s : str) : option str :=
  match p, s with
  | [], _ => Some s
  | a :: p', b :: s' => if (a =? ascii_lower b)%N then after_ci p' s' else None
  | _ :: _, [] => None
  end.

Definition after_char (c : N) (s : str) : option str :=
  match s with x :: r => if (x =? c)%N then Some r else None | [] => None end.

Definition after_quote (s : str) : option str :=
  match s with x :: r => if (x =? 34)%N || (x =? 39)%N then Some r else None | [] => None end.

Definition after_optional (c : N) (s : str) : str := after_char c s ?? s.

(** An equals sign between spaces, and a quote. *)
Definition after_equals (s : str) : option str := r ← after_char 61 (drop_ws s); after_quote (drop_ws r).

Definition consumed {A} (a : A) (s rest : str) : A * nat := (a, (List.length s - List.length rest)%nat).

(** [\$?([A-Z]{1,3})\$?(\d+)]: the letters, the digits and the rest. *)
Fixpoint take_letters (n : nat) (s : str) : str * str :=
  match n, s with
  | S n', c :: r =>
      if (let l := ascii_lower c in (97 <=? l)%N && (l <=? 122)%N)
      then let '(letters, rest) := take_letters n' r in (c :: letters, rest) else ([], s)
  | _, _ => ([], s)
  end.

Definition cell_reference (s : str) : option (str * str * str) :=
  let '(letters, r) := take_letters 3 (after_optional 36 s) in
  let '(digits, rest) := span_digits (after_optional 36 r) in
  if truthy letters && truthy digits then Some (letters, digits, rest) else None.

(** The end of a range, if there is one. *)
Definition range_end (s : str) : option (str * str * str) := r ← after_char 58 (drop_ws s); cell_reference (drop_ws r).

(** The attribute [ref] or [r] of a worksheet: the letters and digits of the
    cell, and those of the end of the range. *)
Definition reference_at (prev : bool) (s : str) : option ((str * str * option (str * str)) * nat) :=
  if prev then None
  else
    name ← (match after_ci (js "ref") s with Some r => Some r | None => after_ci (js "r") s end);
    value ← after_equals name;
    '(letters, digits, r) ← cell_reference value;
    let '(last, r) := match range_end r with
                      | Some (letters, digits, r') => (Some (letters, digits), r')
                      | None => (None, r)
                      end in
    rest ← after_quote r;
    Some (consumed (letters, digits, last) s rest).

Definition row_at (_ : bool) (s : str) : option (unit * nat) :=
  rest ← after_ci (js "<row") s;
  if match rest with c :: _ => is_word c | [] => false end then None else Some (consumed tt s rest).

Definition columnNumber (letters : str) : Z :=
  fold_left (fun value letter => value * 26 + Z.of_N (ascii_upper letter) - 64) letters 0.

Definition inspectWorksheetXml (xml : str) : num * Z :=
  fold_left (fun '(rowCount, columnCount) '(letters, digits, last) =>
      let '(letters', row') := match last with Some (l, d) => (l, to_number d) | None => ([], ofZ 0) end in
      (nmax (nmax rowCount (to_number digits)) row',
       Z.max columnCount (Z.max (columnNumber letters) (columnNumber letters'))))
    (matches reference_at xml) (ofZ (Z.of_nat (List.length (matches row_at xml))), 0).

(** What stands before the first occurrence of a text, and what follows. *)
Fixpoint until_ci (p s : str) : option (str * str) :=
  match after_ci p s with
  | Some rest => Some ([], rest)
  | None =>
      match s with
      | [] => None
      | c :: r => match until_ci p r with Some (body, rest) => Some (c :: body, rest) | None => None end
      end
  end.

(** The element [t], with attributes or without: its text, up to the first
    end tag. *)
Definition text_at (_ : bool) (s : str) : option (str * nat) :=
  r ← after_ci (js "<t") s;
  '(_, r) ← (match r with
             | c :: _ => if (c =? 62)%N || is_ws c then until_ci (js ">") r else None
             | [] => None
             end);
  '(body, rest) ← until_ci (js "</t>") r;
  Some (consumed body s rest).

Definition cell_limit : string := "UPLOAD_XLSX_CELL_LIMIT_EXCEEDED".

Fixpoint check_texts (texts : list str) (maxCharacters : Z) : result unit :=
  match texts with
  | [] => Ok tt
  | t :: r => let! _ := assertAtMost (character_count t) maxCharacters cell_limit in check_texts r maxCharacters
  end.

Definition assertXmlTextLengths (xml : str) (maxCharacters : Z) : result unit :=
  check_texts (matches text_at xml) maxCharacters.

(** The attribute [TargetMode] with the value [External]. *)
Definition external_at (prev : bool) (s : str) : option (unit * nat) :=
  if prev then None
  else
    name ← after_ci (js "targetmode") s;
    value ← after_equals name;
    r ← after_ci (js "external") value;
    rest ← after_quote r;
    Some (consumed tt s rest).

Definition cellTextLength (v : CellValue) : Z :=
  match v with
  | NoText => 0
  | TextValue s => character_count s
  | ObjectValue (Some parts) _ _ => fold_left (fun total part => total + character_count (part ?? [])) parts 0
  | ObjectValue None (Some text) _ => character_count text
  | ObjectValue None None (Some formula) => character_count formula
  | ObjectValue None None None => 0
  end.

(** ** The inspection *)

Record XlsxUploadInspection := {
  xlsx_worksheetCount : Z;
  xlsx_rowCount : num;
  xlsx_columnCount : Z;
  xlsx_entryCount : Z;
  xlsx_expandedBytes : Z
}.

Section inspection.
Context (nfc : str -> str) (loadAsync : buffer -> option (list ZipEntry)) (load_workbook : buffer -> option (list Worksheet))
  `{Icu} (limits : UploadStructureLimits).

(** The first pass over the entries: their names and, of those that are not
    directories, the metadata. *)
Fixpoint declare_entries (names : list str) (declared : Z) (metadata : list (ZipEntry * CompressedEntryMetadata))
    (entries : list ZipEntry) : result (list str * list (ZipEntry * CompressedEntryMetadata)) :=
  match entries with
  | [] => Ok (names, metadata)
  | e :: r =>
      let! _ := assertSafeZipEntryPath e in
      let names := names ++ [slashes (ze_name e)] in
      if ze_dir e then declare_entries names declared metadata r
      else
        match compressedMetadata e with
        | None => uploadException UNSUPPORTED_MEDIA_TYPE xlsx_invalid
        | Some m =>
            let! _ := assertAtMost (declaredUncompressedSize m) (maxXlsxEntryBytes limits) entry_size in
            let declared := declared + declaredUncompressedSize m in
            let! _ := assertAtMost declared (maxXlsxExpandedBytes limits) expanded_size in
            let! _ := assertFiniteAtMost (compression_ratio (declaredUncompressedSize m) (actualCompressedSize m))
                        (maxXlsxCompressionRatio limits) ratio_exceeded in
            declare_entries names declared (metadata ++ [(e, m)]) r
        end
  end.

Definition is_xml (name : str) : bool := ends_ci ".xml" name || ends_ci ".rels" name.

(** What the XML of an entry may not have. *)
Definition check_xml (name xml : str) : result unit :=
  let! _ := guard (contains_ci "<!DOCTYPE" xml || contains_ci "<!ENTITY" xml) "UPLOAD_XLSX_XML_UNSAFE" in
  let! _ := guard (ends_ci ".rels" name && truthy_list (matches external_at xml)) external_link in
  let! _ := guard (str_eqb name (js "[Content_Types].xml")
                   && (contains_ci "macroEnabled" xml || contains_ci "vbaProject" xml)) macro in
  assertXmlTextLengths xml (maxXlsxCellCharacters limits).

(** The second pass: the bytes of all entries so far, and the rows and
    columns of the largest worksheet. *)
Record Extent := { ex_bytes : Z; ex_rows : num; ex_columns : Z }.

Fixpoint read_entries (x : Extent) (entries : list (ZipEntry * CompressedEntryMetadata)) : result Extent :=
  match entries with
  | [] => Ok x
  | (e, metadata) :: r =>
      let collectXml := is_xml (ze_name e) in
      let! read := readBoundedZipEntry e metadata limits (ex_bytes x) collectXml in
      let '(content, bytes) := read in
      if negb collectXml then read_entries {| ex_bytes := bytes; ex_rows := ex_rows x; ex_columns := ex_columns x |} r
      else
        let xml := toString_utf8 content in
        let! _ := check_xml (ze_name e) xml in
        if is_worksheet (ze_name e) then
          let '(rowCount, columnCount) := inspectWorksheetXml xml in
          let! _ := assertFiniteAtMost rowCount (maxXlsxRows limits) "UPLOAD_XLSX_ROW_LIMIT_EXCEEDED" in
          let! _ := assertAtMost columnCount (maxXlsxColumns limits) "UPLOAD_XLSX_COLUMN_LIMIT_EXCEEDED" in
          read_entries {| ex_bytes := bytes; ex_rows := nmax (ex_rows x) rowCount;
                          ex_columns := Z.max (ex_columns x) columnCount |} r
        else read_entries {| ex_bytes := bytes; ex_rows := ex_rows x; ex_columns := ex_columns x |} r
  end.

Fixpoint check_cells (cells : list CellValue) : result unit :=
  match cells with
  | [] => Ok tt
  | v :: r => let! _ := assertAtMost (cellTextLength v) (maxXlsxCellCharacters limits) cell_limit in check_cells r
  end.

Fixpoint check_worksheets (worksheets : list Worksheet) : result unit :=
  match worksheets with
  | [] => Ok tt
  | w :: r =>
      let! _ := assertAtMost (ws_actualRowCount w) (maxXlsxRows limits) "UPLOAD_XLSX_ROW_LIMIT_EXCEEDED" in
      let! _ := assertAtMost (ws_actualColumnCount w) (maxXlsxColumns limits) "UPLOAD_XLSX_COLUMN_LIMIT_EXCEEDED" in
      let! _ := check_cells (ws_cells w) in
      check_worksheets r
  end.

Definition worksheet_limit : string := "UPLOAD_XLSX_WORKSHEET_LIMIT_EXCEEDED".

Definition check_workbook (b : buffer) : result unit :=
  match load_workbook b with
  | None => uploadException UNSUPPORTED_MEDIA_TYPE xlsx_invalid
  | Some worksheets =>
      let! _ := assertAtMost (Z.of_nat (List.length worksheets)) (maxXlsxWorksheets limits) worksheet_limit in
      check_worksheets worksheets
  end.

(** The names of the entries, and the entries that are worksheets. *)
Definition check_names (entries : list ZipEntry) (names : list str) : result Z :=
  let! _ := assertRequiredXlsxEntries names in
  let! _ := assertNoMacroOrExternalEntries names in
  let worksheetEntries := List.filter (fun e => negb (ze_dir e) && is_worksheet (ze_name e)) entries in
  let worksheetCount := Z.of_nat (List.length worksheetEntries) in
  let! _ := assertAtMost worksheetCount (maxXlsxWorksheets limits) worksheet_limit in
  let! _ := guard (worksheetCount =? 0) "UPLOAD_XLSX_REQUIRED_ENTRY_MISSING" in
  Ok worksheetCount.

Definition inspectXlsxBuffer (b : buffer) : result XlsxUploadInspection :=
  let! _ := assertXlsxMagic b in
  let! entryCount := inspectRawCentralDirectory decode_fatal nfc b (maxXlsxEntries limits) in
  match loadAsync b with
  | None => uploadException UNSUPPORTED_MEDIA_TYPE xlsx_invalid
  | Some entries =>
      let! _ := assertAtMost (Z.of_nat (List.length entries)) (maxXlsxEntries limits) entry_limit in
      let! declared := declare_entries [] 0 [] entries in
      let '(names, metadata) := declared in
      let! worksheetCount := check_names entries names in
      let! x := read_entries {| ex_bytes := 0; ex_rows := ofZ 0; ex_columns := 0 |} metadata in
      let! _ := check_workbook b in
      Ok {| xlsx_worksheetCount := worksheetCount; xlsx_rowCount := ex_rows x; xlsx_columnCount := ex_columns x;
            xlsx_entryCount := entryCount; xlsx_expandedBytes := ex_bytes x |}
  end.
End inspection.

(** ** Bounded decompression *)

Lemma blen_concat (l : list buffer) : blen (concat l) = total (map blen l).
Proof. induction l as [|b l IH]; [done|]. simpl. by rewrite blen_app, IH. Qed.

Lemma blen_nonneg (b : buffer) : 0 <= blen b.
Proof. unfold blen. lia. Qed.

Section bounded.
Context (limits : UploadStructureLimits) (compressed : Z) (collect : bool).

(** That a chunk makes the bytes of its entry, or of all, cross a limit. *)
Definition crosses (entryBytes expandedBytes : Z) (chunk : buffer) : Prop :=
  maxXlsxEntryBytes limits < entryBytes + blen chunk \/ maxXlsxExpandedBytes limits < expandedBytes + blen chunk
  \/ nltb (ofZ (maxXlsxCompressionRatio limits)) (compression_ratio (entryBytes + blen chunk) compressed) = true.

(** What a reading has taken of the chunks. *)
Definition reading (chunks : list buffer) (actual expanded : Z) (kept : list buffer)
    (r : result (Z * Z * list buffer)) : Prop :=
  match r with
  | Ok (actual', expanded', kept') =>
      actual' = actual + blen (concat chunks) /\ expanded' = expanded + blen (concat chunks)
      /\ actual' <= maxXlsxEntryBytes limits /\ expanded' <= maxXlsxExpandedBytes limits
      /\ kept' = kept ++ (if collect then chunks else [])
  | Throws _ =>
      exists before chunk later, chunks = before ++ chunk :: later
        /\ actual + blen (concat before) <= maxXlsxEntryBytes limits
        /\ expanded + blen (concat before) <= maxXlsxExpandedBytes limits
        /\ crosses (actual + blen (concat before)) (expanded + blen (concat before)) chunk
  end.

Lemma reading_more chunk chunks actual expanded kept r :
  reading chunks (actual + blen chunk) (expanded + blen chunk) (if collect then kept ++ [chunk] else kept) r ->
  reading (chunk :: chunks) actual expanded kept r.
Proof.
  unfold reading. cbn [concat]. destruct r as [[[actual' expanded'] kept']|e].
  - rewrite blen_app. intros (-> & -> & A & X & ->). split_and!; try lia. destruct collect; [by rewrite <- app_assoc|done].
  - intros (before & c & later & -> & A & X & C). exists (chunk :: before), c, later. cbn [concat]. rewrite blen_app.
    rewrite !Z.add_assoc. done.
Qed.

Lemma read_chunks_reading chunks actual expanded kept : actual <= maxXlsxEntryBytes limits ->
  expanded <= maxXlsxExpandedBytes limits ->
  reading chunks actual expanded kept (read_chunks limits compressed collect actual expanded kept chunks).
Proof.
  assert (Stop : forall chunk chunks actual expanded kept e, actual <= maxXlsxEntryBytes limits ->
    expanded <= maxXlsxExpandedBytes limits -> crosses actual expanded chunk ->
    reading (chunk :: chunks) actual expanded kept (Throws e)).
  { intros chunk later a x k e A X C. exists [], chunk, later. cbn. rewrite !Z.add_0_r. done. }
  revert actual expanded kept. induction chunks as [|chunk chunks IH]; intros actual expanded kept A X; cbn [read_chunks].
  { unfold reading. cbn. rewrite !Z.add_0_r. split_and!; try done. destruct collect; by rewrite app_nil_r. }
  destruct (maxXlsxEntryBytes limits <? _) eqn:Ae; [apply Stop; [done..|left; by apply Z.ltb_lt]|].
  destruct (maxXlsxExpandedBytes limits <? _) eqn:Xe; [apply Stop; [done..|right; left; by apply Z.ltb_lt]|].
  destruct (nltb _ _) eqn:Re; [apply Stop; [done..|by right; right]|].
  apply Z.ltb_ge in Ae, Xe. apply reading_more, IH; done.
Qed.
End bounded.

(** Bounded decompression.  Whatever an entry's stream emits, and whatever
    sizes it declares: when its content is returned, it emitted exactly the
    declared bytes without failing, and they fit the limits of an entry and of
    the archive; and when it is refused, either everything it emitted fits the
    limits, or the reading stopped at the first chunk that crosses one, and
    what came before fits. *)
Theorem readBoundedZipEntry_bounded e metadata limits expandedBytes collect :
  0 <= maxXlsxEntryBytes limits -> expandedBytes <= maxXlsxExpandedBytes limits ->
  match readBoundedZipEntry e metadata limits expandedBytes collect with
  | Ok (content, expandedBytes') =>
      blen (concat (ze_chunks e)) = declaredUncompressedSize metadata
      /\ declaredUncompressedSize metadata <= maxXlsxEntryBytes limits
      /\ expandedBytes' = expandedBytes + declaredUncompressedSize metadata
      /\ expandedBytes' <= maxXlsxExpandedBytes limits
      /\ ze_fails e = false /\ content = (if collect then concat (ze_chunks e) else [])
  | Throws _ =>
      exists before later, ze_chunks e = before ++ later
        /\ blen (concat before) <= maxXlsxEntryBytes limits
        /\ expandedBytes + blen (concat before) <= maxXlsxExpandedBytes limits
        /\ match later with
           | [] => True
           | chunk :: _ => crosses limits (actualCompressedSize metadata) (blen (concat before))
                             (expandedBytes + blen (concat before)) chunk
           end
  end.
Proof.
  intros A X. unfold readBoundedZipEntry.
  pose proof (read_chunks_reading limits (actualCompressedSize metadata) collect (ze_chunks e) 0 expandedBytes [] A X) as R.
  destruct (read_chunks _ _ _ _ _ _ _) as [[[actual expanded] kept]|err]; cbn [result_bind] in *.
  - destruct R as (-> & -> & Ra & Rx & ->). rewrite Z.add_0_l in *.
    assert (End : exists before later, ze_chunks e = before ++ later
      /\ blen (concat before) <= maxXlsxEntryBytes limits /\ expandedBytes + blen (concat before) <= maxXlsxExpandedBytes limits
      /\ match later with [] => True | chunk :: _ => crosses limits (actualCompressedSize metadata) (blen (concat before))
                             (expandedBytes + blen (concat before)) chunk end).
    { exists (ze_chunks e), []. by rewrite app_nil_r. }
    unfold guard, uploadException. destruct (negb (_ =? _)) eqn:D; [exact End|]. apply negb_false_iff, Z.eqb_eq in D.
    destruct (ze_fails e); [exact End|]. cbn [result_bind]. rewrite <- D. split_and!; try done. by destruct collect.
  - destruct R as (before & chunk & later & -> & Ra & Rx & C). exists before, (chunk :: later).
    rewrite Z.add_0_l in *. done.
Qed.

(** ** Accepted workbooks *)

Lemma finite_at_most_ok x m code u : assertFiniteAtMost x m code = Ok u -> isFinite x = true /\ nltb (ofZ m) x = false.
Proof. unfold assertFiniteAtMost. destruct (isFinite x), (nltb (ofZ m) x); done. Qed.

Section accepted.
Context (limits : UploadStructureLimits).

Definition safe_path (e : ZipEntry) : Prop :=
  let path := slashes (ze_unsafeOriginalName e ?? ze_name e) in is_absolute path = false /\ climbs path = false.

(** The metadata of an entry, as it is accepted. *)
Definition declared_ok (em : ZipEntry * CompressedEntryMetadata) : Prop :=
  compressedMetadata em.1 = Some em.2
  /\ declaredUncompressedSize em.2 <= maxXlsxEntryBytes limits
  /\ nltb (ofZ (maxXlsxCompressionRatio limits))
       (compression_ratio (declaredUncompressedSize em.2) (actualCompressedSize em.2)) = false.

Definition files (entries : list ZipEntry) : list ZipEntry := List.filter (fun e => negb (ze_dir e)) entries.

Lemma declare_entries_ok entries names declared metadata names' metadata' :
  declare_entries limits names declared metadata entries = Ok (names', metadata') ->
  Forall safe_path entries /\ names' = names ++ map (fun e => slashes (ze_name e)) entries
  /\ exists new, metadata' = metadata ++ new /\ map fst new = files entries /\ Forall declared_ok new
       /\ (declared <= maxXlsxExpandedBytes limits ->
           declared + total (map (fun em => declaredUncompressedSize em.2) new) <= maxXlsxExpandedBytes limits).
Proof.
  revert names declared metadata. induction entries as [|e entries IH]; intros names declared metadata; cbn [declare_entries].
  { intros [= <- <-]. rewrite app_nil_r. split_and!; [done..|]. exists []. rewrite app_nil_r. split_and!; try done. simpl. lia. }
  intros ([] & S & E)%bind_ok. assert (Sp : safe_path e).
  { unfold assertSafeZipEntryPath in S. by apply guard_ok, orb_false_iff in S. }
  unfold files. cbn [List.filter map]. destruct (ze_dir e) eqn:Dir; cbn [negb].
  - apply IH in E as (F & -> & new & -> & M & D & T). split_and!; [by constructor|by rewrite <- app_assoc|by exists new].
  - destruct (compressedMetadata e) as [m|] eqn:Em; [|done].
    apply bind_ok in E as ([] & L%at_most_ok & ([] & X%at_most_ok & ([] & [_ R]%finite_at_most_ok & E)%bind_ok)%bind_ok).
    apply IH in E as (F & -> & new & -> & M & D & T). split_and!; [by constructor|by rewrite <- app_assoc|].
    exists ((e, m) :: new). rewrite <- app_assoc. cbn [map fst total]. split_and!; [done|by rewrite M| |].
    + constructor; done.
    + intros _. specialize (T X). cbn [snd]. lia.
Qed.

(** The content of an entry, and what is checked of it. *)
Definition content_ok (e : ZipEntry) : Prop :=
  is_xml (ze_name e) = true ->
  let xml := toString_utf8 (concat (ze_chunks e)) in
  check_xml limits (ze_name e) xml = Ok tt
  /\ (is_worksheet (ze_name e) = true ->
      nltb (ofZ (maxXlsxRows limits)) (inspectWorksheetXml xml).1 = false
      /\ (inspectWorksheetXml xml).2 <= maxXlsxColumns limits).

Definition read_ok (em : ZipEntry * CompressedEntryMetadata) : Prop :=
  ze_fails em.1 = false /\ blen (concat (ze_chunks em.1)) = declaredUncompressedSize em.2 /\ content_ok em.1.

Definition extent_ok (x : Extent) : Prop :=
  ex_bytes x <= maxXlsxExpandedBytes limits /\ nltb (ofZ (maxXlsxRows limits)) (ex_rows x) = false
  /\ ex_columns x <= maxXlsxColumns limits.

Lemma nmax_bounded m x y : nltb m x = false -> nltb m y = false -> nltb m (nmax x y) = false.
Proof.
  intros X Y. unfold nmax. destruct (isNaN x || isNaN y); [by destruct m|].
  destruct (nltb y x); [done|]. destruct (nltb x y); [done|]. by destruct x as [[]| | |].
Qed.

Lemma reads_ok e m bytes collect content bytes' : 0 <= maxXlsxEntryBytes limits -> bytes <= maxXlsxExpandedBytes limits ->
  readBoundedZipEntry e m limits bytes collect = Ok (content, bytes') ->
  blen (concat (ze_chunks e)) = declaredUncompressedSize m /\ bytes' = bytes + declaredUncompressedSize m
  /\ bytes' <= maxXlsxExpandedBytes limits /\ ze_fails e = false
  /\ content = (if collect then concat (ze_chunks e) else []).
Proof.
  intros A X E. unfold readBoundedZipEntry in E.
  pose proof (read_chunks_reading limits (actualCompressedSize m) collect (ze_chunks e) 0 bytes [] A X) as R.
  apply bind_ok in E as ([[actual expanded] kept] & Ch & ([] & D%guard_ok & ([] & F%guard_ok & [= <- <-])%bind_ok)%bind_ok).
  rewrite Ch in R. destruct R as (-> & -> & _ & Rx & ->). apply negb_false_iff, Z.eqb_eq in D. rewrite Z.add_0_l in D.
  rewrite <- D. split_and!; try done. by destruct collect.
Qed.

Lemma read_entries_ok entries x x' : 0 <= maxXlsxEntryBytes limits -> extent_ok x -> read_entries limits x entries = Ok x' ->
  Forall read_ok entries /\ extent_ok x'
  /\ ex_bytes x' = ex_bytes x + total (map (fun em => declaredUncompressedSize em.2) entries).
Proof.
  intros A. revert x. induction entries as [|[e m] entries IH]; intros x X; cbn [read_entries].
  { intros [= <-]. split_and!; [done..|]. simpl. lia. }
  intros ([content bytes] & R & E)%bind_ok. destruct X as (X & Xr & Xc).
  apply reads_ok in R as (Rc & -> & Rx & Rf & ->); [|done..].
  assert (Next : forall rows columns, content_ok e -> nltb (ofZ (maxXlsxRows limits)) rows = false ->
    columns <= maxXlsxColumns limits ->
    read_entries limits {| ex_bytes := ex_bytes x + declaredUncompressedSize m; ex_rows := rows; ex_columns := columns |} entries
      = Ok x' ->
    Forall read_ok ((e, m) :: entries) /\ extent_ok x'
    /\ ex_bytes x' = ex_bytes x + total (map (fun em => declaredUncompressedSize em.2) ((e, m) :: entries))).
  { intros rows columns Ce Rr Cc (F & Ok' & B)%IH; [|done]. cbn [map total snd ex_bytes] in *.
    split_and!; [by constructor|done|lia]. }
  destruct (is_xml (ze_name e)) eqn:Xm; cbn [negb] in E.
  2:{ apply (Next _ _) in E; try done. intros Xm'. by rewrite Xm in Xm'. }
  apply bind_ok in E as ([] & Cx & E). destruct (is_worksheet (ze_name e)) eqn:W.
  - destruct (inspectWorksheetXml _) as [rows columns] eqn:I.
    apply bind_ok in E as ([] & [_ Rr]%finite_at_most_ok & ([] & Cc%at_most_ok & E)%bind_ok).
    apply (Next _ _) in E; try done; [|by apply nmax_bounded|lia]. intros _. cbv zeta. by rewrite I.
  - apply (Next _ _) in E; try done. intros _. by rewrite W.
Qed.

Definition cell_ok (v : CellValue) : Prop := cellTextLength v <= maxXlsxCellCharacters limits.

Definition worksheet_ok (w : Worksheet) : Prop :=
  ws_actualRowCount w <= maxXlsxRows limits /\ ws_actualColumnCount w <= maxXlsxColumns limits /\ Forall cell_ok (ws_cells w).

Lemma check_cells_ok cells u : check_cells limits cells = Ok u -> Forall cell_ok cells.
Proof.
  induction cells as [|v r IH]; [done|]. cbn [check_cells]. intros ([] & L%at_most_ok & E)%bind_ok. constructor; [done|by apply IH].
Qed.

Lemma check_worksheets_ok worksheets u : check_worksheets limits worksheets = Ok u -> Forall worksheet_ok worksheets.
Proof.
  induction worksheets as [|w r IH]; [done|]. cbn [check_worksheets].
  intros ([] & R%at_most_ok & ([] & C%at_most_ok & ([] & Ce%check_cells_ok & E)%bind_ok)%bind_ok)%bind_ok.
  constructor; [done|by apply IH].
Qed.

Lemma no_macro_ok names u : assertNoMacroOrExternalEntries names = Ok u ->
  Forall (fun name => external_entry name = false /\ macro_entry name = false) names.
Proof.
  induction names as [|n r IH]; [done|]. cbn [assertNoMacroOrExternalEntries].
  intros ([] & X%guard_ok & ([] & M%guard_ok & E)%bind_ok)%bind_ok. constructor; [done|by apply IH].
Qed.

Lemma required_ok names u : assertRequiredXlsxEntries names = Ok u -> Forall (fun name => name ∈ names) required_entries.
Proof.
  intros E%guard_ok. apply List.Forall_forall. intros n I. destruct (decide (n ∈ names)) as [|N]; [done|]. exfalso.
  enough (T : existsb (fun name => negb (bool_decide (name ∈ names))) required_entries = true) by by rewrite E in T.
  apply existsb_exists. exists n. split; [done|]. by rewrite bool_decide_eq_false_2.
Qed.

(** What an accepted upload is. *)
Record workbook_ok (b : buffer) (entries : list ZipEntry) (worksheets : list Worksheet) (i : XlsxUploadInspection) : Prop := {
  wo_entries : Z.of_nat (List.length entries) <= maxXlsxEntries limits;
  wo_paths : Forall safe_path entries;
  wo_required : Forall (fun name => name ∈ map (fun e => slashes (ze_name e)) entries) required_entries;
  wo_names : Forall (fun e => external_entry (slashes (ze_name e)) = false /\ macro_entry (slashes (ze_name e)) = false) entries;
  wo_contents : exists metadata, map fst metadata = files entries /\ Forall declared_ok metadata /\ Forall read_ok metadata;
  wo_bytes : xlsx_expandedBytes i = total (map (fun e => blen (concat (ze_chunks e))) (files entries));
  wo_expanded : xlsx_expandedBytes i <= maxXlsxExpandedBytes limits;
  wo_count : xlsx_worksheetCount i
    = Z.of_nat (List.length (List.filter (fun e => negb (ze_dir e) && is_worksheet (ze_name e)) entries));
  wo_some : 0 < xlsx_worksheetCount i <= maxXlsxWorksheets limits;
  wo_rows : nltb (ofZ (maxXlsxRows limits)) (xlsx_rowCount i) = false;
  wo_columns : xlsx_columnCount i <= maxXlsxColumns limits;
  wo_worksheets : Z.of_nat (List.length worksheets) <= maxXlsxWorksheets limits /\ Forall worksheet_ok worksheets
}.

Lemma read_bytes metadata : Forall read_ok metadata ->
  total (map (fun em => declaredUncompressedSize em.2) metadata) = total (map (fun e => blen (concat (ze_chunks e))) (map fst metadata)).
Proof. induction 1 as [|[e m] r (_ & L & _) _ IH]; [done|]. simpl in *. by rewrite IH, L. Qed.

Section upload.
Context (nfc : str -> str) (loadAsync : buffer -> option (list ZipEntry)) (load_workbook : buffer -> option (list Worksheet))
  `{Icu}.

(** C32: Accepted workbooks.  When a workbook is accepted, its entries have
    safe paths, the required names and none of macros or external links; each
    emitted exactly the bytes that it declares, within the limits of an entry,
    of compression and, together, of the archive; the XML of the entries was
    checked; and the worksheets that the libraries see are within the limits
    that the answer reports. *)
Theorem inspectXlsxBuffer_accepts b i :
  0 <= maxXlsxEntryBytes limits -> 0 <= maxXlsxExpandedBytes limits -> 0 <= maxXlsxColumns limits ->
  nltb (ofZ (maxXlsxRows limits)) (ofZ 0) = false ->
  inspectXlsxBuffer nfc loadAsync load_workbook limits b = Ok i ->
  exists entries worksheets, loadAsync b = Some entries /\ load_workbook b = Some worksheets
    /\ inspectRawCentralDirectory decode_fatal nfc b (maxXlsxEntries limits) = Ok (xlsx_entryCount i)
    /\ workbook_ok b entries worksheets i.
Proof.
  intros A X Cs Rs. unfold inspectXlsxBuffer. intros ([] & _ & (n & D & E)%bind_ok)%bind_ok.
  destruct (loadAsync b) as [entries|]; [|done].
  apply bind_ok in E as ([] & L%at_most_ok & ([names metadata] & De & (count & Na & (x & Re & ([] & Wo & [= <-])%bind_ok)%bind_ok)%bind_ok)%bind_ok).
  apply declare_entries_ok in De as (Sp & -> & new & -> & M & Dn & Tn). cbn [app] in *.
  apply read_entries_ok in Re as (Rd & (Xb & Xr & Xc) & By); [|done|by split_and!]. cbn [ex_bytes] in By.
  unfold check_names in Na.
  apply bind_ok in Na as ([] & Rq%required_ok & ([] & Nm%no_macro_ok & ([] & Wl%at_most_ok & ([] & W0%guard_ok & [= <-])%bind_ok)%bind_ok)%bind_ok).
  unfold check_workbook in Wo. destruct (load_workbook b) as [worksheets|]; [|done].
  apply bind_ok in Wo as ([] & Wn%at_most_ok & Ws%check_worksheets_ok).
  exists entries, worksheets. do 3 (split; [done|]). apply Z.eqb_neq in W0. apply Forall_map in Nm. cbn [xlsx_entryCount].
  split; cbn; try done.
  - by exists new.
  - rewrite By, (read_bytes new Rd), M. lia.
  - lia.
Qed.
End upload.
End accepted.

(** ** Concrete workbooks *)

Section example.
#[local] Existing Instance c_locale.

(** The local files and the central directory of stored files, from an offset. *)
Fixpoint stored (offset : Z) (l : list (string * buffer)) : buffer * buffer :=
  match l with
  | [] => ([], [])
  | (name, data) :: r =>
      let file := local_file name data in
      let '(locals, central) := stored (offset + blen file) r in
      (file ++ locals, central_file name data offset ++ central)
  end.

Definition archive (l : list (string * buffer)) : buffer :=
  let '(locals, central) := stored 0 l in
  let n := Z.of_nat (List.length l) in
  locals ++ central ++ u32 ZIP_EOCD_SIGNATURE ++ u16 0 ++ u16 0 ++ u16 n ++ u16 n ++ u32 (blen central) ++ u32 (blen locals)
  ++ u16 0.

(** The entries of such an archive, their content in chunks of four bytes. *)
Fixpoint in_chunks (fuel : nat) (b : buffer) : list buffer :=
  match fuel, b with
  | S fuel, _ :: _ => firstn 4 b :: in_chunks fuel (skipn 4 b)
  | _, _ => []
  end.

Definition stored_entry (file : string * buffer) : ZipEntry :=
  {| ze_name := js file.1; ze_unsafeOriginalName := None; ze_dir := false; ze_compressedSize := ofZ (blen file.2);
     ze_uncompressedSize := ofZ (blen file.2); ze_contentLength := Some (blen file.2);
     ze_chunks := in_chunks (List.length file.2) file.2; ze_fails := false |}.

(** A quoted attribute. *)
Definition attribute (name value : string) : buffer := js name ++ js "=" ++ [34%N] ++ js value ++ [34%N].

Definition example_sheet : buffer :=
  js "<sheetData><row " ++ attribute "r" "1" ++ js "><c " ++ attribute "r" "B1" ++ js "><is><t>x</t></is></c></row><mergeCell "
  ++ attribute "ref" "$A$1 : c12" ++ js "/></sheetData>".

Definition example_files (rels sheet : buffer) : list (string * buffer) :=
  [("[Content_Types].xml", js "<Types/>"); ("_rels/.rels", rels); ("xl/workbook.xml", js "<workbook/>");
   ("xl/_rels/workbook.xml.rels", js "<R/>"); ("xl/worksheets/sheet1.xml", sheet)]%string.

Definition inspect_files (l : list (string * buffer)) (entries : list ZipEntry) (worksheets : list Worksheet) :=
  inspectXlsxBuffer (fun s => s) (fun _ => Some entries) (fun _ => Some worksheets) DEFAULT_UPLOAD_STRUCTURE_LIMITS (archive l).

Definition inspect_stored (l : list (string * buffer)) := inspect_files l (map stored_entry l).

Definition one_sheet : list Worksheet :=
  [{| ws_actualRowCount := 1; ws_actualColumnCount := 2;
      ws_cells := [NoText; TextValue (js "x"); ObjectValue (Some [Some (js "ab"); None]) None None] |}].

Example example_extent : inspectWorksheetXml example_sheet = (ofZ 12, 3).
Proof. vm_compute. reflexivity. Qed.

Definition inspection_of (r : result XlsxUploadInspection) : result (Z * num * Z * Z * Z) :=
  let! i := r in
  Ok (xlsx_worksheetCount i, xlsx_rowCount i, xlsx_columnCount i, xlsx_entryCount i, xlsx_expandedBytes i).

Definition external_rels : buffer := js "<Relationship " ++ attribute "targetmode " " External" ++ attribute " TargetMode" "external" ++ js "/>".

(** A stream that emits more than its entry declares, and one that is much
    larger than the compressed content. *)
Definition with_chunks (chunks : list buffer) (declared : Z) (e : ZipEntry) : ZipEntry :=
  {| ze_name := ze_name e; ze_unsafeOriginalName := None; ze_dir := false; ze_compressedSize := ofZ 1;
     ze_uncompressedSize := ofZ declared; ze_contentLength := Some 1; ze_chunks := chunks; ze_fails := false |}.

Definition bomb (declared : Z) (l : list (string * buffer)) : list ZipEntry :=
  match map stored_entry l with
  | e :: r => with_chunks (repeat (repeat 0%N 30) 4) declared e :: r
  | [] => []
  end.

Example example_workbooks :
  let l := example_files (js "<R/>") example_sheet in
  (inspection_of (inspect_stored l one_sheet), inspection_of (inspect_stored (example_files external_rels example_sheet) one_sheet),
   inspection_of (inspect_stored (firstn 4 l) one_sheet),
   inspection_of (inspect_stored (l ++ [("xl/vbaProject.BIN", [1%N])]%string) one_sheet),
   inspection_of (inspect_stored (example_files (js "<!doctype x>") example_sheet) one_sheet),
   inspection_of (inspect_stored (example_files (js "<R/>") (attribute "r" "IW1")) one_sheet),
   inspection_of (inspect_files l (bomb 100 l) one_sheet), inspection_of (inspect_files l (bomb 90 (rev l)) one_sheet))
  = (Ok (1, ofZ 12, 3, 5, 8 + 4 + 11 + 4 + blen example_sheet), uploadException 415 external_link,
     uploadException 415 "UPLOAD_XLSX_REQUIRED_ENTRY_MISSING", uploadException 415 macro,
     uploadException 415 "UPLOAD_XLSX_XML_UNSAFE", uploadException 413 "UPLOAD_XLSX_COLUMN_LIMIT_EXCEEDED",
     uploadException 413 ratio_exceeded, uploadException 413 ratio_exceeded).
Proof. vm_compute. reflexivity. Qed.

Definition example_entry : ZipEntry := stored_entry ("a.xml"%string, js "<a></a>").
Definition example_metadata : CompressedEntryMetadata := {| declaredUncompressedSize := 7; actualCompressedSize := 7 |}.

Lemma readBoundedZipEntry_bounded_witness : exists content bytes,
  readBoundedZipEntry example_entry example_metadata DEFAULT_UPLOAD_STRUCTURE_LIMITS 10 true = Ok (content, bytes) /\ bytes = 17.
Proof.
  pose proof (readBoundedZipEntry_bounded example_entry example_metadata DEFAULT_UPLOAD_STRUCTURE_LIMITS 10 true
    ltac:(vm_compute; discriminate) ltac:(vm_compute; discriminate)) as R.
  destruct (readBoundedZipEntry _ _ _ _ _) as [[content bytes]|e] eqn:E; [|vm_compute in E; discriminate].
  exists content, bytes. split; [done|]. exact (proj1 (proj2 (proj2 R))).
Defined.

Definition example_upload : list (string * buffer) := example_files (js "<R/>") example_sheet.

Lemma inspectXlsxBuffer_accepts_witness : exists i,
  workbook_ok DEFAULT_UPLOAD_STRUCTURE_LIMITS (archive example_upload) (map stored_entry example_upload) one_sheet i.
Proof.
  assert (E : exists i, inspect_stored example_upload one_sheet = Ok i) by (eexists; vm_compute; reflexivity).
  destruct E as [i E]. exists i. unfold inspect_stored, inspect_files in E.
  apply inspectXlsxBuffer_accepts in E; [|vm_compute; congruence..|vm_compute; reflexivity].
  destruct E as (entries & worksheets & [= <-] & [= <-] & _ & W). exact W.
Defined.
End example.
