(* ===== verification/UploadPreflight.v ===== *)
(** * The preflight of uploads

    file-security/upload-preflight.ts, from a received file to what is known of
    its content, and the pipes of secure-upload.pipe.ts that run it before a
    service sees the file.  The preflight renames the file that it is given and
    sets its size: a file is a state here, and an upload that is refused may
    have been renamed. *)

From S2P Require Import Prelude JsNumber JsString.
From S2P Require Import SafeInteger.
From S2P Require Import ZipArchive.
From S2P Require Import UploadProfiles.
From S2P Require Import UploadText.
From S2P Require Import UploadXlsx.

Local Open Scope Z_scope.

Record UploadedFile := {
  uf_originalname : str;
  uf_mimetype : option str;
  uf_buffer : option buffer;
  uf_size : Z
}.

Definition set_originalname (name : str) (f : UploadedFile) : UploadedFile :=
  {| uf_originalname := name; uf_mimetype := uf_mimetype f; uf_buffer := uf_buffer f; uf_size := uf_size f |}.

Definition set_size (size : Z) (f : UploadedFile) : UploadedFile :=
  {| uf_originalname := uf_originalname f; uf_mimetype := uf_mimetype f; uf_buffer := uf_buffer f; uf_size := size |}.

Inductive UploadInspection :=
  | TextInspection (i : TextUploadInspection)
  | XlsxInspection (i : XlsxUploadInspection).

Definition UPLOAD_EMPTY : string := "UPLOAD_EMPTY".

Definition in_bundle (field : str) : bool :=
  existsb (str_eqb field) (map fst COUPANG_BUNDLE_FIELDS) || existsb (str_eqb field) object_prototype.

(** [options]: whether a type is required, and limits other than those of the
    environment. *)
Record Options := { requireMime : option bool; option_limits : option UploadStructureLimits }.

Definition no_options : Options := {| requireMime := None; option_limits := None |}.

Abbreviation bundle_files := (list (str * list UploadedFile)).

Abbreviation pending_files := (list (str * UploadedFile * UploadProfile)).

Section preflight.
Context `{Icu} (nfc : str -> str) (decode_cp949 : buffer -> str)
  (csv_parse : str -> N -> Z -> option (list (list str)))
  (loadAsync : buffer -> option (list ZipEntry)) (load_workbook : buffer -> option (list Worksheet))
  (env : environment) (options : Options).

Definition assertUploadEnvelope (f : UploadedFile) (p : UploadProfile) (requireMime : bool) : result unit :=
  let! _ := guard (negb (existsb (str_eqb (extensionOf (uf_originalname f))) (extensions p))) "UPLOAD_EXTENSION_NOT_ALLOWED" in
  if requireMime
  then guard (negb (existsb (str_eqb (mime_type (uf_mimetype f))) (mimeTypes p))) "UPLOAD_MIME_NOT_ALLOWED"
  else Ok tt.

(** The buffer of a file, when it has one that is not empty. *)
Definition content_of (f : UploadedFile) : result buffer :=
  match uf_buffer f with
  | Some (c :: r) => Ok (c :: r)
  | _ => bad_request UPLOAD_EMPTY
  end.

Definition inspect_content (f : UploadedFile) (b : buffer) (p : UploadProfile) : result UploadInspection :=
  let! limits := (match option_limits options with Some l => Ok l | None => resolveUploadStructureLimits env end) in
  match contentKind p with
  | XLSX =>
      let! _ := assertXlsxMagic b in
      let! i := inspectXlsxBuffer nfc loadAsync load_workbook limits b in
      Ok (XlsxInspection i)
  | kind =>
      let! _ := assertTextMagic b in
      let! i := inspectTextBuffer decode_cp949 csv_parse b kind (extensionOf (uf_originalname f)) limits in
      Ok (TextInspection i)
  end.

Definition preflightUploadFile (f : UploadedFile) (p : UploadProfile) : UploadedFile * result UploadInspection :=
  let f := set_originalname (sanitizeUploadedFilename nfc toString_utf8 (uf_originalname f)) f in
  let checked :=
    let! _ := assertUploadEnvelope f p (requireMime options ?? true) in
    let! b := content_of f in
    let! maxFileBytes := resolveProfileMaxFileBytes p env in
    let! _ := assertAtMost (blen b) maxFileBytes "UPLOAD_TOO_LARGE" in
    Ok b in
  match checked with
  | Throws e => (f, Throws e)
  | Ok b => let f := set_size (blen b) f in (f, inspect_content f b p)
  end.

(** ** Bundles *)

(** The file of each field of a bundle, in the order of the fields. *)
Fixpoint pending_of (source : bundle_files) (fields : list (str * UploadProfile)) : result pending_files :=
  match fields with
  | [] => Ok []
  | (field, p) :: r =>
      match map_get source field ?? [] with
      | [] => pending_of source r
      | [f] => let! rest := pending_of source r in Ok ((field, f, p) :: rest)
      | _ => bad_request "UPLOAD_FILE_COUNT_INVALID"
      end
  end.

Definition pending_bytes (pending : pending_files) : Z :=
  total (map (fun '(_, f, _) => match uf_buffer f with Some b => blen b | None => 0 end) pending).

(** The files one after another: what they are after it, and what is known of
    them. *)
Fixpoint preflight_all (pending : pending_files) : list (str * UploadedFile) * result (list (str * UploadInspection)) :=
  match pending with
  | [] => ([], Ok [])
  | (field, f, p) :: r =>
      let '(f', inspected) := preflightUploadFile f p in
      match inspected with
      | Throws e => ((field, f') :: map (fun '(field, f, _) => (field, f)) r, Throws e)
      | Ok i =>
          let '(files, rest) := preflight_all r in
          ((field, f') :: files, let! l := rest in Ok ((field, i) :: l))
      end
  end.

(** The files that are to be inspected, and their bytes. *)
Definition bundle_pending (files : option bundle_files) : result (pending_files * Z) :=
  let source := files ?? [] in
  let! _ := (if existsb (fun field => negb (in_bundle field)) (map fst source)
             then bad_request "UPLOAD_FIELD_INVALID" else Ok tt) in
  let! pending := pending_of source COUPANG_BUNDLE_FIELDS in
  match pending with
  | [] => bad_request "UPLOAD_BUNDLE_EMPTY"
  | _ =>
      let totalBytes := pending_bytes pending in
      let! maximum := resolveCoupangBundleMaxTotalBytes env in
      let! _ := assertAtMost totalBytes maximum "UPLOAD_TOTAL_TOO_LARGE" in
      Ok (pending, totalBytes)
  end.

Definition preflightCoupangBundle (files : option bundle_files)
  : list (str * UploadedFile) * result (Z * list (str * UploadInspection)) :=
  match bundle_pending files with
  | Throws e => ([], Throws e)
  | Ok (pending, totalBytes) =>
      let '(files, inspected) := preflight_all pending in
      (files, let! inspections := inspected in Ok (totalBytes, inspections))
  end.

(** ** The pipes *)

Definition SecureUploadPipe_transform (p : UploadProfile) (f : option UploadedFile) : option UploadedFile * result unit :=
  match f with
  | None => (None, Ok tt)
  | Some f => let '(f', inspected) := preflightUploadFile f p in (Some f', let! _ := inspected in Ok tt)
  end.

Definition SecureCoupangBundlePipe_transform (files : option bundle_files) : list (str * UploadedFile) * result unit :=
  match files with
  | None => ([], Ok tt)
  | Some _ => let '(fs, inspected) := preflightCoupangBundle files in (fs, let! _ := inspected in Ok tt)
  end.
End preflight.

(** ** Accepted uploads *)

Section accepted.
Context `{Icu} (nfc : str -> str) (decode_cp949 : buffer -> str)
  (csv_parse : str -> N -> Z -> option (list (list str)))
  (loadAsync : buffer -> option (list ZipEntry)) (load_workbook : buffer -> option (list Worksheet))
  (env : environment) (options : Options).

Abbreviation preflight := (preflightUploadFile nfc decode_cp949 csv_parse loadAsync load_workbook env options).
Abbreviation preflights := (preflight_all nfc decode_cp949 csv_parse loadAsync load_workbook env options).

(** What the inspection of the content says, by the kind of the profile. *)
Definition inspected_as (p : UploadProfile) (extension : str) (b : buffer) (i : UploadInspection) : Prop :=
  exists limits, (option_limits options = Some limits
                  \/ option_limits options = None /\ resolveUploadStructureLimits env = Ok limits)
  /\ match contentKind p, i with
     | XLSX, XlsxInspection x => inspectXlsxBuffer nfc loadAsync load_workbook limits b = Ok x
     | XLSX, _ => False
     | kind, TextInspection t => inspectTextBuffer decode_cp949 csv_parse b kind extension limits = Ok t
     | _, _ => False
     end.

(** The file [f] was accepted for the profile, and is [f'] after it. *)
Record upload_ok (p : UploadProfile) (f f' : UploadedFile) (i : UploadInspection) : Prop := {
  uo_name : uf_originalname f' = sanitizeUploadedFilename nfc toString_utf8 (uf_originalname f);
  uo_extension : extensionOf (uf_originalname f') ∈ extensions p;
  uo_mime : requireMime options <> Some false -> mime_type (uf_mimetype f) ∈ mimeTypes p;
  uo_content : exists b, uf_buffer f = Some b /\ uf_buffer f' = Some b /\ uf_size f' = blen b
    /\ 0 < blen b /\ (exists limit, resolveProfileMaxFileBytes p env = Ok limit /\ blen b <= limit)
    /\ inspected_as p (extensionOf (uf_originalname f')) b i
}.

Lemma listed x l : negb (existsb (str_eqb x) l) = false -> x ∈ l.
Proof.
  intros E%negb_false_iff. apply existsb_exists in E as (y & I & E). apply bool_decide_eq_true in E as ->.
  by apply list_elem_of_In.
Qed.

Lemma inspect_content_ok f b p i :
  inspect_content nfc decode_cp949 csv_parse loadAsync load_workbook env options f b p = Ok i ->
  inspected_as p (extensionOf (uf_originalname f)) b i.
Proof.
  unfold inspect_content. intros (limits & L & E)%bind_ok. exists limits. split.
  - destruct (option_limits options) as [l|]; [left; by injection L as ->|by right].
  - destruct (contentKind p); apply bind_ok in E as (_ & _ & (x & X & [= <-])%bind_ok); exact X.
Qed.

Lemma preflight_ok f p f' i : preflight f p = (f', Ok i) -> upload_ok p f f' i.
Proof.
  unfold preflightUploadFile. set (name := sanitizeUploadedFilename _ _ _). cbv zeta.
  destruct (result_bind _ _) as [b|e] eqn:C; [|discriminate]. intros [= <- E].
  apply bind_ok in C as ([] & En & (b' & B & (limit & L & ([] & M%at_most_ok & [= ->])%bind_ok)%bind_ok)%bind_ok).
  unfold assertUploadEnvelope in En. apply bind_ok in En as ([] & X%guard_ok & T).
  assert (Eb : uf_buffer f = Some b /\ 0 < blen b).
  { unfold content_of in B. cbn in B. destruct (uf_buffer f) as [[|c r]|]; try discriminate.
    injection B as <-. split; [done|]. unfold blen. cbn. lia. }
  destruct Eb as [Eb P]. split; cbn.
  - done.
  - by apply listed.
  - intros R. destruct (requireMime options) as [[]|]; [|done|]; by apply guard_ok, listed in T.
  - exists b. split_and!; try done; [by exists limit|]. by apply inspect_content_ok in E.
Qed.

(** A bundle's files, one by one. *)
Inductive bundle_ok : pending_files -> list (str * UploadedFile) -> list (str * UploadInspection) -> Prop :=
  | bundle_done : bundle_ok [] [] []
  | bundle_more field f f' p i pending files inspections : upload_ok p f f' i -> bundle_ok pending files inspections ->
      bundle_ok ((field, f, p) :: pending) ((field, f') :: files) ((field, i) :: inspections).

Lemma preflights_ok pending files inspections : preflights pending = (files, Ok inspections) ->
  bundle_ok pending files inspections.
Proof.
  revert files inspections. induction pending as [|[[field f] p] r IH]; cbn [preflight_all]; intros files inspections.
  { intros [= <- <-]. constructor. }
  destruct (preflight f p) as [f' [i|e]] eqn:P; [|discriminate].
  destruct (preflights r) as [rest [l|e]] eqn:R; [|discriminate]. intros [= <- <-].
  constructor; [by apply preflight_ok|by apply IH].
Qed.

(** The pending files are those of the request, in the order of the fields. *)
Lemma pending_of_ok source fields pending : pending_of source fields = Ok pending ->
  map (fun '(field, _, p) => (field, p)) pending
    = List.filter (fun '(field, _) => truthy_list (map_get source field ?? [])) fields
  /\ Forall (fun '(field, f, _) => map_get source field = Some [f]) pending.
Proof.
  revert pending. induction fields as [|[field p] r IH]; cbn [pending_of]; intros pending.
  { intros [= <-]. done. }
  cbn [List.filter]. destruct (map_get source field) as [[|f [|f2 l]]|] eqn:G; cbn; try discriminate.
  - apply IH.
  - intros (rest & [M F]%IH & [= <-])%bind_ok. cbn [map]. split; [by f_equal|]. by constructor.
  - apply IH.
Qed.

Lemma bundle_bytes pending files inspections : bundle_ok pending files inspections ->
  pending_bytes pending = total (map (fun '(_, f) => uf_size f) files).
Proof.
  induction 1 as [|field f f' p i pending files inspections U _ IH]; [done|]. unfold pending_bytes in *. cbn.
  destruct (uo_content _ _ _ _ U) as (b & -> & _ & -> & _). lia.
Qed.

(** C34: Accepted bundles.  When a bundle is accepted, its files are those of
    the request, one for each field of the bundle that has any and at least
    one; each was accepted for the profile of its field, with a safe name, an
    allowed extension and type, bytes within the limit of the profile and the
    content inspected; and the bytes answered are those of all files, within
    the limit of bundles. *)
Theorem preflightCoupangBundle_accepts source files totalBytes inspections :
  preflightCoupangBundle nfc decode_cp949 csv_parse loadAsync load_workbook env options (Some source)
    = (files, Ok (totalBytes, inspections)) ->
  exists pending maximum, bundle_ok pending files inspections /\ files <> []
    /\ map (fun '(field, _, p) => (field, p)) pending
       = List.filter (fun '(field, _) => truthy_list (map_get source field ?? [])) COUPANG_BUNDLE_FIELDS
    /\ Forall (fun '(field, f, _) => map_get source field = Some [f]) pending
    /\ (forall field, field ∈ map fst source -> in_bundle field = true)
    /\ totalBytes = total (map (fun '(_, f) => uf_size f) files)
    /\ resolveCoupangBundleMaxTotalBytes env = Ok maximum /\ totalBytes <= maximum.
Proof.
  unfold preflightCoupangBundle. destruct (bundle_pending env (Some source)) as [[pending bytes]|e] eqn:B; [|discriminate].
  destruct (preflights pending) as [files' [l|e]] eqn:P; [|discriminate]. intros [= -> -> ->].
  apply preflights_ok in P. unfold bundle_pending in B.
  apply bind_ok in B as ([] & K & (pending' & Pe & E)%bind_ok). destruct (pending_of_ok _ _ _ Pe) as [M F].
  destruct pending' as [|x r]; [discriminate|].
  apply bind_ok in E as (maximum & R & ([] & T%at_most_ok & [= <- <-])%bind_ok).
  exists (x :: r), maximum. split_and!; try done.
  - by inversion P.
  - intros field I. destruct (in_bundle field) eqn:N; [done|]. exfalso.
    assert (X : existsb (fun field => negb (in_bundle field)) (map fst source) = true); [|change (Some source ?? []) with source in K; by rewrite X in K].
    apply existsb_exists. exists field. split; [by apply list_elem_of_In|]. by rewrite N.
  - by apply (bundle_bytes _ _ inspections).
Qed.
End accepted.

(** ** Concrete bundles *)

Section example.
#[local] Existing Instance c_locale.

Definition example_file (name type : string) (b : buffer) : UploadedFile :=
  {| uf_originalname := js name; uf_mimetype := Some (js type); uf_buffer := Some b; uf_size := 0 |}.

Definition example_bundle_preflight (maximum : string) (source : list (str * list UploadedFile)) :=
  preflightCoupangBundle (fun s => s) (fun _ => [65533%N]) plain_csv (fun _ => Some (map stored_entry example_upload))
    (fun _ => Some one_sheet)
    (fun name => if str_eqb name (js "UPLOAD_COUPANG_BUNDLE_MAX_TOTAL_BYTES") then Some (js maximum) else None)
    no_options (Some source).

Definition margin_file : UploadedFile := example_file "../mar:gin.CSV" "text/csv; charset=utf-8" (js "sku,cost").
Definition sales_file : UploadedFile := example_file "s.xlsx" "application/octet-stream" (archive example_upload).

Definition example_source : list (str * list UploadedFile) :=
  [(js "margin", [margin_file]); (js "sales", [sales_file])].

Definition names_of (r : list (str * UploadedFile) * result (Z * list (str * UploadInspection))) :=
  (map (fun '(field, f) => (field, uf_originalname f)) r.1, let! x := r.2 in Ok (map fst x.2)).

Example example_bundles :
  (names_of (example_bundle_preflight "50331648" example_source),
   names_of (example_bundle_preflight "50331648" [(js "margin", [example_file "m.txt" "text/csv" (js "a")])]),
   names_of (example_bundle_preflight "50331648" [(js "margin", [margin_file; margin_file])]),
   names_of (example_bundle_preflight "50331648" [(js "file", [margin_file])]),
   names_of (example_bundle_preflight "3072" [(js "margin", [example_file "m.csv" "text/csv" (repeat 65%N 4000)])]))
  = (([(js "sales", js "s.xlsx"); (js "margin", js "mar_gin.CSV")], Ok [js "sales"; js "margin"]),
     ([(js "margin", js "m.txt")], uploadException 415 "UPLOAD_EXTENSION_NOT_ALLOWED"),
     ([], bad_request "UPLOAD_FILE_COUNT_INVALID"), ([], bad_request "UPLOAD_FIELD_INVALID"),
     ([], uploadException 413 "UPLOAD_TOTAL_TOO_LARGE")).
Proof. vm_compute. reflexivity. Qed.

(** A field with the name of a property that every object has is not refused,
    as other fields that the bundle does not know are; its files are ignored. *)
Example inherited_field_ignored :
  names_of (example_bundle_preflight "50331648" ((js "constructor", [margin_file]) :: [(js "margin", [margin_file])]))
  = names_of (example_bundle_preflight "50331648" [(js "margin", [margin_file])]).
Proof. vm_compute. reflexivity. Qed.

Lemma preflightCoupangBundle_accepts_witness : exists files totalBytes inspections,
  example_bundle_preflight "50331648" example_source = (files, Ok (totalBytes, inspections)) /\ files <> [].
Proof.
  assert (E : exists files totalBytes inspections,
    example_bundle_preflight "50331648" example_source = (files, Ok (totalBytes, inspections)))
    by (do 3 eexists; vm_compute; reflexivity).
  destruct E as (files & totalBytes & inspections & E). exists files, totalBytes, inspections. split; [exact E|].
  unfold example_bundle_preflight in E. apply preflightCoupangBundle_accepts in E.
  destruct E as (pending & maximum & _ & N & _). exact N.
Defined.
End example.
