(* ===== verification/JsonSafety.v ===== *)
(** * The keys of request bodies

    validation/dangerous-json-keys.pipe.ts, which walks over the objects that a
    request body consists of.  The objects are in a store, as they may be
    shared or lead back to themselves; an array is an object whose keys are its
    indices.  The walk keeps a stack of values and the objects that it has
    seen; its fuel is one step for the body and one for each property of the
    store, and it never runs out (see [assertSafeJsonKeys_spec]). *)

From stdpp Require Import gmap.
From S2P Require Import Prelude JsNumber JsString.
From S2P Require Import ZipArchive.

Local Open Scope nat_scope.

Abbreviation loc := nat.

(** A value: an object of the store, or anything else. *)
Inductive value := Primitive | Ref (l : loc).

Abbreviation store := (gmap loc (list (str * value))).

Definition entries (h : store) (l : loc) : list (str * value) := h !! l ?? [].

Definition DANGEROUS_JSON_KEYS : list str := map js ["__proto__"; "prototype"; "constructor"]%string.
Definition MAX_JSON_DEPTH : nat := 64.
Definition MAX_JSON_NODES : nat := Z.to_nat 100000.
#[global] Opaque MAX_JSON_NODES.

Definition invalidJsonKey : js_error := {| err_status := 400; err_code := js "INVALID_JSON_KEY" |}.
Definition invalidJsonStructure : js_error := {| err_status := 400; err_code := js "INVALID_JSON_STRUCTURE" |}.

Definition unsafe_key (key : str) : bool :=
  existsb (str_eqb key) DANGEROUS_JSON_KEYS || (256 <? List.length key) || existsb control_character key.

Abbreviation pending := (list (value * nat)).

(** The values of an object on top of the stack, the last one first. *)
Fixpoint push_values (entries : list (str * value)) (depth : nat) (stack : pending) : result pending :=
  match entries with
  | [] => Ok stack
  | (key, v) :: r => if unsafe_key key then Throws invalidJsonKey else push_values r depth ((v, S depth) :: stack)
  end.

Fixpoint walk_json (fuel : nat) (h : store) (stack : pending) (seen : gset loc) (visited : nat) : result unit :=
  match fuel with
  | O => Throws OUT_OF_FUEL
  | S fuel =>
      match stack with
      | [] => Ok tt
      | (Primitive, _) :: stack => walk_json fuel h stack seen visited
      | (Ref current, depth) :: stack =>
          if MAX_JSON_DEPTH <? depth then Throws invalidJsonStructure
          else if bool_decide (current ∈ seen) then walk_json fuel h stack seen visited
          else
            let seen := {[ current ]} ∪ seen in
            let visited := S visited in
            if MAX_JSON_NODES <? visited then Throws invalidJsonStructure
            else
              let! stack := push_values (entries h current) depth stack in
              walk_json fuel h stack seen visited
      end
  end.

(** The properties of the objects of a store. *)
Definition property_count (h : store) (ls : list loc) : nat := sum_list_with (fun l => List.length (entries h l)) ls.

Definition objects (h : store) : list loc := elements (dom h).

Definition assertSafeJsonKeys (h : store) (v : value) : result unit :=
  walk_json (S (S (property_count h (objects h)))) h [(v, 0)] ∅ 0.

(** The pipe, on an argument that is the body of the request or another. *)
Definition DangerousJsonKeysPipe_transform (h : store) (v : value) (body : bool) : result value :=
  let! _ := (if body then assertSafeJsonKeys h v else Ok tt) in
  Ok v.

(** ** What can be reached *)

(** The object is at the end of a path of so many properties. *)
Inductive path (h : store) (v : value) : nat -> loc -> Prop :=
  | path_here l : v = Ref l -> path h v 0 l
  | path_more n l k l' : path h v n l -> (k, Ref l') ∈ entries h l -> path h v (S n) l'.

Definition reachable (h : store) (v : value) (l : loc) : Prop := exists n, path h v n l.

Definition safe_keys (h : store) (l : loc) : Prop := forall k v, (k, v) ∈ entries h l -> unsafe_key k = false.

Section walk.
Context (h : store) (v : value).

(** The steps that are left: the stack, and the properties not seen yet. *)
Definition unseen (seen : gset loc) : list loc := List.filter (fun l => negb (bool_decide (l ∈ seen))) (objects h).

Definition steps_left (stack : pending) (seen : gset loc) : nat :=
  List.length stack + property_count h (unseen seen).

Lemma property_count_dom l : l ∉ dom h -> entries h l = [].
Proof. intros N%not_elem_of_dom. unfold entries. by rewrite N. Qed.

Lemma count_without l seen ls : NoDup ls -> l ∉ seen ->
  property_count h (List.filter (fun x => negb (bool_decide (x ∈ seen))) ls)
  = property_count h (List.filter (fun x => negb (bool_decide (x ∈ ({[ l ]} ∪ seen : gset loc)))) ls)
    + (if bool_decide (l ∈ ls) then List.length (entries h l) else 0).
Proof.
  intros D N. induction D as [|x ls Nx D IH]; [done|]. cbn [List.filter].
  destruct (decide (x = l)) as [->|Nl].
  - rewrite (bool_decide_eq_false_2 (l ∈ seen)), (bool_decide_eq_true_2 (l ∈ {[ l ]} ∪ seen)), (bool_decide_eq_true_2 (l ∈ l :: ls))
      by set_solver. cbn [negb property_count sum_list_with]. unfold property_count in *. cbn. rewrite IH.
    rewrite (bool_decide_eq_false_2 (l ∈ ls)) by done. lia.
  - assert (E : bool_decide (x ∈ ({[ l ]} ∪ seen : gset loc)) = bool_decide (x ∈ seen)) by (apply bool_decide_ext; set_solver).
    assert (E2 : bool_decide (l ∈ x :: ls) = bool_decide (l ∈ ls)) by (apply bool_decide_ext; set_solver).
    rewrite E, E2. destruct (negb _); [|exact IH]. unfold property_count in *. cbn. rewrite IH. lia.
Qed.

Lemma steps_seen l seen : l ∉ seen ->
  property_count h (unseen seen) = property_count h (unseen ({[ l ]} ∪ seen)) + List.length (entries h l).
Proof.
  intros N. unfold unseen. rewrite (count_without l) by (exact N || exact (NoDup_elements (dom h : gset loc))). f_equal.
  destruct (decide (l ∈ dom h)) as [I|I].
  - rewrite bool_decide_eq_true_2; [done|]. unfold objects. by apply elem_of_elements.
  - rewrite (property_count_dom l I). by destruct (bool_decide _).
Qed.

(** What holds at each step. *)
Record walking (stack : pending) (seen : gset loc) (visited : nat) : Prop := {
  wk_paths : forall l d, (Ref l, d) ∈ stack -> path h v d l;
  wk_root : forall l, v = Ref l -> l ∈ seen \/ exists d, (Ref l, d) ∈ stack;
  wk_seen : forall l, l ∈ seen -> (exists n, n <= MAX_JSON_DEPTH /\ path h v n l) /\ safe_keys h l;
  wk_closed : forall l k l', l ∈ seen -> (k, Ref l') ∈ entries h l -> l' ∈ seen \/ exists d, (Ref l', d) ∈ stack;
  wk_visited : visited = size seen /\ visited <= MAX_JSON_NODES
}.

Lemma walking_start : walking [(v, 0)] ∅ 0.
Proof.
  split; try set_solver.
  - intros l d [= E ->]%list_elem_of_singleton. by constructor.
  - split; [symmetry; apply size_empty|lia].
Qed.

(** Pushing the values of an object. *)
Lemma pushed l depth stack :
  match push_values l depth stack with
  | Ok stack' => (forall k x, (k, x) ∈ l -> unsafe_key k = false)
      /\ List.length stack' = List.length stack + List.length l
      /\ (forall x d, (x, d) ∈ stack' <-> (x, d) ∈ stack \/ d = S depth /\ exists k, (k, x) ∈ l)
  | Throws e => e = invalidJsonKey /\ exists k x, (k, x) ∈ l /\ unsafe_key k = true
  end.
Proof.
  revert stack. induction l as [|[k x] l IH]; intros stack; cbn [push_values].
  { split_and!; [set_solver|cbn; lia|]. intros x d. set_solver. }
  destruct (unsafe_key k) eqn:U; [split; [done|]; exists k, x; set_solver|].
  specialize (IH ((x, S depth) :: stack)). destruct (push_values _ _ _) as [stack'|e].
  - destruct IH as (K & L & M). split_and!.
    + intros k' x' [[= -> ->]|I]%elem_of_cons; [done|by eapply K].
    + cbn in *. lia.
    + intros y d. rewrite M, elem_of_cons. split.
      * intros [[[= -> ->]|I]|[-> [k' I]]]; [right; split; [done|]; exists k; set_solver|by left|right; set_solver].
      * intros [I|[-> [k' [[= -> ->]|I]%elem_of_cons]]]; [by left; right|by left; left|right; set_solver].
  - destruct IH as [-> (k' & x' & I & U')]. split; [done|]. exists k', x'. set_solver.
Qed.

(** Every outcome of a walk. *)
Definition walked (r : result unit) : Prop :=
  match r with
  | Ok _ => exists seen : gset loc, (forall l, l ∈ seen <-> reachable h v l) /\ size seen <= MAX_JSON_NODES
      /\ forall l, l ∈ seen -> (exists n, n <= MAX_JSON_DEPTH /\ path h v n l) /\ safe_keys h l
  | Throws e =>
      (e = invalidJsonKey /\ exists l, reachable h v l /\ ~ safe_keys h l)
      \/ (e = invalidJsonStructure
          /\ ((exists l n, path h v n l /\ MAX_JSON_DEPTH < n)
              \/ exists seen : gset loc, (forall l, l ∈ seen -> reachable h v l) /\ MAX_JSON_NODES < size seen))
  end.

Lemma walking_end seen visited : walking [] seen visited -> walked (Ok tt).
Proof.
  intros [P R S C [-> V]]. exists seen. split_and!; try done. intros l. split.
  - intros I. destruct (S l I) as [(n & _ & Pn) _]. by exists n.
  - intros [n Pn]. induction Pn as [l ->|n l k l' _ IH E].
    + destruct (R l eq_refl) as [I|[d I]]; [done|set_solver].
    + destruct (C l k l' IH E) as [I|[d I]]; [done|set_solver].
Qed.

(** A value that is not an object, or one seen before. *)
Lemma walking_skip x d stack seen visited : walking ((x, d) :: stack) seen visited ->
  match x with Primitive => True | Ref l => l ∈ seen end -> walking stack seen visited.
Proof.
  intros [P R S C V] X. split; try done.
  - intros l d' I. apply P. set_solver.
  - intros l E. destruct (R l E) as [I|[d' [[= <- ->]|I]%elem_of_cons]]; [by left|left; exact X|right; by exists d'].
  - intros l k l' I E. destruct (C l k l' I E) as [Is|[d' [[= <- ->]|Is]%elem_of_cons]]; [by left|left; exact X|right; by exists d'].
Qed.

Lemma walking_visit l d stack stack' seen visited : walking ((Ref l, d) :: stack) seen visited -> l ∉ seen ->
  d <= MAX_JSON_DEPTH -> S visited <= MAX_JSON_NODES -> push_values (entries h l) d stack = Ok stack' ->
  walking stack' ({[ l ]} ∪ seen) (S visited).
Proof.
  intros [P R Se C [V Vm]] N D M E. pose proof (pushed (entries h l) d stack) as Pu. rewrite E in Pu.
  destruct Pu as (K & _ & Pu). assert (Pl : path h v d l) by (apply P; set_solver).
  assert (Keep : forall x, x ∈ seen \/ (exists d', (Ref x, d') ∈ (Ref l, d) :: stack) ->
    x ∈ ({[ l ]} ∪ seen : gset loc) \/ exists d', (Ref x, d') ∈ stack').
  { intros x [I|[d' [[= -> ->]|I]%elem_of_cons]]; [left; set_solver|left; set_solver|].
    right. exists d'. apply Pu. by left. }
  split.
  - intros x d' [I|[-> [k I]]]%Pu; [apply P; set_solver|by eapply path_more].
  - intros x Ex. apply Keep, R, Ex.
  - intros x [->%elem_of_singleton|I]%elem_of_union; [|by apply Se]. split; [by exists d|]. exact K.
  - intros x k x' [->%elem_of_singleton|I]%elem_of_union Ix.
    + right. exists (S d). apply Pu. right. split; [done|]. by exists k.
    + apply Keep. by eapply C.
  - rewrite size_union by set_solver. rewrite size_singleton. lia.
Qed.

Lemma walk_walked fuel stack seen visited : walking stack seen visited -> steps_left stack seen < fuel ->
  walked (walk_json fuel h stack seen visited).
Proof.
  revert stack seen visited. induction fuel as [|fuel IH]; intros stack seen visited W L; [lia|]. cbn [walk_json].
  destruct stack as [|[[|l] d] stack]; [by eapply walking_end| |].
  { apply IH; [by apply walking_skip in W|]. unfold steps_left in *. cbn in L. lia. }
  destruct (MAX_JSON_DEPTH <? d) eqn:D.
  { apply Nat.ltb_lt in D. right. split; [done|]. left. exists l, d. split; [|done]. apply (wk_paths _ _ _ W). set_solver. }
  apply Nat.ltb_ge in D. case_bool_decide as I.
  { apply IH; [by apply walking_skip in W|]. unfold steps_left in *. cbn in L. lia. }
  assert (Pl : path h v d l) by (apply (wk_paths _ _ _ W); set_solver).
  destruct (MAX_JSON_NODES <? S visited) eqn:M.
  { apply Nat.ltb_lt in M. right. split; [done|]. right. exists ({[ l ]} ∪ seen).
    destruct (wk_visited _ _ _ W) as [V _]. split; [|rewrite size_union, size_singleton by set_solver; lia].
    intros x [->%elem_of_singleton|Ix]%elem_of_union; [by exists d|].
    destruct (wk_seen _ _ _ W x Ix) as [(n & _ & Pn) _]. by exists n. }
  apply Nat.ltb_ge in M. pose proof (pushed (entries h l) d stack) as Pu.
  destruct (push_values (entries h l) d stack) as [stack'|e] eqn:E; cbn [result_bind].
  - apply IH; [by eapply walking_visit|]. destruct Pu as (_ & Len & _). unfold steps_left in *.
    rewrite (steps_seen l seen I) in L. cbn in L. lia.
  - destruct Pu as [-> (k & x & Ik & U)]. left. split; [done|]. exists l. split; [by exists d|]. intros S.
    specialize (S k x Ik). by rewrite S in U.
Qed.
End walk.

(** Safe bodies.  The walk over a body ends, whatever its objects share
    and whether or not they lead back to themselves.  When the body is
    accepted, every object that it reaches has safe keys only and is reached
    by a path within the depth allowed, and they are not more than allowed.
    When it is refused for a key, an object that it reaches has an unsafe key;
    and for its structure, there is a path that is too long or there are more
    objects than allowed. *)
Theorem assertSafeJsonKeys_spec h v : walked h v (assertSafeJsonKeys h v).
Proof.
  unfold assertSafeJsonKeys. apply walk_walked; [apply walking_start|]. unfold steps_left. cbn [List.length].
  enough (property_count h (unseen h ∅) <= property_count h (objects h)) by lia.
  unfold unseen. induction (objects h) as [|l ls IH]; [done|]. cbn [List.filter]. unfold property_count in *.
  destruct (negb _); cbn; lia.
Qed.

(** ** Concrete bodies *)

Definition example_store : store :=
  <[0 := [(js "rows", Ref 1); (js "name", Primitive)]]> (<[1 := [(js "0", Ref 2); (js "1", Ref 2); (js "2", Ref 0)]]>
    (<[2 := [(js "a", Primitive)]]> ∅)).

(** A chain of as many objects. *)
Definition chain (n : nat) : store := list_to_map (map (fun l => (l, [(js "next", Ref (S l))])) (seq 0 n)).

Example example_bodies :
  (assertSafeJsonKeys example_store (Ref 0), assertSafeJsonKeys (<[2 := [(js "__proto__", Primitive)]]> example_store) (Ref 0),
   assertSafeJsonKeys (<[2 := [(js "tab" ++ [9%N], Primitive)]]> example_store) (Ref 0),
   assertSafeJsonKeys (chain 65) (Ref 1), assertSafeJsonKeys (chain 65) (Ref 0),
   DangerousJsonKeysPipe_transform (chain 65) (Ref 0) false)
  = (Ok tt, Throws invalidJsonKey, Throws invalidJsonKey, Ok tt, Throws invalidJsonStructure, Ok (Ref 0)).
Proof. vm_compute. reflexivity. Qed.
