(* ===== verification/ExchangeRates.v ===== *)
(** * Exchange rates

    exchange-rates/exchange-rates.service.ts and exchange-rate-provider.ts: the
    rate of the dollar for a day is stored once, from the answer of the bank
    for that day, for one of the days before it, for the last days before
    today, or from a rate stored for another day.
    uploads/upload-exchange-rate.service.ts obtains the rates of an upload and
    marks the upload as failed when one is missing.

    The bank is the parameter [fetch]: what it answers may change with every
    call.  The clock is read at points of time [clock n], and time passes with
    every call and statement.  [error_message] is the text of an exception. *)

From S2P Require Import Prelude JsNumber JsString JsDate.
From S2P Require Import DateNumber.
From S2P Require Import Concurrency.
From S2P Require Import RequestBody.

Local Open Scope Z_scope.

Definition BASE_CURRENCY : str := js "USD".
Definition QUOTE_CURRENCY : str := js "KRW".
Definition KOREA_EXIM_PROVIDER : str := js "KOREA_EXIM".

Inductive ExchangeRateFallbackType := EXACT | PREVIOUS_AVAILABLE | LATEST_AVAILABLE.

Definition error (code : str) : js_error := {| err_status := 0; err_code := code |}.
Definition bad_request (code : str) : js_error := {| err_status := 400; err_code := code |}.

(** [error instanceof BadRequestException]. *)
Definition is_bad_request (e : js_error) : bool := err_status e =? 400.

(** ** Dates *)

(** A [Date] beyond these days is invalid: its text throws. *)
Definition valid_time (t : Z) : bool := Z.abs t <=? 8640000000000000.

Definition normalizeDateOnly (date : Z) : Z := toDateOnly (Some (formatDateOnly date)) ?? date.

Definition addDays (date days : Z) : Z := date + days * 86400000.

(** The day of an instant in Seoul, nine hours ahead. *)
Definition todayInSeoul (now : Z) : Z :=
  toDateOnly (Some (iso_date (now + 9 * 3600000))) ?? normalizeDateOnly now.

Definition configNumber (value : option str) (fallback : Z) : Z :=
  let parsed := match value with Some s => to_number s | None => NaN end in
  if isFinite parsed && nleb (ofZ 0) parsed then toZ (trunc parsed) else fallback.

(** ** The answers of the bank *)

(** [await fetch(url)]: no connection, or a status and the JSON of the body, if
    it is one. *)
Inductive response := Unreachable | Answer (status : Z) (content : option json).

Definition isRecord (v : json) : bool := match v with JObj _ => true | _ => false end.

(** [value[k]] of a record. *)
Definition record_field (v : json) (k : str) : option json :=
  match v with JObj fields => json_field fields k | _ => None end.

(** [String(value)] of a parsed value: an array joins its elements, and an
    object with a [toString] of its own has no text. *)
Fixpoint text_of_json (v : json) : result str :=
  match v with
  | JNull => Ok (js "null")
  | JBool b => Ok (if b then js "true" else js "false")
  | JNum x => Ok (num_text x)
  | JStr s => Ok s
  | JArr l =>
      let! texts := (fix go (l : list json) : result (list str) :=
                       match l with
                       | [] => Ok []
                       | x :: r =>
                           let! s := (match x with JNull => Ok [] | _ => text_of_json x end) in
                           let! ss := go r in
                           Ok (s :: ss)
                       end) l in
      Ok (join (js ",") texts)
  | JObj fields =>
      match json_field fields (js "toString") with
      | Some _ => Throws (error (js "TypeError"))
      | None => Ok (js "[object Object]")
      end
  end.

Definition is_usd (item : json) : bool :=
  isRecord item && match record_field item (js "cur_unit") with Some (JStr s) => str_eqb s (js "USD") | _ => false end.

Definition parseKoreaEximUsdKrwRate (payload : list json) : result (option (num * json)) :=
  match List.find is_usd payload with
  | None => Ok None
  | Some row =>
      match record_field row (js "deal_bas_r") with
      | None | Some JNull => Ok None
      | Some dealBasRate =>
          let! text := text_of_json dealBasRate in
          let parsed := to_number (trim (List.filter (fun c => negb (c =? 44)%N) text)) in
          Ok (if negb (isFinite parsed) || nleb parsed (ofZ 0) then None else Some (parsed, row))
      end
  end.

(** The rate in an answer. *)
Definition read_rate (r : response) : result (option (num * json)) :=
  match r with
  | Unreachable => Throws (error (js "TypeError"))
  | Answer status content =>
      if negb ((200 <=? status) && (status <? 300)) then Throws (error (js "Error"))
      else match content with
           | None => Throws (error (js "SyntaxError"))
           | Some (JArr payload) => parseKoreaEximUsdKrwRate payload
           | Some _ => Throws (error (js "Error"))
           end
  end.

Definition search_date (date : Z) : str :=
  List.filter (fun c => negb (c =? 45)%N) (formatDateOnly (normalizeDateOnly date)).

(** ** The tables *)

Section exchange.
Context `{DecimalNumber}.

Record ExchangeRate := {
  er_id : str;
  rateDate : Z;
  sourceDate : Z;
  baseCurrency : str;
  quoteCurrency : str;
  rate : dec;
  provider : str;
  providerPayload : json;
  fallbackType : ExchangeRateFallbackType;
  fetchedAt : Z;
  createdAt : Z;
  updatedAt : Z
}.

Record UploadRowError := {
  re_uploadBatchId : str;
  re_severity : str;
  re_errorCode : str;
  re_message : str
}.

(** The columns of an upload that a missing rate changes. *)
Record UploadBatch := {
  ub_id : str;
  ub_status : str;
  ub_errorCount : Z;
  ub_validatedAt : option Z
}.

Record World := {
  exchangeRates : list ExchangeRate;
  uploadBatches : list UploadBatch;
  uploadRowErrors : list UploadRowError;
  ticks : nat
}.

(** Time passes. *)
Definition tick (w : World) : World := {|
  exchangeRates := exchangeRates w; uploadBatches := uploadBatches w;
  uploadRowErrors := uploadRowErrors w; ticks := S (ticks w) |}.

Definition set_rates (l : list ExchangeRate) (w : World) : World := {|
  exchangeRates := l; uploadBatches := uploadBatches w;
  uploadRowErrors := uploadRowErrors w; ticks := S (ticks w) |}.

Definition set_uploads (l : list UploadBatch) (w : World) : World := {|
  exchangeRates := exchangeRates w; uploadBatches := l;
  uploadRowErrors := uploadRowErrors w; ticks := S (ticks w) |}.

Definition set_row_errors (l : list UploadRowError) (w : World) : World := {|
  exchangeRates := exchangeRates w; uploadBatches := uploadBatches w;
  uploadRowErrors := l; ticks := S (ticks w) |}.

(** The unique index [rateDate_baseCurrency_quoteCurrency_provider]. *)
Definition rate_key (r : ExchangeRate) : Z * str * str * str :=
  (rateDate r, baseCurrency r, quoteCurrency r, provider r).

Definition usd_krw (date : Z) (provider : str) : Z * str * str * str :=
  (date_column date, BASE_CURRENCY, QUOTE_CURRENCY, provider).

Definition find_rate (k : Z * str * str * str) (l : list ExchangeRate) : option ExchangeRate :=
  List.find (fun r => bool_decide (rate_key r = k)) l.

(** [orderBy: [{ sourceDate: "desc" }, { rateDate: "desc" }]]. *)
Definition latest_first (x y : ExchangeRate) : Z :=
  (sourceDate y - sourceDate x) ||| (rateDate y - rateDate x).

Definition is_usd_krw (r : ExchangeRate) : bool :=
  str_eqb (baseCurrency r) BASE_CURRENCY && str_eqb (quoteCurrency r) QUOTE_CURRENCY
  && str_eqb (provider r) KOREA_EXIM_PROVIDER.

(** ** Requests *)

Context (KOREA_EXIM_API_KEY EXCHANGE_RATE_LOOKBACK_DAYS : option str).
Context (fetch : nat -> str -> str -> response).
Context (clock : nat -> Z) (uuid : nat -> str) (error_message : js_error -> str).

Definition now (w : World) : Z := clock (ticks w).

Record ProviderRate := {
  pr_date : Z;
  pr_provider : str;
  pr_rate : num;
  rawPayload : json
}.

Definition fetchRate (date : Z) : prog World (option ProviderRate) :=
  match KOREA_EXIM_API_KEY with
  | None | Some [] => Throw (error (js "Error"))
  | Some authKey =>
      if negb (valid_time date) then Throw (error (js "RangeError"))
      else
        await answer := call (fun w => Ok (fetch (ticks w) authKey (search_date date), tick w)) in
        of_result (let! parsed := read_rate answer in
                   Ok ((fun '(x, row) => {| pr_date := normalizeDateOnly date; pr_provider := KOREA_EXIM_PROVIDER;
                                            pr_rate := x; rawPayload := row |}) <$> parsed))
  end.

(** [n] days, from [daysAgo] days before [base] backwards, until one has a rate. *)
Fixpoint look_back (n : nat) (daysAgo base : Z) : prog World (option ProviderRate) :=
  match n with
  | O => Ret None
  | S n =>
      await rate := fetchRate (addDays base (- daysAgo)) in
      match rate with
      | Some r => Ret (Some r)
      | None => look_back n (daysAgo + 1) base
      end
  end.

Definition lookbackDays : Z := configNumber EXCHANGE_RATE_LOOKBACK_DAYS 10.

Definition fetchLatestRate : prog World (option ProviderRate) :=
  await today := look (fun w => todayInSeoul (now w)) in
  look_back (S (Z.to_nat lookbackDays)) 0 today.

Definition findLatestStoredRateOnOrBefore (date : Z) : TX World (option ExchangeRate) :=
  let rateDate := normalizeDateOnly date in
  tx_get (fun w => head (js_sort latest_first
    (List.filter (fun r => is_usd_krw r && (sourceDate r <=? date_column rateDate)) (exchangeRates w)))).

Definition findLatestStoredRate : TX World (option ExchangeRate) :=
  tx_get (fun w => head (js_sort latest_first (List.filter is_usd_krw (exchangeRates w)))).

Definition fetchExactRateFromProvider (date : Z) : prog World (option ProviderRate) :=
  fetchRate (normalizeDateOnly date).

Definition fetchLatestRateFromProvider : prog World (option ProviderRate) := fetchLatestRate.

Definition findStoredRateForDate (date : Z) : TX World (option ExchangeRate) :=
  tx_get (fun w => find_rate (usd_krw (normalizeDateOnly date) KOREA_EXIM_PROVIDER) (exchangeRates w)).

Definition fetchPreviousRateFromProvider (date : Z) : prog World (option ProviderRate) :=
  look_back (Z.to_nat lookbackDays) 1 (normalizeDateOnly date).

(** The columns that an upsert gives. *)
Record RateData := {
  d_rateDate : Z;
  d_sourceDate : Z;
  d_rate : dec;
  d_provider : str;
  d_payload : json;
  d_fallbackType : ExchangeRateFallbackType
}.

Definition created_rate (id : str) (data : RateData) (rate : dec) (t : Z) : ExchangeRate := {|
  er_id := id; rateDate := date_column (d_rateDate data); sourceDate := date_column (d_sourceDate data);
  baseCurrency := BASE_CURRENCY; quoteCurrency := QUOTE_CURRENCY; rate := rate; provider := d_provider data;
  providerPayload := d_payload data; fallbackType := d_fallbackType data; fetchedAt := t; createdAt := t; updatedAt := t |}.

Definition updated_rate (r : ExchangeRate) (data : RateData) (rate : dec) (t : Z) : ExchangeRate := {|
  er_id := er_id r; rateDate := rateDate r; sourceDate := date_column (d_sourceDate data);
  baseCurrency := baseCurrency r; quoteCurrency := quoteCurrency r; rate := rate; provider := provider r;
  providerPayload := d_payload data; fallbackType := d_fallbackType data; fetchedAt := t;
  createdAt := createdAt r; updatedAt := t |}.

Definition replace_rate (k : Z * str * str * str) (row : ExchangeRate) (l : list ExchangeRate) : list ExchangeRate :=
  map (fun r => if bool_decide (rate_key r = k) then row else r) l.

(** A rate is a DECIMAL(14, 6). *)
Definition upsertRate (data : RateData) : TX World ExchangeRate := fun w =>
  match numeric 14 6 (d_rate data) with
  | None => Throws (error (js "P2020"))
  | Some stored =>
      let k := usd_krw (d_rateDate data) (d_provider data) in
      match find_rate k (exchangeRates w) with
      | Some r =>
          let row := updated_rate r data stored (now w) in
          Ok (row, set_rates (replace_rate k row (exchangeRates w)) w)
      | None =>
          let row := created_rate (uuid (ticks w)) data stored (now w) in
          Ok (row, set_rates (exchangeRates w ++ [row]) w)
      end
  end.

Definition provider_data (rateDate : Z) (providerRate : ProviderRate) (fallbackType : ExchangeRateFallbackType) : RateData := {|
  d_rateDate := normalizeDateOnly rateDate; d_sourceDate := normalizeDateOnly (pr_date providerRate);
  d_rate := dec_of_num (pr_rate providerRate); d_provider := pr_provider providerRate;
  d_payload := rawPayload providerRate; d_fallbackType := fallbackType |}.

Definition upsertProviderRate (rateDate : Z) (providerRate : ProviderRate) (fallbackType : ExchangeRateFallbackType)
    : prog World ExchangeRate :=
  call (upsertRate (provider_data rateDate providerRate fallbackType)).

Definition fallback_data (date : Z) (storedFallback : ExchangeRate) (providerError : option js_error) : RateData :=
  let normalizedRateDate := normalizeDateOnly date in
  {| d_rateDate := normalizedRateDate; d_sourceDate := normalizeDateOnly (sourceDate storedFallback);
     d_rate := rate storedFallback; d_provider := provider storedFallback;
     d_payload := JObj [
       (js "fallbackFromExchangeRateId", JStr (er_id storedFallback));
       (js "fallbackFromRateDate", JStr (formatDateOnly (rateDate storedFallback)));
       (js "fallbackFromSourceDate", JStr (formatDateOnly (sourceDate storedFallback)));
       (js "reason", JStr (match providerError with
                           | Some _ => js "PROVIDER_ERROR"
                           | None => js "PREVIOUS_STORED_RATE"
                           end))];
     d_fallbackType :=
       if normalizeDateOnly (sourceDate storedFallback) <=? normalizedRateDate then PREVIOUS_AVAILABLE else LATEST_AVAILABLE |}.

Definition upsertStoredFallbackRate (rateDate : Z) (storedFallback : ExchangeRate) (providerError : option js_error)
    : prog World ExchangeRate :=
  call (upsertRate (fallback_data rateDate storedFallback providerError)).

Definition exchangeRateUnavailable : js_error := bad_request (js "EXCHANGE_RATE_UNAVAILABLE").

(** [try { ... } catch (error) { ... }] around a call to the bank. *)
Definition attempt {A} (m : prog World A) : prog World (result A) :=
  catch (await a := m in Ret (Ok a)) (fun e => Ret (Throws e)).

Definition latest_stored_or_unavailable (date : Z) (providerError : js_error) : prog World ExchangeRate :=
  await latestStoredFallback := call findLatestStoredRate in
  match latestStoredFallback with
  | Some s => upsertStoredFallbackRate date s (Some providerError)
  | None => Throw exchangeRateUnavailable
  end.

Definition getUsdKrwRateForDate (date : Z) : prog World ExchangeRate :=
  let rateDate := normalizeDateOnly date in
  await existing := call (findStoredRateForDate rateDate) in
  match existing with
  | Some r => Ret r
  | None =>
      await exactRate := attempt (fetchExactRateFromProvider rateDate) in
      match exactRate with
      | Throws providerError => latest_stored_or_unavailable rateDate providerError
      | Ok (Some p) => upsertProviderRate rateDate p EXACT
      | Ok None =>
          await lookbackRate := attempt (fetchPreviousRateFromProvider rateDate) in
          match lookbackRate with
          | Throws providerError => latest_stored_or_unavailable rateDate providerError
          | Ok (Some p) => upsertProviderRate rateDate p PREVIOUS_AVAILABLE
          | Ok None =>
              await storedFallback := call (findLatestStoredRateOnOrBefore rateDate) in
              match storedFallback with
              | Some s => upsertStoredFallbackRate rateDate s None
              | None =>
                  await latestRate := attempt fetchLatestRateFromProvider in
                  match latestRate with
                  | Throws providerError => latest_stored_or_unavailable rateDate providerError
                  | Ok (Some p) => upsertProviderRate rateDate p LATEST_AVAILABLE
                  | Ok None => Throw exchangeRateUnavailable
                  end
              end
          end
      end
  end.

(** The loop over the dates. *)
Fixpoint ensure_each (dateKeys : list str) (rates : list (str * ExchangeRate)) : prog World (list (str * ExchangeRate)) :=
  match dateKeys with
  | [] => Ret rates
  | dateKey :: r =>
      match toDateOnly (Some dateKey) with
      | None => ensure_each r rates
      | Some date =>
          await row := getUsdKrwRateForDate date in
          ensure_each r (map_set rates dateKey row)
      end
  end.

Definition uniqueDates (dates : list Z) : list str := js_sort str_cmp (js_unique (map formatDateOnly dates)).

Definition ensureUsdKrwRatesForDates (dates : list Z) : prog World (list (str * ExchangeRate)) :=
  ensure_each (uniqueDates dates) [].

(** ** The rates of an upload *)

Definition createRowError (batchId message : str) : TX World unit := fun w =>
  Ok (tt, set_row_errors (uploadRowErrors w ++
    [{| re_uploadBatchId := batchId; re_severity := js "ERROR"; re_errorCode := js "EXCHANGE_RATE_SYNC_FAILED";
        re_message := message |}]) w).

Definition failBatch (batchId : str) : TX World unit := fun w =>
  if existsb (fun b => str_eqb (ub_id b) batchId) (uploadBatches w)
  then Ok (tt, set_uploads (map (fun b =>
         if str_eqb (ub_id b) batchId
         then {| ub_id := ub_id b; ub_status := js "FAILED"; ub_errorCount := 1; ub_validatedAt := Some (now w) |}
         else b) (uploadBatches w)) w)
  else Throws (error (js "P2025")).

Definition ensureUsdKrwRates (batchId : str) (metricDates : list Z) : prog World unit :=
  match metricDates with
  | [] => Ret tt
  | _ =>
      catch (await _ := ensureUsdKrwRatesForDates metricDates in Ret tt) (fun e =>
        await _ := call (createRowError batchId (error_message e)) in
        await _ := call (failBatch batchId) in
        Throw (if is_bad_request e then e else bad_request (js "EXCHANGE_RATE_SYNC_FAILED")))
  end.
End exchange.
