(* ===== verification/ExchangeRatesGuarantees.v ===== *)
(** * What is guaranteed about exchange rates

    Two theorems on the requests of [ExchangeRates].  However requests
    interleave and whatever the bank answers, every stored rate is one that the
    bank gave for the day named as its source ([rates_are_published]).  A
    request that runs alone never changes a stored rate, stores rates for the
    days it is asked about only, and when it succeeds the same question gives
    the same rates from then on, whatever the bank says then
    ([ensured_rates_stand]). *)

From S2P Require Import Prelude JsNumber JsString JsDate.
From S2P Require Import DateNumber.
From S2P Require Import Concurrency.
From S2P Require Import Transactions.
From S2P Require Import RequestBody.
From S2P Require Import FixedDecimals.
From S2P Require Import ExchangeRates.
From stdpp Require Import relations.

Local Open Scope Z_scope.

(** ** The day of a normalized date *)

Lemma split_on_first sep c r : is_digit c = false ->
  exists p l, split_on sep (c :: r) = p :: l /\ DateNumber.between 4 4 p = false.
Proof.
  intros D. assert (G : forall acc s, exists p l, split_on_go sep (acc ++ [c]) s = p :: l /\ DateNumber.between 4 4 p = false).
  { intros acc s. revert acc. induction s as [|d s IH]; intros acc.
    - exists (rev (acc ++ [c])), []. split; [done|]. rewrite rev_app_distr. unfold DateNumber.between, all_digits. simpl.
      by rewrite D, andb_false_r.
    - simpl. destruct (d =? sep)%N; [|exact (IH (d :: acc))].
      eexists _, _. split; [done|]. rewrite rev_app_distr. unfold DateNumber.between, all_digits. simpl. by rewrite D, andb_false_r. }
  unfold split_on. simpl. destruct (c =? sep)%N; [by eexists [], _|]. exact (G [] r).
Qed.

Lemma date_match_other c r : is_digit c = false -> date_match (c :: r) = None.
Proof.
  intros D. assert (S : forall sep, match_separated sep (c :: r) = None).
  { intros sep. unfold match_separated. destruct (split_on_first sep c r D) as (p & l & -> & B).
    destruct l as [|m [|d [|]]]; try done. by rewrite B. }
  unfold date_match. rewrite !S. unfold match_compact, match_dotted.
  destruct (split_on_first 46 c r D) as (p & l & -> & B). rewrite B.
  unfold DateNumber.between at 1, all_digits. cbn [forallb]. rewrite D, andb_false_r. cbn [option_or andb].
  by destruct l as [|m [|d [|[|] [|]]]].
Qed.

Lemma trim_first c r : is_ws c = false -> exists r', trim (c :: r) = c :: r'.
Proof.
  intros W. unfold trim. rewrite drop_ws_no_ws by done. cbn [rev]. rewrite drop_ws_last by done.
  rewrite rev_app_distr. by eexists.
Qed.

Lemma parseDateString_other c r : is_digit c = false -> is_ws c = false -> parseDateString (Some (c :: r)) = None.
Proof.
  intros D W. unfold parseDateString. fold (date_match (trim (c :: r))).
  destruct (trim_first c r W) as [r' ->]. by rewrite date_match_other.
Qed.

(** The years that are not written with four digits, or that [Date.UTC] takes
    for those of the twentieth century. *)
Lemma iso_date_unread t : ~ (100 <= getUTCFullYear t <= 9999) -> parseDateString (Some (iso_date t)) = None.
Proof.
  intros N. destruct (Z.lt_ge_cases (getUTCFullYear t) 0) as [L|L].
  { unfold iso_date, iso_year, slice_to. rewrite (proj2 (Z.leb_gt 0 _)), (proj2 (Z.ltb_lt _ 0)) by lia.
    change (js "-") with [45%N]. cbn [andb app firstn]. by apply parseDateString_other. }
  destruct (Z.le_gt_cases (getUTCFullYear t) 9999) as [U|U].
  - pose proof (civil_of_time t) as C. pose proof (civil_date_range _ _ _ C).
    assert (0 <= getUTCMonth t <= 11) by (destruct C; lia). rewrite iso_date_eq by lia.
    fold (ymd_text (getUTCFullYear t) (getUTCMonth t + 1) (getUTCDate t)).
    destruct (parseDateString _) as [s|] eqn:E; [|done]. exfalso.
    assert (X : exists c r, ymd_text (getUTCFullYear t) (getUTCMonth t + 1) (getUTCDate t) = c :: r)
      by (unfold ymd_text; rewrite pad_4 by lia; by eexists _, _).
    destruct X as (c & r & Q). unfold parseDateString in E. rewrite Q in E.
    fold (date_match (trim (c :: r))) in E. rewrite <- Q, date_match_ymd_text in E by lia. cbv zeta in E.
    rewrite digits_val_pad_4, !digits_val_pad_2 in E by lia.
    destruct (negb _ || _ || _) eqn:K; [done|].
    apply (date_check (getUTCFullYear t) (getUTCMonth t + 1) (getUTCDate t)) in K as [K _]; lia.
  - unfold iso_date, iso_year, slice_to. rewrite (proj2 (Z.leb_gt _ 9999)), (proj2 (Z.ltb_ge _ 0)), andb_false_r by lia.
    change (js "+") with [43%N]. cbn [app firstn]. by apply parseDateString_other.
Qed.

Lemma normalizeDateOnly_day t : day (normalizeDateOnly t) = day t.
Proof.
  unfold normalizeDateOnly. destruct (decide (100 <= getUTCFullYear t <= 9999)) as [Y|N].
  - rewrite toDateOnly_formatDateOnly by done. change (day (date_column t) = day t). unfold day, date_column, day. by rewrite Z.div_mul.
  - unfold toDateOnly, formatDateOnly. by rewrite iso_date_unread.
Qed.

Lemma search_date_day t u : day t = day u -> search_date t = search_date u.
Proof. intros E. unfold search_date. f_equal. apply formatDateOnly_day. by rewrite !normalizeDateOnly_day. Qed.

Lemma date_column_normalize t : date_column (normalizeDateOnly t) = date_column t.
Proof. unfold date_column. by rewrite normalizeDateOnly_day. Qed.

Lemma date_column_mono t u : t <= u -> date_column t <= date_column u.
Proof. intros L. unfold date_column, day. apply Z.mul_le_mono_nonneg_r; [done|]. by apply Z.div_le_mono. Qed.

#[export] Hint Rewrite normalizeDateOnly_day date_column_day date_column_normalize date_column_idem : days.

(** ** What the table holds *)

Section guarantees.
Context `{DecimalNumber, !DecimalLaws}.
Context (KOREA_EXIM_API_KEY EXCHANGE_RATE_LOOKBACK_DAYS : option str).
Context (fetch : nat -> str -> str -> response).
Context (clock : nat -> Z) (uuid : nat -> str) (error_message : js_error -> str).

Abbreviation fetchRate' := (fetchRate KOREA_EXIM_API_KEY fetch).
Abbreviation look_back' := (look_back KOREA_EXIM_API_KEY fetch).
Abbreviation upsertRate' := (upsertRate clock uuid).
Abbreviation getUsdKrwRateForDate' :=
  (getUsdKrwRateForDate KOREA_EXIM_API_KEY EXCHANGE_RATE_LOOKBACK_DAYS fetch clock uuid).
Abbreviation ensure_each' := (ensure_each KOREA_EXIM_API_KEY EXCHANGE_RATE_LOOKBACK_DAYS fetch clock uuid).
Abbreviation ensureUsdKrwRatesForDates' :=
  (ensureUsdKrwRatesForDates KOREA_EXIM_API_KEY EXCHANGE_RATE_LOOKBACK_DAYS fetch clock uuid).
Abbreviation ensureUsdKrwRates' :=
  (ensureUsdKrwRates KOREA_EXIM_API_KEY EXCHANGE_RATE_LOOKBACK_DAYS fetch clock uuid error_message).

(** Some time or other the bank answered this rate for the day. *)
Definition published (t : Z) (x : num) : Prop :=
  exists n authKey row, KOREA_EXIM_API_KEY = Some authKey
    /\ read_rate (fetch n authKey (search_date t)) = Ok (Some (x, row)).

(** What the kind of a rate says of the day that it is from. *)
Definition dated_by (kind : ExchangeRateFallbackType) (source date : Z) : Prop :=
  match kind with
  | EXACT => source = date
  | PREVIOUS_AVAILABLE => source <= date
  | LATEST_AVAILABLE => True
  end.

Definition rate_ok (r : ExchangeRate) : Prop :=
  rate_key r = usd_krw (rateDate r) KOREA_EXIM_PROVIDER
  /\ date_column (sourceDate r) = sourceDate r
  /\ dated_by (fallbackType r) (sourceDate r) (rateDate r)
  /\ exists x, published (sourceDate r) x /\ numeric 14 6 (dec_of_num x) = Some (rate r).

Definition ledger_ok (w : World) : Prop :=
  NoDup (map rate_key (exchangeRates w)) /\ Forall rate_ok (exchangeRates w).

(** ** What is stored *)

Definition data_ok (data : RateData) : Prop :=
  d_provider data = KOREA_EXIM_PROVIDER
  /\ dated_by (d_fallbackType data) (date_column (d_sourceDate data)) (date_column (d_rateDate data))
  /\ exists x, published (d_sourceDate data) x
     /\ (d_rate data = dec_of_num x \/ numeric 14 6 (dec_of_num x) = Some (d_rate data)).

Definition answer_ok (p : ProviderRate) : Prop :=
  pr_provider p = KOREA_EXIM_PROVIDER /\ published (pr_date p) (pr_rate p).

Lemma published_day t u x : day t = day u -> published t x -> published u x.
Proof. intros E (n & k & row & K & R). exists n, k, row. by rewrite <- (search_date_day t u E). Qed.

Lemma find_rate_elem k l r : find_rate k l = Some r -> r ∈ l /\ rate_key r = k.
Proof.
  unfold find_rate. intros E%List.find_some. destruct E as [I K%bool_decide_eq_true].
  split; [by apply list_elem_of_In|done].
Qed.

Lemma find_rate_unique l r : NoDup (map rate_key l) -> r ∈ l -> find_rate (rate_key r) l = Some r.
Proof.
  induction l as [|x l IH]; intros D I; [by apply elem_of_nil in I|]. simpl in *.
  apply NoDup_cons in D as [N D]. unfold find_rate. simpl. apply elem_of_cons in I as [->|I].
  - by rewrite bool_decide_eq_true_2.
  - rewrite bool_decide_eq_false_2; [by apply IH|]. intros E. apply N. rewrite E.
    by apply (list_elem_of_fmap_2 rate_key).
Qed.

Lemma find_rate_none k l : find_rate k l = None -> k ∉ map rate_key l.
Proof.
  intros F (r & -> & I)%list_elem_of_fmap. unfold find_rate in F. pose proof (proj1 (find_none_iff _ _) F r I) as Q.
  by apply bool_decide_eq_false in Q.
Qed.

Lemma find_rate_app k l l' r : find_rate k l = Some r -> find_rate k (l ++ l') = Some r.
Proof.
  induction l as [|x l IH]; [done|]. unfold find_rate in *. simpl. by destruct (bool_decide _).
Qed.

Lemma replace_rate_keys k row l : rate_key row = k -> map rate_key (replace_rate k row l) = map rate_key l.
Proof.
  intros K. unfold replace_rate. rewrite map_map. apply map_ext. intros r. case_bool_decide; [by subst|done].
Qed.

Lemma stored_rate data x stored : published (d_sourceDate data) x ->
  d_rate data = dec_of_num x \/ numeric 14 6 (dec_of_num x) = Some (d_rate data) ->
  numeric 14 6 (d_rate data) = Some stored ->
  published (date_column (d_sourceDate data)) x /\ numeric 14 6 (dec_of_num x) = Some stored.
Proof.
  intros P D S. split; [eapply published_day; [|exact P]; by rewrite date_column_day|].
  destruct D as [<-|D]; [done|]. by rewrite (numeric_idem _ _ _ _ D) in S; simplify_eq.
Qed.

Lemma created_ok id data stored t : data_ok data -> numeric 14 6 (d_rate data) = Some stored ->
  rate_ok (created_rate id data stored t).
Proof.
  intros (K & D & x & P & E) S. destruct (stored_rate _ _ _ P E S). unfold rate_ok, rate_key, usd_krw. simpl.
  rewrite !date_column_idem, K. eauto 10.
Qed.

Lemma updated_ok r data stored t : data_ok data -> numeric 14 6 (d_rate data) = Some stored ->
  rate_key r = usd_krw (d_rateDate data) (d_provider data) -> rate_ok (updated_rate r data stored t).
Proof.
  intros (K & D & x & P & E) S Q. destruct (stored_rate _ _ _ P E S). unfold rate_ok, rate_key, usd_krw in *. simpl.
  injection Q as -> -> -> ->. rewrite !date_column_idem, K. eauto 10.
Qed.

Lemma provider_data_ok date p kind : answer_ok p ->
  dated_by kind (date_column (pr_date p)) (date_column date) -> data_ok (provider_data date p kind).
Proof.
  intros [K P] D. unfold data_ok. simpl. rewrite !date_column_normalize. split; [done|]. split; [done|].
  exists (pr_rate p). split; [|by left]. eapply published_day; [|exact P]. by rewrite normalizeDateOnly_day.
Qed.

Lemma fallback_data_ok date r e : rate_ok r -> data_ok (fallback_data date r e).
Proof.
  intros (K & C & _ & x & P & E). unfold data_ok. simpl. rewrite !date_column_normalize.
  split; [by injection K|]. split; [|exists x; split; [|by right]].
  - destruct (Z.leb_spec (normalizeDateOnly (sourceDate r)) (normalizeDateOnly date)) as [L|]; [|done].
    apply date_column_mono in L. by rewrite !date_column_normalize in L.
  - eapply published_day; [|exact P]. by rewrite normalizeDateOnly_day.
Qed.

(** ** One request

    [same] relates the worlds at two points of a request between which it only
    reads and asks the bank; [rely] is what the other requests do meanwhile. *)

Section request.
Context (faulty : bool) (rely guar same : relation World) `{!PreOrder same}.
Context (rely_same : forall w w', rely w w' -> same w w').
Context (tick_same : forall w, same w (tick w)).
Context (guar_refl : forall w, guar w w) (tick_guar : forall w, guar w (tick w)).

Abbreviation safely := (safe faulty ledger_ok rely guar).

(** The program only reads and asks, and its answer is as described. *)
Definition calm {A} (m : prog World A) (P : result A -> Prop) : Prop :=
  forall w, safely m (fun r w' => same w w' /\ P r) w.

Lemma calm_bind {A B} (m : prog World A) P (f : A -> prog World B) (Q : result B -> World -> Prop) w :
  calm m P ->
  (forall r w', same w w' -> P r -> match r with Ok a => safely (f a) Q w' | Throws e => Q (Throws e) w' end) ->
  safely (bind m f) Q w.
Proof. intros C F. apply safe_bind. eapply safe_mono; [apply C|]. intros r w' [S R]. by apply F. Qed.

Lemma calm_get {A B} (f : World -> A) (k : A -> prog World B) (Q : result B -> World -> Prop) w :
  (forall w', same w w' -> ledger_ok w' -> safely (k (f w')) Q w') ->
  (forall e w', same w w' -> Q (Throws e) w') ->
  safely (bind (call (tx_get f)) k) Q w.
Proof.
  intros K E. apply safe_bind, safe_call. intros w1 R L. apply rely_same in R. split; [auto|]. simpl.
  split; [done|]. split; [done|]. split; [by apply K|auto].
Qed.

Lemma calm_fetchRate date :
  calm (fetchRate' date) (fun r => forall p, r = Ok (Some p) -> answer_ok p /\ date_column (pr_date p) = date_column date).
Proof.
  intros w. unfold ExchangeRates.fetchRate.
  destruct KOREA_EXIM_API_KEY as [[|c authKey]|] eqn:Key; try by apply safe_throw.
  destruct (negb (valid_time date)); [by apply safe_throw|].
  apply safe_bind, safe_call. intros w1 R L. apply rely_same in R. split; [done|].
  split; [done|]. split; [done|]. split; [|by split; [etransitivity|]].
  set (parsed := read_rate _). destruct parsed as [[[x row]|]|e] eqn:E; simpl; [|by split; [etransitivity|]..].
  split; [by etransitivity|]. intros p [= <-]. split; [|apply date_column_normalize].
  split; [done|]. apply (published_day date); [symmetry; apply normalizeDateOnly_day|].
  exists (ticks w1), (c :: authKey), row. by rewrite Key.
Qed.

Lemma calm_look_back n daysAgo base : 0 <= daysAgo ->
  calm (look_back' n daysAgo base)
    (fun r => forall p, r = Ok (Some p) -> answer_ok p /\ date_column (pr_date p) <= date_column base).
Proof.
  revert daysAgo. induction n as [|n IH]; intros daysAgo L w; [by apply safe_ret|]. simpl.
  eapply calm_bind; [apply calm_fetchRate|]. intros r w' S P. destruct r as [[p|]|e]; [|..|done].
  - apply safe_ret. split; [done|]. intros q [= <-]. destruct (P p eq_refl) as [A E]. split; [done|].
    rewrite E. apply date_column_mono. unfold addDays. lia.
  - eapply safe_mono; [apply IH; lia|]. intros r w2 [S2 P2]. split; [by etransitivity|done].
Qed.

Lemma calm_attempt {A} (m : prog World A) P : calm m P ->
  calm (attempt m) (fun r => exists r', r = Ok r' /\ P r').
Proof.
  intros C w. unfold attempt. apply safe_catch, safe_bind. eapply safe_mono; [apply C|].
  intros [a|e] w' [S R]; apply safe_ret; eauto.
Qed.

Lemma head_sorted l r : head (js_sort latest_first l) = Some r -> r ∈ l.
Proof. intros E. apply (elem_of_js_sort latest_first). destruct (js_sort _ l); [done|]. injection E as ->. by left. Qed.

Section outcome.
Context (date : Z) (Q : result ExchangeRate -> World -> Prop) (start : World) (missing : Prop).
Context (refused : forall e w, same start w -> Q (Throws e) w).
Context (stored : forall data w, missing -> same start w -> data_ok data -> date_column (d_rateDate data) = date_column date ->
  safely (call (upsertRate' data)) Q w).

Lemma safe_fallback d s e w : missing -> same start w -> rate_ok s -> date_column d = date_column date ->
  safely (upsertStoredFallbackRate clock uuid d s e) Q w.
Proof.
  intros M S R D. apply stored; [done|done|by apply fallback_data_ok|]. simpl. by rewrite date_column_normalize.
Qed.

Lemma safe_latest_stored d e w : missing -> same start w -> date_column d = date_column date ->
  safely (latest_stored_or_unavailable clock uuid d e) Q w.
Proof.
  intros M S D. apply calm_get; [|intros e' w' S'; apply refused; by etransitivity].
  intros w' S' [_ L]. destruct (head _) as [s|] eqn:E; [|apply safe_throw, refused; by etransitivity].
  apply head_sorted, elem_of_filterb in E as [E _]. apply safe_fallback; [done|by etransitivity| |done].
  rewrite Forall_forall in L. by apply L.
Qed.

Lemma safe_provider d p kind w : missing -> same start w -> answer_ok p -> date_column d = date_column date ->
  dated_by kind (date_column (pr_date p)) (date_column date) -> safely (upsertProviderRate clock uuid d p kind) Q w.
Proof.
  intros M S A D K. apply stored; [done|done|apply provider_data_ok; [done|by rewrite D]|]. simpl. by rewrite date_column_normalize.
Qed.

(** Every way in which the rate of a day is found and stored. *)
Lemma safe_get :
  (forall r w, same start w -> find_rate (usd_krw date KOREA_EXIM_PROVIDER) (exchangeRates w) = Some r -> Q (Ok r) w) ->
  ((exists w, same start w /\ find_rate (usd_krw date KOREA_EXIM_PROVIDER) (exchangeRates w) = None) -> missing) ->
  safely (getUsdKrwRateForDate' date) Q start.
Proof.
  intros found lacks. unfold ExchangeRates.getUsdKrwRateForDate. set (d := normalizeDateOnly date).
  assert (D : date_column d = date_column date) by (by subst d; rewrite date_column_normalize).
  apply calm_get; [|auto]. intros w1 S1 L1.
  assert (U : usd_krw (normalizeDateOnly d) KOREA_EXIM_PROVIDER = usd_krw date KOREA_EXIM_PROVIDER)
    by (unfold usd_krw; by rewrite date_column_normalize, D).
  rewrite U. destruct (find_rate _ _) as [r|] eqn:F; [by apply safe_ret, found|].
  assert (M : missing) by eauto.
  eapply calm_bind; [apply calm_attempt, (calm_fetchRate (normalizeDateOnly d))|].
  intros r w2 S2 (r' & -> & P). assert (S : same start w2) by (by etransitivity).
  destruct r' as [[p|]|e]; [|..|by apply safe_latest_stored].
  { destruct (P p eq_refl) as [A E]. apply safe_provider; [done|done|done|done|]. simpl. by rewrite E, date_column_normalize. }
  eapply calm_bind; [apply calm_attempt, (calm_look_back _ 1 (normalizeDateOnly d)); lia|].
  clear P. intros r w3 S3 (r' & -> & P). assert (S' : same start w3) by (by etransitivity).
  destruct r' as [[p|]|e]; [|..|by apply safe_latest_stored].
  { destruct (P p eq_refl) as [A E]. apply safe_provider; [done|done|done|done|]. simpl.
    by rewrite date_column_normalize, D in E. }
  apply calm_get; [|intros e w4 S4; apply refused; by etransitivity].
  intros w4 S4 [_ L4]. assert (S5 : same start w4) by (by etransitivity). destruct (head _) as [s|] eqn:E.
  { apply head_sorted, elem_of_filterb in E as [E _]. rewrite Forall_forall in L4. apply safe_fallback; auto. }
  assert (C : calm (fetchLatestRateFromProvider KOREA_EXIM_API_KEY EXCHANGE_RATE_LOOKBACK_DAYS fetch clock)
                (fun r => forall p, r = Ok (Some p) -> answer_ok p)).
  { intros w. apply safe_bind, safe_look; [done|]. intros w5 R5 L5. apply rely_same in R5.
    eapply safe_mono; [by apply calm_look_back|]. intros r w6 [S6 P6]. split; [by etransitivity|].
    intros p Ep. by destruct (P6 p Ep). }
  eapply calm_bind; [apply calm_attempt, C|]. clear P. intros r w5 S6 (r' & -> & P).
  assert (S7 : same start w5) by (by etransitivity).
  destruct r' as [[p|]|e]; [by apply safe_provider; auto|by apply safe_throw, refused|by apply safe_latest_stored].
Qed.
End outcome.
End request.

(** ** All requests together *)

(** A rate that is stored stays the rate of its day, though its amount may be
    replaced by a request that was looking for it at the same time. *)
Definition kept (w w' : World) : Prop :=
  forall r, r ∈ exchangeRates w -> exists r', r' ∈ exchangeRates w' /\ er_id r' = er_id r /\ rate_key r' = rate_key r.

#[export] Instance kept_preorder : PreOrder kept.
Proof.
  split; [intros w r I; eauto|]. intros w1 w2 w3 K1 K2 r I. destruct (K1 r I) as (r2 & I2 & E2 & Q2).
  destruct (K2 r2 I2) as (r3 & I3 & E3 & Q3). exists r3. by rewrite E3, Q3.
Qed.

(** What the requests that do not concern rates may do. *)
Definition others (w w' : World) : Prop := exchangeRates w' = exchangeRates w.

Lemma others_kept w w' : others w w' -> kept w w'.
Proof. intros E r I. exists r. by rewrite E. Qed.

Lemma others_ok w w' : others w w' -> ledger_ok w -> ledger_ok w'.
Proof. unfold ledger_ok. by intros ->. Qed.

Inductive exchange_request : prog World unit -> Prop :=
  | get_request date : exchange_request (await _ := getUsdKrwRateForDate' date in Ret tt)
  | ensure_request dates : exchange_request (await _ := ensureUsdKrwRatesForDates' dates in Ret tt)
  | upload_request batchId dates : exchange_request (ensureUsdKrwRates' batchId dates).

Lemma upsert_ledger data w r w' : data_ok data -> ledger_ok w -> upsertRate' data w = Ok (r, w') ->
  ledger_ok w' /\ kept w w'.
Proof.
  intros D [U L] E. unfold ExchangeRates.upsertRate in E. destruct (numeric _ _ _) as [stored|] eqn:N; [|done].
  destruct (find_rate _ _) as [x|] eqn:F; injection E as <- <-; simpl.
  - apply find_rate_elem in F as [I K]. set (row := updated_rate _ _ _ _).
    assert (Kr : rate_key row = usd_krw (d_rateDate data) (d_provider data)) by (by rewrite <- K).
    split; [split|]; simpl.
    + by rewrite replace_rate_keys.
    + apply Forall_map. eapply Forall_impl; [exact L|]. intros y Y. case_bool_decide; [by apply updated_ok|done].
    + intros y Y. assert (V : (if bool_decide (rate_key y = usd_krw (d_rateDate data) (d_provider data)) then row else y)
                            ∈ replace_rate (usd_krw (d_rateDate data) (d_provider data)) row (exchangeRates w))
        by (apply list_elem_of_In, in_map_iff; exists y; by rewrite list_elem_of_In in Y).
      eexists. split; [exact V|]. case_bool_decide as B; [|done].
      assert (y = x) as ->; [|done]. pose proof (find_rate_unique _ _ U Y) as F1. pose proof (find_rate_unique _ _ U I) as F2.
      rewrite B, <- K in F1. rewrite F1 in F2. by simplify_eq.
  - apply find_rate_none in F. split; [split|]; simpl.
    + rewrite map_app. apply NoDup_app. split; [done|]. split; [|apply NoDup_singleton].
      intros k Ik ->%list_elem_of_singleton. by apply F.
    + apply Forall_app. split; [done|]. apply Forall_singleton. by apply created_ok.
    + intros y Y. exists y. split; [by apply elem_of_app; left|done].
Qed.

Abbreviation safely := (safe true ledger_ok kept kept).

Lemma get_safely date w : safely (getUsdKrwRateForDate' date) (fun _ _ => True) w.
Proof.
  apply (safe_get true kept kept kept) with (missing := True); try done; try (intros; by apply others_kept).
  intros data w1 _ _ D _. apply safe_call. intros w2 _ L. split; [done|].
  destruct (upsertRate' data w2) as [[r w3]|e] eqn:E; [|done].
  by destruct (upsert_ledger data w2 r w3 D L E).
Qed.

Lemma ensure_each_safely keys : forall rates w, safely (ensure_each' keys rates) (fun _ _ => True) w.
Proof.
  induction keys as [|k keys IH]; intros rates w; [by apply safe_ret|]. cbn [ExchangeRates.ensure_each].
  destruct (toDateOnly (Some k)) as [d|]; [|apply IH]. apply safe_bind. eapply safe_mono; [apply get_safely|].
  by intros [row|e] w' _.
Qed.

Lemma exchange_safely h w : exchange_request h -> safely h (fun _ _ => True) w.
Proof.
  assert (T : forall A (m : prog World A) w, safely m (fun _ _ => True) w -> safely (await _ := m in Ret tt) (fun _ _ => True) w).
  { intros A m v S. apply safe_bind. eapply safe_mono; [exact S|]. by intros [a|e] v' _. }
  intros [date|dates|batchId dates]; [apply T, get_safely|apply T, ensure_each_safely|].
  unfold ExchangeRates.ensureUsdKrwRates. destruct dates as [|t dates]; [by apply safe_ret|].
  apply safe_catch. eapply safe_mono; [apply T, ensure_each_safely|].
  intros [a|e] v _; [done|].
  apply safe_bind, safe_call. intros v1 _ L1. split; [done|]. split; [by eapply others_ok; [|exact L1]|].
  split; [by apply others_kept|]. split; [|done].
  apply safe_bind, safe_call. intros v2 _ L2. split; [done|]. unfold failBatch.
  destruct (existsb _ _); [|done]. split; [by eapply others_ok; [|exact L2]|]. split; [by apply others_kept|]. by split.
Qed.

(** C30: However the requests for rates interleave, fail and are repeated, and
    whatever the bank answers meanwhile: every day has at most one stored rate;
    a rate is one that the bank gave for the day stored as its source, rounded
    as the column rounds, also when it was copied from the rate of another day;
    an exact rate is from the day itself and a previous one not from a later
    day; and a stored rate is never removed. *)
Theorem rates_are_published w s s' :
  ledger_ok w ->
  rtc (system_step exchange_request others) (w, []) s ->
  rtc (system_step exchange_request others) s s' ->
  ledger_ok s.1 /\ kept s.1 s'.1.
Proof.
  intros L R R'.
  assert (E : forall w w', ledger_ok w -> others w w' -> ledger_ok w' /\ kept w w')
    by (intros; split; [by eapply others_ok|by apply others_kept]).
  assert (Hs : forall h w, exchange_request h -> ledger_ok w -> safely h (fun _ _ => True) w)
    by (intros; by apply exchange_safely).
  assert (Gr : forall w, kept w w) by reflexivity.
  assert (Gk : forall w w', ledger_ok w -> ledger_ok w' -> kept w w' -> kept w w') by done.
  split; [by eapply (reachable_invariant _ _ ledger_ok kept kept Gr Gk E Hs w)|].
  eapply (reachable_closure _ _ ledger_ok kept kept Gr Gk E Hs kept w); [done| |done|done].
  intros w1 w2 _ _ [K|O]; [done|by apply others_kept].
Qed.

(** ** A request alone *)

Definition same_rates (w w' : World) : Prop := exchangeRates w = exchangeRates w'.

#[export] Instance same_rates_preorder : PreOrder same_rates.
Proof. split; [done|]. intros w1 w2 w3. apply eq_trans. Qed.

(** Rates were added, for the given days. *)
Definition added_for (days : list Z) (w w' : World) : Prop :=
  exists added, exchangeRates w' = exchangeRates w ++ added /\ Forall (fun r => rateDate r ∈ days) added.

Lemma added_same days w w' : same_rates w w' -> added_for days w w'.
Proof. intros E. exists []. by rewrite app_nil_r, E. Qed.

Lemma added_trans days w1 w2 w3 : added_for days w1 w2 -> added_for days w2 w3 -> added_for days w1 w3.
Proof.
  intros (a & E & F) (b & E' & F'). exists (a ++ b). rewrite E', E, app_assoc. split; [done|]. by apply Forall_app.
Qed.

Lemma added_find days w w' k r : added_for days w w' ->
  find_rate k (exchangeRates w) = Some r -> find_rate k (exchangeRates w') = Some r.
Proof. intros (a & -> & _). apply find_rate_app. Qed.

(** The stored rate of a day. *)
Definition rate_of (w : World) (d : Z) : option ExchangeRate :=
  find_rate (usd_krw d KOREA_EXIM_PROVIDER) (exchangeRates w).

Abbreviation alone := (safe true ledger_ok eq (fun _ _ => True)).

Lemma get_alone date days w : date_column date ∈ days ->
  alone (getUsdKrwRateForDate' date)
    (fun r w' => added_for days w w' /\ forall row, r = Ok row -> rate_of w' date = Some row) w.
Proof.
  intros D. apply (safe_get true eq (fun _ _ => True) same_rates) with (missing := rate_of w date = None).
  - by intros w1 w2 <-.
  - done.
  - done.
  - done.
  - intros e w1 S. split; [by apply added_same|done].
  - intros data w1 M S K E. apply safe_call. intros w2 <- L. split; [split; [by apply added_same|done]|].
    destruct (upsertRate' data w1) as [[r w3]|e] eqn:U; [|split; [by apply added_same|done]].
    destruct (upsert_ledger data w1 r w3 K L U) as [L3 _]. split; [done|]. split; [done|].
    assert (A : added_for days w w3 /\ rate_of w3 date = Some r).
    { unfold ExchangeRates.upsertRate in U. destruct (numeric _ _ _) as [stored|]; [|done].
      destruct K as [Kp _]. assert (Q : usd_krw (d_rateDate data) (d_provider data) = usd_krw date KOREA_EXIM_PROVIDER)
        by (unfold usd_krw; by rewrite E, Kp).
      unfold rate_of in M. rewrite S in M. rewrite Q, M in U. injection U as <- <-. split.
      - eexists. simpl. rewrite S. split; [done|]. apply Forall_singleton. simpl. by rewrite E.
      - assert (R : rate_key (created_rate (uuid (ticks w1)) data stored (now clock w1)) = usd_krw date KOREA_EXIM_PROVIDER)
          by (unfold rate_key, usd_krw; simpl; by rewrite E, Kp).
        unfold rate_of. rewrite <- R. apply find_rate_unique; [apply L3|]. simpl. apply elem_of_app. right. by left. }
    destruct A as [A F]. split; [split; [done|by intros row [= <-]]|done].
  - intros r w1 S F. split; [by apply added_same|]. by intros row [= <-].
  - intros (w1 & S & F). unfold rate_of. by rewrite S.
Qed.

(** The rates of the days that a request asks about, as they are stored. *)
Fixpoint stored_rates (keys : list str) (m : list (str * ExchangeRate)) (w : World) : option (list (str * ExchangeRate)) :=
  match keys with
  | [] => Some m
  | k :: r =>
      match toDateOnly (Some k) with
      | None => stored_rates r m w
      | Some d => match rate_of w d with Some row => stored_rates r (map_set m k row) w | None => None end
      end
  end.

Definition days_of (keys : list str) : list Z :=
  omap (fun k => date_column <$> toDateOnly (Some k)) keys.

Lemma stored_rates_added days keys m w w' m' : added_for days w w' ->
  stored_rates keys m w = Some m' -> stored_rates keys m w' = Some m'.
Proof.
  intros A. revert m. induction keys as [|k keys IH]; intros m; [done|]. simpl.
  destruct (toDateOnly (Some k)) as [d|]; [|apply IH]. unfold rate_of. destruct (find_rate _ (exchangeRates w)) as [row|] eqn:F; [|done].
  rewrite (added_find days w w' _ row A F). apply IH.
Qed.

Lemma ensure_each_alone days keys : (forall d, d ∈ days_of keys -> d ∈ days) -> forall m w,
  alone (ensure_each' keys m)
    (fun r w' => added_for days w w' /\ forall m', r = Ok m' -> stored_rates keys m w' = Some m') w.
Proof.
  induction keys as [|k keys IH]; intros D m w.
  { apply safe_ret. split; [by apply added_same|]. by intros m' [= <-]. }
  cbn [ExchangeRates.ensure_each stored_rates]. unfold days_of in D. simpl in D.
  destruct (toDateOnly (Some k)) as [d|]; simpl in D; [|by apply IH].
  apply safe_bind. eapply safe_mono; [apply (get_alone d days); apply D; by left|].
  intros [row|e] w1 [A F]; [|done].
  eapply safe_mono; [apply IH; intros x X; apply D; by right|]. intros r w2 [A2 F2].
  split; [by eapply added_trans|]. intros m' E. unfold rate_of in *. rewrite (added_find days w1 w2 _ row A2); [by apply F2|]. by apply F.
Qed.

Lemma day_read_back t d : toDateOnly (Some (formatDateOnly t)) = Some d -> date_column d = date_column t.
Proof.
  destruct (decide (100 <= getUTCFullYear t <= 9999)) as [Y|N].
  - rewrite toDateOnly_formatDateOnly by done. intros [= <-]. apply date_column_idem.
  - unfold toDateOnly, formatDateOnly. by rewrite iso_date_unread.
Qed.

Lemma elem_of_uniqueDates k dates : k ∈ uniqueDates dates <-> exists t, k = formatDateOnly t /\ t ∈ dates.
Proof. unfold uniqueDates. rewrite elem_of_js_sort, elem_of_js_unique. apply list_elem_of_fmap. Qed.

Lemma days_of_uniqueDates dates d : d ∈ days_of (uniqueDates dates) -> d ∈ map date_column dates.
Proof.
  unfold days_of. intros (k & K & E)%list_elem_of_omap. apply elem_of_uniqueDates in K as (t & -> & I).
  destruct (toDateOnly _) as [u|] eqn:U; [|done]. injection E as <-. rewrite (day_read_back t u U).
  by apply (list_elem_of_fmap_2 date_column).
Qed.

(** A map with the stored rate under the text of each day. *)
Definition agrees (m : list (str * ExchangeRate)) (w : World) : Prop :=
  forall k row d, map_get m k = Some row -> toDateOnly (Some k) = Some d -> rate_of w d = Some row.

Lemma stored_rates_get keys w : forall m m', agrees m w -> stored_rates keys m w = Some m' ->
  agrees m' w
  /\ forall k, is_Some (map_get m k) \/ k ∈ keys /\ is_Some (toDateOnly (Some k)) -> is_Some (map_get m' k).
Proof.
  induction keys as [|x keys IH]; intros m m' A; simpl.
  { intros [= <-]. split; [done|]. by intros k [?|[[]%elem_of_nil _]]. }
  destruct (toDateOnly (Some x)) as [d|] eqn:D.
  - destruct (rate_of w d) as [row|] eqn:R; [|done]. intros [A' F]%IH; [split; [done|]|].
    + intros k [K|[[->|K]%elem_of_cons T]]; [|apply F; left; by rewrite map_get_set_eq|apply F; by right].
      apply F. left. rewrite map_get_set. by case_decide.
    + intros k row' d'. rewrite map_get_set. case_decide as E; [|by apply A].
      subst. intros [= <-]. rewrite D. by intros [= <-].
  - intros [A' F]%IH; [|done]. split; [done|]. intros k [K|[[->|K]%elem_of_cons T]]; [apply F; by left| |apply F; by right].
    rewrite D in T. by destruct T.
Qed.

Lemma run_stored key lookback fetch' clock' uuid' keys w : forall m m', stored_rates keys m w = Some m' ->
  run [] (ExchangeRates.ensure_each key lookback fetch' clock' uuid' keys m) w = (Ok m', w).
Proof.
  induction keys as [|k keys IH]; intros m m'; cbn [stored_rates ExchangeRates.ensure_each]; [by intros [= <-]|].
  destruct (toDateOnly (Some k)) as [d|]; [|apply IH].
  destruct (rate_of w d) as [row|] eqn:R; [|done]. intros E. rewrite run_bind.
  unfold ExchangeRates.getUsdKrwRateForDate. rewrite run_bind, run_call.
  unfold findStoredRateForDate, tx_get, usd_krw. rewrite !date_column_normalize.
  unfold rate_of, usd_krw in R. rewrite R. by apply IH.
Qed.

(** C31: A request for the rates of some days that runs alone, whichever of its
    calls fail: the rates that were stored stay as they are, and those it adds
    are for days it was asked about.  When it succeeds there is a stored rate
    for each of these days, and from then on, whatever other rates are added,
    the bank answers or the configuration says, the same request is answered
    with the same rates and changes nothing. *)
Theorem ensured_rates_stand dates script w :
  ledger_ok w ->
  let '(answer, w') := run script (ensureUsdKrwRatesForDates' dates) w in
  added_for (map date_column dates) w w'
  /\ forall rates, answer = Ok rates ->
     (forall t, t ∈ dates -> 100 <= getUTCFullYear t <= 9999 ->
        exists row, map_get rates (formatDateOnly t) = Some row
          /\ row ∈ exchangeRates w' /\ rateDate row = date_column t)
     /\ forall key lookback fetch' clock' uuid' w2,
          exchangeRates w' `prefix_of` exchangeRates w2 ->
          run [] (ExchangeRates.ensureUsdKrwRatesForDates key lookback fetch' clock' uuid' dates) w2 = (Ok rates, w2).
Proof.
  intros L.
  pose proof (ensure_each_alone _ _ (days_of_uniqueDates dates) [] w) as S.
  apply (safe_run true ledger_ok (fun _ _ => True) _ _ script w) in S as [[A F] _]; [|done|by left].
  unfold ExchangeRates.ensureUsdKrwRatesForDates. destruct (run script _ w) as [answer w']. simpl in *.
  split; [done|]. intros rates E. specialize (F rates E).
  destruct (stored_rates_get (uniqueDates dates) w' [] rates) as [G T]; [done|done|]. split.
  - intros t I Y. assert (D : toDateOnly (Some (formatDateOnly t)) = Some (date_column t))
      by (by rewrite toDateOnly_formatDateOnly).
    destruct (T (formatDateOnly t)) as [row R].
    { right. split; [apply elem_of_uniqueDates; eauto|by rewrite D]. }
    exists row. split; [done|]. pose proof (G _ _ _ R D) as Q. apply find_rate_elem in Q as [J K].
    split; [done|]. unfold rate_key, usd_krw in K. injection K as -> _ _ _. apply date_column_idem.
  - intros key lookback fetch' clock' uuid' w2 [added P]. apply run_stored.
    apply (stored_rates_added (map rateDate added) _ _ w'); [|done]. exists added. split; [done|].
    apply Forall_forall. intros r I. by apply (list_elem_of_fmap_2 rateDate).
Qed.
End guarantees.

(** Two requests that do not overlap are one of the interleavings. *)
Lemma one_after_another {W R} (handlers : prog W R -> Prop) env m1 m2 w : handlers m1 -> handlers m2 ->
  rtc (system_step handlers env) (w, [])
    ((run [] m2 (run [] m1 w).2).2, [of_result (run [] m1 w).1; of_result (run [] m2 (run [] m1 w).2).1]).
Proof.
  intros H1 H2. eapply rtc_l; [by apply (sys_request _ _ _ [] m1)|].
  etransitivity; [apply (run_reachable _ _ m1 [] w [] [])|].
  eapply rtc_l; [by apply (sys_request _ _ _ _ m2)|]. apply (run_reachable _ _ m2 [] _ [_] []).
Qed.

(** ** An example

    The bank has a rate for Friday the 23rd of January 2026 and does not answer
    for days before; a request on Saturday takes that of Friday, and one for the
    first of January takes the stored one, as the bank fails. *)

Section example.
#[local] Existing Instance fixed.

Definition friday : json := JObj [(js "cur_unit", JStr (js "USD")); (js "deal_bas_r", JStr (js "1,371.5"))].

Definition example_bank (n : nat) (authKey searchDate : str) : response :=
  if str_eqb searchDate (js "20260124") then Answer 200 (Some (JArr []))
  else if str_eqb searchDate (js "20260123") then Answer 200 (Some (JArr [JObj [(js "cur_unit", JStr (js "JPY(100)"))]; friday]))
  else Answer 500 None.

Definition example_day (s : str) : Z := date_of_iso s.
Definition example_dates : list Z := [example_day (js "2026-01-24") + 3600000; example_day (js "2026-01-01")].

Definition example_clock (n : nat) : Z := example_day (js "2026-01-25") + Z.of_nat n.
Definition example_uuid (n : nat) : str := digits_of 20 (Z.of_nat n).

Definition example_world : World := {| exchangeRates := []; uploadBatches := []; uploadRowErrors := []; ticks := 0 |}.

Definition example_ensure (dates : list Z) : prog World (list (str * ExchangeRate)) :=
  ensureUsdKrwRatesForDates (Some (js "key")) None example_bank example_clock example_uuid dates.

Definition example_request (dates : list Z) : prog World unit := await _ := example_ensure dates in Ret tt.

(** The code of a refusal, or the stored rates. *)
Definition example_outcome (x : result unit * World) : str * list (str * str * Z * ExchangeRateFallbackType) :=
  (match x.1 with Ok _ => js "ok" | Throws e => err_code e end,
   map (fun r => (formatDateOnly (rateDate r), formatDateOnly (sourceDate r), rate r, fallbackType r)) (exchangeRates x.2)).

(** The first of January comes first, and nothing is stored yet. *)
Example example_refused :
  example_outcome (run [] (example_request example_dates) example_world) = (js "EXCHANGE_RATE_UNAVAILABLE", []).
Proof. vm_compute. reflexivity. Qed.

Definition saturday : list Z := [example_day (js "2026-01-24")].
Definition example_friday : World := (run [] (example_request saturday) example_world).2.

Example example_rates :
  example_outcome (run [] (example_request example_dates) example_friday)
  = (js "ok", [(js "2026-01-24", js "2026-01-23", 1371500000, PREVIOUS_AVAILABLE);
               (js "2026-01-01", js "2026-01-23", 1371500000, LATEST_AVAILABLE)]).
Proof. vm_compute. reflexivity. Qed.

Lemma example_ledger_ok : ledger_ok (Some (js "key")) example_bank example_world.
Proof. split; [apply NoDup_nil_2|apply Forall_nil_2]. Qed.

Lemma ensured_rates_stand_witness :
  exists rates w, run [] (example_ensure saturday) example_world = (Ok rates, w)
  /\ (formatDateOnly <$> (sourceDate <$> map_get rates (js "2026-01-24"))) = Some (js "2026-01-23")
  /\ run [] (ensureUsdKrwRatesForDates None None (fun _ _ _ => Unreachable) example_clock example_uuid saturday) w = (Ok rates, w).
Proof.
  pose proof (@ensured_rates_stand fixed fixed_laws (Some (js "key")) None example_bank example_clock example_uuid
    saturday [] example_world example_ledger_ok) as T. fold (example_ensure saturday) in T.
  assert (F : match (run [] (example_ensure saturday) example_world).1 with
              | Ok rates => formatDateOnly <$> (sourceDate <$> map_get rates (js "2026-01-24"))
              | Throws _ => None end = Some (js "2026-01-23")) by (vm_compute; reflexivity).
  destruct (run [] (example_ensure saturday) example_world) as [[rates|e] w]; [|discriminate F].
  exists rates, w. split; [reflexivity|]. split; [exact F|]. destruct T as [_ T]. by apply (T rates eq_refl).
Defined.

Lemma rates_are_published_witness :
  let w := (run [] (example_request example_dates) example_friday).2 in
  ledger_ok (Some (js "key")) example_bank w /\ length (exchangeRates w) = 2%nat.
Proof.
  split; [|vm_compute; reflexivity].
  pose (sent := fun dates => @ensure_request fixed (Some (js "key")) None example_bank example_clock example_uuid
    (fun _ => js "failed") dates).
  exact (proj1 (@rates_are_published fixed fixed_laws (Some (js "key")) None example_bank example_clock example_uuid
    (fun _ => js "failed") example_world _ _ example_ledger_ok
    (one_after_another _ others (example_request saturday) (example_request example_dates) example_world
      (sent saturday) (sent example_dates)) (rtc_refl _ _))).
Defined.
End example.
