(* ===== verification/RequestSecurity.v ===== *)
(** * The security of HTTP requests

    auth/request-security.service.ts and auth/cookie.service.ts: where a
    request comes from, the tokens in its cookies and how often a client may
    ask; and the global guards of auth/auth.module.ts, which every request
    passes before its handler: http-security.guard.ts, authentication.guard.ts,
    authenticated-mutation-rate.guard.ts, internal-probe.guard.ts and
    permission.guard.ts.

    A server has the table of the nonces of the local edge, the limiter of
    [Limits] and the accounts, which the class [Authenticator] gives access to.
    Keyed hashes, SHA-256, Ed25519 and the canonical text of IPv6 addresses are
    parameters. *)

From S2P Require Import Prelude JsNumber JsString.
From S2P Require Import Concurrency.
From S2P Require Import Limits.
From S2P Require Import Access.
From S2P Require Import Users.
From S2P Require Import Auth.
From S2P Require Import LocalCredentials.
From S2P Require Import LocalAccounts.
From S2P Require Import UploadText.

Local Open Scope Z_scope.

(** ** Texts *)

(** The bytes of a text in UTF-8; a lone surrogate becomes U+FFFD. *)
Definition utf8_of_point (c : N) : list N :=
  (if c <? 128 then [c]
   else if c <? 2048 then [192 + c / 64; 128 + c mod 64]
   else if is_surrogate c then [239; 191; 189]
   else if c <? 65536 then [224 + c / 4096; 128 + c / 64 mod 64; 128 + c mod 64]
   else [240 + c / 262144; 128 + c / 4096 mod 64; 128 + c / 64 mod 64; 128 + c mod 64])%N.

Definition utf8_bytes (s : str) : list N := flat_map utf8_of_point (code_points s).

(** Both lengths and all bytes agree. *)
Definition safeEqual (left right : str) : bool := bool_decide (utf8_bytes left = utf8_bytes right).

Definition hex_value (c : N) : N := if is_digit c then (c - 48)%N else if (c <? 97)%N then (c - 55)%N else (c - 87)%N.

(** The text of escaped bytes, if they are UTF-8. *)
Definition escaped_text (bytes : list N) : option str :=
  let points := utf8_points utf8_start bytes in
  if forallb (fun p => match p with Some _ => true | None => false end) points
  then Some (concat (map (fun p => match p with Some c => code_units c | None => [] end) points))
  else None.

(** [pending] are the bytes of the escapes just read, the last one first. *)
Fixpoint decode_uri (s : str) (pending : list N) : option str :=
  match s with
  | [] => escaped_text (rev pending)
  | 37%N :: a :: b :: r =>
      if is_hex a && is_hex b then decode_uri r ((16 * hex_value a + hex_value b)%N :: pending) else None
  | 37%N :: _ => None
  | c :: r =>
      match escaped_text (rev pending), decode_uri r [] with
      | Some text, Some rest => Some (text ++ c :: rest)
      | _, _ => None
      end
  end.

Definition decodeURIComponent (s : str) : option str := decode_uri s [].

Example decodeURIComponent_examples :
  map decodeURIComponent (map js ["a%20b"; "%EA%B0%80"; "%E2%82"; "%zz"; "1%2E2"]%string)
  = [Some (js "a b"); Some [44032%N]; None; None; Some (js "1.2")].
Proof. vm_compute. reflexivity. Qed.

(** The parts before and after the first separator. *)
Fixpoint split_first (c : N) (s : str) : option (str * str) :=
  match s with
  | [] => None
  | d :: r => if (d =? c)%N then Some ([], r) else match split_first c r with Some (a, b) => Some (d :: a, b) | None => None end
  end.

(** ** Cookies of a request *)

(** The name and the value of one part of the header. *)
Definition cookie_part (part : str) : option (str * str) :=
  match split_first 61 part with
  | Some ([], _) | None => None
  | Some (name, value) => Some (trim name, trim value)
  end.

(** The first part with the name; one that does not decode is no cookie. *)
Fixpoint first_cookie (parts : list str) (name : str) : option str :=
  match parts with
  | [] => None
  | part :: r =>
      match cookie_part part with
      | Some (n, value) => if str_eqb n name then decodeURIComponent value else first_cookie r name
      | None => first_cookie r name
      end
  end.

Definition parseCookie (header : option str) (name : str) : option str :=
  match header with
  | None | Some [] => None
  | Some header => first_cookie (split_on 59 header) name
  end.

(** [parseCookieHeader(header)[name]]: the last part that decodes. *)
Definition read_cookie (header : option str) (name : str) : option str :=
  match header with
  | None | Some [] => None
  | Some header =>
      fold_left (fun found part =>
        match cookie_part part with
        | Some (n, value) =>
            if str_eqb n name then match decodeURIComponent value with Some v => Some v | None => found end else found
        | None => found
        end) (split_on 59 header) None
  end.

(** ** Requests and routes *)

Record Request := {
  method : option str;
  originalUrl : option str;
  url : option str;
  headers : list (str * str);
  ip : option str;
  remoteAddress : option str;
  localRawBodySha256 : option str;
  localRawBodyDigestComplete : bool;
  localExpectedEdgeBodySha256 : option str;
  authenticatedUser : option AuthenticatedUser;
  internalProbeAuthorized : bool
}.

Definition expect_body (digest : str) (r : Request) : Request := {|
  method := method r; originalUrl := originalUrl r; url := url r; headers := headers r; ip := ip r;
  remoteAddress := remoteAddress r; localRawBodySha256 := localRawBodySha256 r;
  localRawBodyDigestComplete := localRawBodyDigestComplete r; localExpectedEdgeBodySha256 := Some digest;
  authenticatedUser := authenticatedUser r; internalProbeAuthorized := internalProbeAuthorized r |}.

Definition set_user (u : AuthenticatedUser) (r : Request) : Request := {|
  method := method r; originalUrl := originalUrl r; url := url r; headers := headers r; ip := ip r;
  remoteAddress := remoteAddress r; localRawBodySha256 := localRawBodySha256 r;
  localRawBodyDigestComplete := localRawBodyDigestComplete r; localExpectedEdgeBodySha256 := localExpectedEdgeBodySha256 r;
  authenticatedUser := Some u; internalProbeAuthorized := internalProbeAuthorized r |}.

Definition authorize_probe (r : Request) : Request := {|
  method := method r; originalUrl := originalUrl r; url := url r; headers := headers r; ip := ip r;
  remoteAddress := remoteAddress r; localRawBodySha256 := localRawBodySha256 r;
  localRawBodyDigestComplete := localRawBodyDigestComplete r; localExpectedEdgeBodySha256 := localExpectedEdgeBodySha256 r;
  authenticatedUser := authenticatedUser r; internalProbeAuthorized := true |}.

(** [request.get(name)], with the names in lower case. *)
Definition header (r : Request) (name : str) : option str := map_get (headers r) name.

Inductive RouteAccess := PUBLIC_ROUTE | AUTHENTICATED_ROUTE | PERMISSION_ROUTE | INTERNAL_PROBE_ROUTE.

#[export] Instance RouteAccess_eq_dec : EqDecision RouteAccess.
Proof. solve_decision. Defined.

(** What the decorators of a handler declare. *)
Record Route := { access : option RouteAccess; required : option (list Permission) }.

(** [String(request.method ?? "GET").toUpperCase()]; a method is ASCII. *)
Definition method_of (r : Request) : str := map ascii_upper (method r ?? js "GET").

(** [.replace(/\/{2,}/g, "/")]. *)
Fixpoint single_slashes (s : str) : str :=
  match s with
  | [] => []
  | c :: r => match c, r with
              | 47%N, 47%N :: _ => single_slashes r
              | _, _ => c :: single_slashes r
              end
  end.

Definition or_else (a : option str) (b : str) : str := match a with Some ((_ :: _) as s) => s | _ => b end.

Definition requestPath (r : Request) : str :=
  let raw := or_else (originalUrl r) (or_else (url r) (js "/")) in
  single_slashes (match split_first 63 raw with Some (path, _) => path | None => raw end).

Definition SAFE_METHODS : list str := map js ["GET"; "HEAD"; "OPTIONS"]%string.

Definition AUTH_SECURITY_ROUTES : list str := map js
  ["POST /api/auth/login"; "POST /api/auth/refresh"; "POST /api/auth/logout"; "POST /api/auth/invitations/accept";
   "POST /api/auth/password"]%string.

Definition is_safe_method (r : Request) : bool := existsb (str_eqb (method_of r)) SAFE_METHODS.

(** Routes that check the request themselves. *)
Definition has_own_policy (r : Request) : bool :=
  existsb (str_eqb (method_of r ++ js " " ++ requestPath r)) AUTH_SECURITY_ROUTES
  || starts_with (js "/api/users") (requestPath r).

Definition is_health_probe (r : Request) : bool :=
  str_eqb (requestPath r) (js "/api/health/live") || str_eqb (requestPath r) (js "/api/health/ready").

Definition isExpensiveMutation (path : str) : bool :=
  starts_with (js "/api/uploads/") path || str_eqb path (js "/api/sales/cafe24/uploads")
  || starts_with (js "/api/coupang/uploads/") path || ends_with (js "/rematch") path
  || str_eqb path (js "/api/decisions/run") || str_eqb path (js "/api/reports/export").

(** ** Configuration *)

(** The fields of [AuthConfig] that requests are judged by. *)
Record HttpAuthConfig := {
  local_provider : bool;
  cookieSecure : bool;
  cookieNamespace : str;
  sessionHandleSecret : str;
  sessionHandlePreviousSecret : option str;
  authorizationVersionSecret : str;
  csrfSecret : str;
  csrfPreviousSecret : option str;
  csrfTtlMs : Z;
  allowedOrigins : list str;
  production : bool;
  localRateLimitSecret : option str;
  sessionAbsoluteTtlMs : Z
}.

Inductive DeploymentMode := legacy | local_lan | cloud_container.

#[export] Instance DeploymentMode_eq_dec : EqDecision DeploymentMode.
Proof. solve_decision. Defined.

Record HttpSecurityConfig := {
  deploymentMode : DeploymentMode;
  localEdgeProxyPublicKey : option str;
  internalProbeToken : str
}.

Definition forbidden (code : string) : js_error := {| err_status := 403; err_code := js code |}.

(** ** The accounts *)

Class Authenticator (A : Type) := {
  time_of : A -> Z;
  localAuth_authenticateSession : str -> prog A AuthenticatedUser;
  authService_authenticateAccessToken : str -> option Z -> prog A AuthenticatedUser
}.

Section security.
Context {A : Type} `{Authenticator A}.
Context (config : HttpAuthConfig) (http : HttpSecurityConfig).
(** HMAC-SHA-256 under a key, SHA-256, Ed25519 on a key, a message and the text
    of a signature (which throws on some), and the canonical text of an IPv6
    address. *)
Context (hmac : str -> str -> list N) (sha256 : str -> list N).
Context (verify : str -> str -> str -> option bool) (ipv6_hostname : str -> option str).
(** Whether the limiter fails to remove expired buckets at a time. *)
Context (instance : nat) (cleanup_fails : Z -> bool).

(** ** Cookies that the server issues *)

Definition cookie_name (baseName : string) : str :=
  if production config then js "__Host-" ++ cookieNamespace config ++ js "-" ++ js baseName else js baseName.

Definition accessCookieName : str := cookie_name "meta_access".
Definition refreshCookieName : str := cookie_name "meta_refresh".
Definition sessionCookieName : str := cookie_name "meta_session".
Definition csrfCookieName : str := cookie_name "meta_csrf".

Definition SESSION_TTL_MS : Z := 30 * 24 * 60 * 60 * 1000.

Record CookieOptions := { httpOnly : bool; secure : bool; maxAge : option Z }.

(** [response.cookie] and [response.clearCookie]; all have the path "/" and are
    [SameSite=Lax]. *)
Inductive CookieAction :=
  | SetCookie (name value : str) (options : CookieOptions)
  | ClearCookie (name : str) (options : CookieOptions).

Definition baseOptions (httpOnly : bool) : CookieOptions :=
  {| httpOnly := httpOnly; secure := cookieSecure config; maxAge := None |}.

Definition lasting (age : Z) (o : CookieOptions) : CookieOptions :=
  {| httpOnly := httpOnly o; secure := secure o; maxAge := Some age |}.

Definition mac (purpose value secret : str) : str := Base64url.encode (hmac secret (purpose ++ 0%N :: value)).

Definition validMac (purpose value signature current : str) (previous : option str) : bool :=
  existsb (fun secret => safeEqual signature (mac purpose value secret))
    (List.filter truthy (current :: match previous with Some p => [p] | None => [] end)).

Definition signSessionHandle (sessionId : str) : str :=
  sessionId ++ js "." ++ mac (js "session") sessionId (sessionHandleSecret config).

Definition csrf_token (nonce : list N) (t : Z) : str :=
  let value := digits_of 20 (t / 1000) ++ js "." ++ Base64url.encode nonce in
  value ++ js "." ++ mac (js "csrf") value (csrfSecret config).

Definition issueCsrfCookie (nonce : list N) (t : Z) : CookieAction :=
  SetCookie csrfCookieName (csrf_token nonce t) (lasting (csrfTtlMs config) (baseOptions false)).

Definition setAuthenticatedCookies (accessToken refreshToken sessionId : str) (expiresIn : Z) (nonce : list N) (t : Z)
    : list CookieAction :=
  [SetCookie accessCookieName accessToken (lasting (Z.max 1 expiresIn * 1000) (baseOptions true));
   SetCookie refreshCookieName refreshToken (lasting SESSION_TTL_MS (baseOptions true));
   SetCookie sessionCookieName (signSessionHandle sessionId) (lasting SESSION_TTL_MS (baseOptions true));
   issueCsrfCookie nonce t].

Definition setLocalSessionCookies (sessionToken : str) (nonce : list N) (t : Z) : list CookieAction :=
  [SetCookie sessionCookieName sessionToken (lasting (sessionAbsoluteTtlMs config) (baseOptions true));
   ClearCookie accessCookieName (baseOptions true); ClearCookie refreshCookieName (baseOptions true);
   issueCsrfCookie nonce t].

Definition setRefreshCookie (refreshToken : str) : CookieAction :=
  SetCookie refreshCookieName refreshToken (lasting SESSION_TTL_MS (baseOptions true)).

Definition clearAuthenticationCookies : list CookieAction :=
  [ClearCookie accessCookieName (baseOptions true); ClearCookie refreshCookieName (baseOptions true);
   ClearCookie sessionCookieName (baseOptions true); ClearCookie csrfCookieName (baseOptions false)].

(** ** Cookies that come back *)

Definition read (r : Request) (name : str) : option str := read_cookie (header r (js "cookie")) name.
Definition readAccessToken (r : Request) : option str := read r accessCookieName.
Definition readRefreshToken (r : Request) : option str := read r refreshCookieName.
Definition readSessionHandle (r : Request) : option str := read r sessionCookieName.

(** The fourth part of a text, when it is not empty. *)
Definition has_extra (rest : list str) : bool := match rest with extra :: _ => truthy extra | [] => false end.

Definition verifySessionHandle (handle : option str) : option str :=
  match handle with
  | None | Some [] => None
  | Some h =>
      if (256 <? List.length h)%nat then None
      else match split_on 46 h with
           | sessionId :: signature :: rest =>
               if negb (truthy sessionId) || negb (truthy signature) || has_extra rest || negb (isUuid sessionId) then None
               else if validMac (js "session") sessionId signature (sessionHandleSecret config) (sessionHandlePreviousSecret config)
               then Some sessionId else None
           | _ => None
           end
  end.

(** Ten digits times a thousand are a safe integer. *)
Definition verifyCsrfToken (now : Z) (cookie header : option str) : bool :=
  match cookie, header with
  | Some ((_ :: _) as c), Some ((_ :: _) as h) =>
      if negb (safeEqual c h) || (256 <? List.length c)%nat then false
      else match split_on 46 c with
           | issuedAtText :: nonce :: signature :: rest =>
               if negb (truthy issuedAtText) || negb (truthy nonce) || negb (truthy signature) || has_extra rest
                  || negb (bool_decide (List.length issuedAtText = 10%nat) && all_digits issuedAtText)
               then false
               else
                 let issuedAtMs := digits_val issuedAtText * 1000 in
                 let ageMs := now - issuedAtMs in
                 if (ageMs <? -30000) || (csrfTtlMs config <? ageMs) then false
                 else validMac (js "csrf") (issuedAtText ++ js "." ++ nonce) signature
                        (csrfSecret config) (csrfPreviousSecret config)
           | _ => false
           end
  | _, _ => false
  end.

Definition authorizationVersion (appUserId : str) (version : Z) : str :=
  mac (js "authz") (appUserId ++ js ":" ++ digits_of 20 version) (authorizationVersionSecret config).

(** ** Addresses *)

Definition octet (s : str) : bool :=
  truthy s && all_digits s && (List.length s <=? 3)%nat && (digits_val s <=? 255)
  && match s with 48%N :: _ :: _ => false | _ => true end.

(** [net.isIPv4]. *)
Definition isIPv4 (s : str) : bool :=
  bool_decide (List.length (split_on 46 s) = 4%nat) && forallb octet (split_on 46 s).

Definition normalizeClientAddress (value : str) : str :=
  let address := trim value in
  if isIPv4 address then join (js ".") (map (fun o => digits_of 20 (digits_val o)) (split_on 46 address))
  else match ipv6_hostname address with Some hostname => hostname | None => js "unknown" end.

Record EdgeIdentity := { address : str; nonce : str; timestamp : Z; bodySha256 : str }.

Definition is_uuid_v4 (s : str) : bool :=
  isUuid s && match split_on 45 s with [_; _; 52%N :: _; _; _] => true | _ => false end.

Definition lower_hex (c : N) : bool := is_digit c || ((97 <=? c)%N && (c <=? 102)%N).

Definition edge_headers_ok (timestamp nonce target bodySha256 signature : str) : bool :=
  bool_decide (List.length timestamp = 13%nat) && all_digits timestamp && is_uuid_v4 nonce
  && bool_decide (List.length bodySha256 = 64%nat) && forallb lower_hex bodySha256
  && (List.length target <=? 8192)%nat && starts_with (js "/api/") target
  && negb (existsb (fun c => bool_decide (c ∈ [13; 10; 0]%N)) target)
  && (80 <=? List.length signature)%nat && (List.length signature <=? 128)%nat && forallb Base64url.url_char signature.

(** What the edge signs. *)
Definition edge_message (address timestamp nonce method target bodySha256 : str) : str :=
  join [0%N] [address; timestamp; nonce; method; target; bodySha256].

Definition authenticatedLocalEdgeIdentity (r : Request) (now : Z) : option EdgeIdentity :=
  match deploymentMode http, localEdgeProxyPublicKey http with
  | local_lan, Some ((_ :: _) as key) =>
      let remote := normalizeClientAddress (remoteAddress r ?? js "unknown") in
      if negb (str_eqb remote (js "127.0.0.1") || str_eqb remote (js "::1")) then None
      else match header r (js "x-local-client-ip"), header r (js "x-local-edge-timestamp"), header r (js "x-local-edge-nonce"),
                 header r (js "x-local-edge-target"), header r (js "x-local-edge-body-sha256"),
                 header r (js "x-local-edge-signature") with
           | Some ((_ :: _) as address), Some timestamp, Some nonce, Some target, Some bodySha256, Some signature =>
               if negb (edge_headers_ok timestamp nonce target bodySha256 signature) then None
               else
                 let normalized := normalizeClientAddress address in
                 let actualTarget := match originalUrl r with Some u => u | None => url r ?? [] end in
                 if str_eqb normalized (js "unknown") || negb (str_eqb target actualTarget)
                    || (30000 <? Z.abs (now - digits_val timestamp)) then None
                 else if localRawBodyDigestComplete r && negb (bool_decide (localRawBodySha256 r = Some bodySha256)) then None
                 else match verify key (edge_message normalized timestamp nonce (map ascii_upper (method r ?? [])) target bodySha256)
                              signature with
                      | Some true => Some {| address := normalized; nonce := nonce; timestamp := digits_val timestamp;
                                             bodySha256 := bodySha256 |}
                      | _ => None
                      end
           | _, _, _, _, _, _ => None
           end
  | _, _ => None
  end.

Definition clientAddress (r : Request) (now : Z) : str :=
  match deploymentMode http with
  | local_lan => match authenticatedLocalEdgeIdentity r now with Some i => address i | None => js "unknown" end
  | _ => normalizeClientAddress (or_else (ip r) (or_else (remoteAddress r) (js "unknown")))
  end.

Definition assertLocalEdgeBodyDigest (r : Request) : result unit :=
  match localExpectedEdgeBodySha256 r with
  | None | Some [] => Ok tt
  | Some expected =>
      if negb (localRawBodyDigestComplete r) || negb (bool_decide (localRawBodySha256 r = Some expected))
      then Throws (forbidden "LOCAL_EDGE_BODY_DIGEST_MISMATCH") else Ok tt
  end.

(** ** The server *)

Record Server := {
  nonces : list (str * Z);
  limiter : RateLimiter.Limiter;
  trustedTransportClaims : Z;
  accounts_of : A
}.

Definition now (w : Server) : Z := time_of (accounts_of w).

Definition set_nonces (l : list (str * Z)) (w : Server) : Server := {|
  nonces := l; limiter := limiter w; trustedTransportClaims := trustedTransportClaims w; accounts_of := accounts_of w |}.
Definition set_limiter (l : RateLimiter.Limiter) (w : Server) : Server := {|
  nonces := nonces w; limiter := l; trustedTransportClaims := trustedTransportClaims w; accounts_of := accounts_of w |}.
Definition set_claims (n : Z) (w : Server) : Server := {|
  nonces := nonces w; limiter := limiter w; trustedTransportClaims := n; accounts_of := accounts_of w |}.
Definition set_accounts_of (a : A) (w : Server) : Server := {|
  nonces := nonces w; limiter := limiter w; trustedTransportClaims := trustedTransportClaims w; accounts_of := a |}.

(** A request to the accounts, as a request to the server. *)
Fixpoint zoom {B} (m : prog A B) : prog Server B :=
  match m with
  | Ret b => Ret b
  | Throw e => Throw e
  | Local f k => Local (fun w => let '(c, a) := f (accounts_of w) in (c, set_accounts_of a w)) (fun c => zoom (k c))
  | Call f k => Call (fun w => let! (c, a) := f (accounts_of w) in Ok (c, set_accounts_of a w)) (fun c => zoom (k c))
  end.

Definition P2002 : js_error := {| err_status := 0; err_code := js "P2002" |}.

Definition nonce_hash (i : EdgeIdentity) : str :=
  hex (sha256 (js "local-edge-nonce" ++ 0%N :: nonce i ++ 0%N :: bodySha256 i)).

Definition create_nonce (i : EdgeIdentity) : TX Server unit := fun w =>
  if existsb (fun row => str_eqb row.1 (nonce_hash i)) (nonces w) then Throws P2002
  else Ok (tt, set_nonces (nonces w ++ [(nonce_hash i, timestamp i + 30000)]) w).

Definition delete_expired_nonces : TX Server unit := fun w =>
  Ok (tt, set_nonces (List.filter (fun row => negb (row.2 <? now w)) (nonces w)) w).

(** Whether 256 requests came since nonces were last deleted. *)
Definition count_claim : prog Server bool :=
  Local (fun w => if 256 <=? trustedTransportClaims w + 1 then (true, set_claims 0 w)
                  else (false, set_claims (trustedTransportClaims w + 1) w)) (fun due => Ret due).

Definition is_multipart (r : Request) : bool :=
  let s := map ascii_lower (header r (js "content-type") ?? []) in
  starts_with (js "multipart/form-data") s
  && match skipn (List.length (js "multipart/form-data")) s with [] => true | c :: _ => (c =? 59)%N end.

Definition assertTrustedTransport (r : Request) : prog Server Request :=
  match deploymentMode http with
  | local_lan =>
      await found := look (fun w => authenticatedLocalEdgeIdentity r (now w)) in
      match found with
      | None => Throw (forbidden "LOCAL_HTTPS_EDGE_REQUIRED")
      | Some identity =>
          let r' := expect_body (bodySha256 identity) r in
          if localRawBodyDigestComplete r && negb (bool_decide (localRawBodySha256 r = Some (bodySha256 identity)))
          then Throw (forbidden "LOCAL_EDGE_BODY_DIGEST_MISMATCH")
          else if negb (localRawBodyDigestComplete r) && negb (is_multipart r)
          then Throw (forbidden "LOCAL_EDGE_BODY_DIGEST_INCOMPLETE")
          else
            await _ := catch (call (create_nonce identity)) (fun e =>
              Throw (if bool_decide (e = P2002) then forbidden "LOCAL_EDGE_REQUEST_REPLAYED" else e)) in
            await due := count_claim in
            await _ := (if due : bool then catch (call delete_expired_nonces) (fun _ => Ret tt) else Ret tt) in
            Ret r'
      end
  | _ => Ret r
  end.

(** [new RateLimitException]; the answer also says when to retry. *)
Definition rateLimitError : js_error := authError RATE_LIMITED.

Definition persisted_key (key : str) : str :=
  match local_provider config, localRateLimitSecret config with
  | true, Some ((_ :: _) as secret) => Base64url.encode (hmac secret (js "rate-limit" ++ 0%N :: key))
  | _, _ => key
  end.

(** One statement of the limiter's table, in milliseconds of the server's clock. *)
Definition limiter_consume (key : str) (limit windowMs : Z) : TX Server RateLimiter.RateLimitDecision := fun w =>
  let t := now w * 1000 in
  match RateLimiter.consume (fun s => hex (sha256 s))
          {| RateLimiter.instance := instance; RateLimiter.rkey := key; RateLimiter.rlimit := ofZ limit;
             RateLimiter.windowMs := ofZ windowMs; RateLimiter.at_window := t; RateLimiter.at_answer := t;
             RateLimiter.at_cleanup := t; RateLimiter.cleanup_fails := cleanup_fails (now w) |} (limiter w) with
  | (Ok d, l) => Ok (d, set_limiter l w)
  | (Throws e, _) => Throws e
  end.

Definition consumeKey (key : str) (limit windowMs : Z) : prog Server unit :=
  await decision := call (limiter_consume (persisted_key key) limit windowMs) in
  if RateLimiter.allowed decision then Ret tt else Throw rateLimitError.

Definition assertOrigin (r : Request) : result unit :=
  match header r (js "origin") with
  | Some ((_ :: _) as origin) => if existsb (str_eqb origin) (allowedOrigins config) then Ok tt else Throws (authError ORIGIN_NOT_ALLOWED)
  | _ => Throws (authError ORIGIN_NOT_ALLOWED)
  end.

Definition assertMutationOrigin (r : Request) : result unit := assertOrigin r.

(** [clientAddress(request, this.http)], which reads the clock. *)
Definition client (r : Request) : prog Server str := look (fun w => clientAddress r (now w)).

Definition digest_key (s : str) : str := Base64url.encode (sha256 s).

Definition assertLoginRequest (r : Request) (normalizedEmail : str) : prog Server unit :=
  await _ := of_result (assertOrigin r) in
  let foreign := match header r (js "sec-fetch-site") with
                 | Some ((_ :: _) as site) => negb (str_eqb site (js "same-origin") || str_eqb site (js "same-site"))
                 | _ => false end in
  if foreign then Throw (authError ORIGIN_NOT_ALLOWED)
  else
    await address := client r in
    await _ := consumeKey (js "auth:login:ip:" ++ address) 20 60000 in
    let accountKey := digest_key normalizedEmail in
    await _ := consumeKey (js "auth:login:account:" ++ address ++ js ":" ++ accountKey) 5 60000 in
    consumeKey (js "auth:login:account-global:" ++ accountKey) 10 (5 * 60000).

(** The double-submitted token of a request. *)
Definition assertCsrf (r : Request) : prog Server unit :=
  await valid := look (fun w => verifyCsrfToken (now w) (parseCookie (header r (js "cookie")) csrfCookieName)
                                  (header r (js "x-csrf-token"))) in
  if valid : bool then Ret tt else Throw (authError CSRF_INVALID).

Definition assertSessionCsrfAndRate (r : Request) (operation : str) : prog Server unit :=
  await address := client r in
  await _ := consumeKey (js "auth:" ++ operation ++ js ":" ++ address) 30 60000 in
  assertCsrf r.

Definition assertSessionMutation (r : Request) (operation : str) : prog Server unit :=
  await _ := of_result (assertMutationOrigin r) in
  assertSessionCsrfAndRate r operation.

Definition assertInvitationAccept (r : Request) (tokenHash : str) : prog Server unit :=
  await _ := of_result (assertMutationOrigin r) in
  let near := match header r (js "sec-fetch-site") with
              | Some site => str_eqb site (js "same-origin") || str_eqb site (js "same-site")
              | None => false end in
  if negb near then Throw (authError ORIGIN_NOT_ALLOWED)
  else
    await address := client r in
    await _ := consumeKey (js "auth:invitation:ip:" ++ address) 10 (5 * 60000) in
    consumeKey (js "auth:invitation:token:" ++ digest_key tokenHash) 3 (15 * 60000).

Definition assertCsrfMutation (r : Request) (operation : str) : prog Server unit :=
  await _ := of_result (assertMutationOrigin r) in
  await address := client r in
  await _ := consumeKey (js "auth:" ++ operation ++ js ":" ++ address) 30 60000 in
  assertCsrf r.

Definition assertGeneralRead (r : Request) : prog Server unit :=
  await address := client r in
  consumeKey (js "http:read:" ++ address) 600 60000.

Definition assertGeneralMutationTransport (r : Request) (expensive : bool) : prog Server unit :=
  await _ := of_result (assertMutationOrigin r) in
  await address := client r in
  await _ := consumeKey (js "http:" ++ js (if expensive then "expensive-abuse" else "mutation-abuse") ++ js ":" ++ address)
               (if expensive then 120 else 600) (if expensive then 5 * 60000 else 60000) in
  assertCsrf r.

Definition assertAuthenticatedMutationRate (r : Request) (expensive : bool) : prog Server unit :=
  match authenticatedUser r with
  | Some principal =>
      if negb (truthy (p_id principal)) then Throw (authError AUTHENTICATION_REQUIRED)
      else
        await address := client r in
        consumeKey (js "http:" ++ js (if expensive then "expensive" else "mutation") ++ js ":" ++ address ++ js ":"
                    ++ digest_key (p_id principal))
          (if expensive then 15 else 120) (if expensive then 5 * 60000 else 60000)
  | None => Throw (authError AUTHENTICATION_REQUIRED)
  end.

(** ** The guards *)

Definition HttpSecurityGuard (r : Request) : prog Server Request :=
  if is_health_probe r then Ret r
  else
    await r := assertTrustedTransport r in
    if is_safe_method r then
      await _ := assertGeneralRead r in Ret r
    else if has_own_policy r then Ret r
    else
      await _ := assertGeneralMutationTransport r (isExpensiveMutation (requestPath r)) in Ret r.

Definition AuthenticationGuard (route : Route) (r : Request) : prog Server Request :=
  match access route with
  | Some PUBLIC_ROUTE | Some INTERNAL_PROBE_ROUTE => Ret r
  | _ =>
      if local_provider config then
        match readSessionHandle r with
        | Some ((_ :: _) as sessionToken) =>
            await user := zoom (localAuth_authenticateSession sessionToken) in
            Ret (set_user user r)
        | _ => Throw (authError AUTHENTICATION_REQUIRED)
        end
      else
        match readAccessToken r with
        | Some ((_ :: _) as accessToken) =>
            await user := zoom (authService_authenticateAccessToken accessToken
                                  (activityAge (header r (js "x-user-activity-age")))) in
            Ret (set_user user r)
        | _ =>
            match verifySessionHandle (readSessionHandle r), readRefreshToken r with
            | Some (_ :: _), Some (_ :: _) => Throw (authError ACCESS_TOKEN_EXPIRED)
            | _, _ => Throw (authError AUTHENTICATION_REQUIRED)
            end
        end
  end.

Definition AuthenticatedMutationRateGuard (r : Request) : prog Server Request :=
  if is_safe_method r || is_health_probe r || has_own_policy r then Ret r
  else
    await _ := assertAuthenticatedMutationRate r (isExpensiveMutation (requestPath r)) in Ret r.

Definition constantTimeEqual (candidate : option str) (expected : str) : bool :=
  match candidate with
  | Some ((_ :: _) as c) => (List.length c <=? 256)%nat && safeEqual c expected
  | _ => false
  end.

Definition InternalProbeGuard (route : Route) (r : Request) : result Request :=
  if negb (bool_decide (access route = Some INTERNAL_PROBE_ROUTE)) then Ok r
  else if negb (constantTimeEqual (header r (js "x-internal-probe-token")) (internalProbeToken http))
  then Throws (forbidden "INTERNAL_PROBE_FORBIDDEN")
  else Ok (authorize_probe r).

Definition PermissionGuard (route : Route) (r : Request) : result Request :=
  match access route with
  | Some PUBLIC_ROUTE => Ok r
  | Some INTERNAL_PROBE_ROUTE =>
      if internalProbeAuthorized r then Ok r else Throws (authError PERMISSION_DENIED)
  | access =>
      match authenticatedUser r with
      | None => Throws (authError AUTHENTICATION_REQUIRED)
      | Some principal =>
          match access with
          | Some AUTHENTICATED_ROUTE => Ok r
          | Some PERMISSION_ROUTE =>
              match required route with
              | Some ((_ :: _) as permissions) =>
                  if forallb (fun permission => existsb (fun p => bool_decide (p = permission)) (p_permissions principal)) permissions
                  then Ok r else Throws (authError PERMISSION_DENIED)
              | _ => Throws (authError PERMISSION_DENIED)
              end
          | _ => Throws (authError PERMISSION_DENIED)
          end
      end
  end.

(** The guards of the module, in the order in which they are registered; the
    handler gets the request that they return. *)
Definition guards (route : Route) (r : Request) : prog Server Request :=
  await r := HttpSecurityGuard r in
  await r := AuthenticationGuard route r in
  await r := AuthenticatedMutationRateGuard r in
  await r := of_result (InternalProbeGuard route r) in
  of_result (PermissionGuard route r).
End security.

(** The router takes a path with a slash at the end, or in capitals, for the
    same route. *)
Example expensive_by_spelling :
  map isExpensiveMutation (map js ["/api/decisions/run"; "/api/decisions/run/"; "/api/Decisions/run"]%string)
  = [true; false; false].
Proof. reflexivity. Qed.
