(* ===== verification/RequestGuards.v ===== *)
(** * What the guards guarantee

    Theorems on the guards of [RequestSecurity], over accounts that keep the
    contract [AuthenticatorLaws]; local accounts do ([local_authenticator_laws]).
    However requests interleave, a handler only sees a request that the declared
    access of its route allows, whose caller the accounts recognised, and which
    came from an allowed origin with a token of this server when it changes
    something ([guards_admit]); a message of the local edge opens the door once
    ([edge_message_used_once]); and the token that is issued is accepted until
    it expires, also when the secret was changed meanwhile
    ([csrf_token_accepted]). *)

From S2P Require Import Prelude JsNumber JsString.
From S2P Require Import FixedDecimals.
From S2P Require Import Concurrency.
From S2P Require Import Limits.
From S2P Require Import Access.
From S2P Require Import Users.
From S2P Require Import Auth.
From S2P Require Import LocalCredentials.
From S2P Require Import StorageKey.
From S2P Require Import LocalAccounts.
From S2P Require Import LocalSafety.
From S2P Require Import LocalGuarantees.
From S2P Require Import RequestSecurity.
From stdpp Require Import relations.

Local Open Scope Z_scope.

(** ** The contract of the accounts *)

Class AuthenticatorLaws (A : Type) `{Authenticator A} := {
  acc_inv : A -> Prop;
  acc_later : relation A;
  acc_guarantee : relation A;
  recognised : A -> A -> AuthenticatedUser -> Prop;
  acc_later_preorder :: PreOrder acc_later;
  acc_guarantee_later a a' : acc_guarantee a a' -> acc_later a a';
  acc_time a a' : acc_later a a' -> time_of a <= time_of a';
  session_sound token a : safe true acc_inv acc_later acc_guarantee (localAuth_authenticateSession token)
    (fun r a' => forall u, r = Ok u -> recognised a a' u) a;
  access_token_sound token age a : safe true acc_inv acc_later acc_guarantee (authService_authenticateAccessToken token age)
    (fun r a' => forall u, r = Ok u -> recognised a a' u) a
}.

(** Every step of a safe request leads to a later state. *)
Lemma safe_ends_later {W B} faulty (I : W -> Prop) (rely guar later : relation W) `{!PreOrder later} (m : prog W B) Q w :
  (forall w w', rely w w' -> later w w') -> (forall w w', guar w w' -> later w w') ->
  safe faulty I rely guar m Q w -> safe faulty I rely guar m (fun r w' => Q r w' /\ later w w') w.
Proof.
  intros R G. revert w. induction m as [b|e|C f k IH|C f k IH]; intros w S; simpl in *.
  - by split.
  - by split.
  - intros w1 R1 I1. destruct (S w1 R1 I1) as (I2 & G2 & S2). split; [done|]. split; [done|].
    eapply safe_mono; [by apply IH|]. intros r w' [q L]. split; [done|].
    transitivity w1; [by apply R|]. transitivity (f w1).2; [by apply G|done].
  - intros w1 R1 I1. destruct (S w1 R1 I1) as [Sb Sf].
    assert (T : forall x w2, later w1 w2 -> safe faulty I rely guar (k x) Q w2 ->
              safe faulty I rely guar (k x) (fun r w' => Q r w' /\ later w w') w2).
    { intros x w2 L2 S2. eapply safe_mono; [by apply IH|]. intros r w' [q L]. split; [done|].
      transitivity w1; [by apply R|]. by transitivity w2. }
    split; [intros F; apply T; [done|by apply Sb]|]. destruct (f w1) as [[c w2]|e]; [|by apply T].
    destruct Sf as (I2 & G2 & S2 & Sa). split; [done|]. split; [done|].
    split; [apply T; [by apply G|done]|]. intros F. apply T; [by apply G|by apply Sa].
Qed.

(** What holds whatever the others do holds when they do nothing. *)
Lemma safe_alone {W B} faulty (I : W -> Prop) (rely guar : relation W) (m : prog W B) Q w : Reflexive rely ->
  safe faulty I rely guar m Q w -> safe faulty I eq (fun _ _ => True) m Q w.
Proof.
  intros R. revert w. induction m as [b|e|C f k IH|C f k IH]; intros w S; simpl in *.
  - done.
  - done.
  - intros w1 <- I1. destruct (S w (R w) I1) as (I2 & _ & S2). split; [done|]. split; [done|by apply IH].
  - intros w1 <- I1. destruct (S w (R w) I1) as [Sb Sf]. split; [intros F; by apply IH, Sb|].
    destruct (f w) as [[c w2]|e]; [|by apply IH]. destruct Sf as (I2 & _ & S2 & Sa).
    split; [done|]. split; [done|]. split; [by apply IH|intros F; by apply IH, Sa].
Qed.

Section guards.
Context {A : Type} `{AuthenticatorLaws A}.
Context (config : HttpAuthConfig) (http : HttpSecurityConfig).
Context (hmac : str -> str -> list N) (sha256 : str -> list N).
Context (verify : str -> str -> str -> option bool) (ipv6_hostname : str -> option str).
Context (instance : nat) (cleanup_fails : Z -> bool).

Abbreviation identity := (authenticatedLocalEdgeIdentity http verify ipv6_hostname).
Abbreviation the_guards := (guards config http hmac sha256 verify ipv6_hostname instance cleanup_fails).
Abbreviation the_csrf := (verifyCsrfToken config hmac).
Abbreviation the_hash := (nonce_hash sha256).

(** ** What changes *)

(** The accounts move on, and a nonce is kept until it has expired. *)
Record server_later (w w' : Server) : Prop := {
  sv_accounts : acc_later (accounts_of w) (accounts_of w');
  sv_nonces row : row ∈ nonces w -> row ∈ nonces w' \/ row.2 < now w'
}.

Lemma now_later w w' : acc_later (accounts_of w) (accounts_of w') -> now w <= now w'.
Proof. apply acc_time. Qed.

#[export] Instance server_later_preorder : PreOrder server_later.
Proof.
  split.
  - intros w. split; [reflexivity|auto].
  - intros w1 w2 w3 [L1 N1] [L2 N2]. split; [by transitivity (accounts_of w2)|].
    intros row R. destruct (N1 row R) as [R'|E]; [by apply N2|]. right. apply now_later in L2. lia.
Qed.

Definition server_inv (w : Server) : Prop := acc_inv (accounts_of w).

Abbreviation safely := (safe true server_inv server_later server_later).

(** An action that only concerns the nonces kept, the limiter or the counter. *)
Lemma same_accounts_later w w' : accounts_of w' = accounts_of w ->
  (forall row, row ∈ nonces w -> row ∈ nonces w' \/ row.2 < now w') -> server_later w w'.
Proof. intros E N. split; [by rewrite E|done]. Qed.

(** ** Requests to the accounts *)

Lemma safe_zoom {B} (m : prog A B) (Q : result B -> A -> Prop) w :
  safe true acc_inv acc_later acc_guarantee m Q (accounts_of w) ->
  safely (zoom m) (fun r w' => Q r (accounts_of w')) w.
Proof.
  revert w. induction m as [b|e|C f k IH|C f k IH]; intros w S; simpl in *; [done|done| |].
  - intros w1 [L1 _] I1. destruct (S (accounts_of w1) L1 I1) as (I2 & G2 & S2).
    destruct (f (accounts_of w1)) as [c a]. simpl in *. split; [done|]. split; [|by apply IH].
    split; [by apply acc_guarantee_later|auto].
  - intros w1 [L1 _] I1. destruct (S (accounts_of w1) L1 I1) as [Sb Sf].
    split; [intros F; apply IH; by apply Sb|].
    destruct (f (accounts_of w1)) as [[c a]|e]; simpl; [|by apply IH].
    destruct Sf as (I2 & G2 & S2 & Sa). split; [done|]. split; [split; [by apply acc_guarantee_later|auto]|].
    split; [by apply IH|intros F; apply IH; by apply Sa].
Qed.

(** ** Requests that may end anyhow *)

Definition calm {B} (m : prog Server B) : Prop := forall w, safely m (fun _ _ => True) w.

Lemma calm_ret {B} (b : B) : calm (Ret b).
Proof. done. Qed.

Lemma calm_throw {B} e : calm (B := B) (Throw e).
Proof. done. Qed.

Lemma calm_result {B} (x : result B) : calm (of_result x).
Proof. by destruct x. Qed.

Lemma calm_then {B C} (m : prog Server B) (k : B -> prog Server C) : calm m -> (forall b, calm (k b)) -> calm (bind m k).
Proof. intros M K w. apply safe_bind. eapply safe_mono; [apply M|]. intros [b|e] w' _; [apply K|done]. Qed.

Lemma calm_catch {B} (m : prog Server B) h : calm m -> (forall e, calm (h e)) -> calm (catch m h).
Proof. intros M K w. apply safe_catch. eapply safe_mono; [apply M|]. intros [b|e] w' _; [done|apply K]. Qed.

Lemma calm_look {B} (f : Server -> B) : calm (look f).
Proof. intros w. by apply safe_look. Qed.

Lemma calm_call {B} (f : TX Server B) :
  (forall w b w', f w = Ok (b, w') -> server_later w w' /\ accounts_of w' = accounts_of w) -> calm (call f).
Proof.
  intros F w. apply safe_call. intros w1 _ I1. split; [done|]. destruct (f w1) as [[b w2]|e] eqn:E; [|done].
  destruct (F _ _ _ E) as [L S]. split; [unfold server_inv; by rewrite S|done].
Qed.

Lemma calm_consumeKey key limit windowMs :
  calm (consumeKey config hmac sha256 instance cleanup_fails key limit windowMs).
Proof.
  apply calm_then; [|intros d; destruct (RateLimiter.allowed d); [apply calm_ret|apply calm_throw]].
  apply calm_call. intros w b w'. unfold limiter_consume. destruct (RateLimiter.consume _ _ _) as [[d|e] l]; [|done].
  intros [= <- <-]. split; [|done]. by apply same_accounts_later; [|auto].
Qed.

Lemma calm_count_claim : calm count_claim.
Proof.
  intros w w1 _ I1. simpl. destruct (256 <=? _); simpl; (split; [done|]; split; [|done]);
    by apply same_accounts_later; [|auto].
Qed.

Lemma calm_delete : calm (call delete_expired_nonces).
Proof.
  apply calm_call. intros w b w' [= <- <-]. split; [|done]. apply same_accounts_later; [done|].
  intros row R. simpl. destruct (Z.ltb_spec row.2 (now w)) as [E|E]; [by right|].
  left. apply elem_of_filterb. split; [done|]. apply negb_true_iff, Z.ltb_ge. exact E.
Qed.

Lemma create_nonce_later i w b w' : create_nonce sha256 i w = Ok (b, w') ->
  server_later w w' /\ accounts_of w' = accounts_of w /\ (the_hash i, timestamp i + 30000) ∈ nonces w'.
Proof.
  unfold create_nonce. destruct (existsb _ _); [done|]. intros [= <- <-]. split; [|split; [done|]].
  - apply same_accounts_later; [done|]. intros row R. left. simpl. apply elem_of_app. by left.
  - simpl. apply elem_of_app. right. by left.
Qed.

#[local] Hint Resolve calm_ret calm_throw calm_result calm_look calm_consumeKey calm_count_claim calm_delete : calm.

(** ** What a request that passed has shown *)

(** A moment between two states. *)
Definition between (w0 w : Server) (t : Z) : Prop := now w0 <= t <= now w.

Lemma between_later w0 w w' t : server_later w w' -> between w0 w t -> between w0 w' t.
Proof. intros [L _] [B1 B2]. apply now_later in L. unfold between. lia. Qed.

(** At the moment [t] the request bears a message [i] of the edge, for its own
    method, URL and body: sent over the loopback interface, not half a minute
    from [t], and with a signature that the edge's key verifies. *)
Record edge_signed (r : Request) (t : Z) (i : EdgeIdentity) : Prop := {
  es_loopback : normalizeClientAddress ipv6_hostname (remoteAddress r ?? js "unknown") ∈ [js "127.0.0.1"; js "::1"];
  es_nonce : header r (js "x-local-edge-nonce") = Some (nonce i);
  es_body : header r (js "x-local-edge-body-sha256") = Some (bodySha256 i)
    /\ (localRawBodyDigestComplete r = true -> localRawBodySha256 r = Some (bodySha256 i));
  es_recent : Z.abs (t - timestamp i) <= 30000;
  es_signature : exists key text target signature,
    localEdgeProxyPublicKey http = Some key /\ truthy key = true
    /\ header r (js "x-local-edge-timestamp") = Some text /\ timestamp i = digits_val text
    /\ header r (js "x-local-edge-target") = Some target
    /\ target = match originalUrl r with Some u => u | None => url r ?? [] end
    /\ header r (js "x-local-edge-signature") = Some signature
    /\ verify key (edge_message (address i) text (nonce i) (map ascii_upper (method r ?? [])) target (bodySha256 i))
         signature = Some true
}.

Lemma identity_signed r t i : identity r t = Some i -> edge_signed r t i.
Proof.
  unfold authenticatedLocalEdgeIdentity. destruct (deploymentMode http), (localEdgeProxyPublicKey http) as [[|k key]|] eqn:Ek; try done.
  destruct (negb _) eqn:Lo; [done|].
  destruct (header r (js "x-local-client-ip")) as [[|c a]|]; try done.
  destruct (header r (js "x-local-edge-timestamp")) as [ts|] eqn:Ets; [|done].
  destruct (header r (js "x-local-edge-nonce")) as [n|] eqn:En; [|done].
  destruct (header r (js "x-local-edge-target")) as [tg|] eqn:Etg; [|done].
  destruct (header r (js "x-local-edge-body-sha256")) as [bs|] eqn:Ebs; [|done].
  destruct (header r (js "x-local-edge-signature")) as [sg|] eqn:Esg; [|done].
  destruct (negb (edge_headers_ok _ _ _ _ _)); [done|]. destruct (_ || _ || _) eqn:C; [done|].
  destruct (_ && _) eqn:Db; [done|]. destruct (verify _ _ _) as [[]|] eqn:V; try done. intros [= <-].
  bool_simpl. destruct C as [[_ Tg] C]. apply Z.ltb_ge in C. unfold str_eqb in Tg, Lo. apply bool_decide_eq_true in Tg.
  split; simpl.
  - destruct Lo as [L|L]; apply bool_decide_eq_true in L; rewrite L; [by left|right; by left].
  - done.
  - split; [done|]. intros D. rewrite D in Db. destruct Db as [?|Db]; [done|].
    by apply bool_decide_eq_true in Db.
  - exact C.
  - exists (k :: key), ts, tg, sg. auto 10.
Qed.

(** The local edge signed it, and its nonce is kept until it has expired. *)
Definition from_edge (r : Request) (w0 w : Server) : Prop :=
  exists t i, between w0 w t /\ identity r t = Some i /\ edge_signed r t i
    /\ ((the_hash i, timestamp i + 30000) ∈ nonces w \/ timestamp i + 30000 < now w).

Lemma from_edge_later r w0 w w' : server_later w w' -> from_edge r w0 w -> from_edge r w0 w'.
Proof.
  intros L (t & i & B & E & Sg & K). exists t, i. split; [by eapply between_later|]. split; [done|]. split; [done|].
  destruct K as [K|K]; [exact (sv_nonces _ _ L _ K)|]. right. destruct L as [L _]. apply now_later in L. lia.
Qed.

(** A token that this server issued, with one of its two secrets, not long ago. *)
Definition genuine (t : Z) (token : str) : Prop :=
  exists issuedAt nonce signature rest secret,
    split_on 46 token = issuedAt :: nonce :: signature :: rest
    /\ (secret = csrfSecret config \/ csrfPreviousSecret config = Some secret) /\ truthy secret = true
    /\ utf8_bytes signature = utf8_bytes (mac hmac (js "csrf") (issuedAt ++ js "." ++ nonce) secret)
    /\ -30000 <= t - digits_val issuedAt * 1000 <= csrfTtlMs config.

(** The request came from an allowed origin and sent the token of its cookie. *)
Definition from_own_page (r : Request) (w0 w : Server) : Prop :=
  (exists origin, header r (js "origin") = Some origin /\ origin ∈ allowedOrigins config)
  /\ exists t token copy, between w0 w t /\ genuine t token
     /\ parseCookie (header r (js "cookie")) (csrfCookieName config) = Some token
     /\ header r (js "x-csrf-token") = Some copy /\ utf8_bytes copy = utf8_bytes token.

(** The accounts recognised the caller after the request came. *)
Definition known_caller (u : AuthenticatedUser) (w0 w : Server) : Prop :=
  exists a a', acc_later (accounts_of w0) a /\ recognised a a' u /\ acc_later a' (accounts_of w).

Record admitted (route : Route) (r r' : Request) (w0 w : Server) : Prop := {
  adm_edge : deploymentMode http = local_lan -> is_health_probe r = false -> from_edge r w0 w;
  adm_page : is_safe_method r = false -> has_own_policy r = false -> is_health_probe r = false -> from_own_page r w0 w;
  adm_access :
    match access route with
    | None => False
    | Some PUBLIC_ROUTE => True
    | Some INTERNAL_PROBE_ROUTE =>
        exists token, header r (js "x-internal-probe-token") = Some token
          /\ utf8_bytes token = utf8_bytes (internalProbeToken http)
    | Some AUTHENTICATED_ROUTE => exists u, authenticatedUser r' = Some u /\ known_caller u w0 w
    | Some PERMISSION_ROUTE =>
        exists u permissions, authenticatedUser r' = Some u /\ known_caller u w0 w
          /\ required route = Some permissions /\ permissions <> []
          /\ forall p, p ∈ permissions -> p ∈ p_permissions u
    end
}.

Lemma existsb_str_eqb s l : existsb (str_eqb s) l = true -> s ∈ l.
Proof. intros (x & I & E)%existsb_exists_iff. apply bool_decide_eq_true in E. by subst. Qed.

Lemma verifyCsrfToken_genuine t cookie copy : the_csrf t cookie copy = true ->
  exists token h, cookie = Some token /\ copy = Some h /\ utf8_bytes h = utf8_bytes token /\ genuine t token.
Proof.
  unfold verifyCsrfToken. destruct cookie as [[|c0 c]|], copy as [[|h0 h]|]; try done.
  destruct (negb _ || _) eqn:E; [done|]. bool_simpl. destruct E as [E _].
  destruct (split_on 46 (c0 :: c)) as [|issued [|nonce [|signature rest]]] eqn:Sp; try done.
  destruct (_ || _ || _ || _ || _); [done|]. destruct (_ || _) eqn:T; [done|]. bool_simpl. destruct T as [T1 T2].
  unfold validMac. intros (secret & I & M)%existsb_exists_iff. apply elem_of_filterb in I as [I N].
  exists (c0 :: c), (h0 :: h). split; [done|]. split; [done|].
  apply bool_decide_eq_true in E, M. split; [done|]. exists issued, nonce, signature, rest, secret.
  split; [done|]. split; [|split; [done|split; [done|lia]]].
  apply elem_of_cons in I as [->|I]; [by left|]. right.
  destruct (csrfPreviousSecret config); [by apply list_elem_of_singleton in I as ->|by apply elem_of_nil in I].
Qed.

Lemma assertOrigin_ok r u : assertOrigin config r = Ok u ->
  exists origin, header r (js "origin") = Some origin /\ origin ∈ allowedOrigins config.
Proof.
  unfold assertOrigin. destruct (header r (js "origin")) as [[|c o]|]; try done.
  destruct (existsb _ _) eqn:E; [|done]. intros _. eexists. split; [done|]. by apply existsb_str_eqb.
Qed.

(** The requests that do not fail, with what holds from their start to their end. *)
Definition shows {B} (m : prog Server B) (P : B -> Server -> Server -> Prop) : Prop :=
  forall w, safely m (fun x w' => server_later w w' /\ forall b, x = Ok b -> P b w w') w.

Lemma calm_shows {B} (m : prog Server B) : calm m -> shows m (fun _ _ _ => True).
Proof.
  intros C w. eapply safe_mono; [apply (safe_ends_later true server_inv server_later server_later server_later m (fun _ _ => True) w); [done|done|apply C]|].
  by intros x w' [_ L].
Qed.

Lemma shows_bind {B C} (m : prog Server B) (k : B -> prog Server C) P Q :
  shows m P -> (forall b, shows (k b) (Q b)) ->
  shows (bind m k) (fun c w0 w => exists b w1, P b w0 w1 /\ server_later w0 w1 /\ server_later w1 w /\ Q b c w1 w).
Proof.
  intros M K w. apply safe_bind. eapply safe_mono; [apply M|]. intros [b|e] w1 [L1 P1]; [|by split].
  eapply safe_mono; [apply K|]. intros x w2 [L2 Q2]. split; [by transitivity w1|].
  intros c ->. exists b, w1. auto.
Qed.

Lemma shows_mono {B} (m : prog Server B) P Q : shows m P -> (forall b w w', P b w w' -> Q b w w') -> shows m Q.
Proof. intros M I w. eapply safe_mono; [apply M|]. intros x w' [L p]. split; [done|]. eauto. Qed.

Lemma shows_ret {B} (b : B) (P : B -> Server -> Server -> Prop) : (forall w, P b w w) -> shows (Ret b) P.
Proof. intros H2 w. apply safe_ret. split; [reflexivity|]. by intros c [= <-]. Qed.

Lemma shows_throw {B} e (P : B -> Server -> Server -> Prop) : shows (Throw e) P.
Proof. intros w. apply safe_throw. split; [reflexivity|done]. Qed.

Lemma shows_result {B} (x : result B) : shows (of_result x) (fun b _ _ => x = Ok b).
Proof. destruct x; [by apply shows_ret|apply shows_throw]. Qed.

Lemma shows_look {B} (f : Server -> B) : shows (look f) (fun b w0 w => exists w1, b = f w1 /\ server_later w0 w1 /\ server_later w1 w).
Proof.
  intros w. apply safe_look; [reflexivity|]. intros w1 L _. split; [done|]. intros b [= <-]. by exists w1.
Qed.

(** ** The checks *)

Abbreviation transport := (assertTrustedTransport http sha256 verify ipv6_hostname).

Lemma shows_create_nonce i (h : js_error -> js_error) :
  shows (catch (call (create_nonce sha256 i)) (fun e => Throw (h e)))
    (fun _ _ w => (the_hash i, timestamp i + 30000) ∈ nonces w).
Proof.
  intros w. apply safe_catch, safe_call. intros w1 L1 I1. split; [intros _; by split|].
  destruct (create_nonce sha256 i w1) as [[b w2]|e] eqn:E; [|by split].
  destruct (create_nonce_later _ _ _ _ E) as (L2 & S & N).
  assert (L : server_later w w2) by (by transitivity w1).
  split; [unfold server_inv; by rewrite S|]. split; [done|]. split; [|intros _; by split].
  split; [done|]. by intros c _.
Qed.

Lemma shows_transport r : shows (transport r) (fun r' w0 w =>
  (r' = r \/ exists d, r' = expect_body d r) /\ (deploymentMode http = local_lan -> from_edge r w0 w)).
Proof.
  unfold assertTrustedTransport. destruct (deploymentMode http) eqn:D;
    [by apply shows_ret; intros w; split; [left|]| |by apply shows_ret; intros w; split; [left|]].
  eapply shows_mono; [eapply (shows_bind _ _ _ (fun found r' w0 w =>
    exists i, found = Some i /\ r' = expect_body (bodySha256 i) r
      /\ ((the_hash i, timestamp i + 30000) ∈ nonces w \/ timestamp i + 30000 < now w))); [apply shows_look|]|].
  - intros [i|]; [|apply shows_throw]. destruct (_ && _); [apply shows_throw|]. destruct (_ && _); [apply shows_throw|].
    eapply shows_mono; [eapply shows_bind; [apply shows_create_nonce|]|].
    + intros u0. eapply (shows_bind _ _ (fun _ _ _ => True)); [apply calm_shows, calm_count_claim|].
      intros due. eapply (shows_bind _ _ (fun _ _ _ => True)).
      * apply calm_shows. destruct due; [|apply calm_ret]. apply calm_catch; [apply calm_delete|intros e; apply calm_ret].
      * intros u1. apply (shows_ret _ (fun b _ _ => b = expect_body (bodySha256 i) r)). done.
    + intros r' w0 w ([] & w1 & N & _ & L1 & _ & w2 & _ & _ & _ & _ & w3 & _ & _ & _ & ->).
      exists i. split; [done|]. split; [done|]. exact (sv_nonces _ _ L1 _ N).
  - intros r' w0 w (b & w1 & (w2 & -> & L0 & L1) & _ & L2 & i & E & -> & K). split; [right; by eexists|]. intros _.
    exists (now w2), i. split; [|split; [done|split; [by apply identity_signed|done]]].
    pose proof (now_later _ _ (sv_accounts _ _ L0)).
    pose proof (now_later _ _ (sv_accounts _ _ L1)). pose proof (now_later _ _ (sv_accounts _ _ L2)). unfold between. lia.
Qed.

Lemma shows_csrf r : shows (assertCsrf config hmac r) (fun _ w0 w => exists t token copy,
  between w0 w t /\ genuine t token /\ parseCookie (header r (js "cookie")) (csrfCookieName config) = Some token
  /\ header r (js "x-csrf-token") = Some copy /\ utf8_bytes copy = utf8_bytes token).
Proof.
  eapply shows_mono; [eapply (shows_bind _ _ _ (fun valid _ _ _ => valid = true)); [apply shows_look|]|].
  - intros [|]; [by apply shows_ret|apply shows_throw].
  - intros u w0 w (b & w1 & (w2 & -> & L0 & L1) & _ & L2 & (token & h & -> & -> & E & G)%verifyCsrfToken_genuine).
    exists (now w2), token, h. split; [|done]. pose proof (now_later _ _ (sv_accounts _ _ L0)).
    pose proof (now_later _ _ (sv_accounts _ _ L1)). pose proof (now_later _ _ (sv_accounts _ _ L2)). unfold between. lia.
Qed.

Lemma from_own_page_later r w0 w1 w2 w : server_later w0 w1 -> server_later w2 w ->
  from_own_page r w1 w2 -> from_own_page r w0 w.
Proof.
  intros L1 L2 (O & t & token & copy & [B1 B2] & E). split; [done|]. exists t, token, copy. split; [|done].
  apply sv_accounts, now_later in L1, L2. unfold between. lia.
Qed.

Lemma shows_mutation r expensive :
  shows (assertGeneralMutationTransport config http hmac sha256 verify ipv6_hostname instance cleanup_fails r expensive)
    (fun _ w0 w => from_own_page r w0 w).
Proof.
  eapply shows_mono; [eapply shows_bind; [apply shows_result|]|].
  - intros u. eapply (shows_bind _ _ (fun _ _ _ => True)); [apply calm_shows, calm_look|]. intros address.
    eapply (shows_bind _ _ (fun _ _ _ => True)); [apply calm_shows, calm_consumeKey|]. intros u2. apply shows_csrf.
  - intros u w0 w (u' & w1 & O%assertOrigin_ok & L0 & _ & a & w2 & _ & L1 & _ & _ & w3 & _ & L2 & _ & P).
    apply (from_own_page_later r w0 w3 w w); [by transitivity w1; [|transitivity w2]|reflexivity|by split].
Qed.

Lemma shows_http r : shows (HttpSecurityGuard config http hmac sha256 verify ipv6_hostname instance cleanup_fails r)
  (fun r' w0 w => (r' = r \/ exists d, r' = expect_body d r)
    /\ (deploymentMode http = local_lan -> is_health_probe r = false -> from_edge r w0 w)
    /\ (is_safe_method r = false -> has_own_policy r = false -> is_health_probe r = false -> from_own_page r w0 w)).
Proof.
  unfold HttpSecurityGuard. destruct (is_health_probe r); [by apply shows_ret; intros w; split; [left|]|].
  eapply shows_mono; [eapply (shows_bind _ _ _ (fun r1 r' w0 w => r1 = r' /\
    (is_safe_method r1 = false -> has_own_policy r1 = false -> from_own_page r1 w0 w))); [apply shows_transport|]|].
  - intros r1. destruct (is_safe_method r1).
    { eapply shows_mono; [eapply (shows_bind _ _ (fun _ _ _ => True) (fun _ b _ _ => b = r1)); [|by intros _; apply shows_ret]|].
      - apply calm_shows, calm_then; [apply calm_look|intros a; apply calm_consumeKey].
      - by intros b w0 w (_ & w1 & _ & _ & _ & ->). }
    destruct (has_own_policy r1); [by apply shows_ret|].
    eapply shows_mono; [eapply (shows_bind _ _ _ (fun _ b _ _ => b = r1)); [apply shows_mutation|by intros _; apply shows_ret]|].
    intros b w0 w (_ & w1 & P & _ & L & ->). split; [done|]. intros _ _. by eapply from_own_page_later.
  - intros r' w0 w (r1 & w1 & [S E] & L0 & L1 & -> & P). split; [done|]. split.
    + intros D _. eapply from_edge_later; [exact L1|by apply E].
    + intros M O _. apply (from_own_page_later r w0 w1 w w); [done|reflexivity|].
      destruct S as [->|[d ->]]; by apply P.
Qed.

Lemma known_caller_later u w0 w1 w2 w : server_later w0 w1 -> server_later w2 w -> known_caller u w1 w2 -> known_caller u w0 w.
Proof.
  intros [L1 _] [L2 _] (a & a' & B & R & E). exists a, a'. split; [by transitivity (accounts_of w1)|].
  split; [done|]. by transitivity (accounts_of w2).
Qed.

Lemma shows_account (m : prog A AuthenticatedUser) :
  (forall a, safe true acc_inv acc_later acc_guarantee m (fun r a' => forall u, r = Ok u -> recognised a a' u) a) ->
  shows (zoom m) known_caller.
Proof.
  intros S w. eapply safe_mono.
  - apply (safe_ends_later true server_inv server_later server_later server_later (zoom m)
      (fun r w' => forall u, r = Ok u -> recognised (accounts_of w) (accounts_of w') u) w); [done|done|].
    apply (safe_zoom m (fun r a' => forall u, r = Ok u -> recognised (accounts_of w) a' u)), S.
  - intros x w' [R L]. split; [done|]. intros u ->. exists (accounts_of w), (accounts_of w'). split; [reflexivity|]. split; [by apply R|reflexivity].
Qed.

Lemma shows_authentication route r : shows (AuthenticationGuard config hmac route r) (fun r' w0 w =>
  (r' = r /\ (access route = Some PUBLIC_ROUTE \/ access route = Some INTERNAL_PROBE_ROUTE))
  \/ exists u, r' = set_user u r /\ known_caller u w0 w).
Proof.
  assert (K : forall m : prog A AuthenticatedUser,
    (forall a, safe true acc_inv acc_later acc_guarantee m (fun r a' => forall u, r = Ok u -> recognised a a' u) a) ->
    shows (await user := zoom m in Ret (set_user user r)) (fun r' w0 w =>
      (r' = r /\ (access route = Some PUBLIC_ROUTE \/ access route = Some INTERNAL_PROBE_ROUTE))
      \/ exists u, r' = set_user u r /\ known_caller u w0 w)).
  { intros m S. eapply shows_mono; [eapply (shows_bind _ _ _ (fun u r' _ _ => r' = set_user u r)); [by apply shows_account|by intros u; apply shows_ret]|].
    intros r' w0 w (u & w1 & C & L0 & L1 & ->). right. exists u. split; [done|].
    apply (known_caller_later u w0 w0 w1 w); [reflexivity|done|done]. }
  unfold AuthenticationGuard. destruct (access route) as [[]|] eqn:Ac; try (apply shows_ret; by auto);
    (destruct (local_provider config);
      [destruct (readSessionHandle config r) as [[|c s]|]; [apply shows_throw|apply K; intros a; apply session_sound|apply shows_throw]
      |destruct (readAccessToken config r) as [[|c s]|];
        [|apply K; intros a; apply access_token_sound|];
        (destruct (verifySessionHandle config hmac _) as [[|? ?]|]; [apply shows_throw| |apply shows_throw];
         destruct (readRefreshToken config r) as [[|? ?]|]; apply shows_throw)]).
Qed.

Lemma shows_rate r : shows (AuthenticatedMutationRateGuard config http hmac sha256 verify ipv6_hostname instance cleanup_fails r)
  (fun r' _ _ => r' = r).
Proof.
  unfold AuthenticatedMutationRateGuard. destruct (_ || _); [by apply shows_ret|].
  eapply shows_mono; [eapply (shows_bind _ _ (fun _ _ _ => True) (fun _ b _ _ => b = r)); [|by intros _; apply shows_ret]|].
  - apply calm_shows. unfold assertAuthenticatedMutationRate. destruct (authenticatedUser r) as [u|]; [|apply calm_throw].
    destruct (negb _); [apply calm_throw|]. apply calm_then; [apply calm_look|intros a; apply calm_consumeKey].
  - by intros b w0 w (_ & w1 & _ & _ & _ & ->).
Qed.

Lemma constantTimeEqual_true candidate expected : constantTimeEqual candidate expected = true ->
  exists token, candidate = Some token /\ utf8_bytes token = utf8_bytes expected.
Proof.
  unfold constantTimeEqual. destruct candidate as [[|c s]|]; try done. intros [_ E]%andb_true_iff.
  apply bool_decide_eq_true in E. eauto.
Qed.

Lemma InternalProbeGuard_ok route r r' : InternalProbeGuard http route r = Ok r' ->
  (access route <> Some INTERNAL_PROBE_ROUTE /\ r' = r)
  \/ access route = Some INTERNAL_PROBE_ROUTE /\ exists token, header r (js "x-internal-probe-token") = Some token
       /\ utf8_bytes token = utf8_bytes (internalProbeToken http).
Proof.
  unfold InternalProbeGuard. case_bool_decide as E; simpl; [|intros [= <-]; by left].
  destruct (constantTimeEqual _ _) eqn:C; simpl; [|done]. intros [= <-]. right. split; [done|].
  by apply constantTimeEqual_true.
Qed.

Lemma has_permission (u : AuthenticatedUser) permissions p :
  forallb (fun permission => existsb (fun p => bool_decide (p = permission)) (p_permissions u)) permissions = true ->
  p ∈ permissions -> p ∈ p_permissions u.
Proof.
  intros F I. rewrite forallb_forall_iff in F. apply F, existsb_exists_iff in I as (q & I & ->%bool_decide_eq_true). done.
Qed.

Lemma shows_guards route r : shows (the_guards route r) (admitted route r).
Proof.
  unfold guards. eapply shows_mono; [eapply shows_bind; [apply shows_http|]|].
  { intros r1. eapply shows_bind; [apply shows_authentication|]. intros r2. eapply shows_bind; [apply shows_rate|].
    intros r3. eapply shows_bind; [apply shows_result|]. intros r4. apply shows_result. }
  intros r' w0 w (r1 & w1 & (S & Ed & Pg) & L0 & L1 & r2 & w2 & Au & L2 & L3 & r3 & w3 & -> & L4 & L5 & r4 & w4 & Pr & L6 & L7 & Pm).
  split.
  - intros D N. eapply from_edge_later; [exact L1|by apply Ed].
  - intros M O N. apply (from_own_page_later r w0 w0 w1 w); [reflexivity|done|by apply Pg].
  - assert (Hd : forall name, header r2 name = header r name).
    { intros name. assert (E1 : header r1 name = header r name) by (destruct S as [->|[d ->]]; done).
      destruct Au as [[-> _]|(u & -> & _)]; exact E1. }
    apply InternalProbeGuard_ok in Pr as [[Np ->]|(Ac & token & E & B)].
    + unfold PermissionGuard in Pm. destruct Au as [[-> Pub]|(u & -> & Kn)].
      * destruct Pub as [Pub|?]; [|done]. by rewrite Pub.
      * assert (Kn' : known_caller u w0 w).
        { apply (known_caller_later u w0 w1 w2 w); [done|done|done]. }
        destruct (access route) as [[]|] eqn:Ac; try done; simpl in Pm.
        -- injection Pm as <-. by exists u.
        -- destruct (required route) as [[|p0 ps]|] eqn:Rq; try done. destruct (forallb _ _) eqn:F; [|done].
           injection Pm as <-. exists u, (p0 :: ps). split; [done|]. split; [done|]. split; [done|]. split; [done|].
           intros p Ip. by apply (has_permission u (p0 :: ps)).
    + rewrite Ac. exists token. by rewrite <- Hd.
Qed.

(** ** All requests together *)

Inductive guarded : prog Server Request -> Prop :=
  | a_request route r : guarded (the_guards route r).

(** What the handlers and the other services do to the server. *)
Definition handling (w w' : Server) : Prop := (acc_inv (accounts_of w) -> acc_inv (accounts_of w')) /\ server_later w w'.

Abbreviation steps := (rtc (system_step guarded handling)).

Lemma guarded_safe h w : guarded h -> server_inv w -> safely h (fun _ _ => True) w.
Proof. intros [route r] _. eapply safe_mono; [apply shows_guards|done]. Qed.

Lemma handling_ok w w' : server_inv w -> handling w w' -> server_inv w' /\ server_later w w'.
Proof. intros I [J L]. split; [by apply J|done]. Qed.

Lemma guarded_good w s : server_inv w -> steps (w, []) s -> good server_inv server_later server_later s.
Proof.
  intros I R.
  refine (proj1 (good_reachable guarded handling server_inv server_later server_later _ _ handling_ok guarded_safe (w, []) s _ R));
    [reflexivity|done|]. split; [done|constructor].
Qed.


(** ** Messages of the edge *)

(** Two requests carry the same message of the edge. *)
Definition same_message (r r2 : Request) : Prop :=
  header r2 (js "x-local-edge-nonce") = header r (js "x-local-edge-nonce")
  /\ header r2 (js "x-local-edge-timestamp") = header r (js "x-local-edge-timestamp")
  /\ header r2 (js "x-local-edge-body-sha256") = header r (js "x-local-edge-body-sha256").

Lemma same_identity r r2 t t2 i i2 : same_message r r2 -> identity r t = Some i -> identity r2 t2 = Some i2 ->
  the_hash i2 = the_hash i /\ timestamp i2 = timestamp i.
Proof.
  intros (En & Et & Eb) [_ N [B _] _ (_ & x & _ & _ & _ & _ & X & Ex & _)]%identity_signed
    [_ N2 [B2 _] _ (_ & x2 & _ & _ & _ & _ & X2 & Ex2 & _)]%identity_signed.
  rewrite En, N in N2. rewrite Eb, B in B2. rewrite Et, X in X2. injection N2 as N2. injection B2 as B2. injection X2 as X2.
  unfold nonce_hash. by rewrite N2, B2, Ex, Ex2, X2.
Qed.

(** A message whose nonce is known, or that is too old, goes no further. *)
Lemma used_message_refused route r2 w script h e :
  deploymentMode http = local_lan -> is_health_probe r2 = false ->
  (forall i2, identity r2 (now w) = Some i2 -> the_hash i2 = h /\ timestamp i2 + 30000 = e) ->
  (h, e) ∈ nonces w \/ e < now w ->
  exists error, (run script (the_guards route r2) w).1 = Throws error.
Proof.
  intros D P I K.
  assert (S : safe true (fun _ => True) eq (fun _ _ => True) (the_guards route r2) (fun x _ => exists error, x = Throws error) w).
  { unfold guards, HttpSecurityGuard. rewrite P. unfold assertTrustedTransport. rewrite D.
    apply safe_bind, safe_bind, safe_bind, safe_look; [done|]. intros w1 <- _.
    destruct (identity r2 (now w)) as [i2|] eqn:Ei; [|by eexists].
    destruct (I i2 eq_refl) as [Eh Ee]. cbv zeta. destruct (_ && _); [by eexists|]. destruct (_ && _); [by eexists|].
    assert (U : create_nonce sha256 i2 w = Throws P2002).
    { unfold create_nonce. replace (existsb _ _) with true; [done|]. symmetry. apply existsb_exists_iff.
      destruct K as [K|K]; [exists (h, e); split; [done|by apply bool_decide_eq_true_2]|].
      apply identity_signed, es_recent in Ei. lia. }
    apply safe_bind, safe_catch, safe_call. intros w2 <- _. split; [intros _; by eexists|]. rewrite U. by eexists. }
  by apply (safe_run true (fun _ => True) (fun _ _ => True) _ _ script w) in S as [S _]; [|done|by left].
Qed.

(** C16: Behind the local edge a signed message opens the door once.  A request
    was let through; then, whatever the server does meanwhile - expired nonces
    are removed -, a request with the same message is refused, before and after
    it has expired, if nothing comes between its check and its statement. *)
Theorem edge_message_used_once w w0 ts1 ts2 route r script r1 w1 w2 us route2 r2 script2 :
  deploymentMode http = local_lan ->
  is_health_probe r = false -> is_health_probe r2 = false -> same_message r r2 ->
  server_inv w -> steps (w, []) (w0, ts1 ++ the_guards route r :: ts2) ->
  run script (the_guards route r) w0 = (Ok r1, w1) ->
  steps (w1, ts1 ++ Ret r1 :: ts2) (w2, us) ->
  exists error, (run script2 (the_guards route2 r2) w2).1 = Throws error.
Proof.
  intros D P P2 M I R Ru R2.
  pose proof (run_reachable guarded handling (the_guards route r) script w0 ts1 ts2) as Rr.
  rewrite Ru in Rr. simpl in Rr.
  pose proof (guarded_good w (w0, _) I R) as [I0 _]. simpl in I0.
  assert (F : from_edge r w0 w1).
  { pose proof (shows_guards route r w0) as S.
    assert (S' : safe true server_inv eq (fun _ _ => True) (the_guards route r)
      (fun x w' => forall b, x = Ok b -> admitted route r b w0 w') w0).
    { apply (safe_alone _ _ server_later server_later); [apply _|]. eapply safe_mono; [exact S|]. by intros x v [_ A']. }
    apply (safe_run true server_inv (fun _ _ => True) _ _ script w0) in S' as [S' _]; [|done|by left].
    rewrite Ru in S'. simpl in S'. by apply (adm_edge _ _ _ _ _ (S' r1 eq_refl)). }
  assert (L : server_later w1 w2).
  { assert (G1 : good server_inv server_later server_later (w1, ts1 ++ Ret r1 :: ts2))
      by (apply (guarded_good w); [done|by etransitivity]).
    by destruct (good_reachable guarded handling server_inv server_later server_later (fun w => reflexivity w)
      (fun _ _ _ _ l => l) handling_ok guarded_safe _ _ G1 R2) as [_ L]. }
  apply (from_edge_later r w0 w1 w2 L) in F as (t & i & _ & E & _ & K).
  apply (used_message_refused route2 r2 w2 script2 (the_hash i) (timestamp i + 30000)); [done|done| |done].
  intros i2 E2. destruct (same_identity r r2 _ _ i i2 M E E2) as [-> ->]. done.
Qed.
End guards.

(** ** Issued tokens *)

Lemma length_digits_of f k n : (k < f)%nat -> 10 ^ Z.of_nat k <= n < 10 ^ Z.of_nat (S k) ->
  List.length (digits_of f n) = S k.
Proof.
  revert k n. induction f as [|f IH]; intros k n Kf B; [lia|]. cbn [digits_of].
  destruct k as [|k].
  - change (Z.of_nat 1) with 1 in B. simpl in B. by destruct (Z.ltb_spec n 10); [|lia].
  - rewrite Nat2Z.inj_succ, Z.pow_succ_r in B by lia. rewrite (Nat2Z.inj_succ (S k)), Z.pow_succ_r in B by lia.
    assert (1 <= 10 ^ Z.of_nat k) by (pose proof (Z.pow_pos_nonneg 10 (Z.of_nat k)); lia).
    destruct (Z.ltb_spec n 10) as [L|L]; [lia|]. rewrite length_app. simpl. rewrite (IH k (n / 10)); [lia|lia|].
    split; [apply Z.div_le_lower_bound; lia|apply Z.div_lt_upper_bound; lia].
Qed.

Lemma no_dots p s : forallb p s = true -> p 46%N = false -> existsb (N.eqb 46) s = false.
Proof.
  intros F N. apply existsb_false_iff. intros x I. destruct (N.eqb_spec 46 x) as [<-|]; [|done].
  rewrite forallb_forall_iff in F. rewrite (F 46%N I) in N. done.
Qed.

Lemma split_dot s t : existsb (N.eqb 46) s = false -> split_on 46 (s ++ js "." ++ t) = s :: split_on 46 t.
Proof.
  intros F. change (s ++ js "." ++ t) with (s ++ 46%N :: t). rewrite split_on_app.
  unfold split_on at 1. by rewrite split_on_go_nosep.
Qed.

Lemma split_no_dot s : existsb (N.eqb 46) s = false -> split_on 46 s = [s].
Proof. intros F. unfold split_on. by rewrite split_on_go_nosep. Qed.

Lemma isUuid_shape s : isUuid s = true ->
  existsb (N.eqb 46) s = false /\ truthy s = true /\ List.length s = 36%nat.
Proof.
  unfold isUuid. pose proof (join_split_on 45 s) as J.
  destruct (split_on 45 s) as [|a [|b [|c [|d [|e [|]]]]]]; try done.
  intros U. bool_simpl. destruct U as [[[F L] _] _]. apply bool_decide_eq_true in L. simpl in L. injection L as La Lb Lc Ld Le.
  change (a ++ 45%N :: b ++ 45%N :: c ++ 45%N :: d ++ 45%N :: e = s) in J. rewrite <- J.
  split; [|split; [by destruct a|repeat (rewrite length_app; cbn [List.length]); lia]].
  apply (no_dots (fun x => is_hex x || (x =? 45)%N)); [|done].
  assert (W : forall p, p ∈ [a; b; c; d; e] -> forallb (fun x => is_hex x || (x =? 45)%N) p = true).
  { intros p I. pose proof (proj1 (forallb_forall_iff _ _) F p I) as Fp. cbv beta in Fp.
    apply forallb_forall_iff. intros x Ix. by rewrite (proj1 (forallb_forall_iff _ _) Fp x Ix). }
  repeat (rewrite forallb_app; cbn [forallb]). by rewrite !W by set_solver.
Qed.

Section tokens.
Context (hmac : str -> str -> list N).
(** What the library documents of HMAC-SHA-256. *)
Hypothesis hmac_bytes : forall key data, List.length (hmac key data) = 32%nat /\ Forall Base64url.byte (hmac key data).

Lemma encoded bs : List.length bs = 32%nat -> Forall Base64url.byte bs ->
  existsb (N.eqb 46) (Base64url.encode bs) = false /\ truthy (Base64url.encode bs) = true
  /\ List.length (Base64url.encode bs) = 43%nat.
Proof.
  intros L F. split; [apply (no_dots Base64url.url_char); [by apply Base64url.encode_chars|done]|].
  destruct (Base64url.encode_32 bs L F) as (s & c & -> & Ls & _). rewrite length_app, Ls. split; [by destruct s|done].
Qed.

Lemma mac_ok purpose value secret :
  existsb (N.eqb 46) (mac hmac purpose value secret) = false /\ truthy (mac hmac purpose value secret) = true
  /\ List.length (mac hmac purpose value secret) = 43%nat.
Proof. destruct (hmac_bytes secret (purpose ++ 0%N :: value)) as [L F]. by apply encoded. Qed.

(** The secret is current, or was current before it was changed. *)
Definition still_known (secret current : str) (previous : option str) : Prop :=
  truthy secret = true /\ (current = secret \/ previous = Some secret).

Lemma validMac_known purpose value secret current previous : still_known secret current previous ->
  validMac hmac purpose value (mac hmac purpose value secret) current previous = true.
Proof.
  intros [T K]. unfold validMac. apply existsb_exists_iff. exists secret.
  split; [|by apply bool_decide_eq_true_2]. apply elem_of_filterb. split; [|done].
  destruct K as [-> | ->]; [by left|]. right. by left.
Qed.

(** C17: The token that the server puts into the cookie of a page is accepted
    when the page sends it back, by every instance that knows its secret as the
    current or the previous one, from the moment it was issued until it expires;
    and a signed session handle gives the session that it was issued for. *)
Theorem issued_tokens_accepted issuer reader nonce t now sessionId :
  still_known (csrfSecret issuer) (csrfSecret reader) (csrfPreviousSecret reader) ->
  List.length nonce = 32%nat -> Forall Base64url.byte nonce ->
  10 ^ 12 <= t < 10 ^ 13 -> t <= now <= t / 1000 * 1000 + csrfTtlMs reader ->
  let token := csrf_token issuer hmac nonce t in
  verifyCsrfToken reader hmac now (Some token) (Some token) = true
  /\ (still_known (sessionHandleSecret issuer) (sessionHandleSecret reader) (sessionHandlePreviousSecret reader) ->
      isUuid sessionId = true ->
      verifySessionHandle reader hmac (Some (signSessionHandle issuer hmac sessionId)) = Some sessionId).
Proof.
  intros K Ln Fn Bt Bn. cbv zeta. split.
  - assert (Bs : 10 ^ 9 <= t / 1000 < 10 ^ 10) by (split; [apply Z.div_le_lower_bound; lia|apply Z.div_lt_upper_bound; lia]).
    destruct (FixedDecimals.digits_of_val 20 (t / 1000)) as (Vd & Ad & Td); [simpl; lia|lia|].
    pose proof (length_digits_of 20 9 (t / 1000) ltac:(lia) Bs) as Ld. set (ds := digits_of 20 (t / 1000)) in *.
    destruct (encoded nonce Ln Fn) as (En & Tn & Lc). set (n := Base64url.encode nonce) in *.
    unfold csrf_token. fold ds n. cbv zeta. set (m := mac hmac (js "csrf") (ds ++ js "." ++ n) (csrfSecret issuer)).
    destruct (mac_ok (js "csrf") (ds ++ js "." ++ n) (csrfSecret issuer)) as (Em & Tm & Lm). fold m in Em, Tm, Lm.
    assert (Sp : split_on 46 ((ds ++ js "." ++ n) ++ js "." ++ m) = [ds; n; m]).
    { rewrite <- !app_assoc, split_dot by (by apply (no_dots is_digit)). by rewrite split_dot, split_no_dot. }
    assert (Lt : List.length ((ds ++ js "." ++ n) ++ js "." ++ m) = 98%nat) by (rewrite !length_app, Ld, Lc, Lm; done).
    set (token := (ds ++ js "." ++ n) ++ js "." ++ m) in *. clearbody token.
    destruct token as [|c0 token]; [done|]. unfold verifyCsrfToken, safeEqual.
    rewrite bool_decide_eq_true_2, Lt, Sp by done. cbn [negb orb has_extra]. rewrite Td, Tn, Tm, Ld, Ad.
    cbn [negb orb andb bool_decide]. rewrite Vd. change (256 <? 98)%nat with false.
    rewrite (proj2 (Z.ltb_ge _ (-30000))), (proj2 (Z.ltb_ge (csrfTtlMs reader) _)); [|lia|].
    + rewrite bool_decide_eq_true_2 by done. by apply validMac_known.
    + pose proof (Z.mul_div_le t 1000 ltac:(lia)). lia.
  - intros Ks U. unfold signSessionHandle.
    destruct (mac_ok (js "session") sessionId (sessionHandleSecret issuer)) as (Em & Tm & Lm).
    set (m := mac hmac (js "session") sessionId (sessionHandleSecret issuer)) in *.
    destruct (isUuid_shape sessionId U) as (Es & Ts & Ls).
    assert (Sp : split_on 46 (sessionId ++ js "." ++ m) = [sessionId; m]) by (by rewrite split_dot, split_no_dot).
    assert (Lt : List.length (sessionId ++ js "." ++ m) = 80%nat) by (rewrite !length_app, Ls, Lm; done).
    set (handle := sessionId ++ js "." ++ m) in *. clearbody handle. destruct handle as [|c0 handle]; [done|].
    unfold verifySessionHandle. rewrite Lt, Sp, Ts, Tm, U. cbn [negb orb has_extra]. change (256 <? 80)%nat with false.
    unfold m. by rewrite validMac_known.
Qed.
End tokens.

(** ** Local accounts keep the contract *)

Section local.
Context `{IcuLaws} (config : AuthConfig) (hmac : str -> str -> list N).

(** With this provider the guard never asks for an access token. *)
Definition local_authenticator : Authenticator World := {|
  time_of := time;
  localAuth_authenticateSession token := authenticateSession config hmac token false;
  authService_authenticateAccessToken _ _ := Throw (authError SESSION_INVALID)
|}.

Definition local_authenticator_laws : @AuthenticatorLaws World local_authenticator.
Proof.
  refine {|
    acc_inv := linvariant; acc_later := later; acc_guarantee := lguarantee;
    recognised w0 w p := exists u s, authentic w0 w p u s
  |}.
  - intros a a' G. apply G.
  - intros a a' L. exact (l_time _ _ L).
  - intros token a. exact (authenticate_sound config hmac a token false).
  - intros token age a. by apply safe_throw.
Defined.
End local.

(** The last action of a request that ran alone. *)
Lemma run_last {W Reply} (handlers : prog W Reply -> Prop) env (m : prog W Reply) w a w' : run [] m w = (Ok a, w') ->
  m = Ret a \/ exists m1 w1, (forall ts1 ts2, rtc (system_step handlers env) (w, ts1 ++ m :: ts2) (w1, ts1 ++ m1 :: ts2))
               /\ prog_step m1 w1 (Ret a) w'.
Proof.
  assert (T : forall m w m1 w1, prog_step m w m1 w1 -> run [] m1 w1 = (Ok a, w') ->
    (m1 = Ret a \/ exists m2 w2, (forall ts1 ts2, rtc (system_step handlers env) (w1, ts1 ++ m1 :: ts2) (w2, ts1 ++ m2 :: ts2))
               /\ prog_step m2 w2 (Ret a) w') ->
    exists m2 w2, (forall ts1 ts2, rtc (system_step handlers env) (w, ts1 ++ m :: ts2) (w2, ts1 ++ m2 :: ts2))
               /\ prog_step m2 w2 (Ret a) w').
  { intros m0 v m1 w1 St Ru [->|(m2 & w2 & Rs & St')].
    - simpl in Ru. injection Ru as <-. exists m0, v. split; [intros; apply rtc_refl|done].
    - exists m2, w2. split; [|done]. intros ts1 ts2. eapply rtc_l; [by apply sys_thread|apply Rs]. }
  revert w. induction m as [b|e|C f k IH|C f k IH]; intros w Ru.
  - left. simpl in Ru. by injection Ru as ->.
  - done.
  - right. simpl in Ru. destruct (f w) as [c v] eqn:E. eapply T; [by constructor|exact Ru|by apply IH].
  - right. simpl in Ru. destruct (f w) as [[c v]|e] eqn:E.
    + eapply T; [by apply step_call|exact Ru|by apply IH].
    + eapply T; [by apply step_throw|exact Ru|by apply IH].
Qed.

(** ** An example *)

Module Guard_example.
#[local] Existing Instance c_locale.
Import LocalGuarantees.Example.

Definition bytes_hmac (key data : str) : list N := map (fun c => c mod 256)%N (take 32 (rev data ++ replicate 32 0%N)).

Lemma bytes_hmac_ok key data : List.length (bytes_hmac key data) = 32%nat /\ Forall Base64url.byte (bytes_hmac key data).
Proof.
  unfold bytes_hmac. split.
  - rewrite length_map, length_take, length_app, length_replicate. lia.
  - apply Forall_map, Forall_forall. intros x _. unfold Base64url.byte. by apply N.mod_lt.
Qed.

Definition today : Z := 1700000000000.

Definition open_token : str := createSessionToken bytes_hmac (js "session key") (uuid 2) (random 2).

Definition open_session : LocalSession := {|
  ls_id := uuid 2; ls_appUserId := root; localTokenHash := Some (tokenHash bytes_hmac session open_token (js "session key"));
  previousLocalTokenHash := None; previousTokenValidUntil := None; idleExpiresAt := Some (today + 1000);
  absoluteExpiresAt := Some (today + 1000); onboardingOnly := false; ls_revokedAt := None;
  ls_lastSeenAt := Some today; refreshedAt := None; ls_createdAt := today |}.

Definition accounts_today : World := {|
  accounts := accounts w0; localCredentials := ∅; localSessions := [open_session]; setupTokens := [];
  auditLog := []; time := today; draws := 4; scryptBusy := false |}.

Lemma accounts_today_ok : linvariant accounts_today.
Proof.
  destruct local_w0_invariant as [K N _ _]. split; [exact K|exact N|apply NoDup_singleton|constructor].
Qed.

Definition server : Server := {|
  nonces := []; limiter := RateLimiter.empty_limiter; trustedTransportClaims := 255; accounts_of := accounts_today |}.

Definition http_auth : HttpAuthConfig := {|
  local_provider := true; cookieSecure := false; cookieNamespace := js "hub"; sessionHandleSecret := js "handle key";
  sessionHandlePreviousSecret := None; authorizationVersionSecret := js "version key"; csrfSecret := js "csrf key";
  csrfPreviousSecret := Some (js "old key"); csrfTtlMs := 28800000; allowedOrigins := [js "https://hub.local"];
  production := false; localRateLimitSecret := Some (js "rate key"); sessionAbsoluteTtlMs := 28800000 |}.

Definition http_config : HttpSecurityConfig := {|
  deploymentMode := local_lan; localEdgeProxyPublicKey := Some (js "edge key"); internalProbeToken := js "probe" |}.

(** A signature that is as easy to compute. *)
Definition edge_verify (key message signature : str) : option bool := Some (bool_decide (List.length signature = 80%nat)).

Definition page_token : str := csrf_token http_auth bytes_hmac (random 1) today.

Definition save_product : Request := {|
  method := Some (js "POST"); originalUrl := Some (js "/api/products"); url := Some (js "/api/products");
  headers := [(js "origin", js "https://hub.local"); (js "x-csrf-token", page_token);
              (js "cookie", js "meta_session=" ++ open_token ++ js "; meta_csrf=" ++ page_token);
              (js "x-local-client-ip", js "192.168.0.7"); (js "x-local-edge-timestamp", js "1700000000500");
              (js "x-local-edge-nonce", js "00000000-0000-4000-8000-000000000001");
              (js "x-local-edge-target", js "/api/products"); (js "x-local-edge-body-sha256", replicate 64 97%N);
              (js "x-local-edge-signature", replicate 80 65%N)];
  ip := None; remoteAddress := Some (js "127.0.0.1"); localRawBodySha256 := Some (replicate 64 97%N);
  localRawBodyDigestComplete := true; localExpectedEdgeBodySha256 := None; authenticatedUser := None;
  internalProbeAuthorized := false |}.

Definition products_route : Route := {| access := Some PERMISSION_ROUTE; required := Some [products_manage] |}.

#[local] Existing Instance local_authenticator.
Definition the_authenticator : Authenticator World := local_authenticator config bytes_hmac.

Definition example_guards (route : Route) (r : Request) : prog Server Request :=
  @guards World the_authenticator http_auth http_config bytes_hmac (fun s => s) edge_verify (fun _ => None) 0 (fun _ => false) route r.

Definition guard_answer (x : result Request * Server (A := World)) : option str * str * nat :=
  match x.1 with
  | Ok r => (p_id <$> authenticatedUser r, [], List.length (nonces x.2))
  | Throws e => (None, err_code e, List.length (nonces x.2))
  end.

Example example_admitted : guard_answer (run [] (example_guards products_route save_product) server) = (Some root, [], 1%nat).
Proof. vm_compute. reflexivity. Qed.

(** A page that sends another token, and a route that declares nothing. *)
Definition without_token : Request := {|
  method := method save_product; originalUrl := originalUrl save_product; url := url save_product;
  headers := List.filter (fun h => negb (str_eqb h.1 (js "x-csrf-token"))) (headers save_product);
  ip := None; remoteAddress := remoteAddress save_product; localRawBodySha256 := localRawBodySha256 save_product;
  localRawBodyDigestComplete := true; localExpectedEdgeBodySha256 := None; authenticatedUser := None;
  internalProbeAuthorized := false |}.

Example example_guard_refused :
  map (fun x => guard_answer (run [] (example_guards x.1 x.2) server))
    [(products_route, without_token); ({| access := None; required := None |}, save_product)]
  = [(None, js "CSRF_INVALID", 1%nat); (None, js "PERMISSION_DENIED", 1%nat)].
Proof. vm_compute. reflexivity. Qed.

Definition laws : @AuthenticatorLaws World the_authenticator := local_authenticator_laws config bytes_hmac.

Lemma server_ok : @server_inv World the_authenticator laws server.
Proof. exact accounts_today_ok. Qed.
End Guard_example.
Import Guard_example.
#[local] Existing Instance c_locale.


Lemma edge_message_used_once_witness : exists error,
  (run [] (example_guards products_route save_product)
     (run [] (example_guards products_route save_product) server).2).1 = Throws error.
Proof.
  assert (F : match (run [] (example_guards products_route save_product) server).1 with
              | Ok _ => true | Throws _ => false end = true) by (vm_compute; reflexivity).
  destruct (run [] (example_guards products_route save_product) server) as [[r'|e] w'] eqn:E; [|discriminate F].
  refine (@edge_message_used_once World the_authenticator laws http_auth http_config bytes_hmac (fun s => s) edge_verify (fun _ => None)
    0%nat (fun _ => false) server server [] [] products_route save_product [] r' w' w' _ products_route save_product []
    _ _ _ _ server_ok _ E (rtc_refl _ _)).
  - reflexivity.
  - vm_compute. reflexivity.
  - vm_compute. reflexivity.
  - split; [reflexivity|split; reflexivity].
  - apply rtc_once. apply (sys_request _ _ server []). constructor.
Defined.

(** The secret was changed between the two. *)
Definition renewed : HttpAuthConfig := {|
  local_provider := true; cookieSecure := false; cookieNamespace := js "hub"; sessionHandleSecret := js "handle key";
  sessionHandlePreviousSecret := None; authorizationVersionSecret := js "version key"; csrfSecret := js "newer key";
  csrfPreviousSecret := Some (js "csrf key"); csrfTtlMs := 28800000; allowedOrigins := [js "https://hub.local"];
  production := false; localRateLimitSecret := None; sessionAbsoluteTtlMs := 28800000 |}.

Lemma issued_tokens_accepted_witness :
  verifyCsrfToken renewed bytes_hmac (today + 3600000) (Some page_token) (Some page_token) = true
  /\ verifyCsrfToken renewed bytes_hmac (today + 28800001) (Some page_token) (Some page_token) = false.
Proof.
  split; [|vm_compute; reflexivity].
  refine (proj1 (issued_tokens_accepted bytes_hmac bytes_hmac_ok http_auth renewed (LocalGuarantees.Example.random 1)
    today (today + 3600000) (js "") _ _ _ _ _)).
  - split; [reflexivity|right; reflexivity].
  - reflexivity.
  - apply Forall_replicate. reflexivity.
  - split; vm_compute; congruence.
  - split; vm_compute; congruence.
Defined.
