(* ===== verification/MetaRows.v ===== *)
(** * Rows of Meta metrics

    The rows of uploads/meta-metric-write-data.ts and upload-contracts.ts: what
    a parsed line of a Meta report holds, and the columns of the two tables
    [MetaAdDailyMetric] (a day of an ad) and [MetaAdsetDailyMetric] (a day of an
    ad set) that are written from it; and uploads/meta-adset-aggregates.ts, the
    day of an ad set computed from the days of its ads.

    A column of type Int or BigInt holds an integer, one of type Decimal a
    decimal of the interface [DecimalNumber], one of type Date a midnight; a
    value that a column cannot hold is refused. *)

From S2P Require Import Prelude JsNumber JsString JsDate.
From S2P Require Import DateNumber.
From S2P Require Import Metrics.
From S2P Require Import Matching.
From S2P Require Import Decision.
From S2P Require Import RequestBody.

Local Open Scope Z_scope.

#[export] Instance ConflictPolicyValue_eq : EqDecision ConflictPolicyValue.
Proof. solve_decision. Defined.
#[export] Instance MatchSourceValue_eq : EqDecision MatchSourceValue.
Proof. solve_decision. Defined.

(** ** Columns *)

(** The refusal of the database client, the [RangeError] of [BigInt] and the
    [TypeError] of a field of [undefined]. *)
Definition refused_value : js_error := {| err_status := 0; err_code := js "PrismaClientValidationError" |}.
Definition range_error : js_error := {| err_status := 0; err_code := js "RangeError" |}.
Definition type_error : js_error := {| err_status := 0; err_code := js "TypeError" |}.

(** An Int column: 32 bits. *)
Definition integer_column (x : num) : result Z :=
  if isInteger x && (- 2 ^ 31 <=? toZ x) && (toZ x <? 2 ^ 31) then Ok (toZ x) else Throws refused_value.

Definition integer_column_or_null (x : option num) : result (option Z) :=
  match x with None => Ok None | Some x => let! z := integer_column x in Ok (Some z) end.

(** [BigInt(x)] in a column of 64 bits. *)
Definition bigint_column (x : num) : result Z :=
  if isInteger x then
    if (- 2 ^ 63 <=? toZ x) && (toZ x <? 2 ^ 63) then Ok (toZ x) else Throws refused_value
  else Throws range_error.

(** A row of a table: the columns that versions are made of, and those that only
    one of the tables has. *)
Record metric (D : Type) := {
  id : str;
  uploadBatchId : str;
  uploadRowId : option str;
  importVersion : Z;
  isCurrent : bool;
  supersededByMetricId : option str;
  createdAt : Z;
  columns : D
}.
Arguments id {D} _.
Arguments uploadBatchId {D} _.
Arguments uploadRowId {D} _.
Arguments importVersion {D} _.
Arguments isCurrent {D} _.
Arguments supersededByMetricId {D} _.
Arguments createdAt {D} _.
Arguments columns {D} _.

Section rows.
Context `{Icu, DecimalNumber}.

(** [new Prisma.Decimal(x)] in a column NUMERIC(p, s). *)
Definition decimal_column (p s : Z) (x : num) : result dec :=
  if isFinite x then
    match numeric p s (dec_of_num x) with Some d => Ok d | None => Throws refused_value end
  else Throws refused_value.

(** [decimalOrNull(x)] in such a column. *)
Definition decimalOrNull (p s : Z) (x : option num) : result (option dec) :=
  match x with None => Ok None | Some x => let! d := decimal_column p s x in Ok (Some d) end.

(** ** What is parsed from a report *)

Record ParsedMetaAdDailyRow := {
  p_dateStart : Z; p_dateEnd : Z; p_metricDate : Z;
  p_campaignName : str; p_metaCampaignId : str;
  p_adsetName : str; p_metaAdsetExternalId : str;
  p_adName : str; p_metaAdId : option str; p_syntheticAdKey : str; p_adIdentityKey : str;
  p_adDeliveryStatus : option str; p_attributionSetting : option str;
  p_resultCount : num; p_resultIndicator : option str; p_purchaseCount : num; p_reach : num;
  p_videoPlay3sCount : option num; p_videoPlay25Count : option num; p_videoPlay50Count : option num;
  p_videoPlay75Count : option num; p_videoPlay100Count : option num; p_addToCartCount : option num;
  p_frequency : option num; p_costPerResultUsd : option num;
  p_adsetBudgetLabel : option str; p_adsetBudgetType : option str;
  p_spendUsd : num; p_endStatus : option str;
  p_qualityRanking : option str; p_engagementRateRanking : option str; p_conversionRateRanking : option str;
  p_impressions : num; p_cpmUsd : option num;
  p_linkClicks : num; p_shopClicks : num; p_cpcLinkUsd : option num; p_ctrLinkPct : option num;
  p_clicksAll : num; p_ctrAllPct : option num; p_cpcAllUsd : option num;
  p_landingPageViews : num; p_costPerLandingPageViewUsd : option num
}.

Record ParsedMetaAdsetRow := {
  q_dateStart : Z; q_dateEnd : Z; q_metricDate : Z;
  q_adsetName : str; q_adsetNameKey : str;
  q_deliveryStatus : option str; q_attributionSetting : option str;
  q_resultCount : num; q_resultIndicator : option str; q_reach : num;
  q_frequency : option num; q_costPerResultUsd : option num;
  q_adsetBudgetLabel : option str; q_adsetBudgetType : option str;
  q_spendUsd : num; q_endStatus : option str; q_startDate : option Z;
  q_impressions : num; q_cpmUsd : option num;
  q_linkClicks : num; q_shopClicks : num; q_cpcLinkUsd : option num; q_ctrLinkPct : option num;
  q_clicksAll : num; q_ctrAllPct : option num; q_cpcAllUsd : option num;
  q_landingPageViews : num; q_costPerLandingPageViewUsd : option num
}.

(** What the import found for a line: the product, the stage and how. *)
Record Attribution := {
  productId : option str;
  productMatchSource : MatchSourceValue;
  productMatchRuleId : option str;
  stage : AdStageValue;
  stageMatchSource : MatchSourceValue
}.

Record MetricImportInput := {
  i_batchId : str; i_uploadRowId : str; i_parsedRow : ParsedMetaAdsetRow; i_rawRow : list (str * str);
  i_metaAdsetId : str; i_attribution : Attribution; i_conflictPolicy : ConflictPolicyValue
}.

Record AdMetricImportInput := {
  a_batchId : str; a_uploadRowId : str; a_parsedRow : ParsedMetaAdDailyRow; a_rawRow : list (str * str);
  a_campaignRefId : str; a_metaAdsetRefId : str; a_metaAdRefId : str; a_creativeId : option str;
  a_attribution : Attribution; a_conflictPolicy : ConflictPolicyValue
}.

Record AdsetAggregateInput := {
  g_metaAdsetId : str; g_metricDate : Z; g_dateStart : Z; g_dateEnd : Z;
  g_adsetName : str; g_adsetNameKey : str;
  g_deliveryStatus : option str; g_attributionSetting : option str; g_resultIndicator : option str;
  g_purchaseCount : num; g_reach : num; g_frequency : option num; g_costPerResultUsd : option num;
  g_adsetBudgetLabel : option str; g_adsetBudgetType : option str;
  g_spendUsd : num; g_endStatus : option str;
  g_impressions : num; g_cpmUsd : option num;
  g_linkClicks : num; g_shopClicks : num; g_cpcLinkUsd : option num; g_ctrLinkPct : option num;
  g_clicksAll : num; g_ctrAllPct : option num; g_cpcAllUsd : option num;
  g_landingPageViews : num; g_costPerLandingPageViewUsd : option num;
  g_attribution : Attribution; g_rawRow : json
}.

(** ** The tables *)

Record AdColumns := {
  c_campaignRefId : str; c_metaAdsetRefId : str; c_metaAdRefId : str; c_creativeId : option str;
  c_metricDate : Z; c_dateStart : Z; c_dateEnd : Z;
  c_metaCampaignId : str; c_campaignNameSnapshot : str; c_metaAdsetId : str; c_adsetNameSnapshot : str;
  c_metaAdId : option str; c_syntheticAdKey : str; c_adIdentityKey : str; c_adNameSnapshot : str;
  c_adDeliveryStatus : option str; c_attributionSetting : option str; c_resultIndicator : option str;
  c_resultCount : Z; c_purchaseCount : Z; c_reach : Z;
  c_videoPlay3sCount : option Z; c_videoPlay25Count : option Z; c_videoPlay50Count : option Z;
  c_videoPlay75Count : option Z; c_videoPlay100Count : option Z; c_addToCartCount : option Z;
  c_frequency : option dec; c_costPerResultUsd : option dec;
  c_adsetBudgetLabel : option str; c_adsetBudgetType : option str;
  c_spendUsd : dec; c_endStatus : option str;
  c_qualityRanking : option str; c_engagementRateRanking : option str; c_conversionRateRanking : option str;
  c_impressions : Z; c_cpmUsd : option dec;
  c_linkClicks : Z; c_shopClicks : Z; c_cpcLinkUsd : option dec; c_ctrLinkPct : option dec;
  c_clicksAll : Z; c_ctrAllPct : option dec; c_cpcAllUsd : option dec;
  c_landingPageViews : Z; c_costPerLandingPageViewUsd : option dec;
  c_attribution : Attribution; c_rawRow : json
}.

Record AdsetColumns := {
  s_metaAdsetId : str; s_metricDate : Z; s_dateStart : Z; s_dateEnd : Z;
  s_adsetName : str; s_adsetNameKey : str;
  s_deliveryStatus : option str; s_attributionSetting : option str;
  s_resultCount : Z; s_resultIndicator : option str; s_reach : Z;
  s_frequency : option dec; s_costPerResultUsd : option dec;
  s_adsetBudgetLabel : option str; s_adsetBudgetType : option str;
  s_spendUsd : dec; s_endStatus : option str; s_startDate : option Z;
  s_impressions : Z; s_cpmUsd : option dec;
  s_linkClicks : Z; s_shopClicks : Z; s_cpcLinkUsd : option dec; s_ctrLinkPct : option dec;
  s_clicksAll : Z; s_ctrAllPct : option dec; s_cpcAllUsd : option dec;
  s_landingPageViews : Z; s_costPerLandingPageViewUsd : option dec;
  s_attribution : Attribution; s_rawRow : json
}.

(** A row as it is created: the database gives [id] and [createdAt]. *)
Definition new_metric {D} (batchId : str) (rowId : option str) (importVersion : Z) (columns : D)
    (id : str) (now : Z) : metric D :=
  {| id := id; uploadBatchId := batchId; uploadRowId := rowId; importVersion := importVersion;
     isCurrent := true; supersededByMetricId := None; createdAt := now; columns := columns |}.

Definition raw_json (raw : list (str * str)) : json := JObj (map (fun '(k, v) => (k, JStr v)) raw).

(** ** meta-metric-write-data.ts *)

Definition adDailyMetricCreateData (input : AdMetricImportInput) (importVersion : Z)
    : result (str -> Z -> metric AdColumns) :=
  let p := a_parsedRow input in
  let! resultCount := integer_column (p_resultCount p) in
  let! purchaseCount := integer_column (p_purchaseCount p) in
  let! reach := integer_column (p_reach p) in
  let! videoPlay3sCount := integer_column_or_null (p_videoPlay3sCount p) in
  let! videoPlay25Count := integer_column_or_null (p_videoPlay25Count p) in
  let! videoPlay50Count := integer_column_or_null (p_videoPlay50Count p) in
  let! videoPlay75Count := integer_column_or_null (p_videoPlay75Count p) in
  let! videoPlay100Count := integer_column_or_null (p_videoPlay100Count p) in
  let! addToCartCount := integer_column_or_null (p_addToCartCount p) in
  let! frequency := decimalOrNull 12 6 (p_frequency p) in
  let! costPerResultUsd := decimalOrNull 14 4 (p_costPerResultUsd p) in
  let! spendUsd := decimal_column 14 4 (p_spendUsd p) in
  let! impressions := bigint_column (p_impressions p) in
  let! cpmUsd := decimalOrNull 14 4 (p_cpmUsd p) in
  let! linkClicks := integer_column (p_linkClicks p) in
  let! shopClicks := integer_column (p_shopClicks p) in
  let! cpcLinkUsd := decimalOrNull 14 4 (p_cpcLinkUsd p) in
  let! ctrLinkPct := decimalOrNull 10 6 (p_ctrLinkPct p) in
  let! clicksAll := integer_column (p_clicksAll p) in
  let! ctrAllPct := decimalOrNull 10 6 (p_ctrAllPct p) in
  let! cpcAllUsd := decimalOrNull 14 4 (p_cpcAllUsd p) in
  let! landingPageViews := integer_column (p_landingPageViews p) in
  let! costPerLandingPageViewUsd := decimalOrNull 14 4 (p_costPerLandingPageViewUsd p) in
  Ok (new_metric (a_batchId input) (Some (a_uploadRowId input)) importVersion {|
    c_campaignRefId := a_campaignRefId input; c_metaAdsetRefId := a_metaAdsetRefId input;
    c_metaAdRefId := a_metaAdRefId input; c_creativeId := a_creativeId input;
    c_metricDate := date_column (p_metricDate p);
    c_dateStart := date_column (p_dateStart p); c_dateEnd := date_column (p_dateEnd p);
    c_metaCampaignId := p_metaCampaignId p; c_campaignNameSnapshot := p_campaignName p;
    c_metaAdsetId := p_metaAdsetExternalId p; c_adsetNameSnapshot := p_adsetName p;
    c_metaAdId := p_metaAdId p; c_syntheticAdKey := p_syntheticAdKey p;
    c_adIdentityKey := p_adIdentityKey p; c_adNameSnapshot := p_adName p;
    c_adDeliveryStatus := p_adDeliveryStatus p; c_attributionSetting := p_attributionSetting p;
    c_resultIndicator := p_resultIndicator p;
    c_resultCount := resultCount; c_purchaseCount := purchaseCount; c_reach := reach;
    c_videoPlay3sCount := videoPlay3sCount; c_videoPlay25Count := videoPlay25Count;
    c_videoPlay50Count := videoPlay50Count; c_videoPlay75Count := videoPlay75Count;
    c_videoPlay100Count := videoPlay100Count; c_addToCartCount := addToCartCount;
    c_frequency := frequency; c_costPerResultUsd := costPerResultUsd;
    c_adsetBudgetLabel := p_adsetBudgetLabel p; c_adsetBudgetType := p_adsetBudgetType p;
    c_spendUsd := spendUsd; c_endStatus := p_endStatus p;
    c_qualityRanking := p_qualityRanking p; c_engagementRateRanking := p_engagementRateRanking p;
    c_conversionRateRanking := p_conversionRateRanking p;
    c_impressions := impressions; c_cpmUsd := cpmUsd;
    c_linkClicks := linkClicks; c_shopClicks := shopClicks; c_cpcLinkUsd := cpcLinkUsd; c_ctrLinkPct := ctrLinkPct;
    c_clicksAll := clicksAll; c_ctrAllPct := ctrAllPct; c_cpcAllUsd := cpcAllUsd;
    c_landingPageViews := landingPageViews; c_costPerLandingPageViewUsd := costPerLandingPageViewUsd;
    c_attribution := a_attribution input; c_rawRow := raw_json (a_rawRow input) |}).

Definition adsetMetricCreateData (input : MetricImportInput) (importVersion : Z)
    : result (str -> Z -> metric AdsetColumns) :=
  let q := i_parsedRow input in
  let! resultCount := integer_column (q_resultCount q) in
  let! reach := integer_column (q_reach q) in
  let! frequency := decimalOrNull 12 6 (q_frequency q) in
  let! costPerResultUsd := decimalOrNull 14 4 (q_costPerResultUsd q) in
  let! spendUsd := decimal_column 14 4 (q_spendUsd q) in
  let! impressions := bigint_column (q_impressions q) in
  let! cpmUsd := decimalOrNull 14 4 (q_cpmUsd q) in
  let! linkClicks := integer_column (q_linkClicks q) in
  let! shopClicks := integer_column (q_shopClicks q) in
  let! cpcLinkUsd := decimalOrNull 14 4 (q_cpcLinkUsd q) in
  let! ctrLinkPct := decimalOrNull 10 6 (q_ctrLinkPct q) in
  let! clicksAll := integer_column (q_clicksAll q) in
  let! ctrAllPct := decimalOrNull 10 6 (q_ctrAllPct q) in
  let! cpcAllUsd := decimalOrNull 14 4 (q_cpcAllUsd q) in
  let! landingPageViews := integer_column (q_landingPageViews q) in
  let! costPerLandingPageViewUsd := decimalOrNull 14 4 (q_costPerLandingPageViewUsd q) in
  Ok (new_metric (i_batchId input) (Some (i_uploadRowId input)) importVersion {|
    s_metaAdsetId := i_metaAdsetId input; s_metricDate := date_column (q_metricDate q);
    s_dateStart := date_column (q_dateStart q); s_dateEnd := date_column (q_dateEnd q);
    s_adsetName := q_adsetName q; s_adsetNameKey := q_adsetNameKey q;
    s_deliveryStatus := q_deliveryStatus q; s_attributionSetting := q_attributionSetting q;
    s_resultCount := resultCount; s_resultIndicator := q_resultIndicator q; s_reach := reach;
    s_frequency := frequency; s_costPerResultUsd := costPerResultUsd;
    s_adsetBudgetLabel := q_adsetBudgetLabel q; s_adsetBudgetType := q_adsetBudgetType q;
    s_spendUsd := spendUsd; s_endStatus := q_endStatus q; s_startDate := date_column <$> q_startDate q;
    s_impressions := impressions; s_cpmUsd := cpmUsd;
    s_linkClicks := linkClicks; s_shopClicks := shopClicks; s_cpcLinkUsd := cpcLinkUsd; s_ctrLinkPct := ctrLinkPct;
    s_clicksAll := clicksAll; s_ctrAllPct := ctrAllPct; s_cpcAllUsd := cpcAllUsd;
    s_landingPageViews := landingPageViews; s_costPerLandingPageViewUsd := costPerLandingPageViewUsd;
    s_attribution := i_attribution input; s_rawRow := raw_json (i_rawRow input) |}).

Definition adsetAggregateMetricCreateData (batchId : str) (input : AdsetAggregateInput) (importVersion : Z)
    : result (str -> Z -> metric AdsetColumns) :=
  let! resultCount := integer_column (g_purchaseCount input) in
  let! reach := integer_column (g_reach input) in
  let! frequency := decimalOrNull 12 6 (g_frequency input) in
  let! costPerResultUsd := decimalOrNull 14 4 (g_costPerResultUsd input) in
  let! spendUsd := decimal_column 14 4 (g_spendUsd input) in
  let! impressions := bigint_column (g_impressions input) in
  let! cpmUsd := decimalOrNull 14 4 (g_cpmUsd input) in
  let! linkClicks := integer_column (g_linkClicks input) in
  let! shopClicks := integer_column (g_shopClicks input) in
  let! cpcLinkUsd := decimalOrNull 14 4 (g_cpcLinkUsd input) in
  let! ctrLinkPct := decimalOrNull 10 6 (g_ctrLinkPct input) in
  let! clicksAll := integer_column (g_clicksAll input) in
  let! ctrAllPct := decimalOrNull 10 6 (g_ctrAllPct input) in
  let! cpcAllUsd := decimalOrNull 14 4 (g_cpcAllUsd input) in
  let! landingPageViews := integer_column (g_landingPageViews input) in
  let! costPerLandingPageViewUsd := decimalOrNull 14 4 (g_costPerLandingPageViewUsd input) in
  Ok (new_metric batchId None importVersion {|
    s_metaAdsetId := g_metaAdsetId input; s_metricDate := date_column (g_metricDate input);
    s_dateStart := date_column (g_dateStart input); s_dateEnd := date_column (g_dateEnd input);
    s_adsetName := g_adsetName input; s_adsetNameKey := g_adsetNameKey input;
    s_deliveryStatus := g_deliveryStatus input; s_attributionSetting := g_attributionSetting input;
    s_resultCount := resultCount; s_resultIndicator := g_resultIndicator input; s_reach := reach;
    s_frequency := frequency; s_costPerResultUsd := costPerResultUsd;
    s_adsetBudgetLabel := g_adsetBudgetLabel input; s_adsetBudgetType := g_adsetBudgetType input;
    s_spendUsd := spendUsd; s_endStatus := g_endStatus input; s_startDate := None;
    s_impressions := impressions; s_cpmUsd := cpmUsd;
    s_linkClicks := linkClicks; s_shopClicks := shopClicks; s_cpcLinkUsd := cpcLinkUsd; s_ctrLinkPct := ctrLinkPct;
    s_clicksAll := clicksAll; s_ctrAllPct := ctrAllPct; s_cpcAllUsd := cpcAllUsd;
    s_landingPageViews := landingPageViews; s_costPerLandingPageViewUsd := costPerLandingPageViewUsd;
    s_attribution := g_attribution input; s_rawRow := g_rawRow input |}).

(** ** meta-adset-aggregates.ts *)

Definition min_date (current : option Z) (next : Z) : Z :=
  match current with Some c => if c <? next then c else next | None => next end.

Definition max_date (current : option Z) (next : Z) : Z :=
  match current with Some c => if next <? c then c else next | None => next end.

Definition decimalNumber (value : dec) : num := dec_num value.

(** [Number(value)] of a [bigint], and an Int column read back. *)
Definition bigintNumber (value : Z) : num := ofZ value.

Definition sum {T} (rows : list T) (selector : T -> num) : num :=
  fold_left (fun total row => nadd total (selector row)) rows (ofZ 0).

Definition ratio (numerator denominator : num) : option num :=
  if negb (isFinite numerator) || negb (isFinite denominator) || neqb denominator (ofZ 0) then None
  else Some (ndiv numerator denominator).

Definition firstNonNull {T} (values : list (option T)) : option T :=
  mjoin (List.find (fun v => match v with Some _ => true | None => false end) values).

(** The values that [Boolean] accepts. *)
Definition truthy_values (values : list (option str)) : list str :=
  List.filter truthy (omap (fun v => v) values).

Definition chooseDeliveryStatus (values : list (option str)) : option str :=
  let normalized := map to_lower (truthy_values values) in
  if bool_decide (js "active" ∈ normalized) then Some (js "active")
  else if bool_decide (js "inactive" ∈ normalized) then Some (js "inactive")
  else head (truthy_values values).

Definition unmatchedProductAttribution : option str * MatchSourceValue * option str := (None, UNMATCHED, None).

Definition aggregateProductAttribution (rows : list (metric AdColumns)) : option str * MatchSourceValue * option str :=
  let attribution r := c_attribution (columns r) in
  if (List.length rows =? 0)%nat || existsb (fun r => negb (from_option truthy false (productId (attribution r)))) rows
  then unmatchedProductAttribution
  else
    match js_unique (truthy_values (map (fun r => productId (attribution r)) rows)) with
    | [product] =>
        let sources := js_unique (List.filter (fun s => bool_decide (s <> UNMATCHED))
                                              (map (fun r => productMatchSource (attribution r)) rows)) in
        let source :=
          match sources with
          | [s] => s
          | _ => if bool_decide (MANUAL ∈ sources) then MANUAL
                 else if bool_decide (RULE ∈ sources) then RULE
                 else INFERRED
          end in
        let ruleIds := js_unique (truthy_values (map (fun r => productMatchRuleId (attribution r)) rows)) in
        (Some product, source,
         match source, ruleIds with RULE, [rule] => Some rule | _, _ => None end)
    | _ => unmatchedProductAttribution
    end.

Definition aggregateAdRows (rows : list (metric AdColumns)) : result AdsetAggregateInput :=
  match rows with
  | [] => Throws type_error
  | first :: _ =>
      let last := List.last rows first in
      let f := columns first in
      let l := columns last in
      let column {T} (c : AdColumns -> T) := map (fun row => c (columns row)) rows in
      let '(product, productSource, ruleId) := aggregateProductAttribution rows in
      let spendUsd := sum rows (fun row => decimalNumber (c_spendUsd (columns row))) in
      let count c := sum rows (fun row => bigintNumber (c (columns row))) in
      let purchaseCount := count c_purchaseCount in
      let reach := count c_reach in
      let impressions := count c_impressions in
      let linkClicks := count c_linkClicks in
      let shopClicks := count c_shopClicks in
      let clicksAll := count c_clicksAll in
      let landingPageViews := count c_landingPageViews in
      Ok {|
        g_metaAdsetId := c_metaAdsetRefId f; g_metricDate := c_metricDate f;
        g_dateStart := fold_left (fun current d => Some (min_date current d)) (column c_dateStart) None ?? c_dateStart f;
        g_dateEnd := fold_left (fun current d => Some (max_date current d)) (column c_dateEnd) None ?? c_dateEnd f;
        g_adsetName := c_adsetNameSnapshot l; g_adsetNameKey := toKey (c_adsetNameSnapshot l);
        g_deliveryStatus := chooseDeliveryStatus (column c_adDeliveryStatus);
        g_attributionSetting := firstNonNull (column c_attributionSetting);
        g_resultIndicator := firstNonNull (column c_resultIndicator);
        g_purchaseCount := purchaseCount; g_reach := reach;
        g_frequency := ratio impressions reach;
        g_costPerResultUsd := ratio spendUsd purchaseCount;
        g_adsetBudgetLabel := firstNonNull (column c_adsetBudgetLabel);
        g_adsetBudgetType := firstNonNull (column c_adsetBudgetType);
        g_spendUsd := spendUsd;
        g_endStatus := firstNonNull (column c_endStatus);
        g_impressions := impressions;
        g_cpmUsd := ratio (nmul spendUsd (ofZ 1000)) impressions;
        g_linkClicks := linkClicks; g_shopClicks := shopClicks;
        g_cpcLinkUsd := ratio spendUsd linkClicks;
        g_ctrLinkPct := ratio (nmul linkClicks (ofZ 100)) impressions;
        g_clicksAll := clicksAll;
        g_ctrAllPct := ratio (nmul clicksAll (ofZ 100)) impressions;
        g_cpcAllUsd := ratio spendUsd clicksAll;
        g_landingPageViews := landingPageViews;
        g_costPerLandingPageViewUsd := ratio spendUsd landingPageViews;
        g_attribution := {| productId := product; productMatchSource := productSource;
                            productMatchRuleId := ruleId;
                            stage := stage (c_attribution l); stageMatchSource := stageMatchSource (c_attribution l) |};
        g_rawRow := JObj [(js "source", JStr (js "meta_ad_daily_metrics"));
                          (js "metricIds", JArr (map (fun row => JStr (id row)) rows));
                          (js "metaCampaignId", JStr (c_metaCampaignId f));
                          (js "metaAdsetId", JStr (c_metaAdsetId f));
                          (js "adCount", JNum (ofZ (Z.of_nat (List.length rows))))]
      |}
  end.
End rows.
