(* ===== verification/MetaVersions.v ===== *)
(** * Versions of Meta metrics

    uploads/meta-metric-version.service.ts, meta-adset-aggregate.service.ts, the
    keys of upload-keys.ts, and of upload-lifecycle.service.ts what a deleted
    upload leaves of the metrics and the creatives.

    The rows of a table with one key (a day of an ad or of an ad set) are its
    versions, of which one may be current.  The statements on the two tables are
    the same, so they are defined over the class [MetricTable].  [uuid n] is the
    n-th identifier drawn; [collate] orders texts as the database does. *)

From S2P Require Import Prelude JsNumber JsString JsDate.
From S2P Require Import DateNumber.
From S2P Require Import Metrics.
From S2P Require Import Matching.
From S2P Require Import Decision.
From S2P Require Import Concurrency.
From S2P Require Import RequestBody.
From S2P Require Import MetaRows.

Local Open Scope Z_scope.

(** The text [a:b]. *)
Definition colon (a b : str) : str := a ++ js ":" ++ b.

(** The key of the rows of a table, its day, and its text in a snapshot. *)
Class MetricTable (D K : Type) := {
  key_of : D -> K;
  day_of : K -> Z;
  text_of : K -> str
}.

Definition nextImportVersion (latestVersion : option Z) : Z := latestVersion ?? 0 + 1.

Definition unique_conflict : js_error := {| err_status := 0; err_code := js "P2002" |}.

Section table.
Context {D K : Type} `{EqDecision K, MetricTable D K}.
Implicit Types rows : list (metric D).

Definition metric_key (r : metric D) : K := key_of (columns r).
Definition has_key (k : K) (r : metric D) : bool := bool_decide (metric_key r = k).
Definition on_days (days : list Z) (r : metric D) : bool := bool_decide (day_of (metric_key r) ∈ map date_column days).

Definition with_current (b : bool) (r : metric D) : metric D :=
  {| id := id r; uploadBatchId := uploadBatchId r; uploadRowId := uploadRowId r;
     importVersion := importVersion r; isCurrent := b;
     supersededByMetricId := supersededByMetricId r; createdAt := createdAt r; columns := columns r |}.

Definition with_superseded (s : option str) (r : metric D) : metric D :=
  {| id := id r; uploadBatchId := uploadBatchId r; uploadRowId := uploadRowId r;
     importVersion := importVersion r; isCurrent := isCurrent r;
     supersededByMetricId := s; createdAt := createdAt r; columns := columns r |}.

(** [updateMany({ where: p, data: f })]. *)
Definition update_where (p : metric D -> bool) (f : metric D -> metric D) rows : list (metric D) :=
  map (fun r => if p r then f r else r) rows.

Definition is_row (i : str) (r : metric D) : bool := str_eqb (id r) i.
Definition id_in (l : list str) (r : metric D) : bool := bool_decide (id r ∈ l).

(** The constraints of the table: [id], the upload row if there is one, and the
    key with the version are unique. *)
Definition conflicts (x y : metric D) : bool :=
  str_eqb (id x) (id y)
  || (has_key (metric_key x) y && (importVersion x =? importVersion y))
  || match uploadRowId x, uploadRowId y with Some a, Some b => str_eqb a b | _, _ => false end.

Definition create_metric (x : metric D) rows : result (list (metric D)) :=
  if existsb (conflicts x) rows then Throws unique_conflict else Ok (rows ++ [x]).

(** *** Importing a row *)

Definition version_desc (a b : metric D) : Z := importVersion b - importVersion a.
Definition version_rows (k : K) rows : list (metric D) := js_sort version_desc (List.filter (has_key k) rows).

(** The common body of [importAdDailyMetric], [importMetric] and
    [importAdsetAggregateMetric]: [true] if the row was imported, [false] if it
    was skipped. *)
Definition import_version (policy : ConflictPolicyValue) (k : K)
    (createData : Z -> result (str -> Z -> metric D)) (newId : str) (now : Z) rows
    : result (bool * list (metric D)) :=
  let existingRows := version_rows k rows in
  let current := List.find isCurrent existingRows in
  let importVersion := nextImportVersion (importVersion <$> head existingRows) in
  let decision := resolve_duplicate policy (match current with Some _ => true | None => false end) in
  if negb (importMetric decision) then Ok (false, rows)
  else
    let superseded := if supersedeExisting decision then id <$> current else None in
    let rows1 := match superseded with Some i => update_where (is_row i) (with_current false) rows | None => rows end in
    let! data := createData importVersion in
    let created := data newId now in
    let! rows2 := create_metric created rows1 in
    Ok (true, match superseded with
              | Some i => update_where (is_row i) (with_superseded (Some (id created))) rows2
              | None => rows2
              end).

(** *** Hiding what a snapshot does not have *)

Definition findMissingSnapshotMetricIds (currentMetrics : list (metric D)) (includedKeys : list str) : list str :=
  map id (List.filter (fun r => negb (bool_decide (text_of (metric_key r) ∈ includedKeys))) currentMetrics).

Definition deactivate_missing (snapshotDates : list Z) (includedKeys : list str) rows : Z * list (metric D) :=
  if (List.length snapshotDates =? 0)%nat || (List.length includedKeys =? 0)%nat then (0, rows)
  else
    let currentMetrics := List.filter (fun r => isCurrent r && on_days snapshotDates r) rows in
    let staleIds := findMissingSnapshotMetricIds currentMetrics includedKeys in
    if (List.length staleIds =? 0)%nat then (0, rows)
    else (Z.of_nat (List.length (List.filter (id_in staleIds) rows)),
          update_where (id_in staleIds) (with_current false) rows).

(** *** Deleting an upload *)

(** [uniqueAdMetricKeys], [uniqueAdsetMetricKeys]: by the texts of the keys. *)
Definition unique_keys (metrics : list (metric D)) : list (metric D) :=
  map_values (fold_left (fun unique m => map_set unique (text_of (metric_key m)) m) metrics []).

(** [orderBy: [{ importVersion: "desc" }, { createdAt: "desc" }]]. *)
Definition latest_created_first (a b : metric D) : Z := (importVersion b - importVersion a) ||| (createdAt b - createdAt a).

Definition restore_step (acc : Z * list (metric D)) (m : metric D) : Z * list (metric D) :=
  let '(restoredCount, rows) := acc in
  let k := metric_key m in
  let cleared := update_where (has_key k) (with_current false) rows in
  match head (js_sort latest_created_first (List.filter (has_key k) cleared)) with
  | Some replacement =>
      (restoredCount + 1,
       update_where (is_row (id replacement)) (fun r => with_superseded None (with_current true r)) cleared)
  | None => (restoredCount, cleared)
  end.

(** [restoreCurrentAdMetrics], [restoreCurrentAdsetMetrics]. *)
Definition restore_versions (metrics : list (metric D)) rows : Z * list (metric D) :=
  fold_left restore_step (unique_keys metrics) (0, rows).

Definition of_batch (batchId : str) (r : metric D) : bool := str_eqb (uploadBatchId r) batchId.

Definition superseded_by (l : list str) (r : metric D) : bool :=
  match supersededByMetricId r with Some i => bool_decide (i ∈ l) | None => false end.

(** What [deleteUpload] does to a table before it restores: the rows of the
    upload, and those that remain. *)
Definition remove_batch (batchId : str) rows : list (metric D) * list (metric D) :=
  let deleted := List.filter (of_batch batchId) rows in
  let remaining := List.filter (fun r => negb (of_batch batchId r)) rows in
  (deleted,
   if (0 <? List.length deleted)%nat
   then update_where (superseded_by (map id deleted)) (with_superseded None) remaining
   else remaining).

Definition delete_metrics (batchId : str) rows : Z * list (metric D) :=
  let '(deleted, remaining) := remove_batch batchId rows in
  restore_versions deleted remaining.
End table.

(** ** The two tables *)

(** Day, campaign, ad set and ad; day and ad set. *)
Definition AdKey : Type := Z * str * str * str.
Definition AdsetKey : Type := Z * str.

Definition snapshotAdMetricKey (k : AdKey) : str :=
  let '(metricDate, metaCampaignId, metaAdsetId, adIdentityKey) := k in
  colon (formatDateOnly metricDate) (colon metaCampaignId (colon metaAdsetId adIdentityKey)).

Definition snapshotMetricKey (k : AdsetKey) : str := colon (formatDateOnly k.1) k.2.

Section tables.
Context `{Icu, DecimalNumber}.

#[export] Instance ad_table : MetricTable AdColumns AdKey := {
  key_of c := (c_metricDate c, c_metaCampaignId c, c_metaAdsetId c, c_adIdentityKey c);
  day_of k := k.1.1.1;
  text_of := snapshotAdMetricKey
}.

#[export] Instance adset_table : MetricTable AdsetColumns AdsetKey := {
  key_of c := (s_metricDate c, s_metaAdsetId c);
  day_of k := k.1;
  text_of := snapshotMetricKey
}.

(** Of the creatives and what belongs to them, the columns that deleting an
    upload looks at. *)
Record Creative := { cr_id : str; cr_isActive : bool }.
Record CreativeAlias := { al_creativeId : str; al_originalKey : str }.
Record CreativePlacement := {
  pl_creativeId : str; pl_metaCampaignId : str; pl_metaAdsetId : str; pl_originalAdName : str }.
Record CreativeChangeLog := { lg_creativeId : str; lg_reason : str }.

Record MetaDb := {
  adMetrics : list (metric AdColumns);
  adsetMetrics : list (metric AdsetColumns);
  creatives : list Creative;
  aliases : list CreativeAlias;
  placements : list CreativePlacement;
  changeLogs : list CreativeChangeLog;
  now : Z;
  drawn : nat
}.

Definition set_ads (rows : list (metric AdColumns)) (w : MetaDb) : MetaDb :=
  {| adMetrics := rows; adsetMetrics := adsetMetrics w; creatives := creatives w; aliases := aliases w;
     placements := placements w; changeLogs := changeLogs w; now := now w; drawn := drawn w |}.

Definition set_adsets (rows : list (metric AdsetColumns)) (w : MetaDb) : MetaDb :=
  {| adMetrics := adMetrics w; adsetMetrics := rows; creatives := creatives w; aliases := aliases w;
     placements := placements w; changeLogs := changeLogs w; now := now w; drawn := drawn w |}.

Definition draw (w : MetaDb) : MetaDb :=
  {| adMetrics := adMetrics w; adsetMetrics := adsetMetrics w; creatives := creatives w; aliases := aliases w;
     placements := placements w; changeLogs := changeLogs w; now := now w; drawn := S (drawn w) |}.

Definition set_creatives (cs : list Creative) (als : list CreativeAlias) (pls : list CreativePlacement)
    (lgs : list CreativeChangeLog) (w : MetaDb) : MetaDb :=
  {| adMetrics := adMetrics w; adsetMetrics := adsetMetrics w; creatives := cs; aliases := als;
     placements := pls; changeLogs := lgs; now := now w; drawn := drawn w |}.

Context (uuid : nat -> str) (collate : str -> str -> Z).

(** ** meta-metric-version.service.ts *)

Definition ad_key_of_row (p : ParsedMetaAdDailyRow) : AdKey :=
  (date_column (p_metricDate p), p_metaCampaignId p, p_metaAdsetExternalId p, p_adIdentityKey p).

Definition imported_ads (x : bool * list (metric AdColumns)) (w : MetaDb) : bool * MetaDb :=
  (x.1, if x.1 then draw (set_ads x.2 w) else w).

Definition imported_adsets (x : bool * list (metric AdsetColumns)) (w : MetaDb) : bool * MetaDb :=
  (x.1, if x.1 then draw (set_adsets x.2 w) else w).

Definition importAdDailyMetric (input : AdMetricImportInput) : TX MetaDb bool := fun w =>
  let! x := import_version (a_conflictPolicy input) (ad_key_of_row (a_parsedRow input))
              (adDailyMetricCreateData input) (uuid (drawn w)) (now w) (adMetrics w) in
  Ok (imported_ads x w).

Definition importMetric (input : MetricImportInput) : TX MetaDb bool := fun w =>
  let! x := import_version (i_conflictPolicy input)
              (date_column (q_metricDate (i_parsedRow input)), i_metaAdsetId input)
              (adsetMetricCreateData input) (uuid (drawn w)) (now w) (adsetMetrics w) in
  Ok (imported_adsets x w).

Definition importAdsetAggregateMetric (batchId : str) (input : AdsetAggregateInput) (policy : ConflictPolicyValue)
    : TX MetaDb bool := fun w =>
  let! x := import_version policy (date_column (g_metricDate input), g_metaAdsetId input)
              (adsetAggregateMetricCreateData batchId input) (uuid (drawn w)) (now w) (adsetMetrics w) in
  Ok (imported_adsets x w).

Definition deactivateMissingSnapshotMetrics (snapshotDates : list Z) (includedKeys : list str)
    : TX MetaDb Z := fun w =>
  let '(count, rows) := deactivate_missing snapshotDates includedKeys (adsetMetrics w) in
  Ok (count, set_adsets rows w).

Definition deactivateMissingAdSnapshotMetrics (snapshotDates : list Z) (includedKeys : list str)
    : TX MetaDb Z := fun w =>
  let '(count, rows) := deactivate_missing snapshotDates includedKeys (adMetrics w) in
  Ok (count, set_ads rows w).

(** ** meta-adset-aggregate.service.ts *)

(** [orderBy: [{ metricDate: "asc" }, { adsetNameSnapshot: "asc" }, { adNameSnapshot: "asc" }]]. *)
Definition by_day_and_name (a b : metric AdColumns) : Z :=
  (c_metricDate (columns a) - c_metricDate (columns b))
  ||| collate (c_adsetNameSnapshot (columns a)) (c_adsetNameSnapshot (columns b))
  ||| collate (c_adNameSnapshot (columns a)) (c_adNameSnapshot (columns b)).

Definition current_ads_on (snapshotDates : list Z) (rows : list (metric AdColumns)) : list (metric AdColumns) :=
  js_sort by_day_and_name (List.filter (fun r => isCurrent r && on_days snapshotDates r) rows).

Definition group_key (r : metric AdColumns) : str :=
  colon (formatDateOnly (c_metricDate (columns r))) (c_metaAdsetRefId (columns r)).

Definition group_metrics (metrics : list (metric AdColumns)) : list (str * list (metric AdColumns)) :=
  group_by group_key metrics.

(** The imported groups: their number and the keys of their rows. *)
Fixpoint import_groups (batchId : str) (groups : list (list (metric AdColumns)))
    : TX MetaDb (Z * list str) :=
  match groups with
  | [] => tx_ret (0, [])
  | rows :: rest =>
      tx! aggregate := tx_lift (aggregateAdRows rows) in
      tx! imported := importAdsetAggregateMetric batchId aggregate OVERWRITE in
      tx! (importedCount, includedAdsetKeys) := import_groups batchId rest in
      tx_ret (if imported
              then (importedCount + 1,
                    snapshotMetricKey (g_metricDate aggregate, g_metaAdsetId aggregate) :: includedAdsetKeys)
              else (importedCount, includedAdsetKeys))
  end.

Definition refreshAdsetAggregatesFromAdMetrics (batchId : str) (snapshotDates : list Z)
    : TX MetaDb Z :=
  if (List.length snapshotDates =? 0)%nat then tx_ret 0
  else
    tx! groups := tx_get (fun w => map_values (group_metrics (current_ads_on snapshotDates (adMetrics w)))) in
    tx! (importedCount, includedAdsetKeys) := import_groups batchId groups in
    tx! _ := (if (0 <? List.length includedAdsetKeys)%nat
              then deactivateMissingSnapshotMetrics snapshotDates includedAdsetKeys
              else tx_ret 0) in
    tx_ret importedCount.

(** ** The metrics of an import

    The loop of [importMetaAdDailyCsv] over the lines, of which [None] has
    issues, and what follows it.  [includedAdKeys] and [snapshotDatesByKey] are
    the set and the map of the import. *)
Record AdImportState := {
  errorCount : Z;
  importedAdMetricCount : Z;
  skippedDuplicateCount : Z;
  snapshotDatesByKey : list (str * Z);
  includedAdKeys : list str
}.

Definition import_ad_line (st : AdImportState) (line : option AdMetricImportInput)
    : TX MetaDb AdImportState :=
  match line with
  | None =>
      tx_ret {| errorCount := errorCount st + 1; importedAdMetricCount := importedAdMetricCount st;
                skippedDuplicateCount := skippedDuplicateCount st;
                snapshotDatesByKey := snapshotDatesByKey st; includedAdKeys := includedAdKeys st |}
  | Some input =>
      let p := a_parsedRow input in
      tx! imported := importAdDailyMetric input in
      tx_ret {| errorCount := errorCount st;
                importedAdMetricCount := importedAdMetricCount st + (if imported then 1 else 0);
                skippedDuplicateCount := skippedDuplicateCount st + (if imported then 0 else 1);
                snapshotDatesByKey :=
                  map_set (snapshotDatesByKey st) (formatDateOnly (p_metricDate p)) (p_metricDate p);
                includedAdKeys :=
                  includedAdKeys st
                  ++ [snapshotAdMetricKey (p_metricDate p, p_metaCampaignId p, p_metaAdsetExternalId p,
                                           p_adIdentityKey p)] |}
  end.

Fixpoint import_ad_lines (st : AdImportState) (lines : list (option AdMetricImportInput))
    : TX MetaDb AdImportState :=
  match lines with
  | [] => tx_ret st
  | line :: rest => tx! st' := import_ad_line st line in import_ad_lines st' rest
  end.

Definition no_ad_lines : AdImportState :=
  {| errorCount := 0; importedAdMetricCount := 0; skippedDuplicateCount := 0;
     snapshotDatesByKey := []; includedAdKeys := [] |}.

(** The state after the lines, the number of hidden rows and of ad sets. *)
Definition import_ad_metrics (batchId : str) (lines : list (option AdMetricImportInput))
    : TX MetaDb (AdImportState * Z * Z) :=
  tx! st := import_ad_lines no_ad_lines lines in
  let snapshotDates := map_values (snapshotDatesByKey st) in
  if (errorCount st =? 0) && (0 <? List.length (includedAdKeys st))%nat then
    tx! hidden := deactivateMissingAdSnapshotMetrics snapshotDates (includedAdKeys st) in
    tx! refreshed := refreshAdsetAggregatesFromAdMetrics batchId snapshotDates in
    tx_ret (st, hidden, refreshed)
  else tx_ret (st, 0, 0).

(** ** Deleting an upload *)

(** [Array.from(new Set(values.map((value) => value.trim()).filter(Boolean)))]. *)
Definition uniqueStrings (values : list str) : list str := js_unique (List.filter truthy (map trim values)).

(** [deleteMany({ where: p })]: the number of deleted rows, and the others. *)
Definition delete_many {A} (p : A -> bool) (rows : list A) : Z * list A :=
  (Z.of_nat (List.length (List.filter p rows)), List.filter (fun r => negb (p r)) rows).

Record CreativeCleanup := {
  deletedCreativePlacementCount : Z;
  deletedCreativeAliasCount : Z;
  deletedCreativeLogCount : Z;
  deletedCreativeCount : Z;
  deactivatedCreativeCount : Z
}.

Definition emptyCreativeCleanup : CreativeCleanup :=
  {| deletedCreativePlacementCount := 0; deletedCreativeAliasCount := 0; deletedCreativeLogCount := 0;
     deletedCreativeCount := 0; deactivatedCreativeCount := 0 |}.

Definition creativePlacementCleanupKey (m : metric AdColumns) : CreativePlacement :=
  {| pl_creativeId := c_creativeId (columns m) ?? []; pl_metaCampaignId := c_metaCampaignId (columns m);
     pl_metaAdsetId := c_metaAdsetId (columns m); pl_originalAdName := c_adNameSnapshot (columns m) |}.

Definition placementKeyToString (k : CreativePlacement) : str :=
  colon (pl_creativeId k) (colon (pl_metaCampaignId k) (colon (pl_metaAdsetId k) (pl_originalAdName k))).

(** [creativePlacementWhere(key)]: the placements with the columns of [key]. *)
Definition placement_where (k p : CreativePlacement) : bool :=
  str_eqb (pl_creativeId p) (pl_creativeId k) && str_eqb (pl_metaCampaignId p) (pl_metaCampaignId k)
  && str_eqb (pl_metaAdsetId p) (pl_metaAdsetId k) && str_eqb (pl_originalAdName p) (pl_originalAdName k).

Definition creativeOriginalKey (m : metric AdColumns) : str :=
  trim (originalName (parse (c_adNameSnapshot (columns m)))).

(** The creatives of rows, and the alias keys of the rows of one creative. *)
Definition creative_ids (metrics : list (metric AdColumns)) : list str :=
  truthy_values (map (fun m => c_creativeId (columns m)) metrics).

Definition of_creative (i : str) (m : metric AdColumns) : bool := bool_decide (c_creativeId (columns m) = Some i).

Definition alias_keys (metrics : list (metric AdColumns)) (i : str) : list str :=
  js_unique (map creativeOriginalKey (List.filter (of_creative i) metrics)).

Definition cleanupCreativeDataAfterMetricDelete (metrics : list (metric AdColumns)) : TX MetaDb CreativeCleanup := fun w =>
  let deletedMetrics := List.filter (fun m => from_option truthy false (c_creativeId (columns m))) metrics in
  let creativeIds := uniqueStrings (creative_ids deletedMetrics) in
  if (List.length creativeIds =? 0)%nat then Ok (emptyCreativeCleanup, w)
  else
    let remainingMetrics :=
      List.filter (fun m => from_option (fun i => bool_decide (i ∈ creativeIds)) false (c_creativeId (columns m)))
                  (adMetrics w) in
    let remaining i := bool_decide (i ∈ creative_ids remainingMetrics) in
    let current i := bool_decide (i ∈ creative_ids (List.filter isCurrent remainingMetrics)) in
    let orphanCreativeIds := List.filter (fun i => negb (remaining i)) creativeIds in
    let survivingCreativeIds := List.filter remaining creativeIds in
    let orphan i := bool_decide (i ∈ orphanCreativeIds) in
    let '(orphanLogs, logs1) := delete_many (fun l => orphan (lg_creativeId l)) (changeLogs w) in
    let '(orphanPlacements, placements1) := delete_many (fun p => orphan (pl_creativeId p)) (placements w) in
    let '(orphanAliases, aliases1) := delete_many (fun a => orphan (al_creativeId a)) (aliases w) in
    let '(orphanCreatives, creatives1) := delete_many (fun c => orphan (cr_id c)) (creatives w) in
    let survivors := List.filter (fun m => negb (orphan (c_creativeId (columns m) ?? []))) deletedMetrics in
    let deletedPlacementKeys :=
      fold_left (fun keys m => let k := creativePlacementCleanupKey m in map_set keys (placementKeyToString k) k)
                survivors [] in
    let remainingPlacementKeys := map (fun m => placementKeyToString (creativePlacementCleanupKey m)) remainingMetrics in
    let obsoletePlacements :=
      List.filter (fun k => negb (bool_decide (placementKeyToString k ∈ remainingPlacementKeys)))
                  (map_values deletedPlacementKeys) in
    let '(stalePlacements, placements2) :=
      delete_many (fun p => existsb (fun k => placement_where k p) obsoletePlacements) placements1 in
    let obsoleteAliases :=
      map (fun i => (i, List.filter (fun a => negb (bool_decide (a ∈ alias_keys remainingMetrics i)))
                                    (alias_keys survivors i)))
          (js_unique (creative_ids survivors)) in
    let '(staleAliases, aliases2) :=
      delete_many (fun a => existsb (fun '(i, ks) => str_eqb (al_creativeId a) i && bool_decide (al_originalKey a ∈ ks))
                                    obsoleteAliases) aliases1 in
    let deactivatedCreativeIds := List.filter (fun i => negb (current i)) survivingCreativeIds in
    let deactivated c := bool_decide (cr_id c ∈ deactivatedCreativeIds) in
    let creatives2 :=
      map (fun c => if deactivated c then {| cr_id := cr_id c; cr_isActive := false |} else c) creatives1 in
    Ok ({| deletedCreativePlacementCount := orphanPlacements + stalePlacements;
           deletedCreativeAliasCount := orphanAliases + staleAliases;
           deletedCreativeLogCount := orphanLogs;
           deletedCreativeCount := orphanCreatives;
           deactivatedCreativeCount := Z.of_nat (List.length (List.filter deactivated creatives1)) |},
        set_creatives creatives2 aliases2 placements2 logs1 w).

Record DeletedCounts := {
  deletedAdMetricCount : Z;
  deletedAdsetMetricCount : Z;
  restoredAdCurrentCount : Z;
  restoredAdsetCurrentCount : Z;
  creativeCleanup : CreativeCleanup
}.

Definition count_of {A} (l : list A) : Z := Z.of_nat (List.length l).

(** The metrics and creatives of the transaction of [deleteUpload]. *)
Definition delete_upload_metrics (batchId : str) : TX MetaDb DeletedCounts :=
  tx! (ads, adsets, restoredAds, restoredAdsets) := (fun w =>
    let '(ads, remainingAds) := remove_batch batchId (adMetrics w) in
    let '(adsets, remainingAdsets) := remove_batch batchId (adsetMetrics w) in
    let '(restoredAds, ads') := restore_versions ads remainingAds in
    let '(restoredAdsets, adsets') := restore_versions adsets remainingAdsets in
    Ok ((ads, adsets, restoredAds, restoredAdsets), set_adsets adsets' (set_ads ads' w))) in
  tx! cleanup := cleanupCreativeDataAfterMetricDelete ads in
  tx_ret {| deletedAdMetricCount := count_of ads; deletedAdsetMetricCount := count_of adsets;
            restoredAdCurrentCount := restoredAds; restoredAdsetCurrentCount := restoredAdsets;
            creativeCleanup := cleanup |}.

(** ** Everything that happens to the tables

    One transaction that succeeded, or time that passes. *)
Inductive meta_step (w : MetaDb) : MetaDb -> Prop :=
  | step_ads batchId lines r w' : import_ad_metrics batchId lines w = Ok (r, w') -> meta_step w w'
  | step_adset input r w' : importMetric input w = Ok (r, w') -> meta_step w w'
  | step_hide days keys r w' : deactivateMissingSnapshotMetrics days keys w = Ok (r, w') -> meta_step w w'
  | step_delete batchId r w' : delete_upload_metrics batchId w = Ok (r, w') -> meta_step w w'
  | step_time t : meta_step w
      {| adMetrics := adMetrics w; adsetMetrics := adsetMetrics w; creatives := creatives w;
         aliases := aliases w; placements := placements w; changeLogs := changeLogs w;
         now := t; drawn := drawn w |}.
End tables.
