(* ===== verification/MetaTables.v ===== *)
(** * Tables of versions

    What the statements of MetaVersions do to a table whose current rows are the
    newest of their keys: what one import does, that every statement keeps the
    table so, and how a table after the imports of an upload compares to the one
    before. *)

From S2P Require Import Prelude JsNumber JsString JsDate.
From S2P Require Import Decision.
From S2P Require Import MetaRows.
From S2P Require Import MetaVersions.

Local Open Scope Z_scope.

Section table.
Context {D K : Type} `{EqDecision K, MetricTable D K}.
Implicit Types rows : list (metric D).

(** Identifiers and the versions of a key are unique; a current row is the
    newest of its key and not superseded; a row is superseded by one of [ids]. *)
Record table_ok_in (ids : list str) rows : Prop := {
  ok_ids : NoDup (map id rows);
  ok_versions r s : r ∈ rows -> s ∈ rows -> metric_key r = metric_key s -> importVersion r = importVersion s -> r = s;
  ok_newest r s : r ∈ rows -> s ∈ rows -> isCurrent r = true -> metric_key s = metric_key r ->
    importVersion s <= importVersion r;
  ok_current r : r ∈ rows -> isCurrent r = true -> supersededByMetricId r = None;
  ok_refs r i : r ∈ rows -> supersededByMetricId r = Some i -> i ∈ ids
}.

Definition table_ok rows : Prop := table_ok_in (map id rows) rows.

Lemma table_ok_nil : table_ok [].
Proof. split; intros; try by (exfalso; set_solver). constructor. Qed.

(** ** One current row *)

Lemma metric_same_id ids rows r s : table_ok_in ids rows -> r ∈ rows -> s ∈ rows -> id r = id s -> r = s.
Proof.
  intros [N _ _ _ _]. revert r s. induction rows as [|x rows IH]; intros r s; [by intros ?%elem_of_nil|].
  simpl in N. apply NoDup_cons in N as [Nx N]. rewrite !elem_of_cons.
  intros [->|Ir] [->|Is] E; [done| | |by apply IH].
  - destruct Nx. rewrite E. by apply list_elem_of_fmap_2.
  - destruct Nx. rewrite <- E. by apply list_elem_of_fmap_2.
Qed.

Lemma one_current ids rows r s : table_ok_in ids rows -> r ∈ rows -> s ∈ rows -> metric_key r = metric_key s ->
  isCurrent r = true -> isCurrent s = true -> r = s.
Proof.
  intros T Ir Is E Cr Cs. apply (ok_versions _ rows T); [done..|].
  pose proof (ok_newest _ rows T r s Ir Is Cr ltac:(done)). pose proof (ok_newest _ rows T s r Is Ir Cs ltac:(done)). lia.
Qed.

Lemma has_key_true k (r : metric D) : has_key k r = true <-> metric_key r = k.
Proof. apply bool_decide_eq_true. Qed.

Lemma elem_version_rows k rows r : r ∈ version_rows k rows <-> r ∈ rows /\ metric_key r = k.
Proof. unfold version_rows. by rewrite elem_of_js_sort, elem_of_filterb, has_key_true. Qed.

Lemma find_current k rows c : table_ok rows ->
  List.find isCurrent (version_rows k rows) = Some c <-> c ∈ rows /\ metric_key c = k /\ isCurrent c = true.
Proof.
  intros T. split.
  - intros (l1 & l2 & E & C & _)%find_some_iff. split_and!; [| |done].
    + apply (elem_version_rows k). rewrite E. set_solver.
    + apply (elem_version_rows k rows). rewrite E. set_solver.
  - intros (I & Kc & C). destruct (List.find _ _) as [c'|] eqn:F.
    + apply find_some_iff in F as (l1 & l2 & E & C' & _). f_equal.
      assert (c' ∈ version_rows k rows) as [I' Kc']%elem_version_rows by (rewrite E; set_solver).
      apply (one_current (map id rows) rows); try done. congruence.
    + apply find_none_iff with (y := c) in F; [congruence|]. by apply elem_version_rows.
Qed.

Lemma find_no_current k rows : List.find isCurrent (version_rows k rows) = None <->
  forall c, c ∈ rows -> metric_key c = k -> isCurrent c = false.
Proof.
  rewrite find_none_iff. split; intros F c.
  - intros I Kc. apply F. by apply elem_version_rows.
  - intros [I Kc]%elem_version_rows. by apply F.
Qed.

#[export] Instance version_desc_comparator : Comparator (version_desc (D := D)).
Proof. unfold version_desc. apply _. Qed.

#[export] Instance latest_created_first_comparator : Comparator (latest_created_first (D := D)).
Proof. unfold latest_created_first. apply _. Qed.

(** The next version is above all. *)
Lemma next_version_above k rows r : r ∈ rows -> metric_key r = k ->
  importVersion r < nextImportVersion (importVersion <$> head (version_rows k rows)).
Proof.
  intros I E. assert (X : r ∈ version_rows k rows) by by apply elem_version_rows.
  destruct (version_rows k rows) as [|x l] eqn:F; [by apply elem_of_nil in X|].
  unfold version_rows in F. apply js_sort_head in F as [_ M]; [|apply _].
  assert (version_desc x r <= 0) as L by (apply M; by rewrite elem_of_filterb, has_key_true).
  unfold version_desc in L. unfold nextImportVersion. cbn. lia.
Qed.

(** ** Importing one row *)

(** What the current row of a key becomes. *)
Definition supersede_current (k : K) (newId : str) rows : list (metric D) :=
  update_where (fun r => has_key k r && isCurrent r) (fun r => with_superseded (Some newId) (with_current false r)) rows.

(** [createData] writes rows of the upload [b] with the key [k]. *)
Definition writes (b : str) (k : K) (createData : Z -> result (str -> Z -> metric D)) : Prop :=
  forall v f, createData v = Ok f -> exists row_id cols, key_of cols = k
    /\ forall i n, f i n = new_metric b row_id v cols i n.

Lemma update_where_ext (p q : metric D -> bool) f rows : (forall r, r ∈ rows -> p r = q r) ->
  update_where p f rows = update_where q f rows.
Proof. intros E. apply map_ext_in. intros r I%list_elem_of_In. by rewrite E. Qed.

Lemma update_where_app (p : metric D -> bool) f rows rows' :
  update_where p f (rows ++ rows') = update_where p f rows ++ update_where p f rows'.
Proof. apply map_app. Qed.

Lemma update_where_none (p : metric D -> bool) f rows : (forall r, r ∈ rows -> p r = false) -> update_where p f rows = rows.
Proof.
  intros E. unfold update_where. rewrite <- (map_id rows) at 2. apply map_ext_in. intros r I%list_elem_of_In.
  by rewrite E.
Qed.

Lemma update_where_twice (p : metric D -> bool) f g rows : (forall r, r ∈ rows -> p r = true -> p (f r) = true) ->
  update_where p g (update_where p f rows) = update_where p (fun r => g (f r)) rows.
Proof.
  intros E. unfold update_where. rewrite map_map. apply map_ext_in. intros r I%list_elem_of_In.
  destruct (p r) eqn:P; [by rewrite E|by rewrite P].
Qed.

Lemma update_where_ids (p : metric D -> bool) f rows : (forall r, id (f r) = id r) -> map id (update_where p f rows) = map id rows.
Proof. intros E. unfold update_where. rewrite map_map. apply map_ext. intros r. destruct (p r); [apply E|done]. Qed.

Lemma create_metric_inv x rows rows' : create_metric x rows = Ok rows' ->
  rows' = rows ++ [x] /\ id x ∉ map id rows.
Proof.
  unfold create_metric. destruct (existsb _ _) eqn:E; [done|]. intros [= <-]. split; [done|].
  intros (y & Ey & I)%list_elem_of_fmap. rewrite existsb_false_iff in E. specialize (E y I).
  unfold conflicts, str_eqb in E. rewrite bool_decide_eq_true_2 in E by done. done.
Qed.

(** A row is skipped, or the current row of the key is superseded by a new one
    with a higher version. *)
Lemma import_version_spec b policy k createData newId now rows imported rows' :
  table_ok rows -> writes b k createData ->
  import_version policy k createData newId now rows = Ok (imported, rows') ->
  if imported then
    exists x f, createData (nextImportVersion (importVersion <$> head (version_rows k rows))) = Ok f
      /\ x = f newId now /\ rows' = supersede_current k newId rows ++ [x] /\ newId ∉ map id rows
      /\ id x = newId /\ uploadBatchId x = b /\ metric_key x = k /\ isCurrent x = true
      /\ supersededByMetricId x = None
      /\ importVersion x = nextImportVersion (importVersion <$> head (version_rows k rows))
  else rows' = rows /\ policy = SKIP /\ exists c, c ∈ rows /\ metric_key c = k /\ isCurrent c = true.
Proof.
  intros T W. unfold import_version. cbv zeta. destruct (List.find _ _) as [c|] eqn:F.
  - pose proof F as (Ic & Kc & Cc)%find_current; [|done].
    assert (P : forall r, r ∈ rows -> is_row (id c) r = has_key k r && isCurrent r).
    { intros r I. unfold is_row, str_eqb. apply eq_true_iff_eq.
      rewrite bool_decide_eq_true, andb_true_iff, has_key_true. split.
      - intros E. by rewrite (metric_same_id _ rows r c T I Ic E).
      - intros [E C]. by rewrite (one_current _ rows r c T I Ic ltac:(congruence) C Cc). }
    destruct policy; cbn [resolve_duplicate negb importMetric supersedeExisting fmap option_fmap option_map];
      [intros [= <- <-]; split_and!; [done|done|by exists c]|..];
      (destruct (createData _) as [f|] eqn:E; cbn [result_bind]; [|done];
       destruct (W _ _ E) as (rid & cols & Ek & Ef); rewrite Ef;
       destruct (create_metric _ _) as [rows2|] eqn:Cr; cbn [result_bind]; [|done]; intros [= <- <-];
       apply create_metric_inv in Cr as [-> Ni]; cbn [id new_metric] in *;
       rewrite update_where_ids in Ni by done; exists (f newId now), f; rewrite Ef; split_and!; try done;
       rewrite update_where_app, update_where_twice by done;
       rewrite (update_where_none _ _ [_]) by
         (intros r ->%list_elem_of_singleton; unfold is_row, str_eqb; cbn [id new_metric];
          apply bool_decide_eq_false; intros ->; apply Ni; by apply list_elem_of_fmap_2);
       f_equal; by apply update_where_ext).
  - cbn [resolve_duplicate negb importMetric supersedeExisting].
    destruct (createData _) as [f|] eqn:E; cbn [result_bind]; [|done].
    destruct (W _ _ E) as (rid & cols & Ek & Ef). rewrite Ef.
    destruct (create_metric _ _) as [rows2|] eqn:Cr; cbn [result_bind]; [|done]. intros [= <- <-].
    apply create_metric_inv in Cr as [-> Ni]. exists (f newId now), f. rewrite Ef. split_and!; try done.
    f_equal. unfold supersede_current. symmetry. apply update_where_none. intros r I.
    rewrite find_no_current in F. destruct (has_key k r) eqn:Q; [|done]. apply has_key_true in Q. by rewrite F.
Qed.

(** ** Every statement keeps the table *)

(** The columns that no statement changes. *)
Definition same_row (r r' : metric D) : Prop :=
  id r' = id r /\ uploadBatchId r' = uploadBatchId r /\ uploadRowId r' = uploadRowId r
  /\ importVersion r' = importVersion r /\ createdAt r' = createdAt r /\ columns r' = columns r.

#[export] Instance same_row_equiv : Equivalence same_row.
Proof. unfold same_row. split; intros ?; naive_solver congruence. Qed.

Lemma same_metric_key r r' : same_row r r' -> metric_key r' = metric_key r.
Proof. unfold metric_key. by intros (_ & _ & _ & _ & _ & ->). Qed.

Lemma elem_update (p : metric D -> bool) f rows r' : r' ∈ update_where p f rows <->
  exists r, r ∈ rows /\ r' = if p r then f r else r.
Proof. unfold update_where. rewrite list_elem_of_fmap. naive_solver. Qed.

Lemma table_ok_update ids rows (p : metric D -> bool) f : table_ok_in ids rows ->
  (forall r, same_row r (f r)) ->
  (forall r, r ∈ rows -> p r = true -> isCurrent (f r) = true ->
     supersededByMetricId (f r) = None /\ forall s, s ∈ rows -> metric_key s = metric_key r -> importVersion s <= importVersion r) ->
  (forall r i, r ∈ rows -> p r = true -> supersededByMetricId (f r) = Some i -> i ∈ ids) ->
  table_ok_in ids (update_where p f rows).
Proof.
  intros T S C R. assert (S' : forall r, same_row r (if p r then f r else r)).
  { intros r. destruct (p r); [apply S|reflexivity]. }
  split.
  - rewrite update_where_ids; [apply T|]. intros r. apply S.
  - intros r' s' (r & Ir & ->)%elem_update (s & Is & ->)%elem_update.
    rewrite !(same_metric_key _ _ (S' _)). destruct (S' r) as (_ & _ & _ & -> & _), (S' s) as (_ & _ & _ & -> & _).
    intros E V. by rewrite (ok_versions _ rows T r s).
  - intros r' s' (r & Ir & ->)%elem_update (s & Is & ->)%elem_update.
    rewrite !(same_metric_key _ _ (S' _)). destruct (S' r) as (_ & _ & _ & -> & _), (S' s) as (_ & _ & _ & -> & _).
    intros Cr E. destruct (p r) eqn:P; [by apply C|]. by apply (ok_newest _ rows T).
  - intros r' (r & Ir & ->)%elem_update Cr. destruct (p r) eqn:P; [by apply C|]. by apply (ok_current _ rows T).
  - intros r' i (r & Ir & ->)%elem_update E. destruct (p r) eqn:P; [by apply (R r)|]. by apply (ok_refs _ rows T r).
Qed.

Lemma table_ok_app ids rows x : table_ok_in ids rows -> id x ∉ map id rows ->
  supersededByMetricId x = None ->
  (forall r, r ∈ rows -> metric_key r = metric_key x -> importVersion r < importVersion x /\ isCurrent r = false) ->
  table_ok_in ids (rows ++ [x]).
Proof.
  intros [N V M C R] Nx Sx B. split.
  - rewrite map_app. apply NoDup_app. split_and!; [done| |apply NoDup_singleton].
    intros i I ->%list_elem_of_singleton. done.
  - intros r s. rewrite !elem_of_app, !list_elem_of_singleton. intros [Ir| ->] [Is| ->] E Q; [by apply V| | |done].
    + specialize (B r Ir E). lia.
    + specialize (B s Is (eq_sym E)). lia.
  - intros r s. rewrite !elem_of_app, !list_elem_of_singleton. intros [Ir| ->] [Is| ->] Cr E; [by apply M| | |lia].
    + destruct (B r Ir (eq_sym E)). congruence.
    + specialize (B s Is E). lia.
  - intros r. rewrite elem_of_app, list_elem_of_singleton. intros [Ir| ->]; [by apply C|done].
  - intros r i. rewrite elem_of_app, list_elem_of_singleton. intros [Ir| ->]; [by apply R|congruence].
Qed.

Lemma table_ok_more ids ids' rows : ids ⊆ ids' -> table_ok_in ids rows -> table_ok_in ids' rows.
Proof. intros L [N V M C R]. split; [done..|]. intros r i Ir E. by apply L, (R r). Qed.

Lemma supersede_current_ids k i rows : map id (supersede_current k i rows) = map id rows.
Proof. by apply update_where_ids. Qed.

Lemma superseded_not_current k i rows r : r ∈ supersede_current k i rows -> metric_key r = k -> isCurrent r = false.
Proof.
  intros (s & Is & ->)%elem_update. destruct (has_key k s && isCurrent s) eqn:P; [done|].
  intros E. apply andb_false_iff in P as [P|P]; [|done]. by apply has_key_true in E; rewrite E in P.
Qed.

(** Importing keeps the table. *)
Lemma import_version_ok b policy k createData newId now rows imported rows' :
  table_ok rows -> writes b k createData ->
  import_version policy k createData newId now rows = Ok (imported, rows') -> table_ok rows'.
Proof.
  intros T W E. pose proof (import_version_spec _ _ _ _ _ _ _ _ _ T W E) as S.
  destruct imported; [|by destruct S as [-> _]].
  destruct S as (x & _ & _ & _ & -> & Ni & Ex & _ & Kx & _ & Sx & Vx).
  unfold table_ok. rewrite map_app, supersede_current_ids. cbn [map]. rewrite Ex.
  apply table_ok_app; [|by rewrite supersede_current_ids, Ex|done|].
  - apply table_ok_update; [|done|done|].
    + eapply table_ok_more; [|exact T]. set_solver.
    + intros r i _ _ [= <-]. set_solver.
  - intros r Ir Kr. rewrite Kx in Kr. split; [|by eapply superseded_not_current].
    apply elem_update in Ir as (s & Is & ->). rewrite Vx.
    assert (importVersion s < nextImportVersion (importVersion <$> head (version_rows k rows))) as L.
    { apply next_version_above; [done|]. by destruct (has_key k s && isCurrent s). }
    by destruct (has_key k s && isCurrent s).
Qed.

(** An import whose row can be written is not refused: its version is new. *)
Lemma import_version_accepted b policy k createData newId now rows :
  table_ok rows -> writes b k createData -> newId ∉ map id rows ->
  (forall v f i n r, createData v = Ok f -> r ∈ rows -> uploadRowId (f i n) = uploadRowId r -> uploadRowId r = None) ->
  (forall v, exists f, createData v = Ok f) ->
  exists r, import_version policy k createData newId now rows = Ok r.
Proof.
  intros T W Ni U C. unfold import_version. cbv zeta.
  destruct (C (nextImportVersion (importVersion <$> head (version_rows k rows)))) as [f E]. rewrite E.
  destruct (W _ _ E) as (rid & cols & Ek & Ef). cbn [result_bind].
  destruct (negb _); [eauto|].
  set (rows1 := match _ with Some i => _ | None => rows end).
  assert (S : forall r', r' ∈ rows1 -> exists r, r ∈ rows /\ same_row r r').
  { unfold rows1. destruct (if supersedeExisting _ then _ else None) as [i|]; intros r' I.
    - apply elem_update in I as (r & I & ->). exists r. split; [done|]. by destruct (is_row i r).
    - exists r'. split; [done|reflexivity]. }
  unfold create_metric. destruct (existsb _ _) eqn:X; [|cbn [result_bind]; eauto].
  exfalso. apply existsb_exists_iff in X as (r' & I & X). destruct (S _ I) as (r & Ir & Ei & _ & Eu & Ev & _ & Ec).
  specialize (U _ _ newId now r E Ir). revert X. unfold conflicts. rewrite Ei, Ev, Eu. rewrite Ef in U |- *. cbn [id importVersion uploadRowId new_metric] in *.
  rewrite !orb_true_iff, andb_true_iff, has_key_true, Z.eqb_eq. unfold str_eqb. rewrite bool_decide_eq_true.
  intros [[->|[Q V]]|X].
  - apply Ni. by apply list_elem_of_fmap_2.
  - assert (metric_key r = k) as Kr by (unfold metric_key in *; cbn [columns new_metric] in Q; congruence).
    pose proof (next_version_above k rows r Ir Kr). lia.
  - destruct rid as [a|], (uploadRowId r) as [c|]; try done. apply bool_decide_eq_true in X as ->. by specialize (U eq_refl).
Qed.

(** Hiding rows keeps it, *)
Lemma hide_ok (p : metric D -> bool) rows : table_ok rows -> table_ok (update_where p (with_current false) rows).
Proof.
  intros T. unfold table_ok. rewrite update_where_ids by done. apply table_ok_update; [done|done|done|].
  intros r i Ir _ E. by apply (ok_refs _ rows T r).
Qed.

Lemma deactivate_missing_rows days keys rows :
  (deactivate_missing days keys rows).2
  = if (List.length days =? 0)%nat || (List.length keys =? 0)%nat then rows
    else update_where (id_in (findMissingSnapshotMetricIds
                                (List.filter (fun r => isCurrent r && on_days days r) rows) keys)) (with_current false) rows.
Proof.
  unfold deactivate_missing. destruct (_ || _); [done|]. destruct (_ =? 0)%nat eqn:E; [|done].
  apply Nat.eqb_eq, nil_length_inv in E. rewrite E. symmetry. by apply update_where_none.
Qed.

Lemma deactivate_missing_ok days keys rows : table_ok rows -> table_ok (deactivate_missing days keys rows).2.
Proof. intros T. rewrite deactivate_missing_rows. destruct (_ || _); [done|by apply hide_ok]. Qed.

(** What a snapshot hides: current rows of its days with another key. *)
Definition stale (days : list Z) (keys : list str) (r : metric D) : bool :=
  isCurrent r && on_days days r && negb (bool_decide (text_of (metric_key r) ∈ keys)).

Lemma deactivate_missing_stale days keys rows : table_ok rows -> days <> [] -> keys <> [] ->
  (deactivate_missing days keys rows).2 = update_where (stale days keys) (with_current false) rows.
Proof.
  intros T Nd Nk. rewrite deactivate_missing_rows. destruct days as [|d days]; [done|]. destruct keys as [|t keys]; [done|].
  cbn [List.length Nat.eqb orb]. apply update_where_ext. intros r I. apply eq_true_iff_eq.
  unfold id_in, findMissingSnapshotMetricIds, stale. rewrite bool_decide_eq_true. rewrite list_elem_of_fmap. split.
  - intros (s & E & [[Is Cs]%elem_of_filterb Ns]%elem_of_filterb). rewrite (metric_same_id _ rows r s T I Is E).
    by rewrite Cs, Ns.
  - intros [C N]%andb_true_iff. exists r. split; [done|]. by rewrite !elem_of_filterb.
Qed.

(** and so does removing an upload. *)
Lemma table_ok_filter ids rows (p : metric D -> bool) : table_ok_in ids rows -> table_ok_in ids (List.filter p rows).
Proof.
  intros [N V M C R]. assert (L : forall r, r ∈ List.filter p rows -> r ∈ rows) by (intros r [? _]%elem_of_filterb; done).
  split; [|eauto..]. clear -N. induction rows as [|r rows IH]; [done|]. simpl in N. apply NoDup_cons in N as [Nr N].
  simpl. destruct (p r); [|by apply IH]. simpl. constructor; [|by apply IH].
  intros (s & E & [Is _]%elem_of_filterb)%list_elem_of_fmap. apply Nr. rewrite E. by apply list_elem_of_fmap_2.
Qed.

Lemma remove_batch_ok b rows : table_ok rows -> table_ok (remove_batch b rows).2.
Proof.
  intros T. unfold remove_batch. cbn [snd].
  set (deleted := List.filter (of_batch b) rows). set (remaining := List.filter _ rows).
  assert (S : forall i, i ∈ map id rows -> i ∈ map id deleted \/ i ∈ map id remaining).
  { intros i (r & -> & I)%list_elem_of_fmap. destruct (of_batch b r) eqn:B; [left|right]; apply list_elem_of_fmap_2;
      apply elem_of_filterb; by rewrite ?B. }
  assert (F : table_ok_in (map id rows) remaining) by by apply table_ok_filter.
  destruct (0 <? List.length deleted)%nat eqn:L.
  - unfold table_ok. rewrite update_where_ids by done.
    assert (G : table_ok_in (map id rows) (update_where (superseded_by (map id deleted)) (with_superseded None) remaining)).
    { apply table_ok_update; [done|done| |done]. intros r Ir P C.
      exfalso. unfold superseded_by in P. by rewrite (ok_current _ _ F r Ir C) in P. }
    destruct G as [N V M C R]. split; [done..|]. intros r i Ir E. destruct (S i (R r i Ir E)) as [Q|Q]; [exfalso|done].
    apply elem_update in Ir as (s & Is & ->). destruct (superseded_by _ s) eqn:P; [done|].
    unfold superseded_by in P. rewrite E in P. by apply bool_decide_eq_false in P.
  - apply Nat.ltb_ge in L. assert (deleted = []) as Z by (destruct deleted; [done|simpl in L; lia]).
    destruct F as [N V M C R]. split; [done..|]. intros r i Ir E. destruct (S i (R r i Ir E)) as [Q|Q]; [|done].
    rewrite Z in Q. by apply elem_of_nil in Q.
Qed.

(** ** The newest row of a key is made current *)

Definition is_newest rows (r : metric D) : bool :=
  forallb (fun s => negb (has_key (metric_key r) s) || (importVersion s <=? importVersion r)) rows.

Lemma is_newest_true rows r : is_newest rows r = true <->
  forall s, s ∈ rows -> metric_key s = metric_key r -> importVersion s <= importVersion r.
Proof.
  unfold is_newest. rewrite forallb_forall_iff. setoid_rewrite orb_true_iff. setoid_rewrite Z.leb_le.
  split; intros F s I; specialize (F s I).
  - intros E. destruct F as [F|F]; [|done]. apply negb_true_iff in F. by rewrite (proj2 (has_key_true _ _) E) in F.
  - destruct (has_key (metric_key r) s) eqn:E; [right; apply F; by apply has_key_true|by left].
Qed.

Definition revived rows (r : metric D) : metric D :=
  if is_newest rows r then with_superseded None (with_current true r) else with_current false r.

Lemma revived_same rows r : same_row r (revived rows r).
Proof. unfold revived. by destruct (is_newest rows r). Qed.

Lemma restore_step_rows n rows m : table_ok rows ->
  (restore_step (n, rows) m).2 = update_where (has_key (metric_key m)) (revived rows) rows.
Proof.
  intros T. unfold restore_step. set (k := metric_key m). set (cleared := update_where _ _ rows).
  assert (A : forall r, r ∈ List.filter (has_key k) cleared <-> exists s, s ∈ rows /\ metric_key s = k /\ r = with_current false s).
  { intros r. rewrite elem_of_filterb, has_key_true. split.
    - intros [(s & I & ->)%elem_update E]. destruct (has_key k s) eqn:P; [exists s; by apply has_key_true in P|].
      apply has_key_true in E. congruence.
    - intros (s & I & E & ->). split; [|done]. apply elem_update. exists s. split; [done|].
      by rewrite (proj2 (has_key_true _ _) E). }
  destruct (js_sort latest_created_first _) as [|x l] eqn:E; cbn [head snd].
  - assert (N : forall r, r ∈ rows -> has_key k r = false).
    { intros r I. destruct (has_key k r) eqn:P; [|done]. apply has_key_true in P.
      assert (X : with_current false r ∈ js_sort latest_created_first (List.filter (has_key k) cleared)) by (rewrite elem_of_js_sort; apply A; eauto).
      rewrite E in X. by apply elem_of_nil in X. }
    unfold cleared. by rewrite !update_where_none.
  - apply js_sort_head in E as [X M]; [|apply _]. apply A in X as (c & Ic & Kc & ->).
    assert (B : forall r, r ∈ rows -> is_row (id c) r = has_key k r && is_newest rows r).
    { intros r I. apply eq_true_iff_eq. unfold is_row, str_eqb.
      rewrite bool_decide_eq_true, andb_true_iff, has_key_true, is_newest_true. split.
      - intros Q. rewrite (metric_same_id _ rows r c T I Ic Q). split; [done|]. intros s Is Ks.
        assert (latest_created_first (with_current false c) (with_current false s) <= 0) as L by (apply M, A; exists s; split_and!; [done|congruence|done]).
        unfold latest_created_first, cmp_or in L. cbn [importVersion createdAt with_current] in L.
        destruct (Z.eqb_spec (importVersion s - importVersion c) 0); lia.
      - intros [Kr Q]. f_equal. apply (ok_versions _ rows T); [done..|congruence|].
        specialize (Q c Ic ltac:(congruence)).
        assert (latest_created_first (with_current false c) (with_current false r) <= 0) as L by (apply M, A; eauto).
        unfold latest_created_first, cmp_or in L. cbn [importVersion createdAt with_current] in L.
        destruct (Z.eqb_spec (importVersion r - importVersion c) 0); lia. }
    unfold cleared, update_where. rewrite map_map. apply map_ext_in. intros r I%list_elem_of_In.
    specialize (B r I). cbn [id with_current] in *. unfold revived.
    destruct (has_key k r) eqn:P; cbn [andb] in B.
    + change (is_row (id c) (with_current false r)) with (is_row (id c) r). rewrite B. by destruct (is_newest rows r).
    + by rewrite B.
Qed.

Lemma revive_ok (p : metric D -> bool) rows : table_ok rows -> table_ok (update_where p (revived rows) rows).
Proof.
  intros T. unfold table_ok. rewrite update_where_ids by (intros r; apply revived_same).
  apply table_ok_update; [done|intros r; apply revived_same|..].
  - intros r I _. unfold revived. destruct (is_newest rows r) eqn:E; [|done]. intros _. split; [done|].
    by apply is_newest_true.
  - intros r i I _. unfold revived. destruct (is_newest rows r); [done|]. by apply (ok_refs _ rows T r).
Qed.

Lemma is_newest_update rows r (p : metric D -> bool) f : (forall s, same_row s (f s)) ->
  is_newest (update_where p f rows) r = is_newest rows r.
Proof.
  intros S. unfold is_newest, update_where. induction rows as [|s rows IH]; [done|]. cbn [map forallb]. rewrite IH.
  f_equal. destruct (p s); [|done]. destruct (S s) as (_ & _ & _ & -> & _ & _). unfold has_key.
  by rewrite (same_metric_key _ _ (S s)).
Qed.

Lemma is_newest_same rows r r' : same_row r r' -> is_newest rows r' = is_newest rows r.
Proof. intros S. unfold is_newest. rewrite (same_metric_key _ _ S). by destruct S as (_ & _ & _ & -> & _). Qed.

Lemma revived_twice rows r : revived rows (revived rows r) = revived rows r.
Proof.
  unfold revived at 1. rewrite (is_newest_same rows _ _ (revived_same rows r)). unfold revived. by destruct (is_newest rows r).
Qed.

Definition key_in (ks : list K) (r : metric D) : bool := bool_decide (metric_key r ∈ ks).

(** Restoring the keys of deleted rows, all at once. *)
Lemma restore_steps ms n rows : table_ok rows ->
  (fold_left restore_step ms (n, rows)).2 = update_where (key_in (map metric_key ms)) (revived rows) rows.
Proof.
  revert n rows. induction ms as [|m ms IH]; intros n rows T.
  { symmetry. apply update_where_none. intros r _. by apply bool_decide_eq_false, not_elem_of_nil. }
  cbn [fold_left]. pose proof (restore_step_rows n rows m T) as E. destruct (restore_step _ m) as [n' rows']. cbn [snd] in E.
  subst rows'. rewrite IH by by apply revive_ok.
  unfold update_where at 1 3. unfold update_where at 2. rewrite map_map. apply map_ext_in. intros r I%list_elem_of_In.
  assert (Q : key_in (map metric_key ms) (if has_key (metric_key m) r then revived rows r else r) = key_in (map metric_key ms) r).
  { destruct (has_key _ r); [|done]. unfold key_in. by rewrite (same_metric_key _ _ (revived_same rows r)). }
  rewrite Q. unfold key_in at 1 2. cbn [map]. unfold revived at 1.
  rewrite is_newest_update by apply revived_same. fold (revived rows (if has_key (metric_key m) r then revived rows r else r)).
  destruct (has_key (metric_key m) r) eqn:P.
  - apply has_key_true in P. rewrite revived_twice. rewrite (bool_decide_eq_true_2 (metric_key r ∈ metric_key m :: _)) by (rewrite P; by left).
    by destruct (bool_decide _).
  - assert (metric_key r <> metric_key m) as N by (intros X; apply has_key_true in X; congruence).
    case_bool_decide as X; case_bool_decide as Y; [done| | |done].
    + destruct Y. by right.
    + apply elem_of_cons in Y as [Y|Y]; done.
Qed.

Lemma restore_versions_ok ms rows : table_ok rows -> table_ok (restore_versions ms rows).2.
Proof. intros T. unfold restore_versions. rewrite restore_steps by done. by apply revive_ok. Qed.

Lemma delete_metrics_ok b rows : table_ok rows -> table_ok (delete_metrics b rows).2.
Proof.
  intros T. unfold delete_metrics. pose proof (remove_batch_ok b rows T) as R.
  destruct (remove_batch b rows) as [deleted remaining]. by apply restore_versions_ok.
Qed.

(** ** The keys of deleted rows *)

Lemma unique_keys_fold (ms : list (metric D)) acc :
  (forall t m, (t, m) ∈ acc -> t = text_of (metric_key m)) ->
  let final := fold_left (fun unique m => map_set unique (text_of (metric_key m)) m) ms acc in
  (forall t m, (t, m) ∈ final -> t = text_of (metric_key m) /\ (m ∈ ms \/ m ∈ map_values acc))
  /\ forall t, t ∈ map_keys final <-> t ∈ map_keys acc \/ t ∈ map (fun m => text_of (metric_key m)) ms.
Proof.
  revert acc. induction ms as [|m ms IH]; intros acc A; cbn [fold_left map].
  - split; [|set_solver]. intros t m I. split; [by apply A|]. right. unfold map_values.
    change m with ((t, m).2). by apply list_elem_of_fmap_2.
  - assert (S : forall t x, (t, x) ∈ map_set acc (text_of (metric_key m)) m ->
      t = text_of (metric_key m) /\ x = m \/ (t, x) ∈ acc).
    { clear. intros t x. induction acc as [|[t' x'] acc IH]; cbn [map_set].
      - rewrite list_elem_of_singleton. intros [= -> ->]. by left.
      - case_decide as E; rewrite !elem_of_cons.
        + intros [[= -> ->]|I]; [left; done|right; by right].
        + intros [[= -> ->]|I]; [right; by left|]. destruct (IH I) as [?|?]; [by left|right; by right]. }
    destruct (IH (map_set acc (text_of (metric_key m)) m)) as [V W].
    { intros t x [[-> ->]|I]%S; [done|by apply A]. }
    split.
    + intros t x I. destruct (V t x I) as [E [Ix|Ix]]; (split; [done|]); [left; by right|].
      apply list_elem_of_fmap in Ix as ([t' y] & -> & Iy). cbn [snd] in *.
      apply S in Iy as [[_ ->]|Iy]; [left; by left|right]. change y with ((t', y).2). by apply list_elem_of_fmap_2.
    + intros t. rewrite W, elem_of_keys_set, elem_of_cons. naive_solver.
Qed.

(** Keys that their texts tell apart. *)
Definition told_apart (ks : list K) : Prop := forall k k', k ∈ ks -> k' ∈ ks -> text_of k = text_of k' -> k = k'.

Lemma unique_keys_same (ms : list (metric D)) k : told_apart (map metric_key ms) ->
  k ∈ map metric_key (unique_keys ms) <-> k ∈ map metric_key ms.
Proof.
  intros A. destruct (unique_keys_fold ms []) as [V W]; [by intros t m ?%elem_of_nil|]. fold (unique_keys ms) in *.
  set (final := fold_left _ ms []) in *. unfold unique_keys, map_values. fold final.
  assert (B : forall x, x ∈ map snd final -> x ∈ ms).
  { intros x ([t y] & -> & I)%list_elem_of_fmap. destruct (V t y I) as [_ [?|?%elem_of_nil]]; done. }
  split.
  - intros (x & -> & I)%list_elem_of_fmap. apply list_elem_of_fmap_2. by apply B.
  - intros (x & -> & I)%list_elem_of_fmap.
    assert (text_of (metric_key x) ∈ map_keys final) as T by (apply W; right; by apply (list_elem_of_fmap_2 (fun m => text_of (metric_key m)))).
    apply list_elem_of_fmap in T as ([t y] & Et & Iy). cbn [fst] in Et.
    assert (y ∈ map snd final) as Sy by (change y with ((t, y).2); by apply list_elem_of_fmap_2).
    destruct (V t y Iy) as [Ey _]. replace (metric_key x) with (metric_key y); [by apply list_elem_of_fmap_2|].
    symmetry. apply A; [by apply list_elem_of_fmap_2| |congruence]. apply list_elem_of_fmap_2. by apply B.
Qed.

(** ** Imports of an upload, one after another *)

Inductive imports (b : str) : list K -> list (metric D) -> list (metric D) -> Prop :=
  | imports_none rows : imports b [] rows rows
  | imports_next policy k createData newId now ks rows imported rows1 rows2 :
      writes b k createData ->
      import_version policy k createData newId now rows = Ok (imported, rows1) ->
      imports b ks rows1 rows2 -> imports b (k :: ks) rows rows2.

(** A row of the table before and after: it may have been superseded. *)
Definition aged (ids : list str) (ks : list K) (r r' : metric D) : Prop :=
  same_row r r'
  /\ (r' = r \/ isCurrent r = true /\ isCurrent r' = false /\ metric_key r ∈ ks
                 /\ exists i, i ∈ ids /\ supersededByMetricId r' = Some i).

Lemma aged_more ids ks ids' ks' r r' : ids ⊆ ids' -> ks ⊆ ks' -> aged ids ks r r' -> aged ids' ks' r r'.
Proof. intros I Q [S [->|(C & C' & Kr & i & Ii & E)]]; split; auto. right. split_and!; auto. eauto. Qed.

Lemma aged_trans ids ks r s t : aged ids ks r s -> aged ids ks s t -> aged ids ks r t.
Proof.
  intros [S A] [S' B]. split; [by etransitivity|]. destruct A as [->|(C & C' & Kr & X)]; [done|].
  destruct B as [->|(C'' & _)]; [right; auto|congruence].
Qed.

Lemma aged_superseded k i rows : Forall2 (aged [i] [k]) rows (supersede_current k i rows).
Proof.
  unfold supersede_current, update_where. induction rows as [|r rows IH]; [constructor|]. cbn [map]. constructor; [|done].
  destruct (has_key k r && isCurrent r) eqn:E; [|split; [reflexivity|by left]].
  apply andb_true_iff in E as [E C]. split; [done|]. right. apply has_key_true in E.
  split_and!; [done|done|set_solver|exists i; set_solver].
Qed.

Lemma Forall2_trans_at {A} (R S T : A -> A -> Prop) l m n : (forall x y z, R x y -> S y z -> T x z) ->
  Forall2 R l m -> Forall2 S m n -> Forall2 T l n.
Proof.
  intros X A1. revert n. induction A1 as [|x y l m P Q IH]; intros n B; inversion_clear B; constructor; eauto.
Qed.

Lemma imports_ok b ks rows rows' : table_ok rows -> imports b ks rows rows' -> table_ok rows'.
Proof. intros T I. induction I; [done|]. apply IHI. by eapply import_version_ok. Qed.

(** The rows before are there, superseded or not, and then come those of the
    upload. *)
Lemma imports_shape b ks rows rows' : table_ok rows -> imports b ks rows rows' ->
  exists olds news, rows' = olds ++ news /\ Forall2 (aged (map id news) (map metric_key news)) rows olds
    /\ forall x, x ∈ news -> uploadBatchId x = b /\ metric_key x ∈ ks /\ id x ∉ map id rows.
Proof.
  intros T I. induction I as [rows|policy k createData newId now ks rows imported rows1 rows2 W E I IH].
  { exists rows, []. split; [by rewrite app_nil_r|]. split; [|by intros x ?%elem_of_nil].
    apply Forall_Forall2_diag, Forall_forall. intros r _. split; [reflexivity|by left]. }
  pose proof (import_version_ok _ _ _ _ _ _ _ _ _ T W E) as T1. specialize (IH T1) as (olds & news & -> & F & N).
  pose proof (import_version_spec _ _ _ _ _ _ _ _ _ T W E) as S. destruct imported.
  2: { destruct S as [-> _]. exists olds, news. split_and!; [done|done|]. intros x Ix. destruct (N x Ix) as (? & ? & ?).
       split_and!; [done|by right|done]. }
  destruct S as (x & _ & _ & _ & -> & Ni & Ex & Bx & Kx & _).
  apply Forall2_app_inv_l in F as (olds0 & l & F & Fx & ->). inversion_clear Fx as [|? x' ? l' Ax Z].
  inversion_clear Z. exists olds0, (x' :: news). rewrite <- app_assoc. split; [done|].
  pose proof (proj1 Ax) as S'. destruct S' as (Ei & Eb & _ & _ & _ & _). split.
  - eapply Forall2_trans_at; [| |exact F].
    2: { eapply Forall2_impl; [apply (aged_superseded k newId)|]. intros r r' A.
         eapply (aged_more _ _ (map id (x' :: news)) (map metric_key (x' :: news))); [| |exact A]; cbn [map];
           rewrite ?(same_metric_key _ _ (proj1 Ax)), ?Ei, ?Ex, ?Kx; set_solver. }
    cbn beta. intros r s t A B. eapply aged_trans; [exact A|]. eapply aged_more; [| |exact B]; cbn [map]; set_solver.
  - intros y [->|Iy]%elem_of_cons.
    + rewrite Eb, (same_metric_key _ _ (proj1 Ax)), Kx, Ei, Ex, Bx. split_and!; [done|by left|done].
    + destruct (N y Iy) as (By & Ky & Ny). split_and!; [done|by right|].
      rewrite map_app, supersede_current_ids in Ny. set_solver.
Qed.

(** Rows with other keys stay as they are, *)
Lemma imports_kept b ks rows rows' r : table_ok rows -> imports b ks rows rows' -> r ∈ rows -> metric_key r ∉ ks -> r ∈ rows'.
Proof.
  intros T I Ir N. destruct (imports_shape _ _ _ _ T I) as (olds & news & -> & F & Q).
  apply elem_of_app. left. apply list_elem_of_lookup in Ir as (j & Ej).
  destruct (Forall2_lookup_l _ _ _ _ _ F Ej) as (r' & Ej' & _ & [->|(_ & _ & Kr & _)]).
  - by eapply list_elem_of_lookup_2.
  - destruct N. apply list_elem_of_fmap in Kr as (x & -> & Ix). by apply Q.
Qed.

Lemma imports_elsewhere b ks rows rows' r : table_ok rows -> imports b ks rows rows' -> metric_key r ∉ ks ->
  r ∈ rows' <-> r ∈ rows.
Proof.
  intros T I N. split; [|intros Ir; by eapply imports_kept].
  destruct (imports_shape _ _ _ _ T I) as (olds & news & -> & F & Q). rewrite elem_of_app. intros [Ir|Ir].
  - apply list_elem_of_lookup in Ir as (j & Ej). destruct (Forall2_lookup_r _ _ _ _ _ F Ej) as (r0 & Ej' & S & A).
    destruct A as [->|(_ & _ & Kr & _)]; [by eapply list_elem_of_lookup_2|]. destruct N.
    rewrite (same_metric_key _ _ S). apply list_elem_of_fmap in Kr as (x & -> & Ix). by apply Q.
  - destruct N. by apply Q.
Qed.

(** and the imported keys have a current row. *)
Lemma imports_current b ks rows rows' : table_ok rows -> imports b ks rows rows' ->
  forall k, k ∈ ks \/ (exists r, r ∈ rows /\ metric_key r = k /\ isCurrent r = true) ->
  exists r, r ∈ rows' /\ metric_key r = k /\ isCurrent r = true.
Proof.
  intros T I. induction I as [rows|policy k createData newId now ks rows imported rows1 rows2 W E I IH]; intros k' Q.
  { destruct Q as [?%elem_of_nil|Q]; done. }
  apply IH; [by eapply import_version_ok|]. rewrite elem_of_cons in Q. destruct Q as [[->|Q]|Q]; [right|by left|right].
  - pose proof (import_version_spec _ _ _ _ _ _ _ _ _ T W E) as S. destruct imported.
    + destruct S as (x & _ & _ & _ & -> & _ & _ & _ & Kx & Cx & _). exists x. split; [set_solver|done].
    + by destruct S as (-> & _ & S).
  - destruct (decide (k' = k)) as [->|N].
    + pose proof (import_version_spec _ _ _ _ _ _ _ _ _ T W E) as S. destruct imported.
      * destruct S as (x & _ & _ & _ & -> & _ & _ & _ & Kx & Cx & _). exists x. split; [set_solver|done].
      * by destruct S as (-> & _ & S).
    + destruct Q as (r & Ir & Kr & Cr). exists r. split_and!; [|done|done].
      eapply (imports_kept b [k]); [exact T| |done|]; [eapply imports_next; [done|done|constructor]|set_solver].
Qed.

(** ** Deleting what was just imported

    The rows of the upload go, and every row from before is as it was, but for
    those that the snapshot hid. *)

Lemma remove_imported b (olds news : list (metric D)) : (forall r, r ∈ olds -> uploadBatchId r <> b) -> (forall r, r ∈ news -> uploadBatchId r = b) ->
  remove_batch b (olds ++ news)
  = (news, update_where (superseded_by (map id news)) (with_superseded None) olds).
Proof.
  intros O N. unfold remove_batch. rewrite !List.filter_app.
  assert (forall r, r ∈ olds -> of_batch b r = false) as Fo by (intros r I; apply bool_decide_eq_false; auto).
  assert (forall r, r ∈ news -> of_batch b r = true) as Fn by (intros r I; apply bool_decide_eq_true; auto).
  rewrite (filterb_ext (of_batch b) (fun _ => false) olds Fo), (filterb_ext (of_batch b) (fun _ => true) news Fn).
  rewrite (filterb_ext (fun r => negb (of_batch b r)) (fun _ => true) olds) by (intros r I; by rewrite Fo).
  rewrite (filterb_ext (fun r => negb (of_batch b r)) (fun _ => false) news) by (intros r I; by rewrite Fn).
  assert (forall l : list (metric D), List.filter (fun _ => false) l = []) as Z by (by induction l).
  assert (forall l : list (metric D), List.filter (fun _ => true) l = l) as J by (induction l; simpl; congruence).
  rewrite !Z, !J, app_nil_r. cbn [app]. f_equal. destruct news as [|x news]; [|done]. cbn.
  symmetry. apply update_where_none. intros r _. unfold superseded_by. by destruct (supersededByMetricId r).
Qed.

(** What one row from before becomes. *)
Lemma restored_metric rows ids ks days keys r o : table_ok rows -> r ∈ rows -> aged ids ks r o ->
  (forall i, i ∈ ids -> i ∉ map id rows) ->
  (forall k, k ∈ ks -> text_of k ∈ keys) ->
  (metric_key r ∈ ks -> exists c, c ∈ rows /\ metric_key c = metric_key r /\ isCurrent c = true) ->
  let hidden := if stale days keys o then with_current false o else o in
  let kept := if superseded_by ids hidden then with_superseded None hidden else hidden in
  (if key_in ks kept then if is_newest rows kept then with_superseded None (with_current true kept) else with_current false kept
   else kept) = if stale days keys r then with_current false r else r.
Proof.
  intros T I [S A] Ni Tx Cu. cbv zeta.
  assert (U : forall x : metric D, supersededByMetricId x = supersededByMetricId r -> superseded_by ids x = false).
  { intros x E. unfold superseded_by. rewrite E. destruct (supersededByMetricId r) as [i|] eqn:Q; [|done].
    apply bool_decide_eq_false. intros X. apply (Ni i X). by apply (ok_refs _ rows T r). }
  destruct (decide (metric_key r ∈ ks)) as [K1|K1].
  - assert (St : forall x : metric D, metric_key x = metric_key r -> stale days keys x = false).
    { intros x E. unfold stale. rewrite E, (bool_decide_eq_true_2 (text_of _ ∈ keys)) by auto. by rewrite andb_false_r. }
    rewrite (St o), (St r) by (try done; by apply same_metric_key). set (kept := if superseded_by ids o then _ else o).
    assert (Sk : same_row r kept) by (etransitivity; [exact S|]; unfold kept; by destruct (superseded_by ids o)).
    unfold key_in. rewrite (same_metric_key _ _ Sk), bool_decide_eq_true_2 by done. rewrite (is_newest_same _ _ _ Sk).
    destruct (is_newest rows r) eqn:Nw.
    + destruct (Cu K1) as (c & Ic & Kc & Cc). rewrite is_newest_true in Nw.
      assert (r = c) as <-.
      { apply (ok_versions _ rows T); [done..|]. pose proof (ok_newest _ rows T c r Ic I Cc ltac:(done)).
        specialize (Nw c Ic Kc). lia. }
      destruct Sk as (E1 & E2 & E3 & E4 & E5 & E6). pose proof (ok_current _ rows T r I Cc) as E7.
      unfold with_superseded, with_current. cbn. rewrite E1, E2, E3, E4, E5, E6. destruct r. cbn in *. congruence.
    + assert (isCurrent r = false) as C.
      { destruct (isCurrent r) eqn:C; [|done]. rewrite <- Nw. symmetry. apply is_newest_true.
        intros s Is Ks. by apply (ok_newest _ rows T). }
      destruct A as [->|(C' & _)]; [|congruence]. unfold kept. rewrite U by done.
      unfold with_current. destruct r. cbn in *. congruence.
  - destruct A as [->|(_ & _ & K2 & _)]; [|done].
    set (hidden := if stale days keys r then _ else r).
    assert (superseded_by ids hidden = false) as -> by (apply U; unfold hidden; by destruct (stale days keys r)).
    unfold key_in. rewrite bool_decide_eq_false_2; [done|]. unfold hidden. by destruct (stale days keys r).
Qed.

(** The rows before have other uploads, hidden or not. *)
Lemma hidden_batches b ids ks days keys rows olds o : Forall2 (aged ids ks) rows olds ->
  (forall r, r ∈ rows -> uploadBatchId r <> b) ->
  o ∈ update_where (stale days keys) (with_current false) olds -> uploadBatchId o <> b.
Proof.
  intros F Fb (r & Io & ->)%elem_update. apply list_elem_of_lookup in Io as (j & Ej).
  destruct (Forall2_lookup_r _ _ _ _ _ F Ej) as (r0 & Er & (_ & S & _) & _). apply list_elem_of_lookup_2 in Er.
  apply Fb in Er. rewrite <- S in Er. by destruct (stale _ _ r).
Qed.

(** The rows of a snapshot are not hidden by it. *)
Lemma not_stale days keys rows : (forall r, r ∈ rows -> text_of (metric_key r) ∈ keys) ->
  update_where (stale days keys) (with_current false) rows = rows.
Proof.
  intros T. apply update_where_none. intros r I. unfold stale. rewrite (bool_decide_eq_true_2 _ (T r I)).
  by rewrite andb_false_r.
Qed.

Lemma delete_after_imports b ks days keys rows rows1 : table_ok rows -> imports b ks rows rows1 ->
  (forall r, r ∈ rows -> uploadBatchId r <> b) ->
  (forall k, k ∈ ks -> text_of k ∈ keys) -> told_apart ks ->
  (forall r, r ∈ rows -> metric_key r ∈ ks -> exists c, c ∈ rows /\ metric_key c = metric_key r /\ isCurrent c = true) ->
  (delete_metrics b (update_where (stale days keys) (with_current false) rows1)).2
  = update_where (stale days keys) (with_current false) rows.
Proof.
  intros T I Fb Tx Ap Cu. destruct (imports_shape _ _ _ _ T I) as (olds & news & -> & F & N).
  assert (Kn : forall k, k ∈ map metric_key news -> k ∈ ks).
  { intros k (x & -> & Ix)%list_elem_of_fmap. by apply N. }
  pose proof (imports_ok _ _ _ _ T I) as T1. apply (hide_ok (stale days keys)), (remove_batch_ok b) in T1.
  rewrite update_where_app, (not_stale days keys news) in T1 |- * by (intros x Ix; by apply Tx, N).
  unfold delete_metrics. rewrite remove_imported in T1 |- *
    by first [by intros o; apply (hidden_batches _ _ _ _ _ _ _ _ F Fb)|by intros x Ix; apply N].
  unfold restore_versions. cbn [snd] in T1. set (kept := update_where (superseded_by _) _ _) in *.
  assert (Q : forall x, is_newest kept x = is_newest rows x).
  { intros x. unfold kept. rewrite !is_newest_update by done. unfold is_newest. clear -F.
    induction F as [|r o rows olds [S _] _ IH]; [done|]. cbn [forallb]. rewrite IH.
    f_equal. unfold has_key. rewrite (same_metric_key _ _ S). by destruct S as (_ & _ & _ & -> & _). }
  rewrite restore_steps by done.
  rewrite (update_where_ext _ (key_in (map metric_key news))).
  2: { intros r _. unfold key_in. apply bool_decide_ext. apply unique_keys_same. intros k k' A B. by apply Ap; apply Kn. }
  unfold revived. unfold update_where at 1. erewrite map_ext_in.
  2: { intros x _. rewrite Q. reflexivity. }
  assert (G : forall rows0 olds0, Forall2 (aged (map id news) (map metric_key news)) rows0 olds0 -> (forall r, r ∈ rows0 -> r ∈ rows) ->
    map (fun x => if key_in (map metric_key news) x
                  then if is_newest rows x then with_superseded None (with_current true x) else with_current false x else x)
        (update_where (superseded_by (map id news)) (with_superseded None)
           (update_where (stale days keys) (with_current false) olds0))
    = update_where (stale days keys) (with_current false) rows0); [|by apply G].
  intros rows0 olds0 F0. induction F0 as [|r o rows0 olds0 A F0 IH]; intros L; [done|].
  unfold update_where in *. cbn [map]. f_equal; [|apply IH; intros x Ix; apply L; by right].
  assert (r ∈ rows) as Ir by (apply L; by left).
  eapply (restored_metric rows); [done|done|exact A|..].
  - intros i (x & -> & Ix)%list_elem_of_fmap. by apply N.
  - intros k Ik. by apply Tx, Kn.
  - intros Ik. apply Cu; [done|by apply Kn].
Qed.
End table.
