(* ===== verification/MetaGuarantees.v ===== *)
(** * Guarantees on Meta metrics

    What the imports and deletions of MetaVersions promise: the current row of a
    day of an ad or ad set is always its newest version; after an import the
    current rows of its days are those of the file, and those of the ad sets are
    computed from them; and deleting an upload just imported restores the rows
    from before, but for those that its snapshot hid. *)

From S2P Require Import Prelude JsNumber JsString JsDate.
From S2P Require Import DateNumber.
From S2P Require Import Metrics.
From S2P Require Import Matching.
From S2P Require Import Decision.
From S2P Require Import Concurrency.
From S2P Require Import Transactions.
From S2P Require Import RequestBody.
From S2P Require Import FixedDecimals.
From S2P Require Import MetaRows.
From S2P Require Import MetaVersions.
From S2P Require Import MetaTables.
From stdpp Require Import relations.

Local Open Scope Z_scope.

Section guarantees.
Context `{Icu, DecimalNumber} (uuid : nat -> str) (collate : str -> str -> Z).

(** ** What the rows are written with *)

Ltac wrote := do 2 eexists; split; cycle 1; [intros i n; reflexivity|reflexivity].

Lemma ad_writes input : writes (a_batchId input) (ad_key_of_row (a_parsedRow input)) (adDailyMetricCreateData input).
Proof. intros v f L. unfold adDailyMetricCreateData in L. cbv zeta in L. let_steps. injection L as <-. wrote. Qed.

Lemma adset_writes input :
  writes (i_batchId input) (date_column (q_metricDate (i_parsedRow input)), i_metaAdsetId input) (adsetMetricCreateData input).
Proof. intros v f L. unfold adsetMetricCreateData in L. cbv zeta in L. let_steps. injection L as <-. wrote. Qed.

Lemma aggregate_writes b input :
  writes b (date_column (g_metricDate input), g_metaAdsetId input) (adsetAggregateMetricCreateData b input).
Proof. intros v f L. unfold adsetAggregateMetricCreateData in L. let_steps. injection L as <-. wrote. Qed.

(** ** Every transaction keeps both tables *)

Definition tables_ok (w : MetaDb) : Prop := table_ok (adMetrics w) /\ table_ok (adsetMetrics w).

Definition keeps_tables (w w' : MetaDb) : Prop := tables_ok w -> tables_ok w'.

#[local] Instance keeps_tables_preorder : PreOrder keeps_tables.
Proof. split; [intros w T; exact T|]. intros w1 w2 w3 A B T. exact (B (A T)). Qed.

Lemma import_ad_keeps input : respects keeps_tables (importAdDailyMetric uuid input).
Proof.
  intros w r w' E [Ta Ts]. unfold importAdDailyMetric in E. destruct (import_version _ _ _ _ _ _) as [[b rows]|] eqn:I; [|done].
  cbn in E. injection E as <- <-. split; [|by destruct b].
  pose proof (import_version_ok _ _ _ _ _ _ _ _ _ Ta (ad_writes input) I). by destruct b.
Qed.

Lemma import_adset_keeps input : respects keeps_tables (importMetric uuid input).
Proof.
  intros w r w' E [Ta Ts]. unfold importMetric in E. destruct (import_version _ _ _ _ _ _) as [[b rows]|] eqn:I; [|done].
  cbn in E. injection E as <- <-. split; [by destruct b|].
  pose proof (import_version_ok _ _ _ _ _ _ _ _ _ Ts (adset_writes input) I). by destruct b.
Qed.

Lemma import_aggregate_keeps b input policy : respects keeps_tables (importAdsetAggregateMetric uuid b input policy).
Proof.
  intros w r w' E [Ta Ts]. unfold importAdsetAggregateMetric in E.
  destruct (import_version _ _ _ _ _ _) as [[x rows]|] eqn:I; [|done].
  cbn in E. injection E as <- <-. split; [by destruct x|].
  pose proof (import_version_ok _ _ _ _ _ _ _ _ _ Ts (aggregate_writes b input) I). by destruct x.
Qed.

Lemma hide_adsets_keeps days keys : respects keeps_tables (deactivateMissingSnapshotMetrics days keys).
Proof.
  intros w r w' E [Ta Ts]. unfold deactivateMissingSnapshotMetrics in E.
  pose proof (deactivate_missing_ok days keys _ Ts). destruct (deactivate_missing _ _ _). by injection E as <- <-.
Qed.

Lemma hide_ads_keeps days keys : respects keeps_tables (deactivateMissingAdSnapshotMetrics days keys).
Proof.
  intros w r w' E [Ta Ts]. unfold deactivateMissingAdSnapshotMetrics in E.
  pose proof (deactivate_missing_ok days keys _ Ta). destruct (deactivate_missing _ _ _). by injection E as <- <-.
Qed.

Lemma creative_cleanup_keeps ms : respects keeps_tables (cleanupCreativeDataAfterMetricDelete ms).
Proof.
  intros w r w' E T. unfold cleanupCreativeDataAfterMetricDelete in E. cbv zeta in E. destruct (_ =? 0)%nat.
  - by injection E as <- <-.
  - cbn [delete_many] in E. by injection E as <- <-.
Qed.

#[local] Hint Resolve import_ad_keeps import_adset_keeps import_aggregate_keeps hide_adsets_keeps hide_ads_keeps
  creative_cleanup_keeps : respects.

Lemma import_groups_keep b groups : respects keeps_tables (import_groups uuid b groups).
Proof. induction groups as [|g groups IH]; cbn [import_groups]; respect. Qed.

#[local] Hint Resolve import_groups_keep : respects.

Lemma refresh_keeps b days : respects keeps_tables (refreshAdsetAggregatesFromAdMetrics uuid collate b days).
Proof. unfold refreshAdsetAggregatesFromAdMetrics. respect. Qed.

Lemma import_ad_lines_keep st lines : respects keeps_tables (import_ad_lines uuid st lines).
Proof.
  revert st. induction lines as [|line lines IH]; intros st; cbn [import_ad_lines]; [respect|].
  apply respects_bind; [apply _| |done]. unfold import_ad_line. respect.
Qed.

#[local] Hint Resolve refresh_keeps import_ad_lines_keep : respects.

Lemma import_metrics_keep b lines : respects keeps_tables (import_ad_metrics uuid collate b lines).
Proof. unfold import_ad_metrics. respect. Qed.

Lemma delete_upload_keeps b : respects keeps_tables (delete_upload_metrics b).
Proof.
  unfold delete_upload_metrics. apply respects_bind; [apply _| |intros [[[? ?] ?] ?]; respect].
  intros w r w' E [Ta Ts]. apply (delete_metrics_ok b) in Ta, Ts. unfold delete_metrics in Ta, Ts.
  destruct (remove_batch b (adMetrics w)), (remove_batch b (adsetMetrics w)).
  destruct (restore_versions _ _), (restore_versions _ _). by injection E as <- <-.
Qed.

Lemma meta_step_keeps w w' : meta_step uuid collate w w' -> tables_ok w -> tables_ok w'.
Proof.
  destruct 1 as [b lines r w' E|input r w' E|days keys r w' E|b r w' E|t]; [| | | |done].
  - by eapply import_metrics_keep.
  - by eapply import_adset_keeps.
  - by eapply hide_adsets_keeps.
  - by eapply delete_upload_keeps.
Qed.

(** C26: However imports of ads and of ad sets, snapshots and deletions of
    uploads follow each other from empty tables, the current row of a day of an
    ad, and of a day of an ad set, is the only current one and the newest
    version of its key, it is marked as superseded by none, and a row that is
    superseded is so by a row that is still there. *)
Theorem current_rows_are_newest w0 w :
  adMetrics w0 = [] -> adsetMetrics w0 = [] -> rtc (meta_step uuid collate) w0 w ->
  table_ok (adMetrics w) /\ table_ok (adsetMetrics w).
Proof.
  intros A S R. assert (tables_ok w0) as T by (unfold tables_ok; rewrite A, S; split; apply table_ok_nil).
  clear A S. induction R as [w|w0 w1 w St R IH]; [done|]. by apply IH, (meta_step_keeps w0).
Qed.

(** ** The days and keys of a file *)

(** The years whose days a text tells apart. *)
Definition plain_day (d : Z) : Prop := 100 <= getUTCFullYear d <= 9999.

Lemma plain_date_column d : plain_day (date_column d) <-> plain_day d.
Proof. unfold plain_day, getUTCFullYear. by rewrite date_column_day. Qed.

Lemma plain_text t u : plain_day t -> plain_day u -> formatDateOnly t = formatDateOnly u -> date_column t = date_column u.
Proof.
  intros P Q E. pose proof (toDateOnly_formatDateOnly t P) as A. pose proof (toDateOnly_formatDateOnly u Q) as B.
  rewrite E, B in A. injection A as A. by unfold date_column.
Qed.

Lemma plain_text_length d : plain_day d -> List.length (formatDateOnly d) = 10%nat.
Proof.
  unfold plain_day, formatDateOnly. intros P. rewrite iso_date_eq by lia.
  destruct (civil_of_time d) as [M _]. pose proof (getUTCDate_range d). by rewrite pad_4, !pad_2 by lia.
Qed.

Definition line_key (i : AdMetricImportInput) : AdKey := ad_key_of_row (a_parsedRow i).
Definition line_day (i : AdMetricImportInput) : Z := p_metricDate (a_parsedRow i).
Definition line_text (i : AdMetricImportInput) : str :=
  let p := a_parsedRow i in
  snapshotAdMetricKey (p_metricDate p, p_metaCampaignId p, p_metaAdsetExternalId p, p_adIdentityKey p).

Lemma line_key_text i : text_of (line_key i) = line_text i.
Proof. cbn. unfold line_text, snapshotAdMetricKey. f_equal. apply formatDateOnly_day, date_column_day. Qed.

(** The days that an import collects are those of its lines. *)
Definition add_day (m : list (str * Z)) (d : Z) : list (str * Z) := map_set m (formatDateOnly d) d.

Lemma add_day_days m d : plain_day d -> (forall t u, (t, u) ∈ m -> t = formatDateOnly u /\ plain_day u) ->
  forall x, x ∈ map date_column (map_values (add_day m d)) <-> x = date_column d \/ x ∈ map date_column (map_values m).
Proof.
  intros P A x. unfold add_day. induction m as [|[t u] m IH]; cbn [map_set map_values map snd].
  - rewrite list_elem_of_singleton, elem_of_nil. naive_solver.
  - destruct (A t u ltac:(by left)) as [E Q]. case_decide as D; cbn [map_values map snd]; rewrite !elem_of_cons.
    + rewrite (plain_text u d) by (done || congruence). naive_solver.
    + setoid_rewrite IH; [naive_solver|]. intros t' u' I. apply A. by right.
Qed.

Lemma add_days_days ds m : (forall d, d ∈ ds -> plain_day d) ->
  (forall t u, (t, u) ∈ m -> t = formatDateOnly u /\ plain_day u) ->
  forall x, x ∈ map date_column (map_values (fold_left add_day ds m)) <->
            x ∈ map date_column ds \/ x ∈ map date_column (map_values m).
Proof.
  revert m. induction ds as [|d ds IH]; intros m P A x; cbn [fold_left map]; [set_solver|].
  rewrite IH, add_day_days, elem_of_cons; [naive_solver|apply P; by left|done|intros; apply P; by right|].
  intros t u. unfold add_day. clear IH. induction m as [|[t' u'] m IHm]; cbn [map_set].
  - rewrite list_elem_of_singleton. intros [= -> ->]. split; [done|]. apply P. by left.
  - case_decide as D; rewrite elem_of_cons.
    + intros [[= -> ->]|I]; [split; [done|apply P; by left]|apply A; by right].
    + intros [[= -> ->]|I]; [apply A; by left|]. apply IHm; [|done]. intros; apply A; by right.
Qed.

Lemma stale_days {D K} `{EqDecision K, MetricTable D K} days days' keys (rows : list (metric D)) :
  (forall x, x ∈ map date_column days <-> x ∈ map date_column days') ->
  update_where (stale days keys) (with_current false) rows = update_where (stale days' keys) (with_current false) rows.
Proof.
  intros E. apply update_where_ext. intros r _. unfold stale, on_days. do 2 f_equal. by apply bool_decide_ext.
Qed.

(** ** The lines of a file *)

Lemma import_ad_inv input w imported w' : importAdDailyMetric uuid input w = Ok (imported, w') ->
  import_version (a_conflictPolicy input) (line_key input) (adDailyMetricCreateData input) (uuid (drawn w)) (now w)
    (adMetrics w) = Ok (imported, adMetrics w') /\ adsetMetrics w' = adsetMetrics w.
Proof.
  unfold importAdDailyMetric, line_key. destruct (import_version _ _ _ _ _ _) as [[b rows]|] eqn:I; [|done].
  cbn. intros [= <- <-]. destruct b; [done|]. unfold import_version in I. cbv zeta in I. destruct (negb _); [by injection I as <-|].
  destruct (adDailyMetricCreateData _ _); [|done]. cbn [result_bind] in I. by destruct (create_metric _ _).
Qed.

(** [i] was imported into the row [r]. *)
Definition written_by (i : AdMetricImportInput) (r : metric AdColumns) : Prop :=
  exists v f n t, adDailyMetricCreateData i v = Ok f /\ r = f n t.

Lemma import_ad_lines_run b inputs st w st' w' : (forall i, i ∈ inputs -> a_batchId i = b) ->
  import_ad_lines uuid st (map Some inputs) w = Ok (st', w') ->
  imports b (map line_key inputs) (adMetrics w) (adMetrics w')
  /\ adsetMetrics w' = adsetMetrics w /\ errorCount st' = errorCount st
  /\ includedAdKeys st' = includedAdKeys st ++ map line_text inputs
  /\ snapshotDatesByKey st' = fold_left add_day (map line_day inputs) (snapshotDatesByKey st)
  /\ (table_ok (adMetrics w) -> NoDup (map line_key inputs) ->
      forall i, i ∈ inputs -> a_conflictPolicy i <> SKIP ->
      exists r, r ∈ adMetrics w' /\ isCurrent r = true /\ uploadBatchId r = b /\ metric_key r = line_key i /\ written_by i r).
Proof.
  revert st w. induction inputs as [|i inputs IH]; intros st w B E; cbn [map import_ad_lines] in E; tx_steps.
  { split_and!; [constructor|done|done|by rewrite app_nil_r|done|]. by intros _ _ i ?%elem_of_nil. }
  unfold import_ad_line in E0. cbv zeta in E0. tx_steps. apply import_ad_inv in E1 as [I S].
  apply IH in E as (J & S' & Er & In & Da & Wr); [|intros j Ij; apply B; by right].
  pose proof (ad_writes i) as W. rewrite (B i) in W by by left.
  cbn [errorCount includedAdKeys snapshotDatesByKey map fold_left] in *. split_and!.
  - by eapply imports_next.
  - congruence.
  - done.
  - by rewrite In, <- app_assoc.
  - done.
  - intros T N j Ij Pj. apply NoDup_cons in N as [Ni N].
    pose proof (import_version_ok _ _ _ _ _ _ _ _ _ T W I) as T1.
    apply elem_of_cons in Ij as [->|Ij]; [|by apply Wr].
    pose proof (import_version_spec _ _ _ _ _ _ _ _ _ T W I) as Sp. destruct a0; [|by destruct Sp as (_ & ? & _)].
    destruct Sp as (x & f & Ef & Ex & Ea & _ & _ & Bx & Kx & Cx & _). exists x. split_and!; [|done..|].
    + eapply imports_kept; [exact T1|exact J|rewrite Ea; set_solver|]. by rewrite Kx.
    + by exists (nextImportVersion (importVersion <$> head (version_rows (line_key i) (adMetrics w)))), f, (uuid (drawn w)), (now w).
Qed.

(** ** The ad sets *)

Definition agg_key (g : AdsetAggregateInput) : AdsetKey := (date_column (g_metricDate g), g_metaAdsetId g).

Lemma agg_key_text g : text_of (agg_key g) = snapshotMetricKey (g_metricDate g, g_metaAdsetId g).
Proof. cbn. unfold snapshotMetricKey. f_equal. apply formatDateOnly_day, date_column_day. Qed.

Lemma import_overwrites b g w imported w' : importAdsetAggregateMetric uuid b g OVERWRITE w = Ok (imported, w') ->
  imported = true /\ adMetrics w' = adMetrics w
  /\ import_version OVERWRITE (agg_key g) (adsetAggregateMetricCreateData b g) (uuid (drawn w)) (now w)
       (adsetMetrics w) = Ok (true, adsetMetrics w').
Proof.
  unfold importAdsetAggregateMetric. fold (agg_key g). destruct (import_version _ _ _ _ _ _) as [[x rows]|] eqn:I; [|done].
  cbn. intros [= <- <-]. assert (x = true) as ->; [|done].
  unfold import_version in I. cbv zeta in I.
  destruct (List.find _ _); cbn [resolve_duplicate negb Decision.importMetric] in I;
    (destruct (adsetAggregateMetricCreateData _ _ _); [|done]; cbn [result_bind] in I; destruct (create_metric _ _); [|done];
     cbn [result_bind] in I; congruence).
Qed.

Definition aggregated_from (b : str) (g : AdsetAggregateInput) (x : metric AdsetColumns) : Prop :=
  exists v f n t, adsetAggregateMetricCreateData b g v = Ok f /\ x = f n t.

Lemma import_groups_run b groups w r w' : import_groups uuid b groups w = Ok (r, w') ->
  exists aggs, Forall2 (fun rows g => aggregateAdRows rows = Ok g) groups aggs
    /\ adMetrics w' = adMetrics w /\ imports b (map agg_key aggs) (adsetMetrics w) (adsetMetrics w')
    /\ r.2 = map (fun g => text_of (agg_key g)) aggs
    /\ (table_ok (adsetMetrics w) -> NoDup (map agg_key aggs) -> forall g, g ∈ aggs ->
        exists x, x ∈ adsetMetrics w' /\ isCurrent x = true /\ metric_key x = agg_key g /\ aggregated_from b g x).
Proof.
  revert w r. induction groups as [|rows groups IH]; intros w r E; cbn [import_groups] in E.
  { tx_steps. exists []. split_and!; [constructor|done|constructor|done|]. by intros _ _ g ?%elem_of_nil. }
  tx_first E as a w0 E0. apply tx_lift_inv in E0 as [L <-].
  tx_first E as imported w1 E1. apply import_overwrites in E1 as (-> & A & I).
  tx_first E as [count keys] w2 E2. cbv beta iota in E. injection E as <- <-.
  apply IH in E2 as (aggs & F & A' & J & K & Wr). exists (a :: aggs). cbn [snd] in K. split_and!.
  - by constructor.
  - congruence.
  - eapply imports_next; [apply aggregate_writes|exact I|exact J].
  - cbn [map snd]. rewrite agg_key_text. by f_equal.
  - intros T N g Ig. apply NoDup_cons in N as [Ng N].
    pose proof (import_version_ok _ _ _ _ _ _ _ _ _ T (aggregate_writes b a) I) as T1.
    apply elem_of_cons in Ig as [->|Ig]; [|by apply Wr].
    pose proof (import_version_spec _ _ _ _ _ _ _ _ _ T (aggregate_writes b a) I) as
      (x & f & Ef & Ex & Ea & _ & _ & Bx & Kx & Cx & _).
    exists x. split_and!; [|done..|].
    + eapply imports_kept; [exact T1|exact J|rewrite Ea; set_solver|]. by rewrite Kx.
    + by exists (nextImportVersion (importVersion <$> head (version_rows (agg_key a) (adsetMetrics w)))), f, (uuid (drawn w)), (now w).
Qed.

(** *** The groups *)

Lemma aggregate_first r rows g : aggregateAdRows (r :: rows) = Ok g ->
  g_metricDate g = c_metricDate (columns r) /\ g_metaAdsetId g = c_metaAdsetRefId (columns r).
Proof. unfold aggregateAdRows. cbv zeta. destruct (aggregateProductAttribution _) as [[? ?] ?]. by intros [= <-]. Qed.

(** The key of the row for the ad set of an ad. *)
Definition adset_key (r : metric AdColumns) : AdsetKey := (date_column (c_metricDate (columns r)), c_metaAdsetRefId (columns r)).

Lemma adset_key_text r : text_of (adset_key r) = group_key r.
Proof. cbn. unfold snapshotMetricKey, group_key. f_equal. apply formatDateOnly_day, date_column_day. Qed.

Lemma groups_aggregated (served : list (metric AdColumns)) aggs :
  Forall2 (fun rows g => aggregateAdRows rows = Ok g) (map_values (group_by group_key served)) aggs ->
  map (fun g => text_of (agg_key g)) aggs = map_keys (group_by group_key served)
  /\ forall g, g ∈ aggs <-> exists r, r ∈ served /\ aggregateAdRows (of_key group_key (group_key r) served) = Ok g
                                  /\ agg_key g = adset_key r.
Proof.
  assert (A : forall t rows, (t, rows) ∈ group_by group_key served -> exists r rest, rows = r :: rest /\ r ∈ served
            /\ group_key r = t /\ rows = of_key group_key t served).
  { intros t rows [E N]%elem_of_group_by. destruct rows as [|r rest]; [done|]. exists r, rest. split; [done|].
    assert (r ∈ of_key group_key t served) as [I K]%elem_of_filterb by (rewrite <- E; by left).
    apply bool_decide_eq_true in K. done. }
  intros F. split.
  - revert aggs F A. generalize (group_by group_key served). intros m. induction m as [|[t rows] m IH]; intros aggs F A;
      inversion_clear F as [|? g ? aggs' E F']; [done|]. cbn [map map_keys fst]. f_equal.
    + destruct (A t rows ltac:(by left)) as (r & rest & -> & _ & <- & _). apply aggregate_first in E as [D R].
      rewrite <- adset_key_text. unfold agg_key, adset_key. by rewrite D, R.
    + apply IH; [done|]. intros t' rows' I. apply A. by right.
  - intros g. split.
    + intros I. apply list_elem_of_lookup in I as (j & Ej). destruct (Forall2_lookup_r _ _ _ _ _ F Ej) as (rows & Er & E).
      apply list_elem_of_lookup_2 in Er. apply list_elem_of_fmap in Er as ([t rows'] & -> & I). cbn [snd] in *.
      destruct (A t rows' I) as (r & rest & Q & Ir & <- & Eo). exists r. rewrite <- Eo. split_and!; [done|done|].
      rewrite Q in E. apply aggregate_first in E as [D R]. unfold agg_key. rewrite D, R.
      assert (r ∈ served) by done. done.
    + intros (r & Ir & E & _).
      assert (I : (group_key r, of_key group_key (group_key r) served) ∈ group_by group_key served).
      { apply elem_of_group_by. split; [done|]. intros Z. assert (r ∈ of_key group_key (group_key r) served) as X
          by (apply elem_of_filterb; split; [done|by apply bool_decide_eq_true]). rewrite Z in X. by apply elem_of_nil in X. }
      apply (list_elem_of_fmap_2 snd) in I. cbn [snd] in I. apply list_elem_of_lookup in I as (j & Ej).
      destruct (Forall2_lookup_l _ _ _ _ _ F Ej) as (g' & Eg & E'). rewrite E in E'. injection E' as <-.
      by eapply list_elem_of_lookup_2.
Qed.

Lemma groups_nonempty (served : list (metric AdColumns)) r : r ∈ served -> map_values (group_by group_key served) <> [].
Proof.
  intros I Z. assert (X : group_key r ∈ map_keys (group_by group_key served)) by by apply elem_of_group_keys, list_elem_of_fmap_2.
  apply list_elem_of_fmap in X as (tr & _ & X). apply (list_elem_of_fmap_2 snd) in X.
  change (tr.2 ∈ map_values (group_by group_key served)) in X. rewrite Z in X. by apply elem_of_nil in X.
Qed.

Lemma aggregate_total r rows : exists g, aggregateAdRows (r :: rows) = Ok g.
Proof. unfold aggregateAdRows. cbv zeta. destruct (aggregateProductAttribution _) as [[? ?] ?]. eauto. Qed.

(** Among plain days the text of a group tells its ad set and day. *)
Lemma group_key_adset r s : plain_day (c_metricDate (columns r)) -> plain_day (c_metricDate (columns s)) ->
  group_key r = group_key s <-> adset_key r = adset_key s.
Proof.
  intros P Q. split; [|rewrite <- !adset_key_text; by intros ->]. unfold group_key, colon. cbn. intros E.
  apply app_inj_1 in E as [E R]; [|by rewrite !plain_text_length]. injection R as R. unfold adset_key. rewrite R.
  by rewrite (plain_text _ _ P Q E).
Qed.

Lemma plain_keys_told (ks : list AdsetKey) : (forall k, k ∈ ks -> plain_day k.1 /\ date_column k.1 = k.1) -> told_apart ks.
Proof.
  intros P [d i] [d' i'] I I' E. destruct (P _ I) as [Pd Dd], (P _ I') as [Pd' Dd']. cbn in *.
  unfold snapshotMetricKey, colon in E. cbn in E. apply app_inj_1 in E as [E Q]; [|by rewrite !plain_text_length].
  injection Q as ->. f_equal. rewrite <- Dd, <- Dd'. by apply plain_text.
Qed.

(** Ids in which no colon occurs, as those of Meta, which are numbers: then the
    text of the key of an ad tells its day, campaign, ad set and ad. *)
Definition colon_free (k : AdKey) : Prop := 58%N ∉ k.1.1.2 /\ 58%N ∉ k.1.2.

Lemma ad_keys_told (k k' : AdKey) : plain_day (day_of k) -> plain_day (day_of k') -> colon_free k -> colon_free k' ->
  date_column (day_of k) = day_of k -> date_column (day_of k') = day_of k' -> text_of k = text_of k' -> k = k'.
Proof.
  destruct k as [[[d c] s] a], k' as [[[d' c'] s'] a']. unfold colon_free. cbn. intros P P' [Nc Ns] [Nc' Ns'] D D' E.
  unfold colon in E. cbn in E. apply app_inj_1 in E as [Ed E]; [|by rewrite !plain_text_length]. injection E as E.
  apply not_elem_of_app_cons_inv_l in E as (-> & _ & E); [|done..].
  apply not_elem_of_app_cons_inv_l in E as (-> & _ & ->); [|done..].
  by rewrite <- D, <- D', (plain_text d d').
Qed.

(** ** The whole import *)

Lemma elem_of_served days rows r : r ∈ current_ads_on collate days rows <->
  r ∈ rows /\ isCurrent r = true /\ on_days days r = true.
Proof. unfold current_ads_on. rewrite elem_of_js_sort, elem_of_filterb, andb_true_iff. done. Qed.

Lemma served_days days days' rows : (forall x, x ∈ map date_column days <-> x ∈ map date_column days') ->
  current_ads_on collate days rows = current_ads_on collate days' rows.
Proof.
  intros E. unfold current_ads_on. f_equal. apply filterb_ext. intros r _. unfold on_days. f_equal. by apply bool_decide_ext.
Qed.

Lemma on_days_plain {D K} `{EqDecision K, MetricTable D K} days (r : metric D) : (forall d, d ∈ days -> plain_day d) ->
  on_days days r = true -> plain_day (day_of (metric_key r)) /\ date_column (day_of (metric_key r)) = day_of (metric_key r).
Proof.
  intros P I%bool_decide_eq_true. apply list_elem_of_fmap in I as (d & -> & Id). split.
  - by apply plain_date_column, P.
  - apply date_column_idem.
Qed.

Section file.
Context (b : str) (inputs : list AdMetricImportInput).

(** A file whose lines have no issues, with days that their texts tell apart
    and, as the import checks, no key twice. *)
Definition importable : Prop :=
  inputs <> [] /\ (forall i, i ∈ inputs -> a_batchId i = b /\ plain_day (line_day i)) /\ NoDup (map line_text inputs).

Definition days : list Z := map line_day inputs.
Definition served (w : MetaDb) : list (metric AdColumns) := current_ads_on collate days (adMetrics w).

(** The rows that the snapshot hides in a table. *)
Definition hide {D K} `{EqDecision K, MetricTable D K} (texts : list str) (rows : list (metric D)) : list (metric D) :=
  update_where (stale days texts) (with_current false) rows.

Lemma line_days_plain d : importable -> d ∈ days -> plain_day d.
Proof. intros (_ & L & _) (i & -> & I)%list_elem_of_fmap. by apply L. Qed.

Lemma line_keys_distinct : importable -> NoDup (map line_key inputs) /\ told_apart (map line_key inputs).
Proof.
  intros (_ & _ & N). rewrite (map_ext line_text (fun i => text_of (D := AdColumns) (line_key i))) in N by (intros i; by rewrite line_key_text).
  rewrite <- map_map in N. split; [by apply NoDup_fmap_1 in N|].
  clear -N. induction (map line_key inputs) as [|k ks IH]; [by intros x y ?%elem_of_nil|].
  cbn [map] in N. apply NoDup_cons in N as [Nk N]. specialize (IH N). intros x y. rewrite !elem_of_cons.
  intros [->|Ix] [->|Iy] E; [done| | |by apply IH].
  - destruct Nk. rewrite E. by apply list_elem_of_fmap_2.
  - destruct Nk. rewrite <- E. by apply list_elem_of_fmap_2.
Qed.

Lemma hide_ads_run ds texts w n w' : table_ok (adMetrics w) -> ds <> [] -> texts <> [] ->
  (forall x, x ∈ map date_column ds <-> x ∈ map date_column days) ->
  deactivateMissingAdSnapshotMetrics ds texts w = Ok (n, w') ->
  adMetrics w' = hide texts (adMetrics w) /\ adsetMetrics w' = adsetMetrics w.
Proof.
  intros T Nd Nt Q E. unfold deactivateMissingAdSnapshotMetrics in E.
  pose proof (deactivate_missing_stale ds texts _ T Nd Nt) as S. destruct (deactivate_missing _ _ _). injection E as <- <-.
  split; [|done]. cbn in *. rewrite S. by apply stale_days.
Qed.

Lemma hide_adsets_run ds texts w n w' : table_ok (adsetMetrics w) -> ds <> [] -> texts <> [] ->
  (forall x, x ∈ map date_column ds <-> x ∈ map date_column days) ->
  deactivateMissingSnapshotMetrics ds texts w = Ok (n, w') ->
  adsetMetrics w' = hide texts (adsetMetrics w) /\ adMetrics w' = adMetrics w.
Proof.
  intros T Nd Nt Q E. unfold deactivateMissingSnapshotMetrics in E.
  pose proof (deactivate_missing_stale ds texts _ T Nd Nt) as S. destruct (deactivate_missing _ _ _). injection E as <- <-.
  split; [|done]. cbn in *. rewrite S. by apply stale_days.
Qed.

(** Every line has a current row that the snapshot does not hide. *)
Lemma lines_served rows rows' i : table_ok rows -> imports b (map line_key inputs) rows rows' -> i ∈ inputs ->
  exists r, r ∈ hide (map line_text inputs) rows' /\ isCurrent r = true /\ metric_key r = line_key i.
Proof.
  intros T I Ii. destruct (imports_current _ _ _ _ T I (line_key i)) as (r & Ir & Kr & Cr).
  { left. by apply list_elem_of_fmap_2. }
  exists r. split_and!; [|done|done]. apply elem_update. exists r. split; [done|].
  unfold stale. rewrite Kr, line_key_text, (bool_decide_eq_true_2 (line_text i ∈ _)) by by apply list_elem_of_fmap_2.
  by rewrite andb_false_r.
Qed.

Lemma line_on_days (r : metric AdColumns) i : i ∈ inputs -> metric_key r = line_key i -> on_days days r = true.
Proof.
  intros I E. unfold on_days. rewrite E. apply bool_decide_eq_true. unfold days. rewrite map_map.
  by apply (list_elem_of_fmap_2 (fun i => date_column (line_day i))).
Qed.

(** What an import without errors does to the two tables. *)
Lemma import_run w st hidden refreshed w' : tables_ok w -> importable ->
  import_ad_metrics uuid collate b (map Some inputs) w = Ok ((st, hidden, refreshed), w') ->
  exists ads1 aggs adsets1,
    imports b (map line_key inputs) (adMetrics w) ads1
    /\ adMetrics w' = hide (map line_text inputs) ads1
    /\ (forall i, i ∈ inputs -> a_conflictPolicy i <> SKIP ->
         exists r, r ∈ ads1 /\ isCurrent r = true /\ uploadBatchId r = b /\ metric_key r = line_key i /\ written_by i r)
    /\ Forall2 (fun rows g => aggregateAdRows rows = Ok g) (map_values (group_by group_key (served w'))) aggs
    /\ imports b (map agg_key aggs) (adsetMetrics w) adsets1
    /\ adsetMetrics w' = hide (map (fun g => text_of (agg_key g)) aggs) adsets1
    /\ (NoDup (map agg_key aggs) -> forall g, g ∈ aggs ->
         exists x, x ∈ adsets1 /\ isCurrent x = true /\ metric_key x = agg_key g /\ aggregated_from b g x).
Proof.
  intros [Ta Ts] P E. pose proof P as (Ni & L & _). unfold import_ad_metrics in E.
  tx_first E as st1 w1 E1. apply (import_ad_lines_run b) in E1 as (I & S & Er & In & Da & Wr); [|by apply L].
  specialize (Wr Ta (proj1 (line_keys_distinct P))). pose proof (imports_ok _ _ _ _ Ta I) as T1.
  cbn in In. rewrite Er, In in E.
  destruct inputs as [|i0 inputs0] eqn:Ei; [done|]. rewrite <- Ei in *. replace (0 <? _)%nat with true in E by by rewrite Ei. cbn [Z.eqb andb] in E.
  assert (Q : forall x, x ∈ map date_column (map_values (snapshotDatesByKey st1)) <-> x ∈ map date_column days).
  { intros x. rewrite Da. fold days. rewrite add_days_days; [|by intros d; apply line_days_plain|by intros t u ?%elem_of_nil].
    cbn. rewrite elem_of_nil. naive_solver. }
  assert (Nd : map_values (snapshotDatesByKey st1) <> []).
  { intros Z. assert (X : date_column (line_day i0) ∈ map date_column days) by (unfold days; rewrite Ei; by left).
    apply Q in X. rewrite Z in X. by apply elem_of_nil in X. }
  tx_first E as n2 w2 E2. apply hide_ads_run in E2 as [A2 S2]; [|done|done|by rewrite Ei|done].
  tx_first E as n3 w3 E3. injection E as _ _ _ <-. unfold refreshAdsetAggregatesFromAdMetrics in E3.
  destruct (map_values (snapshotDatesByKey st1)) as [|d0 ds] eqn:Ed; [done|]. rewrite <- Ed in *. replace (_ =? 0)%nat with false in E3 by by rewrite Ed.
  tx_first E3 as groups w4 E4. injection E4 as <- <-.
  tx_first E3 as [count keys] w4 E4. cbv beta iota in E3. tx_first E3 as n5 w5 E5. injection E3 as _ <-.
  apply import_groups_run in E4 as (aggs & F & A4 & J & K & Wg). cbn [snd] in K. rewrite S2, S in *.
  unfold group_metrics in F. rewrite (served_days _ days _ Q) in F.
  destruct (lines_served _ _ i0 Ta I ltac:(rewrite Ei; by left)) as (r & Ir & Cr & Kr).
  assert (Na : keys <> []).
  { rewrite K. intros Z%map_eq_nil. rewrite Z in F. apply Forall2_nil_inv_r in F. revert F. apply (groups_nonempty _ r).
    apply elem_of_served. rewrite A2. split_and!; [done|done|]. apply (line_on_days r i0); [rewrite Ei; by left|done]. }
  replace (0 <? _)%nat with true in E5 by (destruct keys; done).
  pose proof (imports_ok _ _ _ _ Ts J) as T4.
  apply hide_adsets_run in E5 as [S5 A5]; [|done|done|done|done].
  exists (adMetrics w1), aggs, (adsetMetrics w4). unfold served. rewrite A5, A4, A2, S5, K.
  split_and!; [done|done|done| |done|done|by apply Wg]. by rewrite <- A2.
Qed.

Lemma served_plain w r : importable -> r ∈ served w ->
  plain_day (c_metricDate (columns r)) /\ date_column (c_metricDate (columns r)) = c_metricDate (columns r).
Proof. intros P (_ & _ & O)%elem_of_served. exact (on_days_plain days r (fun d => line_days_plain d P) O). Qed.

(** The rows of a hidden table that are current on the days. *)
Lemma elem_hide {D K} `{EqDecision K, MetricTable D K} texts (rows : list (metric D)) r :
  r ∈ hide texts rows -> isCurrent r = true -> r ∈ rows /\ (on_days days r = true -> text_of (metric_key r) ∈ texts).
Proof.
  intros (s & I & ->)%elem_update C. destruct (stale days texts s) eqn:E; [done|]. split; [done|]. intros O.
  unfold stale in E. rewrite C, O in E. apply negb_false_iff, bool_decide_eq_true in E. done.
Qed.

Lemma not_hidden {D K} `{EqDecision K, MetricTable D K} texts (rows : list (metric D)) r :
  r ∈ rows -> text_of (metric_key r) ∈ texts -> r ∈ hide texts rows.
Proof.
  intros I T. apply elem_update. exists r. split; [done|]. unfold stale. by rewrite (bool_decide_eq_true_2 _ T), andb_false_r.
Qed.

(** The row of an ad set is on the days if its ads are. *)
Lemma adset_on_days w r (x : metric AdsetColumns) : importable -> r ∈ served w -> metric_key x = adset_key r ->
  on_days days x = true.
Proof.
  intros P Ir E. destruct (served_plain _ _ P Ir) as [_ Dr]. apply elem_of_served in Ir as (_ & _ & Or).
  unfold on_days in *. rewrite E. cbn. rewrite Dr. exact Or.
Qed.

(** Every current ad is in a group, with the key of its ad set. *)
Lemma group_of_ad w r : importable -> r ∈ served w ->
  exists g, aggregateAdRows (of_key group_key (group_key r) (served w)) = Ok g /\ agg_key g = adset_key r.
Proof.
  intros P Ir. assert (X : r ∈ of_key group_key (group_key r) (served w)).
  { apply elem_of_filterb. split; [done|by apply bool_decide_eq_true]. }
  destruct (of_key _ _ _) as [|r0 rest] eqn:Q; [by apply elem_of_nil in X|].
  assert (r0 ∈ of_key group_key (group_key r) (served w)) as [I0 K0]%elem_of_filterb by (rewrite Q; by left).
  apply bool_decide_eq_true in K0. destruct (aggregate_total r0 rest) as [g Eg]. exists g. split; [done|].
  apply aggregate_first in Eg as [D R]. rewrite <- (proj1 (group_key_adset r0 r (proj1 (served_plain _ _ P I0)) (proj1 (served_plain _ _ P Ir))) K0).
  unfold agg_key, adset_key. by rewrite D, R.
Qed.

(** Hiding and importing leave the other days alone. *)
Lemma hide_elsewhere {D K} `{EqDecision K, MetricTable D K} texts (rows : list (metric D)) r :
  on_days days r = false -> r ∈ hide texts rows <-> r ∈ rows.
Proof.
  intros O. unfold hide. rewrite elem_update. split.
  - intros (s & I & ->). destruct (stale days texts s) eqn:E; [exfalso|done].
    change (on_days days s = false) in O. unfold stale in E. by rewrite O, andb_false_r in E.
  - intros I. exists r. split; [done|]. unfold stale. by rewrite O, andb_false_r.
Qed.

Lemma agg_keys_distinct w aggs :
  Forall2 (fun rows g => aggregateAdRows rows = Ok g) (map_values (group_by group_key (served w))) aggs ->
  NoDup (map agg_key aggs).
Proof.
  intros F. apply groups_aggregated in F as [K _]. apply (NoDup_fmap_1 (text_of (D := AdsetColumns))).
  change (NoDup (map (text_of (D := AdsetColumns)) (map agg_key aggs))).
  rewrite map_map. rewrite K. apply NoDup_group_by.
Qed.

(** A current row that the snapshot keeps is one of a line. *)
Lemma served_line w ads1 r : table_ok (adMetrics w) -> importable -> imports b (map line_key inputs) (adMetrics w) ads1 ->
  (forall i, i ∈ inputs -> colon_free (line_key i)) -> (forall r, r ∈ served w -> colon_free (metric_key r)) ->
  r ∈ ads1 -> isCurrent r = true -> on_days days r = true -> text_of (metric_key r) ∈ map line_text inputs ->
  exists i, i ∈ inputs /\ metric_key r = line_key i.
Proof.
  intros Ta P I Fi Fr Ir Cr Or Tr.
  destruct (decide (metric_key r ∈ map line_key inputs)) as [K|N].
  { apply list_elem_of_fmap in K as (i & Ek & Ii). eauto. }
  assert (Sr : r ∈ served w) by (apply elem_of_served; split; [by apply (imports_elsewhere _ _ _ _ _ Ta I)|done]).
  apply list_elem_of_fmap in Tr as (i & Et & Ii). exists i. split; [done|].
  destruct (served_plain w r P Sr) as [Pd Dd]. destruct P as (_ & L & _). destruct (L i Ii) as [_ Pi].
  apply ad_keys_told; [exact Pd|by apply plain_date_column|by apply Fr|by apply Fi|exact Dd|apply date_column_idem|].
  by rewrite Et, line_key_text.
Qed.

(** C25: After an import without errors the current rows of the days of the file
    are those of the file: every line has one, of its day, campaign, ad set and
    ad, written from the line unless the policy was to keep an existing row; and
    there is no other, provided no colon occurs in the campaign and ad set ids of
    the file and of the rows that were current on its days - Meta's are numbers,
    but the code does not check, and it compares rows by these ids joined with
    colons.  The current rows of ad sets on these days are each computed from the
    current rows of the ads of the ad set and day, and every ad counts in one.
    Rows of other days stay as they were, in both tables. *)
Theorem import_serves_file w st hidden refreshed w' :
  tables_ok w -> importable ->
  import_ad_metrics uuid collate b (map Some inputs) w = Ok ((st, hidden, refreshed), w') ->
  (forall i, i ∈ inputs -> exists r, r ∈ served w' /\ metric_key r = line_key i
     /\ (a_conflictPolicy i <> SKIP -> uploadBatchId r = b /\ written_by i r))
  /\ ((forall i, i ∈ inputs -> colon_free (line_key i)) -> (forall r, r ∈ served w -> colon_free (metric_key r)) ->
      forall r, r ∈ served w' -> exists i, i ∈ inputs /\ metric_key r = line_key i)
  /\ (forall x, x ∈ adsetMetrics w' -> isCurrent x = true -> on_days days x = true ->
      exists g, aggregateAdRows (of_key adset_key (metric_key x) (served w')) = Ok g /\ aggregated_from b g x)
  /\ (forall r, r ∈ served w' -> exists x, x ∈ adsetMetrics w' /\ isCurrent x = true /\ metric_key x = adset_key r)
  /\ (forall r, on_days days r = false -> r ∈ adMetrics w' <-> r ∈ adMetrics w)
  /\ (forall x, on_days days x = false -> x ∈ adsetMetrics w' <-> x ∈ adsetMetrics w).
Proof.
  intros T P E. pose proof (import_run _ _ _ _ _ T P E) as (ads1 & aggs & adsets1 & I & A & Wa & F & J & S & Ws).
  specialize (Ws (agg_keys_distinct _ _ F)). pose proof (groups_aggregated _ _ F) as [_ G]. destruct T as [Ta Ts].
  split_and!.
  - intros i Ii. destruct (decide (a_conflictPolicy i = SKIP)) as [Sk|Sk].
    + destruct (lines_served _ _ _ Ta I Ii) as (r & Ir & Cr & Kr). exists r. split_and!; [|done|done].
      apply elem_of_served. rewrite A. split_and!; [done|done|by apply (line_on_days r i)].
    + destruct (Wa i Ii Sk) as (r & Ir & Cr & Br & Kr & W). exists r. split_and!; [|done|done].
      apply elem_of_served. rewrite A. split_and!; [|done|by apply (line_on_days r i)].
      apply not_hidden; [done|]. rewrite Kr, line_key_text. by apply list_elem_of_fmap_2.
  - intros Fi Fr r Sr. apply elem_of_served in Sr as (Ir & Cr & Or). rewrite A in Ir.
    apply elem_hide in Ir as [Ir Q]; [|done]. apply (served_line _ _ _ Ta P I Fi Fr); [done|done|done|by apply Q].
  - intros x Ix Cx Ox. rewrite S in Ix. apply elem_hide in Ix as [Ix Q]; [|done]. specialize (Q Ox).
    apply list_elem_of_fmap in Q as (g & Eg & Ig). destruct (Ws g Ig) as (y & Iy & Cy & Ky & W).
    apply G in Ig as (r & Ir & Ag & Kr). destruct (served_plain _ _ P Ir) as [Pr Dr].
    assert (metric_key x = agg_key g) as Kx.
    { apply (plain_keys_told [metric_key x; agg_key g]); [|by left|by right; left|done].
      intros k. rewrite elem_of_cons, list_elem_of_singleton. intros [->| ->].
      - exact (on_days_plain days x (fun d => line_days_plain d P) Ox).
      - rewrite Kr. cbn. rewrite plain_date_column. split; [done|apply date_column_idem]. }
    exists g. split.
    + rewrite <- Ag. f_equal. apply filterb_ext. intros s Is. apply bool_decide_ext.
      destruct (served_plain _ _ P Is) as [Ps _]. rewrite (group_key_adset _ _ Ps Pr). by rewrite Kx, Kr.
    + by rewrite (one_current _ _ x y (imports_ok _ _ _ _ Ts J)) by (done || congruence).
  - intros r Ir. destruct (group_of_ad _ _ P Ir) as (g' & Eg & Kg'). assert (Ig' : g' ∈ aggs) by (apply G; eauto).
    destruct (Ws g' Ig') as (x & Ix & Cx & Kx & _). exists x. split_and!; [|done|congruence].
    rewrite S. apply not_hidden; [done|]. rewrite Kx. by apply (list_elem_of_fmap_2 (fun g => text_of (agg_key g))).
  - intros r O. rewrite A, (hide_elsewhere _ _ _ O). apply (imports_elsewhere _ _ _ _ _ Ta I).
    intros (i & Kr & Ii)%list_elem_of_fmap. by rewrite (line_on_days r i Ii Kr) in O.
  - intros x O. rewrite S, (hide_elsewhere _ _ _ O). apply (imports_elsewhere _ _ _ _ _ Ts J).
    intros (g & Kx & Ig)%list_elem_of_fmap. apply G in Ig as (r & Ir & _ & Kg).
    by rewrite (adset_on_days w' r x P Ir ltac:(congruence)) in O.
Qed.

Lemma delete_upload_run w : exists counts w', delete_upload_metrics b w = Ok (counts, w')
  /\ adMetrics w' = (delete_metrics b (adMetrics w)).2 /\ adsetMetrics w' = (delete_metrics b (adsetMetrics w)).2.
Proof.
  unfold delete_upload_metrics, delete_metrics, tx_bind.
  destruct (remove_batch b (adMetrics w)) as [ads rads], (remove_batch b (adsetMetrics w)) as [adsets radsets].
  destruct (restore_versions ads rads) as [n1 ads'], (restore_versions adsets radsets) as [n2 adsets'].
  unfold cleanupCreativeDataAfterMetricDelete. cbv zeta. destruct (_ =? 0)%nat; cbn [delete_many]; do 2 eexists; done.
Qed.

(** C27: Deleting an upload right after it was imported restores both tables as
    they were, row by row, versions that it superseded included, except that the
    rows its snapshot hid stay hidden: those of its days that were current and
    are not in the file, and the ad sets of its days without a current ad.  For
    this no key of the file and no ad set of its days had been hidden before. *)
Theorem import_deleted w st hidden refreshed w1 :
  tables_ok w -> importable ->
  (forall r, r ∈ adMetrics w -> uploadBatchId r <> b) -> (forall x, x ∈ adsetMetrics w -> uploadBatchId x <> b) ->
  (forall r, r ∈ adMetrics w -> metric_key r ∈ map line_key inputs ->
     exists c, c ∈ adMetrics w /\ metric_key c = metric_key r /\ isCurrent c = true) ->
  (forall x, x ∈ adsetMetrics w -> on_days days x = true ->
     exists c, c ∈ adsetMetrics w /\ metric_key c = metric_key x /\ isCurrent c = true) ->
  import_ad_metrics uuid collate b (map Some inputs) w = Ok ((st, hidden, refreshed), w1) ->
  exists counts w2, delete_upload_metrics b w1 = Ok (counts, w2)
    /\ adMetrics w2 = hide (map line_text inputs) (adMetrics w)
    /\ adsetMetrics w2 = hide (map (fun r => snapshotMetricKey (adset_key r)) (served w1)) (adsetMetrics w).
Proof.
  intros T P Fa Fs Ca Cs E. pose proof (import_run _ _ _ _ _ T P E) as (ads1 & aggs & adsets1 & I & A & _ & F & J & S & _).
  pose proof (groups_aggregated _ _ F) as [K G]. destruct T as [Ta Ts].
  destruct (delete_upload_run w1) as (counts & w2 & D & A2 & S2). exists counts, w2. split; [done|]. split.
  - rewrite A2, A. apply (delete_after_imports b (map line_key inputs)); [done..| | |done].
    + intros k (i & -> & Ii)%list_elem_of_fmap. rewrite line_key_text. by apply list_elem_of_fmap_2.
    + by apply line_keys_distinct.
  - rewrite S2, S. unfold hide at 1. rewrite (delete_after_imports b (map agg_key aggs) days _ (adsetMetrics w)); [|done..| | |].
    + apply update_where_ext. intros x _. unfold stale. do 2 f_equal. apply bool_decide_ext.
      rewrite K, elem_of_group_keys. unfold group_key, adset_key. 
      rewrite (map_ext (fun r => snapshotMetricKey _) group_key) by apply adset_key_text. done.
    + intros k (g & -> & Ig)%list_elem_of_fmap. by apply (list_elem_of_fmap_2 (fun g => text_of (agg_key g))).
    + apply plain_keys_told. intros k (g & -> & Ig)%list_elem_of_fmap. apply G in Ig as (r & Ir & _ & ->).
      destruct (served_plain _ _ P Ir) as [Pr _]. cbn. rewrite plain_date_column. split; [done|apply date_column_idem].
    + intros x Ix (g & Kx & Ig)%list_elem_of_fmap. apply Cs; [done|]. apply G in Ig as (r & Ir & _ & Kg).
      by apply (adset_on_days w1 r x P Ir); congruence.
Qed.
End file.
End guarantees.

(** ** Examples

    Two uploads of one day and ad set: the first has the ads [a] and [c], the
    second [a] and [b], so that it hides [c]. *)
Section examples.
#[local] Existing Instance fixed.
#[local] Existing Instance c_locale.

Definition example_day : Z := 1767225600000.

Definition example_line (batch row ad : string) (spend : Z) : AdMetricImportInput := {|
  a_batchId := js batch; a_uploadRowId := js row;
  a_parsedRow := {|
    p_dateStart := example_day; p_dateEnd := example_day; p_metricDate := example_day;
    p_campaignName := js "campaign"; p_metaCampaignId := js "10";
    p_adsetName := js "Ad set"; p_metaAdsetExternalId := js "20";
    p_adName := js ad; p_metaAdId := Some (js ad); p_syntheticAdKey := js ad; p_adIdentityKey := js ad;
    p_adDeliveryStatus := Some (js "active"); p_attributionSetting := None;
    p_resultCount := ofZ 2; p_resultIndicator := None; p_purchaseCount := ofZ 2; p_reach := ofZ 50;
    p_videoPlay3sCount := None; p_videoPlay25Count := None; p_videoPlay50Count := None;
    p_videoPlay75Count := None; p_videoPlay100Count := None; p_addToCartCount := None;
    p_frequency := None; p_costPerResultUsd := None; p_adsetBudgetLabel := None; p_adsetBudgetType := None;
    p_spendUsd := ofZ spend; p_endStatus := None;
    p_qualityRanking := None; p_engagementRateRanking := None; p_conversionRateRanking := None;
    p_impressions := ofZ 100; p_cpmUsd := None; p_linkClicks := ofZ 5; p_shopClicks := ofZ 1;
    p_cpcLinkUsd := None; p_ctrLinkPct := None; p_clicksAll := ofZ 6; p_ctrAllPct := None; p_cpcAllUsd := None;
    p_landingPageViews := ofZ 3; p_costPerLandingPageViewUsd := None |};
  a_rawRow := []; a_campaignRefId := js "r10"; a_metaAdsetRefId := js "r20"; a_metaAdRefId := js ad;
  a_creativeId := Some (js ad);
  a_attribution := {| productId := None; productMatchSource := UNMATCHED; productMatchRuleId := None;
                      stage := UNKNOWN; stageMatchSource := UNMATCHED |};
  a_conflictPolicy := NEW_VERSION |}.

Definition example_uuid (n : nat) : str := [N.of_nat n].
Definition first_file := [example_line "u1" "u1r1" "a" 3; example_line "u1" "u1r2" "c" 4].
Definition second_file := [example_line "u2" "u2r1" "a" 5; example_line "u2" "u2r2" "b" 6].

Definition empty_db : MetaDb :=
  {| adMetrics := []; adsetMetrics := []; creatives := []; aliases := []; placements := []; changeLogs := [];
     now := 0; drawn := 0 |}.

Definition db_after {A} (r : result (A * MetaDb)) : MetaDb := match r with Ok (_, w) => w | Throws _ => empty_db end.
Definition succeeded {A} (r : result A) : bool := match r with Ok _ => true | Throws _ => false end.

Local Notation first_import := (import_ad_metrics example_uuid str_cmp (js "u1") (map Some first_file) empty_db).
Definition first_db : MetaDb := db_after first_import.
Local Notation second_import := (import_ad_metrics example_uuid str_cmp (js "u2") (map Some second_file) first_db).

(** What an example shows of a table: batch, version, current. *)
Definition shown {D} (rows : list (metric D)) : list (str * Z * bool) :=
  map (fun r => (uploadBatchId r, importVersion r, isCurrent r)) rows.

Definition second_shown := (shown (adMetrics (db_after second_import)), shown (adsetMetrics (db_after second_import))).
Definition deleted_db : MetaDb := db_after (delete_upload_metrics (js "u2") (db_after second_import)).
Definition deleted_shown := (shown (adMetrics deleted_db), shown (adsetMetrics deleted_db)).

Example second_file_shown : second_shown
  = ([(js "u1", 1, false); (js "u1", 1, false); (js "u2", 2, true); (js "u2", 1, true)],
     [(js "u1", 1, false); (js "u2", 2, true)]).
Proof. vm_compute. reflexivity. Qed.

Example second_deleted_shown : deleted_shown
  = ([(js "u1", 1, true); (js "u1", 1, false)], [(js "u1", 1, true)]).
Proof. vm_compute. reflexivity. Qed.

(** Three uploads, the third without the ad [c] of the others, which it hides:
    deleting the first makes the version of [c] of the second current again. *)
Definition zeroth_db : MetaDb :=
  db_after (import_ad_metrics example_uuid str_cmp (js "u0") [Some (example_line "u0" "u0r1" "c" 9)] empty_db).
Definition three_db : MetaDb :=
  db_after (import_ad_metrics example_uuid str_cmp (js "u2") (map Some second_file)
    (db_after (import_ad_metrics example_uuid str_cmp (js "u1") (map Some first_file) zeroth_db))).
Definition revived_db : MetaDb := db_after (delete_upload_metrics (js "u0") three_db).
Definition of_ad_c (r : metric AdColumns) : bool := str_eqb (c_adIdentityKey (columns r)) (js "c").
Definition three_c_shown := shown (List.filter of_ad_c (adMetrics three_db)).
Definition revived_c_shown := shown (List.filter of_ad_c (adMetrics revived_db)).

Example hidden_row_revived : three_c_shown = [(js "u0", 1, false); (js "u1", 2, false)]
  /\ revived_c_shown = [(js "u1", 2, true)].
Proof. vm_compute. split; reflexivity. Qed.

Lemma first_succeeds : succeeded first_import = true.
Proof. vm_compute. reflexivity. Qed.

Lemma second_succeeds : succeeded second_import = true.
Proof. vm_compute. reflexivity. Qed.

Lemma first_ok : exists x, first_import = Ok (x, first_db).
Proof.
  unfold first_db. generalize first_succeeds. destruct first_import as [[x w]|e]; [by exists x|discriminate].
Qed.

Lemma second_ok : exists st hidden refreshed w, second_import = Ok ((st, hidden, refreshed), w).
Proof.
  generalize second_succeeds. destruct second_import as [[[[st h] n] w]|e]; [by exists st, h, n, w|discriminate].
Qed.

Lemma empty_tables_ok : tables_ok empty_db.
Proof. split; apply table_ok_nil. Qed.

Lemma first_tables_ok : tables_ok first_db.
Proof. destruct first_ok as [x E]. generalize first_db, E. intros w F. exact (import_metrics_keep _ _ _ _ _ _ _ F empty_tables_ok). Qed.

Lemma second_importable : importable (js "u2") second_file.
Proof.
  split_and!; [done| |apply (bool_decide_unpack _); by vm_compute].
  intros i. unfold second_file. rewrite elem_of_cons, list_elem_of_singleton.
  intros [->| ->]; (split; [done|]); unfold plain_day; vm_compute; split; discriminate.
Qed.

Lemma second_colon_free i : i ∈ second_file -> colon_free (line_key i).
Proof.
  unfold second_file. rewrite elem_of_cons, list_elem_of_singleton.
  intros [->| ->]; split; apply (bool_decide_unpack _); vm_compute; exact I.
Qed.

Lemma first_colon_free r : r ∈ served str_cmp second_file first_db -> colon_free (metric_key r).
Proof.
  intros (I & _ & _)%elem_of_served.
  assert (F : forallb (fun r => let k := metric_key r in
    negb (existsb (N.eqb 58) k.1.1.2) && negb (existsb (N.eqb 58) k.1.2)) (adMetrics first_db) = true)
    by (vm_compute; reflexivity).
  rewrite forallb_forall_iff in F. specialize (F r I). apply andb_true_iff in F as [F1 F2].
  apply negb_true_iff in F1, F2. rewrite existsb_false_iff in F1. rewrite existsb_false_iff in F2.
  split; intros X; [apply F1 in X|apply F2 in X]; done.
Qed.

(** Why colons matter: the upload of an ad of the campaign [10] hides nothing of
    one of the campaign [10:20] whose ad set is [7]. *)
Definition with_ids (campaign adset : string) (i : AdMetricImportInput) : AdMetricImportInput :=
  let p := a_parsedRow i in {|
  a_batchId := a_batchId i; a_uploadRowId := a_uploadRowId i;
  a_parsedRow := {|
    p_dateStart := p_dateStart p; p_dateEnd := p_dateEnd p; p_metricDate := p_metricDate p;
    p_campaignName := p_campaignName p; p_metaCampaignId := js campaign;
    p_adsetName := p_adsetName p; p_metaAdsetExternalId := js adset;
    p_adName := p_adName p; p_metaAdId := p_metaAdId p; p_syntheticAdKey := p_syntheticAdKey p;
    p_adIdentityKey := p_adIdentityKey p; p_adDeliveryStatus := p_adDeliveryStatus p;
    p_attributionSetting := p_attributionSetting p;
    p_resultCount := p_resultCount p; p_resultIndicator := p_resultIndicator p;
    p_purchaseCount := p_purchaseCount p; p_reach := p_reach p;
    p_videoPlay3sCount := p_videoPlay3sCount p; p_videoPlay25Count := p_videoPlay25Count p;
    p_videoPlay50Count := p_videoPlay50Count p; p_videoPlay75Count := p_videoPlay75Count p;
    p_videoPlay100Count := p_videoPlay100Count p; p_addToCartCount := p_addToCartCount p;
    p_frequency := p_frequency p; p_costPerResultUsd := p_costPerResultUsd p;
    p_adsetBudgetLabel := p_adsetBudgetLabel p; p_adsetBudgetType := p_adsetBudgetType p;
    p_spendUsd := p_spendUsd p; p_endStatus := p_endStatus p;
    p_qualityRanking := p_qualityRanking p; p_engagementRateRanking := p_engagementRateRanking p;
    p_conversionRateRanking := p_conversionRateRanking p;
    p_impressions := p_impressions p; p_cpmUsd := p_cpmUsd p; p_linkClicks := p_linkClicks p;
    p_shopClicks := p_shopClicks p; p_cpcLinkUsd := p_cpcLinkUsd p; p_ctrLinkPct := p_ctrLinkPct p;
    p_clicksAll := p_clicksAll p; p_ctrAllPct := p_ctrAllPct p; p_cpcAllUsd := p_cpcAllUsd p;
    p_landingPageViews := p_landingPageViews p;
    p_costPerLandingPageViewUsd := p_costPerLandingPageViewUsd p |};
  a_rawRow := a_rawRow i; a_campaignRefId := a_campaignRefId i; a_metaAdsetRefId := a_metaAdsetRefId i;
  a_metaAdRefId := a_metaAdRefId i; a_creativeId := a_creativeId i; a_attribution := a_attribution i;
  a_conflictPolicy := a_conflictPolicy i |}.

Definition colliding_shown :=
  let first := with_ids "10:20" "7" (example_line "u1" "u1r1" "a" 3) in
  let second := with_ids "10" "20:7" (example_line "u2" "u2r1" "a" 5) in
  shown (adMetrics (db_after (import_ad_metrics example_uuid str_cmp (js "u2") [Some second]
    (db_after (import_ad_metrics example_uuid str_cmp (js "u1") [Some first] empty_db))))).

Example colliding_row_stays : colliding_shown = [(js "u1", 1, true); (js "u2", 1, true)].
Proof. vm_compute. reflexivity. Qed.

Lemma current_rows_are_newest_witness : exists w : MetaDb, first_db = w /\ table_ok (adMetrics w) /\ table_ok (adsetMetrics w).
Proof.
  exists first_db. split; [reflexivity|]. destruct first_ok as [x E].
  apply (current_rows_are_newest example_uuid str_cmp empty_db first_db eq_refl eq_refl).
  apply rtc_once. exact (step_ads _ _ _ _ _ _ _ E).
Defined.

Lemma import_serves_file_witness : exists w : MetaDb,
  (exists x, second_import = Ok (x, w))
  /\ (forall i, i ∈ second_file -> exists r, r ∈ served str_cmp second_file w /\ metric_key r = line_key i)
  /\ forall r, r ∈ served str_cmp second_file w -> exists i, i ∈ second_file /\ metric_key r = line_key i.
Proof.
  destruct second_ok as (st & hidden & refreshed & w & E). exists w. split; [by eexists|].
  destruct (import_serves_file example_uuid str_cmp (js "u2") second_file first_db st hidden refreshed w
              first_tables_ok second_importable E) as (L & M & _).
  split; [intros i I; destruct (L i I) as (r & Ir & Kr & _); exact (ex_intro _ r (conj Ir Kr))|].
  apply M; [exact second_colon_free|exact first_colon_free].
Defined.

Definition of_other_batches (b : str) (w : MetaDb) : bool :=
  forallb (fun r => negb (of_batch b r)) (adMetrics w) && forallb (fun r => negb (of_batch b r)) (adsetMetrics w).

Lemma of_other_batches_true b w : of_other_batches b w = true ->
  (forall r, r ∈ adMetrics w -> uploadBatchId r <> b) /\ (forall x, x ∈ adsetMetrics w -> uploadBatchId x <> b).
Proof.
  intros [A S]%andb_true_iff. rewrite forallb_forall_iff in A. rewrite forallb_forall_iff in S.
  split; intros r I; [specialize (A r I)|specialize (S r I)]; unfold of_batch, str_eqb in *; by case_bool_decide.
Qed.

Definition all_current {D K} `{EqDecision K, MetricTable D K} (rows : list (metric D)) : bool :=
  forallb (fun r => existsb (fun c => bool_decide (metric_key c = metric_key r) && isCurrent c) rows) rows.

Lemma all_current_true {D K} `{EqDecision K, MetricTable D K} (rows : list (metric D)) r : all_current rows = true -> r ∈ rows ->
  exists c, c ∈ rows /\ metric_key c = metric_key r /\ isCurrent c = true.
Proof.
  unfold all_current. rewrite forallb_forall_iff. intros A I. specialize (A r I).
  apply existsb_exists_iff in A as (c & Ic & [K1%bool_decide_eq_true C]%andb_true_iff). eauto.
Qed.

Lemma first_ads_current : all_current (adMetrics first_db) = true.
Proof. vm_compute. reflexivity. Qed.

Lemma first_adsets_current : all_current (adsetMetrics first_db) = true.
Proof. vm_compute. reflexivity. Qed.

Lemma import_deleted_witness : exists w1 counts w2,
  (exists x, second_import = Ok (x, w1))
  /\ delete_upload_metrics (js "u2") w1 = Ok (counts, w2)
  /\ adMetrics w2 = hide second_file (map line_text second_file) (adMetrics first_db).
Proof.
  destruct second_ok as (st & hidden & refreshed & w1 & E).
  destruct (of_other_batches_true (js "u2") first_db) as [Fa Fs]; [vm_compute; reflexivity|].
  destruct (import_deleted example_uuid str_cmp (js "u2") second_file first_db st hidden refreshed w1
              first_tables_ok second_importable Fa Fs) as (counts & w2 & D & A & _).
  - intros r I _. exact (all_current_true _ r first_ads_current I).
  - intros x I _. exact (all_current_true _ x first_adsets_current I).
  - exact E.
  - exists w1, counts, w2. split; [by eexists|]. exact (conj D A).
Defined.
End examples.
